(* ===== verification/_CoqProject ===== *)
-Q . S2P
Prelude.v
Bytes.v
ListHead.v
TimerList.v
TimerRun.v
NestTimer.v
Crc32.v
Heap.v
HeapTimer.v
Epoll.v
Thread.v
Sched.v
SchedInv.v
SchedProps.v
SchedPool.v
SchedSteps.v
SchedMain.v
HashList.v
KeyTable.v
MtSession.v
MbufPool.v
MtIo.v
ShmMq.v
RwCache.v
NetData.v
NetOps.v
NetMain.v
NetInv.v
NetQueues.v
NetBlocks.v
NetLinks.v
NetDest.v
NetLease.v
NetStay.v
NetSteps.v
NetRecv.v
NetGive.v
NetFill.v
NetDispatch.v
NetSend.v
NetEvents.v
NetSess.v
NetReq.v
NetRecycle.v
NetRun.v
NetFrames.v
NetDemo.v
NetProps.v
ConnData.v
ConnNtfy.v
ConnOps.v
ConnAct.v
ConnMulti.v
ConnLoop.v
ConnPoll.v
ConnRun.v
ConnSess.v
ConnDemo.v
ConnKeep.v
ConnKeepOps.v
ConnKeepRun.v
ConnKeepProps.v
ConnKeepDemo.v
NestProto.v
ReportQueue.v
Report.v
WeightSched.v
RawCache.v
ConnSet.v
SockCommu.v
SockInv.v
SockProps.v
ProcMon.v
ProcMonInv.v
ProcMonRun.v
ProcMonFrame.v
ProcMonProps.v
