(* ===== verification/Prelude.v ===== *)
(** * A verification development of the SPP server framework

    SPP 3 is a framework for network servers on Linux.  Its parts are: processes
    (proxy, worker, controller) that exchange packets through message queues in
    shared memory; a library of cooperative threads, the micro threads, in which
    request handlers are written ([src/src/sync_frame/micro_thread]); an older
    asynchronous frame; and "nest", which manages the processes of a deployment.
    This development models the parts that carry the framework's own logic: the
    micro-thread scheduler with everything it stands on, the network layer and the
    actions through which micro threads make requests, the shared-memory queue, the
    socket side of the proxy, the process monitor of the controller, timers,
    statistics reports, and the packet format and load balancing of nest.

    ** How the code is modelled

    - An object is named by a [ptr]; objects live in stores ([gmap ptr _]) and a
      pointer that may be [NULL] is an [option ptr].  Integers are [Z]; where the
      code computes in a fixed width the model wraps with [u32], [u64] or [i32].
      Bytes are a list of [Z] below 256, read and written with bounds checks.
    - A function that would dereference [NULL], read outside a buffer or corrupt
      an intrusive queue returns [None]; a function that can fail in the source
      returns the source's error code.  A theorem that says a result exists
      therefore excludes undefined behaviour.
    - The proxy and the controller can also end the process ([exit]); there results
      are of type [outcome]: [Done], [Exited] or [Undef].  An exception is a value
      beside the state it leaves behind.
    - A micro thread that waits gives up the processor inside a function; the
      function is cut there, and what the thread does when it runs again is a
      definition of its own ([WaitRecv_begin], [WaitRecv_end]).  The local variables
      it keeps are a value of the model ([sr_pc]).
    - A loop that is not structural takes [fuel] and returns [None] without it.
      Callers pass enough: the heap loops one more than the number of elements
      (positions double or halve), the loops over the sleep heap and the timers
      one more than the number of elements (each round removes one).  The I/O
      wrappers, [poll] and the hash table take their fuel as an argument, and
      the theorems say how much is enough.  The report queue looks at each node
      once; the monitor's loops take one more than the processes and the waiting
      messages, since every round removes one.  [DispathTcp] with [n] received bytes
      takes [tcp_fuel n]: a round takes a byte out of the cache or lengthens the
      answer block, which holds at most those bytes.
    - System calls and virtual functions are parameters: [epoll_ctl], the clock,
      [HashValue] and [HashCmp], socket calls, the results of memory allocation.
      Hypotheses on them are named ([epoll_laws], [HashKeyEq], [CacheEnvLaws], the
      section hypotheses of [MtIo], [NetLaws] and [CallbackLaws] of the proxy, [SysLaws]
      of the monitor, [UserCalls] of the timers, [NetEnvLaws] and [CallbackOk] of the
      network layer, [NetLaws], [SwitchLaws], [SessLaws] and [KeepLaws] of the
      actions) and instantiated in the witnesses.  They state documented behaviour, and
      [SessLaws] also that memory does not run out; that the
      kernel accepts the [epoll_ctl] calls of [TcpKeepMgr] is instead a condition on
      each call ([epoll_accepts]), since a refusal can put a connection into the pool
      twice ([attach_refused_pools_twice]).  The network layer is proved with caches
      and allocations below 2 GB, with a [malloc] that may fail: then [DispathTcp] may
      ask for the same memory for ever, and the theorems say where ([malloc_total]
      is the assumption that it does not fail).  That answers of a stream are delivered
      is shown for streams up to 50 MB, since blocks end at 100 MB ([max_stream],
      [FrameLaw]).  A report queue is smaller than 2 GB ([sizes_ok]): the code keeps its
      size in an [int], and [sq_open] is undefined beyond.  Log output and
      monitoring counters are left out.

    ** The files

    - [Prelude], [Bytes]: pointers, machine integers, arrays of pointers, byte
      buffers, tactics, the hint database [spp].
    - [ListHead]: [comm/tbase/list.h], the intrusive doubly linked list on a store of
      cells: its operations refine operations on sequences.
    - [TimerList], [TimerRun]: [comm/timerlist.h/.cpp], lists of timers by timeout on
      those lists: each stays ordered by expiry; [ExpireMicroSeconds] is exact.
      [NestTimer]: [nest/comm/nest_timer.h/.cpp], loop timers on them, with user
      functions that may call the manager again: [RunTimer] returns and fires what
      is due.
    - [Crc32]: [comm/crc32.h/.cpp], equal to the bit-by-bit shift register; it detects
      bursts of up to 32 bits.
    - [Heap]: [heap.h], the array heap with index fields ([HeapEntry] is the class
      [HeapStore]).  [HeapPush] and [HeapPop] implement a bounded priority set;
      [HeapDelete] keeps the array well formed but not always the order.
    - [HeapTimer]: [heap_timer.h/.cpp], timers on that heap.  [check_expired] ends,
      leaves no due timer behind and notifies in the order of expiry.
    - [Epoll]: [epoll_proxy.h/.cpp], the table of watched descriptors.  It agrees
      with the kernel after any calls; registration is a transaction.
    - [Thread], [Sched]: [micro_thread.h/.cpp] and [mt_exec_all_task] of [mt_api.cpp].
      [MicroThread] is the thread record, [MtFrame] the scheduler with its run
      queue, sleep heap, I/O and pend queues, thread pool and epoll table.  A
      context switch is the end of a definition: the code before it and after it
      are two definitions ([EpollSchedule_begin], [EpollSchedule_end]).  What the timers
      and the recycling of [MtFrame::CheckExpired] do to the frame is an argument of
      the daemon round ([timer_call]).
      [SchedInv], [SchedProps], [SchedPool], [SchedSteps] hold the invariant and its
      preservation by each operation; [SchedMain] the step relation [sched_step]
      over all calls and the theorems: no reachable state meets undefined
      behaviour, a thread is in one place at most and its flags say which, timeouts
      wake expired threads (all of them when the heap is in order), [epoll_wait] never sleeps past a wake-up, sub threads wake
      their parent.
    - [HashList]: [hash_list.h], chained hashing with intrusive links; it refines a
      list of keys.
    - [KeyTable]: what the clients of the hash table rely on, a table of objects by
      key, as a class of operations and a class of laws; [HashList] is an instance.
    - [MtSession]: [mt_session.h/.cpp], sessions of actions: the manager refines a map
      from numbers to sessions.  [MbufPool]: [mt_mbuf_pool.h/.cpp], message buffers lent
      by size.
    - [MtIo]: the blocking wrappers of [micro_thread.cpp] ([read], [write], [send],
      [recv], [connect], [accept], ...): [write] sends the buffer or a prefix and ends.
    - [RwCache]: [mt_cache.h/.cpp], blocks, their pool and the chains of blocks in
      which connections buffer data: a chain refines a string of bytes under
      appending, taking out, reading, receiving and sending.
    - [NetData], [NetOps], [NetMain]: [mt_net.h/.cpp], the network layer.  A request
      ([CNetHandler::SendRecv]) finds the destination ([CDestLinks]), one of its up to
      three sockets ([CSockLink]), and waits in a queue of that link for connection,
      sending and answer; events of the sockets and timers of the destinations wake
      it.  [NetData] has the objects, [NetOps] queues, sessions, pools, links and
      sending, [NetMain] receiving, events, requests and the manager.
      [NetInv] is the invariant over all objects (queues, tables, pools, blocks);
      [NetQueues], [NetBlocks], [NetLinks], [NetDest], [NetLease] show that the operations
      keep it.  [NetStay] is what an operation leaves to the threads that wait, with
      the judgement [goes] in which [NetSteps], [NetRecv], [NetGive], [NetFill],
      [NetDispatch], [NetSend], [NetEvents], [NetSess], [NetReq], [NetRecycle] treat all
      operations.  [NetRun] is the step relation of threads and events; [NetFrames] the
      answers in a stream; [NetDemo] a concrete environment; [NetProps] the theorems:
      whatever happens in whatever order, only a stranded thread meets undefined
      behaviour (it waited in [WaitConnect] for a link that was deleted meanwhile);
      requests clean up, answers and requests keep their order, broken links tell
      their waiters.
    - [ConnData], [ConnNtfy], [ConnOps], [ConnAct]: [mt_notify.h/.cpp],
      [mt_connection.h/.cpp], [mt_action.h/.cpp] and [mt_concurrent.cpp], the other way
      to make requests: actions of one thread that run at the same time over UDP
      sockets, TCP sockets kept open, or a UDP socket shared by sessions.  [ConnData]
      has the objects, [ConnNtfy] notification objects, their pools and the shared
      socket, [ConnOps] connections and the lists of idle TCP connections, [ConnAct] the
      actions and [mt_msg_sendrcv]; what runs while the thread waits is the parameter
      [switch].  [ConnMulti] has the invariant of a thread's actions ([good]) and what
      each call does to them, [ConnLoop] and [ConnPoll] the tries and the waits, [ConnRun]
      the theorem that a concurrent request ends and what it tells of every action.  Its fuel
      bounds the waits: each lets time pass or uses up an event ([SwitchLaws]).
      [ConnSess] shows that the datagrams of the shared socket reach the sessions they
      name and that no buffer is lost; there the waiting datagrams bound the turns.  [ConnDemo] has servers to
      run both.  [ConnKeep] specifies the idle TCP connections and has their invariant,
      [ConnKeepOps] and [ConnKeepRun] what each operation does, [ConnKeepProps] that
      [TcpKeepMgr] refines the specification, [ConnKeepDemo] a run.
    - [ShmMq]: [comm/tbase/tshmcommu.h/.cpp], the ring of messages in shared memory
      used by one producer and one consumer at a time, each with or without a lock:
      it refines a bounded FIFO sequence of messages.
    - [NestProto]: [nest/comm/nest_proto.h/.cpp], packing and checking of packets.
    - [ReportQueue]: [comm/report/shm_queue.h/.cpp], the ring of nodes for reports, with
      its registration of readers and signals: it refines a FIFO sequence.
      [Report]: [loop_queue.h/.cpp], [report_handle.h/.cpp], [report_base.h], the reports
      put through it.
    - [RawCache]: [tsockcommu/tcache.h/.cpp] and [tmempool.cpp], the growing byte cache,
      and the type [outcome].  [ConnSet]: [tconnset.h/.cpp] and the send and receive of
      [tsocket.cpp], the table of connections: no byte is lost or put out of order.
      [SockCommu]: [tsockcommu.h/.cpp], [tepollflow.h/.cpp], the event loop of the proxy
      over a model of the kernel.  [SockInv] has its invariant and that each
      operation keeps it, [SockProps] the runs of the proxy: descriptors, epoll set
      and connections always agree; idle connections are closed.
    - [ProcMon]: [comm/tbase/tprocmon.h/.cpp], the controller's process monitor with
      heartbeats, crash reports, adjustment of the numbers and hot reload.
      [ProcMonInv], [ProcMonRun], [ProcMonFrame] and [ProcMonProps] show that its tables are
      exact in every state reached with reports in which no process reports a crash
      twice, that numbers meet their targets, and that a reload ends in the rounds of
      the monitor.
    - [WeightSched]: [nest/comm/weight_schedule.h/.cpp], weighted random choice.

    ** What is not modelled

    Context switching itself (setjmp and assembly), stacks, freeing at shutdown
    ([Destroy], [TermEpoll]), the mapping of shared memory, lock files and races
    between processes on the queues, the destructor of [CNetMgr] and its error
    texts, the destructors of the managers of connections and notification objects,
    the process glue, configuration readers, logging and monitoring counters, socket
    addresses and options, stack dumps, and vendored code.  The constructor of
    [MtFrame] leaves some fields unset; the model takes [_waitnum] as 0.

    ** What follows

    The client of the process monitor, the channels of nest and the older
    asynchronous frame are not modelled; they add little logic to the sockets and
    processes they drive. *)

From Stdlib Require Import ZArith Lia Sorting.Sorted.
From stdpp Require Import base gmap list option sets numbers.

#[global] Open Scope Z_scope.

(** ** Pointers

    An object of the program is named by a [ptr]; a pointer that may be [NULL]
    is an [option ptr].  Two pointers are the same object iff they are equal. *)

Definition ptr : Set := positive.

#[global] Instance ptr_eq_dec : EqDecision ptr := _.
#[global] Instance ptr_countable : Countable ptr := _.

(** ** Machine integers

    A [w]-bit unsigned value is a [Z] in [0 .. 2^w - 1]; arithmetic on it wraps. *)

Definition u32 (z : Z) : Z := z mod 2 ^ 32.
Definition u64 (z : Z) : Z := z mod 2 ^ 64.

(** The conversion to [int] (two's complement, 32 bits). *)
Definition i32 (z : Z) : Z :=
  let r := z mod 2 ^ 32 in if r <? 2 ^ 31 then r else r - 2 ^ 32.

Definition in_u32 (z : Z) : Prop := 0 <= z < 2 ^ 32.
Definition in_u64 (z : Z) : Prop := 0 <= z < 2 ^ 64.

Lemma u32_small z : in_u32 z -> u32 z = z.
Proof. intros. by apply Z.mod_small. Qed.

Lemma u64_small z : in_u64 z -> u64 z = z.
Proof. intros. by apply Z.mod_small. Qed.

Lemma u32_range z : in_u32 (u32 z).
Proof. apply Z.mod_pos_bound. lia. Qed.

Lemma u64_range z : in_u64 (u64 z).
Proof. apply Z.mod_pos_bound. lia. Qed.

Lemma i32_small z : - 2 ^ 31 <= z < 2 ^ 31 -> i32 z = z.
Proof.
  intros Hz. unfold i32. destruct (Z.ltb_spec (z mod 2 ^ 32) (2 ^ 31)) as [H|H].
  - destruct (Z.lt_ge_cases z 0) as [Hn|Hn].
    + rewrite <- (Z.mod_add z 1) in H by lia. rewrite Z.mod_small in H; lia.
    + rewrite Z.mod_small; lia.
  - destruct (Z.lt_ge_cases z 0) as [Hn|Hn].
    + rewrite <- (Z.mod_add z 1) by lia. rewrite Z.mod_small; lia.
    + rewrite Z.mod_small in H; lia.
Qed.

Create HintDb spp.
Create Rewrite HintDb spp.
#[export] Hint Resolve u32_range u64_range : spp.
#[export] Hint Rewrite u32_small u64_small i32_small using (unfold in_u32, in_u64 in *; lia) : spp.

(** ** Arrays of pointers

    A C array of pointers is a list of [option ptr] read and written by a [Z]
    index.  [aget] returns [None] for a [NULL] cell and for an index outside the
    array, so dereferencing its result in the option monad is undefined in both
    cases; [aset] writes one cell. *)

Section arrays.
Context {A : Type}.
Implicit Types (l : list (option A)) (i j : Z).

Definition aget l i : option A :=
  if decide (0 <= i) then mjoin (l !! Z.to_nat i) else None.

Definition aset l i (x : option A) : list (option A) := <[Z.to_nat i := x]> l.

Definition alen l : Z := Z.of_nat (length l).

Lemma alen_aset l i x : alen (aset l i x) = alen l.
Proof. unfold alen, aset. by rewrite length_insert. Qed.

Lemma aget_aset_eq l i x : 0 <= i < alen l -> aget (aset l i x) i = x.
Proof.
  unfold alen, aget, aset. intros. rewrite decide_True by lia.
  by rewrite list_lookup_insert_eq by lia.
Qed.

Lemma aget_aset_ne l i j x : 0 <= i -> i <> j -> aget (aset l i x) j = aget l j.
Proof.
  unfold aget, aset. intros. case_decide; [|done].
  rewrite list_lookup_insert_ne by lia. done.
Qed.

Lemma aget_Some_range l i x : aget l i = Some x -> 0 <= i < alen l.
Proof.
  unfold aget, alen. case_decide; [|done]. intros H'.
  destruct (l !! Z.to_nat i) as [y|] eqn:E; [|done].
  apply lookup_lt_Some in E. lia.
Qed.

Lemma aget_replicate n i : aget (replicate n (@None A)) i = None.
Proof.
  unfold aget. case_decide; [|done].
  destruct (_ !! _) eqn:E; [|done]. by apply lookup_replicate in E as [-> _].
Qed.

Lemma aget_app_l l l' i : i < alen l -> aget (l ++ l') i = aget l i.
Proof.
  unfold aget, alen. intros. case_decide; [|done]. by rewrite lookup_app_l by lia.
Qed.

Lemma aget_app_r l l' i : alen l <= i -> aget (l ++ l') i = aget l' (i - alen l).
Proof.
  unfold aget, alen. intros. rewrite !decide_True by lia.
  rewrite lookup_app_r by lia. by replace (Z.to_nat i - length l)%nat with
    (Z.to_nat (i - Z.of_nat (length l))) by lia.
Qed.

Lemma aget_oob l i : alen l <= i -> aget l i = None.
Proof.
  unfold aget, alen. intros. case_decide; [|done]. by rewrite lookup_ge_None_2 by lia.
Qed.
End arrays.

#[export] Hint Rewrite @alen_aset : spp.
#[export] Hint Rewrite @aget_aset_eq using (autorewrite with spp; lia) : spp.

(** ** Lists *)

Lemma StronglySorted_ext {A} (R R' : A -> A -> Prop) l :
  (forall x y, R x y -> R' x y) -> StronglySorted R l -> StronglySorted R' l.
Proof.
  intros HR. induction 1 as [|x l _ IH Hx]; constructor; [done|].
  eapply List.Forall_impl; [|exact Hx]. auto.
Qed.

(** ** Tactics *)

(** Split every boolean test and every comparison in the goal. *)
Ltac split_ifs :=
  repeat match goal with
  | |- context [if decide ?P then _ else _] => destruct (decide P)
  | |- context [if ?x <? ?y then _ else _] => destruct (Z.ltb_spec x y)
  | |- context [if ?x <=? ?y then _ else _] => destruct (Z.leb_spec x y)
  | |- context [if ?x =? ?y then _ else _] => destruct (Z.eqb_spec x y)
  end.

(** The same in hypotheses. *)
Ltac split_ifs_in H :=
  repeat match type of H with
  | context [if decide ?P then _ else _] => destruct (decide P)
  | context [if ?x <? ?y then _ else _] => destruct (Z.ltb_spec x y)
  | context [if ?x <=? ?y then _ else _] => destruct (Z.leb_spec x y)
  | context [if ?x =? ?y then _ else _] => destruct (Z.eqb_spec x y)
  end.

(** [lia] with division and remainder by constants. *)
Ltac dlia := Z.to_euclidean_division_equations; lia.
