(* ===== verification/Bytes.v ===== *)
(** * Byte buffers

    Memory blocks as lists of bytes read and written at an offset, as [memcpy]
    does: an access outside the block is undefined ([None]).  Also the encodings
    of 32-bit words used by the message queue (little endian, the machine's) and
    by the network protocol (big endian, [htonl]), and rings: a block read and
    written from a position on, wrapping at its end. *)

From Stdlib Require Import ZArith Lia.
From stdpp Require Import base list option.
From S2P Require Import Prelude.

Definition blen (m : list Z) : Z := Z.of_nat (length m).

Definition is_byte (b : Z) : Prop := 0 <= b < 256.

(** The elements of a literal buffer are bytes. *)
Ltac all_bytes := repeat first [apply Forall_nil_2 | apply Forall_cons_2; [unfold is_byte; lia|]].

(** [n] bytes from offset [off]. *)
Definition bread (off n : Z) (m : list Z) : option (list Z) :=
  if (0 <=? off) && (0 <=? n) && (off + n <=? blen m)
  then Some (take (Z.to_nat n) (drop (Z.to_nat off) m)) else None.

(** The memory [n] bytes further on; nothing past its end. *)
Definition bskip (n : Z) (m : list Z) : list Z := if blen m <=? n then [] else drop (Z.to_nat n) m.

Definition splice (i : nat) (b m : list Z) : list Z := take i m ++ b ++ drop (i + length b) m.

(** Copy [b] to offset [off]. *)
Definition bwrite (off : Z) (b m : list Z) : option (list Z) :=
  if (0 <=? off) && (off + blen b <=? blen m) then Some (splice (Z.to_nat off) b m) else None.

(** The [n] low bytes of [z], least significant first, and back. *)
Fixpoint le_bytes (n : nat) (z : Z) : list Z :=
  match n with O => [] | S n => z mod 256 :: le_bytes n (z / 256) end.
Fixpoint of_le (l : list Z) : Z :=
  match l with [] => 0 | b :: l => b + 256 * of_le l end.

Definition le32 : Z -> list Z := le_bytes 4.
(** [htonl]-encoded words. *)
Definition be32 (z : Z) : list Z := rev (le_bytes 4 z).
Definition of_be (l : list Z) : Z := of_le (rev l).

Lemma length_le n z : length (le_bytes n z) = n.
Proof. revert z. induction n; intros z; simpl; auto. Qed.

Lemma of_le_bytes n z : of_le (le_bytes n z) = z mod 2 ^ (8 * Z.of_nat n).
Proof.
  revert z. induction n as [|n IH]; intros z; cbn [le_bytes of_le].
  { symmetry. apply Z.mod_1_r. }
  rewrite IH, Nat2Z.inj_succ. replace (2 ^ (8 * Z.succ (Z.of_nat n))) with (256 * 2 ^ (8 * Z.of_nat n))
    by (rewrite Z.mul_succ_r, Z.pow_add_r by lia; lia).
  rewrite Z.rem_mul_r by lia. done.
Qed.

Lemma of_le32 z : in_u32 z -> of_le (le32 z) = z.
Proof. intros Hz. unfold le32. rewrite of_le_bytes. by apply Z.mod_small. Qed.

Lemma of_be32 z : in_u32 z -> of_be (be32 z) = z.
Proof. intros Hz. unfold of_be, be32. rewrite rev_involutive. by apply of_le32. Qed.

Lemma of_le_range bs : Forall is_byte bs -> 0 <= of_le bs < 256 ^ Z.of_nat (length bs).
Proof.
  induction 1 as [|b bs Hb _ IH]; [done|]. cbn [of_le length]. unfold is_byte in Hb.
  rewrite Nat2Z.inj_succ, Z.pow_succ_r by lia. lia.
Qed.

Lemma length_be32 z : length (be32 z) = 4%nat.
Proof. unfold be32. by rewrite length_rev, length_le. Qed.

Lemma blen_be32 z : blen (be32 z) = 4.
Proof. unfold blen. by rewrite length_be32. Qed.

(** ** Reading and writing *)

Lemma blen_app a b : blen (a ++ b) = blen a + blen b.
Proof. unfold blen. rewrite length_app. lia. Qed.

Lemma length_splice i b m : (i + length b <= length m)%nat -> length (splice i b m) = length m.
Proof. intros. unfold splice. rewrite !length_app, length_take, length_drop. lia. Qed.

Lemma bread_ok i n m : (i + n <= length m)%nat ->
  bread (Z.of_nat i) (Z.of_nat n) m = Some (take n (drop i m)).
Proof.
  intros. unfold bread, blen. rewrite !(proj2 (Z.leb_le _ _)) by lia. simpl. by rewrite !Nat2Z.id.
Qed.

Lemma bwrite_ok i b m : (i + length b <= length m)%nat ->
  bwrite (Z.of_nat i) b m = Some (splice i b m).
Proof.
  intros. unfold bwrite, blen. rewrite !(proj2 (Z.leb_le _ _)) by lia. simpl. by rewrite Nat2Z.id.
Qed.

Lemma bskip_app a b : bskip (blen a) (a ++ b) = b.
Proof.
  unfold bskip. rewrite blen_app. unfold blen. destruct (Z.leb_spec (Z.of_nat (length a) + Z.of_nat (length b)) (Z.of_nat (length a))).
  - destruct b; [done|simpl in *; lia].
  - by rewrite Nat2Z.id, drop_app_length.
Qed.

(** Two adjacent writes are one. *)
Lemma splice_app i a b m : (i + length a + length b <= length m)%nat ->
  splice (i + length a) b (splice i a m) = splice i (a ++ b) m.
Proof.
  intros. unfold splice.
  rewrite take_app_ge by (rewrite length_take; lia).
  rewrite length_take, Nat.min_l by lia.
  replace (i + length a - i)%nat with (length a) by lia. rewrite take_app_length.
  rewrite drop_app_ge by (rewrite length_take; lia). rewrite length_take, Nat.min_l by lia.
  rewrite drop_app_ge by lia. rewrite drop_drop, length_app, <- !app_assoc.
  do 3 f_equal. f_equal. lia.
Qed.

(** A write, and what reads see of it. *)
Lemma bread_is_Some off n m : 0 <= off -> 0 <= n -> off + n <= blen m -> exists b, bread off n m = Some b /\ blen b = n.
Proof.
  intros. unfold bread. rewrite !(proj2 (Z.leb_le _ _)) by done. eexists. split; [done|].
  unfold blen in *. rewrite length_take, length_drop. lia.
Qed.

Lemma bwrite_spec off b m : 0 <= off -> off + blen b <= blen m ->
  exists m', bwrite off b m = Some m' /\ blen m' = blen m /\ bread off (blen b) m' = Some b /\
    forall o n, o + n <= off \/ off + blen b <= o -> bread o n m' = bread o n m.
Proof.
  intros H0 H1. unfold bwrite. rewrite !(proj2 (Z.leb_le _ _)) by done. eexists. split; [done|].
  assert (blen (splice (Z.to_nat off) b m) = blen m) as Hl
    by (unfold blen in *; rewrite length_splice; lia).
  split; [done|]. unfold bread. rewrite Hl. unfold blen in *. split.
  - rewrite !(proj2 (Z.leb_le _ _)) by lia. cbn. f_equal. unfold splice.
    rewrite drop_app_ge, length_take by (rewrite length_take; lia).
    replace (Z.to_nat off - _)%nat with 0%nat by lia. rewrite drop_0, Nat2Z.id. by rewrite take_app_length.
  - intros o n Hd. destruct (Z.leb_spec 0 o); [|done]. destruct (Z.leb_spec 0 n); [|done].
    destruct (Z.leb_spec (o + n) (Z.of_nat (length m))); [|done]. cbn. f_equal. unfold splice.
    destruct Hd as [Hd|Hd].
    + rewrite drop_app_le by (rewrite length_take; lia). rewrite take_app_le by (rewrite length_drop, length_take; lia).
      rewrite <- (take_drop (Z.to_nat off) m) at 2.
      rewrite (drop_app_le (take _ m)) by (rewrite length_take; lia).
      by rewrite take_app_le by (rewrite length_drop, length_take; lia).
    + rewrite drop_app_ge by (rewrite length_take; lia). rewrite length_take.
      rewrite drop_app_ge by lia. rewrite drop_drop. do 2 f_equal. lia.
Qed.

Lemma bread_replicate z k o n : 0 <= o -> 0 <= n -> o + n <= Z.of_nat k ->
  bread o n (replicate k z) = Some (replicate (Z.to_nat n) z).
Proof.
  intros. unfold bread, blen. rewrite length_replicate, !(proj2 (Z.leb_le _ _)) by lia. cbn.
  rewrite drop_replicate, take_replicate. do 2 f_equal. lia.
Qed.

(** Two adjacent writes are one. *)
Lemma bwrite_app off a b m m1 : bwrite off a m = Some m1 -> off + blen a + blen b <= blen m ->
  bwrite (off + blen a) b m1 = bwrite off (a ++ b) m.
Proof.
  unfold bwrite, blen. intros H Hl. destruct (Z.leb_spec 0 off); [|done].
  destruct (Z.leb_spec (off + Z.of_nat (length a)) (Z.of_nat (length m))); [|done]. injection H as <-.
  rewrite length_splice, length_app by lia. rewrite !(proj2 (Z.leb_le _ _)) by lia. cbn. f_equal.
  replace (Z.to_nat (off + Z.of_nat (length a))) with (Z.to_nat off + length a)%nat by lia.
  apply splice_app. lia.
Qed.

(** A part of what was read. *)
Lemma bread_part off n m a b c : bread off n m = Some (a ++ b ++ c) -> bread (off + blen a) (blen b) m = Some b.
Proof.
  unfold bread, blen. intros H. destruct (Z.leb_spec 0 off); [|done]. destruct (Z.leb_spec 0 n); [|done].
  destruct (Z.leb_spec (off + n) (Z.of_nat (length m))); [|done]. injection H as H.
  pose proof (f_equal length H) as Hlen. rewrite length_take, length_drop, !length_app in Hlen.
  rewrite !(proj2 (Z.leb_le _ _)) by lia. cbn. f_equal.
  replace (Z.to_nat (off + Z.of_nat (length a))) with (Z.to_nat off + length a)%nat by lia.
  rewrite <- drop_drop, Nat2Z.id. apply (f_equal (drop (length a))) in H. rewrite drop_app_length in H.
  apply (f_equal (take (length b))) in H. rewrite take_app_length in H.
  rewrite skipn_firstn_comm, take_take in H. rewrite <- H at 2. f_equal. lia.
Qed.

(** ** Rings *)

(** The block read from position [h] on, all the way round. *)
Definition rot (h : nat) (m : list Z) : list Z := drop h m ++ take h m.

(** Advance a position by [n] in a ring of [N] bytes. *)
Definition adv (N h n : nat) : nat := if decide (h + n <= N)%nat then (h + n)%nat else (h + n - N)%nat.

(** Write [b] at position [t], wrapping at the end of the block. *)
Definition ring_write (t : nat) (b m : list Z) : list Z :=
  if decide (t + length b <= length m)%nat then splice t b m
  else splice 0 (drop (length m - t) b) (splice t (take (length m - t) b) m).

Lemma length_rot h m : length (rot h m) = length m.
Proof. unfold rot. rewrite length_app, length_drop, length_take. lia. Qed.

Lemma rot_adv h n m : (h <= length m)%nat -> (n <= length m)%nat ->
  rot (adv (length m) h n) m = drop n (rot h m) ++ take n (rot h m).
Proof.
  intros Hh Hn. unfold rot, adv. case_decide.
  - rewrite drop_app_le, take_app_le by (rewrite length_drop; lia).
    rewrite drop_drop, <- app_assoc. f_equal. by rewrite take_take_drop.
  - rewrite drop_app_ge, take_app_ge by (rewrite length_drop; lia). rewrite length_drop.
    replace (n - (length m - h))%nat with (h + n - length m)%nat by lia.
    set (k := (h + n - length m)%nat). 
    rewrite take_take, Nat.min_l by lia.
    replace (drop k m) with (drop k (take h m) ++ drop h m); [by rewrite <- !app_assoc|].
    rewrite <- (take_drop h m) at 3. rewrite drop_app_le by (rewrite length_take; lia). done.
Qed.

Lemma rot_write t b m : (t <= length m)%nat -> (length b <= length m)%nat ->
  rot t (ring_write t b m) = b ++ drop (length b) (rot t m).
Proof.
  intros Ht Hb. unfold ring_write. case_decide as Hc.
  - unfold rot, splice. rewrite drop_app_ge by (rewrite length_take; lia).
    rewrite length_take, Nat.min_l by lia. rewrite Nat.sub_diag, drop_0.
    rewrite take_app_le by (rewrite length_take; lia). rewrite take_take, Nat.min_id.
    rewrite drop_app_le by (rewrite length_drop; lia). rewrite drop_drop, <- app_assoc. done.
  - set (n1 := (length m - t)%nat).
    assert (H1 : length (take n1 b) = n1) by (rewrite length_take; lia).
    assert (E : splice t (take n1 b) m = take t m ++ take n1 b).
    { unfold splice. rewrite H1, drop_ge by lia. by rewrite app_nil_r. }
    rewrite E. unfold splice. rewrite take_0, app_nil_l, Nat.add_0_l.
    set (b2 := drop n1 b). assert (H2 : length b2 = (length b - n1)%nat) by (unfold b2; by rewrite length_drop).
    rewrite drop_app_le by (rewrite length_take; lia). unfold rot.
    assert (Hl : length (b2 ++ drop (length b2) (take t m)) = t)
      by (rewrite length_app, length_drop, length_take; lia).
    rewrite app_assoc, drop_app_ge by lia. rewrite take_app_le by lia. rewrite Hl, Nat.sub_diag, drop_0.
    rewrite (take_ge (b2 ++ drop (length b2) (take t m))) by lia. rewrite drop_app_ge by (rewrite length_drop; lia). rewrite length_drop.
    replace (length b - (length m - t))%nat with (length b2) by lia.
    rewrite app_assoc. f_equal. unfold b2. by rewrite take_drop.
Qed.

Lemma length_ring_write t b m : (t <= length m)%nat -> (length b <= length m)%nat ->
  length (ring_write t b m) = length m.
Proof.
  intros. unfold ring_write. case_decide; [by apply length_splice|].
  rewrite !length_splice; rewrite ?length_splice; rewrite ?length_take, ?length_drop; lia.
Qed.

(** A read of [n] bytes at position [h], in one or two pieces. *)
Lemma rot_read h n m : (h + n <= length m)%nat -> take n (drop h m) = take n (rot h m).
Proof. intros. unfold rot. by rewrite take_app_le by (rewrite length_drop; lia). Qed.

Lemma rot_read_wrap h n m : (h <= length m)%nat -> (n <= length m)%nat -> (length m < h + n)%nat ->
  take (length m - h) (drop h m) ++ take (n - (length m - h)) (drop 0 m) = take n (rot h m).
Proof.
  intros. unfold rot. rewrite take_app_ge by (rewrite length_drop; lia).
  rewrite (take_ge (drop h m)) by (rewrite length_drop; lia). rewrite length_drop, drop_0.
  rewrite take_take, Nat.min_l by lia. done.
Qed.

(** ** Sequences of accesses *)

Lemma bread_at off n i k m : off = Z.of_nat i -> n = Z.of_nat k -> (i + k <= length m)%nat ->
  bread off n m = Some (take k (drop i m)).
Proof. intros -> ->. apply bread_ok. Qed.

Lemma bread_all n m : n = blen m -> bread 0 n m = Some m.
Proof. intros ->. rewrite (bread_at _ _ 0 (length m)) by (done || lia). by rewrite drop_0, take_ge. Qed.

Lemma bwrite_at off i b m : off = Z.of_nat i -> (i + length b <= length m)%nat ->
  bwrite off b m = Some (splice i b m).
Proof. intros ->. apply bwrite_ok. Qed.

Lemma bwrite_length off b m m' : bwrite off b m = Some m' -> length m' = length m.
Proof.
  unfold bwrite, blen. destruct (Z.leb_spec 0 off); [|done].
  destruct (Z.leb_spec (off + Z.of_nat (length b)) (Z.of_nat (length m))); [|done].
  intros [= <-]. apply length_splice. lia.
Qed.

(** Two adjacent writes are one write, whatever follows. *)
Lemma bwrite_seq {B} off off' a b m (k : list Z -> option B) :
  0 <= off -> off' = off + blen a ->
  (m1 ← bwrite off a m; m2 ← bwrite off' b m1; k m2) = (m2 ← bwrite off (a ++ b) m; k m2).
Proof.
  intros Hoff ->. destruct (bwrite off a m) as [m1|] eqn:E; simpl.
  - pose proof (bwrite_length _ _ _ _ E) as Hl. revert E. unfold bwrite, blen. rewrite length_app, Hl.
    destruct (Z.leb_spec 0 off); [|done]. destruct (Z.leb_spec 0 (off + Z.of_nat (length a))); [|lia]. simpl.
    destruct (Z.leb_spec (off + Z.of_nat (length a)) (Z.of_nat (length m))); [|done]. intros [= <-].
    replace (off + Z.of_nat (length a + length b)) with (off + Z.of_nat (length a) + Z.of_nat (length b)) by lia.
    destruct (Z.leb_spec (off + Z.of_nat (length a) + Z.of_nat (length b)) (Z.of_nat (length m))); [|done]. simpl.
    rewrite <- splice_app by lia. do 2 f_equal. lia.
  - revert E. unfold bwrite, blen. rewrite length_app.
    destruct (Z.leb_spec 0 off); [|done]. simpl.
    destruct (Z.leb_spec (off + Z.of_nat (length a)) (Z.of_nat (length m))); [done|].
    destruct (Z.leb_spec (off + Z.of_nat (length a + length b)) (Z.of_nat (length m))); [lia|done].
Qed.

Lemma bwrite_seq_last off off' a b m : 0 <= off -> off' = off + blen a ->
  (m1 ← bwrite off a m; bwrite off' b m1) = bwrite off (a ++ b) m.
Proof.
  intros H1 H2. transitivity (m1 ← bwrite off a m; m2 ← bwrite off' b m1; Some m2).
  - destruct (bwrite off a m); [|done]. simpl. by destruct (bwrite off' b l).
  - rewrite bwrite_seq by done. by destruct (bwrite off (a ++ b) m).
Qed.
