(* ===== verification/ListHead.v ===== *)
(** * Intrusive doubly linked lists

    [comm/tbase/list.h]: circular lists of [struct list_head] cells embedded in
    objects, and the class [CListHead] over them.  A cell is named by the pointer
    to its object; following a pointer that is [NULL] or names no cell is undefined.

    The operations refine a finite map from list heads to the sequence of their
    elements.  An object that is in no list heads a list of its own, as the
    constructor [CListObject] leaves it. *)

From Stdlib Require Import ZArith Lia.
From stdpp Require Import base gmap list option sets.
From S2P Require Import Prelude.

Record list_head := mkLH { lnext : option ptr; lprev : option ptr }.
Notation cells := (gmap ptr list_head).

(** ** The code *)

Definition rd_next (st : cells) (p : ptr) : option ptr := c ← st !! p; lnext c.
Definition rd_prev (st : cells) (p : ptr) : option ptr := c ← st !! p; lprev c.

(** [p->next = v] and [p->prev = v]. *)
Definition wr_next (p : ptr) (v : option ptr) (st : cells) : option cells :=
  c ← st !! p; Some (<[p := mkLH v (lprev c)]> st).
Definition wr_prev (p : ptr) (v : option ptr) (st : cells) : option cells :=
  c ← st !! p; Some (<[p := mkLH (lnext c) v]> st).

(** The constructor of [CListObject] calls it on new memory. *)
Definition INIT_LIST_HEAD (p : ptr) (st : cells) : cells := <[p := mkLH (Some p) (Some p)]> st.

Definition list_add_between (p prev next : ptr) (st : cells) : option cells :=
  st ← wr_prev next (Some p) st;
  st ← wr_next p (Some next) st;
  st ← wr_prev p (Some prev) st;
  wr_next prev (Some p) st.

Definition list_add (p head : ptr) (st : cells) : option cells :=
  n ← rd_next st head; list_add_between p head n st.

Definition list_add_tail (p head : ptr) (st : cells) : option cells :=
  t ← rd_prev st head; list_add_between p t head st.

(** [__list_del]. *)
Definition list_del_between (prev next : ptr) (st : cells) : option cells :=
  st ← wr_prev next (Some prev) st; wr_next prev (Some next) st.

(** [__list_del(entry->prev, entry->next)]. *)
Definition list_unlink (entry : ptr) (st : cells) : option cells :=
  a ← rd_prev st entry; b ← rd_next st entry; list_del_between a b st.

Definition list_del (entry : ptr) (st : cells) : option cells :=
  st ← list_unlink entry st;
  st ← wr_next entry None st;
  wr_prev entry None st.

(** Also [CListHead::ResetList] and [ListDel]. *)
Definition list_del_init (entry : ptr) (st : cells) : option cells :=
  st ← list_unlink entry st; Some (INIT_LIST_HEAD entry st).

Definition list_move (l head : ptr) (st : cells) : option cells :=
  st ← list_unlink l st; list_add l head st.

Definition list_move_tail (l head : ptr) (st : cells) : option cells :=
  st ← list_unlink l st; list_add_tail l head st.

Definition list_empty (head : ptr) (st : cells) : option bool :=
  c ← st !! head; Some (bool_decide (lnext c = Some head)).

Definition list_splice_at (l head : ptr) (st : cells) : option cells :=
  first ← rd_next st l;
  lst ← rd_prev st l;
  at_ ← rd_next st head;
  st ← wr_prev first (Some head) st;
  st ← wr_next head (Some first) st;
  st ← wr_next lst (Some at_) st;
  wr_prev at_ (Some lst) st.

Definition list_splice (l head : ptr) (st : cells) : option cells :=
  e ← list_empty l st;
  if e : bool then Some st else list_splice_at l head st.

Definition list_splice_init (l head : ptr) (st : cells) : option cells :=
  e ← list_empty l st;
  if e : bool then Some st else st ← list_splice_at l head st; Some (INIT_LIST_HEAD l st).

(** [CListHead::FreeList]. *)
Fixpoint FreeList (fuel : nat) (head : ptr) (st : cells) : option cells :=
  match fuel with
  | O => None
  | S fuel =>
      e ← list_empty head st;
      if e : bool then Some st
      else n ← rd_next st head; st ← list_del_init n st; FreeList fuel head st
  end.

(** ** Segments *)

(** [links st x l y]: from [x] forward through [l] to [y], and back. *)
Fixpoint links (st : cells) (x : ptr) (l : list ptr) (y : ptr) : Prop :=
  match l with
  | [] => rd_next st x = Some y /\ rd_prev st y = Some x
  | z :: l => rd_next st x = Some z /\ rd_prev st z = Some x /\ links st z l y
  end.

Definition first_of (l : list ptr) (y : ptr) : ptr := default y (head l).
Definition last_of (x : ptr) (l : list ptr) : ptr := default x (list.last l).

Lemma last_of_cons x z l : last_of x (z :: l) = last_of z l.
Proof. unfold last_of. rewrite last_cons. by destruct (list.last l). Qed.

Lemma last_of_in x l : last_of x l ∈ x :: l.
Proof.
  unfold last_of. destruct (list.last l) as [y|] eqn:E; simpl; [|set_solver].
  apply last_Some_elem_of in E. set_solver.
Qed.

Lemma first_of_in l y : first_of l y ∈ l ++ [y].
Proof. destruct l; simpl; set_solver. Qed.

Lemma links_app st x l1 z l2 y :
  links st x (l1 ++ z :: l2) y <-> links st x l1 z /\ links st z l2 y.
Proof.
  revert x. induction l1 as [|w l1 IH]; intros x; simpl; [tauto|]. rewrite IH. tauto.
Qed.

Lemma links_ends st x l y : links st x l y ->
  rd_next st x = Some (first_of l y) /\ rd_prev st y = Some (last_of x l).
Proof.
  revert x. induction l as [|z l IH]; intros x; [done|].
  intros (H1 & _ & H3). split; [done|]. rewrite last_of_cons. by apply IH.
Qed.

Lemma links_dom st x l y : links st x l y -> forall z, z ∈ x :: l -> is_Some (st !! z).
Proof.
  assert (forall x v, rd_next st x = Some v -> is_Some (st !! x)) as Hd.
  { unfold rd_next. intros a v. destruct (st !! a); [done|discriminate]. }
  revert x. induction l as [|w l IH]; intros x; simpl.
  - intros [H _] z Hz. assert (z = x) as -> by set_solver. eauto.
  - intros (H & _ & H') z Hz. apply elem_of_cons in Hz as [-> | Hz]; [eauto|]. by apply (IH w).
Qed.

(** A segment is kept by a store that agrees on it except at its last edge, which
    may lead elsewhere. *)
Lemma links_retarget st st' x l y z :
  links st x l y ->
  (forall a, a ∈ x :: l -> a <> last_of x l -> rd_next st' a = rd_next st a) ->
  (forall a, a ∈ l -> rd_prev st' a = rd_prev st a) ->
  NoDup (x :: l) ->
  rd_next st' (last_of x l) = Some z -> rd_prev st' z = Some (last_of x l) ->
  links st' x l z.
Proof.
  revert x. induction l as [|w l IH]; intros x Hl Hn Hp Hd Hz1 Hz2; [done|].
  rewrite last_of_cons in *. destruct Hl as (H1 & H2 & H3). apply NoDup_cons in Hd as [Hx Hd].
  assert (x <> last_of w l). { intros ->. apply Hx, last_of_in. }
  cbn [links]. rewrite Hn by (done || set_solver). rewrite Hp by set_solver.
  split; [done|]. split; [done|]. apply IH; try done.
  - intros a Ha Hna. apply Hn; [set_solver|done].
  - intros a Ha. apply Hp. set_solver.
Qed.

Lemma links_frame st st' x l y :
  links st x l y ->
  (forall a, a ∈ x :: l -> rd_next st' a = rd_next st a) ->
  (forall a, a ∈ l ++ [y] -> rd_prev st' a = rd_prev st a) ->
  links st' x l y.
Proof.
  revert x. induction l as [|w l IH]; intros x; simpl.
  - intros [H1 H2] Hn Hp. rewrite Hn, Hp by set_solver. done.
  - intros (H1 & H2 & H3) Hn Hp. rewrite Hn, Hp by set_solver. split_and!; [done..|].
    apply IH; [done|intros; apply Hn; set_solver|intros; apply Hp; set_solver].
Qed.

(** ** What a write changes *)

Section writes.
Implicit Types (st : cells) (p a : ptr).

Lemma wr_next_Some st p v : is_Some (st !! p) -> is_Some (wr_next p v st).
Proof. intros [c E]. unfold wr_next. by rewrite E. Qed.
Lemma wr_prev_Some st p v : is_Some (st !! p) -> is_Some (wr_prev p v st).
Proof. intros [c E]. unfold wr_prev. by rewrite E. Qed.

Lemma wr_next_reads st st' p v : wr_next p v st = Some st' ->
  dom st' = dom st /\ (forall a, rd_prev st' a = rd_prev st a) /\
  (forall a, rd_next st' a = if decide (a = p) then v else rd_next st a).
Proof.
  unfold wr_next, rd_prev, rd_next. intros H. destruct (st !! p) as [c|] eqn:E; [|done].
  injection H as <-. split.
  - apply dom_insert_lookup_L. eauto.
  - split; intros a; destruct (decide (a = p)) as [-> | Hn];
      rewrite ?lookup_insert_eq, ?lookup_insert_ne, ?E by congruence; done.
Qed.

Lemma wr_prev_reads st st' p v : wr_prev p v st = Some st' ->
  dom st' = dom st /\ (forall a, rd_next st' a = rd_next st a) /\
  (forall a, rd_prev st' a = if decide (a = p) then v else rd_prev st a).
Proof.
  unfold wr_prev, rd_prev, rd_next. intros H. destruct (st !! p) as [c|] eqn:E; [|done].
  injection H as <-. split.
  - apply dom_insert_lookup_L. eauto.
  - split; intros a; destruct (decide (a = p)) as [-> | Hn];
      rewrite ?lookup_insert_eq, ?lookup_insert_ne, ?E by congruence; done.
Qed.
End writes.

(** The shape of the next lemmas: the operation succeeds, keeps the domain, and
    its reads are given by cases. *)
Definition reads_as (r : option cells) (st : cells) (fn fp : ptr -> option ptr) : Prop :=
  exists st', r = Some st' /\ dom st' = dom st /\
    (forall a, rd_next st' a = fn a) /\ (forall a, rd_prev st' a = fp a).

Lemma wr_next_as st p v : p ∈ dom st ->
  reads_as (wr_next p v st) st (fun a => if decide (a = p) then v else rd_next st a) (rd_prev st).
Proof.
  intros Hp%elem_of_dom. destruct (wr_next_Some st p v Hp) as [st' E].
  apply wr_next_reads in E as H. exists st'. tauto.
Qed.

Lemma wr_prev_as st p v : p ∈ dom st ->
  reads_as (wr_prev p v st) st (rd_next st) (fun a => if decide (a = p) then v else rd_prev st a).
Proof.
  intros Hp%elem_of_dom. destruct (wr_prev_Some st p v Hp) as [st' E].
  apply wr_prev_reads in E as H. exists st'. tauto.
Qed.

Lemma reads_as_ret st : reads_as (Some st) st (rd_next st) (rd_prev st).
Proof. by exists st. Qed.

(** Run one write, then the rest. *)
Ltac wr lem :=
  let st' := fresh "st" in let E := fresh "E" in let D := fresh "D" in
  let Rn := fresh "Rn" in let Rp := fresh "Rp" in
  edestruct lem as (st' & E & D & Rn & Rp);
  [|rewrite E; cbn [mbind option_bind]; clear E];
  [rewrite ?D; (done || set_solver)|].

Ltac wr_end := eexists; split; [reflexivity|]; split; [congruence|];
  split; intros ?; repeat match goal with H : forall a, rd_next _ a = _ |- _ => rewrite H
    | H : forall a, rd_prev _ a = _ |- _ => rewrite H end;
  repeat case_decide; subst; try congruence; try done.

Lemma list_del_between_as st a b : a ∈ dom st -> b ∈ dom st ->
  reads_as (list_del_between a b st) st
    (fun c => if decide (c = a) then Some b else rd_next st c)
    (fun c => if decide (c = b) then Some a else rd_prev st c).
Proof.
  intros Ha Hb. unfold list_del_between. wr wr_prev_as.
  edestruct (wr_next_as st0) as (st' & E & D' & Rn' & Rp'); [|rewrite E]; [set_solver|]. wr_end.
Qed.

Lemma list_add_between_as st p a b : p ∈ dom st -> a ∈ dom st -> b ∈ dom st -> p <> a -> p <> b ->
  reads_as (list_add_between p a b st) st
    (fun c => if decide (c = a) then Some p else if decide (c = p) then Some b else rd_next st c)
    (fun c => if decide (c = p) then Some a else if decide (c = b) then Some p else rd_prev st c).
Proof.
  intros Hp Ha Hb Hpa Hpb. unfold list_add_between. wr wr_prev_as. wr wr_next_as. wr wr_prev_as.
  edestruct (wr_next_as st2) as (st' & E & D' & Rn' & Rp'); [|rewrite E]; [set_solver|]. wr_end.
Qed.

Lemma list_splice_at_as st l first lst head at_ :
  rd_next st l = Some first -> rd_prev st l = Some lst -> rd_next st head = Some at_ ->
  first ∈ dom st -> lst ∈ dom st -> head ∈ dom st -> at_ ∈ dom st ->
  reads_as (list_splice_at l head st) st
    (fun c => if decide (c = lst) then Some at_ else if decide (c = head) then Some first else rd_next st c)
    (fun c => if decide (c = at_) then Some lst else if decide (c = first) then Some head else rd_prev st c).
Proof.
  intros H1 H2 H3 Hf Hl Hh Ha. unfold list_splice_at. rewrite H1, H2, H3. cbn [mbind option_bind].
  wr wr_prev_as. wr wr_next_as. wr wr_next_as.
  edestruct (wr_prev_as st2) as (st' & E & D' & Rn' & Rp'); [|rewrite E]; [set_solver|]. wr_end.
Qed.

Lemma INIT_reads p st :
  dom (INIT_LIST_HEAD p st) = {[p]} ∪ dom st /\
  (forall a, rd_next (INIT_LIST_HEAD p st) a = if decide (a = p) then Some p else rd_next st a) /\
  (forall a, rd_prev (INIT_LIST_HEAD p st) a = if decide (a = p) then Some p else rd_prev st a).
Proof.
  unfold INIT_LIST_HEAD, rd_next, rd_prev. split; [apply dom_insert_L|].
  split; intros a; destruct (decide (a = p)) as [-> | Hn];
    rewrite ?lookup_insert_eq, ?lookup_insert_ne by congruence; done.
Qed.

(** ** The abstract state: heads and their sequences *)

Record rep (st : cells) (R : gmap ptr (list ptr)) : Prop := {
  rep_links : forall h l, R !! h = Some l -> links st h l h;
  rep_nodup : forall h l, R !! h = Some l -> NoDup (h :: l);
  rep_disj : forall h l h' l' x, R !! h = Some l -> R !! h' = Some l' ->
    x ∈ h :: l -> x ∈ h' :: l' -> h = h'
}.

(** [x] is a cell of no list. *)
Definition unlisted (R : gmap ptr (list ptr)) (x : ptr) : Prop :=
  forall h l, R !! h = Some l -> x ∉ h :: l.

(** [x] may be unlinked: it is an element, or the head of an empty list. *)
Definition linked (R : gmap ptr (list ptr)) (x : ptr) : Prop :=
  R !! x = Some [] \/ exists h l, R !! h = Some l /\ x ∈ l.

Definition without (x : ptr) (l : list ptr) : list ptr := filter (fun y => y <> x) l.
Definition drop_from (x : ptr) (R : gmap ptr (list ptr)) : gmap ptr (list ptr) := without x <$> delete x R.

Lemma without_notin x l : x ∉ l -> without x l = l.
Proof.
  induction l as [|y l IH]; intros Hx; [done|]. unfold without. rewrite filter_cons_True by set_solver.
  f_equal. apply IH. set_solver.
Qed.

Lemma without_split x l1 l2 : x ∉ l1 -> x ∉ l2 -> without x (l1 ++ x :: l2) = l1 ++ l2.
Proof.
  intros H1 H2. unfold without. rewrite filter_app, filter_cons_False by (intros H; by apply H).
  f_equal; by apply without_notin.
Qed.

Lemma without_head x l : x ∉ l -> without x (x :: l) = l.
Proof. intros Hx. apply (without_split x []); [apply not_elem_of_nil|done]. Qed.

Lemma elem_of_without x y l : y ∈ without x l <-> y <> x /\ y ∈ l.
Proof. unfold without. by rewrite list_elem_of_filter. Qed.

Lemma drop_from_lookup x R h l : drop_from x R !! h = Some l ->
  h <> x /\ exists l0, R !! h = Some l0 /\ l = without x l0.
Proof.
  unfold drop_from. rewrite lookup_fmap. intros H.
  destruct (decide (h = x)) as [-> | Hn]; [by rewrite lookup_delete_eq in H|].
  rewrite lookup_delete_ne in H by congruence. destruct (R !! h); [|done].
  simpl in H. split; [done|]. naive_solver.
Qed.

Lemma drop_from_lookup_2 x R h l0 : h <> x -> R !! h = Some l0 -> drop_from x R !! h = Some (without x l0).
Proof. intros Hn H. unfold drop_from. by rewrite lookup_fmap, lookup_delete_ne, H by congruence. Qed.

Lemma rep_dom st R h l x : rep st R -> R !! h = Some l -> x ∈ h :: l -> x ∈ dom st.
Proof. intros Hr Hh Hx. apply elem_of_dom. by eapply links_dom, Hx; eapply rep_links. Qed.

(** The other lists of a store stay as they are when the cells of one change. *)
Lemma rep_other st st' R h l h' l' :
  rep st R -> R !! h = Some l -> R !! h' = Some l' -> h <> h' ->
  (forall a, a ∉ h :: l -> rd_next st' a = rd_next st a) ->
  (forall a, a ∉ h :: l -> rd_prev st' a = rd_prev st a) ->
  links st' h' l' h'.
Proof.
  intros Hr Hh Hh' Hn H1 H2. assert (forall a, a ∈ h' :: l' -> a ∉ h :: l) as Hd.
  { intros a Ha Ha'. by destruct Hn; eapply rep_disj. }
  eapply links_frame; [by eapply rep_links|intros; by apply H1, Hd|].
  intros a Ha. apply H2, Hd. set_solver.
Qed.

Lemma rep_drop_disj st R x : rep st R -> 
  forall h l h' l' y, drop_from x R !! h = Some l -> drop_from x R !! h' = Some l' ->
    y ∈ h :: l -> y ∈ h' :: l' -> h = h'.
Proof.
  intros Hr h l h' l' y (Hn & l0 & H & ->)%drop_from_lookup (Hn' & l0' & H' & ->)%drop_from_lookup Hy Hy'.
  apply elem_of_cons in Hy, Hy'. rewrite elem_of_without in Hy, Hy'.
  eapply (rep_disj _ _ Hr h l0 h' l0' y); set_solver.
Qed.

Lemma rep_drop_nodup st R x h l : rep st R -> drop_from x R !! h = Some l -> NoDup (h :: l).
Proof.
  intros Hr (Hn & l0 & H & ->)%drop_from_lookup.
  apply (rep_nodup _ _ Hr) in H. apply NoDup_cons in H as [H1 H2]. apply NoDup_cons.
  split; [by rewrite elem_of_without; tauto|]. by apply list.NoDup_filter.
Qed.

Lemma rep_drop_unlisted st R x : rep st R -> linked R x -> unlisted (drop_from x R) x.
Proof.
  intros Hr _ h l (Hn & l0 & H & ->)%drop_from_lookup Hx.
  apply elem_of_cons in Hx as [-> | Hx]; [done|]. rewrite elem_of_without in Hx. tauto.
Qed.

(** Cutting one element out of a ring. *)
Lemma links_unlink st st' h l1 x l2 :
  links st h (l1 ++ x :: l2) h -> NoDup (h :: l1 ++ x :: l2) ->
  (forall c, rd_next st' c = if decide (c = last_of h l1) then Some (first_of l2 h) else rd_next st c) ->
  (forall c, rd_prev st' c = if decide (c = first_of l2 h) then Some (last_of h l1) else rd_prev st c) ->
  links st' h (l1 ++ l2) h.
Proof.
  intros Hl Hnd Hn Hp. apply links_app in Hl as [Ha Hb].
  rewrite NoDup_cons, list.NoDup_app, NoDup_cons in Hnd. destruct Hnd as (Hh & Hd1 & Hd2 & Hx & Hd3).
  pose proof (last_of_in h l1) as Hlast. pose proof (first_of_in l2 h) as Hfirst.
  assert (forall a, a ∈ l1 -> a <> first_of l2 h).
  { intros a Ha' ->. apply elem_of_app in Hfirst as [Hf|Hf]; [by apply (Hd2 _ Ha'), list_elem_of_further|].
    apply list_elem_of_singleton in Hf. rewrite Hf in Ha'. apply Hh, elem_of_app. by left. }
  assert (links st' h l1 (first_of l2 h)) as Hseg.
  { eapply links_retarget; [apply Ha| | | | |].
    - intros a _ Hna. rewrite Hn. by rewrite decide_False.
    - intros a Ha'. rewrite Hp, decide_False by auto. done.
    - apply NoDup_cons. set_solver.
    - by rewrite Hn, decide_True.
    - by rewrite Hp, decide_True. }
  destruct l2 as [|b l2]; [by rewrite app_nil_r|]. apply links_app. split; [done|].
  destruct Hb as (_ & _ & Hb). cbn in *. apply NoDup_cons in Hd3 as [Hb1 Hb2].
  eapply links_frame; [apply Hb| |]; intros a Ha'; [rewrite Hn|rewrite Hp]; rewrite decide_False; try done;
    intros ->; clear - Ha' Hlast Hd2 Hh Hb1.
  - apply elem_of_cons in Hlast as [Hl|Hl]; [rewrite Hl in Ha'; set_solver|].
    apply (Hd2 _ Hl). by apply list_elem_of_further.
  - apply elem_of_app in Ha' as [?|Hb]; [done|]. apply list_elem_of_singleton in Hb. set_solver.
Qed.

(** What an unlink leaves, given what it does to the ring it works on. *)
Lemma rep_drop st st' R x h l : rep st R -> R !! h = Some l -> x ∈ h :: l ->
  (h <> x -> links st' h (without x l) h) ->
  (forall a, a ∉ h :: l -> rd_next st' a = rd_next st a) ->
  (forall a, a ∉ h :: l -> rd_prev st' a = rd_prev st a) ->
  rep st' (drop_from x R).
Proof.
  intros Hr Hh Hx Hl Hn Hp. split; [|intros ? ?; by eapply rep_drop_nodup|by eapply rep_drop_disj].
  intros h' l' (Hne & l0 & H & ->)%drop_from_lookup. destruct (decide (h' = h)) as [-> | Hne'].
  - simplify_eq. by apply Hl.
  - assert (x ∉ h' :: l0) as Hx'. { intros Hin. apply Hne'. by apply (rep_disj _ _ Hr h' l0 h l x). }
    rewrite without_notin by (intros ?; by apply Hx', list_elem_of_further).
    eapply (rep_other st st' R h l h' l0); by auto.
Qed.

Lemma list_unlink_rep st R x : rep st R -> linked R x ->
  exists st', list_unlink x st = Some st' /\ dom st' = dom st /\ rep st' (drop_from x R).
Proof.
  intros Hr Hx. unfold list_unlink. destruct Hx as [Hx|(h & l & Hh & Hx)].
  - pose proof (rep_links _ _ Hr _ _ Hx) as [H1 H2].
    assert (x ∈ dom st) by (eapply rep_dom; [done..|by left]). rewrite H1, H2. cbn [mbind option_bind].
    destruct (list_del_between_as st x x) as (st' & E & D & Rn & Rp); [done..|].
    exists st'. split; [done|]. split; [done|].
    eapply (rep_drop st _ R x x []); try done; [by left| |]; intros a Ha; rewrite ?Rn, ?Rp, decide_False; set_solver.
  - assert (x ∈ h :: l) as Hx' by (by right). apply list_elem_of_split in Hx as (l1 & l2 & ->).
    pose proof (rep_links _ _ Hr _ _ Hh) as Hl. pose proof (rep_nodup _ _ Hr _ _ Hh) as Hnd.
    pose proof Hl as [Hla Hlb]%links_app. apply links_ends in Hla as [_ Hpx]. apply links_ends in Hlb as [Hnx _].
    rewrite Hpx, Hnx. cbn [mbind option_bind].
    assert (last_of h l1 ∈ h :: l1 ++ x :: l2) as Hlast by (pose proof (last_of_in h l1); set_solver).
    assert (first_of l2 h ∈ h :: l1 ++ x :: l2) as Hfirst by (pose proof (first_of_in l2 h); set_solver).
    destruct (list_del_between_as st (last_of h l1) (first_of l2 h)) as (st' & E & D & Rn & Rp);
      [by eapply rep_dom..|].
    exists st'. split; [done|]. split; [done|]. eapply rep_drop; [done|apply Hh|done|..].
    + intros _. pose proof Hnd as Hnd'. rewrite NoDup_cons, list.NoDup_app, NoDup_cons in Hnd'.
      destruct Hnd' as (_ & _ & H2 & H3 & _).
      rewrite without_split; [by eapply links_unlink|intros Hx; by apply (H2 x Hx); left|done].
    + intros a Ha. rewrite Rn, decide_False by (by intros ->). done.
    + intros a Ha. rewrite Rp, decide_False by (by intros ->). done.
Qed.

(** What setting the sequence of one head needs. *)
Lemma rep_set st st' R h l' : rep st R -> links st' h l' h -> NoDup (h :: l') ->
  (forall h' k x, h' <> h -> R !! h' = Some k -> x ∈ h' :: k -> x ∉ h :: l') ->
  (forall h' k a, h' <> h -> R !! h' = Some k -> a ∈ h' :: k ->
     rd_next st' a = rd_next st a /\ rd_prev st' a = rd_prev st a) ->
  rep st' (<[h := l']> R).
Proof.
  intros Hr Hl Hnd Hd Hf. split.
  - intros h' k [[<- <-]|[Hn H]]%lookup_insert_Some; [done|].
    eapply links_frame; [by eapply rep_links| |]; intros a Ha; eapply (Hf h' k a); try done.
    apply elem_of_app in Ha as [?|?%list_elem_of_singleton]; subst; [by right|by left].
  - intros h' k [[<- <-]|[Hn H]]%lookup_insert_Some; [done|]. by eapply rep_nodup.
  - intros h1 l1 h2 l2 x [[<- <-]|[Hn1 H1]]%lookup_insert_Some [[<- <-]|[Hn2 H2]]%lookup_insert_Some Hx1 Hx2.
    + done.
    + by destruct (Hd h2 l2 x).
    + by destruct (Hd h1 l1 x).
    + by apply (rep_disj _ _ Hr h1 l1 h2 l2 x).
Qed.

Lemma rep_init st R p : rep st R -> unlisted R p -> rep (INIT_LIST_HEAD p st) (<[p := []]> R).
Proof.
  intros Hr Hp. destruct (INIT_reads p st) as (_ & Hn & Hv).
  assert (forall h k x, R !! h = Some k -> x ∈ h :: k -> x <> p) as Hd.
  { intros h k x Hh Hx ->. by eapply Hp. }
  apply (rep_set st); [done| | | |].
  - cbn. by rewrite Hn, Hv, !decide_True.
  - by apply NoDup_singleton.
  - intros h k x _ Hh Hx Hx'%list_elem_of_singleton. by apply (Hd h k x Hh Hx).
  - intros h k a _ Hh Ha. rewrite Hn, Hv, !decide_False by (by apply (Hd h k a Hh Ha)). done.
Qed.

(** Adding a loose cell between two neighbours of a ring. *)
Lemma links_insert st st' h l1 l2 p :
  links st h (l1 ++ l2) h -> NoDup (h :: l1 ++ l2) -> p ∉ h :: l1 ++ l2 ->
  (forall c, rd_next st' c = if decide (c = last_of h l1) then Some p else
     if decide (c = p) then Some (first_of l2 h) else rd_next st c) ->
  (forall c, rd_prev st' c = if decide (c = p) then Some (last_of h l1) else
     if decide (c = first_of l2 h) then Some p else rd_prev st c) ->
  links st' h (l1 ++ p :: l2) h.
Proof.
  intros Hl Hnd Hpn Rn Rp. pose proof (last_of_in h l1) as Hlast. pose proof (first_of_in l2 h) as Hfirst.
  rewrite NoDup_cons, list.NoDup_app in Hnd. destruct Hnd as (Hnh & Hd1 & Hd12 & Hd2).
  assert (forall c, c ∈ h :: l1 ++ l2 -> c <> p) as Hcp by (intros c Hc ->; done).
  assert (p <> last_of h l1) by (apply not_eq_sym, Hcp; set_solver).
  apply links_app. split.
  - assert (exists y, links st h l1 y) as [y Hy].
    { destruct l2; [rewrite app_nil_r in Hl; eauto|]. apply links_app in Hl as [Hl _]. eauto. }
    eapply links_retarget; [apply Hy| | | | |].
    + intros a Ha Hna. rewrite Rn, !decide_False; [done|apply Hcp; set_solver|done].
    + intros a Ha. rewrite Rp, !decide_False; [done| |apply Hcp; set_solver].
      intros ->. apply elem_of_app in Hfirst as [Hf|Hf]; [by apply (Hd12 _ Ha)|].
      apply list_elem_of_singleton in Hf. rewrite Hf in Ha. apply Hnh, elem_of_app. by left.
    + apply NoDup_cons. split; [|done]. intros ?. apply Hnh, elem_of_app. by left.
    + by rewrite Rn, decide_True.
    + by rewrite Rp, decide_True.
  - assert (first_of l2 h <> p) by (apply Hcp; set_solver).
    assert (rd_next st' p = Some (first_of l2 h)) as H1 by (by rewrite Rn, decide_False, decide_True).
    assert (rd_prev st' (first_of l2 h) = Some p) as H2 by (by rewrite Rp, decide_False, decide_True).
    destruct l2 as [|b l2]; [done|]. split; [done|]. split; [done|].
    apply links_app in Hl as [_ Hl]. apply NoDup_cons in Hd2 as [Hb Hd2].
    eapply links_frame; [apply Hl| |]; intros a Ha; [rewrite Rn|rewrite Rp]; rewrite !decide_False; try done.
    all: try (apply Hcp; clear -Ha; set_solver); intros ->.
    + apply elem_of_cons in Hlast as [Hq|Hq]; [|by apply (Hd12 _ Hq)]. rewrite Hq in Ha.
      apply Hnh, elem_of_app. by right.
    + cbn in Ha. apply elem_of_app in Ha as [?|Hq%list_elem_of_singleton]; [done|]. subst.
      apply Hnh, elem_of_app. right. by left.
Qed.

Lemma list_add_between_rep st R h l1 l2 p : rep st R -> R !! h = Some (l1 ++ l2) ->
  unlisted R p -> p ∈ dom st ->
  exists st', list_add_between p (last_of h l1) (first_of l2 h) st = Some st' /\ dom st' = dom st /\
    rep st' (<[h := l1 ++ p :: l2]> R).
Proof.
  intros Hr Hh Hp Hpd. pose proof (rep_links _ _ Hr _ _ Hh) as Hl. pose proof (rep_nodup _ _ Hr _ _ Hh) as Hnd.
  pose proof (Hp _ _ Hh) as Hpn.
  assert (last_of h l1 ∈ h :: l1 ++ l2) as Hl' by (pose proof (last_of_in h l1); set_solver).
  assert (first_of l2 h ∈ h :: l1 ++ l2) as Hf' by (pose proof (first_of_in l2 h); set_solver).
  destruct (list_add_between_as st p (last_of h l1) (first_of l2 h)) as (st' & E & D & Rn & Rp);
    [done|by eapply rep_dom..|by intros Hq; apply Hpn; rewrite Hq|by intros Hq; apply Hpn; rewrite Hq|].
  exists st'. split; [done|]. split; [done|].
  assert (forall h' k a, h' <> h -> R !! h' = Some k -> a ∈ h' :: k -> a <> p /\ a ∉ h :: l1 ++ l2) as Hoth.
  { intros h' k a Hne Hk Ha. split; [intros ->; by apply (Hp _ _ Hk)|].
    intros Hin. apply Hne. by apply (rep_disj _ _ Hr h' k h (l1 ++ l2) a). }
  apply (rep_set st); [done|by eapply links_insert| | |].
  - replace (h :: l1 ++ p :: l2) with ((h :: l1) ++ p :: l2) by done.
    rewrite <- Permutation_middle. by apply NoDup_cons.
  - intros h' k x Hne Hk Hx Hin. destruct (Hoth h' k x Hne Hk Hx) as [H1 H2]. clear -Hin H1 H2. set_solver.
  - intros h' k a Hne Hk Ha. destruct (Hoth h' k a Hne Hk Ha) as [H1 H2].
    rewrite Rn, Rp, !decide_False; try done; by intros ->.
Qed.

Lemma list_add_rep st R h l p : rep st R -> R !! h = Some l -> unlisted R p -> p ∈ dom st ->
  exists st', list_add p h st = Some st' /\ dom st' = dom st /\ rep st' (<[h := p :: l]> R).
Proof.
  intros Hr Hh Hp Hd. pose proof (rep_links _ _ Hr _ _ Hh) as [Hn _]%links_ends.
  unfold list_add. rewrite Hn. by apply (list_add_between_rep st R h []).
Qed.

Lemma list_add_tail_rep st R h l p : rep st R -> R !! h = Some l -> unlisted R p -> p ∈ dom st ->
  exists st', list_add_tail p h st = Some st' /\ dom st' = dom st /\ rep st' (<[h := l ++ [p]]> R).
Proof.
  intros Hr Hh Hp Hd. pose proof (rep_links _ _ Hr _ _ Hh) as [_ Hn]%links_ends.
  unfold list_add_tail. rewrite Hn. apply (list_add_between_rep st R h l []); try done. by rewrite app_nil_r.
Qed.

Lemma linked_dom st R x : rep st R -> linked R x -> x ∈ dom st.
Proof.
  intros Hr [Hx|(h & l & Hh & Hx)]; [by eapply (rep_dom st R x []); [..|left]|].
  by eapply (rep_dom st R h l); [..|right].
Qed.

Lemma list_empty_rep st R h l : rep st R -> R !! h = Some l -> list_empty h st = Some (bool_decide (l = [])).
Proof.
  intros Hr Hh. pose proof (rep_links _ _ Hr _ _ Hh) as [Hn _]%links_ends.
  pose proof (rep_nodup _ _ Hr _ _ Hh) as [Hx _]%NoDup_cons.
  unfold list_empty, rd_next in *. destruct (st !! h) as [c|]; [|done]. cbn in *. rewrite Hn. f_equal.
  apply bool_decide_ext. destruct l as [|y l]; [done|]. cbn. split; [|done]. intros [= ->]. set_solver.
Qed.

Lemma rep_delete st R k : rep st R -> rep st (delete k R).
Proof.
  intros Hr. split.
  - intros h l [_ H]%lookup_delete_Some. by eapply rep_links.
  - intros h l [_ H]%lookup_delete_Some. by eapply rep_nodup.
  - intros h l h' l' x [_ H]%lookup_delete_Some [_ H']%lookup_delete_Some. by eapply rep_disj.
Qed.

(** A whole ring moved to the front of another. *)
Lemma links_splice st st' l f kl h kh :
  links st l (f :: kl) l -> NoDup (f :: kl) -> links st h kh h -> NoDup (h :: kh) ->
  (forall x, x ∈ f :: kl -> x ∉ h :: kh) ->
  (forall c, rd_next st' c = if decide (c = last_of f kl) then Some (first_of kh h) else
     if decide (c = h) then Some f else rd_next st c) ->
  (forall c, rd_prev st' c = if decide (c = first_of kh h) then Some (last_of f kl) else
     if decide (c = f) then Some h else rd_prev st c) ->
  links st' h (f :: kl ++ kh) h.
Proof.
  intros (_ & _ & Hl) Hnd Hk Hkd Hdis Rn Rp.
  pose proof (last_of_in f kl) as Hlast.
  assert (first_of kh h ∈ h :: kh) as Hfirst by (pose proof (first_of_in kh h); set_solver).
  assert (forall x y, x ∈ f :: kl -> y ∈ h :: kh -> x <> y) as Hxy by (intros x y Hx Hy ->; by apply (Hdis y)).
  cbn [links]. rewrite Rn, Rp. rewrite decide_False by (apply not_eq_sym, Hxy; [done|by left]).
  rewrite decide_True by done. rewrite decide_False by (apply Hxy; [by left|done]). rewrite decide_True by done.
  split; [done|]. split; [done|].
  assert (links st' f kl (first_of kh h)) as Hseg.
  { eapply links_retarget; [apply Hl| | |done| |].
    - intros a Ha Hna. rewrite Rn, !decide_False; [done|apply Hxy; [done|by left]|done].
    - intros a Ha. rewrite Rp, !decide_False; [done| |apply Hxy; [by right|done]].
      intros ->. by apply NoDup_cons in Hnd as [? _].
    - by rewrite Rn, decide_True.
    - by rewrite Rp, decide_True. }
  destruct kh as [|b kh]; [by rewrite app_nil_r|]. apply links_app. split; [done|].
  destruct Hk as (_ & _ & Hk). apply NoDup_cons in Hkd as [Hh [Hb Hkd]%NoDup_cons].
  eapply links_frame; [apply Hk| |]; intros a Ha; [rewrite Rn|rewrite Rp]; rewrite !decide_False; try done.
  - intros ->. done.
  - apply not_eq_sym, Hxy; [done|by right].
  - apply not_eq_sym, Hxy; [by left|]. clear -Ha. set_solver.
  - cbn. intros ->. apply elem_of_app in Ha as [?|Hq%list_elem_of_singleton]; [done|]. subst. apply Hh. by left.
Qed.

Lemma rep_splice st st' R l f kl h kh : rep st R -> R !! l = Some (f :: kl) -> R !! h = Some kh -> l <> h ->
  (forall c, rd_next st' c = if decide (c = last_of f kl) then Some (first_of kh h) else
     if decide (c = h) then Some f else rd_next st c) ->
  (forall c, rd_prev st' c = if decide (c = first_of kh h) then Some (last_of f kl) else
     if decide (c = f) then Some h else rd_prev st c) ->
  rep st' (<[h := f :: kl ++ kh]> (delete l R)) /\ unlisted (<[h := f :: kl ++ kh]> (delete l R)) l.
Proof.
  intros Hr Hl Hh Hne Rn Rp. pose proof (last_of_in f kl) as Hlast.
  assert (first_of kh h ∈ h :: kh) as Hfirst by (pose proof (first_of_in kh h); set_solver).
  assert (forall x, x ∈ l :: f :: kl -> x ∉ h :: kh) as Hdis.
  { intros x Hx Hx'. apply Hne. by apply (rep_disj _ _ Hr l (f :: kl) h kh x). }
  pose proof (rep_nodup _ _ Hr _ _ Hl) as [Hln Hld]%NoDup_cons. pose proof (rep_nodup _ _ Hr _ _ Hh) as Hhd.
  assert (forall h' k x, h' <> h -> delete l R !! h' = Some k -> x ∈ h' :: k -> x ∉ h :: f :: kl ++ kh) as Hoth.
  { intros h' k x Hn' [Hn'' Hk]%lookup_delete_Some Hx Hx'.
    assert (x ∈ l :: f :: kl \/ x ∈ h :: kh) as [Hin|Hin] by (clear -Hx'; set_solver).
    - apply Hn''. by apply (rep_disj _ _ Hr l (f :: kl) h' k x).
    - apply Hn'. by apply (rep_disj _ _ Hr h' k h kh x). }
  split.
  - apply (rep_set st); [by apply rep_delete| | |done|].
    + eapply (links_splice st st' l f kl h kh); try done; [by eapply rep_links..|].
      intros x Hx. apply Hdis. by right.
    + change (h :: f :: kl ++ kh) with (h :: (f :: kl) ++ kh). rewrite Permutation_middle.
      apply list.NoDup_app. split; [done|]. split; [|done]. intros x Hx. apply Hdis. by right.
    + intros h' k a Hn' Hk Ha. pose proof (Hoth h' k a Hn' Hk Ha) as Hna.
      rewrite Rn, Rp, !decide_False; try done; intros ->; apply Hna; clear -Hlast Hfirst; set_solver.
  - intros h' k [[<- <-]|[Hn' [Hn'' Hk]%lookup_delete_Some]]%lookup_insert_Some Hx.
    + apply elem_of_cons in Hx as [Hx|Hx]; [done|].
      assert (l ∈ f :: kl \/ l ∈ h :: kh) as [?|Hin] by (clear -Hx; set_solver); [done|].
      by apply (Hdis l); [left|].
    + apply Hn''. apply (rep_disj _ _ Hr l (f :: kl) h' k l); try done. by left.
Qed.

(** The sequences after [list_splice]: the cell of a list that was not empty no
    longer heads one. *)
Definition list_splice_abs (l h : ptr) (R : gmap ptr (list ptr)) : gmap ptr (list ptr) :=
  match R !!! l with [] => R | kl => <[h := kl ++ R !!! h]> (delete l R) end.

Lemma list_splice_at_rep st R l f kl h kh : rep st R -> R !! l = Some (f :: kl) -> R !! h = Some kh -> l <> h ->
  exists st', list_splice_at l h st = Some st' /\ dom st' = dom st /\ l ∈ dom st /\
    rep st' (<[h := f :: kl ++ kh]> (delete l R)) /\ unlisted (<[h := f :: kl ++ kh]> (delete l R)) l.
Proof.
  intros Hr Hl Hh Hne.
  pose proof (links_ends _ _ _ _ (rep_links _ _ Hr _ _ Hl)) as [Hn1 Hp1].
  pose proof (links_ends _ _ _ _ (rep_links _ _ Hr _ _ Hh)) as [Hn2 _].
  rewrite last_of_cons in Hp1. cbn in Hn1.
  assert (l ∈ dom st) by (eapply (rep_dom st R l (f :: kl)); [done..|by left]).
  destruct (list_splice_at_as st l f (last_of f kl) h (first_of kh h)) as (st' & E & D & Rn & Rp); try done.
  { eapply (rep_dom st R l (f :: kl)); [done..|right; by left]. }
  { eapply (rep_dom st R l (f :: kl)); [done..|right; apply last_of_in]. }
  { eapply (rep_dom st R h kh); [done..|by left]. }
  { eapply (rep_dom st R h kh); [done..|]. pose proof (first_of_in kh h). set_solver. }
  exists st'. split; [done|]. split; [done|]. split; [done|]. by eapply rep_splice.
Qed.

Lemma list_splice_rep st R l h : rep st R -> l ∈ dom R -> h ∈ dom R -> l <> h ->
  exists st', list_splice l h st = Some st' /\ dom st' = dom st /\ rep st' (list_splice_abs l h R).
Proof.
  intros Hr [kl Hl]%elem_of_dom [kh Hh]%elem_of_dom Hne. unfold list_splice, list_splice_abs.
  rewrite (list_empty_rep st R l kl), (lookup_total_correct _ _ _ Hl), (lookup_total_correct _ _ _ Hh) by done.
  cbn [mbind option_bind]. destruct kl as [|f kl]; [by exists st|].
  destruct (list_splice_at_rep st R l f kl h kh) as (st' & E & D & _ & Hr' & _); [done..|]. by exists st'.
Qed.

Lemma list_splice_init_rep st R l kl h kh : rep st R -> R !! l = Some kl -> R !! h = Some kh -> l <> h ->
  exists st', list_splice_init l h st = Some st' /\ dom st' = dom st /\
    rep st' (<[l := []]> (<[h := kl ++ kh]> R)).
Proof.
  intros Hr Hl Hh Hne. unfold list_splice_init. rewrite (list_empty_rep st R l kl) by done.
  cbn [mbind option_bind]. case_bool_decide as He.
  { exists st. split; [done|]. split; [done|]. subst. cbn. by rewrite (insert_id _ _ _ Hh), insert_id. }
  destruct kl as [|f kl]; [done|]. clear He.
  destruct (list_splice_at_rep st R l f kl h kh) as (st' & E & D & Hd & Hr' & Hu); [done..|].
  rewrite E. cbn [mbind option_bind]. eexists. split; [done|]. split.
  { destruct (INIT_reads l st') as (-> & _). rewrite D. set_solver. }
  replace (<[l := []]> (<[h := (f :: kl) ++ kh]> R)) with (<[l := []]> (<[h := f :: kl ++ kh]> (delete l R))).
  - by apply rep_init.
  - rewrite <- delete_insert_ne, insert_delete_eq by congruence. done.
Qed.

Lemma list_del_init_rep st R x : rep st R -> linked R x ->
  exists st', list_del_init x st = Some st' /\ dom st' = dom st /\ rep st' (<[x := []]> (drop_from x R)).
Proof.
  intros Hr Hx. destruct (list_unlink_rep st R x Hr Hx) as (st1 & E & D & Hr1).
  unfold list_del_init. rewrite E. cbn [mbind option_bind]. eexists. split; [done|]. split.
  - destruct (INIT_reads x st1) as (-> & _). rewrite D. pose proof (linked_dom st R x Hr Hx). set_solver.
  - apply rep_init; [done|]. by eapply rep_drop_unlisted.
Qed.

Lemma list_del_rep st R x : rep st R -> linked R x ->
  exists st', list_del x st = Some st' /\ dom st' = dom st /\ rep st' (drop_from x R) /\
    st' !! x = Some (mkLH None None).
Proof.
  intros Hr Hx. destruct (list_unlink_rep st R x Hr Hx) as (st1 & E & D & Hr1).
  pose proof (linked_dom st R x Hr Hx) as Hd. unfold list_del. rewrite E. cbn [mbind option_bind].
  rewrite <- D in Hd. apply elem_of_dom in Hd as [c Hc].
  unfold wr_next, wr_prev. rewrite Hc. cbn [mbind option_bind]. rewrite lookup_insert_eq. cbn [mbind option_bind].
  eexists. split; [done|]. rewrite insert_insert_eq. split; [|split; [|by rewrite lookup_insert_eq]].
  { rewrite dom_insert_lookup_L; [done|eauto]. }
  assert (forall h l a, drop_from x R !! h = Some l -> a ∈ h :: l -> a <> x) as Hne.
  { intros h l a Hh Ha ->. by eapply (rep_drop_unlisted st R x). }
  split; [|by apply (rep_nodup _ _ Hr1)|by apply (rep_disj _ _ Hr1)].
  intros h l Hh. eapply links_frame; [by apply (rep_links _ _ Hr1)| |]; intros a Ha;
    unfold rd_next, rd_prev; rewrite lookup_insert_ne; try done; apply not_eq_sym, (Hne h l); try done.
  clear -Ha. set_solver.
Qed.

(** Moving an element: the two moves share everything but the end they add at. *)
Lemma list_move_rep st R x h : rep st R -> linked R x -> h <> x -> is_Some (R !! h) ->
  (exists st', list_move x h st = Some st' /\ dom st' = dom st /\
     rep st' (<[h := x :: without x (R !!! h)]> (drop_from x R))) /\
  (exists st', list_move_tail x h st = Some st' /\ dom st' = dom st /\
     rep st' (<[h := without x (R !!! h) ++ [x]]> (drop_from x R))).
Proof.
  intros Hr Hx Hn [l Hh]. destruct (list_unlink_rep st R x Hr Hx) as (st1 & E & D & Hr1).
  pose proof (linked_dom st R x Hr Hx) as Hd. rewrite <- D in Hd.
  rewrite (lookup_total_correct _ _ _ Hh). pose proof (drop_from_lookup_2 x R h l Hn Hh) as Hh1.
  pose proof (rep_drop_unlisted st R x Hr Hx) as Hu.
  unfold list_move, list_move_tail. rewrite E. cbn [mbind option_bind]. rewrite <- D.
  split; [by apply list_add_rep|by apply list_add_tail_rep].
Qed.

(** ** The refinement *)

Definition list_del_init_abs (x : ptr) (R : gmap ptr (list ptr)) : gmap ptr (list ptr) :=
  <[x := []]> (drop_from x R).

Lemma FreeList_rep l : forall fuel st R h, rep st R -> R !! h = Some l -> (length l < fuel)%nat ->
  exists st', FreeList fuel h st = Some st' /\ dom st' = dom st /\
    rep st' (foldl (fun R x => list_del_init_abs x R) R l).
Proof.
  induction l as [|x l IH]; intros [|fuel] st R h Hr Hh Hf; cbn [length] in Hf; try lia;
    cbn [FreeList]; rewrite (list_empty_rep st R h _ Hr Hh); cbn [mbind option_bind].
  - rewrite bool_decide_eq_true_2 by done. by exists st.
  - rewrite bool_decide_eq_false_2 by done.
    pose proof (rep_links _ _ Hr _ _ Hh) as [Hn _]. rewrite Hn. cbn [mbind option_bind].
    pose proof (rep_nodup _ _ Hr _ _ Hh) as [Hhx [Hx _]%NoDup_cons]%NoDup_cons.
    destruct (list_del_init_rep st R x) as (st1 & E & D & Hr1); [done|right; eexists _, _; by split; [|left]|].
    rewrite E. cbn [mbind option_bind]. destruct (IH fuel st1 (list_del_init_abs x R) h) as (st' & E' & D' & Hr');
      [done| |lia|].
    + unfold list_del_init_abs. rewrite lookup_insert_ne by (intros ->; apply Hhx; by left).
      rewrite (drop_from_lookup_2 x R h (x :: l)); [|intros ->; apply Hhx; by left|done]. f_equal.
      by apply without_head.
    + exists st'. split; [done|]. split; [congruence|done].
Qed.

(** The operations of the class as commands, on cells and on sequences. *)
Inductive list_op :=
  | OpInit (p : ptr) | OpAdd (p h : ptr) | OpAddTail (p h : ptr) | OpDel (x : ptr) | OpDelInit (x : ptr)
  | OpMove (x h : ptr) | OpMoveTail (x h : ptr) | OpSplice (l h : ptr) | OpSpliceInit (l h : ptr) | OpFree (h : ptr).

Definition run_op (o : list_op) (st : cells) : option cells :=
  match o with
  | OpInit p => Some (INIT_LIST_HEAD p st)
  | OpAdd p h => list_add p h st
  | OpAddTail p h => list_add_tail p h st
  | OpDel x => list_del x st
  | OpDelInit x => list_del_init x st
  | OpMove x h => list_move x h st
  | OpMoveTail x h => list_move_tail x h st
  | OpSplice l h => list_splice l h st
  | OpSpliceInit l h => list_splice_init l h st
  | OpFree h => FreeList (S (size st)) h st
  end.

Definition abs_op (o : list_op) (R : gmap ptr (list ptr)) : gmap ptr (list ptr) :=
  match o with
  | OpInit p => <[p := []]> R
  | OpAdd p h => <[h := p :: R !!! h]> R
  | OpAddTail p h => <[h := R !!! h ++ [p]]> R
  | OpDel x => drop_from x R
  | OpDelInit x => list_del_init_abs x R
  | OpMove x h => <[h := x :: without x (R !!! h)]> (drop_from x R)
  | OpMoveTail x h => <[h := without x (R !!! h) ++ [x]]> (drop_from x R)
  | OpSplice l h => list_splice_abs l h R
  | OpSpliceInit l h => <[l := []]> (<[h := R !!! l ++ R !!! h]> R)
  | OpFree h => foldl (fun R x => list_del_init_abs x R) R (R !!! h)
  end.

(** What the caller owes. *)
Definition op_ok (o : list_op) (st : cells) (R : gmap ptr (list ptr)) : Prop :=
  match o with
  | OpInit p => unlisted R p
  | OpAdd p h | OpAddTail p h => unlisted R p /\ p ∈ dom st /\ h ∈ dom R
  | OpDel x | OpDelInit x => linked R x
  | OpMove x h | OpMoveTail x h => linked R x /\ h <> x /\ h ∈ dom R
  | OpSplice l h | OpSpliceInit l h => l ∈ dom R /\ h ∈ dom R /\ l <> h
  | OpFree h => h ∈ dom R
  end.

Lemma rep_size st R h l : rep st R -> R !! h = Some l -> (length l < S (size st))%nat.
Proof.
  intros Hr Hh. rewrite <- size_dom. pose proof (rep_nodup _ _ Hr _ _ Hh) as [_ Hnd]%NoDup_cons.
  rewrite <- (size_list_to_set l (C := gset ptr)) by done.
  assert (list_to_set l ⊆ dom st) as Hs%subseteq_size; [|lia].
  intros x Hx%elem_of_list_to_set. eapply rep_dom; [done..|by right].
Qed.

(** C24: on cells that represent a set of lists, every operation of [list.h] called
    as its comment asks succeeds - it follows no null or dangling pointer - and the
    cells then represent the lists with the operation done on the sequences:
    adding at the front or the back, removing, moving between lists, splicing with
    or without a new empty list left behind, emptying.  Before and after it
    [list_empty] answers of every list whether its sequence is empty. *)
Theorem list_ops_refine_sequences o st R : rep st R -> op_ok o st R ->
  (forall h l, R !! h = Some l -> list_empty h st = Some (bool_decide (l = []))) /\
  exists st', run_op o st = Some st' /\ rep st' (abs_op o R) /\
    forall h l, abs_op o R !! h = Some l -> list_empty h st' = Some (bool_decide (l = [])).
Proof.
  intros Hr Ho. split; [intros; by eapply list_empty_rep|].
  enough (exists st', run_op o st = Some st' /\ rep st' (abs_op o R)) as (st' & E & Hr').
  { exists st'. split; [done|]. split; [done|]. intros. by eapply list_empty_rep. }
  destruct o; cbn [run_op abs_op op_ok] in *;
    repeat match goal with H : _ /\ _ |- _ => destruct H end;
    repeat match goal with H : ?h ∈ dom R |- _ => apply elem_of_dom in H as [? H];
      rewrite ?(lookup_total_correct _ _ _ H) end.
  - eexists. split; [done|]. by apply rep_init.
  - edestruct list_add_rep as (? & ? & _ & ?); eauto.
  - edestruct list_add_tail_rep as (? & ? & _ & ?); eauto.
  - edestruct list_del_rep as (? & ? & _ & ? & _); eauto.
  - edestruct list_del_init_rep as (? & ? & _ & ?); eauto.
  - edestruct list_move_rep as [(? & ? & _ & Hq) _]; eauto. erewrite lookup_total_correct in Hq by done. eauto.
  - edestruct list_move_rep as [_ (? & ? & _ & Hq)]; eauto. erewrite lookup_total_correct in Hq by done. eauto.
  - edestruct (list_splice_rep st R l h) as (? & ? & _ & ?); [done|by eapply elem_of_dom_2..|done|eauto].
  - edestruct (list_splice_init_rep st R l x0 h) as (? & ? & _ & ?); eauto.
  - edestruct (FreeList_rep x (S (size st))) as (? & ? & _ & ?); eauto using rep_size.
Qed.

(** Two lists: 2 and 3 under head 1, and head 4 alone. *)
Definition list_example : option cells :=
  let st := INIT_LIST_HEAD 4%positive (INIT_LIST_HEAD 3%positive (INIT_LIST_HEAD 2%positive (INIT_LIST_HEAD 1%positive ∅))) in
  st ← run_op (OpMoveTail 2%positive 1%positive) st;
  run_op (OpMoveTail 3%positive 1%positive) st.

Lemma list_ops_refine_sequences_witness :
  exists st st', list_example = Some st /\ run_op (OpMove 3%positive 4%positive) st = Some st' /\
    rep st' (<[4%positive := [3%positive]]> (<[1%positive := [2%positive]]> ∅)).
Proof.
  assert (rep ∅ ∅) as R0 by (split; intros *; rewrite lookup_empty; done).
  destruct (list_ops_refine_sequences (OpInit 1%positive) ∅ ∅ R0) as (_ & s1 & E1 & R1 & R1e).
  { intros h l H. by rewrite lookup_empty in H. }
  destruct (list_ops_refine_sequences (OpInit 2%positive) s1 _ R1) as (_ & s2 & E2 & R2 & R2e).
  { intros h l H. cbn in H. apply lookup_insert_Some in H as [[<- <-]|[_ H]]; [set_solver|done]. }
  destruct (list_ops_refine_sequences (OpInit 3%positive) s2 _ R2) as (_ & s3 & E3 & R3 & R3e).
  { intros h l H. cbn in H. repeat apply lookup_insert_Some in H as [[<- <-]|[_ H]]; set_solver. }
  destruct (list_ops_refine_sequences (OpInit 4%positive) s3 _ R3) as (_ & s4 & E4 & R4 & R4e).
  { intros h l H. cbn in H. repeat apply lookup_insert_Some in H as [[<- <-]|[_ H]]; set_solver. }
  destruct (list_ops_refine_sequences (OpMoveTail 2%positive 1%positive) s4 _ R4) as (_ & s5 & E5 & R5 & R5e).
  { split_and!; [by left|done|]. by apply elem_of_dom. }
  destruct (list_ops_refine_sequences (OpMoveTail 3%positive 1%positive) s5 _ R5) as (_ & s6 & E6 & R6 & R6e).
  { split_and!; [by left|done|]. by apply elem_of_dom. }
  destruct (list_ops_refine_sequences (OpMove 3%positive 4%positive) s6 _ R6) as (_ & s7 & E7 & R7 & R7e).
  { split_and!; [|done|by apply elem_of_dom]. right. exists 1%positive, [2%positive; 3%positive].
    split; [done|set_solver]. }
  exists s6, s7. split; [|split; [done|exact R7]].
  injection E1 as <-. injection E2 as <-. injection E3 as <-. injection E4 as <-.
  unfold list_example. rewrite E5. exact E6.
Defined.
