(* ===== verification/TimerList.v ===== *)
(** * Timer lists

    [comm/timerlist.h] and [comm/timerlist.cpp]: a [CTimerUnit] keeps one
    [CTimerList] per timeout, in a chain, and a list of pending objects; a
    [CTimerObject] is attached at the back of a list, so that every list is
    ordered by expiry.  The lists are those of [ListHead]; an object and a list
    are named by the pointer to their cell.

    The clock is the global [__spp_g_now_tv], which the main loop updates between
    calls ([_spp_g_exceptionrealtime] unset).  The virtual [TimerNotify] is a
    parameter: arbitrary code over the whole state, of which [handler_ok], and
    [goes] in [TimerRun], say what a handler may do.  [ext] is the state of the program above the timers. *)

From Stdlib Require Import ZArith Lia Sorting.Sorted.
From stdpp Require Import base gmap list option sets.
From S2P Require Import Prelude ListHead.

(** A [CTimerList **]: the address of the [next] field of the unit or of a list. *)
Inductive slot := SUnit | SList (p : ptr).

Record CTimerList := mkTL { tl_timeout : Z; tl_next : option ptr; tl_prev : option slot }.

(** The unit, the lists, the objects and what is above them.  [fired] records the
    calls of [TimerNotify], oldest first. *)
Record tworld (X : Type) := mkTW {
  cells_of : cells;
  objexp : gmap ptr Z;
  tlists : gmap ptr CTimerList;
  clock : Z;
  pending : ptr;
  unext : option ptr;
  timeout_inf : Z;
  fired : list ptr;
  ext : X
}.
Arguments mkTW {X}. Arguments cells_of {X}. Arguments objexp {X}. Arguments tlists {X}.
Arguments clock {X}. Arguments pending {X}. Arguments unext {X}. Arguments timeout_inf {X}.
Arguments fired {X}. Arguments ext {X}.

Section ops.
Context {X : Type}.
Implicit Types (w : tworld X) (o p lst : ptr).

Definition set_cells (c : cells) w : tworld X :=
  mkTW c (objexp w) (tlists w) (clock w) (pending w) (unext w) (timeout_inf w) (fired w) (ext w).
Definition set_objexp (e : gmap ptr Z) w : tworld X :=
  mkTW (cells_of w) e (tlists w) (clock w) (pending w) (unext w) (timeout_inf w) (fired w) (ext w).
Definition set_tlists (t : gmap ptr CTimerList) w : tworld X :=
  mkTW (cells_of w) (objexp w) t (clock w) (pending w) (unext w) (timeout_inf w) (fired w) (ext w).
Definition set_unext (n : option ptr) w : tworld X :=
  mkTW (cells_of w) (objexp w) (tlists w) (clock w) (pending w) n (timeout_inf w) (fired w) (ext w).
Definition set_inf (t : Z) w : tworld X :=
  mkTW (cells_of w) (objexp w) (tlists w) (clock w) (pending w) (unext w) t (fired w) (ext w).
Definition set_ext (x : X) w : tworld X :=
  mkTW (cells_of w) (objexp w) (tlists w) (clock w) (pending w) (unext w) (timeout_inf w) (fired w) x.
Definition log_fired o w : tworld X :=
  mkTW (cells_of w) (objexp w) (tlists w) (clock w) (pending w) (unext w) (timeout_inf w) (fired w ++ [o]) (ext w).
Definition set_clock (t : Z) w : tworld X :=
  mkTW (cells_of w) (objexp w) (tlists w) t (pending w) (unext w) (timeout_inf w) (fired w) (ext w).

(** ** The code *)

(** [CTimerUnit::CTimerUnit]: the pending list is a member of timeout 0. *)
Definition CTimerUnit_new (pend : ptr) (now : Z) (x : X) : tworld X :=
  mkTW (INIT_LIST_HEAD pend ∅) ∅ {[pend := mkTL 0 None None]} now pend None 0 [] x.

(** [CTimerObject::CTimerObject]: [objexp] holds what the memory held, [v]. *)
Definition CTimerObject_new o (v : Z) w : tworld X :=
  set_cells (INIT_LIST_HEAD o (cells_of w)) (set_objexp (<[o := v]> (objexp w)) w).

(** The destructor of the base [CListObject] unlinks the cell. *)
Definition CTimerObject_delete o w : option (tworld X) :=
  c ← list_del_init o (cells_of w);
  Some (set_cells (delete o c) (set_objexp (delete o (objexp w)) w)).

Definition DisableTimer o w : option (tworld X) :=
  c ← list_del_init o (cells_of w); Some (set_cells c w).

Definition AttachTimer o lst w : option (tworld X) :=
  L ← tlists w !! lst;
  _ ← objexp w !! o;
  let w := if 0 <? tl_timeout L then set_objexp (<[o := clock w + tl_timeout L]> (objexp w)) w else w in
  c ← list_move_tail o lst (cells_of w);
  Some (set_cells c w).

Definition AttachZeroTimer o w : option (tworld X) :=
  c ← list_move_tail o (pending w) (cells_of w); Some (set_cells c w).

(** The loop of [CTimerUnit::GetTimerList]. *)
Fixpoint find_list (fuel : nat) (cur : option ptr) (to : Z) w : option (option ptr) :=
  match cur with
  | None => Some None
  | Some p =>
      match fuel with
      | O => None
      | S fuel =>
          L ← tlists w !! p;
          if tl_timeout L =? to then Some (Some p) else find_list fuel (tl_next L) to w
      end
  end.

(** [tl->prev = s]. *)
Definition set_prev p (s : slot) (t : gmap ptr CTimerList) : option (gmap ptr CTimerList) :=
  L ← t !! p; Some (<[p := mkTL (tl_timeout L) (tl_next L) (Some s)]> t).

(** [CTimerUnit::GetTimerList]; [fresh] is the memory [new] returns. *)
Definition GetTimerList (fresh : ptr) (to : Z) w : option (ptr * tworld X) :=
  r ← find_list (S (size (tlists w))) (unext w) to w;
  match r with
  | Some tl => Some (tl, w)
  | None =>
      let t := <[fresh := mkTL to (unext w) None]> (tlists w) in
      t ← match unext w with Some n => set_prev n (SList fresh) t | None => Some t end;
      t ← set_prev fresh SUnit t;
      let w := set_tlists t (set_unext (Some fresh) (set_cells (INIT_LIST_HEAD fresh (cells_of w)) w)) in
      let w := if (to <? timeout_inf w) || (timeout_inf w =? 0) then set_inf to w else w in
      Some (fresh, w)
  end.

(** [CTimerList::~CTimerList]: unhook from the chain, then free the objects and
    destroy the member list. *)
Definition CTimerList_delete tl w : option (tworld X) :=
  L ← tlists w !! tl;
  w ← match tl_prev L with
      | None => Some w
      | Some SUnit => Some (set_unext (tl_next L) w)
      | Some (SList q) =>
          Q ← tlists w !! q; Some (set_tlists (<[q := mkTL (tl_timeout Q) (tl_next L) (tl_prev Q)]> (tlists w)) w)
      end;
  w ← match tl_next L, tl_prev L with
      | Some n, Some s => t ← set_prev n s (tlists w); Some (set_tlists t w)
      | _, _ => Some w
      end;
  c ← FreeList (S (size (cells_of w))) tl (cells_of w);
  c ← list_del_init tl c;
  Some (set_tlists (delete tl (tlists w)) (set_cells (delete tl c) w)).

(** [CTimerUnit::~CTimerUnit]: the loop over the chain. *)
Fixpoint CTimerUnit_delete (fuel : nat) w : option (tworld X) :=
  match unext w with
  | None => Some w
  | Some tl =>
      match fuel with
      | O => None
      | S fuel =>
          L ← tlists w !! tl;
          w ← CTimerList_delete tl (set_unext (tl_next L) w);
          CTimerUnit_delete fuel w
      end
  end.

(** The loop of [CTimerUnit::ExpireMicroSeconds]: the earliest head of a list. *)
Fixpoint min_expiry (fuel : nat) (cur : option ptr) (exp : Z) w : option Z :=
  match cur with
  | None => Some exp
  | Some p =>
      match fuel with
      | O => None
      | S fuel =>
          L ← tlists w !! p;
          e ← list_empty p (cells_of w);
          if e : bool then min_expiry fuel (tl_next L) exp w
          else
            o ← rd_next (cells_of w) p;
            v ← objexp w !! o;
            min_expiry fuel (tl_next L) (if v <? exp then v else exp) w
      end
  end.

Definition ExpireMicroSeconds (msec : Z) w : option Z :=
  e ← min_expiry (S (size (tlists w))) (unext w) (clock w + msec) w;
  Some (if e - clock w <=? 0 then 0 else i32 (e - clock w)).

(** [CTimerList::TransforTimer]. *)
Fixpoint TransforTimer_loop (fuel : nat) lst (t : ptr) w : option (tworld X) :=
  match fuel with
  | O => None
  | S fuel =>
      e ← list_empty lst (cells_of w);
      if e : bool then Some w
      else
        o ← rd_next (cells_of w) lst;
        c ← list_del_init o (cells_of w);
        w ← AttachTimer o t (set_cells c w);
        TransforTimer_loop fuel lst t w
  end.

Definition TransforTimer (fuel : nat) lst (t : option ptr) w : option (tworld X) :=
  match t with None => Some w | Some t => TransforTimer_loop fuel lst t w end.

(** The virtual [TimerNotify]. *)
Variable TimerNotify : ptr -> tworld X -> option (tworld X).

(** The loops call it after taking the object out of its list. *)
Definition fire o w : option (tworld X) :=
  c ← list_del_init o (cells_of w); TimerNotify o (log_fired o (set_cells c w)).

(** [CTimerList::CheckExpired]. *)
Fixpoint CheckExpired_loop (fuel : nat) lst (now : Z) (n : Z) w : option (Z * tworld X) :=
  match fuel with
  | O => None
  | S fuel =>
      e ← list_empty lst (cells_of w);
      if e : bool then Some (n, w)
      else
        o ← rd_next (cells_of w) lst;
        v ← objexp w !! o;
        if now <? v then Some (n, w)
        else w ← fire o w; CheckExpired_loop fuel lst now (n + 1) w
  end.

Definition CTimerList_CheckExpired lst (now : Z) w : option (Z * tworld X) :=
  CheckExpired_loop (S (size (cells_of w))) lst (if now =? 0 then clock w else now) 0 w.

(** [CTimerUnit::CheckPending]. *)
Fixpoint CheckPending_loop (fuel : nat) (n : Z) w : option (Z * tworld X) :=
  match fuel with
  | O => None
  | S fuel =>
      e ← list_empty (pending w) (cells_of w);
      if e : bool then Some (n, w)
      else o ← rd_next (cells_of w) (pending w); w ← fire o w; CheckPending_loop fuel (n + 1) w
  end.

Definition CheckPending w : option (Z * tworld X) := CheckPending_loop (S (size (cells_of w))) 0 w.

(** The loop of [CTimerUnit::CheckExpired]; [tl->next] is read after the calls. *)
Fixpoint CheckLists (fuel : nat) (cur : option ptr) (now : Z) (n : Z) w : option (Z * tworld X) :=
  match cur with
  | None => Some (n, w)
  | Some p =>
      match fuel with
      | O => None
      | S fuel =>
          '(k, w) ← CTimerList_CheckExpired p now w;
          L ← tlists w !! p;
          CheckLists fuel (tl_next L) now (n + k) w
      end
  end.

Definition CheckExpired (now : Z) w : option (Z * tworld X) :=
  let now := if now =? 0 then clock w else now in
  '(n, w) ← CheckPending w;
  CheckLists (S (size (tlists w))) (unext w) now n w.
End ops.

(** ** The invariant *)

(** [cur] starts the chain [ls]. *)
Fixpoint chain (t : gmap ptr CTimerList) (cur : option ptr) (ls : list ptr) : Prop :=
  match ls with
  | [] => cur = None
  | p :: ls => cur = Some p /\ exists L, t !! p = Some L /\ chain t (tl_next L) ls
  end.

Definition tmo (t : gmap ptr CTimerList) (p : ptr) : Z := from_option tl_timeout 0 (t !! p).

Definition exp_le (ex : gmap ptr Z) (a b : ptr) : Prop := ex !!! a <= ex !!! b.

(** The lists: one per timeout, all positive; [timeout_inf] is the least. *)
Record linv (t : gmap ptr CTimerList) (un : option ptr) (pend : ptr) (inf : Z) (ls : list ptr) : Prop := {
  li_chain : chain t un ls;
  li_nodup : NoDup (pend :: ls);
  li_dom : forall p, p ∈ dom t <-> p ∈ pend :: ls;
  li_pos : forall p, p ∈ ls -> 0 < tmo t p;
  li_uniq : forall p q, p ∈ ls -> q ∈ ls -> tmo t p = tmo t q -> p = q;
  li_inf : (ls = [] /\ inf = 0) \/ (exists p, p ∈ ls /\ inf = tmo t p /\ forall q, q ∈ ls -> inf <= tmo t q)
}.

(** The objects: [R] is the contents of the lists; each is ordered by expiry, and
    no object expires later than one attached now would. *)
Record oinv (c : cells) (ex : gmap ptr Z) (now : Z) (pend : ptr) (ls : list ptr) (tm : ptr -> Z)
    (R : gmap ptr (list ptr)) : Prop := {
  oi_rep : rep c R;
  oi_key : forall p, p ∈ pend :: ls -> p ∈ dom R;
  oi_dom : forall h, h ∈ dom R -> h ∈ pend :: ls \/ h ∈ dom ex;
  oi_obj : forall o, o ∈ dom ex -> linked R o;
  oi_in : forall h o, o ∈ R !!! h -> h ∈ pend :: ls /\ o ∈ dom ex;
  oi_sep : forall p, p ∈ pend :: ls -> p ∉ dom ex;
  oi_sorted : forall p, p ∈ ls -> StronglySorted (exp_le ex) (R !!! p);
  oi_bound : forall p o, p ∈ ls -> o ∈ R !!! p -> ex !!! o <= now + tm p
}.

Definition tinv {X} (w : tworld X) (ls : list ptr) (R : gmap ptr (list ptr)) : Prop :=
  linv (tlists w) (unext w) (pending w) (timeout_inf w) ls /\
  oinv (cells_of w) (objexp w) (clock w) (pending w) ls (tmo (tlists w)) R.

(** ** Sequences ordered by expiry *)

Lemma sorted_sublist (ex : gmap ptr Z) k l : sublist k l -> StronglySorted (exp_le ex) l -> StronglySorted (exp_le ex) k.
Proof.
  induction 1 as [|x k l Hs IH|x k l Hs IH]; intros H; [done| |].
  - apply StronglySorted_inv in H as [H1 H2]. constructor; [auto|].
    rewrite !Forall_forall in *. intros y Hy. apply H2. by eapply elem_of_sublist.
  - apply StronglySorted_inv in H as [H1 _]. auto.
Qed.

Lemma sorted_app (ex : gmap ptr Z) k l : StronglySorted (exp_le ex) k -> StronglySorted (exp_le ex) l ->
  (forall a b, a ∈ k -> b ∈ l -> exp_le ex a b) -> StronglySorted (exp_le ex) (k ++ l).
Proof.
  induction 1 as [|x k Hs IH Hx]; intros Hl Hc; [done|]. cbn. constructor.
  - apply IH; [done|]. intros a b Ha. apply Hc. by right.
  - apply Forall_app. split; [done|]. apply Forall_forall. intros y Hy. apply Hc; [by left|done].
Qed.

Lemma sorted_ext (ex ex' : gmap ptr Z) l : (forall o, o ∈ l -> ex' !!! o = ex !!! o) ->
  StronglySorted (exp_le ex) l -> StronglySorted (exp_le ex') l.
Proof.
  intros He. induction 1 as [|x l Hs IH Hx]; constructor.
  - apply IH. intros o Ho. apply He. by right.
  - rewrite !Forall_forall in *. intros y Hy. unfold exp_le. rewrite !He by (by left || by right). by apply Hx.
Qed.

Lemma without_sublist x l : sublist (without x l) l.
Proof. unfold without. apply sublist_filter. Qed.

Lemma drop_from_total x R h : h <> x -> drop_from x R !!! h = without x (R !!! h).
Proof.
  intros Hn. unfold drop_from. rewrite lookup_total_alt, lookup_fmap, lookup_delete_ne by congruence.
  rewrite lookup_total_alt. by destruct (R !! h).
Qed.

Lemma drop_from_total_eq x R : drop_from x R !!! x = [].
Proof. unfold drop_from. by rewrite lookup_total_alt, lookup_fmap, lookup_delete_eq. Qed.


(** ** The operations on objects keep the invariant *)

Lemma lookup_in_dom (R : gmap ptr (list ptr)) h : h ∈ dom R -> R !! h = Some (R !!! h).
Proof. intros [l Hl]%elem_of_dom. by rewrite Hl, (lookup_total_correct _ _ _ Hl). Qed.

Lemma dom_drop_from o R h : h ∈ dom (drop_from o R) <-> h <> o /\ h ∈ dom R.
Proof. unfold drop_from. rewrite dom_fmap, dom_delete. set_solver. Qed.

Section objects.
Context (c : cells) (ex : gmap ptr Z) (now : Z) (pend : ptr) (ls : list ptr) (tm : ptr -> Z).
Context (R : gmap ptr (list ptr)) (Ho : oinv c ex now pend ls tm R).
Implicit Types (o p h : ptr).

Lemma head_not_obj p o : p ∈ pend :: ls -> o ∈ dom ex -> p <> o.
Proof. intros Hp Hx ->. by eapply oi_sep. Qed.

Lemma linked_drop o o' : o ∈ dom ex -> o' ∈ dom ex -> o' <> o ->
  (drop_from o R !! o' = Some []) \/ exists h, h ∈ pend :: ls /\ o' ∈ without o (R !!! h).
Proof.
  intros Hd Hd' Hn. destruct (oi_obj _ _ _ _ _ _ _ Ho o' Hd') as [H|(h & l & Hh & Hx)].
  - left. by rewrite (drop_from_lookup_2 o R o' []).
  - right. exists h. assert (o' ∈ R !!! h) as Hin by (by rewrite (lookup_total_correct _ _ _ Hh)).
    rewrite elem_of_without. by pose proof (oi_in _ _ _ _ _ _ _ Ho _ _ Hin) as [? _].
Qed.

(** Taking an object out of whatever list it is in. *)
Lemma oinv_del_init o : o ∈ dom ex ->
  exists c', list_del_init o c = Some c' /\ dom c' = dom c /\ oinv c' ex now pend ls tm (list_del_init_abs o R).
Proof.
  intros Hd. destruct (list_del_init_rep c R o) as (c' & E & D & Hr); [apply Ho|by eapply oi_obj|].
  exists c'. split; [done|]. split; [done|].
  assert (forall p, p ∈ pend :: ls -> list_del_init_abs o R !!! p = without o (R !!! p)) as Hc.
  { intros p Hp. unfold list_del_init_abs. pose proof (head_not_obj p o Hp Hd).
    by rewrite lookup_total_insert_ne, drop_from_total by congruence. }
  split; [done| | | | | | |].
  - intros p Hp. unfold list_del_init_abs. rewrite dom_insert, elem_of_union, dom_drop_from. right.
    split; [by apply head_not_obj|by eapply oi_key].
  - intros h. unfold list_del_init_abs. rewrite dom_insert, elem_of_union, dom_drop_from, elem_of_singleton.
    intros [-> | [_ H]]; [by right|by eapply oi_dom].
  - intros o' Hd'. unfold list_del_init_abs. destruct (decide (o' = o)) as [-> | Hn].
    { left. by rewrite lookup_insert_eq. }
    destruct (linked_drop o o' Hd Hd' Hn) as [H|(h & Hh & Hin)].
    + left. by rewrite lookup_insert_ne by congruence.
    + right. exists h, (without o (R !!! h)). split; [|done].
      pose proof (head_not_obj h o Hh Hd). rewrite lookup_insert_ne by congruence.
      apply drop_from_lookup_2; [done|]. by apply lookup_in_dom, (oi_key _ _ _ _ _ _ _ Ho).
  - intros h o' Hin. unfold list_del_init_abs in Hin. destruct (decide (h = o)) as [-> | Hn].
    { rewrite lookup_total_insert_eq in Hin. by apply elem_of_nil in Hin. }
    rewrite lookup_total_insert_ne, drop_from_total, elem_of_without in Hin by congruence.
    destruct Hin as [_ Hin]. by eapply oi_in.
  - apply Ho.
  - intros p Hp. rewrite Hc by (by right). eapply sorted_sublist; [apply without_sublist|by apply Ho].
  - intros p o' Hp. rewrite Hc by (by right). rewrite elem_of_without. intros [_ ?]. by eapply oi_bound.
Qed.

(** Attaching an object at the back of list [p]. *)
Lemma oinv_move_tail o p : o ∈ dom ex -> p ∈ pend :: ls ->
  exists c', list_move_tail o p c = Some c' /\ dom c' = dom c /\ forall ex',
    dom ex' = dom ex -> (forall a, a <> o -> ex' !!! a = ex !!! a) ->
    (p ∈ ls -> ex' !!! o = now + tm p) ->
    oinv c' ex' now pend ls tm (<[p := without o (R !!! p) ++ [o]]> (drop_from o R)).
Proof.
  intros Hd Hp. pose proof (head_not_obj p o Hp Hd) as Hpo.
  destruct (list_move_rep c R o p) as [_ (c' & E & D & Hr)];
    [apply Ho|by eapply oi_obj|done|by apply elem_of_dom, (oi_key _ _ _ _ _ _ _ Ho)|].
  exists c'. split; [done|]. split; [done|]. intros ex' Hdom Hex Hnew.
  set (R' := <[p := _]> _) in *.
  assert (R' !!! p = without o (R !!! p) ++ [o]) as Hcp by apply lookup_total_insert_eq.
  assert (forall h, h <> p -> h <> o -> R' !!! h = without o (R !!! h)) as Hc.
  { intros h H1 H2. unfold R'. by rewrite lookup_total_insert_ne, drop_from_total by congruence. }
  assert (R' !!! o = []) as Hco. { unfold R'. by rewrite lookup_total_insert_ne, drop_from_total_eq by congruence. }
  assert (forall h a, a ∈ without o (R !!! h) -> ex' !!! a = ex !!! a) as Hsame.
  { intros h a [? _]%elem_of_without. by apply Hex. }
  split; [done| | | | | | |].
  - intros q Hq. unfold R'. rewrite dom_insert, elem_of_union, dom_drop_from. right.
    split; [by apply head_not_obj|by eapply oi_key].
  - intros h. unfold R'. rewrite dom_insert, elem_of_union, dom_drop_from, elem_of_singleton, Hdom.
    intros [-> | [_ H]]; [by left|by eapply oi_dom].
  - intros o' Hd'. rewrite Hdom in Hd'. destruct (decide (o' = o)) as [-> | Hn].
    { right. exists p, (without o (R !!! p) ++ [o]). split; [apply lookup_insert_eq|set_solver]. }
    destruct (linked_drop o o' Hd Hd' Hn) as [H|(h & Hh & Hin)].
    + left. unfold R'. rewrite lookup_insert_ne; [done|]. by apply head_not_obj.
    + right. destruct (decide (h = p)) as [-> | Hhp].
      * exists p, (without o (R !!! p) ++ [o]). split; [apply lookup_insert_eq|]. apply elem_of_app. by left.
      * exists h, (without o (R !!! h)). split; [|done]. unfold R'. rewrite lookup_insert_ne by congruence.
        apply drop_from_lookup_2; [by apply head_not_obj|]. by apply lookup_in_dom, (oi_key _ _ _ _ _ _ _ Ho).
  - intros h o' Hin. rewrite Hdom. destruct (decide (h = p)) as [-> | Hhp]; [|destruct (decide (h = o)) as [-> | Hho]].
    + rewrite Hcp, elem_of_app, elem_of_without, list_elem_of_singleton in Hin.
      destruct Hin as [[_ Hin] | ->]; [by eapply oi_in|done].
    + rewrite Hco in Hin. by apply elem_of_nil in Hin.
    + rewrite Hc, elem_of_without in Hin by done. destruct Hin as [_ Hin]. by eapply oi_in.
  - intros q Hq. rewrite Hdom. by eapply oi_sep.
  - intros q Hq. assert (StronglySorted (exp_le ex') (without o (R !!! q))) as Hs.
    { apply (sorted_ext ex); [apply Hsame|]. eapply sorted_sublist; [apply without_sublist|by apply Ho]. }
    destruct (decide (q = p)) as [-> | Hqp]; [|rewrite Hc; [done..|by apply head_not_obj; [right|]]].
    rewrite Hcp. apply sorted_app; [done|by repeat constructor|].
    intros a b Ha ->%list_elem_of_singleton. unfold exp_le. rewrite Hnew, (Hsame p) by done.
    apply elem_of_without in Ha as [_ Ha]. by eapply oi_bound.
  - intros q a Hq Ha. destruct (decide (q = p)) as [-> | Hqp].
    + rewrite Hcp, elem_of_app, list_elem_of_singleton in Ha. destruct Ha as [Ha | ->]; [|rewrite Hnew by done; lia].
      rewrite (Hsame p) by done. apply elem_of_without in Ha as [_ Ha]. by eapply oi_bound.
    + rewrite Hc in Ha; [|done|by apply head_not_obj; [right|]]. rewrite (Hsame q) by done.
      apply elem_of_without in Ha as [_ Ha]. by eapply oi_bound.
Qed.
End objects.

Lemma rep_free st R o : rep st R -> unlisted R o -> rep (delete o st) R.
Proof.
  intros Hr Hu. split; [|by apply Hr|by apply Hr]. intros h l Hh.
  assert (forall a, a ∈ h :: l -> a <> o) as Hne by (intros a Ha ->; by apply (Hu h l)).
  eapply links_frame; [by apply (rep_links _ _ Hr)| |]; intros a Ha; unfold rd_next, rd_prev;
    rewrite lookup_delete_ne; try done; apply not_eq_sym, Hne; [done|]. clear -Ha. set_solver.
Qed.

Lemma unlisted_total R o : unlisted R o -> R !!! o = [].
Proof.
  intros Hu. rewrite lookup_total_alt. destruct (R !! o) as [l|] eqn:E; [|done].
  by destruct (Hu o l E); left.
Qed.

(** Adding an empty list changes no sequence. *)
Lemma total_add_empty R o h : unlisted R o -> <[o := []]> R !!! h = R !!! h.
Proof.
  intros Hu. destruct (decide (h = o)) as [-> | Hn]; [|by rewrite lookup_total_insert_ne].
  by rewrite lookup_total_insert_eq, unlisted_total.
Qed.

Section objects2.
Context (c : cells) (ex : gmap ptr Z) (now : Z) (pend : ptr) (ls : list ptr) (tm : ptr -> Z).
Context (R : gmap ptr (list ptr)) (Ho : oinv c ex now pend ls tm R).
Implicit Types (o p h : ptr).

Lemma outside_unlisted o : o ∉ pend :: ls -> o ∉ dom ex -> unlisted R o.
Proof.
  intros H1 H2 h l Hh Hx. apply elem_of_cons in Hx as [-> | Hx].
  - apply elem_of_dom_2, (oi_dom _ _ _ _ _ _ _ Ho) in Hh. tauto.
  - assert (o ∈ R !!! h) as Hin by (by rewrite (lookup_total_correct _ _ _ Hh)).
    apply (oi_in _ _ _ _ _ _ _ Ho) in Hin. tauto.
Qed.

(** A new cell, for an object. *)
Lemma oinv_new o v : o ∉ pend :: ls -> o ∉ dom ex ->
  oinv (INIT_LIST_HEAD o c) (<[o := v]> ex) now pend ls tm (<[o := []]> R).
Proof.
  intros H1 H2. pose proof (outside_unlisted o H1 H2) as Hu.
  assert (forall h, <[o := []]> R !!! h = R !!! h) as Hc by (intros; by apply total_add_empty).
  assert (forall h a, a ∈ R !!! h -> <[o := v]> ex !!! a = ex !!! a) as Hsame.
  { intros h a Ha. apply (oi_in _ _ _ _ _ _ _ Ho) in Ha as [_ Ha].
    rewrite lookup_total_insert_ne; [done|]. by intros ->. }
  split.
  - apply rep_init; [apply Ho|done].
  - intros p Hp. rewrite dom_insert. apply elem_of_union_r. by eapply oi_key.
  - intros h. rewrite !dom_insert, !elem_of_union, elem_of_singleton. intros [-> | Hh]; [by right; left|].
    apply (oi_dom _ _ _ _ _ _ _ Ho) in Hh. tauto.
  - intros a. rewrite dom_insert, elem_of_union, elem_of_singleton. intros Ha.
    destruct (decide (a = o)) as [-> | Hn]; [left; apply lookup_insert_eq|]. destruct Ha as [Ha|Ha]; [done|].
    destruct (oi_obj _ _ _ _ _ _ _ Ho a Ha) as [H|(h & l & Hh & Hin)].
    + left. by rewrite lookup_insert_ne.
    + right. exists h, l. split; [|done]. rewrite lookup_insert_ne; [done|]. intros <-. by apply (Hu _ _ Hh); left.
  - intros h a. rewrite Hc, dom_insert, elem_of_union. intros Ha. apply (oi_in _ _ _ _ _ _ _ Ho) in Ha. tauto.
  - intros p Hp. rewrite dom_insert, elem_of_union, elem_of_singleton.
    intros [-> | Hx]; [done|]. by eapply oi_sep.
  - intros p Hp. rewrite Hc. eapply sorted_ext; [apply Hsame|by apply Ho].
  - intros p a Hp. rewrite Hc. intros Ha. rewrite (Hsame p) by done. by eapply oi_bound.
Qed.

(** Freeing an object that is in no list. *)
Lemma oinv_free o : o ∈ dom ex -> R !! o = Some [] ->
  oinv (delete o c) (delete o ex) now pend ls tm (delete o R).
Proof.
  intros H1 H2.
  assert (forall h, delete o R !!! h = R !!! h) as Hc.
  { intros h. destruct (decide (h = o)) as [-> | Hn]; [|by rewrite lookup_total_delete_ne].
    rewrite lookup_total_delete_eq. by rewrite (lookup_total_correct _ _ _ H2). }
  assert (forall h a, a ∈ R !!! h -> a <> o) as Hne.
  { intros h a Ha ->. destruct (R !! h) as [l|] eqn:E; [|by rewrite lookup_total_alt, E in Ha; apply elem_of_nil in Ha].
    rewrite (lookup_total_correct _ _ _ E) in Ha.
    assert (h = o) as -> by (apply (rep_disj _ _ (oi_rep _ _ _ _ _ _ _ Ho) h l o [] o); [done..|by right|by left]).
    simplify_eq. by apply elem_of_nil in Ha. }
  assert (forall h a, a ∈ R !!! h -> delete o ex !!! a = ex !!! a) as Hsame.
  { intros h a Ha. apply lookup_total_delete_ne. apply not_eq_sym. by eapply Hne. }
  split.
  - apply rep_free; [apply rep_delete, Ho|]. intros h l [Hn Hh]%lookup_delete_Some Hx.
    apply elem_of_cons in Hx as [Hx|Hx]; [done|]. eapply (Hne h o); [|done].
    by rewrite (lookup_total_correct _ _ _ Hh).
  - intros p Hp. rewrite dom_delete, elem_of_difference, not_elem_of_singleton.
    split; [by eapply oi_key|]. by apply (head_not_obj c ex now pend ls tm R).
  - intros h. rewrite !dom_delete, !elem_of_difference, !not_elem_of_singleton. intros [Hh Hn].
    apply (oi_dom _ _ _ _ _ _ _ Ho) in Hh. tauto.
  - intros a. rewrite dom_delete, elem_of_difference, not_elem_of_singleton. intros [Ha Hn].
    destruct (oi_obj _ _ _ _ _ _ _ Ho a Ha) as [H|(h & l & Hh & Hin)].
    + left. by rewrite lookup_delete_ne.
    + right. exists h, l. split; [|done]. rewrite lookup_delete_ne; [done|]. intros <-. simplify_eq.
      by apply elem_of_nil in Hin.
  - intros h a. rewrite Hc, dom_delete, elem_of_difference, not_elem_of_singleton. intros Ha.
    pose proof (Hne _ _ Ha). apply (oi_in _ _ _ _ _ _ _ Ho) in Ha. tauto.
  - intros p Hp. rewrite dom_delete, elem_of_difference. intros [Hx _]. by eapply oi_sep.
  - intros p Hp. rewrite Hc. eapply sorted_ext; [apply Hsame|by apply Ho].
  - intros p a Hp. rewrite Hc. intros Ha. rewrite (Hsame p) by done. by eapply oi_bound.
Qed.

(** A new list with nothing in it. *)
Lemma oinv_new_list p (tm' : ptr -> Z) : p ∉ pend :: ls -> p ∉ dom ex -> (forall q, q ∈ ls -> tm' q = tm q) ->
  oinv (INIT_LIST_HEAD p c) ex now pend (p :: ls) tm' (<[p := []]> R).
Proof.
  intros H1 H2 Htm. pose proof (outside_unlisted p H1 H2) as Hu.
  assert (forall h, <[p := []]> R !!! h = R !!! h) as Hc by (intros; by apply total_add_empty).
  assert (R !!! p = []) as Hp0 by (rewrite <- Hc; apply lookup_total_insert_eq).
  split.
  - apply rep_init; [apply Ho|done].
  - intros q Hq. rewrite dom_insert, elem_of_union, elem_of_singleton.
    destruct (decide (q = p)) as [-> | Hn]; [by left|]. right. eapply oi_key; [done|]. set_solver.
  - intros h. rewrite !dom_insert, !elem_of_union, elem_of_singleton. intros [-> | Hh]; [left; set_solver|].
    apply (oi_dom _ _ _ _ _ _ _ Ho) in Hh. set_solver.
  - intros a Ha. destruct (oi_obj _ _ _ _ _ _ _ Ho a Ha) as [H|(h & l & Hh & Hin)].
    + left. rewrite lookup_insert_ne; [done|]. by intros <-.
    + right. exists h, l. split; [|done]. rewrite lookup_insert_ne; [done|]. intros <-. by apply (Hu _ _ Hh); left.
  - intros h a. rewrite Hc. intros Ha. apply (oi_in _ _ _ _ _ _ _ Ho) in Ha. set_solver.
  - intros q Hq Hx. apply elem_of_cons in Hq as [-> | [-> | Hq]%elem_of_cons]; [|done|];
      [eapply (oi_sep _ _ _ _ _ _ _ Ho pend); [by left|done]|eapply (oi_sep _ _ _ _ _ _ _ Ho q); [by right|done]].
  - intros q Hq. rewrite Hc. destruct (decide (q = p)) as [-> | Hn]; [rewrite Hp0; constructor|].
    apply Ho. set_solver.
  - intros q a Hq. rewrite Hc. destruct (decide (q = p)) as [-> | Hn]; [rewrite Hp0; set_solver|].
    apply elem_of_cons in Hq as [?|Hq]; [done|]. rewrite Htm by done. by apply Ho.
Qed.

(** Time passes. *)
Lemma oinv_later now' : now <= now' -> oinv c ex now' pend ls tm R.
Proof.
  intros Hle. destruct Ho. split; try done. intros p o Hp Hin. specialize (oi_bound0 p o Hp Hin). lia.
Qed.
End objects2.

(** ** The chain of lists *)

Definition nxt_of (t : gmap ptr CTimerList) (p : ptr) : option (option ptr) := tl_next <$> t !! p.

Lemma timer_chain_frame t t' ls : forall cur, (forall p, p ∈ ls -> nxt_of t' p = nxt_of t p) ->
  chain t cur ls -> chain t' cur ls.
Proof.
  induction ls as [|p ls IH]; intros cur Hf; [done|]. intros (-> & L & HL & Hc). split; [done|].
  assert (nxt_of t' p = nxt_of t p) as Hp by (apply Hf; by left).
  unfold nxt_of in Hp. rewrite HL in Hp. destruct (t' !! p) as [L'|]; [|done]. injection Hp as Hp.
  exists L'. split; [done|]. rewrite Hp. apply IH; [|done]. intros q Hq. apply Hf. by right.
Qed.

Lemma set_prev_spec p s t : p ∈ dom t -> exists t', set_prev p s t = Some t' /\ dom t' = dom t /\
  (forall q, nxt_of t' q = nxt_of t q) /\ (forall q, tmo t' q = tmo t q).
Proof.
  intros [L HL]%elem_of_dom. unfold set_prev. rewrite HL. cbn [mbind option_bind]. eexists. split; [done|].
  split; [apply dom_insert_lookup_L; eauto|].
  unfold nxt_of, tmo. split; intros q; (destruct (decide (q = p)) as [-> | Hn];
    [by rewrite lookup_insert_eq, HL|by rewrite lookup_insert_ne]).
Qed.

Lemma linv_length t un pend inf ls : linv t un pend inf ls -> (length ls < S (size t))%nat.
Proof.
  intros Hl. rewrite <- size_dom. pose proof (li_nodup _ _ _ _ _ Hl) as [_ Hnd]%NoDup_cons.
  rewrite <- (size_list_to_set ls (C := gset ptr)) by done.
  assert (list_to_set ls ⊆ dom t) as Hs%subseteq_size; [|lia].
  intros x Hx%elem_of_list_to_set. apply (li_dom _ _ _ _ _ Hl). by right.
Qed.

(** A list of the chain, and the chain from it on. *)
Lemma chain_app t cur l1 p l2 : chain t cur (l1 ++ p :: l2) ->
  exists L, t !! p = Some L /\ chain t (tl_next L) l2.
Proof.
  revert cur. induction l1 as [|q l1 IH]; intros cur; cbn.
  - intros (_ & L & H). eauto.
  - intros (_ & L & _ & H). by eapply IH.
Qed.

Section unit_ops.
Context {X : Type}.
Implicit Types (w : tworld X) (o p : ptr) (ls : list ptr) (R : gmap ptr (list ptr)).

Lemma find_list_spec to w ls : forall fuel cur, chain (tlists w) cur ls -> (length ls <= fuel)%nat ->
  exists r, find_list fuel cur to w = Some r /\
    match r with Some p => p ∈ ls /\ tmo (tlists w) p = to | None => forall p, p ∈ ls -> tmo (tlists w) p <> to end.
Proof.
  induction ls as [|p ls IH]; intros fuel cur; cbn [chain length].
  - intros -> _. exists None. split; [by destruct fuel|]. intros q Hq. by apply elem_of_nil in Hq.
  - intros (-> & L & HL & Hc) Hf. destruct fuel as [|fuel]; [lia|]. cbn [find_list]. rewrite HL. cbn [mbind option_bind].
    assert (tmo (tlists w) p = tl_timeout L) as Ht by (unfold tmo; by rewrite HL).
    destruct (Z.eqb_spec (tl_timeout L) to) as [He|He].
    + exists (Some p). split; [done|]. split; [by left|congruence].
    + destruct (IH fuel (tl_next L) Hc) as (r & E & Hr); [lia|]. exists r. split; [done|].
      destruct r as [q|]; [destruct Hr; split; [by right|done]|].
      intros q [-> | Hq]%elem_of_cons; [congruence|by apply Hr].
Qed.

(** What [GetTimerList] changes when it makes a list. *)
Definition new_list (fresh : ptr) w w' ls : Prop :=
  cells_of w' = INIT_LIST_HEAD fresh (cells_of w) /\ objexp w' = objexp w /\ clock w' = clock w /\
  pending w' = pending w /\ fired w' = fired w /\ ext w' = ext w /\
  linv (tlists w') (unext w') (pending w') (timeout_inf w') (fresh :: ls) /\
  (forall q, q ∈ ls -> tmo (tlists w') q = tmo (tlists w) q).

Lemma linv_cons t t' un pend inf ls fresh to : linv t un pend inf ls -> fresh ∉ pend :: ls -> 0 < to ->
  (forall p, p ∈ ls -> tmo t p <> to) ->
  dom t' = {[fresh]} ∪ dom t -> nxt_of t' fresh = Some un -> tmo t' fresh = to ->
  (forall q, q ∈ ls -> nxt_of t' q = nxt_of t q /\ tmo t' q = tmo t q) ->
  linv t' (Some fresh) pend (if (to <? inf) || (inf =? 0) then to else inf) (fresh :: ls).
Proof.
  intros Hl Hfr Hto Hnone Hd Hn Ht Hold. split.
  - split; [done|]. unfold nxt_of in Hn. destruct (t' !! fresh) as [L|]; [|done]. exists L. split; [done|].
    injection Hn as ->. eapply timer_chain_frame; [|apply Hl]. intros p Hp. by apply Hold.
  - rewrite (Permutation_swap fresh pend). apply NoDup_cons. split; [done|apply Hl].
  - intros p. rewrite Hd, elem_of_union, elem_of_singleton, (li_dom _ _ _ _ _ Hl). set_solver.
  - intros p [-> | Hp]%elem_of_cons; [by rewrite Ht|]. destruct (Hold p Hp) as [_ ->]. by apply Hl.
  - intros p q [-> | Hp]%elem_of_cons [-> | Hq]%elem_of_cons; rewrite ?Ht; [done| | |].
    + destruct (Hold q Hq) as [_ ->]. intros He. by destruct (Hnone q Hq).
    + destruct (Hold p Hp) as [_ ->]. intros He. by destruct (Hnone p Hp).
    + destruct (Hold p Hp) as [_ ->], (Hold q Hq) as [_ ->]. by apply Hl.
  - right. destruct (li_inf _ _ _ _ _ Hl) as [[-> ->]|(m & Hm & -> & Hmin)].
    + rewrite orb_true_r. exists fresh. split; [by left|]. split; [done|].
      intros q [-> | Hq]%elem_of_cons; [lia|by apply elem_of_nil in Hq].
    + assert (0 < tmo t m) by (by apply Hl). destruct (Z.eqb_spec (tmo t m) 0); [lia|]. rewrite orb_false_r.
      destruct (Z.ltb_spec to (tmo t m)).
      * exists fresh. split; [by left|]. split; [done|]. intros q [-> | Hq]%elem_of_cons; [lia|].
        destruct (Hold q Hq) as [_ ->]. specialize (Hmin q Hq). lia.
      * exists m. split; [by right|]. destruct (Hold m Hm) as [_ ->]. split; [done|].
        intros q [-> | Hq]%elem_of_cons; [lia|]. destruct (Hold q Hq) as [_ ->]. by apply Hmin.
Qed.

Lemma GetTimerList_linv fresh to w ls : linv (tlists w) (unext w) (pending w) (timeout_inf w) ls ->
  0 < to -> fresh ∉ pending w :: ls ->
  (exists p, p ∈ ls /\ tmo (tlists w) p = to /\ GetTimerList fresh to w = Some (p, w)) \/
  (exists w', GetTimerList fresh to w = Some (fresh, w') /\ new_list fresh w w' ls /\ tmo (tlists w') fresh = to).
Proof.
  intros Hl Hto Hfr. unfold GetTimerList.
  destruct (find_list_spec to w ls (S (size (tlists w))) (unext w)) as (r & -> & Hr);
    [apply Hl|pose proof (linv_length _ _ _ _ _ Hl); lia|]. cbn [mbind option_bind].
  destruct r as [p|]; [left; exists p; naive_solver|]. right.
  set (t0 := <[fresh := _]> (tlists w)).
  assert (exists t1, match unext w with Some n => set_prev n (SList fresh) t0 | None => Some t0 end = Some t1 /\
    dom t1 = dom t0 /\ (forall q, nxt_of t1 q = nxt_of t0 q) /\ (forall q, tmo t1 q = tmo t0 q))
    as (t1 & -> & D1 & N1 & T1).
  { destruct (unext w) as [n|] eqn:Eu; [|by exists t0]. apply set_prev_spec. unfold t0.
    rewrite dom_insert, elem_of_union, (li_dom _ _ _ _ _ Hl). right.
    pose proof (li_chain _ _ _ _ _ Hl) as Hc. destruct ls; [done|]. destruct Hc as ([= ->] & _). right. by left. }
  cbn [mbind option_bind].
  destruct (set_prev_spec fresh SUnit t1) as (t2 & -> & D2 & N2 & T2).
  { rewrite D1. unfold t0. set_solver. }
  cbn [mbind option_bind]. eexists. split; [done|].
  assert (dom t2 = {[fresh]} ∪ dom (tlists w)) as D by (rewrite D2, D1; apply dom_insert_L).
  assert (forall q, q ∈ ls -> nxt_of t2 q = nxt_of (tlists w) q /\ tmo t2 q = tmo (tlists w) q) as Hold.
  { intros q Hq. rewrite N2, N1, T2, T1. unfold nxt_of, tmo, t0.
    rewrite lookup_insert_ne by (intros ->; apply Hfr; by right). done. }
  assert (nxt_of t2 fresh = Some (unext w) /\ tmo t2 fresh = to) as [Hn Ht].
  { rewrite N2, N1, T2, T1. unfold nxt_of, tmo, t0. by rewrite lookup_insert_eq. }
  pose proof (linv_cons _ t2 _ _ _ _ fresh to Hl Hfr Hto Hr D Hn Ht Hold) as Hl'.
  cbn [timeout_inf set_tlists set_unext set_cells]. unfold new_list.
  destruct ((to <? timeout_inf w) || (timeout_inf w =? 0)); (split; [split_and!; try done; apply Hold|done]).
Qed.
End unit_ops.

(** ** The operations on the unit keep the invariant *)

Section steps.
Context {X : Type}.
Implicit Types (w : tworld X) (o p : ptr) (ls : list ptr) (R : gmap ptr (list ptr)).

Lemma tinv_new pend now (x : X) : tinv (CTimerUnit_new pend now x) [] {[pend := []]}.
Proof.
  split; cbn.
  - split; cbn.
    + done.
    + by apply NoDup_singleton.
    + intros p. rewrite dom_singleton. set_solver.
    + by intros p Hp%elem_of_nil.
    + by intros p q Hp%elem_of_nil.
    + by left.
  - split; try (by intros p Hp%elem_of_nil); try (by intros p o Hp%elem_of_nil).
    + apply (rep_init ∅ ∅); [split; intros *; rewrite lookup_empty; done|]. intros h l H. by rewrite lookup_empty in H.
    + intros p ->%list_elem_of_singleton. set_solver.
    + intros h. rewrite dom_singleton, elem_of_singleton. intros ->. left. by left.
    + intros o. rewrite dom_empty. set_solver.
    + intros h o. destruct (decide (h = pend)) as [-> | Hn].
      * rewrite lookup_total_singleton_eq. by intros ?%elem_of_nil.
      * rewrite lookup_total_singleton_ne by congruence. by intros ?%elem_of_nil.
    + intros p _. rewrite dom_empty. set_solver.
Qed.

Lemma tinv_new_object o v w ls R : tinv w ls R -> o ∉ pending w :: ls -> o ∉ dom (objexp w) ->
  tinv (CTimerObject_new o v w) ls (<[o := []]> R).
Proof. intros [Hl Ho] H1 H2. split; [done|]. by apply oinv_new. Qed.

Lemma tinv_delete_object o w ls R : tinv w ls R -> o ∈ dom (objexp w) ->
  exists w', CTimerObject_delete o w = Some w' /\ tinv w' ls (delete o (list_del_init_abs o R)) /\
    exists c, w' = set_cells c (set_objexp (delete o (objexp w)) w).
Proof.
  intros [Hl Ho] Hd. destruct (oinv_del_init _ _ _ _ _ _ _ Ho o Hd) as (c & E & _ & Ho').
  unfold CTimerObject_delete. rewrite E. cbn [mbind option_bind]. eexists. split; [done|].
  split; [split; [done|]|eauto]. apply oinv_free; [done..|apply lookup_insert_eq].
Qed.

Lemma tinv_Disable o w ls R : tinv w ls R -> o ∈ dom (objexp w) ->
  exists c, DisableTimer o w = Some (set_cells c w) /\ tinv (set_cells c w) ls (list_del_init_abs o R).
Proof.
  intros [Hl Ho] Hd. destruct (oinv_del_init _ _ _ _ _ _ _ Ho o Hd) as (c & E & _ & Ho').
  unfold DisableTimer. rewrite E. cbn [mbind option_bind]. exists c. by split.
Qed.

(** The contents of the lists after an attach. *)
Definition attach_abs o p R : gmap ptr (list ptr) := <[p := without o (R !!! p) ++ [o]]> (drop_from o R).

Lemma tinv_Attach o p w ls R : tinv w ls R -> o ∈ dom (objexp w) -> p ∈ ls ->
  exists c, let w' := set_cells c (set_objexp (<[o := clock w + tmo (tlists w) p]> (objexp w)) w) in
    AttachTimer o p w = Some w' /\ tinv w' ls (attach_abs o p R).
Proof.
  intros [Hl Ho] Hd Hp. assert (p ∈ pending w :: ls) as Hp' by (by right).
  destruct (oinv_move_tail _ _ _ _ _ _ _ Ho o p Hd Hp') as (c & E & _ & Hm). exists c.
  pose proof (proj2 (li_dom _ _ _ _ _ Hl p) Hp') as [L HL]%elem_of_dom.
  pose proof (li_pos _ _ _ _ _ Hl p Hp) as Hpos. unfold tmo in *. rewrite HL in Hpos |- *. cbn in Hpos |- *.
  unfold AttachTimer. rewrite HL. cbn [mbind option_bind]. pose proof Hd as [v Hv]%elem_of_dom. rewrite Hv.
  cbn [mbind option_bind]. rewrite (proj2 (Z.ltb_lt _ _) Hpos). cbn [cells_of set_objexp]. rewrite E.
  cbn [mbind option_bind]. split; [done|]. split; [done|]. apply Hm; cbn.
  - apply dom_insert_lookup_L. eauto.
  - intros a Ha. by rewrite lookup_total_insert_ne.
  - intros _. rewrite lookup_total_insert_eq, HL. done.
Qed.

Lemma tinv_AttachZero o w ls R : tinv w ls R -> o ∈ dom (objexp w) ->
  exists c, AttachZeroTimer o w = Some (set_cells c w) /\ tinv (set_cells c w) ls (attach_abs o (pending w) R).
Proof.
  intros [Hl Ho] Hd. destruct (oinv_move_tail _ _ _ _ _ _ _ Ho o (pending w) Hd) as (c & E & _ & Hm); [by left|].
  exists c. unfold AttachZeroTimer. rewrite E. cbn [mbind option_bind]. split; [done|]. split; [done|].
  apply Hm; [done..|]. intros Hp. by pose proof (li_nodup _ _ _ _ _ Hl) as [? _]%NoDup_cons.
Qed.

Lemma GetTimerList_spec fresh to w ls R : tinv w ls R -> 0 < to ->
  fresh ∉ pending w :: ls -> fresh ∉ dom (objexp w) ->
  exists p w' ls' R', GetTimerList fresh to w = Some (p, w') /\ tinv w' ls' R' /\
    p ∈ ls' /\ tmo (tlists w') p = to /\
    objexp w' = objexp w /\ ext w' = ext w /\ clock w' = clock w /\ (exists new, ls' = new ++ ls) /\
    (w' = w /\ ls' = ls /\ R' = R \/
     p = fresh /\ ls' = fresh :: ls /\ R' = <[fresh := []]> R /\ forall q, q ∈ ls -> tmo (tlists w) q <> to).
Proof.
  intros [Hl Ho] Hto H1 H2.
  destruct (GetTimerList_linv fresh to w ls Hl Hto H1) as [(p & Hp & Ht & E)|(w' & E & Hn & Ht)].
  - exists p, w, ls, R. split_and!; try done; [by exists []|by left].
  - destruct Hn as (C1 & C2 & C3 & C4 & C5 & C6 & Hl' & Htm).
    exists fresh, w', (fresh :: ls), (<[fresh := []]> R). split; [done|]. split.
    + split; [done|]. rewrite C1, C2, C3, C4. by apply (oinv_new_list _ _ _ _ _ (tmo (tlists w))).
    + split_and!; try done; [by left|by exists [fresh]|]. right. split_and!; try done. intros q Hq Hc.
      rewrite <- Ht in Hc. rewrite <- (Htm q Hq) in Hc.
      assert (q = fresh) as ->; [|by apply H1; right]. apply (li_uniq _ _ _ _ _ Hl'); [by right|by left|done].
Qed.

(** [GetTimerList] returns the list of the timeout asked for: the one there is,
    with nothing changed, or else a new empty one at the front of the chain; there
    is never a second list of the same timeout. *)
Theorem GetTimerList_one_per_timeout fresh to w ls R : tinv w ls R -> 0 < to ->
  fresh ∉ pending w :: ls -> fresh ∉ dom (objexp w) ->
  exists p w' ls' R', GetTimerList fresh to w = Some (p, w') /\ tinv w' ls' R' /\
    p ∈ ls' /\ tmo (tlists w') p = to /\
    (w' = w /\ ls' = ls /\ R' = R \/
     p = fresh /\ ls' = fresh :: ls /\ R' = <[fresh := []]> R /\ forall q, q ∈ ls -> tmo (tlists w) q <> to).
Proof.
  intros Hi Hto H1 H2. destruct (GetTimerList_spec fresh to w ls R Hi Hto H1 H2) as (p & w' & ls' & R' & H).
  exists p, w', ls', R'. tauto.
Qed.

(** ** What callers do *)

(** Reading the head of a list. *)
Lemma head_reads w ls R p o l : tinv w ls R -> p ∈ pending w :: ls -> R !!! p = o :: l ->
  list_empty p (cells_of w) = Some false /\ rd_next (cells_of w) p = Some o /\ o ∈ dom (objexp w) /\ o ∉ l.
Proof.
  intros [Hl Ho] Hp Hc.
  assert (R !! p = Some (o :: l)) as Hs by (rewrite <- Hc; by apply lookup_in_dom, (oi_key _ _ _ _ _ _ _ Ho)).
  pose proof (oi_rep _ _ _ _ _ _ _ Ho) as Hr. split; [by rewrite (list_empty_rep _ R p _ Hr Hs)|].
  pose proof (rep_links _ _ Hr _ _ Hs) as [Hn _]. split; [done|].
  split; [|by apply (rep_nodup _ _ Hr) in Hs as [_ [? _]%NoDup_cons]%NoDup_cons].
  apply (oi_in _ _ _ _ _ _ _ Ho p). rewrite Hc. by left.
Qed.

Lemma empty_reads w ls R p : tinv w ls R -> p ∈ pending w :: ls -> R !!! p = [] ->
  list_empty p (cells_of w) = Some true.
Proof.
  intros [Hl Ho] Hp Hc.
  assert (R !! p = Some []) as Hs by (rewrite <- Hc; by apply lookup_in_dom, (oi_key _ _ _ _ _ _ _ Ho)).
  by rewrite (list_empty_rep _ R p _ (oi_rep _ _ _ _ _ _ _ Ho) Hs).
Qed.

(** What callers and handlers do between and within runs of the timers; objects and
    lists come from new memory, time does not go back, and [ext] is the caller's. *)
Inductive tact : tworld X -> tworld X -> Prop :=
  | ts_tick w t : clock w <= t -> tact w (set_clock t w)
  | ts_ext w x : tact w (set_ext x w)
  | ts_new o v w : o ∉ dom (cells_of w) -> tact w (CTimerObject_new o v w)
  | ts_delete o w w' : o ∈ dom (objexp w) -> CTimerObject_delete o w = Some w' -> tact w w'
  | ts_list fresh to p w w' : 0 < to -> fresh ∉ dom (cells_of w) -> GetTimerList fresh to w = Some (p, w') -> tact w w'
  | ts_attach o p w w' : o ∈ dom (objexp w) -> p ∈ dom (tlists w) -> p <> pending w ->
      AttachTimer o p w = Some w' -> tact w w'
  | ts_zero o w w' : o ∈ dom (objexp w) -> AttachZeroTimer o w = Some w' -> tact w w'
  | ts_disable o w w' : o ∈ dom (objexp w) -> DisableTimer o w = Some w' -> tact w w'
  | ts_transfer fuel lst t w w' : lst ∈ dom (tlists w) -> lst <> pending w ->
      (forall p, t = Some p -> p ∈ dom (tlists w) /\ p <> pending w) ->
      TransforTimer fuel lst t w = Some w' -> tact w w'.

(** A handler that, called on an object, does any sequence of these. *)
Definition handler_ok (TimerNotify : ptr -> tworld X -> option (tworld X)) : Prop :=
  forall o w w', o ∈ dom (objexp w) -> TimerNotify o w = Some w' -> rtc tact w w'.

(** And the main loop runs the timers. *)
Inductive tstep (TimerNotify : ptr -> tworld X -> option (tworld X)) : tworld X -> tworld X -> Prop :=
  | ts_act w w' : tact w w' -> tstep TimerNotify w w'
  | ts_expired now n w w' : CheckExpired TimerNotify now w = Some (n, w') -> tstep TimerNotify w w'.

(** Memory in use is a list or an object. *)
Lemma outside_cells w ls R o : tinv w ls R -> o ∉ dom (cells_of w) -> o ∉ pending w :: ls /\ o ∉ dom (objexp w).
Proof.
  intros [Hl Ho] Hn. pose proof (oi_rep _ _ _ _ _ _ _ Ho) as Hr. split; intros H; apply Hn.
  - apply (oi_key _ _ _ _ _ _ _ Ho), lookup_in_dom in H. by eapply (rep_dom _ R o); [..|left].
  - eapply linked_dom; [done|]. by eapply oi_obj.
Qed.

(** The invariant holds afterwards, of a chain that is longer in front. *)
Definition kept w ls w' : Prop := exists new R', tinv w' (new ++ ls) R' /\ pending w' = pending w.

Lemma kept_same w ls w' R' : tinv w' ls R' -> pending w' = pending w -> kept w ls w'.
Proof. intros Hi Hp. by exists [], R'. Qed.

Lemma kept_lists_trans w ls w1 w2 : kept w ls w1 -> (forall ls1 R1, tinv w1 ls1 R1 -> kept w1 ls1 w2) -> kept w ls w2.
Proof.
  intros (n1 & R1 & Hi1 & Hp1) H. destruct (H _ _ Hi1) as (n2 & R2 & Hi2 & Hp2).
  exists (n2 ++ n1), R2. rewrite <- app_assoc. split; [done|congruence].
Qed.

Lemma list_in_chain w ls R p : tinv w ls R -> p ∈ dom (tlists w) -> p <> pending w -> p ∈ ls.
Proof. intros [Hl _] Hp Hn. apply (li_dom _ _ _ _ _ Hl) in Hp. by apply elem_of_cons in Hp as [?|?]. Qed.

Lemma GetTimerList_pending fresh to w p w' : GetTimerList fresh to w = Some (p, w') -> pending w' = pending w.
Proof.
  unfold GetTimerList. intros E.
  destruct (find_list _ _ _ _) as [[q|]|]; cbn [mbind option_bind] in E; [by simplify_eq| |done].
  destruct (match unext w with Some n => _ | None => _ end); cbn [mbind option_bind] in E; [|done].
  destruct (set_prev _ _ _); cbn [mbind option_bind] in E; [|done]. simplify_eq.
  by case_match.
Qed.

Lemma TransforTimer_loop_kept ls lst t : lst ∈ ls -> t ∈ ls -> forall fuel w R w', tinv w ls R ->
  TransforTimer_loop fuel lst t w = Some w' -> exists R', tinv w' ls R' /\ pending w' = pending w.
Proof.
  intros Hl Ht. induction fuel as [|fuel IH]; intros w R w' Hi E; [done|]. cbn [TransforTimer_loop] in E.
  assert (lst ∈ pending w :: ls) as Hl' by (by right). destruct (R !!! lst) as [|o l] eqn:Hc.
  { rewrite (empty_reads w ls R lst) in E by done. cbn [mbind option_bind] in E. simplify_eq. by exists R. }
  destruct (head_reads w ls R lst o l Hi Hl' Hc) as (He & Hn & Hd & _). rewrite He, Hn in E. cbn [mbind option_bind] in E.
  destruct (oinv_del_init _ _ _ _ _ _ _ (proj2 Hi) o Hd) as (c & Ec & _ & Ho). rewrite Ec in E. cbn [mbind option_bind] in E.
  destruct (tinv_Attach o t (set_cells c w) ls (list_del_init_abs o R)) as (c' & E' & Hi'); [split; [apply Hi|done]|done|done|].
  cbv zeta in E', Hi'. rewrite E' in E. cbn [mbind option_bind] in E. by apply (IH _ _ _ Hi') in E.
Qed.

Lemma tact_kept w w' : tact w w' -> forall ls R, tinv w ls R -> kept w ls w'.
Proof.
  destruct 1 as [w t Ht|w x|o v w Hf|o w w' Hd E|fresh to p w w' Hto Hf E|o p w w' Hd Hp Hnp E|o w w' Hd E|o w w' Hd E
    |fuel lst t w w' Hl Hnl Ht E]; intros ls R Hi.
  - destruct Hi as [Hl Ho]. apply (kept_same _ _ _ R); [|done]. split; [done|]. by eapply oinv_later.
  - by apply (kept_same _ _ _ R).
  - destruct (outside_cells w ls R o Hi Hf). eapply kept_same; [by apply tinv_new_object|done].
  - destruct (tinv_delete_object o w ls R Hi Hd) as (w1 & E1 & Hi' & c & Ew). simplify_eq. by eapply kept_same.
  - destruct (outside_cells w ls R fresh Hi Hf) as [H1 H2]. pose proof (GetTimerList_pending _ _ _ _ _ E) as Hp.
    destruct (GetTimerList_spec fresh to w ls R Hi Hto H1 H2) as (q & w1 & ls1 & R1 & E1 & Hi1 & _ & _ & _ & _ & _ & (new & ->) & _).
    simplify_eq. by exists new, R1.
  - pose proof (list_in_chain w ls R p Hi Hp Hnp) as Hin.
    destruct (tinv_Attach o p w ls R Hi Hd Hin) as (c & E1 & Hi'). simplify_eq. by eapply kept_same.
  - destruct (tinv_AttachZero o w ls R Hi Hd) as (c & E1 & Hi'). simplify_eq. by eapply kept_same.
  - destruct (tinv_Disable o w ls R Hi Hd) as (c & E1 & Hi'). simplify_eq. by eapply kept_same.
  - destruct t as [t|]; cbn [TransforTimer] in E; [|simplify_eq; by eapply kept_same].
    destruct (Ht t eq_refl) as [Htd Htn].
    destruct (TransforTimer_loop_kept ls lst t) with (fuel := fuel) (w := w) (R := R) (w' := w') as (R' & Hi' & Hp);
      [by eapply list_in_chain..|done|done|by eapply kept_same].
Qed.

Lemma acts_kept w w' : rtc tact w w' -> forall ls R, tinv w ls R -> kept w ls w'.
Proof.
  induction 1 as [w|w w1 w2 H _ IH]; intros ls R Hi; [by eapply kept_same|].
  eapply kept_lists_trans; [by eapply tact_kept|done].
Qed.

(** ** Running the timers *)

Section notify.
Context (TimerNotify : ptr -> tworld X -> option (tworld X)) (Hh : handler_ok TimerNotify).

Lemma fire_kept w w' ls R o : tinv w ls R -> o ∈ dom (objexp w) -> fire TimerNotify o w = Some w' -> kept w ls w'.
Proof.
  intros Hi Hd E. destruct (oinv_del_init _ _ _ _ _ _ _ (proj2 Hi) o Hd) as (c & Ec & _ & Ho).
  unfold fire in E. rewrite Ec in E. cbn [mbind option_bind] in E. apply Hh in E; [|done].
  exact (acts_kept _ _ E ls (list_del_init_abs o R) (conj (proj1 Hi) Ho)).
Qed.

Lemma CheckExpired_loop_kept now p : forall fuel n n' w w' ls R, tinv w ls R -> p ∈ ls ->
  CheckExpired_loop TimerNotify fuel p now n w = Some (n', w') -> kept w ls w'.
Proof.
  induction fuel as [|fuel IH]; intros n n' w w' ls R Hi Hp E; [done|]. cbn [CheckExpired_loop] in E.
  assert (p ∈ pending w :: ls) as Hp' by (by right). destruct (R !!! p) as [|o l] eqn:Hc.
  { rewrite (empty_reads w ls R p) in E by done. cbn [mbind option_bind] in E. simplify_eq. by eapply kept_same. }
  destruct (head_reads w ls R p o l Hi Hp' Hc) as (He & Hn & Hd & _). rewrite He, Hn in E. cbn [mbind option_bind] in E.
  destruct (objexp w !! o) as [v|]; [|done]. cbn [mbind option_bind] in E.
  destruct (now <? v); [simplify_eq; by eapply kept_same|].
  destruct (fire TimerNotify o w) as [w1|] eqn:Ef; [|done]. cbn [mbind option_bind] in E.
  destruct (fire_kept _ _ _ _ _ Hi Hd Ef) as (new & R1 & Hi1 & Hp1).
  destruct (IH _ _ _ _ _ _ Hi1 ltac:(set_solver) E) as (new2 & R2 & Hi2 & Hp2).
  exists (new2 ++ new), R2. rewrite <- app_assoc. split; [done|congruence].
Qed.

Lemma CheckPending_loop_kept : forall fuel n n' w w' ls R, tinv w ls R ->
  CheckPending_loop TimerNotify fuel n w = Some (n', w') -> kept w ls w'.
Proof.
  induction fuel as [|fuel IH]; intros n n' w w' ls R Hi E; [done|]. cbn [CheckPending_loop] in E.
  assert (pending w ∈ pending w :: ls) as Hp by (by left). destruct (R !!! pending w) as [|o l] eqn:Hc.
  { rewrite (empty_reads w ls R _) in E by done. cbn [mbind option_bind] in E. simplify_eq. by eapply kept_same. }
  destruct (head_reads w ls R _ o l Hi Hp Hc) as (He & Hn & Hd & _). rewrite He, Hn in E. cbn [mbind option_bind] in E.
  destruct (fire TimerNotify o w) as [w1|] eqn:Ef; [|done]. cbn [mbind option_bind] in E.
  eapply kept_lists_trans; [by eapply fire_kept|]. intros ls1 R1 Hi1. by eapply IH.
Qed.

Lemma CheckLists_kept now l2 : forall fuel cur n n' w w' ls R, tinv w ls R -> (exists l1, ls = l1 ++ l2) ->
  chain (tlists w) cur l2 -> CheckLists TimerNotify fuel cur now n w = Some (n', w') -> kept w ls w'.
Proof.
  induction l2 as [|p l2 IH]; intros fuel cur n n' w w' ls R Hi [l1 ->] Hc E; cbn [chain] in Hc.
  { subst cur. destruct fuel; cbn in E; simplify_eq; by eapply kept_same. }
  destruct Hc as (-> & L & HL & Hc). destruct fuel as [|fuel]; [done|]. cbn [CheckLists] in E.
  destruct (CTimerList_CheckExpired TimerNotify p now w) as [[k w1]|] eqn:E1; [|done]. cbn [mbind option_bind] in E.
  destruct (CheckExpired_loop_kept _ p _ _ _ _ _ _ R Hi ltac:(set_solver) E1) as (new & R1 & Hi1 & Hp1).
  destruct (chain_app (tlists w1) (unext w1) (new ++ l1) p l2) as (L1 & HL1 & Hc1).
  { rewrite <- app_assoc. apply Hi1. }
  rewrite HL1 in E. cbn [mbind option_bind] in E.
  destruct (IH fuel (tl_next L1) (n + k) n' w1 w' _ R1 Hi1) as (new2 & R2 & Hi2 & Hp2); [|done|done|].
  { exists (new ++ l1 ++ [p]). by rewrite <- !app_assoc. }
  exists (new2 ++ new), R2. rewrite <- app_assoc. split; [done|congruence].
Qed.

Lemma tstep_kept w w' : tstep TimerNotify w w' -> forall ls R, tinv w ls R -> kept w ls w'.
Proof.
  destruct 1 as [w w' H|now n w w' E]; intros ls R Hi; [by eapply tact_kept|].
  unfold CheckExpired in E. destruct (CheckPending TimerNotify w) as [[k w1]|] eqn:E1; [|done]. cbn [mbind option_bind] in E.
  eapply kept_lists_trans; [by eapply CheckPending_loop_kept|]. intros ls1 R1 Hi1.
  eapply CheckLists_kept; [done|by exists []|apply Hi1|done].
Qed.

Lemma treach_tinv pend now (x : X) w : rtc (tstep TimerNotify) (CTimerUnit_new pend now x) w -> exists ls R, tinv w ls R.
Proof.
  intros Hs. assert (exists ls R, tinv (CTimerUnit_new pend now x) ls R) as Hi by (eexists _, _; apply tinv_new).
  revert Hi. induction Hs as [w|w w1 w2 Hs _ IH]; [done|]. intros (ls & R & Hi). apply IH.
  destruct (tstep_kept _ _ Hs _ _ Hi) as (new & R1 & Hi1 & _). eauto.
Qed.
End notify.

(** What the operations on an object do to the lists. *)
Definition object_ops w ls R o : Prop :=
  (forall p, p ∈ ls -> exists w', AttachTimer o p w = Some w' /\ rep (cells_of w') (attach_abs o p R) /\
     objexp w' = <[o := clock w + tmo (tlists w) p]> (objexp w)) /\
  (exists w', AttachZeroTimer o w = Some w' /\ rep (cells_of w') (attach_abs o (pending w) R) /\ objexp w' = objexp w) /\
  (exists w', DisableTimer o w = Some w' /\ rep (cells_of w') (list_del_init_abs o R) /\ objexp w' = objexp w).

Lemma object_ops_ok w ls R o : tinv w ls R -> o ∈ dom (objexp w) -> object_ops w ls R o.
Proof.
  intros Hi Hd. split; [|split].
  - intros p Hp. destruct (tinv_Attach o p w ls R Hi Hd Hp) as (c & E & _ & Ho). eexists. split; [done|]. split; [apply Ho|done].
  - destruct (tinv_AttachZero o w ls R Hi Hd) as (c & E & _ & Ho). eexists. split; [done|]. split; [apply Ho|done].
  - destruct (tinv_Disable o w ls R Hi Hd) as (c & E & _ & Ho). eexists. split; [done|]. split; [apply Ho|done].
Qed.

End steps.

(** ** A unit at work: objects 2 and 4 on a list of 10 ms *)

Definition unit_example : option (tworld ()) :=
  let w := CTimerObject_new 4%positive 0 (CTimerObject_new 2%positive 0 (CTimerUnit_new 1%positive 1000 ())) in
  '(p, w) ← GetTimerList 3%positive 10 w;
  w ← AttachTimer 2%positive p w;
  AttachTimer 4%positive p (set_clock 1003 w).

Lemma unit_example_reachable : exists w, unit_example = Some w /\ rtc tact (CTimerUnit_new 1%positive 1000 ()) w.
Proof.
  destruct unit_example as [w|] eqn:E; [|by vm_compute in E]. exists w. split; [done|]. unfold unit_example in E.
  set (w0 := CTimerUnit_new _ _ _) in *. set (w1 := CTimerObject_new 2%positive 0 w0) in *.
  set (w2 := CTimerObject_new 4%positive 0 w1) in *.
  destruct (GetTimerList 3%positive 10 w2) as [[p w3]|] eqn:E3; [|done]. cbn [mbind option_bind] in E.
  assert (p = 3%positive) as -> by (vm_compute in E3; by injection E3).
  destruct (AttachTimer 2%positive 3%positive w3) as [w4|] eqn:E4; [|done]. cbn [mbind option_bind] in E.
  eapply rtc_l; [apply (ts_new 2%positive 0); by vm_compute|]. fold w1.
  eapply rtc_l; [apply (ts_new 4%positive 0); by vm_compute|]. fold w2.
  eapply rtc_l; [eapply (ts_list 3%positive 10); [lia|by vm_compute|exact E3]|].
  vm_compute in E3. injection E3 as <-.
  eapply rtc_l; [eapply (ts_attach 2%positive 3%positive); [by apply elem_of_dom|by apply elem_of_dom|done|exact E4]|].
  vm_compute in E4. injection E4 as <-.
  eapply rtc_l; [eapply (ts_tick _ 1003); cbn; lia|].
  eapply rtc_l; [eapply (ts_attach 4%positive 3%positive); [by apply elem_of_dom|by apply elem_of_dom|done|exact E]|].
  apply rtc_refl.
Qed.

Lemma GetTimerList_one_per_timeout_witness :
  exists p w' ls' R', GetTimerList 3%positive 10 (CTimerUnit_new 1%positive 1000 ()) = Some (p, w') /\
    tinv w' ls' R' /\ p ∈ ls' /\ tmo (tlists w') p = 10.
Proof.
  destruct (GetTimerList_one_per_timeout 3%positive 10 (CTimerUnit_new 1%positive 1000 ()) [] {[1%positive := []]})
    as (p & w' & ls' & R' & E & Hi & Hp & Ht & _); [apply tinv_new|lia|set_solver|set_solver|].
  exists p, w', ls', R'. done.
Defined.

(** A handler that attaches its object again. *)
Definition again (o : ptr) (w : tworld ()) : option (tworld ()) :=
  if decide (3%positive ∈ dom (tlists w) /\ 3%positive <> pending w) then AttachTimer o 3%positive w else Some w.

Lemma again_ok : handler_ok again.
Proof.
  intros o w w' Hd E. unfold again in E. case_decide as H; [|simplify_eq; apply rtc_refl].
  destruct H. by apply rtc_once, (ts_attach o 3%positive).
Qed.

