(* ===== verification/TimerRun.v ===== *)
(** * Running the timers

    What [CTimerUnit::CheckExpired] does to a unit whose handlers behave: it fires
    the pending objects and then, list by list, the objects that are due, in the
    order of their expiry; it returns, and leaves nothing due.  What a handler may
    do is the relation [goes]: start, stop, create and delete timers of positive
    timeout - it may not attach pending objects, with which [CheckPending] need not
    end. *)

From Stdlib Require Import ZArith Lia Sorting.Sorted.
From stdpp Require Import base gmap list option sets.
From S2P Require Import Prelude ListHead TimerList.

(** ** Comparing sequences of objects

    A handler may stop other timers: what fires is then part of what was due, in
    order ([sublist]).  When no handler does, what fires is exactly what was due
    ([eq]).  Both are instances of one interface. *)

Class Follows (Q : list ptr -> list ptr -> Prop) : Prop := {
  fl_refl : forall l, Q l l;
  fl_trans : forall l k m, Q l k -> Q k m -> Q l m;
  fl_app : forall l k l' k', Q l k -> Q l' k' -> Q (l ++ l') (k ++ k');
  fl_filter : forall (P : ptr -> Prop) `{!forall x, Decision (P x)} l k, Q l k -> Q (filter P l) (filter P k);
  fl_sublist : forall l k, Q l k -> sublist l k
}.

#[export] Instance Follows_eq : Follows eq.
Proof. split; intros; subst; done. Qed.

#[export] Instance Follows_sublist : Follows sublist.
Proof.
  split; try done.
  - intros l k m H1 H2. by etrans.
  - intros. by apply sublist_app.
  - intros P HP l k. induction 1 as [|x l k Hs IH|x l k Hs IH]; [done| |].
    + rewrite !filter_cons. case_decide; [by constructor|done].
    + rewrite (filter_cons _ x k). case_decide; [by constructor|done].
Qed.

Section follows.
Context {Q : list ptr -> list ptr -> Prop} `{!Follows Q}.

Lemma fl_nil l : Q l [] -> l = [].
Proof. intros Hs%fl_sublist. by apply sublist_nil_r. Qed.

Lemma fl_cons x l k : Q l k -> Q (x :: l) (x :: k).
Proof. intros Hs. apply (fl_app [x] [x]); [apply fl_refl|done]. Qed.

Lemma fl_len l k : Q l k -> (length l <= length k)%nat.
Proof. intros Hs%fl_sublist. by apply sublist_length. Qed.

Lemma fl_in l k x : Q l k -> x ∈ l -> x ∈ k.
Proof. intros Hs%fl_sublist Hx. by eapply elem_of_sublist. Qed.

Lemma fl_concat {A} (f g : A -> list ptr) qs : (forall q, q ∈ qs -> Q (f q) (g q)) ->
  Q (concat (f <$> qs)) (concat (g <$> qs)).
Proof.
  induction qs as [|q qs IH]; intros Hq; [apply fl_refl|]. cbn. apply fl_app.
  - apply Hq. by left.
  - apply IH. intros r Hr. apply Hq. by right.
Qed.
End follows.

(** ** What is due *)

Definition due (ex : gmap ptr Z) (now : Z) (l : list ptr) : list ptr := filter (fun o => ex !!! o <= now) l.

Definition dueq {X} (w : tworld X) (R : gmap ptr (list ptr)) (now : Z) (q : ptr) : list ptr :=
  due (objexp w) now (R !!! q).

(** [l] less the elements of [tr]. *)
Definition minus (tr l : list ptr) : list ptr := filter (fun o => o ∉ tr) l.

Lemma minus_nil l : minus [] l = l.
Proof. unfold minus. induction l as [|x l IH]; [done|]. rewrite filter_cons_True by set_solver. by f_equal. Qed.

Lemma minus_app t1 t2 l : minus (t1 ++ t2) l = minus t2 (minus t1 l).
Proof.
  unfold minus. induction l as [|x l IH]; [done|]. rewrite !filter_cons.
  destruct (decide (x ∉ t1)) as [H1|H1].
  - rewrite filter_cons. destruct (decide (x ∉ t2)) as [H2|H2].
    + rewrite decide_True by set_solver. by f_equal.
    + rewrite decide_False by set_solver. done.
  - rewrite decide_False by set_solver. done.
Qed.

Lemma minus_disjoint tr l : (forall x, x ∈ l -> x ∉ tr) -> minus tr l = l.
Proof.
  unfold minus. induction l as [|x l IH]; intros Hd; [done|]. rewrite filter_cons_True by (apply Hd; by left).
  f_equal. apply IH. intros y Hy. apply Hd. by right.
Qed.

Lemma minus_one x l : minus [x] l = without x l.
Proof.
  unfold minus, without. induction l as [|y l IH]; [done|]. rewrite !filter_cons.
  destruct (decide (y <> x)) as [Hn|Hn].
  - rewrite decide_True by set_solver. by f_equal.
  - rewrite decide_False by set_solver. done.
Qed.

Lemma due_without ex now x l : due ex now (without x l) = without x (due ex now l).
Proof.
  unfold due, without. induction l as [|y l IH]; [done|]. rewrite !filter_cons.
  destruct (decide (y <> x)) as [Hn|Hn]; destruct (decide (ex !!! y <= now)) as [Hd|Hd];
    rewrite ?filter_cons; rewrite ?(decide_True _ _ Hn), ?(decide_True _ _ Hd), ?(decide_False _ _ Hn), ?(decide_False _ _ Hd), ?IH; done.
Qed.

Lemma due_sublist ex now l : sublist (due ex now l) l.
Proof. apply sublist_filter. Qed.

Lemma due_ext ex ex' now l : (forall o, o ∈ l -> ex' !!! o = ex !!! o) -> due ex' now l = due ex now l.
Proof.
  intros He. unfold due. induction l as [|x l IH]; [done|]. rewrite !filter_cons.
  rewrite He by (by left). rewrite IH; [done|]. intros o Hin. apply He. by right.
Qed.

(** In an ordered list nothing is due behind an object that is not. *)
Lemma due_none ex now o l : StronglySorted (exp_le ex) (o :: l) -> now < ex !!! o -> due ex now (o :: l) = [].
Proof.
  intros [Hs Ha]%StronglySorted_inv Hn. unfold due. rewrite filter_cons_False by lia.
  clear Hs. induction Ha as [|x l Hx _ IH]; [done|]. rewrite filter_cons_False; [done|]. unfold exp_le in Hx. lia.
Qed.

(** ** Handlers *)

Section run.
Context {X : Type} (TimerNotify : ptr -> tworld X -> option (tworld X)).
(** How the sequences compare, and the invariant of the program above. *)
Context (Q : list ptr -> list ptr -> Prop) `{!Follows Q} (G : tworld X -> list ptr -> Prop).
Implicit Types (w : tworld X) (o p : ptr) (ls tr : list ptr) (R : gmap ptr (list ptr)).

(** From [w] to [w'], firing [tr]: new lists come in front with nothing due, and
    the other lists lose what was fired. *)
Record goes (now : Z) w ls R w' ls' R' tr : Prop := {
  go_inv : tinv w' ls' R';
  go_ext : G w' ls';
  go_clock : clock w' = clock w;
  go_pend : pending w' = pending w;
  go_fired : fired w' = fired w ++ tr;
  go_new : exists new, ls' = new ++ ls /\ forall q, q ∈ new -> dueq w' R' now q = [];
  go_due : forall q, q ∈ ls -> Q (dueq w' R' now q) (minus tr (dueq w R now q));
  go_zero : Q (R' !!! pending w) (minus tr (R !!! pending w))
}.

Lemma goes_refl now w ls R : tinv w ls R -> G w ls -> goes now w ls R w ls R [].
Proof.
  intros Hi Hg. split; try done.
  - by rewrite app_nil_r.
  - exists []. split; [done|]. intros q Hq. by apply elem_of_nil in Hq.
  - intros q _. rewrite minus_nil. apply fl_refl.
  - rewrite minus_nil. apply fl_refl.
Qed.

Lemma goes_trans now w ls R w1 ls1 R1 t1 w2 ls2 R2 t2 :
  goes now w ls R w1 ls1 R1 t1 -> goes now w1 ls1 R1 w2 ls2 R2 t2 -> goes now w ls R w2 ls2 R2 (t1 ++ t2).
Proof.
  intros [? ? C1 P1 F1 (n1 & L1 & N1) D1 Z1] [I2 G2 C2 P2 F2 (n2 & L2 & N2) D2 Z2]. split; try congruence.
  - by rewrite F2, F1, app_assoc.
  - exists (n2 ++ n1). split; [by rewrite L2, L1, app_assoc|]. intros q [Hq|Hq]%elem_of_app; [by apply N2|].
    eapply fl_nil. rewrite <- (N1 q Hq). eapply fl_trans; [apply D2; rewrite L1; apply elem_of_app; by left|].
    rewrite N1 by done. apply fl_refl.
  - intros q Hq. rewrite minus_app. eapply fl_trans; [apply D2; rewrite L1; apply elem_of_app; by right|].
    unfold minus at 1 2. apply fl_filter. by apply D1.
  - rewrite minus_app. rewrite P1 in Z2. eapply fl_trans; [apply Z2|].
    unfold minus at 1 2. by apply fl_filter.
Qed.

(** The interface to the handlers: called on an object just taken out of its list,
    [TimerNotify] returns, and only evolves the state. *)
Class TimerHandler : Prop := {
  th_frame : forall w ls o c, G w ls -> G (log_fired o (set_cells c w)) ls;
  th_notify : forall now w ls R o, tinv w ls R -> G w ls -> now <= clock w -> o ∈ dom (objexp w) ->
    R !! o = Some [] ->
    exists w' ls' R', TimerNotify o w = Some w' /\ goes now w ls R w' ls' R' []
}.

Context `{!TimerHandler}.

(** ** One object *)

Lemma take_out_goes now w ls R o : tinv w ls R -> G w ls -> o ∈ dom (objexp w) ->
  exists c, list_del_init o (cells_of w) = Some c /\ 
    goes now w ls R (log_fired o (set_cells c w)) ls (list_del_init_abs o R) [o].
Proof.
  intros [Hl Ho] Hg Hd.
  destruct (oinv_del_init _ _ _ _ _ _ _ Ho o Hd) as (c & E & _ & Ho'). exists c. split; [done|].
  assert (forall q, q ∈ pending w :: ls -> list_del_init_abs o R !!! q = without o (R !!! q)) as Hc.
  { intros q Hq. unfold list_del_init_abs. pose proof (head_not_obj _ _ _ _ _ _ _ Ho q o Hq Hd).
    by rewrite lookup_total_insert_ne, drop_from_total by congruence. }
  split; try done.
  - by apply th_frame.
  - exists []. split; [done|]. intros q Hq. by apply elem_of_nil in Hq.
  - intros q Hq. unfold dueq. cbn [objexp log_fired set_cells]. rewrite Hc by (by right).
    rewrite due_without, minus_one. apply fl_refl.
  - rewrite Hc by (by left). rewrite minus_one. apply fl_refl.
Qed.

Lemma fire_goes now w ls R o : tinv w ls R -> G w ls -> now <= clock w -> o ∈ dom (objexp w) ->
  exists w' ls' R', fire TimerNotify o w = Some w' /\ goes now w ls R w' ls' R' [o].
Proof.
  intros Hi Hg Hn Hd. destruct (take_out_goes now w ls R o Hi Hg Hd) as (c & E & H1).
  unfold fire. rewrite E. cbn [mbind option_bind].
  destruct (th_notify now (log_fired o (set_cells c w)) ls (list_del_init_abs o R) o) as (w' & ls' & R' & E' & H2);
    [apply H1|apply H1|done|done|apply lookup_insert_eq|].
  exists w', ls', R'. split; [done|]. change [o] with ([o] ++ []). by eapply goes_trans.
Qed.

(** ** Lists *)

Lemma goes_in now w ls R w' ls' R' tr p : goes now w ls R w' ls' R' tr -> p ∈ ls -> p ∈ ls'.
Proof. intros [_ _ _ _ _ (new & -> & _) _ _] Hp. apply elem_of_app. by right. Qed.

Lemma CheckExpired_loop_goes now p : forall fuel n w ls R, tinv w ls R -> G w ls -> now <= clock w -> p ∈ ls ->
  (length (dueq w R now p) < fuel)%nat ->
  exists w' ls' R' tr, CheckExpired_loop TimerNotify fuel p now n w = Some (n + Z.of_nat (length tr), w') /\
    goes now w ls R w' ls' R' tr /\ Q tr (dueq w R now p) /\ dueq w' R' now p = [].
Proof.
  induction fuel as [|fuel IH]; intros n w ls R Hi Hg Hn Hp Hf; [lia|]. cbn [CheckExpired_loop].
  assert (p ∈ pending w :: ls) as Hp' by (by right).
  destruct (R !!! p) as [|o l] eqn:Hc.
  { rewrite (empty_reads w ls R p) by done. exists w, ls, R, []. rewrite Z.add_0_r. unfold dueq. rewrite Hc.
    split; [done|]. split; [by apply goes_refl|]. split; [apply fl_refl|done]. }
  destruct (head_reads w ls R p o l Hi Hp' Hc) as (-> & -> & Hd & Hol). cbn [mbind option_bind].
  pose proof Hd as [v Hv]%elem_of_dom. rewrite Hv. cbn [mbind option_bind].
  assert (objexp w !!! o = v) as Hev by (by apply lookup_total_correct).
  destruct (Z.ltb_spec now v) as [Hlt|Hle].
  { assert (dueq w R now p = []) as Hnone.
    { unfold dueq. rewrite Hc. apply due_none; [|lia]. rewrite <- Hc. by apply (oi_sorted _ _ _ _ _ _ _ (proj2 Hi)). }
    exists w, ls, R, []. rewrite Z.add_0_r, Hnone.
    split; [done|]. split; [by apply goes_refl|]. split; [apply fl_refl|done]. }
  assert (dueq w R now p = o :: due (objexp w) now l) as Hdue.
  { unfold dueq, due. rewrite Hc. by rewrite filter_cons_True by lia. }
  destruct (fire_goes now w ls R o Hi Hg Hn Hd) as (w1 & ls1 & R1 & -> & H1). cbn [mbind option_bind].
  assert (Q (dueq w1 R1 now p) (due (objexp w) now l)) as Hq.
  { pose proof (go_due _ _ _ _ _ _ _ _ H1 p Hp) as Hq. rewrite Hdue, minus_one in Hq.
    rewrite without_head in Hq; [done|]. intros Hin. apply Hol. eapply elem_of_sublist, due_sublist. done. }
  destruct (IH (n + 1) w1 ls1 R1) as (w' & ls' & R' & tr & E & H2 & Htr & Hnone).
  { apply H1. } { apply H1. } { by rewrite (go_clock _ _ _ _ _ _ _ _ H1). } { by eapply goes_in. }
  { apply fl_len in Hq. rewrite Hdue in Hf. cbn [length] in Hf. lia. }
  exists w', ls', R', (o :: tr). split; [rewrite E; do 2 f_equal; cbn [length]; lia|].
  split; [change (o :: tr) with ([o] ++ tr); by eapply goes_trans|]. split; [|done].
  rewrite Hdue. apply fl_cons. by eapply fl_trans.
Qed.

Lemma due_fuel now w ls R p : tinv w ls R -> p ∈ pending w :: ls ->
  (length (R !!! p) < S (size (cells_of w)))%nat /\ (length (dueq w R now p) < S (size (cells_of w)))%nat.
Proof.
  intros [_ Ho] Hp. assert (R !! p = Some (R !!! p)) as Hs by (by apply lookup_in_dom, (oi_key _ _ _ _ _ _ _ Ho)).
  pose proof (rep_size _ _ _ _ (oi_rep _ _ _ _ _ _ _ Ho) Hs).
  pose proof (sublist_length _ _ (due_sublist (objexp w) now (R !!! p))). unfold dueq. split; lia.
Qed.

Lemma CheckPending_loop_goes now : forall fuel n w ls R, tinv w ls R -> G w ls -> now <= clock w ->
  (length (R !!! pending w) < fuel)%nat ->
  exists w' ls' R' tr, CheckPending_loop TimerNotify fuel n w = Some (n + Z.of_nat (length tr), w') /\
    goes now w ls R w' ls' R' tr /\ Q tr (R !!! pending w) /\ R' !!! pending w = [].
Proof.
  induction fuel as [|fuel IH]; intros n w ls R Hi Hg Hn Hf; [lia|]. cbn [CheckPending_loop].
  assert (pending w ∈ pending w :: ls) as Hp by (by left).
  destruct (R !!! pending w) as [|o l] eqn:Hc.
  { rewrite (empty_reads w ls R (pending w)) by done. exists w, ls, R, []. rewrite Z.add_0_r.
    split; [done|]. split; [by apply goes_refl|]. split; [apply fl_refl|done]. }
  destruct (head_reads w ls R (pending w) o l Hi Hp Hc) as (-> & -> & Hd & Hol). cbn [mbind option_bind].
  destruct (fire_goes now w ls R o Hi Hg Hn Hd) as (w1 & ls1 & R1 & -> & H1). cbn [mbind option_bind].
  pose proof (go_pend _ _ _ _ _ _ _ _ H1) as P1.
  assert (Q (R1 !!! pending w) l) as Hq.
  { pose proof (go_zero _ _ _ _ _ _ _ _ H1) as Hq. by rewrite Hc, minus_one, without_head in Hq. }
  destruct (IH (n + 1) w1 ls1 R1) as (w' & ls' & R' & tr & E & H2 & Htr & Hnone).
  { apply H1. } { apply H1. } { by rewrite (go_clock _ _ _ _ _ _ _ _ H1). }
  { rewrite P1. apply fl_len in Hq. cbn [length] in Hf. lia. }
  rewrite P1 in *. exists w', ls', R', (o :: tr). split; [rewrite E; do 2 f_equal; cbn [length]; lia|].
  split; [change (o :: tr) with ([o] ++ tr); by eapply goes_trans|]. split; [|done].
  apply fl_cons. by eapply fl_trans.
Qed.

(** ** The unit *)

(** Two lists of a unit share no object. *)
Lemma lists_disjoint w ls R p q o : tinv w ls R -> p <> q -> o ∈ R !!! p -> o ∉ R !!! q.
Proof.
  intros [_ Ho] Hn Hp Hq. apply Hn.
  pose proof (oi_in _ _ _ _ _ _ _ Ho _ _ Hp) as [Hp' _]. pose proof (oi_in _ _ _ _ _ _ _ Ho _ _ Hq) as [Hq' _].
  apply (oi_key _ _ _ _ _ _ _ Ho), lookup_in_dom in Hp', Hq'.
  by eapply (rep_disj _ _ (oi_rep _ _ _ _ _ _ _ Ho) p _ q _ o); [..|right|right].
Qed.

Lemma goes_other now w ls R w' ls' R' tr p q : tinv w ls R -> goes now w ls R w' ls' R' tr ->
  Q tr (dueq w R now p) \/ Q tr (R !!! p) -> q ∈ ls -> p <> q -> Q (dueq w' R' now q) (dueq w R now q).
Proof.
  intros Hi Hgo Htr Hq Hn. pose proof (go_due _ _ _ _ _ _ _ _ Hgo q Hq) as Hd.
  rewrite minus_disjoint in Hd; [done|]. intros x Hx Hin.
  assert (x ∈ R !!! p) as Hxp.
  { destruct Htr as [Htr|Htr]; apply (fl_in _ _ x) in Htr; try done. by eapply elem_of_sublist, due_sublist. }
  eapply (lists_disjoint w ls R p q x); try done. by eapply elem_of_sublist, due_sublist.
Qed.

Lemma dueq_stays_none now w ls R w' ls' R' tr q : goes now w ls R w' ls' R' tr -> q ∈ ls ->
  dueq w R now q = [] -> dueq w' R' now q = [].
Proof.
  intros Hgo Hq Hn. pose proof (go_due _ _ _ _ _ _ _ _ Hgo q Hq) as Hd. rewrite Hn in Hd. by apply fl_nil in Hd.
Qed.

Lemma CheckLists_goes now l2 : now <> 0 -> forall fuel cur n w ls R, tinv w ls R -> G w ls -> now <= clock w ->
  (exists l1, ls = l1 ++ l2) -> chain (tlists w) cur l2 -> (length l2 <= fuel)%nat ->
  exists w' ls' R' tr, CheckLists TimerNotify fuel cur now n w = Some (n + Z.of_nat (length tr), w') /\
    goes now w ls R w' ls' R' tr /\ Q tr (concat (dueq w R now <$> l2)) /\
    forall q, q ∈ l2 -> dueq w' R' now q = [].
Proof.
  intros Hnz. induction l2 as [|p l2 IH]; intros fuel cur n w ls R Hi Hg Hn [l1 ->] Hc Hf; cbn [chain length] in *.
  { subst cur. exists w, (l1 ++ []), R, []. rewrite Z.add_0_r. split; [by destruct fuel|].
    split; [by apply goes_refl|]. split; [apply fl_refl|]. intros q Hq. by apply elem_of_nil in Hq. }
  destruct Hc as (-> & L & HL & Hc). destruct fuel as [|fuel]; [lia|]. cbn [CheckLists].
  assert (p ∈ l1 ++ p :: l2) as Hp by (apply elem_of_app; right; by left).
  destruct (CheckExpired_loop_goes now p (S (size (cells_of w))) 0 w (l1 ++ p :: l2) R)
    as (w1 & ls1 & R1 & tr1 & E1 & H1 & Htr1 & Hnone1); try done.
  { eapply due_fuel; [done|by right]. }
  unfold CTimerList_CheckExpired. rewrite (proj2 (Z.eqb_neq now 0)) by done.
  rewrite E1. cbn [mbind option_bind].
  destruct (go_new _ _ _ _ _ _ _ _ H1) as (new & Hls1 & _).
  assert (exists L1, tlists w1 !! p = Some L1 /\ chain (tlists w1) (tl_next L1) l2) as (L1 & -> & Hc1).
  { eapply (chain_app _ _ (new ++ l1)). rewrite <- app_assoc, <- Hls1. apply (go_inv _ _ _ _ _ _ _ _ H1). }
  cbn [mbind option_bind].
  destruct (IH fuel (tl_next L1) (n + (0 + Z.of_nat (length tr1))) w1 ls1 R1) as (w' & ls' & R' & tr2 & E2 & H2 & Htr2 & Hnone2);
    try done; try apply H1; try lia.
  { by rewrite (go_clock _ _ _ _ _ _ _ _ H1). }
  { exists (new ++ l1 ++ [p]). by rewrite Hls1, <- !app_assoc. }
  exists w', ls', R', (tr1 ++ tr2). split; [rewrite E2; rewrite length_app; do 2 f_equal; lia|].
  split; [by eapply goes_trans|]. split.
  - cbn. apply fl_app; [done|]. eapply fl_trans; [apply Htr2|]. apply fl_concat. intros q Hq.
    eapply (goes_other now w _ R w1 _ R1 tr1 p q); eauto; [apply elem_of_app; right; by right|].
    intros ->. destruct Hi as [Hl _].
    pose proof (li_nodup _ _ _ _ _ Hl) as Hnd. rewrite NoDup_cons, list.NoDup_app, NoDup_cons in Hnd. tauto.
  - intros q [-> | Hq]%elem_of_cons; [|by apply Hnone2].
    eapply dueq_stays_none; [apply H2|by eapply goes_in|done].
Qed.

(** The whole unit: everything that fires was due, in order, and nothing stays due. *)
Lemma CheckExpired_goes now w ls R : tinv w ls R -> G w ls -> 0 < now <= clock w ->
  exists w' ls' R' tr, CheckExpired TimerNotify now w = Some (Z.of_nat (length tr), w') /\
    goes now w ls R w' ls' R' tr /\ Q tr (R !!! pending w ++ concat (dueq w R now <$> ls)) /\
    R' !!! pending w = [] /\ forall q, q ∈ ls' -> dueq w' R' now q = [].
Proof.
  intros Hi Hg Hn. unfold CheckExpired, CheckPending. rewrite (proj2 (Z.eqb_neq now 0)) by lia.
  destruct (CheckPending_loop_goes now (S (size (cells_of w))) 0 w ls R)
    as (w1 & ls1 & R1 & tr0 & E0 & H1 & Htr0 & Hz); try done; [lia|by eapply (due_fuel now); [|left]|].
  rewrite E0. cbn [mbind option_bind].
  destruct (go_new _ _ _ _ _ _ _ _ H1) as (new & -> & Hnew).
  destruct (CheckLists_goes now (new ++ ls) ltac:(lia) (S (size (tlists w1))) (unext w1) (0 + Z.of_nat (length tr0))
    w1 (new ++ ls) R1) as (w' & ls' & R' & tr & E & H2 & Htr & Hnone).
  { apply H1. } { apply H1. } { rewrite (go_clock _ _ _ _ _ _ _ _ H1). lia. } { by exists []. }
  { apply (go_inv _ _ _ _ _ _ _ _ H1). }
  { pose proof (linv_length _ _ _ _ _ (proj1 (go_inv _ _ _ _ _ _ _ _ H1))). lia. }
  exists w', ls', R', (tr0 ++ tr). split; [rewrite E, length_app; do 2 f_equal; lia|].
  split; [by eapply goes_trans|]. split; [|split].
  - apply fl_app; [done|]. eapply fl_trans; [apply Htr|]. rewrite fmap_app, concat_app.
    replace (concat (dueq w1 R1 now <$> new)) with (@nil ptr).
    + apply fl_concat. intros q Hq. eapply (goes_other now w ls R w1 _ R1 tr0 (pending w)); eauto.
      intros <-. pose proof (li_nodup _ _ _ _ _ (proj1 Hi)) as [? _]%NoDup_cons. done.
    + symmetry. clear -Hnew. induction new as [|q new IH]; [done|]. cbn. rewrite Hnew by (by left).
      apply IH. intros r Hr. apply Hnew. by right.
  - pose proof (go_zero _ _ _ _ _ _ _ _ H2) as Hz2. rewrite (go_pend _ _ _ _ _ _ _ _ H1), Hz in Hz2. by apply fl_nil in Hz2.
  - destruct (go_new _ _ _ _ _ _ _ _ H2) as (new2 & -> & Hnew2).
    intros q [Hq|Hq]%elem_of_app; [by apply Hnew2|by apply Hnone].
Qed.
End run.

(** ** How long to wait *)

Section wait.
Context {X : Type}.
Implicit Types (w : tworld X) (ls : list ptr) (R : gmap ptr (list ptr)).

(** The loop keeps the least of its start and the heads, and a head is the least
    of its list. *)
Lemma min_expiry_spec w ls R l2 : tinv w ls R -> forall fuel cur e, l2 ⊆ ls ->
  chain (tlists w) cur l2 -> (length l2 <= fuel)%nat ->
  exists e', min_expiry fuel cur e w = Some e' /\ e' <= e /\
    (forall q o, q ∈ l2 -> o ∈ R !!! q -> e' <= objexp w !!! o) /\
    (e' = e \/ exists q o, q ∈ l2 /\ o ∈ R !!! q /\ e' = objexp w !!! o).
Proof.
  intros Hi. induction l2 as [|p l2 IH]; intros fuel cur e Hsub Hc Hf; cbn [chain length] in *.
  { subst. exists e. split; [by destruct fuel|]. split; [lia|]. split; [|by left].
    intros q o Hq. by apply elem_of_nil in Hq. }
  destruct Hc as (-> & L & HL & Hc). destruct fuel as [|fuel]; [lia|]. cbn [min_expiry]. rewrite HL. cbn [mbind option_bind].
  assert (p ∈ ls) as Hp by (apply Hsub; by left). assert (l2 ⊆ ls) as Hsub2 by set_solver.
  assert (p ∈ pending w :: ls) as Hp' by (by right). destruct (R !!! p) as [|o l] eqn:Ec.
  - rewrite (empty_reads w ls R p) by done. cbn [mbind option_bind].
    destruct (IH fuel (tl_next L) e) as (e' & E & H1 & H2 & H3); [done..|lia|].
    exists e'. split; [done|]. split; [done|]. split.
    + intros q a [-> | Hq]%elem_of_cons Ha; [rewrite Ec in Ha; by apply elem_of_nil in Ha|by eapply H2].
    + destruct H3 as [?|(q & a & ? & ?)]; [by left|]. right. exists q, a. split; [by right|done].
  - destruct (head_reads w ls R p o l Hi Hp' Ec) as (-> & -> & Hd & _). cbn [mbind option_bind].
    apply elem_of_dom in Hd as [v Hv]. rewrite Hv. cbn [mbind option_bind].
    destruct (IH fuel (tl_next L) (if v <? e then v else e)) as (e' & E & H1 & H2 & H3); [done..|lia|].
    exists e'. split; [done|]. assert (objexp w !!! o = v) as Hev by (by apply lookup_total_correct).
    assert (e' <= e /\ e' <= v) as [He Hv'] by (destruct (Z.ltb_spec v e); lia).
    split; [done|]. split.
    + intros q a [-> | Hq]%elem_of_cons Ha; [|by eapply H2].
      pose proof (oi_sorted _ _ _ _ _ _ _ (proj2 Hi) p Hp) as Hs. rewrite Ec in Hs, Ha.
      apply StronglySorted_inv in Hs as [_ Hs]. rewrite Forall_forall in Hs.
      apply elem_of_cons in Ha as [-> | Ha]; [lia|]. specialize (Hs a Ha). unfold exp_le in Hs. lia.
    + destruct H3 as [He'|(q & a & ? & ?)]; [|right; exists q, a; split; [by right|done]].
      destruct (Z.ltb_spec v e); [|by left]. right. exists p, o. rewrite Ec. split; [by left|]. split; [by left|]. congruence.
Qed.

(** [ExpireMicroSeconds] gives a wait of at most [msec] that does not pass the
    expiry of any attached object: a wait of 0 when one is due, otherwise the time
    to the first expiry or [msec], whichever comes first. *)
Theorem ExpireMicroSeconds_exact w ls R msec : tinv w ls R -> 0 <= msec < 2 ^ 31 ->
  exists r, ExpireMicroSeconds msec w = Some r /\ 0 <= r <= msec /\
    (forall q o, q ∈ ls -> o ∈ R !!! q -> r = 0 \/ clock w + r <= objexp w !!! o) /\
    (r = msec \/ exists q o, q ∈ ls /\ o ∈ R !!! q /\ r = Z.max 0 (objexp w !!! o - clock w)).
Proof.
  intros Hi Hm. destruct (min_expiry_spec w ls R ls Hi (S (size (tlists w))) (unext w) (clock w + msec))
    as (e & E & H1 & H2 & H3); [done|apply Hi|pose proof (linv_length _ _ _ _ _ (proj1 Hi)); lia|].
  unfold ExpireMicroSeconds. rewrite E. cbn [mbind option_bind]. eexists. split; [done|].
  assert ((if e - clock w <=? 0 then 0 else i32 (e - clock w)) = Z.max 0 (e - clock w)) as ->.
  { destruct (Z.leb_spec (e - clock w) 0); [lia|]. rewrite i32_small; lia. }
  split; [lia|]. split.
  - intros q o Hq Ho. specialize (H2 q o Hq Ho). lia.
  - destruct H3 as [-> | (q & o & Hq & Ho & ->)]; [left; lia|]. right. by exists q, o.
Qed.
End wait.

Lemma ExpireMicroSeconds_exact_witness :
  exists w ls R, unit_example = Some w /\ tinv w ls R /\
    exists r, ExpireMicroSeconds 100 w = Some r /\ 0 <= r <= 100 /\ r = 7.
Proof.
  destruct unit_example_reachable as (w & E & Hw). destruct (acts_kept _ _ Hw _ _ (tinv_new _ _ _)) as (ls & R & Hi & _).
  rewrite app_nil_r in Hi.
  exists w, ls, R. split; [done|]. split; [done|].
  destruct (ExpireMicroSeconds_exact w ls R 100 Hi) as (r & Er & Hr & _); [lia|].
  exists r. split; [done|]. split; [done|]. clear -E Er. vm_compute in E. injection E as <-. vm_compute in Er. congruence.
Defined.

(** ** Moving a whole list *)

Section transfer.
Context {X : Type}.
Implicit Types (w : tworld X) (ls : list ptr) (R : gmap ptr (list ptr)).

(** One round: the head of [lst] goes to the back of [t]. *)
Lemma transfer_round w ls R lst t o l : tinv w ls R -> lst ∈ ls -> t ∈ ls -> lst <> t -> R !!! lst = o :: l ->
  exists c w' R', list_del_init o (cells_of w) = Some c /\ AttachTimer o t (set_cells c w) = Some w' /\
    tinv w' ls R' /\ R' !!! lst = l /\ R' !!! t = R !!! t ++ [o] /\ clock w' = clock w /\ tlists w' = tlists w /\
    objexp w' = <[o := clock w + tmo (tlists w) t]> (objexp w).
Proof.
  intros Hi Hl Ht Hn Hc. assert (lst ∈ pending w :: ls) as Hl' by (by right). assert (t ∈ pending w :: ls) as Ht' by (by right).
  destruct (head_reads w ls R lst o l Hi Hl' Hc) as (_ & _ & Hd & Hol).
  destruct (oinv_del_init _ _ _ _ _ _ _ (proj2 Hi) o Hd) as (c & E & _ & Ho).
  destruct (tinv_Attach o t (set_cells c w) ls (list_del_init_abs o R)) as (c' & E' & Hi'); [split; [apply Hi|done]|done|done|].
  exists c. eexists _, (attach_abs o t (list_del_init_abs o R)). split; [done|]. split; [done|]. split; [done|].
  pose proof (head_not_obj _ _ _ _ _ _ _ (proj2 Hi) lst o Hl' Hd). pose proof (head_not_obj _ _ _ _ _ _ _ (proj2 Hi) t o Ht' Hd).
  assert (o ∉ R !!! t) as Hot by (eapply (lists_disjoint w ls R lst t o); [done..|rewrite Hc; by left]).
  unfold attach_abs, list_del_init_abs. split; [|split; [|done]].
  - rewrite lookup_total_insert_ne, drop_from_total, lookup_total_insert_ne, drop_from_total by congruence.
    rewrite Hc, without_head by done. by apply without_notin.
  - rewrite lookup_total_insert_eq, lookup_total_insert_ne, drop_from_total by congruence.
    rewrite (without_notin o (R !!! t)) by done. by rewrite without_notin.
Qed.

(** [TransforTimer] to another list ends, empties the list and appends its
    objects, in order, to the other, where they all expire one timeout from now. *)
Theorem TransforTimer_moves_all fuel w ls R lst t : tinv w ls R -> lst ∈ ls -> t ∈ ls -> lst <> t ->
  (length (R !!! lst) < fuel)%nat ->
  exists w' R', TransforTimer fuel lst (Some t) w = Some w' /\ tinv w' ls R' /\
    R' !!! lst = [] /\ R' !!! t = R !!! t ++ R !!! lst /\
    forall o, o ∈ R !!! lst -> objexp w' !!! o = clock w + tmo (tlists w) t.
Proof.
  intros Hi Hl Ht Hn Hf. unfold TransforTimer.
  assert (exists w' R', TransforTimer_loop fuel lst t w = Some w' /\ tinv w' ls R' /\
    R' !!! lst = [] /\ R' !!! t = R !!! t ++ R !!! lst /\
    (forall o, o ∈ R !!! lst -> objexp w' !!! o = clock w + tmo (tlists w) t) /\
    (forall o, o ∉ R !!! lst -> objexp w' !!! o = objexp w !!! o)) as (w' & R' & H); [|exists w', R'; tauto].
  revert w R Hi Hf. induction fuel as [|fuel IH]; intros w R Hi Hf; [lia|]. cbn [TransforTimer_loop].
  assert (lst ∈ pending w :: ls) as Hl' by (by right). destruct (R !!! lst) as [|o l] eqn:Hc.
  { rewrite (empty_reads w ls R lst) by done. exists w, R. rewrite app_nil_r. split_and!; try done. by intros o ?%elem_of_nil. }
  destruct (head_reads w ls R lst o l Hi Hl' Hc) as (-> & -> & Hd & Hol). cbn [mbind option_bind].
  destruct (transfer_round w ls R lst t o l) as (c & w1 & R1 & -> & E1 & Hi1 & H1 & H2 & C1 & T1 & X1); try done.
  cbn [mbind option_bind]. rewrite E1. cbn [mbind option_bind].
  destruct (IH w1 R1 Hi1) as (w' & R' & E & Hi' & F1 & F2 & F3 & F4); [rewrite H1; cbn [length] in Hf; lia|].
  exists w', R'. rewrite H1 in *. rewrite F2, H2, <- app_assoc. rewrite C1, T1 in F3. split_and!; try done.
  - intros a [-> | Ha]%elem_of_cons; [|by apply F3]. rewrite F4, X1 by done. apply lookup_total_insert_eq.
  - intros a Ha. rewrite F4 by set_solver. rewrite X1. apply lookup_total_insert_ne. set_solver.
Qed.

End transfer.
