(* ===== verification/NestTimer.v ===== *)
(** * Loop timers

    [nest/comm/nest_timer.h] and [nest_timer.cpp]: class [TLoopTimer], a timer that
    starts itself again each time it fires, and [TNestTimerMng], which names the
    timers by number and runs them.  They stand on the lists of [TimerList]; the
    state above the lists, [timer_ext], is the timers' fields and the manager's map.

    A user function is a parameter [call]; the theorems ask of it what [goes] asks of
    a handler, and a function made of calls that start, stop and delete timers has it. *)

From Stdlib Require Import ZArith Lia.
From stdpp Require Import base gmap list option sets.
From S2P Require Import Prelude ListHead TimerList TimerRun.

Record TLoopTimer := mkLT {
  _timer_list : option ptr;
  _func : option Z;
  _args : Z;
  _time_wait : Z;
  _run_flag : bool
}.

Record timer_ext := mkTE {
  timers : gmap ptr TLoopTimer;
  _timer_map : gmap Z ptr;
  _curr_tid : Z
}.

Notation nworld := (tworld timer_ext).

(** ** The code *)

(** Memory from [new]: an address that nothing uses. *)
Definition malloc (w : nworld) : ptr := fresh (dom (cells_of w)).

Definition TLoopTimer_new : TLoopTimer := mkLT None None 0 0 false.

Definition set_timer (o : ptr) (T : TLoopTimer) (w : nworld) : nworld :=
  set_ext (mkTE (<[o := T]> (timers (ext w))) (_timer_map (ext w)) (_curr_tid (ext w))) w.
Definition set_run (b : bool) (T : TLoopTimer) : TLoopTimer :=
  mkLT (_timer_list T) (_func T) (_args T) (_time_wait T) b.

(** [TNestTimerMng::TNestTimerMng]. *)
Definition TNestTimerMng_new (pend : ptr) (now : Z) : nworld := CTimerUnit_new pend now (mkTE ∅ ∅ 0).

(** [new TLoopTimer]: the base class, then the fields. *)
Definition new_timer (v : Z) (w : nworld) : ptr * nworld :=
  let o := malloc w in (o, set_timer o TLoopTimer_new (CTimerObject_new o v w)).

(** [TLoopTimer::~TLoopTimer], then the base class. *)
Definition delete_timer (o : ptr) (w : nworld) : option nworld :=
  T ← timers (ext w) !! o;
  w ← (if _run_flag T then DisableTimer o w else Some w);
  w ← CTimerObject_delete o w;
  Some (set_ext (mkTE (delete o (timers (ext w))) (_timer_map (ext w)) (_curr_tid (ext w))) w).

(** [TLoopTimer::SetTimer]: the unit exists and [new] does not fail, so its error
    branch is not reached.  [(int)time_wait] is a conversion of 32 bits. *)
Definition SetTimer (o : ptr) (func : option Z) (time_wait args : Z) (w : nworld) : option (Z * nworld) :=
  _ ← timers (ext w) !! o;
  '(p, w) ← GetTimerList (malloc w) (i32 time_wait) w;
  w ← AttachTimer o p w;
  Some (0, set_timer o (mkLT (Some p) func args time_wait true) w).

(** [TLoopTimer::StartTimer]. *)
Definition timer_start (o : ptr) (w : nworld) : option (Z * nworld) :=
  T ← timers (ext w) !! o;
  if _run_flag T then Some (0, w)
  else match _timer_list T with
       | None => Some (-1, w)
       | Some p => w ← AttachTimer o p w; Some (0, set_timer o (set_run true T) w)
       end.

(** [TLoopTimer::StopTimer]. *)
Definition timer_stop (o : ptr) (w : nworld) : option nworld :=
  T ← timers (ext w) !! o;
  if _run_flag T then w ← DisableTimer o w; Some (set_timer o (set_run false T) w)
  else Some w.

(** [TNestTimerMng::FindTimer]. *)
Definition FindTimer (id : Z) (w : nworld) : option ptr := _timer_map (ext w) !! id.

(** The loop of [CreateTimer]: [++_curr_tid] past the largest [int] is undefined. *)
Fixpoint next_tid (fuel : nat) (o : ptr) (w : nworld) : option (Z * nworld) :=
  match fuel with
  | O => None
  | S fuel =>
      let id := _curr_tid (ext w) + 1 in
      if 2 ^ 31 <=? id then None
      else
        let w := set_ext (mkTE (timers (ext w)) (_timer_map (ext w)) id) w in
        if 0 <? id then
          match FindTimer id w with
          | None => Some (0, set_ext (mkTE (timers (ext w)) (<[id := o]> (_timer_map (ext w))) id) w)
          | Some _ => next_tid fuel o w
          end
        else
          w ← delete_timer o (set_ext (mkTE (timers (ext w)) (_timer_map (ext w)) 0) w);
          Some (-3, w)
  end.

(** [TNestTimerMng::CreateTimer]: 0 for success. *)
Definition CreateTimer (func : option Z) (time_wait args v : Z) (w : nworld) : option (Z * nworld) :=
  let '(o, w) := new_timer v w in
  '(r, w) ← SetTimer o func time_wait args w;
  if r <? 0 then w ← delete_timer o w; Some (-2, w)
  else next_tid (S (size (_timer_map (ext w)))) o w.

(** [TNestTimerMng::DeleteTimer]. *)
Definition DeleteTimer (tid : Z) (w : nworld) : option nworld :=
  match FindTimer tid w with
  | Some o => delete_timer o (set_ext (mkTE (timers (ext w)) (delete tid (_timer_map (ext w))) (_curr_tid (ext w))) w)
  | None => Some w
  end.

(** [TNestTimerMng::StartTimer] and [StopTimer]. *)
Definition StartTimer (tid : Z) (w : nworld) : option (Z * nworld) :=
  match FindTimer tid w with Some o => timer_start o w | None => Some (-100, w) end.
Definition StopTimer (tid : Z) (w : nworld) : option nworld :=
  match FindTimer tid w with Some o => timer_stop o w | None => Some w end.

Section run.
(** The user functions: [call f args]. *)
Context (call : Z -> Z -> nworld -> option nworld).

(** [TLoopTimer::TimerNotify]. *)
Definition TimerNotify (o : ptr) (w : nworld) : option nworld :=
  T ← timers (ext w) !! o;
  w ← (if _run_flag T then p ← _timer_list T; AttachTimer o p w else Some w);
  match _func T with Some f => call f (_args T) w | None => Some w end.

(** [TNestTimerMng::RunTimer]. *)
Definition RunTimer (now : Z) (w : nworld) : option nworld :=
  '(_, w) ← CheckExpired TimerNotify now w; Some w.
End run.

(** ** The invariant above the lists

    Every object is a loop timer, its list is one of the unit's, and the map names
    timers, each by one number. *)

Record ninv (w : nworld) (ls : list ptr) : Prop := {
  ni_dom : dom (timers (ext w)) = dom (objexp w);
  ni_list : forall o T, timers (ext w) !! o = Some T ->
    (forall p, _timer_list T = Some p -> p ∈ ls) /\ (_run_flag T = true -> is_Some (_timer_list T));
  ni_map : forall id o, _timer_map (ext w) !! id = Some o -> o ∈ dom (timers (ext w));
  ni_inj : forall i j o, _timer_map (ext w) !! i = Some o -> _timer_map (ext w) !! j = Some o -> i = j
}.

(** ** What the operations do to what is due *)

Section due.
Context {X : Type} (w : tworld X) (ls : list ptr) (R : gmap ptr (list ptr)) (Hi : tinv w ls R) (now : Z).
Implicit Types (o p q : ptr).

Lemma take_out_seq o q : o ∈ dom (objexp w) -> q ∈ pending w :: ls ->
  list_del_init_abs o R !!! q = without o (R !!! q).
Proof.
  intros Hd Hq. pose proof (head_not_obj _ _ _ _ _ _ _ (proj2 Hi) q o Hq Hd).
  unfold list_del_init_abs. by rewrite lookup_total_insert_ne, drop_from_total by congruence.
Qed.

Lemma attach_due o p q : o ∈ dom (objexp w) -> p ∈ ls -> now <= clock w -> q ∈ ls ->
  due (<[o := clock w + tmo (tlists w) p]> (objexp w)) now (attach_abs o p R !!! q) =
  without o (dueq w R now q).
Proof.
  intros Hd Hp Hn Hq. pose proof (li_pos _ _ _ _ _ (proj1 Hi) p Hp) as Hpos.
  set (ex' := <[o := _]> _).
  assert (forall l, due ex' now (without o l) = without o (due (objexp w) now l)) as Hw.
  { intros l. rewrite <- due_without. apply due_ext. intros a [Ha _]%elem_of_without.
    unfold ex'. by rewrite lookup_total_insert_ne. }
  unfold attach_abs, dueq. destruct (decide (q = p)) as [-> | Hqp].
  - rewrite lookup_total_insert_eq. unfold due at 1. rewrite filter_app.
    rewrite (filter_cons_False _ o), filter_nil, app_nil_r; [apply Hw|].
    unfold ex'. rewrite lookup_total_insert_eq. lia.
  - pose proof (head_not_obj _ _ _ _ _ _ _ (proj2 Hi) q o ltac:(by right) Hd).
    rewrite lookup_total_insert_ne, drop_from_total by congruence. apply Hw.
Qed.

Lemma attach_pending o p : o ∈ dom (objexp w) -> p ∈ ls ->
  attach_abs o p R !!! pending w = without o (R !!! pending w).
Proof.
  intros Hd Hp. pose proof (head_not_obj _ _ _ _ _ _ _ (proj2 Hi) (pending w) o ltac:(by left) Hd).
  pose proof (li_nodup _ _ _ _ _ (proj1 Hi)) as [Hn _]%NoDup_cons. unfold attach_abs.
  rewrite lookup_total_insert_ne, drop_from_total by congruence. done.
Qed.

Lemma loose_notin o q : R !! o = Some [] -> o ∉ R !!! q.
Proof.
  intros Ho Hin. pose proof (oi_in _ _ _ _ _ _ _ (proj2 Hi) _ _ Hin) as [Hq _].
  apply (oi_key _ _ _ _ _ _ _ (proj2 Hi)), lookup_in_dom in Hq.
  pose proof (rep_disj _ _ (oi_rep _ _ _ _ _ _ _ (proj2 Hi)) q _ o [] o Hq Ho) as He.
  rewrite He in * by (by left || by right). rewrite Ho in Hq. injection Hq as Hq. rewrite <- Hq in Hin.
  by apply elem_of_nil in Hin.
Qed.
End due.

Lemma ninv_same (w w' : nworld) ls : ninv w ls -> ext w' = ext w -> dom (objexp w') = dom (objexp w) -> ninv w' ls.
Proof. intros [] He Hd. split; rewrite ?He, ?Hd; done. Qed.

Lemma ninv_set_run (w : nworld) ls o T b : ninv w ls -> timers (ext w) !! o = Some T ->
  (b = true -> is_Some (_timer_list T)) -> ninv (set_timer o (set_run b T) w) ls.
Proof.
  intros [H1 H2 H3 H4] HT Hb. pose proof (H2 o T HT) as [Hp _]. split; cbn.
  - rewrite <- H1. apply dom_insert_lookup_L. eauto.
  - intros o' T'. rewrite lookup_insert_Some. intros [[<- <-]|[_ HT']]; [|by eapply H2]. by split.
  - intros id a Ha. rewrite dom_insert. apply elem_of_union_r. by eapply H3.
  - done.
Qed.

Section handlers.
Context (Q : list ptr -> list ptr -> Prop) `{!Follows Q}.
Implicit Types (w : nworld) (o p : ptr) (ls : list ptr) (R : gmap ptr (list ptr)) (now : Z).

(** An operation that leaves the chain alone and only takes [o] out of lists, or
    puts it where it is not due, evolves the state if [Q] allows the removal. *)
Lemma goes_without now w ls R w' R' o :
  tinv w' ls R' -> ninv w' ls -> clock w' = clock w -> pending w' = pending w -> fired w' = fired w ->
  (forall q, q ∈ ls -> dueq w' R' now q = without o (dueq w R now q)) ->
  R' !!! pending w = without o (R !!! pending w) ->
  (forall l, Q (without o l) l) \/ R !! o = Some [] /\ tinv w ls R ->
  goes Q ninv now w ls R w' ls R' [].
Proof.
  intros Hi Hn Hc Hp Hf Hd Hz Hq.
  assert (forall q l, sublist l (R !!! q) -> Q (without o l) l) as Hq'.
  { intros q l Hs. destruct Hq as [Hq|[Ho Hi']]; [apply Hq|]. rewrite without_notin; [apply fl_refl|].
    intros Hin. eapply (loose_notin w ls R Hi' o q); [done|]. by eapply elem_of_sublist. }
  split; try done.
  - by rewrite app_nil_r.
  - exists []. split; [done|]. by intros q ?%elem_of_nil.
  - intros q Hin. rewrite minus_nil, Hd by done. apply (Hq' q), due_sublist.
  - rewrite minus_nil, Hz. by apply (Hq' (pending w)).
Qed.

Lemma Attach_goes now w ls R o p : tinv w ls R -> ninv w ls -> now <= clock w -> o ∈ dom (objexp w) -> p ∈ ls ->
  (forall l, Q (without o l) l) \/ R !! o = Some [] ->
  exists w', AttachTimer o p w = Some w' /\ ext w' = ext w /\ goes Q ninv now w ls R w' ls (attach_abs o p R) [].
Proof.
  intros Hi Hg Hn Hd Hp Hq. destruct (tinv_Attach o p w ls R Hi Hd Hp) as (c & E & Hi').
  eexists. split; [done|]. split; [done|]. apply (goes_without now w ls R _ _ o); try done.
  - eapply ninv_same; [done..|]. cbn. apply dom_insert_lookup_L. by apply elem_of_dom.
  - intros q Hin. by apply (attach_due w ls R Hi now).
  - by apply (attach_pending w ls R Hi).
  - destruct Hq; auto.
Qed.

Lemma Disable_goes now w ls R o : tinv w ls R -> ninv w ls -> o ∈ dom (objexp w) ->
  (forall l, Q (without o l) l) ->
  exists w', DisableTimer o w = Some w' /\ ext w' = ext w /\ objexp w' = objexp w /\
    goes Q ninv now w ls R w' ls (list_del_init_abs o R) [].
Proof.
  intros Hi Hg Hd Hq. destruct (tinv_Disable o w ls R Hi Hd) as (c & E & Hi').
  eexists. split; [done|]. split; [done|]. split; [done|].
  apply (goes_without now w ls R _ _ o); try done.
  - by eapply ninv_same.
  - intros q Hin. unfold dueq. cbn [objexp set_cells].
    rewrite (take_out_seq w ls R Hi o q) by (done || by right). apply due_without.
  - apply (take_out_seq w ls R Hi); [done|by left].
  - by left.
Qed.

(** ** Firing a loop timer *)

(** What is asked of the user functions. *)
Class UserCalls (call : Z -> Z -> nworld -> option nworld) : Prop := {
  uc_call : forall now f a w ls R, tinv w ls R -> ninv w ls -> now <= clock w ->
    exists w' ls' R', call f a w = Some w' /\ goes Q ninv now w ls R w' ls' R' []
}.

#[export] Instance TimerNotify_handler call `{!UserCalls call} : TimerHandler (TimerNotify call) Q ninv.
Proof.
  split.
  - intros w ls o c Hg. by eapply ninv_same.
  - intros now w ls R o Hi Hg Hn Hd Hloose. unfold TimerNotify.
    pose proof Hd as Hd'. rewrite <- (ni_dom _ _ Hg) in Hd'. apply elem_of_dom in Hd' as [T HT].
    rewrite HT. cbn [mbind option_bind]. destruct (ni_list _ _ Hg o T HT) as [Hin Hsome].
    assert (exists w1 R1, (if _run_flag T then p ← _timer_list T; AttachTimer o p w else Some w) = Some w1 /\
      goes Q ninv now w ls R w1 ls R1 []) as (w1 & R1 & -> & H1).
    { destruct (_run_flag T); [|exists w, R; split; [done|by apply goes_refl]].
      destruct Hsome as [p Hp]; [done|]. rewrite Hp. cbn [mbind option_bind].
      destruct (Attach_goes now w ls R o p) as (w1 & E & _ & H1); eauto. }
    cbn [mbind option_bind]. destruct (_func T) as [f|]; [|eauto].
    destruct (uc_call now f (_args T) w1 ls R1) as (w2 & ls2 & R2 & E2 & H2); [apply H1|apply H1|..].
    { by rewrite (go_clock _ _ _ _ _ _ _ _ _ _ H1). }
    exists w2, ls2, R2. split; [done|]. by apply (goes_trans _ _ _ _ _ _ _ _ _ [] _ _ _ [] H1 H2).
Qed.
End handlers.

(** ** The manager's operations, as a user function may call them *)

Section api.
Implicit Types (w : nworld) (o p : ptr) (ls : list ptr) (R : gmap ptr (list ptr)) (now : Z).
Notation evolves := (goes sublist ninv).

Lemma evolves_refl now w ls R : tinv w ls R -> ninv w ls -> evolves now w ls R w ls R [].
Proof. by apply (goes_refl sublist ninv). Qed.

Lemma evolves_trans now w ls R w1 ls1 R1 w2 ls2 R2 :
  evolves now w ls R w1 ls1 R1 [] -> evolves now w1 ls1 R1 w2 ls2 R2 [] -> evolves now w ls R w2 ls2 R2 [].
Proof. apply (goes_trans sublist ninv _ _ _ _ _ _ _ []). Qed.

Lemma without_sub o l : sublist (without o l) l.
Proof. apply without_sublist. Qed.

Lemma goes_set_ext now w ls R w1 ls1 R1 tr x : evolves now w ls R w1 ls1 R1 tr ->
  ninv (set_ext x w1) ls1 -> evolves now w ls R (set_ext x w1) ls1 R1 tr.
Proof. intros [] Hn. by split. Qed.

Lemma timer_stop_goes now w ls R o : tinv w ls R -> ninv w ls -> o ∈ dom (timers (ext w)) ->
  exists w' R', timer_stop o w = Some w' /\ evolves now w ls R w' ls R' [].
Proof.
  intros Hi Hg Hd. pose proof Hd as Hd'. rewrite (ni_dom _ _ Hg) in Hd'. apply elem_of_dom in Hd as [T HT].
  unfold timer_stop. rewrite HT. cbn [mbind option_bind].
  destruct (_run_flag T); [|exists w, R; split; [done|by apply evolves_refl]].
  destruct (Disable_goes sublist now w ls R o Hi Hg Hd') as (w1 & -> & Hx & Hex & H1); [apply without_sub|].
  cbn [mbind option_bind]. eexists _, _. split; [done|]. apply goes_set_ext; [done|].
  apply ninv_set_run; [apply H1|by rewrite Hx|done].
Qed.

Lemma timer_start_goes now w ls R o : tinv w ls R -> ninv w ls -> now <= clock w -> o ∈ dom (timers (ext w)) ->
  exists r w' R', timer_start o w = Some (r, w') /\ evolves now w ls R w' ls R' [].
Proof.
  intros Hi Hg Hn Hd. pose proof Hd as Hd'. rewrite (ni_dom _ _ Hg) in Hd'. apply elem_of_dom in Hd as [T HT].
  unfold timer_start. rewrite HT. cbn [mbind option_bind].
  destruct (_run_flag T); [exists 0, w, R; split; [done|by apply evolves_refl]|].
  destruct (_timer_list T) as [p|] eqn:Ep; [|exists (-1), w, R; split; [done|by apply evolves_refl]].
  destruct (ni_list _ _ Hg o T HT) as [Hp _].
  destruct (Attach_goes sublist now w ls R o p) as (w1 & -> & Hx & H1); try done; [by apply Hp|left; apply without_sub|].
  cbn [mbind option_bind]. eexists 0, _, _. split; [done|]. apply goes_set_ext; [done|].
  apply ninv_set_run; [apply H1|by rewrite Hx|]. rewrite Ep. eauto.
Qed.

(** The destructor: the object leaves its list and the memory, and nothing else. *)
Lemma object_delete_goes now w ls R o x : tinv w ls R -> o ∈ dom (objexp w) ->
  (forall c, ninv (set_ext x (set_cells c (set_objexp (delete o (objexp w)) w))) ls) ->
  exists w', CTimerObject_delete o w = Some w' /\ ext w' = ext w /\
    evolves now w ls R (set_ext x w') ls (delete o (list_del_init_abs o R)) [].
Proof.
  intros Hi Hd Hn. destruct (tinv_delete_object o w ls R Hi Hd) as (w' & E & Hi' & c & ->).
  eexists. split; [done|]. split; [done|].
  assert (forall q, q ∈ pending w :: ls -> delete o (list_del_init_abs o R) !!! q = without o (R !!! q)) as Hc.
  { intros q Hq. pose proof (head_not_obj _ _ _ _ _ _ _ (proj2 Hi) q o Hq Hd).
    rewrite lookup_total_delete_ne by congruence. by apply (take_out_seq w ls R Hi). }
  apply (goes_without sublist now w ls R _ _ o); try done; [|by apply Hc; left|left; apply without_sub].
  intros q Hq. unfold dueq. cbn [objexp set_ext set_cells set_objexp]. rewrite Hc by (by right).
  rewrite <- due_without. apply due_ext. intros a [Ha _]%elem_of_without. by rewrite lookup_total_delete_ne.
Qed.

Lemma delete_timer_goes now w ls R o : tinv w ls R -> ninv w ls -> o ∈ dom (timers (ext w)) ->
  (forall id, _timer_map (ext w) !! id <> Some o) ->
  exists w' R', delete_timer o w = Some w' /\ evolves now w ls R w' ls R' [].
Proof.
  intros Hi Hg Hd Hmap. pose proof Hd as Hd'. rewrite (ni_dom _ _ Hg) in Hd'. apply elem_of_dom in Hd as [T HT].
  unfold delete_timer. rewrite HT. cbn [mbind option_bind].
  assert (exists w1 R1, (if _run_flag T then DisableTimer o w else Some w) = Some w1 /\ ext w1 = ext w /\
    objexp w1 = objexp w /\ evolves now w ls R w1 ls R1 []) as (w1 & R1 & -> & Hx & Hex & H1).
  { destruct (_run_flag T); [|exists w, R; split_and!; try done; by apply evolves_refl].
    destruct (Disable_goes sublist now w ls R o Hi Hg Hd') as (w1 & -> & Hx & Hex & H1); [apply without_sub|].
    eexists _, _. done. }
  cbn [mbind option_bind].
  destruct (object_delete_goes now w1 ls R1 o (mkTE (delete o (timers (ext w1))) (_timer_map (ext w1)) (_curr_tid (ext w1))))
    as (w2 & -> & Hx2 & H2); [apply H1|by rewrite Hex| |].
  - intros c. destruct Hg as [G1 G2 G3 G4]. rewrite Hx. split; cbn.
    + by rewrite Hex, !dom_delete_L, G1.
    + intros o' T' [_ HT']%lookup_delete_Some. by eapply G2.
    + intros id a Ha. rewrite dom_delete, elem_of_difference, not_elem_of_singleton. split; [by eapply G3|].
      intros ->. by eapply Hmap.
    + done.
  - cbn [mbind option_bind]. rewrite Hx2. eexists _, _. split; [done|].
    by eapply evolves_trans.
Qed.

Lemma DeleteTimer_goes now w ls R tid : tinv w ls R -> ninv w ls ->
  exists w' R', DeleteTimer tid w = Some w' /\ evolves now w ls R w' ls R' [].
Proof.
  intros Hi Hg. unfold DeleteTimer, FindTimer. destruct (_timer_map (ext w) !! tid) as [o|] eqn:Em;
    [|exists w, R; split; [done|by apply evolves_refl]].
  set (w1 := set_ext _ w). assert (ninv w1 ls) as Hg1.
  { destruct Hg as [G1 G2 G3 G4]. split; cbn; try done.
    - intros id a [_ Ha]%lookup_delete_Some. by eapply G3.
    - intros i j a [_ H1]%lookup_delete_Some [_ H2]%lookup_delete_Some. by eapply G4. }
  destruct (delete_timer_goes now w1 ls R o) as (w2 & R2 & E2 & H2); [done|done|by eapply (ni_map _ _ Hg)| |].
  - intros id Hid. cbn in Hid. apply lookup_delete_Some in Hid as [Hn Hid]. apply Hn. by eapply (ni_inj _ _ Hg).
  - exists w2, R2. split; [done|]. assert (evolves now w ls R w1 ls R []) as H1 by (apply goes_set_ext; [by apply evolves_refl|done]).
    by eapply evolves_trans.
Qed.

(** User functions made of calls to the manager. *)
Inductive tcall := CallStart (tid : Z) | CallStop (tid : Z) | CallDelete (tid : Z).

Definition run_tcall (t : tcall) w : option nworld :=
  match t with
  | CallStart tid => '(_, w) ← StartTimer tid w; Some w
  | CallStop tid => StopTimer tid w
  | CallDelete tid => DeleteTimer tid w
  end.

Fixpoint run_script (ts : list tcall) w : option nworld :=
  match ts with [] => Some w | t :: ts => w ← run_tcall t w; run_script ts w end.

Lemma run_tcall_goes now t w ls R : tinv w ls R -> ninv w ls -> now <= clock w ->
  exists w' R', run_tcall t w = Some w' /\ evolves now w ls R w' ls R' [].
Proof.
  intros Hi Hg Hn. destruct t as [tid|tid|tid]; cbn [run_tcall].
  - unfold StartTimer, FindTimer. destruct (_timer_map (ext w) !! tid) as [o|] eqn:Em.
    + destruct (timer_start_goes now w ls R o) as (r & w' & R' & -> & H1); [done..|by eapply ni_map|]. eauto.
    + exists w, R. split; [done|by apply evolves_refl].
  - unfold StopTimer, FindTimer. destruct (_timer_map (ext w) !! tid) as [o|] eqn:Em.
    + destruct (timer_stop_goes now w ls R o) as (w' & R' & -> & H1); [done..|by eapply ni_map|]. eauto.
    + exists w, R. split; [done|by apply evolves_refl].
  - by apply DeleteTimer_goes.
Qed.

#[export] Instance script_calls (script : Z -> Z -> list tcall) :
  UserCalls sublist (fun f a => run_script (script f a)).
Proof.
  split. intros now f a w ls R Hi Hg Hn. generalize (script f a) as ts. intros ts.
  assert (exists w' R', run_script ts w = Some w' /\ evolves now w ls R w' ls R' []) as (w' & R' & ? & ?); [|eauto].
  revert w R Hi Hg Hn. induction ts as [|t ts IH]; intros w R Hi Hg Hn.
  { exists w, R. split; [done|by apply evolves_refl]. }
  destruct (run_tcall_goes now t w ls R Hi Hg Hn) as (w1 & R1 & E1 & H1). cbn [run_script]. rewrite E1. cbn [mbind option_bind].
  destruct (IH w1 R1) as (w2 & R2 & E2 & H2); [apply H1|apply H1|by rewrite (go_clock _ _ _ _ _ _ _ _ _ _ H1)|].
  exists w2, R2. split; [done|]. by eapply evolves_trans.
Qed.
End api.

(** ** Creating a timer *)

(** The numbers in use above [c]. *)
Definition used_above (c : Z) (m : gmap Z ptr) : gset Z := filter (fun i => c < i) (dom m).

Lemma used_above_next c (m : gmap Z ptr) o : m !! (c + 1) = Some o ->
  (size (used_above (c + 1) m) < size (used_above c m))%nat.
Proof.
  intros Hm. assert (used_above c m = {[c + 1]} ∪ used_above (c + 1) m) as ->.
  { apply set_eq. intros i. unfold used_above. rewrite elem_of_union, elem_of_singleton, !elem_of_filter.
    split; [intros [Hi Hd]; destruct (decide (i = c + 1)); [by left|right; split; [lia|done]]|].
    intros [-> | [Hi Hd]]; [split; [lia|by eapply elem_of_dom_2]|split; [lia|done]]. }
  rewrite size_union, size_singleton; [lia|]. unfold used_above. intros i. rewrite elem_of_singleton, elem_of_filter. lia.
Qed.

Lemma next_tid_spec o : forall fuel (w : nworld), 0 <= _curr_tid (ext w) ->
  _curr_tid (ext w) + Z.of_nat fuel < 2 ^ 31 ->
  (size (used_above (_curr_tid (ext w)) (_timer_map (ext w))) < fuel)%nat ->
  exists id, next_tid fuel o w = Some (0, set_ext (mkTE (timers (ext w)) (<[id := o]> (_timer_map (ext w))) id) w) /\
    0 < id /\ FindTimer id w = None.
Proof.
  induction fuel as [|fuel IH]; intros w H0 Hmax Hs; [lia|]. cbn [next_tid].
  rewrite (proj2 (Z.leb_gt _ _)) by lia. rewrite (proj2 (Z.ltb_lt 0 _)) by lia.
  set (w1 := set_ext _ w). unfold FindTimer. cbn [ext w1 set_ext _timer_map].
  destruct (_timer_map (ext w) !! (_curr_tid (ext w) + 1)) as [o'|] eqn:Em.
  - apply used_above_next in Em. destruct (IH w1) as (id & E & Hid & Hf); cbn [ext w1 set_ext _curr_tid _timer_map]; [lia..|].
    exists id. split; [by rewrite E|]. done.
  - eexists. split; [done|]. split; [lia|done].
Qed.

Lemma malloc_fresh (w : nworld) : malloc w ∉ dom (cells_of w).
Proof. unfold malloc. apply is_fresh. Qed.

(** The invariant with a timer added under a free number. *)
Lemma ninv_create (w w' : nworld) ls new o p T id c : ninv w ls -> o ∉ dom (objexp w) -> p ∈ new ++ ls ->
  _timer_list T = Some p -> dom (objexp w') = {[o]} ∪ dom (objexp w) ->
  ext w' = mkTE (<[o := T]> (timers (ext w))) (<[id := o]> (_timer_map (ext w))) c -> ninv w' (new ++ ls).
Proof.
  intros [G1 G2 G3 G4] Ho Hp HT Hd Hx. split; rewrite ?Hx, ?Hd; cbn.
  - by rewrite dom_insert_L, G1.
  - intros o' T'. rewrite lookup_insert_Some. intros [[<- <-]|[Hn HT']].
    + rewrite HT. split; [by intros ? [= <-]|eauto].
    + destruct (G2 o' T' HT') as [H1 H2]. split; [|done]. intros q Hq. apply elem_of_app. right. by apply H1.
  - intros id' a. rewrite lookup_insert_Some, dom_insert. intros [[_ <-]|[_ Ha]]; [set_solver|].
    apply G3 in Ha. set_solver.
  - assert (forall j, _timer_map (ext w) !! j <> Some o) as Hno by (intros j Hj%G3; by rewrite G1 in Hj).
    intros i j a. rewrite !lookup_insert_Some. intros [[<- <-]|[Hni H1]] [[<- Ha]|[Hnj H2]]; try done.
    + by destruct (Hno j).
    + subst. by destruct (Hno i).
    + by eapply G4.
Qed.

Lemma CreateTimer_spec w ls R func time_wait args v : tinv w ls R -> ninv w ls -> 0 < time_wait < 2 ^ 31 ->
  0 <= _curr_tid (ext w) -> _curr_tid (ext w) + Z.of_nat (size (_timer_map (ext w))) + 1 < 2 ^ 31 ->
  exists w' ls' R' id o p, CreateTimer func time_wait args v w = Some (0, w') /\
    tinv w' ls' R' /\ ninv w' ls' /\
    FindTimer id w = None /\ FindTimer id w' = Some o /\ o ∉ dom (objexp w) /\
    timers (ext w') !! o = Some (mkLT (Some p) func args time_wait true) /\
    p ∈ ls' /\ tmo (tlists w') p = time_wait /\ o ∈ R' !!! p /\ objexp w' !!! o = clock w + time_wait /\
    forall id', id' <> id -> FindTimer id' w' = FindTimer id' w.
Proof.
  intros Hi Hg Hw Hc0 Hc. unfold CreateTimer, new_timer. set (o := malloc w).
  destruct (outside_cells w ls R o Hi (malloc_fresh w)) as [Ho1 Ho2].
  set (w1 := set_timer o TLoopTimer_new (CTimerObject_new o v w)).
  assert (tinv w1 ls (<[o := []]> R)) as Hi1 by (by apply tinv_new_object).
  unfold SetTimer. assert (timers (ext w1) !! o = Some TLoopTimer_new) as -> by apply lookup_insert_eq.
  cbn [mbind option_bind]. rewrite i32_small by lia.
  destruct (outside_cells w1 ls _ (malloc w1) Hi1 (malloc_fresh w1)) as [Hf2 Hf3].
  destruct (GetTimerList_spec (malloc w1) time_wait w1 ls _ Hi1 ltac:(lia) Hf2 Hf3)
    as (p & w2 & ls2 & R2 & -> & Hi2 & Hp & Ht & Hex & Hx & Hclk & (new & ->) & _).
  cbn [mbind option_bind].
  destruct (tinv_Attach o p w2 (new ++ ls) R2 Hi2) as (c & -> & Hi3); [rewrite Hex; cbn; set_solver|done|].
  cbn [mbind option_bind]. set (w3 := set_timer o _ _). cbn [Z.ltb Z.compare].
  destruct (next_tid_spec o (S (size (_timer_map (ext w3)))) w3) as (id & -> & Hid & Hfree).
  { cbn. by rewrite Hx. } { cbn. rewrite Hx. cbn. lia. }
  { cbn. rewrite Hx. cbn. rewrite <- size_dom. assert (used_above (_curr_tid (ext w)) (_timer_map (ext w)) ⊆ dom (_timer_map (ext w)))
      as Hs%subseteq_size by (unfold used_above; set_solver). lia. }
  assert (FindTimer id w = None) as Hfree' by (unfold FindTimer in *; cbn in Hfree; rewrite Hx in Hfree; done).
  eexists _, (new ++ ls), (attach_abs o p R2), id, o, p. split; [done|]. split; [exact Hi3|]. split.
  - eapply (ninv_create w _ ls new o p (mkLT (Some p) func args time_wait true) id id); try done; cbn; rewrite ?Hx, ?Hex; cbn.
    + rewrite !dom_insert_L. set_solver.
    + by rewrite insert_insert_eq.
  - split; [done|]. split; [apply lookup_insert_eq|]. split; [done|]. split; [apply lookup_insert_eq|].
    split; [done|]. split; [done|]. split; [|split].
    + unfold attach_abs. rewrite lookup_total_insert_eq. set_solver.
    + cbn. rewrite lookup_total_insert_eq, Ht, Hclk. done.
    + intros id' Hn. unfold FindTimer. cbn. rewrite Hx. cbn. by rewrite lookup_insert_ne.
Qed.

(** [CreateTimer] with a positive timeout makes a new running timer: it is
    attached to the list of its timeout, expires [time_wait] from now, and is found
    under a number that was free; the other timers keep their numbers.  (The
    number itself is not returned: the result is 0.) *)
Theorem CreateTimer_creates w ls R func time_wait args v : tinv w ls R -> ninv w ls -> 0 < time_wait < 2 ^ 31 ->
  0 <= _curr_tid (ext w) -> _curr_tid (ext w) + Z.of_nat (size (_timer_map (ext w))) + 1 < 2 ^ 31 ->
  exists w' ls' R' id o p, CreateTimer func time_wait args v w = Some (0, w') /\
    tinv w' ls' R' /\ ninv w' ls' /\
    FindTimer id w = None /\ FindTimer id w' = Some o /\ o ∉ dom (objexp w) /\
    timers (ext w') !! o = Some (mkLT (Some p) func args time_wait true) /\
    p ∈ ls' /\ tmo (tlists w') p = time_wait /\ o ∈ R' !!! p /\ objexp w' !!! o = clock w + time_wait /\
    forall id', id' <> id -> FindTimer id' w' = FindTimer id' w.
Proof. apply CreateTimer_spec. Qed.

(** ** Running the timers *)

(** Functions that do not touch the timers. *)
#[export] Instance quiet_calls : UserCalls eq (fun _ _ w => Some w).
Proof. split. intros now f a w ls R Hi Hg Hn. exists w, ls, R. split; [done|]. by apply (goes_refl eq ninv). Qed.

(** C32: on a manager whose timers have positive timeouts, [RunTimer] returns
    whatever sequence of manager calls each user function makes that start, stop
    and delete timers, its own included, and the invariants hold after it.  (The
    functions create no timers: one of timeout 0 would keep [RunTimer] from ever
    returning, [zero_timer_never_returns].)  The timers it fires were all due, each
    fires once, those of one list in the order of expiry; afterwards no timer is
    due and none is pending. *)
Theorem RunTimer_fires_due (script : Z -> Z -> list tcall) w ls R now :
  tinv w ls R -> ninv w ls -> 0 < now <= clock w ->
  exists w' ls' R' tr, RunTimer (fun f a => run_script (script f a)) now w = Some w' /\
    tinv w' ls' R' /\ ninv w' ls' /\ fired w' = fired w ++ tr /\
    sublist tr (R !!! pending w ++ concat (dueq w R now <$> ls)) /\
    R' !!! pending w' = [] /\ forall p o, p ∈ ls' -> o ∈ R' !!! p -> now < objexp w' !!! o.
Proof.
  intros Hi Hg Hn.
  destruct (CheckExpired_goes (TimerNotify (fun f a => run_script (script f a))) sublist ninv now w ls R Hi Hg Hn)
    as (w' & ls' & R' & tr & E & H1 & Htr & Hz & Hnone).
  exists w', ls', R', tr. unfold RunTimer. rewrite E. split; [done|]. split; [apply H1|]. split; [apply H1|].
  split; [apply H1|]. split; [done|]. split; [by rewrite (go_pend _ _ _ _ _ _ _ _ _ _ H1)|].
  intros p o Hp Ho. destruct (Z.lt_ge_cases now (objexp w' !!! o)) as [|Hle]; [done|].
  assert (o ∈ dueq w' R' now p) as Hd by (apply list_elem_of_filter; split; [lia|done]).
  rewrite (Hnone p Hp) in Hd. by apply elem_of_nil in Hd.
Qed.

(** When the user functions leave the timers alone, [RunTimer] fires exactly
    the pending timers and then the due ones of each list, all of them and in
    order. *)
Theorem RunTimer_fires_exactly call `{!UserCalls eq call} w ls R now :
  tinv w ls R -> ninv w ls -> 0 < now <= clock w ->
  exists w', RunTimer call now w = Some w' /\
    fired w' = fired w ++ R !!! pending w ++ concat (dueq w R now <$> ls).
Proof.
  intros Hi Hg Hn. destruct (CheckExpired_goes (TimerNotify call) eq ninv now w ls R Hi Hg Hn)
    as (w' & ls' & R' & tr & E & H1 & -> & _).
  exists w'. unfold RunTimer. rewrite E. split; [done|]. apply (go_fired _ _ _ _ _ _ _ _ _ _ H1).
Qed.

(** A manager with two timers of 10 ms, one of 20 ms, at time 1000. *)
Definition mng0 : nworld := TNestTimerMng_new 1%positive 1000.
Definition mng3 : option nworld :=
  '(_, w) ← CreateTimer None 10 0 0 mng0;
  '(_, w) ← CreateTimer (Some 7) 20 0 0 w;
  '(_, w) ← CreateTimer None 10 0 0 w;
  Some w.

Lemma mng0_ninv : ninv mng0 [].
Proof.
  split; cbn; intros *; rewrite ?lookup_empty; done.
Qed.

Lemma mng3_inv : exists w ls R, mng3 = Some w /\ tinv w ls R /\ ninv w ls.
Proof.
  assert (tinv mng0 [] {[1%positive := []]}) as I0 by apply tinv_new.
  edestruct (CreateTimer_spec mng0 [] _ None 10 0 0 I0 mng0_ninv) as (w1 & l1 & R1 & i1 & o1 & p1 & E1 & I1 & N1 & _);
    [lia|done|done|].
  assert (_curr_tid (ext w1) = 1 /\ size (_timer_map (ext w1)) = 1%nat) as [C1 S1] by (vm_compute in E1; injection E1 as <-; done).
  edestruct (CreateTimer_spec w1 l1 R1 (Some 7) 20 0 0 I1 N1) as (w2 & l2 & R2 & i2 & o2 & p2 & E2 & I2 & N2 & _);
    [lia|lia|lia|].
  assert (_curr_tid (ext w2) = 2 /\ size (_timer_map (ext w2)) = 2%nat) as [C2 S2].
  { vm_compute in E1. injection E1 as <-. vm_compute in E2. injection E2 as <-. done. }
  edestruct (CreateTimer_spec w2 l2 R2 None 10 0 0 I2 N2) as (w3 & l3 & R3 & i3 & o3 & p3 & E3 & I3 & N3 & _);
    [lia|lia|lia|].
  exists w3, l3, R3. split; [|done]. unfold mng3. rewrite E1. cbn [mbind option_bind]. rewrite E2. cbn [mbind option_bind].
  rewrite E3. done.
Qed.

Lemma later_inv t (w : nworld) ls R : clock w <= t -> tinv w ls R -> ninv w ls ->
  tinv (set_clock t w) ls R /\ ninv (set_clock t w) ls.
Proof. intros Ht [Hl Ho] Hg. split; [split; [done|by eapply oinv_later]|by eapply ninv_same]. Qed.

Lemma CreateTimer_creates_witness :
  exists w' ls' R' id o p, CreateTimer None 10 0 0 mng0 = Some (0, w') /\ tinv w' ls' R' /\ ninv w' ls' /\
    FindTimer id mng0 = None /\ FindTimer id w' = Some o /\ o ∉ dom (objexp mng0) /\
    timers (ext w') !! o = Some (mkLT (Some p) None 0 10 true) /\ p ∈ ls' /\ tmo (tlists w') p = 10 /\
    o ∈ R' !!! p /\ objexp w' !!! o = 1000 + 10 /\ forall id', id' <> id -> FindTimer id' w' = FindTimer id' mng0.
Proof.
  apply (CreateTimer_creates mng0 [] {[1%positive := []]}); [apply tinv_new|apply mng0_ninv|lia|done|done].
Defined.

(** At 1025 the timer of 20 ms fires first; its function stops timer 1, so that of
    the two timers of 10 ms one fires. *)
Definition stop_one (f a : Z) : list tcall := [CallStop 1; CallStart 5; CallDelete 2].

Lemma RunTimer_fires_due_witness :
  exists w w', mng3 = Some w /\ RunTimer (fun f a => run_script (stop_one f a)) 1025 (set_clock 1025 w) = Some w' /\
    length (fired w') = 2%nat /\ exists ls' R', tinv w' ls' R' /\ forall p o, p ∈ ls' -> o ∈ R' !!! p -> 1025 < objexp w' !!! o.
Proof.
  destruct mng3_inv as (w & ls & R & E & Hi & Hg). exists w.
  assert (clock w = 1000) as Hc by (vm_compute in E; by injection E as <-).
  destruct (later_inv 1025 w ls R) as [Hi' Hg']; [lia|done..|].
  destruct (RunTimer_fires_due stop_one (set_clock 1025 w) ls R 1025 Hi' Hg') as (w' & ls' & R' & tr & E' & Hi2 & _ & _ & _ & _ & Hn);
    [cbn; lia|].
  exists w'. split; [done|]. split; [done|]. split; [|exists ls', R'; split; [exact Hi2|exact Hn]].
  clear -E E'. vm_compute in E. injection E as <-. vm_compute in E'. by injection E' as <-.
Defined.

Lemma RunTimer_fires_exactly_witness :
  exists w w', mng3 = Some w /\ RunTimer (fun _ _ w => Some w) 1015 (set_clock 1015 w) = Some w' /\
    length (fired w') = 2%nat.
Proof.
  destruct mng3_inv as (w & ls & R & E & Hi & Hg). exists w.
  assert (clock w = 1000) as Hc by (vm_compute in E; by injection E as <-).
  destruct (later_inv 1015 w ls R) as [Hi' Hg']; [lia|done..|].
  destruct (RunTimer_fires_exactly (fun _ _ w => Some w) (set_clock 1015 w) ls R 1015 Hi' Hg') as (w' & E' & _); [cbn; lia|].
  exists w'. split; [done|]. split; [done|].
  clear -E E'. vm_compute in E. injection E as <-. vm_compute in E'. by injection E' as <-.
Defined.

(** ** A timeout of 0

    [SetTimer] takes any timeout.  A list of timeout 0 leaves [objexp] as it is, so
    a timer on it is due again as soon as it has started itself. *)

Definition zero_timer : option nworld := '(_, w) ← CreateTimer None 0 0 0 mng0; Some w.

Definition set_fired (l : list ptr) (w : nworld) : nworld :=
  mkTW (cells_of w) (objexp w) (tlists w) (clock w) (pending w) (unext w) (timeout_inf w) l (ext w).

(** A loop timer created with timeout 0 (and whose uninitialised expiry lies
    in the past) makes [CheckExpired] of its list run for ever: no number of rounds
    is enough. *)
Theorem zero_timer_never_returns call : exists w p, zero_timer = Some w /\ unext w = Some p /\
  forall fuel n l, CheckExpired_loop (TimerNotify call) fuel p 1000 n (set_fired l w) = None.
Proof.
  destruct zero_timer as [w|] eqn:E; [|by vm_compute in E]. exists w, 3%positive.
  vm_compute in E. injection E as <-. split; [done|]. split; [done|].
  induction fuel as [|fuel IH]; intros n l; [done|]. cbn [CheckExpired_loop].
  set (k := CheckExpired_loop _ _ _ _) in *. vm_compute. subst k. apply (IH (n + 1) (l ++ [2%positive])).
Qed.
