(* ===== verification/Crc32.v ===== *)
(** * CRC-32

    [comm/crc32.h] and [comm/crc32.cpp]: class [CCrc32], a checksum computed byte
    by byte with a table of 256 words.  The reference is the shift register that
    divides by the generator polynomial one bit at a time; the table-driven code
    computes the same words, and the checksum tells apart any two buffers that
    differ within four consecutive bytes. *)

From Stdlib Require Import ZArith Lia.
From stdpp Require Import base list option.
From S2P Require Import Prelude Bytes.

(** ** The code *)

Definition crc_table : list Z :=
  [0x00000000; 0x77073096; 0xee0e612c; 0x990951ba; 0x076dc419; 0x706af48f; 0xe963a535; 0x9e6495a3;
   0x0edb8832; 0x79dcb8a4; 0xe0d5e91e; 0x97d2d988; 0x09b64c2b; 0x7eb17cbd; 0xe7b82d07; 0x90bf1d91;
   0x1db71064; 0x6ab020f2; 0xf3b97148; 0x84be41de; 0x1adad47d; 0x6ddde4eb; 0xf4d4b551; 0x83d385c7;
   0x136c9856; 0x646ba8c0; 0xfd62f97a; 0x8a65c9ec; 0x14015c4f; 0x63066cd9; 0xfa0f3d63; 0x8d080df5;
   0x3b6e20c8; 0x4c69105e; 0xd56041e4; 0xa2677172; 0x3c03e4d1; 0x4b04d447; 0xd20d85fd; 0xa50ab56b;
   0x35b5a8fa; 0x42b2986c; 0xdbbbc9d6; 0xacbcf940; 0x32d86ce3; 0x45df5c75; 0xdcd60dcf; 0xabd13d59;
   0x26d930ac; 0x51de003a; 0xc8d75180; 0xbfd06116; 0x21b4f4b5; 0x56b3c423; 0xcfba9599; 0xb8bda50f;
   0x2802b89e; 0x5f058808; 0xc60cd9b2; 0xb10be924; 0x2f6f7c87; 0x58684c11; 0xc1611dab; 0xb6662d3d;
   0x76dc4190; 0x01db7106; 0x98d220bc; 0xefd5102a; 0x71b18589; 0x06b6b51f; 0x9fbfe4a5; 0xe8b8d433;
   0x7807c9a2; 0x0f00f934; 0x9609a88e; 0xe10e9818; 0x7f6a0dbb; 0x086d3d2d; 0x91646c97; 0xe6635c01;
   0x6b6b51f4; 0x1c6c6162; 0x856530d8; 0xf262004e; 0x6c0695ed; 0x1b01a57b; 0x8208f4c1; 0xf50fc457;
   0x65b0d9c6; 0x12b7e950; 0x8bbeb8ea; 0xfcb9887c; 0x62dd1ddf; 0x15da2d49; 0x8cd37cf3; 0xfbd44c65;
   0x4db26158; 0x3ab551ce; 0xa3bc0074; 0xd4bb30e2; 0x4adfa541; 0x3dd895d7; 0xa4d1c46d; 0xd3d6f4fb;
   0x4369e96a; 0x346ed9fc; 0xad678846; 0xda60b8d0; 0x44042d73; 0x33031de5; 0xaa0a4c5f; 0xdd0d7cc9;
   0x5005713c; 0x270241aa; 0xbe0b1010; 0xc90c2086; 0x5768b525; 0x206f85b3; 0xb966d409; 0xce61e49f;
   0x5edef90e; 0x29d9c998; 0xb0d09822; 0xc7d7a8b4; 0x59b33d17; 0x2eb40d81; 0xb7bd5c3b; 0xc0ba6cad;
   0xedb88320; 0x9abfb3b6; 0x03b6e20c; 0x74b1d29a; 0xead54739; 0x9dd277af; 0x04db2615; 0x73dc1683;
   0xe3630b12; 0x94643b84; 0x0d6d6a3e; 0x7a6a5aa8; 0xe40ecf0b; 0x9309ff9d; 0x0a00ae27; 0x7d079eb1;
   0xf00f9344; 0x8708a3d2; 0x1e01f268; 0x6906c2fe; 0xf762575d; 0x806567cb; 0x196c3671; 0x6e6b06e7;
   0xfed41b76; 0x89d32be0; 0x10da7a5a; 0x67dd4acc; 0xf9b9df6f; 0x8ebeeff9; 0x17b7be43; 0x60b08ed5;
   0xd6d6a3e8; 0xa1d1937e; 0x38d8c2c4; 0x4fdff252; 0xd1bb67f1; 0xa6bc5767; 0x3fb506dd; 0x48b2364b;
   0xd80d2bda; 0xaf0a1b4c; 0x36034af6; 0x41047a60; 0xdf60efc3; 0xa867df55; 0x316e8eef; 0x4669be79;
   0xcb61b38c; 0xbc66831a; 0x256fd2a0; 0x5268e236; 0xcc0c7795; 0xbb0b4703; 0x220216b9; 0x5505262f;
   0xc5ba3bbe; 0xb2bd0b28; 0x2bb45a92; 0x5cb36a04; 0xc2d7ffa7; 0xb5d0cf31; 0x2cd99e8b; 0x5bdeae1d;
   0x9b64c2b0; 0xec63f226; 0x756aa39c; 0x026d930a; 0x9c0906a9; 0xeb0e363f; 0x72076785; 0x05005713;
   0x95bf4a82; 0xe2b87a14; 0x7bb12bae; 0x0cb61b38; 0x92d28e9b; 0xe5d5be0d; 0x7cdcefb7; 0x0bdbdf21;
   0x86d3d2d4; 0xf1d4e242; 0x68ddb3f8; 0x1fda836e; 0x81be16cd; 0xf6b9265b; 0x6fb077e1; 0x18b74777;
   0x88085ae6; 0xff0f6a70; 0x66063bca; 0x11010b5c; 0x8f659eff; 0xf862ae69; 0x616bffd3; 0x166ccf45;
   0xa00ae278; 0xd70dd2ee; 0x4e048354; 0x3903b3c2; 0xa7672661; 0xd06016f7; 0x4969474d; 0x3e6e77db;
   0xaed16a4a; 0xd9d65adc; 0x40df0b66; 0x37d83bf0; 0xa9bcae53; 0xdebb9ec5; 0x47b2cf7f; 0x30b5ffe9;
   0xbdbdf21c; 0xcabac28a; 0x53b39330; 0x24b4a3a6; 0xbad03605; 0xcdd70693; 0x54de5729; 0x23d967bf;
   0xb3667a2e; 0xc4614ab8; 0x5d681b02; 0x2a6f2b94; 0xb40bbe37; 0xc30c8ea1; 0x5a05df1b; 0x2d02ef8d].

(** The object holds the register. *)
Record CCrc32 := mkCrc { crc : Z }.

(** The constructor. *)
Definition CCrc32_new : CCrc32 := mkCrc 0.

(** One round of the loop: the index is masked to the table's 256 cells. *)
Definition crc_round (c byte : Z) : option Z :=
  w ← crc_table !! Z.to_nat (Z.land (Z.lxor c byte) 0xff);
  Some (Z.lxor w (Z.shiftr c 8)).

(** [while (len-- != 0)]: [n] bytes are left, [mem] is the memory at [ptr]; reading
    past its end is undefined. *)
Fixpoint Update_loop (n : nat) (mem : list Z) (c : Z) : option Z :=
  match n with
  | O => Some c
  | S n => match mem with
           | [] => None
           | b :: mem => c' ← crc_round c b; Update_loop n mem c'
           end
  end.

(** [CCrc32::Update]; the buffer is [None] when [ptr] is [NULL]. *)
Definition Update (o : CCrc32) (p : option (list Z)) (len : Z) : option (Z * CCrc32) :=
  match p with
  | None => Some (-1, o)
  | Some mem =>
      if len =? 0 then Some (-1, o)
      else c ← Update_loop (Z.to_nat len) mem (crc o); Some (0, mkCrc c)
  end.

(** [CCrc32::Final] hands the register out and clears it. *)
Definition Final (o : CCrc32) : Z * CCrc32 := (crc o, mkCrc 0).

(** [CCrc32::Crc32]. *)
Definition Crc32 (o : CCrc32) (p : option (list Z)) (len : Z) : option (Z * CCrc32) :=
  '(r, o) ← Update o p len;
  if r <? 0 then Some (0, o) else Some (Final o).

(** ** The reference: a shift register *)

(** The generator polynomial, bits reversed. *)
Definition poly : Z := 0xedb88320.

(** One bit: divide the register by x, subtracting the polynomial on a carry. *)
Definition crc_bit (c : Z) : Z := Z.lxor (if Z.odd c then poly else 0) (Z.shiftr c 1).

Definition crc_bits (n : nat) (c : Z) : Z := Nat.iter n crc_bit c.

(** A byte is fed into the low end of the register and shifted through. *)
Definition crc_byte (c b : Z) : Z := crc_bits 8 (Z.lxor c b).

Definition crc_ref (c : Z) (bs : list Z) : Z := foldl crc_byte c bs.


(** ** Bit-level facts *)

Lemma in_u32_bits c : in_u32 c <-> 0 <= c /\ forall i, 32 <= i -> Z.testbit c i = false.
Proof.
  unfold in_u32. split.
  - intros [H0 H1]. split; [done|]. intros i Hi.
    destruct (decide (c = 0)) as [->|Hc]; [apply Z.bits_0|].
    apply Z.bits_above_log2; [done|]. apply Z.log2_lt_pow2; [lia|].
    apply Z.lt_le_trans with (2 ^ 32); [done|]. apply Z.pow_le_mono_r; lia.
  - intros [H0 Hb]. split; [done|]. replace c with (Z.land c (Z.ones 32)).
    + rewrite Z.land_ones by lia. apply Z.mod_pos_bound. lia.
    + apply Z.bits_inj'. intros i Hi. rewrite Z.land_spec.
      destruct (Z.lt_ge_cases i 32).
      * rewrite Z.ones_spec_low by lia. apply andb_true_r.
      * by rewrite (Hb i), Z.ones_spec_high by lia.
Qed.

Lemma lxor_u32 a b : in_u32 a -> in_u32 b -> in_u32 (Z.lxor a b).
Proof.
  rewrite !in_u32_bits. intros [? Ha] [? Hb]. split; [by apply Z.lxor_nonneg; split|].
  intros i Hi. by rewrite Z.lxor_spec, Ha, Hb by done.
Qed.

Lemma shiftr_u32 a n : 0 <= n -> in_u32 a -> in_u32 (Z.shiftr a n).
Proof.
  intros Hn. rewrite !in_u32_bits. intros [? Ha]. split; [by apply Z.shiftr_nonneg|].
  intros i Hi. rewrite Z.shiftr_spec by lia. apply Ha. lia.
Qed.

Lemma byte_u32 b : is_byte b -> in_u32 b.
Proof. unfold is_byte, in_u32. lia. Qed.

Lemma poly_u32 : in_u32 poly.
Proof. by vm_compute. Qed.

Lemma crc_bit_u32 c : in_u32 c -> in_u32 (crc_bit c).
Proof.
  intros Hc. apply lxor_u32; [|by apply shiftr_u32].
  destruct (Z.odd c); [apply poly_u32|by vm_compute].
Qed.

Lemma crc_bits_u32 n c : in_u32 c -> in_u32 (crc_bits n c).
Proof. intros Hc. induction n as [|n IH]; [done|]. by apply crc_bit_u32. Qed.

Lemma crc_byte_u32 c b : in_u32 c -> is_byte b -> in_u32 (crc_byte c b).
Proof. intros Hc Hb. apply crc_bits_u32, lxor_u32; [done|by apply byte_u32]. Qed.

#[export] Hint Resolve lxor_u32 byte_u32 crc_bit_u32 crc_bits_u32 crc_byte_u32 : spp.

(** ** The register is linear *)

Lemma lxor_pair a b c d : Z.lxor (Z.lxor a b) (Z.lxor c d) = Z.lxor (Z.lxor a c) (Z.lxor b d).
Proof. rewrite !Z.lxor_assoc. f_equal. rewrite <- !Z.lxor_assoc. f_equal. apply Z.lxor_comm. Qed.

Lemma crc_bit_lxor a b : crc_bit (Z.lxor a b) = Z.lxor (crc_bit a) (crc_bit b).
Proof.
  unfold crc_bit. rewrite Z.shiftr_lxor, lxor_pair. f_equal.
  rewrite <- !Z.bit0_odd, Z.lxor_spec.
  by destruct (Z.testbit a 0), (Z.testbit b 0).
Qed.

Lemma crc_bits_lxor n a b : crc_bits n (Z.lxor a b) = Z.lxor (crc_bits n a) (crc_bits n b).
Proof. induction n as [|n IH]; [done|]. unfold crc_bits in *. simpl. by rewrite IH, crc_bit_lxor. Qed.

(** Zero bits at the low end are shifted out. *)
Lemma crc_bits_shiftl n c : crc_bits n (Z.shiftl c (Z.of_nat n)) = c.
Proof.
  revert c. induction n as [|n IH]; intros c; [apply Z.shiftl_0_r|].
  unfold crc_bits. rewrite Nat.iter_succ_r. fold (crc_bits n).
  replace (crc_bit (Z.shiftl c (Z.of_nat (S n)))) with (Z.shiftl c (Z.of_nat n)); [apply IH|].
  unfold crc_bit. replace (Z.odd _) with false.
  - rewrite Z.lxor_0_l, Z.shiftr_shiftl_l by lia. f_equal. lia.
  - rewrite <- Z.bit0_odd, Z.shiftl_spec_low; [done|lia].
Qed.

(** Split a register into its low byte and the rest. *)
Lemma split_low c : 0 <= c -> c = Z.lxor (Z.land c 0xff) (Z.shiftl (Z.shiftr c 8) 8).
Proof.
  intros Hc. apply Z.bits_inj'. intros i Hi. change 0xff with (Z.ones 8).
  rewrite Z.lxor_spec, Z.land_spec. destruct (Z.lt_ge_cases i 8).
  - rewrite Z.ones_spec_low, Z.shiftl_spec_low by lia. by rewrite andb_true_r, xorb_false_r.
  - rewrite Z.ones_spec_high, Z.shiftl_spec, Z.shiftr_spec by lia. rewrite andb_false_r, xorb_false_l.
    f_equal. lia.
Qed.

(** Every word of the table is its index shifted through the register. *)
Definition table_ok : bool :=
  forallb (fun i => bool_decide (crc_table !! i = Some (crc_bits 8 (Z.of_nat i)))) (seq 0 256).

Lemma table_ok_true : table_ok = true.
Proof. by vm_compute. Qed.

Lemma crc_table_spec i : 0 <= i < 256 -> crc_table !! Z.to_nat i = Some (crc_bits 8 i).
Proof.
  intros Hi. pose proof table_ok_true as H. unfold table_ok in H. rewrite forallb_forall in H.
  specialize (H (Z.to_nat i)). rewrite in_seq, bool_decide_eq_true, Z2Nat.id in H by lia. apply H. lia.
Qed.

Lemma crc_round_spec c b : in_u32 c -> is_byte b -> crc_round c b = Some (crc_byte c b).
Proof.
  intros Hc Hb. unfold crc_round.
  assert (0 <= Z.land (Z.lxor c b) 0xff < 256).
  { change 0xff with (Z.ones 8). rewrite Z.land_ones by lia. apply Z.mod_pos_bound. lia. }
  rewrite crc_table_spec by done. cbn [mbind option_bind]. f_equal.
  assert (0 <= Z.lxor c b) by (unfold is_byte, in_u32 in *; apply Z.lxor_nonneg; lia).
  unfold crc_byte. rewrite (split_low (Z.lxor c b)) at 2 by done.
  rewrite crc_bits_lxor. f_equal. rewrite (crc_bits_shiftl 8), Z.shiftr_lxor.
  rewrite (Z.shiftr_div_pow2 b) by lia. unfold is_byte in Hb.
  rewrite Z.div_small by lia. symmetry. apply Z.lxor_0_r.
Qed.

Lemma crc_ref_u32 c bs : in_u32 c -> Forall is_byte bs -> in_u32 (crc_ref c bs).
Proof.
  intros Hc Hb. revert c Hc. induction Hb as [|b bs Hb _ IH]; intros c Hc; [done|].
  apply IH. by apply crc_byte_u32.
Qed.

Lemma Update_loop_spec c bs rest : in_u32 c -> Forall is_byte bs ->
  Update_loop (length bs) (bs ++ rest) c = Some (crc_ref c bs).
Proof.
  intros Hc Hb. revert c Hc. induction Hb as [|b bs Hb _ IH]; intros c Hc; [done|].
  cbn [Update_loop length app]. rewrite crc_round_spec by done. cbn [mbind option_bind].
  rewrite IH by (by apply crc_byte_u32). done.
Qed.

(** ** Detection of errors *)

Lemma crc_ref_lxor a b xs ys : length xs = length ys ->
  crc_ref (Z.lxor a b) (zip_with Z.lxor xs ys) = Z.lxor (crc_ref a xs) (crc_ref b ys).
Proof.
  revert a b ys. induction xs as [|x xs IH]; intros a b [|y ys] Hl; try done.
  cbn [crc_ref foldl zip_with]. unfold crc_ref in IH.
  rewrite <- IH by (simpl in Hl; lia). f_equal. unfold crc_byte.
  by rewrite lxor_pair, crc_bits_lxor.
Qed.

(** The bit shifted out can be read off the top of the register. *)
Lemma crc_bit_zero c : in_u32 c -> crc_bit c = 0 -> c = 0.
Proof.
  intros Hc H. pose proof (proj1 (in_u32_bits c) Hc) as [H0 Hb].
  unfold crc_bit in H. apply Z.lxor_eq in H. destruct (Z.odd c) eqn:Ho.
  - assert (Z.testbit poly 31 = Z.testbit (Z.shiftr c 1) 31) as Ht by (by rewrite H).
    rewrite Z.shiftr_spec, Hb in Ht by lia. by vm_compute in Ht.
  - rewrite Z.shiftr_div_pow2 in H by lia. rewrite <- Z.negb_even in Ho.
    apply negb_false_iff, Z.even_spec in Ho as [k ->].
    change (2 ^ 1) with 2 in H. rewrite Z.mul_comm, Z.div_mul in H by lia. lia.
Qed.

Lemma crc_bits_zero n c : in_u32 c -> crc_bits n c = 0 -> c = 0.
Proof.
  intros Hc. induction n as [|n IH]; [done|]. intros H. apply IH.
  apply crc_bit_zero; [by apply crc_bits_u32|done].
Qed.

Lemma crc_bits_inj n a b : in_u32 a -> in_u32 b -> crc_bits n a = crc_bits n b -> a = b.
Proof.
  intros Ha Hb H. apply Z.lxor_eq, (crc_bits_zero n); [by apply lxor_u32|].
  by rewrite crc_bits_lxor, H, Z.lxor_nilpotent.
Qed.

#[local] Strategy opaque [crc_bits].
Lemma crc_ref_inj a b bs : in_u32 a -> in_u32 b -> Forall is_byte bs ->
  crc_ref a bs = crc_ref b bs -> a = b.
Proof.
  intros Ha Hb Hbs. revert a b Ha Hb. induction Hbs as [|x bs Hx _ IH]; intros a b Ha Hb H; [done|].
  apply IH in H; [|by apply crc_byte_u32..].
  apply crc_bits_inj in H; [|eauto with spp..].
  apply (f_equal (fun z => Z.lxor z x)) in H.
  by rewrite !Z.lxor_assoc, Z.lxor_nilpotent, !Z.lxor_0_r in H.
Qed.

Lemma lxor_byte_hi b h : is_byte b -> 0 <= h -> Z.lxor b (Z.shiftl h 8) = b + 256 * h.
Proof.
  intros Hb Hh. rewrite Z.shiftl_mul_pow2, <- Z.add_nocarry_lxor; [lia| |lia].
  apply Z.bits_inj'. intros i Hi. rewrite Z.land_spec, Z.bits_0.
  rewrite <- Z.shiftl_mul_pow2 by lia. destruct (Z.lt_ge_cases i 8).
  - rewrite Z.shiftl_spec_low by lia. apply andb_false_r.
  - replace (Z.testbit b i) with false; [done|]. symmetry. unfold is_byte in Hb.
    destruct (decide (b = 0)) as [->|]; [apply Z.bits_0|]. apply Z.bits_above_log2; [lia|].
    apply Z.log2_lt_pow2; [lia|]. apply Z.lt_le_trans with (2 ^ 8); [lia|]. apply Z.pow_le_mono_r; lia.
Qed.

(** Four bytes at most: the register is zero at the end only if it held exactly
    those bytes at the start. *)
Lemma crc_ref_zero s ds : in_u32 s -> Forall is_byte ds -> (length ds <= 4)%nat ->
  crc_ref s ds = 0 -> s = of_le ds.
Proof.
  intros Hs Hd. revert s Hs. induction Hd as [|d ds Hd Hds IH]; intros s Hs Hl H; [done|].
  cbn [length] in Hl. apply IH in H; [|by apply crc_byte_u32|lia].
  pose proof (of_le_range ds Hds) as Hr.
  assert (256 ^ Z.of_nat (length ds) <= 256 ^ 3) as Hp by (apply Z.pow_le_mono_r; lia).
  unfold crc_byte in H. rewrite <- (crc_bits_shiftl 8 (of_le ds)) in H.
  apply crc_bits_inj in H; [|by eauto with spp|].
  - apply (f_equal (fun z => Z.lxor z d)) in H.
    rewrite Z.lxor_assoc, Z.lxor_nilpotent, Z.lxor_0_r in H. subst s.
    rewrite Z.lxor_comm. apply lxor_byte_hi; [done|lia].
  - unfold in_u32. rewrite Z.shiftl_mul_pow2 by lia. lia.
Qed.

Lemma lxor_byte a b : is_byte a -> is_byte b -> is_byte (Z.lxor a b).
Proof.
  unfold is_byte. intros Ha Hb. split; [apply Z.lxor_nonneg; lia|].
  destruct (decide (Z.lxor a b = 0)) as [->|Hn]; [lia|].
  assert (0 <= Z.lxor a b) by (apply Z.lxor_nonneg; lia).
  change 256 with (2 ^ 8). apply Z.log2_lt_pow2; [lia|].
  eapply Z.le_lt_trans; [apply Z.log2_lxor; lia|].
  assert (forall x, 0 <= x < 256 -> Z.log2 x < 8) as Hlog.
  { intros x Hx. destruct (decide (x = 0)) as [->|]; [done|]. apply Z.log2_lt_pow2; lia. }
  apply Z.max_lub_lt; by apply Hlog.
Qed.

Lemma of_le_zero ds : Forall is_byte ds -> of_le ds = 0 -> Forall (eq 0) ds.
Proof.
  induction 1 as [|d ds Hd Hds IH]; [done|]. cbn [of_le]. intros H.
  pose proof (of_le_range ds Hds). unfold is_byte in Hd. constructor; [lia|]. apply IH. lia.
Qed.

Lemma zip_lxor_bytes xs ys : Forall is_byte xs -> Forall is_byte ys ->
  Forall is_byte (zip_with Z.lxor xs ys).
Proof.
  intros Hx. revert ys. induction Hx as [|x xs Hx _ IH]; intros [|y ys] Hy; simpl; try constructor.
  - inversion_clear Hy. by apply lxor_byte.
  - inversion_clear Hy. by apply IH.
Qed.

Lemma zip_lxor_zero xs ys : length xs = length ys -> Forall (eq 0) (zip_with Z.lxor xs ys) -> xs = ys.
Proof.
  revert ys. induction xs as [|x xs IH]; intros [|y ys] Hl H; try done.
  inversion_clear H as [|? ? He Hr]. f_equal; [by apply Z.lxor_eq|]. apply IH; [|done]. simpl in Hl. lia.
Qed.

Lemma crc_ref_burst c xs ys : in_u32 c -> Forall is_byte xs -> Forall is_byte ys ->
  length xs = length ys -> (length xs <= 4)%nat -> crc_ref c xs = crc_ref c ys -> xs = ys.
Proof.
  intros Hc Hx Hy Hl H4 H. apply zip_lxor_zero, of_le_zero; [done|by apply zip_lxor_bytes|].
  symmetry. apply crc_ref_zero; [done|by apply zip_lxor_bytes|rewrite length_zip_with; lia|].
  rewrite <- (Z.lxor_nilpotent c) at 1. rewrite crc_ref_lxor, H by done. apply Z.lxor_nilpotent.
Qed.

(** ** The checksum *)

(** C28: on a buffer of [len] > 0 bytes the table-driven [Crc32] returns the word
    left in the bit-by-bit shift register, and clears the object for the next
    use; the object's previous register is the starting value. *)
Theorem Crc32_is_shift_register o bs rest :
  in_u32 (crc o) -> Forall is_byte bs -> bs <> [] ->
  Crc32 o (Some (bs ++ rest)) (blen bs) = Some (crc_ref (crc o) bs, CCrc32_new) /\
  in_u32 (crc_ref (crc o) bs).
Proof.
  intros Ho Hb Hn. split; [|by apply crc_ref_u32]. unfold Crc32, Update, blen.
  destruct (Z.eqb_spec (Z.of_nat (length bs)) 0) as [E|_]; [by destruct bs|].
  rewrite Nat2Z.id, Update_loop_spec by done. done.
Qed.

Lemma Crc32_is_shift_register_witness :
  Crc32 CCrc32_new (Some (map Z.of_nat (seq 49 9) ++ [7])) 9 = Some (0x2dfd2d88, CCrc32_new).
Proof.
  pose proof (Crc32_is_shift_register CCrc32_new (map Z.of_nat (seq 49 9)) [7]) as H.
  apply H.
  - by vm_compute.
  - cbn [seq map]. all_bytes.
  - discriminate.
Defined.

(** Two buffers of the same length that differ only within four consecutive
    bytes have different checksums. *)
Theorem Crc32_detects_bursts o p xs ys q :
  in_u32 (crc o) -> Forall is_byte p -> Forall is_byte xs -> Forall is_byte ys -> Forall is_byte q ->
  length xs = length ys -> (0 < length xs <= 4)%nat -> xs <> ys ->
  exists c1 c2, Crc32 o (Some (p ++ xs ++ q)) (blen (p ++ xs ++ q)) = Some (c1, CCrc32_new) /\
    Crc32 o (Some (p ++ ys ++ q)) (blen (p ++ ys ++ q)) = Some (c2, CCrc32_new) /\ c1 <> c2.
Proof.
  intros Ho Hp Hx Hy Hq Hl H4 Hn.
  assert (forall zs, Forall is_byte zs -> (0 < length zs)%nat ->
    Crc32 o (Some (p ++ zs ++ q)) (blen (p ++ zs ++ q)) =
      Some (crc_ref (crc_ref (crc_ref (crc o) p) zs) q, CCrc32_new)) as Hc.
  { intros zs Hz Hlz. unfold Crc32, Update, blen.
    destruct (Z.eqb_spec (Z.of_nat (length (p ++ zs ++ q))) 0) as [E|_]; [rewrite !length_app in E; lia|].
    rewrite Nat2Z.id. replace (p ++ zs ++ q) with ((p ++ zs ++ q) ++ []) at 2 by apply app_nil_r.
    rewrite Update_loop_spec by (try done; by rewrite !Forall_app).
    cbn. unfold crc_ref. by rewrite !foldl_app. }
  do 2 eexists. split; [apply Hc; [done|lia]|]. split; [apply Hc; [done|lia]|].
  intros H. assert (in_u32 (crc_ref (crc o) p)) by (by apply crc_ref_u32).
  apply crc_ref_inj in H; [|by apply crc_ref_u32..|done].
  apply crc_ref_burst in H; try done. lia.
Qed.

Lemma Crc32_detects_bursts_witness :
  exists c1 c2, Crc32 CCrc32_new (Some ([1; 2] ++ [3; 4; 5; 6] ++ [9])) 7 = Some (c1, CCrc32_new) /\
    Crc32 CCrc32_new (Some ([1; 2] ++ [3; 0; 5; 7] ++ [9])) 7 = Some (c2, CCrc32_new) /\ c1 <> c2.
Proof.
  apply (Crc32_detects_bursts CCrc32_new [1; 2] [3; 4; 5; 6] [3; 0; 5; 7] [9]);
    try all_bytes; [by vm_compute|done|simpl; lia|discriminate].
Defined.

(** An empty buffer is refused and leaves the register alone. *)
Example Crc32_empty o m : Crc32 o (Some m) 0 = Some (0, o).
Proof. reflexivity. Qed.
