(* ===== verification/Heap.v ===== *)
(** * The index-tracking min-heap of the micro-thread library

    Models [src/src/sync_frame/micro_thread/heap.h]: [HeapEntry], [HeapList] and
    its operations.  The heap is an array of pointers whose cell 0 is reserved;
    every element stores its own position ([_index]), 0 meaning "not in a heap".
    The objects live in a store of the client (timers, micro threads), which
    this file sees through the class [HeapStore].

    The operations are written in the option monad: [None] is a dereference of a
    [NULL] cell or an access outside the array.  The theorems show that on a
    well-formed heap no operation meets it, that the positions stay consistent,
    and which operations keep the heap order. *)

From Stdlib Require Import ZArith Lia.
From stdpp Require Import base gmap list option.
From S2P Require Import Prelude.

(** ** What a heap needs of the objects it holds

    [HeapValue] is the virtual function of [HeapEntry] (the key), [GetIndex] and
    [SetIndex] access the private field [_index]. *)
Class HeapStore (St : Type) := {
  HeapValue : St -> ptr -> Z;
  GetIndex : St -> ptr -> Z;
  SetIndex : ptr -> Z -> St -> St;
  GetIndex_SetIndex_eq : forall p i s, GetIndex (SetIndex p i s) p = i;
  GetIndex_SetIndex_ne : forall p q i s, p <> q -> GetIndex (SetIndex p i s) q = GetIndex s q;
  HeapValue_SetIndex : forall p q i s, HeapValue (SetIndex p i s) q = HeapValue s q;
}.

(** [class HeapList]: the pointer array, its capacity and the number of elements. *)
Record HeapList := mkHeapList {
  h_list : list (option ptr);
  h_max : Z;
  h_count : Z;
}.

Definition with_list (h : HeapList) (l : list (option ptr)) : HeapList :=
  mkHeapList l (h_max h) (h_count h).

Definition with_count (h : HeapList) (c : Z) : HeapList :=
  mkHeapList (h_list h) (h_max h) c.

(** The constructor: [max + 1] cells set to [NULL]. *)
Definition new_HeapList (max : Z) : HeapList :=
  let m := if 0 <? max then max else 100000 in
  mkHeapList (replicate (Z.to_nat (m + 1)) None) m 0.

(** [HeapResize]: grows the array, never shrinks it; [malloc_ok] says whether
    [malloc] returned memory. *)
Definition HeapResize (h : HeapList) (size : Z) (malloc_ok : bool) : Z * HeapList :=
  if size <=? h_max h then (0, h)
  else if negb malloc_ok then (-1, h)
  else (0, mkHeapList (h_list h ++ replicate (Z.to_nat (size - h_max h)) None) size (h_count h)).

Definition HeapSize (h : HeapList) : Z := h_count h.
Definition HeapFull (h : HeapList) : bool := h_max h <=? h_count h.
Definition HeapEmpty (h : HeapList) : bool := h_count h =? 0.

(** [HeapTop]: the element of cell 1, or [NULL] when the heap is empty. *)
Definition HeapTop (h : HeapList) : option ptr :=
  if 0 <? h_count h then aget (h_list h) 1 else None.

Section ops.
Context {St : Type} `{!HeapStore St}.
Implicit Types (h : HeapList) (s : St) (p q : ptr).

(** [HeapEntry::HeapValueCmp]. *)
Definition HeapValueCmp s p q : Z :=
  if HeapValue s p =? HeapValue s q then 0
  else if HeapValue s q <? HeapValue s p then 1 else -1.

(** Exchange the elements [a] of cell [i] and [b] of cell [j] and record their
    new positions: the assignments both loops perform on a bad pair. *)
Definition exchange (h : HeapList) (s : St) (i j : Z) (a b : ptr) : HeapList * St :=
  (with_list h (aset (aset (h_list h) j (Some a)) i (Some b)),
   SetIndex a j (SetIndex b i s)).

(** [HeapList::HeapUp], the loop from [pos] towards the root.  The position is
    halved at every round, so [pos] rounds are enough. *)
Fixpoint HeapUp_loop (fuel : nat) h s (pos : Z) : option (HeapList * St) :=
  match fuel with
  | O => None
  | S fuel =>
      if 0 <? pos then
        if pos / 2 <? 1 then Some (h, s)
        else
          a ← aget (h_list h) pos;
          b ← aget (h_list h) (pos / 2);
          if HeapValueCmp s a b <? 0 then
            let '(h', s') := exchange h s pos (pos / 2) a b in
            HeapUp_loop fuel h' s' (pos / 2)
          else Some (h, s)
      else Some (h, s)
  end.

Definition HeapUp h s : option (HeapList * St) :=
  HeapUp_loop (S (Z.to_nat (h_count h))) h s (h_count h).

(** The smaller son of [pos], when it has one (lines 265-279): the left one
    unless the right one exists and is strictly smaller. *)
Definition min_son h s (pos : Z) : option Z :=
  if pos * 2 =? h_count h then Some (pos * 2)
  else
    r ← aget (h_list h) (pos * 2 + 1);
    l ← aget (h_list h) (pos * 2);
    if HeapValueCmp s r l <? 0 then Some (pos * 2 + 1) else Some (pos * 2).

(** [HeapList::HeapDown], the loop from [pos] towards the leaves: pick the
    smaller son and exchange when the element is larger.  The position at least
    doubles, so [_count] rounds are enough. *)
Fixpoint HeapDown_loop (fuel : nat) h s (pos : Z) : option (HeapList * St) :=
  match fuel with
  | O => None
  | S fuel =>
      if pos <=? h_count h then
        if h_count h <? pos * 2 then Some (h, s)
        else
          son ← min_son h s pos;
          a ← aget (h_list h) pos;
          b ← aget (h_list h) son;
          if 0 <? HeapValueCmp s a b then
            let '(h', s') := exchange h s son pos b a in
            HeapDown_loop fuel h' s' son
          else Some (h, s)
      else Some (h, s)
  end.

Definition HeapDown h s (index : Z) : option (HeapList * St) :=
  HeapDown_loop (S (Z.to_nat (h_count h + 1 - index))) h s index.

(** [HeapList::HeapPush]: -1 full, -2 the element is already in a heap. *)
Definition HeapPush h s (item : ptr) : option (Z * HeapList * St) :=
  if HeapFull h then Some (-1, h, s)
  else if negb (GetIndex s item =? 0) then Some (-2, h, s)
  else
    let c := h_count h + 1 in
    let h1 := mkHeapList (aset (h_list h) c (Some item)) (h_max h) c in
    let s1 := SetIndex item c s in
    '(h2, s2) ← HeapUp h1 s1;
    Some (0, h2, s2).

(** [HeapList::HeapPop]: the top element, removed; [NULL] when empty. *)
Definition HeapPop h s : option (option ptr * HeapList * St) :=
  if HeapEmpty h then Some (None, h, s)
  else
    top ← aget (h_list h) 1;
    last ← aget (h_list h) (h_count h);
    let l1 := aset (h_list h) 1 (Some last) in
    let s1 := SetIndex last 1 s in
    let h1 := mkHeapList (aset l1 (h_count h) None) (h_max h) (h_count h - 1) in
    '(h2, s2) ← HeapDown h1 s1 1;
    Some (Some top, h2, SetIndex top 0 s2).

(** [HeapList::HeapDelete]: -1 empty, -2 the element's position is not one of
    the heap.  The hole is filled with the last element, which is then moved
    down (and only down). *)
Definition HeapDelete h s (item : ptr) : option (Z * HeapList * St) :=
  if HeapEmpty h then Some (-1, h, s)
  else
    let pos := GetIndex s item in
    if (h_count h <? pos) || (pos <=? 0) then Some (-2, h, s)
    else
      del ← aget (h_list h) pos;
      last ← aget (h_list h) (h_count h);
      let l1 := aset (h_list h) pos (Some last) in
      let s1 := SetIndex last pos s in
      let h1 := mkHeapList (aset l1 (h_count h) None) (h_max h) (h_count h - 1) in
      '(h2, s2) ← HeapDown h1 s1 pos;
      Some (0, h2, SetIndex del 0 s2).

(** [HeapEntry::InsertIntoHeap] and [HeapEntry::DeleteFromHeap]. *)
Definition InsertIntoHeap s (this : ptr) (list : HeapList) := HeapPush list s this.
Definition DeleteFromHeap s (this : ptr) (list : HeapList) := HeapDelete list s this.

(** What [HeapForeach] does, in order: a line break before each level of the
    tree but the first, and for every element its key printed and its
    [HeapIterate] called. *)
Inductive foreach_event :=
  | NewLine
  | PrintValue (v : Z)
  | CallIterate (p : ptr).

(** [HeapList::HeapForeach]. *)
Fixpoint HeapForeach_loop (n : nat) h s (i per : Z) : option (list foreach_event) :=
  match n with
  | O => Some []
  | S n =>
      let '(nl, per') := if per * 2 <=? i then ([NewLine], per * 2) else ([], per) in
      p ← aget (h_list h) i;
      r ← HeapForeach_loop n h s (i + 1) per';
      Some (nl ++ PrintValue (HeapValue s p) :: CallIterate p :: r)
  end.

Definition HeapForeach h s : option (list foreach_event) :=
  HeapForeach_loop (Z.to_nat (h_count h)) h s 1 1.
End ops.

#[global] Arguments exchange : simpl never.

(** ** Well-formedness *)

Section wf.
Context {St : Type} `{!HeapStore St}.
Implicit Types (h : HeapList) (s : St) (p q : ptr).

(** The structural invariant: cells [1 .. count] hold elements that know their
    position, every other cell is [NULL], and an element with a non-zero
    position is in the heap.  [x] is an element in transit: it has left the
    array but its position is not reset yet. *)
Record heap_wf_but (x : option ptr) h s : Prop := {
  wf_len : alen (h_list h) = h_max h + 1;
  wf_count : 0 <= h_count h <= h_max h;
  wf_cell : forall i, 1 <= i <= h_count h ->
    exists p, aget (h_list h) i = Some p /\ GetIndex s p = i /\ Some p <> x;
  wf_null : forall i, ~ 1 <= i <= h_count h -> aget (h_list h) i = None;
  wf_index : forall p, Some p <> x -> GetIndex s p <> 0 ->
    1 <= GetIndex s p <= h_count h /\ aget (h_list h) (GetIndex s p) = Some p;
}.

Definition heap_wf := heap_wf_but None.

(** The key of the element at position [i]. *)
Definition val h s (i : Z) : Z :=
  match aget (h_list h) i with Some p => HeapValue s p | None => 0 end.

(** The heap order: no element is smaller than its parent. *)
Definition heap_ordered h s : Prop :=
  forall i, 2 <= i <= h_count h -> val h s (i / 2) <= val h s i.

(** Stores that differ by writes to positions only. *)
Inductive idx_steps : St -> St -> Prop :=
  | idx_refl s : idx_steps s s
  | idx_step s p i s' : idx_steps (SetIndex p i s) s' -> idx_steps s s'.

Lemma idx_steps_trans s1 s2 s3 : idx_steps s1 s2 -> idx_steps s2 s3 -> idx_steps s1 s3.
Proof. induction 1; eauto using idx_steps. Qed.

Lemma idx_steps_value s s' p : idx_steps s s' -> HeapValue s' p = HeapValue s p.
Proof. induction 1 as [|s q i s' _ IH]; [done|]. by rewrite IH, HeapValue_SetIndex. Qed.

(** A property that position writes keep is kept by [idx_steps]. *)
Lemma idx_steps_ind_keep (P : St -> Prop) s s' :
  (forall s p i, P s -> P (SetIndex p i s)) -> idx_steps s s' -> P s -> P s'.
Proof. intros HP. induction 1; auto. Qed.

Lemma GetIndex_SetIndex s p q i :
  GetIndex (SetIndex p i s) q = if decide (p = q) then i else GetIndex s q.
Proof.
  case_decide; subst; [apply GetIndex_SetIndex_eq|by apply GetIndex_SetIndex_ne].
Qed.

(** Membership is by position: an element is in the heap iff it has one. *)
Lemma heap_wf_member h s p :
  heap_wf h s -> GetIndex s p <> 0 <-> exists i, aget (h_list h) i = Some p.
Proof.
  intros [_ _ Hc Hn Hi]. split.
  - intros Hp. exists (GetIndex s p). by apply Hi.
  - intros [i Hp]. destruct (decide (1 <= i <= h_count h)) as [Hr|Hr].
    + destruct (Hc i Hr) as (p' & Hp' & HI & _). simplify_eq. lia.
    + rewrite (Hn i Hr) in Hp. done.
Qed.

(** Exchange of two positions, as a permutation of [Z]. *)
Definition sw (i j k : Z) : Z :=
  if decide (k = i) then j else if decide (k = j) then i else k.

Lemma sw_l i j : sw i j i = j.
Proof. unfold sw. by rewrite decide_True. Qed.

Lemma sw_r i j : sw i j j = i.
Proof. unfold sw. case_decide; [done|]. by rewrite decide_True. Qed.

Lemma sw_ne i j k : k <> i -> k <> j -> sw i j k = k.
Proof. intros. unfold sw. by rewrite !decide_False. Qed.

Lemma exchange_get h i j a b k s :
  1 <= i < alen (h_list h) -> 1 <= j < alen (h_list h) -> i <> j ->
  aget (h_list h) i = Some a -> aget (h_list h) j = Some b ->
  aget (h_list (exchange h s i j a b).1) k = aget (h_list h) (sw i j k).
Proof.
  intros Hi Hj Hij Ha Hb. unfold exchange, sw; simpl.
  destruct (decide (k = i)) as [->|Hk].
  - rewrite aget_aset_eq by (rewrite alen_aset; lia). done.
  - rewrite aget_aset_ne by lia. destruct (decide (k = j)) as [->|Hk'].
    + rewrite aget_aset_eq by lia. done.
    + by rewrite aget_aset_ne by lia.
Qed.

Lemma exchange_wf x h s i j a b :
  heap_wf_but x h s -> 1 <= i <= h_count h -> 1 <= j <= h_count h -> i <> j ->
  aget (h_list h) i = Some a -> aget (h_list h) j = Some b ->
  heap_wf_but x (exchange h s i j a b).1 (exchange h s i j a b).2.
Proof.
  intros Hwf Hi Hj Hij Ha Hb.
  pose proof (wf_len _ _ _ Hwf) as Hlen. pose proof (wf_count _ _ _ Hwf) as Hcnt.
  assert (Hg : forall k, aget (h_list (exchange h s i j a b).1) k
             = aget (h_list h) (sw i j k)) by (intros; apply exchange_get; auto; lia).
  destruct (wf_cell _ _ _ Hwf i Hi) as (a' & Ha' & Hai & Hax).
  assert (a' = a) as -> by congruence.
  destruct (wf_cell _ _ _ Hwf j Hj) as (b' & Hb' & Hbj & Hbx).
  assert (b' = b) as -> by congruence.
  assert (a <> b) by congruence.
  assert (Hs : forall q, GetIndex (exchange h s i j a b).2 q =
    if decide (a = q) then j else if decide (b = q) then i else GetIndex s q).
  { intros q. unfold exchange; simpl. by rewrite !GetIndex_SetIndex. }
  split.
  - unfold exchange; simpl. by rewrite !alen_aset.
  - done.
  - intros k Hk. rewrite Hg. change (h_count _) with (h_count h) in Hk.
    unfold sw. destruct (decide (k = i)) as [->|]; [|destruct (decide (k = j)) as [->|]].
    + exists b. rewrite Hs. rewrite decide_False by done. by rewrite decide_True.
    + exists a. rewrite Hs. by rewrite decide_True.
    + destruct (wf_cell _ _ _ Hwf k Hk) as (c & Hc & Hck & Hcx). exists c.
      rewrite Hs, !decide_False by congruence. done.
  - intros k Hk. rewrite Hg. change (h_count _) with (h_count h) in Hk.
    unfold sw. rewrite !decide_False by (intros ->; lia). by apply (wf_null _ _ _ Hwf).
  - intros q Hqx. rewrite Hg, Hs. change (h_count _) with (h_count h). unfold sw.
    destruct (decide (a = q)) as [<-|]; [|destruct (decide (b = q)) as [<-|]]; intros Hq.
    + rewrite decide_False by done. rewrite decide_True by done. split; [lia|done].
    + rewrite decide_True by done. split; [lia|done].
    + destruct (wf_index _ _ _ Hwf q Hqx Hq) as [Hr Hgq]. split; [done|].
      rewrite !decide_False; [done|congruence|congruence].
Qed.

Lemma exchange_val h s i j a b k :
  1 <= i < alen (h_list h) -> 1 <= j < alen (h_list h) -> i <> j ->
  aget (h_list h) i = Some a -> aget (h_list h) j = Some b ->
  val (exchange h s i j a b).1 (exchange h s i j a b).2 k = val h s (sw i j k).
Proof.
  intros. unfold val. rewrite exchange_get by done.
  destruct (aget (h_list h) (sw i j k)); [|done].
  unfold exchange; simpl. by rewrite !HeapValue_SetIndex.
Qed.
End wf.

(** ** The two loops *)

Section loops.
Context {St : Type} `{!HeapStore St}.
Implicit Types (h : HeapList) (s : St) (p q : ptr) (v : Z -> Z) (n pos : Z).

(** The order holds except between [pos] and its parent. *)
Definition up_ok v n pos : Prop :=
  (forall i, 2 <= i <= n -> i <> pos -> v (i / 2) <= v i) /\
  (forall i, 2 <= i <= n -> i / 2 = pos -> 2 <= pos -> v (pos / 2) <= v i).

(** The order holds except between [pos] and its sons. *)
Definition down_ok v n pos : Prop :=
  (forall i, 2 <= i <= n -> i / 2 <> pos -> v (i / 2) <= v i) /\
  (forall i, 2 <= i <= n -> i / 2 = pos -> 2 <= pos -> v (pos / 2) <= v i).

Lemma up_step v n pos :
  2 <= pos <= n -> up_ok v n pos -> v pos < v (pos / 2) ->
  up_ok (fun k => v (sw pos (pos / 2) k)) n (pos / 2).
Proof.
  intros Hp [H1 H2] Hlt.
  assert (Hd : forall i, 2 <= i <= n -> i <> pos -> i / 2 = pos / 2 -> v (pos / 2) <= v i).
  { intros i Hi Hne Heq. rewrite <- Heq. by apply H1. }
  split; cbv beta; intros i Hi Hc.
  - destruct (decide (i = pos)) as [->|Hne]; [rewrite sw_l, sw_r; dlia|].
    rewrite (sw_ne _ _ i) by dlia.
    destruct (decide (i / 2 = pos)) as [He|]; [rewrite He, sw_l; apply H2; dlia|].
    destruct (decide (i / 2 = pos / 2)) as [He|].
    + rewrite He, sw_r. specialize (Hd i Hi Hne He). dlia.
    + rewrite sw_ne by done. by apply H1.
  - intros Hp2. rewrite (sw_ne _ _ (pos / 2 / 2)) by dlia.
    assert (Hpp : v (pos / 2 / 2) <= v (pos / 2)) by (apply H1; dlia).
    destruct (decide (i = pos)) as [->|]; [by rewrite sw_l|].
    rewrite sw_ne by dlia. specialize (Hd i Hi). dlia.
Qed.

Lemma up_done v n pos :
  up_ok v n pos -> pos / 2 < 1 \/ v (pos / 2) <= v pos ->
  forall i, 2 <= i <= n -> v (i / 2) <= v i.
Proof.
  intros [H1 _] H i Hi. destruct (decide (i = pos)) as [->|]; [|by apply H1].
  destruct H; [dlia|done].
Qed.

Lemma down_step v n pos son :
  1 <= pos -> 2 <= son <= n -> son / 2 = pos ->
  (forall i, 2 <= i <= n -> i / 2 = pos -> v son <= v i) ->
  v son < v pos -> down_ok v n pos ->
  down_ok (fun k => v (sw son pos k)) n son.
Proof.
  intros Hp Hs Hsp Hmin Hlt [H1 H2].
  split; cbv beta; intros i Hi Hc.
  - destruct (decide (i = son)) as [->|Hne]; [rewrite Hsp, sw_l, sw_r; dlia|].
    destruct (decide (i = pos)) as [->|Hne'].
    { rewrite sw_r, sw_ne by dlia. apply H2; [dlia|done|dlia]. }
    rewrite (sw_ne _ _ i) by done.
    destruct (decide (i / 2 = pos)) as [He|].
    + rewrite He, sw_r. by apply Hmin.
    + rewrite sw_ne by done. by apply H1.
  - intros _. rewrite Hsp, sw_r, sw_ne by dlia.
    specialize (H1 i Hi). rewrite Hc in H1. apply H1. dlia.
Qed.

Lemma down_done v n pos :
  down_ok v n pos ->
  (forall i, 2 <= i <= n -> i / 2 = pos -> v pos <= v i) ->
  forall i, 2 <= i <= n -> v (i / 2) <= v i.
Proof.
  intros [H1 _] H i Hi. destruct (decide (i / 2 = pos)) as [E|]; [|by apply H1].
  rewrite E. by apply H.
Qed.

(** What a loop keeps whatever the keys are. *)
Record loop_post (x : option ptr) h s h' s' : Prop := {
  lp_wf : heap_wf_but x h' s';
  lp_count : h_count h' = h_count h;
  lp_max : h_max h' = h_max h;
  lp_idx : idx_steps s s';
  lp_mem : forall p, GetIndex s' p <> 0 <-> GetIndex s p <> 0;
  lp_out : forall p, Some p = x -> GetIndex s' p = GetIndex s p;
}.

Lemma loop_post_refl x h s : heap_wf_but x h s -> loop_post x h s h s.
Proof. split; eauto using idx_steps. Qed.

Lemma loop_post_trans x h1 s1 h2 s2 h3 s3 :
  loop_post x h1 s1 h2 s2 -> loop_post x h2 s2 h3 s3 -> loop_post x h1 s1 h3 s3.
Proof.
  intros [? ? ? ? H1 Ho1] [? ? ? ? H2 Ho2]. split.
  - done.
  - congruence.
  - congruence.
  - eauto using idx_steps_trans.
  - intros p. by rewrite H2, H1.
  - intros p Hp. by rewrite Ho2, Ho1.
Qed.

Lemma exchange_post x h s i j a b :
  heap_wf_but x h s -> 1 <= i <= h_count h -> 1 <= j <= h_count h -> i <> j ->
  aget (h_list h) i = Some a -> aget (h_list h) j = Some b ->
  loop_post x h s (exchange h s i j a b).1 (exchange h s i j a b).2.
Proof.
  intros Hwf Hi Hj Hij Ha Hb.
  destruct (wf_cell _ _ _ Hwf i Hi) as (a' & Ha' & Hai & Hax).
  destruct (wf_cell _ _ _ Hwf j Hj) as (b' & Hb' & Hbj & Hbx).
  assert (a' = a) as -> by congruence. assert (b' = b) as -> by congruence.
  split; [by apply exchange_wf|done|done| | |]; unfold exchange; simpl.
  - eauto using idx_steps.
  - intros p. rewrite !GetIndex_SetIndex. repeat case_decide; subst; dlia.
  - intros p Hp. rewrite !GetIndex_SetIndex. by rewrite !decide_False by congruence.
Qed.

(** [val] at a cell, and the sign of the comparison function. *)
Lemma val_get h s i p : aget (h_list h) i = Some p -> val h s i = HeapValue s p.
Proof. unfold val. by intros ->. Qed.

Lemma HeapValueCmp_neg s p q : HeapValueCmp s p q < 0 <-> HeapValue s p < HeapValue s q.
Proof. unfold HeapValueCmp. split_ifs; dlia. Qed.

Lemma HeapValueCmp_pos s p q : 0 < HeapValueCmp s p q <-> HeapValue s q < HeapValue s p.
Proof. unfold HeapValueCmp. split_ifs; dlia. Qed.

Lemma up_ok_ext v v' n pos : (forall i, v' i = v i) -> up_ok v n pos -> up_ok v' n pos.
Proof. intros E [H1 H2]. split; intros; rewrite !E; auto. Qed.

Lemma down_ok_ext v v' n pos : (forall i, v' i = v i) -> down_ok v n pos -> down_ok v' n pos.
Proof. intros E [H1 H2]. split; intros; rewrite !E; auto. Qed.

Lemma HeapUp_loop_spec x fuel h s pos :
  heap_wf_but x h s -> 1 <= pos <= h_count h -> (Z.to_nat pos <= fuel)%nat ->
  exists h' s', HeapUp_loop fuel h s pos = Some (h', s') /\ loop_post x h s h' s' /\
    (up_ok (val h s) (h_count h) pos -> heap_ordered h' s').
Proof.
  revert h s pos. induction fuel as [|fuel IH]; intros h s pos Hwf Hpos Hf; [dlia|].
  simpl. destruct (Z.ltb_spec 0 pos); [|dlia].
  destruct (Z.ltb_spec (pos / 2) 1) as [Hroot|Hroot].
  { exists h, s. split; [done|]. split; [by apply loop_post_refl|].
    intros Hup i Hi. eapply up_done; eauto. }
  destruct (wf_cell _ _ _ Hwf pos Hpos) as (a & Ha & Hai & _).
  destruct (wf_cell _ _ _ Hwf (pos / 2)) as (b & Hb & Hbi & _); [dlia|].
  rewrite Ha, Hb. simpl.
  destruct (Z.ltb_spec (HeapValueCmp s a b) 0) as [Hlt|Hge].
  - apply HeapValueCmp_neg in Hlt.
    assert (Hx := exchange_post x h s pos (pos / 2) a b Hwf ltac:(dlia) ltac:(dlia) ltac:(dlia) Ha Hb).
    set (e := exchange h s pos (pos / 2) a b) in *.
    destruct (IH e.1 e.2 (pos / 2)) as (h2 & s2 & Hrun & Hpost & Hord).
    { apply Hx. } { rewrite (lp_count _ _ _ _ _ Hx). dlia. } { dlia. }
    exists h2, s2. split; [exact Hrun|]. split; [by eapply loop_post_trans|].
    intros Hup. apply Hord. rewrite (lp_count _ _ _ _ _ Hx).
    eapply up_ok_ext; [|apply up_step; [dlia|exact Hup|by rewrite (val_get _ _ _ _ Ha), (val_get _ _ _ _ Hb)]].
    intros k. pose proof (wf_len _ _ _ Hwf). pose proof (wf_count _ _ _ Hwf).
    apply exchange_val; auto; dlia.
  - exists h, s. split; [done|]. split; [by apply loop_post_refl|].
    intros Hup i Hi. eapply up_done; eauto. right.
    assert (~ HeapValueCmp s a b < 0) as Hn by dlia.
    rewrite HeapValueCmp_neg in Hn. rewrite (val_get _ _ _ _ Ha), (val_get _ _ _ _ Hb). lia.
Qed.

Lemma min_son_spec x h s pos :
  heap_wf_but x h s -> 1 <= pos -> pos * 2 <= h_count h ->
  exists son, min_son h s pos = Some son /\
    2 <= son <= h_count h /\ son / 2 = pos /\ pos < son /\
    (forall i, 2 <= i <= h_count h -> i / 2 = pos -> val h s son <= val h s i).
Proof.
  intros Hwf Hpos Hn. unfold min_son.
  destruct (Z.eqb_spec (pos * 2) (h_count h)) as [He|Hne].
  - exists (pos * 2). repeat split; try dlia.
    intros i Hi Hi2. assert (i = pos * 2) as -> by dlia. lia.
  - destruct (wf_cell _ _ _ Hwf (pos * 2 + 1)) as (r & Hr & _ & _); [lia|].
    destruct (wf_cell _ _ _ Hwf (pos * 2)) as (l & Hl & _ & _); [lia|].
    rewrite Hr, Hl. simpl.
    pose proof (val_get _ s _ _ Hr) as Vr. pose proof (val_get _ s _ _ Hl) as Vl.
    pose proof (HeapValueCmp_neg s r l) as Hcmp.
    destruct (Z.ltb_spec (HeapValueCmp s r l) 0).
    + exists (pos * 2 + 1). repeat split; try dlia. intros i Hi Hi2.
      assert (i = pos * 2 \/ i = pos * 2 + 1) as [-> | ->] by dlia; lia.
    + exists (pos * 2). repeat split; try dlia. intros i Hi Hi2.
      assert (i = pos * 2 \/ i = pos * 2 + 1) as [-> | ->] by dlia; lia.
Qed.

Lemma HeapDown_loop_spec x fuel h s pos :
  heap_wf_but x h s -> 1 <= pos -> (Z.to_nat (h_count h + 1 - pos) < fuel)%nat ->
  exists h' s', HeapDown_loop fuel h s pos = Some (h', s') /\ loop_post x h s h' s' /\
    (down_ok (val h s) (h_count h) pos -> heap_ordered h' s').
Proof.
  revert h s pos. induction fuel as [|fuel IH]; intros h s pos Hwf Hpos Hf; [lia|].
  simpl. destruct (Z.leb_spec pos (h_count h)) as [Hle|Hgt].
  2:{ exists h, s. split; [done|]. split; [by apply loop_post_refl|].
      intros Hd i Hi. eapply down_done; eauto. intros; dlia. }
  destruct (Z.ltb_spec (h_count h) (pos * 2)) as [Hleaf|Hnl].
  { exists h, s. split; [done|]. split; [by apply loop_post_refl|].
    intros Hd i Hi. eapply down_done; eauto. intros; dlia. }
  destruct (min_son_spec x h s pos) as (son & Hsel & Hson & Hhalf & Hgt & Hmin); [done..|].
  rewrite Hsel. simpl.
  destruct (wf_cell _ _ _ Hwf pos) as (a & Ha & Hai & _); [lia|].
  destruct (wf_cell _ _ _ Hwf son) as (b & Hb & Hbi & _); [lia|].
  rewrite Ha, Hb. simpl.
  pose proof (HeapValueCmp_pos s a b) as Hcmp.
  rewrite <- (val_get _ _ _ _ Ha), <- (val_get _ _ _ _ Hb) in Hcmp.
  destruct (Z.ltb_spec 0 (HeapValueCmp s a b)) as [Hlt|Hge].
  - assert (Hx := exchange_post x h s son pos b a Hwf ltac:(lia) ltac:(lia) ltac:(lia) Hb Ha).
    set (e := exchange h s son pos b a) in *.
    destruct (IH e.1 e.2 son) as (h2 & s2 & Hrun & Hpost & Hord).
    { apply Hx. } { lia. } { rewrite (lp_count _ _ _ _ _ Hx). lia. }
    exists h2, s2. split; [exact Hrun|]. split; [by eapply loop_post_trans|].
    intros Hd. apply Hord. rewrite (lp_count _ _ _ _ _ Hx).
    eapply down_ok_ext; [|eapply (down_step (val h s)); [| |exact Hhalf|exact Hmin| |exact Hd]; lia].
    intros k. pose proof (wf_len _ _ _ Hwf). pose proof (wf_count _ _ _ Hwf).
    apply exchange_val; auto; lia.
  - exists h, s. split; [done|]. split; [by apply loop_post_refl|].
    intros Hd i Hi. eapply down_done; eauto.
    intros k Hk Hk2. specialize (Hmin k Hk Hk2). lia.
Qed.
End loops.

(** ** The operations *)

Section specs.
Context {St : Type} `{!HeapStore St}.
Implicit Types (h : HeapList) (s : St) (p q item : ptr).

(** The elements of the heap, as the abstract priority set sees them. *)
Definition in_heap s p : Prop := GetIndex s p <> 0.

Lemma new_HeapList_wf max s : (forall p, GetIndex s p = 0) -> heap_wf (new_HeapList max) s.
Proof.
  intros Hs. unfold new_HeapList. split; simpl.
  - unfold alen. rewrite length_replicate. split_ifs; lia.
  - split_ifs; lia.
  - intros; lia.
  - intros. apply aget_replicate.
  - intros p _ Hp. by rewrite Hs in Hp.
Qed.

Lemma push_wf h s item :
  heap_wf h s -> h_count h < h_max h -> GetIndex s item = 0 ->
  heap_wf (mkHeapList (aset (h_list h) (h_count h + 1) (Some item)) (h_max h) (h_count h + 1))
    (SetIndex item (h_count h + 1) s).
Proof.
  intros [Hl Hc Hcell Hnull Hidx] Hlt H0. split; simpl.
  - by rewrite alen_aset.
  - lia.
  - intros i Hi. destruct (decide (i = h_count h + 1)) as [->|Hne].
    + exists item. rewrite aget_aset_eq by lia. by rewrite GetIndex_SetIndex_eq.
    + destruct (Hcell i) as (p & Hp & Hpi & _); [lia|]. exists p.
      rewrite aget_aset_ne by lia. rewrite GetIndex_SetIndex_ne; [done|]. intros ->. lia.
  - intros i Hi. rewrite aget_aset_ne by lia. apply Hnull. lia.
  - intros p _. rewrite GetIndex_SetIndex. case_decide as E; [subst|].
    + intros _. rewrite aget_aset_eq by lia. split; [lia|done].
    + intros Hp. destruct (Hidx p) as [? ?]; [done..|].
      rewrite aget_aset_ne by lia. split; [lia|done].
Qed.

Lemma push_val h s item i :
  heap_wf h s -> h_count h < h_max h -> 1 <= i <= h_count h ->
  val (mkHeapList (aset (h_list h) (h_count h + 1) (Some item)) (h_max h) (h_count h + 1))
    (SetIndex item (h_count h + 1) s) i = val h s i.
Proof.
  intros Hwf Hlt Hi. unfold val; simpl. rewrite aget_aset_ne by lia.
  destruct (aget _ _); [by rewrite HeapValue_SetIndex|done].
Qed.

(** [HeapPush] on every branch; the heap order is kept when it holds. *)
Lemma HeapPush_spec h s item :
  heap_wf h s ->
  exists rc h' s', HeapPush h s item = Some (rc, h', s') /\
    heap_wf h' s' /\ (heap_ordered h s -> heap_ordered h' s') /\ idx_steps s s' /\
    h_max h' = h_max h /\
    ((rc = -1 /\ h_count h = h_max h /\ h' = h /\ s' = s) \/
     (rc = -2 /\ h_count h < h_max h /\ in_heap s item /\ h' = h /\ s' = s) \/
     (rc = 0 /\ h_count h < h_max h /\ ~ in_heap s item /\ h_count h' = h_count h + 1 /\
      forall p, in_heap s' p <-> p = item \/ in_heap s p)).
Proof.
  intros Hwf. unfold HeapPush, HeapFull, in_heap. pose proof (wf_count _ _ _ Hwf).
  destruct (Z.leb_spec (h_max h) (h_count h)) as [Hfull|Hfree].
  { exists (-1), h, s. split_and!; auto using idx_refl. left. split_and!; auto. lia. }
  destruct (Z.eqb_spec (GetIndex s item) 0) as [H0|Hin]; simpl.
  2:{ exists (-2), h, s. split_and!; auto 7 using idx_refl. }
  unfold HeapUp; cbn [h_count].
  destruct (HeapUp_loop_spec None (S (Z.to_nat (h_count h + 1))) _ _ (h_count h + 1)
    (push_wf h s item Hwf Hfree H0)) as (h' & s' & Hrun & Hpost & Hord); [simpl; lia..|].
  rewrite Hrun. simpl. exists 0, h', s'. split; [done|]. split; [apply Hpost|].
  split; [|split; [|split]].
  - intros Ho. apply Hord. split; simpl; intros i Hi; [|dlia].
    intros Hne. rewrite !push_val by (auto; dlia). apply Ho. lia.
  - eapply idx_step. apply Hpost.
  - apply (lp_max _ _ _ _ _ Hpost).
  - right; right. split; [done|]. split; [lia|]. split; [lia|].
    split; [apply (lp_count _ _ _ _ _ Hpost)|].
    intros p. rewrite (lp_mem _ _ _ _ _ Hpost), GetIndex_SetIndex.
    case_decide; subst.
    + split; [by left|]. intros _. lia.
    + split; [by right|]. by intros [-> | ?].
Qed.

(** Filling position [pos] with the last element, as [HeapPop] (at 1) and
    [HeapDelete] do before they reorder. *)
Definition fill_hole h (pos : Z) (last : ptr) : HeapList :=
  mkHeapList (aset (aset (h_list h) pos (Some last)) (h_count h) None) (h_max h) (h_count h - 1).

Lemma fill_hole_get h s pos last i :
  heap_wf h s -> 1 <= pos <= h_count h -> aget (h_list h) (h_count h) = Some last ->
  aget (h_list (fill_hole h pos last)) i =
    if decide (i = h_count h) then None
    else if decide (i = pos) then Some last else aget (h_list h) i.
Proof.
  intros Hwf Hpos Hlast. pose proof (wf_len _ _ _ Hwf). pose proof (wf_count _ _ _ Hwf).
  simpl. case_decide; subst; [apply aget_aset_eq; rewrite alen_aset; lia|].
  rewrite aget_aset_ne by lia. case_decide; subst; [apply aget_aset_eq; lia|].
  by rewrite aget_aset_ne by lia.
Qed.

Lemma fill_hole_wf h s pos del last :
  heap_wf h s -> 1 <= pos <= h_count h ->
  aget (h_list h) pos = Some del -> aget (h_list h) (h_count h) = Some last ->
  heap_wf_but (Some del) (fill_hole h pos last) (SetIndex last pos s).
Proof.
  intros Hwf Hpos Hdel Hlast.
  pose proof (fun i => fill_hole_get h s pos last i Hwf Hpos Hlast) as Hg.
  destruct (wf_cell _ _ _ Hwf pos Hpos) as (d' & Hd' & Hdi & _).
  destruct (wf_cell _ _ _ Hwf (h_count h)) as (l' & Hl' & Hli & _); [lia|].
  assert (d' = del) as -> by congruence. assert (l' = last) as -> by congruence.
  pose proof (wf_count _ _ _ Hwf). split; try setoid_rewrite Hg; simpl.
  - rewrite !alen_aset. apply (wf_len _ _ _ Hwf).
  - lia.
  - intros i Hi. rewrite decide_False by lia. case_decide as E; [subst i|].
    + exists last. rewrite GetIndex_SetIndex_eq. split_and!; [done..|].
      intros [= ->]. lia.
    + destruct (wf_cell _ _ _ Hwf i) as (p & Hp & Hpi & _); [lia|]. exists p.
      rewrite GetIndex_SetIndex_ne by (intros ->; lia). split_and!; [done..|].
      intros [= ->]. lia.
  - intros i Hi. case_decide; [done|]. rewrite decide_False by lia.
    apply (wf_null _ _ _ Hwf). lia.
  - intros p Hpd. rewrite GetIndex_SetIndex. case_decide as E; [subst p|].
    + intros _. assert (pos <> h_count h) by (intros ->; congruence).
      rewrite decide_False by done. rewrite decide_True by done. split; [lia|done].
    + intros Hp. destruct (wf_index _ _ _ Hwf p) as [Hr Hgp]; [done..|].
      assert (GetIndex s p <> h_count h) by congruence.
      rewrite !decide_False by congruence. split; [lia|done].
Qed.

Lemma fill_hole_val h s pos last i :
  heap_wf h s -> 1 <= pos <= h_count h -> aget (h_list h) (h_count h) = Some last ->
  1 <= i < h_count h ->
  val (fill_hole h pos last) (SetIndex last pos s) i =
    val h s (if decide (i = pos) then h_count h else i).
Proof.
  intros Hwf Hpos Hlast Hi. unfold val. rewrite (fill_hole_get h s) by done.
  rewrite decide_False by lia. destruct (decide (i = pos)) as [->|Hne].
  - by rewrite Hlast, HeapValue_SetIndex.
  - destruct (aget (h_list h) i); [by rewrite HeapValue_SetIndex|done].
Qed.

Lemma reset_wf h s del : heap_wf_but (Some del) h s -> heap_wf h (SetIndex del 0 s).
Proof.
  intros [? ? Hc ? Hi]. split; [done..| | |].
  - intros i Hr. destruct (Hc i Hr) as (p & ? & ? & Hpd). exists p.
    rewrite GetIndex_SetIndex_ne by congruence. done.
  - done.
  - intros p _. rewrite GetIndex_SetIndex. case_decide; [done|]. apply Hi. congruence.
Qed.

(** The parent of [pos] is not larger than the last element: the condition under
    which moving the last element down from [pos] restores the order. *)
Definition hole_ok h s (pos : Z) : Prop := 2 <= pos -> val h s (pos / 2) <= val h s (h_count h).

Lemma fill_hole_down_ok h s pos last :
  heap_wf h s -> 1 <= pos <= h_count h -> aget (h_list h) (h_count h) = Some last ->
  heap_ordered h s -> hole_ok h s pos ->
  down_ok (val (fill_hole h pos last) (SetIndex last pos s)) (h_count h - 1) pos.
Proof.
  intros Hwf Hpos Hlast Ho Hh.
  split; intros i Hi Hip; [|intros Hp2]; rewrite !(fill_hole_val h s) by (auto; dlia).
  - rewrite (decide_False (P := i / 2 = pos)) by done. case_decide as E.
    + subst i. apply Hh. lia.
    + apply Ho. lia.
  - rewrite !decide_False by dlia. transitivity (val h s pos).
    + apply Ho. lia.
    + rewrite <- Hip. apply Ho. lia.
Qed.

(** The shared core of [HeapPop] and [HeapDelete]. *)
Lemma remove_spec h s pos del last :
  heap_wf h s -> 1 <= pos <= h_count h ->
  aget (h_list h) pos = Some del -> aget (h_list h) (h_count h) = Some last ->
  exists h' s', HeapDown (fill_hole h pos last) (SetIndex last pos s) pos = Some (h', s') /\
    heap_wf h' (SetIndex del 0 s') /\ idx_steps s (SetIndex del 0 s') /\
    h_max h' = h_max h /\ h_count h' = h_count h - 1 /\
    (forall p, in_heap (SetIndex del 0 s') p <-> p <> del /\ in_heap s p) /\
    (heap_ordered h s -> hole_ok h s pos -> heap_ordered h' (SetIndex del 0 s')).
Proof.
  intros Hwf Hpos Hdel Hlast. unfold HeapDown.
  destruct (HeapDown_loop_spec (Some del) (S (Z.to_nat (h_count (fill_hole h pos last) + 1 - pos)))
    _ _ pos (fill_hole_wf h s pos del last Hwf Hpos Hdel Hlast)) as (h' & s' & Hrun & Hpost & Hord);
    [lia|simpl; lia|].
  destruct (wf_cell _ _ _ Hwf (h_count h)) as (l' & Hl' & Hli & _); [lia|].
  assert (l' = last) as -> by congruence.
  exists h', s'. split; [done|]. split_and!.
  - apply reset_wf, Hpost.
  - eapply idx_steps_trans; [eapply idx_step; apply Hpost|]. eauto using idx_steps.
  - apply (lp_max _ _ _ _ _ Hpost).
  - apply (lp_count _ _ _ _ _ Hpost).
  - intros p. unfold in_heap. rewrite GetIndex_SetIndex. case_decide; subst; [tauto|].
    rewrite (lp_mem _ _ _ _ _ Hpost), GetIndex_SetIndex. case_decide; subst.
    + split; [|lia]. intros _. split; [congruence|lia].
    + split; [|tauto]. intros ?. split; [congruence|done].
  - intros Ho Hh. assert (Ho' : heap_ordered h' s')
      by (apply Hord; by apply fill_hole_down_ok).
    intros i Hi. specialize (Ho' i Hi). revert Ho'. unfold val.
    destruct (aget _ (i / 2)), (aget _ i); by rewrite ?HeapValue_SetIndex.
Qed.

(** [HeapPop] on both branches. *)
Lemma HeapPop_spec h s :
  heap_wf h s ->
  exists r h' s', HeapPop h s = Some (r, h', s') /\
    heap_wf h' s' /\ (heap_ordered h s -> heap_ordered h' s') /\ idx_steps s s' /\
    h_max h' = h_max h /\
    match r with
    | None => h_count h = 0 /\ h' = h /\ s' = s
    | Some top => aget (h_list h) 1 = Some top /\ h_count h' = h_count h - 1 /\
        forall p, in_heap s' p <-> p <> top /\ in_heap s p
    end.
Proof.
  intros Hwf. unfold HeapPop, HeapEmpty. pose proof (wf_count _ _ _ Hwf).
  destruct (Z.eqb_spec (h_count h) 0) as [H0|Hne].
  { exists None, h, s. split_and!; auto using idx_refl. }
  destruct (wf_cell _ _ _ Hwf 1) as (top & Htop & _); [lia|].
  destruct (wf_cell _ _ _ Hwf (h_count h)) as (last & Hlast & _); [lia|].
  rewrite Htop, Hlast. cbn [mbind option_bind].
  destruct (remove_spec h s 1 top last Hwf) as (h' & s' & Hrun & ? & ? & ? & ? & ? & Hord); [lia|done..|].
  unfold fill_hole in Hrun. rewrite Hrun. simpl.
  exists (Some top), h', (SetIndex top 0 s'). split_and!; auto.
  intros Ho. apply Hord; [done|]. intros ?; lia.
Qed.

(** [HeapDelete] on every branch.  The order survives when the last element is
    not smaller than the parent of the hole. *)
Lemma HeapDelete_spec h s item :
  heap_wf h s ->
  exists rc h' s', HeapDelete h s item = Some (rc, h', s') /\
    heap_wf h' s' /\ idx_steps s s' /\ h_max h' = h_max h /\
    (heap_ordered h s -> hole_ok h s (GetIndex s item) -> heap_ordered h' s') /\
    ((rc < 0 /\ ~ in_heap s item /\ h' = h /\ s' = s /\ (rc = -1 <-> h_count h = 0) /\
      (rc = -1 \/ rc = -2)) \/
     (rc = 0 /\ in_heap s item /\ h_count h' = h_count h - 1 /\
      forall p, in_heap s' p <-> p <> item /\ in_heap s p)).
Proof.
  intros Hwf. unfold HeapDelete, HeapEmpty. pose proof (wf_count _ _ _ Hwf) as Hcnt.
  assert (Hin : in_heap s item <-> 1 <= GetIndex s item <= h_count h).
  { split; [|unfold in_heap; lia]. intros Hp. by apply (wf_index _ _ _ Hwf). }
  destruct (Z.eqb_spec (h_count h) 0) as [H0|Hne].
  { exists (-1), h, s. split_and!; auto using idx_refl. left. rewrite Hin. split_and!; auto; lia. }
  destruct (Z.ltb_spec (h_count h) (GetIndex s item)); simpl.
  { exists (-2), h, s. split_and!; auto using idx_refl. left. rewrite Hin. split_and!; auto; lia. }
  destruct (Z.leb_spec (GetIndex s item) 0); simpl.
  { exists (-2), h, s. split_and!; auto using idx_refl. left. rewrite Hin. split_and!; auto; lia. }
  destruct (wf_index _ _ _ Hwf item) as [_ Hitem]; [done|lia|].
  destruct (wf_cell _ _ _ Hwf (h_count h)) as (last & Hlast & _); [lia|].
  rewrite Hitem, Hlast. cbn [mbind option_bind].
  destruct (remove_spec h s (GetIndex s item) item last Hwf)
    as (h' & s' & Hrun & ? & ? & ? & ? & ? & Hord); [lia|done..|].
  unfold fill_hole in Hrun. rewrite Hrun. simpl.
  exists 0, h', (SetIndex item 0 s'). split_and!; auto.
  right. split_and!; auto. apply Hin. lia.
Qed.

(** In an ordered heap the root is minimal. *)
Lemma root_min h s i : heap_ordered h s -> 1 <= i <= h_count h -> val h s 1 <= val h s i.
Proof.
  intros Ho. revert i. apply (well_founded_induction (Z.lt_wf 1) (fun i =>
    1 <= i <= h_count h -> val h s 1 <= val h s i)).
  intros i IH Hi. destruct (decide (i = 1)) as [->|]; [lia|].
  transitivity (val h s (i / 2)); [|apply Ho; lia].
  apply IH; dlia.
Qed.

Lemma in_heap_val h s p : heap_wf h s -> in_heap s p ->
  1 <= GetIndex s p <= h_count h /\ val h s (GetIndex s p) = HeapValue s p.
Proof.
  intros Hwf Hp. destruct (wf_index _ _ _ Hwf p) as [Hr Hg]; [done..|].
  split; [done|]. unfold val. by rewrite Hg.
Qed.

Lemma HeapTop_spec h s :
  heap_wf h s -> heap_ordered h s ->
  match HeapTop h with
  | None => forall p, ~ in_heap s p
  | Some t => in_heap s t /\ forall p, in_heap s p -> HeapValue s t <= HeapValue s p
  end.
Proof.
  intros Hwf Ho. unfold HeapTop. pose proof (wf_count _ _ _ Hwf).
  destruct (Z.ltb_spec 0 (h_count h)).
  - destruct (wf_cell _ _ _ Hwf 1) as (t & Ht & Hti & _); [lia|]. rewrite Ht.
    split; [unfold in_heap; lia|]. intros p Hp.
    destruct (in_heap_val h s p Hwf Hp) as [Hr <-].
    rewrite <- (val_get h s 1 t Ht). by apply root_min.
  - intros p Hp. destruct (in_heap_val h s p Hwf Hp). lia.
Qed.

(** Growing keeps the heap; shrinking and a failed allocation change nothing. *)
Lemma HeapResize_spec h s size ok :
  heap_wf h s ->
  let r := HeapResize h size ok in
  heap_wf r.2 s /\ (heap_ordered h s -> heap_ordered r.2 s) /\
  h_count r.2 = h_count h /\ (r.1 = 0 -> Z.max (h_max h) size = h_max r.2) /\
  (r.1 < 0 -> r.2 = h).
Proof.
  intros Hwf. unfold HeapResize. pose proof (wf_count _ _ _ Hwf) as Hc.
  pose proof (wf_len _ _ _ Hwf) as Hl.
  destruct (Z.leb_spec size (h_max h)); simpl; [split_and!; auto; lia|].
  destruct ok; simpl; [|split_and!; auto; lia].
  assert (Hg : forall i, aget (h_list h ++ replicate (Z.to_nat (size - h_max h)) None) i
                         = aget (h_list h) i).
  { intros i. destruct (Z.lt_ge_cases i (alen (h_list h))); [by apply aget_app_l|].
    rewrite aget_app_r, aget_replicate, aget_oob by lia. done. }
  split_and!; [|intros Ho i Hi; unfold val; simpl; rewrite !Hg; by apply Ho|done|lia|lia].
  split; simpl; [|lia|setoid_rewrite Hg; apply Hwf..].
  unfold alen in *. rewrite length_app, length_replicate. lia.
Qed.
End specs.

(** ** A concrete store of heap entries *)

(** [class HeapEntry] with a subclass that answers [HeapValue] from a field. *)
Record HeapEntry := mkHeapEntry { he_index : Z; he_value : Z }.

Definition entry_of (s : gmap ptr HeapEntry) (p : ptr) : HeapEntry :=
  default (mkHeapEntry 0 0) (s !! p).

#[export] Instance entry_store : HeapStore (gmap ptr HeapEntry).
Proof.
  refine {|
    HeapValue s p := he_value (entry_of s p);
    GetIndex s p := he_index (entry_of s p);
    SetIndex p i s := <[p := mkHeapEntry i (he_value (entry_of s p))]> s |};
  intros; unfold entry_of.
  - by rewrite lookup_insert_eq.
  - by rewrite lookup_insert_ne.
  - rewrite lookup_insert. case_decide; by subst.
Defined.

(** A store with the given keys, nothing in a heap. *)
Definition entries (l : list (ptr * Z)) : gmap ptr HeapEntry :=
  list_to_map (prod_map id (mkHeapEntry 0) <$> l).

(** Push the given elements in order. *)
Fixpoint push_all {St} `{!HeapStore St} (h : HeapList) (s : St) (l : list ptr) : option (HeapList * St) :=
  match l with
  | [] => Some (h, s)
  | p :: l => '(_, h', s') ← HeapPush h s p; push_all h' s' l
  end.

Lemma push_all_wf {St} `{!HeapStore St} (h : HeapList) (s : St) l :
  heap_wf h s -> heap_ordered h s ->
  exists h' s', push_all h s l = Some (h', s') /\ heap_wf h' s' /\ heap_ordered h' s'.
Proof.
  revert h s. induction l as [|p l IH]; intros h s Hwf Ho; [by exists h, s|].
  destruct (HeapPush_spec h s p Hwf) as (rc & h1 & s1 & E & Hwf1 & Ho1 & _).
  simpl. rewrite E. simpl. by apply IH; auto.
Qed.

(** Keys for the examples: seven elements whose last one is smaller than the
    parent of position 4; an eighth stays outside. *)
Definition sample_store : gmap ptr HeapEntry :=
  entries [(1%positive, 1); (2%positive, 100); (3%positive, 2); (4%positive, 110);
           (5%positive, 120); (6%positive, 3); (7%positive, 4); (8%positive, 5)].

Definition sample_heap : option (HeapList * gmap ptr HeapEntry) :=
  push_all (new_HeapList 16) sample_store
    [1%positive; 2%positive; 3%positive; 4%positive; 5%positive; 6%positive; 7%positive].

Lemma sample_fresh : forall p, GetIndex sample_store p = 0.
Proof.
  intros p. unfold sample_store, entries. simpl. unfold entry_of.
  rewrite !lookup_insert. repeat (case_decide; [done|]). done.
Qed.

Lemma new_ordered {St} `{!HeapStore St} max (s : St) : heap_ordered (new_HeapList max) s.
Proof. intros i Hi. simpl in Hi. lia. Qed.

Lemma run_det {A B} (r : option (A * B)) x y x' y' : r = Some (x, y) -> r = Some (x', y') -> x = x' /\ y = y'.
Proof. intros -> E. by injection E. Qed.

Lemma sample_ok h s : sample_heap = Some (h, s) -> heap_wf h s /\ heap_ordered h s.
Proof.
  intros E.
  destruct (push_all_wf (new_HeapList 16) sample_store
    [1%positive; 2%positive; 3%positive; 4%positive; 5%positive; 6%positive; 7%positive])
    as (h' & s' & E' & Hwf & Hord).
  - apply new_HeapList_wf, sample_fresh.
  - apply new_ordered.
  - destruct (run_det _ _ _ _ _ E E') as [-> ->]. exact (conj Hwf Hord).
Qed.

(** ** The theorems about the heap *)

Section claims.
Context {St : Type} `{!HeapStore St}.

(** C19: [HeapPush] implements insertion into a bounded priority set.  On a
    well-formed, ordered heap it never dereferences [NULL] or leaves the array,
    keeps both invariants and changes positions only; it answers -1 exactly when
    the heap is full, -2 exactly when the element is already in, and otherwise 0
    with the element set grown by exactly that element. *)
Theorem HeapPush_refines_insert (h : HeapList) (s : St) (item : ptr) :
  heap_wf h s -> heap_ordered h s ->
  exists rc h' s', HeapPush h s item = Some (rc, h', s') /\
    heap_wf h' s' /\ heap_ordered h' s' /\
    (forall p, HeapValue s' p = HeapValue s p) /\
    rc = (if h_max h <=? h_count h then -1 else if GetIndex s item =? 0 then 0 else -2) /\
    (rc <> 0 -> h' = h /\ s' = s) /\
    (rc = 0 -> HeapSize h' = HeapSize h + 1 /\
       forall p, in_heap s' p <-> p = item \/ in_heap s p).
Proof.
  intros Hwf Ho.
  destruct (HeapPush_spec h s item Hwf) as (rc & h' & s' & E & ? & ? & Hidx & _ & Hrc).
  exists rc, h', s'. unfold in_heap in *.
  split_and!; auto using idx_steps_value.
  - destruct Hrc as [(-> & ? & _)|[(-> & ? & ? & _)|(-> & ? & ? & _)]]; split_ifs; lia.
  - intros ?. destruct Hrc as [(-> & ? & ?)|[(-> & ? & ? & ?)|(-> & _)]]; tauto.
  - intros ->. destruct Hrc as [(? & _)|[(? & _)|(_ & _ & _ & Hc & Hm)]]; [lia..|]. done.
Qed.

(** C23: [HeapPop] implements extract-min.  On a well-formed, ordered heap it
    returns [NULL] exactly on the empty heap; otherwise it returns an element of
    minimal key, removes exactly that element, resets its position to 0 and keeps
    both invariants. *)
Theorem HeapPop_extracts_min (h : HeapList) (s : St) :
  heap_wf h s -> heap_ordered h s ->
  exists r h' s', HeapPop h s = Some (r, h', s') /\
    heap_wf h' s' /\ heap_ordered h' s' /\
    (forall p, HeapValue s' p = HeapValue s p) /\
    match r with
    | None => HeapSize h = 0 /\ h' = h /\ s' = s
    | Some top => in_heap s top /\ (forall p, in_heap s p -> HeapValue s top <= HeapValue s p) /\
        GetIndex s' top = 0 /\ HeapSize h' = HeapSize h - 1 /\
        forall p, in_heap s' p <-> p <> top /\ in_heap s p
    end.
Proof.
  intros Hwf Ho.
  destruct (HeapPop_spec h s Hwf) as (r & h' & s' & E & ? & ? & Hidx & _ & Hr).
  exists r, h', s'. split_and!; auto using idx_steps_value.
  destruct r as [top|]; [|done]. destruct Hr as (Ht & Hc & Hm).
  pose proof (HeapTop_spec h s Hwf Ho) as Hmin. unfold HeapTop in Hmin.
  pose proof (aget_Some_range _ _ _ Ht). pose proof (wf_len _ _ _ Hwf).
  destruct (Z.ltb_spec 0 (h_count h)) as [Hpos|Hneg].
  - rewrite Ht in Hmin. destruct Hmin as [Hin Hmin]. split_and!; auto.
    destruct (Z.eq_dec (GetIndex s' top) 0); [done|]. by apply Hm in n as [? _].
  - rewrite (wf_null _ _ _ Hwf 1) in Ht by lia. done.
Qed.

(** [HeapDelete] removes exactly the given element and never dereferences
    [NULL] or leaves the array on any well-formed heap: -1 on the empty heap, -2
    for an element that is not in it, otherwise 0, with every element knowing
    its position afterwards.  The heap order is kept when the last element is not
    smaller than the parent of the freed position. *)
Theorem HeapDelete_removes (h : HeapList) (s : St) (item : ptr) :
  heap_wf h s ->
  exists rc h' s', HeapDelete h s item = Some (rc, h', s') /\
    heap_wf h' s' /\ (forall p, HeapValue s' p = HeapValue s p) /\
    rc = (if h_count h =? 0 then -1 else if GetIndex s item =? 0 then -2 else 0) /\
    (forall p, in_heap s' p <-> p <> item /\ in_heap s p) /\
    (heap_ordered h s -> hole_ok h s (GetIndex s item) -> heap_ordered h' s').
Proof.
  intros Hwf.
  destruct (HeapDelete_spec h s item Hwf) as (rc & h' & s' & E & ? & Hidx & _ & Ho & Hrc).
  exists rc, h', s'. unfold in_heap in *.
  split_and!; auto using idx_steps_value.
  - destruct Hrc as [(? & ? & _ & _ & ? & ?)|(-> & ? & Hc & _)]; split_ifs; try lia.
    pose proof (wf_count _ _ _ Hwf). pose proof (wf_index _ _ _ Hwf item) as Hi.
    destruct Hi; [done|lia|lia].
  - destruct Hrc as [(_ & Hn & _ & -> & _)|(_ & _ & _ & Hm)]; [|done].
    intros p. split; [|tauto]. intros Hp. split; [|done]. by intros ->.
Qed.
End claims.

(** Removing an element from the middle can break the heap order.  Pushing
    keys 1, 100, 2, 110, 120, 3, 4 and deleting the element of key 110 puts key 4
    below key 100; the heap is still structurally sound, but an element is
    smaller than its parent, because the code moves the replacement down and
    never up. *)
Theorem HeapDelete_can_break_order :
  exists h s h' s', sample_heap = Some (h, s) /\ heap_wf h s /\ heap_ordered h s /\
    HeapDelete h s 4%positive = Some (0, h', s') /\ ~ heap_ordered h' s'.
Proof.
  destruct sample_heap as [[h s]|] eqn:E; [|by vm_compute in E].
  destruct (sample_ok h s E) as [Hwf Ho].
  vm_compute in E. simplify_eq.
  eexists _, _, _, _. split_and!; [reflexivity|exact Hwf|exact Ho|vm_compute; reflexivity|].
  intros Hbad. specialize (Hbad 4 ltac:(vm_compute; split; discriminate)).
  vm_compute in Hbad. by apply Hbad.
Qed.

Lemma HeapPush_refines_insert_witness :
  exists h s rc h' s', sample_heap = Some (h, s) /\
    HeapPush h s 8%positive = Some (rc, h', s') /\ rc = 0 /\ heap_ordered h' s'.
Proof.
  destruct sample_heap as [[h s]|] eqn:E; [|by vm_compute in E].
  destruct (sample_ok h s E) as [Hwf Ho].
  destruct (HeapPush_refines_insert h s 8%positive Hwf Ho)
    as (rc & h' & s' & Hrun & _ & Ho' & _ & Hrc & _).
  exists h, s, rc, h', s'. split; [reflexivity|]. split; [exact Hrun|]. split; [|exact Ho'].
  vm_compute in E. injection E as <- <-. exact Hrc.
Defined.

Lemma HeapPop_extracts_min_witness :
  exists h s h' s', sample_heap = Some (h, s) /\
    HeapPop h s = Some (Some 1%positive, h', s') /\ heap_ordered h' s'.
Proof.
  destruct sample_heap as [[h s]|] eqn:E; [|by vm_compute in E].
  destruct (sample_ok h s E) as [Hwf Ho].
  destruct (HeapPop_extracts_min h s Hwf Ho) as (r & h' & s' & Hrun & _ & Ho' & _).
  assert (r = Some 1%positive) as ->.
  { vm_compute in E. injection E as <- <-. vm_compute in Hrun. by injection Hrun. }
  exists h, s, h', s'. split; [reflexivity|]. split; [exact Hrun|exact Ho'].
Defined.

Lemma HeapDelete_removes_witness :
  exists h s h' s', sample_heap = Some (h, s) /\
    HeapDelete h s 5%positive = Some (0, h', s') /\ ~ in_heap s' 5%positive.
Proof.
  destruct sample_heap as [[h s]|] eqn:E; [|by vm_compute in E].
  destruct (sample_ok h s E) as [Hwf Ho].
  destruct (HeapDelete_removes h s 5%positive Hwf) as (rc & h' & s' & Hrun & _ & _ & Hrc & Hm & _).
  assert (rc = 0) as ->.
  { vm_compute in E. injection E as <- <-. exact Hrc. }
  exists h, s, h', s'. split; [reflexivity|]. split; [exact Hrun|].
  intros Hp. by apply Hm in Hp as [? _].
Defined.

(** ** Reuse by other components *)

(** Well-formedness depends on the positions only. *)
Lemma heap_wf_ext {St St'} `{!HeapStore St} `{!HeapStore St'} h (s : St) (s' : St') :
  (forall p, GetIndex s' p = GetIndex s p) -> heap_wf h s -> heap_wf h s'.
Proof.
  intros E [? ? Hc ? Hi]. split; [done..| | |].
  - intros i Hr. destruct (Hc i Hr) as (p & ? & ? & ?). exists p. by rewrite E.
  - done.
  - intros p Hp. rewrite E. by apply Hi.
Qed.

(** The elements of a heap are at most as many as any finite set that contains them. *)
Lemma heap_count_le {St} `{!HeapStore St} h (s : St) (A : gset ptr) :
  heap_wf h s -> (forall p, in_heap s p -> p ∈ A) -> h_count h <= Z.of_nat (size A).
Proof.
  intros Hwf HA. pose proof (wf_count _ _ _ Hwf) as Hc.
  set (g := fun i => default 1%positive (aget (h_list h) i)).
  set (l := g <$> seqZ 1 (h_count h)).
  assert (Hnd : NoDup l).
  { apply NoDup_fmap_2_strong; [|apply NoDup_seqZ]. unfold g.
    intros i j Hi%elem_of_seqZ Hj%elem_of_seqZ.
    destruct (wf_cell _ _ _ Hwf i) as (p & -> & Hp & _); [lia|].
    destruct (wf_cell _ _ _ Hwf j) as (q & -> & Hq & _); [lia|]. simpl. intros ->. lia. }
  assert (Hsub : list_to_set l ⊆ A).
  { intros p [i [-> Hi%elem_of_seqZ]]%elem_of_list_to_set%list_elem_of_fmap.
    apply HA. unfold g. destruct (wf_cell _ _ _ Hwf i) as (p & -> & Hp & _); [lia|].
    simpl. unfold in_heap. lia. }
  apply subseteq_size in Hsub. rewrite size_list_to_set in Hsub by done.
  unfold l in Hsub. rewrite length_fmap, length_seqZ in Hsub. lia.
Qed.
