(* ===== verification/HeapTimer.v ===== *)
(** * Timers on the heap

    Models [src/src/sync_frame/micro_thread/heap_timer.h] and [heap_timer.cpp]:
    [CTimerNotify] objects ordered by their absolute expiry time and the manager
    [CTimerMng] with [start_timer], [stop_timer] and [check_expired].

    The clock ([MtFrame::GetLastClock]) is an argument of the operations, and the
    virtual [timer_notify] of the timers is a parameter of [check_expired]. *)

From Stdlib Require Import ZArith Lia Sorting.Sorted.
From stdpp Require Import base gmap list option.
From S2P Require Import Prelude Heap.

(** [class CTimerNotify : public HeapEntry]. *)
Record CTimerNotify := mkTimer { t_index : Z; t_time_expired : Z }.

Definition timer_of (s : gmap ptr CTimerNotify) (p : ptr) : CTimerNotify :=
  default (mkTimer 0 0) (s !! p).

Definition get_expired_time (s : gmap ptr CTimerNotify) (p : ptr) : Z :=
  t_time_expired (timer_of s p).

Definition set_expired_time (p : ptr) (expired : Z) (s : gmap ptr CTimerNotify) : gmap ptr CTimerNotify :=
  <[p := mkTimer (t_index (timer_of s p)) expired]> s.

(** [CTimerNotify::HeapValue] is the expiry time. *)
#[export] Instance timer_heap_store : HeapStore (gmap ptr CTimerNotify).
Proof.
  refine {|
    HeapValue s p := get_expired_time s p;
    GetIndex s p := t_index (timer_of s p);
    SetIndex p i s := <[p := mkTimer i (get_expired_time s p)]> s |};
  intros; unfold get_expired_time, timer_of.
  - by rewrite lookup_insert_eq.
  - by rewrite lookup_insert_ne.
  - rewrite lookup_insert. case_decide; by subst.
Defined.

Lemma GetIndex_set_expired p q e (s : gmap ptr CTimerNotify) :
  GetIndex (set_expired_time p e s) q = GetIndex s q.
Proof.
  simpl. unfold set_expired_time, timer_of. rewrite lookup_insert. by case_decide; subst.
Qed.

Lemma HeapValue_set_expired p q e (s : gmap ptr CTimerNotify) :
  HeapValue (set_expired_time p e s) q = if decide (p = q) then e else HeapValue s q.
Proof.
  simpl. unfold get_expired_time, set_expired_time, timer_of. rewrite lookup_insert.
  by case_decide; subst.
Qed.

(** [class CTimerMng]: the heap ([None] stands for a [NULL] heap pointer) and the
    timer objects it refers to. *)
Record CTimerMng := mkTimerMng { tm_heap : option HeapList; tm_timers : gmap ptr CTimerNotify }.

Definition TIMER_MIN : Z := 100000.

(** The constructor: at least [TIMER_MIN] timers. *)
Definition new_CTimerMng (max_item : Z) (s : gmap ptr CTimerNotify) : CTimerMng :=
  let m := if max_item <? TIMER_MIN then TIMER_MIN else max_item in
  mkTimerMng (Some (new_HeapList m)) s.

(** The destructor drops the heap. *)
Definition del_CTimerMng (m : CTimerMng) : CTimerMng := mkTimerMng None (tm_timers m).

(** [CTimerMng::start_timer]: the result and the new state.  The expiry time is
    written before the insertion is attempted. *)
Definition start_timer (now_ms : Z) (m : CTimerMng) (timerable : option ptr) (interval : Z)
  : option (bool * CTimerMng) :=
  match tm_heap m, timerable with
  | Some h, Some t =>
      let s1 := set_expired_time t (u64 (now_ms + interval)) (tm_timers m) in
      '(rc, h', s') ← HeapPush h s1 t;
      Some (negb (rc <? 0), mkTimerMng (Some h') s')
  | _, _ => Some (false, m)
  end.

(** [CTimerMng::stop_timer]. *)
Definition stop_timer (m : CTimerMng) (timerable : option ptr) : option CTimerMng :=
  match tm_heap m, timerable with
  | Some h, Some t =>
      '(_, h', s') ← HeapDelete h (tm_timers m) t;
      Some (mkTimerMng (Some h') s')
  | _, _ => Some m
  end.

Section check_expired.
(** [timer_notify] of the object: what the callback does to the timers. *)
Variable timer_notify : ptr -> CTimerMng -> option CTimerMng.

(** [CTimerMng::check_expired]: while the top timer has expired, delete it and
    notify it.  The result carries the timers notified, in order.  A callback
    may arm timers again, so the loop is given a number of rounds. *)
Fixpoint check_expired_loop (fuel : nat) (now : Z) (m : CTimerMng) : option (list ptr * CTimerMng) :=
  match fuel with
  | O => None
  | S fuel =>
      match tm_heap m with
      | None => Some ([], m)
      | Some h =>
          match HeapTop h with
          | None => Some ([], m)
          | Some timer =>
              if get_expired_time (tm_timers m) timer <=? now then
                '(_, h', s') ← HeapDelete h (tm_timers m) timer;
                m' ← timer_notify timer (mkTimerMng (Some h') s');
                '(l, m'') ← check_expired_loop fuel now m';
                Some (timer :: l, m'')
              else Some ([], m)
          end
      end
  end.
End check_expired.

(** One more round than there are timers: enough when a callback arms no timer
    that has already expired. *)
Definition check_expired (timer_notify : ptr -> CTimerMng -> option CTimerMng) (now : Z) (m : CTimerMng)
  : option (list ptr * CTimerMng) :=
  check_expired_loop timer_notify
    (S (match tm_heap m with Some h => Z.to_nat (HeapSize h) | None => 0 end)) now m.

(** ** Invariant *)

Definition tm_wf (m : CTimerMng) : Prop :=
  exists h, tm_heap m = Some h /\ heap_wf h (tm_timers m) /\ heap_ordered h (tm_timers m).

(** The timer is armed, and the timer is armed and has expired. *)
Definition armed (m : CTimerMng) (p : ptr) : Prop := in_heap (tm_timers m) p.
Definition due (now : Z) (m : CTimerMng) (p : ptr) : Prop :=
  armed m p /\ get_expired_time (tm_timers m) p <= now.

Lemma new_CTimerMng_wf max s : (forall p, GetIndex s p = 0) -> tm_wf (new_CTimerMng max s).
Proof.
  intros Hs. eexists. split; [done|]. split; [by apply new_HeapList_wf|apply new_ordered].
Qed.

(** Changing the key of an element outside the heap keeps the invariants. *)
Lemma set_expired_wf h s t e : heap_wf h s -> heap_wf h (set_expired_time t e s).
Proof.
  intros [? ? Hc ? Hi]. split; [done..| | |].
  - intros i Hr. destruct (Hc i Hr) as (p & ? & ? & ?). exists p. by rewrite GetIndex_set_expired.
  - done.
  - intros p Hp. rewrite GetIndex_set_expired. by apply Hi.
Qed.

Lemma set_expired_ordered h s t e :
  heap_wf h s -> heap_ordered h s -> ~ in_heap s t -> heap_ordered h (set_expired_time t e s).
Proof.
  intros Hwf Ho Ht i Hi.
  assert (Hv : forall k, val h (set_expired_time t e s) k = val h s k).
  { intros k. unfold val. destruct (aget (h_list h) k) as [p|] eqn:E; [|done].
    rewrite HeapValue_set_expired, decide_False; [done|]. intros <-.
    apply Ht. apply (heap_wf_member h s t Hwf). by exists k. }
  rewrite !Hv. by apply Ho.
Qed.

(** The root of an ordered heap needs no condition to be deleted. *)
Lemma HeapTop_hole_ok {St} `{!HeapStore St} h (s : St) t :
  heap_wf h s -> HeapTop h = Some t -> hole_ok h s (GetIndex s t) /\ in_heap s t.
Proof.
  intros Hwf. unfold HeapTop. destruct (Z.ltb_spec 0 (h_count h)); [|done]. intros Ht.
  destruct (wf_cell _ _ _ Hwf 1) as (t' & Ht' & Hi & _); [lia|].
  assert (t' = t) as -> by congruence. split; [intros ?; lia|unfold in_heap; lia].
Qed.

(** Deleting the top timer, the step of [check_expired]. *)
Lemma delete_top_spec h s t :
  heap_wf h s -> heap_ordered h s -> HeapTop h = Some t ->
  exists h' s', HeapDelete h s t = Some (0, h', s') /\ tm_wf (mkTimerMng (Some h') s') /\
    (forall p, in_heap s' p <-> p <> t /\ in_heap s p) /\
    (forall p, get_expired_time s' p = get_expired_time s p).
Proof.
  intros Hwf Ho Ht. destruct (HeapTop_hole_ok h s t Hwf Ht) as [Hh Hin].
  destruct (HeapDelete_spec h s t Hwf) as (rc & h' & s' & E & Hwf' & Hidx & _ & Ho' & Hrc).
  destruct Hrc as [(? & Hn & _)|(-> & _ & _ & Hm)]; [done|].
  exists h', s'. split; [done|]. split; [by exists h'; auto|]. split; [done|].
  intros p. exact (idx_steps_value s s' p Hidx).
Qed.

(** The timers of the heap, as a list. *)
Definition heap_timers (h : HeapList) : list ptr :=
  omap (aget (h_list h)) (seqZ 1 (h_count h)).

Lemma length_omap_le {A B} (f : A -> option B) l : (length (omap f l) <= length l)%nat.
Proof. induction l as [|x l IH]; csimpl; [done|]. destruct (f x); csimpl; lia. Qed.

Lemma heap_timers_spec h (s : gmap ptr CTimerNotify) p :
  heap_wf h s -> in_heap s p -> p ∈ heap_timers h.
Proof.
  intros Hwf Hp. destruct (wf_index _ _ _ Hwf p) as [Hr Hg]; [done..|].
  apply list_elem_of_omap. exists (GetIndex s p). split; [|done].
  apply elem_of_seqZ. lia.
Qed.

Lemma heap_timers_length h : (length (heap_timers h) <= Z.to_nat (h_count h))%nat.
Proof. etrans; [apply length_omap_le|]. by rewrite length_seqZ. Qed.

Section notify.
Context (now : Z) (timer_notify : ptr -> CTimerMng -> option CTimerMng).

(** What [check_expired] relies on: a callback leaves the timers well formed and
    arms no timer that has expired already. *)
Hypothesis notify_ok : forall t m, tm_wf m ->
  exists m', timer_notify t m = Some m' /\ tm_wf m' /\ forall p, due now m' p -> due now m p.

Lemma check_expired_loop_spec fuel L m :
  tm_wf m -> (forall p, due now m p -> p ∈ L) -> (length L < fuel)%nat ->
  exists l m', check_expired_loop timer_notify fuel now m = Some (l, m') /\ tm_wf m' /\
    (forall p, ~ due now m' p) /\ NoDup l /\ (forall p, p ∈ l -> due now m p).
Proof.
  revert L m. induction fuel as [|fuel IH]; intros L m Hwf HL Hf; [lia|].
  destruct Hwf as (h & Hh & Hwf & Ho). simpl. rewrite Hh.
  pose proof (HeapTop_spec h (tm_timers m) Hwf Ho) as Htop.
  destruct (HeapTop h) as [t|] eqn:Et.
  2:{ exists [], m. split_and!; [done|by exists h| |constructor|by intros ? ?%elem_of_nil].
      intros p [Hp _]. by eapply Htop. }
  destruct Htop as [Hin Hmin].
  destruct (Z.leb_spec (get_expired_time (tm_timers m) t) now) as [Hle|Hgt].
  2:{ exists [], m. split_and!; [done|by exists h| |constructor|by intros ? ?%elem_of_nil].
      intros p [Hp He]. specialize (Hmin p Hp). simpl in Hmin. lia. }
  destruct (delete_top_spec h (tm_timers m) t Hwf Ho Et) as (h' & s' & E & Hwf' & Hm & Hv).
  rewrite E. simpl. destruct (notify_ok t _ Hwf') as (m1 & En & Hwf1 & Hdue). rewrite En. simpl.
  assert (Hd : forall p, due now m1 p -> p <> t /\ due now m p).
  { intros p [Ha He]%Hdue. apply Hm in Ha as [? ?]. unfold due. rewrite <- Hv. done. }
  destruct (IH (filter (λ p, p <> t) L) m1 Hwf1) as (l & m' & El & Hwf2 & Hnone & Hnd & Hl).
  { intros p [? ?]%Hd. apply list_elem_of_filter. auto. }
  { eapply Nat.lt_le_trans; [eapply length_filter_lt; [apply (HL t); by split|auto]|]. lia. }
  rewrite El. simpl. exists (t :: l), m'. split_and!; [done..| |].
  - constructor; [|done]. intros Ht. by apply Hl, Hd in Ht as [? _].
  - intros p [->|Hp]%elem_of_cons; [by split|]. by apply Hl, Hd in Hp as [_ ?].
Qed.
End notify.

(** The default [timer_notify] of [CTimerNotify] does nothing. *)
Definition default_notify (_ : ptr) (m : CTimerMng) : option CTimerMng := Some m.

(** A callback that starts timers, none of which has expired already. *)
Definition starts_timers (now : Z) (timer_notify : ptr -> CTimerMng -> option CTimerMng) : Prop :=
  forall t m, tm_wf m -> ~ armed m t -> exists m', timer_notify t m = Some m' /\ tm_wf m' /\
    (forall p, armed m p -> armed m' p /\ get_expired_time (tm_timers m') p = get_expired_time (tm_timers m) p) /\
    forall p, due now m' p -> due now m p.

Section starts.
Context (now : Z) (timer_notify : ptr -> CTimerMng -> option CTimerMng) (Hn : starts_timers now timer_notify).

Lemma check_expired_loop_order fuel L m :
  tm_wf m -> (forall p, due now m p -> p ∈ L) -> (length L < fuel)%nat ->
  exists l m', check_expired_loop timer_notify fuel now m = Some (l, m') /\ tm_wf m' /\ NoDup l /\
    (forall p, p ∈ l <-> due now m p) /\
    StronglySorted (fun p q => get_expired_time (tm_timers m) p <= get_expired_time (tm_timers m) q) l /\
    (forall p, armed m p -> ~ due now m p ->
       armed m' p /\ get_expired_time (tm_timers m') p = get_expired_time (tm_timers m) p) /\
    (forall p, ~ due now m' p) /\
    ((forall t m, timer_notify t m = Some m) -> forall p, armed m' p -> armed m p).
Proof.
  revert L m. induction fuel as [|fuel IH]; intros L m Hwf HL Hf; [lia|].
  destruct Hwf as (h & Hh & Hwf & Ho). cbn [check_expired_loop]. rewrite Hh.
  assert (Hnil : (forall p, ~ due now m p) -> exists l m', Some ([], m) = Some (l, m') /\ tm_wf m' /\ NoDup l /\
    (forall p, p ∈ l <-> due now m p) /\
    StronglySorted (fun p q => get_expired_time (tm_timers m) p <= get_expired_time (tm_timers m) q) l /\
    (forall p, armed m p -> ~ due now m p ->
       armed m' p /\ get_expired_time (tm_timers m') p = get_expired_time (tm_timers m) p) /\
    (forall p, ~ due now m' p) /\ ((forall t m, timer_notify t m = Some m) -> forall p, armed m' p -> armed m p)).
  { intros Hno. exists [], m. split; [done|]. split; [by exists h|]. split; [constructor|]. split; [|by split; [constructor|]].
    intros p. split; [by intros ?%elem_of_nil|by intros ?%Hno]. }
  pose proof (HeapTop_spec h (tm_timers m) Hwf Ho) as Htop.
  destruct (HeapTop h) as [t|] eqn:Et; [|apply Hnil; intros p [Hp _]; by eapply Htop].
  destruct Htop as [Hin Hmin].
  destruct (Z.leb_spec (get_expired_time (tm_timers m) t) now) as [Hle|Hgt].
  2:{ apply Hnil. intros p [Hp He]. specialize (Hmin p Hp). simpl in Hmin. lia. }
  clear Hnil. destruct (delete_top_spec h (tm_timers m) t Hwf Ho Et) as (h' & s' & E & Hwf' & Hm & Hv).
  rewrite E. cbn [mbind option_bind].
  destruct (Hn t _ Hwf') as (m1 & En & Hwf1 & Hkeep & Hdue); [by intros [? _]%Hm|]. rewrite En. cbn [mbind option_bind].
  assert (Hd : forall p, due now m1 p <-> p <> t /\ due now m p).
  { intros p. split.
    - intros [Ha He]%Hdue. apply Hm in Ha as [? ?]. unfold due. rewrite <- Hv. done.
    - intros [Hp [Ha He]]. destruct (Hkeep p) as [Ha' He']; [by apply Hm|]. split; [done|]. rewrite He'. cbn. by rewrite Hv. }
  assert (Hex : forall p, p <> t -> armed m p -> get_expired_time (tm_timers m1) p = get_expired_time (tm_timers m) p).
  { intros p Hp Ha. destruct (Hkeep p) as [_ ->]; [by apply Hm|]. apply Hv. }
  destruct (IH (filter (λ p, p <> t) L) m1 Hwf1) as (l & m' & El & Hwf2 & Hnd & Hl & Hs & Hk & Hno & Hq).
  { intros p [? ?]%Hd. apply list_elem_of_filter. auto. }
  { eapply Nat.lt_le_trans; [eapply length_filter_lt; [apply (HL t); by split|auto]|]. lia. }
  rewrite El. cbn [mbind option_bind]. exists (t :: l), m'. split; [done|]. split; [done|].
  split; [constructor; [by intros [? _]%Hl%Hd|done]|]. split; [|split; [|split; [|split]]].
  - intros p. rewrite elem_of_cons, Hl, Hd. destruct (decide (p = t)) as [->|]; [|tauto].
    split; [intros _; by split|by left].
  - constructor.
    + clear -Hs Hl Hd Hex. assert (forall p, p ∈ l -> get_expired_time (tm_timers m1) p = get_expired_time (tm_timers m) p) as Hsame.
      { intros p [Hp [Ha _]]%Hl%Hd. by apply Hex. }
      clear Hl. induction Hs as [|x l _ IH Hx]; constructor; [apply IH; intros p Hp; apply Hsame; by right|].
      rewrite !List.Forall_forall in *. intros y Hy. rewrite <- (Hsame x) by (by left).
      rewrite <- (Hsame y) by (by right; apply list_elem_of_In). by apply Hx.
    + apply List.Forall_forall. intros q [Hqt [Ha _]]%list_elem_of_In%Hl%Hd. by apply Hmin.
  - intros p Ha Hp. assert (p <> t) as Hpt by (intros ->; by apply Hp).
    destruct (Hk p) as [Ha' He']; [by apply Hkeep, Hm|intros [_ ?]%Hd; done|]. split; [done|]. rewrite He'. by apply Hex.
  - done.
  - intros Hdef p Hp. apply (Hq Hdef) in Hp. rewrite Hdef in En. injection En as <-. by apply Hm in Hp as [_ ?].
Qed.
End starts.

Lemma start_timer_spec now m t interval :
  tm_wf m -> ~ armed m t ->
  exists b m', start_timer now m (Some t) interval = Some (b, m') /\ tm_wf m' /\
    (forall p, p <> t -> get_expired_time (tm_timers m') p = get_expired_time (tm_timers m) p) /\
    get_expired_time (tm_timers m') t = u64 (now + interval) /\
    (if b then forall p, armed m' p <-> p = t \/ armed m p
     else (forall p, armed m' p <-> armed m p) /\
          exists h, tm_heap m = Some h /\ h_count h = h_max h).
Proof.
  intros (h & Hh & Hwf & Ho) Ht. unfold start_timer. rewrite Hh.
  set (s1 := set_expired_time t (u64 (now + interval)) (tm_timers m)).
  assert (Hi : forall p, in_heap s1 p <-> armed m p).
  { intros p. unfold armed, in_heap, s1. by rewrite GetIndex_set_expired. }
  destruct (HeapPush_spec h s1 t) as (rc & h' & s' & E & Hwf' & Ho' & Hidx & _ & Hrc);
    [by apply set_expired_wf|].
  rewrite E. simpl. exists (negb (rc <? 0)), (mkTimerMng (Some h') s').
  assert (Hv : forall p, get_expired_time s' p = if decide (t = p) then u64 (now + interval)
      else get_expired_time (tm_timers m) p).
  { intros p. rewrite <- (HeapValue_set_expired t p). exact (idx_steps_value s1 s' p Hidx). }
  split_and!; [done| | | |].
  - exists h'. split_and!; [done..|]. apply Ho'. by apply set_expired_ordered.
  - intros p Hp. simpl. by rewrite Hv, decide_False.
  - simpl. by rewrite Hv, decide_True.
  - destruct Hrc as [(-> & ? & -> & ->)|[(-> & _ & Hin & _)|(-> & _ & _ & _ & Hm)]]; simpl.
    + split; [done|]. by exists h.
    + by rewrite Hi in Hin.
    + intros p. unfold armed; simpl. rewrite Hm, Hi. done.
Qed.

Lemma stop_timer_spec m t :
  tm_wf m ->
  exists m' h', stop_timer m (Some t) = Some m' /\ tm_heap m' = Some h' /\
    heap_wf h' (tm_timers m') /\ (forall p, armed m' p <-> p <> t /\ armed m p) /\
    (forall p, get_expired_time (tm_timers m') p = get_expired_time (tm_timers m) p).
Proof.
  intros (h & Hh & Hwf & Ho). unfold stop_timer. rewrite Hh.
  destruct (HeapDelete_spec h (tm_timers m) t Hwf) as (rc & h' & s' & E & Hwf' & Hidx & _ & _ & Hrc).
  rewrite E. simpl. exists (mkTimerMng (Some h') s'), h'. split_and!; [done..| |].
  - unfold armed; simpl. destruct Hrc as [(_ & Hn & _ & -> & _)|(_ & _ & _ & Hm)]; [|done].
    intros p. split; [|tauto]. intros Hp. split; [|done]. by intros ->.
  - intros p. exact (idx_steps_value _ s' p Hidx).
Qed.

(** Arm several timers at one clock value. *)
Fixpoint start_all (now : Z) (m : CTimerMng) (l : list (ptr * Z)) : option CTimerMng :=
  match l with
  | [] => Some m
  | (t, interval) :: l => '(_, m') ← start_timer now m (Some t) interval; start_all now m' l
  end.

Lemma start_all_wf now m l :
  tm_wf m -> NoDup l.*1 -> (forall p, p ∈ l.*1 -> ~ armed m p) ->
  exists m', start_all now m l = Some m' /\ tm_wf m'.
Proof.
  revert m. induction l as [|[t i] l IH]; intros m Hwf Hnd Hna; [by exists m|].
  pose proof (NoDup_cons_1_1 _ _ Hnd) as Ht. apply NoDup_cons_1_2 in Hnd. simpl.
  destruct (start_timer_spec now m t i Hwf) as (b & m' & E & Hwf' & _ & _ & Hb).
  { apply Hna. left. }
  rewrite E. simpl. apply IH; [done..|]. intros p Hp Ha.
  apply (Hna p); [by right|].
  destruct b; [|by apply Hb]. apply Hb in Ha as [->|]; [by destruct Ht|done].
Qed.

(** ** The theorems about the timers *)

(** [check_expired] terminates and leaves no expired timer behind.  For
    callbacks that keep the timer manager well formed and arm no timer that has
    expired already, the loop finishes within one round more than there are
    timers, every timer it notifies was armed and expired, none is notified
    twice, and afterwards no armed timer has an expiry time in the past. *)
Theorem check_expired_leaves_none (now : Z) (timer_notify : ptr -> CTimerMng -> option CTimerMng)
    (m : CTimerMng) :
  (forall t m, tm_wf m -> exists m', timer_notify t m = Some m' /\ tm_wf m' /\
     forall p, due now m' p -> due now m p) ->
  tm_wf m ->
  exists l m', check_expired timer_notify now m = Some (l, m') /\ tm_wf m' /\
    (forall p, ~ due now m' p) /\ NoDup l /\ (forall p, p ∈ l -> due now m p).
Proof.
  intros Hn Hwf. destruct Hwf as (h & Hh & Hwf & Ho). unfold check_expired. rewrite Hh.
  apply (check_expired_loop_spec now timer_notify Hn _ (heap_timers h)).
  - by exists h.
  - intros p [Hp _]. by eapply heap_timers_spec.
  - unfold HeapSize. pose proof (heap_timers_length h). lia.
Qed.

(** C37: on timers whose heap is in order, and with callbacks that only start
    timers, none of them expired already - the default [timer_notify] is one -
    [check_expired] returns; it notifies the armed timers whose expiry time has
    passed, each exactly once and in the order of their expiry times.  The other
    armed timers stay armed with the expiry they had, no armed timer has expired
    afterwards, the heap is well formed and in order, and when the callback does
    nothing no timer becomes armed. *)
Theorem check_expired_in_order (now : Z) (timer_notify : ptr -> CTimerMng -> option CTimerMng) (m : CTimerMng) :
  starts_timers now timer_notify -> tm_wf m ->
  exists l m', check_expired timer_notify now m = Some (l, m') /\ tm_wf m' /\ NoDup l /\
    (forall p, p ∈ l <-> due now m p) /\
    StronglySorted (fun p q => get_expired_time (tm_timers m) p <= get_expired_time (tm_timers m) q) l /\
    (forall p, armed m p -> ~ due now m p ->
       armed m' p /\ get_expired_time (tm_timers m') p = get_expired_time (tm_timers m) p) /\
    (forall p, ~ due now m' p) /\
    ((forall t m, timer_notify t m = Some m) -> forall p, armed m' p -> armed m p).
Proof.
  intros Hn Hwf. pose proof Hwf as (h & Hh & Hwf' & Ho). unfold check_expired. rewrite Hh.
  apply (check_expired_loop_order now timer_notify Hn _ (heap_timers h)); [done| |].
  - intros p [Hp _]. by eapply heap_timers_spec.
  - unfold HeapSize. pose proof (heap_timers_length h). lia.
Qed.

(** Arming a timer that is not armed.  [start_timer] sets the expiry time to
    the clock plus the interval (modulo 2^64) and keeps the manager well formed;
    it fails only when the heap is full, and then no timer becomes armed. *)
Theorem start_timer_arms (now : Z) (m : CTimerMng) (t : ptr) (interval : Z) :
  tm_wf m -> ~ armed m t ->
  exists b m', start_timer now m (Some t) interval = Some (b, m') /\ tm_wf m' /\
    get_expired_time (tm_timers m') t = u64 (now + interval) /\
    (forall p, p <> t -> get_expired_time (tm_timers m') p = get_expired_time (tm_timers m) p) /\
    (b = true -> forall p, armed m' p <-> p = t \/ armed m p) /\
    (b = false -> (forall p, armed m' p <-> armed m p) /\
                  exists h, tm_heap m = Some h /\ HeapFull h = true).
Proof.
  intros Hwf Ht.
  destruct (start_timer_spec now m t interval Hwf Ht) as (b & m' & E & ? & ? & ? & Hb).
  exists b, m'. split_and!; [done..| |]; intros ->; [done|].
  destruct Hb as (? & h & ? & ?). split; [done|]. exists h. split; [done|].
  unfold HeapFull. apply Z.leb_le. lia.
Qed.

Definition no_timers : gmap ptr CTimerNotify := ∅.

(** Seven timers armed at clock 0. *)
Definition seven_timers : list (ptr * Z) :=
  [(1%positive, 1); (2%positive, 100); (3%positive, 3); (4%positive, 110);
   (5%positive, 120); (6%positive, 60); (7%positive, 4)].

Definition seven_armed : option CTimerMng := start_all 0 (new_CTimerMng 0 no_timers) seven_timers.

Lemma seven_armed_wf : exists m, seven_armed = Some m /\ tm_wf m.
Proof.
  apply start_all_wf.
  - by apply new_CTimerMng_wf.
  - by apply (bool_decide_unpack _).
  - intros p _ Hp. by apply Hp.
Qed.

(** The timer scenario below, as one computation: the timers notified at clock
    10 and whether timer 7 is still armed afterwards. *)
Definition lost_expiry_run : option (list ptr * bool) :=
  m ← seven_armed;
  m1 ← stop_timer m (Some 4%positive);
  '(l, m2) ← check_expired default_notify 10 m1;
  Some (l, negb (GetIndex (tm_timers m2) 7%positive =? 0) &&
           (get_expired_time (tm_timers m2) 7%positive <=? 10)).

(** Stopping a timer can delay another one.  Seven timers of 1, 100, 3, 110,
    120, 60 and 4 ms are armed; stopping the 110 ms timer breaks the heap order,
    and [check_expired] at 10 ms notifies the 1 ms and the 3 ms timer but leaves
    the 4 ms timer armed although it has expired. *)
Theorem stop_timer_can_lose_expiry :
  exists m m1 m2, seven_armed = Some m /\ tm_wf m /\
    stop_timer m (Some 4%positive) = Some m1 /\
    check_expired default_notify 10 m1 = Some ([1%positive; 3%positive], m2) /\
    due 10 m2 7%positive.
Proof.
  destruct seven_armed_wf as (m & E & Hwf). exists m.
  assert (Hrun : lost_expiry_run = Some ([1%positive; 3%positive], true)) by (vm_compute; reflexivity).
  unfold lost_expiry_run in Hrun. rewrite E in Hrun. cbn [mbind option_bind] in Hrun.
  destruct (stop_timer m _) as [m1|] eqn:E1; [|done]. cbn [mbind option_bind] in Hrun.
  destruct (check_expired _ _ _) as [[l m2]|] eqn:E2; [|done].
  cbn [mbind option_bind] in Hrun. injection Hrun as -> Hb.
  apply andb_true_iff in Hb as [Hn%negb_true_iff%Z.eqb_neq Hle%Z.leb_le].
  exists m1, m2. split_and!; auto. by split.
Qed.

(** The rearm scenario: start timer 1 again with a later expiry and ask for the
    timers notified at clock 50. *)
Definition rearm_run : option (bool * Z * list ptr * bool) :=
  m ← start_all 0 (new_CTimerMng 0 no_timers) [(1%positive, 10); (2%positive, 20)];
  '(b, m1) ← start_timer 0 m (Some 1%positive) 90;
  '(l, m2) ← check_expired default_notify 50 m1;
  Some (b, get_expired_time (tm_timers m1) 1%positive, l,
        negb (GetIndex (tm_timers m2) 2%positive =? 0)).

(** Starting a timer that is already armed reports failure and still changes
    its expiry time inside the heap.  With timers of 10 and 20 ms armed, starting
    the first one again for 90 ms returns [false]; its key in the heap is now 90,
    and at 50 ms [check_expired] notifies nobody although the 20 ms timer has
    expired. *)
Theorem start_timer_rearm_corrupts :
  rearm_run = Some (false, 90, [], true).
Proof. vm_compute. reflexivity. Qed.

Lemma check_expired_leaves_none_witness :
  exists m l m', seven_armed = Some m /\ tm_wf m /\
    check_expired default_notify 10 m = Some (l, m') /\ forall p, ~ due 10 m' p.
Proof.
  destruct seven_armed_wf as (m & E & Hwf).
  destruct (check_expired_leaves_none 10 default_notify m) as (l & m' & H & _ & Hn & _).
  - intros t m0 H0. exists m0. split; [reflexivity|]. split; [exact H0|]. intros p Hp; exact Hp.
  - exact Hwf.
  - exists m, l, m'. auto.
Defined.

(** A callback that starts its timer again, 50 ms from clock 10. *)
Definition restart_notify (t : ptr) (m : CTimerMng) : option CTimerMng := snd <$> start_timer 10 m (Some t) 50.

Lemma restart_notify_ok : starts_timers 10 restart_notify.
Proof.
  intros t m Hwf Ht. destruct (start_timer_spec 10 m t 50 Hwf Ht) as (b & m' & E & Hwf' & Hv & He & Hb).
  exists m'. unfold restart_notify. rewrite E. split; [done|]. split; [done|].
  assert (Hne : forall p, armed m p -> p <> t) by (intros p Hp ->; done). split.
  - intros p Hp. split; [|by apply Hv, Hne]. destruct b; [|destruct Hb as [Hb _]]; apply Hb; auto.
  - intros p [Hp Hx]. destruct (decide (p = t)) as [-> | Hpt].
    { rewrite He in Hx. by vm_compute in Hx. }
    split; [|by rewrite <- Hv]. destruct b; [|destruct Hb as [Hb _]]; apply Hb in Hp; [|done]. by destruct Hp.
Qed.

Lemma check_expired_in_order_witness :
  exists m l m', seven_armed = Some m /\
    check_expired restart_notify 10 m = Some (l, m') /\ (forall p, p ∈ l <-> due 10 m p) /\ forall p, ~ due 10 m' p.
Proof.
  destruct seven_armed_wf as (m & E & Hwf).
  destruct (check_expired_in_order 10 restart_notify m restart_notify_ok Hwf) as (l & m' & H & _ & _ & Hl & _ & _ & Hno & _).
  exists m, l, m'. auto.
Defined.

Lemma start_timer_arms_witness :
  exists b m', start_timer 5 (new_CTimerMng 0 no_timers) (Some 9%positive) 30 = Some (b, m') /\
    tm_wf m' /\ get_expired_time (tm_timers m') 9%positive = 35.
Proof.
  destruct (start_timer_arms 5 (new_CTimerMng 0 no_timers) 9%positive 30)
    as (b & m' & H & Hwf & He & _).
  - by apply new_CTimerMng_wf.
  - intros Hp. by apply Hp.
  - exists b, m'. split; [exact H|]. split; [exact Hwf|]. rewrite He. vm_compute. reflexivity.
Defined.
