(* ===== verification/Epoll.v ===== *)
(** * The epoll proxy

    Models [src/src/sync_frame/micro_thread/epoll_proxy.h] and [epoll_proxy.cpp]:
    the per-descriptor bookkeeping ([FdRef]), the scheduling objects
    ([EpollerObj]) and the [EpollProxy] operations that register and unregister
    them with the kernel.  The dispatch of received events needs the scheduler
    and is in [Sched].

    The system call [epoll_ctl] is a parameter: a function on a kernel state that
    returns the result and [errno]. *)

From Stdlib Require Import ZArith Lia.
From stdpp Require Import base gmap list option.
From S2P Require Import Prelude.

(** ** Constants of [sys/epoll.h] and [errno.h] *)

Definition EPOLLIN : Z := 1.
Definition EPOLLOUT : Z := 4.
Definition EPOLLERR : Z := 8.
Definition EPOLLHUP : Z := 16.
Definition EEXIST : Z := 17.
Definition ENOENT : Z := 2.

Inductive epoll_op := EPOLL_CTL_ADD | EPOLL_CTL_DEL | EPOLL_CTL_MOD.

#[export] Instance epoll_op_eq_dec : EqDecision epoll_op.
Proof. solve_decision. Defined.

(** [x & ~y] *)
Definition clear_bits (x y : Z) : Z := Z.land x (Z.lnot y).

Definition has (x y : Z) : bool := negb (Z.land x y =? 0).

(** ** [class FdRef] *)

Record FdRef := mkFdRef {
  f_wr_ref : Z;
  f_rd_ref : Z;
  f_events : Z;
  f_revents : Z;
  f_epobj : option ptr;
}.

Definition new_FdRef : FdRef := mkFdRef 0 0 0 0 None.

Definition SetListenEvents (e : Z) (r : FdRef) : FdRef :=
  mkFdRef (f_wr_ref r) (f_rd_ref r) e (f_revents r) (f_epobj r).
Definition GetListenEvents (r : FdRef) : Z := f_events r.
Definition SetNotifyObj (o : option ptr) (r : FdRef) : FdRef :=
  mkFdRef (f_wr_ref r) (f_rd_ref r) (f_events r) (f_revents r) o.
Definition GetNotifyObj (r : FdRef) : option ptr := f_epobj r.
Definition ReadRefCnt (r : FdRef) : Z := f_rd_ref r.
Definition WriteRefCnt (r : FdRef) : Z := f_wr_ref r.

(** [FdRef::AttachEvents]: count one more listener per direction. *)
Definition AttachEvents (event : Z) (r : FdRef) : FdRef :=
  mkFdRef (if has event EPOLLOUT then f_wr_ref r + 1 else f_wr_ref r)
          (if has event EPOLLIN then f_rd_ref r + 1 else f_rd_ref r)
          (f_events r) (f_revents r) (f_epobj r).

(** [FdRef::DetachEvents]: count one less, never below zero. *)
Definition DetachEvents (event : Z) (r : FdRef) : FdRef :=
  let dec c := if 0 <? c then c - 1 else 0 in
  mkFdRef (if has event EPOLLOUT then dec (f_wr_ref r) else f_wr_ref r)
          (if has event EPOLLIN then dec (f_rd_ref r) else f_rd_ref r)
          (f_events r) (f_revents r) (f_epobj r).

(** ** [class EpollerObj] *)

Record EpollerObj := mkEpollerObj {
  eo_fd : Z;
  eo_events : Z;
  eo_revents : Z;
  eo_type : Z;
  eo_thread : option ptr;
}.

Definition new_EpollerObj (fd : Z) : EpollerObj := mkEpollerObj fd 0 0 0 None.
Definition EpollerObj_Reset (_ : EpollerObj) : EpollerObj := mkEpollerObj (-1) 0 0 0 None.

Definition EnableInput (o : EpollerObj) : EpollerObj :=
  mkEpollerObj (eo_fd o) (Z.lor (eo_events o) EPOLLIN) (eo_revents o) (eo_type o) (eo_thread o).
Definition EnableOutput (o : EpollerObj) : EpollerObj :=
  mkEpollerObj (eo_fd o) (Z.lor (eo_events o) EPOLLOUT) (eo_revents o) (eo_type o) (eo_thread o).
Definition DisableInput (o : EpollerObj) : EpollerObj :=
  mkEpollerObj (eo_fd o) (clear_bits (eo_events o) EPOLLIN) (eo_revents o) (eo_type o) (eo_thread o).
Definition DisableOutput (o : EpollerObj) : EpollerObj :=
  mkEpollerObj (eo_fd o) (clear_bits (eo_events o) EPOLLOUT) (eo_revents o) (eo_type o) (eo_thread o).
Definition SetOsfd (fd : Z) (o : EpollerObj) : EpollerObj :=
  mkEpollerObj fd (eo_events o) (eo_revents o) (eo_type o) (eo_thread o).
Definition SetRcvEvents (revents : Z) (o : EpollerObj) : EpollerObj :=
  mkEpollerObj (eo_fd o) (eo_events o) revents (eo_type o) (eo_thread o).
Definition SetOwnerThread (t : option ptr) (o : EpollerObj) : EpollerObj :=
  mkEpollerObj (eo_fd o) (eo_events o) (eo_revents o) (eo_type o) t.

(** ** [class EpollProxy] *)

Section proxy.
Context {K : Type}.
(** [epoll_ctl(_epfd, op, fd, &ev)] with [ev.events] as last argument: the new
    kernel state, the return value and [errno]. *)
Variable epoll_ctl : K -> epoll_op -> Z -> Z -> K * Z * Z.

(** The proxy with the kernel behind it and the objects it refers to.  The array
    [_eprefs] has [_maxfd] cells; a cell not in the map is a fresh [FdRef]. *)
Record EpollState := mkEpollState {
  ep_maxfd : Z;
  ep_refs : gmap Z FdRef;
  ep_kernel : K;
  ep_objs : gmap ptr EpollerObj;
}.

Definition DEFAULT_MAX_FD_NUM : Z := 100000.

Definition fdref (st : EpollState) (fd : Z) : FdRef := default new_FdRef (ep_refs st !! fd).
Definition set_fdref (fd : Z) (r : FdRef) (st : EpollState) : EpollState :=
  mkEpollState (ep_maxfd st) (<[fd := r]> (ep_refs st)) (ep_kernel st) (ep_objs st).
Definition set_kernel (k : K) (st : EpollState) : EpollState :=
  mkEpollState (ep_maxfd st) (ep_refs st) k (ep_objs st).
Definition obj_of (st : EpollState) (o : ptr) : EpollerObj :=
  default (new_EpollerObj (-1)) (ep_objs st !! o).
Definition set_obj (o : ptr) (x : EpollerObj) (st : EpollState) : EpollState :=
  mkEpollState (ep_maxfd st) (ep_refs st) (ep_kernel st) (<[o := x]> (ep_objs st)).

(** [EpollProxy::FdRefGet]: whether the descriptor has a cell. *)
Definition FdRefGet (st : EpollState) (fd : Z) : option FdRef :=
  if (ep_maxfd st <=? fd) || (fd <? 0) then None else Some (fdref st fd).

(** [EpollProxy::EpollNtfyReg]. *)
Definition EpollNtfyReg (fd : Z) (obj : option ptr) (st : EpollState) : EpollState :=
  match FdRefGet st fd with
  | Some r => set_fdref fd (SetNotifyObj obj r) st
  | None => st
  end.

(** [EpollProxy::EpollCtrlAdd]. *)
Definition EpollCtrlAdd (fd events : Z) (st : EpollState) : bool * EpollState :=
  match FdRefGet st fd with
  | None => (false, st)
  | Some item =>
      let item := AttachEvents events item in
      let old_events := GetListenEvents item in
      let new_events := Z.lor old_events events in
      if old_events =? new_events then (true, set_fdref fd item st)
      else
        let op := if old_events =? 0 then EPOLL_CTL_ADD else EPOLL_CTL_MOD in
        let '(k, rc, errno) := epoll_ctl (ep_kernel st) op fd new_events in
        let st := set_kernel k st in
        if (rc <? 0) && negb (bool_decide (op = EPOLL_CTL_ADD) && (errno =? EEXIST))
        then (false, set_fdref fd (DetachEvents events item) st)
        else (true, set_fdref fd (SetListenEvents new_events item) st)
  end.

(** [EpollProxy::EpollCtrlDelRef]. *)
Definition EpollCtrlDelRef (fd events : Z) (use_ref : bool) (st : EpollState) : bool * EpollState :=
  match FdRefGet st fd with
  | None => (false, st)
  | Some item =>
      let item := DetachEvents events item in
      let old_events := GetListenEvents item in
      let new_events :=
        if use_ref then
          let e1 := if ReadRefCnt item =? 0 then clear_bits old_events EPOLLIN else old_events in
          if WriteRefCnt item =? 0 then clear_bits e1 EPOLLOUT else e1
        else clear_bits old_events events in
      if old_events =? new_events then (true, set_fdref fd item st)
      else
        let op := if new_events =? 0 then EPOLL_CTL_DEL else EPOLL_CTL_MOD in
        let '(k, rc, errno) := epoll_ctl (ep_kernel st) op fd new_events in
        let st := set_kernel k st in
        if (rc <? 0) && negb (bool_decide (op = EPOLL_CTL_DEL) && (errno =? ENOENT))
        then (false, set_fdref fd item st)
        else (true, set_fdref fd (SetListenEvents new_events item) st)
  end.

(** [EpollProxy::EpollCtrlDel]. *)
Definition EpollCtrlDel (fd events : Z) (st : EpollState) : bool * EpollState :=
  EpollCtrlDelRef fd events false st.

(** [EpollerObj::EpollCtlAdd]: claim the descriptor, then register. *)
Definition EpollCtlAdd (this : ptr) (st : EpollState) : Z * EpollState :=
  let osfd := eo_fd (obj_of st this) in
  let new_events := eo_events (obj_of st this) in
  let old_obj := GetNotifyObj (fdref st osfd) in
  if negb (bool_decide (old_obj = None)) && negb (bool_decide (old_obj = Some this)) then (-1, st)
  else
    let st := set_fdref osfd (SetNotifyObj (Some this) (fdref st osfd)) st in
    let '(ok, st) := EpollCtrlAdd osfd new_events st in
    if ok then (0, st)
    else (-2, set_fdref osfd (SetNotifyObj old_obj (fdref st osfd)) st).

(** [EpollerObj::EpollCtlDel]: release the descriptor, then unregister. *)
Definition EpollCtlDel (this : ptr) (st : EpollState) : Z * EpollState :=
  let osfd := eo_fd (obj_of st this) in
  let events := eo_events (obj_of st this) in
  let old_obj := GetNotifyObj (fdref st osfd) in
  if negb (bool_decide (old_obj = Some this)) then (-1, st)
  else
    let st := set_fdref osfd (SetNotifyObj None (fdref st osfd)) st in
    let '(ok, st) := EpollCtrlDelRef osfd events false st in
    if ok then (0, st)
    else (-2, set_fdref osfd (SetNotifyObj old_obj (fdref st osfd)) st).

(** [EpollProxy::EpollAddObj] and [EpollProxy::EpollDelObj]. *)
Definition EpollAddObj (obj : option ptr) (st : EpollState) : bool * EpollState :=
  match obj with
  | None => (false, st)
  | Some o =>
      match FdRefGet st (eo_fd (obj_of st o)) with
      | None => (false, st)
      | Some _ => let '(ret, st) := EpollCtlAdd o st in (negb (ret <? 0), st)
      end
  end.

Definition EpollDelObj (obj : option ptr) (st : EpollState) : bool * EpollState :=
  match obj with
  | None => (false, st)
  | Some o =>
      match FdRefGet st (eo_fd (obj_of st o)) with
      | None => (false, st)
      | Some _ => let '(ret, st) := EpollCtlDel o st in (negb (ret <? 0), st)
      end
  end.

(** The first loop of [EpollProxy::EpollAdd]: add in order, stop at the first
    failure and return the object it happened at. *)
Fixpoint EpollAdd_loop (l : list ptr) (st : EpollState) : option ptr * EpollState :=
  match l with
  | [] => (None, st)
  | o :: l =>
      let '(ok, st) := EpollAddObj (Some o) st in
      if ok then EpollAdd_loop l st else (Some o, st)
  end.

(** The rollback loop: delete the objects before the failing one. *)
Fixpoint EpollAdd_rollback (epobj_error : ptr) (l : list ptr) (st : EpollState) : EpollState :=
  match l with
  | [] => st
  | o :: l =>
      if decide (o = epobj_error) then st
      else EpollAdd_rollback epobj_error l (EpollDelObj (Some o) st).2
  end.

(** [EpollProxy::EpollAdd]. *)
Definition EpollAdd (obj_list : list ptr) (st : EpollState) : bool * EpollState :=
  let '(err, st) := EpollAdd_loop obj_list st in
  match err with
  | None => (true, st)
  | Some e => (false, EpollAdd_rollback e obj_list st)
  end.

(** [EpollProxy::EpollDel]: goes on after a failure. *)
Fixpoint EpollDel (obj_list : list ptr) (st : EpollState) : bool * EpollState :=
  match obj_list with
  | [] => (true, st)
  | o :: l =>
      let '(ok, st) := EpollDelObj (Some o) st in
      let '(ret, st) := EpollDel l st in
      (ok && ret, st)
  end.

(** [EpollProxy::InitEpoll]: [epfd] is the result of [epoll_create], the two
    flags say whether the allocations succeeded; -1, -2, -3 as in the code.  The
    file-descriptor limits it sets are not part of the state. *)
Definition InitEpoll (max_num maxfd epfd : Z) (refs_ok evts_ok : bool) (k : K) (objs : gmap ptr EpollerObj)
  : Z * option EpollState :=
  let maxfd := if maxfd <? max_num then max_num else maxfd in
  if epfd <? 0 then (-1, None)
  else if negb refs_ok then (-2, None)
  else if negb evts_ok then (-3, None)
  else (0, Some (mkEpollState maxfd ∅ k objs)).
End proxy.

Arguments EpollState : clear implicits.
#[global] Arguments EpollAddObj {K} _ _ _ : simpl never.
#[global] Arguments EpollDelObj {K} _ _ _ : simpl never.

(** ** Lemmas *)

Section lemmas.
Context {K : Type} (epoll_ctl : K -> epoll_op -> Z -> Z -> K * Z * Z).
Implicit Types (st : EpollState K) (fd ev : Z) (o : ptr) (r : FdRef).

Lemma fdref_set fd r st fd' :
  fdref (set_fdref fd r st) fd' = if decide (fd = fd') then r else fdref st fd'.
Proof. unfold fdref, set_fdref; simpl. rewrite lookup_insert. by case_decide. Qed.

Lemma fdref_set_kernel k st fd : fdref (set_kernel k st) fd = fdref st fd.
Proof. done. Qed.

(** The counters of a cell are not negative. *)
Definition ref_ok r : Prop := 0 <= f_wr_ref r /\ 0 <= f_rd_ref r.
Definition refs_ok st : Prop := forall fd, ref_ok (fdref st fd).

Lemma Detach_Attach ev r : ref_ok r -> DetachEvents ev (AttachEvents ev r) = r.
Proof.
  destruct r as [w rd e re o]. unfold ref_ok, DetachEvents, AttachEvents; simpl. intros [? ?].
  f_equal; destruct (has ev _); try done; split_ifs; lia.
Qed.

Lemma Attach_ok ev r : ref_ok r -> ref_ok (AttachEvents ev r).
Proof. unfold ref_ok; simpl. intros []. split; destruct (has _ _); lia. Qed.

Lemma Detach_ok ev r : ref_ok r -> ref_ok (DetachEvents ev r).
Proof. unfold ref_ok; simpl. intros []. split; destruct (has _ _); split_ifs; lia. Qed.

Lemma clear_self ev : clear_bits ev ev = 0.
Proof. unfold clear_bits. rewrite <- Z.ldiff_land. apply Z.ldiff_diag. Qed.

(** The result of the two kernel calls, as relations. *)
Lemma EpollCtrlAdd_cases fd ev st b st' :
  EpollCtrlAdd epoll_ctl fd ev st = (b, st') ->
  ep_maxfd st' = ep_maxfd st /\ ep_objs st' = ep_objs st /\
  (forall fd', fd <> fd' -> fdref st' fd' = fdref st fd') /\
  (if b then
     f_epobj (fdref st' fd) = f_epobj (fdref st fd) /\
     f_events (fdref st' fd) = Z.lor (f_events (fdref st fd)) ev /\
     fdref st' fd = SetListenEvents (f_events (fdref st' fd)) (AttachEvents ev (fdref st fd))
   else refs_ok st -> fdref st' fd = fdref st fd).
Proof.
  unfold EpollCtrlAdd, FdRefGet. destruct (_ || _); [by intros [= <- <-]|].
  cbn [GetListenEvents AttachEvents f_events].
  destruct (Z.eqb_spec (f_events (fdref st fd)) (Z.lor (f_events (fdref st fd)) ev)) as [E|E].
  { intros [= <- <-]. split_and!; [done..| | | |].
    - intros. by rewrite fdref_set, decide_False.
    - by rewrite fdref_set, decide_True.
    - by rewrite fdref_set, decide_True.
    - by rewrite fdref_set, decide_True. }
  destruct (epoll_ctl _ _ _ _) as [[k rc] en].
  destruct (_ && _); intros [= <- <-]; (split; [done|]); (split; [done|]);
    (split; [intros; by rewrite fdref_set, decide_False, fdref_set_kernel|]);
    rewrite fdref_set, decide_True by done.
  - intros Hok. by apply Detach_Attach.
  - done.
Qed.

Lemma EpollCtrlDelRef_cases fd ev ur st b st' :
  EpollCtrlDelRef epoll_ctl fd ev ur st = (b, st') ->
  ep_maxfd st' = ep_maxfd st /\ ep_objs st' = ep_objs st /\
  (forall fd', fd <> fd' -> fdref st' fd' = fdref st fd') /\
  f_epobj (fdref st' fd) = f_epobj (fdref st fd) /\
  (refs_ok st -> refs_ok st').
Proof.
  unfold EpollCtrlDelRef, FdRefGet. destruct (_ || _); [by intros [= <- <-]|].
  assert (Hok : forall r, f_wr_ref r = f_wr_ref (DetachEvents ev (fdref st fd)) ->
      f_rd_ref r = f_rd_ref (DetachEvents ev (fdref st fd)) ->
      forall st1, (forall fd', fdref st1 fd' = fdref st fd') ->
      refs_ok st -> refs_ok (set_fdref fd r st1)).
  { intros r Hw Hr st1 Hs H fd'. rewrite fdref_set. case_decide; [|rewrite Hs; apply H].
    unfold ref_ok. rewrite Hw, Hr. apply Detach_ok, H. }
  destruct (_ =? _).
  { intros [= <- <-]. split_and!; [done..| | |by apply Hok].
    - intros. by rewrite fdref_set, decide_False.
    - by rewrite fdref_set, decide_True. }
  destruct (epoll_ctl _ _ _ _) as [[k rc] en].
  destruct (_ && _); intros [= <- <-]; (split_and!; [done..| | |by apply Hok]).
  - intros. by rewrite fdref_set, decide_False, fdref_set_kernel.
  - by rewrite fdref_set, decide_True by done.
  - intros. by rewrite fdref_set, decide_False, fdref_set_kernel.
  - by rewrite fdref_set, decide_True by done.
Qed.

Lemma EpollCtrlAdd_refs_ok fd ev st : refs_ok st -> refs_ok (EpollCtrlAdd epoll_ctl fd ev st).2.
Proof.
  intros Hok. destruct (EpollCtrlAdd epoll_ctl fd ev st) as [b st'] eqn:E.
  apply EpollCtrlAdd_cases in E as (_ & _ & Hf & Hb). intros fd'. simpl.
  destruct (decide (fd = fd')) as [<-|]; [|by rewrite Hf].
  destruct b; [|by rewrite Hb]. destruct Hb as (_ & _ & ->).
  unfold ref_ok; simpl. apply Attach_ok, Hok.
Qed.
End lemmas.

(** ** The proxy agrees with the kernel *)

Section kernel.
Context {K : Type} (epoll_ctl : K -> epoll_op -> Z -> Z -> K * Z * Z).
(** The events the kernel watches on a descriptor, [None] when it is not in the
    epoll set. *)
Context (interest : K -> Z -> option Z).

(** What [epoll_ctl(2)] documents. *)
Record epoll_laws : Prop := {
  ctl_ok : forall k op fd ev k' rc en, epoll_ctl k op fd ev = (k', rc, en) -> 0 <= rc ->
    interest k' fd = match op with EPOLL_CTL_DEL => None | _ => Some ev end;
  ctl_frame : forall k op fd ev k' rc en fd', epoll_ctl k op fd ev = (k', rc, en) -> fd <> fd' ->
    interest k' fd' = interest k fd';
  ctl_fail : forall k op fd ev k' rc en, epoll_ctl k op fd ev = (k', rc, en) -> rc < 0 ->
    interest k' fd = interest k fd;
  ctl_eexist : forall k fd ev k' rc, epoll_ctl k EPOLL_CTL_ADD fd ev = (k', rc, EEXIST) -> rc < 0 ->
    interest k fd <> None;
  ctl_enoent : forall k fd ev k' rc, epoll_ctl k EPOLL_CTL_DEL fd ev = (k', rc, ENOENT) -> rc < 0 ->
    interest k fd = None;
}.

(** The listen events of every cell are what the kernel watches. *)
Definition synced (st : EpollState K) : Prop :=
  forall fd, 0 <= fd < ep_maxfd st ->
    interest (ep_kernel st) fd =
      if f_events (fdref st fd) =? 0 then None else Some (f_events (fdref st fd)).

Context (laws : epoll_laws).
Implicit Types (st : EpollState K).

Lemma synced_set_same fd r st :
  f_events r = f_events (fdref st fd) -> synced st -> synced (set_fdref fd r st).
Proof.
  intros Hr Hs fd' Hfd. rewrite fdref_set. case_decide; subst; [rewrite Hr|]; by apply Hs.
Qed.

Lemma synced_call st k fd r op ev rc en :
  synced st -> epoll_ctl (ep_kernel st) op fd ev = (k, rc, en) ->
  interest k fd = (if f_events r =? 0 then None else Some (f_events r)) ->
  synced (set_fdref fd r (set_kernel k st)).
Proof.
  intros Hs Hc Hi fd' Hfd. rewrite fdref_set. simpl. case_decide; subst; [done|].
  rewrite (ctl_frame laws _ _ _ _ _ _ _ fd' Hc) by done. by apply Hs.
Qed.

Lemma FdRefGet_Some st fd r : FdRefGet st fd = Some r -> 0 <= fd < ep_maxfd st /\ r = fdref st fd.
Proof.
  unfold FdRefGet. destruct (Z.leb_spec (ep_maxfd st) fd), (Z.ltb_spec fd 0); simpl; intros; by simplify_eq.
Qed.

Lemma EpollCtrlAdd_synced fd ev st : synced st -> synced (EpollCtrlAdd epoll_ctl fd ev st).2.
Proof.
  intros Hs. unfold EpollCtrlAdd. destruct (FdRefGet st fd) as [r|] eqn:Hg; [|done].
  apply FdRefGet_Some in Hg as [Hr ->]. cbn [GetListenEvents AttachEvents f_events].
  set (old := f_events (fdref st fd)).
  destruct (Z.eqb_spec old (Z.lor old ev)) as [E|E]; [by apply synced_set_same|].
  pose proof (Hs fd Hr) as Hi. fold old in Hi.
  destruct (epoll_ctl _ _ _ _) as [[k rc] en] eqn:Hc.
  assert (Hnew : Z.lor old ev <> 0).
  { intros Hz. apply Z.lor_eq_0_iff in Hz as [Ho He]. by rewrite Ho, He in E. }
  destruct (Z.ltb_spec rc 0) as [Hneg|Hok]; simpl.
  - destruct (_ && _) eqn:Hx; simpl.
    + apply andb_true_iff in Hx as [Hop%bool_decide_eq_true Hen%Z.eqb_eq]. subst en.
      exfalso. destruct (Z.eqb_spec old 0); [|done].
      by apply (ctl_eexist laws _ _ _ _ _ Hc Hneg).
    + eapply synced_call; eauto. by rewrite (ctl_fail laws _ _ _ _ _ _ _ Hc Hneg).
  - eapply synced_call; eauto. rewrite (ctl_ok laws _ _ _ _ _ _ _ Hc Hok). simpl.
    destruct (Z.eqb_spec (Z.lor old ev) 0); [done|]. by destruct (old =? 0).
Qed.

Lemma EpollCtrlDelRef_synced fd ev ur st :
  synced st -> synced (EpollCtrlDelRef epoll_ctl fd ev ur st).2.
Proof.
  intros Hs. unfold EpollCtrlDelRef. destruct (FdRefGet st fd) as [r|] eqn:Hg; [|done].
  apply FdRefGet_Some in Hg as [Hr ->]. cbn [GetListenEvents DetachEvents f_events].
  set (old := f_events (fdref st fd)).
  match goal with |- context [old =? ?e] => set (new := e) end.
  destruct (Z.eqb_spec old new) as [E|E]; [by apply synced_set_same|].
  pose proof (Hs fd Hr) as Hi. fold old in Hi.
  destruct (epoll_ctl _ _ _ _) as [[k rc] en] eqn:Hc.
  destruct (Z.ltb_spec rc 0) as [Hneg|Hok]; simpl.
  - destruct (_ && _) eqn:Hx; simpl.
    + apply andb_true_iff in Hx as [Hop%bool_decide_eq_true Hen%Z.eqb_eq]. subst en.
      eapply synced_call; eauto. simpl. destruct (Z.eqb_spec new 0) as [Hz|]; [|done].
      rewrite (ctl_fail laws _ _ _ _ _ _ _ Hc Hneg). by apply (ctl_enoent laws _ _ _ _ _ Hc Hneg).
    + eapply synced_call; eauto. by rewrite (ctl_fail laws _ _ _ _ _ _ _ Hc Hneg).
  - eapply synced_call; eauto. rewrite (ctl_ok laws _ _ _ _ _ _ _ Hc Hok). simpl.
    by destruct (new =? 0).
Qed.
End kernel.

(** ** Sequences of calls *)

(** The calls the scheduler and the sockets make on the proxy. *)
Inductive ep_call :=
  | CallCtrlAdd (fd events : Z)
  | CallCtrlDelRef (fd events : Z) (use_ref : bool)
  | CallNtfyReg (fd : Z) (obj : option ptr)
  | CallAdd (l : list ptr)
  | CallDel (l : list ptr).

Definition ep_exec {K} (epoll_ctl : K -> epoll_op -> Z -> Z -> K * Z * Z) (c : ep_call) (st : EpollState K)
  : EpollState K :=
  match c with
  | CallCtrlAdd fd ev => (EpollCtrlAdd epoll_ctl fd ev st).2
  | CallCtrlDelRef fd ev ur => (EpollCtrlDelRef epoll_ctl fd ev ur st).2
  | CallNtfyReg fd obj => EpollNtfyReg fd obj st
  | CallAdd l => (EpollAdd epoll_ctl l st).2
  | CallDel l => (EpollDel epoll_ctl l st).2
  end.

Definition ep_execs {K} epoll_ctl (cs : list ep_call) (st : EpollState K) : EpollState K :=
  fold_left (fun st c => ep_exec epoll_ctl c st) cs st.

Section keep.
Context {K : Type} (epoll_ctl : K -> epoll_op -> Z -> Z -> K * Z * Z).
(** A property kept by the two control calls and by owner changes is kept by every call. *)
Context (P : EpollState K -> Prop).
Hypothesis P_own : forall fd o st, P st -> P (set_fdref fd (SetNotifyObj o (fdref st fd)) st).
Hypothesis P_add : forall fd ev st, P st -> P (EpollCtrlAdd epoll_ctl fd ev st).2.
Hypothesis P_del : forall fd ev ur st, P st -> P (EpollCtrlDelRef epoll_ctl fd ev ur st).2.

Lemma EpollAddObj_keep o st : P st -> P (EpollAddObj epoll_ctl (Some o) st).2.
Proof.
  intros H. unfold EpollAddObj, EpollCtlAdd. destruct (FdRefGet _ _); [|done].
  destruct (_ && _); [done|].
  match goal with |- context [EpollCtrlAdd _ ?a ?b ?c] =>
    pose proof (P_add a b c (P_own _ _ _ H)) as H'; destruct (EpollCtrlAdd _ a b c) as [[] s] end;
  simpl in *; auto.
Qed.

Lemma EpollDelObj_keep o st : P st -> P (EpollDelObj epoll_ctl (Some o) st).2.
Proof.
  intros H. unfold EpollDelObj, EpollCtlDel. destruct (FdRefGet _ _); [|done].
  destruct (negb _); [done|].
  match goal with |- context [EpollCtrlDelRef _ ?a ?b ?u ?c] =>
    pose proof (P_del a b u c (P_own _ _ _ H)) as H'; destruct (EpollCtrlDelRef _ a b u c) as [[] s] end;
  simpl in *; auto.
Qed.

Lemma EpollAdd_loop_keep l st : P st -> P (EpollAdd_loop epoll_ctl l st).2.
Proof.
  revert st. induction l as [|o l IH]; intros st H; simpl; [done|].
  pose proof (EpollAddObj_keep o st H) as H'.
  destruct (EpollAddObj epoll_ctl (Some o) st) as [[] s]; [by apply IH|exact H'].
Qed.

Lemma EpollAdd_rollback_keep e l st : P st -> P (EpollAdd_rollback epoll_ctl e l st).
Proof.
  revert st. induction l as [|o l IH]; intros st H; simpl; [done|].
  case_decide; [done|]. by apply IH, EpollDelObj_keep.
Qed.

Lemma EpollDel_keep l st : P st -> P (EpollDel epoll_ctl l st).2.
Proof.
  revert st. induction l as [|o l IH]; intros st H; simpl; [done|].
  pose proof (EpollDelObj_keep o st H) as H'.
  destruct (EpollDelObj epoll_ctl (Some o) st) as [b s]; simpl in *.
  specialize (IH s H'). by destruct (EpollDel epoll_ctl l s).
Qed.

Lemma ep_exec_keep c st : P st -> P (ep_exec epoll_ctl c st).
Proof.
  intros H. destruct c; simpl; auto using EpollDel_keep.
  - unfold EpollNtfyReg. destruct (FdRefGet st fd) as [r|] eqn:E; [|done].
    apply FdRefGet_Some in E as [_ ->]. auto.
  - unfold EpollAdd. pose proof (EpollAdd_loop_keep l st H) as H'.
    destruct (EpollAdd_loop epoll_ctl l st) as [[e|] s]; simpl in *; auto using EpollAdd_rollback_keep.
Qed.

Lemma ep_execs_keep cs st : P st -> P (ep_execs epoll_ctl cs st).
Proof.
  unfold ep_execs. revert st. induction cs as [|c cs IH]; intros st H; simpl; auto using ep_exec_keep.
Qed.
End keep.

(** ** Registering and unregistering a set of objects *)

Section closed_loop.
Context {K : Type} (epoll_ctl : K -> epoll_op -> Z -> Z -> K * Z * Z).
(** The kernel removes the descriptors [own] unless they are not in the set. *)
Context (own : Z -> Prop).
Hypothesis del_ok : forall k fd ev k' rc en, own fd ->
  epoll_ctl k EPOLL_CTL_DEL fd ev = (k', rc, en) -> 0 <= rc \/ en = ENOENT.
Implicit Types (st : EpollState K) (o : ptr) (r : FdRef).

(** Nobody listens on the cell. *)
Definition idle r : Prop :=
  f_wr_ref r = 0 /\ f_rd_ref r = 0 /\ f_events r = 0 /\ f_epobj r = None.

(** The cell after object [o] has registered [ev] on it. *)
Definition registered o (ev : Z) r : FdRef :=
  SetNotifyObj (Some o) (SetListenEvents ev (AttachEvents ev r)).

(** An object that may be registered: its descriptor has a cell and it listens
    to something. *)
Definition obj_ok st o : Prop :=
  0 <= eo_fd (obj_of st o) < ep_maxfd st /\ eo_events (obj_of st o) <> 0.

Lemma idle_ok r : idle r -> ref_ok r.
Proof. unfold idle, ref_ok. lia. Qed.

Lemma obj_of_ext st st' o : ep_objs st' = ep_objs st -> obj_of st' o = obj_of st o.
Proof. unfold obj_of. by intros ->. Qed.

Lemma FdRefGet_range st fd : 0 <= fd < ep_maxfd st -> FdRefGet st fd = Some (fdref st fd).
Proof.
  intros. unfold FdRefGet. destruct (Z.leb_spec (ep_maxfd st) fd), (Z.ltb_spec fd 0); done || lia.
Qed.

Lemma EpollAddObj_idle st o b st' :
  obj_ok st o -> idle (fdref st (eo_fd (obj_of st o))) ->
  EpollAddObj epoll_ctl (Some o) st = (b, st') ->
  ep_maxfd st' = ep_maxfd st /\ ep_objs st' = ep_objs st /\
  forall fd, fdref st' fd =
    if b && bool_decide (fd = eo_fd (obj_of st o))
    then registered o (eo_events (obj_of st o)) (fdref st fd) else fdref st fd.
Proof.
  intros [Hfd Hev] Hidle. unfold EpollAddObj. rewrite FdRefGet_range by done.
  unfold EpollCtlAdd. set (fd := eo_fd (obj_of st o)) in *.
  set (ev := eo_events (obj_of st o)) in *. pose proof Hidle as (Hw & Hr & He & Ho).
  unfold GetNotifyObj. rewrite Ho. simpl.
  set (st1 := set_fdref fd _ st).
  assert (H1 : fdref st1 fd = SetNotifyObj (Some o) (fdref st fd)) by (unfold st1; by rewrite fdref_set, decide_True).
  assert (Hne : forall fd', fd' <> fd -> fdref st1 fd' = fdref st fd')
    by (intros; unfold st1; by rewrite fdref_set, decide_False).
  destruct (EpollCtrlAdd epoll_ctl fd ev st1) as [b1 st2] eqn:E.
  pose proof E as (Hmax & Hobjs & Hf & Hb)%EpollCtrlAdd_cases.
  destruct b1; intros [= <- <-]; (split; [exact Hmax|]); (split; [exact Hobjs|]); intros fd'; simpl.
  - case_bool_decide as Hd; [subst fd'|rewrite Hf by congruence; apply Hne; congruence].
    destruct Hb as (_ & Hl & Hb). rewrite Hb, Hl, H1. simpl. by rewrite He.
  - rewrite fdref_set. case_decide as Hd; [subst fd'|rewrite Hf by congruence; apply Hne; congruence].
    unfold EpollCtrlAdd in E. rewrite FdRefGet_range in E by done.
    rewrite H1 in E. cbn [GetListenEvents AttachEvents SetNotifyObj f_events] in E.
    rewrite He in E. rewrite Z.lor_0_l in E.
    destruct (0 =? ev); [done|]. destruct (epoll_ctl _ _ _ _) as [[k rc] en].
    destruct (_ && _); [|done]. injection E as <-.
    rewrite fdref_set, decide_True by done. change (AttachEvents ev _) with (AttachEvents ev (SetNotifyObj (Some o) (fdref st fd))).
    rewrite Detach_Attach by exact (idle_ok _ Hidle). destruct (fdref st fd); simpl in *. by subst.
Qed.

Lemma EpollDelObj_registered st o r :
  own (eo_fd (obj_of st o)) -> obj_ok st o -> idle r ->
  fdref st (eo_fd (obj_of st o)) = registered o (eo_events (obj_of st o)) r ->
  exists st', EpollDelObj epoll_ctl (Some o) st = (true, st') /\
    ep_maxfd st' = ep_maxfd st /\ ep_objs st' = ep_objs st /\
    forall fd, fdref st' fd = if decide (fd = eo_fd (obj_of st o)) then r else fdref st fd.
Proof.
  intros Hown [Hfd Hev] Hidle Hreg. unfold EpollDelObj. rewrite FdRefGet_range by done.
  unfold EpollCtlDel. set (fd := eo_fd (obj_of st o)) in *.
  set (ev := eo_events (obj_of st o)) in *. pose proof Hidle as (Hw & Hr & He & Ho).
  rewrite Hreg. simpl. rewrite bool_decide_true by done. simpl.
  set (st1 := set_fdref fd _ st).
  assert (H1 : fdref st1 fd = SetListenEvents ev (AttachEvents ev r)).
  { unfold st1. rewrite fdref_set, decide_True by done.
    destruct r; simpl in *. subst. done. }
  assert (Hne : forall fd', fd' <> fd -> fdref st1 fd' = fdref st fd')
    by (intros; unfold st1; by rewrite fdref_set, decide_False).
  assert (Hd : DetachEvents ev (SetListenEvents ev (AttachEvents ev r)) = SetListenEvents ev r).
  { pose proof (Detach_Attach ev r (idle_ok r Hidle)) as Hda.
    rewrite <- Hda at 2. destruct r; simpl in *. done. }
  unfold EpollCtrlDelRef. rewrite (FdRefGet_range st1) by done. rewrite H1, Hd. simpl.
  rewrite clear_self. destruct (Z.eqb_spec ev 0) as [|_]; [done|]. simpl.
  destruct (epoll_ctl _ _ _ _) as [[k rc] en] eqn:Hc. pose proof (del_ok _ _ _ _ _ _ Hown Hc) as Hdel.
  destruct (Z.ltb_spec rc 0); [destruct Hdel as [? | ->]; [lia|]|]; simpl;
    (eexists; split; [reflexivity|]; split_and!; [done..|]);
    intros fd'; rewrite fdref_set; (case_decide; subst;
      [rewrite decide_True by done; destruct r; simpl in *; by subst
      |rewrite decide_False by done; rewrite fdref_set_kernel; by apply Hne]).
Qed.

(** [st] is [st0] with exactly the objects of [l] registered. *)
Record regd (st0 : EpollState K) (l : list ptr) st : Prop := {
  rg_max : ep_maxfd st = ep_maxfd st0;
  rg_objs : ep_objs st = ep_objs st0;
  rg_in : forall o, o ∈ l -> fdref st (eo_fd (obj_of st0 o)) =
    registered o (eo_events (obj_of st0 o)) (fdref st0 (eo_fd (obj_of st0 o)));
  rg_out : forall fd, (forall o, o ∈ l -> eo_fd (obj_of st0 o) <> fd) -> fdref st fd = fdref st0 fd;
}.

(** The objects of [l] may be registered together in [st0]: valid, on idle
    descriptors, one object per descriptor. *)
Definition addable (st0 : EpollState K) (l : list ptr) : Prop :=
  NoDup l /\ (forall o, o ∈ l -> obj_ok st0 o /\ idle (fdref st0 (eo_fd (obj_of st0 o)))) /\
  (forall o o', o ∈ l -> o' ∈ l -> eo_fd (obj_of st0 o) = eo_fd (obj_of st0 o') -> o = o').

Lemma regd_refl st : regd st [] st.
Proof. split; [done..| |done]. by intros o ?%elem_of_nil. Qed.

Lemma regd_obj_ok st0 l st o : regd st0 l st -> obj_ok st0 o -> obj_ok st o.
Proof.
  intros H [? ?]. unfold obj_ok. rewrite (obj_of_ext st0 st o) by apply H.
  by rewrite (rg_max _ _ _ H).
Qed.

Lemma regd_add st0 l st o b st' :
  regd st0 l st -> obj_ok st0 o -> idle (fdref st0 (eo_fd (obj_of st0 o))) ->
  (forall o', o' ∈ l -> eo_fd (obj_of st0 o') <> eo_fd (obj_of st0 o)) ->
  EpollAddObj epoll_ctl (Some o) st = (b, st') -> regd st0 (if b then (l ++ [o]) else l) st'.
Proof.
  intros H Hok Hidle Hnew E. pose proof (obj_of_ext st0 st o (rg_objs _ _ _ H)) as Hobj.
  pose proof (rg_out _ _ _ H _ Hnew) as Hout.
  destruct (EpollAddObj_idle st o b st') as (Hm & Ho & Hf); [by eapply regd_obj_ok| |done|].
  { by rewrite Hobj, Hout. }
  rewrite Hobj in Hf.
  split; [by rewrite Hm; apply H|by rewrite Ho; apply H| |].
  - intros o' Ho'. rewrite Hf. destruct b; simpl in *; [|by apply H].
    apply elem_of_app in Ho' as [Ho'| ->%list_elem_of_singleton].
    + rewrite bool_decide_false by auto. by apply H.
    + rewrite bool_decide_true by done. by rewrite Hout.
  - intros fd Hfd. rewrite Hf. destruct b; simpl; [|by apply H].
    rewrite bool_decide_false by (intros ->; eapply Hfd; [|done]; apply elem_of_app; right; by left).
    apply H. intros o' Ho'. apply Hfd, elem_of_app. by left.
Qed.

Lemma regd_del st0 o l st :
  own (eo_fd (obj_of st0 o)) -> regd st0 (o :: l) st -> obj_ok st0 o -> idle (fdref st0 (eo_fd (obj_of st0 o))) ->
  (forall o', o' ∈ l -> eo_fd (obj_of st0 o') <> eo_fd (obj_of st0 o)) ->
  exists st', EpollDelObj epoll_ctl (Some o) st = (true, st') /\ regd st0 l st'.
Proof.
  intros Hown H Hok Hidle Hnew. pose proof (obj_of_ext st0 st o (rg_objs _ _ _ H)) as Hobj.
  destruct (EpollDelObj_registered st o (fdref st0 (eo_fd (obj_of st0 o)))) as (st' & E & Hm & Ho & Hf);
    [by rewrite Hobj|by eapply regd_obj_ok|done| |].
  { rewrite Hobj. apply H. by left. }
  rewrite Hobj in Hf. exists st'. split; [done|].
  split; [by rewrite Hm; apply H|by rewrite Ho; apply H| |].
  - intros o' Ho'. rewrite Hf, decide_False by auto. apply H. by right.
  - intros fd Hfd. rewrite Hf. case_decide as E'; [by subst|]. apply H.
    intros o' [->|Ho']%elem_of_cons; [congruence|by apply Hfd].
Qed.

Lemma addable_cons st0 o l :
  addable st0 (o :: l) -> addable st0 l /\ (o ∉ l) /\ obj_ok st0 o /\
    idle (fdref st0 (eo_fd (obj_of st0 o))) /\
    (forall o', o' ∈ l -> eo_fd (obj_of st0 o') <> eo_fd (obj_of st0 o)).
Proof.
  intros (Hnd & Ha & Hu). pose proof (NoDup_cons_1_1 _ _ Hnd). apply NoDup_cons_1_2 in Hnd.
  destruct (Ha o); [by left|]. split_and!; [|done..|].
  - split_and!; [done|intros; apply Ha; by right|intros; apply Hu; by try right].
  - intros o' Ho' E. apply Hu in E; [by subst|by right|by left].
Qed.

Lemma EpollAdd_loop_regd st0 l l1 st err st' :
  addable st0 (l1 ++ l) -> regd st0 l1 st -> EpollAdd_loop epoll_ctl l st = (err, st') ->
  match err with
  | None => regd st0 (l1 ++ l) st'
  | Some e => exists la lb, l = la ++ (e :: lb) /\ (e ∉ la) /\ regd st0 (l1 ++ la) st'
  end.
Proof.
  revert l1 st. induction l as [|o l IH]; intros l1 st Hadd H; simpl.
  { intros [= <- <-]. by rewrite app_nil_r. }
  assert (Hperm : l1 ++ (o :: l) ≡ₚ o :: (l1 ++ l)) by (symmetry; apply Permutation_middle).
  pose proof Hadd as Hadd'. destruct Hadd' as (Hnd & Ha & Hu).
  destruct (Ha o) as [Hok Hidle]; [apply elem_of_app; right; by left|].
  assert (Hnew : forall o', o' ∈ l1 -> eo_fd (obj_of st0 o') <> eo_fd (obj_of st0 o)).
  { intros o' Ho' E. apply Hu in E; [|apply elem_of_app; by left|apply elem_of_app; right; by left].
    subst. rewrite Hperm in Hnd. apply NoDup_cons_1_1 in Hnd. apply Hnd, elem_of_app. by left. }
  destruct (EpollAddObj epoll_ctl (Some o) st) as [[] st1] eqn:E;
    pose proof (regd_add st0 l1 st o _ st1 H Hok Hidle Hnew E) as H1; simpl in H1.
  - intros Hl. specialize (IH (l1 ++ [o]) st1).
    rewrite <- !(assoc_L (++)) in IH. specialize (IH Hadd H1 Hl).
    destruct err as [e|]; [|done]. destruct IH as (la & lb & -> & Hn & Hr).
    exists (o :: la), lb. rewrite <- (assoc_L (++)) in Hr. split_and!; [done| |done].
    intros [->|?]%elem_of_cons; [|done].
    rewrite Hperm in Hnd. apply NoDup_cons_1_1 in Hnd. apply Hnd.
    apply elem_of_app; right. apply elem_of_app; right. by left.
  - intros [= <- <-]. exists [], l. split_and!; [done|apply not_elem_of_nil|by rewrite app_nil_r].
Qed.

Lemma rollback_regd st0 e la lb st :
  (forall o, o ∈ la -> own (eo_fd (obj_of st0 o))) -> addable st0 la -> e ∉ la -> regd st0 la st ->
  regd st0 [] (EpollAdd_rollback epoll_ctl e (la ++ e :: lb) st).
Proof.
  revert st. induction la as [|o la IH]; intros st Hown Hadd He H; simpl.
  { by rewrite decide_True. }
  rewrite decide_False by (intros ->; apply He; by left).
  apply addable_cons in Hadd as (Hadd & _ & Hok & Hidle & Hnew).
  destruct (regd_del st0 o la st (Hown o ltac:(by left)) H Hok Hidle Hnew) as (st' & -> & H').
  apply IH; [|done| |done]; [intros o' Ho'; apply Hown; by right|]. intros ?. apply He. by right.
Qed.

Lemma EpollDel_regd st0 l st :
  (forall o, o ∈ l -> own (eo_fd (obj_of st0 o))) -> addable st0 l -> regd st0 l st ->
  exists st', EpollDel epoll_ctl l st = (true, st') /\ regd st0 [] st'.
Proof.
  revert st. induction l as [|o l IH]; intros st Hown Hadd H; simpl; [by exists st|].
  apply addable_cons in Hadd as (Hadd & _ & Hok & Hidle & Hnew).
  destruct (regd_del st0 o l st (Hown o ltac:(by left)) H Hok Hidle Hnew) as (st1 & -> & H1).
  destruct (IH st1 (fun o' Ho' => Hown o' (list_elem_of_further _ _ _ Ho')) Hadd H1) as (st2 & -> & H2). by exists st2.
Qed.

Lemma addable_app_l st0 la lb : addable st0 (la ++ lb) -> addable st0 la.
Proof.
  intros (Hnd & Ha & Hu). apply list.NoDup_app in Hnd as (Hnd & _).
  split_and!; [done| |]; intros; [apply Ha|apply Hu]; auto; apply elem_of_app; by left.
Qed.
End closed_loop.

(** ** A kernel to run the proxy on *)

(** The epoll set as a map; descriptor 7 is of a kind epoll refuses (EPERM). *)
Definition map_epoll_ctl (k : gmap Z Z) (op : epoll_op) (fd ev : Z) : gmap Z Z * Z * Z :=
  match op, k !! fd with
  | EPOLL_CTL_ADD, Some _ => (k, -1, EEXIST)
  | EPOLL_CTL_ADD, None => if fd =? 7 then (k, -1, 1) else (<[fd := ev]> k, 0, 0)
  | EPOLL_CTL_MOD, Some _ => (<[fd := ev]> k, 0, 0)
  | EPOLL_CTL_MOD, None => (k, -1, ENOENT)
  | EPOLL_CTL_DEL, Some _ => (delete fd k, 0, 0)
  | EPOLL_CTL_DEL, None => (k, -1, ENOENT)
  end.

Definition map_interest (k : gmap Z Z) (fd : Z) : option Z := k !! fd.

Lemma map_epoll_laws : epoll_laws map_epoll_ctl map_interest.
Proof.
  split; unfold map_epoll_ctl, map_interest; intros *;
    try destruct op; try (destruct (k !! fd) eqn:E);
    try destruct (fd =? 7); intros; simplify_map_eq; done || lia.
Qed.

Lemma map_del_ok k fd ev k' rc en :
  map_epoll_ctl k EPOLL_CTL_DEL fd ev = (k', rc, en) -> 0 <= rc \/ en = ENOENT.
Proof.
  unfold map_epoll_ctl. destruct (k !! fd); intros; simplify_eq; [by left|by right].
Qed.

(** ** The theorems about the proxy *)

Section claims.
Context {K : Type} (epoll_ctl : K -> epoll_op -> Z -> Z -> K * Z * Z).

(** A failed [EpollCtrlAdd] has no effect on the proxy.  Whatever the kernel
    answers, when the call returns [false] every descriptor's cell (counters,
    listen events, owner) is what it was, and so are the objects; when it returns
    [true] the listen events of the descriptor include the requested ones and no
    other cell has changed. *)
Theorem EpollCtrlAdd_all_or_nothing (fd events : Z) (st : EpollState K) :
  refs_ok st ->
  let '(b, st') := EpollCtrlAdd epoll_ctl fd events st in
  ep_objs st' = ep_objs st /\ (forall fd', fd <> fd' -> fdref st' fd' = fdref st fd') /\
  if b then f_events (fdref st' fd) = Z.lor (f_events (fdref st fd)) events
  else fdref st' fd = fdref st fd.
Proof.
  intros Hok. destruct (EpollCtrlAdd epoll_ctl fd events st) as [b st'] eqn:E.
  apply EpollCtrlAdd_cases in E as (_ & Ho & Hf & Hb). split_and!; [done..|].
  destruct b; [|by apply Hb]. by destruct Hb as (_ & ? & _).
Qed.

(** C31: the proxy never disagrees with the kernel.  Under the documented
    behaviour of [epoll_ctl], after any sequence of calls starting from a state
    where the listen events recorded for every descriptor are exactly what the
    kernel watches, this is still so, and no reference count is negative. *)
Theorem epoll_proxy_agrees_with_kernel (interest : K -> Z -> option Z) (cs : list ep_call)
    (st : EpollState K) :
  epoll_laws epoll_ctl interest -> synced interest st -> refs_ok st ->
  synced interest (ep_execs epoll_ctl cs st) /\ refs_ok (ep_execs epoll_ctl cs st).
Proof.
  intros Hl Hs Hr. split.
  - apply (ep_execs_keep epoll_ctl (synced interest)); [| | |done].
    + intros. by apply synced_set_same.
    + intros. by apply EpollCtrlAdd_synced.
    + intros. by apply EpollCtrlDelRef_synced.
  - apply (ep_execs_keep epoll_ctl refs_ok); [| | |done].
    + intros fd o st' H fd'. rewrite fdref_set. case_decide; [|done]. subst. apply H.
    + intros. by apply EpollCtrlAdd_refs_ok.
    + intros fd ev ur st' H. destruct (EpollCtrlDelRef epoll_ctl fd ev ur st') as [b st''] eqn:E.
      apply EpollCtrlDelRef_cases in E as (_ & _ & _ & _ & Hk). by apply Hk.
Qed.

(** C30: registering a thread's descriptors is a transaction, and registration
    followed by [EpollDel] is the identity.  For objects on distinct descriptors
    nobody listens on, if [EpollAdd] fails (on whichever object) the rollback leaves
    every cell as it was before the call; if it succeeds, [EpollDel] of the same
    list succeeds and leaves every cell as it was before the registration.  The
    kernel may refuse any addition, with any error; it must not refuse to remove one
    of these descriptors, unless with [ENOENT]. *)
Theorem EpollAdd_closed_loop (l : list ptr) (st : EpollState K) :
  (forall k o ev k' rc en, o ∈ l ->
     epoll_ctl k EPOLL_CTL_DEL (eo_fd (obj_of st o)) ev = (k', rc, en) -> 0 <= rc \/ en = ENOENT) ->
  addable st l ->
  let '(b, st1) := EpollAdd epoll_ctl l st in
  if b then
    (forall o, o ∈ l -> f_epobj (fdref st1 (eo_fd (obj_of st o))) = Some o) /\
    exists st2, EpollDel epoll_ctl l st1 = (true, st2) /\ forall fd, fdref st2 fd = fdref st fd
  else forall fd, fdref st1 fd = fdref st fd.
Proof.
  intros Hdel Hadd. set (own := fun fd => exists o, o ∈ l /\ eo_fd (obj_of st o) = fd).
  assert (Hown : forall k fd ev k' rc en, own fd -> epoll_ctl k EPOLL_CTL_DEL fd ev = (k', rc, en) -> 0 <= rc \/ en = ENOENT).
  { intros k fd ev k' rc en (o & Ho & <-). by eapply Hdel. }
  unfold EpollAdd.
  destruct (EpollAdd_loop epoll_ctl l st) as [err st1] eqn:E.
  pose proof (EpollAdd_loop_regd epoll_ctl st l [] st err st1 Hadd (regd_refl st) E) as H.
  assert (Hnil : forall st', regd st [] st' -> forall fd, fdref st' fd = fdref st fd).
  { intros st' H' fd. apply (rg_out _ _ _ H'). by intros o ?%elem_of_nil. }
  destruct err as [e|].
  - destruct H as (la & lb & -> & Hn & Hr). apply Hnil.
    apply (rollback_regd epoll_ctl own Hown); [|by eapply addable_app_l|done|done].
    intros o Ho. exists o. split; [apply elem_of_app; by left|done].
  - split.
    + intros o Ho. by rewrite (rg_in _ _ _ H o Ho).
    + destruct (EpollDel_regd epoll_ctl own Hown st l st1) as (st2 & E2 & H2); [|done|done|eauto].
      intros o Ho. by exists o.
Qed.
End claims.

(** A state with three objects: 1 on descriptor 5, 2 on descriptor 7, which the
    kernel refuses, and 3 on descriptor 6. *)
Definition sample_epoll : EpollState (gmap Z Z) :=
  mkEpollState 100 ∅ ∅
    (<[1%positive := EnableInput (new_EpollerObj 5)]>
     (<[2%positive := EnableOutput (new_EpollerObj 7)]>
      (<[3%positive := EnableOutput (EnableInput (new_EpollerObj 6))]> ∅))).

Lemma sample_refs fd : fdref sample_epoll fd = new_FdRef.
Proof. done. Qed.

Lemma EpollCtrlAdd_all_or_nothing_witness :
  (EpollCtrlAdd map_epoll_ctl 7 EPOLLIN sample_epoll).1 = false /\
  fdref (EpollCtrlAdd map_epoll_ctl 7 EPOLLIN sample_epoll).2 7 = new_FdRef.
Proof.
  pose proof (EpollCtrlAdd_all_or_nothing map_epoll_ctl 7 EPOLLIN sample_epoll) as H.
  split; [vm_compute; reflexivity|].
  assert (refs_ok sample_epoll) as Hok by (intros fd; rewrite sample_refs; split; simpl; lia).
  specialize (H Hok). vm_compute in H. vm_compute. apply H.
Defined.

Lemma epoll_proxy_agrees_with_kernel_witness :
  synced map_interest (ep_execs map_epoll_ctl
    [CallAdd [1%positive; 3%positive]; CallCtrlDelRef 6 EPOLLIN false; CallAdd [2%positive];
     CallDel [1%positive; 3%positive]] sample_epoll).
Proof.
  apply (epoll_proxy_agrees_with_kernel map_epoll_ctl map_interest).
  - apply map_epoll_laws.
  - intros fd _. reflexivity.
  - intros fd. rewrite sample_refs. split; simpl; lia.
Defined.

Lemma EpollAdd_closed_loop_witness :
  (EpollAdd map_epoll_ctl [1%positive; 3%positive; 2%positive] sample_epoll).1 = false /\
  forall fd, fdref (EpollAdd map_epoll_ctl [1%positive; 3%positive; 2%positive] sample_epoll).2 fd
             = new_FdRef.
Proof.
  assert (Hadd : addable sample_epoll [1%positive; 3%positive; 2%positive]).
  { split_and!.
    - by apply (bool_decide_unpack _).
    - intros o Ho. rewrite !elem_of_cons in Ho.
      destruct Ho as [-> | [-> | [-> | Ho%elem_of_nil]]]; [..|done];
        (split; [split; [by vm_compute|by vm_compute]|done]).
    - intros o o' Ho Ho'. rewrite !elem_of_cons in Ho, Ho'.
      destruct Ho as [-> | [-> | [-> | Ho%elem_of_nil]]]; [..|done];
      destruct Ho' as [-> | [-> | [-> | Ho'%elem_of_nil]]]; try done; by vm_compute. }
  pose proof (EpollAdd_closed_loop map_epoll_ctl [1%positive; 3%positive; 2%positive] sample_epoll
    (fun k o ev k' rc en _ => map_del_ok k _ ev k' rc en) Hadd) as H.
  assert (Hb : (EpollAdd map_epoll_ctl [1%positive; 3%positive; 2%positive] sample_epoll).1 = false)
    by (vm_compute; reflexivity).
  destruct (EpollAdd map_epoll_ctl _ sample_epoll) as [b st1]. simpl in *. subst b. auto.
Defined.
