(* ===== verification/Thread.v ===== *)
(** * Micro threads

    Models the thread objects of
    [src/src/sync_frame/micro_thread/micro_thread.h] and [micro_thread.cpp]: the
    classes [Thread] and [MicroThread] with their types, states and list flags,
    and the thread store seen as a heap store (threads are ordered by wake-up
    time).  The stack and the register context of a thread are not part of the
    model: [save_context]/[restore_context] only transfer control, which the
    scheduler model expresses by the active thread. *)

From Stdlib Require Import ZArith Lia.
From stdpp Require Import base gmap list option.
From S2P Require Import Prelude Heap Epoll.

(** [MicroThread::ThreadType] *)
Inductive ThreadType := NORMAL | PRIMORDIAL | DAEMON | SUB_THREAD.

(** [MicroThread::ThreadState] *)
Inductive ThreadState := INITIAL | RUNABLE | RUNNING | SLEEPING | PENDING.

#[export] Instance ThreadType_eq_dec : EqDecision ThreadType.
Proof. solve_decision. Defined.
#[export] Instance ThreadState_eq_dec : EqDecision ThreadState.
Proof. solve_decision. Defined.

(** [MicroThread::ThreadFlag] *)
Definition NOT_INLIST : Z := 0x0.
Definition FREE_LIST : Z := 0x1.
Definition IO_LIST : Z := 0x2.
Definition SLEEP_LIST : Z := 0x4.
Definition RUN_LIST : Z := 0x8.
Definition PEND_LIST : Z := 0x10.
Definition SUB_LIST : Z := 0x20.

(** [class MicroThread : public Thread : public HeapEntry].  [mt_start] is the
    entry function ([None] for [NULL]) and [mt_args] its argument. *)
Record MicroThread := mkMicroThread {
  mt_index : Z;
  mt_wakeup_time : Z;
  mt_state : ThreadState;
  mt_type : ThreadType;
  mt_flag : Z;
  mt_fdset : list ptr;
  mt_sub_list : list ptr;
  mt_parent : option ptr;
  mt_start : option Z;
  mt_args : Z;
}.

(** The constructor. *)
Definition new_MicroThread (type : ThreadType) : MicroThread :=
  mkMicroThread 0 0 INITIAL type NOT_INLIST [] [] None None 0.

(** [MicroThread::CleanState] *)
Definition CleanState (t : MicroThread) : MicroThread :=
  mkMicroThread (mt_index t) (mt_wakeup_time t) INITIAL NORMAL NOT_INLIST [] [] None None 0.

(** Field updates: [SetWakeupTime], [SetState], [SetType], [SetFlag],
    [UnsetFlag], [SetParent], [SetSartFunc] and the descriptor set. *)
Definition SetIndex_ (i : Z) (t : MicroThread) : MicroThread :=
  mkMicroThread i (mt_wakeup_time t) (mt_state t) (mt_type t) (mt_flag t) (mt_fdset t)
    (mt_sub_list t) (mt_parent t) (mt_start t) (mt_args t).
Definition SetWakeupTime (w : Z) (t : MicroThread) : MicroThread :=
  mkMicroThread (mt_index t) w (mt_state t) (mt_type t) (mt_flag t) (mt_fdset t)
    (mt_sub_list t) (mt_parent t) (mt_start t) (mt_args t).
Definition SetState (s : ThreadState) (t : MicroThread) : MicroThread :=
  mkMicroThread (mt_index t) (mt_wakeup_time t) s (mt_type t) (mt_flag t) (mt_fdset t)
    (mt_sub_list t) (mt_parent t) (mt_start t) (mt_args t).
Definition SetType (y : ThreadType) (t : MicroThread) : MicroThread :=
  mkMicroThread (mt_index t) (mt_wakeup_time t) (mt_state t) y (mt_flag t) (mt_fdset t)
    (mt_sub_list t) (mt_parent t) (mt_start t) (mt_args t).
Definition put_flag (f : Z) (t : MicroThread) : MicroThread :=
  mkMicroThread (mt_index t) (mt_wakeup_time t) (mt_state t) (mt_type t) f (mt_fdset t)
    (mt_sub_list t) (mt_parent t) (mt_start t) (mt_args t).
Definition SetFlag (f : Z) (t : MicroThread) : MicroThread := put_flag (Z.lor (mt_flag t) f) t.
Definition UnsetFlag (f : Z) (t : MicroThread) : MicroThread := put_flag (clear_bits (mt_flag t) f) t.
Definition HasFlag (f : Z) (t : MicroThread) : bool := has (mt_flag t) f.
Definition put_fdset (l : list ptr) (t : MicroThread) : MicroThread :=
  mkMicroThread (mt_index t) (mt_wakeup_time t) (mt_state t) (mt_type t) (mt_flag t) l
    (mt_sub_list t) (mt_parent t) (mt_start t) (mt_args t).
Definition put_sub_list (l : list ptr) (t : MicroThread) : MicroThread :=
  mkMicroThread (mt_index t) (mt_wakeup_time t) (mt_state t) (mt_type t) (mt_flag t) (mt_fdset t)
    l (mt_parent t) (mt_start t) (mt_args t).
Definition SetParent (p : option ptr) (t : MicroThread) : MicroThread :=
  mkMicroThread (mt_index t) (mt_wakeup_time t) (mt_state t) (mt_type t) (mt_flag t) (mt_fdset t)
    (mt_sub_list t) p (mt_start t) (mt_args t).
Definition SetSartFunc (f : option Z) (a : Z) (t : MicroThread) : MicroThread :=
  mkMicroThread (mt_index t) (mt_wakeup_time t) (mt_state t) (mt_type t) (mt_flag t) (mt_fdset t)
    (mt_sub_list t) (mt_parent t) f a.

(** [ClearAllFd], [AddFd], [AddFdList] *)
Definition ClearAllFd : MicroThread -> MicroThread := put_fdset [].
Definition AddFd (o : ptr) (t : MicroThread) : MicroThread := put_fdset (mt_fdset t ++ [o]) t.
Definition AddFdList (l : list ptr) (t : MicroThread) : MicroThread := put_fdset (mt_fdset t ++ l) t.

Definition IsDaemon (t : MicroThread) : bool := bool_decide (mt_type t = DAEMON).
Definition IsPrimo (t : MicroThread) : bool := bool_decide (mt_type t = PRIMORDIAL).
Definition IsSubThread (t : MicroThread) : bool := bool_decide (mt_type t = SUB_THREAD).
Definition HasNoSubThread (t : MicroThread) : bool := bool_decide (mt_sub_list t = []).

(** [Thread::Reset]: the wake-up time and, through [CleanState], everything but
    the heap position; the private data and the context are not modelled. *)
Definition Reset (t : MicroThread) : MicroThread := CleanState (SetWakeupTime 0 t).

(** ** The thread store *)

Definition thr (s : gmap ptr MicroThread) (t : ptr) : MicroThread :=
  default (new_MicroThread NORMAL) (s !! t).

(** Apply [f] to the thread [t]. *)
Definition upd (t : ptr) (f : MicroThread -> MicroThread) (s : gmap ptr MicroThread) : gmap ptr MicroThread :=
  <[t := f (thr s t)]> s.

Lemma thr_upd t f s t' : thr (upd t f s) t' = if decide (t = t') then f (thr s t) else thr s t'.
Proof. unfold thr, upd. rewrite lookup_insert. by case_decide. Qed.

Lemma thr_upd_eq t f s : thr (upd t f s) t = f (thr s t).
Proof. by rewrite thr_upd, decide_True. Qed.

Lemma thr_upd_ne t t' f s : t <> t' -> thr (upd t f s) t' = thr s t'.
Proof. intros. by rewrite thr_upd, decide_False. Qed.

(** [MicroThread::HeapValue] is the wake-up time. *)
#[export] Instance thread_heap_store : HeapStore (gmap ptr MicroThread).
Proof.
  refine {|
    HeapValue s t := mt_wakeup_time (thr s t);
    GetIndex s t := mt_index (thr s t);
    SetIndex t i s := upd t (SetIndex_ i) s |}; intros.
  - by rewrite thr_upd_eq.
  - by rewrite thr_upd_ne.
  - rewrite thr_upd. by case_decide; subst.
Defined.

(** ** List flags

    [low] is the part of the flag word that says which queue a thread is in. *)

Definition low (s : gmap ptr MicroThread) (t : ptr) : Z := Z.land (mt_flag (thr s t)) 31.

Lemma land_lor_mask x f m : Z.land (Z.lor x f) m = Z.lor (Z.land x m) (Z.land f m).
Proof. apply Z.land_lor_distr_l. Qed.

Lemma land_clear_mask x f m : Z.land (clear_bits x f) m = clear_bits (Z.land x m) f.
Proof. unfold clear_bits. rewrite <- !Z.land_assoc. f_equal. apply Z.land_comm. Qed.

Lemma has_low x f : Z.land f 31 = f -> has x f = has (Z.land x 31) f.
Proof. intros H. unfold has. by rewrite <- Z.land_assoc, (Z.land_comm 31), H. Qed.

(** ** Sub threads *)

(** [MicroThread::AddSubThread] and [RemoveSubThread]: the sub-thread list of
    [this] and the parent pointer and flag of [sub]; [None] when the list has no
    such link to remove. *)
Definition AddSubThread (this sub : ptr) (s : gmap ptr MicroThread) : gmap ptr MicroThread :=
  let s1 :=
    if HasFlag SUB_LIST (thr s sub) then s
    else upd sub (SetParent (Some this))
           (upd this (fun t => put_sub_list (mt_sub_list t ++ [sub]) t) s) in
  upd sub (SetFlag SUB_LIST) s1.

(** A tail queue without its element [x]; removing an element that is not linked
    in the queue is undefined. *)
Definition tailq_remove (x : ptr) (l : list ptr) : option (list ptr) :=
  if decide (x ∈ l) then Some (filter (λ y, y <> x) l) else None.

Definition RemoveSubThread (this sub : ptr) (s : gmap ptr MicroThread) : option (gmap ptr MicroThread) :=
  s1 ← (if HasFlag SUB_LIST (thr s sub) then
          l ← tailq_remove sub (mt_sub_list (thr s this));
          Some (upd sub (SetParent None) (upd this (put_sub_list l) s))
        else Some s);
  Some (upd sub (UnsetFlag SUB_LIST) s1).
