(* ===== verification/Sched.v ===== *)
(** * The micro-thread scheduler

    Models [src/src/sync_frame/micro_thread/micro_thread.cpp] (classes
    [ScheduleObj], [ThreadPool], [MtFrame]), the event dispatch of
    [epoll_proxy.cpp] and [mt_exec_all_task] of [mt_api.cpp].

    The state [MtFrame] holds the threads, the queues they wait in, the pool and
    the epoll proxy.  Context switches are expressed by the active thread
    [fr_curr]: [ThreadSchdule] chooses the next one.  An operation returns [None]
    where the program would dereference [NULL] or unlink an element that is not
    in the queue.  The clock is the value of [gettimeofday] in milliseconds,
    given to the operations that read it. *)

From Stdlib Require Import ZArith Lia.
From stdpp Require Import base gmap list option.
From S2P Require Import Prelude Heap Epoll Thread.

(** [class ThreadPool] *)
Record ThreadPool := mkThreadPool {
  tp_freelist : list ptr;
  tp_total_num : Z;
  tp_use_num : Z;
  tp_max_num : Z;
}.

Section frame.
Context {K : Type}.
Variable epoll_ctl : K -> epoll_op -> Z -> Z -> K * Z * Z.

(** [class MtFrame : public EpollProxy, public ThreadPool] *)
Record MtFrame := mkMtFrame {
  fr_threads : gmap ptr MicroThread;
  fr_runlist : list ptr;
  fr_iolist : list ptr;
  fr_pend_list : list ptr;
  fr_sleeplist : HeapList;
  fr_daemon : option ptr;
  fr_primo : option ptr;
  fr_curr : option ptr;
  fr_last_clock : Z;
  fr_waitnum : Z;
  fr_realtime : bool;
  fr_pool : ThreadPool;
  fr_epoll : EpollState K;
}.

Definition set_threads (s : gmap ptr MicroThread) (f : MtFrame) : MtFrame :=
  mkMtFrame s (fr_runlist f) (fr_iolist f) (fr_pend_list f) (fr_sleeplist f) (fr_daemon f)
    (fr_primo f) (fr_curr f) (fr_last_clock f) (fr_waitnum f) (fr_realtime f) (fr_pool f) (fr_epoll f).
Definition set_run (l : list ptr) (n : Z) (f : MtFrame) : MtFrame :=
  mkMtFrame (fr_threads f) l (fr_iolist f) (fr_pend_list f) (fr_sleeplist f) (fr_daemon f)
    (fr_primo f) (fr_curr f) (fr_last_clock f) n (fr_realtime f) (fr_pool f) (fr_epoll f).
Definition set_iolist (l : list ptr) (f : MtFrame) : MtFrame :=
  mkMtFrame (fr_threads f) (fr_runlist f) l (fr_pend_list f) (fr_sleeplist f) (fr_daemon f)
    (fr_primo f) (fr_curr f) (fr_last_clock f) (fr_waitnum f) (fr_realtime f) (fr_pool f) (fr_epoll f).
Definition set_pend (l : list ptr) (f : MtFrame) : MtFrame :=
  mkMtFrame (fr_threads f) (fr_runlist f) (fr_iolist f) l (fr_sleeplist f) (fr_daemon f)
    (fr_primo f) (fr_curr f) (fr_last_clock f) (fr_waitnum f) (fr_realtime f) (fr_pool f) (fr_epoll f).
Definition set_sleep (h : HeapList) (s : gmap ptr MicroThread) (f : MtFrame) : MtFrame :=
  mkMtFrame s (fr_runlist f) (fr_iolist f) (fr_pend_list f) h (fr_daemon f)
    (fr_primo f) (fr_curr f) (fr_last_clock f) (fr_waitnum f) (fr_realtime f) (fr_pool f) (fr_epoll f).
Definition SetActiveThread (t : option ptr) (f : MtFrame) : MtFrame :=
  mkMtFrame (fr_threads f) (fr_runlist f) (fr_iolist f) (fr_pend_list f) (fr_sleeplist f) (fr_daemon f)
    (fr_primo f) t (fr_last_clock f) (fr_waitnum f) (fr_realtime f) (fr_pool f) (fr_epoll f).
Definition SetLastClock (c : Z) (f : MtFrame) : MtFrame :=
  mkMtFrame (fr_threads f) (fr_runlist f) (fr_iolist f) (fr_pend_list f) (fr_sleeplist f) (fr_daemon f)
    (fr_primo f) (fr_curr f) c (fr_waitnum f) (fr_realtime f) (fr_pool f) (fr_epoll f).
Definition set_pool (p : ThreadPool) (f : MtFrame) : MtFrame :=
  mkMtFrame (fr_threads f) (fr_runlist f) (fr_iolist f) (fr_pend_list f) (fr_sleeplist f) (fr_daemon f)
    (fr_primo f) (fr_curr f) (fr_last_clock f) (fr_waitnum f) (fr_realtime f) p (fr_epoll f).
Definition set_epoll (e : EpollState K) (f : MtFrame) : MtFrame :=
  mkMtFrame (fr_threads f) (fr_runlist f) (fr_iolist f) (fr_pend_list f) (fr_sleeplist f) (fr_daemon f)
    (fr_primo f) (fr_curr f) (fr_last_clock f) (fr_waitnum f) (fr_realtime f) (fr_pool f) e.
Definition on_thread (t : ptr) (g : MicroThread -> MicroThread) (f : MtFrame) : MtFrame :=
  set_threads (upd t g (fr_threads f)) f.

(** [MtFrame::GetLastClock]: real time unless it was switched off. *)
Definition GetLastClock (sysms : Z) (f : MtFrame) : Z :=
  if fr_realtime f then sysms else fr_last_clock f.

(** ** Queue operations *)

(** [MtFrame::InsertSleep]: a full heap is only logged. *)
Definition InsertSleep (t : ptr) (f : MtFrame) : option MtFrame :=
  let s := upd t (fun x => SetState SLEEPING (SetFlag SLEEP_LIST x)) (fr_threads f) in
  '(_, h, s) ← HeapPush (fr_sleeplist f) s t;
  Some (set_sleep h s f).

(** [MtFrame::RemoveSleep] *)
Definition RemoveSleep (t : ptr) (f : MtFrame) : option MtFrame :=
  let s := upd t (UnsetFlag SLEEP_LIST) (fr_threads f) in
  '(_, h, s) ← HeapDelete (fr_sleeplist f) s t;
  Some (set_sleep h s f).

(** Appending to a queue that links threads through [_entry]: undefined when the
    link is in use in one of the two queues that share it. *)
Definition entry_free (t : ptr) (f : MtFrame) : bool :=
  bool_decide (t ∉ fr_iolist f) && bool_decide (t ∉ fr_pend_list f).

(** [MtFrame::InsertIoWait] *)
Definition InsertIoWait (t : ptr) (f : MtFrame) : option MtFrame :=
  if entry_free t f then
    let f := on_thread t (SetFlag IO_LIST) f in
    InsertSleep t (set_iolist (fr_iolist f ++ [t]) f)
  else None.

(** [MtFrame::RemoveIoWait] *)
Definition RemoveIoWait (t : ptr) (f : MtFrame) : option MtFrame :=
  let f := on_thread t (UnsetFlag IO_LIST) f in
  l ← tailq_remove t (fr_iolist f);
  RemoveSleep t (set_iolist l f).

(** [MtFrame::InsertRunable] *)
Definition InsertRunable (t : ptr) (f : MtFrame) : MtFrame :=
  let f := on_thread t (fun x => SetState RUNABLE (SetFlag RUN_LIST x)) f in
  set_run (fr_runlist f ++ [t]) (fr_waitnum f + 1) f.

(** [MtFrame::RemoveRunable]: pops the front of the run queue. *)
Definition RemoveRunable (t : ptr) (f : MtFrame) : option MtFrame :=
  let f := on_thread t (UnsetFlag RUN_LIST) f in
  match fr_runlist f with
  | [] => None
  | _ :: l => Some (set_run l (fr_waitnum f - 1) f)
  end.

(** [MtFrame::InsertPend] *)
Definition InsertPend (t : ptr) (f : MtFrame) : option MtFrame :=
  if entry_free t f then
    let f := on_thread t (fun x => SetState PENDING (SetFlag PEND_LIST x)) f in
    Some (set_pend (fr_pend_list f ++ [t]) f)
  else None.

(** [MtFrame::RemovePend] *)
Definition RemovePend (t : ptr) (f : MtFrame) : option MtFrame :=
  let f := on_thread t (UnsetFlag PEND_LIST) f in
  l ← tailq_remove t (fr_pend_list f);
  Some (set_pend l f).

(** ** Scheduling *)

(** [MtFrame::ThreadSchdule]: the head of the run queue, or the daemon when it
    is empty, becomes the active thread. *)
Definition ThreadSchdule (f : MtFrame) : option MtFrame :=
  match fr_runlist f with
  | [] =>
      d ← fr_daemon f;
      Some (on_thread d (SetState RUNNING) (SetActiveThread (Some d) f))
  | t :: _ =>
      f ← RemoveRunable t f;
      Some (on_thread t (SetState RUNNING) (SetActiveThread (Some t) f))
  end.

(** [Thread::sleep] with [ScheduleObj::ScheduleSleep], as called by
    [MtFrame::sleep] on the active thread. *)
Definition sleep (sysms ms : Z) (f : MtFrame) : option MtFrame :=
  match fr_curr f with
  | None => Some f
  | Some t =>
      let f := on_thread t (SetWakeupTime (u64 (GetLastClock sysms f + ms))) f in
      f ← InsertSleep t f;
      ThreadSchdule f
  end.

(** [Thread::Wait] with [ScheduleObj::SchedulePend]. *)
Definition Wait (f : MtFrame) : option MtFrame :=
  match fr_curr f with
  | None => Some f
  | Some t => f ← InsertPend t f; ThreadSchdule f
  end.

(** [ScheduleObj::ScheduleUnpend] *)
Definition ScheduleUnpend (t : ptr) (f : MtFrame) : option MtFrame :=
  f ← RemovePend t f;
  Some (InsertRunable t f).

(** [MtFrame::WaitNotify] *)
Definition WaitNotify (sysms timeout : Z) (f : MtFrame) : option MtFrame :=
  t ← fr_curr f;
  let f := on_thread t (SetWakeupTime (u64 (timeout + GetLastClock sysms f))) f in
  f ← InsertIoWait t f;
  ThreadSchdule f.

(** The loop of [MtFrame::WakeupTimeout].  Every round takes a thread off the
    heap, so one round more than there are sleepers is enough. *)
Fixpoint WakeupTimeout_loop (fuel : nat) (now : Z) (f : MtFrame) : option MtFrame :=
  match fuel with
  | O => None
  | S fuel =>
      match HeapTop (fr_sleeplist f) with
      | None => Some f
      | Some t =>
          if mt_wakeup_time (thr (fr_threads f) t) <=? now then
            f ← (if HasFlag IO_LIST (thr (fr_threads f) t) then RemoveIoWait t f else RemoveSleep t f);
            WakeupTimeout_loop fuel now (InsertRunable t f)
          else Some f
      end
  end.

(** [MtFrame::WakeupTimeout] *)
Definition WakeupTimeout (sysms : Z) (f : MtFrame) : option MtFrame :=
  WakeupTimeout_loop (S (Z.to_nat (h_count (fr_sleeplist f)))) (GetLastClock sysms f) f.

(** [MtFrame::EpollGetTimeout]: the time [epoll_wait] may block; the difference
    is converted to [int]. *)
Definition EpollGetTimeout (sysms : Z) (f : MtFrame) : Z :=
  let now := GetLastClock sysms f in
  match HeapTop (fr_sleeplist f) with
  | None => 10
  | Some t =>
      let w := mt_wakeup_time (thr (fr_threads f) t) in
      if w <? now then 0 else i32 (w - now)
  end.

(** ** Event dispatch *)

(** [EpollerObj::InputNotify] and [OutputNotify] (the same body): wake the owner
    if it waits for IO.  Returns 0, or -1 without an owner. *)
Definition IoNotify (obj : ptr) (f : MtFrame) : option (Z * MtFrame) :=
  match eo_thread (obj_of (fr_epoll f) obj) with
  | None => Some (-1, f)
  | Some t =>
      if HasFlag IO_LIST (thr (fr_threads f) t) then
        f ← RemoveIoWait t f;
        Some (0, InsertRunable t f)
      else Some (0, f)
  end.

(** [EpollerObj::HangupNotify] *)
Definition HangupNotify (obj : ptr) (f : MtFrame) : Z * MtFrame :=
  let o := obj_of (fr_epoll f) obj in
  (0, set_epoll (EpollCtrlDel epoll_ctl (eo_fd o) (eo_events o) (fr_epoll f)).2 f).

(** The body of the loop of [EpollProxy::EpollRcvEventList] for one event. *)
Definition EpollRcvEvent (osfd revents : Z) (f : MtFrame) : option MtFrame :=
  match FdRefGet (fr_epoll f) osfd with
  | None => Some f
  | Some item =>
      match GetNotifyObj item with
      | None =>
          Some (set_epoll (EpollCtrlDel epoll_ctl osfd
            (Z.land revents (Z.lor EPOLLIN EPOLLOUT)) (fr_epoll f)).2 f)
      | Some obj =>
          let f := set_epoll (set_obj obj (SetRcvEvents revents (obj_of (fr_epoll f) obj)) (fr_epoll f)) f in
          if has revents (Z.lor EPOLLERR EPOLLHUP) then Some (HangupNotify obj f).2
          else
            '(ret, f) ← (if has revents EPOLLIN then IoNotify obj f else Some (0, f));
            if negb (ret =? 0) then Some f
            else
              '(_, f) ← (if has revents EPOLLOUT then IoNotify obj f else Some (0, f));
              Some f
      end
  end.

(** [EpollProxy::EpollRcvEventList] on the events [epoll_wait] returned. *)
Fixpoint EpollRcvEventList (evts : list (Z * Z)) (f : MtFrame) : option MtFrame :=
  match evts with
  | [] => Some f
  | (osfd, revents) :: evts => f ← EpollRcvEvent osfd revents f; EpollRcvEventList evts f
  end.

(** ** Timers *)

(** What the notify functions of expired timers ([CDestLinks::timer_notify] and
    [TcpKeepConn::timer_notify]) and [RecycleObjs] do to the frame: they wake a thread
    that waits for IO ([NotifyThread]) and take an object out of epoll ([Close]). *)
Inductive timer_call :=
  | TimerWakes (t : ptr)
  | TimerEpollDel (obj : option ptr).

Definition timer_effect (c : timer_call) (f : MtFrame) : option MtFrame :=
  match c with
  | TimerWakes t =>
      if HasFlag IO_LIST (thr (fr_threads f) t) then f ← RemoveIoWait t f; Some (InsertRunable t f)
      else Some f
  | TimerEpollDel obj => Some (set_epoll (EpollDelObj epoll_ctl obj (fr_epoll f)).2 f)
  end.

(** [MtFrame::CheckExpired] as far as the frame is concerned: the timers that expire
    ([HeapTimer.check_expired]) and the recycled objects make the calls [timers]. *)
Fixpoint CheckExpired (timers : list timer_call) (f : MtFrame) : option MtFrame :=
  match timers with
  | [] => Some f
  | c :: timers => f ← timer_effect c f; CheckExpired timers f
  end.

(** One round of [MtFrame::DaemonRun]: dispatch the events, read the clock, wake
    the timed-out threads, let the timers expire, switch. *)
Definition DaemonRound (evts : list (Z * Z)) (clock now : Z) (timers : list timer_call) (f : MtFrame) : option MtFrame :=
  f ← EpollRcvEventList evts f;
  f ← WakeupTimeout now (SetLastClock clock f);
  f ← CheckExpired timers f;
  ThreadSchdule f.

(** ** Waiting for descriptors *)

(** [MtFrame::EpollSchedule] up to the context switch: collect the descriptors,
    register them, wait.  [Some (false, f)]: the call returns [false] without
    switching. *)
Definition EpollSchedule_begin (fdlist : option (list ptr)) (fd : option ptr) (sysms timeout : Z)
    (f : MtFrame) : option (bool * MtFrame) :=
  match fr_curr f with
  | None => Some (false, f)
  | Some t =>
      let f := on_thread t ClearAllFd f in
      let f := match fdlist with Some l => on_thread t (AddFdList l) f | None => f end in
      let f := match fd with Some o => on_thread t (AddFd o) f | None => f end in
      let f := on_thread t (SetWakeupTime (u64 (timeout + GetLastClock sysms f))) f in
      let '(ok, e) := EpollAdd epoll_ctl (mt_fdset (thr (fr_threads f) t)) (fr_epoll f) in
      let f := set_epoll e f in
      if ok then
        f ← InsertIoWait t f;
        f ← ThreadSchdule f;
        Some (true, f)
      else Some (false, f)
  end.

(** [MtFrame::EpollSchedule] after the thread [t] runs again: count the
    descriptors that received events, unregister them all; [false] (with
    [errno = ETIME]) when there were none. *)
Definition EpollSchedule_end (t : ptr) (f : MtFrame) : bool * MtFrame :=
  let rcvfds := mt_fdset (thr (fr_threads f) t) in
  let rcvnum := length (filter (λ o, eo_revents (obj_of (fr_epoll f) o) <> 0) rcvfds) in
  let e := (EpollDel epoll_ctl rcvfds (fr_epoll f)).2 in
  (negb (Nat.eqb rcvnum 0), set_epoll e f).

(** ** The thread pool *)

(** The result of [new MicroThread()] followed by [Initial()]: the address of the
    new thread, or [None] when either fails. *)
Definition with_new (t : ptr) (f : MtFrame) : MtFrame :=
  set_threads (<[t := new_MicroThread NORMAL]> (fr_threads f)) f.

(** [ThreadPool::AllocThread] *)
Definition AllocThread (new : option ptr) (f : MtFrame) : option ptr * MtFrame :=
  let p := fr_pool f in
  match tp_freelist p with
  | t :: l =>
      (Some t, set_pool (mkThreadPool l (tp_total_num p) (tp_use_num p + 1) (tp_max_num p))
                 (on_thread t (UnsetFlag FREE_LIST) f))
  | [] =>
      if tp_max_num p <=? tp_total_num p then (None, f)
      else match new with
      | None => (None, f)
      | Some t => (Some t, set_pool (mkThreadPool [] (tp_total_num p + 1) (tp_use_num p + 1) (tp_max_num p))
                             (with_new t f))
      end
  end.

(** [ThreadPool::FreeThread]: the thread is reset and queued as free; when there
    are more free threads than [default_thread_num], the oldest is destroyed. *)
Definition FreeThread (default_thread_num : Z) (t : ptr) (f : MtFrame) : MtFrame :=
  let f := on_thread t Reset f in
  let p := fr_pool f in
  let l := tp_freelist p ++ [t] in
  let f := on_thread t (SetFlag FREE_LIST) f in
  let free_num := Z.of_nat (length l) in
  match l with
  | x :: l' =>
      if (default_thread_num <? free_num) && (1 <? free_num) then
        set_pool (mkThreadPool l' (tp_total_num p - 1) (tp_use_num p - 1) (tp_max_num p))
          (set_threads (delete x (fr_threads f)) f)
      else set_pool (mkThreadPool l (tp_total_num p) (tp_use_num p - 1) (tp_max_num p)) f
  | [] => f
  end.

(** [MtFrame::CreateThread] *)
Definition CreateThread (new : option ptr) (entry args : Z) (runable : bool) (f : MtFrame)
  : option ptr * MtFrame :=
  match AllocThread new f with
  | (None, f) => (None, f)
  | (Some t, f) =>
      let f := on_thread t (SetSartFunc (Some entry) args) f in
      (Some t, if runable then InsertRunable t f else f)
  end.

(** [ThreadPool::InitialPool]: [news] are the results of the allocations, one per
    round of the loop ([default_thread_num] of them). *)
Fixpoint InitialPool_loop (news : list (option ptr)) (f : MtFrame) : MtFrame :=
  match news with
  | [] => f
  | None :: news => InitialPool_loop news f
  | Some t :: news =>
      let f := on_thread t (SetFlag FREE_LIST) (with_new t f) in
      let p := fr_pool f in
      InitialPool_loop news
        (set_pool (mkThreadPool (tp_freelist p ++ [t]) (tp_total_num p) (tp_use_num p) (tp_max_num p)) f)
  end.

Definition InitialPool (news : list (option ptr)) (max_num : Z) (f : MtFrame) : bool * MtFrame :=
  let f := InitialPool_loop news f in
  let l := tp_freelist (fr_pool f) in
  let total := Z.of_nat (length l) in
  (negb (total <=? 0), set_pool (mkThreadPool l total 0 max_num) f).

(** The frame object before [InitFrame]: its sleep heap has the default size. *)
Definition new_MtFrame (e : EpollState K) : MtFrame :=
  mkMtFrame ∅ [] [] [] (new_HeapList 0) None None None 0 0 true (mkThreadPool [] 0 0 0) e.

(** The scheduler's part of [MtFrame::InitFrame] after [InitEpoll]: [None] when it
    returns [false].  [daemon_new] and [primo] are the addresses of the threads
    allocated here, [heap_ok] whether the heap could be enlarged. *)
Definition InitFrame (news : list (option ptr)) (max_thread_num : Z) (heap_ok : bool)
    (daemon_new primo : option ptr) (sysms : Z) (f : MtFrame) : option MtFrame :=
  let '(ok, f) := InitialPool news max_thread_num f in
  if negb ok then None
  else
    let '(rc, h) := HeapResize (fr_sleeplist f) (max_thread_num * 2) heap_ok in
    if rc <? 0 then None
    else
      let f := set_sleep h (fr_threads f) f in
      match AllocThread daemon_new f with
      | (None, _) => None
      | (Some d, f) =>
          let f := on_thread d (fun m => SetSartFunc (Some 0) 0 (SetState RUNABLE (SetType DAEMON m))) f in
          p ← primo;
          let s := upd p (SetState RUNNING) (<[p := new_MicroThread PRIMORDIAL]> (fr_threads f)) in
          Some (mkMtFrame s (fr_runlist f) [] [] (fr_sleeplist f) (Some d) (Some p) (Some p)
                  sysms (fr_waitnum f) (fr_realtime f) (fr_pool f) (fr_epoll f))
      end.

(** [MtFrame::GetRootThread]: up the chain of parents; [fuel] bounds its length. *)
Fixpoint GetRootThread_loop (fuel : nat) (thread parent : ptr) (f : MtFrame) : option ptr :=
  match fuel with
  | O => None
  | S fuel =>
      if IsSubThread (thr (fr_threads f) thread) then
        match mt_parent (thr (fr_threads f) thread) with
        | None => Some parent
        | Some p => GetRootThread_loop fuel p p f
        end
      else Some parent
  end.
Definition GetRootThread (fuel : nat) (f : MtFrame) : option ptr :=
  t ← fr_curr f; GetRootThread_loop fuel t t f.

(** [MicroThread::WakeupParent] *)
Definition WakeupParent (t : ptr) (f : MtFrame) : option MtFrame :=
  match mt_parent (thr (fr_threads f) t) with
  | None => Some f
  | Some p =>
      s ← RemoveSubThread p t (fr_threads f);
      let f := set_threads s f in
      if HasNoSubThread (thr s p) then ScheduleUnpend p f else Some f
  end.

(** [MicroThread::Run] of the active thread once its entry function has
    returned: wake the parent of a sub thread, recycle, schedule. *)
Definition RunEnd (default_thread_num : Z) (f : MtFrame) : option MtFrame :=
  match fr_curr f with
  | None => None
  | Some t =>
      f ← (if IsSubThread (thr (fr_threads f) t) then WakeupParent t f else Some f);
      ThreadSchdule (FreeThread default_thread_num t f)
  end.

(** [mt_exec_all_task], the creation loop: one sub thread per task, [None] as
    soon as one cannot be created; the threads created so far are returned. *)
Fixpoint exec_create (tasks : list (option ptr * Z)) (f : MtFrame) : bool * list ptr * MtFrame :=
  match tasks with
  | [] => (true, [], f)
  | (new, task) :: tasks =>
      match CreateThread new 0 task false f with
      | (None, f) => (false, [], f)
      | (Some sub, f) =>
          let '(ok, l, f) := exec_create tasks (on_thread sub (SetType SUB_THREAD) f) in
          (ok, sub :: l, f)
      end
  end.

(** The loop that attaches the sub threads to the active thread and starts them. *)
Fixpoint exec_start (t : ptr) (subs : list ptr) (f : MtFrame) : MtFrame :=
  match subs with
  | [] => f
  | sub :: subs =>
      let f := set_threads (AddSubThread t sub (fr_threads f)) f in
      exec_start t subs (InsertRunable sub f)
  end.

(** The clean-up loop at [EXIT_LABEL]. *)
Definition exec_cleanup (default_thread_num : Z) (subs : list ptr) (f : MtFrame) : MtFrame :=
  fold_left (fun f sub => FreeThread default_thread_num sub f) subs f.

(** [mt_exec_all_task] up to the point where the active thread waits for its sub
    threads; the result is the return value when it does not wait. *)
Definition mt_exec_all_task (default_thread_num : Z) (tasks : list (option ptr * Z)) (f : MtFrame)
  : option (option Z * MtFrame) :=
  match tasks, fr_curr f with
  | [], _ => Some (Some 0, f)
  | _, None => None
  | _, Some t =>
      let '(ok, subs, f) := exec_create tasks f in
      if ok then f ← Wait (exec_start t subs f); Some (None, f)
      else Some (Some (-1), exec_cleanup default_thread_num subs f)
  end.
End frame.
Arguments MtFrame : clear implicits.
