(* ===== verification/SchedInv.v ===== *)
(** * The scheduler invariant

    The invariant of [Sched.MtFrame]: every thread is in exactly the queue its
    flags say (none, free, run, sleep, IO wait or pending), its state agrees, the
    sleep heap is well formed and never full.  This file proves that the queue
    operations move one thread and keep everything else, which the theorems of
    [SchedProps] build on. *)

From Stdlib Require Import ZArith Lia.
From stdpp Require Import base gmap list option.
From S2P Require Import Prelude Heap Epoll Thread Sched.

(** The values of the queue part of a flag word: no queue, free, sleeping,
    waiting for IO (also in the sleep heap), runnable, pending. *)
Definition Loose : Z := 0.
Definition Free : Z := 1.
Definition Sleep : Z := 4.
Definition IoWait : Z := 6.
Definition Run : Z := 8.
Definition Pend : Z := 16.

Definition place_ok (b : Z) : Prop :=
  b = Loose \/ b = Free \/ b = Sleep \/ b = IoWait \/ b = Run \/ b = Pend.

Definition in_sleep (b : Z) : Prop := b = Sleep \/ b = IoWait.

(** The state of a thread agrees with its queue. *)
Definition state_ok (b : Z) (st : ThreadState) : Prop :=
  (b = Run -> st = RUNABLE) /\ (in_sleep b -> st = SLEEPING) /\ (b = Pend -> st = PENDING).

Lemma state_ok_run : state_ok Run RUNABLE.
Proof. split_and!; [done|by intros [|]|done]. Qed.
Lemma state_ok_pend : state_ok Pend PENDING.
Proof. split_and!; [done|by intros [|]|done]. Qed.
Lemma state_ok_sleep b : in_sleep b -> state_ok b SLEEPING.
Proof. intros [-> | ->]; by split_and!. Qed.
Lemma state_ok_loose st : state_ok Loose st.
Proof. split_and!; [done|by intros [|]|done]. Qed.
Lemma state_ok_free st : state_ok Free st.
Proof. split_and!; [done|by intros [|]|done]. Qed.
#[local] Hint Resolve state_ok_run state_ok_pend state_ok_sleep state_ok_loose state_ok_free : core.

(** The part of a thread that the queues do not touch. *)
Definition view (t : MicroThread) : ThreadType * option ptr * list ptr * Z :=
  (mt_type t, mt_parent t, mt_sub_list t, Z.land (mt_flag t) SUB_LIST).

(** Only the position differs. *)
Definition same_thread (t t' : MicroThread) : Prop := SetIndex_ 0 t = SetIndex_ 0 t'.

Lemma same_thread_fields t t' : same_thread t t' ->
  mt_wakeup_time t = mt_wakeup_time t' /\ mt_state t = mt_state t' /\ mt_type t = mt_type t' /\
  mt_flag t = mt_flag t' /\ mt_fdset t = mt_fdset t' /\ mt_sub_list t = mt_sub_list t' /\
  mt_parent t = mt_parent t'.
Proof. unfold same_thread, SetIndex_. intros H. injection H. intros. split_and!; done. Qed.

Lemma idx_steps_same (s s' : gmap ptr MicroThread) :
  idx_steps s s' -> forall t, same_thread (thr s' t) (thr s t).
Proof.
  intros H. apply (idx_steps_ind_keep (fun s' => forall t, same_thread (thr s' t) (thr s t)) s s');
    [|done|done].
  intros s1 p i IH t. simpl. rewrite thr_upd. case_decide; subst; [|done]. apply (IH t).
Qed.

(** Updates never remove a thread from the store. *)
Lemma dom_upd t g (s : gmap ptr MicroThread) : dom s ⊆ dom (upd t g s).
Proof. unfold upd. rewrite dom_insert. apply union_subseteq_r. Qed.
#[local] Hint Resolve dom_upd : core.

Lemma idx_steps_dom (s s' : gmap ptr MicroThread) : idx_steps s s' -> dom s ⊆ dom s'.
Proof.
  intros H. apply (idx_steps_ind_keep (fun s' => dom s ⊆ dom s') s s'); [|done|done].
  intros s1 p i IH. etrans; [exact IH|]. apply dom_upd.
Qed.

(** Membership after one element is kept out, added or removed. *)
Lemma list_keep (L : list ptr) t (P : Prop) :
  t ∉ L -> ~ P -> forall x, x ∈ L <-> if decide (x = t) then P else x ∈ L.
Proof. intros Ht HP x. case_decide; [subst; tauto|done]. Qed.

Lemma list_add (L : list ptr) t (P : Prop) :
  P -> forall x, x ∈ L ++ [t] <-> if decide (x = t) then P else x ∈ L.
Proof.
  intros HP x. rewrite elem_of_app, list_elem_of_singleton. case_decide; subst; tauto.
Qed.

Lemma list_del (L : list ptr) t (P : Prop) :
  ~ P -> forall x, x ∈ filter (λ y, y <> t) L <-> if decide (x = t) then P else x ∈ L.
Proof. intros HP x. rewrite list_elem_of_filter. case_decide; subst; tauto. Qed.

Lemma NoDup_snoc (L : list ptr) t : NoDup L -> t ∉ L -> NoDup (L ++ [t]).
Proof.
  intros. apply list.NoDup_app. split_and!; [done| |apply NoDup_singleton].
  by intros x Hx ->%list_elem_of_singleton.
Qed.

Lemma low_upd t g s x :
  low (upd t g s) x = if decide (x = t) then Z.land (mt_flag (g (thr s t))) 31 else low s x.
Proof. unfold low. rewrite thr_upd. repeat case_decide; by subst. Qed.

Lemma GetIndex_upd t g (s : gmap ptr MicroThread) x :
  mt_index (g (thr s t)) = mt_index (thr s t) -> GetIndex (upd t g s) x = GetIndex s x.
Proof. intros H. simpl. rewrite thr_upd. case_decide; by subst. Qed.

Lemma field_upd {B} (fld : MicroThread -> B) t g s x :
  (forall m, fld (g m) = fld m) -> fld (thr (upd t g s) x) = fld (thr s x).
Proof. intros H. rewrite thr_upd. case_decide; subst; [apply H|done]. Qed.

(** Setting or clearing a queue flag does not touch the sub-thread flag. *)
Lemma land_sub_set x b : Z.land b SUB_LIST = 0 -> Z.land (Z.lor x b) SUB_LIST = Z.land x SUB_LIST.
Proof. intros H. by rewrite land_lor_mask, H, Z.lor_0_r. Qed.

Lemma land_sub_clear x b :
  Z.land b SUB_LIST = 0 -> Z.land (clear_bits x b) SUB_LIST = Z.land x SUB_LIST.
Proof.
  intros H. unfold clear_bits. apply Z.bits_inj'. intros n Hn.
  assert (Hb := f_equal (fun z => Z.testbit z n) H). simpl in Hb.
  rewrite Z.land_spec, Z.bits_0 in Hb.
  rewrite !Z.land_spec, Z.lnot_spec by done.
  destruct (Z.testbit x n), (Z.testbit b n), (Z.testbit SUB_LIST n); done.
Qed.

Section inv.
Context {K : Type} (epoll_ctl : K -> epoll_op -> Z -> Z -> K * Z * Z).
Implicit Types (f : MtFrame K) (t x : ptr) (A : gset ptr).

(** [A] is the set of the threads that exist. *)
Record frame_wf A f : Prop := {
  fw_heap : heap_wf (fr_sleeplist f) (fr_threads f);
  fw_place : forall x, place_ok (low (fr_threads f) x);
  fw_run : forall x, x ∈ fr_runlist f <-> low (fr_threads f) x = Run;
  fw_io : forall x, x ∈ fr_iolist f <-> low (fr_threads f) x = IoWait;
  fw_pend : forall x, x ∈ fr_pend_list f <-> low (fr_threads f) x = Pend;
  fw_free : forall x, x ∈ tp_freelist (fr_pool f) <-> low (fr_threads f) x = Free;
  fw_sleep : forall x, in_heap (fr_threads f) x <-> in_sleep (low (fr_threads f) x);
  fw_state : forall x, state_ok (low (fr_threads f) x) (mt_state (thr (fr_threads f) x));
  fw_nodup : NoDup (fr_runlist f) /\ NoDup (fr_iolist f) /\ NoDup (fr_pend_list f) /\
             NoDup (tp_freelist (fr_pool f));
  fw_wait : fr_waitnum f = Z.of_nat (length (fr_runlist f));
  fw_live : forall x, low (fr_threads f) x <> Loose -> x ∈ A;
  fw_size : Z.of_nat (size A) <= tp_total_num (fr_pool f) + 1;
  fw_cap : tp_total_num (fr_pool f) + 1 <= h_max (fr_sleeplist f) /\
           tp_max_num (fr_pool f) + 1 <= h_max (fr_sleeplist f);
  fw_dom : A ⊆ dom (fr_threads f);
}.

(** [f'] is [f] with the thread [t] moved to the place [b]. *)
Record moved t (b : Z) f f' : Prop := {
  mv_low : forall x, low (fr_threads f') x = if decide (x = t) then b else low (fr_threads f) x;
  mv_state : forall x, x <> t -> mt_state (thr (fr_threads f') x) = mt_state (thr (fr_threads f) x);
  mv_tstate : state_ok b (mt_state (thr (fr_threads f') t));
  mv_view : forall x, view (thr (fr_threads f') x) = view (thr (fr_threads f) x);
  mv_wakeup : forall x, mt_wakeup_time (thr (fr_threads f') x) = mt_wakeup_time (thr (fr_threads f) x);
  mv_fdset : forall x, mt_fdset (thr (fr_threads f') x) = mt_fdset (thr (fr_threads f) x);
  mv_run : forall x, x ∈ fr_runlist f' <-> if decide (x = t) then b = Run else x ∈ fr_runlist f;
  mv_io : forall x, x ∈ fr_iolist f' <-> if decide (x = t) then b = IoWait else x ∈ fr_iolist f;
  mv_pend : forall x, x ∈ fr_pend_list f' <-> if decide (x = t) then b = Pend else x ∈ fr_pend_list f;
  mv_free : forall x, x ∈ tp_freelist (fr_pool f') <->
    if decide (x = t) then b = Free else x ∈ tp_freelist (fr_pool f);
  mv_heap : heap_wf (fr_sleeplist f') (fr_threads f');
  mv_in : forall x, in_heap (fr_threads f') x <->
    if decide (x = t) then in_sleep b else in_heap (fr_threads f) x;
  mv_nodup : NoDup (fr_runlist f') /\ NoDup (fr_iolist f') /\ NoDup (fr_pend_list f') /\
             NoDup (tp_freelist (fr_pool f'));
  mv_wait : fr_waitnum f' = Z.of_nat (length (fr_runlist f'));
  mv_max : h_max (fr_sleeplist f') = h_max (fr_sleeplist f);
  mv_total : tp_total_num (fr_pool f') = tp_total_num (fr_pool f);
  mv_maxnum : tp_max_num (fr_pool f') = tp_max_num (fr_pool f);
  mv_fixed : fr_daemon f' = fr_daemon f /\ fr_primo f' = fr_primo f /\ fr_curr f' = fr_curr f /\
             fr_epoll f' = fr_epoll f;
  mv_dom : dom (fr_threads f) ⊆ dom (fr_threads f');
}.

Lemma moved_wf A t b f f' :
  frame_wf A f -> place_ok b -> t ∈ A -> moved t b f f' -> frame_wf A f'.
Proof.
  intros W Hb Ht M.
  assert (Hiff : forall (P : ptr -> Prop) c, (forall x, P x <-> low (fr_threads f) x = c) ->
    forall x, (if decide (x = t) then b = c else P x) <-> low (fr_threads f') x = c).
  { intros P c HP x. rewrite (mv_low _ _ _ _ M). case_decide; [done|apply HP]. }
  split.
  - apply M.
  - intros x. rewrite (mv_low _ _ _ _ M). case_decide; [done|apply W].
  - intros x. rewrite (mv_run _ _ _ _ M). apply (Hiff (fun x => x ∈ fr_runlist f)), W.
  - intros x. rewrite (mv_io _ _ _ _ M). apply (Hiff (fun x => x ∈ fr_iolist f)), W.
  - intros x. rewrite (mv_pend _ _ _ _ M). apply (Hiff (fun x => x ∈ fr_pend_list f)), W.
  - intros x. rewrite (mv_free _ _ _ _ M). apply (Hiff (fun x => x ∈ tp_freelist (fr_pool f))), W.
  - intros x. rewrite (mv_in _ _ _ _ M), (mv_low _ _ _ _ M). case_decide; [done|apply W].
  - intros x. rewrite (mv_low _ _ _ _ M). case_decide as E; [subst; apply M|].
    rewrite (mv_state _ _ _ _ M) by done. apply W.
  - apply M.
  - apply M.
  - intros x. rewrite (mv_low _ _ _ _ M). case_decide as E; [by subst|apply W].
  - rewrite (mv_total _ _ _ _ M). apply W.
  - rewrite (mv_total _ _ _ _ M), (mv_maxnum _ _ _ _ M), (mv_max _ _ _ _ M). apply W.
  - etrans; [apply W|apply M].
Qed.

(** Two moves of one thread are one move. *)
Lemma moved_trans t a b f1 f2 f3 : moved t a f1 f2 -> moved t b f2 f3 -> moved t b f1 f3.
Proof.
  intros M1 M2.
  assert (Hif : forall (P1 P2 P3 : ptr -> Prop) (pa pb : Prop),
    (forall x, P2 x <-> if decide (x = t) then pa else P1 x) ->
    (forall x, P3 x <-> if decide (x = t) then pb else P2 x) ->
    forall x, P3 x <-> if decide (x = t) then pb else P1 x).
  { intros P1 P2 P3 pa pb H2 H3 x. rewrite H3. case_decide; [done|]. by rewrite H2, decide_False. }
  destruct M1, M2. split; try done.
  - intros x. rewrite mv_low1. case_decide; [done|]. by rewrite mv_low0, decide_False.
  - intros x Hx. by rewrite mv_state1, mv_state0.
  - intros x. by rewrite mv_view1, mv_view0.
  - intros x. by rewrite mv_wakeup1, mv_wakeup0.
  - intros x. by rewrite mv_fdset1, mv_fdset0.
  - by eapply (Hif (fun x => x ∈ fr_runlist f1) (fun x => x ∈ fr_runlist f2)).
  - by eapply (Hif (fun x => x ∈ fr_iolist f1) (fun x => x ∈ fr_iolist f2)).
  - by eapply (Hif (fun x => x ∈ fr_pend_list f1) (fun x => x ∈ fr_pend_list f2)).
  - by eapply (Hif (fun x => x ∈ tp_freelist (fr_pool f1)) (fun x => x ∈ tp_freelist (fr_pool f2))).
  - by eapply (Hif (in_heap (fr_threads f1)) (in_heap (fr_threads f2))).
  - congruence.
  - congruence.
  - congruence.
  - intuition congruence.
  - by etrans.
Qed.

(** ** The queue operations *)

Lemma not_in A f x (c : Z) : frame_wf A f -> low (fr_threads f) x = c ->
  (c <> Run -> x ∉ fr_runlist f) /\ (c <> IoWait -> x ∉ fr_iolist f) /\
  (c <> Pend -> x ∉ fr_pend_list f) /\ (c <> Free -> x ∉ tp_freelist (fr_pool f)) /\
  (c <> Sleep -> c <> IoWait -> ~ in_heap (fr_threads f) x).
Proof.
  intros W <-. rewrite (fw_run _ _ W), (fw_io _ _ W), (fw_pend _ _ W), (fw_free _ _ W), (fw_sleep _ _ W).
  unfold in_sleep. tauto.
Qed.

Lemma InsertRunable_moved A f t :
  frame_wf A f -> low (fr_threads f) t = Loose -> moved t Run f (InsertRunable t f).
Proof.
  intros W Hl. destruct (not_in A f t _ W Hl) as (Hr & Hi & Hp & Hf & Hs).
  pose proof (fw_nodup _ _ W) as (? & ? & ? & ?). unfold low in Hl.
  split; simpl; try done.
  - intros x. rewrite low_upd. case_decide; [|done]. simpl. by rewrite land_lor_mask, Hl.
  - intros x Hx. by rewrite thr_upd_ne.
  - rewrite thr_upd_eq. auto.
  - intros x. apply field_upd. intros m. unfold view; simpl. by rewrite land_sub_set.
  - intros x. by apply (field_upd mt_wakeup_time).
  - intros x. by apply (field_upd mt_fdset).
  - by apply list_add.
  - apply list_keep; [by apply Hi|done].
  - apply list_keep; [by apply Hp|done].
  - apply list_keep; [by apply Hf|done].
  - eapply heap_wf_ext; [|apply W]. intros x. by apply GetIndex_upd.
  - intros x. unfold in_heap. rewrite GetIndex_upd by done.
    case_decide; [subst|done]. split; [by intros ?%Hs|by intros [|]].
  - split_and!; [|done..]. apply NoDup_snoc; [done|by apply Hr].
  - rewrite length_app, (fw_wait _ _ W). simpl. lia.
Qed.

Lemma RemoveRunable_moved A f t l :
  frame_wf A f -> fr_runlist f = t :: l ->
  exists f', RemoveRunable t f = Some f' /\ moved t Loose f f'.
Proof.
  intros W Hl. assert (Hlow : low (fr_threads f) t = Run) by (apply (fw_run _ _ W); rewrite Hl; by left).
  destruct (not_in A f t _ W Hlow) as (Hr & Hi & Hp & Hf & Hs).
  pose proof (fw_nodup _ _ W) as (Hnd & ? & ? & ?). rewrite Hl in Hnd.
  unfold RemoveRunable. simpl. rewrite Hl. eexists. split; [reflexivity|]. unfold low in Hlow.
  split; simpl; try done.
  - intros x. rewrite low_upd. case_decide; [|done]. simpl. by rewrite land_clear_mask, Hlow.
  - intros x Hx. by rewrite thr_upd_ne.
  - intros x. apply field_upd. intros m. unfold view; simpl. by rewrite land_sub_clear.
  - intros x. by apply (field_upd mt_wakeup_time).
  - intros x. by apply (field_upd mt_fdset).
  - intros x. rewrite Hl. pose proof (NoDup_cons_1_1 _ _ Hnd). case_decide; subst; [by split|].
    rewrite elem_of_cons. split; [by right|]. by intros [-> | ?].
  - apply list_keep; [by apply Hi|done].
  - apply list_keep; [by apply Hp|done].
  - apply list_keep; [by apply Hf|done].
  - eapply heap_wf_ext; [|apply W]. intros x. by apply GetIndex_upd.
  - intros x. unfold in_heap. rewrite GetIndex_upd by done.
    case_decide; [subst|done]. split; [by intros ?%Hs|by intros [|]].
  - split_and!; [|done..]. by apply NoDup_cons_1_2 in Hnd.
  - rewrite (fw_wait _ _ W), Hl. simpl. lia.
Qed.

Lemma InsertPend_moved A f t :
  frame_wf A f -> low (fr_threads f) t = Loose ->
  exists f', InsertPend t f = Some f' /\ moved t Pend f f'.
Proof.
  intros W Hl. destruct (not_in A f t _ W Hl) as (Hr & Hi & Hp & Hf & Hs).
  pose proof (fw_nodup _ _ W) as (? & ? & ? & ?).
  unfold InsertPend, entry_free. rewrite !bool_decide_true by (auto; by apply Hi || by apply Hp).
  simpl. eexists. split; [reflexivity|]. unfold low in Hl.
  split; simpl; try done.
  - intros x. rewrite low_upd. case_decide; [|done]. simpl. by rewrite land_lor_mask, Hl.
  - intros x Hx. by rewrite thr_upd_ne.
  - rewrite thr_upd_eq. auto.
  - intros x. apply field_upd. intros m. unfold view; simpl. by rewrite land_sub_set.
  - intros x. by apply (field_upd mt_wakeup_time).
  - intros x. by apply (field_upd mt_fdset).
  - apply list_keep; [by apply Hr|done].
  - apply list_keep; [by apply Hi|done].
  - by apply list_add.
  - apply list_keep; [by apply Hf|done].
  - eapply heap_wf_ext; [|apply W]. intros x. by apply GetIndex_upd.
  - intros x. unfold in_heap. rewrite GetIndex_upd by done.
    case_decide; [subst|done]. split; [by intros ?%Hs|by intros [|]].
  - split_and!; try done. apply NoDup_snoc; [done|by apply Hp].
  - apply W.
Qed.

Lemma RemovePend_moved A f t :
  frame_wf A f -> low (fr_threads f) t = Pend ->
  exists f', RemovePend t f = Some f' /\ moved t Loose f f'.
Proof.
  intros W Hl. destruct (not_in A f t _ W Hl) as (Hr & Hi & Hp & Hf & Hs).
  pose proof (fw_nodup _ _ W) as (? & ? & ? & ?).
  unfold RemovePend, tailq_remove. simpl. rewrite decide_True by (by apply (fw_pend _ _ W)).
  simpl. eexists. split; [reflexivity|]. unfold low in Hl.
  split; simpl; try done.
  - intros x. rewrite low_upd. case_decide; [|done]. simpl. by rewrite land_clear_mask, Hl.
  - intros x Hx. by rewrite thr_upd_ne.
  - intros x. apply field_upd. intros m. unfold view; simpl. by rewrite land_sub_clear.
  - intros x. by apply (field_upd mt_wakeup_time).
  - intros x. by apply (field_upd mt_fdset).
  - apply list_keep; [by apply Hr|done].
  - apply list_keep; [by apply Hi|done].
  - by apply list_del.
  - apply list_keep; [by apply Hf|done].
  - eapply heap_wf_ext; [|apply W]. intros x. by apply GetIndex_upd.
  - intros x. unfold in_heap. rewrite GetIndex_upd by done.
    case_decide; [subst|done]. split; [by intros ?%Hs|by intros [|]].
  - split_and!; try done. by apply list.NoDup_filter.
  - apply W.
Qed.

(** Room in the sleep heap: there are more cells than threads. *)
Lemma sleep_room A f t :
  frame_wf A f -> t ∈ A -> ~ in_heap (fr_threads f) t ->
  h_count (fr_sleeplist f) < h_max (fr_sleeplist f).
Proof.
  intros W Ht Hn.
  assert (h_count (fr_sleeplist f) <= Z.of_nat (size (A ∖ {[t]}))).
  { apply (heap_count_le _ (fr_threads f)); [apply W|]. intros p Hp.
    apply elem_of_difference. split.
    - apply (fw_live _ _ W). apply (fw_sleep _ _ W) in Hp. intros E. rewrite E in Hp. by destruct Hp.
    - intros ->%elem_of_singleton. done. }
  rewrite size_difference in * by (by apply singleton_subseteq_l). rewrite size_singleton in *.
  pose proof (fw_size _ _ W). pose proof (fw_cap _ _ W).
  assert (size A <> 0)%nat by (intros E%size_empty_inv; set_solver). lia.
Qed.

Lemma sleep_push A f t s1 :
  frame_wf A f -> t ∈ A -> ~ in_heap (fr_threads f) t ->
  (forall x, GetIndex s1 x = GetIndex (fr_threads f) x) ->
  exists h' s', HeapPush (fr_sleeplist f) s1 t = Some (0, h', s') /\ heap_wf h' s' /\
    h_max h' = h_max (fr_sleeplist f) /\
    (forall x, in_heap s' x <-> x = t \/ in_heap (fr_threads f) x) /\
    (forall x, same_thread (thr s' x) (thr s1 x)) /\ dom s1 ⊆ dom s'.
Proof.
  intros W Ht Hn Hi. pose proof (sleep_room A f t W Ht Hn).
  destruct (HeapPush_spec (fr_sleeplist f) s1 t) as (rc & h' & s' & E & Hwf & _ & Hidx & Hmax & Hrc).
  { eapply heap_wf_ext; [|apply W]. done. }
  assert (Hin : forall x, in_heap s1 x <-> in_heap (fr_threads f) x)
    by (intros x; unfold in_heap; by rewrite Hi).
  destruct Hrc as [(_ & ? & _)|[(_ & _ & Hb & _)|(-> & _ & _ & _ & Hm)]]; [lia|by apply Hin in Hb|].
  exists h', s'. split_and!; auto using idx_steps_same, idx_steps_dom.
  intros x. by rewrite Hm, Hin.
Qed.

(** Sleeping: [g] is the flag and state change made before the insertion. *)
Lemma InsertSleep_gen A f t b (io : list ptr) (g : MicroThread -> MicroThread) :
  frame_wf A f -> t ∈ A -> low (fr_threads f) t = Loose -> in_sleep b ->
  Z.land (mt_flag (g (thr (fr_threads f) t))) 31 = b ->
  (forall m, mt_index (g m) = mt_index m) -> (forall m, mt_state (g m) = SLEEPING) ->
  (forall m, view (g m) = view m) -> (forall m, mt_wakeup_time (g m) = mt_wakeup_time m) ->
  (forall m, mt_fdset (g m) = mt_fdset m) ->
  (forall x, x ∈ io <-> if decide (x = t) then b = IoWait else x ∈ fr_iolist f) -> NoDup io ->
  exists h' s', HeapPush (fr_sleeplist f) (upd t g (fr_threads f)) t = Some (0, h', s') /\
    moved t b f (set_sleep h' s' (set_iolist io f)).
Proof.
  intros W Ht Hl Hb Hflag Hgi Hgs Hgv Hgw Hgf Hio Hnd.
  destruct (not_in A f t _ W Hl) as (Hr & _ & Hp & Hf & Hs).
  pose proof (fw_nodup _ _ W) as (? & ? & ? & ?).
  destruct (sleep_push A f t (upd t g (fr_threads f)) W Ht) as (h' & s' & E & Hwf & Hmax & Hin & Hsame & Hdom);
    [by apply Hs|intros x; by apply GetIndex_upd|].
  exists h', s'. split; [done|].
  assert (Hfld : forall x, _) by (intros x; exact (same_thread_fields _ _ (Hsame x))).
  assert (Hbn : b <> Run /\ b <> Pend /\ b <> Free) by (destruct Hb as [-> | ->]; done).
  destruct Hbn as (Hb1 & Hb2 & Hb3).
  split; simpl; try done.
  - intros x. destruct (Hfld x) as (_ & _ & _ & Hx & _). unfold low. rewrite Hx.
    fold (low (upd t g (fr_threads f)) x). rewrite low_upd. by case_decide.
  - intros x Hx. destruct (Hfld x) as (_ & -> & _). by rewrite thr_upd_ne.
  - destruct (Hfld t) as (_ & -> & _). rewrite thr_upd_eq, Hgs. auto.
  - intros x. destruct (Hfld x) as (_ & _ & Hy & Hx & _ & Hz & Hw). unfold view. rewrite Hx, Hy, Hz, Hw.
    by apply (field_upd view).
  - intros x. destruct (Hfld x) as (-> & _). by apply (field_upd mt_wakeup_time).
  - intros x. destruct (Hfld x) as (_ & _ & _ & _ & -> & _). by apply (field_upd mt_fdset).
  - apply list_keep; [by apply Hr|done].
  - apply list_keep; [by apply Hp|done].
  - apply list_keep; [by apply Hf|done].
  - intros x. rewrite Hin. case_decide; subst; [split; [done|by left]|]. split; [|by right].
    by intros [-> | ?].
  - apply W.
  - etrans; [|exact Hdom]. apply dom_upd.
Qed.

Lemma InsertSleep_moved A f t :
  frame_wf A f -> t ∈ A -> low (fr_threads f) t = Loose ->
  exists f', InsertSleep t f = Some f' /\ moved t Sleep f f'.
Proof.
  intros W Ht Hl. destruct (not_in A f t _ W Hl) as (_ & Hi & _).
  pose proof (fw_nodup _ _ W) as (_ & Hnd & _).
  destruct (InsertSleep_gen A f t Sleep (fr_iolist f)
    (fun m => SetState SLEEPING (SetFlag SLEEP_LIST m))) as (h' & s' & E & M); try done.
  - by left.
  - simpl. rewrite land_lor_mask. unfold low in Hl. by rewrite Hl.
  - intros m. unfold view; simpl. by rewrite land_sub_set.
  - apply list_keep; [by apply Hi|done].
  - unfold InsertSleep. rewrite E. simpl. eexists. split; [reflexivity|]. by destruct f.
Qed.

Lemma InsertIoWait_moved A f t :
  frame_wf A f -> t ∈ A -> low (fr_threads f) t = Loose ->
  exists f', InsertIoWait t f = Some f' /\ moved t IoWait f f'.
Proof.
  intros W Ht Hl. destruct (not_in A f t _ W Hl) as (_ & Hi & Hp & _).
  pose proof (fw_nodup _ _ W) as (_ & Hnd & _).
  destruct (InsertSleep_gen A f t IoWait (fr_iolist f ++ [t])
    (fun m => SetState SLEEPING (SetFlag SLEEP_LIST (SetFlag IO_LIST m)))) as (h' & s' & E & M); try done.
  - by right.
  - simpl. rewrite !land_lor_mask. unfold low in Hl. by rewrite Hl.
  - intros m. unfold view; simpl. by rewrite !land_sub_set.
  - by apply list_add.
  - apply NoDup_snoc; [done|by apply Hi].
  - unfold InsertIoWait, entry_free. rewrite !bool_decide_true by (by apply Hi || by apply Hp).
    simpl. unfold InsertSleep. simpl.
    assert (Hu : upd t (fun m => SetState SLEEPING (SetFlag SLEEP_LIST m))
        (upd t (SetFlag IO_LIST) (fr_threads f)) =
        upd t (fun m => SetState SLEEPING (SetFlag SLEEP_LIST (SetFlag IO_LIST m))) (fr_threads f)).
    { unfold upd at 1. rewrite thr_upd_eq. unfold upd. by rewrite insert_insert_eq. }
    rewrite Hu, E. simpl. eexists. split; [reflexivity|]. by destruct f.
Qed.

Lemma RemoveSleep_moved A f t :
  frame_wf A f -> low (fr_threads f) t = Sleep ->
  exists f', RemoveSleep t f = Some f' /\ moved t Loose f f' /\
    h_count (fr_sleeplist f') = h_count (fr_sleeplist f) - 1.
Proof.
  intros W Hl. destruct (not_in A f t _ W Hl) as (Hr & Hi & Hp & Hf & _).
  pose proof (fw_nodup _ _ W) as (? & ? & ? & ?).
  set (s1 := upd t (UnsetFlag SLEEP_LIST) (fr_threads f)).
  assert (Hix : forall x, GetIndex s1 x = GetIndex (fr_threads f) x) by (intros x; by apply GetIndex_upd).
  assert (Hin : forall x, in_heap s1 x <-> in_heap (fr_threads f) x)
    by (intros x; unfold in_heap; by rewrite Hix).
  destruct (HeapDelete_spec (fr_sleeplist f) s1 t) as (rc & h' & s' & E & Hwf & Hidx & Hmax & _ & Hrc).
  { eapply heap_wf_ext; [|apply W]. done. }
  destruct Hrc as [(_ & Hn & _)|(_ & _ & Hc & Hm)].
  { exfalso. apply Hn, Hin, (fw_sleep _ _ W). rewrite Hl. by left. }
  unfold RemoveSleep. fold s1. rewrite E. simpl. eexists. split; [reflexivity|]. split; [|done].
  pose proof (idx_steps_same _ _ Hidx) as Hsame.
  assert (Hfld : forall x, _) by (intros x; exact (same_thread_fields _ _ (Hsame x))).
  unfold low in Hl. split; simpl; try done.
  - intros x. destruct (Hfld x) as (_ & _ & _ & Hx & _). unfold low. rewrite Hx. fold (low s1 x).
    unfold s1. rewrite low_upd. case_decide; [|done]. simpl. by rewrite land_clear_mask, Hl.
  - intros x Hx. destruct (Hfld x) as (_ & -> & _). unfold s1. by rewrite thr_upd_ne.
  - intros x. destruct (Hfld x) as (_ & _ & Hy & Hx & _ & Hz & Hw). unfold view. rewrite Hx, Hy, Hz, Hw.
    apply (field_upd view). intros m. unfold view; simpl. by rewrite land_sub_clear.
  - intros x. destruct (Hfld x) as (-> & _). by apply (field_upd mt_wakeup_time).
  - intros x. destruct (Hfld x) as (_ & _ & _ & _ & -> & _). by apply (field_upd mt_fdset).
  - apply list_keep; [by apply Hr|done].
  - apply list_keep; [by apply Hi|done].
  - apply list_keep; [by apply Hp|done].
  - apply list_keep; [by apply Hf|done].
  - intros x. rewrite Hm, Hin. case_decide; subst; [|tauto]. split; [tauto|by intros [|]].
  - apply W.
  - etrans; [|exact (idx_steps_dom _ _ Hidx)]. apply dom_upd.
Qed.

(** Leaving the IO queue alone: from IO wait to plain sleep. *)
Lemma leave_io_moved A f t :
  frame_wf A f -> low (fr_threads f) t = IoWait ->
  moved t Sleep f (set_iolist (filter (λ y, y <> t) (fr_iolist f)) (on_thread t (UnsetFlag IO_LIST) f)).
Proof.
  intros W Hl. destruct (not_in A f t _ W Hl) as (Hr & _ & Hp & Hf & _).
  pose proof (fw_nodup _ _ W) as (? & ? & ? & ?).
  assert (Hst : mt_state (thr (fr_threads f) t) = SLEEPING).
  { apply (fw_state _ _ W t). rewrite Hl. by right. }
  assert (Hin : in_heap (fr_threads f) t) by (apply (fw_sleep _ _ W); rewrite Hl; by right).
  unfold low in Hl. split; simpl; try done.
  - intros x. rewrite low_upd. case_decide; [|done]. simpl. by rewrite land_clear_mask, Hl.
  - intros x Hx. by rewrite thr_upd_ne.
  - rewrite thr_upd_eq. simpl. rewrite Hst. apply state_ok_sleep. by left.
  - intros x. apply field_upd. intros m. unfold view; simpl. by rewrite land_sub_clear.
  - intros x. by apply (field_upd mt_wakeup_time).
  - intros x. by apply (field_upd mt_fdset).
  - apply list_keep; [by apply Hr|done].
  - by apply list_del.
  - apply list_keep; [by apply Hp|done].
  - apply list_keep; [by apply Hf|done].
  - eapply heap_wf_ext; [|apply W]. intros x. by apply GetIndex_upd.
  - intros x. unfold in_heap. rewrite GetIndex_upd by done.
    case_decide; [subst|done]. split; [by left|done].
  - split_and!; try done. by apply list.NoDup_filter.
  - apply W.
Qed.

Lemma RemoveIoWait_moved A f t :
  frame_wf A f -> low (fr_threads f) t = IoWait ->
  exists f', RemoveIoWait t f = Some f' /\ moved t Loose f f' /\
    h_count (fr_sleeplist f') = h_count (fr_sleeplist f) - 1.
Proof.
  intros W Hl. pose proof (leave_io_moved A f t W Hl) as M.
  assert (Ht : t ∈ A) by (apply (fw_live _ _ W); rewrite Hl; done).
  assert (W1 : frame_wf A (set_iolist (filter (λ y, y <> t) (fr_iolist f)) (on_thread t (UnsetFlag IO_LIST) f))).
  { eapply moved_wf; eauto. right; right; by left. }
  destruct (RemoveSleep_moved A _ t W1) as (f' & E & M' & Hc).
  { rewrite (mv_low _ _ _ _ M). by rewrite decide_True. }
  exists f'. split; [|split; [by eapply moved_trans|done]].
  unfold RemoveIoWait, tailq_remove. simpl. rewrite decide_True by (by apply (fw_io _ _ W)).
  exact E.
Qed.
End inv.
