(* ===== verification/SchedProps.v ===== *)
(** * The scheduler keeps its invariant

    Building on [SchedInv]: sub threads and their parents, the active thread and
    the daemon, the thread pool, and the steps of the program (what the active
    thread or the daemon does up to the next context switch).  The main theorems
    say that no step of a scheduler in its invariant meets undefined behaviour,
    that the invariant holds in every reachable state, and what the operations do
    to the threads. *)

From Stdlib Require Import ZArith Lia.
From stdpp Require Import base gmap list option.
From S2P Require Import Prelude Heap Epoll Thread Sched SchedInv.

(** What the sub-thread bookkeeping of a fresh or recycled thread is. *)
Definition plain_view : ThreadType * option ptr * list ptr * Z := (NORMAL, None, [], 0).

Section props.
Context {K : Type} (epoll_ctl : K -> epoll_op -> Z -> Z -> K * Z * Z).
Implicit Types (f : MtFrame K) (t x p d : ptr) (A : gset ptr).

(** Sub threads and parents agree.  While [mt_exec_all_task] is at work, the
    threads of [X] are sub threads without a parent yet, and [Y] has sub threads
    but does not wait for them yet. *)
Record sub_inv A (X : list ptr) (Y : option ptr) f : Prop := {
  su_parent : forall x p, mt_parent (thr (fr_threads f) x) = Some p <->
                          x ∈ mt_sub_list (thr (fr_threads f) p);
  su_nodup : forall p, NoDup (mt_sub_list (thr (fr_threads f) p));
  su_pend : forall p, mt_sub_list (thr (fr_threads f) p) <> [] -> Some p <> Y ->
                      low (fr_threads f) p = Pend;
  su_flag : forall x, Z.land (mt_flag (thr (fr_threads f) x)) SUB_LIST <> 0 <->
                      mt_parent (thr (fr_threads f) x) <> None;
  su_type : forall x, x ∉ X -> mt_type (thr (fr_threads f) x) = SUB_THREAD <->
                              mt_parent (thr (fr_threads f) x) <> None;
  su_free : forall x, low (fr_threads f) x = Free \/ x ∉ A ->
                      view (thr (fr_threads f) x) = plain_view;
}.

Lemma sub_inv_ext A X Y f f' :
  (forall x, view (thr (fr_threads f') x) = view (thr (fr_threads f) x)) ->
  (forall p, mt_sub_list (thr (fr_threads f) p) <> [] -> Some p <> Y ->
     low (fr_threads f) p = Pend -> low (fr_threads f') p = Pend) ->
  (forall x, low (fr_threads f') x = Free -> low (fr_threads f) x = Free \/
     view (thr (fr_threads f) x) = plain_view) ->
  sub_inv A X Y f -> sub_inv A X Y f'.
Proof.
  intros Hv Hp Hfree [H1 H2 H3 H4 H5 H6].
  assert (Hvs : forall x, mt_type (thr (fr_threads f') x) = mt_type (thr (fr_threads f) x) /\
     mt_parent (thr (fr_threads f') x) = mt_parent (thr (fr_threads f) x) /\
     mt_sub_list (thr (fr_threads f') x) = mt_sub_list (thr (fr_threads f) x) /\
     Z.land (mt_flag (thr (fr_threads f') x)) SUB_LIST = Z.land (mt_flag (thr (fr_threads f) x)) SUB_LIST).
  { intros x. specialize (Hv x). unfold view in Hv. injection Hv. auto. }
  split.
  - intros x p. destruct (Hvs x) as (_ & -> & _), (Hvs p) as (_ & _ & -> & _). apply H1.
  - intros p. destruct (Hvs p) as (_ & _ & -> & _). apply H2.
  - intros p. destruct (Hvs p) as (_ & _ & -> & _). intros. apply Hp; auto.
  - intros x. destruct (Hvs x) as (_ & -> & _ & ->). apply H4.
  - intros x. destruct (Hvs x) as (-> & -> & _). apply H5.
  - intros x Hx. rewrite Hv. destruct Hx as [Hx|Hx]; [|apply H6; by right].
    destruct (Hfree x Hx); [apply H6; by left|done].
Qed.

Lemma sub_inv_moved A X Y t b f f' :
  moved t b f f' -> sub_inv A X Y f ->
  (low (fr_threads f) t <> Pend \/ mt_sub_list (thr (fr_threads f) t) = [] \/ b = Pend) ->
  (b = Free -> view (thr (fr_threads f) t) = plain_view) ->
  sub_inv A X Y f'.
Proof.
  intros M S Ht Hb. apply (sub_inv_ext A X Y f); [apply M| | |done].
  - intros p Hp HY Hl. rewrite (mv_low _ _ _ _ M). case_decide as E; [subst|done].
    destruct Ht as [?|[?|?]]; done.
  - intros x. rewrite (mv_low _ _ _ _ M). case_decide as E; [subst; auto|auto].
Qed.

(** The daemon is in no queue and has neither parent nor sub threads. *)
Definition daemon_ok A f : Prop :=
  exists d, fr_daemon f = Some d /\ low (fr_threads f) d = Loose /\ d ∈ A /\
    view (thr (fr_threads f) d) = (DAEMON, None, [], 0).

Lemma daemon_ok_moved A t b f f' :
  moved t b f f' -> low (fr_threads f) t <> Loose \/ fr_daemon f <> Some t -> daemon_ok A f -> daemon_ok A f'.
Proof.
  intros M Ht (d & Hd & Hl & HA & Hv). exists d.
  destruct (mv_fixed _ _ _ _ M) as (-> & _). split_and!; auto.
  - rewrite (mv_low _ _ _ _ M). rewrite decide_False; [done|]. intros ->. by destruct Ht.
  - by rewrite (mv_view _ _ _ _ M).
Qed.

(** The state between two context switches. *)
Record core A X Y f : Prop := {
  co_wf : frame_wf A f;
  co_sub : sub_inv A X Y f;
  co_daemon : daemon_ok A f;
}.

Lemma core_moved A X Y t b f f' :
  core A X Y f -> moved t b f f' -> place_ok b -> t ∈ A ->
  (low (fr_threads f) t <> Pend \/ mt_sub_list (thr (fr_threads f) t) = [] \/ b = Pend) ->
  (b = Free -> view (thr (fr_threads f) t) = plain_view) ->
  low (fr_threads f) t <> Loose \/ fr_daemon f <> Some t ->
  core A X Y f'.
Proof.
  intros [W S D] M. split; eauto using moved_wf, sub_inv_moved, daemon_ok_moved.
Qed.

(** A change of one loose thread that leaves its queue flags, position and
    sub-thread bookkeeping alone. *)
Lemma core_tweak A X Y t (g : MicroThread -> MicroThread) f :
  core A X Y f -> low (fr_threads f) t = Loose ->
  (forall m, mt_index (g m) = mt_index m) -> (forall m, mt_flag (g m) = mt_flag m) ->
  (forall m, view (g m) = view m) ->
  core A X Y (on_thread t g f) /\ (forall x, low (fr_threads (on_thread t g f)) x = low (fr_threads f) x).
Proof.
  intros [W S D] Hl Hi Hf Hv.
  assert (Hlow : forall x, low (fr_threads (on_thread t g f)) x = low (fr_threads f) x).
  { intros x. simpl. rewrite low_upd. case_decide; [subst|done]. by rewrite Hf. }
  assert (Hvw : forall x, view (thr (fr_threads (on_thread t g f)) x) = view (thr (fr_threads f) x)).
  { intros x. by apply (field_upd view). }
  assert (Hin : forall x, in_heap (fr_threads (on_thread t g f)) x <-> in_heap (fr_threads f) x).
  { intros x. unfold in_heap. simpl fr_threads. by rewrite GetIndex_upd. }
  split; [split|done].
  - destruct W. split; try done; intros; rewrite ?Hlow, ?Hin in *; auto.
    + eapply heap_wf_ext; [|done]. intros x. by apply GetIndex_upd.
    + simpl. rewrite thr_upd. case_decide as E; [|auto]. subst. rewrite Hl. apply state_ok_loose.
    + etrans; [exact fw_dom|]. apply dom_upd.
  - apply (sub_inv_ext A X Y f); auto.
    + intros. by rewrite Hlow.
    + intros x. rewrite Hlow. by left.
  - destruct D as (d & ? & ? & ? & ?). exists d. by rewrite Hlow, Hvw.
Qed.

(** Changes outside the threads and the queues. *)
Lemma core_other A X Y f f' :
  fr_threads f' = fr_threads f -> fr_runlist f' = fr_runlist f -> fr_iolist f' = fr_iolist f ->
  fr_pend_list f' = fr_pend_list f -> fr_sleeplist f' = fr_sleeplist f -> fr_daemon f' = fr_daemon f ->
  fr_waitnum f' = fr_waitnum f -> fr_pool f' = fr_pool f -> core A X Y f -> core A X Y f'.
Proof.
  destruct f, f'; simpl. intros -> -> -> -> -> -> -> -> [W S D].
  split; [destruct W; by split|destruct S; by split|destruct D as (d & ?); by exists d].
Qed.

(** ** The active thread *)

Record sched_inv A f : Prop := {
  si_core : core A [] None f;
  si_curr : exists t, fr_curr f = Some t /\ low (fr_threads f) t = Loose /\ t ∈ A;
}.

Lemma ThreadSchdule_spec A f :
  core A [] None f ->
  exists f', ThreadSchdule f = Some f' /\ sched_inv A f' /\
    fr_curr f' = (match fr_runlist f with [] => fr_daemon f | t :: _ => Some t end) /\
    fr_runlist f' = tail (fr_runlist f) /\ fr_daemon f' = fr_daemon f /\
    (forall t, fr_curr f' = Some t -> mt_state (thr (fr_threads f') t) = RUNNING) /\
    (forall x, fr_curr f' <> Some x -> thr (fr_threads f') x = thr (fr_threads f) x).
Proof.
  intros C. unfold ThreadSchdule. destruct (fr_runlist f) as [|t l] eqn:Hl.
  - destruct (co_daemon _ _ _ _ C) as (d & Hd & Hlow & HA & Hv). rewrite Hd. simpl.
    eexists. split; [reflexivity|].
    destruct (core_tweak A [] None d (SetState RUNNING) (SetActiveThread (Some d) f)) as [C' Hlow'];
      try done. { by apply (core_other A [] None f). }
    split_and!; auto.
    + split; [done|]. exists d. split_and!; [done| |done]. by rewrite Hlow'.
    + simpl. intros t [= <-]. by rewrite thr_upd_eq.
    + simpl. intros x Hx. rewrite thr_upd_ne; congruence.
  - destruct (RemoveRunable_moved A f t l) as (f1 & E & M); [apply C|done|].
    assert (Ht : low (fr_threads f) t = Run) by (apply (fw_run _ _ (co_wf _ _ _ _ C)); rewrite Hl; by left).
    assert (HA : t ∈ A) by (apply (fw_live _ _ (co_wf _ _ _ _ C)); by rewrite Ht).
    assert (C1 : core A [] None f1).
    { eapply core_moved; eauto; [by left|by left; rewrite Ht|done|by left; rewrite Ht]. }
    rewrite E. simpl. eexists. split; [reflexivity|].
    destruct (core_tweak A [] None t (SetState RUNNING) (SetActiveThread (Some t) f1)) as [C' Hlow'];
      try done. { by apply (core_other A [] None f1). }
    { simpl. by rewrite (mv_low _ _ _ _ M), decide_True. }
    split_and!; auto.
    + split; [done|]. exists t. split_and!; [done| |done]. rewrite Hlow'. simpl.
      by rewrite (mv_low _ _ _ _ M), decide_True.
    + simpl. unfold RemoveRunable in E. simpl in E. rewrite Hl in E. by injection E as <-.
    + apply (mv_fixed _ _ _ _ M).
    + simpl. intros t' [= <-]. by rewrite thr_upd_eq.
    + simpl. intros x Hx. rewrite thr_upd_ne by congruence.
      unfold RemoveRunable in E. simpl in E. rewrite Hl in E. injection E as <-. simpl.
      rewrite thr_upd_ne; congruence.
Qed.

(** ** Waking a thread *)

Lemma HasFlag_io A f t : frame_wf A f -> HasFlag IO_LIST (thr (fr_threads f) t) = true <->
  low (fr_threads f) t = IoWait.
Proof.
  intros W. unfold HasFlag. rewrite has_low by done. fold (low (fr_threads f) t).
  destruct (fw_place _ _ W t) as [-> | [-> | [-> | [-> | [-> | ->]]]]]; vm_compute; split; done.
Qed.

Lemma wake_io_moved A f t :
  frame_wf A f -> low (fr_threads f) t = IoWait ->
  exists f1, RemoveIoWait t f = Some f1 /\ moved t Run f (InsertRunable t f1) /\
    h_count (fr_sleeplist f1) = h_count (fr_sleeplist f) - 1.
Proof.
  intros W Hl. assert (Ht : t ∈ A) by (apply (fw_live _ _ W); by rewrite Hl).
  destruct (RemoveIoWait_moved A f t W Hl) as (f1 & E & M & Hc). exists f1. split; [done|]. split; [|done].
  eapply moved_trans; [exact M|]. apply (InsertRunable_moved A).
  - eapply moved_wf; eauto. by left.
  - by rewrite (mv_low _ _ _ _ M), decide_True.
Qed.

Lemma wake_sleep_moved A f t :
  frame_wf A f -> low (fr_threads f) t = Sleep ->
  exists f1, RemoveSleep t f = Some f1 /\ moved t Run f (InsertRunable t f1) /\
    h_count (fr_sleeplist f1) = h_count (fr_sleeplist f) - 1.
Proof.
  intros W Hl. assert (Ht : t ∈ A) by (apply (fw_live _ _ W); by rewrite Hl).
  destruct (RemoveSleep_moved A f t W Hl) as (f1 & E & M & Hc). exists f1. split; [done|]. split; [|done].
  eapply moved_trans; [exact M|]. apply (InsertRunable_moved A).
  - eapply moved_wf; eauto. by left.
  - by rewrite (mv_low _ _ _ _ M), decide_True.
Qed.

Lemma core_wake A X Y f f' t :
  core A X Y f -> in_sleep (low (fr_threads f) t) -> moved t Run f f' -> core A X Y f'.
Proof.
  intros C Hs M. assert (low (fr_threads f) t <> Pend /\ low (fr_threads f) t <> Loose) as [? ?]
    by (destruct Hs as [-> | ->]; done).
  eapply core_moved; eauto.
  - unfold place_ok. auto 7.
  - apply (fw_live _ _ (co_wf _ _ _ _ C)); done.
  - done.
Qed.

(** [IoNotify] on any object: it wakes the owner if the owner waits for IO, and
    does nothing else. *)
Lemma IoNotify_spec A X Y f obj :
  core A X Y f ->
  exists rc f', IoNotify obj f = Some (rc, f') /\ core A X Y f' /\
    fr_curr f' = fr_curr f /\ fr_daemon f' = fr_daemon f /\ fr_epoll f' = fr_epoll f /\
    ((f' = f) \/ exists t, eo_thread (obj_of (fr_epoll f) obj) = Some t /\
       low (fr_threads f) t = IoWait /\ moved t Run f f').
Proof.
  intros C. pose proof (co_wf _ _ _ _ C) as W. unfold IoNotify.
  destruct (eo_thread _) as [t|] eqn:Et; [|exists (-1), f; auto 8].
  destruct (HasFlag IO_LIST _) eqn:Hf; [|exists 0, f; auto 8].
  apply (HasFlag_io A) in Hf; [|done].
  destruct (wake_io_moved A f t W Hf) as (f1 & -> & M & _). simpl.
  exists 0, (InsertRunable t f1). destruct (mv_fixed _ _ _ _ M) as (? & ? & ? & ?).
  split_and!; auto.
  - eapply core_wake; eauto. rewrite Hf. by right.
  - right. exists t. auto.
Qed.

(** ** Timeouts *)

Lemma WakeupTimeout_loop_spec A X Y fuel now f :
  core A X Y f -> (Z.to_nat (h_count (fr_sleeplist f)) < fuel)%nat ->
  exists f', WakeupTimeout_loop fuel now f = Some f' /\ core A X Y f' /\
    fr_curr f' = fr_curr f /\ fr_daemon f' = fr_daemon f /\ fr_epoll f' = fr_epoll f /\
    (forall x, mt_wakeup_time (thr (fr_threads f') x) = mt_wakeup_time (thr (fr_threads f) x)) /\
    (forall x, low (fr_threads f') x = low (fr_threads f) x \/
       (in_sleep (low (fr_threads f) x) /\ low (fr_threads f') x = Run /\
        mt_wakeup_time (thr (fr_threads f) x) <= now)).
Proof.
  revert f. induction fuel as [|fuel IH]; intros f C Hf; [lia|]. simpl.
  pose proof (co_wf _ _ _ _ C) as W.
  destruct (HeapTop (fr_sleeplist f)) as [t|] eqn:Et; [|exists f; split_and!; auto].
  destruct (Z.leb_spec (mt_wakeup_time (thr (fr_threads f) t)) now) as [Hle|_]; [|exists f; split_and!; auto].
  assert (Hs : in_sleep (low (fr_threads f) t)).
  { apply (fw_sleep _ _ W). unfold HeapTop in Et.
    destruct (Z.ltb_spec 0 (h_count (fr_sleeplist f))); [|done].
    destruct (wf_cell _ _ _ (fw_heap _ _ W) 1) as (t' & Ht' & Hi & _); [lia|].
    assert (t' = t) as -> by congruence. unfold in_heap. lia. }
  assert (exists f1, (if HasFlag IO_LIST (thr (fr_threads f) t) then RemoveIoWait t f else RemoveSleep t f) = Some f1
    /\ moved t Run f (InsertRunable t f1) /\ h_count (fr_sleeplist f1) = h_count (fr_sleeplist f) - 1)
    as (f1 & -> & M & Hcount).
  { destruct (HasFlag IO_LIST _) eqn:Hio.
    - apply (HasFlag_io A) in Hio; [|done]. by apply (wake_io_moved A).
    - apply (wake_sleep_moved A); [done|]. destruct Hs as [|Hs]; [done|].
      apply (HasFlag_io A f t W) in Hs. congruence. }
  simpl. set (f2 := InsertRunable t f1) in *.
  assert (C2 : core A X Y f2) by (by eapply core_wake).
  change (h_count (fr_sleeplist f2) = h_count (fr_sleeplist f) - 1) in Hcount.
  destruct (mv_fixed _ _ _ _ M) as (? & ? & ? & ?).
  destruct (IH f2 C2) as (f' & E & C' & Hc & Hd & He & Hw & Hx).
  { pose proof (wf_count _ _ _ (fw_heap _ _ (co_wf _ _ _ _ C2))). lia. }
  exists f'. split_and!; auto; try congruence.
  - intros x. by rewrite Hw, (mv_wakeup _ _ _ _ M).
  - intros x. specialize (Hx x). rewrite (mv_low _ _ _ _ M), (mv_wakeup _ _ _ _ M) in Hx.
    case_decide as E'; [subst x|done]. destruct Hx as [Hx|[[] _]]; [|done..]. right. auto.
Qed.

(** The loop stops at a thread that is not due. *)
Lemma WakeupTimeout_loop_top fuel now f f' t : WakeupTimeout_loop fuel now f = Some f' ->
  HeapTop (fr_sleeplist f') = Some t -> now < mt_wakeup_time (thr (fr_threads f') t).
Proof.
  revert f. induction fuel as [|fuel IH]; intros f; [done|]. simpl. destruct (HeapTop (fr_sleeplist f)) as [u|] eqn:Eu.
  - destruct (Z.leb_spec (mt_wakeup_time (thr (fr_threads f) u)) now); [|intros [= <-] Et; congruence].
    destruct (if HasFlag _ _ then _ else _) as [f1|]; [|done]. apply IH.
  - intros [= <-] Et. congruence.
Qed.
End props.
