(* ===== verification/SchedPool.v ===== *)
(** * The thread pool keeps the scheduler invariant

    [ThreadPool::AllocThread], [FreeThread], [InitialPool] and the sub-thread
    bookkeeping of [MicroThread] against the invariant of [SchedInv] and
    [SchedProps].  These operations change which threads exist, so the set of live
    threads changes with them. *)

From Stdlib Require Import ZArith Lia.
From stdpp Require Import base gmap list option.
From S2P Require Import Prelude Heap Epoll Thread Sched SchedInv SchedProps.

#[local] Hint Resolve dom_upd : core.

Section pool.
Context {K : Type} (epoll_ctl : K -> epoll_op -> Z -> Z -> K * Z * Z).
Implicit Types (f : MtFrame K) (t x p d : ptr) (A : gset ptr).

Lemma sub_inv_mono A A' X X' Y f :
  A ⊆ A' -> (forall x, x ∈ X -> x ∈ X') ->
  sub_inv A X Y f -> sub_inv A' X' Y f.
Proof.
  intros HA HX [H1 H2 H3 H4 H5 H6]. split; auto.
  intros x [Hx|Hx]; apply H6; [by left|right]. intros Hin. by apply Hx, HA.
Qed.

Lemma low_dead A f x : frame_wf A f -> x ∉ A -> low (fr_threads f) x = Loose.
Proof.
  intros W Hx. destruct (decide (low (fr_threads f) x = Loose)); [done|].
  by destruct Hx; apply (fw_live _ _ W).
Qed.

(** A thread store that agrees with the old one on the queue part of every flag
    word, on the positions and on the state of the queued threads. *)
Lemma wf_store A A' s f tp :
  frame_wf A f ->
  (forall x, low s x = low (fr_threads f) x) ->
  (forall x, GetIndex s x = GetIndex (fr_threads f) x) ->
  (forall x, low (fr_threads f) x <> Loose -> mt_state (thr s x) = mt_state (thr (fr_threads f) x)) ->
  A ⊆ A' -> A' ⊆ dom s -> tp_freelist tp = tp_freelist (fr_pool f) ->
  tp_max_num tp = tp_max_num (fr_pool f) ->
  tp_total_num (fr_pool f) <= tp_total_num tp <= Z.max (tp_total_num (fr_pool f)) (tp_max_num tp) ->
  Z.of_nat (size A') <= tp_total_num tp + 1 ->
  frame_wf A' (set_pool tp (set_threads s f)).
Proof.
  intros W Hlow Hidx Hst HA Hdom Hfree Hmax Htot Hsz. destruct W. split; simpl; auto.
  - by eapply heap_wf_ext.
  - intros x. by rewrite Hlow.
  - intros x. by rewrite Hlow.
  - intros x. by rewrite Hlow.
  - intros x. by rewrite Hlow.
  - intros x. by rewrite Hlow, Hfree.
  - intros x. unfold in_heap. rewrite Hlow, Hidx. apply fw_sleep.
  - intros x. rewrite Hlow. destruct (decide (low (fr_threads f) x = Loose)) as [-> | Hx].
    + apply state_ok_loose.
    + by rewrite Hst.
  - by rewrite Hfree.
  - intros x. rewrite Hlow. auto.
  - lia.
Qed.

Lemma index_loose A f x : frame_wf A f -> low (fr_threads f) x = Loose \/ low (fr_threads f) x = Free ->
  mt_index (thr (fr_threads f) x) = 0.
Proof.
  intros W Hx. destruct (decide (mt_index (thr (fr_threads f) x) = 0)) as [|Hn]; [done|].
  apply (fw_sleep _ _ W x) in Hn. destruct Hn as [Hn|Hn], Hx as [Hx|Hx]; rewrite Hn in Hx; done.
Qed.

(** ** Allocation *)

(** [t] is a new live thread of [f'], in no queue, with a clean record; [f'] is
    otherwise [f]. *)
Record allocated A A' t f f' : Prop := {
  al_live : t ∈ A' /\ A ⊆ A' /\ A' ⊆ {[t]} ∪ A;
  al_was : t ∉ A \/ low (fr_threads f) t = Free;
  al_low : low (fr_threads f') t = Loose;
  al_view : view (thr (fr_threads f') t) = plain_view;
  al_other : forall x, x <> t -> thr (fr_threads f') x = thr (fr_threads f) x;
  al_fixed : fr_runlist f' = fr_runlist f /\ fr_daemon f' = fr_daemon f /\ fr_curr f' = fr_curr f /\
             fr_epoll f' = fr_epoll f;
}.

Lemma allocated_ne A A' t f f' x : allocated A A' t f f' -> x ∈ A -> low (fr_threads f) x <> Free -> x <> t.
Proof. intros [_ [H|H] _ _ _ _] Hx Hl ->; done. Qed.

Lemma pop_free_moved A f t l u :
  frame_wf A f -> tp_freelist (fr_pool f) = t :: l ->
  moved t Loose f (set_pool (mkThreadPool l (tp_total_num (fr_pool f)) u (tp_max_num (fr_pool f)))
                     (on_thread t (UnsetFlag FREE_LIST) f)).
Proof.
  intros W Hl. assert (Hlow : low (fr_threads f) t = Free) by (apply (fw_free _ _ W); rewrite Hl; by left).
  destruct (not_in A f t _ W Hlow) as (Hr & Hi & Hp & _ & Hs).
  pose proof (fw_nodup _ _ W) as (? & ? & ? & Hnd). rewrite Hl in Hnd. unfold low in Hlow.
  split; simpl; try done.
  - intros x. rewrite low_upd. case_decide; [|done]. simpl. by rewrite land_clear_mask, Hlow.
  - intros x Hx. by rewrite thr_upd_ne.
  - apply state_ok_loose.
  - intros x. apply field_upd. intros m. unfold view; simpl. by rewrite land_sub_clear.
  - intros x. by apply (field_upd mt_wakeup_time).
  - intros x. by apply (field_upd mt_fdset).
  - apply list_keep; [by apply Hr|done].
  - apply list_keep; [by apply Hi|done].
  - apply list_keep; [by apply Hp|done].
  - intros x. rewrite Hl. pose proof (NoDup_cons_1_1 _ _ Hnd). case_decide; subst; [by split|].
    rewrite elem_of_cons. split; [by right|]. by intros [-> | ?].
  - eapply heap_wf_ext; [|apply W]. intros x. by apply GetIndex_upd.
  - intros x. unfold in_heap. rewrite GetIndex_upd by done.
    case_decide; [subst|done]. split; [by intros ?%Hs|by intros [|]].
  - split_and!; [done..|]. by apply NoDup_cons_1_2 in Hnd.
  - apply W.
Qed.

Lemma AllocThread_base A X Y new f :
  frame_wf A f -> sub_inv A X Y f -> (forall n, new = Some n -> n ∉ A) ->
  (AllocThread new f = (None, f) /\ tp_freelist (fr_pool f) = []) \/
  exists t A' f', AllocThread new f = (Some t, f') /\ allocated A A' t f f' /\
    (t ∉ A -> new = Some t) /\ frame_wf A' f' /\ sub_inv A' X Y f'.
Proof.
  intros W S Hnew. unfold AllocThread. destruct (tp_freelist (fr_pool f)) as [|t l] eqn:Hl.
  - destruct (Z.leb_spec (tp_max_num (fr_pool f)) (tp_total_num (fr_pool f))); [by left|].
    destruct new as [t|]; [right|by left]. specialize (Hnew t eq_refl).
    pose proof (low_dead A f t W Hnew) as Hlow.
    assert (Hv : view (thr (fr_threads f) t) = plain_view) by (apply (su_free _ _ _ _ S); by right).
    assert (Hthr : forall x, thr (fr_threads (with_new t f)) x =
       if decide (t = x) then new_MicroThread NORMAL else thr (fr_threads f) x).
    { intros x. unfold thr; simpl. rewrite lookup_insert. by case_decide. }
    assert (Hlows : forall x, low (fr_threads (with_new t f)) x = low (fr_threads f) x).
    { intros x. unfold low at 1. rewrite Hthr. case_decide; [by subst|done]. }
    exists t, ({[t]} ∪ A). eexists. split; [reflexivity|]. split_and!; [split| | |]; simpl; auto.
    + set_solver.
    + by rewrite Hlows.
    + change (view (thr (fr_threads (with_new t f)) t) = plain_view). by rewrite Hthr, decide_True.
    + intros x Hx. change (thr (fr_threads (with_new t f)) x = thr (fr_threads f) x).
      by rewrite Hthr, decide_False.
    + apply (wf_store A); simpl; auto; [| |set_solver| |lia|].
      * intros x. change (mt_index (thr (fr_threads (with_new t f)) x) = mt_index (thr (fr_threads f) x)).
        rewrite Hthr. case_decide; [subst|done]. symmetry. apply (index_loose A); auto.
      * intros x Hx. change (mt_state (thr (fr_threads (with_new t f)) x) = mt_state (thr (fr_threads f) x)).
        rewrite Hthr, decide_False; [done|]. by intros ->.
      * rewrite dom_insert. pose proof (fw_dom _ _ W). set_solver.
      * rewrite size_union by set_solver. rewrite size_singleton. pose proof (fw_size _ _ W). lia.
    + apply (sub_inv_mono A _ X); auto; [set_solver|].
      apply (sub_inv_ext A X Y f); auto.
      * intros x. change (view (thr (fr_threads (with_new t f)) x) = view (thr (fr_threads f) x)).
        rewrite Hthr. case_decide; [subst; by rewrite Hv|done].
      * intros x Hx ? Hp. change (low (fr_threads (with_new t f)) x = Pend). by rewrite Hlows.
      * intros x. change (low (fr_threads (with_new t f)) x = Free -> low (fr_threads f) x = Free \/
          view (thr (fr_threads f) x) = plain_view). rewrite Hlows. by left.
  - right. pose proof (pop_free_moved A f t l (tp_use_num (fr_pool f) + 1) W Hl) as M.
    assert (Hlow : low (fr_threads f) t = Free) by (apply (fw_free _ _ W); rewrite Hl; by left).
    assert (HA : t ∈ A) by (apply (fw_live _ _ W); by rewrite Hlow).
    exists t, A. eexists. split; [reflexivity|]. split_and!; [split| | |]; auto.
    + set_solver.
    + by rewrite (mv_low _ _ _ _ M), decide_True.
    + rewrite (mv_view _ _ _ _ M). apply (su_free _ _ _ _ S). by left.
    + intros x Hx. simpl. by rewrite thr_upd_ne.
    + done.
    + eapply moved_wf; eauto. by left.
    + eapply sub_inv_moved; eauto; [left; by rewrite Hlow|done].
Qed.

Lemma daemon_ok_keep A A' f f' :
  daemon_ok A f -> fr_daemon f' = fr_daemon f ->
  (forall d, d ∈ A -> low (fr_threads f) d = Loose -> fr_daemon f = Some d ->
     d ∈ A' /\ thr (fr_threads f') d = thr (fr_threads f) d) ->
  daemon_ok A' f'.
Proof.
  intros (d & Hd & Hl & HA & Hv) E Hk. exists d. destruct (Hk d HA Hl Hd) as [HA' Ht].
  unfold low. rewrite E, Ht. by split_and!.
Qed.

Lemma AllocThread_core A X Y new f :
  core A X Y f -> (forall n, new = Some n -> n ∉ A) ->
  (AllocThread new f = (None, f) /\ tp_freelist (fr_pool f) = []) \/
  exists t A' f', AllocThread new f = (Some t, f') /\ allocated A A' t f f' /\
    (t ∉ A -> new = Some t) /\ core A' X Y f'.
Proof.
  intros [W S D] Hnew. destruct (AllocThread_base A X Y new f W S Hnew) as [?|(t & A' & f' & E & H & Ht & W' & S')];
    [by left|right].
  exists t, A', f'. split_and!; auto. split; auto. eapply daemon_ok_keep; eauto.
  - apply H.
  - intros d Hd Hl _. split; [by apply H|]. apply H.
    eapply allocated_ne; eauto. by rewrite Hl.
Qed.

(** ** Recycling *)

(** A thread in no queue whose record changes. *)
Lemma wf_loose A t (g : MicroThread -> MicroThread) f :
  frame_wf A f -> low (fr_threads f) t = Loose ->
  mt_index (g (thr (fr_threads f) t)) = mt_index (thr (fr_threads f) t) ->
  Z.land (mt_flag (g (thr (fr_threads f) t))) 31 = Loose ->
  frame_wf A (on_thread t g f).
Proof.
  intros W Hl Hi Hf.
  replace (on_thread t g f) with (set_pool (fr_pool f) (set_threads (upd t g (fr_threads f)) f))
    by (by destruct f).
  apply (wf_store A); auto.
  - intros x. rewrite low_upd. case_decide; [subst; by rewrite Hl|done].
  - intros x. by apply GetIndex_upd.
  - intros x Hx. rewrite thr_upd_ne; [done|]. by intros ->.
  - etrans; [apply W|apply dom_upd].
  - lia.
  - apply W.
Qed.

Lemma push_free_moved A f t u :
  frame_wf A f -> low (fr_threads f) t = Loose ->
  moved t Free f (set_pool (mkThreadPool (tp_freelist (fr_pool f) ++ [t]) (tp_total_num (fr_pool f)) u
                              (tp_max_num (fr_pool f))) (on_thread t (SetFlag FREE_LIST) f)).
Proof.
  intros W Hlow. destruct (not_in A f t _ W Hlow) as (Hr & Hi & Hp & Hf & Hs).
  pose proof (fw_nodup _ _ W) as (? & ? & ? & Hnd). unfold low in Hlow.
  split; simpl; try done.
  - intros x. rewrite low_upd. case_decide; [|done]. simpl. by rewrite land_lor_mask, Hlow.
  - intros x Hx. by rewrite thr_upd_ne.
  - apply state_ok_free.
  - intros x. apply field_upd. intros m. unfold view; simpl. by rewrite land_sub_set.
  - intros x. by apply (field_upd mt_wakeup_time).
  - intros x. by apply (field_upd mt_fdset).
  - apply list_keep; [by apply Hr|done].
  - apply list_keep; [by apply Hi|done].
  - apply list_keep; [by apply Hp|done].
  - by apply list_add.
  - eapply heap_wf_ext; [|apply W]. intros x. by apply GetIndex_upd.
  - intros x. unfold in_heap. rewrite GetIndex_upd by done.
    case_decide; [subst|done]. split; [by intros ?%Hs|by intros [|]].
  - split_and!; [done..|]. apply NoDup_snoc; [done|by apply Hf].
  - apply W.
Qed.

(** The oldest free thread is destroyed. *)
Definition drop_free (x : ptr) (l : list ptr) (u : Z) f : MtFrame K :=
  set_pool (mkThreadPool l (tp_total_num (fr_pool f) - 1) u (tp_max_num (fr_pool f)))
    (set_threads (delete x (fr_threads f)) f).

Lemma drop_thr x l u f y :
  thr (fr_threads (drop_free x l u f)) y =
    if decide (y = x) then new_MicroThread NORMAL else thr (fr_threads f) y.
Proof. unfold thr; simpl. rewrite lookup_delete. by repeat case_decide; subst. Qed.

Lemma drop_low x l u f y :
  low (fr_threads (drop_free x l u f)) y = if decide (y = x) then Loose else low (fr_threads f) y.
Proof. unfold low. rewrite drop_thr. by case_decide. Qed.

Lemma drop_wf A f x l u :
  frame_wf A f -> tp_freelist (fr_pool f) = x :: l -> frame_wf (A ∖ {[x]}) (drop_free x l u f).
Proof.
  intros W Hl. assert (Hx : low (fr_threads f) x = Free) by (apply (fw_free _ _ W); rewrite Hl; by left).
  assert (HA : x ∈ A) by (apply (fw_live _ _ W); by rewrite Hx).
  assert (Hiff : forall (P : ptr -> Prop) c, (forall y, P y <-> low (fr_threads f) y = c) ->
    c <> Free -> c <> Loose -> forall y, P y <-> low (fr_threads (drop_free x l u f)) y = c).
  { intros P c HP Hc1 Hc2 y. rewrite drop_low, HP. case_decide; [subst|done].
    rewrite Hx. split; congruence. }
  assert (Hidx : forall y, GetIndex (fr_threads (drop_free x l u f)) y = GetIndex (fr_threads f) y).
  { intros y. change (mt_index (thr (fr_threads (drop_free x l u f)) y) = mt_index (thr (fr_threads f) y)).
    rewrite drop_thr. case_decide; [subst|done]. symmetry. apply (index_loose A); auto. }
  pose proof (fw_nodup _ _ W) as (? & ? & ? & Hnd). rewrite Hl in Hnd.
  split.
  - eapply heap_wf_ext; [exact Hidx|apply W].
  - intros y. rewrite drop_low. case_decide; [by left|apply W].
  - apply (Hiff (fun y => y ∈ fr_runlist f)); [apply W|done..].
  - apply (Hiff (fun y => y ∈ fr_iolist f)); [apply W|done..].
  - apply (Hiff (fun y => y ∈ fr_pend_list f)); [apply W|done..].
  - intros y. rewrite drop_low. simpl. pose proof (NoDup_cons_1_1 _ _ Hnd).
    case_decide; [by subst; split|]. rewrite <- (fw_free _ _ W), Hl, elem_of_cons. tauto.
  - intros y. unfold in_heap. rewrite Hidx, drop_low. case_decide as E; [subst y|apply W].
    rewrite (fw_sleep _ _ W x), Hx. split; by intros [|].
  - intros y. rewrite drop_low, drop_thr. case_decide; [apply state_ok_loose|apply W].
  - split_and!; [done..|]. by apply NoDup_cons_1_2 in Hnd.
  - apply W.
  - intros y. rewrite drop_low. case_decide; [done|]. intros. apply elem_of_difference.
    split; [by apply (fw_live _ _ W)|]. by intros ?%elem_of_singleton.
  - rewrite size_difference by (by apply singleton_subseteq_l). rewrite size_singleton.
    pose proof (fw_size _ _ W). assert (size A <> 0)%nat by (intros E%size_empty_inv; set_solver).
    simpl. lia.
  - pose proof (fw_cap _ _ W). simpl. lia.
  - simpl. rewrite dom_delete. pose proof (fw_dom _ _ W). set_solver.
Qed.

Lemma drop_sub A X Y f x l u :
  sub_inv A X Y f -> low (fr_threads f) x = Free -> sub_inv (A ∖ {[x]}) X Y (drop_free x l u f).
Proof.
  intros S Hx. assert (Hv : view (thr (fr_threads f) x) = plain_view) by (apply (su_free _ _ _ _ S); by left).
  assert (Hviews : forall y, view (thr (fr_threads (drop_free x l u f)) y) = view (thr (fr_threads f) y)).
  { intros y. rewrite drop_thr. case_decide; [subst; by rewrite Hv|done]. }
  destruct (sub_inv_ext A X Y f (drop_free x l u f)) as [H1 H2 H3 H4 H5 H6]; auto.
  - intros y _ _ Hy. rewrite drop_low. case_decide; [by subst; rewrite Hx in Hy|done].
  - intros y. rewrite drop_low. case_decide; [done|by left].
  - split; auto. intros y Hy. destruct (decide (y = x)) as [-> | Hne]; [by rewrite Hviews|].
    apply H6. destruct Hy as [|Hy]; [by left|right]. intros HA. apply Hy, elem_of_difference.
    split; [done|]. by intros ?%elem_of_singleton.
Qed.

Lemma reset_sub A X Y f t :
  sub_inv A (t :: X) Y f -> low (fr_threads f) t = Loose ->
  mt_parent (thr (fr_threads f) t) = None -> mt_sub_list (thr (fr_threads f) t) = [] ->
  sub_inv A X Y (on_thread t Reset f).
Proof.
  intros [H1 H2 H3 H4 H5 H6] Hl Hp Hs.
  assert (Hpar : forall x, mt_parent (thr (fr_threads (on_thread t Reset f)) x) = mt_parent (thr (fr_threads f) x)).
  { intros x. simpl. rewrite thr_upd. case_decide; [subst; by rewrite Hp|done]. }
  assert (Hsub : forall x, mt_sub_list (thr (fr_threads (on_thread t Reset f)) x) = mt_sub_list (thr (fr_threads f) x)).
  { intros x. simpl. rewrite thr_upd. case_decide; [subst; by rewrite Hs|done]. }
  assert (Hlow : forall x, low (fr_threads (on_thread t Reset f)) x = low (fr_threads f) x).
  { intros x. simpl. rewrite low_upd. case_decide; [subst; by rewrite Hl|done]. }
  split.
  - intros x p. rewrite Hpar, Hsub. apply H1.
  - intros p. rewrite Hsub. apply H2.
  - intros p. rewrite Hsub, Hlow. apply H3.
  - intros x. rewrite Hpar. simpl. rewrite thr_upd. case_decide; [subst; by rewrite Hp|apply H4].
  - intros x Hx. rewrite Hpar. simpl. rewrite thr_upd. case_decide as E; [subst; by rewrite Hp|].
    apply H5. intros [?|?]%elem_of_cons; [by subst|done].
  - intros x. rewrite Hlow. simpl. rewrite thr_upd. case_decide; [done|apply H6].
Qed.

(** [f'] is [f] with the thread [t] recycled, and at most one free thread gone. *)
Record recycled A A' t f f' : Prop := {
  rc_live : A' ⊆ A;
  rc_other : forall x, x ∈ A -> x <> t -> low (fr_threads f) x <> Free ->
    x ∈ A' /\ thr (fr_threads f') x = thr (fr_threads f) x;
  rc_self : t ∈ A' /\ low (fr_threads f') t = Free;
  rc_fixed : fr_runlist f' = fr_runlist f /\ fr_daemon f' = fr_daemon f /\ fr_curr f' = fr_curr f;
}.

Lemma FreeThread_core A X Y n t f :
  core A (t :: X) Y f -> t ∈ A -> low (fr_threads f) t = Loose ->
  mt_parent (thr (fr_threads f) t) = None -> mt_sub_list (thr (fr_threads f) t) = [] ->
  fr_daemon f <> Some t ->
  exists A', core A' X Y (FreeThread n t f) /\ recycled A A' t f (FreeThread n t f).
Proof.
  intros [W S D] HA Hl Hp Hs Hd.
  set (f0 := on_thread t Reset f).
  assert (W0 : frame_wf A f0) by (apply wf_loose; auto).
  assert (S0 : sub_inv A X Y f0) by (by apply reset_sub).
  assert (Hl0 : low (fr_threads f0) t = Loose) by (unfold f0; simpl; by rewrite low_upd, decide_True).
  set (u := tp_use_num (fr_pool f) - 1).
  pose proof (push_free_moved A f0 t u W0 Hl0) as M.
  set (f1 := set_pool _ _) in M.
  assert (W1 : frame_wf A f1) by (eapply moved_wf; eauto; right; by left).
  assert (S1 : sub_inv A X Y f1).
  { eapply sub_inv_moved; eauto; [left; by rewrite Hl0|]. intros _. unfold f0; simpl. by rewrite thr_upd_eq. }
  assert (Ht1 : forall x, x <> t -> thr (fr_threads f1) x = thr (fr_threads f) x).
  { intros x Hx. unfold f1, f0; simpl. by rewrite !thr_upd_ne. }
  assert (Hlt : low (fr_threads f1) t = Free) by (by rewrite (mv_low _ _ _ _ M), decide_True).
  assert (Hmain : forall A' f', frame_wf A' f' -> sub_inv A' X Y f' -> recycled A A' t f f' ->
     core A' X Y f').
  { intros A' f' W' S' R. split; auto. eapply daemon_ok_keep; eauto; [apply R|].
    intros d HdA Hdl Hde. apply R; [done|congruence|by rewrite Hdl]. }
  unfold FreeThread. simpl. destruct (tp_freelist (fr_pool f) ++ [t]) as [|x l] eqn:El.
  { by destruct (tp_freelist (fr_pool f)). }
  assert (Hf1 : tp_freelist (fr_pool f1) = x :: l) by (unfold f1, f0; simpl; by rewrite El).
  destruct (_ && _) eqn:Hc.
  - apply andb_prop in Hc as [_ Hlen]. apply Z.ltb_lt in Hlen.
    assert (Hx : low (fr_threads f1) x = Free) by (apply (fw_free _ _ W1); rewrite Hf1; by left).
    assert (Hxt : x <> t).
    { intros ->. pose proof (fw_nodup _ _ W1) as (_ & _ & _ & Hnd). rewrite Hf1 in Hnd.
      apply NoDup_cons_1_1 in Hnd. destruct (tp_freelist (fr_pool f)) as [|y l0] eqn:E0; simpl in El.
      - injection El as <-. simpl in Hlen. lia.
      - injection El as -> <-. apply Hnd. apply elem_of_app. right. by left. }
    exists (A ∖ {[x]}).
    assert (Heq : drop_free x l u f1 = set_pool (mkThreadPool l (tp_total_num (fr_pool f) - 1) u (tp_max_num (fr_pool f)))
       (set_threads (delete x (fr_threads f1)) (on_thread t (SetFlag FREE_LIST) f0))) by done.
    unfold f0, u in Heq. simpl in Heq. rewrite <- Heq.
    assert (R : recycled A (A ∖ {[x]}) t f (drop_free x l u f1)).
    { split; [by apply subseteq_difference_l| | |done].
      - intros y Hy Hne Hlow. assert (y <> x).
        { intros ->. apply Hlow. unfold low in *. by rewrite Ht1 in Hx. }
        rewrite drop_thr, decide_False by done. split; [set_solver|auto].
      - rewrite drop_low, decide_False by done. split; [set_solver|done]. }
    split; [|done]. apply Hmain; auto; [by apply drop_wf|by apply drop_sub].
  - exists A. assert (Heq : f1 = set_pool (mkThreadPool (x :: l) (tp_total_num (fr_pool f)) u (tp_max_num (fr_pool f)))
       (on_thread t (SetFlag FREE_LIST) f0)) by (unfold f1, f0; simpl; by rewrite El).
    unfold f0, u in Heq. simpl in Heq. rewrite <- Heq.
    assert (R : recycled A A t f f1) by (split; auto; done).
    split; auto.
Qed.
End pool.
