(* ===== verification/SchedSteps.v ===== *)
(** * The steps of the scheduler

    Sub threads ([AddSubThread], [RemoveSubThread], [WakeupParent],
    [mt_exec_all_task]), the end of a thread ([RunEnd]) and the steps of the
    program: what the active thread or the daemon does up to the next context
    switch.  Main theorems: no step of a scheduler in its invariant meets undefined
    behaviour, and the invariant holds in every reachable state. *)

From Stdlib Require Import ZArith Lia.
From stdpp Require Import base gmap list option.
From S2P Require Import Prelude Heap Epoll Thread Sched SchedInv SchedProps SchedPool.

Section steps.
Context {K : Type} (epoll_ctl : K -> epoll_op -> Z -> Z -> K * Z * Z).
Implicit Types (f : MtFrame K) (t x p d sub : ptr) (A : gset ptr).

(** ** Attaching and detaching a sub thread *)

Lemma add_thr t sub s x :
  sub <> t -> HasFlag SUB_LIST (thr s sub) = false ->
  thr (AddSubThread t sub s) x =
    if decide (x = sub) then SetFlag SUB_LIST (SetParent (Some t) (thr s sub))
    else if decide (x = t) then put_sub_list (mt_sub_list (thr s t) ++ [sub]) (thr s t)
    else thr s x.
Proof.
  intros Hne Hf. unfold AddSubThread. rewrite Hf, !thr_upd.
  repeat case_decide; subst; try done.
Qed.

Lemma rem_thr p t s x :
  t <> p -> HasFlag SUB_LIST (thr s t) = true -> t ∈ mt_sub_list (thr s p) ->
  exists s', RemoveSubThread p t s = Some s' /\ forall x, thr s' x =
    if decide (x = t) then UnsetFlag SUB_LIST (SetParent None (thr s t))
    else if decide (x = p) then put_sub_list (filter (λ y, y <> t) (mt_sub_list (thr s p))) (thr s p)
    else thr s x.
Proof.
  intros Hne Hf Hin. unfold RemoveSubThread, tailq_remove. rewrite Hf, decide_True by done. simpl.
  eexists. split; [reflexivity|]. intros y. rewrite !thr_upd. repeat case_decide; subst; try done.
Qed.

Lemma add_dom t sub (s : gmap ptr MicroThread) : dom s ⊆ dom (AddSubThread t sub s).
Proof.
  unfold AddSubThread. etrans; [|apply dom_upd]. destruct (HasFlag _ _); [done|].
  etrans; [|apply dom_upd]. apply dom_upd.
Qed.

Lemma rem_dom p t (s s' : gmap ptr MicroThread) : RemoveSubThread p t s = Some s' -> dom s ⊆ dom s'.
Proof.
  unfold RemoveSubThread. destruct (HasFlag _ _); simpl.
  - destruct (tailq_remove _ _); simpl; intros; simplify_eq.
    do 2 (etrans; [|apply dom_upd]). apply dom_upd.
  - intros; simplify_eq. apply dom_upd.
Qed.

Lemma low_sub_set m : Z.land (mt_flag (SetFlag SUB_LIST m)) 31 = Z.land (mt_flag m) 31.
Proof. simpl. rewrite land_lor_mask. by rewrite Z.lor_0_r. Qed.

Lemma low_sub_clear m : Z.land (mt_flag (UnsetFlag SUB_LIST m)) 31 = Z.land (mt_flag m) 31.
Proof.
  simpl. unfold clear_bits. rewrite <- Z.land_assoc. by replace (Z.land (Z.lnot SUB_LIST) 31) with 31 by done.
Qed.

Lemma sub_flag_set z : Z.land (Z.lor z SUB_LIST) SUB_LIST <> 0.
Proof. rewrite land_lor_mask. intros [_ H]%Z.lor_eq_0_iff. done. Qed.

Lemma sub_flag_clear z : Z.land (clear_bits z SUB_LIST) SUB_LIST = 0.
Proof. unfold clear_bits. rewrite <- Z.land_assoc. by replace (Z.land (Z.lnot SUB_LIST) SUB_LIST) with 0 by done; rewrite Z.land_0_r. Qed.

Lemma HasFlag_sub A X Y f x : sub_inv A X Y f ->
  HasFlag SUB_LIST (thr (fr_threads f) x) = bool_decide (mt_parent (thr (fr_threads f) x) <> None).
Proof.
  intros S. pose proof (su_flag _ _ _ _ S x) as H. unfold HasFlag, has.
  destruct (Z.eqb_spec (Z.land (mt_flag (thr (fr_threads f) x)) SUB_LIST) 0) as [E|E]; simpl;
    symmetry; [apply bool_decide_eq_false|apply bool_decide_eq_true]; tauto.
Qed.

(** Replacing the store by one that agrees on queues, positions and states. *)
Lemma wf_threads A s f :
  frame_wf A f ->
  (forall x, low s x = low (fr_threads f) x) ->
  (forall x, mt_index (thr s x) = mt_index (thr (fr_threads f) x)) ->
  (forall x, mt_state (thr s x) = mt_state (thr (fr_threads f) x)) ->
  dom (fr_threads f) ⊆ dom s ->
  frame_wf A (set_threads s f).
Proof.
  intros W H1 H2 H3 H4.
  replace (set_threads s f) with (set_pool (fr_pool f) (set_threads s f)) by (by destruct f).
  apply (wf_store A); auto; [|lia|apply W]. etrans; [apply W|done].
Qed.

Lemma AddSubThread_core A X t sub f :
  core A (sub :: X) (Some t) f -> sub <> t -> sub ∉ X ->
  mt_parent (thr (fr_threads f) sub) = None -> mt_type (thr (fr_threads f) sub) = SUB_THREAD ->
  low (fr_threads f) t = Loose -> t ∈ A -> low (fr_threads f) sub = Loose -> sub ∈ A ->
  fr_daemon f <> Some t ->
  let s := AddSubThread t sub (fr_threads f) in
  core A X (Some t) (set_threads s f) /\ (forall x, low s x = low (fr_threads f) x) /\
  (forall x, x <> t -> x <> sub -> thr s x = thr (fr_threads f) x).
Proof.
  intros [W S D] Hne HX Hpar Hty Hlt HtA Hls HsA Hd s.
  assert (Hf : HasFlag SUB_LIST (thr (fr_threads f) sub) = false).
  { rewrite (HasFlag_sub A _ _ _ _ S). apply bool_decide_eq_false. tauto. }
  pose proof (fun x => add_thr t sub (fr_threads f) x Hne Hf) as Ht. fold s in Ht.
  assert (Hlow : forall x, low s x = low (fr_threads f) x).
  { intros x. unfold low. rewrite Ht. repeat case_decide; subst; [by rewrite low_sub_set|done..]. }
  assert (Hpa : forall x, mt_parent (thr s x) = if decide (x = sub) then Some t else mt_parent (thr (fr_threads f) x)).
  { intros x. rewrite Ht. by repeat case_decide; subst. }
  assert (Hsl : forall x, mt_sub_list (thr s x) =
     if decide (x = t) then mt_sub_list (thr (fr_threads f) t) ++ [sub] else mt_sub_list (thr (fr_threads f) x)).
  { intros x. rewrite Ht. by repeat case_decide; subst. }
  split_and!; [split| |].
  - apply wf_threads; auto; [intros x; rewrite Ht; by repeat case_decide; subst..|].
    by apply add_dom.
  - destruct S as [H1 H2 H3 H4 H5 H6]. split; simpl.
    + intros x q. rewrite Hpa, Hsl. repeat case_decide; subst;
        rewrite ?elem_of_app, ?list_elem_of_singleton, <- ?H1; try tauto.
      rewrite Hpar. split; [by intros [=]|congruence].
    + intros q. rewrite Hsl. case_decide; subst; [|auto]. apply NoDup_snoc; [auto|].
      rewrite <- H1, Hpar. done.
    + intros q. rewrite Hsl, Hlow. case_decide; [subst|auto]. by intros _ [].
    + intros x. rewrite Hpa, Ht. repeat case_decide; subst; simpl; auto.
      split; [done|]. intros _. apply sub_flag_set.
    + intros x Hx. rewrite Hpa, Ht. repeat case_decide; subst; simpl; auto.
      * by rewrite Hty.
      * apply H5. intros [?|?]%elem_of_cons; done.
      * apply H5. intros [?|?]%elem_of_cons; done.
    + intros x. rewrite Hlow. intros Hx. rewrite Ht. repeat case_decide; subst; auto.
      * destruct Hx as [Hx|Hx]; [by rewrite Hls in Hx|done].
      * destruct Hx as [Hx|Hx]; [by rewrite Hlt in Hx|done].
  - eapply daemon_ok_keep; eauto. intros d HdA Hdl Hde. split; [done|]. simpl.
    rewrite Ht, decide_False, decide_False; [done|congruence|].
    intros ->. destruct D as (d' & Hd' & _ & _ & Hv). rewrite Hde in Hd'. injection Hd' as <-.
    unfold view in Hv. congruence.
  - done.
  - intros x ? ?. by rewrite Ht, !decide_False.
Qed.

(** The parent of a thread that runs waits for it. *)
Lemma parent_pend A X f t p :
  sub_inv A X None f -> mt_parent (thr (fr_threads f) t) = Some p -> low (fr_threads f) p = Pend.
Proof.
  intros S Hp. apply (su_parent _ _ _ _ S) in Hp. apply (su_pend _ _ _ _ S); [|done].
  intros E. rewrite E in Hp. by apply elem_of_nil in Hp.
Qed.

Lemma RemoveSubThread_core A t p f :
  core A [] None f -> mt_parent (thr (fr_threads f) t) = Some p ->
  low (fr_threads f) t = Loose -> t ∈ A ->
  exists s, RemoveSubThread p t (fr_threads f) = Some s /\ core A [t] None (set_threads s f) /\
    (forall x, low s x = low (fr_threads f) x) /\
    mt_parent (thr s t) = None /\ mt_sub_list (thr s t) = [] /\
    mt_sub_list (thr s p) = filter (λ y, y <> t) (mt_sub_list (thr (fr_threads f) p)) /\
    (forall x, x <> t -> x <> p -> thr s x = thr (fr_threads f) x).
Proof.
  intros [W S D] Hpar Hlt HtA. pose proof (parent_pend _ _ _ _ _ S Hpar) as Hpp.
  assert (Hne : t <> p) by (intros ->; by rewrite Hlt in Hpp).
  assert (Hnil : mt_sub_list (thr (fr_threads f) t) = []).
  { destruct (decide (mt_sub_list (thr (fr_threads f) t) = [])) as [|Hn]; [done|].
    apply (su_pend _ _ _ _ S) in Hn; [|done]. by rewrite Hlt in Hn. }
  assert (Hin : t ∈ mt_sub_list (thr (fr_threads f) p)) by (by apply (su_parent _ _ _ _ S)).
  destruct (rem_thr p t (fr_threads f) t Hne) as (s & E & Ht); [|done|].
  { rewrite (HasFlag_sub A _ _ _ _ S), Hpar. by apply bool_decide_eq_true. }
  assert (Hlow : forall x, low s x = low (fr_threads f) x).
  { intros x. unfold low. rewrite Ht. repeat case_decide; subst; [by rewrite low_sub_clear|done..]. }
  assert (Hpa : forall x, mt_parent (thr s x) = if decide (x = t) then None else mt_parent (thr (fr_threads f) x)).
  { intros x. rewrite Ht. by repeat case_decide; subst. }
  assert (Hsl : forall x, mt_sub_list (thr s x) =
     if decide (x = p) then filter (λ y, y <> t) (mt_sub_list (thr (fr_threads f) p))
     else mt_sub_list (thr (fr_threads f) x)).
  { intros x. rewrite Ht. by repeat case_decide; subst. }
  exists s. split_and!; auto; [split| | | |].
  - apply wf_threads; auto; [intros x; rewrite Ht; by repeat case_decide; subst..|].
    by apply (rem_dom p t).
  - destruct S as [H1 H2 H3 H4 H5 H6]. split; simpl.
    + intros x q. rewrite Hpa, Hsl. repeat case_decide; subst;
        rewrite ?list_elem_of_filter, <- ?H1; try tauto.
      * split; [done|tauto].
      * rewrite Hpar. split; [done|]. by intros [= ->].
    + intros q. rewrite Hsl. case_decide; subst; [|auto]. by apply list.NoDup_filter.
    + intros q. rewrite Hsl, Hlow. case_decide; [subst|auto]. done.
    + intros x. rewrite Hpa, Ht. repeat case_decide; subst; simpl; auto.
      split; [|done]. intros Hx. by rewrite sub_flag_clear in Hx.
    + intros x Hx. rewrite Hpa, Ht. repeat case_decide; subst; simpl; auto using not_elem_of_nil.
      by destruct Hx; left.
    + intros x. rewrite Hlow. intros Hx. rewrite Ht. repeat case_decide; subst; auto.
      * destruct Hx as [Hx|Hx]; [by rewrite Hlt in Hx|done].
      * destruct Hx as [Hx|Hx]; [by rewrite Hpp in Hx|].
        destruct Hx. apply (fw_live _ _ W). by rewrite Hpp.
  - eapply daemon_ok_keep; eauto. intros d HdA Hdl Hde. split; [done|]. simpl.
    rewrite Ht, decide_False, decide_False; [done| |].
    + intros ->. by rewrite Hdl in Hpp.
    + intros ->. destruct D as (d' & Hd' & _ & _ & Hv). rewrite Hde in Hd'. injection Hd' as <-.
      unfold view in Hv. congruence.
  - by rewrite Hpa, decide_True.
  - by rewrite Hsl, decide_False.
  - by rewrite Hsl, decide_True.
  - intros x ? ?. by rewrite Ht, !decide_False.
Qed.

Lemma core_weaken A X f : core A [] None f -> core A X None f.
Proof. intros [W S D]. split; auto. apply (sub_inv_mono A A []); [done| |done]. by intros x ?%elem_of_nil. Qed.

Lemma loose_no_subs A X f t : sub_inv A X None f -> low (fr_threads f) t = Loose ->
  mt_sub_list (thr (fr_threads f) t) = [].
Proof.
  intros S Hl. destruct (decide (mt_sub_list (thr (fr_threads f) t) = [])) as [|Hn]; [done|].
  apply (su_pend _ _ _ _ S) in Hn; [|done]. by rewrite Hl in Hn.
Qed.

(** ** The end of a sub thread *)

(** What [WakeupParent] of [t] does to the queues: a parent left without sub
    threads becomes runnable, all else stays where it was. *)
Definition parent_low t f (x : ptr) : Z :=
  match mt_parent (thr (fr_threads f) t) with
  | Some p => if decide (x = p /\ mt_sub_list (thr (fr_threads f) p) = [t]) then Run
              else low (fr_threads f) x
  | None => low (fr_threads f) x
  end.

(** The parent it appends to the run queue, if any. *)
Definition parent_run t f : list ptr :=
  match mt_parent (thr (fr_threads f) t) with
  | Some p => if decide (mt_sub_list (thr (fr_threads f) p) = [t]) then [p] else []
  | None => []
  end.

Lemma filter_last (l : list ptr) t :
  NoDup l -> t ∈ l -> filter (λ y, y <> t) l = [] <-> l = [t].
Proof.
  intros Hnd Hin. split.
  - intros Hf. assert (Hall : forall y, y ∈ l -> y = t).
    { intros y Hy. destruct (decide (y = t)) as [|Hn]; [done|].
      assert (Hy' : y ∈ filter (λ y, y <> t) l) by (by apply list_elem_of_filter).
      rewrite Hf in Hy'. by apply elem_of_nil in Hy'. }
    destruct l as [|a [|b l]]; [by apply elem_of_nil in Hin| |].
    + by rewrite (Hall a) by (by left).
    + exfalso. assert (a = b) as -> by (rewrite (Hall a), (Hall b); [done|right; by left|by left]).
      apply NoDup_cons_1_1 in Hnd. apply Hnd. by left.
  - intros ->. rewrite filter_cons_False by tauto. done.
Qed.

Lemma WakeupParent_core A t f :
  core A [] None f -> low (fr_threads f) t = Loose -> t ∈ A ->
  exists f', WakeupParent t f = Some f' /\ core A [t] None f' /\
    mt_parent (thr (fr_threads f') t) = None /\ mt_sub_list (thr (fr_threads f') t) = [] /\
    (forall x, low (fr_threads f') x = parent_low t f x) /\
    fr_curr f' = fr_curr f /\ fr_daemon f' = fr_daemon f /\
    fr_runlist f' = fr_runlist f ++ parent_run t f.
Proof.
  intros C Hl HA. unfold WakeupParent, parent_low, parent_run.
  destruct (mt_parent (thr (fr_threads f) t)) as [p|] eqn:Hp.
  2: { exists f. rewrite app_nil_r. split_and!; auto using core_weaken. eapply loose_no_subs; eauto. apply C. }
  pose proof (parent_pend _ _ _ _ _ (co_sub _ _ _ _ C) Hp) as Hpp.
  assert (Hin : t ∈ mt_sub_list (thr (fr_threads f) p)) by (by apply (su_parent _ _ _ _ (co_sub _ _ _ _ C))).
  pose proof (filter_last _ t (su_nodup _ _ _ _ (co_sub _ _ _ _ C) p) Hin) as Hlast.
  destruct (RemoveSubThread_core A t p f C Hp Hl HA) as (s & -> & C1 & Hlow & Hpt & Hst & Hsp & Hoth).
  simpl. unfold HasNoSubThread. rewrite Hsp.
  destruct (bool_decide_reflect (filter (λ y, y <> t) (mt_sub_list (thr (fr_threads f) p)) = [])) as [Hnil|Hnil].
  - set (f1 := set_threads s f) in *. unfold ScheduleUnpend.
    assert (Hlp : low (fr_threads f1) p = Pend) by (simpl; by rewrite Hlow).
    destruct (RemovePend_moved A f1 p (co_wf _ _ _ _ C1) Hlp) as (f2 & E2 & M). rewrite E2. simpl.
    assert (Hrun : fr_runlist f2 = fr_runlist f).
    { unfold RemovePend in E2. destruct (tailq_remove _ _); simpl in E2; by simplify_eq. }
    assert (HpA : p ∈ A) by (apply (fw_live _ _ (co_wf _ _ _ _ C)); by rewrite Hpp).
    assert (W2 : frame_wf A f2) by (eapply moved_wf; eauto; [apply C1|by left]).
    assert (M2 : moved p Run f1 (InsertRunable p f2)).
    { eapply moved_trans; [exact M|]. apply (InsertRunable_moved A); [done|].
      by rewrite (mv_low _ _ _ _ M), decide_True. }
    exists (InsertRunable p f2). destruct (mv_fixed _ _ _ _ M2) as (? & ? & ? & ?).
    pose proof (mv_view _ _ _ _ M2 t) as Hv. unfold view in Hv. simpl in Hv. injection Hv as _ Hv1 Hv2 _.
    split_and!; auto.
    + eapply core_moved; eauto; [unfold place_ok; auto 7| |done|left; by rewrite Hlp].
      right; left. simpl. by rewrite Hsp.
    + by rewrite <- Hpt, <- Hv1.
    + by rewrite <- Hst, <- Hv2.
    + intros x. rewrite (mv_low _ _ _ _ M2). simpl. rewrite Hlow.
      apply Hlast in Hnil. repeat case_decide; tauto.
    + rewrite decide_True by (by apply Hlast). simpl. by rewrite Hrun.
  - exists (set_threads s f). split_and!; auto.
    + intros x. simpl. rewrite Hlow. rewrite decide_False; [done|]. intros [_ ?]. tauto.
    + rewrite decide_False by tauto. simpl. by rewrite app_nil_r.
Qed.

Lemma sched_of_core A f :
  core A [] None f -> exists f', ThreadSchdule f = Some f' /\ sched_inv A f'.
Proof. intros C. destruct (ThreadSchdule_spec A f C) as (f' & ? & ? & _). eauto. Qed.

(** [f'] runs the first thread of the queue [Q], the daemon if it is empty. *)
Definition runs_next (Q : list ptr) f f' : Prop :=
  fr_curr f' = match Q with [] => fr_daemon f | x :: _ => Some x end /\ fr_runlist f' = tail Q.

Lemma RunEnd_inv A n f t :
  sched_inv A f -> fr_curr f = Some t -> fr_daemon f <> Some t ->
  exists A' f', RunEnd n f = Some f' /\ sched_inv A' f' /\ A' ⊆ A /\
    runs_next (fr_runlist f ++ parent_run t f) f f' /\ low (fr_threads f') t = Free.
Proof.
  intros [C (t' & Ht' & Hl & HA)] Ht Hd. rewrite Ht in Ht'. injection Ht' as <-.
  unfold RunEnd. rewrite Ht.
  assert (exists f1, (if IsSubThread (thr (fr_threads f) t) then WakeupParent t f else Some f) = Some f1 /\
    core A [t] None f1 /\ mt_parent (thr (fr_threads f1) t) = None /\
    mt_sub_list (thr (fr_threads f1) t) = [] /\ low (fr_threads f1) t = Loose /\ fr_daemon f1 = fr_daemon f /\
    fr_runlist f1 = fr_runlist f ++ parent_run t f)
    as (f1 & -> & C1 & Hp & Hs & Hl1 & Hd1 & Hr1).
  { unfold IsSubThread. pose proof (su_type _ _ _ _ (co_sub _ _ _ _ C) t (not_elem_of_nil t)) as Hty.
    destruct (bool_decide_reflect (mt_type (thr (fr_threads f) t) = SUB_THREAD)) as [E|E].
    - destruct (WakeupParent_core A t f C Hl HA) as (f1 & E1 & C1 & Hp & Hs & Hlow & _ & Hd1 & Hr1).
      exists f1. split_and!; auto. rewrite Hlow. unfold parent_low.
      destruct (mt_parent (thr (fr_threads f) t)) as [q|] eqn:Hq; [|done].
      rewrite decide_False; [done|]. intros [-> _].
      apply (parent_pend _ _ _ _ _ (co_sub _ _ _ _ C)) in Hq. by rewrite Hl in Hq.
    - assert (Hnone : mt_parent (thr (fr_threads f) t) = None).
      { destruct (mt_parent (thr (fr_threads f) t)); [|done]. destruct E. by apply Hty. }
      exists f. unfold parent_run. rewrite Hnone, app_nil_r. split_and!; auto using core_weaken.
      eapply loose_no_subs; eauto. apply C. }
  simpl. destruct (FreeThread_core A [] None n t f1) as (A' & C2 & R); auto; [congruence|].
  destruct (rc_fixed _ _ _ _ _ R) as (Hr2 & Hd2 & _).
  destruct (ThreadSchdule_spec A' _ C2) as (f' & E & I & Hc & Hr & _ & _ & Hoth).
  exists A', f'. split_and!; auto; [apply R|..].
  - split; [rewrite Hc, Hr2, Hr1, Hd2, Hd1; done|congruence].
  - destruct (rc_self _ _ _ _ _ R) as [_ Hf].
    unfold low. rewrite Hoth; [exact Hf|]. intros Hx. destruct (si_curr _ _ I) as (t' & Ht' & Hlt' & _).
    rewrite Hx in Ht'. injection Ht' as <-. rewrite Hc in Hx. rewrite Hr2 in Hx.
    destruct (fr_runlist f1) as [|y l] eqn:El; [congruence|]. injection Hx as ->.
    assert (Hrun : low (fr_threads (FreeThread n t f1)) t = Run)
      by (apply (fw_run _ _ (co_wf _ _ _ _ C2)); rewrite Hr2; by left).
    by rewrite Hf in Hrun.
Qed.

(** ** [mt_exec_all_task] *)

(** A sub thread that is created but not started. *)
Definition sub_ready A f sub : Prop :=
  sub ∈ A /\ low (fr_threads f) sub = Loose /\
  view (thr (fr_threads f) sub) = (SUB_THREAD, None, [], 0).

Lemma ready_keep A A' f f' x :
  sub_ready A f x -> x ∈ A' -> thr (fr_threads f') x = thr (fr_threads f) x -> sub_ready A' f' x.
Proof. intros (_ & Hl & Hv) HA Ht. unfold sub_ready, low. by rewrite Ht. Qed.

Lemma daemon_not_sub A f x : daemon_ok A f -> sub_ready A f x -> fr_daemon f <> Some x.
Proof.
  intros (d & Hd & _ & _ & Hv) (_ & _ & Hx) E. rewrite Hd in E. injection E as ->. by rewrite Hv in Hx.
Qed.

(** The addresses a sequence of allocations may return. *)
Definition fresh A (news : list (option ptr)) : Prop :=
  NoDup (omap id news) /\ forall n, n ∈ omap id news -> n ∉ A.

Lemma fresh_cons A new news : fresh A (new :: news) ->
  (forall n, new = Some n -> n ∉ A) /\
  (forall A' t, A' ⊆ {[t]} ∪ A -> (t ∉ A -> new = Some t) -> fresh A' news).
Proof.
  intros [Hnd Hf]. simpl in Hnd, Hf. split.
  - intros n ->. apply Hf. simpl. by left.
  - intros A' t HA Ht. split; [destruct new; [by apply NoDup_cons_1_2 in Hnd|done]|].
    intros n Hn HnA. apply HA, elem_of_union in HnA as [->%elem_of_singleton|HnA].
    + destruct (decide (t ∈ A)) as [HtA|HtA]; [|rewrite (Ht HtA) in Hnd; simpl in Hnd].
      * apply (Hf t); [|done]. destruct new; simpl; [by right|done].
      * by apply NoDup_cons_1_1 in Hnd.
    + apply (Hf n); [|done]. destruct new; simpl; [by right|done].
Qed.

(** A sub thread is created: allocated, given its task and its type. *)
Lemma create_sub_core A X new task f :
  core A X None f -> (forall n, new = Some n -> n ∉ A) ->
  CreateThread new 0 task false f = (None, f) \/
  exists t A' f1, CreateThread new 0 task false f = (Some t, f1) /\ (t ∉ A -> new = Some t) /\
    let f' := on_thread t (SetType SUB_THREAD) f1 in
    core A' (t :: X) None f' /\ allocated A A' t f f1 /\ sub_ready A' f' t /\
    (forall x, x <> t -> thr (fr_threads f') x = thr (fr_threads f) x).
Proof.
  intros C Hnew. unfold CreateThread.
  destruct (AllocThread_core A X None new f C Hnew) as [[-> _]|(t & A' & f1 & -> & Hal & Ht & C1)]; [by left|].
  right. set (f2 := on_thread t (SetSartFunc (Some 0) task) f1).
  exists t, A', f2. split; [done|]. split; [done|]. cbv zeta.
  destruct (core_tweak A' X None t (SetSartFunc (Some 0) task) f1 C1) as [C2 Hlow2]; try done; [apply Hal|].
  fold f2 in C2, Hlow2. assert (Hl2 : low (fr_threads f2) t = Loose) by (rewrite Hlow2; apply Hal).
  pose proof (al_view _ _ _ _ _ Hal) as Hv1.
  assert (Hv2 : view (thr (fr_threads f2) t) = plain_view) by (unfold f2; simpl; by rewrite thr_upd_eq).
  assert (Hoth2 : forall x, x <> t -> thr (fr_threads f2) x = thr (fr_threads f) x).
  { intros x Hx. unfold f2; simpl. rewrite !thr_upd_ne by done. by apply Hal. }
  assert (Hal2 : allocated A A' t f f2).
  { destruct Hal as [H1 H2 H3 H4 H5 H6]. split; auto. }
  clearbody f2.
  assert (Hoth : forall x, x <> t -> thr (fr_threads (on_thread t (SetType SUB_THREAD) f2)) x = thr (fr_threads f) x).
  { intros x Hx. simpl. rewrite thr_upd_ne by done. by apply Hoth2. }
  set (f' := on_thread t (SetType SUB_THREAD) f2).
  assert (Hlow : forall x, low (upd t (SetType SUB_THREAD) (fr_threads f2)) x = low (fr_threads f2) x).
  { intros x. rewrite low_upd. by case_decide; subst. }
  destruct (al_live _ _ _ _ _ Hal) as [HtA _].
  split_and!; auto.
  - destruct C2 as [W2 S2 D2]. split.
    + by apply wf_loose.
    + destruct S2 as [H1 H2 H3 H4 H5 H6]. unfold f'. split; simpl.
      * intros x p. rewrite (field_upd mt_parent), (field_upd mt_sub_list) by done. apply H1.
      * intros p. rewrite (field_upd mt_sub_list) by done. apply H2.
      * intros p. rewrite (field_upd mt_sub_list) by done. rewrite (Hlow p). apply H3.
      * intros x. rewrite (field_upd mt_flag), (field_upd mt_parent) by done. apply H4.
      * intros x [Hx1 Hx2]%not_elem_of_cons. rewrite thr_upd_ne by done. by apply H5.
      * intros x Hx. rewrite (Hlow x) in Hx. rewrite thr_upd_ne; [by apply H6|].
        intros <-. destruct Hx as [Hx|Hx]; [by rewrite Hl2 in Hx|done].
    + eapply daemon_ok_keep; eauto. intros d HdA Hdl Hde. split; [done|].
      unfold f'. simpl. rewrite thr_upd_ne; [done|]. intros <-.
      destruct D2 as (d' & Hd' & _ & _ & Hv). rewrite Hde in Hd'. injection Hd' as <-.
      by rewrite Hv2 in Hv.
  - unfold f', sub_ready; simpl. rewrite Hlow, thr_upd_eq. split_and!; auto.
    unfold view in *. simpl. unfold plain_view in Hv2. congruence.
Qed.

Lemma exec_create_core A X tasks f :
  core A X None f -> (forall x, x ∈ X -> sub_ready A f x) -> fresh A (tasks.*1) ->
  exists ok l f' A', exec_create tasks f = (ok, l, f') /\ core A' (l ++ X) None f' /\
    (forall x, x ∈ l ++ X -> sub_ready A' f' x) /\ NoDup l /\ (forall x, x ∈ l -> x ∉ X) /\ A ⊆ A' /\
    (ok = true -> length l = length tasks) /\
    (forall x, x ∈ A -> low (fr_threads f) x <> Free ->
       (x ∉ l) /\ thr (fr_threads f') x = thr (fr_threads f) x) /\
    fr_daemon f' = fr_daemon f /\ fr_curr f' = fr_curr f /\ fr_runlist f' = fr_runlist f.
Proof.
  revert A X f. induction tasks as [|[new task] tasks IH]; intros A X f C HX Hfr.
  { exists true, [], f, A. split_and!; auto using NoDup_nil_2.
    - by intros x ?%elem_of_nil.
    - intros x _ _. split; [apply not_elem_of_nil|done]. }
  apply fresh_cons in Hfr as [Hn Hfr]. simpl.
  destruct (create_sub_core A X new task f C Hn) as [-> | (t & A1 & f1 & -> & Ht & C1 & Hal & Hrt & Hoth)].
  { exists false, [], f, A. split_and!; auto using NoDup_nil_2.
    - by intros x ?%elem_of_nil.
    - done.
    - intros x _ _. split; [apply not_elem_of_nil|done]. }
  set (f2 := on_thread t (SetType SUB_THREAD) f1) in *.
  destruct (al_live _ _ _ _ _ Hal) as (HtA & HA1 & HA2).
  assert (HtX : t ∉ X).
  { intros HtX. destruct (HX t HtX) as (HtA' & Htl & _).
    by apply (allocated_ne _ _ _ _ _ t Hal HtA'); [rewrite Htl|]. }
  destruct (IH A1 (t :: X) f2 C1) as (ok & l & f' & A' & -> & C' & Hr & Hnd & Hdis & HA & Hok & Hk & Hd & Hc & Hru).
  { intros x [-> | Hx]%elem_of_cons; [done|].
    apply (ready_keep A A1 f f2); auto; [apply HA1, (HX x Hx)|]. apply Hoth. by intros ->. }
  { by apply (Hfr A1 t). }
  destruct (al_fixed _ _ _ _ _ Hal) as (? & ? & ? & ?).
  exists ok, (t :: l), f', A'. split_and!; auto.
  - destruct C' as [W S D]. split; auto. apply (sub_inv_mono A' A' (l ++ t :: X)); [done| |done].
    intros x. simpl. rewrite !elem_of_app, !elem_of_cons, elem_of_app. tauto.
  - intros x Hx. apply Hr. revert Hx. simpl. rewrite !elem_of_app, !elem_of_cons, elem_of_app. tauto.
  - constructor; [|done]. intros Htl%Hdis. apply Htl. by left.
  - intros x [-> | Hx]%elem_of_cons; [done|]. apply Hdis in Hx. rewrite not_elem_of_cons in Hx. tauto.
  - by etrans.
  - intros E. simpl. by rewrite Hok.
  - intros x HxA Hxl. assert (Hxt : x <> t) by (eapply allocated_ne; eauto).
    destruct (Hk x) as [Hx1 Hx2].
    + by apply HA1.
    + unfold low. rewrite Hoth by done. done.
    + rewrite Hx2, Hoth by done. split; [|done]. by apply not_elem_of_cons.
  - rewrite Hd. done.
  - rewrite Hc. done.
  - rewrite Hru. done.
Qed.

Lemma exec_start_core A t subs f :
  core A subs (Some t) f -> NoDup subs -> (t ∉ subs) -> (forall x, x ∈ subs -> sub_ready A f x) ->
  low (fr_threads f) t = Loose -> t ∈ A -> fr_daemon f <> Some t ->
  let f' := exec_start t subs f in
  core A [] (Some t) f' /\ low (fr_threads f') t = Loose /\ fr_daemon f' = fr_daemon f /\
  fr_curr f' = fr_curr f /\ fr_runlist f' = fr_runlist f ++ subs /\
  mt_sub_list (thr (fr_threads f') t) = mt_sub_list (thr (fr_threads f) t) ++ subs.
Proof.
  revert f. induction subs as [|sub subs IH]; intros f C Hnd Ht Hr Hl HA Hd; simpl.
  { by rewrite !app_nil_r. }
  apply not_elem_of_cons in Ht as [Hne Ht].
  destruct (Hr sub) as (HsA & Hsl & Hsv); [by left|].
  unfold view in Hsv. injection Hsv as Hsty Hsp Hss Hsf.
  destruct (AddSubThread_core A subs t sub f) as (C1 & Hlow1 & Hoth1); auto.
  { by apply NoDup_cons_1_1 in Hnd. }
  set (s1 := AddSubThread t sub (fr_threads f)) in *.
  assert (M : moved sub Run (set_threads s1 f) (InsertRunable sub (set_threads s1 f))).
  { apply (InsertRunable_moved A); [apply C1|]. simpl. by rewrite Hlow1. }
  assert (Hds : fr_daemon f <> Some sub).
  { eapply daemon_not_sub; [apply C|]. apply Hr. by left. }
  assert (C2 : core A subs (Some t) (InsertRunable sub (set_threads s1 f))).
  { eapply core_moved; eauto; [unfold place_ok; auto 7|left; simpl; rewrite Hlow1, Hsl; done|done]. }
  assert (Hoth2 : forall x, x <> t -> x <> sub ->
    thr (fr_threads (InsertRunable sub (set_threads s1 f))) x = thr (fr_threads f) x).
  { intros x ? ?. simpl. rewrite thr_upd_ne by done. auto. }
  destruct (IH (InsertRunable sub (set_threads s1 f))) as (C' & Hl' & Hd' & Hc' & Hr' & Hs'); auto.
  - by apply NoDup_cons_1_2 in Hnd.
  - intros x Hx. eapply (ready_keep A A f); [apply Hr; by right|apply Hr; by right|].
    apply Hoth2; intros ->; [done|]. by apply NoDup_cons_1_1 in Hnd.
  - rewrite (mv_low _ _ _ _ M), decide_False by done. simpl. by rewrite Hlow1.
  - split_and!; auto.
    + rewrite Hr'. simpl. by rewrite <- app_assoc.
    + rewrite Hs'. simpl. rewrite thr_upd_ne by done. unfold s1. rewrite add_thr, decide_False, decide_True; auto.
      * simpl. by rewrite <- app_assoc.
      * rewrite (HasFlag_sub A _ _ _ _ (co_sub _ _ _ _ C)), Hsp. apply bool_decide_eq_false. tauto.
Qed.

Lemma exec_cleanup_core A n subs f :
  core A subs None f -> NoDup subs -> (forall x, x ∈ subs -> sub_ready A f x) ->
  let f' := exec_cleanup n subs f in
  exists A', core A' [] None f' /\ A' ⊆ A /\ fr_daemon f' = fr_daemon f /\ fr_curr f' = fr_curr f /\
    (forall x, x ∈ A -> x ∉ subs -> low (fr_threads f) x <> Free ->
       x ∈ A' /\ thr (fr_threads f') x = thr (fr_threads f) x).
Proof.
  revert A f. induction subs as [|sub subs IH]; intros A f C Hnd Hr; simpl.
  { exists A. by split_and!. }
  destruct (Hr sub) as (HsA & Hsl & Hsv); [by left|].
  pose proof (daemon_not_sub A f sub (co_daemon _ _ _ _ C) (Hr sub (list_elem_of_here _ _))) as Hds.
  unfold view in Hsv. injection Hsv as Hsty Hsp Hss Hsf.
  destruct (FreeThread_core A subs None n sub f) as (A1 & C1 & R); auto.
  destruct (rc_fixed _ _ _ _ _ R) as (? & Hd1 & Hc1).
  destruct (IH A1 (FreeThread n sub f) C1) as (A' & C' & HA & Hd & Hc & Hk).
  - by apply NoDup_cons_1_2 in Hnd.
  - intros x Hx. assert (Hxs : x <> sub) by (intros ->; by apply NoDup_cons_1_1 in Hnd).
    destruct (Hr x) as (HxA & Hxl & Hxv); [by right|].
    destruct (rc_other _ _ _ _ _ R x HxA Hxs) as [HxA1 Hxt]; [by rewrite Hxl|].
    eapply (ready_keep A A1 f); eauto. apply Hr. by right.
  - exists A'. split_and!; [done|etrans; [done|apply R]|congruence|congruence|].
    intros x HxA [Hxs Hxs']%not_elem_of_cons Hxl.
    destruct (rc_other _ _ _ _ _ R x HxA Hxs Hxl) as [HxA1 Hxt].
    destruct (Hk x HxA1 Hxs') as [? Hxt']; [unfold low; by rewrite Hxt|].
    split; [done|]. by rewrite <- Hxt.
Qed.

(** Once its sub threads are started, the parent may be made to wait. *)
Lemma core_waiting A X t f :
  core A X (Some t) f -> low (fr_threads f) t = Pend -> core A X None f.
Proof.
  intros [W [H1 H2 H3 H4 H5 H6] D] Hl. split; auto. split; auto.
  intros p Hp _. destruct (decide (p = t)) as [-> | Hne]; [done|]. apply H3; congruence.
Qed.

Lemma core_starting A X t f : core A X None f -> core A X (Some t) f.
Proof. intros [W [H1 H2 H3 H4 H5 H6] D]. split; auto. split; auto. Qed.

Lemma mt_exec_all_task_inv A n tasks f t :
  sched_inv A f -> fr_curr f = Some t -> fr_daemon f <> Some t -> fresh A (tasks.*1) ->
  exists r A' f', mt_exec_all_task n tasks f = Some (r, f') /\ sched_inv A' f' /\
    (r <> None -> fr_curr f' = Some t) /\
    (r = None -> exists subs, length subs = length tasks /\ NoDup subs /\ tasks <> [] /\
       runs_next (fr_runlist f ++ subs) f f' /\
       mt_sub_list (thr (fr_threads f') t) = subs /\ low (fr_threads f') t = Pend).
Proof.
  intros [C (t' & Ht' & Hl & HA)] Ht Hd Hfr. rewrite Ht in Ht'. injection Ht' as <-.
  unfold mt_exec_all_task. rewrite Ht. destruct tasks as [|tk tasks].
  { exists (Some 0), A, f. split_and!; auto; [split; eauto|done]. }
  destruct (exec_create_core A [] (tk :: tasks) f C) as
    (ok & l & f1 & A1 & E & C1 & Hr & Hnd & _ & HA1 & Hok & Hk & Hd1 & Hc1 & Hru1); auto.
  { by intros x ?%elem_of_nil. }
  rewrite E. rewrite app_nil_r in C1, Hr. clear E.
  destruct (Hk t HA) as [Htl Htt]; [by rewrite Hl|].
  assert (Hl1 : low (fr_threads f1) t = Loose) by (unfold low; by rewrite Htt).
  destruct ok.
  - destruct (exec_start_core A1 t l f1) as (C2 & Hl2 & Hd2 & Hc2 & Hr2 & Hs2);
      auto; [by apply core_starting|congruence|].
    set (f2 := exec_start t l f1) in *. unfold Wait. rewrite Hc2, Hc1, Ht.
    destruct (InsertPend_moved A1 f2 t) as (f3 & E3 & M); [apply C2|done|]. rewrite E3. simpl.
    assert (Hr3 : fr_runlist f3 = fr_runlist f2).
    { unfold InsertPend in E3. destruct (entry_free t f2); by simplify_eq. }
    assert (C3 : core A1 [] (Some t) f3).
    { eapply core_moved; eauto; [unfold place_ok; auto 7|done|right; congruence]. }
    assert (Hl3 : low (fr_threads f3) t = Pend) by (by rewrite (mv_low _ _ _ _ M), decide_True).
    destruct (ThreadSchdule_spec A1 f3) as (f' & -> & I & Hc' & Hr' & _ & _ & Hoth).
    { by eapply core_waiting. }
    simpl. exists None, A1, f'. split_and!; [done|done|done|]. intros _. exists l.
    destruct (mv_fixed _ _ _ _ M) as (Hd3 & _). pose proof (loose_no_subs _ _ _ _ (co_sub _ _ _ _ C) Hl) as Hnil.
    assert (Hct : fr_curr f' <> Some t).
    { intros Hx. destruct (si_curr _ _ I) as (t' & Ht' & Hlt' & _). rewrite Hx in Ht'. injection Ht' as <-.
      rewrite Hc' in Hx. destruct (fr_runlist f3) as [|y l'] eqn:El; [congruence|]. injection Hx as ->.
      assert (Hrun : low (fr_threads f3) t = Run).
      { apply (fw_run A1); [|rewrite El; by left]. eapply moved_wf; eauto; [apply C2|unfold place_ok; auto 7]. }
      by rewrite Hl3 in Hrun. }
    split_and!; auto.
    + split; [rewrite Hc', Hr3, Hr2, Hd3, Hd2, Hd1, Hru1; done|congruence].
    + rewrite Hoth by done. pose proof (mv_view _ _ _ _ M t) as Hv. unfold view in Hv.
      assert (Hs3 : mt_sub_list (thr (fr_threads f3) t) = mt_sub_list (thr (fr_threads f2) t)) by congruence.
      by rewrite Hs3, Hs2, Htt, Hnil.
    + unfold low. by rewrite Hoth.
  - destruct (exec_cleanup_core A1 n l f1) as (A2 & C2 & HA2 & Hd2 & Hc2 & Hk2); auto.
    destruct (Hk2 t) as [HtA Htt2]; auto; [by rewrite Hl1|].
    eexists _, A2, _. split; [reflexivity|]. split_and!; [split; [done|]|congruence|done].
    exists t. split_and!; [congruence| |done]. unfold low. by rewrite Htt2.
Qed.
End steps.
