(* ===== verification/SchedMain.v ===== *)
(** * Correctness of the scheduler

    The calls a program makes to the scheduler between two context switches as a
    transition system, and the main theorems: [InitFrame] establishes the
    invariant; every call made in the invariant is free of undefined behaviour and
    keeps it, so it holds in every reachable state; which threads a call, a
    timeout, an event or the end of a thread makes runnable. *)

From Stdlib Require Import ZArith Lia.
From stdpp Require Import base gmap list option.
From S2P Require Import Prelude Heap HeapTimer Epoll Thread Sched SchedInv SchedProps SchedPool SchedSteps.

(** What the active thread (or the daemon) does next. *)
Inductive sched_call :=
  | CallSleep (sysms ms : Z)
  | CallWaitNotify (sysms timeout : Z)
  | CallEpollSchedule (fdlist : option (list ptr)) (fd : option ptr) (sysms timeout : Z)
  | CallEpollReturn
  | CallCreate (new : option ptr) (entry args : Z)
  | CallExecAll (tasks : list (option ptr * Z))
  | CallReturn
  | CallDaemonRound (evts : list (Z * Z)) (clock now : Z) (timers : list timer_call).

Section main.
Context {K : Type} (epoll_ctl : K -> epoll_op -> Z -> Z -> K * Z * Z) (default_thread_num : Z).
Implicit Types (f : MtFrame K) (t x p d sub : ptr) (A : gset ptr).

Definition exec_call (c : sched_call) (f : MtFrame K) : option (MtFrame K) :=
  match c with
  | CallSleep sysms ms => sleep sysms ms f
  | CallWaitNotify sysms timeout => WaitNotify sysms timeout f
  | CallEpollSchedule fdlist fd sysms timeout =>
      '(_, f) ← EpollSchedule_begin epoll_ctl fdlist fd sysms timeout f; Some f
  | CallEpollReturn => t ← fr_curr f; Some (EpollSchedule_end epoll_ctl t f).2
  | CallCreate new entry args => Some (CreateThread new entry args true f).2
  | CallExecAll tasks => '(_, f) ← mt_exec_all_task default_thread_num tasks f; Some f
  | CallReturn => RunEnd default_thread_num f
  | CallDaemonRound evts clock now timers => DaemonRound epoll_ctl evts clock now timers f
  end.

(** The daemon only runs its loop, the other threads do not; [new] returns
    addresses that are not in use. *)
Definition call_ok f (c : sched_call) : Prop :=
  match c with
  | CallDaemonRound _ _ _ _ => fr_curr f = fr_daemon f
  | CallCreate new _ _ => fresh (dom (fr_threads f)) [new]
  | CallExecAll tasks => fr_curr f <> fr_daemon f /\ fresh (dom (fr_threads f)) (tasks.*1)
  | _ => fr_curr f <> fr_daemon f
  end.

Inductive sched_step : MtFrame K -> MtFrame K -> Prop :=
  | step_call f c f' : call_ok f c -> exec_call c f = Some f' -> sched_step f f'.

(** ** The calls keep the invariant *)

Lemma block_inv A t b f1 f2 :
  core A [] None f1 -> moved t b f1 f2 -> place_ok b -> b <> Free -> t ∈ A ->
  low (fr_threads f1) t = Loose -> fr_daemon f1 <> Some t ->
  exists f', ThreadSchdule f2 = Some f' /\ sched_inv A f'.
Proof.
  intros C M Hb Hnf HA Hl Hd. apply sched_of_core.
  eapply core_moved; eauto; [left; by rewrite Hl|done].
Qed.

Lemma core_epoll A X Y e f : core A X Y f -> core A X Y (set_epoll e f).
Proof. by apply core_other. Qed.

Lemma inv_active A f : sched_inv A f -> fr_curr f <> fr_daemon f ->
  exists t, fr_curr f = Some t /\ fr_daemon f <> Some t /\ low (fr_threads f) t = Loose /\ t ∈ A /\
    core A [] None f.
Proof.
  intros [C (t & Ht & Hl & HA)] Hd. exists t. split_and!; auto. intros E. apply Hd. congruence.
Qed.

Lemma sleep_inv A sysms ms f :
  sched_inv A f -> fr_curr f <> fr_daemon f ->
  exists f', sleep sysms ms f = Some f' /\ sched_inv A f'.
Proof.
  intros I Hd. destruct (inv_active A f I Hd) as (t & Ht & Hdt & Hl & HA & C).
  unfold sleep. rewrite Ht.
  destruct (core_tweak A [] None t (SetWakeupTime (u64 (GetLastClock sysms f + ms))) f C Hl) as [C1 Hlow1]; try done.
  destruct (InsertSleep_moved A _ t (co_wf _ _ _ _ C1) HA) as (f2 & -> & M); [by rewrite Hlow1|]. simpl.
  eapply block_inv; eauto; [unfold place_ok; auto 7|by rewrite Hlow1].
Qed.

Lemma WaitNotify_inv A sysms timeout f :
  sched_inv A f -> fr_curr f <> fr_daemon f ->
  exists f', WaitNotify sysms timeout f = Some f' /\ sched_inv A f'.
Proof.
  intros I Hd. destruct (inv_active A f I Hd) as (t & Ht & Hdt & Hl & HA & C).
  unfold WaitNotify. rewrite Ht. simpl.
  destruct (core_tweak A [] None t (SetWakeupTime (u64 (timeout + GetLastClock sysms f))) f C Hl) as [C1 Hlow1]; try done.
  destruct (InsertIoWait_moved A _ t (co_wf _ _ _ _ C1) HA) as (f2 & -> & M); [by rewrite Hlow1|]. simpl.
  eapply block_inv; eauto; [unfold place_ok; auto 7|by rewrite Hlow1].
Qed.

(** The record changes [EpollSchedule] makes before it waits. *)
Lemma fdset_core A t fdlist fd w f :
  core A [] None f -> low (fr_threads f) t = Loose ->
  let f := on_thread t ClearAllFd f in
  let f := match fdlist with Some l => on_thread t (AddFdList l) f | None => f end in
  let f := match fd with Some o => on_thread t (AddFd o) f | None => f end in
  let f := on_thread t (SetWakeupTime (w f)) f in
  core A [] None f /\ low (fr_threads f) t = Loose.
Proof.
  intros C Hl.
  assert (Htw : forall g f0, core A [] None f0 -> low (fr_threads f0) t = Loose ->
    (forall m, mt_index (g m) = mt_index m) -> (forall m, mt_flag (g m) = mt_flag m) ->
    (forall m, view (g m) = view m) -> core A [] None (on_thread t g f0) /\
    low (fr_threads (on_thread t g f0)) t = Loose).
  { intros g f0 C0 Hl0 H1 H2 H3. destruct (core_tweak A [] None t g f0) as [? Hlow]; auto.
    split; [done|]. by rewrite Hlow. }
  destruct (Htw ClearAllFd f C Hl) as [C1 Hl1]; try done.
  cbv zeta. destruct fdlist as [l|], fd as [o|].
  - destruct (Htw (AddFdList l) _ C1 Hl1) as [C2 Hl2]; try done.
    destruct (Htw (AddFd o) _ C2 Hl2) as [C3 Hl3]; try done. by apply Htw.
  - destruct (Htw (AddFdList l) _ C1 Hl1) as [C2 Hl2]; try done. by apply Htw.
  - destruct (Htw (AddFd o) _ C1 Hl1) as [C2 Hl2]; try done. by apply Htw.
  - by apply Htw.
Qed.

Lemma EpollSchedule_begin_inv A fdlist fd sysms timeout f :
  sched_inv A f -> fr_curr f <> fr_daemon f ->
  exists b f', EpollSchedule_begin epoll_ctl fdlist fd sysms timeout f = Some (b, f') /\ sched_inv A f'.
Proof.
  intros I Hd. destruct (inv_active A f I Hd) as (t & Ht & Hdt & Hl & HA & C).
  unfold EpollSchedule_begin. rewrite Ht.
  destruct (fdset_core A t fdlist fd (fun f => u64 (timeout + GetLastClock sysms f)) f C Hl) as [C1 Hl1].
  cbv zeta in C1, Hl1. cbv zeta.
  match type of C1 with core _ _ _ ?g => set (f1 := g) in * end.
  assert (Hfx : fr_daemon f1 = fr_daemon f /\ fr_curr f1 = fr_curr f) by (by destruct fdlist, fd).
  destruct Hfx as [Hd1 Hc1]. clearbody f1.
  destruct (EpollAdd epoll_ctl (mt_fdset (thr (fr_threads f1) t)) (fr_epoll f1)) as [ok e].
  apply (core_epoll _ _ _ e) in C1. destruct ok.
  - destruct (InsertIoWait_moved A (set_epoll e f1) t (co_wf _ _ _ _ C1) HA Hl1) as (f2 & -> & M). simpl.
    destruct (block_inv A t IoWait (set_epoll e f1) f2) as (f' & -> & I'); auto;
      [unfold place_ok; auto 7|simpl; congruence|].
    simpl. eauto.
  - exists false, (set_epoll e f1). split; [done|]. split; [done|]. exists t. simpl.
    split_and!; auto. congruence.
Qed.

Lemma CreateThread_inv A new entry args f :
  sched_inv A f -> fresh A [new] ->
  exists A', sched_inv A' (CreateThread new entry args true f).2 /\
    fr_curr (CreateThread new entry args true f).2 = fr_curr f.
Proof.
  intros [C (t & Ht & Hl & HA)] Hfr. apply fresh_cons in Hfr as [Hn _]. unfold CreateThread.
  destruct (AllocThread_core A [] None new f C Hn) as [[-> _]|(u & A' & f1 & -> & Hal & _ & C1)].
  { exists A. split; [|done]. split; eauto. }
  pose proof (al_low _ _ _ _ _ Hal) as Hlu.
  destruct (core_tweak A' [] None u (SetSartFunc (Some entry) args) f1 C1 Hlu) as [C2 Hlow2]; try done.
  set (f2 := on_thread u (SetSartFunc (Some entry) args) f1) in *.
  assert (Hlu2 : low (fr_threads f2) u = Loose) by (by rewrite Hlow2).
  pose proof (InsertRunable_moved A' f2 u (co_wf _ _ _ _ C2) Hlu2) as M.
  assert (Hut : t <> u) by (eapply allocated_ne; eauto; by rewrite Hl).
  destruct (al_live _ _ _ _ _ Hal) as (HuA & HAA & _).
  destruct (al_fixed _ _ _ _ _ Hal) as (_ & Hd1 & Hc1 & _).
  assert (Hlt : low (fr_threads f2) t = Loose).
  { rewrite Hlow2. unfold low. rewrite (al_other _ _ _ _ _ Hal) by done. done. }
  assert (Hdu : fr_daemon f2 <> Some u).
  { intros E. destruct (co_daemon _ _ _ _ C1) as (d & Hd & _ & _ & Hv).
    change (fr_daemon f1 = Some u) in E. rewrite Hd in E. injection E as ->.
    rewrite (al_view _ _ _ _ _ Hal) in Hv. done. }
  exists A'. simpl. split; [split|done].
  - eapply core_moved; eauto; [unfold place_ok; auto 7|left; by rewrite Hlu2|done].
  - exists t. split_and!; [by rewrite <- Ht, <- Hc1| |by apply HAA].
    rewrite (mv_low _ _ _ _ M), decide_False by done. done.
Qed.

Lemma EpollRcvEvent_core A X Y osfd revents f :
  core A X Y f ->
  exists f', EpollRcvEvent epoll_ctl osfd revents f = Some f' /\ core A X Y f' /\
    fr_curr f' = fr_curr f /\ fr_daemon f' = fr_daemon f.
Proof.
  intros C. unfold EpollRcvEvent. destruct (FdRefGet (fr_epoll f) osfd) as [item|]; [|by exists f].
  destruct (GetNotifyObj item) as [obj|].
  2: { eexists. split; [reflexivity|]. split_and!; [by apply core_epoll|done|done]. }
  set (f1 := set_epoll _ f). assert (C1 : core A X Y f1) by (by apply core_epoll).
  destruct (has revents (Z.lor EPOLLERR EPOLLHUP)).
  { eexists. split; [reflexivity|]. split_and!; [|done|done]. by apply (core_epoll A X Y _ f1). }
  assert (Hstep : forall b f0, core A X Y f0 -> exists rc f', (if b : bool then IoNotify obj f0 else Some (0, f0)) = Some (rc, f') /\
     core A X Y f' /\ fr_curr f' = fr_curr f0 /\ fr_daemon f' = fr_daemon f0).
  { intros [] f0 C0; [|by exists 0, f0].
    destruct (IoNotify_spec A X Y f0 obj C0) as (rc & f' & ? & ? & ? & ? & _). exists rc, f'. auto. }
  destruct (Hstep (has revents EPOLLIN) f1 C1) as (rc & f2 & -> & C2 & Hc2 & Hd2). simpl.
  destruct (negb (rc =? 0)); [by exists f2|].
  destruct (Hstep (has revents EPOLLOUT) f2 C2) as (rc' & f3 & -> & C3 & Hc3 & Hd3). simpl.
  exists f3. split_and!; auto; [by rewrite Hc3|by rewrite Hd3].
Qed.

Lemma EpollRcvEventList_core A X Y evts f :
  core A X Y f ->
  exists f', EpollRcvEventList epoll_ctl evts f = Some f' /\ core A X Y f' /\
    fr_curr f' = fr_curr f /\ fr_daemon f' = fr_daemon f.
Proof.
  revert f. induction evts as [|[osfd rev] evts IH]; intros f C; [by exists f|]. simpl.
  destruct (EpollRcvEvent_core A X Y osfd rev f C) as (f1 & -> & C1 & Hc1 & Hd1). simpl.
  destruct (IH f1 C1) as (f' & -> & C' & Hc' & Hd'). exists f'. split_and!; auto; congruence.
Qed.

Lemma CheckExpired_core A timers f :
  core A [] None f -> exists f', CheckExpired epoll_ctl timers f = Some f' /\ core A [] None f'.
Proof.
  revert f. induction timers as [|c timers IH]; intros f C; [by exists f|]. simpl.
  assert (Hstep : exists f1, timer_effect epoll_ctl c f = Some f1 /\ core A [] None f1).
  { destruct c as [t|obj]; cbn [timer_effect]; [|eexists; split; [done|by apply core_epoll]].
    destruct (HasFlag IO_LIST _) eqn:Hf; [|by exists f]. pose proof (co_wf _ _ _ _ C) as W. apply (HasFlag_io A) in Hf; [|done].
    destruct (wake_io_moved A f t W Hf) as (f1 & -> & M & _). simpl. eexists. split; [done|].
    eapply core_wake; eauto. rewrite Hf. by right. }
  destruct Hstep as (f1 & -> & C1). by apply IH.
Qed.

Lemma DaemonRound_inv A evts clock now timers f :
  core A [] None f -> exists f', DaemonRound epoll_ctl evts clock now timers f = Some f' /\ sched_inv A f'.
Proof.
  intros C. unfold DaemonRound.
  destruct (EpollRcvEventList_core A [] None evts f C) as (f1 & -> & C1 & _). cbn [mbind option_bind].
  assert (C2 : core A [] None (SetLastClock clock f1)) by (by apply (core_other A [] None f1)).
  unfold WakeupTimeout.
  destruct (WakeupTimeout_loop_spec A [] None (S (Z.to_nat (h_count (fr_sleeplist (SetLastClock clock f1)))))
    (GetLastClock now (SetLastClock clock f1)) _ C2) as (f3 & -> & C3 & _); [lia|]. cbn [mbind option_bind].
  destruct (CheckExpired_core A timers f3 C3) as (f4 & -> & C4). cbn [mbind option_bind].
  by apply sched_of_core.
Qed.

Lemma fresh_sub A B news : A ⊆ B -> fresh B news -> fresh A news.
Proof. intros HA [Hnd Hf]. split; [done|]. intros n Hn HnA. by apply (Hf n Hn), HA. Qed.

(** All calls together. *)
Lemma exec_call_inv A c f :
  sched_inv A f -> call_ok f c -> exists A' f', exec_call c f = Some f' /\ sched_inv A' f'.
Proof.
  intros I Hok. pose proof (fw_dom _ _ (co_wf _ _ _ _ (si_core _ _ I))) as Hdom.
  destruct c as [sysms ms|sysms timeout|fdlist fd sysms timeout| |new entry args|tasks| |evts clock now timers];
    simpl in *.
  - exists A. by apply sleep_inv.
  - exists A. by apply WaitNotify_inv.
  - destruct (EpollSchedule_begin_inv A fdlist fd sysms timeout f I Hok) as (b & f' & -> & I'). simpl. eauto.
  - destruct I as [C (t & Ht & Hl & HA)]. rewrite Ht. simpl. exists A. eexists. split; [reflexivity|].
    split; [by apply core_epoll|]. exists t. auto.
  - destruct (CreateThread_inv A new entry args f I (fresh_sub _ _ _ Hdom Hok)) as (A' & I' & _). eauto.
  - destruct Hok as [Hd Hfr]. destruct (inv_active A f I Hd) as (t & Ht & Hdt & _).
    destruct (mt_exec_all_task_inv A default_thread_num tasks f t I Ht Hdt (fresh_sub _ _ _ Hdom Hfr))
      as (r & A' & f' & -> & I' & _). simpl. eauto.
  - destruct (inv_active A f I Hok) as (t & Ht & Hdt & _).
    destruct (RunEnd_inv A default_thread_num f t I Ht Hdt) as (A' & f' & ? & ? & _); eauto.
  - exists A. apply DaemonRound_inv, I.
Qed.

(** ** Initialisation *)

(** The frame with an empty heap [h] (of any size). *)
Definition start_frame (h : HeapList) (e : EpollState K) : MtFrame K :=
  mkMtFrame ∅ [] [] [] h None None None 0 0 true (mkThreadPool [] 0 0 0) e.

Lemma InitialPool_loop_spec news f :
  NoDup (omap id news) ->
  let f' := InitialPool_loop news f in
  (forall x, thr (fr_threads f') x =
     if decide (x ∈ omap id news) then SetFlag FREE_LIST (new_MicroThread NORMAL) else thr (fr_threads f) x) /\
  dom (fr_threads f') = dom (fr_threads f) ∪ list_to_set (omap id news) /\
  f' = set_pool (mkThreadPool (tp_freelist (fr_pool f) ++ omap id news) (tp_total_num (fr_pool f))
                   (tp_use_num (fr_pool f)) (tp_max_num (fr_pool f))) (set_threads (fr_threads f') f).
Proof.
  revert f. induction news as [|[t|] news IH]; intros f Hnd; simpl in *.
  - split_and!; [done|by rewrite union_empty_r_L|]. rewrite app_nil_r. by destruct f as [??????????? [] ?].
  - set (f1 := set_pool _ _). destruct (IH f1) as (H1 & H2 & H3); [by apply NoDup_cons_1_2 in Hnd|].
    split_and!.
    + intros x. rewrite H1. apply NoDup_cons_1_1 in Hnd. unfold f1; simpl. rewrite thr_upd.
      destruct (decide (t = x)) as [-> | Hne].
      * rewrite decide_False by done. rewrite decide_True by (by left). unfold thr; simpl. by rewrite lookup_insert_eq.
      * unfold thr at 1; simpl. rewrite lookup_insert_ne by done. fold (thr (fr_threads f) x).
        destruct (decide (x ∈ omap id news)).
        -- by rewrite decide_True by (by right).
        -- rewrite decide_False; [done|]. by intros [?|?]%elem_of_cons.
    + rewrite H2. unfold f1; simpl. unfold upd. rewrite !dom_insert_L. clear. set_solver.
    + etrans; [exact H3|]. generalize (fr_threads (InitialPool_loop news f1)). intros s. unfold f1; simpl.
      by rewrite <- app_assoc.
  - apply IH. done.
Qed.

(** The pool after [InitialPool]: all its threads are free, and the enlarged heap
    has room for them. *)
Lemma init_pool_wf news max h h0 e :
  fresh ∅ news -> h_count h = 0 -> (forall s : gmap ptr MicroThread, (forall x, GetIndex s x = 0) -> heap_wf h s) ->
  Z.of_nat (length (omap id news)) + 1 <= h_max h -> max + 1 <= h_max h ->
  let f := (InitialPool news max (start_frame h0 e)).2 in
  frame_wf (list_to_set (omap id news)) (set_sleep h (fr_threads f) f) /\
  (forall x, view (thr (fr_threads f) x) = plain_view) /\
  Z.of_nat (size (list_to_set (omap id news) : gset ptr)) = tp_total_num (fr_pool f) /\
  tp_freelist (fr_pool f) = omap id news.
Proof.
  intros [Hnd _] Hc Hwf Hroom Hmax. unfold InitialPool.
  destruct (InitialPool_loop_spec news (start_frame h0 e) Hnd) as (Ht & Hdom & E).
  set (fl := InitialPool_loop news (start_frame h0 e)) in *. simpl in Hdom.
  assert (Hfl : tp_freelist (fr_pool fl) = omap id news) by (by rewrite E).
  assert (Hlow : forall x, low (fr_threads fl) x = if decide (x ∈ omap id news) then Free else Loose).
  { intros x. unfold low. rewrite Ht. by case_decide. }
  assert (Hix : forall x, mt_index (thr (fr_threads fl) x) = 0).
  { intros x. rewrite Ht. by case_decide. }
  assert (Hnone : forall x c, c <> Free -> c <> Loose -> (x ∈ ([] : list ptr)) <-> low (fr_threads fl) x = c).
  { intros x c ? ?. rewrite Hlow, elem_of_nil. case_decide; (split; [done|intros; subst; done]). }
  simpl. rewrite Hfl. split_and!; [split|..]; simpl.
  - by apply Hwf.
  - intros x. rewrite Hlow. unfold place_ok. case_decide; auto.
  - intros x. rewrite E. simpl. by apply Hnone.
  - intros x. rewrite E. simpl. by apply Hnone.
  - intros x. rewrite E. simpl. by apply Hnone.
  - intros x. rewrite Hlow. by case_decide.
  - intros x. unfold in_heap; simpl. rewrite Hix, Hlow. split; [done|]. case_decide; by intros [|].
  - intros x. rewrite Hlow. case_decide; [apply state_ok_free|apply state_ok_loose].
  - rewrite E. simpl. split_and!; auto using NoDup_nil_2.
  - by rewrite E.
  - intros x. rewrite Hlow. case_decide; [|done]. intros _. by apply elem_of_list_to_set.
  - rewrite size_list_to_set by done. lia.
  - lia.
  - rewrite Hdom. set_solver.
  - intros x. rewrite Ht. by case_decide.
  - by rewrite size_list_to_set.
  - done.
Qed.

(** A frame whose threads have neither parents nor sub threads. *)
Lemma sub_inv_flat A X f :
  (forall x, mt_parent (thr (fr_threads f) x) = None /\ mt_sub_list (thr (fr_threads f) x) = [] /\
     Z.land (mt_flag (thr (fr_threads f) x)) SUB_LIST = 0 /\ mt_type (thr (fr_threads f) x) <> SUB_THREAD) ->
  (forall x, low (fr_threads f) x = Free \/ x ∉ A -> mt_type (thr (fr_threads f) x) = NORMAL) ->
  sub_inv A X None f.
Proof.
  intros Hf Hn. split.
  - intros x q. destruct (Hf x) as (-> & _), (Hf q) as (_ & -> & _). rewrite elem_of_nil. by split.
  - intros q. destruct (Hf q) as (_ & -> & _). apply NoDup_nil_2.
  - intros q. by destruct (Hf q) as (_ & -> & _).
  - intros x. destruct (Hf x) as (-> & _ & -> & _). by split.
  - intros x _. destruct (Hf x) as (-> & _ & _ & ?). by split.
  - intros x Hx. destruct (Hf x) as (E1 & E2 & E3 & _). unfold view. by rewrite E1, E2, E3, Hn.
Qed.

(** The last part of [InitFrame]: the daemon [d] and the primordial thread [p]. *)
Definition init_threads (d p : ptr) (s : gmap ptr MicroThread) : gmap ptr MicroThread :=
  upd p (SetState RUNNING) (<[p := new_MicroThread PRIMORDIAL]>
    (upd d (fun m => SetSartFunc (Some 0) 0 (SetState RUNABLE (SetType DAEMON m))) s)).

Lemma init_threads_thr d p s x : d <> p -> thr (init_threads d p s) x =
  if decide (x = p) then SetState RUNNING (new_MicroThread PRIMORDIAL)
  else if decide (x = d) then SetSartFunc (Some 0) 0 (SetState RUNABLE (SetType DAEMON (thr s d)))
  else thr s x.
Proof.
  intros Hne. unfold init_threads. rewrite thr_upd. destruct (decide (p = x)) as [-> | Hp].
  - rewrite decide_True by done. unfold thr. by rewrite lookup_insert_eq.
  - rewrite decide_False by done. unfold thr at 1. rewrite lookup_insert_ne by done.
    change (default (new_MicroThread NORMAL) ?o) with (default (new_MicroThread NORMAL) o).
    fold (thr (upd d (fun m => SetSartFunc (Some 0) 0 (SetState RUNABLE (SetType DAEMON m))) s) x).
    rewrite thr_upd. repeat case_decide; by subst.
Qed.

Lemma init_threads_inv A f d p f' :
  frame_wf A f -> (forall x, view (thr (fr_threads f) x) = plain_view) ->
  low (fr_threads f) d = Loose -> d ∈ A -> p ∉ A ->
  Z.of_nat (size A) <= tp_total_num (fr_pool f) ->
  f' = mkMtFrame (init_threads d p (fr_threads f)) (fr_runlist f) (fr_iolist f) (fr_pend_list f)
         (fr_sleeplist f) (Some d) (Some p) (Some p) (fr_last_clock f') (fr_waitnum f)
         (fr_realtime f) (fr_pool f) (fr_epoll f) ->
  sched_inv ({[p]} ∪ A) f'.
Proof.
  intros W Hv Hl HdA HpA Hsz E. assert (Hne : d <> p) by (by intros ->).
  pose proof (fun x => init_threads_thr d p (fr_threads f) x Hne) as Ht.
  assert (Hp : low (fr_threads f) p = Loose) by (by eapply low_dead).
  assert (Hlow : forall x, low (init_threads d p (fr_threads f)) x = low (fr_threads f) x).
  { intros x. unfold low at 1. rewrite Ht. repeat case_decide; subst; [by rewrite Hp|done..]. }
  assert (W' : frame_wf ({[p]} ∪ A) (set_pool (fr_pool f) (set_threads (init_threads d p (fr_threads f)) f))).
  { apply (wf_store A); auto.
    - intros x. simpl. rewrite Ht. repeat case_decide; subst; [|done..].
      symmetry. apply (index_loose A); auto.
    - intros x Hx. rewrite Ht, !decide_False; [done|..]; intros ->; congruence.
    - set_solver.
    - unfold init_threads, upd. rewrite !dom_insert. pose proof (fw_dom _ _ W). clear -H. set_solver.
    - lia.
    - rewrite size_union by (clear -HpA; set_solver). rewrite size_singleton. lia. }
  rewrite E. split; [split|].
  - destruct W'. by split.
  - apply sub_inv_flat; simpl.
    + intros x. specialize (Hv x). unfold view, plain_view in Hv. injection Hv as Hv1 Hv2 Hv3 Hv4.
      rewrite Ht. repeat case_decide; subst; simpl; split_and!; auto; congruence.
    + intros x. rewrite Hlow. intros Hx. rewrite Ht. specialize (Hv x). unfold view, plain_view in Hv.
      repeat case_decide; subst; [..|congruence].
      * exfalso. destruct Hx as [Hx|Hx]; [by rewrite Hp in Hx|]. set_solver.
      * exfalso. destruct Hx as [Hx|Hx]; [by rewrite Hl in Hx|]. set_solver.
  - exists d. simpl. rewrite Hlow, Ht, decide_False, decide_True by done. split_and!; auto; [set_solver|].
    specialize (Hv d). unfold view, plain_view in *. simpl. congruence.
  - exists p. simpl. rewrite Hlow. split_and!; auto. set_solver.
Qed.

Lemma InitFrame_inv news max heap_ok dnew p sysms h0 e :
  fresh ∅ (news ++ [Some p]) -> h_count h0 = 0 ->
  (forall s : gmap ptr MicroThread, (forall x, GetIndex s x = 0) -> heap_wf h0 s) ->
  let cap := Z.max (h_max h0) (max * 2) in
  Z.of_nat (length (omap id news)) + 1 <= cap -> max + 1 <= cap ->
  match InitFrame news max heap_ok dnew (Some p) sysms (start_frame h0 e) with
  | Some f => (exists A, sched_inv A f) /\ fr_sleeplist f = (HeapResize h0 (max * 2) heap_ok).2 /\
              fr_curr f = Some p /\ fr_daemon f <> Some p
  | None => omap id news = [] \/ (heap_ok = false /\ h_max h0 < max * 2)
  end.
Proof.
  intros Hfr Hc Hwf cap Hroom Hmax. unfold InitFrame.
  assert (Hfn : fresh ∅ news).
  { destruct Hfr as [Hnd _]. rewrite omap_app in Hnd. apply list.NoDup_app in Hnd as (? & _ & _).
    split; [done|]. intros n _. apply not_elem_of_empty. }
  assert (Hp : p ∉ (list_to_set (omap id news) : gset ptr)).
  { destruct Hfr as [Hnd _]. rewrite omap_app in Hnd. apply list.NoDup_app in Hnd as (_ & Hd & _).
    intros Hin%elem_of_list_to_set%Hd. apply Hin. by left. }
  pose proof (fun s Hs => HeapResize_spec h0 s (max * 2) heap_ok (Hwf s Hs)) as HR.
  assert (Hempty : forall x, GetIndex (∅ : gmap ptr MicroThread) x = 0) by done.
  destruct (HR ∅ Hempty) as (_ & _ & Hc1 & Hm1 & _).
  assert (Hrc : (HeapResize h0 (max * 2) heap_ok).1 < 0 \/ (HeapResize h0 (max * 2) heap_ok).1 = 0)
    by (unfold HeapResize; destruct (_ <=? _), heap_ok; simpl; lia).
  assert (Hneg : (HeapResize h0 (max * 2) heap_ok).1 < 0 -> heap_ok = false /\ h_max h0 < max * 2).
  { unfold HeapResize. destruct (Z.leb_spec (max * 2) (h_max h0)); simpl; [lia|].
    destruct heap_ok; simpl; [lia|done]. }
  assert (Hhw : forall s : gmap ptr MicroThread, (forall x, GetIndex s x = 0) ->
     heap_wf (HeapResize h0 (max * 2) heap_ok).2 s) by (intros s Hs; apply (HR s Hs)).
  destruct (HeapResize h0 (max * 2) heap_ok) as [rc h] eqn:ER. simpl in Hc1, Hm1, Hrc, Hneg, Hhw.
  destruct (InitialPool news max (start_frame h0 e)) as [ok f1] eqn:EI.
  assert (Hok : ok = negb (Z.of_nat (length (omap id news)) <=? 0) /\ fr_sleeplist f1 = h0 /\
    fr_iolist f1 = [] /\ fr_pend_list f1 = []).
  { unfold InitialPool in EI. injection EI as <- <-.
    destruct (InitialPool_loop_spec news (start_frame h0 e) (proj1 Hfn)) as (_ & _ & ->). done. }
  destruct Hok as (-> & Hs1 & Hio & Hpe).
  destruct (Z.leb_spec (Z.of_nat (length (omap id news))) 0) as [Hle|Hgt]; simpl.
  { left. destruct (omap id news); [done|simpl in Hle; lia]. }
  rewrite Hs1, ER. destruct (Z.ltb_spec rc 0) as [Hr|Hr]; [right; auto|].
  assert (rc = 0) as -> by lia. specialize (Hm1 eq_refl).
  destruct (init_pool_wf news max h h0 e Hfn) as (W2 & Hv2 & Hsz & Hfl); [lia|done|lia|lia|].
  rewrite EI in W2, Hv2, Hsz, Hfl. simpl in W2, Hv2, Hsz, Hfl.
  set (f2 := set_sleep h (fr_threads f1) f1) in *.
  unfold AllocThread. change (tp_freelist (fr_pool f2)) with (tp_freelist (fr_pool f1)).
  destruct (tp_freelist (fr_pool f1)) as [|d l] eqn:El; [rewrite <- Hfl in Hgt; simpl in Hgt; lia|].
  pose proof (pop_free_moved _ f2 d l (tp_use_num (fr_pool f2) + 1) W2 El) as M.
  set (f3 := set_pool _ _) in M. 
  assert (HdA : d ∈ (list_to_set (omap id news) : gset ptr)) by (apply elem_of_list_to_set; rewrite <- Hfl; by left).
  cbn [mbind option_bind].
  assert (Hne : d <> p) by (by intros ->).
  split; [|split_and!; simpl; try done; congruence].
  exists ({[p]} ∪ list_to_set (omap id news)).
  apply (init_threads_inv _ f3 d p).
  - eapply moved_wf; eauto. by left.
  - intros x. by rewrite (mv_view _ _ _ _ M).
  - by rewrite (mv_low _ _ _ _ M), decide_True.
  - done.
  - done.
  - simpl. lia.
  - simpl. by rewrite Hio, Hpe.
Qed.

(** ** Timeouts wake exactly the expired threads *)

Lemma ordered_ext h (s s' : gmap ptr MicroThread) :
  (forall x, HeapValue s' x = HeapValue s x) -> heap_ordered h s -> heap_ordered h s'.
Proof.
  intros E Ho i Hi. specialize (Ho i Hi). unfold val in *.
  destruct (aget (h_list h) (i / 2)), (aget (h_list h) i); rewrite ?E; done.
Qed.

Lemma RemoveSleep_top_ordered f t f' :
  heap_wf (fr_sleeplist f) (fr_threads f) -> HeapTop (fr_sleeplist f) = Some t ->
  heap_ordered (fr_sleeplist f) (fr_threads f) -> RemoveSleep t f = Some f' ->
  heap_ordered (fr_sleeplist f') (fr_threads f').
Proof.
  intros Hwf Ht Ho E. unfold RemoveSleep in E.
  set (s1 := upd t (UnsetFlag SLEEP_LIST) (fr_threads f)) in *.
  assert (Hwf1 : heap_wf (fr_sleeplist f) s1).
  { eapply heap_wf_ext; [|exact Hwf]. intros x. by apply GetIndex_upd. }
  assert (Ho1 : heap_ordered (fr_sleeplist f) s1).
  { eapply ordered_ext; [|exact Ho]. intros x. by apply (field_upd mt_wakeup_time). }
  destruct (HeapTop_hole_ok _ s1 t Hwf1 Ht) as [Hh _].
  destruct (HeapDelete_spec (fr_sleeplist f) s1 t Hwf1) as (rc & h' & s' & E1 & _ & _ & _ & Hord & _).
  rewrite E1 in E. simpl in E. injection E as <-. simpl. auto.
Qed.

Lemma wake_top_ordered f t f1 :
  heap_wf (fr_sleeplist f) (fr_threads f) -> HeapTop (fr_sleeplist f) = Some t ->
  heap_ordered (fr_sleeplist f) (fr_threads f) ->
  (if HasFlag IO_LIST (thr (fr_threads f) t) then RemoveIoWait t f else RemoveSleep t f) = Some f1 ->
  heap_ordered (fr_sleeplist (InsertRunable t f1)) (fr_threads (InsertRunable t f1)).
Proof.
  intros Hwf Ht Ho E. simpl. eapply ordered_ext; [intros x; by apply (field_upd mt_wakeup_time)|].
  destruct (HasFlag IO_LIST (thr (fr_threads f) t)); [|by eapply RemoveSleep_top_ordered].
  unfold RemoveIoWait in E. destruct (tailq_remove _ _) as [l|]; [|done]. cbn [mbind option_bind] in E.
  eapply RemoveSleep_top_ordered; [..|exact E]; simpl; auto.
  - eapply heap_wf_ext; [|exact Hwf]. intros x. by apply GetIndex_upd.
  - eapply ordered_ext; [|exact Ho]. intros x. by apply (field_upd mt_wakeup_time).
Qed.

Lemma WakeupTimeout_loop_done A X Y fuel now f f' :
  core A X Y f -> heap_ordered (fr_sleeplist f) (fr_threads f) ->
  WakeupTimeout_loop fuel now f = Some f' ->
  heap_ordered (fr_sleeplist f') (fr_threads f') /\
  forall x, in_heap (fr_threads f') x -> now < mt_wakeup_time (thr (fr_threads f') x).
Proof.
  revert f. induction fuel as [|fuel IH]; intros f C Ho E; [done|]. simpl in E.
  pose proof (fw_heap _ _ (co_wf _ _ _ _ C)) as Hwf.
  pose proof (HeapTop_spec (fr_sleeplist f) (fr_threads f) Hwf Ho) as Htop.
  destruct (HeapTop (fr_sleeplist f)) as [t|] eqn:Et.
  2: { injection E as <-. split; [done|]. intros x Hx. by apply Htop in Hx. }
  destruct Htop as [Hin Hmin].
  destruct (Z.leb_spec (mt_wakeup_time (thr (fr_threads f) t)) now) as [Hle|Hgt].
  2: { injection E as <-. split; [done|]. intros x Hx. specialize (Hmin x Hx). simpl in Hmin. lia. }
  destruct (if HasFlag IO_LIST (thr (fr_threads f) t) then RemoveIoWait t f else RemoveSleep t f)
    as [f1|] eqn:E1; [|done]. cbn [mbind option_bind] in E.
  apply (IH (InsertRunable t f1)); [|by eapply wake_top_ordered|done].
  apply (fw_sleep _ _ (co_wf _ _ _ _ C)) in Hin.
  destruct Hin as [Hs|Hs].
  - assert (Hio : HasFlag IO_LIST (thr (fr_threads f) t) = false).
    { apply not_true_is_false. intros Hx. apply (HasFlag_io A f t (co_wf _ _ _ _ C)) in Hx. by rewrite Hs in Hx. }
    rewrite Hio in E1. destruct (wake_sleep_moved A f t (co_wf _ _ _ _ C) Hs) as (f2 & E2 & M & _).
    rewrite E1 in E2. injection E2 as <-. eapply core_wake; eauto. rewrite Hs. by left.
  - assert (Hio : HasFlag IO_LIST (thr (fr_threads f) t) = true) by (by apply (HasFlag_io A f t (co_wf _ _ _ _ C))).
    rewrite Hio in E1. destruct (wake_io_moved A f t (co_wf _ _ _ _ C) Hs) as (f2 & E2 & M & _).
    rewrite E1 in E2. injection E2 as <-. eapply core_wake; eauto. rewrite Hs. by right.
Qed.

Lemma WakeupTimeout_spec A X Y sysms f :
  core A X Y f -> heap_ordered (fr_sleeplist f) (fr_threads f) ->
  let now := GetLastClock sysms f in
  exists f', WakeupTimeout sysms f = Some f' /\ core A X Y f' /\
    heap_ordered (fr_sleeplist f') (fr_threads f') /\
    forall x, low (fr_threads f') x =
      if decide (in_heap (fr_threads f) x /\ mt_wakeup_time (thr (fr_threads f) x) <= now)
      then Run else low (fr_threads f) x.
Proof.
  intros C Ho now. unfold WakeupTimeout.
  destruct (WakeupTimeout_loop_spec A X Y (S (Z.to_nat (h_count (fr_sleeplist f)))) now f C)
    as (f' & E & C' & _ & _ & _ & Hw & Hx); [lia|].
  destruct (WakeupTimeout_loop_done A X Y _ _ _ _ C Ho E) as [Ho' Hdone].
  exists f'. split_and!; auto. intros x.
  assert (Hs : in_heap (fr_threads f) x <-> in_sleep (low (fr_threads f) x)) by apply (co_wf _ _ _ _ C).
  assert (Hs' : in_heap (fr_threads f') x <-> in_sleep (low (fr_threads f') x)) by apply (co_wf _ _ _ _ C').
  specialize (Hdone x). rewrite Hw in Hdone.
  destruct (Hx x) as [Heq|(Hsl & Hrun & Hle)].
  - rewrite Heq in *. case_decide as Hd; [|done]. destruct Hd as [Hd1 Hd2]. exfalso.
    assert (now < mt_wakeup_time (thr (fr_threads f) x)) by (apply Hdone; tauto). lia.
  - rewrite decide_True; [done|]. split; [by apply Hs|done].
Qed.

(** ** Claims *)

Definition sched_ok f : Prop := exists A, sched_inv A f.

Lemma new_MtFrame_start e : new_MtFrame e = start_frame (new_HeapList 0) e.
Proof. done. Qed.

Lemma reach_ok f f' : rtc sched_step f f' -> sched_ok f -> sched_ok f'.
Proof.
  induction 1 as [|f1 f2 f3 [f1' c f2' Hok E] _ IH]; [done|]. intros [A I]. apply IH.
  destruct (exec_call_inv A c f1' I Hok) as (A' & f2'' & E' & I'). exists A'. congruence.
Qed.

Lemma init_ok news max heap_ok dnew p sysms e f :
  InitFrame news max heap_ok dnew (Some p) sysms (new_MtFrame e) = Some f ->
  fresh ∅ (news ++ [Some p]) -> Z.of_nat (length (omap id news)) < Z.max 100000 (max * 2) ->
  sched_ok f.
Proof.
  intros E Hfr Hlen. rewrite new_MtFrame_start in E.
  pose proof (InitFrame_inv news max heap_ok dnew p sysms (new_HeapList 0) e Hfr eq_refl
    (new_HeapList_wf 0)) as H. rewrite E in H.
  apply H; change (h_max (new_HeapList 0)) with 100000; lia.
Qed.

(** C1: the scheduler never meets undefined behaviour.  Start it with [InitFrame]
    (from distinct new threads, fewer than the heap has cells), let the threads
    make any sequence of calls (sleep, wait for descriptors or notifications,
    create threads, run sub tasks, return) interleaved with daemon rounds on
    arbitrary events and clock values: whatever call comes next is defined (no
    unlinking of an element that is not queued, no [NULL] thread, no full heap),
    and the scheduler is in its invariant again. *)
Theorem scheduler_safe news max heap_ok dnew p sysms e f0 f c :
  InitFrame news max heap_ok dnew (Some p) sysms (new_MtFrame e) = Some f0 ->
  fresh ∅ (news ++ [Some p]) -> Z.of_nat (length (omap id news)) < Z.max 100000 (max * 2) ->
  rtc sched_step f0 f -> call_ok f c ->
  exists f', exec_call c f = Some f' /\ sched_ok f'.
Proof.
  intros E Hfr Hlen Hr Hok. destruct (reach_ok f0 f Hr (init_ok _ _ _ _ _ _ _ _ E Hfr Hlen)) as [A I].
  destruct (exec_call_inv A c f I Hok) as (A' & f' & ? & ?). exists f'. split; [done|]. by exists A'.
Qed.

(** C11: in every reachable state each thread is in one place at most, and its flag
    bits and its state say which.  The places are the run queue ([RUN_LIST]), the
    pending queue ([PEND_LIST]), the queue of free threads ([FREE_LIST]), the sleep heap
    alone ([SLEEP_LIST]) and the IO queue, whose threads are in the sleep heap as well
    ([IO_LIST] and [SLEEP_LIST]); no other combination of these five bits occurs.  No
    queue has a thread twice.  A runnable thread is [RUNABLE], a pending one [PENDING],
    one in the sleep heap [SLEEPING]; the active thread is nowhere. *)
Theorem one_queue_per_thread news max heap_ok dnew p sysms e f0 f :
  InitFrame news max heap_ok dnew (Some p) sysms (new_MtFrame e) = Some f0 ->
  fresh ∅ (news ++ [Some p]) -> Z.of_nat (length (omap id news)) < Z.max 100000 (max * 2) ->
  rtc sched_step f0 f ->
  NoDup (fr_runlist f ++ fr_iolist f ++ fr_pend_list f ++ tp_freelist (fr_pool f)) /\
  (forall x, x ∈ fr_runlist f -> mt_state (thr (fr_threads f) x) = RUNABLE /\ ~ in_heap (fr_threads f) x) /\
  (forall x, x ∈ fr_pend_list f -> mt_state (thr (fr_threads f) x) = PENDING /\ ~ in_heap (fr_threads f) x) /\
  (forall x, x ∈ fr_iolist f -> in_heap (fr_threads f) x) /\
  (forall x, in_heap (fr_threads f) x -> mt_state (thr (fr_threads f) x) = SLEEPING) /\
  (forall x, x ∈ tp_freelist (fr_pool f) -> ~ in_heap (fr_threads f) x) /\
  (forall x, let bits := Z.land (mt_flag (thr (fr_threads f) x))
                           (Z.lor FREE_LIST (Z.lor IO_LIST (Z.lor SLEEP_LIST (Z.lor RUN_LIST PEND_LIST)))) in
     (x ∈ fr_runlist f <-> bits = RUN_LIST) /\ (x ∈ fr_pend_list f <-> bits = PEND_LIST) /\
     (x ∈ tp_freelist (fr_pool f) <-> bits = FREE_LIST) /\ (x ∈ fr_iolist f <-> bits = Z.lor IO_LIST SLEEP_LIST) /\
     (in_heap (fr_threads f) x <-> bits = SLEEP_LIST \/ bits = Z.lor IO_LIST SLEEP_LIST) /\
     bits ∈ [NOT_INLIST; RUN_LIST; PEND_LIST; FREE_LIST; SLEEP_LIST; Z.lor IO_LIST SLEEP_LIST]) /\
  (forall t, fr_curr f = Some t -> (t ∉ fr_runlist f ++ fr_iolist f ++ fr_pend_list f ++ tp_freelist (fr_pool f)) /\
     ~ in_heap (fr_threads f) t).
Proof.
  intros E Hfr Hlen Hr. destruct (reach_ok f0 f Hr (init_ok _ _ _ _ _ _ _ _ E Hfr Hlen)) as [A I].
  destruct I as [[W _ _] (t & Ht & Hl & _)].
  pose proof (fw_nodup _ _ W) as (N1 & N2 & N3 & N4).
  split_and!.
  - rewrite !list.NoDup_app. split_and!; auto;
      intros x; rewrite ?elem_of_app, ?(fw_run _ _ W), ?(fw_io _ _ W), ?(fw_pend _ _ W), ?(fw_free _ _ W);
      intros ->; unfold Run, IoWait, Pend, Free; lia.
  - intros x Hx%(fw_run _ _ W). rewrite (fw_sleep _ _ W), Hx. split; [by apply (fw_state _ _ W)|by intros [|]].
  - intros x Hx%(fw_pend _ _ W). rewrite (fw_sleep _ _ W), Hx. split; [by apply (fw_state _ _ W)|by intros [|]].
  - intros x Hx%(fw_io _ _ W). rewrite (fw_sleep _ _ W), Hx. by right.
  - intros x Hx%(fw_sleep _ _ W). by apply (fw_state _ _ W).
  - intros x Hx%(fw_free _ _ W). rewrite (fw_sleep _ _ W), Hx. by intros [|].
  - intros x bits. change bits with (low (fr_threads f) x). clear bits.
    rewrite (fw_run _ _ W), (fw_pend _ _ W), (fw_free _ _ W), (fw_io _ _ W), (fw_sleep _ _ W).
    do 5 (split; [done|]). pose proof (fw_place _ _ W x) as Hp. unfold place_ok in Hp.
    destruct Hp as [->|[->|[->|[->|[->| ->]]]]]; apply list_elem_of_In; cbn; tauto.
  - intros t' Ht'. rewrite Ht in Ht'. injection Ht' as <-. rewrite !elem_of_app.
    rewrite (fw_run _ _ W), (fw_io _ _ W), (fw_pend _ _ W), (fw_free _ _ W), (fw_sleep _ _ W), Hl.
    split; [by intros [?|[?|[?|?]]]|by intros [|]].
Qed.

(** C29: a timeout check wakes expired sleepers, and all of them when the sleep heap is
    in order.  [WakeupTimeout] always returns in the invariant; a thread changes its
    queue only if it was sleeping (for IO or not) with a wake-up time that has passed,
    and then it is runnable; the thread at the top of the heap afterwards is not due.
    If the heap was in order - [HeapDelete] can break the order - exactly the threads
    that were due are woken. *)
Theorem WakeupTimeout_wakes_expired A sysms f :
  sched_inv A f -> let now := GetLastClock sysms f in
  exists f', WakeupTimeout sysms f = Some f' /\ sched_inv A f' /\
    (forall x, low (fr_threads f') x = low (fr_threads f) x \/
       in_heap (fr_threads f) x /\ mt_wakeup_time (thr (fr_threads f) x) <= now /\ low (fr_threads f') x = Run) /\
    (forall t, HeapTop (fr_sleeplist f') = Some t -> now < mt_wakeup_time (thr (fr_threads f') t)) /\
    (heap_ordered (fr_sleeplist f) (fr_threads f) -> forall x, low (fr_threads f') x =
      if decide (in_heap (fr_threads f) x /\ mt_wakeup_time (thr (fr_threads f) x) <= now)
      then Run else low (fr_threads f) x).
Proof.
  intros [C (t & Ht & Hl & HA)] now. unfold WakeupTimeout. fold now.
  destruct (WakeupTimeout_loop_spec A [] None (S (Z.to_nat (h_count (fr_sleeplist f)))) now f C)
    as (f' & E & C' & Hc & _ & _ & _ & Hlow); [lia|]. pose proof (fw_sleep _ _ (co_wf _ _ _ _ C)) as Hin.
  exists f'. split_and!; auto.
  - split; [done|]. exists t. split_and!; [congruence| |done]. destruct (Hlow t) as [->|[Hs _]]; [done|]. rewrite Hl in Hs. by destruct Hs.
  - intros x. destruct (Hlow x) as [?|(H1 & H2 & H3)]; [by left|right]. by rewrite Hin.
  - intros u. by eapply WakeupTimeout_loop_top.
  - intros Ho. destruct (WakeupTimeout_spec A [] None sysms f C Ho) as (f'' & E' & _ & _ & Hx).
    unfold WakeupTimeout in E'. fold now in E', Hx. by assert (f'' = f') as -> by congruence.
Qed.

(** The time [epoll_wait] may block never makes a sleeper late.  When the
    heap is in order and no deadline is 2{^31} ms or more away, the timeout is not
    negative (a negative one would block for ever), it does not go past any
    sleeper's wake-up time, and it is 10 ms when nobody sleeps. *)
Theorem EpollGetTimeout_not_late A sysms f :
  sched_inv A f -> heap_ordered (fr_sleeplist f) (fr_threads f) ->
  (forall x, in_heap (fr_threads f) x ->
     mt_wakeup_time (thr (fr_threads f) x) - GetLastClock sysms f < 2 ^ 31) ->
  0 <= EpollGetTimeout sysms f /\
  (forall x, in_heap (fr_threads f) x ->
     EpollGetTimeout sysms f <= Z.max 0 (mt_wakeup_time (thr (fr_threads f) x) - GetLastClock sysms f)) /\
  ((forall x, ~ in_heap (fr_threads f) x) -> EpollGetTimeout sysms f = 10).
Proof.
  intros [C _] Ho Hnear. unfold EpollGetTimeout.
  pose proof (HeapTop_spec _ _ (fw_heap _ _ (co_wf _ _ _ _ C)) Ho) as Htop.
  destruct (HeapTop (fr_sleeplist f)) as [t|].
  - destruct Htop as [Hin Hmin]. specialize (Hnear t Hin). simpl in Hmin.
    destruct (Z.ltb_spec (mt_wakeup_time (thr (fr_threads f) t)) (GetLastClock sysms f)).
    + split_and!; [lia| |by intros Hx; apply Hx in Hin]. intros; lia.
    + rewrite i32_small by lia. split_and!; [lia| |by intros Hx; apply Hx in Hin].
      intros x Hx. specialize (Hmin x Hx). lia.
  - split_and!; [lia| |done]. intros x Hx. by apply Htop in Hx.
Qed.

(** The end of a thread.  [MicroThread::Run] after the entry function has
    returned recycles the thread, and appends its parent to the run queue exactly
    when the thread was the parent's last sub thread; then the first thread of the
    run queue becomes active, or the daemon if the queue is empty. *)
Theorem RunEnd_wakes_parent A n f t :
  sched_inv A f -> fr_curr f = Some t -> fr_daemon f <> Some t ->
  exists A' f', RunEnd n f = Some f' /\ sched_inv A' f' /\ low (fr_threads f') t = Free /\
    runs_next (fr_runlist f ++
      match mt_parent (thr (fr_threads f) t) with
      | Some p => if decide (mt_sub_list (thr (fr_threads f) p) = [t]) then [p] else []
      | None => []
      end) f f'.
Proof.
  intros I Ht Hd. destruct (RunEnd_inv A n f t I Ht Hd) as (A' & f' & ? & ? & _ & ? & ?). eauto 6.
Qed.

(** [mt_exec_all_task] starts every task and waits.  For a non-empty task list
    and distinct fresh addresses it either returns -1 with the caller still active
    and the invariant intact (a sub thread could not be created, those created are
    recycled), or it queues one sub thread per task at the end of the run queue,
    in order, records them as sub threads of the caller, leaves the caller pending
    and switches to the next runnable thread. *)
Theorem mt_exec_all_task_waits A n tasks f t :
  sched_inv A f -> fr_curr f = Some t -> fr_daemon f <> Some t -> tasks <> [] ->
  fresh A (tasks.*1) ->
  exists r A' f', mt_exec_all_task n tasks f = Some (r, f') /\ sched_inv A' f' /\
    ((r = Some (-1) /\ fr_curr f' = Some t) \/
     (r = None /\ exists subs, length subs = length tasks /\ NoDup subs /\
        runs_next (fr_runlist f ++ subs) f f' /\
        mt_sub_list (thr (fr_threads f') t) = subs /\ low (fr_threads f') t = Pend)).
Proof.
  intros I Ht Hd Hne Hfr.
  destruct (mt_exec_all_task_inv A n tasks f t I Ht Hd Hfr) as (r & A' & f' & E & I' & H1 & H2).
  exists r, A', f'. split_and!; auto. destruct r as [r|].
  - left. split; [|auto]. unfold mt_exec_all_task in E. rewrite Ht in E. destruct tasks as [|tk tasks]; [done|].
    destruct (exec_create (tk :: tasks) f) as [[[] l] f1]; [|congruence].
    destruct (Wait _); simpl in E; congruence.
  - right. split; [done|]. destruct H2 as (subs & ? & ? & _ & ? & ? & ?); [done|]. eauto 10.
Qed.
End main.

(** ** A concrete scheduler

    Four pool threads (1 to 4), thread 9 primordial, a heap of 16 cells.  The
    primordial thread creates a thread and sleeps, the new thread sleeps too, and
    the daemon runs. *)

Definition demo_start : MtFrame (gmap Z Z) :=
  default (new_MtFrame sample_epoll)
    (InitFrame [Some 1%positive; Some 2%positive; None; Some 3%positive; Some 4%positive] 6 true None
       (Some 9%positive) 1000 (start_frame (new_HeapList 16) sample_epoll)).

Definition demo_call (c : sched_call) (f : MtFrame (gmap Z Z)) : MtFrame (gmap Z Z) :=
  default demo_start (exec_call map_epoll_ctl 4 c f).

(** Threads 1 (the daemon) and 2 exist from the start; 2 and 9 sleep. *)
Definition demo_created := demo_call (CallCreate None 0 7) demo_start.
Definition demo_sleep9 := demo_call (CallSleep 1000 50) demo_created.
Definition demo_sleep := demo_call (CallSleep 1000 20) demo_sleep9.

Lemma demo_start_ok : sched_ok demo_start.
Proof.
  unfold demo_start.
  pose proof (InitFrame_inv [Some 1%positive; Some 2%positive; None; Some 3%positive; Some 4%positive] 6 true None
    9%positive 1000 (new_HeapList 16) sample_epoll) as H.
  destruct (InitFrame _ _ _ _ _ _ _) as [f|].
  - apply H; [|done|apply new_HeapList_wf|done|done]. split; [by apply (bool_decide_unpack _)|].
    intros n _. apply not_elem_of_empty.
  - destruct H as [H|[H _]]; [|done|apply new_HeapList_wf|done|done|done|done].
    split; [by apply (bool_decide_unpack _)|]. intros n _. apply not_elem_of_empty.
Qed.

Lemma demo_call_ok c f : sched_ok f -> call_ok f c -> sched_ok (demo_call c f).
Proof.
  intros [A I] Hok. destruct (exec_call_inv map_epoll_ctl 4 A c f I Hok) as (A' & f' & E & I').
  unfold demo_call. rewrite E. by exists A'.
Qed.

Lemma demo_created_ok : sched_ok demo_created.
Proof.
  apply demo_call_ok; [apply demo_start_ok|]. split; [apply NoDup_nil_2|]. by intros n ?%elem_of_nil.
Qed.

Lemma demo_sleep_ok : sched_ok demo_sleep9 /\ sched_ok demo_sleep.
Proof.
  assert (H : sched_ok demo_sleep9).
  { apply demo_call_ok; [apply demo_created_ok|]. by vm_compute. }
  split; [done|]. apply demo_call_ok; [done|]. by vm_compute.
Qed.

(** A bounded check of the heap order. *)
Definition orderedb (h : HeapList) (s : gmap ptr MicroThread) : bool :=
  forallb (fun i => val h s (Z.of_nat i / 2) <=? val h s (Z.of_nat i)) (seq 2 (Z.to_nat (h_count h) - 1)).

Lemma orderedb_ok h s : orderedb h s = true -> heap_ordered h s.
Proof.
  intros H i Hi. unfold orderedb in H. rewrite forallb_forall in H.
  specialize (H (Z.to_nat i)). rewrite in_seq, Z2Nat.id in H by lia. apply Z.leb_le, H. lia.
Qed.

Lemma fresh_check (news : list (option ptr)) : bool_decide (NoDup (omap id news)) = true -> fresh ∅ news.
Proof. intros H. split; [by apply bool_decide_eq_true in H|]. intros n _. apply not_elem_of_empty. Qed.

Lemma wakeup_bound (s : gmap ptr MicroThread) b x :
  0 <= b -> map_Forall (fun _ m => mt_wakeup_time m <= b) s -> mt_wakeup_time (thr s x) <= b.
Proof.
  intros Hb Hs. unfold thr. destruct (s !! x) as [m|] eqn:E; simpl; [|done]. by apply (Hs x).
Qed.

Lemma demo_init : exists f, InitFrame [Some 1%positive; Some 2%positive] 6 true None (Some 9%positive) 1000
  (new_MtFrame sample_epoll) = Some f /\ fr_curr f <> fr_daemon f.
Proof.
  pose proof (InitFrame_inv [Some 1%positive; Some 2%positive] 6 true None 9%positive 1000
    (new_HeapList 0) sample_epoll (fresh_check [Some 1%positive; Some 2%positive; Some 9%positive] eq_refl)
    eq_refl (new_HeapList_wf 0)) as H.
  change (start_frame (new_HeapList 0) sample_epoll) with (new_MtFrame sample_epoll) in H.
  change (h_max (new_HeapList 0)) with 100000 in H.
  destruct (InitFrame _ _ _ _ _ _ _) as [f|].
  - exists f. split; [done|]. destruct H as (_ & _ & -> & H); [done|done|]. congruence.
  - by destruct H as [H|[H _]].
Qed.

Lemma scheduler_safe_witness :
  exists f f', InitFrame [Some 1%positive; Some 2%positive] 6 true None (Some 9%positive) 1000
    (new_MtFrame sample_epoll) = Some f /\
    exec_call map_epoll_ctl 4 (CallSleep 1000 5) f = Some f' /\ sched_ok f'.
Proof.
  destruct demo_init as (f & E & Hd). exists f.
  destruct (scheduler_safe map_epoll_ctl 4 _ _ _ _ _ _ _ f f (CallSleep 1000 5) E) as (f' & E' & I).
  - by apply fresh_check.
  - done.
  - apply rtc_refl.
  - exact Hd.
  - exists f'. auto.
Defined.

Lemma one_queue_per_thread_witness :
  exists f, InitFrame [Some 1%positive; Some 2%positive] 6 true None (Some 9%positive) 1000
    (new_MtFrame sample_epoll) = Some f /\
    NoDup (fr_runlist f ++ fr_iolist f ++ fr_pend_list f ++ tp_freelist (fr_pool f)).
Proof.
  destruct demo_init as (f & E & Hd). exists f. split; [done|].
  apply (one_queue_per_thread map_epoll_ctl 4 _ _ _ _ _ _ _ f f E).
  - by apply fresh_check.
  - done.
  - apply rtc_refl.
Defined.

Lemma WakeupTimeout_wakes_expired_witness :
  exists f', WakeupTimeout 1030 demo_sleep = Some f' /\
    low (fr_threads f') 2%positive = Run /\ low (fr_threads f') 9%positive = Sleep.
Proof.
  destruct demo_sleep_ok as [_ [A I]].
  destruct (WakeupTimeout_wakes_expired A 1030 demo_sleep I) as (f' & E & _ & _ & _ & Ho).
  assert (H : heap_ordered (fr_sleeplist demo_sleep) (fr_threads demo_sleep)) by (by apply orderedb_ok).
  specialize (Ho H). clear H. rename Ho into H.
  - exists f'. split; [exact E|]. rewrite !H. clear E H. split.
    + rewrite decide_True; [done|]. by vm_compute.
    + rewrite decide_False; [by vm_compute|]. intros [_ Hle]. by vm_compute in Hle.
Defined.

Lemma EpollGetTimeout_not_late_witness :
  EpollGetTimeout 1005 demo_sleep = 15 /\ 0 <= EpollGetTimeout 1005 demo_sleep /\
  EpollGetTimeout 1005 demo_sleep <= Z.max 0 (mt_wakeup_time (thr (fr_threads demo_sleep) 9%positive) - 1005).
Proof.
  destruct demo_sleep_ok as [_ [A I]]. split; [by vm_compute|].
  destruct (EpollGetTimeout_not_late A 1005 demo_sleep I) as (H1 & H2 & _).
  - by apply orderedb_ok.
  - intros x _. pose proof (wakeup_bound (fr_threads demo_sleep) 1050 x) as Hw.
    change (GetLastClock 1005 demo_sleep) with 1005. enough (Hm : map_Forall (fun _ m => mt_wakeup_time m <= 1050) (fr_threads demo_sleep)).
    { specialize (Hw ltac:(lia) Hm). lia. }
    apply (bool_decide_unpack _). by vm_compute.
  - split; [done|]. apply (H2 9%positive). by vm_compute.
Defined.

(** Thread 9 runs two tasks as sub threads 2 and 3 and waits; then 2 is active. *)
Definition demo_exec := demo_call (CallExecAll [(None, 1); (None, 2)]) demo_start.

Lemma demo_exec_ok : sched_ok demo_exec.
Proof.
  apply demo_call_ok; [apply demo_start_ok|]. split; [by vm_compute|].
  split; [apply NoDup_nil_2|]. by intros n ?%elem_of_nil.
Qed.

Lemma mt_exec_all_task_waits_witness :
  exists f', mt_exec_all_task 4 [(None, 1); (None, 2)] demo_start = Some (None, f') /\
    length (mt_sub_list (thr (fr_threads f') 9%positive)) = 2%nat /\ low (fr_threads f') 9%positive = Pend.
Proof.
  destruct demo_start_ok as [A I].
  destruct (mt_exec_all_task_waits A 4 [(None, 1); (None, 2)] demo_start 9%positive I) as (r & A' & f' & E & _ & H).
  - by vm_compute.
  - by vm_compute.
  - done.
  - split; [apply NoDup_nil_2|]. by intros n ?%elem_of_nil.
  - exists f'. destruct H as [[-> H]|[-> (subs & Hl & _ & _ & <- & Hp)]]; [|auto].
    exfalso. assert (Hx : option_map fst (mt_exec_all_task 4 [(None, 1); (None, 2)] demo_start) = Some None)
      by (by vm_compute). rewrite E in Hx. discriminate Hx.
Defined.

Lemma RunEnd_wakes_parent_witness :
  fr_curr demo_exec = Some 2%positive /\
  exists f', RunEnd 4 demo_exec = Some f' /\ fr_curr f' = Some 3%positive /\ fr_runlist f' = [].
Proof.
  split; [by vm_compute|]. destruct demo_exec_ok as [A I].
  destruct (RunEnd_wakes_parent A 4 demo_exec 2%positive I) as (A' & f' & E & _ & _ & H).
  - by vm_compute.
  - by vm_compute.
  - exists f'. split; [exact E|]. clear E I. destruct H as [H1 H2]. rewrite H1, H2. by vm_compute.
Defined.
