(* ===== verification/HashList.v ===== *)
(** * The hash table

    Models [src/src/sync_frame/micro_thread/hash_list.h]: open hashing with
    intrusive chains.  The keys live in a store of objects linked by their
    [_next_entry] pointers; [HashValue] and [HashCmp] are virtual functions, hence
    parameters.  A chain is walked with [fuel]: [None] when it does not end. *)

From Stdlib Require Znumtheory.
From Stdlib Require Import ZArith Lia.
From stdpp Require Import base gmap list option.
From S2P Require Import Prelude.

(** [class HashKey] (the fields of the base class) *)
Record HashKey := mkHashKey {
  hk_next : option ptr;
  hk_hash : Z;
  hk_data : option ptr;
}.

Definition new_HashKey : HashKey := mkHashKey None 0 None.

(** [class HashList]; [None] for the buckets after a failed allocation. *)
Record HashList := mkHashList {
  hl_buckets : option (list (option ptr));
  hl_count : Z;
  hl_max : Z;
}.

(** [GetMaxPrimeNum]: the largest number up to [num] without a divisor from 2 to
    the square root of [num]. *)
Fixpoint no_divisor (n : nat) (i k : Z) : bool :=
  match n with
  | O => true
  | S n => if i mod k =? 0 then false else no_divisor n i (k + 1)
  end.
Fixpoint max_prime_loop (n : nat) (sqrt_value i : Z) : Z :=
  match n with
  | O => 0
  | S n => if no_divisor (Z.to_nat (sqrt_value - 1)) i 2 then i else max_prime_loop n sqrt_value (i - 1)
  end.
Definition GetMaxPrimeNum (num : Z) : Z := max_prime_loop (Z.to_nat num) (Z.sqrt num) num.

(** The constructor. *)
Definition new_HashList (max : Z) (calloc_ok : bool) : HashList :=
  let m := GetMaxPrimeNum (if 2 <? max then max else 100000) in
  mkHashList (if calloc_ok then Some (replicate (Z.to_nat m) None) else None) 0 m.

(** ** The number of buckets *)

Lemma no_divisor_spec n i k :
  no_divisor n i k = true <-> forall d, k <= d < k + Z.of_nat n -> i mod d <> 0.
Proof.
  revert k. induction n as [|n IH]; intros k; simpl; [split; [intros _ d ?; lia|done]|].
  destruct (Z.eqb_spec (i mod k) 0) as [E|E].
  - split; [done|]. intros H. by destruct (H k ltac:(lia)).
  - rewrite IH. split; intros H d Hd; [|apply H; lia]. destruct (decide (d = k)) as [-> | ?]; [done|]. apply H. lia.
Qed.

(** [i] passes the inner loop of [GetMaxPrimeNum]. *)
Definition passes (q i : Z) : Prop := forall d, 2 <= d <= q -> i mod d <> 0.

Lemma passes_no_divisor q i : no_divisor (Z.to_nat (q - 1)) i 2 = true <-> passes q i.
Proof.
  rewrite no_divisor_spec. unfold passes. split; intros H d Hd; apply H; lia.
Qed.

Lemma passes_one q : passes q 1.
Proof. intros d Hd. rewrite Z.mod_small; lia. Qed.

Lemma max_prime_loop_spec n q : (0 < n)%nat ->
  0 < max_prime_loop n q (Z.of_nat n) <= Z.of_nat n /\ passes q (max_prime_loop n q (Z.of_nat n)) /\
  forall j, max_prime_loop n q (Z.of_nat n) < j <= Z.of_nat n -> ~ passes q j.
Proof.
  induction n as [|n IH]; [lia|]. intros _. cbn [max_prime_loop].
  destruct (no_divisor (Z.to_nat (q - 1)) (Z.of_nat (S n)) 2) eqn:E.
  - apply passes_no_divisor in E. split; [lia|]. split; [done|]. lia.
  - assert (Hp : ~ passes q (Z.of_nat (S n))) by (intros H%passes_no_divisor; congruence).
    replace (Z.of_nat (S n) - 1) with (Z.of_nat n) by lia.
    destruct n as [|n]; [by destruct Hp; apply passes_one|].
    destruct (IH ltac:(lia)) as (H1 & H2 & H3). split; [lia|]. split; [done|].
    intros j Hj. destruct (decide (j = Z.of_nat (S (S n)))) as [-> | ?]; [done|]. apply H3. lia.
Qed.

Lemma GetMaxPrimeNum_spec num : 0 < num ->
  0 < GetMaxPrimeNum num <= num /\ passes (Z.sqrt num) (GetMaxPrimeNum num) /\
  forall j, GetMaxPrimeNum num < j <= num -> ~ passes (Z.sqrt num) j.
Proof.
  intros H. unfold GetMaxPrimeNum. pose proof (max_prime_loop_spec (Z.to_nat num) (Z.sqrt num) ltac:(lia)) as E.
  by rewrite Z2Nat.id in E by lia.
Qed.

Lemma GetMaxPrimeNum_pos num : 0 < num -> 0 < GetMaxPrimeNum num.
Proof. intros H. apply (GetMaxPrimeNum_spec num H). Qed.

Lemma passes_prime num i : 1 < i <= num -> passes (Z.sqrt num) i -> Znumtheory.prime i.
Proof.
  intros Hi Hp. apply Znumtheory.prime_alt. split; [lia|]. intros d Hd [c Hc].
  assert (H0 : i mod d = 0) by (apply Z.mod_divide; [lia|by exists c]).
  assert (Hc1 : 1 < c) by nia.
  assert (H1 : i mod c = 0) by (apply Z.mod_divide; [lia|exists d; lia]).
  destruct (Z.le_gt_cases d (Z.sqrt num)) as [Hd'|Hd']; [by apply (Hp d); [lia|]|].
  apply (Hp c); [|done]. pose proof (Z.sqrt_spec num ltac:(lia)) as Hs. cbn zeta in Hs. split; [lia|].
  destruct (Z.le_gt_cases c (Z.sqrt num)); [done|]. nia.
Qed.

Section hash.
Context (HashValue : ptr -> Z) (HashCmp : ptr -> ptr -> Z).

Definition hkey (s : gmap ptr HashKey) (p : ptr) : HashKey := default new_HashKey (s !! p).
Definition hupd (p : ptr) (f : HashKey -> HashKey) (s : gmap ptr HashKey) : gmap ptr HashKey := <[p := f (hkey s p)]> s.
Definition set_next (n : option ptr) (k : HashKey) : HashKey := mkHashKey n (hk_hash k) (hk_data k).
Definition set_hash (h : Z) (k : HashKey) : HashKey := mkHashKey (hk_next k) h (hk_data k).
Definition SetDataPtr (d : option ptr) (k : HashKey) : HashKey := mkHashKey (hk_next k) (hk_hash k) d.

Definition HashSize (t : HashList) : Z := hl_count t.

(** [HashInsert] *)
Definition HashInsert (t : HashList) (s : gmap ptr HashKey) (key : option ptr) : Z * HashList * gmap ptr HashKey :=
  match key, hl_buckets t with
  | Some k, Some b =>
      if negb (hk_hash (hkey s k) =? 0) || bool_decide (hk_next (hkey s k) <> None) then (-2, t, s)
      else
        let s := hupd k (set_hash (HashValue k)) s in
        let idx := hk_hash (hkey s k) mod hl_max t in
        let next_item := aget b idx in
        let s := hupd k (set_next next_item) s in
        (0, mkHashList (Some (aset b idx (Some k))) (hl_count t + 1) (hl_max t), s)
  | _, _ => (-1, t, s)
  end.

(** The loop of [HashFind]. *)
Fixpoint find_loop (fuel : nat) (s : gmap ptr HashKey) (hash : Z) (key : ptr) (item : option ptr)
  : option (option ptr) :=
  match fuel with
  | O => None
  | S fuel =>
      match item with
      | None => Some None
      | Some i =>
          if negb (hk_hash (hkey s i) =? hash) then find_loop fuel s hash key (hk_next (hkey s i))
          else if HashCmp i key =? 0 then Some (Some i)
          else find_loop fuel s hash key (hk_next (hkey s i))
      end
  end.

(** [HashFind] and [HashFindData] *)
Definition HashFind (fuel : nat) (t : HashList) (s : gmap ptr HashKey) (key : option ptr) : option (option ptr) :=
  match key, hl_buckets t with
  | Some k, Some b =>
      let hash := HashValue k in
      find_loop fuel s hash k (aget b (hash mod hl_max t))
  | _, _ => Some None
  end.
Definition HashFindData (fuel : nat) (t : HashList) (s : gmap ptr HashKey) (key : option ptr) : option (option ptr) :=
  item ← HashFind fuel t s key;
  Some (i ← item; hk_data (hkey s i)).

(** The loop of [HashRemove] in bucket [idx]. *)
Fixpoint remove_loop (fuel : nat) (t : HashList) (b : list (option ptr)) (s : gmap ptr HashKey) (hash : Z) (key : ptr)
    (idx : Z) (prev item : option ptr) : option (HashList * gmap ptr HashKey) :=
  match fuel with
  | O => None
  | S fuel =>
      match item with
      | None => Some (t, s)
      | Some i =>
          if (hk_hash (hkey s i) =? hash) && (HashCmp i key =? 0) then
            let next := hk_next (hkey s i) in
            let '(b, s) := match prev with
                           | None => (aset b idx next, s)
                           | Some p => (b, hupd p (set_next next) s)
                           end in
            let s := hupd i (set_hash 0) s in
            let s := hupd i (set_next None) s in
            Some (mkHashList (Some b) (hl_count t - 1) (hl_max t), s)
          else remove_loop fuel t b s hash key idx item (hk_next (hkey s i))
      end
  end.

(** [HashRemove] *)
Definition HashRemove (fuel : nat) (t : HashList) (s : gmap ptr HashKey) (key : option ptr)
  : option (HashList * gmap ptr HashKey) :=
  match key, hl_buckets t with
  | Some k, Some b =>
      let hash := HashValue k in
      let idx := hash mod hl_max t in
      remove_loop fuel t b s hash k idx None (aget b idx)
  | _, _ => Some (t, s)
  end.

(** [HashForeach]: the keys whose [HashIterate] is called, in order.  The outer loop
    is bounded by [_max], each chain by [fuel]. *)
Fixpoint chain_items (fuel : nat) (s : gmap ptr HashKey) (item : option ptr) : option (list ptr) :=
  match fuel with
  | O => None
  | S fuel =>
      match item with
      | None => Some []
      | Some i => l ← chain_items fuel s (hk_next (hkey s i)); Some (i :: l)
      end
  end.
Fixpoint foreach_loop (fuel n : nat) (s : gmap ptr HashKey) (b : list (option ptr)) (i : Z) : option (list ptr) :=
  match n with
  | O => Some []
  | S n => l ← chain_items fuel s (aget b i); r ← foreach_loop fuel n s b (i + 1); Some (l ++ r)
  end.
Definition HashForeach (fuel : nat) (t : HashList) (s : gmap ptr HashKey) : option (list ptr) :=
  match hl_buckets t with
  | None => Some []
  | Some b => foreach_loop fuel (Z.to_nat (hl_max t)) s b 0
  end.

(** [HashGetFirst]: the head of the first non-empty bucket. *)
Fixpoint get_first_loop (n : nat) (b : list (option ptr)) (i : Z) : option ptr :=
  match n with
  | O => None
  | S n => match aget b i with Some p => Some p | None => get_first_loop n b (i + 1) end
  end.
Definition HashGetFirst (t : HashList) : option ptr :=
  match hl_buckets t with
  | None => None
  | Some b => get_first_loop (Z.to_nat (hl_max t)) b 0
  end.

(** ** The table as a list of keys *)

Lemma hkey_upd p f s q : hkey (hupd p f s) q = if decide (p = q) then f (hkey s p) else hkey s q.
Proof. unfold hkey, hupd. rewrite lookup_insert. by case_decide. Qed.

(** [item] starts a chain of the keys [l]. *)
Fixpoint chain (s : gmap ptr HashKey) (item : option ptr) (l : list ptr) : Prop :=
  match l with
  | [] => item = None
  | x :: l => item = Some x /\ chain s (hk_next (hkey s x)) l
  end.

Lemma chain_frame s s' item l :
  (forall x, x ∈ l -> hk_next (hkey s' x) = hk_next (hkey s x)) -> chain s item l -> chain s' item l.
Proof.
  revert item. induction l as [|x l IH]; intros item Hf; simpl; [done|]. intros [-> H]. split; [done|].
  rewrite Hf by (by left). apply IH; [|done]. intros y Hy. apply Hf. by right.
Qed.

(** The interface the derived key classes promise: keys are compared by an
    abstract key [key_of], and equal keys have equal hash values. *)
Class HashKeyEq {K : Type} `{!EqDecision K} (key_of : ptr -> K) : Prop := {
  cmp_spec : forall x y, HashCmp x y = 0 <-> key_of x = key_of y;
  hash_spec : forall x y, key_of x = key_of y -> HashValue x = HashValue y;
}.

Section laws.
Context {K : Type} `{!EqDecision K} (key_of : ptr -> K) `{!HashKeyEq key_of}.

Definition in_bucket (m i : Z) (x : ptr) : Prop := HashValue x mod m = i.
#[local] Instance in_bucket_dec m i x : Decision (in_bucket m i x) := Z.eq_dec _ _.

(** [M] are the keys of the table, the newest first. *)
Record rep (t : HashList) (s : gmap ptr HashKey) (M : list ptr) : Prop := {
  hr_buckets : exists b, hl_buckets t = Some b /\ alen b = hl_max t /\
    forall i, 0 <= i < hl_max t -> chain s (aget b i) (filter (in_bucket (hl_max t) i) M);
  hr_max : 0 < hl_max t;
  hr_nodup : NoDup M;
  hr_in : forall x, x ∈ M -> hk_hash (hkey s x) = HashValue x;
  hr_out : forall x, x ∉ M -> hk_hash (hkey s x) = 0 /\ hk_next (hkey s x) = None;
  hr_count : hl_count t = Z.of_nat (length M);
}.

(** The first key of [M] equal to [key]. *)
Fixpoint find_key (key : ptr) (M : list ptr) : option ptr :=
  match M with
  | [] => None
  | x :: M => if decide (key_of x = key_of key) then Some x else find_key key M
  end.
(** [M] without it. *)
Fixpoint drop_key (key : ptr) (M : list ptr) : list ptr :=
  match M with
  | [] => []
  | x :: M => if decide (key_of x = key_of key) then M else x :: drop_key key M
  end.

Lemma find_key_filter key m M : find_key key (filter (in_bucket m (HashValue key mod m)) M) = find_key key M.
Proof.
  induction M as [|x M IH]; [done|]. destruct (decide (in_bucket m (HashValue key mod m) x)) as [Hb|Hb].
  - rewrite filter_cons_True by done. simpl. by rewrite IH.
  - rewrite filter_cons_False by done. simpl. rewrite decide_False; [done|].
    intros E. apply Hb. unfold in_bucket. by rewrite (hash_spec _ _ E).
Qed.

Lemma find_loop_spec fuel s key item l :
  chain s item l -> (length l < fuel)%nat -> (forall x, x ∈ l -> hk_hash (hkey s x) = HashValue x) ->
  find_loop fuel s (HashValue key) key item = Some (find_key key l).
Proof.
  revert fuel item. induction l as [|x l IH]; intros [|fuel] item Hc Hf Hh; simpl in *; [lia|by subst|lia|].
  destruct Hc as [-> Hc]. rewrite Hh by (by left).
  assert (IH' : find_loop fuel s (HashValue key) key (hk_next (hkey s x)) = Some (find_key key l)).
  { apply IH; [done|lia|]. intros y Hy. apply Hh. by right. }
  destruct (Z.eqb_spec (HashValue x) (HashValue key)) as [E|E]; simpl.
  - destruct (Z.eqb_spec (HashCmp x key) 0) as [E2|E2].
    + by rewrite decide_True by (by apply cmp_spec).
    + rewrite decide_False; [done|]. by intros ?%cmp_spec.
  - rewrite decide_False; [done|]. by intros ?%hash_spec.
Qed.

Lemma bucket_range t s M k : rep t s M -> 0 <= HashValue k mod hl_max t < hl_max t.
Proof. intros R. apply Z.mod_pos_bound, R. Qed.

Lemma length_bucket t s M i : rep t s M -> (length (filter (in_bucket (hl_max t) i) M) <= length M)%nat.
Proof. intros _. apply length_filter. Qed.

Lemma HashFind_rep t s M key fuel :
  rep t s M -> (length M < fuel)%nat -> HashFind fuel t s (Some key) = Some (find_key key M).
Proof.
  intros R Hf. destruct (hr_buckets _ _ _ R) as (b & Hb & _ & Hc). unfold HashFind. rewrite Hb.
  rewrite (find_loop_spec _ _ _ _ _ (Hc _ (bucket_range t s M key R))).
  - by rewrite find_key_filter.
  - pose proof (length_bucket t s M (HashValue key mod hl_max t) R). lia.
  - intros x Hx. apply list_elem_of_filter in Hx as [_ Hx]. by apply (hr_in _ _ _ R).
Qed.

Lemma HashInsert_rep t s M key :
  rep t s M ->
  (key ∈ M -> HashValue key <> 0 -> HashInsert t s (Some key) = (-2, t, s)) /\
  (key ∉ M -> exists t' s', HashInsert t s (Some key) = (0, t', s') /\ rep t' s' (key :: M)).
Proof.
  intros R. destruct (hr_buckets _ _ _ R) as (b & Hb & Hlen & Hc). unfold HashInsert. rewrite Hb. split; intros Hk.
  - intros Hnz. rewrite (hr_in _ _ _ R) by done. by destruct (Z.eqb_spec (HashValue key) 0).
  - destruct (hr_out _ _ _ R key Hk) as [-> ->]. simpl. rewrite hkey_upd, decide_True by done. cbn [hk_hash set_hash].
    set (idx := HashValue key mod hl_max t). pose proof (bucket_range t s M key R) as Hidx. fold idx in Hidx.
    eexists _, _. split; [reflexivity|].
    set (s' := hupd key _ _).
    assert (Hs' : forall x, hkey s' x = if decide (key = x) then mkHashKey (aget b idx) (HashValue key) (hk_data (hkey s key)) else hkey s x).
    { intros x. unfold s'. rewrite !hkey_upd. repeat case_decide; subst; done. }
    split; simpl; try apply R.
    + exists (aset b idx (Some key)). split; [done|]. rewrite alen_aset. split; [done|]. intros i Hi.
      destruct (decide (i = idx)) as [-> | Hne].
      * rewrite filter_cons_True by done. rewrite aget_aset_eq by lia. simpl. split; [done|].
        rewrite Hs', decide_True by done. simpl. apply (chain_frame s); [|by apply Hc].
        intros x Hx. apply list_elem_of_filter in Hx as [_ Hx]. rewrite Hs', decide_False; [done|]. by intros ->.
      * rewrite filter_cons_False by (intros E; by apply Hne). rewrite aget_aset_ne by lia.
        apply (chain_frame s); [|by apply Hc].
        intros x Hx. apply list_elem_of_filter in Hx as [_ Hx]. rewrite Hs', decide_False; [done|]. by intros ->.
    + constructor; [done|apply R].
    + intros x [-> | Hx]%elem_of_cons; rewrite Hs'; [by rewrite decide_True|].
      case_decide; [by subst|by apply (hr_in _ _ _ R)].
    + intros x [Hx1 Hx2]%not_elem_of_cons. rewrite Hs', decide_False by done. by apply (hr_out _ _ _ R).
    + rewrite (hr_count _ _ _ R). lia.
Qed.

(** Unlinking [i] behind [p]. *)
Lemma chain_unlink s item pre p i l :
  NoDup (pre ++ p :: i :: l) -> chain s item (pre ++ p :: i :: l) ->
  chain (hupd p (set_next (hk_next (hkey s i))) s) item (pre ++ p :: l).
Proof.
  revert item. induction pre as [|x pre IH]; intros item Hnd Hc; simpl in *.
  - destruct Hc as (-> & _ & Hc). split; [done|]. rewrite hkey_upd, decide_True by done. simpl.
    apply (chain_frame s); [|done]. intros y Hy. rewrite hkey_upd. rewrite decide_False; [done|].
    intros ->. apply NoDup_cons_1_1 in Hnd. apply Hnd. by right.
  - destruct Hc as [-> Hc]. split; [done|]. rewrite hkey_upd, decide_False.
    + apply IH; [by apply NoDup_cons_1_2 in Hnd|done].
    + intros ->. apply NoDup_cons_1_1 in Hnd. apply Hnd, elem_of_app. right. by left.
Qed.

(** What removing the key found in a bucket does. *)
Record removed (b b' : list (option ptr)) (s s' : gmap ptr HashKey) (idx : Z) (i : ptr) (L : list ptr) : Prop := {
  rm_chain : chain s' (aget b' idx) L;
  rm_other : forall j, 0 <= j -> j <> idx -> aget b' j = aget b j;
  rm_len : alen b' = alen b;
  rm_self : hk_hash (hkey s' i) = 0 /\ hk_next (hkey s' i) = None;
  rm_hash : forall x, x <> i -> hk_hash (hkey s' x) = hk_hash (hkey s x);
  rm_next : forall x, x ∉ i :: L -> hk_next (hkey s' x) = hk_next (hkey s x);
}.

Lemma remove_loop_spec fuel t b s key idx pre prev item l :
  chain s (aget b idx) (pre ++ l) -> chain s item l -> prev = list.last pre ->
  NoDup (pre ++ l) -> (forall x, x ∈ l -> hk_hash (hkey s x) = HashValue x) ->
  (length l < fuel)%nat -> 0 <= idx < alen b ->
  match find_key key l with
  | None => remove_loop fuel t b s (HashValue key) key idx prev item = Some (t, s)
  | Some i => exists b' s', remove_loop fuel t b s (HashValue key) key idx prev item =
        Some (mkHashList (Some b') (hl_count t - 1) (hl_max t), s') /\
      i ∈ l /\ removed b b' s s' idx i (pre ++ drop_key key l)
  end.
Proof.
  revert fuel pre prev item. induction l as [|x l IH]; intros [|fuel] pre prev item Hc Hi Hp Hnd Hh Hf Hidx;
    simpl in *; [lia|by subst|lia|].
  destruct Hi as [-> Hi]. rewrite Hh by (by left).
  assert (Hcond : (HashValue x =? HashValue key) && (HashCmp x key =? 0) = bool_decide (key_of x = key_of key)).
  { destruct (bool_decide_reflect (key_of x = key_of key)) as [E|E].
    - apply andb_true_iff. split; [by apply Z.eqb_eq, hash_spec|by apply Z.eqb_eq, cmp_spec].
    - apply andb_false_iff. right. apply Z.eqb_neq. by intros ?%cmp_spec. }
  rewrite Hcond. destruct (decide (key_of x = key_of key)) as [E|E].
  - rewrite bool_decide_true by done.
    assert (Hx : x ∉ pre ++ l).
    { apply list.NoDup_app in Hnd as (_ & Hd & Hn). intros [Hx|Hx]%elem_of_app.
      - apply (Hd x Hx). by left.
      - by apply NoDup_cons_1_1 in Hn. }
    set (next := hk_next (hkey s x)).
    assert (Hfin : forall b1 s1, chain s1 (aget b1 idx) (pre ++ l) ->
      (forall j, 0 <= j -> j <> idx -> aget b1 j = aget b j) -> alen b1 = alen b ->
      (forall y, hk_hash (hkey s1 y) = hk_hash (hkey s y)) ->
      (forall y, y ∉ x :: pre ++ l -> hk_next (hkey s1 y) = hk_next (hkey s y)) ->
      removed b b1 s (hupd x (set_next None) (hupd x (set_hash 0) s1)) idx x (pre ++ l)).
    { intros b1 s1 H1 H2 H3 H4 H5. split; auto.
      - apply (chain_frame s1); [|done]. intros y Hy. rewrite !hkey_upd, !decide_False; [done|..]; by intros ->.
      - rewrite !hkey_upd, !decide_True by done. done.
      - intros y Hy. rewrite !hkey_upd, !decide_False by done. auto.
      - intros y Hy. rewrite !hkey_upd, !decide_False; auto; intros ->; apply Hy; by left. }
    destruct prev as [p|].
    + destruct pre as [|y pre' _] using rev_ind; [done|].
      rewrite last_snoc in Hp. injection Hp as ->. rewrite <- !app_assoc in Hc, Hnd. simpl in Hc, Hnd.
      eexists _, _. split; [reflexivity|]. split; [by left|]. apply Hfin.
      * rewrite <- app_assoc. simpl. by apply (chain_unlink s _ pre' y x l).
      * done.
      * done.
      * intros z. rewrite hkey_upd. destruct (decide (y = z)) as [<- | ?]; done.
      * intros z Hz. rewrite hkey_upd, decide_False; [done|]. intros ->. apply Hz. right.
        rewrite !elem_of_app. left. right. by left.
    + destruct pre as [|y pre' _] using rev_ind; [|by rewrite last_snoc in Hp]. simpl in *.
      eexists _, _. split; [reflexivity|]. split; [by left|]. apply Hfin; auto.
      * rewrite aget_aset_eq by lia. done.
      * intros j Hj Hne. apply aget_aset_ne; lia.
      * apply alen_aset.
  - rewrite bool_decide_false by done.
    replace (pre ++ x :: l) with ((pre ++ [x]) ++ l) in Hc, Hnd by (by rewrite <- app_assoc).
    specialize (IH fuel (pre ++ [x]) (Some x) (hk_next (hkey s x)) Hc Hi).
    rewrite last_snoc in IH. specialize (IH eq_refl Hnd (fun y Hy => Hh y (list_elem_of_further _ _ _ Hy)) ltac:(lia) Hidx).
    destruct (find_key key l) as [i|]; [|done].
    destruct IH as (b' & s' & E' & Hin & Hr). exists b', s'. split; [done|]. split; [by right|].
    by rewrite <- app_assoc in Hr.
Qed.

Lemma drop_key_filter key m M :
  drop_key key (filter (in_bucket m (HashValue key mod m)) M) = filter (in_bucket m (HashValue key mod m)) (drop_key key M).
Proof.
  induction M as [|x M IH]; [done|]. destruct (decide (in_bucket m (HashValue key mod m) x)) as [Hb|Hb].
  - rewrite filter_cons_True by done. simpl. case_decide; [done|]. by rewrite filter_cons_True, IH.
  - rewrite filter_cons_False by done. simpl. rewrite decide_False.
    + by rewrite filter_cons_False.
    + intros E. apply Hb. unfold in_bucket. by rewrite (hash_spec _ _ E).
Qed.

Lemma drop_key_other key m M j : j <> HashValue key mod m ->
  filter (in_bucket m j) (drop_key key M) = filter (in_bucket m j) M.
Proof.
  intros Hj. induction M as [|x M IH]; [done|]. simpl. case_decide as E.
  - rewrite filter_cons_False; [done|]. unfold in_bucket. rewrite (hash_spec _ _ E). congruence.
  - rewrite !filter_cons. by rewrite IH.
Qed.

Lemma drop_key_elem key M i : NoDup M -> find_key key M = Some i ->
  i ∈ M /\ forall x, x ∈ drop_key key M <-> x ∈ M /\ x <> i.
Proof.
  induction M as [|y M IH]; intros Hnd; simpl; [done|].
  pose proof (NoDup_cons_1_1 _ _ Hnd) as Hy. pose proof (NoDup_cons_1_2 _ _ Hnd) as Hnd'.
  case_decide as E.
  - intros [= ->]. split; [by left|]. intros x. rewrite elem_of_cons. split.
    + intros Hx. split; [by right|]. by intros ->.
    + by intros [[-> | ?] ?].
  - intros Hf. destruct (IH Hnd' Hf) as [Hi Hd]. split; [by right|]. intros x.
    rewrite !elem_of_cons, Hd. split; [|tauto].
    intros [-> | [? ?]]; [|tauto]. split; [by left|]. by intros ->.
Qed.

Lemma drop_key_nodup key M : NoDup M -> NoDup (drop_key key M).
Proof.
  induction M as [|y M IH]; intros Hnd; simpl; [done|].
  pose proof (NoDup_cons_1_1 _ _ Hnd) as Hy. pose proof (NoDup_cons_1_2 _ _ Hnd) as Hnd'. case_decide; [done|].
  constructor; [|auto]. destruct (find_key key M) as [i|] eqn:E.
  - rewrite (proj2 (drop_key_elem key M i Hnd' E)). tauto.
  - clear -E Hy. induction M as [|z M IH]; [done|]. simpl in *. case_decide; [done|].
    rewrite elem_of_cons in *. intros [?|?]; [tauto|]. apply IH; tauto.
Qed.

Lemma drop_key_length key M i : find_key key M = Some i -> length M = S (length (drop_key key M)).
Proof. induction M as [|y M IH]; simpl; [done|]. case_decide; [done|]. intros E. simpl. by rewrite <- IH. Qed.

Lemma drop_key_none key M : find_key key M = None -> drop_key key M = M.
Proof. induction M as [|y M IH]; simpl; [done|]. case_decide; [done|]. intros E. by rewrite IH. Qed.

Lemma HashRemove_rep t s M key fuel :
  rep t s M -> (length M < fuel)%nat ->
  exists t' s', HashRemove fuel t s (Some key) = Some (t', s') /\ rep t' s' (drop_key key M).
Proof.
  intros R Hf. destruct (hr_buckets _ _ _ R) as (b & Hb & Hlen & Hc). unfold HashRemove. rewrite Hb.
  set (idx := HashValue key mod hl_max t). pose proof (bucket_range t s M key R) as Hidx. fold idx in Hidx.
  set (L := filter (in_bucket (hl_max t) idx) M).
  assert (HndL : NoDup L) by (by apply list.NoDup_filter, R).
  pose proof (remove_loop_spec fuel t b s key idx [] None (aget b idx) L (Hc idx Hidx) (Hc idx Hidx) eq_refl HndL) as H.
  assert (Hfk : find_key key L = find_key key M) by apply find_key_filter. rewrite Hfk in H.
  specialize (H (fun x Hx => hr_in _ _ _ R x (proj2 (proj1 (list_elem_of_filter _ _ _) Hx)))).
  pose proof (length_bucket t s M idx R) as HlL. fold L in HlL. specialize (H ltac:(lia) ltac:(lia)).
  destruct (find_key key M) as [i|] eqn:E.
  2: { rewrite H. exists t, s. split; [done|]. by rewrite drop_key_none. }
  destruct H as (b' & s' & -> & HiL & [Hch Hoth Hl Hself Hhash Hnext]). simpl in Hch, Hnext.
  unfold L in Hch, Hnext. unfold idx in Hch, Hnext at 1. rewrite drop_key_filter in Hch. fold idx in Hch.
  destruct (drop_key_elem key M i (hr_nodup _ _ _ R) E) as [HiM Hd].
  eexists _, _. split; [reflexivity|].
  assert (Hib : in_bucket (hl_max t) idx i) by (by apply list_elem_of_filter in HiL as [? _]).
  assert (Hnx : forall x, in_bucket (hl_max t) idx x -> x <> i -> x ∉ M -> hk_next (hkey s' x) = hk_next (hkey s x)).
  { intros x _ Hx HxM. apply Hnext. rewrite not_elem_of_cons. split; [done|].
    rewrite drop_key_filter. intros Hin. apply list_elem_of_filter in Hin as [_ Hin]. apply Hd in Hin. tauto. }
  assert (Hnx2 : forall x, ~ in_bucket (hl_max t) idx x -> hk_next (hkey s' x) = hk_next (hkey s x)).
  { intros x Hx. apply Hnext. rewrite not_elem_of_cons. split; [by intros ->|].
    rewrite drop_key_filter. intros Hin. by apply list_elem_of_filter in Hin as [Hin _]. }
  split; simpl.
  - exists b'. split; [done|]. split; [lia|]. intros j Hj. destruct (decide (j = idx)) as [-> | Hne]; [done|].
    rewrite Hoth by lia. rewrite drop_key_other by done. apply (chain_frame s); [|by apply Hc].
    intros x Hx. apply list_elem_of_filter in Hx as [Hx _]. apply Hnx2. intros Hx'. apply Hne.
    unfold in_bucket in *. congruence.
  - apply R.
  - apply drop_key_nodup, R.
  - intros x Hx. apply Hd in Hx as [HxM Hxi]. rewrite Hhash by done. by apply (hr_in _ _ _ R).
  - intros x Hx. rewrite Hd in Hx. destruct (decide (x = i)) as [-> | Hxi]; [done|].
    assert (HxM : x ∉ M) by tauto. destruct (hr_out _ _ _ R x HxM) as [H1 H2].
    rewrite Hhash by done. split; [done|]. rewrite <- H2.
    destruct (decide (in_bucket (hl_max t) idx x)); [by apply Hnx|by apply Hnx2].
  - rewrite (hr_count _ _ _ R), (drop_key_length key M i E). lia.
Qed.

(** ** Sequences of operations *)

Inductive hash_op :=
| OpInsert (k : ptr)
| OpRemove (k : ptr)
| OpFind (k : ptr).

(** The result of an operation: a return code, nothing, or the key found. *)
Inductive hash_res :=
| RCode (z : Z)
| RVoid
| RFound (k : option ptr).

Definition run_op (fuel : nat) (ts : HashList * gmap ptr HashKey) (o : hash_op)
  : option (hash_res * (HashList * gmap ptr HashKey)) :=
  let '(t, s) := ts in
  match o with
  | OpInsert k => let '(r, t, s) := HashInsert t s (Some k) in Some (RCode r, (t, s))
  | OpRemove k => '(t, s) ← HashRemove fuel t s (Some k); Some (RVoid, (t, s))
  | OpFind k => r ← HashFind fuel t s (Some k); Some (RFound r, (t, s))
  end.
Fixpoint run_ops (fuel : nat) (ts : HashList * gmap ptr HashKey) (os : list hash_op)
  : option (list hash_res * (HashList * gmap ptr HashKey)) :=
  match os with
  | [] => Some ([], ts)
  | o :: os => '(r, ts) ← run_op fuel ts o; '(rs, ts) ← run_ops fuel ts os; Some (r :: rs, ts)
  end.

(** The specification: a stack of keys. *)
Definition spec_op (M : list ptr) (o : hash_op) : hash_res * list ptr :=
  match o with
  | OpInsert k => if decide (k ∈ M) then (RCode (-2), M) else (RCode 0, k :: M)
  | OpRemove k => (RVoid, drop_key k M)
  | OpFind k => (RFound (find_key k M), M)
  end.
Fixpoint spec_ops (M : list ptr) (os : list hash_op) : list hash_res * list ptr :=
  match os with
  | [] => ([], M)
  | o :: os => let '(r, M) := spec_op M o in let '(rs, M) := spec_ops M os in (r :: rs, M)
  end.

(** What callers owe: a key whose hash value is 0 - the stored value of a key that
    is in no table - is not inserted while it is in the table. *)
Fixpoint inserts_ok (M : list ptr) (os : list hash_op) : Prop :=
  match os with
  | [] => True
  | o :: os =>
      match o with OpInsert k => k ∈ M -> HashValue k <> 0 | _ => True end /\ inserts_ok (snd (spec_op M o)) os
  end.

Lemma length_drop_key key M : (length (drop_key key M) <= length M)%nat.
Proof. induction M as [|x M IH]; simpl; [lia|]. case_decide; simpl; lia. Qed.

Lemma run_op_rep fuel t s M o :
  rep t s M -> (length M < fuel)%nat -> match o with OpInsert k => k ∈ M -> HashValue k <> 0 | _ => True end ->
  exists t' s', run_op fuel (t, s) o = Some (fst (spec_op M o), (t', s')) /\ rep t' s' (snd (spec_op M o)) /\
    (length (snd (spec_op M o)) <= S (length M))%nat.
Proof.
  intros R Hf Ho. destruct o as [k|k|k]; cbn [run_op spec_op].
  - destruct (HashInsert_rep t s M k R) as [H1 H2]. destruct (decide (k ∈ M)) as [Hk|Hk]; cbn [fst snd].
    + rewrite (H1 Hk (Ho Hk)). exists t, s. auto with lia.
    + destruct (H2 Hk) as (t' & s' & -> & R'). exists t', s'. auto.
  - destruct (HashRemove_rep t s M k fuel R Hf) as (t' & s' & -> & R'). exists t', s'. simpl.
    pose proof (length_drop_key k M). auto with lia.
  - rewrite (HashFind_rep t s M k fuel R Hf). exists t, s. simpl. auto with lia.
Qed.

Lemma run_ops_rep fuel t s M os :
  rep t s M -> (length M + length os < fuel)%nat -> inserts_ok M os ->
  exists t' s', run_ops fuel (t, s) os = Some (fst (spec_ops M os), (t', s')) /\ rep t' s' (snd (spec_ops M os)).
Proof.
  revert t s M. induction os as [|o os IH]; intros t s M R Hf Ho; cbn [length] in Hf; cbn [run_ops spec_ops]; [by exists t, s|].
  destruct Ho as [Ho Hos]. destruct (run_op_rep fuel t s M o R ltac:(lia) Ho) as (t1 & s1 & -> & R1 & Hl). cbn [mbind option_bind].
  destruct (spec_op M o) as [r M1]. cbn [fst snd] in *.
  destruct (IH t1 s1 M1 R1 ltac:(lia) Hos) as (t2 & s2 & -> & R2). cbn [mbind option_bind].
  destruct (spec_ops M1 os) as [rs M2]. by exists t2, s2.
Qed.

Lemma new_HashList_rep max : rep (new_HashList max true) ∅ [].
Proof.
  set (m := GetMaxPrimeNum (if 2 <? max then max else 100000)).
  assert (Hm : 0 < m).
  { unfold m. destruct (Z.ltb_spec 2 max); [apply GetMaxPrimeNum_pos; lia|apply GetMaxPrimeNum_pos; lia]. }
  split; simpl; fold m.
  - exists (replicate (Z.to_nat m) None). split; [done|]. split; [unfold alen; rewrite length_replicate; lia|].
    intros i Hi. apply aget_replicate.
  - done.
  - constructor.
  - intros x Hx. by apply not_elem_of_nil in Hx.
  - done.
  - done.
Qed.

(** ** Walking the table *)

Lemma chain_items_spec fuel s item l :
  chain s item l -> (length l < fuel)%nat -> chain_items fuel s item = Some l.
Proof.
  revert fuel item. induction l as [|x l IH]; intros [|fuel] item Hc Hf; simpl in *; [lia|by subst|lia|].
  destruct Hc as [-> Hc]. by rewrite (IH fuel _ Hc ltac:(lia)).
Qed.

(** The keys of the buckets [i], ..., [i + n - 1]. *)
Fixpoint bucket_keys (m : Z) (n : nat) (i : Z) (M : list ptr) : list ptr :=
  match n with
  | O => []
  | S n => filter (in_bucket m i) M ++ bucket_keys m n (i + 1) M
  end.

Lemma foreach_loop_spec fuel n s b m M i :
  (forall j, i <= j < i + Z.of_nat n -> chain s (aget b j) (filter (in_bucket m j) M)) ->
  (length M < fuel)%nat -> foreach_loop fuel n s b i = Some (bucket_keys m n i M).
Proof.
  revert i. induction n as [|n IH]; intros i Hc Hf; simpl; [done|].
  pose proof (length_filter (in_bucket m i) M).
  rewrite (chain_items_spec _ _ _ _ (Hc i ltac:(lia))) by lia. simpl.
  by rewrite IH by (try (intros j Hj; apply Hc); lia).
Qed.

Lemma bucket_keys_count m n i M :
  bucket_keys m n i M ≡ₚ filter (fun x => i <= HashValue x mod m < i + Z.of_nat n) M.
Proof.
  revert i. induction n as [|n IH]; intros i; simpl.
  - induction M as [|x M IHM]; [done|]. rewrite filter_cons_False by lia. done.
  - rewrite IH. clear IH. induction M as [|x M IH]; [done|]. rewrite !filter_cons. unfold in_bucket at 1.
    repeat case_decide; try lia; simpl; try rewrite <- Permutation_middle; by rewrite IH.
Qed.

Lemma bucket_keys_perm m M : 0 < m -> bucket_keys m (Z.to_nat m) 0 M ≡ₚ M.
Proof.
  intros Hm. rewrite bucket_keys_count. induction M as [|x M IHM]; [done|].
  pose proof (Z.mod_pos_bound (HashValue x) m Hm). rewrite filter_cons_True by lia. by rewrite IHM.
Qed.

Lemma get_first_loop_spec n b i :
  get_first_loop n b i = None <-> forall j, i <= j < i + Z.of_nat n -> aget b j = None.
Proof.
  revert i. induction n as [|n IH]; intros i; simpl; [split; [intros _ j ?; lia|done]|].
  destruct (aget b i) as [p|] eqn:E.
  - split; [done|]. intros H. rewrite H in E by lia. done.
  - rewrite IH. split; intros H j Hj.
    + destruct (decide (j = i)) as [-> | ?]; [done|]. apply H. lia.
    + apply H. lia.
Qed.

Lemma HashForeach_rep t s M : rep t s M ->
  HashForeach (S (length M)) t s = Some (bucket_keys (hl_max t) (Z.to_nat (hl_max t)) 0 M) /\
  (HashGetFirst t = None <-> M = []).
Proof.
  intros R. destruct (hr_buckets _ _ _ R) as (b & Hb & _ & Hc). pose proof (hr_max _ _ _ R) as Hm. split.
  - unfold HashForeach. rewrite Hb. apply foreach_loop_spec; [|lia]. intros j Hj. apply Hc. lia.
  - unfold HashGetFirst. rewrite Hb, get_first_loop_spec. split.
    + intros H. destruct M as [|x M]; [done|]. exfalso.
      pose proof (bucket_range t s _ x R) as Hx. specialize (Hc _ Hx).
      rewrite filter_cons_True in Hc by done. destruct Hc as [Hc _]. rewrite H in Hc by lia. done.
    + intros -> j Hj. exact (Hc j ltac:(lia)).
Qed.

Lemma HashGetFirst_in t s M p : rep t s M -> HashGetFirst t = Some p -> p ∈ M.
Proof.
  intros R. destruct (hr_buckets _ _ _ R) as (b & Hb & _ & Hc). unfold HashGetFirst. rewrite Hb.
  pose proof (hr_max _ _ _ R) as Hm. assert (forall n i, 0 <= i -> i + Z.of_nat n = hl_max t -> get_first_loop n b i = Some p -> p ∈ M) as H.
  { induction n as [|n IH]; intros i Hi Hn; cbn [get_first_loop]; [done|]. pose proof (Hc i ltac:(lia)) as Hci.
    destruct (aget b i) as [q|]; [|apply IH; lia]. intros [= ->].
    destruct (filter _ M) as [|x l] eqn:Ef; [done|]. destruct Hci as [[= ->] _].
    assert (x ∈ x :: l) as Hx by (by left). rewrite <- Ef in Hx. by apply list_elem_of_filter in Hx as [_ Hx]. }
  apply H; lia.
Qed.

Lemma find_key_none key M : find_key key M = None <-> forall x, x ∈ M -> key_of x <> key_of key.
Proof.
  induction M as [|y M IH]; simpl; [split; [intros _ x Hx; by apply elem_of_nil in Hx|done]|]. case_decide as E.
  - split; [done|]. intros H. exfalso. apply (H y); [by left|done].
  - rewrite IH. split; intros H x Hx; [apply elem_of_cons in Hx as [->|Hx]; auto|apply H; by right].
Qed.
Lemma find_key_some key M x : find_key key M = Some x -> x ∈ M /\ key_of x = key_of key.
Proof.
  induction M as [|y M IH]; simpl; [done|]. case_decide as E; [intros [= ->]; split; [by left|done]|].
  intros H. destruct (IH H). split; [by right|done].
Qed.

(** C38: the hash table refines a stack of keys.  Starting from an empty table, any
    sequence of insertions, removals and lookups that inserts no key of hash value 0
    a second time returns what the same sequence returns on a list of keys with the
    newest first, for keys whose class compares them by some abstract key and hashes
    equal keys alike, to whatever value: an insertion of a key that
    is in the table returns -2 and changes nothing, a removal drops the newest
    equal key only, a lookup finds the newest equal key; every loop ends (a chain
    is walked within one step more than there are operations).  Afterwards
    [HashSize] is the number of keys, [HashForeach] visits each of them exactly
    once, and [HashGetFirst] is [NULL] only if there is none. *)
Theorem hash_table_refines_stack (max : Z) (os : list hash_op) (fuel : nat)
    (Hf : (length os < fuel)%nat) (Hos : inserts_ok [] os) :
  exists t s, run_ops fuel (new_HashList max true, ∅) os = Some (fst (spec_ops [] os), (t, s)) /\
    let M := snd (spec_ops [] os) in
    HashSize t = Z.of_nat (length M) /\
    (exists l, HashForeach (S (length M)) t s = Some l /\ l ≡ₚ M) /\
    (HashGetFirst t = None <-> M = []).
Proof.
  destruct (run_ops_rep fuel _ _ [] os (new_HashList_rep max) Hf Hos) as (t & s & -> & R).
  exists t, s. split; [done|]. cbn zeta. set (M := snd _) in *.
  split; [apply R|]. destruct (HashForeach_rep t s M R) as [HF HG]. split; [|done].
  eexists. split; [exact HF|]. apply bucket_keys_perm, R.
Qed.
End laws.
End hash.

(** [rep] looks at the hash values of the keys in the table only. *)
#[local] Existing Instance in_bucket_dec.
Lemma rep_agree hv hv' t s M : rep hv t s M -> (forall x, x ∈ M -> hv' x = hv x) -> rep hv' t s M.
Proof.
  intros [(b & H1 & H2 & H3) H4 H5 H6 H7 H8] Hh. split; auto.
  - exists b. split; [done|]. split; [done|]. intros i Hi. specialize (H3 i Hi). revert H3.
    assert (filter (in_bucket hv (hl_max t) i) M = filter (in_bucket hv' (hl_max t) i) M) as ->; [|done].
    clear -Hh. induction M as [|x M IH]; [done|]. rewrite !filter_cons, IH by (intros y Hy; apply Hh; by right).
    assert (hv' x = hv x) as Hx by (apply Hh; by left). unfold in_bucket.
    by repeat case_decide; rewrite ?Hx in *.
  - intros x Hx. rewrite Hh by done. auto.
Qed.

(** A class of keys for the examples: objects are equal when their numbers are
    equal modulo 8, and one class of them hashes to 0. *)
Definition demo_hash (p : ptr) : Z := Z.pos p mod 8.
Definition demo_cmp (x y : ptr) : Z := Z.pos x mod 8 - Z.pos y mod 8.
#[local] Instance demo_laws : HashKeyEq demo_hash demo_cmp (fun p => Z.pos p mod 8).
Proof.
  split; unfold demo_hash, demo_cmp; intros x y; [lia|by intros ->].
Qed.

Definition demo_ops : list hash_op :=
  [OpInsert 3%positive; OpInsert 11%positive; OpInsert 3%positive; OpFind 19%positive; OpRemove 3%positive;
   OpInsert 8%positive; OpFind 3%positive].

Lemma hash_table_refines_stack_witness :
  (length demo_ops < 8)%nat /\
  fst (spec_ops (fun p => Z.pos p mod 8) [] demo_ops) =
    [RCode 0; RCode 0; RCode (-2); RFound (Some 11%positive); RVoid; RCode 0; RFound (Some 3%positive)] /\
  exists t s, run_ops demo_hash demo_cmp 8 (new_HashList 5 true, ∅) demo_ops =
    Some (fst (spec_ops (fun p => Z.pos p mod 8) [] demo_ops), (t, s)) /\ HashSize t = 2.
Proof.
  split; [simpl; lia|]. split; [vm_compute; reflexivity|].
  destruct (hash_table_refines_stack demo_hash demo_cmp (fun p => Z.pos p mod 8) 5 demo_ops 8 ltac:(simpl; lia))
    as (t & s & E & H & _).
  { cbn. split_and!; try done; intros H; clear -H; set_solver. }
  exists t, s. split; [exact E|]. exact H.
Defined.

(** The number of buckets.  [GetMaxPrimeNum num] is a positive number up to
    [num] that is 1 or prime, and every prime between it and [num] is at most the
    square root of [num]: the number returned is the largest prime up to [num] as
    soon as it exceeds that root. *)
Theorem GetMaxPrimeNum_prime (num : Z) (H : 0 < num) :
  0 < GetMaxPrimeNum num <= num /\
  (GetMaxPrimeNum num = 1 \/ Znumtheory.prime (GetMaxPrimeNum num)) /\
  forall p, Znumtheory.prime p -> GetMaxPrimeNum num < p <= num -> p <= Z.sqrt num.
Proof.
  destruct (GetMaxPrimeNum_spec num H) as (H1 & H2 & H3). split; [done|]. split.
  - destruct (decide (GetMaxPrimeNum num = 1)); [by left|right]. apply (passes_prime num); [lia|done].
  - intros p Hp Hr. destruct (Z.le_gt_cases p (Z.sqrt num)) as [?|Hs]; [done|]. exfalso.
    apply (H3 p Hr). intros d Hd E. apply Znumtheory.prime_alt in Hp as [_ Hp].
    apply (Hp d); [lia|]. apply Z.mod_divide; [lia|done].
Qed.

Lemma GetMaxPrimeNum_prime_witness : GetMaxPrimeNum 1000 = 997 /\ Znumtheory.prime 997.
Proof.
  split; [vm_compute; reflexivity|].
  destruct (GetMaxPrimeNum_prime 1000 ltac:(lia)) as (_ & [E|E] & _).
  - exfalso. revert E. vm_compute. discriminate.
  - exact E.
Defined.

(** The guard of [HashInsert] against inserting a key twice tests the stored hash
    value and the link for zero, so it does not see a key that hashes to 0 and is
    alone in its bucket.  Inserting such a key a second time returns 0, counts it
    twice and links it to itself: looking up another key of that bucket never
    ends, whatever the number of steps. *)
Theorem HashInsert_zero_hash_cycle :
  let hash (p : ptr) : Z := Z.pos p - 1 in
  let cmp (x y : ptr) : Z := Z.pos x - Z.pos y in
  let '(r1, t1, s1) := HashInsert hash (new_HashList 3 true) ∅ (Some 1%positive) in
  let '(r2, t2, s2) := HashInsert hash t1 s1 (Some 1%positive) in
  r1 = 0 /\ r2 = 0 /\ HashSize t2 = 2 /\
  forall fuel, HashFind hash cmp fuel t2 s2 (Some 4%positive) = None.
Proof.
  cbv zeta. destruct (HashInsert _ (new_HashList 3 true) _ _) as [[r1 t1] s1] eqn:E1. vm_compute in E1.
  injection E1 as <- <- <-.
  destruct (HashInsert _ _ _ _) as [[r2 t2] s2] eqn:E2. vm_compute in E2. injection E2 as <- <- <-.
  split; [reflexivity|]. split; [reflexivity|]. split; [reflexivity|].
  intros fuel. unfold HashFind. cbn [hl_buckets hl_max].
  match goal with |- find_loop _ _ ?s ?h ?k ?i = None => assert (Hi : i = Some 1%positive) by (vm_compute; reflexivity) end.
  rewrite Hi. clear Hi.
  induction fuel as [|fuel IH]; [reflexivity|]. cbn [find_loop]. exact IH.
Qed.
