(* ===== verification/KeyTable.v ===== *)
(** * Tables by key

    What the clients of the hash table ([MtSession], [MbufPool], [NetData]) rely on: a
    finite map from keys to objects.  The objects belong to the client, whose virtual
    functions [HashValue] and [HashCmp] read the key fields; so each operation takes
    the current keys of all objects, [kf : ptr -> K].  A key object that the code
    builds on the stack to search with is given by its key.

    [KeyTable] are the operations, [KeyTableLaws] the promise; [HashList] keeps it. *)

From Stdlib Require Import ZArith Lia.
From stdpp Require Import base gmap list option fin_maps.
From S2P Require Import Prelude HashList.

(** The operations; [None] for a search that does not end. *)
Class KeyTable (K T : Type) := {
  kt_new : Z -> T;
  kt_find : (ptr -> K) -> T -> K -> option (option ptr);
  kt_insert : (ptr -> K) -> T -> ptr -> Z * T;
  kt_remove : (ptr -> K) -> T -> K -> option T;
  kt_first : T -> option ptr;
  kt_size : T -> Z;
}.

(** The promise: [kt_rep kf t m] says that table [t] holds the objects of the map
    [m], each under its key. *)
Class KeyTableLaws (K T : Type) `{!EqDecision K, !Countable K, !KeyTable K T}
    (kt_rep : (ptr -> K) -> T -> gmap K ptr -> Prop) : Prop := {
  kt_keys kf t m k p : kt_rep kf t m -> m !! k = Some p -> kf p = k;
  kt_agree kf kf' t m : kt_rep kf t m -> (forall k p, m !! k = Some p -> kf' p = kf p) -> kt_rep kf' t m;
  kt_new_ok kf max : kt_rep kf (kt_new max) ∅;
  kt_find_ok kf t m k : kt_rep kf t m -> kt_find kf t k = Some (m !! k);
  kt_insert_ok kf t m p : kt_rep kf t m -> m !! kf p = None ->
    exists t', kt_insert kf t p = (0, t') /\ kt_rep kf t' (<[kf p := p]> m);
  kt_remove_ok kf t m k : kt_rep kf t m -> exists t', kt_remove kf t k = Some t' /\ kt_rep kf t' (delete k m);
  kt_first_none kf t m : kt_rep kf t m -> kt_first t = None <-> m = ∅;
  kt_first_some kf t m p : kt_rep kf t m -> kt_first t = Some p -> m !! kf p = Some p;
  kt_size_ok kf t m : kt_rep kf t m -> kt_size t = Z.of_nat (size m);
}.

(** ** The hash table as a table by key *)

Section hash_table.
Context {K : Type} `{!EqDecision K, !Countable K} (hv : K -> Z) (cmp : K -> K -> Z).

(** The keys when the search key is an object at address [f]. *)
Definition with_key (kf : ptr -> K) (f : ptr) (k : K) (p : ptr) : K := if decide (p = f) then k else kf p.

Definition hash_of (kf : ptr -> K) (p : ptr) : Z := hv (kf p).
Definition cmp_of (kf : ptr -> K) (p q : ptr) : Z := cmp (kf p) (kf q).

(** The table with the base-class fields of all objects. *)
Definition hash_table : Type := HashList * gmap ptr HashKey.

(** The address of the object on the stack, and the fuel for a chain. *)
Definition stack_key (t : hash_table) : ptr := fresh (dom t.2 : gset ptr).
Definition chain_fuel (t : hash_table) : nat := S (Z.to_nat (hl_count t.1)).

Definition table_find (kf : ptr -> K) (t : hash_table) (k : K) : option (option ptr) :=
  let f := stack_key t in let kf := with_key kf f k in
  HashFind (hash_of kf) (cmp_of kf) (chain_fuel t) t.1 t.2 (Some f).
Definition table_insert (kf : ptr -> K) (t : hash_table) (p : ptr) : Z * hash_table :=
  let '(r, h, s) := HashInsert (hash_of kf) t.1 t.2 (Some p) in (r, (h, s)).
Definition table_remove (kf : ptr -> K) (t : hash_table) (k : K) : option hash_table :=
  let f := stack_key t in let kf := with_key kf f k in
  HashRemove (hash_of kf) (cmp_of kf) (chain_fuel t) t.1 t.2 (Some f).

#[export] Instance HashList_KeyTable : KeyTable K hash_table := {
  kt_new max := (new_HashList max true, ∅);
  kt_find := table_find;
  kt_insert := table_insert;
  kt_remove := table_remove;
  kt_first t := HashGetFirst t.1;
  kt_size t := HashSize t.1;
}.

(** What the key class has to satisfy: [HashCmp] is 0 on equal keys only. *)
Class CmpLaw : Prop := cmp_law x y : cmp x y = 0 <-> x = y.
Context `{!CmpLaw}.

#[local] Instance key_eq kf : HashKeyEq (hash_of kf) (cmp_of kf) kf.
Proof. split; unfold hash_of, cmp_of; [intros x y; apply cmp_law|intros x y ->; done]. Qed.

(** The keys of the table are the objects [M], with different keys. *)
Record table_rep (kf : ptr -> K) (t : hash_table) (m : gmap K ptr) : Prop := {
  tr_rep : exists M, rep (hash_of kf) t.1 t.2 M /\ (forall x, x ∈ M <-> m !! kf x = Some x) /\ length M = size m;
  tr_keys : forall k p, m !! k = Some p -> kf p = k;
  tr_dom : forall k p, m !! k = Some p -> p ∈ dom t.2;
}.

Lemma find_key_map kf (m : gmap K ptr) (M : list ptr) k f : (forall k p, m !! k = Some p -> kf p = k) ->
  (forall x, x ∈ M <-> m !! kf x = Some x) -> f ∉ M -> find_key (with_key kf f k) f M = m !! k.
Proof.
  intros Hk HM Hf. assert (Hw : forall x, x ∈ M -> with_key kf f k x = kf x).
  { intros x Hx. unfold with_key. rewrite decide_False; [done|]. by intros ->. }
  assert (Hwf : with_key kf f k f = k) by (unfold with_key; by rewrite decide_True).
  destruct (find_key _ _ _) as [x|] eqn:E.
  - apply find_key_some in E as [Hx E]. rewrite Hw, Hwf in E by done. subst k. symmetry. by apply HM.
  - destruct (m !! k) as [p|] eqn:Ek; [|done]. rewrite find_key_none in E. pose proof (Hk _ _ Ek) as Hp.
    assert (p ∈ M) as HpM by (apply HM; by rewrite Hp). destruct (E p HpM). by rewrite Hw, Hwf by done.
Qed.

Lemma stack_key_out kf t m (M : list ptr) : table_rep kf t m -> (forall x, x ∈ M <-> m !! kf x = Some x) -> stack_key t ∉ M.
Proof. intros R HM Hin. apply HM, (tr_dom _ _ _ R) in Hin. by apply (is_fresh (dom t.2 : gset ptr)) in Hin. Qed.

Lemma rep_with_key kf t m M k : table_rep kf t m -> rep (hash_of kf) t.1 t.2 M ->
  (forall x, x ∈ M <-> m !! kf x = Some x) -> rep (hash_of (with_key kf (stack_key t) k)) t.1 t.2 M.
Proof.
  intros R HR HM. apply (rep_agree (hash_of kf)); [done|]. intros x Hx. unfold hash_of, with_key.
  rewrite decide_False; [done|]. intros ->. by apply (stack_key_out _ _ _ _ R HM) in Hx.
Qed.

Lemma chain_fuel_ok hf t M : rep hf t.1 t.2 M -> (length M < chain_fuel t)%nat.
Proof. intros R. unfold chain_fuel. rewrite (hr_count _ _ _ _ R). lia. Qed.

Lemma table_find_ok kf t m k : table_rep kf t m -> table_find kf t k = Some (m !! k).
Proof.
  intros R. destruct (tr_rep _ _ _ R) as (M & HR & HM & Hl). unfold table_find.
  rewrite (HashFind_rep _ _ (with_key kf (stack_key t) k) _ _ M).
  - f_equal. apply find_key_map; [apply R|done|]. by apply (stack_key_out kf t m).
  - by eapply rep_with_key.
  - by eapply chain_fuel_ok.
Qed.

Lemma HashInsert_dom hf (h h' : HashList) s s' r p : HashInsert hf h s (Some p) = (r, h', s') ->
  dom s ⊆ dom s' /\ (r = 0 -> p ∈ dom s').
Proof.
  unfold HashInsert. destruct (hl_buckets h); [|by intros [= <- <- <-]].
  case_match; intros [= <- <- <-]; [done|]. unfold hupd. rewrite !dom_insert. set_solver.
Qed.

Lemma remove_loop_dom cf fuel h b s hash key idx prev item h' s' :
  remove_loop cf fuel h b s hash key idx prev item = Some (h', s') -> dom s ⊆ dom s'.
Proof.
  revert prev item. induction fuel as [|fuel IH]; intros prev item; [done|].
  cbn [remove_loop]. destruct item as [i|]; [|by intros [= <- <-]]. case_match; [|apply IH].
  destruct prev as [q|]; intros [= <- <-]; unfold hupd; rewrite !dom_insert; set_solver.
Qed.

Lemma HashRemove_dom hf cf fuel (h h' : HashList) s s' key : HashRemove hf cf fuel h s key = Some (h', s') ->
  dom s ⊆ dom s'.
Proof.
  unfold HashRemove. destruct key; [|by intros [= <- <-]]. destruct (hl_buckets h); [|by intros [= <- <-]].
  apply remove_loop_dom.
Qed.

Lemma table_insert_ok kf t m p : table_rep kf t m -> m !! kf p = None ->
  exists t', table_insert kf t p = (0, t') /\ table_rep kf t' (<[kf p := p]> m).
Proof.
  intros R Hp. destruct (tr_rep _ _ _ R) as (M & HR & HM & Hl). unfold table_insert.
  assert (HpM : p ∉ M) by (rewrite HM; congruence).
  destruct (HashInsert_rep (hash_of kf) t.1 t.2 M p HR) as [_ Hi].
  destruct (Hi HpM) as (h & s & E & HR'). rewrite E. apply HashInsert_dom in E as [Hd Hpd].
  exists (h, s). split; [done|]. assert (Hne : forall k q, m !! k = Some q -> k <> kf p) by congruence.
  split; cbn [fst snd].
  - exists (p :: M). split; [done|]. rewrite map_size_insert_None by done. split; [|simpl; lia].
    intros x. rewrite elem_of_cons, HM. split.
    + intros [->|Hx]; [by rewrite lookup_insert_eq|]. by rewrite lookup_insert_ne by (intros E; by destruct (Hne _ _ Hx)).
    + rewrite lookup_insert_Some. intros [[_ ->]|[_ ?]]; auto.
  - intros k q. rewrite lookup_insert_Some. intros [[<- <-]|[_ ?]]; [done|by apply (tr_keys _ _ _ R)].
  - intros k q. rewrite lookup_insert_Some. intros [[<- <-]|[_ Hq]]; [auto|]. by apply Hd, (tr_dom _ _ _ R _ _ Hq).
Qed.

Lemma table_remove_ok kf t m k : table_rep kf t m -> exists t', table_remove kf t k = Some t' /\ table_rep kf t' (delete k m).
Proof.
  intros R. destruct (tr_rep _ _ _ R) as (M & HR & HM & Hl). unfold table_remove. set (kx := with_key _ _ _).
  pose proof (stack_key_out _ _ _ _ R HM) as Hf. pose proof (rep_with_key _ _ _ _ k R HR HM) as HRx. fold kx in HRx.
  destruct (HashRemove_rep (hash_of kx) (cmp_of kx) kx t.1 t.2 M (stack_key t) (chain_fuel t) HRx)
    as (h & s & E & HR'); [by eapply chain_fuel_ok|].
  rewrite E. pose proof (HashRemove_dom _ _ _ _ _ _ _ _ E) as Hd. exists (h, s). split; [done|].
  pose proof (find_key_map kf m M k _ (tr_keys _ _ _ R) HM Hf) as Hfk. fold kx in Hfk.
  assert (Hin : forall x, x ∈ drop_key kx (stack_key t) M <-> delete k m !! kf x = Some x).
  { intros x. rewrite lookup_delete_Some. destruct (m !! k) as [p|] eqn:Ek.
    - destruct (drop_key_elem kx _ M p (hr_nodup _ _ _ _ HR) Hfk) as [HpM ->]. rewrite HM.
      pose proof (tr_keys _ _ _ R _ _ Ek) as Hp. split; intros [H1 H2]; split; [| done | done |].
      + intros Ex. rewrite <- Ex, Ek in H1. by injection H1.
      + intros Ex. congruence.
    - rewrite (drop_key_none _ _ _ Hfk), HM. split; [|tauto]. intros Hx. split; [congruence|done]. }
  split; cbn [fst snd].
  - exists (drop_key kx (stack_key t) M). split; [|split; [done|]].
    + apply (rep_agree (hash_of kx)); [done|]. intros x Hx. unfold hash_of, kx, with_key. rewrite decide_False; [done|].
      intros ->. apply Hin, lookup_delete_Some in Hx as [_ Hx]. by apply HM in Hx.
    + destruct (m !! k) as [p|] eqn:Ek.
      * pose proof (drop_key_length kx _ _ _ Hfk). rewrite map_size_delete, Ek. lia.
      * by rewrite (drop_key_none _ _ _ Hfk), delete_id.
  - intros k' p [_ ?]%lookup_delete_Some. by apply (tr_keys _ _ _ R).
  - intros k' p [_ Hp]%lookup_delete_Some. by apply Hd, (tr_dom _ _ _ R _ _ Hp).
Qed.

#[export] Instance HashList_KeyTableLaws : KeyTableLaws K hash_table table_rep.
Proof.
  split.
  - intros kf t m k p R. apply R.
  - intros kf kf' t m R Hk. destruct (tr_rep _ _ _ R) as (M & HR & HM & Hl).
    assert (HkM : forall x, x ∈ M -> kf' x = kf x) by (intros x Hx; by eapply Hk, HM).
    split; [|intros k p Hp; rewrite (Hk _ _ Hp); by apply R|apply R].
    exists M. split; [|split; [|done]].
    + apply (rep_agree (hash_of kf)); [done|]. intros x Hx. unfold hash_of. by rewrite HkM.
    + intros x. split; [intros Hx; rewrite HkM by done; by apply HM|]. intros Hx. apply HM.
      by rewrite <- (Hk _ _ Hx).
  - intros kf max. split; [|done|done]. exists []. split; [apply new_HashList_rep|]. split; [|done].
    intros x. by rewrite elem_of_nil, lookup_empty.
  - intros kf t m k. apply table_find_ok.
  - intros kf t m p. apply table_insert_ok.
  - intros kf t m k. apply table_remove_ok.
  - intros kf t m R. destruct (tr_rep _ _ _ R) as (M & HR & HM & Hl). cbn [kt_first HashList_KeyTable].
    rewrite (proj2 (HashForeach_rep _ _ _ _ HR)). rewrite <- map_size_empty_iff, <- Hl. by destruct M.
  - intros kf t m p R Hp. destruct (tr_rep _ _ _ R) as (M & HR & HM & Hl). apply HM. by eapply HashGetFirst_in.
  - intros kf t m R. destruct (tr_rep _ _ _ R) as (M & HR & HM & Hl). cbn [kt_size HashList_KeyTable].
    unfold HashSize. rewrite (hr_count _ _ _ _ HR). by rewrite Hl.
Qed.
End hash_table.
