(* ===== verification/MtSession.v ===== *)
(** * Sessions of the micro-thread actions

    Models [mt_session.h] and [mt_session.cpp] of [src/src/sync_frame/micro_thread]:
    an [ISession] ties a session number to a waiting thread and its connection; the
    manager hands out the numbers and finds the session of an answer.  The manager
    is proved against the interface [KeyTable] of the hash table. *)

From Stdlib Require Import ZArith Lia.
From stdpp Require Import base gmap list option fin_maps.
From S2P Require Import Prelude HashList KeyTable.

Definition SESSION_IDLE : Z := 0.
Definition SESSION_INUSE : Z := 1.

(** [class ISession], less the fields of [HashKey]. *)
Record ISession := mkISession {
  is_id : Z;
  is_flg : Z;
  is_thread : option ptr;
  is_conn : option ptr;
}.
Definition new_ISession : ISession := mkISession 0 0 None None.

(** [ISession::HashValue] and [HashCmp]; the cast in [HashCmp] gives back the other
    object's number. *)
Definition session_hash (id : Z) : Z := u32 id.
Definition session_cmp (a b : Z) : Z := a - b.
#[export] Instance session_cmp_law : CmpLaw session_cmp.
Proof. intros x y. unfold session_cmp. lia. Qed.

Section session.
Context {T : Type} `{!KeyTable Z T}.

(** [class SessionMgr] with the session objects that exist. *)
Record SessionMgr := mkSessionMgr {
  sm_objs : gmap ptr ISession;
  sm_curr_session : Z;
  sm_hash_map : option T;
}.
Implicit Types (m : SessionMgr).

Definition set_objs o m : SessionMgr := mkSessionMgr o (sm_curr_session m) (sm_hash_map m).
Definition set_map (t : T) m : SessionMgr := mkSessionMgr (sm_objs m) (sm_curr_session m) (Some t).
Definition upd_session (p : ptr) (f : ISession -> ISession) m : option SessionMgr :=
  s ← sm_objs m !! p; Some (set_objs (<[p := f s]> (sm_objs m)) m).

(** The key of an object. *)
Definition session_key (o : gmap ptr ISession) (p : ptr) : Z := is_id (default new_ISession (o !! p)).

(** The constructors. *)
Definition new_SessionMgr : SessionMgr := mkSessionMgr ∅ 0 (Some (kt_new 100000)).
Definition new_session (p : ptr) m : SessionMgr := set_objs (<[p := new_ISession]> (sm_objs m)) m.

Definition SetSessionId (id : Z) (s : ISession) : ISession := mkISession id (is_flg s) (is_thread s) (is_conn s).
Definition SetSessionFlag (f : Z) (s : ISession) : ISession := mkISession (is_id s) f (is_thread s) (is_conn s).
Definition SetOwnerThread (t : option ptr) (s : ISession) : ISession := mkISession (is_id s) (is_flg s) t (is_conn s).
Definition SetSessionConn (c : option ptr) (s : ISession) : ISession := mkISession (is_id s) (is_flg s) (is_thread s) c.

(** [GetSessionId].  The counter is an [int] taken to wrap in 32 bits, as the test
    for 0 behind the increment expects. *)
Definition GetSessionId m : Z * SessionMgr :=
  let c := i32 (sm_curr_session m + 1) in
  let c := if c =? 0 then i32 (c + 1) else c in
  (c, mkSessionMgr (sm_objs m) c (sm_hash_map m)).

(** [InsertSession] *)
Definition InsertSession (session : option ptr) m : option (Z * SessionMgr) :=
  match sm_hash_map m, session with
  | Some t, Some p =>
      s ← sm_objs m !! p;
      if negb (Z.land (is_flg s) SESSION_INUSE =? 0) then Some (-200, m)
      else
        m ← upd_session p (SetSessionFlag SESSION_INUSE) m;
        let '(r, t) := kt_insert (session_key (sm_objs m)) t p in
        Some (r, set_map t m)
  | _, _ => Some (-100, m)
  end.

(** [FindSession] *)
Definition FindSession (session_id : Z) m : option (option ptr) :=
  match sm_hash_map m with
  | None => Some None
  | Some t => kt_find (session_key (sm_objs m)) t session_id
  end.

(** [RemoveSession] *)
Definition RemoveSession (session_id : Z) m : option SessionMgr :=
  match sm_hash_map m with
  | None => Some m
  | Some t => t ← kt_remove (session_key (sm_objs m)) t session_id; Some (set_map t m)
  end.

(** [~ISession], then the object is gone. *)
Definition delete_session (p : ptr) m : option SessionMgr :=
  s ← sm_objs m !! p;
  m ← (if is_flg s =? 0 then Some m
       else m ← RemoveSession (is_id s) m; upd_session p (SetSessionFlag SESSION_IDLE) m);
  Some (set_objs (delete p (sm_objs m)) m).

(** The session part of [IMtAction::InitConnEnv]: the action object [p] becomes a
    session of the thread with the connection. *)
Definition open_session (p : ptr) (thread conn : option ptr) m : option (Z * Z * SessionMgr) :=
  let m := new_session p m in
  m ← upd_session p (SetOwnerThread thread) m;
  m ← upd_session p (SetSessionConn conn) m;
  let '(id, m) := GetSessionId m in
  m ← upd_session p (SetSessionId id) m;
  '(r, m) ← InsertSession (Some p) m;
  Some (id, r, m).

(** ** Numbers *)

(** The [k]-th number handed out, from 1: numbers wrap and skip 0. *)
Definition sid (k : Z) : Z := i32 ((k - 1) mod (2 ^ 32 - 1) + 1).

Lemma sid_nonzero k : sid k <> 0.
Proof.
  unfold sid, i32. pose proof (Z.mod_pos_bound (k - 1) (2 ^ 32 - 1) ltac:(lia)).
  rewrite !(Z.mod_small (_ + 1)) by lia. case_match; lia.
Qed.

Lemma i32_u32 z : i32 z mod 2 ^ 32 = z mod 2 ^ 32.
Proof.
  unfold i32. case_match; [by rewrite Z.mod_mod|].
  rewrite <- (Z.mod_add (_ - _) 1), Z.mul_1_l, Z.sub_add by lia. by rewrite Z.mod_mod.
Qed.

Lemma mod_close a b q : 0 < q -> a mod q = b mod q -> Z.abs (a - b) < q -> a = b.
Proof.
  intros Hq E H. pose proof (Z.div_mod a q ltac:(lia)). pose proof (Z.div_mod b q ltac:(lia)).
  assert (Ed : q * (a / q - b / q) = a - b) by lia. assert (a / q - b / q = 0) by nia. lia.
Qed.

Lemma sid_inj k k' : sid k = sid k' -> Z.abs (k - k') < 2 ^ 32 - 1 -> k = k'.
Proof.
  intros E H. assert (k - 1 = k' - 1); [|lia]. apply (mod_close _ _ (2 ^ 32 - 1)); [lia| |lia].
  pose proof (Z.mod_pos_bound (k - 1) (2 ^ 32 - 1) ltac:(lia)).
  pose proof (Z.mod_pos_bound (k' - 1) (2 ^ 32 - 1) ltac:(lia)).
  apply (f_equal (fun z => z mod 2 ^ 32)) in E. unfold sid in E.
  rewrite !i32_u32, !(Z.mod_small (_ + 1)) in E by lia. lia.
Qed.

Definition curr_of (n : Z) : Z := if n =? 0 then 0 else sid n.

Lemma GetSessionId_sid m n : 0 <= n -> sm_curr_session m = curr_of n ->
  GetSessionId m = (sid (n + 1), mkSessionMgr (sm_objs m) (sid (n + 1)) (sm_hash_map m)).
Proof.
  intros Hn E. unfold GetSessionId. rewrite E.
  assert ((if i32 (curr_of n + 1) =? 0 then i32 (i32 (curr_of n + 1) + 1) else i32 (curr_of n + 1)) = sid (n + 1)) as ->;
    [|done].
  unfold curr_of. destruct (Z.eqb_spec n 0) as [->|Hn0]; [reflexivity|].
  unfold sid. replace (n + 1 - 1) with (n - 1 + 1) by lia.
  pose proof (Z.mod_pos_bound (n - 1) (2 ^ 32 - 1)) as Hb. specialize (Hb ltac:(lia)).
  rewrite (Z.add_mod (n - 1) 1 (2 ^ 32 - 1)) by lia. revert Hb. generalize ((n - 1) mod (2 ^ 32 - 1)). intros r Hb.
  rewrite (Z.mod_small 1) by lia.
  destruct (decide (r = 2 ^ 32 - 2)) as [->|?]; [reflexivity|].
  rewrite (Z.mod_small (r + 1)) by lia. 
  assert (H1 : forall z, 0 <= z < 2 ^ 32 -> i32 z = if z <? 2 ^ 31 then z else z - 2 ^ 32).
  { intros z Hz. unfold i32. by rewrite Z.mod_small. }
  rewrite (H1 (r + 1)), (H1 (r + 1 + 1)) by lia.
  destruct (Z.ltb_spec (r + 1) (2 ^ 31)); destruct (Z.ltb_spec (r + 1 + 1) (2 ^ 31)); try lia.
  - rewrite (i32_small (r + 1 + 1)) by lia. destruct (Z.eqb_spec (r + 1 + 1) 0); lia.
  - assert (r = 2 ^ 31 - 2) as -> by lia. reflexivity.
  - replace (r + 1 - 2 ^ 32 + 1) with (r + 1 + 1 - 2 ^ 32) by lia. rewrite (i32_small (_ - 2 ^ 32)) by lia.
    destruct (Z.eqb_spec (r + 1 + 1 - 2 ^ 32) 0); [lia|done].
Qed.

(** ** Sessions as a map *)

Inductive session_op :=
| SOpen (p : ptr) (thread conn : option ptr)
| SFind (id : Z)
| SClose (p : ptr).
Inductive session_res :=
| ROpened (id r : Z)
| RSession (p : option ptr)
| RClosed.

Definition run_session_op (o : session_op) m : option (session_res * SessionMgr) :=
  match o with
  | SOpen p th c => '(id, r, m) ← open_session p th c m; Some (ROpened id r, m)
  | SFind id => r ← FindSession id m; Some (RSession r, m)
  | SClose p => m ← delete_session p m; Some (RClosed, m)
  end.
Fixpoint run_session_ops (os : list session_op) m : option (list session_res * SessionMgr) :=
  match os with
  | [] => Some ([], m)
  | o :: os => '(r, m) ← run_session_op o m; '(rs, m) ← run_session_ops os m; Some (r :: rs, m)
  end.

(** The specification: how many sessions were opened, and the open ones by number. *)
Definition sess_spec : Type := Z * gmap Z ptr.
Definition spec_session_op (o : session_op) (s : sess_spec) : session_res * sess_spec :=
  let '(n, live) := s in
  match o with
  | SOpen p _ _ => (ROpened (sid (n + 1)) 0, (n + 1, <[sid (n + 1) := p]> live))
  | SFind id => (RSession (live !! id), s)
  | SClose p => (RClosed, (n, filter (fun kp => kp.2 <> p) live))
  end.
Fixpoint spec_session_ops (os : list session_op) (s : sess_spec) : list session_res * sess_spec :=
  match os with
  | [] => ([], s)
  | o :: os => let '(r, s) := spec_session_op o s in let '(rs, s) := spec_session_ops os s in (r :: rs, s)
  end.

(** Sessions are opened at unused addresses, and open sessions are closed: [open]
    are those, each with the count of its opening, [n] were opened so far.  No
    session stays open while 2^32 - 1 others are opened after it. *)
Definition shut_session (p : ptr) (open : list (ptr * Z)) : list (ptr * Z) := filter (fun q => q.1 <> p) open.
Fixpoint session_ops_ok (os : list session_op) (n : Z) (open : list (ptr * Z)) : Prop :=
  match os with
  | [] => True
  | SOpen p _ _ :: os =>
      (p ∉ open.*1) /\ (forall q k, (q, k) ∈ open -> n + 1 - k < 2 ^ 32 - 1) /\ session_ops_ok os (n + 1) ((p, n + 1) :: open)
  | SFind _ :: os => session_ops_ok os n open
  | SClose p :: os => (p ∈ open.*1) /\ session_ops_ok os n (shut_session p open)
  end.

(** Every number given out is other than 0 and free. *)
Fixpoint fresh_numbers (os : list session_op) (s : sess_spec) : Prop :=
  match os with
  | [] => True
  | o :: os =>
      match o with SOpen _ _ _ => sid (s.1 + 1) <> 0 /\ s.2 !! sid (s.1 + 1) = None | _ => True end /\
      fresh_numbers os (spec_session_op o s).2
  end.

Section laws.
Context (kt_rep : (ptr -> Z) -> T -> gmap Z ptr -> Prop) `{!KeyTableLaws Z T kt_rep}.

(** The manager holds the sessions [live]; [n] were opened so far. *)
Record session_inv m (n : Z) (live : gmap Z ptr) (open : list (ptr * Z)) : Prop := {
  si_curr : sm_curr_session m = curr_of n;
  si_n : 0 <= n;
  si_rep : exists t, sm_hash_map m = Some t /\ kt_rep (session_key (sm_objs m)) t live;
  si_obj p : p ∈ open.*1 -> exists s, sm_objs m !! p = Some s /\ is_flg s = SESSION_INUSE /\ live !! is_id s = Some p;
  si_num id p : live !! id = Some p -> exists k, (p, k) ∈ open /\ id = sid k;
  si_open p k : (p, k) ∈ open -> 0 < k <= n;
}.

Lemma session_key_insert o p s q : session_key (<[p := s]> o) q = if decide (p = q) then is_id s else session_key o q.
Proof. unfold session_key. rewrite lookup_insert. by case_decide. Qed.

Lemma new_session_inv : session_inv new_SessionMgr 0 ∅ [].
Proof.
  split; simpl; try done.
  - eexists. split; [done|]. apply kt_new_ok.
  - intros p Hp. by apply elem_of_nil in Hp.
  - intros p k Hp. by apply elem_of_nil in Hp.
Qed.

Lemma si_live m n live open id p : session_inv m n live open -> live !! id = Some p -> p ∈ open.*1.
Proof. intros I (k & Hk & _)%(si_num _ _ _ _ I). apply list_elem_of_fmap. by exists (p, k). Qed.

Lemma next_number_free m n live open : session_inv m n live open ->
  (forall q k, (q, k) ∈ open -> n + 1 - k < 2 ^ 32 - 1) -> live !! sid (n + 1) = None.
Proof.
  intros I Hb. destruct (live !! sid (n + 1)) as [q|] eqn:E; [|done]. destruct (si_num _ _ _ _ I _ _ E) as (k & Hk & Hs).
  pose proof (si_open _ _ _ _ I _ _ Hk). pose proof (Hb q k Hk). apply sid_inj in Hs; lia.
Qed.

Lemma open_session_ok m n live open p th c : session_inv m n live open -> p ∉ open.*1 ->
  (forall q k, (q, k) ∈ open -> n + 1 - k < 2 ^ 32 - 1) ->
  exists m', open_session p th c m = Some (sid (n + 1), 0, m') /\
    session_inv m' (n + 1) (<[sid (n + 1) := p]> live) ((p, n + 1) :: open).
Proof.
  intros I Hp Hb. pose proof (next_number_free _ _ _ _ I Hb) as Hfree. pose proof (fun id q => si_live _ _ _ _ id q I) as Hl.
  destruct I as [Hc Hn (t & Ht & R) Ho Hnum Hk0]. unfold open_session, upd_session, new_session.
  repeat (cbn [sm_objs set_objs]; rewrite lookup_insert_eq; cbn [mbind option_bind]).
  rewrite (GetSessionId_sid _ n) by done. repeat (cbn [sm_objs set_objs]; rewrite lookup_insert_eq; cbn [mbind option_bind]).
  unfold InsertSession, upd_session. cbn [sm_hash_map set_objs sm_objs]. rewrite Ht, lookup_insert_eq. cbn [mbind option_bind].
  change (negb _) with false. cbn [negb]. rewrite !insert_insert_eq. cbn [sm_objs set_objs].
  set (s := SetSessionFlag _ _). set (o := <[p := s]> (sm_objs m)).
  assert (Hpl : forall id, live !! id <> Some p) by (intros id Hid; by destruct Hp; eapply Hl).
  assert (R' : kt_rep (session_key o) t live).
  { eapply kt_agree; [exact R|]. intros id q Hq. unfold o. rewrite session_key_insert, decide_False; [done|].
    intros ->. by destruct (Hpl id). }
  assert (Hk : session_key o p = sid (n + 1)) by (unfold o; by rewrite session_key_insert, decide_True).
  destruct (kt_insert_ok _ t live p R') as (t' & -> & Rt'); [by rewrite Hk|]. rewrite Hk in Rt'.
  eexists. split; [reflexivity|]. split; cbn [sm_curr_session sm_hash_map sm_objs set_map set_objs].
  - unfold curr_of. by rewrite (proj2 (Z.eqb_neq (n + 1) 0)) by lia.
  - lia.
  - by exists t'.
  - intros q. rewrite fmap_cons, elem_of_cons. cbn [fst]. unfold o. destruct (decide (p = q)) as [<-|Hne].
    + intros _. rewrite lookup_insert_eq. exists s. split; [done|]. split; [done|]. by rewrite lookup_insert_eq.
    + intros [->|Hq]; [done|]. rewrite lookup_insert_ne by done. destruct (Ho q Hq) as (s' & E1 & E2 & E3).
      exists s'. split; [done|]. split; [done|]. rewrite lookup_insert_ne; [done|]. congruence.
  - intros id q. rewrite lookup_insert_Some. intros [[<- <-]|[_ Hq]]; [exists (n + 1); split; [by left|done]|].
    destruct (Hnum _ _ Hq) as (k & ? & ?). exists k. split; [by right|done].
  - intros q k [[= -> ->]|Hq]%elem_of_cons; [lia|]. apply Hk0 in Hq. lia.
Qed.

Lemma delete_session_ok m n live open p : session_inv m n live open -> p ∈ open.*1 ->
  exists m', delete_session p m = Some m' /\
    session_inv m' n (filter (fun kp => kp.2 <> p) live) (shut_session p open).
Proof.
  intros [Hc Hn (t & Ht & R) Ho Hnum Hk0] Hp. destruct (Ho p Hp) as (s & Es & Ef & El).
  unfold delete_session, RemoveSession, upd_session. rewrite Es. cbn [mbind option_bind]. rewrite Ef. cbn [Z.eqb SESSION_INUSE].
  rewrite Ht. destruct (kt_remove_ok _ t live (is_id s) R) as (t' & -> & Rt'). cbn [mbind option_bind sm_objs set_map].
  rewrite Es. cbn [mbind option_bind sm_objs set_objs]. rewrite delete_insert_eq.
  assert (Huniq : forall id, live !! id = Some p -> id = is_id s).
  { intros id Hid. pose proof (kt_keys _ _ _ _ _ R Hid) as E1. pose proof (kt_keys _ _ _ _ _ R El). congruence. }
  assert (Hfil : forall id q, filter (fun kp => kp.2 <> p) live !! id = Some q <-> live !! id = Some q /\ q <> p).
  { intros id q. by rewrite map_lookup_filter_Some. }
  assert (Efil : filter (fun kp => kp.2 <> p) live = delete (is_id s) live).
  { apply map_eq. intros id. apply option_eq. intros q. rewrite Hfil, lookup_delete_Some.
    split; intros [H1 H2]; split; try done; [congruence|]. intros ->. by rewrite (Huniq _ H2) in H1. }
  eexists. split; [reflexivity|]. split; cbn [sm_curr_session sm_hash_map sm_objs set_map set_objs]; try done.
  - exists t'. split; [done|]. rewrite Efil. eapply kt_agree; [exact Rt'|]. intros id q [Hne Hq]%lookup_delete_Some.
    unfold session_key. rewrite lookup_delete_ne; [done|]. intros <-. by rewrite (Huniq _ Hq) in Hne.
  - intros q ([q' k] & -> & [Hne Hq]%list_elem_of_filter)%list_elem_of_fmap. cbn [fst] in Hne |- *.
    destruct (Ho q') as (s' & E1 & E2 & E3); [apply list_elem_of_fmap; by exists (q', k)|]. exists s'.
    rewrite lookup_delete_ne by done. split; [done|]. split; [done|]. by apply Hfil.
  - intros id q [Hq Hne]%Hfil. destruct (Hnum _ _ Hq) as (k & Hk & ->). exists k. split; [|done].
    by apply list_elem_of_filter.
  - intros q k [_ Hq]%list_elem_of_filter. by eapply Hk0.
Qed.

Lemma run_session_ops_inv m n live open os : session_inv m n live open -> session_ops_ok os n open ->
  (exists m', run_session_ops os m = Some (fst (spec_session_ops os (n, live)), m')) /\ fresh_numbers os (n, live).
Proof.
  revert m n live open. induction os as [|o os IH]; intros m n live open I Hok; [split; [by exists m|done]|].
  cbn [run_session_ops spec_session_ops fresh_numbers].
  destruct o as [p th c|id|p]; cbn [run_session_op spec_session_op session_ops_ok fst snd] in *.
  - destruct Hok as (Hp & Hb & Hok).
    destruct (open_session_ok m n live open p th c I Hp Hb) as (m' & -> & I'). cbn [mbind option_bind].
    destruct (IH m' (n + 1) _ _ I' Hok) as [(m2 & ->) Hf]. cbn [mbind option_bind]. split.
    + destruct (spec_session_ops os _) as [rs s]. by exists m2.
    + split; [|done]. split; [apply sid_nonzero|by eapply next_number_free].
  - unfold FindSession. destruct (si_rep _ _ _ _ I) as (t & -> & R). rewrite (kt_find_ok _ _ _ id R). cbn [mbind option_bind].
    destruct (IH m n live open I Hok) as [(m2 & ->) Hf]. cbn [mbind option_bind].
    split; [|done]. destruct (spec_session_ops os _) as [rs s]. by exists m2.
  - destruct Hok as [Hp Hok]. destruct (delete_session_ok m n live open p I Hp) as (m' & -> & I'). cbn [mbind option_bind].
    destruct (IH m' n _ _ I' Hok) as [(m2 & ->) Hf]. cbn [mbind option_bind].
    split; [|done]. destruct (spec_session_ops os _) as [rs s]. by exists m2.
Qed.

(** C21: the session manager refines a map from numbers to the open sessions.  In any
    sequence of openings (as an action does: a new number, then [InsertSession])
    mixed with lookups and destructions of open sessions, in which no session stays
    open while 2^32 - 1 others are opened, every opening gets the next number of a
    cycle through all the 32-bit numbers but 0; the number is never 0 and never one
    of an open session, also when the counter has wrapped, and the session is
    accepted; [FindSession] returns the open session with that number, and [NULL]
    when there is none, so an answer that comes after its session ended finds
    nobody. *)
Theorem session_mgr_refines_map (os : list session_op) (Hok : session_ops_ok os 0 []) :
  (exists m, run_session_ops os new_SessionMgr = Some (fst (spec_session_ops os (0, ∅)), m)) /\
  fresh_numbers os (0, ∅).
Proof. by apply (run_session_ops_inv _ _ _ _ _ new_session_inv Hok). Qed.
End laws.
End session.

Definition demo_session_ops : list session_op :=
  [SOpen 1%positive (Some 9%positive) None; SOpen 2%positive None None; SFind 1; SClose 1%positive; SFind 1;
   SOpen 1%positive None None; SFind 3; SFind 2].

(** With the hash table of [HashList]. *)
#[local] Instance session_table : KeyTable Z hash_table := HashList_KeyTable session_hash session_cmp.

Lemma session_mgr_refines_map_witness :
  fst (spec_session_ops demo_session_ops (0, ∅)) =
    [ROpened 1 0; ROpened 2 0; RSession (Some 1%positive); RClosed; RSession None; ROpened 3 0;
     RSession (Some 1%positive); RSession (Some 2%positive)] /\
  exists m : SessionMgr, run_session_ops demo_session_ops new_SessionMgr = Some (fst (spec_session_ops demo_session_ops (0, ∅)), m).
Proof.
  split; [vm_compute; reflexivity|].
  destruct (session_mgr_refines_map (table_rep session_hash) demo_session_ops) as [H _]; [|exact H].
  cbn. repeat split; try set_solver; intros q k;
    repeat (rewrite elem_of_cons; intros [[= -> ->]|Hq]; [lia|revert Hq]); by intros ?%elem_of_nil.
Defined.
