(* ===== verification/MbufPool.v ===== *)
(** * Message buffers

    Models [mt_mbuf_pool.h] and [mt_mbuf_pool.cpp] of
    [src/src/sync_frame/micro_thread]: buffers of a given size ([MtMsgBuf]), a queue of
    free ones for each size ([MsgBufMap]), and the pool that finds the queue in a hash
    table ([MsgBuffPool], proved against the interface [KeyTable]).

    Objects that were deleted are not in their store, so touching one is undefined
    ([None]), as is putting a buffer into a queue that holds it. *)

From Stdlib Require Import ZArith Lia.
From stdpp Require Import base gmap list option fin_maps fin_sets.
From S2P Require Import Prelude HashList KeyTable.

Definition BUFF_UNDEF : Z := 0.
Definition BUFF_RECV : Z := 1.
Definition BUFF_SEND : Z := 2.

(** [class MtMsgBuf]; [mb_buff] is [None] when [malloc] failed. *)
Record MtMsgBuf := mkMsgBuf {
  mb_max_len : Z;
  mb_msg_len : Z;
  mb_buf_type : Z;
  mb_recv_len : Z;
  mb_send_len : Z;
  mb_buff : option (list Z);
}.

(** [class MsgBufMap], less the fields of [HashKey] but its data pointer. *)
Record MsgBufMap := mkMsgBufMap {
  mm_data : option ptr;
  mm_max_free : Z;
  mm_max_buf_size : Z;
  mm_queue_num : Z;
  mm_msg_queue : list ptr;
}.

Definition mbuf_hash (size : Z) : Z := u32 size.
Definition mbuf_cmp (a b : Z) : Z := a - b.
#[export] Instance mbuf_cmp_law : CmpLaw mbuf_cmp.
Proof. intros x y. unfold mbuf_cmp. lia. Qed.

Section pool.
Context {T : Type} `{!KeyTable Z T} (malloc : ptr -> Z -> option (list Z)).

(** [class MsgBuffPool] with the objects that exist. *)
Record MsgBuffPool := mkMsgBuffPool {
  bp_max_free : Z;
  bp_hash_map : option T;
  bp_maps : gmap ptr MsgBufMap;
  bp_bufs : gmap ptr MtMsgBuf;
}.
Implicit Types (w : MsgBuffPool).

Definition set_hash w t : MsgBuffPool := mkMsgBuffPool (bp_max_free w) t (bp_maps w) (bp_bufs w).
Definition set_maps w m : MsgBuffPool := mkMsgBuffPool (bp_max_free w) (bp_hash_map w) m (bp_bufs w).
Definition set_bufs w b : MsgBuffPool := mkMsgBuffPool (bp_max_free w) (bp_hash_map w) (bp_maps w) b.

(** The constructors, [MtMsgBuf::Reset] and the setters. *)
Definition new_MtMsgBuf (p : ptr) (max_len : Z) : MtMsgBuf := mkMsgBuf max_len 0 BUFF_UNDEF 0 0 (malloc p max_len).
Definition new_MsgBufMap (p : ptr) (buff_size max_free : Z) : MsgBufMap := mkMsgBufMap (Some p) max_free buff_size 0 [].
Definition new_MsgBuffPool (max_free : Z) : MsgBuffPool := mkMsgBuffPool max_free (Some (kt_new 10000)) ∅ ∅.
Definition MtMsgBuf_Reset (b : MtMsgBuf) : MtMsgBuf := mkMsgBuf (mb_max_len b) 0 BUFF_UNDEF 0 0 (mb_buff b).
Definition SetBuffType (t : Z) (b : MtMsgBuf) : MtMsgBuf :=
  mkMsgBuf (mb_max_len b) (mb_msg_len b) t (mb_recv_len b) (mb_send_len b) (mb_buff b).
Definition SetMsgLen (n : Z) (b : MtMsgBuf) : MtMsgBuf :=
  mkMsgBuf (mb_max_len b) n (mb_buf_type b) (mb_recv_len b) (mb_send_len b) (mb_buff b).
Definition SetHaveRcvLen (n : Z) (b : MtMsgBuf) : MtMsgBuf :=
  mkMsgBuf (mb_max_len b) (mb_msg_len b) (mb_buf_type b) n (mb_send_len b) (mb_buff b).
Definition SetHaveSndLen (n : Z) (b : MtMsgBuf) : MtMsgBuf :=
  mkMsgBuf (mb_max_len b) (mb_msg_len b) (mb_buf_type b) (mb_recv_len b) n (mb_buff b).
Definition SetMaxFreeNum (n : Z) w : MsgBuffPool := mkMsgBuffPool n (bp_hash_map w) (bp_maps w) (bp_bufs w).

(** The keys of the maps. *)
Definition map_key (ms : gmap ptr MsgBufMap) (p : ptr) : Z := default 0 (mm_max_buf_size <$> ms !! p).

Definition delete_buf (p : ptr) w : option MsgBuffPool :=
  _ ← bp_bufs w !! p; Some (set_bufs w (delete p (bp_bufs w))).
Definition with_queue (k : MsgBufMap) (n : Z) (q : list ptr) : MsgBufMap :=
  mkMsgBufMap (mm_data k) (mm_max_free k) (mm_max_buf_size k) n q.
Definition set_queue (m : ptr) (k : MsgBufMap) (n : Z) (q : list ptr) w : MsgBuffPool :=
  set_maps w (<[m := with_queue k n q]> (bp_maps w)).

(** [MsgBufMap::GetMsgBuf] *)
Definition MsgBufMap_GetMsgBuf (m : ptr) w : option (option ptr * MsgBuffPool) :=
  k ← bp_maps w !! m;
  match mm_msg_queue k with
  | p :: q => Some (Some p, set_queue m k (mm_queue_num k - 1) q w)
  | [] =>
      let p : ptr := fresh (dom (bp_bufs w) : gset ptr) in
      Some (Some p, set_bufs w (<[p := new_MtMsgBuf p (mm_max_buf_size k)]> (bp_bufs w)))
  end.

(** [MsgBufMap::FreeMsgBuf] *)
Definition MsgBufMap_FreeMsgBuf (m p : ptr) w : option MsgBuffPool :=
  k ← bp_maps w !! m;
  if mm_max_free k <=? mm_queue_num k then delete_buf p w
  else
    b ← bp_bufs w !! p;
    let w := set_bufs w (<[p := MtMsgBuf_Reset b]> (bp_bufs w)) in
    if bool_decide (p ∈ mm_msg_queue k) then None
    else Some (set_queue m k (mm_queue_num k + 1) (mm_msg_queue k ++ [p]) w).

(** [~MsgBufMap]: the buffers of its queue are deleted, then the object is gone. *)
Fixpoint delete_bufs (q : list ptr) w : option MsgBuffPool :=
  match q with
  | [] => Some w
  | p :: q => w ← delete_buf p w; delete_bufs q w
  end.
Definition delete_map (m : ptr) w : option MsgBuffPool :=
  k ← bp_maps w !! m;
  w ← delete_bufs (mm_msg_queue k) w;
  Some (set_maps w (delete m (bp_maps w))).

Definition pool_find (size : Z) w : option (option ptr) :=
  match bp_hash_map w with None => Some None | Some t => kt_find (map_key (bp_maps w)) t size end.

(** [MsgBuffPool::GetMsgBuf] *)
Definition GetMsgBuf (max_size : Z) w : option (option ptr * MsgBuffPool) :=
  match bp_hash_map w with
  | None => Some (None, w)
  | Some t =>
      item ← kt_find (map_key (bp_maps w)) t max_size;
      match item with
      | Some hash_item =>
          k ← bp_maps w !! hash_item;
          match mm_data k with
          | Some msg_map => MsgBufMap_GetMsgBuf msg_map w
          | None =>
              t ← kt_remove (map_key (bp_maps w)) t (map_key (bp_maps w) hash_item);
              w ← delete_map hash_item (set_hash w (Some t));
              Some (None, w)
          end
      | None =>
          let msg_map : ptr := fresh (dom (bp_maps w) : gset ptr) in
          let w := set_maps w (<[msg_map := new_MsgBufMap msg_map max_size (bp_max_free w)]> (bp_maps w)) in
          let '(_, t) := kt_insert (map_key (bp_maps w)) t msg_map in
          MsgBufMap_GetMsgBuf msg_map (set_hash w (Some t))
      end
  end.

(** [MsgBuffPool::FreeMsgBuf] *)
Definition FreeMsgBuf (msg_buf : option ptr) w : option MsgBuffPool :=
  match bp_hash_map w, msg_buf with
  | Some t, Some p =>
      b ← bp_bufs w !! p;
      let w := set_bufs w (<[p := MtMsgBuf_Reset b]> (bp_bufs w)) in
      item ← kt_find (map_key (bp_maps w)) t (mb_max_len b);
      match item with
      | None => delete_buf p w
      | Some hash_item =>
          k ← bp_maps w !! hash_item;
          match mm_data k with
          | None => delete_buf p w
          | Some msg_map => MsgBufMap_FreeMsgBuf msg_map p w
          end
      end
  | _, Some p => delete_buf p w
  | _, None => Some w
  end.

(** [~MsgBuffPool]: each round takes the first map out of the table and deletes it. *)
Fixpoint delete_maps (fuel : nat) (t : T) w : option MsgBuffPool :=
  match fuel with
  | O => None
  | S fuel =>
      match kt_first t with
      | None => Some (set_hash w None)
      | Some item =>
          t ← kt_remove (map_key (bp_maps w)) t (map_key (bp_maps w) item);
          w ← delete_map item w;
          delete_maps fuel t w
      end
  end.
Definition delete_MsgBuffPool w : option MsgBuffPool :=
  match bp_hash_map w with
  | None => Some w
  | Some t => delete_maps (S (Z.to_nat (kt_size t))) t w
  end.

(** ** Borrowers *)

(** A borrower takes buffers, writes their fields and gives them back; [i] counts
    the buffers he holds. *)
Inductive pool_op :=
| BGet (size : Z)
| BUse (i : nat) (buf_type msg_len recv_len send_len : Z)
| BFree (i : nat)
| BMaxFree (n : Z).

Definition run_pool_op (o : pool_op) (s : MsgBuffPool * list ptr) : option (MsgBuffPool * list ptr) :=
  let '(w, out) := s in
  match o with
  | BGet size =>
      '(p, w) ← GetMsgBuf size w;
      Some (w, match p with Some p => p :: out | None => out end)
  | BUse i t m r n =>
      match out !! i with
      | None => Some (w, out)
      | Some p => b ← bp_bufs w !! p;
          Some (set_bufs w (<[p := SetBuffType t (SetMsgLen m (SetHaveRcvLen r (SetHaveSndLen n b)))]> (bp_bufs w)), out)
      end
  | BFree i =>
      match out !! i with
      | None => Some (w, out)
      | Some p => w ← FreeMsgBuf (Some p) w; Some (w, filter (.≠ p) out)
      end
  | BMaxFree n => Some (SetMaxFreeNum n w, out)
  end.
Fixpoint run_pool_ops (os : list pool_op) (s : MsgBuffPool * list ptr) : option (MsgBuffPool * list ptr) :=
  match os with
  | [] => Some s
  | o :: os => s ← run_pool_op o s; run_pool_ops os s
  end.

Section laws.
Context (kt_rep : (ptr -> Z) -> T -> gmap Z ptr -> Prop) `{!KeyTableLaws Z T kt_rep}.

(** A map object is consistent: its count is right, and its queue holds different
    clean buffers of its size that nobody has borrowed. *)
Record map_ok (bufs : gmap ptr MtMsgBuf) (out : list ptr) (m : ptr) (k : MsgBufMap) : Prop := {
  mo_data : mm_data k = Some m;
  mo_num : mm_queue_num k = Z.of_nat (length (mm_msg_queue k));
  mo_cap : mm_queue_num k <= Z.max 0 (mm_max_free k);
  mo_nodup : NoDup (mm_msg_queue k);
  mo_buf p : p ∈ mm_msg_queue k -> (p ∉ out) /\ exists b, bufs !! p = Some b /\ MtMsgBuf_Reset b = b /\
    mb_max_len b = mm_max_buf_size k;
}.

Record pool_inv w (out : list ptr) : Prop := {
  pi_rep : exists t M, bp_hash_map w = Some t /\ kt_rep (map_key (bp_maps w)) t M /\
    (forall m k, bp_maps w !! m = Some k -> M !! mm_max_buf_size k = Some m) /\
    (forall n m, M !! n = Some m -> exists k, bp_maps w !! m = Some k /\ mm_max_buf_size k = n);
  pi_map m k : bp_maps w !! m = Some k -> map_ok (bp_bufs w) out m k;
  pi_nodup : NoDup out;
  pi_out p : p ∈ out -> is_Some (bp_bufs w !! p);
  pi_live p b : bp_bufs w !! p = Some b -> (p ∈ out) \/ exists m k, bp_maps w !! m = Some k /\ p ∈ mm_msg_queue k;
}.

Lemma map_key_eq ms p k : ms !! p = Some k -> map_key ms p = mm_max_buf_size k.
Proof. unfold map_key. by intros ->. Qed.

Lemma new_pool_inv n : pool_inv (new_MsgBuffPool n) [].
Proof.
  split; simpl; try done.
  - exists (kt_new 10000), ∅. split; [done|]. split; [apply kt_new_ok|done].
  - constructor.
  - intros p Hp. by apply elem_of_nil in Hp.
Qed.

(** Replacing the queue of one map, and the borrowed buffers. *)
Lemma with_queue_lookup w m k n q m' k' : bp_maps w !! m = Some k -> bp_maps w !! m' = Some k' ->
  exists k2, <[m := with_queue k n q]> (bp_maps w) !! m' = Some k2 /\ mm_max_buf_size k2 = mm_max_buf_size k'.
Proof.
  intros Hm Hm'. rewrite lookup_insert. case_decide; [subst|by eauto]. eexists. split; [done|]. by simplify_eq.
Qed.

Lemma set_queue_inv w out m k n q bufs out' : pool_inv w out -> bp_maps w !! m = Some k ->
  (forall p, mb_max_len <$> bufs !! p = mb_max_len <$> bp_bufs w !! p) ->
  map_ok bufs out' m (with_queue k n q) ->
  (forall m' k', m' <> m -> bp_maps w !! m' = Some k' -> map_ok bufs out' m' k') ->
  NoDup out' -> (forall p, p ∈ out' -> (p ∈ out) \/ p ∈ mm_msg_queue k) ->
  (forall p, (p ∈ out) \/ p ∈ mm_msg_queue k -> (p ∈ out') \/ p ∈ q) ->
  pool_inv (set_queue m k n q (set_bufs w bufs)) out'.
Proof.
  intros I Hm Hb Hmk Hoth Hnd Ho1 Ho2. pose proof (with_queue_lookup w m k n q) as Hwq.
  assert (Hbuf : forall p b, bp_bufs w !! p = Some b -> exists b', bufs !! p = Some b' /\ mb_max_len b' = mb_max_len b).
  { intros p b E. specialize (Hb p). rewrite E in Hb. destruct (bufs !! p) as [b'|]; [|done]. injection Hb as Hb. eauto. }
  destruct I as [(t & M & Ht & R & H1 & H2) I2 I3 I4 I5].
  split; unfold set_queue; cbn [bp_hash_map bp_maps bp_bufs set_maps set_bufs].
  - exists t, M. split; [done|]. split; [|split].
    + eapply kt_agree; [exact R|]. intros n' m' _. unfold map_key. rewrite lookup_insert. case_decide; [subst|done].
      by rewrite Hm.
    + intros m' k'. rewrite lookup_insert_Some. intros [[<- <-]|[_ Hm']]; [by apply (H1 m k)|by apply H1].
    + intros n' m' Hn'. destruct (H2 _ _ Hn') as (k' & Hk' & <-). by apply Hwq.
  - intros m' k'. rewrite lookup_insert_Some. intros [[<- <-]|[Hne Hm']]; [done|by apply Hoth].
  - done.
  - intros p Hp. destruct (Ho1 p Hp) as [Hpo|Hpq].
    + destruct (I4 p Hpo) as [b Eb]. destruct (Hbuf _ _ Eb) as (b' & Eb' & _). by exists b'.
    + destruct (mo_buf _ _ _ _ (I2 _ _ Hm) p Hpq) as (_ & b & Eb & _). destruct (Hbuf _ _ Eb) as (b' & Eb' & _). by exists b'.
  - intros p b' Eb'. assert (exists b, bp_bufs w !! p = Some b) as [b Eb].
    { specialize (Hb p). rewrite Eb' in Hb. destruct (bp_bufs w !! p); [eauto|done]. }
    assert (((p ∈ out) \/ p ∈ mm_msg_queue k) \/ exists m' k', m' <> m /\ bp_maps w !! m' = Some k' /\ p ∈ mm_msg_queue k')
      as [H|(m' & k' & Hne & Em' & Hin)].
    { destruct (I5 _ _ Eb) as [?|(m' & k' & Em' & Hin)]; [tauto|]. destruct (decide (m' = m)) as [->|Hne]; [|eauto 6].
      left. right. congruence. }
    + destruct (Ho2 p H) as [?|Hq]; [by left|]. right. exists m, (with_queue k n q). by rewrite lookup_insert_eq.
    + right. exists m', k'. by rewrite lookup_insert_ne.
Qed.

(** A free buffer is in one queue only. *)
Lemma queue_unique w out m k m' k' p : pool_inv w out -> bp_maps w !! m = Some k -> bp_maps w !! m' = Some k' ->
  p ∈ mm_msg_queue k -> p ∈ mm_msg_queue k' -> m' = m.
Proof.
  intros I Hm Hm' Hp Hp'. destruct (mo_buf _ _ _ _ (pi_map _ _ I _ _ Hm') p Hp') as (_ & b' & Eb' & _ & El').
  destruct (mo_buf _ _ _ _ (pi_map _ _ I _ _ Hm) p Hp) as (_ & b & Eb & _ & El).
  destruct (pi_rep _ _ I) as (t & M & _ & _ & H1 & _). pose proof (H1 _ _ Hm'). pose proof (H1 _ _ Hm). congruence.
Qed.

Definition borrowed (w w' : MsgBuffPool) (out : list ptr) (n : Z) (p : ptr) : Prop :=
  (p ∉ out) /\ (exists b, bp_bufs w' !! p = Some b /\ MtMsgBuf_Reset b = b /\ mb_max_len b = n) /\
  (forall q, q ∈ out -> bp_bufs w' !! q = bp_bufs w !! q) /\ bp_max_free w' = bp_max_free w.

Lemma MsgBufMap_GetMsgBuf_ok w out m k : pool_inv w out -> bp_maps w !! m = Some k ->
  exists p w', MsgBufMap_GetMsgBuf m w = Some (Some p, w') /\ pool_inv w' (p :: out) /\ borrowed w w' out (mm_max_buf_size k) p.
Proof.
  intros I Hm. pose proof (pi_map _ _ I _ _ Hm) as K. unfold MsgBufMap_GetMsgBuf. rewrite Hm. cbn [mbind option_bind].
  destruct (mm_msg_queue k) as [|p q] eqn:Eq.
  - set (p := fresh _). assert (Hp : bp_bufs w !! p = None) by (apply not_elem_of_dom, is_fresh).
    assert (Hpo : p ∉ out) by (intros H; destruct (pi_out _ _ I p H) as [b E]; congruence).
    exists p, (set_bufs w (<[p := new_MtMsgBuf p (mm_max_buf_size k)]> (bp_bufs w))). split; [done|].
    assert (Hne : forall q b, bp_bufs w !! q = Some b -> <[p := new_MtMsgBuf p (mm_max_buf_size k)]> (bp_bufs w) !! q = Some b).
    { intros q b Hq. rewrite lookup_insert_ne; [done|]. congruence. }
    split.
    + destruct I as [I1 I2 I3 I4 I5]. split; cbn [bp_hash_map bp_maps bp_bufs set_bufs].
      * done.
      * intros m' k' Hm'. destruct (I2 _ _ Hm') as [K1 K2 K3 K4 K5]. split; try done. intros r Hr.
        destruct (K5 r Hr) as (Ho & b & Eb & Er). split; [|by eauto].
        rewrite not_elem_of_cons. split; [congruence|done].
      * by constructor.
      * intros r [->|Hr]%elem_of_cons.
        -- by rewrite lookup_insert_eq.
        -- destruct (I4 r Hr) as [b Eb]. exists b. auto.
      * intros r b. rewrite lookup_insert_Some. intros [[<- _]|[_ Hr]]; [left; by left|].
        destruct (I5 _ _ Hr); [left; by right|by right].
    + split; [done|]. cbn [bp_bufs set_bufs bp_max_free]. split; [|split; [|done]].
      * eexists. rewrite lookup_insert_eq. done.
      * intros r Hr. rewrite lookup_insert_ne; [done|]. by intros ->.
  - eexists p, _. split; [reflexivity|]. pose proof K as [K1 K2 K3 K4 K5].
    rewrite Eq in *. pose proof (NoDup_cons_1_1 _ _ K4) as Hpq. pose proof (NoDup_cons_1_2 _ _ K4) as Hnd.
    destruct (K5 p ltac:(by left)) as (Hpo & b & Eb & Er & El).
    split; [|split; [done|split; [by eauto|done]]].
    assert (Hout : forall (r : ptr), (r ∉ out) -> r <> p -> r ∉ p :: out) by (intros r ?; rewrite not_elem_of_cons; auto).
    apply (set_queue_inv w out m k (mm_queue_num k - 1) q (bp_bufs w) (p :: out) I Hm); try rewrite Eq; try done.
    + split; cbn; [done|rewrite K2; simpl; lia|lia|done|]. intros r Hr. destruct (K5 r ltac:(by right)) as (Ho & Hb).
      split; [|done]. apply Hout; [done|congruence].
    + intros m' k' Hne Hm'. destruct (pi_map _ _ I _ _ Hm') as [L1 L2 L3 L4 L5]. split; try done. intros r Hr.
      destruct (L5 r Hr) as (Ho & Hb). split; [|done]. apply Hout; [done|]. intros ->. apply Hne.
      eapply (queue_unique w out m k); try done. rewrite Eq. by left.
    + constructor; [done|apply I].
    + intros r. rewrite !elem_of_cons. tauto.
    + intros r. rewrite !elem_of_cons. tauto.
Qed.

Lemma new_map_inv w out n t M m : pool_inv w out -> bp_hash_map w = Some t -> kt_rep (map_key (bp_maps w)) t M ->
  (forall m k, bp_maps w !! m = Some k -> M !! mm_max_buf_size k = Some m) ->
  (forall n m, M !! n = Some m -> exists k, bp_maps w !! m = Some k /\ mm_max_buf_size k = n) ->
  M !! n = None -> bp_maps w !! m = None ->
  let w1 := set_maps w (<[m := new_MsgBufMap m n (bp_max_free w)]> (bp_maps w)) in
  exists t', kt_insert (map_key (bp_maps w1)) t m = (0, t') /\ pool_inv (set_hash w1 (Some t')) out.
Proof.
  intros I Ht R H1 H2 HM Hm w1. set (k := new_MsgBufMap m n (bp_max_free w)) in *.
  assert (Hk : map_key (bp_maps w1) m = n) by (unfold map_key, w1; cbn [bp_maps set_maps]; by rewrite lookup_insert_eq).
  assert (R1 : kt_rep (map_key (bp_maps w1)) t M).
  { eapply kt_agree; [exact R|]. intros n' m' Hn'. destruct (H2 _ _ Hn') as (k' & Hk' & _). unfold map_key, w1.
    cbn [bp_maps set_maps]. rewrite lookup_insert_ne; [done|]. congruence. }
  destruct (kt_insert_ok _ t M m R1) as (t' & E & R'); [by rewrite Hk|]. rewrite Hk in R'. exists t'. split; [done|].
  destruct I as [_ I2 I3 I4 I5].
  split; unfold w1; cbn [bp_hash_map bp_maps bp_bufs set_maps set_hash].
  - exists t', (<[n := m]> M). split; [done|]. split; [done|]. split.
    + intros m' k'. rewrite lookup_insert_Some. intros [[<- <-]|[Hne Hm']]; [by rewrite lookup_insert_eq|].
      rewrite lookup_insert_ne; [by apply H1|]. intros ->. apply H1 in Hm'. congruence.
    + intros n' m'. rewrite lookup_insert_Some. intros [[<- <-]|[Hne Hn']].
      * exists k. by rewrite lookup_insert_eq.
      * destruct (H2 _ _ Hn') as (k' & Hk' & <-). exists k'. rewrite lookup_insert_ne; [done|]. congruence.
  - intros m' k'. rewrite lookup_insert_Some. intros [[<- <-]|[Hne Hm']]; [|by apply I2].
    split; cbn; [done|done|lia|constructor|]. intros p Hp. by apply elem_of_nil in Hp.
  - done.
  - done.
  - intros p b Hp. destruct (I5 p b Hp) as [?|(m' & k' & Em & Hin)]; [by left|right]. exists m', k'.
    rewrite lookup_insert_ne; [done|]. congruence.
Qed.

Lemma GetMsgBuf_ok w out n : pool_inv w out ->
  exists p w', GetMsgBuf n w = Some (Some p, w') /\ pool_inv w' (p :: out) /\ borrowed w w' out n p.
Proof.
  intros I. destruct (pi_rep _ _ I) as (t & M & Ht & R & H1 & H2). unfold GetMsgBuf. rewrite Ht, (kt_find_ok _ _ _ n R).
  cbn [mbind option_bind]. destruct (M !! n) as [m|] eqn:En.
  - destruct (H2 _ _ En) as (k & Hk & <-). rewrite Hk. cbn [mbind option_bind]. rewrite (mo_data _ _ _ _ (pi_map _ _ I _ _ Hk)).
    by apply MsgBufMap_GetMsgBuf_ok.
  - set (m := fresh _). assert (Hm : bp_maps w !! m = None) by (apply not_elem_of_dom, is_fresh).
    destruct (new_map_inv w out n t M m I Ht R H1 H2 En Hm) as (t' & E & I'). rewrite E.
    set (w1 := set_hash _ _) in *. apply (MsgBufMap_GetMsgBuf_ok w1 out m (new_MsgBufMap m n (bp_max_free w)) I').
    unfold w1. cbn [bp_maps set_hash set_maps]. by rewrite lookup_insert_eq.
Qed.

(** Removing a borrowed buffer, or writing fields of it. *)
Lemma delete_borrowed_inv w out p : pool_inv w out -> p ∈ out ->
  exists w', delete_buf p w = Some w' /\ pool_inv w' (filter (.≠ p) out).
Proof.
  intros I Hp. destruct (pi_out _ _ I p Hp) as [b Eb]. unfold delete_buf. rewrite Eb. cbn [mbind option_bind].
  eexists. split; [reflexivity|]. destruct I as [I1 I2 I3 I4 I5].
  split; cbn [bp_hash_map bp_maps bp_bufs set_bufs]; [done| | | |].
  - intros m' k' Hm'. destruct (I2 _ _ Hm') as [K1 K2 K3 K4 K5]. split; try done. intros q Hq.
    destruct (K5 q Hq) as (Ho & Hb). split; [rewrite list_elem_of_filter; tauto|]. rewrite lookup_delete_ne; [done|].
    by intros <-.
  - by apply list.NoDup_filter.
  - intros q [Hne Hq]%list_elem_of_filter. rewrite lookup_delete_ne by done. by apply I4.
  - intros q b' [Hne Hq]%lookup_delete_Some. rewrite list_elem_of_filter. destruct (I5 _ _ Hq); [left|right]; auto.
Qed.

Lemma write_borrowed_inv w out p b b' : pool_inv w out -> p ∈ out -> bp_bufs w !! p = Some b -> mb_max_len b' = mb_max_len b ->
  pool_inv (set_bufs w (<[p := b']> (bp_bufs w))) out.
Proof.
  intros I Hp Eb El. destruct I as [I1 I2 I3 I4 I5].
  split; cbn [bp_hash_map bp_maps bp_bufs set_bufs]; [done| |done| |].
  - intros m' k' Hm'. destruct (I2 _ _ Hm') as [K1 K2 K3 K4 K5]. split; try done. intros q Hq.
    destruct (K5 q Hq) as (Ho & Hb). split; [done|]. rewrite lookup_insert_ne; [done|]. by intros <-.
  - intros q Hq. rewrite lookup_insert. case_decide; [done|by apply I4].
  - intros q b2. rewrite lookup_insert_Some. intros [[<- _]|[_ Hq]]; [by left|by eapply I5].
Qed.

Lemma FreeMsgBuf_ok w out p : pool_inv w out -> p ∈ out ->
  exists w', FreeMsgBuf (Some p) w = Some w' /\ pool_inv w' (filter (.≠ p) out).
Proof.
  intros I Hp. destruct (pi_out _ _ I p Hp) as [b Eb].
  unfold FreeMsgBuf. destruct (pi_rep _ _ I) as (t & M & Ht & R & H1 & H2). rewrite Ht, Eb. cbn [mbind option_bind].
  set (w1 := set_bufs w _). assert (I1 : pool_inv w1 out) by (by eapply write_borrowed_inv).
  change (map_key (bp_maps w1)) with (map_key (bp_maps w)). rewrite (kt_find_ok _ _ _ _ R). cbn [mbind option_bind].
  destruct (M !! mb_max_len b) as [m|] eqn:En; [|by apply delete_borrowed_inv].
  destruct (H2 _ _ En) as (k & Em & El). change (bp_maps w1) with (bp_maps w). rewrite Em. cbn [mbind option_bind].
  pose proof (pi_map _ _ I1 m k Em) as K. rewrite (mo_data _ _ _ _ K). unfold MsgBufMap_FreeMsgBuf.
  change (bp_maps w1) with (bp_maps w). rewrite Em. cbn [mbind option_bind].
  destruct (Z.leb_spec (mm_max_free k) (mm_queue_num k)) as [Hc|Hc]; [by apply delete_borrowed_inv|].
  assert (E1 : bp_bufs w1 !! p = Some (MtMsgBuf_Reset b)) by (apply lookup_insert_eq). rewrite E1. cbn [mbind option_bind].
  assert (HpK : p ∉ mm_msg_queue k) by (intros Hin; by destruct (mo_buf _ _ _ _ K p Hin)).
  rewrite bool_decide_false by done. eexists. split; [reflexivity|].
  set (bufs := <[p := _]> (bp_bufs w1)). change (bp_bufs w1) with (<[p := MtMsgBuf_Reset b]> (bp_bufs w)) in bufs.
  assert (Hkeep : forall m' k', bp_maps w !! m' = Some k' -> map_ok bufs (filter (.≠ p) out) m' k').
  { intros m' k' Hm'. destruct (pi_map _ _ I _ _ Hm') as [K1 K2 K3 K4 K5]. split; try done. intros q Hq.
    destruct (K5 q Hq) as (Ho & Hb). split; [rewrite list_elem_of_filter; tauto|].
    unfold bufs. rewrite !lookup_insert_ne; [done|..]; by intros <-. }
  assert (Hpf : p ∉ filter (.≠ p) out) by (rewrite list_elem_of_filter; tauto).
  apply (set_queue_inv w1 out m k (mm_queue_num k + 1) (mm_msg_queue k ++ [p]) bufs); try done.
  - intros q. unfold bufs. change (bp_bufs w1) with (<[p := MtMsgBuf_Reset b]> (bp_bufs w)).
    rewrite !lookup_insert. by case_decide.
  - pose proof (Hkeep _ _ Em) as [K1 K2 K3 K4 K5]. split; cbn; [done|rewrite length_app, K2; simpl; lia|lia| |].
    + apply list.NoDup_app. split; [done|]. split; [|apply NoDup_singleton]. intros q Hq ->%list_elem_of_singleton. done.
    + intros q [Hq| ->%list_elem_of_singleton]%elem_of_app; [by apply K5|]. split; [done|]. eexists. unfold bufs.
      rewrite lookup_insert_eq. split; [done|]. split; [done|]. cbn. congruence.
  - intros m' k' _. apply Hkeep.
  - apply list.NoDup_filter, I.
  - intros q. rewrite list_elem_of_filter. tauto.
  - intros q. rewrite list_elem_of_filter, elem_of_app, list_elem_of_singleton. destruct (decide (q = p)); tauto.
Qed.

Lemma run_pool_op_inv o w out : pool_inv w out -> exists w' out', run_pool_op o (w, out) = Some (w', out') /\ pool_inv w' out'.
Proof.
  intros I. destruct o as [n|i ty l r s|i|n]; cbn [run_pool_op].
  - destruct (GetMsgBuf_ok w out n I) as (p & w' & -> & I' & _). by exists w', (p :: out).
  - destruct (out !! i) as [p|] eqn:Ei; [|by exists w, out]. apply list_elem_of_lookup_2 in Ei.
    destruct (pi_out _ _ I p Ei) as [b Eb]. rewrite Eb. cbn [mbind option_bind]. eexists _, out.
    split; [done|]. by eapply write_borrowed_inv.
  - destruct (out !! i) as [p|] eqn:Ei; [|by exists w, out]. apply list_elem_of_lookup_2 in Ei.
    destruct (FreeMsgBuf_ok w out p I Ei) as (w' & -> & I'). by eexists w', _.
  - eexists _, out. split; [done|]. destruct I. by split.
Qed.

Lemma run_pool_ops_inv os w out : pool_inv w out -> exists w' out', run_pool_ops os (w, out) = Some (w', out') /\ pool_inv w' out'.
Proof.
  revert w out. induction os as [|o os IH]; intros w out I; [by exists w, out|]. cbn [run_pool_ops].
  destruct (run_pool_op_inv o w out I) as (w1 & out1 & -> & I1). apply IH, I1.
Qed.

(** ** The destructor *)

Lemma delete_bufs_ok q w : NoDup q -> (forall p, p ∈ q -> is_Some (bp_bufs w !! p)) ->
  exists b, delete_bufs q w = Some (set_bufs w b) /\
    forall p, (p ∈ q -> b !! p = None) /\ (p ∉ q -> b !! p = bp_bufs w !! p).
Proof.
  revert w. induction q as [|p q IH]; intros w Hnd Hin.
  - exists (bp_bufs w). split; [by destruct w|]. intros p. split; [by intros ?%elem_of_nil|done].
  - pose proof (NoDup_cons_1_1 _ _ Hnd) as Hp. apply NoDup_cons_1_2 in Hnd. cbn [delete_bufs]. unfold delete_buf.
    destruct (Hin p ltac:(by left)) as [b Eb]. rewrite Eb. cbn [mbind option_bind].
    destruct (IH (set_bufs w (delete p (bp_bufs w))) Hnd) as (b' & -> & Hb).
    { intros r Hr. cbn [bp_bufs set_bufs]. rewrite lookup_delete_ne by (by intros ->). apply Hin. by right. }
    exists b'. split; [done|]. intros r. destruct (Hb r) as [B1 B2]. cbn [bp_bufs set_bufs] in B2.
    rewrite elem_of_cons. destruct (decide (r ∈ q)) as [Hr|Hr]; [split; [auto|tauto]|].
    rewrite (B2 Hr). destruct (decide (r = p)) as [->|Hne]; [split; [intros _; apply lookup_delete_eq|tauto]|].
    split; [tauto|]. intros _. by rewrite lookup_delete_ne.
Qed.

Lemma delete_map_ok w out t M n m : pool_inv (set_hash w (Some t)) out -> kt_rep (map_key (bp_maps w)) t M ->
  M !! n = Some m -> exists t' w', kt_remove (map_key (bp_maps w)) t n = Some t' /\
    kt_rep (map_key (bp_maps w')) t' (delete n M) /\ delete_map m w = Some w' /\ pool_inv (set_hash w' (Some t')) out.
Proof.
  intros I R Hn. destruct (kt_remove_ok _ t M n R) as (t' & Et & R').
  destruct (pi_rep _ _ I) as (t0 & M0 & Ht0 & R0 & H1 & H2). cbn [bp_hash_map set_hash] in Ht0. injection Ht0 as <-.
  cbn [bp_maps set_hash] in R0, H1, H2.
  assert (M0 = M) as -> by (apply map_eq; intros k; pose proof (kt_find_ok _ _ _ k R); pose proof (kt_find_ok _ _ _ k R0); congruence).
  destruct (H2 _ _ Hn) as (k & Ek & El). unfold delete_map. rewrite Ek. cbn [mbind option_bind].
  pose proof (pi_map _ _ I m k Ek) as K.
  destruct (delete_bufs_ok (mm_msg_queue k) w (mo_nodup _ _ _ _ K)) as (b & -> & Hb).
  { intros p Hp. destruct (mo_buf _ _ _ _ K p Hp) as (_ & b & Eb & _). by exists b. }
  cbn [mbind option_bind]. exists t', (set_maps (set_bufs w b) (delete m (bp_maps w))). split; [done|].
  assert (Hk : kt_rep (map_key (delete m (bp_maps w))) t' (delete n M)).
  { eapply kt_agree; [exact R'|]. intros n' m' [Hne Hn']%lookup_delete_Some. unfold map_key.
    destruct (H2 _ _ Hn') as (k' & Hk' & Hl'). rewrite lookup_delete_ne; [done|]. intros ->. congruence. }
  split; [exact Hk|]. split; [done|]. pose proof (queue_unique (set_hash w (Some t)) out m k) as Hun.
  pose proof I as [I1 I2 I3 I4 I5]. cbn [bp_maps bp_bufs bp_hash_map set_hash] in *.
  split; cbn [bp_maps bp_bufs bp_hash_map set_hash set_maps set_bufs]; [| |done| |].
  - exists t', (delete n M). split; [done|]. split; [done|]. split.
    + intros m' k' [Hne Hm']%lookup_delete_Some. apply lookup_delete_Some. pose proof (H1 _ _ Hm'). split; [|done].
      intros ->. congruence.
    + intros n' m' [Hne Hn']%lookup_delete_Some. destruct (H2 _ _ Hn') as (k' & Hk' & Hl'). exists k'. split; [|done].
      rewrite lookup_delete_ne; [done|]. intros ->. congruence.
  - intros m' k' [Hne Hm']%lookup_delete_Some. destruct (I2 _ _ Hm') as [K1 K2 K3 K4 K5]. split; try done.
    intros p Hp. destruct (K5 p Hp) as (Ho & Hx). split; [done|]. rewrite (proj2 (Hb p)); [done|]. intros Hpk.
    by destruct Hne; eapply eq_sym, (Hun m' k' p I).
  - intros p Hp. rewrite (proj2 (Hb p)); [by apply I4|]. intros Hin. by destruct (mo_buf _ _ _ _ K p Hin).
  - intros p b' Hp. destruct (decide (p ∈ mm_msg_queue k)) as [Hin|Hin]; [by rewrite (proj1 (Hb p) Hin) in Hp|].
    rewrite (proj2 (Hb p) Hin) in Hp. destruct (I5 _ _ Hp) as [?|(m' & k' & Em & Hx)]; [by left|right].
    exists m', k'. rewrite lookup_delete_ne; [done|]. intros <-. congruence.
Qed.

Lemma delete_maps_ok fuel t w out M : pool_inv (set_hash w (Some t)) out -> kt_rep (map_key (bp_maps w)) t M ->
  (size M < fuel)%nat -> exists w', delete_maps fuel t w = Some w' /\ bp_maps w' = ∅ /\
    forall p, is_Some (bp_bufs w' !! p) <-> p ∈ out.
Proof.
  revert t w M. induction fuel as [|fuel IH]; intros t w M I R Hf; [lia|]. cbn [delete_maps].
  destruct (pi_rep _ _ I) as (t0 & M0 & Ht0 & R0 & H1 & H2). cbn [bp_hash_map bp_maps set_hash] in Ht0, R0, H1, H2.
  injection Ht0 as <-.
  assert (M0 = M) as -> by (apply map_eq; intros k; pose proof (kt_find_ok _ _ _ k R); pose proof (kt_find_ok _ _ _ k R0); congruence).
  destruct (kt_first t) as [m|] eqn:Ef.
  - pose proof (kt_first_some _ _ _ _ R Ef) as Em.
    destruct (delete_map_ok w out t M _ m I R Em) as (t' & w' & -> & R' & Ed & I'). cbn [mbind option_bind]. rewrite Ed.
    cbn [mbind option_bind]. apply (IH t' w' _ I' R'). rewrite map_size_delete, Em.
    pose proof (map_size_non_empty_iff M) as Hne. destruct (size M); [|lia]. destruct (Hne) as [_ Hne']. 
    exfalso. apply Hne'; [|done]. intros ->. by rewrite lookup_empty in Em.
  - apply (kt_first_none _ _ _ R) in Ef. subst M. exists (set_hash w None).
    assert (Hmaps : bp_maps w = ∅).
    { apply map_empty. intros m. destruct (bp_maps w !! m) as [k|] eqn:E; [|done]. apply H1 in E. by rewrite lookup_empty in E. }
    split; [done|]. split; [done|]. intros p. cbn [bp_bufs set_hash]. split; [|apply (pi_out _ _ I)].
    intros [b Eb]. destruct (pi_live _ _ I p b Eb) as [?|(m & k & Em & _)]; [done|]. cbn [bp_maps set_hash] in Em.
    by rewrite Hmaps, lookup_empty in Em.
Qed.

(** C20: the message-buffer pool lends buffers.  After any sequence of calls of
    borrowers (who may write the fields of the buffers they hold) the pool gives,
    for any size, a buffer that nobody holds, of exactly that size and with its
    fields cleared, and changes none of the buffers held; giving a held buffer back
    always succeeds; no free queue grows past its bound; and the destructor
    ends and deletes exactly the buffers that nobody holds. *)
Theorem mbuf_pool_lends (max_free : Z) (os : list pool_op) :
  exists w out, run_pool_ops os (new_MsgBuffPool max_free, []) = Some (w, out) /\ NoDup out /\
    (forall n, exists p w', GetMsgBuf n w = Some (Some p, w') /\ borrowed w w' out n p) /\
    (forall p, p ∈ out -> is_Some (FreeMsgBuf (Some p) w)) /\
    (forall m k, bp_maps w !! m = Some k -> Z.of_nat (length (mm_msg_queue k)) <= Z.max 0 (mm_max_free k)) /\
    exists w', delete_MsgBuffPool w = Some w' /\ bp_maps w' = ∅ /\ forall p, is_Some (bp_bufs w' !! p) <-> p ∈ out.
Proof.
  destruct (run_pool_ops_inv os _ _ (new_pool_inv max_free)) as (w & out & E & I). exists w, out.
  split; [done|]. split; [apply I|]. split; [|split; [|split]].
  - intros n. destruct (GetMsgBuf_ok w out n I) as (p & w' & Eg & _ & B). by exists p, w'.
  - intros p Hp. destruct (FreeMsgBuf_ok w out p I Hp) as (w' & -> & _). by exists w'.
  - intros m k Hm. pose proof (pi_map _ _ I m k Hm) as K. rewrite <- (mo_num _ _ _ _ K). apply K.
  - destruct (pi_rep _ _ I) as (t & M & Ht & R & _). unfold delete_MsgBuffPool. rewrite Ht.
    apply (delete_maps_ok _ t w out M); [|done|rewrite (kt_size_ok _ _ _ R); lia].
    destruct w. cbn in Ht. by rewrite Ht in I.
Qed.
End laws.
End pool.
Arguments MsgBuffPool T : clear implicits.

(** With the hash table of [HashList]: two buffers of 100 bytes, one given back. *)
#[local] Instance mbuf_table : KeyTable Z hash_table := HashList_KeyTable mbuf_hash mbuf_cmp.

Example mbuf_reuse :
  (fun s => (s.2, mm_msg_queue <$> (map_to_list (bp_maps s.1)).*2)) <$>
    run_pool_ops (fun _ n => Some (replicate (Z.to_nat n) 0))
      [BGet 100; BGet 100; BUse 0 BUFF_RECV 7 7 0; BGet 20; BFree 1; BFree 1; BGet 100; BMaxFree 0; BGet 5; BFree 0]
      (new_MsgBuffPool 300, []) = Some ([2; 3]%positive, [[]; []; [1%positive]]).
Proof. vm_compute. reflexivity. Qed.

Lemma mbuf_pool_lends_witness :
  let malloc (p : ptr) n := Some (replicate (Z.to_nat n) 0) in
  let os := [BGet 100; BGet 100; BFree 1; BGet 20] in
  exists (w : MsgBuffPool hash_table) out,
    run_pool_ops malloc os (new_MsgBuffPool 300, []) = Some (w, out) /\ out = [3; 2]%positive /\
    (forall n, exists p w', GetMsgBuf malloc n w = Some (Some p, w') /\ borrowed w w' out n p) /\
    exists w', delete_MsgBuffPool w = Some w' /\ forall p, is_Some (bp_bufs w' !! p) <-> p ∈ out.
Proof.
  intros malloc os. destruct (mbuf_pool_lends malloc (table_rep mbuf_hash) 300 os) as (w & out & E & _ & H1 & _ & _ & w' & H2 & _ & H3).
  exists w, out. split; [exact E|]. split; [|split; [exact H1|exists w'; split; [exact H2|exact H3]]].
  assert (Ho : snd <$> run_pool_ops malloc os (new_MsgBuffPool 300, []) = Some [3; 2]%positive) by (vm_compute; reflexivity).
  rewrite E in Ho. injection Ho as ->. reflexivity.
Defined.
