(* ===== verification/MtIo.v ===== *)
(** * Blocking calls of micro threads

    Models the system-call wrappers of [MtFrame] in
    [src/src/sync_frame/micro_thread/micro_thread.cpp]: [recvfrom], [sendto],
    [connect], [accept], [read], [write], [recv], [send] and [WaitEvents].  Each
    tries the system call on a non-blocking descriptor and, while it would block,
    gives the processor away with [EpollSchedule].

    What happens between two actions of the thread (other threads, the kernel) is
    a parameter: an environment with a state, in which the thread reads the clock,
    calls [EpollSchedule] and makes the system call.  A loop that does not end
    within [fuel] rounds yields [None]. *)

From Stdlib Require Import ZArith Lia.
From stdpp Require Import base list option.
From S2P Require Import Prelude Bytes Epoll.

Definition EINTR : Z := 4.
Definition EAGAIN : Z := 11.
Definition EINPROGRESS : Z := 115.
Definition EISCONN : Z := 106.

(** What a wrapper sees of the rest of the program: [MtFrame::GetLastClock], and
    [MtFrame::EpollSchedule] on one descriptor (result and received events). *)
Class IoWorld (E : Type) := {
  io_clock : E -> Z * E;
  io_schedule : Z -> Z -> Z -> E -> bool * Z * E;
}.

Section wrappers.
Context {E : Type} `{!IoWorld E}.
Implicit Types (w : E) (fd start timeout : Z).

(** [(int)(now - start) > timeout] *)
Definition timed_out (now start timeout : Z) : bool := timeout <? i32 (u64 (now - start)).

(** The loop of [sendto], [connect], [accept] and [read]: [sys] is the system
    call (result and [errno]), [blocked] the error numbers that mean "wait". *)
Fixpoint retry_loop (fuel : nat) (sys : E -> Z * Z * E) (connecting : bool) (blocked : Z -> bool)
    fd events start timeout w : option (Z * E) :=
  match fuel with
  | O => None
  | S fuel =>
      let '(n, errno, w) := sys w in
      if 0 <=? n then Some (n, w)
      else
        let '(now, w) := io_clock w in
        if timed_out now start timeout then Some (-1, w)
        else if connecting && (errno =? EISCONN) then Some (0, w)
        else if errno =? EINTR then retry_loop fuel sys connecting blocked fd events start timeout w
        else if negb (blocked errno) then Some (-2, w)
        else
          let '(ok, _, w) := io_schedule fd events timeout w in
          if ok then retry_loop fuel sys connecting blocked fd events start timeout w else Some (-3, w)
  end.

(** The loop of [recvfrom] and [recv]: wait first, then try. *)
Fixpoint wait_loop (fuel : nat) (sys : E -> Z * Z * E) fd start timeout w : option (Z * E) :=
  match fuel with
  | O => None
  | S fuel =>
      let '(now, w) := io_clock w in
      if timed_out now start timeout then Some (-1, w)
      else
        let '(ok, _, w) := io_schedule fd EPOLLIN timeout w in
        if negb ok then Some (-2, w)
        else
          let '(n, errno, w) := sys w in
          if 0 <=? n then Some (n, w)
          else if errno =? EINTR then wait_loop fuel sys fd start timeout w
          else if negb (errno =? EAGAIN) then Some (-3, w)
          else wait_loop fuel sys fd start timeout w
  end.

(** The loop of [write] and [send]; [sys off len] writes the bytes of the
    caller's buffer from [off] on. *)
Fixpoint write_loop (fuel : nat) (sys : Z -> Z -> E -> Z * Z * E) fd (nbyte send_len : Z) start timeout w
  : option (Z * E) :=
  match fuel with
  | O => None
  | S fuel =>
      if negb (send_len <? nbyte) then Some (nbyte, w)
      else
        let '(now, w) := io_clock w in
        if timed_out now start timeout then Some (-1, w)
        else
          let '(n, errno, w) := sys send_len (nbyte - send_len) w in
          let wait send_len w :=
            let '(ok, _, w) := io_schedule fd EPOLLOUT timeout w in
            if ok then write_loop fuel sys fd nbyte send_len start timeout w else Some (-3, w) in
          if n <? 0 then
            if errno =? EINTR then write_loop fuel sys fd nbyte send_len start timeout w
            else if negb (errno =? EAGAIN) then Some (-2, w)
            else wait send_len w
          else
            let send_len := u64 (send_len + n) in
            if nbyte <=? send_len then Some (nbyte, w) else wait send_len w
  end.

(** [MtFrame::recvfrom], [MtFrame::recv]; [buf_null] says whether the buffer is
    [NULL]. *)
Definition recvfrom (fuel : nat) (sys : E -> Z * Z * E) fd (buf_null : bool) (len : Z) timeout w : option (Z * E) :=
  let '(start, w) := io_clock w in
  if (fd <? 0) || buf_null || (len <? 1) then Some (-10, w)
  else wait_loop fuel sys fd start (if timeout <=? -1 then 0x7fffffff else timeout) w.
Definition recv (fuel : nat) (sys : E -> Z * Z * E) fd (buf_null : bool) (len : Z) timeout w : option (Z * E) :=
  let '(start, w) := io_clock w in
  if (fd <? 0) || buf_null || (len <? 1) then Some (-10, w)
  else wait_loop fuel sys fd start (if timeout <=? -1 then 0x7fffffff else timeout) w.

(** [MtFrame::sendto], [connect], [accept], [read] *)
Definition sendto (fuel : nat) (sys : E -> Z * Z * E) fd (msg_null : bool) (len : Z) timeout w : option (Z * E) :=
  let '(start, w) := io_clock w in
  if (fd <? 0) || msg_null || (len <? 1) then Some (-10, w)
  else retry_loop fuel sys false (Z.eqb EAGAIN) fd EPOLLOUT start timeout w.
Definition connect (fuel : nat) (sys : E -> Z * Z * E) fd (addr_null : bool) (addrlen : Z) timeout w : option (Z * E) :=
  let '(start, w) := io_clock w in
  if (fd <? 0) || addr_null || (addrlen <? 1) then Some (-10, w)
  else retry_loop fuel sys true (Z.eqb EINPROGRESS) fd EPOLLOUT start timeout w.
Definition accept (fuel : nat) (sys : E -> Z * Z * E) fd timeout w : option (Z * E) :=
  let '(start, w) := io_clock w in
  if fd <? 0 then Some (-10, w)
  else retry_loop fuel sys false (Z.eqb EAGAIN) fd EPOLLIN start timeout w.
Definition read (fuel : nat) (sys : E -> Z * Z * E) fd (buf_null : bool) (nbyte : Z) timeout w : option (Z * E) :=
  let '(start, w) := io_clock w in
  if (fd <? 0) || buf_null || (nbyte <? 1) then Some (-10, w)
  else retry_loop fuel sys false (Z.eqb EAGAIN) fd EPOLLIN start timeout w.

(** [MtFrame::write], [MtFrame::send] *)
Definition write (fuel : nat) (sys : Z -> Z -> E -> Z * Z * E) fd (buf_null : bool) (nbyte : Z) timeout w : option (Z * E) :=
  let '(start, w) := io_clock w in
  if (fd <? 0) || buf_null || (nbyte <? 1) then Some (-10, w)
  else write_loop fuel sys fd nbyte 0 start timeout w.
Definition send (fuel : nat) (sys : Z -> Z -> E -> Z * Z * E) fd (buf_null : bool) (nbyte : Z) timeout w : option (Z * E) :=
  let '(start, w) := io_clock w in
  if (fd <? 0) || buf_null || (nbyte <? 1) then Some (-10, w)
  else write_loop fuel sys fd nbyte 0 start timeout w.

(** [MtFrame::WaitEvents]: the events received, 0 on timeout or failure. *)
Definition WaitEvents fd (events timeout : Z) w : Z * E :=
  let '(start, w) := io_clock w in
  let timeout := if timeout <=? -1 then 0x7fffffff else timeout in
  let '(now, w) := io_clock w in
  if timed_out now start timeout then (0, w)
  else
    let ev := Z.lor (if has events EPOLLIN then EPOLLIN else 0) (if has events EPOLLOUT then EPOLLOUT else 0) in
    let '(ok, revents, w) := io_schedule fd ev timeout w in
    (if ok then revents else 0, w).

(** ** Writing *)

Section write_spec.
(** The bytes the peer of the descriptor has been sent, as the documentation of
    [write] and [send] has it: a failed call sends nothing, a successful one a
    prefix of what it was given, not longer than asked; reading the clock and
    waiting send nothing. *)
Context (buf : list Z) (sent : E -> list Z) (sys : Z -> Z -> E -> Z * Z * E).
Hypothesis sys_spec : forall off len w n errno w',
  sys off len w = (n, errno, w') -> 0 < len ->
  (n < 0 /\ sent w' = sent w) \/
  (0 <= n <= len /\ sent w' = sent w ++ take (Z.to_nat n) (drop (Z.to_nat off) buf)).
Hypothesis clock_spec : forall w, sent (io_clock w).2 = sent w.
Hypothesis schedule_spec : forall fd ev t w, sent (io_schedule fd ev t w).2 = sent w.

(** Why a call gives up: the time is over, the system call failed in a way that is
    not an invitation to try again, or the wait failed. *)
Definition gave_up (fd start timeout : Z) (r : Z) (w' : E) : Prop :=
  (r = -1 /\ exists w1 now, io_clock w1 = (now, w') /\ timed_out now start timeout = true) \/
  (r = -2 /\ exists off len w1 n errno, sys off len w1 = (n, errno, w') /\ n < 0 /\ errno <> EINTR /\ errno <> EAGAIN) \/
  (r = -3 /\ exists w1 ev, io_schedule fd EPOLLOUT timeout w1 = (false, ev, w')).

(** What a call did that returned [r]: sent everything, or a part and gave up. *)
Definition all_or_prefix (fd start timeout : Z) (w0 : E) (r : Z) (w' : E) : Prop :=
  (r = blen buf /\ sent w' = sent w0 ++ buf) \/
  (gave_up fd start timeout r w' /\ exists j, (j < length buf)%nat /\ sent w' = sent w0 ++ take j buf).

Lemma stopped_short fd start timeout w0 k r w' : 0 <= k < blen buf -> sent w' = sent w0 ++ take (Z.to_nat k) buf ->
  gave_up fd start timeout r w' -> all_or_prefix fd start timeout w0 r w'.
Proof. intros Hk Hs Hg. right. split; [done|]. exists (Z.to_nat k). unfold blen in Hk. split; [lia|done]. Qed.

Lemma write_loop_spec fuel fd k start timeout w w0 r w' :
  blen buf < 2 ^ 63 -> 0 <= k <= blen buf -> sent w = sent w0 ++ take (Z.to_nat k) buf ->
  write_loop fuel sys fd (blen buf) k start timeout w = Some (r, w') -> all_or_prefix fd start timeout w0 r w'.
Proof.
  intros Hlen. assert (Hall : forall w1, sent w1 = sent w0 ++ take (Z.to_nat (blen buf)) buf ->
    all_or_prefix fd start timeout w0 (blen buf) w1).
  { intros w1 Hs. left. split; [done|]. rewrite Hs. unfold blen. by rewrite Nat2Z.id, firstn_all. }
  revert k w. induction fuel as [|fuel IH]; intros k w Hk Hs HE; [done|]. cbn [write_loop] in HE.
  destruct (Z.ltb_spec k (blen buf)) as [Hlt|Hge]; cbn [negb] in HE.
  2: { injection HE as <- <-. apply Hall. rewrite Hs. do 3 f_equal. lia. }
  pose proof (clock_spec w) as Hc. destruct (io_clock w) as [now w1] eqn:Ec. cbn [snd] in Hc.
  destruct (timed_out now start timeout) eqn:Et.
  { injection HE as <- <-. apply (stopped_short _ _ _ _ k); [lia|by rewrite Hc|]. left. split; [done|]. by exists w, now. }
  pose proof (sys_spec k (blen buf - k) w1) as Hsys. destruct (sys k (blen buf - k) w1) as [[n errno] w2] eqn:Ey.
  specialize (Hsys n errno w2 eq_refl ltac:(lia)).
  assert (Hwait : forall k2 w3, 0 <= k2 < blen buf -> sent w3 = sent w0 ++ take (Z.to_nat k2) buf ->
    (let '(ok, _, w4) := io_schedule fd EPOLLOUT timeout w3 in
     if ok then write_loop fuel sys fd (blen buf) k2 start timeout w4 else Some (-3, w4)) = Some (r, w') ->
    all_or_prefix fd start timeout w0 r w').
  { intros k2 w3 Hk2 Hs3 HE'. pose proof (schedule_spec fd EPOLLOUT timeout w3) as Hsc.
    destruct (io_schedule fd EPOLLOUT timeout w3) as [[ok rev] w4] eqn:Es. cbn [snd] in Hsc. destruct ok.
    - apply (IH k2 w4); [lia|by rewrite Hsc|done].
    - injection HE' as <- <-. apply (stopped_short _ _ _ _ k2); [lia|by rewrite Hsc|]. right. right. split; [done|]. by exists w3, rev. }
  destruct (Z.ltb_spec n 0) as [Hn|Hn].
  - destruct Hsys as [[_ Hs2]|[? _]]; [|lia]. assert (Hs2' : sent w2 = sent w0 ++ take (Z.to_nat k) buf) by congruence.
    destruct (Z.eqb_spec errno EINTR) as [|Hni]; [by apply (IH k w2)|].
    destruct (Z.eqb_spec errno EAGAIN) as [|Hna]; cbn [negb] in HE; [apply (Hwait k w2); auto; lia|].
    injection HE as <- <-. apply (stopped_short _ _ _ _ k); [lia|done|]. right. left. split; [done|].
    by exists k, (blen buf - k), w1, n, errno.
  - destruct Hsys as [[? _]|[Hn2 Hs2]]; [lia|]. rewrite u64_small in HE by (unfold in_u64; lia).
    assert (Hs2' : sent w2 = sent w0 ++ take (Z.to_nat (k + n)) buf).
    { rewrite Hs2, Hc, Hs, <- app_assoc. f_equal. rewrite Z2Nat.inj_add by lia. by rewrite take_take_drop. }
    destruct (Z.leb_spec (blen buf) (k + n)).
    + injection HE as <- <-. apply Hall. rewrite Hs2'. do 3 f_equal. lia.
    + apply (Hwait (k + n) w2); auto. lia.
Qed.

(** An environment that lets the call get on: [left] bounds how often the system
    call will still be interrupted, be blocked or send nothing. *)
Record gets_on (left : E -> nat) : Prop := {
  go_clock : forall w, (left (io_clock w).2 <= left w)%nat;
  go_schedule : forall fd ev t w, (left (io_schedule fd ev t w).2 <= left w)%nat;
  go_sys : forall off len w n errno w', sys off len w = (n, errno, w') ->
    (left w' <= left w)%nat /\ (n = 0 \/ n < 0 /\ (errno = EINTR \/ errno = EAGAIN) -> (left w' < left w)%nat);
}.

Lemma write_loop_ends left : gets_on left -> forall fuel fd k start timeout w, blen buf < 2 ^ 63 -> 0 <= k <= blen buf ->
  (length buf - Z.to_nat k + left w < fuel)%nat -> is_Some (write_loop fuel sys fd (blen buf) k start timeout w).
Proof.
  intros G. induction fuel as [|fuel IH]; intros fd k start timeout w Hl Hk Hf; [lia|]. cbn [write_loop].
  destruct (Z.ltb_spec k (blen buf)) as [Hlt|Hge]; cbn [negb]; [|eauto].
  pose proof (go_clock _ G w) as Hc. destruct (io_clock w) as [now w1]. cbn [snd] in Hc.
  destruct (timed_out now start timeout); [eauto|].
  pose proof (sys_spec k (blen buf - k) w1) as Hsys. pose proof (go_sys _ G k (blen buf - k) w1) as Hg.
  destruct (sys k (blen buf - k) w1) as [[n errno] w2]. specialize (Hsys n errno w2 eq_refl ltac:(lia)).
  destruct (Hg n errno w2 eq_refl) as [Hg1 Hg2]. unfold blen in *.
  assert (Hwait : forall k2, 0 <= k2 <= Z.of_nat (length buf) -> (length buf - Z.to_nat k2 + left w2 < fuel)%nat ->
    is_Some (let '(ok, _, w4) := io_schedule fd EPOLLOUT timeout w2 in
     if ok then write_loop fuel sys fd (Z.of_nat (length buf)) k2 start timeout w4 else Some (-3, w4))).
  { intros k2 Hk2 Hf2. pose proof (go_schedule _ G fd EPOLLOUT timeout w2) as Hsc.
    destruct (io_schedule fd EPOLLOUT timeout w2) as [[ok rev] w4]. cbn [snd] in Hsc. destruct ok; [|eauto]. apply IH; lia. }
  destruct (Z.ltb_spec n 0) as [Hn|Hn].
  - destruct (Z.eqb_spec errno EINTR) as [He|_]; [apply IH; [done..|]; lia|].
    destruct (Z.eqb_spec errno EAGAIN) as [He|_]; cbn [negb]; [apply Hwait; [done|]; lia|eauto].
  - destruct Hsys as [[? _]|[Hn2 _]]; [lia|]. rewrite u64_small by (unfold in_u64; lia).
    destruct (_ <=? _); [eauto|]. apply Hwait; [lia|]. destruct (decide (n = 0)) as [-> | Hnz]; [|lia].
    rewrite Z.add_0_r. lia.
Qed.

(** C36: [MtFrame::write] and [MtFrame::send] send the whole buffer or give up with
    an error.  Whatever the environment does (short writes, interrupts, waiting,
    timeouts), when they return the number of bytes asked for, exactly the bytes of
    the buffer were sent, once and in order; otherwise they return -1 because the
    time was over, -2 because the system call failed other than by an interrupt or
    by blocking, or -3 because waiting failed, and what was sent is a proper prefix
    of the buffer.  They do return when the system call is interrupted, is blocked
    or sends nothing only finitely often: within one round per byte and one per
    such event. *)
Theorem write_sends_all_or_prefix call fd timeout w :
  call = write \/ call = send -> 0 <= fd -> 0 < blen buf < 2 ^ 63 ->
  (forall fuel r w', call fuel sys fd false (blen buf) timeout w = Some (r, w') ->
     all_or_prefix fd (io_clock w).1 timeout w r w') /\
  forall left fuel, gets_on left -> (length buf + left w < fuel)%nat ->
     is_Some (call fuel sys fd false (blen buf) timeout w).
Proof.
  intros Hcall Hfd Hl. split.
  - intros fuel r w' HE. pose proof (clock_spec w) as Hc.
    destruct Hcall as [-> | ->]; [unfold write in HE|unfold send in HE]; destruct (io_clock w) as [start w1];
      cbn [fst snd] in *; rewrite (proj2 (Z.ltb_ge fd 0)), (proj2 (Z.ltb_ge (blen buf) 1)) in HE by lia; cbn [orb] in HE;
      apply (write_loop_spec fuel fd 0 start timeout w1 w) in HE; try done; try lia; by rewrite Hc, app_nil_r.
  - intros left fuel G Hf. pose proof (go_clock _ G w) as Hc.
    destruct Hcall as [-> | ->]; [unfold write|unfold send]; destruct (io_clock w) as [start w1]; cbn [snd] in Hc;
      rewrite (proj2 (Z.ltb_ge fd 0)), (proj2 (Z.ltb_ge (blen buf) 1)) by lia; cbn [orb];
      apply (write_loop_ends left); try done; lia.
Qed.
End write_spec.

(** ** Deadlines *)

Section deadline.
(** The clock: a reading moves the time on by at least 1 ms, and neither it nor a
    system call nor a wait takes longer than [D]. *)
Context (time : E -> Z) (D : Z) (sys : Z -> Z -> E -> Z * Z * E).
Hypothesis clock_reads : forall w, (io_clock w).1 = time w /\ time w < time (io_clock w).2 <= time w + D.
Hypothesis schedule_time : forall fd ev t w, time w <= time (io_schedule fd ev t w).2 <= time w + D.
Hypothesis sys_time : forall off len w, time w <= time (sys off len w).2 <= time w + D.

Lemma write_loop_deadline fuel fd nbyte k start timeout w :
  0 <= timeout -> timeout + 3 * D < 2 ^ 31 -> start <= time w <= start + timeout + 3 * D ->
  (Z.to_nat (start + timeout + 1 - time w) < fuel)%nat ->
  exists r w', write_loop fuel sys fd nbyte k start timeout w = Some (r, w').
Proof.
  intros Ht HD. revert k w. induction fuel as [|fuel IH]; intros k w Hw Hf; [lia|]. cbn [write_loop].
  destruct (k <? nbyte); cbn [negb]; [|eauto]. destruct (clock_reads w) as [Hc1 Hc2].
  destruct (io_clock w) as [now w1]. cbn [fst snd] in *. unfold timed_out.
  rewrite u64_small by (unfold in_u64; lia). rewrite i32_small by lia.
  destruct (Z.ltb_spec timeout (now - start)) as [Hto|Hto]; [eauto|].
  pose proof (sys_time k (nbyte - k) w1) as Hs. destruct (sys k (nbyte - k) w1) as [[n errno] w2]. cbn [snd] in Hs.
  assert (Hagain : forall k2 w3, time w2 <= time w3 <= time w2 + D ->
    exists r w', write_loop fuel sys fd nbyte k2 start timeout w3 = Some (r, w')).
  { intros k2 w3 H3. apply IH; lia. }
  assert (Hwait : forall k2, exists r w', (let '(ok, _, w4) := io_schedule fd EPOLLOUT timeout w2 in
     if ok then write_loop fuel sys fd nbyte k2 start timeout w4 else Some (-3, w4)) = Some (r, w')).
  { intros k2. pose proof (schedule_time fd EPOLLOUT timeout w2) as Hsc.
    destruct (io_schedule fd EPOLLOUT timeout w2) as [[ok rev] w4]. cbn [snd] in Hsc.
    destruct ok; [by apply Hagain|eauto]. }
  destruct (n <? 0).
  - destruct (errno =? EINTR); [apply Hagain; lia|]. destruct (errno =? EAGAIN); cbn [negb]; [apply Hwait|eauto].
  - destruct (nbyte <=? u64 (k + n)); [eauto|apply Hwait].
Qed.

(** [MtFrame::write] ends.  If every clock reading moves on and no single
    step takes longer than [D], with the timeout and three steps below 2{^31} ms,
    the call returns after at most [timeout + 2] rounds, however often the system
    call is interrupted or would block. *)
Theorem write_terminates fd null nbyte timeout w :
  0 <= timeout -> timeout + 3 * D < 2 ^ 31 ->
  exists r w', write (Z.to_nat (timeout + 2)) sys fd null nbyte timeout w = Some (r, w').
Proof.
  intros Ht HD. unfold write. destruct (clock_reads w) as [Hc1 Hc2]. destruct (io_clock w) as [start w1].
  cbn [fst snd] in *. destruct (_ || _); [eauto|]. apply write_loop_deadline; lia.
Qed.
End deadline.
End wrappers.

(** ** A scripted environment

    The state is the time, the bytes sent and the results the next system calls
    will have; a scripted call sends at most what it is asked to. *)

Record script := mkScript { sc_time : Z; sc_sent : list Z; sc_plan : list (Z * Z) }.

#[export] Instance script_world : IoWorld script := {
  io_clock w := (sc_time w, mkScript (sc_time w + 1) (sc_sent w) (sc_plan w));
  io_schedule fd ev t w := (true, ev, mkScript (sc_time w + 5) (sc_sent w) (sc_plan w));
}.

Definition script_sys (buf : list Z) (off len : Z) (w : script) : Z * Z * script :=
  match sc_plan w with
  | [] => (-1, EAGAIN, w)
  | (n, errno) :: plan =>
      if n <? 0 then (-1, errno, mkScript (sc_time w) (sc_sent w) plan)
      else
        let n := Z.min n len in
        (n, 0, mkScript (sc_time w) (sc_sent w ++ take (Z.to_nat n) (drop (Z.to_nat off) buf)) plan)
  end.

Lemma script_sys_spec buf off len w n errno w' :
  script_sys buf off len w = (n, errno, w') -> 0 < len ->
  (n < 0 /\ sc_sent w' = sc_sent w) \/
  (0 <= n <= len /\ sc_sent w' = sc_sent w ++ take (Z.to_nat n) (drop (Z.to_nat off) buf)).
Proof.
  unfold script_sys. destruct (sc_plan w) as [|[m en] plan]; [intros [= <- <- <-] _; left; by split|].
  destruct (Z.ltb_spec m 0); intros [= <- <- <-] Hl; [left; by split|right]. split; [lia|done].
Qed.

(** Two bytes, an interrupt, a full socket, then the rest. *)
Definition demo_script : script := mkScript 1000 [] [(2, 0); (-1, EINTR); (-1, EAGAIN); (100, 0)].

(** The script gets on: it has so many system calls in it, and one that would block
    for ever is not made. *)
Definition script_left (w : script) : nat := length (sc_plan w).

(** A kernel that follows the script and accepts everything after it. *)
Definition kind_sys (buf : list Z) (off len : Z) (w : script) : Z * Z * script :=
  match sc_plan w with
  | [] => (len, 0, mkScript (sc_time w) (sc_sent w ++ take (Z.to_nat len) (drop (Z.to_nat off) buf)) [])
  | _ => script_sys buf off len w
  end.

Lemma kind_sys_spec buf off len w n errno w' :
  kind_sys buf off len w = (n, errno, w') -> 0 < len ->
  (n < 0 /\ sc_sent w' = sc_sent w) \/
  (0 <= n <= len /\ sc_sent w' = sc_sent w ++ take (Z.to_nat n) (drop (Z.to_nat off) buf)).
Proof.
  unfold kind_sys. destruct (sc_plan w) as [|[m en] plan] eqn:E; [|apply script_sys_spec].
  intros [= <- <- <-] Hl. right. split; [lia|done].
Qed.

Lemma kind_sys_left buf off len w n errno w' : 0 < len -> kind_sys buf off len w = (n, errno, w') ->
  (script_left w' <= script_left w)%nat /\
  (n = 0 \/ n < 0 /\ (errno = EINTR \/ errno = EAGAIN) -> (script_left w' < script_left w)%nat).
Proof.
  intros Hl. unfold kind_sys, script_sys, script_left. destruct (sc_plan w) as [|[m en] plan]; [intros [= <- <- <-]; cbn; lia|].
  destruct (m <? 0); intros [= <- <- <-]; cbn; lia.
Qed.

Lemma write_sends_all_or_prefix_witness :
  let sys off len := kind_sys [1; 2; 3; 4; 5] off (Z.max 1 len) in
  gets_on sys script_left /\
  exists w', write 20 sys 7 false 5 100 demo_script = Some (5, w') /\ sc_sent w' = [1; 2; 3; 4; 5] /\
    send 20 sys 7 false 5 100 demo_script = Some (5, w').
Proof.
  cbv zeta. set (sys := fun off len : Z => _).
  assert (G : gets_on sys script_left).
  { split; [done|done|]. intros off len w n errno w' E. exact (kind_sys_left [1; 2; 3; 4; 5] off (Z.max 1 len) w n errno w' ltac:(lia) E). }
  assert (Hs : forall off len w n errno w', sys off len w = (n, errno, w') -> 0 < len ->
    (n < 0 /\ sc_sent w' = sc_sent w) \/
    (0 <= n <= len /\ sc_sent w' = sc_sent w ++ take (Z.to_nat n) (drop (Z.to_nat off) [1; 2; 3; 4; 5]))).
  { intros off len w n errno w' E Hl. unfold sys in E. rewrite Z.max_r in E by lia. by eapply kind_sys_spec. }
  split; [done|].
  destruct (write_sends_all_or_prefix [1; 2; 3; 4; 5] sc_sent sys Hs ltac:(done) ltac:(done) write 7 100 demo_script)
    as [Hp Ht]; [by left|lia|by vm_compute|].
  destruct (Ht script_left 20%nat G) as [[r w'] E]; [cbn; lia|]. change (blen [1; 2; 3; 4; 5]) with 5 in *.
  assert (Hr : r = 5). { clear -E. vm_compute in E. congruence. }
  subst r. exists w'. split; [done|]. split.
  - destruct (Hp _ _ _ E) as [[_ H]|[[[Hx _]|[[Hx _]|[Hx _]]] _]]; [exact H|done..].
  - exact E.
Defined.

Lemma write_terminates_witness :
  exists r w', write (Z.to_nat (100 + 2)) (script_sys [1; 2; 3]) 7 false 3 100 (mkScript 0 [] []) = Some (r, w').
Proof.
  unshelve eapply (write_terminates sc_time 5 (script_sys [1; 2; 3]) _ _ _ 7 false 3 100 (mkScript 0 [] [])).
  - intros w. simpl. lia.
  - intros fd ev t w. simpl. lia.
  - intros off len w. unfold script_sys. destruct (sc_plan w) as [|[n en] plan]; simpl; [lia|].
    destruct (n <? 0); simpl; lia.
  - lia.
  - lia.
Defined.
