(* ===== verification/ShmMq.v ===== *)
(** * The shared-memory message queue

    Models [src/src/comm/tbase/tshmcommu.h] and [tshmcommu.cpp]: the ring
    [CShmMQ] (proxy and workers exchange packets through two of them), producers
    and consumers with and without lock, and [CTShmCommu].

    The ring is modelled byte by byte: the shared words [head_], [tail_], [pid_],
    the statistics, and the data block.  A [memcpy] outside the block or outside
    the caller's buffer is undefined ([None]).  An operation is one step: the
    locked variants serialise the producers and the consumers. *)

From Stdlib Require Import ZArith Lia.
From stdpp Require Import base list option.
From S2P Require Import Prelude Bytes.

Definition C_HEAD_SIZE : Z := 8.
Definition C_SAFE_AREA_LEN : Z := 4.
Definition C_SAFE_AREA_VAL : Z := 0x58505053.

Definition COMMU_ERR_SHMNEW : Z := -102.
Definition COMMU_ERR_SHMMAP : Z := -103.
Definition COMMU_ERR_FILEOPEN : Z := -111.
Definition COMMU_ERR_MQFULL : Z := -121.
Definition COMMU_ERR_MQEMPTY : Z := -122.
Definition COMMU_ERR_OTFBUFF : Z := -123.
Definition COMMU_ERR_SHM_NULL : Z := -124.
Definition COMMU_ERR_CHKFAIL : Z := -126.
Definition COMMU_ERR_FLOCK : Z := -201.

(** [class CShmMQ] with the shared memory it points to ([Q_STATINFO], the words
    and the block; [mq_blocksize] is the object's own field). *)
Record ShmMQ := mkShmMQ {
  mq_msg_count : Z;
  mq_process_count : Z;
  mq_curflow : Z;
  mq_head : Z;
  mq_tail : Z;
  mq_pid : Z;
  mq_block : list Z;
  mq_blocksize : Z;
}.

Definition set_head (h : Z) (q : ShmMQ) : ShmMQ :=
  mkShmMQ (mq_msg_count q) (mq_process_count q) (mq_curflow q) h (mq_tail q) (mq_pid q) (mq_block q) (mq_blocksize q).
Definition set_msg_count (c : Z) (q : ShmMQ) : ShmMQ :=
  mkShmMQ c (mq_process_count q) (mq_curflow q) (mq_head q) (mq_tail q) (mq_pid q) (mq_block q) (mq_blocksize q).
Definition set_tail_block (t : Z) (b : list Z) (q : ShmMQ) : ShmMQ :=
  mkShmMQ (mq_msg_count q) (mq_process_count q) (mq_curflow q) (mq_head q) t (mq_pid q) b (mq_blocksize q).
Definition count_processed (flow : Z) (q : ShmMQ) : ShmMQ :=
  mkShmMQ (mq_msg_count q) (i32 (mq_process_count q + 1)) flow (mq_head q) (mq_tail q) (mq_pid q) (mq_block q) (mq_blocksize q).

(** [CShmMQ::init]: [ret] is the result of [getmemory] ([> 0] for a new segment,
    whose head and tail are cleared, 0 for one that existed) and [q] the memory
    found. *)
Definition init (ret shmsize : Z) (q : ShmMQ) : Z * option ShmMQ :=
  if ret <? 0 then (ret, None)
  else
    let '(h, t) := if 0 <? ret then (0, 0) else (mq_head q, mq_tail q) in
    (0, Some (mkShmMQ (mq_msg_count q) (mq_process_count q) (mq_curflow q) h t 0 (mq_block q)
                (u32 (shmsize - 4 * 2 - 4)))).

(** [CShmMQ::clear] on an attached queue. *)
Definition clear (q : ShmMQ) : ShmMQ :=
  mkShmMQ 0 (mq_process_count q) (mq_curflow q) 0 0 0 (mq_block q) (mq_blocksize q).

(** [CShmMQ::getstat]: used and free length. *)
Definition getstat (q : ShmMQ) : Z * Z :=
  let head := mq_head q in let tail := mq_tail q in
  (u32 (if head <=? tail then tail - head else tail + mq_blocksize q - head),
   u32 (if tail <? head then head - tail else head + mq_blocksize q - tail)).

Definition isEmpty (q : ShmMQ) : bool := mq_msg_count q =? 0.

Section mq.
(** [CMisc::check_process_exist] *)
Variable process_exist : Z -> bool.

(** [CShmMQ::do_check]: positions outside the block make the queue cleared,
    unless another live process is at it. *)
Definition do_check (head tail : Z) (q : ShmMQ) : bool * ShmMQ :=
  if (head <=? mq_blocksize q) && (tail <=? mq_blocksize q) then (true, q)
  else
    let clr := if mq_pid q =? 0 then true else negb (process_exist (mq_pid q)) in
    (false, if clr then clear q else q).

(** The recovery of [dequeue]: [if (do_check(...)) clear();] *)
Definition check_clear (q : ShmMQ) : ShmMQ :=
  let '(ok, q) := do_check (mq_head q) (mq_tail q) q in if ok then clear q else q.

(** The 12 bytes before the data: magic, total length, flow. *)
Definition sHead (total_len flow : Z) : list Z :=
  le32 C_SAFE_AREA_VAL ++ le32 total_len ++ le32 flow.

(** The writes of [enqueue] for the three ways a message can lie in the block;
    the result is the new tail and the new block. *)
Definition enqueue_write (data : list Z) (data_len flow : Z) (q : ShmMQ) : option (Z * list Z) :=
  let tail := mq_tail q in
  let bs := mq_blocksize q in
  let tail_len := u32 (bs - tail) in
  let total_len := u32 (data_len + C_HEAD_SIZE + 2 * C_SAFE_AREA_LEN) in
  let hd := sHead total_len flow in
  let magic := le32 C_SAFE_AREA_VAL in
  if total_len <=? tail_len then
    b ← bwrite tail hd (mq_block q);
    d ← bread 0 data_len data;
    b ← bwrite (tail + C_SAFE_AREA_LEN + C_HEAD_SIZE) d b;
    b ← bwrite (tail + C_SAFE_AREA_LEN + C_HEAD_SIZE + data_len) magic b;
    Some (u32 (tail + (data_len + C_HEAD_SIZE + C_SAFE_AREA_LEN * 2)), b)
  else if (C_HEAD_SIZE + C_SAFE_AREA_LEN <=? tail_len)
          && (tail_len <? u32 (C_HEAD_SIZE + 2 * C_SAFE_AREA_LEN + data_len)) then
    b ← bwrite tail hd (mq_block q);
    let first_len := u32 (tail_len - C_SAFE_AREA_LEN - C_HEAD_SIZE) in
    let second_len := u32 (data_len + C_SAFE_AREA_LEN - first_len) in
    b ← (if C_SAFE_AREA_LEN <=? second_len then
           d ← bread 0 first_len data;
           b ← bwrite (tail + C_SAFE_AREA_LEN + C_HEAD_SIZE) d b;
           d ← bread first_len (second_len - C_SAFE_AREA_LEN) data;
           b ← bwrite 0 d b;
           bwrite (second_len - C_SAFE_AREA_LEN) magic b
         else
           d ← bread 0 (u32 (first_len - C_SAFE_AREA_LEN + second_len)) data;
           b ← bwrite (tail + C_SAFE_AREA_LEN + C_HEAD_SIZE) d b;
           if second_len =? 3 then
             b ← bwrite (bs - 1) [0x53] b; b ← bwrite 0 [0x50] b;
             b ← bwrite 1 [0x50] b; bwrite 2 [0x58] b
           else if second_len =? 2 then
             b ← bwrite (bs - 2) [0x53] b; b ← bwrite (bs - 1) [0x50] b;
             b ← bwrite 0 [0x50] b; bwrite 1 [0x58] b
           else if second_len =? 1 then
             b ← bwrite (bs - 3) [0x53] b; b ← bwrite (bs - 2) [0x50] b;
             b ← bwrite (bs - 1) [0x50] b; bwrite 0 [0x58] b
           else Some b);
    Some (u32 (tail + (i32 total_len - i32 bs)), b)
  else
    d ← bread 0 tail_len hd;
    b ← bwrite tail d (mq_block q);
    let second_len := u32 (C_SAFE_AREA_LEN + C_HEAD_SIZE - tail_len) in
    d ← bread tail_len second_len hd;
    b ← bwrite 0 d b;
    d ← bread 0 data_len data;
    b ← bwrite second_len d b;
    b ← bwrite (second_len + data_len) magic b;
    Some (u32 (second_len + data_len + C_SAFE_AREA_LEN), b).

(** [CShmMQ::enqueue]: the number of messages after success, or an error. *)
Definition enqueue (data : list Z) (data_len flow : Z) (q : ShmMQ) : option (Z * ShmMQ) :=
  let head := mq_head q in let tail := mq_tail q in
  let '(ok, q) := do_check head tail q in
  if negb ok then Some (COMMU_ERR_CHKFAIL, q)
  else
    let free_len := u32 (if tail <? head then head - tail else head + mq_blocksize q - tail) in
    let total_len := u32 (data_len + C_HEAD_SIZE + 2 * C_SAFE_AREA_LEN) in
    if free_len <=? total_len then Some (COMMU_ERR_MQFULL, q)
    else
      '(t, b) ← enqueue_write data data_len flow q;
      let n := i32 (mq_msg_count q + 1) in
      Some (n, set_msg_count n (set_tail_block t b q)).

(** What [dequeue] returns: the code, the out-parameters [data_len] and [flow],
    and the bytes it left at the start of the caller's buffer. *)
Record deq_result := mkDeq { dq_ret : Z; dq_len : Z; dq_flow : Z; dq_buf : list Z }.

(** [memcpy] of [n] bytes that start at position [head] and may wrap; also the
    position after them. *)
Definition read_wrap (head n bs : Z) (block : list Z) : option (list Z * Z) :=
  if bs <? u32 (head + n) then
    let first_size := u32 (bs - head) in
    let second_size := u32 (n - first_size) in
    a ← bread head first_size block;
    b ← bread 0 second_size block;
    Some (a ++ b, second_size)
  else
    a ← bread head n block;
    Some (a, u32 (head + n)).

(** [CShmMQ::dequeue] *)
Definition dequeue (buf_size flow0 : Z) (q : ShmMQ) : option (deq_result * ShmMQ) :=
  let head := mq_head q in let tail := mq_tail q in
  let '(ok, q) := do_check head tail q in
  if negb ok then Some (mkDeq COMMU_ERR_CHKFAIL 0 flow0 [], q)
  else if head =? tail then Some (mkDeq COMMU_ERR_MQEMPTY 0 flow0 [], q)
  else
    let q := set_msg_count (i32 (mq_msg_count q - 1)) q in
    let bs := mq_blocksize q in
    let used_len := u32 (if head <? tail then tail - head else tail + bs - head) in
    '(hd, head) ← read_wrap head (C_SAFE_AREA_LEN + C_HEAD_SIZE) bs (mq_block q);
    let total_len := of_le (take 4 (drop 4 hd)) in
    let flow := of_le (take 4 (drop 8 hd)) in
    if negb (of_le (take 4 hd) =? C_SAFE_AREA_VAL) then
      Some (mkDeq COMMU_ERR_CHKFAIL 0 flow [], check_clear q)
    else if used_len <? total_len then
      Some (mkDeq COMMU_ERR_MQEMPTY 0 flow [], check_clear q)
    else
      let data_len := u32 (total_len - C_HEAD_SIZE - C_SAFE_AREA_LEN) in
      if buf_size <? data_len then Some (mkDeq COMMU_ERR_OTFBUFF 0 flow [], check_clear q)
      else
        '(buf, head) ← read_wrap head data_len bs (mq_block q);
        let q := set_head head q in
        let data_len := u32 (data_len - C_SAFE_AREA_LEN) in
        w ← bread data_len 4 buf;
        if negb (of_le w =? C_SAFE_AREA_VAL) then
          Some (mkDeq COMMU_ERR_CHKFAIL 0 flow buf, check_clear q)
        else Some (mkDeq 0 data_len flow buf, count_processed flow q).

(** ** Producers, consumers, [CTShmCommu] *)

(** [CShmProducer::produce]; the flag says whether the notify descriptor is
    written ([notify_fd_ > 0] and the queue was empty). *)
Definition produce (notify_fd : Z) (data : list Z) (data_len flow : Z) (q : ShmMQ)
  : option (Z * bool * ShmMQ) :=
  '(ret, q) ← enqueue data data_len flow q;
  Some (ret, (ret =? 1) && (0 <? notify_fd), q).

(** [CShmProducerL::produce]: under [flock] ([lock] is its result). *)
Definition produceL (lock notify_fd : Z) (data : list Z) (data_len flow : Z) (q : ShmMQ)
  : option (Z * bool * ShmMQ) :=
  if lock =? 0 then produce notify_fd data data_len flow q else Some (COMMU_ERR_FLOCK, false, q).

(** [CShmComsumer::comsume] and [CShmComsumerL::comsume]. *)
Definition comsume (buf_size flow0 : Z) (q : ShmMQ) : option (deq_result * ShmMQ) := dequeue buf_size flow0 q.
Definition comsumeL (lock buf_size len0 flow0 : Z) (q : ShmMQ) : option (deq_result * ShmMQ) :=
  if isEmpty q then Some (mkDeq COMMU_ERR_MQEMPTY len0 flow0 [], q)
  else if lock =? 0 then dequeue buf_size flow0 q
  else Some (mkDeq COMMU_ERR_FLOCK len0 flow0 [], q).

(** The virtual calls: [CTShmCommu::init] chose the producer and the consumer by
    [locktype_]; [lock] is the result of [flock] where the class calls it. *)
Definition LOCK_TYPE_PRODUCER : Z := 1.
Definition LOCK_TYPE_COMSUMER : Z := 2.
Definition producer_produce (locktype lock notify_fd : Z) (data : list Z) (data_len flow : Z) (q : ShmMQ)
  : option (Z * bool * ShmMQ) :=
  if Z.land locktype LOCK_TYPE_PRODUCER =? 0 then produce notify_fd data data_len flow q
  else produceL lock notify_fd data data_len flow q.
Definition comsumer_comsume (locktype lock buf_size len0 flow0 : Z) (q : ShmMQ) : option (deq_result * ShmMQ) :=
  if Z.land locktype LOCK_TYPE_COMSUMER =? 0 then comsume buf_size flow0 q else comsumeL lock buf_size len0 flow0 q.

(** [CTShmCommu::sendto]: the return value, and whether [CB_SENDDATA] ([true]) or
    [CB_SENDERROR] ([false]) is called. *)
Definition sendto (locktype lock notify_fd flow : Z) (data : list Z) (data_len : Z) (q : ShmMQ)
  : option (Z * bool * ShmMQ) :=
  '(ret, _, q) ← producer_produce locktype lock notify_fd data data_len flow q;
  if 0 <=? ret then Some (0, true, q) else Some (ret, false, q).

(** [CTShmCommu::poll]: the messages given to the [CB_RECVDATA] callback, in
    order; [block] makes it loop until the queue is empty or fails, at most [fuel]
    rounds.  [locks] are the results of [flock], one per round. *)
Fixpoint poll (fuel : nat) (locktype : Z) (locks : nat -> Z) (block : bool) (buff_size len0 flow0 : Z) (q : ShmMQ)
  : option (list (Z * list Z) * ShmMQ) :=
  match fuel with
  | O => None
  | S fuel =>
      '(r, q) ← comsumer_comsume locktype (locks O) buff_size len0 flow0 q;
      if negb (dq_ret r =? 0) then Some ([], q)
      else
        let msg := (dq_flow r, take (Z.to_nat (dq_len r)) (dq_buf r)) in
        if block then
          '(l, q) ← poll fuel locktype (fun i => locks (S i)) block buff_size (dq_len r) (dq_flow r) q;
          Some (msg :: l, q)
        else Some ([msg], q)
  end.
End mq.

(** ** The queue as a sequence of messages *)

Section refine.
Context (process_exist : Z -> bool).
Implicit Types (q : ShmMQ) (m : Z * list Z) (h t N : nat).

(** A message and its bytes in the ring. *)
Definition total_of m : nat := (length m.2 + 16)%nat.
Definition enc m : list Z :=
  sHead (Z.of_nat (total_of m)) m.1 ++ m.2 ++ le32 C_SAFE_AREA_VAL.

#[local] Arguments enc _ : simpl never.

Lemma length_enc m : length (enc m) = total_of m.
Proof. unfold enc, total_of, sHead. rewrite !length_app. simpl. lia. Qed.

Definition usedn N h t : nat := if decide (h <= t)%nat then (t - h)%nat else (t + N - h)%nat.

(** [q] with head [h] and tail [t] holds [msgs]: between the two positions the
    ring has their encodings, one after the other. *)
Record rep_at q h t (msgs : list (Z * list Z)) : Prop := {
  rp_size : mq_blocksize q = blen (mq_block q);
  rp_bound : 0 < mq_blocksize q < 2 ^ 31;
  rp_head : mq_head q = Z.of_nat h /\ (h <= length (mq_block q))%nat;
  rp_tail : mq_tail q = Z.of_nat t /\ (t <= length (mq_block q))%nat;
  rp_zero : t = 0%nat -> h = 0%nat;
  rp_used : (usedn (length (mq_block q)) h t < length (mq_block q))%nat;
  rp_bytes : take (usedn (length (mq_block q)) h t) (rot h (mq_block q)) = concat (map enc msgs);
  rp_flow : Forall (fun m => in_u32 m.1) msgs;
  rp_count : mq_msg_count q = Z.of_nat (length msgs);
}.

Definition rep q msgs : Prop := exists h t, rep_at q h t msgs.

Definition bytes_of (msgs : list (Z * list Z)) : nat := length (concat (map enc msgs)).

Lemma rep_used q h t msgs : rep_at q h t msgs -> usedn (length (mq_block q)) h t = bytes_of msgs.
Proof.
  intros R. unfold bytes_of. rewrite <- (rp_bytes _ _ _ _ R). rewrite length_take, length_rot.
  pose proof (rp_used _ _ _ _ R). lia.
Qed.

Lemma bytes_of_count msgs : (16 * length msgs <= bytes_of msgs)%nat.
Proof.
  unfold bytes_of. induction msgs as [|m msgs IH]; [simpl; lia|].
  cbn [map concat]. rewrite length_app, length_enc. cbn [length]. unfold total_of. lia.
Qed.

(** The writes of [enqueue] put the message at the tail of the ring. *)
Lemma enqueue_write_ok q h t msgs data flow :
  rep_at q h t msgs -> in_u32 flow ->
  let N := length (mq_block q) in
  let m := (flow, data) in
  (bytes_of msgs + total_of m < N)%nat ->
  enqueue_write data (blen data) flow q =
    Some (Z.of_nat (adv N t (total_of m)), ring_write t (enc m) (mq_block q)).
Proof.
  intros R Hflow N m Hroom.
  destruct (rp_tail _ _ _ _ R) as [Ht HtN]. pose proof (rp_bound _ _ _ _ R) as Hb.
  pose proof (rp_size _ _ _ _ R) as Hs. unfold blen in Hs. fold N in Hs, HtN.
  unfold enqueue_write. rewrite Ht, Hs.
  assert (Hd : blen data = Z.of_nat (length data)) by done.
  assert (Htot : Z.of_nat (total_of m) = Z.of_nat (length data) + 16) by (unfold total_of, m; simpl; lia).
  unfold C_HEAD_SIZE, C_SAFE_AREA_LEN. rewrite (u32_small (Z.of_nat N - Z.of_nat t)) by (unfold in_u32; lia).
  replace (blen data + 8 + 2 * 4) with (Z.of_nat (total_of m)) by lia.
  replace (8 + 2 * 4 + blen data) with (Z.of_nat (total_of m)) by lia.
  rewrite (u32_small (Z.of_nat (total_of m))) by (unfold in_u32; lia).
  set (hd := sHead (Z.of_nat (total_of m)) flow). assert (Hhd : length hd = 12%nat) by done.
  set (mg := le32 C_SAFE_AREA_VAL). assert (Hmg : length mg = 4%nat) by done.
  assert (Henc : enc m = hd ++ data ++ mg) by done.
  pose proof (length_enc m) as Hle.
  destruct (Z.leb_spec (Z.of_nat (total_of m)) (Z.of_nat N - Z.of_nat t)) as [Ha|Ha].
  { rewrite (bread_all (blen data)) by done. cbn [mbind option_bind].
    rewrite bwrite_seq by (unfold blen; rewrite ?Hhd; lia).
    rewrite bwrite_seq by (rewrite ?blen_app; unfold blen; rewrite ?Hhd; lia).
    rewrite <- app_assoc, <- Henc. rewrite (bwrite_at _ t) by (done || (rewrite Hle; fold N; lia)).
    cbn [mbind option_bind]. unfold adv, ring_write. rewrite Hle. fold N. rewrite !decide_True by lia.
    do 2 f_equal. rewrite u32_small; unfold in_u32; lia. }
  assert (Hadv : adv N t (total_of m) = (t + total_of m - N)%nat) by (unfold adv; rewrite decide_False by lia; done).
  assert (Hrw : ring_write t (enc m) (mq_block q) =
    splice 0 (drop (N - t) (enc m)) (splice t (take (N - t) (enc m)) (mq_block q))).
  { unfold ring_write. rewrite Hle. fold N. by rewrite decide_False by lia. }
  assert (Htwo : forall b1 b2, enc m = b1 ++ b2 -> length b1 = (N - t)%nat ->
    exists b', bwrite (Z.of_nat t) b1 (mq_block q) = Some b' /\
      bwrite 0 b2 b' = Some (ring_write t (enc m) (mq_block q))).
  { intros b1 b2 E Hl1. assert (Hl2 : (length b1 + length b2 = total_of m)%nat) by (rewrite <- Hle, E, length_app; done).
    rewrite Hrw, E. rewrite take_app_length', drop_app_length' by done.
    eexists. split; [apply (bwrite_at _ t); [done|fold N; lia]|].
    apply (bwrite_at _ 0); [done|]. rewrite length_splice; fold N; lia. }
  destruct (Z.leb_spec (8 + 4) (Z.of_nat N - Z.of_nat t)) as [Hb2|Hb2].
  - rewrite (proj2 (Z.ltb_lt _ _)) by lia. cbn [andb].
    set (fl := (N - t - 12)%nat). set (sl := (total_of m - (N - t))%nat).
    replace (u32 (Z.of_nat N - Z.of_nat t - 4 - 8)) with (Z.of_nat fl) by (rewrite u32_small; unfold in_u32; lia).
    replace (u32 (blen data + 4 - Z.of_nat fl)) with (Z.of_nat sl) by (rewrite u32_small; unfold in_u32; lia).
    assert (Hfin : forall (W : list Z -> option (list Z)),
      (b ← bwrite (Z.of_nat t) hd (mq_block q); W b) = Some (ring_write t (enc m) (mq_block q)) ->
      (b ← bwrite (Z.of_nat t) hd (mq_block q); b ← W b;
         Some (u32 (Z.of_nat t + (i32 (Z.of_nat (total_of m)) - i32 (Z.of_nat N))), b)) =
      Some (Z.of_nat (adv N t (total_of m)), ring_write t (enc m) (mq_block q))).
    { intros W E. destruct (bwrite (Z.of_nat t) hd (mq_block q)) as [b0|]; [|done]. cbn [mbind option_bind] in *.
      rewrite E. cbn [mbind option_bind]. do 2 f_equal. rewrite Hadv, !i32_small by lia.
      rewrite u32_small; unfold in_u32; lia. }
    apply Hfin. clear Hfin.
    destruct (Z.leb_spec 4 (Z.of_nat sl)) as [H4|H4].
    + rewrite (bread_at 0 _ 0 fl) by (done || lia).
      rewrite (bread_at _ (Z.of_nat sl - 4) fl (length data - fl)) by (done || lia). cbn [mbind option_bind].
      rewrite drop_0, (take_ge (drop fl data)) by (rewrite length_drop; lia).
      rewrite bwrite_seq by (unfold blen; rewrite ?Hhd; lia).
      destruct (Htwo (hd ++ take fl data) (drop fl data ++ mg)) as (m1 & -> & E2).
      * rewrite Henc, <- (take_drop fl data) at 1. by rewrite <- !app_assoc.
      * rewrite length_app, length_take, Hhd. lia.
      * cbn [mbind option_bind]. rewrite bwrite_seq_last; [exact E2|lia|]. unfold blen. rewrite length_drop. lia.
    + rewrite u32_small by (unfold in_u32; lia).
      rewrite (bread_all (Z.of_nat fl - 4 + Z.of_nat sl)) by (rewrite Hd; lia). cbn [mbind option_bind].
      rewrite bwrite_seq by (unfold blen; rewrite ?Hhd; lia).
      assert (Hsl : (sl = 1 \/ sl = 2 \/ sl = 3)%nat) by lia.
      assert (Hsplit : forall k, (k <= 4)%nat -> enc m = ((hd ++ data) ++ take k mg) ++ drop k mg).
      { intros k Hk. rewrite Henc, <- !app_assoc. do 2 f_equal. by rewrite take_drop. }
      destruct Hsl as [E | [E | E]]; rewrite E;
        [change (Z.of_nat 1) with 1|change (Z.of_nat 2) with 2|change (Z.of_nat 3) with 3]; cbn [Z.eqb Pos.eqb].
      * rewrite !bwrite_seq by (rewrite ?blen_app; unfold blen; rewrite ?Hhd; cbn [length]; lia).
        rewrite <- !app_assoc. cbn [app].
        destruct (Htwo ((hd ++ data) ++ take 3 mg) (drop 3 mg)) as (m1 & E1 & E2); [apply Hsplit; lia| |].
        { rewrite !length_app, Hhd. cbn. lia. }
        rewrite <- app_assoc in E1. change (take 3 mg) with [0x53; 0x50; 0x50] in E1. rewrite E1. exact E2.
      * rewrite !bwrite_seq by (rewrite ?blen_app; unfold blen; rewrite ?Hhd; cbn [length]; lia).
        rewrite <- !app_assoc. cbn [app].
        destruct (Htwo ((hd ++ data) ++ take 2 mg) (drop 2 mg)) as (m1 & E1 & E2); [apply Hsplit; lia| |].
        { rewrite !length_app, Hhd. cbn. lia. }
        rewrite <- app_assoc in E1. change (take 2 mg) with [0x53; 0x50] in E1. rewrite E1. cbn [mbind option_bind].
        rewrite bwrite_seq_last by done. exact E2.
      * rewrite bwrite_seq by (rewrite ?blen_app; unfold blen; rewrite ?Hhd; cbn [length]; lia).
        rewrite <- !app_assoc. cbn [app].
        destruct (Htwo ((hd ++ data) ++ take 1 mg) (drop 1 mg)) as (m1 & E1 & E2); [apply Hsplit; lia| |].
        { rewrite !length_app, Hhd. cbn. lia. }
        rewrite <- app_assoc in E1. change (take 1 mg) with [0x53] in E1. rewrite E1. cbn [mbind option_bind].
        rewrite bwrite_seq by done. rewrite bwrite_seq_last by done. exact E2.
  - cbn [andb]. set (L := (N - t)%nat).
    replace (Z.of_nat N - Z.of_nat t) with (Z.of_nat L) by lia.
    replace (u32 (4 + 8 - Z.of_nat L)) with (Z.of_nat (12 - L)) by (rewrite u32_small; unfold in_u32; lia).
    rewrite (bread_at 0 (Z.of_nat L) 0 L hd) by (done || lia).
    rewrite (bread_at (Z.of_nat L) _ L (12 - L) hd) by (done || lia).
    rewrite (bread_all (blen data)) by done. cbn [mbind option_bind]. rewrite drop_0.
    rewrite (take_ge (drop L hd)) by (rewrite length_drop; lia).
    destruct (Htwo (take L hd) ((drop L hd ++ data) ++ mg)) as (m1 & -> & E2).
    { rewrite Henc, <- !app_assoc. rewrite (app_assoc (take L hd)), take_drop. done. }
    { rewrite length_take. lia. }
    cbn [mbind option_bind].
    rewrite bwrite_seq by (unfold blen; rewrite ?length_drop; lia).
    rewrite bwrite_seq by (rewrite ?blen_app; unfold blen; rewrite ?length_drop; lia).
    rewrite E2. cbn [mbind option_bind]. do 2 f_equal. rewrite Hadv, u32_small; unfold in_u32; lia.
Qed.

(** ** Positions *)

Lemma usedn_tail N h t n : (h <= N -> t <= N -> usedn N h t + n < N ->
  usedn N h (adv N t n) = usedn N h t + n /\ adv N t n <= N)%nat.
Proof. unfold usedn, adv. intros. repeat case_decide; lia. Qed.

Lemma usedn_head N h t n : (h <= N -> t <= N -> n <= usedn N h t -> usedn N h t < N ->
  usedn N (adv N h n) t = usedn N h t - n /\ adv N h n <= N)%nat.
Proof. unfold usedn, adv. intros. repeat case_decide; lia. Qed.

Lemma adv_adv N h a b : (h <= N -> a + b <= N -> adv N (adv N h a) b = adv N h (a + b))%nat.
Proof. unfold adv. intros. repeat case_decide; lia. Qed.

Lemma rot_used h t (b : list Z) : (h <= length b)%nat -> (t <= length b)%nat ->
  let u := usedn (length b) h t in rot t b = drop u (rot h b) ++ take u (rot h b).
Proof.
  intros Hh Ht u. rewrite <- rot_adv by (unfold u, usedn; try case_decide; lia).
  unfold u, usedn, adv. destruct (decide (h <= t)%nat).
  - rewrite decide_True by lia. f_equal. lia.
  - destruct (decide (h + (t + length b - h) <= length b)%nat).
    + assert (t = 0%nat) as -> by lia. replace (h + (0 + length b - h))%nat with (length b) by lia.
      unfold rot. rewrite drop_0, take_0, drop_ge, take_ge by lia. by rewrite app_nil_r.
    + f_equal. lia.
Qed.

(** Writing behind the tail keeps what is between head and tail. *)
Lemma take_ring_write h t (b blk : list Z) :
  (h <= length blk)%nat -> (t <= length blk)%nat ->
  let u := usedn (length blk) h t in (u + length b <= length blk)%nat ->
  take (u + length b) (rot h (ring_write t b blk)) = take u (rot h blk) ++ b.
Proof.
  intros Hh Ht u Hu. set (b' := ring_write t b blk).
  assert (Hl : length b' = length blk) by (apply length_ring_write; lia).
  pose proof (rot_used h t b') as H1. rewrite Hl in H1. specialize (H1 Hh Ht). cbv zeta in H1. fold u in H1.
  pose proof (rot_used h t blk Hh Ht) as H2. cbv zeta in H2. fold u in H2.
  pose proof (rot_write t b blk Ht) as H3. fold b' in H3. specialize (H3 ltac:(lia)).
  assert (Hlr : length (rot h b') = length blk) by (by rewrite length_rot).
  assert (Hlk : length (rot h blk) = length blk) by apply length_rot.
  set (n := (length blk - u)%nat).
  assert (Hd : drop u (rot h b') = take n (rot t b')).
  { rewrite H1, take_app_length'; [done|]. rewrite length_drop. lia. }
  assert (Ht' : take u (rot h b') = drop n (rot t b')).
  { rewrite H1, drop_app_length'; [done|]. rewrite length_drop. lia. }
  rewrite <- take_take_drop, Ht', Hd, H3. f_equal.
  - rewrite drop_app_ge by lia. rewrite drop_drop, H2, drop_app_ge by (rewrite length_drop; lia).
    rewrite length_drop. replace (length b + (n - length b) - (length (rot h blk) - u))%nat with 0%nat by lia.
    done.
  - rewrite take_take, Nat.min_l by lia. by rewrite take_app_length.
Qed.

(** ** [enqueue] appends *)

Lemma rep_check q h t msgs : rep_at q h t msgs ->
  do_check process_exist (mq_head q) (mq_tail q) q = (true, q).
Proof.
  intros R. destruct (rp_head _ _ _ _ R) as [-> ?], (rp_tail _ _ _ _ R) as [-> ?].
  unfold do_check. rewrite (rp_size _ _ _ _ R). unfold blen. by rewrite !(proj2 (Z.leb_le _ _)) by lia.
Qed.

Lemma enqueue_rep q h t msgs data flow :
  rep_at q h t msgs -> in_u32 flow -> Z.of_nat (total_of (flow, data)) < 2 ^ 32 ->
  if decide (bytes_of msgs + total_of (flow, data) < length (mq_block q))%nat then
    exists q', enqueue process_exist data (blen data) flow q = Some (Z.of_nat (S (length msgs)), q') /\
      rep_at q' h (adv (length (mq_block q)) t (total_of (flow, data))) (msgs ++ [(flow, data)]) /\
      length (mq_block q') = length (mq_block q)
  else enqueue process_exist data (blen data) flow q = Some (COMMU_ERR_MQFULL, q).
Proof.
  intros R Hflow Htot. pose proof (rep_used _ _ _ _ R) as Hu.
  destruct (rp_head _ _ _ _ R) as [Hh HhN], (rp_tail _ _ _ _ R) as [Ht HtN].
  pose proof (rp_bound _ _ _ _ R) as Hb. pose proof (rp_size _ _ _ _ R) as Hs. unfold blen in Hs.
  pose proof (rp_used _ _ _ _ R) as HuN. set (N := length (mq_block q)) in *.
  unfold enqueue. rewrite (rep_check _ _ _ _ R). cbn [negb].
  replace (u32 (blen data + C_HEAD_SIZE + 2 * C_SAFE_AREA_LEN)) with (Z.of_nat (total_of (flow, data))).
  2: { rewrite u32_small; unfold in_u32, total_of, blen, C_HEAD_SIZE, C_SAFE_AREA_LEN in *; simpl in *; lia. }
  assert (Hfree : u32 (if mq_tail q <? mq_head q then mq_head q - mq_tail q else mq_head q + mq_blocksize q - mq_tail q)
    = Z.of_nat (N - usedn N h t)).
  { rewrite Hh, Ht, Hs. unfold usedn in *. revert HuN Hu. destruct (Z.ltb_spec (Z.of_nat t) (Z.of_nat h)); case_decide;
      intros; try lia; rewrite u32_small; unfold in_u32; lia. }
  rewrite Hfree. case_decide as Hroom.
  - rewrite (proj2 (Z.leb_gt _ _)) by lia.
    rewrite (enqueue_write_ok _ _ _ _ _ _ R Hflow Hroom). cbn [mbind option_bind].
    pose proof (bytes_of_count msgs) as Hc. rewrite (rp_count _ _ _ _ R).
    replace (i32 (Z.of_nat (length msgs) + 1)) with (Z.of_nat (S (length msgs))) by (rewrite i32_small; lia).
    eexists. split; [reflexivity|].
    pose proof (length_enc (flow, data)) as Hle.
    assert (Hlen : length (ring_write t (enc (flow, data)) (mq_block q)) = N) by (apply length_ring_write; lia).
    destruct (usedn_tail N h t (total_of (flow, data))) as [Hut HaN]; [lia..|].
    split; [|done]. split; cbn [mq_blocksize mq_block mq_head mq_tail mq_msg_count set_msg_count set_tail_block];
      fold N; rewrite ?Hlen; auto.
    + by rewrite Hs, <- Hlen.
    + intros E. exfalso. revert E. unfold adv, total_of. case_decide; lia.
    + rewrite Hut. lia.
    + rewrite Hut, <- Hle. unfold N. rewrite take_ring_write by (fold N; lia).
      rewrite (rp_bytes _ _ _ _ R), map_app, concat_app. cbn [map concat]. by rewrite app_nil_r.
    + apply Forall_app. split; [apply R|]. by apply Forall_singleton.
    + rewrite length_app. cbn [length]. lia.
  - by rewrite (proj2 (Z.leb_le _ _)) by lia.
Qed.

(** ** [dequeue] takes the oldest *)

Lemma read_wrap_ok h n (blk : list Z) :
  (h <= length blk)%nat -> (n <= length blk)%nat -> Z.of_nat (length blk) < 2 ^ 31 ->
  read_wrap (Z.of_nat h) (Z.of_nat n) (Z.of_nat (length blk)) blk =
    Some (take n (rot h blk), Z.of_nat (adv (length blk) h n)).
Proof.
  intros Hh Hn HN. unfold read_wrap, adv. rewrite u32_small by (unfold in_u32; lia).
  destruct (Z.ltb_spec (Z.of_nat (length blk)) (Z.of_nat h + Z.of_nat n)).
  - rewrite (u32_small (Z.of_nat (length blk) - Z.of_nat h)) by (unfold in_u32; lia).
    rewrite u32_small by (unfold in_u32; lia).
    rewrite (bread_at (Z.of_nat h) _ h (length blk - h)) by lia. cbn [mbind option_bind].
    rewrite (bread_at 0 _ 0 (n - (length blk - h))) by lia. cbn [mbind option_bind].
    rewrite decide_False by lia. do 2 f_equal; [by apply rot_read_wrap; lia|lia].
  - rewrite bread_ok by lia. cbn [mbind option_bind]. rewrite decide_True by lia.
    do 2 f_equal; [by apply rot_read; lia|lia].
Qed.

Lemma read_wrap_at h n N (blk : list Z) :
  N = length blk -> (h <= N)%nat -> (n <= N)%nat -> Z.of_nat N < 2 ^ 31 ->
  read_wrap (Z.of_nat h) (Z.of_nat n) (Z.of_nat N) blk =
    Some (take n (rot h blk), Z.of_nat (adv N h n)).
Proof. intros ->. apply read_wrap_ok. Qed.

Lemma rep_empty q h t msgs : rep_at q h t msgs -> (mq_head q =? mq_tail q) = bool_decide (msgs = []).
Proof.
  intros R. destruct (rp_head _ _ _ _ R) as [-> Hh], (rp_tail _ _ _ _ R) as [-> Ht].
  pose proof (rep_used _ _ _ _ R) as Hu. pose proof (bytes_of_count msgs) as Hc.
  pose proof (rp_used _ _ _ _ R) as HuN. pose proof (rp_zero _ _ _ _ R) as Hz.
  destruct (Z.eqb_spec (Z.of_nat h) (Z.of_nat t)) as [E|E]; symmetry.
  - apply bool_decide_eq_true. destruct msgs; [done|]. exfalso. unfold usedn in Hu. cbn [length] in Hc.
    rewrite decide_True in Hu by lia. lia.
  - apply bool_decide_eq_false. intros ->. change (bytes_of []) with 0%nat in Hu.
    unfold usedn in *. case_decide; lia.
Qed.

Lemma take_prefix (l a b : list Z) u k : take u l = a ++ b -> k = length a -> take k l = a.
Proof.
  intros E ->. assert (H : take (length a) (take u l) = a) by (rewrite E; apply take_app_length).
  rewrite take_take in H. assert (length a <= u)%nat.
  { assert (Hl : length (take u l) = length (a ++ b)) by congruence. rewrite length_app, length_take in Hl. lia. }
  by rewrite Nat.min_l in H by lia.
Qed.

Lemma dequeue_rep q h t m msgs buf_size flow0 :
  rep_at q h t (m :: msgs) ->
  let N := length (mq_block q) in
  if decide (Z.of_nat (length m.2) + 4 <= buf_size) then
    exists q', dequeue process_exist buf_size flow0 q =
        Some (mkDeq 0 (blen m.2) m.1 (m.2 ++ le32 C_SAFE_AREA_VAL), q') /\
      rep_at q' (adv N h (total_of m)) t msgs /\ mq_block q' = mq_block q
  else dequeue process_exist buf_size flow0 q =
    Some (mkDeq COMMU_ERR_OTFBUFF 0 m.1 [], clear (set_msg_count (Z.of_nat (length msgs)) q)).
Proof.
  intros R N. pose proof (rep_used _ _ _ _ R) as Hu. pose proof (rep_empty _ _ _ _ R) as Hemp.
  destruct (rp_head _ _ _ _ R) as [Hh HhN], (rp_tail _ _ _ _ R) as [Ht HtN].
  pose proof (rp_bound _ _ _ _ R) as Hb. pose proof (rp_size _ _ _ _ R) as Hs. unfold blen in Hs.
  pose proof (rp_used _ _ _ _ R) as HuN. pose proof (rp_bytes _ _ _ _ R) as Hby. fold N in HhN, HtN, Hs, HuN, Hby, Hu.
  pose proof (rp_flow _ _ _ _ R) as Hfl. pose proof (Forall_inv Hfl) as Hfm. pose proof (Forall_inv_tail Hfl) as Hfl'. cbn beta in Hfm.
  cbn [map concat] in Hby. pose proof (length_enc m) as Hle.
  assert (Hbu : (bytes_of (m :: msgs) = total_of m + bytes_of msgs)%nat).
  { unfold bytes_of. cbn [map concat]. by rewrite length_app, Hle. }
  assert (Htot : Z.of_nat (total_of m) = Z.of_nat (length m.2) + 16) by (unfold total_of; lia).
  pose proof (bytes_of_count (m :: msgs)) as Hc. cbn [length] in Hc.
  unfold dequeue. rewrite (rep_check _ _ _ _ R), Hemp. cbn [negb].
  rewrite bool_decide_false by done. cbn [set_msg_count mq_block mq_blocksize].
  replace (u32 (if mq_head q <? mq_tail q then mq_tail q - mq_head q else mq_tail q + mq_blocksize q - mq_head q))
    with (Z.of_nat (usedn N h t)).
  2: { rewrite Hh, Ht, Hs. unfold usedn in *. revert HuN Hu.
       destruct (Z.ltb_spec (Z.of_nat h) (Z.of_nat t)); case_decide; intros; rewrite u32_small; unfold in_u32; lia. }
  rewrite (rp_count _ _ _ _ R). cbn [length].
  replace (i32 (Z.of_nat (S (length msgs)) - 1)) with (Z.of_nat (length msgs)) by (rewrite i32_small; lia).
  rewrite Hh, Hs. change (C_SAFE_AREA_LEN + C_HEAD_SIZE) with (Z.of_nat 12).
  rewrite read_wrap_at by (done || lia). cbn [mbind option_bind].
  set (hd := sHead (Z.of_nat (total_of m)) m.1).
  assert (Ehd : take 12 (rot h (mq_block q)) = hd).
  { unfold enc in Hby. rewrite <- !app_assoc in Hby. eapply take_prefix; [exact Hby|done]. }
  rewrite Ehd.
  change (take 4 hd) with (le32 C_SAFE_AREA_VAL). change (take 4 (drop 4 hd)) with (le32 (Z.of_nat (total_of m))).
  change (take 4 (drop 8 hd)) with (le32 m.1).
  rewrite !of_le32 by (done || (unfold in_u32; lia)). rewrite Z.eqb_refl. cbn [negb].
  rewrite (proj2 (Z.ltb_ge _ _)) by lia.
  replace (u32 (Z.of_nat (total_of m) - C_HEAD_SIZE - C_SAFE_AREA_LEN)) with (Z.of_nat (length m.2 + 4)).
  2: { unfold C_HEAD_SIZE, C_SAFE_AREA_LEN. rewrite u32_small; unfold in_u32; lia. }
  case_decide as Hbuf.
  2: { rewrite (proj2 (Z.ltb_lt _ _)) by lia. f_equal. f_equal. unfold check_clear, do_check.
       cbn [mq_head mq_tail mq_blocksize set_msg_count]. rewrite ?Hh, ?Ht, ?Hs, !(proj2 (Z.leb_le _ _)) by lia.
       unfold clear. cbn. by rewrite ?Hs. }
  rewrite (proj2 (Z.ltb_ge _ _)) by lia.
  assert (Ha12 : (adv N h 12 <= N)%nat) by (apply (usedn_head N h t 12); lia).
  rewrite read_wrap_at by (done || lia). cbn [mbind option_bind].
  assert (Edata : take (length m.2 + 4) (rot (adv N h 12) (mq_block q)) = m.2 ++ le32 C_SAFE_AREA_VAL).
  { unfold N. rewrite rot_adv by (fold N; lia). rewrite take_app_le by (rewrite length_drop, length_rot; fold N; lia).
    unfold enc in Hby. fold hd in Hby. rewrite <- (app_assoc hd) in Hby.
    assert (Hdr : take (usedn N h t - 12) (drop 12 (rot h (mq_block q))) =
      (m.2 ++ le32 C_SAFE_AREA_VAL) ++ concat (map enc msgs)).
    { rewrite take_drop_commute. replace (12 + (usedn N h t - 12))%nat with (usedn N h t) by lia.
      rewrite Hby. done. }
    eapply take_prefix; [exact Hdr|]. rewrite length_app. done. }
  rewrite Edata. rewrite adv_adv by lia. replace (12 + (length m.2 + 4))%nat with (total_of m) by (unfold total_of; lia).
  replace (u32 (Z.of_nat (length m.2 + 4) - C_SAFE_AREA_LEN)) with (Z.of_nat (length m.2)).
  2: { unfold C_SAFE_AREA_LEN. rewrite u32_small; unfold in_u32; lia. }
  rewrite (bread_at _ 4 (length m.2) 4) by (done || (rewrite length_app; simpl; lia)).
  cbn [mbind option_bind]. rewrite drop_app_length. change (take 4 (le32 C_SAFE_AREA_VAL)) with (le32 C_SAFE_AREA_VAL).
  rewrite of_le32 by (unfold in_u32, C_SAFE_AREA_VAL; lia). rewrite Z.eqb_refl. cbn [negb].
  eexists. split; [reflexivity|]. split; [|done].
  destruct (usedn_head N h t (total_of m)) as [Huh Hah]; [lia..|].
  split; cbn [mq_blocksize mq_block mq_head mq_tail mq_msg_count count_processed set_head set_msg_count]; fold N; auto.
  - intros E. pose proof (rp_zero _ _ _ _ R E). exfalso. subst. unfold usedn in Hu. simpl in Hu. lia.
  - rewrite Huh. lia.
  - rewrite Huh. unfold N. rewrite rot_adv by (fold N; lia). fold N.
    rewrite take_app_le by (rewrite length_drop, length_rot; fold N; lia).
    rewrite take_drop_commute. replace (total_of m + (usedn N h t - total_of m))%nat with (usedn N h t) by lia.
    rewrite Hby, <- Hle. apply drop_app_length.
Qed.

(** An empty queue: [clear], and [init] on a new segment. *)
Lemma clear_rep q : mq_blocksize q = blen (mq_block q) -> 0 < mq_blocksize q < 2 ^ 31 -> rep (clear q) [].
Proof.
  intros Hs Hb. exists 0%nat, 0%nat. split; simpl; auto; [lia..|]. unfold usedn. simpl.
  rewrite Hs in Hb. unfold blen in Hb. lia.
Qed.

Lemma dequeue_empty q buf_size flow0 :
  rep q [] -> dequeue process_exist buf_size flow0 q = Some (mkDeq COMMU_ERR_MQEMPTY 0 flow0 [], q).
Proof.
  intros (h & t & R). unfold dequeue. by rewrite (rep_check _ _ _ _ R), (rep_empty _ _ _ _ R), bool_decide_true.
Qed.

(** A message fits every buffer as large as the block. *)
Lemma rep_fits q h t m msgs buf_size :
  rep_at q h t (m :: msgs) -> mq_blocksize q <= buf_size -> Z.of_nat (length m.2) + 4 <= buf_size.
Proof.
  intros R Hb. pose proof (rep_used _ _ _ _ R) as Hu. pose proof (rp_used _ _ _ _ R) as HuN.
  rewrite (rp_size _ _ _ _ R) in Hb. unfold blen in Hb. unfold bytes_of in Hu. cbn [map concat] in Hu.
  rewrite length_app, length_enc in Hu. unfold total_of in Hu. lia.
Qed.

(** C18: [enqueue] implements appending to a bounded sequence of messages.  On a
    queue that holds [msgs], in any position of head and tail (the message may lie
    in one piece, wrap inside its data, inside its end mark or inside its head), it
    is defined, writes inside the block only, and either the encoded messages would
    fill the block and it returns [COMMU_ERR_MQFULL] with the queue untouched, or
    it returns the new number of messages and the queue holds [msgs] followed by
    the new one. *)
Theorem enqueue_refines_append q msgs data flow :
  rep q msgs -> in_u32 flow -> blen data + 16 < 2 ^ 32 ->
  if decide (bytes_of msgs + total_of (flow, data) < length (mq_block q))%nat then
    exists q', enqueue process_exist data (blen data) flow q = Some (Z.of_nat (S (length msgs)), q') /\
      rep q' (msgs ++ [(flow, data)])
  else enqueue process_exist data (blen data) flow q = Some (COMMU_ERR_MQFULL, q).
Proof.
  intros (h & t & R) Hf Hl. pose proof (enqueue_rep q h t msgs data flow R Hf) as H.
  unfold blen, total_of in *. cbn [snd] in *. specialize (H ltac:(lia)).
  case_decide; [|done]. destruct H as (q' & E & R' & _). exists q'. split; [done|]. eexists _, _. exact R'.
Qed.

(** [dequeue] implements removing the first message.  From a queue that holds
    [m :: msgs] it returns 0, the flow and the length of [m], leaves exactly the
    data of [m] (and the end mark) in the caller's buffer, and the queue holds
    [msgs]; if the buffer has less than 4 bytes more than the data it returns
    [COMMU_ERR_OTFBUFF] and the queue is empty (every message is dropped); on an
    empty queue it returns [COMMU_ERR_MQEMPTY] and changes nothing. *)
Theorem dequeue_refines_pop q msgs buf_size flow0 :
  rep q msgs ->
  match msgs with
  | [] => dequeue process_exist buf_size flow0 q = Some (mkDeq COMMU_ERR_MQEMPTY 0 flow0 [], q)
  | m :: rest =>
      if decide (blen m.2 + 4 <= buf_size) then
        exists q', dequeue process_exist buf_size flow0 q =
            Some (mkDeq 0 (blen m.2) m.1 (m.2 ++ le32 C_SAFE_AREA_VAL), q') /\ rep q' rest
      else exists q', dequeue process_exist buf_size flow0 q = Some (mkDeq COMMU_ERR_OTFBUFF 0 m.1 [], q') /\
           rep q' []
  end.
Proof.
  intros R. destruct msgs as [|m rest]; [by apply dequeue_empty|]. destruct R as (h & t & R).
  pose proof (dequeue_rep q h t m rest buf_size flow0 R) as H. cbv zeta in H. unfold blen.
  case_decide.
  - destruct H as (q' & E & R' & _). exists q'. split; [done|]. eexists _, _. exact R'.
  - eexists. split; [exact H|]. apply clear_rep; apply R.
Qed.

(** A consumer is notified exactly when the queue was empty.  A successful
    [produce] writes the notify descriptor (if there is one) if and only if the
    queue held no message before. *)
Theorem produce_notifies_when_empty q msgs data flow fd :
  rep q msgs -> in_u32 flow -> blen data + 16 < 2 ^ 32 ->
  (bytes_of msgs + total_of (flow, data) < length (mq_block q))%nat ->
  exists ret notified q', produce process_exist fd data (blen data) flow q = Some (ret, notified, q') /\
    0 < ret /\ (notified = true <-> msgs = [] /\ 0 < fd).
Proof.
  intros (h & t & R) Hf Hl Hroom. pose proof (enqueue_rep q h t msgs data flow R Hf) as H.
  unfold blen, total_of in *. cbn [snd] in *. specialize (H ltac:(lia)). rewrite decide_True in H by done.
  destruct H as (q' & E & _). unfold produce. rewrite E. cbn [mbind option_bind].
  eexists _, _, _. split; [reflexivity|]. split; [lia|].
  rewrite andb_true_iff, Z.ltb_lt, Z.eqb_eq. destruct msgs; simpl; [tauto|]. split; [lia|]. by intros [? _].
Qed.

(** ** Histories *)

(** Either consumer takes a message out, unless the lock is refused; the one with
    the lock looks whether the queue is empty without it. *)
Lemma comsumer_comsume_cases locktype lock buf_size len0 flow0 q msgs : rep q msgs ->
  (msgs = [] /\ exists r, comsumer_comsume process_exist locktype lock buf_size len0 flow0 q = Some (r, q) /\ dq_ret r <> 0) \/
  comsumer_comsume process_exist locktype lock buf_size len0 flow0 q = dequeue process_exist buf_size flow0 q \/
  (Z.land locktype LOCK_TYPE_COMSUMER <> 0 /\ lock <> 0 /\
   exists r, comsumer_comsume process_exist locktype lock buf_size len0 flow0 q = Some (r, q) /\ dq_ret r <> 0).
Proof.
  intros R. unfold comsumer_comsume, comsumeL, comsume. destruct (Z.eqb_spec (Z.land locktype LOCK_TYPE_COMSUMER) 0) as [|Hl].
  - auto.
  - destruct (isEmpty q) eqn:He.
    + left. split; [|eauto]. destruct R as (h & t & R). unfold isEmpty in He. rewrite (rp_count _ _ _ _ R) in He.
      apply Z.eqb_eq in He. by destruct msgs.
    + destruct (Z.eqb_spec lock 0); [auto|]. right. right. split; [done|]. split; [done|]. eauto.
Qed.

Lemma poll_all locktype fuel locks buff_size len0 flow0 q msgs :
  rep q msgs -> mq_blocksize q <= buff_size -> (length msgs < fuel)%nat ->
  exists l rest q', poll process_exist fuel locktype locks true buff_size len0 flow0 q = Some (l, q') /\
    msgs = l ++ rest /\ rep q' rest /\
    (rest <> [] -> Z.land locktype LOCK_TYPE_COMSUMER <> 0 /\ locks (length l) <> 0).
Proof.
  revert locks q msgs len0 flow0. induction fuel as [|fuel IH]; intros locks q msgs len0 flow0 R Hb Hf; [lia|]. cbn [poll].
  destruct (comsumer_comsume_cases locktype (locks O) buff_size len0 flow0 q msgs R)
    as [(-> & r & -> & Hr)|[->|(Hl & Hlk & r & -> & Hr)]].
  { cbn [mbind option_bind]. apply Z.eqb_neq in Hr. rewrite Hr. exists [], [], q. by split_and!. }
  2: { cbn [mbind option_bind]. apply Z.eqb_neq in Hr. rewrite Hr. exists [], msgs, q. by split_and!. }
  destruct msgs as [|m rest].
  { rewrite dequeue_empty by done. cbn. exists [], [], q. by split_and!. }
  destruct R as (h & t & R). pose proof (dequeue_rep q h t m rest buff_size flow0 R) as H. cbv zeta in H.
  rewrite decide_True in H by (by eapply rep_fits). destruct H as (q1 & -> & R1 & Hblk).
  cbn [mbind option_bind dq_ret dq_flow dq_len dq_buf Z.eqb negb].
  destruct (IH (fun i => locks (S i)) q1 rest (blen m.2) m.1) as (l & rest' & q' & -> & -> & R' & Hs).
  - eexists _, _. exact R1.
  - rewrite (rp_size _ _ _ _ R1), Hblk, <- (rp_size _ _ _ _ R). done.
  - cbn [length] in Hf. lia.
  - cbn [mbind option_bind]. exists (m :: l), rest', q'. split; [|done]. do 3 f_equal. unfold blen.
    rewrite Nat2Z.id, take_app_length. by destruct m.
Qed.

(** C33: [CTShmCommu::poll] with [block], through the consumer with or without a
    lock, delivers everything: the callback gets the messages of the queue, each
    once, in order and unchanged, until the queue is empty; one round more than
    there are messages is enough.  It stops before only when the consumer locks and
    [flock] fails: the messages not delivered are then still in the queue, in
    order.  The buffer is the one [CTShmCommu::init] allocates, as large as the
    shared memory. *)
Theorem poll_delivers_all_in_order locktype locks q msgs buff_size len0 flow0 :
  rep q msgs -> mq_blocksize q <= buff_size ->
  exists l rest q', poll process_exist (S (length msgs)) locktype locks true buff_size len0 flow0 q = Some (l, q') /\
    msgs = l ++ rest /\ rep q' rest /\
    (rest <> [] -> Z.land locktype LOCK_TYPE_COMSUMER <> 0 /\ locks (length l) <> 0).
Proof. intros R Hb. apply poll_all; auto. Qed.

(** Sends and receives in any order. *)
Inductive mq_op := Send (flow : Z) (data : list Z) | Recv.

(** The messages accepted, the messages received, the final queue. *)
Fixpoint run_ops (buf_size : Z) (ops : list mq_op) (q : ShmMQ)
  : option (list (Z * list Z) * list (Z * list Z) * ShmMQ) :=
  match ops with
  | [] => Some ([], [], q)
  | Send flow data :: ops =>
      '(ret, q) ← enqueue process_exist data (blen data) flow q;
      '(sent, rcvd, q) ← run_ops buf_size ops q;
      Some (if 0 <=? ret then (flow, data) :: sent else sent, rcvd, q)
  | Recv :: ops =>
      '(r, q) ← dequeue process_exist buf_size 0 q;
      '(sent, rcvd, q) ← run_ops buf_size ops q;
      Some (sent, if dq_ret r =? 0 then (dq_flow r, take (Z.to_nat (dq_len r)) (dq_buf r)) :: rcvd else rcvd, q)
  end.

Definition op_ok (o : mq_op) : Prop :=
  match o with Send flow data => in_u32 flow /\ blen data + 16 < 2 ^ 32 | Recv => True end.

Lemma run_ops_fifo buf_size ops : Forall op_ok ops -> forall q msgs,
  rep q msgs -> mq_blocksize q <= buf_size ->
  exists sent rcvd q' rest, run_ops buf_size ops q = Some (sent, rcvd, q') /\ rep q' rest /\
    msgs ++ sent = rcvd ++ rest.
Proof.
  induction 1 as [|o ops Ho _ IH]; intros q msgs R Hb.
  { exists [], [], q, msgs. split_and!; auto. by rewrite app_nil_r. }
  destruct R as (h & t & R). destruct o as [flow data|]; simpl.
  - destruct Ho as [Hf Hl]. pose proof (enqueue_rep q h t msgs data flow R Hf) as H.
    unfold total_of in H. cbn [snd] in H. unfold blen in Hl. specialize (H ltac:(lia)). case_decide.
    + destruct H as (q1 & -> & R1 & Hblk). cbn [mbind option_bind].
      destruct (IH q1 (msgs ++ [(flow, data)])) as (sent & rcvd & q' & rest & -> & R' & E).
      * eexists _, _. exact R1.
      * rewrite (rp_size _ _ _ _ R1). unfold blen. rewrite Hblk.
        rewrite (rp_size _ _ _ _ R) in Hb. done.
      * cbn [mbind option_bind]. rewrite (proj2 (Z.leb_le _ _)) by lia.
        eexists _, _, _, _. split; [reflexivity|]. split; [exact R'|]. rewrite <- E, <- app_assoc. done.
    + rewrite H. cbn [mbind option_bind].
      destruct (IH q msgs) as (sent & rcvd & q' & rest & -> & R' & E); [by exists h, t|done|].
      exists sent, rcvd, q', rest. split_and!; auto.
  - destruct msgs as [|m rest].
    + rewrite dequeue_empty by (by exists h, t). cbn [mbind option_bind].
      destruct (IH q []) as (sent & rcvd & q' & rest & -> & R' & E); [by exists h, t|done|].
      exists sent, rcvd, q', rest. split_and!; auto.
    + pose proof (dequeue_rep q h t m rest buf_size 0 R) as H. cbv zeta in H.
      rewrite decide_True in H by (by eapply rep_fits). destruct H as (q1 & -> & R1 & Hblk).
      cbn [mbind option_bind dq_ret dq_flow dq_len dq_buf].
      destruct (IH q1 rest) as (sent & rcvd & q' & rest' & -> & R' & E).
      * eexists _, _. exact R1.
      * rewrite (rp_size _ _ _ _ R1), Hblk, <- (rp_size _ _ _ _ R). done.
      * cbn [mbind option_bind Z.eqb]. eexists _, _, _, _. split; [reflexivity|]. split; [exact R'|].
        cbn [app]. rewrite E. f_equal. unfold blen. rewrite Nat2Z.id, take_app_length. by destruct m.
Qed.

(** C8: the queue is first in, first out.  For any interleaving of sends and
    receives on a newly initialised segment, every operation is defined, and the
    messages received are a prefix of the messages accepted, in order and
    unchanged; the rest is still in the queue. *)
Theorem shm_queue_is_fifo shmsize stale ops buf_size q :
  12 < shmsize < 2 ^ 31 -> blen (mq_block stale) = shmsize - 12 -> mq_msg_count stale = 0 ->
  init 1 shmsize stale = (0, Some q) -> Forall op_ok ops -> shmsize <= buf_size ->
  exists sent rcvd q' rest, run_ops buf_size ops q = Some (sent, rcvd, q') /\ sent = rcvd ++ rest /\ rep q' rest.
Proof.
  intros Hsz Hlen Hc Hi Hops Hb. unfold init in Hi. simpl in Hi. injection Hi as Hq. symmetry in Hq.
  assert (Hbs : mq_blocksize q = shmsize - 12).
  { rewrite Hq. cbn [mq_blocksize]. rewrite u32_small; unfold in_u32; lia. }
  assert (Hblk : mq_block q = mq_block stale) by (by rewrite Hq).
  assert (R : rep q []).
  { replace q with (clear q) by (rewrite Hq; unfold clear; cbn; by rewrite Hc).
    apply clear_rep; rewrite ?Hblk, ?Hbs; lia. }
  destruct (run_ops_fifo buf_size ops Hops q [] R) as (sent & rcvd & q' & rest & E & R' & Ef); [lia|].
  exists sent, rcvd, q', rest. auto.
Qed.
End refine.

(** ** Concrete queues *)

Definition demo_mem : ShmMQ := mkShmMQ 0 0 0 7 9 1 (replicate 64 0xEE) 0.
Definition demo_q : ShmMQ := default demo_mem (init 1 76 demo_mem).2.
Definition no_process (_ : Z) : bool := false.

(** A queue whose positions have wrapped. *)
Definition demo_q2 : ShmMQ :=
  match run_ops no_process 76 [Send 1 [1; 2; 3]; Recv; Send 2 [4; 5; 6; 7; 8; 9; 10]; Recv; Send 3 [7; 7; 7; 7; 7; 7; 7]] demo_q with
  | Some (_, _, q) => q
  | None => demo_mem
  end.

Lemma demo_q_rep : rep demo_q [].
Proof. apply (clear_rep demo_q); [done|]. vm_compute. done. Qed.

Lemma demo_q2_rep : rep demo_q2 [(3, [7; 7; 7; 7; 7; 7; 7])].
Proof.
  exists 42%nat, 1%nat. split; try (by apply (bool_decide_unpack _); vm_compute); try (by vm_compute).
Qed.

Lemma enqueue_refines_append_witness :
  exists q', enqueue no_process [1; 2] 2 5 demo_q2 = Some (2, q') /\
    rep q' [(3, [7; 7; 7; 7; 7; 7; 7]); (5, [1; 2])].
Proof.
  pose proof (enqueue_refines_append no_process demo_q2 [(3, [7; 7; 7; 7; 7; 7; 7])] [1; 2] 5 demo_q2_rep) as H.
  rewrite decide_True in H by (apply (bool_decide_unpack _); by vm_compute). apply H; by vm_compute.
Defined.

Lemma dequeue_refines_pop_witness :
  exists q', dequeue no_process 76 0 demo_q2 =
    Some (mkDeq 0 7 3 [7; 7; 7; 7; 7; 7; 7; 0x53; 0x50; 0x50; 0x58], q') /\ rep q' [].
Proof.
  pose proof (dequeue_refines_pop no_process demo_q2 [(3, [7; 7; 7; 7; 7; 7; 7])] 76 0 demo_q2_rep) as H.
  cbv beta iota in H. rewrite decide_True in H by (by vm_compute). exact H.
Defined.

Lemma produce_notifies_when_empty_witness :
  exists ret q', produce no_process 5 [1] 1 9 demo_q = Some (ret, true, q').
Proof.
  destruct (produce_notifies_when_empty no_process demo_q [] [1] 9 5 demo_q_rep) as (ret & n & q' & E & _ & Hn).
  - by vm_compute.
  - by vm_compute.
  - apply (bool_decide_unpack _). by vm_compute.
  - exists ret, q'. rewrite (proj2 Hn) in E; [exact E|]. split; [done|lia].
Defined.

Lemma poll_delivers_all_in_order_witness :
  exists q', poll no_process 2 LOCK_TYPE_COMSUMER (fun _ => 0) true 76 0 0 demo_q2 = Some ([(3, [7; 7; 7; 7; 7; 7; 7])], q') /\
    rep q' [].
Proof.
  destruct (poll_delivers_all_in_order no_process LOCK_TYPE_COMSUMER (fun _ => 0) demo_q2 [(3, [7; 7; 7; 7; 7; 7; 7])] 76 0 0
    demo_q2_rep) as (l & rest & q' & E & Hl & R & Hs); [by vm_compute|].
  destruct rest as [|x rest]; [|exfalso; destruct Hs as [_ Hs]; [discriminate|by apply Hs]].
  rewrite app_nil_r in Hl. subst l. exists q'. split; [exact E|exact R].
Defined.

Lemma shm_queue_is_fifo_witness :
  exists sent rcvd q' rest,
    run_ops no_process 76 [Send 1 [1; 2]; Send 2 [3]; Recv; Send 3 (replicate 40 0)] demo_q = Some (sent, rcvd, q') /\
    sent = rcvd ++ rest /\ rep q' rest.
Proof.
  apply (shm_queue_is_fifo no_process 76 demo_mem); [lia|reflexivity|reflexivity|reflexivity| |lia].
  apply Forall_forall. intros o Ho. simpl in Ho.
  destruct Ho as [<- | [<- | [<- | [<- | []]]]]; by vm_compute.
Defined.
