(* ===== verification/RwCache.v ===== *)
(** * Buffer caches

    Models [src/src/sync_frame/micro_thread/mt_cache.h] and [mt_cache.cpp]: blocks of
    memory ([TSkBuffer]), a pool of free ones ([TSkBuffMng]) and the chains of blocks
    in which connections keep received and unsent data ([TRWCache]).

    Blocks live in a store; a block that was freed is not in it, so touching it is
    undefined ([None]), as is copying outside a block.  [malloc], the clock and the
    socket calls come from an environment [E] ([CacheEnv]).  Each cache has one pool,
    the pool of the state; [rc_pool] says whether the cache's pool pointer is set. *)

From Stdlib Require Import ZArith Lia.
From stdpp Require Import base gmap list option fin_sets.
From S2P Require Import Prelude Bytes.

Definition SK_DFLT_BUFF_SIZE : Z := 64 * 1024.
Definition SK_DFLT_ALIGN_SIZE : Z := 8.
Definition SK_ERR_NEED_CLOSE : Z := 10000.
(** [sizeof(TSkBuffer)], and the offset of [buff], with 64-bit pointers. *)
Definition sizeof_TSkBuffer : Z := 56.
Definition offsetof_buff : Z := 52.
Definition EAGAIN : Z := 11.

(** [struct _sk_buffer_tag]: [data] is an offset into the bytes from [head] on;
    [head] is offset 0 and [end] offset [size]. *)
Record TSkBuffer := mkSk {
  sk_last_time : Z;
  sk_size : Z;
  sk_data : Z;
  sk_data_len : Z;
  sk_mem : list Z;
}.

(** [struct _sk_buff_mng_tag] *)
Record TSkBuffMng := mkMng {
  bm_free_list : list ptr;
  bm_expired : Z;
  bm_size : Z;
  bm_count : Z;
}.

(** [struct _sk_rw_cache_tag] *)
Record TRWCache := mkCache {
  rc_list : list ptr;
  rc_len : Z;
  rc_count : Z;
  rc_pool : bool;
}.

(** What the caches use of the system: whether [malloc] succeeds, the clock, and
    the socket calls with result, [errno] and the bytes received. *)
Class CacheEnv (E : Type) := {
  malloc_ok : Z -> E -> bool * E;
  mt_time_ms : E -> Z * E;
  sys_recv : Z -> Z -> E -> Z * Z * list Z * E;
  sys_recvfrom : Z -> Z -> E -> Z * Z * list Z * E;
  sys_send : Z -> list Z -> E -> Z * Z * E;
}.

Section cache.
Context {E : Type} `{!CacheEnv E}.

Record CacheState := mkCs { cs_env : E; cs_bufs : gmap ptr TSkBuffer; cs_pool : TSkBuffMng }.
Implicit Types (st : CacheState) (c : TRWCache).

Definition set_env (e : E) st : CacheState := mkCs e (cs_bufs st) (cs_pool st).
Definition put_buf (p : ptr) (b : TSkBuffer) st : CacheState := mkCs (cs_env st) (<[p := b]> (cs_bufs st)) (cs_pool st).
Definition set_free (l : list ptr) (n : Z) st : CacheState :=
  mkCs (cs_env st) (cs_bufs st) (mkMng l (bm_expired (cs_pool st)) (bm_size (cs_pool st)) n).
Definition set_span (data len : Z) (b : TSkBuffer) : TSkBuffer := mkSk (sk_last_time b) (sk_size b) data len (sk_mem b).
Definition set_mem (m : list Z) (b : TSkBuffer) : TSkBuffer :=
  mkSk (sk_last_time b) (sk_size b) (sk_data b) (sk_data_len b) m.

(** ** Blocks *)

(** [new_sk_buffer]; [malloc] chooses an address that is not in use.  Undefined
    when the computed size wrapped below that of the header. *)
Definition new_sk_buffer (size : Z) st : option (option ptr * CacheState) :=
  let total := u32 (sizeof_TSkBuffer + size) in
  let total := u32 (u32 (total + SK_DFLT_ALIGN_SIZE - 1) / SK_DFLT_ALIGN_SIZE * SK_DFLT_ALIGN_SIZE) in
  let '(ok, e) := malloc_ok total (cs_env st) in
  let st := set_env e st in
  if negb ok then Some (None, st)
  else if total <? sizeof_TSkBuffer then None
  else
    let p : ptr := fresh (dom (cs_bufs st) : gset ptr) in
    Some (Some p, put_buf p (mkSk 0 size 0 0 (replicate (Z.to_nat (total - offsetof_buff)) 0)) st).

(** [delete_sk_buffer] *)
Definition delete_sk_buffer (block : option ptr) st : option CacheState :=
  match block with
  | None => Some st
  | Some p => _ ← cs_bufs st !! p; Some (mkCs (cs_env st) (delete p (cs_bufs st)) (cs_pool st))
  end.

(** [reserve_sk_buffer] *)
Definition reserve_sk_buffer (buff : option ptr) (size : Z) st : option (option ptr * CacheState) :=
  match buff with
  | None => new_sk_buffer size st
  | Some p =>
      b ← cs_bufs st !! p;
      if size <=? sk_size b then Some (Some p, st)
      else
        '(r, st) ← new_sk_buffer size st;
        match r with
        | None => Some (Some p, st)
        | Some q =>
            nb ← cs_bufs st !! q;
            d ← bread (sk_data b) (sk_data_len b) (sk_mem b);
            m ← bwrite (sk_data nb) d (sk_mem nb);
            let st := put_buf q (set_span (sk_data nb) (sk_data_len b) (set_mem m nb)) st in
            st ← delete_sk_buffer (Some p) st;
            Some (Some q, st)
        end
  end.

(** ** The pool *)

(** [sk_buffer_mng_init] *)
Definition sk_buffer_mng_init (expired size : Z) : TSkBuffMng := mkMng [] expired size 0.

(** [sk_buffer_mng_destroy] and its loop. *)
Fixpoint delete_all (l : list ptr) st : option CacheState :=
  match l with
  | [] => Some st
  | p :: l => st ← delete_sk_buffer (Some p) st; delete_all l st
  end.
Definition sk_buffer_mng_destroy st : option CacheState :=
  st ← delete_all (bm_free_list (cs_pool st)) st;
  Some (set_free [] 0 st).

(** [alloc_sk_buffer]; [mng] is false for a [NULL] pool. *)
Definition alloc_sk_buffer (mng : bool) st : option (option ptr * CacheState) :=
  if negb mng then Some (None, st)
  else
    match bm_free_list (cs_pool st) with
    | p :: l => Some (Some p, set_free l (u32 (bm_count (cs_pool st) - 1)) st)
    | [] => new_sk_buffer (bm_size (cs_pool st)) st
    end.

(** [free_sk_buffer] *)
Definition free_sk_buffer (mng : bool) (buff : option ptr) st : option CacheState :=
  match buff with
  | Some p =>
      if negb mng then Some st
      else
        let st := set_free (bm_free_list (cs_pool st) ++ [p]) (u32 (bm_count (cs_pool st) + 1)) st in
        let '(ms, e) := mt_time_ms (cs_env st) in
        b ← cs_bufs st !! p;
        Some (put_buf p (mkSk (u32 (ms / 1000)) (sk_size b) 0 0 (sk_mem b)) (set_env e st))
  | None => Some st
  end.

(** [recycle_sk_buffer]: delete from the front while the blocks are old. *)
Fixpoint recycle_loop (l : list ptr) (now : Z) st : option CacheState :=
  match l with
  | [] => Some st
  | p :: l =>
      b ← cs_bufs st !! p;
      if u32 (now - sk_last_time b) <? bm_expired (cs_pool st) then Some st
      else
        st ← delete_sk_buffer (Some p) (set_free l (bm_count (cs_pool st)) st);
        recycle_loop l now (set_free l (u32 (bm_count (cs_pool st) - 1)) st)
  end.
Definition recycle_sk_buffer (now : Z) st : option CacheState :=
  recycle_loop (bm_free_list (cs_pool st)) now st.

(** ** Caches *)

(** [rw_cache_init] *)
Definition rw_cache_init (pool : bool) : TRWCache := mkCache [] 0 0 pool.

(** [rw_cache_destroy]: every block goes back to the pool. *)
Fixpoint free_all (l : list ptr) st : option CacheState :=
  match l with
  | [] => Some st
  | p :: l => st ← free_sk_buffer true (Some p) st; free_all l st
  end.
Definition rw_cache_destroy (cache : option TRWCache) st : option (option TRWCache * CacheState) :=
  match cache with
  | None => Some (None, st)
  | Some c =>
      if negb (rc_pool c) then Some (cache, st)
      else st ← free_all (rc_list c) st; Some (Some (mkCache [] 0 0 false), st)
  end.

(** The loop of [cache_copy_out]: the bytes copied, what is left to copy, the
    remaining chain and its count. *)
Fixpoint copy_out_loop (want : bool) (l : list ptr) (lft count : Z) (out : list Z) st
  : option (list Z * Z * list ptr * Z * CacheState) :=
  match l with
  | [] => Some (out, lft, [], count, st)
  | p :: l' =>
      item ← cs_bufs st !! p;
      let skip_len := if lft <? sk_data_len item then lft else sk_data_len item in
      out ← (if want then d ← bread (sk_data item) skip_len (sk_mem item); Some (out ++ d) else Some out);
      let lft := u32 (lft - skip_len) in
      let item := set_span (sk_data item + skip_len) (u32 (sk_data_len item - skip_len)) item in
      let st := put_buf p item st in
      if 0 <? sk_data_len item then Some (out, lft, p :: l', count, st)
      else
        let count := if 0 <? count then u32 (count - 1) else count in
        st ← free_sk_buffer true (Some p) st;
        if lft =? 0 then Some (out, lft, l', count, st)
        else copy_out_loop want l' lft count out st
  end.

(** [cache_copy_out]: the number of bytes taken out, and the bytes copied to the
    caller's buffer ([want] is false for a [NULL] buffer). *)
Definition cache_copy_out (cache : option TRWCache) (want : bool) (len : Z) st
  : option (Z * list Z * option TRWCache * CacheState) :=
  match cache with
  | None => Some (0, [], None, st)
  | Some c =>
      if negb (rc_pool c) then Some (0, [], cache, st)
      else
        '(out, lft, l, count, st) ← copy_out_loop want (rc_list c) len (rc_count c) [] st;
        let skip_len := u32 (len - lft) in
        let n := if skip_len <? rc_len c then rc_len c - skip_len else 0 in
        Some (skip_len, out, Some (mkCache l n count (rc_pool c)), st)
  end.

(** [cache_skip_data] *)
Definition cache_skip_data (cache : option TRWCache) (len : Z) st : option (option TRWCache * CacheState) :=
  '(_, _, cache, st) ← cache_copy_out cache false len st; Some (cache, st).

(** [cache_append_buffer] *)
Definition cache_append_buffer (cache : option TRWCache) (buff : option ptr) st : option (option TRWCache) :=
  match cache, buff with
  | Some c, Some p =>
      b ← cs_bufs st !! p;
      Some (Some (mkCache (rc_list c ++ [p]) (u32 (rc_len c + sk_data_len b)) (u32 (rc_count c + 1)) (rc_pool c)))
  | _, _ => Some cache
  end.

(** [cache_skip_first_buffer]; the chain is read before the test for [NULL]. *)
Definition cache_skip_first_buffer (cache : option TRWCache) st : option (option ptr * TRWCache) :=
  c ← cache;
  match rc_list c with
  | [] => Some (None, c)
  | p :: l =>
      b ← cs_bufs st !! p;
      let n := if sk_data_len b <=? rc_len c then rc_len c - sk_data_len b else rc_len c in
      let k := if 0 <? rc_count c then rc_count c - 1 else rc_count c in
      Some (Some p, mkCache l n k (rc_pool c))
  end.

(** The loop of [cache_append_data] that fills new blocks; [false] when a block
    could not be allocated.  [lft] decreases, so [S lft] rounds are enough for
    blocks that are not empty. *)
Fixpoint append_loop (fuel : nat) (data : list Z) (len lft : Z) (keep : TRWCache) st
  : option (bool * TRWCache * CacheState) :=
  match fuel with
  | O => None
  | S fuel =>
      if negb (0 <? lft) then Some (true, keep, st)
      else
        '(r, st) ← alloc_sk_buffer (rc_pool keep) st;
        match r with
        | None =>
            '(_, st) ← rw_cache_destroy (Some keep) st;
            Some (false, keep, st)
        | Some p =>
            k ← cache_append_buffer (Some keep) (Some p) st;
            let keep := default keep k in
            item ← cs_bufs st !! p;
            if lft <=? sk_size item then
              d ← bread (len - lft) lft data;
              m ← bwrite 0 d (sk_mem item);
              Some (true, keep, put_buf p (set_span (sk_data item) lft (set_mem m item)) st)
            else
              d ← bread (len - lft) (sk_size item) data;
              m ← bwrite 0 d (sk_mem item);
              append_loop fuel data len (u32 (lft - sk_size item)) keep
                (put_buf p (set_span (sk_data item) (sk_size item) (set_mem m item)) st)
        end
  end.

(** Appending [d] to the data of block [p]. *)
Definition extend (p : ptr) (d : list Z) st : option CacheState :=
  b ← cs_bufs st !! p;
  m ← bwrite (sk_data b + sk_data_len b) d (sk_mem b);
  Some (put_buf p (set_span (sk_data b) (u32 (sk_data_len b + blen d)) (set_mem m b)) st).

(** [cache_append_data] *)
Definition cache_append_data (cache : option TRWCache) (data : option (list Z)) (len : Z) st
  : option (Z * option TRWCache * CacheState) :=
  match data, cache with
  | Some data, Some c =>
      if negb (rc_pool c) then Some (-1, cache, st)
      else if len =? 0 then Some (0, cache, st)
      else
        let tail := list.last (rc_list c) in
        remain ← (match tail with
                  | None => Some 0
                  | Some p =>
                      b ← cs_bufs st !! p;
                      Some (if sk_data b + sk_data_len b <? sk_size b
                            then u32 (sk_size b - sk_data b - sk_data_len b) else 0)
                  end);
        match (if len <=? remain then tail else None) with
        | Some p =>
            d ← bread 0 len data;
            st ← extend p d st;
            Some (i32 len, Some (mkCache (rc_list c) (u32 (rc_len c + len)) (rc_count c) (rc_pool c)), st)
        | None =>
            '(ok, keep, st) ← append_loop (S (Z.to_nat len)) data len (u32 (len - remain)) (rw_cache_init (rc_pool c)) st;
            if negb ok then Some (-2, cache, st)
            else
              st ← (match tail with
                    | Some p => if 0 <? remain then d ← bread 0 remain data; extend p d st else Some st
                    | None => Some st
                    end);
              Some (i32 len, Some (mkCache (rc_list c ++ rc_list keep) (u32 (rc_len c + len))
                                     (u32 (rc_count c + rc_count keep)) (rc_pool c)), st)
        end
  | _, _ => Some (-1, cache, st)
  end.

(** ** Sockets *)

(** [cache_udp_recv]: up to 100 datagrams, one block each. *)
Fixpoint udp_recv_loop (n : nat) (fd total : Z) c st : option (Z * TRWCache * CacheState) :=
  match n with
  | O => Some (total, c, st)
  | S n =>
      '(r, st) ← alloc_sk_buffer (rc_pool c) st;
      match r with
      | None => Some (-2, c, st)
      | Some p =>
          item ← cs_bufs st !! p;
          let '(rc, errno, d, e) := sys_recvfrom fd (sk_size item) (cs_env st) in
          let st := set_env e st in
          if rc <=? 0 then
            st ← free_sk_buffer (rc_pool c) (Some p) st;
            Some (if errno =? EAGAIN then total else -3, c, st)
          else
            m ← bwrite (sk_data item) d (sk_mem item);
            let st := put_buf p (set_span (sk_data item) (u32 (sk_data_len item + rc)) (set_mem m item)) st in
            k ← cache_append_buffer (Some c) (Some p) st;
            udp_recv_loop n fd (i32 (total + rc)) (default c k) st
      end
  end.
Definition cache_udp_recv (cache : option TRWCache) (fd : Z) st : option (Z * option TRWCache * CacheState) :=
  match cache with
  | None => Some (-1, None, st)
  | Some c => '(r, c, st) ← udp_recv_loop 100 fd 0 c st; Some (r, Some c, st)
  end.

(** [cache_tcp_recv]: the block to receive into, a new one when the last is full. *)
Definition recv_block c st : option (option ptr * TRWCache * CacheState) :=
  full ← (match list.last (rc_list c) with
          | None => Some true
          | Some p => b ← cs_bufs st !! p; Some (sk_size b <=? sk_data_len b + sk_data b)
          end);
  if (full : bool) then
    '(r, st) ← alloc_sk_buffer (rc_pool c) st;
    k ← cache_append_buffer (Some c) r st;
    Some (r, default c k, st)
  else Some (list.last (rc_list c), c, st).

Fixpoint tcp_recv_loop (n : nat) (fd total : Z) c st : option (Z * TRWCache * CacheState) :=
  match n with
  | O => Some (total, c, st)
  | S n =>
      '(r, c, st) ← recv_block c st;
      match r with
      | None => Some (-2, c, st)
      | Some p =>
          item ← cs_bufs st !! p;
          let remain := u32 (sk_size item - sk_data item - sk_data_len item) in
          let '(recvd_len, errno, d, e) := sys_recv fd remain (cs_env st) in
          let st := set_env e st in
          if recvd_len =? 0 then Some (- SK_ERR_NEED_CLOSE, c, st)
          else if recvd_len <? 0 then Some (if errno =? EAGAIN then total else -2, c, st)
          else
            st ← extend p d st;
            let c := mkCache (rc_list c) (u32 (rc_len c + recvd_len)) (rc_count c) (rc_pool c) in
            let total := i32 (total + recvd_len) in
            if recvd_len <? i32 remain then Some (total, c, st) else tcp_recv_loop n fd total c st
      end
  end.
Definition cache_tcp_recv (cache : option TRWCache) (fd : Z) st : option (Z * option TRWCache * CacheState) :=
  match cache with
  | None => Some (-1, None, st)
  | Some c => '(r, c, st) ← tcp_recv_loop 100 fd 0 c st; Some (r, Some c, st)
  end.

(** The loop of [cache_tcp_send]: the last result and [errno], and the total. *)
Fixpoint tcp_send_loop (l : list ptr) (fd ret errno total : Z) st : option (Z * Z * Z * CacheState) :=
  match l with
  | [] => Some (ret, errno, total, st)
  | p :: l =>
      item ← cs_bufs st !! p;
      d ← bread (sk_data item) (sk_data_len item) (sk_mem item);
      let '(ret, errno, e) := sys_send fd d (cs_env st) in
      let st := set_env e st in
      if ret <? 0 then Some (ret, errno, total, st)
      else
        let total := i32 (total + ret) in
        if ret <? i32 (sk_data_len item) then Some (ret, errno, total, st)
        else tcp_send_loop l fd ret errno total st
  end.

(** [cache_tcp_send] *)
Definition cache_tcp_send (cache : option TRWCache) (fd : Z) st : option (Z * option TRWCache * CacheState) :=
  match cache with
  | None => Some (-1, None, st)
  | Some c =>
      if negb (rc_pool c) then Some (-1, cache, st)
      else if rc_len c =? 0 then Some (0, cache, st)
      else
        '(ret, errno, total, st) ← tcp_send_loop (rc_list c) fd 0 0 0 st;
        '(cache, st) ← cache_skip_data cache (u32 total) st;
        Some (if (ret <? 0) && negb (errno =? EAGAIN) then -2 else total, cache, st)
  end.

(** The end of [cache_tcp_send_buff]: what was not sent is cached. *)
Definition send_buff_rest (cache : option TRWCache) (data : list Z) (len send_len : Z) st
  : option (Z * option TRWCache * CacheState) :=
  '(rc, cache, st) ← cache_append_data cache (Some (drop (Z.to_nat send_len) data)) (u32 (len - send_len)) st;
  if rc <? 0 then Some (-3, cache, st) else Some (send_len, cache, st).

(** [cache_tcp_send_buff]: first the cached data, then as much of [data] as the
    socket takes; the rest is cached. *)
Definition cache_tcp_send_buff (cache : option TRWCache) (fd : Z) (data : option (list Z)) (len : Z) st
  : option (Z * option TRWCache * CacheState) :=
  match cache, data with
  | Some _, Some data =>
      '(ret, cache, st) ← cache_tcp_send cache fd st;
      if ret <? 0 then Some (ret, cache, st)
      else
        c ← cache;
        d ← bread 0 len data;
        let '(ret, errno, st) :=
          if rc_len c =? 0 then
            let '(ret, errno, e) := sys_send fd d (cs_env st) in (ret, errno, set_env e st)
          else (0, 0, st) in
        if (ret <? 0) && negb (errno =? EAGAIN) then Some (-2, cache, st)
        else
          send_buff_rest cache data len (if 0 <=? ret then ret else 0) st
  | _, _ => Some (-1, cache, st)
  end.

(** ** Reading without consuming *)

Definition get_data_len (cache : option TRWCache) : Z := match cache with None => 0 | Some c => rc_len c end.
Definition get_block_count (cache : option TRWCache) : Z := match cache with None => 0 | Some c => rc_count c end.
Definition get_first_block (cache : option TRWCache) : option ptr := c ← cache; head (rc_list c).
(** [get_next_block]: the block behind [block] in the chain. *)
Definition get_next_block (cache : option TRWCache) (block : option ptr) : option ptr :=
  c ← cache; p ← block; '(i, _) ← list_find (p =.) (rc_list c); rc_list c !! S i.
(** [get_block_data]: the data of a block and its length. *)
Definition get_block_data (block : option ptr) st : option (list Z * Z) :=
  p ← block; b ← cs_bufs st !! p;
  d ← bread (sk_data b) (sk_data_len b) (sk_mem b); Some (d, i32 (sk_data_len b)).

(** [read_cache_data]: the bytes copied to the caller's buffer; their number is the
    result, also when the buffer is [NULL]. *)
Fixpoint read_loop (l : list ptr) (left_len : Z) (out : list Z) st : option (list Z) :=
  match l with
  | [] => Some out
  | p :: l =>
      item ← cs_bufs st !! p;
      let copy_len := if left_len <=? sk_data_len item then left_len else sk_data_len item in
      d ← bread (sk_data item) copy_len (sk_mem item);
      let left_len := u32 (left_len - copy_len) in
      if left_len <=? 0 then Some (out ++ d) else read_loop l left_len (out ++ d) st
  end.
Definition read_cache_data (cache : option TRWCache) (len : Z) st : option (Z * list Z) :=
  match cache with
  | None => Some (0, [])
  | Some c => out ← read_loop (rc_list c) len [] st; Some (u32 (blen out), out)
  end.

(** [read_cache_begin] *)
Fixpoint read_begin_loop (l : list ptr) (pos_left copy_left : Z) (out : list Z) st : option (list Z) :=
  match l with
  | [] => Some out
  | p :: l =>
      item ← cs_bufs st !! p;
      let skip_len := if 0 <? pos_left then if sk_data_len item <? pos_left then sk_data_len item else pos_left else 0 in
      let pos_left := u32 (pos_left - skip_len) in
      let real_left := u32 (sk_data_len item - skip_len) in
      if real_left =? 0 then read_begin_loop l pos_left copy_left out st
      else
        let copy_len := if real_left <? copy_left then real_left else copy_left in
        d ← bread (sk_data item + skip_len) copy_len (sk_mem item);
        let copy_left := u32 (copy_left - copy_len) in
        if copy_left =? 0 then Some (out ++ d) else read_begin_loop l pos_left copy_left (out ++ d) st
  end.
Definition read_cache_begin (cache : option TRWCache) (begin len : Z) st : option (Z * list Z) :=
  match cache with
  | None => Some (0, [])
  | Some c =>
      if rc_len c <=? begin then Some (0, [])
      else out ← read_begin_loop (rc_list c) begin len [] st; Some (u32 (blen out), out)
  end.

(** ** Well-formed stores and the contents of a chain *)

(** The data lies inside the block and the block inside its memory. *)
Record buf_ok (b : TSkBuffer) : Prop := {
  bo_data : 0 <= sk_data b;
  bo_len : 0 <= sk_data_len b;
  bo_end : sk_data b + sk_data_len b <= sk_size b;
  bo_size : 0 < sk_size b < 2 ^ 31;
  bo_mem : sk_size b <= blen (sk_mem b);
}.

Definition buf_bytes (b : TSkBuffer) : list Z :=
  take (Z.to_nat (sk_data_len b)) (drop (Z.to_nat (sk_data b)) (sk_mem b)).

Definition block_bytes st (p : ptr) : list Z :=
  match cs_bufs st !! p with Some b => buf_bytes b | None => [] end.

(** The data of the chain [l]. *)
Definition content st (l : list ptr) : list Z := concat (map (block_bytes st) l).

(** [L] are the blocks in use; the others of the store's interest are the free
    ones of the pool. *)
Record store_ok st (L : list ptr) : Prop := {
  so_nodup : NoDup (L ++ bm_free_list (cs_pool st));
  so_live : forall p, p ∈ L ++ bm_free_list (cs_pool st) -> exists b, cs_bufs st !! p = Some b /\ buf_ok b;
  so_free : forall p b, p ∈ bm_free_list (cs_pool st) -> cs_bufs st !! p = Some b -> sk_data b = 0 /\ sk_data_len b = 0;
  so_count : bm_count (cs_pool st) = u32 (Z.of_nat (length (bm_free_list (cs_pool st))));
  so_size : 0 < bm_size (cs_pool st) < 2 ^ 31;
}.

Definition keeps (L : list ptr) st st' : Prop := forall p, p ∈ L -> cs_bufs st' !! p = cs_bufs st !! p.

Lemma keeps_refl L st : keeps L st st.
Proof. done. Qed.
Lemma keeps_trans L st1 st2 st3 : keeps L st1 st2 -> keeps L st2 st3 -> keeps L st1 st3.
Proof. intros H1 H2 p Hp. rewrite H2 by done. auto. Qed.
Lemma keeps_mono L L' st st' : keeps L st st' -> L' ⊆ L -> keeps L' st st'.
Proof. intros H HL p Hp. apply H. set_solver. Qed.

Lemma keeps_content L st st' : keeps L st st' -> content st' L = content st L.
Proof.
  intros H. unfold content. f_equal. apply map_ext_in. intros p Hp%list_elem_of_In.
  unfold block_bytes. by rewrite H.
Qed.

Lemma content_app st l1 l2 : content st (l1 ++ l2) = content st l1 ++ content st l2.
Proof. unfold content. by rewrite map_app, concat_app. Qed.

Lemma store_ok_perm st L L' : L ≡ₚ L' -> store_ok st L -> store_ok st L'.
Proof.
  intros HL [H1 H2 H3 H4 H5]. split; auto; [by rewrite <- HL|]. intros p. rewrite <- HL. auto.
Qed.

Lemma store_ok_env st L e : store_ok st L -> store_ok (set_env e st) L.
Proof. intros [H1 H2 H3 H4 H5]. by split. Qed.

Lemma u32_add_l a b : u32 (u32 a + b) = u32 (a + b).
Proof. apply Zplus_mod_idemp_l. Qed.
Lemma u32_add_r a b : u32 (a + u32 b) = u32 (a + b).
Proof. apply Zplus_mod_idemp_r. Qed.

Lemma buf_bytes_len b : buf_ok b -> blen (buf_bytes b) = sk_data_len b.
Proof.
  intros [H1 H2 H3 H4 H5]. unfold buf_bytes, blen in *. rewrite length_take, length_drop. lia.
Qed.

Lemma buf_bread b k : buf_ok b -> 0 <= k <= sk_data_len b ->
  bread (sk_data b) k (sk_mem b) = Some (take (Z.to_nat k) (buf_bytes b)).
Proof.
  intros [H1 H2 H3 H4 H5] Hk. unfold buf_bytes. rewrite take_take.
  rewrite Nat.min_l by lia. apply (bread_at _ _ (Z.to_nat (sk_data b)) (Z.to_nat k)); unfold blen in *; lia.
Qed.

Lemma store_ok_put st L p b : store_ok st L -> p ∈ L -> buf_ok b -> store_ok (put_buf p b st) L.
Proof.
  intros [H1 H2 H3 H4 H5] Hp Hb. split; auto; simpl.
  - intros q Hq. destruct (decide (p = q)) as [<- | Hne]; [exists b; by rewrite lookup_insert_eq|].
    rewrite lookup_insert_ne by done. auto.
  - intros q b' Hq. rewrite lookup_insert_ne; [by apply H3|]. intros <-.
    apply list.NoDup_app in H1 as (_ & Hd & _). by apply (Hd p).
Qed.

Lemma keeps_put L st p b : p ∉ L -> keeps L st (put_buf p b st).
Proof. intros Hp q Hq. simpl. rewrite lookup_insert_ne; [done|]. by intros <-. Qed.

Lemma store_ok_not_in st p L : store_ok st (p :: L) -> p ∉ L.
Proof. intros [H _ _ _ _]. simpl in H. apply NoDup_cons_1_1 in H. set_solver. Qed.

Lemma store_ok_block st L p : store_ok st L -> p ∈ L -> exists b, cs_bufs st !! p = Some b /\ buf_ok b.
Proof. intros H Hp. apply (so_live _ _ H). set_solver. Qed.

Lemma content_cons st p l : content st (p :: l) = block_bytes st p ++ content st l.
Proof. done. Qed.

Lemma block_bytes_eq st p b : cs_bufs st !! p = Some b -> block_bytes st p = buf_bytes b.
Proof. intros H. unfold block_bytes. by rewrite H. Qed.

Lemma buf_bytes_skip b k m : 0 <= k <= sk_data_len b -> 0 <= sk_data b ->
  sk_mem b = m ->
  buf_bytes (set_span (sk_data b + k) (sk_data_len b - k) b) = drop (Z.to_nat k) (buf_bytes b).
Proof.
  intros Hk Hd <-. unfold buf_bytes. simpl. rewrite skipn_firstn_comm, drop_drop. f_equal; [lia|]. f_equal. lia.
Qed.

Lemma buf_ok_skip b k : buf_ok b -> 0 <= k <= sk_data_len b ->
  buf_ok (set_span (sk_data b + k) (sk_data_len b - k) b).
Proof. intros [H1 H2 H3 H4 H5] Hk. split; simpl; lia. Qed.

Lemma sk_len_small b : buf_ok b -> sk_data_len b < 2 ^ 31.
Proof. intros [H1 H2 H3 H4 H5]. lia. Qed.

Lemma take_min_app (n : nat) (a b : list Z) :
  take n (a ++ b) = take (Nat.min n (length a)) a ++ take (n - length a) b.
Proof. rewrite take_app. f_equal. destruct (Nat.le_gt_cases n (length a)); [by rewrite Nat.min_l|].
  rewrite Nat.min_r by lia. rewrite !take_ge by lia. done. Qed.

(** ** Reading a chain *)

Lemma store_ok_tail st p l R : store_ok st (p :: l ++ R) -> store_ok st (l ++ p :: R).
Proof. intros HS. eapply store_ok_perm; [|exact HS]. by rewrite <- Permutation_middle. Qed.

Lemma drop_min_app (n : nat) (a b : list Z) :
  drop n (a ++ b) = drop (Nat.min n (length a)) a ++ drop (n - length a) b.
Proof.
  rewrite drop_app. f_equal. destruct (Nat.le_gt_cases n (length a)); [by rewrite Nat.min_l|].
  rewrite Nat.min_r by lia. rewrite !drop_ge by lia. done.
Qed.

Lemma read_loop_ok l n out st R :
  store_ok st (l ++ R) -> 0 <= n < 2 ^ 32 -> read_loop l n out st = Some (out ++ take (Z.to_nat n) (content st l)).
Proof.
  revert n out R. induction l as [|p l IH]; intros n out R HS Hn; cbn [read_loop].
  { change (content st []) with (@nil Z). by rewrite take_nil, app_nil_r. }
  destruct (store_ok_block _ _ p HS) as (b & Hb & Hok); [set_solver|]. rewrite Hb. cbn [mbind option_bind].
  rewrite content_cons, (block_bytes_eq _ _ _ Hb). pose proof (buf_bytes_len b Hok) as Hbl. pose proof (bo_len b Hok).
  set (k := if n <=? sk_data_len b then n else sk_data_len b).
  assert (Hk : k = Z.min n (sk_data_len b)) by (unfold k; split_ifs; lia). clearbody k.
  rewrite buf_bread by (done || lia). cbn [mbind option_bind]. rewrite u32_small by (unfold in_u32; lia).
  rewrite take_min_app. unfold blen in Hbl.
  replace (Nat.min (Z.to_nat n) (length (buf_bytes b))) with (Z.to_nat k) by lia.
  destruct (Z.leb_spec (n - k) 0) as [Hz|Hz].
  - replace (Z.to_nat n - length (buf_bytes b))%nat with 0%nat by lia. by rewrite take_0, app_nil_r.
  - assert (HSl : store_ok st (l ++ p :: R)) by (eapply store_ok_perm; [|exact HS]; by rewrite <- Permutation_middle).
    rewrite (IH (n - k) _ _ HSl) by lia. rewrite <- app_assoc. do 4 f_equal. lia.
Qed.

Lemma read_begin_loop_ok l pos n out st R :
  store_ok st (l ++ R) -> 0 <= pos < 2 ^ 32 -> 0 <= n < 2 ^ 32 ->
  read_begin_loop l pos n out st = Some (out ++ take (Z.to_nat n) (drop (Z.to_nat pos) (content st l))).
Proof.
  revert pos n out R. induction l as [|p l IH]; intros pos n out R HS Hp Hn; cbn [read_begin_loop].
  { change (content st []) with (@nil Z). by rewrite drop_nil, take_nil, app_nil_r. }
  destruct (store_ok_block _ _ p HS) as (b & Hb & Hok); [set_solver|]. rewrite Hb. cbn [mbind option_bind].
  apply store_ok_tail in HS. rewrite content_cons, (block_bytes_eq _ _ _ Hb).
  pose proof (buf_bytes_len b Hok) as Hbl. unfold blen in Hbl. pose proof (bo_len b Hok). pose proof (sk_len_small b Hok).
  set (j := if 0 <? pos then if sk_data_len b <? pos then sk_data_len b else pos else 0).
  assert (Hj : j = Z.min pos (sk_data_len b)) by (unfold j; split_ifs; lia). clearbody j.
  rewrite (u32_small (pos - j)), (u32_small (sk_data_len b - j)) by (unfold in_u32; lia).
  rewrite drop_min_app. replace (Nat.min (Z.to_nat pos) (length (buf_bytes b))) with (Z.to_nat j) by lia.
  replace (Z.to_nat pos - length (buf_bytes b))%nat with (Z.to_nat (pos - j)) by lia.
  destruct (Z.eqb_spec (sk_data_len b - j) 0) as [Hz|Hz].
  { rewrite (IH (pos - j) n out _ HS) by lia. rewrite (drop_ge (buf_bytes b)) by lia. done. }
  replace (pos - j) with 0 by lia. rewrite drop_0.
  set (k := if sk_data_len b - j <? n then sk_data_len b - j else n).
  assert (Hk : k = Z.min n (sk_data_len b - j)) by (unfold k; split_ifs; lia). clearbody k.
  pose proof (buf_ok_skip b j Hok ltac:(lia)) as Hok'.
  pose proof (buf_bread _ k Hok' ltac:(simpl; lia)) as Hrd. cbn [sk_data sk_mem set_span] in Hrd.
  rewrite buf_bytes_skip with (m := sk_mem b) in Hrd by (done || lia || apply Hok).
  rewrite Hrd. cbn [mbind option_bind]. rewrite u32_small by (unfold in_u32; lia).
  assert (Hdl : length (drop (Z.to_nat j) (buf_bytes b)) = Z.to_nat (sk_data_len b - j)) by (rewrite length_drop; lia).
  rewrite take_min_app, Hdl. replace (Nat.min (Z.to_nat n) (Z.to_nat (sk_data_len b - j))) with (Z.to_nat k) by lia.
  destruct (Z.eqb_spec (n - k) 0) as [Hq|Hq].
  - replace (Z.to_nat n - Z.to_nat (sk_data_len b - j))%nat with 0%nat by lia. by rewrite take_0, app_nil_r.
  - rewrite (IH 0 (n - k) _ _ HS) by lia. rewrite drop_0, <- app_assoc. do 4 f_equal. lia.
Qed.

(** ** The environment's promises

    [rcvd] and [sent] are the bytes received and sent so far.  A receive call
    returns at most the number of bytes asked for and delivers as many as it
    reports; a send call takes a prefix of the bytes it is given; [malloc] and the
    clock do neither. *)
Section laws.
Context (rcvd sent : E -> list Z).

Definition quiet (e e' : E) : Prop := rcvd e' = rcvd e /\ sent e' = sent e.

Definition recv_law (sys : Z -> Z -> E -> Z * Z * list Z * E) : Prop :=
  forall fd n e k errno d e', 0 <= n -> sys fd n e = (k, errno, d, e') ->
    k <= n /\ sent e' = sent e /\
    (0 < k -> blen d = k /\ rcvd e' = rcvd e ++ d) /\ (k <= 0 -> rcvd e' = rcvd e).

Class CacheEnvLaws : Prop := {
  malloc_quiet : forall n e, quiet e (malloc_ok n e).2;
  time_quiet : forall e, quiet e (mt_time_ms e).2;
  recv_ok : recv_law sys_recv;
  recvfrom_ok : recv_law sys_recvfrom;
  send_ok : forall fd d e k errno e', sys_send fd d e = (k, errno, e') ->
    k <= blen d /\ rcvd e' = rcvd e /\
    (0 <= k -> sent e' = sent e ++ take (Z.to_nat k) d) /\ (k < 0 -> sent e' = sent e);
}.
Context {HLaws : CacheEnvLaws}.

(** The blocks [L] are untouched and nothing is sent or received. *)
Definition silent (L : list ptr) st st' : Prop := keeps L st st' /\ quiet (cs_env st) (cs_env st').

Lemma silent_refl L st : silent L st st.
Proof. done. Qed.
Lemma silent_trans L st1 st2 st3 : silent L st1 st2 -> silent L st2 st3 -> silent L st1 st3.
Proof.
  intros [H1 [H2 H3]] [H4 [H5 H6]]. split; [by eapply keeps_trans|]. split; congruence.
Qed.
Lemma silent_mono L L' st st' : silent L st st' -> L' ⊆ L -> silent L' st st'.
Proof. intros [H1 H2] HL. split; [by eapply keeps_mono|done]. Qed.
Lemma silent_put L st p b : p ∉ L -> silent L st (put_buf p b st).
Proof. intros Hp. split; [by apply keeps_put|done]. Qed.

(** A block as the pool hands it out. *)
Definition empty_block st (p : ptr) : Prop :=
  exists b, cs_bufs st !! p = Some b /\ buf_ok b /\ sk_data b = 0 /\ sk_data_len b = 0.

(** [malloc] never fails. *)
Definition malloc_total : Prop := forall n e, (malloc_ok n e).1 = true.

Lemma new_sk_buffer_ok st L size :
  store_ok st L -> 0 < size < 2 ^ 31 ->
  exists r st', new_sk_buffer size st = Some (r, st') /\ silent L st st' /\ (malloc_total -> r <> None) /\
    match r with
    | Some p => (p ∉ L) /\ store_ok st' (p :: L) /\ empty_block st' p
    | None => store_ok st' L
    end.
Proof.
  intros HS Hsz. unfold new_sk_buffer.
  set (t0 := u32 (sizeof_TSkBuffer + size)).
  assert (Ht0 : t0 = 56 + size) by (apply u32_small; unfold in_u32, sizeof_TSkBuffer; lia).
  set (total := u32 _).
  assert (Htot : 56 + size <= total).
  { unfold total, SK_DFLT_ALIGN_SIZE. rewrite Ht0, (u32_small (56 + size + 8 - 1)) by (unfold in_u32; lia).
    rewrite u32_small by (unfold in_u32; dlia). dlia. }
  pose proof (malloc_quiet total (cs_env st)) as Hq.
  destruct (malloc_ok total (cs_env st)) as [[] e] eqn:Em; simpl in Hq; cbn [negb].
  2: { exists None, (set_env e st). split; [done|]. split; [done|]. split; [|by apply store_ok_env].
       intros Ht. specialize (Ht total (cs_env st)). by rewrite Em in Ht. }
  destruct (Z.ltb_spec total sizeof_TSkBuffer) as [?|_]; [unfold sizeof_TSkBuffer in *; lia|].
  set (p := fresh _). assert (Hp : cs_bufs st !! p = None) by (apply not_elem_of_dom, is_fresh).
  set (b := mkSk _ _ _ _ _).
  assert (Hb : buf_ok b).
  { split; simpl; try lia. unfold blen. rewrite length_replicate. unfold offsetof_buff. lia. }
  assert (Hnew : p ∉ L ++ bm_free_list (cs_pool st)).
  { intros Hin. destruct (so_live _ _ HS p Hin) as (? & ? & _). congruence. }
  exists (Some p), (put_buf p b (set_env e st)). split; [done|]. split.
  { split; [|done]. apply (keeps_put L (set_env e st)). set_solver. }
  split; [done|]. split; [set_solver|]. destruct HS as [H1 H2 H3 H4 H5]. split.
  - split; simpl; auto.
    + by constructor.
    + intros q [-> | Hq']%elem_of_cons; [exists b; by rewrite lookup_insert_eq|].
      rewrite lookup_insert_ne; [auto|]. by intros <-.
    + intros q b' Hq'. rewrite lookup_insert_ne; [by apply H3|]. intros <-. set_solver.
  - exists b. simpl. by rewrite lookup_insert_eq.
Qed.

Lemma alloc_ok st L :
  store_ok st L ->
  exists r st', alloc_sk_buffer true st = Some (r, st') /\ silent L st st' /\ (malloc_total -> r <> None) /\
    match r with
    | Some p => (p ∉ L) /\ store_ok st' (p :: L) /\ empty_block st' p
    | None => store_ok st' L
    end.
Proof.
  intros HS. unfold alloc_sk_buffer. cbn [negb].
  destruct (bm_free_list (cs_pool st)) as [|p l] eqn:El; [apply new_sk_buffer_ok; [done|apply HS]|].
  destruct HS as [H1 H2 H3 H4 H5]. rewrite El in *.
  exists (Some p). eexists. split; [done|]. split; [done|].
  assert (Hperm : L ++ p :: l ≡ₚ p :: L ++ l) by (by rewrite Permutation_middle).
  split; [done|]. split; [|split].
  - apply list.NoDup_app in H1 as (_ & Hd & _). intros HpL. apply (Hd p HpL). by left.
  - split; simpl; auto.
    + by rewrite <- Hperm.
    + intros q Hq. apply H2. rewrite Hperm. done.
    + intros q b Hq. apply H3. by right.
    + rewrite H4. unfold u32. rewrite Zminus_mod_idemp_l. f_equal. simpl. lia.
  - destruct (H2 p) as (b & Hb & Hok); [set_solver|]. destruct (H3 p b) as [? ?]; [by left|done|].
    exists b. auto.
Qed.

Lemma free_ok st p L :
  store_ok st (p :: L) ->
  exists st', free_sk_buffer true (Some p) st = Some st' /\ store_ok st' L /\ silent L st st'.
Proof.
  intros HS. pose proof (store_ok_not_in _ _ _ HS) as HpL.
  destruct (store_ok_block _ _ p HS) as (b & Hb & Hok); [by left|].
  unfold free_sk_buffer. cbn [negb]. cbn [cs_env set_free].
  pose proof (time_quiet (cs_env st)) as Hq. destruct (mt_time_ms (cs_env st)) as [ms e]. simpl in Hq.
  simpl. rewrite Hb. simpl. eexists. split; [done|].
  destruct HS as [H1 H2 H3 H4 H5]. simpl in *.
  assert (Hperm : L ++ bm_free_list (cs_pool st) ++ [p] ≡ₚ p :: L ++ bm_free_list (cs_pool st))
    by (rewrite app_assoc; by rewrite <- Permutation_cons_append).
  split; [|split; [|done]].
  - split; simpl; auto.
    + by rewrite Hperm.
    + intros q. rewrite Hperm. intros Hq'. destruct (decide (p = q)) as [<- | Hne].
      * rewrite lookup_insert_eq. eexists. split; [done|]. destruct Hok. split; simpl; lia.
      * rewrite lookup_insert_ne by done. auto.
    + intros q b' Hq'. destruct (decide (p = q)) as [<- | Hne].
      * rewrite lookup_insert_eq. by intros [= <-].
      * rewrite lookup_insert_ne by done. apply H3. set_solver.
    + rewrite H4. unfold u32. rewrite Zplus_mod_idemp_l. f_equal. rewrite length_app. simpl. lia.
  - intros q Hq'. simpl. rewrite lookup_insert_ne; [done|]. by intros <-.
Qed.

(** ** Taking data out *)

Lemma copy_out_loop_ok l want lft count out st R :
  store_ok st (l ++ R) -> 0 <= lft < 2 ^ 32 -> count = Z.of_nat (length l) -> count < 2 ^ 32 ->
  exists l' st',
    copy_out_loop want l lft count out st =
      Some (if want then out ++ take (Z.to_nat lft) (content st l) else out,
            lft - Z.min lft (blen (content st l)), l', Z.of_nat (length l'), st') /\
    store_ok st' (l' ++ R) /\ content st' l' = drop (Z.to_nat lft) (content st l) /\ silent R st st' /\
    (length l' <= length l)%nat.
Proof.
  revert lft count out st. induction l as [|p l IH]; intros lft count out st HS Hl -> Hc.
  { exists [], st. cbn [copy_out_loop]. change (content st []) with (@nil Z). rewrite take_nil, drop_nil, app_nil_r.
    split; [|done]. change (blen []) with 0. rewrite Z.min_r, Z.sub_0_r by lia. by destruct want. }
  cbn [copy_out_loop]. destruct (store_ok_block _ _ p HS) as (b & Hb & Hok); [set_solver|].
  rewrite Hb. cbn [mbind option_bind]. rewrite content_cons, (block_bytes_eq _ _ _ Hb).
  pose proof (buf_bytes_len b Hok) as Hbl. pose proof (sk_len_small b Hok) as Hsm. pose proof (bo_len b Hok) as Hge.
  set (skip := if lft <? sk_data_len b then lft else sk_data_len b).
  assert (Hskip : skip = Z.min lft (sk_data_len b)) by (unfold skip; split_ifs; lia). clearbody skip.
  rewrite buf_bread by (done || lia).
  assert (Hout : (if want then d ← Some (take (Z.to_nat skip) (buf_bytes b)); Some (out ++ d) else Some out) =
    Some (if want then out ++ take (Z.to_nat skip) (buf_bytes b) else out)) by (by destruct want).
  rewrite Hout. cbn [mbind option_bind]. clear Hout.
  rewrite (u32_small (lft - skip)), (u32_small (sk_data_len b - skip)) by (unfold in_u32; lia).
  set (b' := set_span _ _ _). set (st1 := put_buf p b' st).
  assert (Hok' : buf_ok b') by (apply buf_ok_skip; [done|lia]).
  assert (HS1 : store_ok st1 (p :: l ++ R)) by (apply store_ok_put; [done|set_solver|done]).
  assert (HpR : p ∉ l ++ R) by (by apply (store_ok_not_in st)).
  assert (Hk1 : keeps (l ++ R) st st1) by (by apply keeps_put).
  assert (Hcl : content st1 l = content st l) by (apply keeps_content; eapply keeps_mono; [done|set_solver]).
  assert (Hlen : length (buf_bytes b) = Z.to_nat (sk_data_len b)) by (unfold blen in Hbl; lia).
  assert (Hwant : forall o, (if want then o ++ take (Z.to_nat lft) (buf_bytes b ++ content st l) else o) =
    (if want then (if want then o ++ take (Z.to_nat skip) (buf_bytes b) else o) ++ take (Z.to_nat (lft - skip)) (content st l)
     else (if want then o ++ take (Z.to_nat skip) (buf_bytes b) else o))).
  { intros o. destruct want; [|done]. rewrite take_min_app, <- app_assoc, Hlen. do 3 f_equal; lia. }
  cbn [sk_data_len b' set_span]. destruct (Z.ltb_spec 0 (sk_data_len b - skip)) as [Hrem|Hrem].
  - exists (p :: l), st1. split; [|split; [done|split; [|split; [split; [|done]|done]]]].
    + rewrite Hwant. replace (lft - skip) with 0 by lia. rewrite take_0, blen_app.
      assert (0 <= blen (content st l)) by (unfold blen; lia). do 5 f_equal; [|lia]. by destruct want; rewrite ?app_nil_r.
    + rewrite content_cons, (block_bytes_eq st1 p b') by (simpl; by rewrite lookup_insert_eq). rewrite Hcl.
      unfold b'. rewrite buf_bytes_skip with (m := sk_mem b) by (done || lia || apply Hok).
      rewrite drop_app_le by lia. by replace lft with skip by lia.
    + eapply keeps_mono; [done|set_solver].
  - assert (Hsk : skip = sk_data_len b) by lia.
    destruct (free_ok st1 p (l ++ R) HS1) as (st2 & -> & HS2 & Hs2). cbn [mbind option_bind].
    assert (Hs : silent (l ++ R) st st2) by (eapply silent_trans; [by split|done]).
    assert (Hcl2 : content st2 l = content st l).
    { apply keeps_content. eapply keeps_mono; [apply Hs|set_solver]. }
    assert (Hdrop : drop (Z.to_nat lft) (buf_bytes b ++ content st l) = drop (Z.to_nat (lft - skip)) (content st l)).
    { rewrite drop_app_ge by lia. f_equal. lia. }
    assert (Hcnt : (if 0 <? Z.of_nat (length (p :: l)) then u32 (Z.of_nat (length (p :: l)) - 1)
                    else Z.of_nat (length (p :: l))) = Z.of_nat (length l)).
    { simpl length. destruct (Z.ltb_spec 0 (Z.of_nat (S (length l)))); [|lia]. rewrite u32_small; [lia|].
      unfold in_u32. simpl length in Hc. lia. }
    rewrite Hcnt, Hdrop, Hwant, blen_app, Hbl. destruct (Z.eqb_spec (lft - skip) 0) as [E0|E0].
    + exists l, st2. rewrite E0. rewrite take_0, drop_0.
      assert (0 <= blen (content st l)) by (unfold blen; lia).
      split; [|split; [done|split; [done|split; [eapply silent_mono; [done|set_solver]|simpl; lia]]]].
      do 5 f_equal; [by destruct want; rewrite ?app_nil_r|lia].
    + destruct (IH (lft - skip) (Z.of_nat (length l)) (if want then out ++ take (Z.to_nat skip) (buf_bytes b) else out) st2)
        as (l' & st' & -> & H1 & H2 & H3 & H4); [done|lia|done|simpl in Hc; lia|].
      exists l', st'. rewrite Hcl2 in *. split; [do 5 f_equal; lia|]. split; [done|]. split; [done|].
      split; [|simpl; lia]. eapply silent_trans; [eapply silent_mono; [exact Hs|set_solver]|done].
Qed.

(** ** Adding data *)

Lemma buf_extend b d :
  buf_ok b -> sk_data b + sk_data_len b + blen d <= sk_size b ->
  exists m, bwrite (sk_data b + sk_data_len b) d (sk_mem b) = Some m /\
    buf_ok (set_span (sk_data b) (sk_data_len b + blen d) (set_mem m b)) /\
    buf_bytes (set_span (sk_data b) (sk_data_len b + blen d) (set_mem m b)) = buf_bytes b ++ d.
Proof.
  intros [H1 H2 H3 H4 H5] Hd. unfold blen in *.
  set (i := Z.to_nat (sk_data b)). set (n := Z.to_nat (sk_data_len b)).
  rewrite (bwrite_at _ (i + n)) by lia. eexists. split; [done|]. split.
  - split; simpl; try lia. unfold blen. rewrite length_splice by lia. lia.
  - unfold buf_bytes, splice. simpl. fold i n.
    replace (Z.to_nat (sk_data_len b + Z.of_nat (length d))) with (n + length d)%nat by lia.
    rewrite drop_app_le by (rewrite length_take; lia).
    rewrite take_drop_commute. rewrite take_app_ge by (rewrite length_drop, length_take; lia).
    rewrite length_drop, length_take. rewrite Nat.min_l by lia.
    replace (n + length d - (i + n - i))%nat with (length d) by lia.
    rewrite take_app_length. done.
Qed.

Lemma extend_ok st L p b d :
  store_ok st L -> p ∈ L -> cs_bufs st !! p = Some b -> sk_data b + sk_data_len b + blen d <= sk_size b ->
  exists b', extend p d st = Some (put_buf p b' st) /\ buf_ok b' /\ buf_bytes b' = buf_bytes b ++ d.
Proof.
  intros HS Hp Hb Hd. assert (Hok : buf_ok b).
  { destruct (store_ok_block _ _ _ HS Hp) as (b0 & Hb0 & ?). congruence. }
  destruct (buf_extend b d Hok Hd) as (m & Em & H1 & H2). unfold extend. rewrite Hb. cbn [mbind option_bind].
  rewrite Em. cbn [mbind option_bind]. rewrite u32_small; [by eexists|].
  destruct Hok. unfold in_u32, blen in *. lia.
Qed.

(** [reserve_sk_buffer] for more than the block holds moves the data to a new block. *)
Lemma new_sk_buffer_size size st p st' : new_sk_buffer size st = Some (Some p, st') ->
  exists b, cs_bufs st' !! p = Some b /\ sk_size b = size.
Proof.
  unfold new_sk_buffer. destruct (malloc_ok _ _) as [[] e]; cbn [negb]; [|done]. destruct (_ <? _); [done|].
  intros [= <- <-]. eexists. split; [apply lookup_insert_eq|done].
Qed.
(** Without memory only the environment changes. *)
Lemma new_sk_buffer_none size st st' : new_sk_buffer size st = Some (None, st') -> exists e, st' = set_env e st.
Proof.
  unfold new_sk_buffer. destruct (malloc_ok _ _) as [[] e]; cbn [negb]; [by case_match|]. intros [= <-]. by exists e.
Qed.
(** Then [reserve_sk_buffer] gives the old block again. *)
Lemma reserve_ok st p L b size :
  store_ok st (p :: L) -> cs_bufs st !! p = Some b -> sk_data b = 0 -> sk_size b < size < 2 ^ 31 ->
  exists q st' b', reserve_sk_buffer (Some p) size st = Some (Some q, st') /\ silent L st st' /\ store_ok st' (q :: L) /\
    cs_bufs st' !! q = Some b' /\ sk_data b' = 0 /\ buf_bytes b' = buf_bytes b /\ (sk_size b' = size \/ sk_size b' = sk_size b /\ ~ malloc_total).
Proof.
  intros HS Hb Hd Hsz. unfold reserve_sk_buffer. rewrite Hb. cbn [mbind option_bind].
  assert (Hok : buf_ok b) by (destruct (store_ok_block _ _ p HS ltac:(by left)) as (b0 & Hb0 & ?); congruence).
  rewrite (proj2 (Z.leb_gt _ _)) by lia. pose proof (bo_size b Hok).
  destruct (new_sk_buffer_ok st (p :: L) size HS ltac:(lia)) as (r & st1 & En & Hs1 & Ht & Hr). rewrite En. cbn [mbind option_bind].
  destruct r as [q|].
  2: { destruct (new_sk_buffer_none _ _ _ En) as [e ->]. exists p, (set_env e st), b. split; [done|].
       split; [eapply silent_mono; [exact Hs1|set_solver]|]. do 4 (split; [done|]). right. split; [done|]. intros Hm. by destruct (Ht Hm). }
  destruct Hr as (Hq & HS1 & (nb & Hnb & Hnok & Hn0 & Hnl)).
  destruct (new_sk_buffer_size _ _ _ _ En) as (nb' & Hnb' & Hns). rewrite Hnb in Hnb'. injection Hnb' as <-.
  rewrite Hnb. cbn [mbind option_bind]. pose proof (buf_bread b (sk_data_len b) Hok ltac:(destruct Hok; lia)) as Hrd.
  rewrite Hd in *. rewrite Hrd. cbn [mbind option_bind]. pose proof (buf_bytes_len b Hok) as Hlen.
  set (dat := take (Z.to_nat (sk_data_len b)) (buf_bytes b)) in *.
  assert (Hdat : dat = buf_bytes b) by (unfold dat; apply take_ge; unfold blen in Hlen; lia). rewrite Hdat.
  destruct (buf_extend nb (buf_bytes b) Hnok) as (m & Em & Hok' & Hbb); [rewrite Hn0, Hnl, Hns, Hlen; destruct Hok; lia|].
  rewrite Hn0, Hnl in *. rewrite Z.add_0_l in *. rewrite Em. cbn [mbind option_bind]. rewrite Hlen in *.
  set (b' := set_span _ _ _) in *. unfold delete_sk_buffer.
  assert (Hpq : p <> q) by (intros ->; apply Hq; by left).
  assert (Hp1 : is_Some (cs_bufs st1 !! p)).
  { rewrite (proj1 Hs1 p ltac:(by left)). by exists b. }
  destruct Hp1 as [b1 Hb1]. cbn [cs_bufs put_buf]. rewrite lookup_insert_ne by done. rewrite Hb1. cbn [mbind option_bind].
  eexists q, _, b'. split; [reflexivity|].
  pose proof (store_ok_put st1 (q :: p :: L) q b' HS1 ltac:(by left) Hok') as HS2.
  assert (HpL : p ∉ L) by exact (store_ok_not_in _ _ _ HS).
  split; [|split; [|split; [|split; [done|split; [|by left]]]]].
  - destruct Hs1 as [Hk Hq1]. split; [|exact Hq1]. intros z Hz. cbn [cs_bufs put_buf]. rewrite lookup_delete_ne by (by intros ->).
    rewrite lookup_insert_ne by (intros ->; apply Hq; by right). apply Hk. by right.
  - apply (store_ok_perm _ _ (p :: q :: L)) in HS2; [|by constructor]. destruct HS2 as [N1 N2 N3 N4 N5]. cbn in N1.
    pose proof (NoDup_cons_1_1 _ _ N1) as Hp. apply NoDup_cons_1_2 in N1.
    assert (Hdel : forall z, z ∈ (q :: L) ++ bm_free_list (cs_pool st1) -> delete p (<[q := b']> (cs_bufs st1)) !! z = <[q := b']> (cs_bufs st1) !! z).
    { intros z Hz. apply lookup_delete_ne. by intros ->. }
    split; cbn [cs_bufs cs_pool put_buf]; try done.
    + intros z Hz. rewrite Hdel by done. apply N2. by right.
    + intros z zb Hz. rewrite Hdel by set_solver. by apply N3.
  - cbn [cs_bufs put_buf]. rewrite lookup_delete_ne by done. apply lookup_insert_eq.
  - rewrite Hbb. unfold buf_bytes at 1. by rewrite Hnl.
Qed.

Lemma free_all_ok l st L : store_ok st (l ++ L) ->
  exists st', free_all l st = Some st' /\ store_ok st' L /\ silent L st st'.
Proof.
  revert st. induction l as [|p l IH]; intros st HS; [by exists st|].
  destruct (free_ok st p (l ++ L) HS) as (st1 & E1 & HS1 & Hs1). cbn [free_all]. rewrite E1. cbn [mbind option_bind].
  destruct (IH st1 HS1) as (st2 & -> & HS2 & Hs2). exists st2. split; [done|]. split; [done|].
  eapply silent_trans; [eapply silent_mono; [exact Hs1|set_solver]|done].
Qed.

Lemma content_snoc_put st l p b : p ∉ l -> content (put_buf p b st) (l ++ [p]) = content st l ++ buf_bytes b.
Proof.
  intros Hp. rewrite content_app. f_equal; [apply keeps_content; by apply keeps_put|].
  unfold content. simpl. rewrite app_nil_r. apply block_bytes_eq. simpl. by rewrite lookup_insert_eq.
Qed.

(** The blocks being filled hold [done] and nothing else. *)
Record keep_ok st (L : list ptr) (keep : TRWCache) (done : list Z) : Prop := {
  ko_store : store_ok st (rc_list keep ++ L);
  ko_pool : rc_pool keep = true;
  ko_bytes : content st (rc_list keep) = done;
  ko_count : rc_count keep = u32 (Z.of_nat (length (rc_list keep)));
}.

(** One round: a new block [p] is linked and filled with [d]. *)
Lemma append_round st L keep bytes p b d st1 :
  keep_ok st L keep bytes -> silent (rc_list keep ++ L) st st1 ->
  store_ok st1 (p :: rc_list keep ++ L) -> (p ∉ rc_list keep ++ L) ->
  cs_bufs st1 !! p = Some b -> sk_data b = 0 -> sk_data_len b = 0 -> blen d <= sk_size b ->
  exists m keep', bwrite 0 d (sk_mem b) = Some m /\
    cache_append_buffer (Some keep) (Some p) st1 = Some (Some keep') /\
    rc_list keep' = rc_list keep ++ [p] /\
    let st2 := put_buf p (set_span (sk_data b) (blen d) (set_mem m b)) st1 in
    keep_ok st2 L keep' (bytes ++ d) /\ silent L st st2.
Proof.
  intros [K1 K2 K3 K4] Hs HS Hp Hb Hd0 Hl0 Hd.
  assert (Hok : buf_ok b) by (destruct (store_ok_block _ _ p HS) as (b0 & ? & ?); [by left|congruence]).
  destruct (buf_extend b d Hok ltac:(lia)) as (m & Em & H1 & H2). rewrite Hd0, Hl0 in Em, H1, H2. rewrite Z.add_0_l in H1, H2.
  assert (Hnil : buf_bytes b = []) by (unfold buf_bytes; by rewrite Hl0). rewrite Hnil in H2. simpl in H2.
  exists m. eexists. split; [done|]. unfold cache_append_buffer. rewrite Hb. cbn [mbind option_bind].
  split; [reflexivity|]. split; [done|]. cbn zeta. rewrite Hd0. set (b' := set_span _ _ _) in *.
  split.
  - split; simpl.
    + apply (store_ok_perm _ (p :: rc_list keep ++ L)); [by rewrite <- app_assoc, Permutation_middle|].
      apply store_ok_put; [done|by left|done].
    + done.
    + rewrite content_snoc_put by set_solver. f_equal; [|done]. rewrite <- K3. apply keeps_content.
      eapply keeps_mono; [apply Hs|set_solver].
    + rewrite K4, length_app, u32_add_l. f_equal. simpl. lia.
  - eapply silent_trans; [eapply silent_mono; [exact Hs|set_solver]|]. apply silent_put. set_solver.
Qed.

Lemma append_loop_ok fuel data len lft keep st L bytes :
  keep_ok st L keep bytes -> blen data = len -> len < 2 ^ 31 -> 0 < lft <= len -> (Z.to_nat lft < fuel)%nat ->
  exists ok keep' st', append_loop fuel data len lft keep st = Some (ok, keep', st') /\ silent L st st' /\
    (malloc_total -> ok = true) /\
    if (ok : bool) then keep_ok st' L keep' (bytes ++ drop (Z.to_nat (len - lft)) data) else store_ok st' L.
Proof.
  revert lft keep st bytes. induction fuel as [|fuel IH]; intros lft keep st bytes K Hlen Hsm Hl Hf; [lia|].
  cbn [append_loop]. destruct (Z.ltb_spec 0 lft) as [_|?]; [cbn [negb]|lia].
  pose proof (ko_pool _ _ _ _ K) as Hp. rewrite Hp.
  destruct (alloc_ok st (rc_list keep ++ L) (ko_store _ _ _ _ K)) as (r & st1 & -> & Hs1 & Ht & Hr).
  cbn [mbind option_bind]. destruct r as [p|].
  2: { destruct (free_all_ok (rc_list keep) st1 L Hr) as (st2 & E2 & HS2 & Hs2).
       unfold rw_cache_destroy. rewrite Hp. cbn [negb]. rewrite E2. cbn [mbind option_bind].
       exists false, keep, st2. split; [done|]. split.
       - eapply silent_trans; [eapply silent_mono; [exact Hs1|set_solver]|done].
       - split; [|done]. intros Hm. by destruct (Ht Hm). }
  destruct Hr as (Hnew & HS1 & (b & Hb & Hok & Hd0 & Hl0)). pose proof (bo_size b Hok) as Hbs.
  assert (exists k, k = Z.min lft (sk_size b)) as [k Hk] by eauto.
  assert (Hd : bread (len - lft) k data = Some (take (Z.to_nat k) (drop (Z.to_nat (len - lft)) data))).
  { apply (bread_at _ _ (Z.to_nat (len - lft)) (Z.to_nat k)); unfold blen in *; lia. }
  set (d := take (Z.to_nat k) (drop (Z.to_nat (len - lft)) data)) in *.
  assert (Hdl : blen d = k) by (unfold d, blen in *; rewrite length_take, length_drop; lia).
  destruct (append_round st L keep bytes p b d st1 K Hs1 HS1 Hnew Hb Hd0 Hl0 ltac:(lia))
    as (m & keep' & Em & -> & Hlist & K2 & Hs2).
  cbn [mbind option_bind]. rewrite Hb. cbn [mbind option_bind default from_option id]. rewrite Hdl in K2, Hs2.
  destruct (Z.leb_spec lft (sk_size b)) as [Hfit|Hfit].
  - assert (k = lft) as -> by lia. rewrite Hd. cbn [mbind option_bind]. rewrite Em. cbn [mbind option_bind].
    exists true, keep', (put_buf p (set_span (sk_data b) lft (set_mem m b)) st1).
    split; [done|]. split; [done|]. split; [done|].
    replace (drop (Z.to_nat (len - lft)) data) with d; [done|].
    apply take_ge. rewrite length_drop. unfold blen in *. lia.
  - assert (Ek : k = sk_size b) by lia. rewrite <- Ek, Hd. cbn [mbind option_bind]. rewrite Em. cbn [mbind option_bind].
    rewrite u32_small by (unfold in_u32; lia).
    destruct (IH (lft - k) keep' _ _ K2 Hlen Hsm ltac:(lia) ltac:(lia))
      as (ok & keep2 & st2 & -> & Hs3 & Ht3 & Hpost).
    exists ok, keep2, st2. split; [done|]. split; [by eapply silent_trans|]. split; [done|].
    destruct ok; [|done].
    replace (drop (Z.to_nat (len - lft)) data) with (d ++ drop (Z.to_nat (len - (lft - k))) data);
      [by rewrite app_assoc|].
    unfold d. replace (Z.to_nat (len - (lft - k))) with (Z.to_nat (len - lft) + Z.to_nat k)%nat by lia.
    by rewrite <- drop_drop, take_drop.
Qed.

(** ** A cache refines a string of bytes

    [R] are the blocks other caches hold.  The length and the number of blocks are
    32-bit numbers. *)
Record cache_rep (R : list ptr) c st (bytes : list Z) : Prop := {
  cr_pool : rc_pool c = true;
  cr_store : store_ok st (rc_list c ++ R);
  cr_bytes : content st (rc_list c) = bytes;
  cr_len : rc_len c = u32 (blen bytes);
  cr_count : rc_count c = u32 (Z.of_nat (length (rc_list c)));
}.

Lemma last_split {A} (l : list A) x : list.last l = Some x -> exists l', l = l' ++ [x].
Proof. destruct l as [|y l' _] using rev_ind; [done|]. rewrite last_snoc. intros [= ->]. by exists l'. Qed.

(** Filling the last block. *)
Lemma extend_last R c st bytes p d :
  cache_rep R c st bytes -> list.last (rc_list c) = Some p ->
  (forall b, cs_bufs st !! p = Some b -> sk_data b + sk_data_len b + blen d <= sk_size b) ->
  exists st', extend p d st = Some st' /\ store_ok st' (rc_list c ++ R) /\
    content st' (rc_list c) = bytes ++ d /\ silent R st st' /\
    (forall q, q <> p -> cs_bufs st' !! q = cs_bufs st !! q) /\ cs_pool st' = cs_pool st.
Proof.
  intros [H1 H2 H3 H4 H5] Hl Hd. destruct (last_split _ _ Hl) as [l El].
  assert (Hin : p ∈ rc_list c ++ R) by (rewrite El; set_solver).
  destruct (store_ok_block _ _ p H2 Hin) as (b & Hb & Hok).
  destruct (extend_ok st _ p b d H2 Hin Hb (Hd b Hb)) as (b' & E' & Hok' & Hbb).
  assert (Hnd : NoDup (rc_list c ++ R)) by (destruct H2 as [Hn _ _ _ _]; by apply list.NoDup_app in Hn as (? & _ & _)).
  rewrite El, <- app_assoc in Hnd. apply list.NoDup_app in Hnd as (_ & Hd1 & Hd2). simpl in Hd2.
  assert (Hpl : p ∉ l) by (intros Hin'; apply (Hd1 p Hin'); by left).
  assert (HpR : p ∉ R) by (by apply NoDup_cons_1_1 in Hd2).
  exists (put_buf p b' st). split; [done|]. split; [by apply store_ok_put|]. split.
  - rewrite El, content_snoc_put by done. rewrite Hbb, app_assoc. f_equal. rewrite <- H3, El, content_app.
    f_equal. unfold content. simpl. by rewrite (block_bytes_eq st p b Hb), app_nil_r.
  - split; [by apply silent_put|]. split; [|done]. intros q Hq. simpl. by rewrite lookup_insert_ne.
Qed.

Lemma cache_rep_silent R c st st' bytes :
  cache_rep R c st bytes -> silent (rc_list c ++ R) st st' -> store_ok st' (rc_list c ++ R) -> cache_rep R c st' bytes.
Proof.
  intros [H1 H2 H3 H4 H5] [Hk _] HS. split; auto. rewrite <- H3. apply keeps_content.
  eapply keeps_mono; [exact Hk|set_solver].
Qed.

(** The room behind the data of the last block. *)
Definition tail_room c st : option Z :=
  match list.last (rc_list c) with
  | None => Some 0
  | Some p =>
      b ← cs_bufs st !! p;
      Some (if sk_data b + sk_data_len b <? sk_size b then u32 (sk_size b - sk_data b - sk_data_len b) else 0)
  end.

Lemma tail_room_ok R c st bytes : cache_rep R c st bytes ->
  exists k, tail_room c st = Some k /\ 0 <= k < 2 ^ 31 /\
    (list.last (rc_list c) = None -> k = 0) /\
    (forall p b, list.last (rc_list c) = Some p -> cs_bufs st !! p = Some b ->
       sk_data b + sk_data_len b + k = sk_size b).
Proof.
  intros [H1 H2 H3 H4 H5]. unfold tail_room. destruct (list.last (rc_list c)) as [p|] eqn:El.
  2: { exists 0. split; [done|]. split; [lia|]. by split. }
  destruct (last_split _ _ El) as [l E']. destruct (store_ok_block _ _ p H2) as (b & Hb & Hok); [rewrite E'; set_solver|].
  rewrite Hb. cbn [mbind option_bind]. destruct Hok. eexists. split; [done|].
  assert (Hu : u32 (sk_size b - sk_data b - sk_data_len b) = sk_size b - sk_data b - sk_data_len b)
    by (apply u32_small; unfold in_u32; lia).
  rewrite Hu. split; [split_ifs; lia|]. split; [done|]. intros p' b' [= <-]. rewrite Hb. intros [= <-]. split_ifs; lia.
Qed.

(** Joining the filled blocks to the chain, whose last block was filled up before. *)
Lemma append_join R c keep st0 st bytes a d :
  cache_rep R c st0 bytes -> keep_ok st (rc_list c ++ R) keep d -> content st (rc_list c) = bytes ++ a ->
  cache_rep R (mkCache (rc_list c ++ rc_list keep) (u32 (rc_len c + blen (a ++ d)))
                 (u32 (rc_count c + rc_count keep)) (rc_pool c)) st (bytes ++ a ++ d).
Proof.
  intros [H1 H2 H3 H4 H5] [K1 K2 K3 K4] Hc.
  split; simpl; auto.
  - eapply store_ok_perm; [|exact K1]. rewrite !app_assoc. by rewrite (Permutation_app_comm (rc_list keep)).
  - by rewrite content_app, Hc, K3, app_assoc.
  - by rewrite H4, u32_add_l, (blen_app bytes).
  - rewrite H5, K4, u32_add_l, u32_add_r, length_app. f_equal. lia.
Qed.

Lemma append_data_unfold c st data len :
  rc_pool c = true -> len <> 0 ->
  cache_append_data (Some c) (Some data) len st =
  (remain ← tail_room c st;
   match (if len <=? remain then list.last (rc_list c) else None) with
   | Some p =>
       d ← bread 0 len data;
       st ← extend p d st;
       Some (i32 len, Some (mkCache (rc_list c) (u32 (rc_len c + len)) (rc_count c) (rc_pool c)), st)
   | None =>
       '(ok, keep, st) ← append_loop (S (Z.to_nat len)) data len (u32 (len - remain)) (rw_cache_init (rc_pool c)) st;
       if negb ok then Some (-2, Some c, st)
       else
         st ← (match list.last (rc_list c) with
               | Some p => if 0 <? remain then d ← bread 0 remain data; extend p d st else Some st
               | None => Some st
               end);
         Some (i32 len, Some (mkCache (rc_list c ++ rc_list keep) (u32 (rc_len c + len))
                                (u32 (rc_count c + rc_count keep)) (rc_pool c)), st)
   end).
Proof.
  intros Hp Hn. unfold cache_append_data, tail_room. rewrite Hp. cbn [negb].
  destruct (Z.eqb_spec len 0); [done|]. reflexivity.
Qed.

(** Filling up the last block while new blocks wait in [keep]. *)
Lemma fill_tail R c keep st st1 bytes p d e :
  cache_rep R c st bytes -> silent (rc_list c ++ R) st st1 -> keep_ok st1 (rc_list c ++ R) keep e ->
  list.last (rc_list c) = Some p ->
  (forall b, cs_bufs st !! p = Some b -> sk_data b + sk_data_len b + blen d = sk_size b) ->
  exists st2, extend p d st1 = Some st2 /\ silent R st1 st2 /\ keep_ok st2 (rc_list c ++ R) keep e /\
    content st2 (rc_list c) = bytes ++ d.
Proof.
  intros HR Hsil [K1 K2 K3 K4] El Hroom. destruct (last_split _ _ El) as [l E'].
  assert (Hin : p ∈ rc_list c ++ R) by (rewrite E'; set_solver).
  assert (HR1 : cache_rep (rc_list keep ++ R) c st1 bytes).
  { destruct HR as [H1 H2 H3 H4 H5]. split; auto.
    - eapply store_ok_perm; [|exact K1]. rewrite !app_assoc. by rewrite (Permutation_app_comm (rc_list keep)).
    - rewrite <- H3. apply keeps_content. eapply keeps_mono; [apply Hsil|set_solver]. }
  destruct (extend_last _ c st1 bytes p d HR1 El) as (st2 & E2 & HS2 & Hc2 & Hs2 & _ & _).
  { intros b Hb. destruct Hsil as [Hk _]. rewrite (Hk p Hin) in Hb. by rewrite (Hroom b Hb). }
  exists st2. split; [done|]. split; [eapply silent_mono; [exact Hs2|set_solver]|]. split; [|done]. split; auto.
  - eapply store_ok_perm; [|exact HS2]. rewrite !app_assoc. by rewrite (Permutation_app_comm (rc_list c)).
  - rewrite <- K3. apply keeps_content. eapply keeps_mono; [apply Hs2|set_solver].
Qed.

(** The result of appending [data]: all of it, or nothing when memory ran out. *)
Definition appended (R : list ptr) c st (bytes data : list Z) (o : option (Z * option TRWCache * CacheState)) : Prop :=
  exists r c' st', o = Some (r, Some c', st') /\ silent R st st' /\ (malloc_total -> r = blen data) /\
    ((r = blen data /\ cache_rep R c' st' (bytes ++ data)) \/ (r = -2 /\ c' = c /\ cache_rep R c st' bytes)).

Lemma append_fits R c st bytes data p k :
  cache_rep R c st bytes -> list.last (rc_list c) = Some p -> tail_room c st = Some k -> blen data <= k ->
  blen data < 2 ^ 31 ->
  appended R c st bytes data
    (d ← bread 0 (blen data) data;
     st ← extend p d st;
     Some (i32 (blen data), Some (mkCache (rc_list c) (u32 (rc_len c + blen data)) (rc_count c) (rc_pool c)), st)).
Proof.
  intros HR Hl Hk Hd Hs. destruct (tail_room_ok _ _ _ _ HR) as (k' & Hk' & _ & _ & Hroom).
  rewrite Hk in Hk'. injection Hk' as <-. rewrite bread_all by done. cbn [mbind option_bind].
  destruct (extend_last R c st bytes p data HR Hl) as (st' & -> & HS & Hc & Hsil & _ & _).
  { intros b Hb. specialize (Hroom p b Hl Hb). lia. }
  cbn [mbind option_bind]. assert (0 <= blen data) by (unfold blen; lia).
  rewrite i32_small by lia. eexists _, _, _. split; [reflexivity|]. split; [done|]. split; [done|]. left. split; [done|].
  destruct HR as [H1 H2 H3 H4 H5]. split; simpl; auto.
  - by rewrite H4, u32_add_l, blen_app.
Qed.

Lemma append_data_rep R c st bytes data :
  cache_rep R c st bytes -> blen data < 2 ^ 31 ->
  appended R c st bytes data (cache_append_data (Some c) (Some data) (blen data) st).
Proof.
  intros HR Hs. pose proof (cr_pool _ _ _ _ HR) as Hp. assert (0 <= blen data) by (unfold blen; lia).
  destruct (decide (data = [])) as [-> | Hne].
  { unfold cache_append_data. rewrite Hp. simpl. exists 0, c, st. rewrite app_nil_r.
    split; [done|]. split; [done|]. split; [done|]. by left. }
  assert (Hpos : 0 < blen data) by (unfold blen; destruct data; [done|simpl; lia]).
  rewrite append_data_unfold by (done || lia).
  destruct (tail_room_ok _ _ _ _ HR) as (k & Ek & Hk & Hk0 & Hroom). rewrite Ek. cbn [mbind option_bind].
  destruct (if blen data <=? k then list.last (rc_list c) else None) as [p|] eqn:Ef.
  { destruct (Z.leb_spec (blen data) k); [|done]. by apply (append_fits R c st bytes data p k). }
  assert (Hlt : k < blen data).
  { destruct (Z.leb_spec (blen data) k) as [Hle|?]; [|done]. rewrite Hk0 in Hle by done. lia. }
  rewrite (u32_small (blen data - k)), Hp by (unfold in_u32; lia).
  assert (K0 : keep_ok st (rc_list c ++ R) (rw_cache_init true) []) by (split; [apply HR|done..]).
  destruct (append_loop_ok (S (Z.to_nat (blen data))) data (blen data) (blen data - k) _ _ _ _ K0 eq_refl
              ltac:(lia) ltac:(lia) ltac:(lia)) as (ok & keep & st1 & -> & Hsil & Ht & Hpost).
  cbn [mbind option_bind]. assert (HsilR : silent R st st1) by (eapply silent_mono; [exact Hsil|set_solver]).
  destruct ok; cbn [negb].
  2: { exists (-2), c, st1. split; [done|]. split; [done|]. split; [by intros Hm%Ht|]. right.
       split; [done|]. split; [done|]. by apply (cache_rep_silent R c st). }
  rename Hpost into K1. simpl in K1. replace (blen data - (blen data - k)) with k in K1 by lia.
  assert (Hjoin : exists st2, match list.last (rc_list c) with
      | Some p => if 0 <? k then d ← bread 0 k data; extend p d st1 else Some st1
      | None => Some st1 end = Some st2 /\ silent R st1 st2 /\
      keep_ok st2 (rc_list c ++ R) keep (drop (Z.to_nat k) data) /\
      content st2 (rc_list c) = bytes ++ take (Z.to_nat k) data).
  { assert (Hc1 : content st1 (rc_list c) = bytes).
    { rewrite <- (cr_bytes _ _ _ _ HR). apply keeps_content. eapply keeps_mono; [apply Hsil|set_solver]. }
    destruct (list.last (rc_list c)) as [p|] eqn:El.
    2: { rewrite Hk0 in * by done. exists st1. rewrite take_0, app_nil_r. done. }
    destruct (Z.ltb_spec 0 k) as [Hk1|Hk1].
    2: { replace k with 0 in * by lia. exists st1. rewrite take_0, app_nil_r. done. }
    rewrite (bread_at _ _ 0 (Z.to_nat k)) by (unfold blen in *; lia). cbn [mbind option_bind].
    rewrite drop_0. apply (fill_tail R c keep st st1 bytes p _ _ HR Hsil K1 El). intros b Hb.
    rewrite <- (Hroom p b eq_refl Hb). f_equal. unfold blen in *. rewrite length_take. lia. }
  destruct Hjoin as (st2 & -> & Hs2 & K2 & Hc2). cbn [mbind option_bind].
  rewrite i32_small by lia. eexists _, _, _. split; [reflexivity|]. split; [by eapply silent_trans|]. split; [done|].
  left. split; [done|]. pose proof (append_join R c keep st st2 bytes _ _ HR K2 Hc2) as Hfin.
  rewrite take_drop, Hp in Hfin. exact Hfin.
Qed.

Lemma copy_out_rep R c st bytes want len :
  cache_rep R c st bytes -> blen bytes < 2 ^ 32 -> Z.of_nat (length (rc_list c)) < 2 ^ 32 -> 0 <= len < 2 ^ 32 ->
  exists c' st', cache_copy_out (Some c) want len st =
      Some (Z.min len (blen bytes), if want then take (Z.to_nat len) bytes else [], Some c', st') /\
    cache_rep R c' st' (drop (Z.to_nat len) bytes) /\ silent R st st' /\ (length (rc_list c') <= length (rc_list c))%nat.
Proof.
  intros [H1 H2 H3 H4 H5] Hb Hn Hl. assert (0 <= blen bytes) by (unfold blen; lia).
  rewrite u32_small in H4, H5 by (unfold in_u32; lia).
  unfold cache_copy_out. rewrite H1. cbn [negb].
  destruct (copy_out_loop_ok (rc_list c) want len (rc_count c) [] st R H2 Hl H5 ltac:(lia))
    as (l' & st' & -> & HS & Hc & Hs & Hle). cbn [mbind option_bind]. rewrite H3 in *.
  replace (len - (len - Z.min len (blen bytes))) with (Z.min len (blen bytes)) by lia.
  rewrite u32_small, H4 by (unfold in_u32; lia).
  eexists _, st'. split; [reflexivity|]. split; [|done]. split; simpl; auto.
  - unfold blen in *. rewrite length_drop, u32_small; [split_ifs; lia|]. unfold in_u32. lia.
  - rewrite u32_small; [done|]. unfold in_u32. lia.
Qed.

(** ** Receiving *)

Lemma recv_block_ok R c st bytes :
  cache_rep R c st bytes ->
  exists r c' st', recv_block c st = Some (r, c', st') /\ silent R st st' /\ cache_rep R c' st' bytes /\
    (malloc_total -> r <> None) /\
    match r with
    | None => True
    | Some p => list.last (rc_list c') = Some p /\
        exists b, cs_bufs st' !! p = Some b /\ buf_ok b /\ 0 < sk_size b - sk_data b - sk_data_len b
    end.
Proof.
  intros HR. unfold recv_block.
  assert (Hcase : exists full, (match list.last (rc_list c) with
      | None => Some true
      | Some p => b ← cs_bufs st !! p; Some (sk_size b <=? sk_data_len b + sk_data b) end) = Some full /\
      (full = false -> exists p b, list.last (rc_list c) = Some p /\ cs_bufs st !! p = Some b /\ buf_ok b /\
         0 < sk_size b - sk_data b - sk_data_len b)).
  { destruct (list.last (rc_list c)) as [p|] eqn:El; [|by exists true].
    destruct (last_split _ _ El) as [l E']. destruct (store_ok_block _ _ p (cr_store _ _ _ _ HR)) as (b & Hb & Hok);
      [rewrite E'; set_solver|]. rewrite Hb. cbn [mbind option_bind]. eexists. split; [done|].
    intros Hf%Z.leb_gt. exists p, b. repeat split; try done; try apply Hok. lia. }
  destruct Hcase as (full & -> & Hfull). cbn [mbind option_bind]. destruct full.
  2: { destruct (Hfull eq_refl) as (p & b & El & Hb & Hok & Hroom). exists (list.last (rc_list c)), c, st.
       rewrite El. split; [done|]. split; [done|]. split; [done|]. split; [done|]. split; [done|]. by exists b. }
  clear Hfull. destruct HR as [H1 H2 H3 H4 H5]. rewrite H1.
  destruct (alloc_ok st _ H2) as (r & st1 & -> & Hs & Ht & Hr). cbn [mbind option_bind].
  assert (HsR : silent R st st1) by (eapply silent_mono; [exact Hs|set_solver]).
  assert (Hc1 : content st1 (rc_list c) = bytes).
  { rewrite <- H3. apply keeps_content. eapply keeps_mono; [apply Hs|set_solver]. }
  destruct r as [p|].
  2: { exists None, c, st1. cbn. split; [done|]. split; [done|]. split; [by split|]. by split. }
  destruct Hr as (Hp & HS & (b & Hb & Hok & Hd0 & Hl0)). unfold cache_append_buffer. rewrite Hb.
  cbn [mbind option_bind default from_option id]. eexists (Some p), _, st1. split; [reflexivity|]. split; [done|].
  split; [|split; [done|]].
  - split; simpl; auto.
    + eapply store_ok_perm; [|exact HS]. by rewrite <- app_assoc, Permutation_middle.
    + rewrite content_app, Hc1. unfold content. simpl. rewrite (block_bytes_eq _ _ _ Hb). unfold buf_bytes. rewrite Hl0.
      by rewrite app_nil_r.
    + by rewrite H4, Hl0, u32_add_l, Z.add_0_r.
    + rewrite H5, u32_add_l, length_app. f_equal. simpl. lia.
  - cbn [rc_list]. rewrite last_snoc. split; [done|]. exists b. split; [done|]. split; [done|]. destruct Hok. lia.
Qed.

Lemma i32_add_l a b : i32 (i32 a + b) = i32 (a + b).
Proof.
  assert (Em : (i32 a + b) mod 2 ^ 32 = (a + b) mod 2 ^ 32).
  { unfold i32. pose proof (Z.mod_pos_bound a (2 ^ 32)). split_ifs.
    - apply Zplus_mod_idemp_l.
    - replace (a mod 2 ^ 32 - 2 ^ 32 + b) with (a mod 2 ^ 32 + b + (-1) * 2 ^ 32) by lia.
      rewrite Z_mod_plus_full. apply Zplus_mod_idemp_l. }
  unfold i32 at 1 3. by rewrite Em.
Qed.

(** What a receive function does to a cache that held [bytes]: the bytes that came
    in are appended, whatever the result; a result that is no error is their
    number. *)
Definition received (R : list ptr) st (bytes : list Z) (total : Z) (o : option (Z * TRWCache * CacheState)) : Prop :=
  exists r c' st' new, o = Some (r, c', st') /\ keeps R st st' /\
    rcvd (cs_env st') = rcvd (cs_env st) ++ new /\ sent (cs_env st') = sent (cs_env st) /\
    cache_rep R c' st' (bytes ++ new) /\
    (r = i32 (total + blen new) \/ r = -2 \/ r = -3 \/ r = - SK_ERR_NEED_CLOSE).

Lemma received_none R c st st' bytes total r :
  cache_rep R c st' bytes -> silent R st st' ->
  r = i32 total \/ r = -2 \/ r = -3 \/ r = - SK_ERR_NEED_CLOSE ->
  received R st bytes total (Some (r, c, st')).
Proof.
  intros HR [Hk [Hr Hs]] Hres. exists r, c, st', []. rewrite !app_nil_r. change (blen []) with 0. rewrite Z.add_0_r. auto 10.
Qed.

(** Some bytes first, then the rest. *)
Lemma received_more R st st1 bytes total d o :
  keeps R st st1 -> rcvd (cs_env st1) = rcvd (cs_env st) ++ d -> sent (cs_env st1) = sent (cs_env st) ->
  received R st1 (bytes ++ d) (total + blen d) o -> received R st bytes total o.
Proof.
  intros Hk Hr Hs (r & c' & st' & new & -> & Hk' & Hr' & Hs' & HR & Hres).
  exists r, c', st', (d ++ new). split; [done|]. split; [by eapply keeps_trans|].
  rewrite blen_app, Z.add_assoc, !app_assoc. rewrite <- Hr. split; [done|]. split; [congruence|]. done.
Qed.

Lemma cache_rep_grow R c st st' bytes d n :
  cache_rep R c st bytes -> store_ok st' (rc_list c ++ R) -> content st' (rc_list c) = bytes ++ d -> n = blen d ->
  cache_rep R (mkCache (rc_list c) (u32 (rc_len c + n)) (rc_count c) (rc_pool c)) st' (bytes ++ d).
Proof.
  intros [H1 H2 H3 H4 H5] HS Hc ->. split; simpl; auto. by rewrite H4, u32_add_l, blen_app.
Qed.

Lemma cache_rep_env R c st bytes e : cache_rep R c st bytes -> cache_rep R c (set_env e st) bytes.
Proof. intros [H1 H2 H3 H4 H5]. split; auto. by apply store_ok_env. Qed.

Lemma tcp_recv_loop_ok n fd t total c st R bytes :
  cache_rep R c st bytes -> total = i32 t -> received R st bytes t (tcp_recv_loop n fd total c st).
Proof.
  revert t total c st bytes. induction n as [|n IH]; intros t total c st bytes HR ->; cbn [tcp_recv_loop].
  { apply received_none; [done|apply silent_refl|by left]. }
  destruct (recv_block_ok R c st bytes HR) as (r & c1 & st1 & -> & Hs1 & HR1 & _ & Hr). cbn [mbind option_bind].
  destruct r as [p|]; [|apply received_none; auto].
  destruct Hr as (Hl & b & Hb & Hok & Hroom). rewrite Hb. cbn [mbind option_bind].
  rewrite (u32_small (sk_size b - sk_data b - sk_data_len b)) by (destruct Hok; unfold in_u32; lia).
  destruct (sys_recv fd (sk_size b - sk_data b - sk_data_len b) (cs_env st1)) as [[[k errno] d] e] eqn:Er.
  destruct (recv_ok fd (sk_size b - sk_data b - sk_data_len b) _ _ _ _ _ ltac:(lia) Er) as (Hk & Hse & Hpos & Hneg).
  assert (Hq : k <= 0 -> silent R st (set_env e st1)).
  { intros Hk0. destruct Hs1 as [? [Hq1 Hq2]]. specialize (Hneg Hk0). split; [done|]. split; simpl; congruence. }
  destruct (Z.eqb_spec k 0) as [Hz|Hz]; [apply received_none; [by apply cache_rep_env|apply Hq; lia|auto]|].
  destruct (Z.ltb_spec k 0) as [Hn|Hn].
  { apply received_none; [by apply cache_rep_env|apply Hq; lia|]. destruct (errno =? EAGAIN); auto. }
  destruct (Hpos ltac:(lia)) as [Hd Hrc].
  destruct (extend_last R c1 (set_env e st1) bytes p d (cache_rep_env _ _ _ _ e HR1) Hl) as (st2 & -> & HS2 & Hc2 & [Hk2 [Hr2 Hs2]] & _).
  { intros b' Hb'. simpl in Hb'. rewrite Hb in Hb'. injection Hb' as <-. lia. }
  cbn [mbind option_bind]. pose proof (cache_rep_grow R c1 st1 st2 bytes d k HR1 HS2 Hc2 ltac:(lia)) as HR2.
  destruct Hs1 as [Hks1 [Hrs1 Hss1]]. simpl in Hr2, Hs2.
  apply (received_more R st st2 bytes t d).
  - eapply keeps_trans; [exact Hks1|]. intros q Hq'. by rewrite Hk2.
  - congruence.
  - congruence.
  - rewrite <- Hd in *. rewrite i32_add_l. destruct (blen d <? i32 _).
    + apply received_none; [done|apply silent_refl|by left].
    + by apply IH.
Qed.

(** ** Sending *)

(** The kernel was asked to send the first of the bytes [rest], when as much as now
    had been sent, and failed with [errno]. *)
Definition send_failed (fd errno : Z) (rest : list Z) (e' : E) : Prop :=
  exists d e1 k e2, sys_send fd d e1 = (k, errno, e2) /\ k < 0 /\ sent e1 = sent e' /\ d `prefix_of` rest.

Lemma tcp_send_loop_ok l fd ret errno t st R :
  store_ok st (l ++ R) -> 0 <= ret ->
  exists ret' errno' n e, tcp_send_loop l fd ret errno (i32 t) st = Some (ret', errno', i32 (t + n), set_env e st) /\
    0 <= n <= blen (content st l) /\ rcvd e = rcvd (cs_env st) /\
    sent e = sent (cs_env st) ++ take (Z.to_nat n) (content st l) /\
    (ret' < 0 -> send_failed fd errno' (drop (Z.to_nat n) (content st l)) e).
Proof.
  revert ret errno t st R. induction l as [|p l IH]; intros ret errno t st R HS Hret; cbn [tcp_send_loop].
  { exists ret, errno, 0, (cs_env st). rewrite Z.add_0_r, take_0, app_nil_r. split; [by destruct st|].
    split; [unfold blen; simpl; lia|]. split; [done|]. split; [done|]. lia. }
  destruct (store_ok_block _ _ p HS) as (b & Hb & Hok); [set_solver|]. rewrite Hb. cbn [mbind option_bind].
  apply store_ok_tail in HS. rewrite content_cons, (block_bytes_eq _ _ _ Hb), blen_app.
  pose proof (buf_bytes_len b Hok) as Hbl. pose proof (bo_len b Hok). pose proof (sk_len_small b Hok).
  assert (0 <= blen (content st l)) by (unfold blen; lia).
  rewrite buf_bread by (done || lia). cbn [mbind option_bind]. rewrite take_ge by (unfold blen in Hbl; lia).
  destruct (sys_send fd (buf_bytes b) (cs_env st)) as [[k err] e] eqn:Es.
  destruct (send_ok _ _ _ _ _ _ Es) as (Hk & Hrc & Hpos & Hneg).
  destruct (Z.ltb_spec k 0) as [Hn|Hn].
  { exists k, err, 0, e. rewrite Z.add_0_r, take_0, app_nil_r. split; [done|]. split; [lia|]. split; [done|]. split; [auto|].
    intros _. exists (buf_bytes b), (cs_env st), k, e. split; [done|]. split; [done|]. split; [by rewrite Hneg|].
    rewrite drop_0. by apply prefix_app_r. }
  specialize (Hpos Hn). rewrite i32_add_l, (i32_small (sk_data_len b)) by lia.
  destruct (Z.ltb_spec k (sk_data_len b)) as [Hlt|Hge].
  { exists k, err, k, e. split; [done|]. split; [lia|]. split; [done|].
    rewrite take_app_le by (unfold blen in Hbl; lia). split; [done|]. lia. }
  destruct (IH k err (t + k) (set_env e st) (p :: R) (store_ok_env _ _ _ HS) Hn) as (ret' & errno' & n & e' & -> & Hn' & Hr' & Hs' & Hf').
  exists ret', errno', (k + n), e'. rewrite Z.add_assoc. split; [done|]. simpl in Hr', Hs'.
  change (content (set_env e st) l) with (content st l) in *. split; [lia|]. split; [congruence|].
  assert (Z.to_nat (k + n) = length (buf_bytes b) + Z.to_nat n)%nat as Hkn by (unfold blen in Hk, Hbl; lia).
  split; [|by rewrite Hkn, <- drop_drop, drop_app_length].
  rewrite Hs', Hpos, <- app_assoc. f_equal. rewrite take_min_app. unfold blen in Hbl.
  replace (Nat.min (Z.to_nat (k + n)) (length (buf_bytes b))) with (Z.to_nat k) by (unfold blen in Hk; lia).
  by replace (Z.to_nat (k + n) - length (buf_bytes b))%nat with (Z.to_nat n) by (unfold blen in Hk; lia).
Qed.

(** Sending from a cache that holds [bytes]: a prefix of [n] bytes goes out and
    leaves the cache, also when the result is an error. *)
Lemma tcp_send_rep R c st bytes fd :
  cache_rep R c st bytes -> blen bytes < 2 ^ 31 -> Z.of_nat (length (rc_list c)) < 2 ^ 32 ->
  exists r c' st' n, cache_tcp_send (Some c) fd st = Some (r, Some c', st') /\ keeps R st st' /\
    0 <= n <= blen bytes /\ rcvd (cs_env st') = rcvd (cs_env st) /\
    sent (cs_env st') = sent (cs_env st) ++ take (Z.to_nat n) bytes /\
    cache_rep R c' st' (drop (Z.to_nat n) bytes) /\
    (r = n \/ r = -2 /\ exists errno, errno <> EAGAIN /\ send_failed fd errno (drop (Z.to_nat n) bytes) (cs_env st')) /\
    (length (rc_list c') <= length (rc_list c))%nat.
Proof.
  intros HR Hs Hn. pose proof HR as [H1 H2 H3 H4 H5]. assert (0 <= blen bytes) by (unfold blen; lia).
  rewrite u32_small in H4 by (unfold in_u32; lia). unfold cache_tcp_send. rewrite H1. cbn [negb].
  destruct (Z.eqb_spec (rc_len c) 0) as [Hz|Hz].
  { exists 0, c, st, 0. rewrite take_0, drop_0, app_nil_r. split; [done|]. split; [done|]. split; [lia|]. auto 10. }
  destruct (tcp_send_loop_ok (rc_list c) fd 0 0 0 st R H2 ltac:(lia)) as (ret & errno & n & e & E1 & Hrange & Hrc & Hse & Hfail).
  change (i32 0) with 0 in E1. rewrite E1. cbn [mbind option_bind]. rewrite H3 in *.
  rewrite Z.add_0_l, i32_small, u32_small by (unfold in_u32; lia).
  destruct (copy_out_rep R c (set_env e st) bytes false n (cache_rep_env _ _ _ _ _ HR) ltac:(lia) Hn ltac:(lia))
    as (c' & st' & E2 & HR' & [Hk [Hr Hs2]] & Hle).
  unfold cache_skip_data. rewrite E2. cbn [mbind option_bind]. simpl in Hr, Hs2.
  eexists _, c', st', n. split; [reflexivity|]. split; [exact Hk|]. split; [done|].
  split; [congruence|]. split; [congruence|]. split; [done|]. split; [|done].
  destruct (Z.ltb_spec ret 0) as [Hret|Hret]; [|by left]. destruct (Z.eqb_spec errno EAGAIN) as [|He]; [by left|].
  right. split; [done|]. exists errno. split; [done|]. destruct (Hfail Hret) as (d & e1 & k & e2 & F1 & F2 & F3 & F4).
  exists d, e1, k, e2. split_and!; try done. congruence.
Qed.

Lemma send_buff_rest_ok R c st bytes data j :
  cache_rep R c st bytes -> blen data < 2 ^ 31 -> 0 <= j <= blen data ->
  exists r c' st', send_buff_rest (Some c) data (blen data) j st = Some (r, Some c', st') /\ silent R st st' /\
    ((r = j /\ cache_rep R c' st' (bytes ++ drop (Z.to_nat j) data)) \/ (r = -3 /\ cache_rep R c' st' bytes)) /\
    (malloc_total -> r <> -3).
Proof.
  intros HR Hd Hj. unfold send_buff_rest. rewrite u32_small by (unfold in_u32; lia).
  replace (blen data - j) with (blen (drop (Z.to_nat j) data)) by (unfold blen in *; rewrite length_drop; lia).
  assert (Hdl : 0 <= blen (drop (Z.to_nat j) data) < 2 ^ 31) by (unfold blen in *; rewrite length_drop; lia).
  destruct (append_data_rep R c st bytes _ HR (proj2 Hdl)) as (r & c2 & st2 & -> & Hs & Hm & Hout). cbn [mbind option_bind].
  destruct Hout as [[-> HR2]|(-> & -> & HR2)].
  - destruct (Z.ltb_spec (blen (drop (Z.to_nat j) data)) 0); [lia|]. exists j, c2, st2. split; [done|]. split; [done|].
    split; [by left|]. lia.
  - exists (-3), c, st2. split; [done|]. split; [done|]. split; [by right|]. intros Ht. specialize (Hm Ht). lia.
Qed.

(** What happened to the cached [bytes] and the new [data]: [n] bytes of them went
    out; the others are cached, except that those of [data] are dropped by an error
    of the kernel other than [EAGAIN], or for lack of memory. *)
Definition sent_buff (R : list ptr) st fd (bytes data : list Z) (o : option (Z * option TRWCache * CacheState)) : Prop :=
  exists r c' st' n, o = Some (r, Some c', st') /\ keeps R st st' /\
    0 <= n <= blen (bytes ++ data) /\ rcvd (cs_env st') = rcvd (cs_env st) /\
    sent (cs_env st') = sent (cs_env st) ++ take (Z.to_nat n) (bytes ++ data) /\
    ((r = Z.max 0 (n - blen bytes) /\ cache_rep R c' st' (drop (Z.to_nat n) (bytes ++ data))) \/
     (cache_rep R c' st' (drop (Z.to_nat n) bytes) /\
      ((r = -2 /\ exists errno, errno <> EAGAIN /\ send_failed fd errno (drop (Z.to_nat n) (bytes ++ data)) (cs_env st')) \/
       (r = -3 /\ ~ malloc_total)))).

(** The last step when [n] bytes are out and [j] of them belong to [data]. *)
Lemma sent_buff_rest R c st st1 fd bytes data n j :
  cache_rep R c st1 (drop (Z.to_nat n) bytes) -> blen data < 2 ^ 31 -> keeps R st st1 ->
  0 <= n -> j = Z.max 0 (n - blen bytes) -> j <= blen data ->
  rcvd (cs_env st1) = rcvd (cs_env st) -> sent (cs_env st1) = sent (cs_env st) ++ take (Z.to_nat n) (bytes ++ data) ->
  sent_buff R st fd bytes data (send_buff_rest (Some c) data (blen data) j st1).
Proof.
  intros HR Hd Hk Hn Hj Hjd Hr Hs.
  destruct (send_buff_rest_ok R c st1 _ data j HR Hd ltac:(lia)) as (r & c' & st' & -> & [Hk' [Hr' Hs']] & Hout & Hm).
  exists r, c', st', n. split; [done|]. split; [by eapply keeps_trans|]. rewrite blen_app. split; [lia|].
  split; [congruence|]. split; [congruence|].
  destruct Hout as [[-> HR']|[-> HR']]; [left|right; split; [done|right; split; [done|]; by intros ?%Hm]]. split; [done|].
  rewrite drop_app. by replace (Z.to_nat n - length bytes)%nat with (Z.to_nat j) by (unfold blen in *; lia).
Qed.

(** The new data is offered to the socket only when the cache is empty. *)
Lemma send_direct_ok R c st st1 bytes data fd :
  cache_rep R c st1 [] -> blen data < 2 ^ 31 -> keeps R st st1 -> rcvd (cs_env st1) = rcvd (cs_env st) ->
  sent (cs_env st1) = sent (cs_env st) ++ bytes ->
  sent_buff R st fd bytes data
    (let '(ret, errno, st) := let '(ret, errno, e) := sys_send fd data (cs_env st1) in (ret, errno, set_env e st1) in
     if (ret <? 0) && negb (errno =? EAGAIN) then Some (-2, Some c, st)
     else send_buff_rest (Some c) data (blen data) (if 0 <=? ret then ret else 0) st).
Proof.
  intros HR Hd Hk Hr Hs. assert (0 <= blen bytes /\ 0 <= blen data) as [? ?] by (unfold blen; lia).
  assert (Hnil : forall x, drop (Z.to_nat (blen bytes + Z.max 0 x)) bytes = []) by (intros; apply drop_ge; unfold blen; lia).
  assert (Htk : forall x, 0 <= x -> take (Z.to_nat (blen bytes + x)) (bytes ++ data) = bytes ++ take (Z.to_nat x) data).
  { intros x Hx. rewrite take_app_ge by (unfold blen; lia).
    by replace (Z.to_nat (blen bytes + x) - length bytes)%nat with (Z.to_nat x) by (unfold blen; lia). }
  destruct (sys_send fd data (cs_env st1)) as [[k err] e] eqn:Es.
  destruct (send_ok _ _ _ _ _ _ Es) as (Hkd & Hrc & Hsp & Hsn).
  assert (Hse : sent e = sent (cs_env st) ++ take (Z.to_nat (blen bytes + Z.max 0 k)) (bytes ++ data)).
  { rewrite Htk, app_assoc, <- Hs by lia. destruct (Z.le_gt_cases 0 k) as [Hk0|Hk0].
    - rewrite Hsp by done. by rewrite Z.max_r.
    - rewrite Hsn by lia. rewrite Z.max_l, take_0, app_nil_r by lia. done. }
  apply (cache_rep_env _ _ _ _ e) in HR. destruct ((k <? 0) && _) eqn:Ebad.
  - exists (-2), c, (set_env e st1), (blen bytes + Z.max 0 k). rewrite blen_app, Hnil. simpl.
    split; [done|]. split; [done|]. split; [lia|]. split; [congruence|]. split; [done|]. right. split; [done|]. left. split; [done|].
    apply andb_true_iff in Ebad as [Hk0%Z.ltb_lt He%negb_true_iff%Z.eqb_neq]. exists err. split; [done|].
    exists data, (cs_env st1), k, e. split; [done|]. split; [done|]. split; [by rewrite Hsn|].
    rewrite Z.max_l, Z.add_0_r, drop_app_ge by (unfold blen; lia).
    replace (Z.to_nat (blen bytes) - length bytes)%nat with 0%nat by (unfold blen; lia). by rewrite drop_0.
  - apply (sent_buff_rest R c st (set_env e st1) fd bytes data (blen bytes + Z.max 0 k)).
    + by rewrite Hnil.
    + done.
    + done.
    + lia.
    + destruct (Z.leb_spec 0 k); lia.
    + destruct (Z.leb_spec 0 k); lia.
    + simpl. congruence.
    + done.
Qed.

Lemma send_buff_rep R c st bytes data fd :
  cache_rep R c st bytes -> blen bytes < 2 ^ 31 -> blen data < 2 ^ 31 -> Z.of_nat (length (rc_list c)) < 2 ^ 32 ->
  sent_buff R st fd bytes data (cache_tcp_send_buff (Some c) fd (Some data) (blen data) st).
Proof.
  intros HR Hsb Hsd Hn. assert (0 <= blen bytes /\ 0 <= blen data) as [? ?] by (unfold blen; lia).
  unfold cache_tcp_send_buff.
  destruct (tcp_send_rep R c st bytes fd HR Hsb Hn) as (r1 & c1 & st1 & n1 & -> & Hk1 & Hn1 & Hr1 & Hs1 & HR1 & Hres & Hle).
  cbn [mbind option_bind].
  assert (Ht1 : take (Z.to_nat n1) (bytes ++ data) = take (Z.to_nat n1) bytes) by (apply take_app_le; unfold blen in *; lia).
  destruct (Z.ltb_spec r1 0) as [Hneg|Hpos].
  { exists r1, c1, st1, n1. rewrite Ht1, blen_app. split; [done|]. split; [done|]. split; [lia|]. split; [done|]. split; [done|].
    right. split; [done|]. left. destruct Hres as [->|(-> & errno & He & d & e1 & k & e2 & F1 & F2 & F3 & F4)]; [lia|].
    split; [done|]. exists errno. split; [done|]. exists d, e1, k, e2. split_and!; try done.
    rewrite drop_app_le by (unfold blen in *; lia). by apply prefix_app_r. }
  assert (r1 = n1) as -> by (destruct Hres as [?|[? _]]; [done|lia]).
  rewrite bread_all by done. cbn [mbind option_bind].
  assert (Hlen1 : rc_len c1 = blen bytes - n1).
  { rewrite (cr_len _ _ _ _ HR1), u32_small; unfold in_u32, blen in *; rewrite length_drop; lia. }
  destruct (Z.eqb_spec (rc_len c1) 0) as [Hz|Hz].
  - rewrite drop_ge in HR1 by (unfold blen in *; lia). rewrite take_ge in Hs1 by (unfold blen in *; lia).
    by apply send_direct_ok.
  - cbn [Z.ltb Z.compare andb Z.leb]. apply (sent_buff_rest R c1 st st1 fd bytes data n1); try done; try lia. by rewrite Ht1.
Qed.

(** ** Datagrams *)

Lemma udp_recv_loop_ok n fd t total c st R bytes :
  cache_rep R c st bytes -> total = i32 t -> received R st bytes t (udp_recv_loop n fd total c st).
Proof.
  revert t total c st bytes. induction n as [|n IH]; intros t total c st bytes HR ->; cbn [udp_recv_loop].
  { apply received_none; [done|apply silent_refl|by left]. }
  pose proof HR as [H1 H2 H3 H4 H5]. rewrite H1.
  destruct (alloc_ok st _ H2) as (r & st1 & -> & Hs1 & _ & Hr). cbn [mbind option_bind].
  assert (HsR : silent R st st1) by (eapply silent_mono; [exact Hs1|set_solver]).
  destruct r as [p|]; [|apply received_none; [by apply (cache_rep_silent R c st)|done|auto]].
  destruct Hr as (Hp & HS1 & (b & Hb & Hok & Hd0 & Hl0)). rewrite Hb. cbn [mbind option_bind].
  pose proof (bo_size b Hok) as Hsz.
  destruct (sys_recvfrom fd (sk_size b) (cs_env st1)) as [[[k errno] d] e] eqn:Er.
  destruct (recvfrom_ok fd (sk_size b) _ _ _ _ _ ltac:(lia) Er) as (Hk & Hse & Hpos & Hneg).
  apply (store_ok_env _ _ e) in HS1. destruct HsR as [Hks1 [Hrs1 Hss1]].
  assert (Hs1' : forall st2, silent (rc_list c ++ R) (set_env e st1) st2 -> keeps (rc_list c ++ R) st st2).
  { intros st2 [Hk2 _]. eapply keeps_trans; [apply Hs1|exact Hk2]. }
  destruct (Z.leb_spec k 0) as [Hk0|Hk0].
  - destruct (free_ok _ p _ HS1) as (st2 & -> & HS2 & Hs2). cbn [mbind option_bind]. specialize (Hneg Hk0).
    assert (Hq : quiet (cs_env st) (cs_env st2)) by (destruct Hs2 as [_ [? ?]]; split; simpl in *; congruence).
    apply received_none.
    + apply (cache_rep_silent R c st); [done|split; [by apply Hs1'|done]|done].
    + split; [|done]. eapply keeps_mono; [by apply Hs1'|set_solver].
    + destruct (errno =? EAGAIN); auto.
  - destruct (Hpos Hk0) as [Hd Hrc].
    destruct (buf_extend b d Hok ltac:(lia)) as (m & Em & Hok' & Hbb). rewrite Hd0, Hl0 in Em, Hok', Hbb.
    rewrite Z.add_0_l in Hok', Hbb, Em. assert (Hnil : buf_bytes b = []) by (unfold buf_bytes; by rewrite Hl0).
    rewrite Hd0, Em, Hl0, Z.add_0_l, u32_small, <- Hd by (unfold in_u32; lia). cbn [mbind option_bind].
    set (b' := set_span _ _ _) in *. set (st2 := put_buf p b' _).
    unfold cache_append_buffer. replace (cs_bufs st2 !! p) with (Some b') by (simpl; by rewrite lookup_insert_eq).
    cbn [mbind option_bind default from_option id]. rewrite i32_add_l, Hd, <- Hd.
    assert (HR2 : cache_rep R (mkCache (rc_list c ++ [p]) (u32 (rc_len c + sk_data_len b')) (u32 (rc_count c + 1)) (rc_pool c))
                    st2 (bytes ++ d)).
    { split; simpl; auto.
      - apply (store_ok_perm _ (p :: rc_list c ++ R)); [by rewrite <- app_assoc, Permutation_middle|].
        apply store_ok_put; [done|by left|done].
      - unfold st2. rewrite content_snoc_put by set_solver. rewrite Hbb, Hnil. f_equal. rewrite <- H3.
        apply keeps_content. eapply keeps_mono; [apply Hs1|set_solver].
      - by rewrite H4, u32_add_l, blen_app.
      - rewrite H5, u32_add_l, length_app. f_equal. simpl. lia. }
    apply (received_more R st st2 bytes t d).
    + eapply keeps_trans; [exact Hks1|]. apply (keeps_put R (set_env e st1)). set_solver.
    + simpl. congruence.
    + simpl. congruence.
    + by apply IH.
Qed.

Lemma rw_cache_init_rep R st : store_ok st R -> cache_rep R (rw_cache_init true) st [].
Proof. intros HS. by split. Qed.

(** ** Theorems *)

(** C34: [cache_append_data] appends all or nothing.  On a cache that holds [bytes] it
    returns the length and the cache holds [bytes] followed by the data, wherever
    the data falls on the blocks; or, when memory runs out on the way, it returns -2
    and the cache is as before, every block taken being back in the pool.  It never
    copies outside a block, and the blocks of the caches that share the pool ([R]) are
    not touched. *)
Theorem cache_append_all_or_nothing (R : list ptr) (c : TRWCache) (st : CacheState) (bytes data : list Z)
    (HR : cache_rep R c st bytes) (Hd : blen data < 2 ^ 31) :
  exists r c' st', cache_append_data (Some c) (Some data) (blen data) st = Some (r, Some c', st') /\
    silent R st st' /\ (malloc_total -> r = blen data) /\
    ((r = blen data /\ cache_rep R c' st' (bytes ++ data)) \/ (r = -2 /\ c' = c /\ cache_rep R c st' bytes)).
Proof. by apply append_data_rep. Qed.

(** [cache_copy_out] and [cache_skip_data] take a prefix out.  With a buffer the
    first [len] bytes (or all there are) are copied to it in order; the cache holds
    the rest; the result is the number of bytes removed, and the emptied blocks are
    back in the pool. *)
Theorem cache_copy_out_takes_prefix (R : list ptr) (c : TRWCache) (st : CacheState) (bytes : list Z) (want : bool) (len : Z)
    (HR : cache_rep R c st bytes) (Hb : blen bytes < 2 ^ 32) (Hn : Z.of_nat (length (rc_list c)) < 2 ^ 32)
    (Hl : 0 <= len < 2 ^ 32) :
  exists c' st', cache_copy_out (Some c) want len st =
      Some (Z.min len (blen bytes), if want then take (Z.to_nat len) bytes else [], Some c', st') /\
    cache_rep R c' st' (drop (Z.to_nat len) bytes) /\ silent R st st'.
Proof.
  destruct (copy_out_rep R c st bytes want len HR Hb Hn Hl) as (c' & st' & H1 & H2 & H3 & _). by exists c', st'.
Qed.

(** Reading without consuming.  [read_cache_data] returns the first [len] bytes
    of the cache, and [read_cache_begin] the [len] bytes from offset [begin] on (as
    many as there are), across block boundaries; nothing is read outside a block. *)
Theorem cache_reads_substring (R : list ptr) (c : TRWCache) (st : CacheState) (bytes : list Z) (begin len : Z)
    (HR : cache_rep R c st bytes) (Hb : blen bytes < 2 ^ 32) (Hbg : 0 <= begin < 2 ^ 32) (Hl : 0 <= len < 2 ^ 32) :
  read_cache_data (Some c) len st = Some (Z.min len (blen bytes), take (Z.to_nat len) bytes) /\
  read_cache_begin (Some c) begin len st =
    Some (Z.min len (Z.max 0 (blen bytes - begin)), take (Z.to_nat len) (drop (Z.to_nat begin) bytes)).
Proof.
  destruct HR as [H1 H2 H3 H4 H5]. assert (0 <= blen bytes) by (unfold blen; lia).
  rewrite u32_small in H4 by (unfold in_u32; lia). unfold read_cache_data, read_cache_begin. split.
  - rewrite (read_loop_ok _ _ _ _ R H2 Hl), H3. cbn [mbind option_bind app]. do 2 f_equal.
    unfold blen in *. rewrite length_take, u32_small; [|unfold in_u32]; lia.
  - rewrite H4. destruct (Z.leb_spec (blen bytes) begin) as [Hge|Hlt].
    + rewrite drop_ge by (unfold blen in *; lia). rewrite take_nil. do 2 f_equal. lia.
    + rewrite (read_begin_loop_ok _ _ _ _ _ R H2 Hbg Hl), H3. cbn [mbind option_bind app]. do 2 f_equal.
      unfold blen in *. rewrite length_take, length_drop, u32_small; [|unfold in_u32]; lia.
Qed.

(** Receiving into a cache loses nothing.  Whatever [cache_tcp_recv] and
    [cache_udp_recv] return, exactly the bytes that the socket delivered during the
    call are appended to the cache, in order; a result that is not one of the error
    codes is their number (as an [int]); the calls end after at most 100 rounds and
    never write outside a block. *)
Theorem cache_recv_appends_received (R : list ptr) (c : TRWCache) (st : CacheState) (bytes : list Z) (fd : Z)
    (HR : cache_rep R c st bytes) :
  (exists r c' st' new, cache_tcp_recv (Some c) fd st = Some (r, Some c', st') /\ keeps R st st' /\
     rcvd (cs_env st') = rcvd (cs_env st) ++ new /\ cache_rep R c' st' (bytes ++ new) /\
     (r = i32 (blen new) \/ r = -2 \/ r = -3 \/ r = - SK_ERR_NEED_CLOSE)) /\
  (exists r c' st' new, cache_udp_recv (Some c) fd st = Some (r, Some c', st') /\ keeps R st st' /\
     rcvd (cs_env st') = rcvd (cs_env st) ++ new /\ cache_rep R c' st' (bytes ++ new) /\
     (r = i32 (blen new) \/ r = -2 \/ r = -3 \/ r = - SK_ERR_NEED_CLOSE)).
Proof.
  unfold cache_tcp_recv, cache_udp_recv. split.
  - destruct (tcp_recv_loop_ok 100 fd 0 0 c st R bytes HR eq_refl) as (r & c' & st' & new & -> & H1 & H2 & _ & H3 & H4).
    exists r, c', st', new. auto.
  - destruct (udp_recv_loop_ok 100 fd 0 0 c st R bytes HR eq_refl) as (r & c' & st' & new & -> & H1 & H2 & _ & H3 & H4).
    exists r, c', st', new. auto.
Qed.

(** C35: sending through a cache keeps the order of the bytes.  [cache_tcp_send_buff]
    sends a prefix of the cached bytes followed by the new data; when it returns no
    error, the rest of both is in the cache, so that nothing is lost, repeated or
    overtaken, and the result is the number of bytes of the new data that went out.
    There are two errors: -2 when the kernel refused to send the next bytes with an
    error other than [EAGAIN], and -3 when [malloc] can fail; they leave the unsent
    part of the cached bytes in the cache and drop that of the new data. *)
Theorem cache_send_keeps_order (R : list ptr) (c : TRWCache) (st : CacheState) (bytes data : list Z) (fd : Z)
    (HR : cache_rep R c st bytes) (Hb : blen bytes < 2 ^ 31) (Hd : blen data < 2 ^ 31)
    (Hn : Z.of_nat (length (rc_list c)) < 2 ^ 32) :
  exists r c' st' n, cache_tcp_send_buff (Some c) fd (Some data) (blen data) st = Some (r, Some c', st') /\
    keeps R st st' /\ 0 <= n <= blen (bytes ++ data) /\ rcvd (cs_env st') = rcvd (cs_env st) /\
    sent (cs_env st') = sent (cs_env st) ++ take (Z.to_nat n) (bytes ++ data) /\
    ((r = Z.max 0 (n - blen bytes) /\ cache_rep R c' st' (drop (Z.to_nat n) (bytes ++ data))) \/
     (cache_rep R c' st' (drop (Z.to_nat n) bytes) /\
      ((r = -2 /\ exists errno, errno <> EAGAIN /\ send_failed fd errno (drop (Z.to_nat n) (bytes ++ data)) (cs_env st')) \/
       (r = -3 /\ ~ malloc_total)))).
Proof. by apply send_buff_rep. Qed.
End laws.
End cache.

(** ** A scripted environment

    It has memory for [se_mallocs] blocks, delivers the chunks [se_in] and accepts
    [se_out] bytes per send call, then reports [EAGAIN]. *)
Record script_env := mkEnv {
  se_mallocs : nat;
  se_clock : Z;
  se_in : list (list Z);
  se_out : list nat;
  se_rcvd : list Z;
  se_sent : list Z;
}.

Definition script_recv (_ n : Z) (e : script_env) : Z * Z * list Z * script_env :=
  match se_in e with
  | [] => (-1, EAGAIN, [], e)
  | x :: l =>
      let d := take (Z.to_nat n) x in
      (blen d, 0, d, mkEnv (se_mallocs e) (se_clock e) (match drop (Z.to_nat n) x with [] => l | y => y :: l end)
                       (se_out e) (se_rcvd e ++ d) (se_sent e))
  end.

#[export] Instance script_cache_env : CacheEnv script_env := {
  malloc_ok _ e := match se_mallocs e with
    | O => (false, e)
    | S n => (true, mkEnv n (se_clock e) (se_in e) (se_out e) (se_rcvd e) (se_sent e))
    end;
  mt_time_ms e := (se_clock e, mkEnv (se_mallocs e) (se_clock e + 1) (se_in e) (se_out e) (se_rcvd e) (se_sent e));
  sys_recv := script_recv;
  sys_recvfrom := script_recv;
  sys_send _ d e := match se_out e with
    | [] => (-1, EAGAIN, e)
    | k :: l => (blen (take k d), 0, mkEnv (se_mallocs e) (se_clock e) (se_in e) l (se_rcvd e) (se_sent e ++ take k d))
    end;
}.

Lemma script_recv_ok : recv_law se_rcvd se_sent script_recv.
Proof.
  intros fd n e k errno d e' Hn. unfold script_recv. destruct (se_in e) as [|x l].
  - intros [= <- <- <- <-]. split; [lia|]. split; [done|]. split; [lia|done].
  - intros [= <- <- <- <-]. simpl. split; [unfold blen; rewrite length_take; lia|]. split; [done|]. split; [done|].
    intros Hz. destruct (take (Z.to_nat n) x); [by rewrite app_nil_r|]. unfold blen in Hz. simpl in Hz. lia.
Qed.

#[export] Instance script_laws : CacheEnvLaws se_rcvd se_sent.
Proof.
  split.
  - intros n e. simpl. by destruct (se_mallocs e).
  - done.
  - exact script_recv_ok.
  - exact script_recv_ok.
  - intros fd d e k errno e'. simpl. destruct (se_out e) as [|j l].
    + intros [= <- <- <-]. split; [unfold blen; lia|]. split; [done|]. split; [lia|done].
    + intros [= <- <- <-]. simpl. split; [unfold blen; rewrite length_take; lia|]. split; [done|].
      split; [|unfold blen; lia]. intros _. f_equal. unfold blen. rewrite length_take, Nat2Z.id.
      destruct (Nat.le_gt_cases j (length d)); [by rewrite Nat.min_l|]. rewrite Nat.min_r by lia. by rewrite !take_ge by lia.
Qed.

(** Blocks of four bytes, memory for three of them. *)
Definition demo_state (ins : list (list Z)) (outs : list nat) : CacheState :=
  mkCs (mkEnv 3 5000 ins outs [] []) ∅ (sk_buffer_mng_init 60 4).

Lemma demo_empty ins outs : cache_rep [] (rw_cache_init true) (demo_state ins outs) [].
Proof. apply rw_cache_init_rep. split; simpl; [constructor|..|done|lia]; intros p; set_solver. Qed.

Definition demo_run (o : option (Z * option TRWCache * @CacheState script_env)) : option (TRWCache * @CacheState script_env) :=
  '(_, c, st) ← o; c ← c; Some (c, st).

(** A cache that holds six bytes in two blocks. *)
Definition demo_six : TRWCache * @CacheState script_env :=
  default (rw_cache_init true, demo_state [] [])
    (demo_run (cache_append_data (Some (rw_cache_init true)) (Some [1; 2; 3; 4; 5; 6]) 6
                 (demo_state [[7; 8; 9; 10; 11]] [3%nat; 1%nat]))).

Lemma demo_six_rep : cache_rep [] demo_six.1 demo_six.2 [1; 2; 3; 4; 5; 6].
Proof.
  destruct (append_data_rep se_rcvd se_sent [] _ _ [] [1; 2; 3; 4; 5; 6] (demo_empty [[7; 8; 9; 10; 11]] [3%nat; 1%nat]) ltac:(by vm_compute))
    as (r & c' & st' & E1 & _ & _ & Hout).
  unfold demo_six. change (blen [1; 2; 3; 4; 5; 6]) with 6 in E1. rewrite E1. cbn [demo_run mbind option_bind default from_option id fst snd].
  destruct Hout as [[_ H]|(-> & _ & _)]; [exact H|]. exfalso. clear -E1. vm_compute in E1. discriminate.
Qed.

Lemma cache_append_all_or_nothing_witness :
  (exists c' st', cache_append_data (Some demo_six.1) (Some [7; 8; 9]) 3 demo_six.2 = Some (3, Some c', st') /\
     cache_rep [] c' st' [1; 2; 3; 4; 5; 6; 7; 8; 9]) /\
  (exists st', cache_append_data (Some demo_six.1) (Some [7; 8; 9; 10; 11; 12; 13]) 7 demo_six.2 = Some (-2, Some demo_six.1, st') /\
     cache_rep [] demo_six.1 st' [1; 2; 3; 4; 5; 6]).
Proof.
  split.
  - destruct (cache_append_all_or_nothing se_rcvd se_sent [] _ _ _ [7; 8; 9] demo_six_rep ltac:(by vm_compute))
      as (r & c' & st' & E1 & _ & _ & [[-> H]|(-> & _)]).
    + exists c', st'. split; [exact E1|exact H].
    + exfalso. clear -E1. vm_compute in E1. discriminate.
  - destruct (cache_append_all_or_nothing se_rcvd se_sent [] _ _ _ [7; 8; 9; 10; 11; 12; 13] demo_six_rep ltac:(by vm_compute))
      as (r & c' & st' & E1 & _ & _ & [[-> H]|(-> & -> & H)]).
    + exfalso. clear -E1. vm_compute in E1. discriminate.
    + exists st'. split; [exact E1|exact H].
Defined.

Lemma cache_copy_out_takes_prefix_witness :
  exists c' st', cache_copy_out (Some demo_six.1) true 5 demo_six.2 = Some (5, [1; 2; 3; 4; 5], Some c', st') /\
    cache_rep [] c' st' [6].
Proof.
  destruct (cache_copy_out_takes_prefix se_rcvd se_sent [] _ _ _ true 5 demo_six_rep ltac:(by vm_compute) ltac:(by vm_compute) ltac:(lia))
    as (c' & st' & E1 & H & _).
  exists c', st'. split; [exact E1|exact H].
Defined.

Lemma cache_reads_substring_witness :
  read_cache_begin (Some demo_six.1) 3 2 demo_six.2 = Some (2, [4; 5]).
Proof.
  destruct (cache_reads_substring [] _ _ _ 3 2 demo_six_rep ltac:(by vm_compute) ltac:(lia) ltac:(lia)) as [_ H]. exact H.
Defined.

Lemma cache_recv_appends_received_witness :
  exists c' st', cache_tcp_recv (Some demo_six.1) 8 demo_six.2 = Some (5, Some c', st') /\
    cache_rep [] c' st' [1; 2; 3; 4; 5; 6; 7; 8; 9; 10; 11].
Proof.
  destruct (cache_recv_appends_received se_rcvd se_sent [] _ _ _ 8 demo_six_rep)
    as [(r & c' & st' & new & E1 & _ & Hr & H & _) _].
  assert (Hn : r = 5 /\ se_rcvd (cs_env st') = [7; 8; 9; 10; 11]).
  { clear -E1. vm_compute in E1. injection E1 as <- <- <-. by split. }
  destruct Hn as [-> Hn]. exists c', st'. split; [exact E1|].
  assert (new = [7; 8; 9; 10; 11]) as ->; [|exact H]. rewrite Hn in Hr. exact (eq_sym Hr).
Defined.

Lemma cache_send_keeps_order_witness :
  exists c' st', cache_tcp_send_buff (Some demo_six.1) 8 (Some [7; 8]) 2 demo_six.2 = Some (0, Some c', st') /\
    se_sent (cs_env st') = [1; 2; 3] /\ cache_rep [] c' st' [4; 5; 6; 7; 8].
Proof.
  destruct (cache_send_keeps_order se_rcvd se_sent [] _ _ _ [7; 8] 8 demo_six_rep ltac:(by vm_compute) ltac:(by vm_compute) ltac:(by vm_compute))
    as (r & c' & st' & n & E1 & _ & Hn & _ & Hs & Hout).
  assert (Hv : r = 0 /\ se_sent (cs_env st') = [1; 2; 3]).
  { clear -E1. vm_compute in E1. injection E1 as <- <- <-. by split. }
  destruct Hv as [-> Hv]. exists c', st'. split; [exact E1|]. split; [exact Hv|].
  assert (n = 3) as ->.
  { assert (Hz : se_sent (cs_env demo_six.2) = []) by (vm_compute; reflexivity).
    rewrite Hv, Hz in Hs. apply (f_equal length) in Hs. clear -Hs Hn. rewrite length_app, length_take in Hs.
    unfold blen in Hn. simpl length in *. lia. }
  destruct Hout as [[_ H]|[_ [[H _]|[H _]]]]; [exact H|lia|lia].
Defined.
