(* ===== verification/NetData.v ===== *)
(** * The network layer of the micro threads: data

    The objects of [src/src/sync_frame/micro_thread/mt_net.h] and what the layer uses
    of the rest of the frame; the operations are in [NetOps].

    Requests are made through a [CNetHandler]; the handlers of a destination
    share up to three sockets ([CSockLink]) under a [CDestLinks].  A handler waits
    in one of four queues of its link.  All queues of handlers, links and
    destinations and the free lists of their pools link objects through the same
    entry [_link_entry]; [nh_linked], [sl_linked] and [dl_linked] say that the entry is in
    use, and inserting such an object again is undefined. *)

From Stdlib Require Import ZArith Lia.
From stdpp Require Import base gmap list option.
From S2P Require Import Prelude Bytes HashList KeyTable RwCache.

(** [enum MT_PROTO_TYPE], [enum MT_CONN_TYPE] *)
Definition NET_PROTO_UNDEF : Z := 0.
Definition NET_PROTO_UDP : Z := 1.
Definition NET_PROTO_TCP : Z := 2.
Definition TYPE_CONN_SESSION : Z := 4.
Definition TYPE_CONN_SENDONLY : Z := 8.

(** [enum MT_RC_TYPE] *)
Definition RC_SUCCESS : Z := 0.
Definition RC_ERR_SOCKET : Z := -1.
Definition RC_SEND_FAIL : Z := -2.
Definition RC_RECV_FAIL : Z := -3.
Definition RC_CONNECT_FAIL : Z := -4.
Definition RC_CHECK_PKG_FAIL : Z := -5.
Definition RC_REMOTE_CLOSED : Z := -7.
Definition RC_INVALID_PARAM : Z := -10.
Definition RC_MEM_ERROR : Z := -12.
Definition RC_CONFLICT_SID : Z := -13.
Definition RC_EPOLL_ERROR : Z := -14.

(** The states of a handler and of a link. *)
Definition STATE_IN_SESSION : Z := 1.
Definition STATE_IN_CONNECT : Z := 2.
Definition STATE_IN_SEND : Z := 4.
Definition STATE_IN_RECV : Z := 8.
Definition STATE_IN_IDLE : Z := 16.
Definition LINK_CONNECTING : Z := 1.
Definition LINK_CONNECTED : Z := 2.
Definition LINK_IDLE_LIST : Z := 1.
Definition LINK_CONN_LIST : Z := 2.
Definition LINK_SEND_LIST : Z := 3.
Definition LINK_RECV_LIST : Z := 4.

Definition EPOLLIN : Z := 1.
Definition EPOLLOUT : Z := 4.
Definition EINTR : Z := 4.
Definition EALREADY : Z := 114.
Definition EINPROGRESS : Z := 115.
Definition EISCONN : Z := 106.

(** [class CNetHandler].  A callback is a function pointer.  The request is what
    [_req_data] still points at, with [_req_len] its length. *)
Record CNetHandler := mkHandler {
  nh_thread : option ptr;
  nh_proto : Z;
  nh_conn_type : Z;
  nh_ip : Z;
  nh_port : Z;
  nh_sid : Z;
  nh_callback : option ptr;
  nh_state : Z;
  nh_err : Z;
  nh_conn : option ptr;
  nh_send_pos : Z;
  nh_req_len : Z;
  nh_req_data : option (list Z);
  nh_rsp : option ptr;
  nh_release : Z;
  nh_linked : bool;
}.
Definition set_thread (v : option ptr) (x : CNetHandler) : CNetHandler :=
  mkHandler v (nh_proto x) (nh_conn_type x) (nh_ip x) (nh_port x) (nh_sid x) (nh_callback x) (nh_state x)
    (nh_err x) (nh_conn x) (nh_send_pos x) (nh_req_len x) (nh_req_data x) (nh_rsp x) (nh_release x) (nh_linked
    x).
Definition set_proto (v : Z) (x : CNetHandler) : CNetHandler :=
  mkHandler (nh_thread x) v (nh_conn_type x) (nh_ip x) (nh_port x) (nh_sid x) (nh_callback x) (nh_state x)
    (nh_err x) (nh_conn x) (nh_send_pos x) (nh_req_len x) (nh_req_data x) (nh_rsp x) (nh_release x) (nh_linked
    x).
Definition set_conn_type (v : Z) (x : CNetHandler) : CNetHandler :=
  mkHandler (nh_thread x) (nh_proto x) v (nh_ip x) (nh_port x) (nh_sid x) (nh_callback x) (nh_state x) (nh_err
    x) (nh_conn x) (nh_send_pos x) (nh_req_len x) (nh_req_data x) (nh_rsp x) (nh_release x) (nh_linked x).
Definition set_sid (v : Z) (x : CNetHandler) : CNetHandler :=
  mkHandler (nh_thread x) (nh_proto x) (nh_conn_type x) (nh_ip x) (nh_port x) v (nh_callback x) (nh_state x)
    (nh_err x) (nh_conn x) (nh_send_pos x) (nh_req_len x) (nh_req_data x) (nh_rsp x) (nh_release x) (nh_linked
    x).
Definition set_callback (v : option ptr) (x : CNetHandler) : CNetHandler :=
  mkHandler (nh_thread x) (nh_proto x) (nh_conn_type x) (nh_ip x) (nh_port x) (nh_sid x) v (nh_state x) (nh_err
    x) (nh_conn x) (nh_send_pos x) (nh_req_len x) (nh_req_data x) (nh_rsp x) (nh_release x) (nh_linked x).
Definition set_state (v : Z) (x : CNetHandler) : CNetHandler :=
  mkHandler (nh_thread x) (nh_proto x) (nh_conn_type x) (nh_ip x) (nh_port x) (nh_sid x) (nh_callback x) v
    (nh_err x) (nh_conn x) (nh_send_pos x) (nh_req_len x) (nh_req_data x) (nh_rsp x) (nh_release x) (nh_linked
    x).
Definition set_err (v : Z) (x : CNetHandler) : CNetHandler :=
  mkHandler (nh_thread x) (nh_proto x) (nh_conn_type x) (nh_ip x) (nh_port x) (nh_sid x) (nh_callback x)
    (nh_state x) v (nh_conn x) (nh_send_pos x) (nh_req_len x) (nh_req_data x) (nh_rsp x) (nh_release x)
    (nh_linked x).
Definition set_conn (v : option ptr) (x : CNetHandler) : CNetHandler :=
  mkHandler (nh_thread x) (nh_proto x) (nh_conn_type x) (nh_ip x) (nh_port x) (nh_sid x) (nh_callback x)
    (nh_state x) (nh_err x) v (nh_send_pos x) (nh_req_len x) (nh_req_data x) (nh_rsp x) (nh_release x)
    (nh_linked x).
Definition set_rsp (v : option ptr) (x : CNetHandler) : CNetHandler :=
  mkHandler (nh_thread x) (nh_proto x) (nh_conn_type x) (nh_ip x) (nh_port x) (nh_sid x) (nh_callback x)
    (nh_state x) (nh_err x) (nh_conn x) (nh_send_pos x) (nh_req_len x) (nh_req_data x) v (nh_release x)
    (nh_linked x).
Definition set_nh_release (v : Z) (x : CNetHandler) : CNetHandler :=
  mkHandler (nh_thread x) (nh_proto x) (nh_conn_type x) (nh_ip x) (nh_port x) (nh_sid x) (nh_callback x)
    (nh_state x) (nh_err x) (nh_conn x) (nh_send_pos x) (nh_req_len x) (nh_req_data x) (nh_rsp x) v (nh_linked
    x).
Definition set_nh_linked (v : bool) (x : CNetHandler) : CNetHandler :=
  mkHandler (nh_thread x) (nh_proto x) (nh_conn_type x) (nh_ip x) (nh_port x) (nh_sid x) (nh_callback x)
    (nh_state x) (nh_err x) (nh_conn x) (nh_send_pos x) (nh_req_len x) (nh_req_data x) (nh_rsp x) (nh_release x)
    v.

(** [class CSockLink] with the fields of its base [EpollerObj].  The pool of its cache
    is the one of its protocol. *)
Record CSockLink := mkLink {
  sl_conn_list : list ptr;
  sl_send_list : list ptr;
  sl_recv_list : list ptr;
  sl_idle_list : list ptr;
  sl_proto : Z;
  sl_errno : Z;
  sl_state : Z;
  sl_last_access : Z;
  sl_cache : TRWCache;
  sl_rsp : option ptr;
  sl_parents : option ptr;
  sl_fd : Z;
  sl_events : Z;
  sl_release : Z;
  sl_linked : bool;
}.
Definition set_conn_list (v : list ptr) (x : CSockLink) : CSockLink :=
  mkLink v (sl_send_list x) (sl_recv_list x) (sl_idle_list x) (sl_proto x) (sl_errno x) (sl_state x)
    (sl_last_access x) (sl_cache x) (sl_rsp x) (sl_parents x) (sl_fd x) (sl_events x) (sl_release x) (sl_linked
    x).
Definition set_send_list (v : list ptr) (x : CSockLink) : CSockLink :=
  mkLink (sl_conn_list x) v (sl_recv_list x) (sl_idle_list x) (sl_proto x) (sl_errno x) (sl_state x)
    (sl_last_access x) (sl_cache x) (sl_rsp x) (sl_parents x) (sl_fd x) (sl_events x) (sl_release x) (sl_linked
    x).
Definition set_recv_list (v : list ptr) (x : CSockLink) : CSockLink :=
  mkLink (sl_conn_list x) (sl_send_list x) v (sl_idle_list x) (sl_proto x) (sl_errno x) (sl_state x)
    (sl_last_access x) (sl_cache x) (sl_rsp x) (sl_parents x) (sl_fd x) (sl_events x) (sl_release x) (sl_linked
    x).
Definition set_idle_list (v : list ptr) (x : CSockLink) : CSockLink :=
  mkLink (sl_conn_list x) (sl_send_list x) (sl_recv_list x) v (sl_proto x) (sl_errno x) (sl_state x)
    (sl_last_access x) (sl_cache x) (sl_rsp x) (sl_parents x) (sl_fd x) (sl_events x) (sl_release x) (sl_linked
    x).
Definition set_sl_proto (v : Z) (x : CSockLink) : CSockLink :=
  mkLink (sl_conn_list x) (sl_send_list x) (sl_recv_list x) (sl_idle_list x) v (sl_errno x) (sl_state x)
    (sl_last_access x) (sl_cache x) (sl_rsp x) (sl_parents x) (sl_fd x) (sl_events x) (sl_release x) (sl_linked
    x).
Definition set_errno (v : Z) (x : CSockLink) : CSockLink :=
  mkLink (sl_conn_list x) (sl_send_list x) (sl_recv_list x) (sl_idle_list x) (sl_proto x) v (sl_state x)
    (sl_last_access x) (sl_cache x) (sl_rsp x) (sl_parents x) (sl_fd x) (sl_events x) (sl_release x) (sl_linked
    x).
Definition set_sl_state (v : Z) (x : CSockLink) : CSockLink :=
  mkLink (sl_conn_list x) (sl_send_list x) (sl_recv_list x) (sl_idle_list x) (sl_proto x) (sl_errno x) v
    (sl_last_access x) (sl_cache x) (sl_rsp x) (sl_parents x) (sl_fd x) (sl_events x) (sl_release x) (sl_linked
    x).
Definition set_last_access (v : Z) (x : CSockLink) : CSockLink :=
  mkLink (sl_conn_list x) (sl_send_list x) (sl_recv_list x) (sl_idle_list x) (sl_proto x) (sl_errno x) (sl_state
    x) v (sl_cache x) (sl_rsp x) (sl_parents x) (sl_fd x) (sl_events x) (sl_release x) (sl_linked x).
Definition set_cache (v : TRWCache) (x : CSockLink) : CSockLink :=
  mkLink (sl_conn_list x) (sl_send_list x) (sl_recv_list x) (sl_idle_list x) (sl_proto x) (sl_errno x) (sl_state
    x) (sl_last_access x) v (sl_rsp x) (sl_parents x) (sl_fd x) (sl_events x) (sl_release x) (sl_linked x).
Definition set_sl_rsp (v : option ptr) (x : CSockLink) : CSockLink :=
  mkLink (sl_conn_list x) (sl_send_list x) (sl_recv_list x) (sl_idle_list x) (sl_proto x) (sl_errno x) (sl_state
    x) (sl_last_access x) (sl_cache x) v (sl_parents x) (sl_fd x) (sl_events x) (sl_release x) (sl_linked x).
Definition set_parents (v : option ptr) (x : CSockLink) : CSockLink :=
  mkLink (sl_conn_list x) (sl_send_list x) (sl_recv_list x) (sl_idle_list x) (sl_proto x) (sl_errno x) (sl_state
    x) (sl_last_access x) (sl_cache x) (sl_rsp x) v (sl_fd x) (sl_events x) (sl_release x) (sl_linked x).
Definition set_fd (v : Z) (x : CSockLink) : CSockLink :=
  mkLink (sl_conn_list x) (sl_send_list x) (sl_recv_list x) (sl_idle_list x) (sl_proto x) (sl_errno x) (sl_state
    x) (sl_last_access x) (sl_cache x) (sl_rsp x) (sl_parents x) v (sl_events x) (sl_release x) (sl_linked x).
Definition set_events (v : Z) (x : CSockLink) : CSockLink :=
  mkLink (sl_conn_list x) (sl_send_list x) (sl_recv_list x) (sl_idle_list x) (sl_proto x) (sl_errno x) (sl_state
    x) (sl_last_access x) (sl_cache x) (sl_rsp x) (sl_parents x) (sl_fd x) v (sl_release x) (sl_linked x).
Definition set_sl_release (v : Z) (x : CSockLink) : CSockLink :=
  mkLink (sl_conn_list x) (sl_send_list x) (sl_recv_list x) (sl_idle_list x) (sl_proto x) (sl_errno x) (sl_state
    x) (sl_last_access x) (sl_cache x) (sl_rsp x) (sl_parents x) (sl_fd x) (sl_events x) v (sl_linked x).
Definition set_sl_linked (v : bool) (x : CSockLink) : CSockLink :=
  mkLink (sl_conn_list x) (sl_send_list x) (sl_recv_list x) (sl_idle_list x) (sl_proto x) (sl_errno x) (sl_state
    x) (sl_last_access x) (sl_cache x) (sl_rsp x) (sl_parents x) (sl_fd x) (sl_events x) (sl_release x) v.

(** [class CDestLinks] *)
Record CDestLinks := mkDest {
  dl_timeout : Z;
  dl_ip : Z;
  dl_port : Z;
  dl_proto : Z;
  dl_conn_type : Z;
  dl_max_links : Z;
  dl_curr_link : Z;
  dl_sock_list : list ptr;
  dl_callback : option ptr;
  dl_release : Z;
  dl_linked : bool;
}.
Definition set_curr_link (v : Z) (x : CDestLinks) : CDestLinks :=
  mkDest (dl_timeout x) (dl_ip x) (dl_port x) (dl_proto x) (dl_conn_type x) (dl_max_links x) v (dl_sock_list x)
    (dl_callback x) (dl_release x) (dl_linked x).
Definition set_sock_list (v : list ptr) (x : CDestLinks) : CDestLinks :=
  mkDest (dl_timeout x) (dl_ip x) (dl_port x) (dl_proto x) (dl_conn_type x) (dl_max_links x) (dl_curr_link x) v
    (dl_callback x) (dl_release x) (dl_linked x).
Definition set_dflt_callback (v : option ptr) (x : CDestLinks) : CDestLinks :=
  mkDest (dl_timeout x) (dl_ip x) (dl_port x) (dl_proto x) (dl_conn_type x) (dl_max_links x) (dl_curr_link x)
    (dl_sock_list x) v (dl_release x) (dl_linked x).
Definition set_dl_release (v : Z) (x : CDestLinks) : CDestLinks :=
  mkDest (dl_timeout x) (dl_ip x) (dl_port x) (dl_proto x) (dl_conn_type x) (dl_max_links x) (dl_curr_link x)
    (dl_sock_list x) (dl_callback x) v (dl_linked x).
Definition set_dl_linked (v : bool) (x : CDestLinks) : CDestLinks :=
  mkDest (dl_timeout x) (dl_ip x) (dl_port x) (dl_proto x) (dl_conn_type x) (dl_max_links x) (dl_curr_link x)
    (dl_sock_list x) (dl_callback x) (dl_release x) v.

(** [class CRecyclePool]: free objects, the oldest first. *)
Record CRecyclePool := mkPool {
  rp_free_list : list ptr;
  rp_expired : Z;
  rp_count : Z;
}.
Definition new_pool : CRecyclePool := mkPool [] (60 * 1000) 0.

(** The keys of sessions (number, address, protocol, kind) and of destinations. *)
Definition sess_key : Type := Z * Z * Z * Z * Z.
Definition dest_key : Type := Z * Z * Z * Z.
Definition handler_key (h : CNetHandler) : sess_key := (nh_sid h, nh_ip h, nh_port h, nh_proto h, nh_conn_type h).
Definition dest_key_of (d : CDestLinks) : dest_key := (dl_ip d, dl_port d, dl_proto d, dl_conn_type d).

(** [CNetHandler::HashValue] and [HashCmp] *)
Definition net_item_hash (k : sess_key) : Z :=
  let '(sid, ip, port, proto, conn) := k in
  let ip := Z.lxor ip (u32 (Z.lor (Z.lor (Z.shiftl port 16) (Z.shiftl proto 8)) (Z.shiftl conn 8))) in
  let hash := Z.land (Z.shiftr sid 32) 0xffffffff in
  let hash := Z.lxor hash (Z.land sid 0xffffffff) in
  Z.lxor hash ip.
Definition cmp_field (a b : Z) (rest : Z) : Z := if a =? b then rest else if b <? a then 1 else -1.
Definition net_item_cmp (x y : sess_key) : Z :=
  let '(sid, ip, port, proto, conn) := x in
  let '(sid', ip', port', proto', conn') := y in
  cmp_field sid sid' (cmp_field ip ip' (cmp_field port port' (cmp_field proto proto' (cmp_field conn conn' 0)))).

(** [CDestLinks::HashValue] and [HashCmp] *)
Definition dest_hash (k : dest_key) : Z :=
  let '(ip, port, proto, conn) := k in
  Z.lxor ip (Z.lor (Z.lor (u32 (Z.shiftl port 16)) (Z.shiftl proto 8)) conn).
Definition dest_cmp (x y : dest_key) : Z :=
  let '(ip, port, proto, conn) := x in
  let '(ip', port', proto', conn') := y in
  cmp_field ip ip' (cmp_field port port' (cmp_field proto proto' (cmp_field conn conn' 0))).

Lemma cmp_field_zero a b r : cmp_field a b r = 0 <-> a = b /\ r = 0.
Proof. unfold cmp_field. destruct (Z.eqb_spec a b); [tauto|]. destruct (b <? a); split; [done|tauto|done|tauto]. Qed.
#[export] Instance net_item_cmp_law : CmpLaw net_item_cmp.
Proof.
  intros [[[[a b] c] d] e] [[[[a' b'] c'] d'] e']. unfold net_item_cmp. rewrite !cmp_field_zero.
  split; [by intros (-> & -> & -> & -> & -> & _)|by intros [= -> -> -> -> ->]].
Qed.
#[export] Instance dest_cmp_law : CmpLaw dest_cmp.
Proof.
  intros [[[a b] c] d] [[[a' b'] c'] d']. unfold dest_cmp. rewrite !cmp_field_zero.
  split; [by intros (-> & -> & -> & -> & _)|by intros [= -> -> -> ->]].
Qed.

(** What the layer uses of the kernel, of the epoll proxy and the timers of the
    frame: socket calls with result and [errno]; the frame's clock; whether a
    registration with epoll or the timers succeeds. *)
Class NetEnv (E : Type) := {
  net_cache_env :: CacheEnv E;
  sys_socket : Z -> E -> Z * E;
  sys_ioctl : Z -> E -> Z * E;
  sys_close : Z -> E -> E;
  sys_connect : Z -> Z * Z -> E -> Z * Z * E;
  sys_sendto : Z -> list Z -> Z * Z -> E -> Z * Z * E;
  sys_writev : Z -> list (list Z) -> E -> Z * Z * E;
  EpollAddObj : ptr -> Z -> Z -> E -> bool * E;
  EpollDelObj : ptr -> Z -> Z -> E -> bool * E;
  EpollCtrlAdd : Z -> Z -> E -> bool * E;
  EpollCtrlDel : Z -> Z -> E -> bool * E;
  start_timer : ptr -> Z -> E -> bool * E;
  stop_timer : ptr -> E -> E;
  GetLastClock : E -> Z;
}.

Section world.
Context {E TS TI : Type}.

(** [class CNetMgr] with all objects: the tables of sessions and destinations, the
    blocks with the pools for UDP and TCP, and the pools of objects; and of the
    scheduler the threads that wait ([IO_LIST]) and those that may run. *)
Record NetW := mkNet {
  nw_env : E;
  nw_items : gmap ptr CNetHandler;
  nw_links : gmap ptr CSockLink;
  nw_dests : gmap ptr CDestLinks;
  nw_sess : TS;
  nw_ips : TI;
  nw_bufs : gmap ptr TSkBuffer;
  nw_udp : TSkBuffMng;
  nw_tcp : TSkBuffMng;
  nw_item_pool : CRecyclePool;
  nw_link_pool : CRecyclePool;
  nw_dest_pool : CRecyclePool;
  nw_io : list ptr;
  nw_run : list ptr;
}.
Definition set_nw_env (v : E) (x : NetW) : NetW :=
  mkNet v (nw_items x) (nw_links x) (nw_dests x) (nw_sess x) (nw_ips x) (nw_bufs x) (nw_udp x) (nw_tcp x)
    (nw_item_pool x) (nw_link_pool x) (nw_dest_pool x) (nw_io x) (nw_run x).
Definition set_items (v : gmap ptr CNetHandler) (x : NetW) : NetW :=
  mkNet (nw_env x) v (nw_links x) (nw_dests x) (nw_sess x) (nw_ips x) (nw_bufs x) (nw_udp x) (nw_tcp x)
    (nw_item_pool x) (nw_link_pool x) (nw_dest_pool x) (nw_io x) (nw_run x).
Definition set_links (v : gmap ptr CSockLink) (x : NetW) : NetW :=
  mkNet (nw_env x) (nw_items x) v (nw_dests x) (nw_sess x) (nw_ips x) (nw_bufs x) (nw_udp x) (nw_tcp x)
    (nw_item_pool x) (nw_link_pool x) (nw_dest_pool x) (nw_io x) (nw_run x).
Definition set_dests (v : gmap ptr CDestLinks) (x : NetW) : NetW :=
  mkNet (nw_env x) (nw_items x) (nw_links x) v (nw_sess x) (nw_ips x) (nw_bufs x) (nw_udp x) (nw_tcp x)
    (nw_item_pool x) (nw_link_pool x) (nw_dest_pool x) (nw_io x) (nw_run x).
Definition set_sess (v : TS) (x : NetW) : NetW :=
  mkNet (nw_env x) (nw_items x) (nw_links x) (nw_dests x) v (nw_ips x) (nw_bufs x) (nw_udp x) (nw_tcp x)
    (nw_item_pool x) (nw_link_pool x) (nw_dest_pool x) (nw_io x) (nw_run x).
Definition set_ips (v : TI) (x : NetW) : NetW :=
  mkNet (nw_env x) (nw_items x) (nw_links x) (nw_dests x) (nw_sess x) v (nw_bufs x) (nw_udp x) (nw_tcp x)
    (nw_item_pool x) (nw_link_pool x) (nw_dest_pool x) (nw_io x) (nw_run x).
Definition set_nw_bufs (v : gmap ptr TSkBuffer) (x : NetW) : NetW :=
  mkNet (nw_env x) (nw_items x) (nw_links x) (nw_dests x) (nw_sess x) (nw_ips x) v (nw_udp x) (nw_tcp x)
    (nw_item_pool x) (nw_link_pool x) (nw_dest_pool x) (nw_io x) (nw_run x).
Definition set_udp (v : TSkBuffMng) (x : NetW) : NetW :=
  mkNet (nw_env x) (nw_items x) (nw_links x) (nw_dests x) (nw_sess x) (nw_ips x) (nw_bufs x) v (nw_tcp x)
    (nw_item_pool x) (nw_link_pool x) (nw_dest_pool x) (nw_io x) (nw_run x).
Definition set_tcp (v : TSkBuffMng) (x : NetW) : NetW :=
  mkNet (nw_env x) (nw_items x) (nw_links x) (nw_dests x) (nw_sess x) (nw_ips x) (nw_bufs x) (nw_udp x) v
    (nw_item_pool x) (nw_link_pool x) (nw_dest_pool x) (nw_io x) (nw_run x).
Definition set_item_pool (v : CRecyclePool) (x : NetW) : NetW :=
  mkNet (nw_env x) (nw_items x) (nw_links x) (nw_dests x) (nw_sess x) (nw_ips x) (nw_bufs x) (nw_udp x) (nw_tcp
    x) v (nw_link_pool x) (nw_dest_pool x) (nw_io x) (nw_run x).
Definition set_link_pool (v : CRecyclePool) (x : NetW) : NetW :=
  mkNet (nw_env x) (nw_items x) (nw_links x) (nw_dests x) (nw_sess x) (nw_ips x) (nw_bufs x) (nw_udp x) (nw_tcp
    x) (nw_item_pool x) v (nw_dest_pool x) (nw_io x) (nw_run x).
Definition set_dest_pool (v : CRecyclePool) (x : NetW) : NetW :=
  mkNet (nw_env x) (nw_items x) (nw_links x) (nw_dests x) (nw_sess x) (nw_ips x) (nw_bufs x) (nw_udp x) (nw_tcp
    x) (nw_item_pool x) (nw_link_pool x) v (nw_io x) (nw_run x).
Definition set_io (v : list ptr) (x : NetW) : NetW :=
  mkNet (nw_env x) (nw_items x) (nw_links x) (nw_dests x) (nw_sess x) (nw_ips x) (nw_bufs x) (nw_udp x) (nw_tcp
    x) (nw_item_pool x) (nw_link_pool x) (nw_dest_pool x) v (nw_run x).
Definition set_run (v : list ptr) (x : NetW) : NetW :=
  mkNet (nw_env x) (nw_items x) (nw_links x) (nw_dests x) (nw_sess x) (nw_ips x) (nw_bufs x) (nw_udp x) (nw_tcp
    x) (nw_item_pool x) (nw_link_pool x) (nw_dest_pool x) (nw_io x) v.
End world.
Arguments NetW : clear implicits.

(** The simplification of field updates. *)
Ltac nsimpl := cbn [
    nh_thread nh_proto nh_conn_type nh_ip nh_port nh_sid nh_callback nh_state nh_err nh_conn nh_send_pos
    nh_req_len nh_req_data nh_rsp nh_release nh_linked sl_conn_list sl_send_list sl_recv_list sl_idle_list
    sl_proto sl_errno sl_state sl_last_access sl_cache sl_rsp sl_parents sl_fd sl_events sl_release sl_linked
    dl_timeout dl_ip dl_port dl_proto dl_conn_type dl_max_links dl_curr_link dl_sock_list dl_callback dl_release
    dl_linked rp_free_list rp_expired rp_count nw_env nw_items nw_links nw_dests nw_sess nw_ips nw_bufs nw_udp
    nw_tcp nw_item_pool nw_link_pool nw_dest_pool nw_io nw_run set_thread set_proto set_conn_type set_sid
    set_callback set_state set_err set_conn set_rsp set_nh_release set_nh_linked set_conn_list set_send_list
    set_recv_list set_idle_list set_sl_proto set_errno set_sl_state set_last_access set_cache set_sl_rsp
    set_parents set_fd set_events set_sl_release set_sl_linked set_curr_link set_sock_list set_dflt_callback
    set_dl_release set_dl_linked set_nw_env set_items set_links set_dests set_sess set_ips set_nw_bufs set_udp
    set_tcp set_item_pool set_link_pool set_dest_pool set_io set_run
  ].
Tactic Notation "nsimpl" "in" hyp_list(H) := cbn [
    nh_thread nh_proto nh_conn_type nh_ip nh_port nh_sid nh_callback nh_state nh_err nh_conn nh_send_pos
    nh_req_len nh_req_data nh_rsp nh_release nh_linked sl_conn_list sl_send_list sl_recv_list sl_idle_list
    sl_proto sl_errno sl_state sl_last_access sl_cache sl_rsp sl_parents sl_fd sl_events sl_release sl_linked
    dl_timeout dl_ip dl_port dl_proto dl_conn_type dl_max_links dl_curr_link dl_sock_list dl_callback dl_release
    dl_linked rp_free_list rp_expired rp_count nw_env nw_items nw_links nw_dests nw_sess nw_ips nw_bufs nw_udp
    nw_tcp nw_item_pool nw_link_pool nw_dest_pool nw_io nw_run set_thread set_proto set_conn_type set_sid
    set_callback set_state set_err set_conn set_rsp set_nh_release set_nh_linked set_conn_list set_send_list
    set_recv_list set_idle_list set_sl_proto set_errno set_sl_state set_last_access set_cache set_sl_rsp
    set_parents set_fd set_events set_sl_release set_sl_linked set_curr_link set_sock_list set_dflt_callback
    set_dl_release set_dl_linked set_nw_env set_items set_links set_dests set_sess set_ips set_nw_bufs set_udp
    set_tcp set_item_pool set_link_pool set_dest_pool set_io set_run
  ] in H.
