(* ===== verification/NetOps.v ===== *)
(** * The network layer of the micro threads: operations

    The functions of [src/src/sync_frame/micro_thread/mt_net.cpp] on the objects of
    [NetData].  [SendRecv] ends at each [WaitNotify], where the thread gives up the
    processor; the code behind it is the [_end] part, called when the thread runs
    again.  A function returns [None] when it touches an object that was deleted,
    corrupts a queue, or copies outside a block. *)

From Stdlib Require Import ZArith Lia.
From stdpp Require Import base gmap list option.
From S2P Require Import Prelude Bytes HashList KeyTable RwCache NetData.

Section net.
Context {E TS TI : Type} `{!NetEnv E, !KeyTable sess_key TS, !KeyTable dest_key TI}.
Context (check_session : ptr -> list Z -> Z -> Z * Z * Z).

Abbreviation NetW := (NetW E TS TI).
Implicit Types (w : NetW) (h l d t : ptr).

(** ** Access *)

Definition item h w : option CNetHandler := nw_items w !! h.
Definition link l w : option CSockLink := nw_links w !! l.
Definition dest d w : option CDestLinks := nw_dests w !! d.
Definition upd_item h (f : CNetHandler -> CNetHandler) w : option NetW :=
  x ← item h w; Some (set_items (<[h := f x]> (nw_items w)) w).
Definition upd_link l (f : CSockLink -> CSockLink) w : option NetW :=
  x ← link l w; Some (set_links (<[l := f x]> (nw_links w)) w).
Definition upd_dest d (f : CDestLinks -> CDestLinks) w : option NetW :=
  x ← dest d w; Some (set_dests (<[d := f x]> (nw_dests w)) w).

(** A call to the environment. *)
Definition env_do {A} (f : E -> A * E) w : A * NetW := let '(a, e) := f (nw_env w) in (a, set_nw_env e w).

(** The blocks with the pool of a protocol ([GetSkBuffMng]), for the functions of
    [RwCache]. *)
Definition GetSkBuffMng (proto : Z) w : TSkBuffMng := if proto =? NET_PROTO_TCP then nw_tcp w else nw_udp w.
Definition cache_view (proto : Z) w : CacheState := mkCs (nw_env w) (nw_bufs w) (GetSkBuffMng proto w).
Definition put_view (proto : Z) (st : CacheState) w : NetW :=
  let w := set_nw_env (cs_env st) (set_nw_bufs (cs_bufs st) w) in
  if proto =? NET_PROTO_TCP then set_tcp (cs_pool st) w else set_udp (cs_pool st) w.

(** [delete_sk_buffer] looks at no pool. *)
Definition drop_block (b : option ptr) w : option NetW :=
  st ← delete_sk_buffer b (cache_view NET_PROTO_TCP w); Some (put_view NET_PROTO_TCP st w).

Fixpoint foreach (f : ptr -> NetW -> option NetW) (l : list ptr) w : option NetW :=
  match l with
  | [] => Some w
  | x :: l => w ← f x w; foreach f l w
  end.

(** ** Queues *)

(** [GetItemList] *)
Definition GetItemList (type : Z) (x : CSockLink) : option (list ptr) :=
  if type =? LINK_IDLE_LIST then Some (sl_idle_list x)
  else if type =? LINK_CONN_LIST then Some (sl_conn_list x)
  else if type =? LINK_SEND_LIST then Some (sl_send_list x)
  else if type =? LINK_RECV_LIST then Some (sl_recv_list x)
  else None.
Definition set_item_list (type : Z) (q : list ptr) : CSockLink -> CSockLink :=
  if type =? LINK_IDLE_LIST then set_idle_list q
  else if type =? LINK_CONN_LIST then set_conn_list q
  else if type =? LINK_SEND_LIST then set_send_list q
  else set_recv_list q.

(** [AppendToList] *)
Definition AppendToList l (type : Z) h w : option NetW :=
  x ← link l w;
  match GetItemList type x with
  | None => Some w
  | Some q =>
      i ← item h w;
      if nh_linked i then None
      else w ← upd_link l (set_item_list type (q ++ [h])) w; upd_item h (set_nh_linked true) w
  end.

(** [RemoveFromList] *)
Definition RemoveFromList l (type : Z) h w : option NetW :=
  x ← link l w;
  match GetItemList type x with
  | None => Some w
  | Some q =>
      if bool_decide (h ∈ q) then
        w ← upd_link l (set_item_list type (filter (.≠ h) q)) w; upd_item h (set_nh_linked false) w
      else None
  end.

(** ** Handlers *)

(** One of the tests of [DetachConn]. *)
Definition detach_from l h (flag type : Z) w : option NetW :=
  x ← item h w;
  if Z.land (nh_state x) flag =? 0 then Some w
  else w ← RemoveFromList l type h w; upd_item h (fun x => set_state (Z.ldiff (nh_state x) flag) x) w.

(** [DetachConn] *)
Definition DetachConn h w : option NetW :=
  x ← item h w;
  match nh_conn x with
  | None => Some w
  | Some l =>
      if nh_state x =? 0 then Some w
      else
        w ← detach_from l h STATE_IN_CONNECT LINK_CONN_LIST w;
        w ← detach_from l h STATE_IN_SEND LINK_SEND_LIST w;
        w ← detach_from l h STATE_IN_RECV LINK_RECV_LIST w;
        detach_from l h STATE_IN_IDLE LINK_IDLE_LIST w
  end.

(** [SwitchToConn], [SwitchToSend], [SwitchToRecv] and [SwitchToIdle] *)
Definition switch_to (flag type : Z) h w : option NetW :=
  x ← item h w;
  match nh_conn x with
  | None => Some w
  | Some l =>
      w ← DetachConn h w;
      w ← upd_item h (fun x => set_state (Z.lor (nh_state x) flag) x) w;
      AppendToList l type h w
  end.
Definition SwitchToConn h w : option NetW := switch_to STATE_IN_CONNECT LINK_CONN_LIST h w.
Definition SwitchToSend h w : option NetW := switch_to STATE_IN_SEND LINK_SEND_LIST h w.
Definition SwitchToRecv h w : option NetW := switch_to STATE_IN_RECV LINK_RECV_LIST h w.
Definition SwitchToIdle h w : option NetW := switch_to STATE_IN_IDLE LINK_IDLE_LIST h w.

(** [Link] and [Unlink] *)
Definition Link h (conn : ptr) w : option NetW := w ← upd_item h (set_conn (Some conn)) w; SwitchToIdle h w.
Definition Unlink h w : option NetW :=
  x ← item h w;
  w ← (if nh_state x =? 0 then Some w else DetachConn h w);
  upd_item h (set_conn None) w.

(** The keys of the handlers and destinations that exist. *)
Definition item_key w (p : ptr) : sess_key := default (0, 0, 0, 0, 0) (handler_key <$> nw_items w !! p).
Definition ip_key w (p : ptr) : dest_key := default (0, 0, 0, 0) (dest_key_of <$> nw_dests w !! p).

(** [FindNetItem], [InsertNetItem], [RemoveNetItem] *)
Definition FindNetItem (key : sess_key) w : option (option ptr) := kt_find (item_key w) (nw_sess w) key.
Definition InsertNetItem h w : NetW := set_sess (snd (kt_insert (item_key w) (nw_sess w) h)) w.
Definition RemoveNetItem h w : option NetW :=
  r ← FindNetItem (item_key w h) w;
  match r with
  | None => Some w
  | Some handler => t ← kt_remove (item_key w) (nw_sess w) (item_key w handler); Some (set_sess t w)
  end.

(** [RegistSession] by the running thread [t], and [UnRegistSession] *)
Definition RegistSession t h w : option (bool * NetW) :=
  x ← item h w;
  r ← FindNetItem (handler_key x) w;
  match r with
  | Some _ => Some (false, w)
  | None =>
      w ← upd_item h (set_thread (Some t)) w;
      w ← upd_item h (fun x => set_state (Z.lor (nh_state x) STATE_IN_SESSION) x) (InsertNetItem h w);
      Some (true, w)
  end.
Definition UnRegistSession h w : option NetW :=
  x ← item h w;
  if Z.land (nh_state x) STATE_IN_SESSION =? 0 then Some w
  else w ← RemoveNetItem h w; upd_item h (fun x => set_state (Z.ldiff (nh_state x) STATE_IN_SESSION) x) w.

(** [SetRespBuff] *)
Definition SetRespBuff (buff : option ptr) h w : option NetW :=
  x ← item h w;
  w ← drop_block (nh_rsp x) w;
  upd_item h (set_rsp buff) w.

(** [CNetHandler::Reset]; [new_handler] is what it leaves, and the constructor. *)
Definition new_handler : CNetHandler :=
  mkHandler None NET_PROTO_TCP TYPE_CONN_SESSION 0 0 0 None 0 0 None 0 0 None None 0 false.
Definition clear_handler (x : CNetHandler) : CNetHandler :=
  set_nh_linked (nh_linked x) (set_nh_release (nh_release x) new_handler).
Definition ItemReset h w : option NetW :=
  w ← Unlink h w;
  w ← UnRegistSession h w;
  x ← item h w;
  w ← drop_block (nh_rsp x) w;
  upd_item h clear_handler w.

(** [SkipSendPos]: how far the request moved on. *)
Definition SkipSendPos (len : Z) h w : option (Z * NetW) :=
  x ← item h w;
  let skip_len := if nh_req_len x <=? len then nh_req_len x else len in
  w ← upd_item h (fun x =>
        mkHandler (nh_thread x) (nh_proto x) (nh_conn_type x) (nh_ip x) (nh_port x) (nh_sid x) (nh_callback x) (nh_state x)
          (nh_err x) (nh_conn x) (u32 (nh_send_pos x + skip_len)) (u32 (nh_req_len x - skip_len))
          (drop (Z.to_nat skip_len) <$> nh_req_data x) (nh_rsp x) (nh_release x) (nh_linked x)) w;
  Some (skip_len, w).

(** [GetSendData]: the bytes a send call would read. *)
Definition GetSendData h w : option (option (list Z) * Z) := x ← item h w; Some (nh_req_data x, nh_req_len x).
Definition iov_bytes (data : option (list Z)) (len : Z) : option (list Z) :=
  match data with Some d => bread 0 len d | None => if len =? 0 then Some [] else None end.

(** ** Links *)

(** [NotifyThread]: [RemoveIoWait] and [InsertRunable] of the thread. *)
Definition wake_thread t w : NetW := set_io (filter (.≠ t) (nw_io w)) (set_run (nw_run w ++ [t]) w).
Definition NotifyThread h (result : Z) w : option NetW :=
  w ← (if result =? RC_SUCCESS then Some w else upd_item h (set_err result) w);
  x ← item h w;
  match nh_thread x with
  | Some t => Some (if bool_decide (t ∈ nw_io w) then wake_thread t w else w)
  | None => Some w
  end.

(** [NotifyAll]; each loop saves the next handler before it unlinks one. *)
Definition notify_unlink (result : Z) h w : option NetW := w ← NotifyThread h result w; Unlink h w.
Definition NotifyAll l (result : Z) w : option NetW :=
  x ← link l w; w ← foreach (notify_unlink result) (sl_conn_list x) w;
  x ← link l w; w ← foreach (notify_unlink result) (sl_send_list x) w;
  x ← link l w; w ← foreach (notify_unlink result) (sl_recv_list x) w;
  x ← link l w; foreach (notify_unlink result) (sl_idle_list x) w.

(** [CSockLink::Close] *)
Definition Close l w : option NetW :=
  x ← link l w;
  if sl_fd x <? 0 then Some w
  else
    let '(_, w) := env_do (EpollDelObj l (sl_fd x) (sl_events x)) w in
    upd_link l (set_fd (-1)) (set_nw_env (sys_close (sl_fd x) (nw_env w)) w).

(** The constructor of [CSockLink] and [CSockLink::Reset] *)
Definition new_link (now : Z) : CSockLink :=
  mkLink [] [] [] [] NET_PROTO_TCP 0 0 now (rw_cache_init false) None None (-1) 0 0 false.
Definition LinkReset l w : option NetW :=
  w ← Close l w;
  x ← link l w;
  w ← NotifyAll l (sl_errno x) w;
  x ← link l w;
  '(c, st) ← rw_cache_destroy (Some (sl_cache x)) (cache_view (sl_proto x) w);
  let w := put_view (sl_proto x) st w in
  w ← upd_link l (set_cache (default (sl_cache x) c)) w;
  w ← drop_block (sl_rsp x) w;
  let '(now, w) := env_do mt_time_ms w in
  upd_link l (fun x =>
    mkLink [] [] [] [] NET_PROTO_TCP 0 0 now (sl_cache x) None None (-1) 0 (sl_release x) (sl_linked x)) w.

(** [CSockLink::SetProtoType] *)
Definition SetLinkProto (type : Z) (x : CSockLink) : CSockLink :=
  let c := sl_cache x in
  set_cache (mkCache (rc_list c) (rc_len c) (rc_count c) true) (set_sl_proto type x).

(** ** The pools of objects *)

(** [FreeItem] for the three kinds. *)
Definition pool_put (p : ptr) (k : CRecyclePool) : CRecyclePool :=
  mkPool (rp_free_list k ++ [p]) (rp_expired k) (u32 (rp_count k + 1)).
Definition FreeNetItem h w : option NetW :=
  x ← item h w;
  if nh_linked x then None
  else
    let '(now, w) := env_do mt_time_ms w in
    upd_item h (fun x => set_nh_release now (set_nh_linked true x)) (set_item_pool (pool_put h (nw_item_pool w)) w).
Definition FreeSockLink l w : option NetW :=
  x ← link l w;
  if sl_linked x then None
  else
    let '(now, w) := env_do mt_time_ms w in
    upd_link l (fun x => set_sl_release now (set_sl_linked true x)) (set_link_pool (pool_put l (nw_link_pool w)) w).
Definition FreeDestLink d w : option NetW :=
  x ← dest d w;
  if dl_linked x then None
  else
    let '(now, w) := env_do mt_time_ms w in
    upd_dest d (fun x => set_dl_release now (set_dl_linked true x)) (set_dest_pool (pool_put d (nw_dest_pool w)) w).

(** [AllocItem] for the three kinds. *)
Definition pool_take (l : list ptr) (k : CRecyclePool) : CRecyclePool := mkPool l (rp_expired k) (u32 (rp_count k - 1)).
Definition AllocNetItem w : option (ptr * NetW) :=
  match rp_free_list (nw_item_pool w) with
  | h :: r => w ← upd_item h (set_nh_linked false) (set_item_pool (pool_take r (nw_item_pool w)) w); Some (h, w)
  | [] =>
      let h : ptr := fresh (dom (nw_items w) : gset ptr) in
      Some (h, set_items (<[h := new_handler]> (nw_items w)) w)
  end.
Definition AllocSockLink w : option (ptr * NetW) :=
  match rp_free_list (nw_link_pool w) with
  | l :: r => w ← upd_link l (set_sl_linked false) (set_link_pool (pool_take r (nw_link_pool w)) w); Some (l, w)
  | [] =>
      let l : ptr := fresh (dom (nw_links w) : gset ptr) in
      let '(now, w) := env_do mt_time_ms w in
      Some (l, set_links (<[l := new_link now]> (nw_links w)) w)
  end.
Definition new_dest : CDestLinks :=
  mkDest (5 * 60 * 1000) 0 0 NET_PROTO_UNDEF TYPE_CONN_SESSION 3 0 [] None 0 false.
Definition AllocDestLink w : option (ptr * NetW) :=
  match rp_free_list (nw_dest_pool w) with
  | d :: r => w ← upd_dest d (set_dl_linked false) (set_dest_pool (pool_take r (nw_dest_pool w)) w); Some (d, w)
  | [] =>
      let d : ptr := fresh (dom (nw_dests w) : gset ptr) in
      Some (d, set_dests (<[d := new_dest]> (nw_dests w)) w)
  end.

(** ** Destinations *)

(** [CDestLinks::FreeSockLink] *)
Definition DestFreeSockLink d (sock : ptr) w : option NetW :=
  x ← link sock w;
  if negb (bool_decide (sl_parents x = Some d)) then Some w
  else
    y ← dest d w;
    if bool_decide (sock ∈ dl_sock_list y) then
      w ← upd_dest d (fun y => set_curr_link (if 0 <? dl_curr_link y then dl_curr_link y - 1 else dl_curr_link y)
                                 (set_sock_list (filter (.≠ sock) (dl_sock_list y)) y)) w;
      w ← upd_link sock (set_sl_linked false) w;
      w ← LinkReset sock w;
      FreeSockLink sock w
    else None.

(** [CSockLink::Destroy] *)
Definition Destroy l w : option NetW :=
  x ← link l w;
  match sl_parents x with
  | None => w ← LinkReset l w; Some (set_links (delete l (nw_links w)) w)
  | Some d => DestFreeSockLink d l w
  end.

(** [CDestLinks::Reset] *)
Definition DestReset d w : option NetW :=
  y ← dest d w;
  w ← foreach Destroy (dl_sock_list y) w;
  let w := set_nw_env (stop_timer d (nw_env w)) w in
  upd_dest d (fun y => mkDest (5 * 60 * 1000) 0 0 NET_PROTO_UNDEF TYPE_CONN_SESSION 3 0 [] (dl_callback y) (dl_release y)
                         (dl_linked y)) w.

(** [CDestLinks::StartTimer] *)
Definition StartTimer d w : NetW := snd (env_do (start_timer d (60 * 1000)) w).

(** [GetSockLink]: a new link up to the maximum, then the links in turn. *)
Definition GetSockLink d w : option (ptr * NetW) :=
  y ← dest d w;
  if dl_curr_link y <? dl_max_links y then
    '(l, w) ← AllocSockLink w;
    w ← upd_link l (fun x => SetLinkProto (dl_proto y) (set_parents (Some d) x)) w;
    x ← link l w;
    if sl_linked x then None
    else
      w ← upd_link l (set_sl_linked true) w;
      w ← upd_dest d (fun y => set_curr_link (u32 (dl_curr_link y + 1)) (set_sock_list (dl_sock_list y ++ [l]) y)) w;
      Some (l, w)
  else
    match dl_sock_list y with
    | [] => None
    | l :: q => w ← upd_dest d (set_sock_list (q ++ [l])) w; Some (l, w)
    end.

(** [FindDestLink], [InsertDestLink], [RemoveDestLink] *)
Definition FindDestLink (key : dest_key) w : option (option ptr) := kt_find (ip_key w) (nw_ips w) key.
Definition InsertDestLink d w : NetW := set_ips (snd (kt_insert (ip_key w) (nw_ips w) d)) w.
Definition RemoveDestLink d w : option NetW :=
  r ← FindDestLink (ip_key w d) w;
  match r with
  | None => Some w
  | Some handler => t ← kt_remove (ip_key w) (nw_ips w) (ip_key w handler); Some (set_ips t w)
  end.

(** [FindCreateDest] *)
Definition copy_key (key : dest_key) (y : CDestLinks) : CDestLinks :=
  let '(ip, port, proto, conn) := key in
  mkDest (dl_timeout y) ip port proto conn (dl_max_links y) (dl_curr_link y) (dl_sock_list y) (dl_callback y) (dl_release y)
    (dl_linked y).
Definition FindCreateDest (key : dest_key) w : option (ptr * NetW) :=
  r ← FindDestLink key w;
  match r with
  | Some d => Some (d, w)
  | None =>
      '(d, w) ← AllocDestLink w;
      w ← upd_dest d (copy_key key) w;
      Some (d, InsertDestLink d (StartTimer d w))
  end.

(** [DeleteDestLink] *)
Definition DeleteDestLink d w : option NetW :=
  w ← RemoveDestLink d w;
  w ← DestReset d w;
  FreeDestLink d w.

(** [CDestLinks::timer_notify] *)
Definition expire_link (timeout now : Z) l w : option NetW :=
  x ← link l w;
  if u64 (sl_last_access x + timeout) <? now then Destroy l w else Some w.
Definition timer_notify d w : option NetW :=
  let '(now, w) := env_do mt_time_ms w in
  y ← dest d w;
  w ← foreach (expire_link (dl_timeout y) now) (dl_sock_list y) w;
  y ← dest d w;
  match dl_sock_list y with
  | [] => DeleteDestLink d w
  | _ :: _ => Some (StartTimer d w)
  end.

(** ** Sockets *)

(** [CreateSock] *)
Definition enable_event (ev : Z) (x : CSockLink) : CSockLink := set_events (Z.lor (sl_events x) ev) x.
Definition disable_event (ev : Z) (x : CSockLink) : CSockLink := set_events (Z.ldiff (sl_events x) ev) x.
Definition CreateSock l w : option (Z * NetW) :=
  x ← link l w;
  if 0 <? sl_fd x then Some (sl_fd x, w)
  else
    let '(fd, w) := env_do (sys_socket (sl_proto x)) w in
    w ← upd_link l (set_fd fd) w;
    if fd <? 0 then Some (-1, w)
    else
      let '(r, w) := env_do (sys_ioctl fd) w in
      if r <? 0 then
        w ← upd_link l (set_fd (-1)) (set_nw_env (sys_close fd (nw_env w)) w);
        Some (-2, w)
      else
        w ← upd_link l (fun x => if sl_proto x =? NET_PROTO_TCP then enable_event EPOLLOUT x else x) w;
        w ← upd_link l (enable_event EPOLLIN) w;
        x ← link l w;
        let '(ok, w) := env_do (EpollAddObj l fd (sl_events x)) w in
        if negb ok then
          w ← upd_link l (set_fd (-1)) (set_nw_env (sys_close fd (nw_env w)) w);
          Some (-3, w)
        else Some (fd, w).

(** [GetDestAddr] *)
Definition GetDestAddr l w : option (Z * Z) := x ← link l w; d ← sl_parents x; y ← dest d w; Some (dl_ip y, dl_port y).

(** [CSockLink::Connect] *)
Definition set_link_state (f : Z -> Z) (x : CSockLink) : CSockLink := set_sl_state (f (sl_state x)) x.
Definition Connect l w : option (bool * NetW) :=
  let '(now, w) := env_do mt_time_ms w in
  w ← upd_link l (set_last_access now) w;
  w ← upd_link l (fun x => if sl_proto x =? NET_PROTO_UDP then set_link_state (fun s => Z.lor s LINK_CONNECTED) x else x) w;
  x ← link l w;
  if negb (Z.land (sl_state x) LINK_CONNECTED =? 0) then Some (true, w)
  else if negb (Z.land (sl_state x) LINK_CONNECTING =? 0) then Some (false, w)
  else
    addr ← GetDestAddr l w;
    let '((ret, err), w) := env_do (fun e => let '(r, n, e) := sys_connect (sl_fd x) addr e in ((r, n), e)) w in
    if (ret <? 0) && negb (err =? EISCONN) then
      w ← upd_link l (set_link_state (fun s => Z.lor s LINK_CONNECTING)) w; Some (false, w)
    else
      w ← upd_link l (set_link_state (fun s => Z.lor s LINK_CONNECTED)) w; Some (true, w).

(** ** Sending *)

Definition would_block (err : Z) : bool := (err =? EINTR) || (err =? EAGAIN) || (err =? EINPROGRESS).

(** One datagram. *)
Definition sendto l (data : list Z) w : option (Z * Z * NetW) :=
  x ← link l w;
  addr ← GetDestAddr l w;
  let '((ret, err), w) := env_do (fun e => let '(r, n, e) := sys_sendto (sl_fd x) data addr e in ((r, n), e)) w in
  Some (ret, err, w).

(** A waiting handler is done with sending. *)
Definition notify_idle h w : option NetW := w ← NotifyThread h 0 w; SwitchToIdle h w.

(** [SendCacheUdp]: first the waiting requests; [inr] for its early returns. *)
Fixpoint send_udp_loop l (q : list ptr) w : option ((unit + Z) * NetW) :=
  match q with
  | [] => Some (inl tt, w)
  | h :: q =>
      '(buff, buff_len) ← GetSendData h w;
      match buff with
      | Some b =>
          if buff_len =? 0 then w ← notify_idle h w; send_udp_loop l q w
          else
            data ← bread 0 buff_len b;
            '(ret, err, w) ← sendto l data w;
            if ret =? -1 then Some (inr (if would_block err then 0 else -2), w)
            else w ← notify_idle h w; send_udp_loop l q w
      | None => w ← notify_idle h w; send_udp_loop l q w
      end
  end.
Definition SendCacheUdp l (data : option (list Z)) (len : Z) w : option (Z * NetW) :=
  x ← link l w;
  '(r, w) ← send_udp_loop l (sl_send_list x) w;
  match r with
  | inr ret => Some (ret, w)
  | inl _ =>
      match data with
      | Some b =>
          if len =? 0 then Some (0, w)
          else
            bytes ← bread 0 len b;
            '(ret, err, w) ← sendto l bytes w;
            if ret =? -1 then Some (if would_block err then 0 else -2, w) else Some (ret, w)
      | None => Some (0, w)
      end
  end.

(** [SendCacheTcp]: the vector of at most 64 requests, the caller's last. *)
Fixpoint collect_iov (n : nat) (q : list ptr) w : option (list (list Z)) :=
  match n, q with
  | S n, h :: q =>
      '(buff, buff_len) ← GetSendData h w;
      b ← iov_bytes buff buff_len;
      r ← collect_iov n q w; Some (b :: r)
  | _, _ => Some []
  end.
Fixpoint skip_sent (q : list ptr) (send_left : Z) w : option (Z * NetW) :=
  match q with
  | [] => Some (send_left, w)
  | h :: q =>
      '(n, w) ← SkipSendPos send_left h w;
      let send_left := u32 (send_left - n) in
      '(_, buff_len) ← GetSendData h w;
      w ← (if buff_len =? 0 then notify_idle h w else Some w);
      if send_left =? 0 then Some (send_left, w) else skip_sent q send_left w
  end.
Definition SendCacheTcp l (data : option (list Z)) (len : Z) w : option (Z * NetW) :=
  x ← link l w;
  iov ← collect_iov 64 (sl_send_list x) w;
  iov ← (match data with
         | Some b => if (length iov <? 64)%nat then bytes ← bread 0 len b; Some (iov ++ [bytes]) else Some iov
         | None => Some iov
         end);
  let '((bytes, err), w) := env_do (fun e => let '(r, n, e) := sys_writev (sl_fd x) iov e in ((r, n), e)) w in
  if bytes <? 0 then Some (if (err =? EAGAIN) || (err =? EINTR) then 0 else -1, w)
  else '(send_left, w) ← skip_sent (sl_send_list x) (u32 bytes) w; Some (i32 send_left, w).

(** [SendData] *)
Definition SendData l (data : option (list Z)) (len : Z) w : option (Z * NetW) :=
  let '(now, w) := env_do mt_time_ms w in
  w ← upd_link l (set_last_access now) w;
  x ← link l w;
  '(ret, w) ← (if sl_proto x =? NET_PROTO_UDP then SendCacheUdp l data len w else SendCacheTcp l data len w);
  x ← link l w;
  if ret <? i32 len then
    w ← upd_link l (enable_event EPOLLOUT) w;
    let '(_, w) := env_do (EpollCtrlAdd (sl_fd x) EPOLLOUT) w in Some (ret, w)
  else
    w ← upd_link l (disable_event EPOLLOUT) w;
    let '(_, w) := env_do (EpollCtrlDel (sl_fd x) EPOLLOUT) w in Some (ret, w).
End net.
