(* ===== verification/NetMain.v ===== *)
(** * The network layer of the micro threads: receiving, requests and the manager

    The rest of [src/src/sync_frame/micro_thread/mt_net.cpp]: what happens when a
    socket can be read or written, the request [SendRecv] cut at its waits, the
    recycling of free objects, and the helper through which users call the layer. *)

From Stdlib Require Import ZArith Lia.
From stdpp Require Import base gmap list option.
From S2P Require Import Prelude Bytes HashList KeyTable RwCache NetData NetOps.

(** Where a thread waits in [SendRecv], with the local variables it needs behind the
    wait. *)
Inductive sr_phase :=
| InConnect (conn : ptr)
| InSend
| InRecv.
Record sr_pc := mkPc {
  pc_handler : ptr;
  pc_start : Z;
  pc_timeout : Z;
  pc_phase : sr_phase;
}.
(** [SendRecv] returned, or the thread waits for so long at most. *)
Inductive sr_result :=
| SrDone (ret : Z)
| SrWait (timeout : Z) (pc : sr_pc).

Section net.
Context {E TS TI : Type} `{!NetEnv E, !KeyTable sess_key TS, !KeyTable dest_key TI}.
(** A callback reads the bytes and the session variable; it gives its result, the
    session variable and the length it asks for. *)
Context (check_session : ptr -> list Z -> Z -> Z * Z * Z).

Abbreviation NetW := (NetW E TS TI).
Implicit Types (w : NetW) (h l d t : ptr).

(** ** Dispatching what was received *)

(** [ExtendRecvRsp] *)
Definition rsp_alloc l w : option NetW :=
  x ← link l w;
  match sl_rsp x with
  | Some _ => Some w
  | None =>
      '(r, st) ← new_sk_buffer 512 (cache_view NET_PROTO_TCP w);
      upd_link l (set_sl_rsp r) (put_view NET_PROTO_TCP st w)
  end.
Definition ExtendRecvRsp l w : option NetW :=
  w ← rsp_alloc l w;
  x ← link l w;
  match sl_rsp x with
  | None => Some w
  | Some p =>
      b ← nw_bufs w !! p;
      '(n, d) ← read_cache_begin (Some (sl_cache x)) (sk_data_len b) (u32 (sk_size b - sk_data_len b))
                  (cache_view (sl_proto x) w);
      m ← bwrite (sk_data b + sk_data_len b) d (sk_mem b);
      Some (set_nw_bufs (<[p := set_span (sk_data b) (u32 (sk_data_len b + n)) (set_mem m b)]> (nw_bufs w)) w)
  end.

(** [GetSessionCallback] *)
Definition GetSessionCallback l w : option (option ptr * NetW) :=
  x ← link l w;
  cb ← (match sl_recv_list x with
        | [] => Some None
        | h :: _ => i ← item h w; Some (nh_callback i)
        end);
  match sl_parents x with
  | None => Some (cb, w)
  | Some d =>
      y ← dest d w;
      match cb with
      | Some _ => w ← upd_dest d (set_dflt_callback cb) w; Some (cb, w)
      | None => Some (dl_callback y, w)
      end
  end.

(** [CSockLink::FindSession] *)
Definition FindSession l (sid : Z) w : option (option ptr) :=
  x ← link l w;
  match sl_parents x with
  | None => Some None
  | Some d => y ← dest d w; FindNetItem (sid, dl_ip y, dl_port y, dl_proto y, dl_conn_type y) w
  end.

(** [cache_skip_data] on the cache of a link. *)
Definition skip_data l (n : Z) w : option NetW :=
  x ← link l w;
  '(c, st) ← cache_skip_data (Some (sl_cache x)) n (cache_view (sl_proto x) w);
  upd_link l (set_cache (default (sl_cache x) c)) (put_view (sl_proto x) st w).

(** The answer in the first [n] bytes goes to handler [h], with the block [p]. *)
Definition deliver_tcp l h (p : ptr) (n : Z) w : option NetW :=
  w ← skip_data l n w;
  w ← NotifyThread h 0 w;
  w ← SwitchToIdle h w;
  b ← nw_bufs w !! p;
  w ← SetRespBuff (Some p) h (set_nw_bufs (<[p := set_span (sk_data b) n b]> (nw_bufs w)) w);
  upd_link l (set_sl_rsp None) w.
(** Nobody waits for it. *)
Definition discard_tcp l (p : ptr) (n : Z) w : option NetW :=
  w ← skip_data l n w;
  w ← drop_block (Some p) w;
  upd_link l (set_sl_rsp None) w.

(** The callback wants more than the block holds; the result is [DispathTcp]'s if it
    stops here. *)
Definition extend_rsp l (p : ptr) (need_len : Z) w : option (option Z * NetW) :=
  b ← nw_bufs w !! p;
  let need_len := if (need_len =? 0) && (sk_data_len b =? sk_size b) then u32 (sk_size b * 2) else need_len in
  if (need_len <=? sk_size b) || (100 * 1024 * 1024 <? need_len) then Some (Some 0, w)
  else
    '(r, st) ← reserve_sk_buffer (Some p) need_len (cache_view NET_PROTO_TCP w);
    w ← upd_link l (set_sl_rsp r) (put_view NET_PROTO_TCP st w);
    match r with
    | None => w ← upd_link l (set_errno RC_MEM_ERROR) w; Some (Some (-3), w)
    | Some q =>
        b ← nw_bufs w !! q;
        x ← link l w;
        Some (if rc_len (sl_cache x) <=? sk_data_len b then Some 0 else None, w)
    end.

(** The loop of [DispathTcp]. *)
Fixpoint dispath_tcp_loop (fuel : nat) (cb : ptr) l (sid : Z) w : option (Z * NetW) :=
  match fuel with
  | O => None
  | S fuel =>
      x ← link l w;
      if negb (0 <? rc_len (sl_cache x)) then Some (0, w)
      else
        w ← ExtendRecvRsp l w;
        x ← link l w;
        match sl_rsp x with
        | None => w ← upd_link l (set_errno RC_MEM_ERROR) w; Some (-3, w)
        | Some p =>
            b ← nw_bufs w !! p;
            data ← bread (sk_data b) (sk_data_len b) (sk_mem b);
            let '(ret, sid, need_len) := check_session cb data sid in
            if ret <? 0 then w ← upd_link l (set_errno RC_CHECK_PKG_FAIL) w; Some (-1, w)
            else if ret =? 0 then
              '(r, w) ← extend_rsp l p need_len w;
              match r with Some r => Some (r, w) | None => dispath_tcp_loop fuel cb l sid w end
            else if i32 (rc_len (sl_cache x)) <? ret then Some (0, w)
            else
              s ← FindSession l sid w;
              w ← (match s with None => discard_tcp l p ret w | Some h => deliver_tcp l h p ret w end);
              dispath_tcp_loop fuel cb l sid w
        end
  end.

(** [DispathTcp]; with [n] bytes in the cache every round either takes a byte out or
    lengthens the block, which holds at most those bytes. *)
Definition tcp_fuel (n : Z) : nat := S (Z.to_nat (n * (n + 2) + n + 1)).
Definition DispathTcp l w : option (Z * NetW) :=
  '(cb, w) ← GetSessionCallback l w;
  match cb with
  | None => Some (-1, w)
  | Some cb => x ← link l w; dispath_tcp_loop (tcp_fuel (rc_len (sl_cache x))) cb l 0 w
  end.

(** The loop of [DispathUdp]: every round removes the first block. *)
Definition deliver_udp l h (block : ptr) w : option NetW :=
  w ← NotifyThread h 0 w;
  w ← SwitchToIdle h w;
  x ← link l w;
  '(_, c) ← cache_skip_first_buffer (Some (sl_cache x)) (cache_view (sl_proto x) w);
  w ← upd_link l (set_cache c) w;
  SetRespBuff (Some block) h w.
Fixpoint dispath_udp_loop (fuel : nat) (cb : option ptr) l (sid : Z) w : option (Z * NetW) :=
  match fuel with
  | O => None
  | S fuel =>
      x ← link l w;
      match rc_list (sl_cache x) with
      | [] => Some (0, w)
      | block :: _ =>
          b ← nw_bufs w !! block;
          match cb with
          | None => w ← skip_data l (sk_data_len b) w; dispath_udp_loop fuel cb l sid w
          | Some f =>
              data ← bread (sk_data b) (sk_data_len b) (sk_mem b);
              let '(ret, sid, _) := check_session f data sid in
              if (ret <=? 0) || (i32 (sk_data_len b) <? ret) then
                w ← skip_data l (sk_data_len b) w; dispath_udp_loop fuel cb l sid w
              else
                s ← FindSession l sid w;
                w ← (match s with
                     | None => skip_data l (sk_data_len b) w
                     | Some h => deliver_udp l h block w
                     end);
                dispath_udp_loop fuel cb l sid w
          end
      end
  end.

(** [DispathUdp] and [RecvDispath] *)
Definition DispathUdp l w : option (Z * NetW) :=
  x ← link l w;
  cb ← (match sl_recv_list x with
        | [] => Some None
        | h :: _ => i ← item h w; Some (nh_callback i)
        end);
  dispath_udp_loop (S (length (rc_list (sl_cache x)))) cb l 0 w.
Definition RecvDispath l w : option (Z * NetW) :=
  x ← link l w;
  if sl_proto x =? NET_PROTO_UDP then DispathUdp l w else DispathTcp l w.

(** ** Events *)

(** The receiving half of [InputNotify]. *)
Definition recv_link l w : option (Z * NetW) :=
  x ← link l w;
  '(ret, c, st) ← (if sl_proto x =? NET_PROTO_UDP
                   then cache_udp_recv (Some (sl_cache x)) (sl_fd x) (cache_view (sl_proto x) w)
                   else cache_tcp_recv (Some (sl_cache x)) (sl_fd x) (cache_view (sl_proto x) w));
  w ← upd_link l (set_cache (default (sl_cache x) c)) (put_view (sl_proto x) st w);
  Some (ret, w).

(** [InputNotify] *)
Definition InputNotify l w : option (Z * NetW) :=
  let '(now, w) := env_do mt_time_ms w in
  w ← upd_link l (set_last_access now) w;
  '(ret, w) ← recv_link l w;
  if ret <? 0 then
    w ← upd_link l (set_errno (if ret =? - SK_ERR_NEED_CLOSE then RC_REMOTE_CLOSED else RC_RECV_FAIL)) w;
    w ← Destroy l w; Some (-1, w)
  else
    '(ret, w) ← RecvDispath l w;
    if ret <? 0 then w ← Destroy l w; Some (-2, w) else Some (0, w).

(** [OutputNotify] *)
Definition connect_done l w : option NetW :=
  x ← link l w;
  if Z.land (sl_state x) LINK_CONNECTING =? 0 then Some w
  else
    w ← upd_link l (set_link_state (fun s => Z.lor (Z.ldiff s LINK_CONNECTING) LINK_CONNECTED)) w;
    foreach notify_idle (sl_conn_list x) w.
Definition OutputNotify l w : option (Z * NetW) :=
  let '(now, w) := env_do mt_time_ms w in
  w ← upd_link l (set_last_access now) w;
  w ← connect_done l w;
  x ← link l w;
  '(ret, w) ← (if sl_proto x =? NET_PROTO_UDP then SendCacheUdp l None 0 w else SendCacheTcp l None 0 w);
  if ret <? 0 then
    w ← upd_link l (set_errno RC_SEND_FAIL) w;
    w ← Destroy l w; Some (ret, w)
  else
    x ← link l w;
    match sl_send_list x with
    | [] =>
        w ← upd_link l (disable_event EPOLLOUT) w;
        let '(_, w) := env_do (EpollCtrlDel (sl_fd x) EPOLLOUT) w in Some (0, w)
    | _ :: _ => Some (0, w)
    end.

(** [HangupNotify] *)
Definition HangupNotify l w : option (Z * NetW) :=
  w ← upd_link l (set_errno RC_EPOLL_ERROR) w;
  w ← Destroy l w; Some (-1, w).

(** ** Requests *)

(** [MtFrame::WaitNotify] puts the thread into the I/O queue. *)
Definition WaitNotify t w : NetW := set_io (nw_io w ++ [t]) w.

(** [CheckParams] *)
Definition CheckParams t h w : option (Z * NetW) :=
  x ← item h w;
  if (negb (bool_decide (is_Some (nh_req_data x)))) || (nh_req_len x =? 0) then Some (RC_INVALID_PARAM, w)
  else if (nh_ip x =? 0) || (nh_port x =? 0) then Some (RC_INVALID_PARAM, w)
  else if nh_conn_type x =? TYPE_CONN_SESSION then
    if (negb (bool_decide (is_Some (nh_callback x)))) || (nh_sid x =? 0) then Some (RC_INVALID_PARAM, w)
    else
      '(ok, w) ← RegistSession t h w;
      if (ok : bool) then Some (0, w) else Some (RC_CONFLICT_SID, w)
  else Some (0, w).

(** [GetConnLink] *)
Definition GetConnLink h w : option (Z * NetW) :=
  x ← item h w;
  '(d, w) ← FindCreateDest (nh_ip x, nh_port x, nh_proto x, nh_conn_type x) w;
  '(l, w) ← GetSockLink d w;
  w ← Link h l w;
  Some (0, w).

(** [WaitConnect]: [inl] for its result, [inr] when the thread waits. *)
Definition WaitConnect_begin t h w : option ((Z + ptr) * NetW) :=
  x ← item h w;
  match nh_conn x with
  | None => Some (inl RC_MEM_ERROR, w)
  | Some conn =>
      '(fd, w) ← CreateSock conn w;
      if fd <? 0 then Some (inl RC_ERR_SOCKET, w)
      else
        '(ok, w) ← Connect conn w;
        if (ok : bool) then Some (inl RC_SUCCESS, w)
        else w ← SwitchToConn h w; Some (inr conn, WaitNotify t w)
  end.
Definition WaitConnect_end h (conn : ptr) w : option (Z * NetW) :=
  w ← SwitchToIdle h w;
  x ← item h w;
  if negb (nh_err x =? 0) then Some (nh_err x, w)
  else
    y ← link conn w;
    Some (if Z.land (sl_state y) LINK_CONNECTED =? 0 then RC_CONNECT_FAIL else 0, w).

(** [WaitSend] *)
Definition WaitSend_begin t h w : option ((Z + unit) * NetW) :=
  x ← item h w;
  match nh_conn x with
  | None => Some (inl RC_MEM_ERROR, w)
  | Some conn =>
      '(ret, w) ← SendData conn (nh_req_data x) (nh_req_len x) w;
      if ret <? 0 then Some (inl RC_SEND_FAIL, w)
      else
        '(_, w) ← SkipSendPos ret h w;
        x ← item h w;
        if nh_req_len x =? 0 then Some (inl RC_SUCCESS, w)
        else w ← SwitchToSend h w; Some (inr tt, WaitNotify t w)
  end.
Definition WaitSend_end h w : option (Z * NetW) :=
  w ← SwitchToIdle h w;
  x ← item h w;
  Some (if negb (nh_err x =? 0) then nh_err x else if nh_req_len x =? 0 then 0 else RC_SEND_FAIL, w).

(** [WaitRecv] *)
Definition WaitRecv_begin t h w : option ((Z + unit) * NetW) :=
  x ← item h w;
  match nh_conn x with
  | None => Some (inl RC_MEM_ERROR, w)
  | Some conn =>
      if nh_conn_type x =? TYPE_CONN_SENDONLY then Some (inl 0, w)
      else w ← SwitchToRecv h w; Some (inr tt, WaitNotify t w)
  end.
Definition WaitRecv_end h w : option (Z * NetW) :=
  w ← SwitchToIdle h w;
  x ← item h w;
  n ← (match nh_rsp x with None => Some 0 | Some p => b ← nw_bufs w !! p; Some (sk_data_len b) end);
  Some (if 0 <? n then 0 else RC_RECV_FAIL, w).

(** The end of [SendRecv]: [EXIT_LABEL]. *)
Definition exit_label h (ret : Z) w : option (sr_result * NetW) :=
  w ← Unlink h w;
  w ← UnRegistSession h w;
  Some (SrDone ret, w).

(** The time left of a request. *)
Definition time_left (start timeout : Z) w : Z :=
  let cost_time := u64 (GetLastClock (nw_env w) - start) in
  if u32 cost_time <? timeout then timeout - u32 cost_time else 0.

(** The parts of [SendRecv] behind each wait. *)
Definition after_recv h (ret : Z) w : option (sr_result * NetW) := exit_label h (if ret <? 0 then ret else 0) w.
Definition after_send t h (start timeout ret : Z) w : option (sr_result * NetW) :=
  if ret <? 0 then exit_label h ret w
  else
    let left := time_left start timeout w in
    '(r, w) ← WaitRecv_begin t h w;
    match r with
    | inl ret => after_recv h ret w
    | inr _ => Some (SrWait left (mkPc h start timeout InRecv), w)
    end.
Definition after_connect t h (start timeout ret : Z) w : option (sr_result * NetW) :=
  if ret <? 0 then exit_label h ret w
  else
    let left := time_left start timeout w in
    '(r, w) ← WaitSend_begin t h w;
    match r with
    | inl ret => after_send t h start timeout ret w
    | inr _ => Some (SrWait left (mkPc h start timeout InSend), w)
    end.

(** [SendRecv] up to its first wait. *)
Definition set_request (data : option (list Z)) (len : Z) (x : CNetHandler) : CNetHandler :=
  mkHandler (nh_thread x) (nh_proto x) (nh_conn_type x) (nh_ip x) (nh_port x) (nh_sid x) (nh_callback x) (nh_state x)
    (nh_err x) (nh_conn x) (nh_send_pos x) len data (nh_rsp x) (nh_release x) (nh_linked x).
Definition SendRecv t h (data : option (list Z)) (len timeout : Z) w : option (sr_result * NetW) :=
  let start := GetLastClock (nw_env w) in
  w ← upd_item h (set_request data len) w;
  '(ret, w) ← CheckParams t h w;
  if ret <? 0 then exit_label h ret w
  else
    '(ret, w) ← GetConnLink h w;
    if ret <? 0 then exit_label h ret w
    else
      '(r, w) ← WaitConnect_begin t h w;
      match r with
      | inl ret => after_connect t h start timeout ret w
      | inr conn => Some (SrWait timeout (mkPc h start timeout (InConnect conn)), w)
      end.

(** The thread [t] runs again behind its wait. *)
Definition SendRecv_resume t (pc : sr_pc) w : option (sr_result * NetW) :=
  let h := pc_handler pc in
  match pc_phase pc with
  | InConnect conn => '(ret, w) ← WaitConnect_end h conn w; after_connect t h (pc_start pc) (pc_timeout pc) ret w
  | InSend => '(ret, w) ← WaitSend_end h w; after_send t h (pc_start pc) (pc_timeout pc) ret w
  | InRecv => '(ret, w) ← WaitRecv_end h w; after_recv h ret w
  end.

(** ** The helper and the manager *)

(** [CNetHelper]: constructor, destructor and the setters, and [GetRspLen]. *)
Definition new_CNetHelper w : option (ptr * NetW) := AllocNetItem w.
Definition delete_CNetHelper h w : option NetW := w ← ItemReset h w; FreeNetItem h w.
Definition SetDestAddress (ip port : Z) (x : CNetHandler) : CNetHandler :=
  mkHandler (nh_thread x) (nh_proto x) (nh_conn_type x) ip port (nh_sid x) (nh_callback x) (nh_state x)
    (nh_err x) (nh_conn x) (nh_send_pos x) (nh_req_len x) (nh_req_data x) (nh_rsp x) (nh_release x) (nh_linked x).
Definition GetRspLen h w : option Z :=
  x ← item h w; match nh_rsp x with None => Some 0 | Some p => b ← nw_bufs w !! p; Some (sk_data_len b) end.

(** [RecycleItem] for the three kinds, and [RecycleObjs]. *)
Fixpoint recycle_items (q : list ptr) (now : Z) w : option NetW :=
  match q with
  | [] => Some w
  | h :: q =>
      x ← item h w;
      if u64 (now - nh_release x) <? rp_expired (nw_item_pool w) then Some w
      else
        let w := set_item_pool (pool_take q (nw_item_pool w)) w in
        w ← ItemReset h w;
        recycle_items q now (set_items (delete h (nw_items w)) w)
  end.
Fixpoint recycle_links (q : list ptr) (now : Z) w : option NetW :=
  match q with
  | [] => Some w
  | l :: q =>
      x ← link l w;
      if u64 (now - sl_release x) <? rp_expired (nw_link_pool w) then Some w
      else
        let w := set_link_pool (pool_take q (nw_link_pool w)) w in
        w ← LinkReset l w;
        recycle_links q now (set_links (delete l (nw_links w)) w)
  end.
Fixpoint recycle_dests (q : list ptr) (now : Z) w : option NetW :=
  match q with
  | [] => Some w
  | d :: q =>
      x ← dest d w;
      if u64 (now - dl_release x) <? rp_expired (nw_dest_pool w) then Some w
      else
        let w := set_dest_pool (pool_take q (nw_dest_pool w)) w in
        w ← DestReset d w;
        recycle_dests q now (set_dests (delete d (nw_dests w)) w)
  end.
Definition recycle_pool (proto now_s : Z) w : option NetW :=
  st ← recycle_sk_buffer now_s (cache_view proto w); Some (put_view proto st w).
Definition RecycleObjs (now : Z) w : option NetW :=
  let now_s := u32 (now / 1000) in
  w ← recycle_pool NET_PROTO_UDP now_s w;
  w ← recycle_pool NET_PROTO_TCP now_s w;
  w ← recycle_items (rp_free_list (nw_item_pool w)) now w;
  w ← recycle_links (rp_free_list (nw_link_pool w)) now w;
  recycle_dests (rp_free_list (nw_dest_pool w)) now w.

(** The constructor of [CNetMgr]. *)
Definition new_CNetMgr (e : E) : NetW :=
  mkNet e ∅ ∅ ∅ (kt_new 100000) (kt_new 100000) ∅ (sk_buffer_mng_init 60 SK_DFLT_BUFF_SIZE) (sk_buffer_mng_init 60 4096)
    new_pool new_pool new_pool [] [].
End net.
