(* ===== verification/NetInv.v ===== *)
(** * The network layer: the invariant

    What the queues, the tables, the pools and the blocks of [NetData] have in common at
    any time between two calls.  The invariant looks at a world through [view_of], which
    forgets the fields it does not depend on; an operation is described by what it
    does to the view. *)

From Stdlib Require Import ZArith Lia.
From stdpp Require Import base gmap list option fin_maps.
From S2P Require Import Prelude Bytes HashList KeyTable RwCache NetData NetOps.

(** A map seen through a function. *)
Lemma fmap_eq_lookup {A B} (f : A -> B) (m m' : gmap ptr A) k x :
  f <$> m' = f <$> m -> m' !! k = Some x -> exists y, m !! k = Some y /\ f y = f x.
Proof.
  intros H E. assert (E1 : f <$> (m' !! k) = f <$> (m !! k)) by (by rewrite <- !lookup_fmap, H).
  rewrite E in E1. destruct (m !! k) as [y|]; [|done]. injection E1 as E1. by exists y.
Qed.
Lemma fmap_insert_same {A B} (f : A -> B) (m : gmap ptr A) k x y : m !! k = Some x -> f y = f x -> f <$> <[k := y]> m = f <$> m.
Proof. intros H E. rewrite fmap_insert, insert_id; [done|]. by rewrite lookup_fmap, H, E. Qed.

(** ** Queues and states of handlers *)

Inductive qtype := QConn | QSend | QRecv | QIdle.
#[export] Instance qtype_eq_dec : EqDecision qtype.
Proof. solve_decision. Defined.
Definition q_flag (q : qtype) : Z :=
  match q with QConn => STATE_IN_CONNECT | QSend => STATE_IN_SEND | QRecv => STATE_IN_RECV | QIdle => STATE_IN_IDLE end.
Definition q_list (q : qtype) : Z :=
  match q with QConn => LINK_CONN_LIST | QSend => LINK_SEND_LIST | QRecv => LINK_RECV_LIST | QIdle => LINK_IDLE_LIST end.

(** The flags of a handler that is registered or not and waits in one queue or in none. *)
Definition mkstate (sess : bool) (q : option qtype) : Z :=
  (if sess then STATE_IN_SESSION else 0) + match q with None => 0 | Some q => q_flag q end.

(** The four queues of a link. *)
Record queues := mkQ { qu_conn : list ptr; qu_send : list ptr; qu_recv : list ptr; qu_idle : list ptr }.
Definition qget (q : qtype) (x : queues) : list ptr :=
  match q with QConn => qu_conn x | QSend => qu_send x | QRecv => qu_recv x | QIdle => qu_idle x end.
Definition qset (q : qtype) (l : list ptr) (x : queues) : queues :=
  match q with
  | QConn => mkQ l (qu_send x) (qu_recv x) (qu_idle x)
  | QSend => mkQ (qu_conn x) l (qu_recv x) (qu_idle x)
  | QRecv => mkQ (qu_conn x) (qu_send x) l (qu_idle x)
  | QIdle => mkQ (qu_conn x) (qu_send x) (qu_recv x) l
  end.
Definition no_queues : queues := mkQ [] [] [] [].

Lemma qget_qset q q' l x : qget q (qset q' l x) = if decide (q = q') then l else qget q x.
Proof. by destruct q, q'. Qed.

(** Putting [h] at the end of queue [q], and taking it out. *)
Definition q_append (q : qtype) (h : ptr) (x : queues) : queues := qset q (qget q x ++ [h]) x.
Definition q_remove (q : qtype) (h : ptr) (x : queues) : queues := qset q (filter (.≠ h) (qget q x)) x.

Lemma q_remove_in q q' h p x : p ∈ qget q (q_remove q' h x) <-> p ∈ qget q x /\ (q = q' -> p <> h).
Proof.
  unfold q_remove. rewrite qget_qset. case_decide; subst; [rewrite list_elem_of_filter|]; naive_solver.
Qed.
Lemma q_append_in q q' h p x : p ∈ qget q (q_append q' h x) <-> p ∈ qget q x \/ (q = q' /\ p = h).
Proof.
  unfold q_append. rewrite qget_qset. case_decide; subst; [rewrite elem_of_app, list_elem_of_singleton|]; naive_solver.
Qed.
Lemma q_remove_nodup q q' h x : NoDup (qget q x) -> NoDup (qget q (q_remove q' h x)).
Proof. unfold q_remove. rewrite qget_qset. case_decide; [subst; apply list.NoDup_filter|done]. Qed.
Lemma q_append_nodup q q' h x : NoDup (qget q x) -> (q = q' -> h ∉ qget q x) -> NoDup (qget q (q_append q' h x)).
Proof.
  unfold q_append. rewrite qget_qset. case_decide; [subst|done]. intros Hn Hh. apply list.NoDup_app. split; [done|].
  split; [|apply NoDup_singleton]. intros y Hy ->%list_elem_of_singleton. by destruct (Hh eq_refl).
Qed.

(** ** The view *)

Record item_view := mkIV { iv_state : Z; iv_conn : option ptr; iv_linked : bool; iv_key : sess_key; iv_rsp : option ptr }.
Record link_view := mkLV { lv_queues : queues; lv_parents : option ptr; lv_linked : bool; lv_proto : Z; lv_cache : TRWCache;
  lv_rsp : option ptr; lv_blank : bool }.
Record dest_view := mkDV { dv_key : dest_key; dv_socks : list ptr; dv_curr : Z; dv_max : Z; dv_linked : bool }.
Definition item_v (x : CNetHandler) : item_view := mkIV (nh_state x) (nh_conn x) (nh_linked x) (handler_key x) (nh_rsp x).
Definition link_q (x : CSockLink) : queues := mkQ (sl_conn_list x) (sl_send_list x) (sl_recv_list x) (sl_idle_list x).
(** A link without a socket, as [Reset] leaves it. *)
Definition blank (x : CSockLink) : bool :=
  (sl_fd x =? -1) && (sl_errno x =? 0) && (sl_state x =? 0) && (sl_proto x =? NET_PROTO_TCP).
Definition link_v (x : CSockLink) : link_view :=
  mkLV (link_q x) (sl_parents x) (sl_linked x) (sl_proto x) (sl_cache x) (sl_rsp x) (blank x).
Definition dest_v (x : CDestLinks) : dest_view :=
  mkDV (dest_key_of x) (dl_sock_list x) (dl_curr_link x) (dl_max_links x) (dl_linked x).

Record view {TS TI : Type} := mkView {
  v_items : gmap ptr item_view;
  v_links : gmap ptr link_view;
  v_dests : gmap ptr dest_view;
  v_sess : TS;
  v_ips : TI;
  v_bufs : gmap ptr TSkBuffer;
  v_udp : TSkBuffMng;
  v_tcp : TSkBuffMng;
  v_free_items : list ptr;
  v_free_links : list ptr;
  v_free_dests : list ptr;
}.
Arguments view : clear implicits.

Definition iv_set_queue (q : option qtype) (c : option ptr) (b : bool) (sess : bool) (x : item_view) : item_view :=
  mkIV (mkstate sess q) c b (iv_key x) (iv_rsp x).
Definition lv_set_queues (q : queues) (x : link_view) : link_view :=
  mkLV q (lv_parents x) (lv_linked x) (lv_proto x) (lv_cache x) (lv_rsp x) (lv_blank x).

Section inv.
Context {TS TI : Type} `{!KeyTable sess_key TS, !KeyTable dest_key TI}.
Context (sess_rep : (ptr -> sess_key) -> TS -> gmap sess_key ptr -> Prop) `{!KeyTableLaws sess_key TS sess_rep}.
Context (ip_rep : (ptr -> dest_key) -> TI -> gmap dest_key ptr -> Prop) `{!KeyTableLaws dest_key TI ip_rep}.

Abbreviation view := (view TS TI).
Implicit Types (v : view) (h l d : ptr).

(** A handler waits in exactly the queue its flags and its link say; the free ones
    are in the pool, the others in no list. *)
Record queues_ok (I : gmap ptr item_view) (L : gmap ptr link_view) (free : list ptr) : Prop := {
  qo_item h x : I !! h = Some x -> exists sess,
    (iv_conn x = None /\ iv_state x = mkstate sess None /\ iv_linked x = bool_decide (h ∈ free)) \/
    (exists l q y, iv_conn x = Some l /\ iv_state x = mkstate sess (Some q) /\ iv_linked x = true /\ (h ∉ free) /\
       L !! l = Some y /\ h ∈ qget q (lv_queues y));
  qo_queue l y q h : L !! l = Some y -> h ∈ qget q (lv_queues y) ->
    exists x sess, I !! h = Some x /\ iv_conn x = Some l /\ iv_state x = mkstate sess (Some q);
  qo_nodup l y q : L !! l = Some y -> NoDup (qget q (lv_queues y));
  qo_free : NoDup free;
  qo_free_item h : h ∈ free -> exists x, I !! h = Some x /\ iv_conn x = None /\ iv_state x = 0;
}.

(** A link belongs to a destination or is in the pool; a free one is blank and empty.
    A destination has at most [_max_links] links, and counts them.  While a link goes
    from one to the other it is the [hole]. *)
Record links_ok (hole : option ptr) (L : gmap ptr link_view) (D : gmap ptr dest_view) (free : list ptr) : Prop := {
  lo_hole l : hole = Some l -> (l ∉ free) /\ is_Some (L !! l) /\ forall d y, D !! d = Some y -> l ∉ dv_socks y;
  lo_link l x : L !! l = Some x -> hole <> Some l -> lv_linked x = true /\
    match lv_parents x with
    | Some d => (l ∉ free) /\ exists y, D !! d = Some y /\ l ∈ dv_socks y
    | None => l ∈ free
    end;
  lo_free : NoDup free;
  lo_free_link l : l ∈ free -> exists x, L !! l = Some x /\ lv_parents x = None /\ lv_queues x = no_queues /\
    rc_list (lv_cache x) = [] /\ lv_rsp x = None /\ lv_blank x = true;
  lo_dest d y : D !! d = Some y -> NoDup (dv_socks y) /\ dv_curr y = Z.of_nat (length (dv_socks y)) /\
    dv_max y = 3 /\ dv_curr y <= dv_max y;
  lo_sock d y l : D !! d = Some y -> l ∈ dv_socks y -> exists x, L !! l = Some x /\ lv_parents x = Some d;
}.

(** The table of sessions holds the registered handlers. *)
Definition key_of_item (I : gmap ptr item_view) (h : ptr) : sess_key := default (0, 0, 0, 0, 0) (iv_key <$> I !! h).
Definition registered (x : item_view) : bool := Z.testbit (iv_state x) 0.
Record sess_ok (I : gmap ptr item_view) (t : TS) (M : gmap sess_key ptr) : Prop := {
  se_rep : sess_rep (key_of_item I) t M;
  se_in k h : M !! k = Some h -> exists x, I !! h = Some x /\ registered x = true /\ iv_key x = k;
  se_reg h x : I !! h = Some x -> registered x = true -> M !! iv_key x = Some h;
}.

(** The table of addresses holds the destinations in use. *)
Definition key_of_dest (D : gmap ptr dest_view) (d : ptr) : dest_key := default (0, 0, 0, 0) (dv_key <$> D !! d).
Record dests_ok (D : gmap ptr dest_view) (t : TI) (M : gmap dest_key ptr) (free : list ptr) : Prop := {
  do_rep : ip_rep (key_of_dest D) t M;
  do_in k d : M !! k = Some d -> exists y, D !! d = Some y /\ dv_linked y = false /\ dv_key y = k;
  do_dest d y : D !! d = Some y ->
    if dv_linked y then d ∈ free /\ dv_socks y = [] else (d ∉ free) /\ M !! dv_key y = Some d;
  do_free : NoDup free;
  do_free_dest d : d ∈ free -> exists y, D !! d = Some y /\ dv_linked y = true;
}.

(** The blocks in use: those of the links' caches and of answers not yet complete, and
    the answers of handlers. *)
Definition lists_of (m : gmap ptr (list ptr)) : list ptr := map_to_list m ≫= snd.
Definition option_blocks (b : option ptr) : list ptr := match b with Some p => [p] | None => [] end.
Definition link_blocks (x : link_view) : list ptr := rc_list (lv_cache x) ++ option_blocks (lv_rsp x).
Definition item_blocks (x : item_view) : list ptr := option_blocks (iv_rsp x).
Definition all_blocks (I : gmap ptr item_view) (L : gmap ptr link_view) : list ptr :=
  lists_of (link_blocks <$> L) ++ lists_of (item_blocks <$> I).

Definition pool_of (proto : Z) v : TSkBuffMng := if proto =? NET_PROTO_TCP then v_tcp v else v_udp v.
Definition other_free (proto : Z) v : list ptr := bm_free_list (if proto =? NET_PROTO_TCP then v_udp v else v_tcp v).

(** Blocks and a pool as a state of [RwCache]; the environment does not matter. *)
Definition mem_state (bufs : gmap ptr TSkBuffer) (pool : TSkBuffMng) : CacheState := mkCs tt bufs pool.
Definition mem_bytes (bufs : gmap ptr TSkBuffer) (l : list ptr) : list Z := content (mem_state bufs (mkMng [] 0 0 0)) l.

(** A cache counts its bytes; the beginning of an answer is a copy of the beginning of
    the cache. *)
Definition max_cached : Z := 2 ^ 31.
Record cache_ok (bufs : gmap ptr TSkBuffer) (x : link_view) : Prop := {
  co_pool : rc_list (lv_cache x) <> [] \/ lv_parents x <> None -> rc_pool (lv_cache x) = true;
  co_len : rc_len (lv_cache x) = blen (mem_bytes bufs (rc_list (lv_cache x)));
  co_small : blen (mem_bytes bufs (rc_list (lv_cache x))) < max_cached;
  co_blocks : Z.of_nat (length (rc_list (lv_cache x))) < max_cached;
  co_count : rc_count (lv_cache x) = Z.of_nat (length (rc_list (lv_cache x)));
  co_rsp p : lv_rsp x = Some p -> lv_proto x <> NET_PROTO_UDP /\ exists b, bufs !! p = Some b /\ sk_data b = 0 /\
    buf_bytes b `prefix_of` mem_bytes bufs (rc_list (lv_cache x));
}.

Record blocks_ok v : Prop := {
  bk_store proto : store_ok (mem_state (v_bufs v) (pool_of proto v)) (all_blocks (v_items v) (v_links v) ++ other_free proto v);
  bk_cache l x : v_links v !! l = Some x -> cache_ok (v_bufs v) x;
}.

Record wf (hole : option ptr) v : Prop := {
  wf_queues : queues_ok (v_items v) (v_links v) (v_free_items v);
  wf_links : links_ok hole (v_links v) (v_dests v) (v_free_links v);
  wf_sess : exists M, sess_ok (v_items v) (v_sess v) M;
  wf_dests : exists M, dests_ok (v_dests v) (v_ips v) M (v_free_dests v);
  wf_blocks : blocks_ok v;
}.

(** ** Maps of lists *)

Lemma lists_of_take m k x : m !! k = Some x -> lists_of m ≡ₚ x ++ lists_of (delete k m).
Proof. intros H. unfold lists_of. rewrite <- (map_to_list_delete m k x H). done. Qed.
Lemma lists_of_insert m k x : lists_of (<[k := x]> m) ≡ₚ x ++ lists_of (delete k m).
Proof.
  rewrite (lists_of_take _ k x) by apply lookup_insert_eq. by rewrite delete_insert_eq.
Qed.
Lemma lists_of_in m p : p ∈ lists_of m <-> exists k x, m !! k = Some x /\ p ∈ x.
Proof.
  unfold lists_of. rewrite list_elem_of_bind. split.
  - intros ([k x] & Hp & Hk%elem_of_map_to_list). by exists k, x.
  - intros (k & x & Hk & Hp). exists (k, x). split; [done|by apply elem_of_map_to_list].
Qed.

(** The blocks seen from link [l]: those of its cache and the others. *)
Definition other_blocks l (x : link_view) (I : gmap ptr item_view) (L : gmap ptr link_view) : list ptr :=
  option_blocks (lv_rsp x) ++ lists_of (delete l (link_blocks <$> L)) ++ lists_of (item_blocks <$> I).
Lemma all_blocks_link I L l x : L !! l = Some x -> all_blocks I L ≡ₚ rc_list (lv_cache x) ++ other_blocks l x I L.
Proof.
  intros H. unfold all_blocks, other_blocks. rewrite (lists_of_take _ l (link_blocks x)) by (by rewrite lookup_fmap, H).
  unfold link_blocks at 1. by rewrite !app_assoc.
Qed.

(** ** Changes of the view that keep the invariant *)

Definition set_v_items (m : gmap ptr item_view) v : view :=
  mkView _ _ m (v_links v) (v_dests v) (v_sess v) (v_ips v) (v_bufs v) (v_udp v) (v_tcp v) (v_free_items v) (v_free_links v) (v_free_dests v).
Definition set_v_links (m : gmap ptr link_view) v : view :=
  mkView _ _ (v_items v) m (v_dests v) (v_sess v) (v_ips v) (v_bufs v) (v_udp v) (v_tcp v) (v_free_items v) (v_free_links v) (v_free_dests v).

Lemma key_of_item_same (I I' : gmap ptr item_view) : (iv_key <$> I') = (iv_key <$> I) -> forall h, key_of_item I' h = key_of_item I h.
Proof. intros H h. unfold key_of_item. rewrite <- !lookup_fmap. by rewrite H. Qed.

Lemma sess_ok_same I I' t M : (iv_key <$> I') = (iv_key <$> I) -> (registered <$> I') = (registered <$> I) ->
  sess_ok I t M -> sess_ok I' t M.
Proof.
  intros Hk Hr [H1 H2 H3].
  assert (Hx : forall h x (J J' : gmap ptr item_view), (iv_key <$> J') = (iv_key <$> J) -> (registered <$> J') = (registered <$> J) ->
    J' !! h = Some x -> exists y, J !! h = Some y /\ iv_key y = iv_key x /\ registered y = registered x).
  { intros h x J J' Jk Jr E. destruct (fmap_eq_lookup _ _ _ _ _ Jk E) as (y & Ey & Ek).
    destruct (fmap_eq_lookup _ _ _ _ _ Jr E) as (y' & Ey' & Er). exists y. simplify_eq. done. }
  split.
  - eapply kt_agree; [exact H1|]. intros k h _. by apply key_of_item_same.
  - intros k h Hm. destruct (H2 k h Hm) as (x & E & Er & Ek). destruct (Hx h x I' I (eq_sym Hk) (eq_sym Hr) E) as (x' & E' & E1 & E2).
    exists x'. split; [done|]. split; congruence.
  - intros h x' E' Er. destruct (Hx h x' I I' Hk Hr E') as (x & E & E1 & E2). rewrite <- E1. apply H3; [done|congruence].
Qed.

(** The queues of link [l] are replaced. *)
Lemma links_ok_queues hole L D free l x q : links_ok hole L D free -> L !! l = Some x -> (l ∈ free -> q = no_queues) ->
  links_ok hole (<[l := lv_set_queues q x]> L) D free.
Proof.
  intros [H0 H1 H2 H3 H4 H5] Hl Hq. split; try done.
  - intros l' Hh. destruct (H0 l' Hh) as (A1 & A2 & A3). split_and!; try done. rewrite lookup_insert. by case_decide.
  - intros l' x'. rewrite lookup_insert_Some. intros [[<- <-]|[_ E]]; [apply (H1 _ _ Hl)|by apply H1].
  - intros l' Hf. destruct (H3 l' Hf) as (x' & E & R). destruct (decide (l = l')) as [<-|Hne].
    + exists (lv_set_queues q x). rewrite lookup_insert_eq. split; [done|]. simplify_eq. cbn. rewrite (Hq Hf). tauto.
    + exists x'. by rewrite lookup_insert_ne.
  - intros d y l' Hd Hin. destruct (H5 d y l' Hd Hin) as (x' & E & R). destruct (decide (l = l')) as [<-|Hne].
    + exists (lv_set_queues q x). rewrite lookup_insert_eq. simplify_eq. done.
    + exists x'. by rewrite lookup_insert_ne.
Qed.

(** Only the queues of links matter to the handlers; only their owners and the free
    links to the destinations. *)
Lemma queues_ok_links I L L' free : (lv_queues <$> L') = (lv_queues <$> L) -> queues_ok I L free -> queues_ok I L' free.
Proof.
  intros H [H1 H2 H3 H4 H5]. split; try done.
  - intros h x E. destruct (H1 h x E) as [sess [R|(l & q & y & R1 & R2 & R3 & R4 & El & Hq)]]; exists sess; [by left|right].
    destruct (fmap_eq_lookup lv_queues L' L l y (eq_sym H) El) as (y' & E' & Eq). exists l, q, y'. by rewrite Eq.
  - intros l y q h El Hq. destruct (fmap_eq_lookup lv_queues L L' l y H El) as (y' & E' & Eq). apply (H2 l y' q h E'). by rewrite Eq.
  - intros l y q El. destruct (fmap_eq_lookup lv_queues L L' l y H El) as (y' & E' & Eq). rewrite <- Eq. by eapply H3.
Qed.
Lemma links_ok_same hole L L' D free : (lv_parents <$> L') = (lv_parents <$> L) -> (lv_linked <$> L') = (lv_linked <$> L) ->
  (forall l, l ∈ free -> L' !! l = L !! l) -> links_ok hole L D free -> links_ok hole L' D free.
Proof.
  intros Hp Hk Hf [H0 H1 H2 H3 H4 H5]. split; try done.
  - intros l Hh. destruct (H0 l Hh) as (A1 & [x Ex] & A3). split_and!; try done.
    destruct (fmap_eq_lookup _ _ _ _ _ (eq_sym Hp) Ex) as (x' & E' & _). by exists x'.
  - intros l x' E' Hh. destruct (fmap_eq_lookup _ _ _ _ _ Hp E') as (x & Ex & Ep).
    destruct (fmap_eq_lookup _ _ _ _ _ Hk E') as (x2 & Ex2 & Ek). simplify_eq.
    destruct (H1 l x Ex Hh) as [A1 A2]. rewrite <- Ek, <- Ep. by split.
  - intros l Hl. rewrite (Hf l Hl). by apply H3.
  - intros d y l Hd Hl. destruct (H5 d y l Hd Hl) as (x & Ex & Ep).
    destruct (fmap_eq_lookup _ _ _ _ _ (eq_sym Hp) Ex) as (x' & E' & Ep'). exists x'. split; [done|congruence].
Qed.

Lemma links_ok_set hole L D free l x y : links_ok hole L D free -> L !! l = Some x -> (l ∉ free) ->
  (hole = Some l \/ (lv_parents y = lv_parents x /\ lv_linked y = lv_linked x)) -> links_ok hole (<[l := y]> L) D free.
Proof.
  intros H Hl Hf [->|[Hp Hk]].
  - destruct H as [H0 H1 H2 H3 H4 H5]. destruct (H0 l eq_refl) as (A1 & A2 & A3). split; try done.
    + intros l' [= <-]. split_and!; try done. by rewrite lookup_insert_eq.
    + intros l' x' E Hne. rewrite lookup_insert_ne in E by congruence. by apply H1.
    + intros l' Hin. rewrite lookup_insert_ne by (by intros ->). by apply H3.
    + intros d z l' Hd Hin. rewrite lookup_insert_ne; [by apply (H5 d z)|]. intros <-. by apply (A3 d z).
  - apply (links_ok_same hole L); [by eapply fmap_insert_same|by eapply fmap_insert_same| |done].
    intros l' Hin. rewrite lookup_insert_ne; [done|]. by intros ->.
Qed.

Lemma blocks_ok_same v v' : (item_blocks <$> v_items v') = (item_blocks <$> v_items v) ->
  (forall l x', v_links v' !! l = Some x' -> exists x q, v_links v !! l = Some x /\ x' = lv_set_queues q x) ->
  (link_blocks <$> v_links v') = (link_blocks <$> v_links v) ->
  v_bufs v' = v_bufs v -> v_udp v' = v_udp v -> v_tcp v' = v_tcp v -> blocks_ok v -> blocks_ok v'.
Proof.
  intros HI HL HL' Hb Hu Ht [H1 H2]. split.
  - intros proto. specialize (H1 proto). unfold all_blocks, other_free, pool_of in *. by rewrite HI, HL', Hb, Hu, Ht.
  - intros l x' E. destruct (HL l x' E) as (x & q & E' & ->). rewrite Hb. destruct (H2 l x E'). by split.
Qed.

(** ** Moving a handler *)

Lemma mkstate_inj sess q sess' q' : mkstate sess q = mkstate sess' q' -> sess = sess' /\ q = q'.
Proof. destruct sess, sess', q as [[]|], q' as [[]|]; cbv; intros H; try discriminate H; done. Qed.
Lemma mkstate_zero sess q : mkstate sess q = 0 <-> sess = false /\ q = None.
Proof. destruct sess, q as [[]|]; cbv; split; intros H; try discriminate H; try destruct H; done. Qed.
Lemma registered_mkstate sess q : Z.testbit (mkstate sess q) 0 = sess.
Proof. by destruct sess, q as [[]|]. Qed.

(** Where a handler is, after its view changed: nowhere or in queue [q] of [l]. *)
Definition placed (h l : ptr) (x : item_view) (Q : queues) : Prop :=
  (iv_conn x = None /\ (exists sess, iv_state x = mkstate sess None) /\ iv_linked x = false /\ forall q, h ∉ qget q Q) \/
  (exists sess q, iv_conn x = Some l /\ iv_state x = mkstate sess (Some q) /\ iv_linked x = true /\
     forall q', h ∈ qget q' Q <-> q' = q).

Lemma queues_change I L free h l x x' y Q : queues_ok I L free -> I !! h = Some x -> L !! l = Some y -> h ∉ free ->
  (iv_conn x = None \/ iv_conn x = Some l) ->
  (forall p q, p <> h -> p ∈ qget q Q <-> p ∈ qget q (lv_queues y)) -> (forall q, NoDup (qget q Q)) ->
  placed h l x' Q -> queues_ok (<[h := x']> I) (<[l := lv_set_queues Q y]> L) free.
Proof.
  intros [H1 H2 H3 H4 H5] Hh Hl Hf Hc HQ Hn Hp.
  assert (Hin : forall l' y' q, L !! l' = Some y' -> h ∈ qget q (lv_queues y') -> l' = l).
  { intros l' y' q E Hq. destruct (H2 _ _ _ _ E Hq) as (x0 & sess & E0 & Ec & _). destruct Hc; congruence. }
  split.
  - intros p z. rewrite lookup_insert_Some. intros [[<- <-]|[Hne E]].
    + destruct Hp as [(Pc & [sess Ps] & Pl & _)|(sess & q & Pc & Ps & Pl & Pq)]; exists sess.
      * left. rewrite bool_decide_false by done. auto.
      * right. exists l, q, (lv_set_queues Q y). rewrite lookup_insert_eq. split_and!; try done. by apply Pq.
    + destruct (H1 p z E) as [sess [R|(l' & q & y' & Ec & Es & Elk & Hfp & El & Hq)]]; exists sess; [by left|right].
      destruct (decide (l' = l)) as [->|Hne'].
      * exists l, q, (lv_set_queues Q y). rewrite lookup_insert_eq. split_and!; try done. simplify_eq. by apply HQ.
      * exists l', q, y'. by rewrite lookup_insert_ne.
  - intros l' y' q p. rewrite lookup_insert_Some. intros [[<- <-]|[Hne E]] Hq.
    + cbn in Hq. destruct (decide (p = h)) as [->|Hne].
      * destruct Hp as [(_ & _ & _ & Pq)|(sess & q0 & Pc & Ps & Pl & Pq)]; [by destruct (Pq q)|].
        apply Pq in Hq as ->. exists x', sess. by rewrite lookup_insert_eq.
      * apply HQ in Hq; [|done]. rewrite lookup_insert_ne by done. by eapply H2.
    + destruct (H2 _ _ _ _ E Hq) as (x0 & sess & E0 & R). exists x0, sess.
      rewrite lookup_insert_ne; [done|]. intros <-. apply Hne. symmetry. by eapply Hin.
  - intros l' y' q. rewrite lookup_insert_Some. intros [[<- <-]|[_ E]]; [apply Hn|by eapply H3].
  - done.
  - intros p Hpf. destruct (H5 p Hpf) as (x0 & E0 & R). exists x0. rewrite lookup_insert_ne; [done|]. by intros ->.
Qed.

(** Queues do not depend on keys and answers. *)
Definition iv_place (x : item_view) : option ptr * Z * bool := (iv_conn x, iv_state x, iv_linked x).
Lemma queues_ok_items I I' L free : iv_place <$> I' = iv_place <$> I -> queues_ok I L free -> queues_ok I' L free.
Proof.
  intros H [H1 H2 H3 H4 H5].
  assert (Hx : forall h x (J J' : gmap ptr item_view), iv_place <$> J' = iv_place <$> J -> J' !! h = Some x ->
    exists y, J !! h = Some y /\ iv_conn y = iv_conn x /\ iv_state y = iv_state x /\ iv_linked y = iv_linked x).
  { intros h x J J' HJ Ex. destruct (fmap_eq_lookup iv_place _ _ _ _ HJ Ex) as (y & Ey & Eq). injection Eq as E1 E2 E3. by exists y. }
  split; try done.
  - intros h x' E'. destruct (Hx h x' I I' H E') as (x & Ex & <- & <- & <-). by apply (H1 h x).
  - intros l y q h Hl Hin. destruct (H2 l y q h Hl Hin) as (x & s & Ex & Ec & Es).
    destruct (Hx h x I' I (eq_sym H) Ex) as (x' & E' & E1 & E2 & _). exists x', s. split; [done|]. split; congruence.
  - intros h Hf. destruct (H5 h Hf) as (x & Ex & Ec & Es). destruct (Hx h x I' I (eq_sym H) Ex) as (x' & E' & E1 & E2 & _).
    exists x'. split; [done|]. split; congruence.
Qed.

(** A handler in a queue of a link, seen from the handler. *)
Lemma queued_at I L free h x l : queues_ok I L free -> I !! h = Some x -> iv_conn x = Some l ->
  exists sess q y, iv_state x = mkstate sess (Some q) /\ iv_linked x = true /\ (h ∉ free) /\ L !! l = Some y /\
    forall q', h ∈ qget q' (lv_queues y) <-> q' = q.
Proof.
  intros Q Hh Hc. destruct (qo_item _ _ _ Q h x Hh) as (sess & [(Hc' & _)|(l' & q & y & Hc' & Hs & Hl & Hf & E & Hq)]); [congruence|].
  rewrite Hc in Hc'. injection Hc' as <-. exists sess, q, y. split_and!; try done. intros q'. split; [|by intros ->].
  intros Hq'. destruct (qo_queue _ _ _ Q _ _ _ _ E Hq') as (x0 & sess0 & E0 & _ & Hs'). simplify_eq.
  rewrite Hs in Hs'. by apply mkstate_inj in Hs' as [_ [= ->]].
Qed.
Lemma detached I L free h x : queues_ok I L free -> I !! h = Some x -> iv_conn x = None ->
  exists sess, iv_state x = mkstate sess None /\ iv_linked x = bool_decide (h ∈ free) /\
    forall l y q, L !! l = Some y -> h ∉ qget q (lv_queues y).
Proof.
  intros Q Hh Hc. destruct (qo_item _ _ _ Q h x Hh) as (sess & [(_ & Hs & Hl)|(l' & q & y & Hc' & _)]); [|congruence].
  exists sess. split_and!; try done. intros l y q E Hq. destruct (qo_queue _ _ _ Q _ _ _ _ E Hq) as (x0 & ? & E0 & ? & _). congruence.
Qed.

End inv.

Implicit Types (h l d : ptr).

(** Removing the one occurrence of an element. *)
Lemma filter_other l (q : list ptr) : l ∉ q -> filter (.≠ l) q = q.
Proof.
  induction q as [|z q IH]; intros Hl; [done|]. apply not_elem_of_cons in Hl as [Hz Hq].
  rewrite filter_cons_True by congruence. by rewrite IH.
Qed.
Lemma length_remove_one l (q : list ptr) : NoDup q -> l ∈ q -> Z.of_nat (length (filter (.≠ l) q)) = Z.of_nat (length q) - 1.
Proof.
  induction q as [|z q IH]; intros Hn Hin; [by apply elem_of_nil in Hin|].
  pose proof (NoDup_cons_1_1 _ _ Hn) as Hz. apply NoDup_cons_1_2 in Hn. destruct (decide (z = l)) as [->|Hne].
  - rewrite filter_cons_False, filter_other by tauto. cbn [length]. lia.
  - rewrite filter_cons_True by done. cbn [length]. rewrite Nat2Z.inj_succ, IH; [lia|done|].
    apply elem_of_cons in Hin as [->|?]; done.
Qed.

(** ** Links between destinations and the pool *)

(** A link leaves its destination. *)
Lemma links_leave_dest L D free l x d y y' : links_ok None L D free -> L !! l = Some x -> lv_parents x = Some d -> D !! d = Some y ->
  dv_socks y' = filter (.≠ l) (dv_socks y) -> dv_curr y' = dv_curr y - 1 -> dv_max y' = dv_max y ->
  l ∈ dv_socks y /\ (l ∉ free) /\ 0 < dv_curr y /\ links_ok (Some l) L (<[d := y']> D) free.
Proof.
  intros [H0 H1 H2 H3 H4 H5] Hl Hp Hd Hs Hc Hm. destruct (H1 l x Hl ltac:(done)) as [_ Hx]. rewrite Hp in Hx.
  destruct Hx as (Hf & y0 & Hd0 & Hin). rewrite Hd in Hd0. injection Hd0 as <-. destruct (H4 d y Hd) as (N1 & N2 & N3 & N4).
  pose proof (length_remove_one l (dv_socks y) N1 Hin) as Hlen.
  assert (Hpos : 0 < dv_curr y) by (rewrite N2; destruct (dv_socks y); [by apply elem_of_nil in Hin|simpl; lia]).
  split; [done|]. split; [done|]. split; [done|]. split.
  - intros l' [= <-]. split_and!; [done|by exists x|]. intros d' z. rewrite lookup_insert_Some.
    intros [[<- <-]|[Hne Hz]] Hin'; [rewrite Hs, list_elem_of_filter in Hin'; tauto|].
    destruct (H5 d' z l Hz Hin') as (x' & E & Ep). congruence.
  - intros l' x' E Hne. destruct (H1 l' x' E ltac:(done)) as [A1 A2]. split; [done|]. destruct (lv_parents x') as [d'|]; [|done].
    destruct A2 as (B1 & z & Hz & B2). split; [done|]. destruct (decide (d' = d)) as [->|Hne'].
    + exists y'. rewrite lookup_insert_eq. split; [done|]. rewrite Hs, list_elem_of_filter. simplify_eq. split; [|done]. congruence.
    + exists z. by rewrite lookup_insert_ne.
  - done.
  - done.
  - intros d' z. rewrite lookup_insert_Some. intros [[<- <-]|[_ Hz]]; [|by apply (H4 d')].
    rewrite Hs, Hc, Hm, Hlen. split_and!; [by apply list.NoDup_filter|lia|done|lia].
  - intros d' z l'. rewrite lookup_insert_Some. intros [[<- <-]|[_ Hz]] Hin'; [|by apply (H5 d' z)].
    rewrite Hs, list_elem_of_filter in Hin'. apply (H5 d y l' Hd). tauto.
Qed.

(** The link of the hole enters the pool, or a destination, or is deleted. *)
Lemma links_enter_pool L D free l x y : links_ok (Some l) L D free -> L !! l = Some x -> lv_linked y = true -> lv_parents y = None ->
  lv_queues y = no_queues -> rc_list (lv_cache y) = [] -> lv_rsp y = None -> lv_blank y = true ->
  links_ok None (<[l := y]> L) D (free ++ [l]).
Proof.
  intros [H0 H1 H2 H3 H4 H5] Hl Y1 Y2 Y3 Y4 Y5 Y6. destruct (H0 l eq_refl) as (A1 & _ & A3). split; try done.
  - intros l' x'. rewrite lookup_insert_Some. intros [[<- <-]|[Hne E]] _.
    + split; [done|]. rewrite Y2. set_solver.
    + destruct (H1 l' x' E ltac:(congruence)) as [B1 B2]. split; [done|]. destruct (lv_parents x'); [|set_solver].
      destruct B2 as [? ?]. split; [|done]. rewrite elem_of_app, list_elem_of_singleton. intros [?| ->]; done.
  - apply list.NoDup_app. split; [done|]. split; [|apply NoDup_singleton]. intros z Hz ->%list_elem_of_singleton. done.
  - intros l' [Hin| ->%list_elem_of_singleton]%elem_of_app.
    + rewrite lookup_insert_ne by (by intros ->). by apply H3.
    + exists y. by rewrite lookup_insert_eq.
  - intros d z l' Hd Hin. rewrite lookup_insert_ne; [by apply (H5 d z)|]. intros <-. by apply (A3 d z).
Qed.
Lemma links_delete L D free l : links_ok (Some l) L D free -> links_ok None (delete l L) D free.
Proof.
  intros [H0 H1 H2 H3 H4 H5]. destruct (H0 l eq_refl) as (A1 & _ & A3). split; try done.
  - intros l' x' [Hne E]%lookup_delete_Some _. apply H1; [done|congruence].
  - intros l' Hin. rewrite lookup_delete_ne by (by intros ->). by apply H3.
  - intros d z l' Hd Hin. rewrite lookup_delete_ne; [by apply (H5 d z)|]. intros <-. by apply (A3 d z).
Qed.
Lemma links_enter_dest L D free l x y d z z' : links_ok (Some l) L D free -> L !! l = Some x -> lv_linked y = true ->
  lv_parents y = Some d -> D !! d = Some z -> dv_socks z' = dv_socks z ++ [l] -> dv_curr z' = dv_curr z + 1 -> dv_max z' = dv_max z ->
  dv_curr z < dv_max z -> links_ok None (<[l := y]> L) (<[d := z']> D) free.
Proof.
  intros [H0 H1 H2 H3 H4 H5] Hl Y1 Y2 Hd Z1 Z2 Z3 Hlt. destruct (H0 l eq_refl) as (A1 & _ & A3). split; try done.
  - intros l' x'. rewrite lookup_insert_Some. intros [[<- <-]|[Hne E]] _.
    + split; [done|]. rewrite Y2. split; [done|]. exists z'. rewrite lookup_insert_eq, Z1. set_solver.
    + destruct (H1 l' x' E ltac:(congruence)) as [B1 B2]. split; [done|]. destruct (lv_parents x') as [d'|]; [|done].
      destruct B2 as (? & u & Hu & Hin). split; [done|]. destruct (decide (d' = d)) as [->|?].
      * exists z'. rewrite lookup_insert_eq, Z1. simplify_eq. set_solver.
      * exists u. by rewrite lookup_insert_ne.
  - intros l' Hin. rewrite lookup_insert_ne by (by intros ->). by apply H3.
  - intros d' u. rewrite lookup_insert_Some. destruct (H4 d z Hd) as (N1 & N2 & N3 & N4).
    intros [[<- <-]|[_ Hu]]; [|by apply (H4 d')]. rewrite Z1, Z2, Z3, length_app. cbn [length].
    split_and!; [|lia|done|lia]. apply list.NoDup_app. split; [done|]. split; [|apply NoDup_singleton].
    intros v Hv ->%list_elem_of_singleton. by apply (A3 d z).
  - intros d' u l'. rewrite lookup_insert_Some. intros [[<- <-]|[_ Hu]] Hin.
    + rewrite Z1, elem_of_app, list_elem_of_singleton in Hin. destruct (decide (l' = l)) as [->|Hne].
      * exists y. by rewrite lookup_insert_eq.
      * rewrite lookup_insert_ne by done. apply (H5 d z); [done|]. tauto.
    + rewrite lookup_insert_ne; [by apply (H5 d' u)|]. intros <-. by apply (A3 d' u).
Qed.

(** A link comes out of the pool, or is new. *)
Lemma links_leave_pool L D free l x y : links_ok None L D (l :: free) -> L !! l = Some x ->
  links_ok (Some l) (<[l := y]> L) D free.
Proof.
  intros [H0 H1 H2 H3 H4 H5] Hl. pose proof (NoDup_cons_1_1 _ _ H2) as Hlf. apply NoDup_cons_1_2 in H2.
  destruct (H3 l ltac:(by left)) as (x0 & E0 & Ep & _). rewrite Hl in E0. injection E0 as <-.
  assert (Hnd : forall d z, D !! d = Some z -> l ∉ dv_socks z).
  { intros d z Hd Hin. destruct (H5 d z l Hd Hin) as (x' & E & Ep'). congruence. }
  split; try done.
  - intros l' [= <-]. rewrite lookup_insert_eq. split_and!; [done|by exists y|done].
  - intros l' x' E Hne. rewrite lookup_insert_ne in E by congruence. destruct (H1 l' x' E ltac:(done)) as [B1 B2]. split; [done|].
    destruct (lv_parents x'); [set_solver|]. apply elem_of_cons in B2 as [->|?]; done.
  - intros l' Hin. rewrite lookup_insert_ne by (by intros ->). apply H3. by right.
  - intros d z l' Hd Hin. rewrite lookup_insert_ne; [by apply (H5 d z)|]. intros <-. by apply (Hnd d z).
Qed.
Lemma links_new L D free l y : links_ok None L D free -> L !! l = None -> links_ok (Some l) (<[l := y]> L) D free.
Proof.
  intros [H0 H1 H2 H3 H4 H5] Hl. assert (Hlf : l ∉ free) by (intros Hin; destruct (H3 l Hin) as (? & E & _); congruence).
  assert (Hnd : forall d z, D !! d = Some z -> l ∉ dv_socks z).
  { intros d z Hd Hin. destruct (H5 d z l Hd Hin) as (x' & E & Ep'). congruence. }
  split; try done.
  - intros l' [= <-]. rewrite lookup_insert_eq. split_and!; [done|by exists y|done].
  - intros l' x' E Hne. rewrite lookup_insert_ne in E by congruence. by apply H1.
  - intros l' Hin. rewrite lookup_insert_ne by (by intros ->). by apply H3.
  - intros d z l' Hd Hin. rewrite lookup_insert_ne; [by apply (H5 d z)|]. intros <-. by apply (Hnd d z).
Qed.

(** The links of a destination in another order. *)
Lemma links_dest_perm hole L D free d y y' : links_ok hole L D free -> D !! d = Some y -> dv_socks y ≡ₚ dv_socks y' ->
  dv_curr y' = dv_curr y -> dv_max y' = dv_max y -> links_ok hole L (<[d := y']> D) free.
Proof.
  intros [H0 H1 H2 H3 H4 H5] Hd Hs Hc Hm. split; try done.
  - intros l Hl. destruct (H0 l Hl) as (A1 & A2 & A3). split_and!; try done. intros d' z. rewrite lookup_insert_Some.
    intros [[<- <-]|[_ Hz]]; [rewrite <- Hs; by apply (A3 d)|by apply (A3 d')].
  - intros l x Hx Hh. destruct (H1 l x Hx Hh) as [B1 B2]. split; [done|]. destruct (lv_parents x) as [d'|]; [|done].
    destruct B2 as (? & z & Hz & Hin). split; [done|]. destruct (decide (d' = d)) as [->|Hne].
    + exists y'. rewrite lookup_insert_eq, <- Hs. split; [done|]. rewrite Hd in Hz. by injection Hz as <-.
    + exists z. by rewrite lookup_insert_ne.
  - intros d' z. rewrite lookup_insert_Some. intros [[<- <-]|[_ Hz]]; [|by apply (H4 d')]. destruct (H4 d y Hd) as (N1 & N2 & N3 & N4).
    rewrite <- Hs, Hc, Hm. done.
  - intros d' z l. rewrite lookup_insert_Some. intros [[<- <-]|[_ Hz]]; [|by apply (H5 d')]. rewrite <- Hs. by apply (H5 d y).
Qed.

(** The handlers when a link without handlers comes or goes. *)
Lemma queues_link_new I L free l y : queues_ok I L free -> L !! l = None -> lv_queues y = no_queues -> queues_ok I (<[l := y]> L) free.
Proof.
  intros [H1 H2 H3 H4 H5] Hl Hq. assert (Hno : forall q (p : ptr), p ∉ qget q (lv_queues y)).
  { intros q p. rewrite Hq. destruct q; apply not_elem_of_nil. }
  split; try done.
  - intros h x E. destruct (H1 h x E) as [sess [R|(l' & q & z & R1 & R2 & R3 & R4 & El & Hin)]]; exists sess; [by left|right].
    exists l', q, z. rewrite lookup_insert_ne by congruence. done.
  - intros l' z q h. rewrite lookup_insert_Some. intros [[<- <-]|[_ E]] Hin; [by apply Hno in Hin|by eapply H2].
  - intros l' z q. rewrite lookup_insert_Some. intros [[<- <-]|[_ E]]; [|by eapply H3]. rewrite Hq. destruct q; constructor.
Qed.
Lemma queues_link_delete I L free l y : queues_ok I L free -> L !! l = Some y -> lv_queues y = no_queues -> queues_ok I (delete l L) free.
Proof.
  intros [H1 H2 H3 H4 H5] Hl Hq. split; try done.
  - intros h x E. destruct (H1 h x E) as [sess [R|(l' & q & z & R1 & R2 & R3 & R4 & El & Hin)]]; exists sess; [by left|right].
    exists l', q, z. rewrite lookup_delete_ne; [done|]. intros <-. rewrite Hl in El. injection El as <-. rewrite Hq in Hin.
    destruct q; by apply elem_of_nil in Hin.
  - intros l' z q h [_ E]%lookup_delete_Some. by eapply H2.
  - intros l' z q [_ E]%lookup_delete_Some. by eapply H3.
Qed.

Section dests.
Context {TI : Type} `{!KeyTable dest_key TI}.
Context (ip_rep : (ptr -> dest_key) -> TI -> gmap dest_key ptr -> Prop) `{!KeyTableLaws dest_key TI ip_rep}.

(** The table of destinations does not depend on their links. *)
Lemma dests_ok_socks D t M free d y y' : dests_ok ip_rep D t M free -> D !! d = Some y -> dv_key y' = dv_key y -> dv_linked y' = dv_linked y ->
  (dv_linked y = true -> dv_socks y' = []) -> dests_ok ip_rep (<[d := y']> D) t M free.
Proof.
  intros [H1 H2 H3 H4 H5] Hd Hk Hl Hs. split; try done.
  - eapply kt_agree; [exact H1|]. intros k p _. unfold key_of_dest. rewrite lookup_insert. case_decide; [subst|done]. rewrite Hd. cbn. by rewrite Hk.
  - intros k p Hp. destruct (H2 k p Hp) as (z & Hz & Z1 & Z2). rewrite lookup_insert. case_decide; [subst|by eauto].
    exists y'. rewrite Hd in Hz. injection Hz as <-. split; [done|]. split; congruence.
  - intros p z. rewrite lookup_insert_Some. intros [[<- <-]|[_ Hz]]; [|by apply H3]. specialize (H3 d y Hd). rewrite Hl, Hk.
    destruct (dv_linked y); [|done]. split; [apply H3|by apply Hs].
  - intros p Hp. destruct (H5 p Hp) as (z & Hz & Z1). rewrite lookup_insert. case_decide; [subst|by eauto].
    exists y'. rewrite Hd in Hz. injection Hz as <-. split; [done|congruence].
Qed.

(** A destination without links changes, or leaves the table for the pool. *)
Lemma links_dest_empty hole L D free d y y' : links_ok hole L D free -> D !! d = Some y -> dv_socks y = [] ->
  dv_socks y' = [] -> dv_curr y' = 0 -> dv_max y' = 3 -> links_ok hole L (<[d := y']> D) free.
Proof.
  intros [H0 H1 H2 H3 H4 H5] Hd Hs Hs' Hc Hm. split; try done.
  - intros l Hl. destruct (H0 l Hl) as (A1 & A2 & A3). split_and!; try done. intros d' z. rewrite lookup_insert_Some.
    intros [[<- <-]|[_ Hz]]; [rewrite Hs'; apply not_elem_of_nil|by apply (A3 d')].
  - intros l x Hx Hh. destruct (H1 l x Hx Hh) as [B1 B2]. split; [done|]. destruct (lv_parents x) as [d'|]; [|done].
    destruct B2 as (? & z & Hz & Hin). split; [done|]. exists z. rewrite lookup_insert_ne; [done|]. intros <-.
    rewrite Hd in Hz. injection Hz as <-. rewrite Hs in Hin. by apply elem_of_nil in Hin.
  - intros d' z. rewrite lookup_insert_Some. intros [[<- <-]|[_ Hz]]; [|by apply (H4 d')]. rewrite Hs', Hc, Hm.
    split_and!; [constructor|done|done|lia].
  - intros d' z l. rewrite lookup_insert_Some. intros [[<- <-]|[_ Hz]]; [|by apply (H5 d')]. rewrite Hs'. by intros ?%elem_of_nil.
Qed.
Lemma dests_ok_remove D t M free d y y' : dests_ok ip_rep D t M free -> D !! d = Some y -> dv_linked y = false -> dv_linked y' = true ->
  dv_socks y' = [] -> forall kf, (forall p, kf p = key_of_dest D p) -> exists t', kt_remove kf t (dv_key y) = Some t' /\
    dests_ok ip_rep (<[d := y']> D) t' (delete (dv_key y) M) (free ++ [d]).
Proof.
  intros [H1 H2 H3 H4 H5] Hd Hl Hl' Hs kf Hkf. destruct (kt_remove_ok kf t M (dv_key y)) as (t' & E & R).
  { eapply kt_agree; [exact H1|]. intros k p _. by rewrite Hkf. }
  exists t'. split; [done|].
  pose proof (H3 d y Hd) as Hd3. rewrite Hl in Hd3. destruct Hd3 as [Hf HM].
  assert (Hother : forall k p, delete (dv_key y) M !! k = Some p -> p <> d /\ M !! k = Some p).
  { intros k p [Hne Hk]%lookup_delete_Some. split; [|done]. intros ->. destruct (H2 k d Hk) as (z & Hz & _ & Ez).
    rewrite Hd in Hz. injection Hz as <-. done. }
  split.
  - eapply kt_agree; [exact R|]. intros k p Hk. destruct (Hother k p Hk) as [Hne _]. rewrite Hkf. unfold key_of_dest. by rewrite lookup_insert_ne.
  - intros k p Hk. destruct (Hother k p Hk) as [Hne Hk']. rewrite lookup_insert_ne by done. by apply H2.
  - intros p z. rewrite lookup_insert_Some. intros [[<- <-]|[Hne Hz]].
    + rewrite Hl', Hs, elem_of_app, list_elem_of_singleton. tauto.
    + specialize (H3 p z Hz). destruct (dv_linked z); [rewrite elem_of_app; tauto|]. destruct H3 as [A1 A2].
      rewrite elem_of_app, list_elem_of_singleton. split; [intros [?|?]; congruence|]. rewrite lookup_delete_ne; [done|].
      intros E'. rewrite <- E', HM in A2. congruence.
  - apply list.NoDup_app. split; [done|]. split; [|apply NoDup_singleton]. intros p Hp ->%list_elem_of_singleton. done.
  - intros p [Hp| ->%list_elem_of_singleton]%elem_of_app.
    + rewrite lookup_insert_ne by (by intros ->). by apply H5.
    + exists y'. by rewrite lookup_insert_eq.
Qed.

(** A free destination goes into the table under a new key; [curr] is its record, or it
    is new. *)
Lemma dests_ok_insert D t M free d y : dests_ok ip_rep D t M free -> dv_linked y = false -> (d ∉ free) ->
  (forall z, D !! d = Some z -> dv_linked z = true) -> M !! dv_key y = None ->
  forall kf, (forall p, kf p = key_of_dest (<[d := y]> D) p) -> exists t', kt_insert kf t d = (0, t') /\
    dests_ok ip_rep (<[d := y]> D) t' (<[dv_key y := d]> M) free.
Proof.
  intros [H1 H2 H3 H4 H5] Hl Hf Hd HM kf Hkf.
  assert (HdM : forall k p, M !! k = Some p -> p <> d).
  { intros k p Hk ->. destruct (H2 k d Hk) as (z & Hz & Hzl & _). rewrite (Hd z Hz) in Hzl. done. }
  assert (Hkey : kf d = dv_key y) by (rewrite Hkf; unfold key_of_dest; by rewrite lookup_insert_eq).
  destruct (kt_insert_ok kf t M d) as (t' & E & R).
  { eapply kt_agree; [exact H1|]. intros k p Hk. rewrite Hkf. unfold key_of_dest. rewrite lookup_insert_ne; [done|]. symmetry. by eapply HdM. }
  { by rewrite Hkey. }
  rewrite Hkey in R. exists t'. split; [done|]. split; try done.
  - eapply kt_agree; [exact R|]. intros k p _. by rewrite Hkf.
  - intros k p. rewrite lookup_insert_Some. intros [[<- <-]|[Hne Hk]].
    + exists y. by rewrite lookup_insert_eq.
    + rewrite lookup_insert_ne by (symmetry; by eapply HdM). by apply H2.
  - intros p z. rewrite lookup_insert_Some. intros [[<- <-]|[Hne Hz]].
    + rewrite Hl, lookup_insert_eq. done.
    + specialize (H3 p z Hz). destruct (dv_linked z); [done|]. destruct H3 as [A1 A2]. split; [done|].
      rewrite lookup_insert_ne; [done|]. intros E'. by rewrite <- E', HM in A2.
  - intros p Hp. rewrite lookup_insert_ne by (by intros ->). by apply H5.
Qed.
(** A destination comes out of the pool. *)
Lemma dests_ok_delete D t M free d : dests_ok ip_rep D t M (d :: free) -> dests_ok ip_rep (delete d D) t M free.
Proof.
  intros [H1 H2 H3 H4 H5]. pose proof (NoDup_cons_1_1 _ _ H4) as Hd. apply NoDup_cons_1_2 in H4.
  assert (HdM : forall k p, M !! k = Some p -> p <> d).
  { intros k p Hk ->. destruct (H2 k d Hk) as (z & Hz & Hzl & _). destruct (H5 d ltac:(by left)) as (z' & Hz' & Hzl'). congruence. }
  split; try done.
  - eapply kt_agree; [exact H1|]. intros k p Hk. unfold key_of_dest. rewrite lookup_delete_ne; [done|]. symmetry. by eapply HdM.
  - intros k p Hk. rewrite lookup_delete_ne by (symmetry; by eapply HdM). by apply H2.
  - intros p z [Hne Hz]%lookup_delete_Some. specialize (H3 p z Hz). destruct (dv_linked z); rewrite elem_of_cons in H3; [|tauto].
    destruct H3 as [[?|?] ?]; [congruence|done].
  - intros p Hp. rewrite lookup_delete_ne by (by intros ->). apply H5. by right.
Qed.
Lemma links_dest_delete hole L D free d y : links_ok hole L D free -> D !! d = Some y -> dv_socks y = [] ->
  links_ok hole L (delete d D) free.
Proof.
  intros [H0 H1 H2 H3 H4 H5] Hd Hs. split; try done.
  - intros l Hl. destruct (H0 l Hl) as (A1 & A2 & A3). split_and!; try done. intros d' z [_ Hz]%lookup_delete_Some. by apply (A3 d').
  - intros l x Hx Hh. destruct (H1 l x Hx Hh) as [B1 B2]. split; [done|]. destruct (lv_parents x) as [d'|]; [|done].
    destruct B2 as (? & z & Hz & Hin). split; [done|]. exists z. rewrite lookup_delete_ne; [done|]. intros <-.
    rewrite Hd in Hz. injection Hz as <-. rewrite Hs in Hin. by apply elem_of_nil in Hin.
  - intros d' z [_ Hz]%lookup_delete_Some. by apply (H4 d').
  - intros d' z l [_ Hz]%lookup_delete_Some. by apply (H5 d').
Qed.
Lemma links_dest_new hole L D free d y : links_ok hole L D free -> D !! d = None -> dv_socks y = [] -> dv_curr y = 0 -> dv_max y = 3 ->
  links_ok hole L (<[d := y]> D) free.
Proof.
  intros [H0 H1 H2 H3 H4 H5] Hd Hs Hc Hm. split; try done.
  - intros l Hl. destruct (H0 l Hl) as (A1 & A2 & A3). split_and!; try done. intros d' z. rewrite lookup_insert_Some.
    intros [[<- <-]|[_ Hz]]; [rewrite Hs; apply not_elem_of_nil|by apply (A3 d')].
  - intros l x Hx Hh. destruct (H1 l x Hx Hh) as [B1 B2]. split; [done|]. destruct (lv_parents x) as [d'|]; [|done].
    destruct B2 as (? & z & Hz & Hin). split; [done|]. exists z. rewrite lookup_insert_ne; [done|congruence].
  - intros d' z. rewrite lookup_insert_Some. intros [[<- <-]|[_ Hz]]; [|by apply (H4 d')]. rewrite Hs, Hc, Hm.
    split_and!; [constructor|done|done|lia].
  - intros d' z l. rewrite lookup_insert_Some. intros [[<- <-]|[_ Hz]]; [|by apply (H5 d')]. rewrite Hs. by intros ?%elem_of_nil.
Qed.
End dests.
