(* ===== verification/NetQueues.v ===== *)
(** * The network layer: handlers and their queues

    What the operations of [NetOps] that move handlers between the queues of a link do
    to a well-formed world: they are defined, keep the invariant of [NetInv], and
    change nothing but the queues. *)

From Stdlib Require Import ZArith Lia.
From stdpp Require Import base gmap list option fin_maps.
From S2P Require Import Prelude Bytes HashList KeyTable RwCache NetData NetOps NetInv.

Section net.
Context {EV TS TI : Type} `{!NetEnv EV, !KeyTable sess_key TS, !KeyTable dest_key TI}.
Context (sess_rep : (ptr -> sess_key) -> TS -> gmap sess_key ptr -> Prop) `{!KeyTableLaws sess_key TS sess_rep}.
Context (ip_rep : (ptr -> dest_key) -> TI -> gmap dest_key ptr -> Prop) `{!KeyTableLaws dest_key TI ip_rep}.

Abbreviation NetW := (NetW EV TS TI).
Implicit Types (w : NetW) (h l d t : ptr) (hole : option ptr).

Definition view_of w : view TS TI :=
  mkView _ _ (item_v <$> nw_items w) (link_v <$> nw_links w) (dest_v <$> nw_dests w) (nw_sess w) (nw_ips w) (nw_bufs w)
    (nw_udp w) (nw_tcp w) (rp_free_list (nw_item_pool w)) (rp_free_list (nw_link_pool w)) (rp_free_list (nw_dest_pool w)).
Definition net_ok (hole : option ptr) w : Prop := wf sess_rep ip_rep hole (view_of w).

Lemma net_ok_view hole w w' : view_of w' = view_of w -> net_ok hole w -> net_ok hole w'.
Proof. unfold net_ok. by intros ->. Qed.

Lemma view_item w h x : item h w = Some x -> v_items (view_of w) !! h = Some (item_v x).
Proof. unfold item. intros H. cbn. by rewrite lookup_fmap, H. Qed.
Lemma view_link w l x : link l w = Some x -> v_links (view_of w) !! l = Some (link_v x).
Proof. unfold link. intros H. cbn. by rewrite lookup_fmap, H. Qed.
Lemma view_dest w d x : dest d w = Some x -> v_dests (view_of w) !! d = Some (dest_v x).
Proof. unfold dest. intros H. cbn. by rewrite lookup_fmap, H. Qed.
Lemma view_item_inv w h v : v_items (view_of w) !! h = Some v -> exists x, item h w = Some x /\ v = item_v x.
Proof. unfold item. cbn. rewrite lookup_fmap. destruct (nw_items w !! h) as [x|]; [|done]. intros [= <-]. by exists x. Qed.
Lemma view_link_inv w l v : v_links (view_of w) !! l = Some v -> exists x, link l w = Some x /\ v = link_v x.
Proof. unfold link. cbn. rewrite lookup_fmap. destruct (nw_links w !! l) as [x|]; [|done]. intros [= <-]. by exists x. Qed.
Lemma view_dest_inv w d v : v_dests (view_of w) !! d = Some v -> exists x, dest d w = Some x /\ v = dest_v x.
Proof. unfold dest. cbn. rewrite lookup_fmap. destruct (nw_dests w !! d) as [x|]; [|done]. intros [= <-]. by exists x. Qed.

Lemma upd_item_eq h f w x : item h w = Some x -> upd_item h f w = Some (set_items (<[h := f x]> (nw_items w)) w).
Proof. unfold upd_item. by intros ->. Qed.
Lemma upd_link_eq l f w x : link l w = Some x -> upd_link l f w = Some (set_links (<[l := f x]> (nw_links w)) w).
Proof. unfold upd_link. by intros ->. Qed.
Lemma upd_dest_eq d f w x : dest d w = Some x -> upd_dest d f w = Some (set_dests (<[d := f x]> (nw_dests w)) w).
Proof. unfold upd_dest. by intros ->. Qed.

(** ** Worlds that differ in the queues only *)

(** A handler without its place; of its state remains whether it is registered. *)
Definition strip_item (x : CNetHandler) : CNetHandler :=
  set_state (Z.b2z (Z.testbit (nh_state x) 0)) (set_conn None (set_nh_linked false x)).
Lemma strip_item_eq x y : Z.testbit (nh_state y) 0 = Z.testbit (nh_state x) 0 ->
  set_state 0 (set_conn None (set_nh_linked false y)) = set_state 0 (set_conn None (set_nh_linked false x)) -> strip_item y = strip_item x.
Proof. intros H E. unfold strip_item. rewrite H. destruct x, y. nsimpl in E. nsimpl. injection E. intros. by subst. Qed.
Definition strip_link (x : CSockLink) : CSockLink :=
  set_conn_list [] (set_send_list [] (set_recv_list [] (set_idle_list [] x))).
Record queues_only w w' : Prop := {
  qq_items : strip_item <$> nw_items w' = strip_item <$> nw_items w;
  qq_links : strip_link <$> nw_links w' = strip_link <$> nw_links w;
  qq_rest : set_items ∅ (set_links ∅ w') = set_items ∅ (set_links ∅ w);
}.
#[export] Instance queues_only_preorder : PreOrder queues_only.
Proof.
  split; [by split|]. intros w1 w2 w3 [A1 A2 A3] [B1 B2 B3]. split; congruence.
Qed.

Lemma queues_only_item w w' h x : queues_only w w' -> item h w = Some x ->
  exists x', item h w' = Some x' /\ strip_item x' = strip_item x.
Proof. intros [H _ _] E. unfold item in *. by eapply (fmap_eq_lookup strip_item (nw_items w') (nw_items w)). Qed.
Lemma queues_only_link w w' l x : queues_only w w' -> link l w = Some x ->
  exists x', link l w' = Some x' /\ strip_link x' = strip_link x.
Proof. intros [_ H _] E. unfold link in *. by eapply (fmap_eq_lookup strip_link (nw_links w') (nw_links w)). Qed.

(** ** The queues of a link by name *)

Lemma get_q_list q x : GetItemList (q_list q) x = Some (qget q (link_q x)).
Proof. by destruct q. Qed.
Lemma set_q_list q r x : link_q (set_item_list (q_list q) r x) = qset q r (link_q x).
Proof. by destruct q, x. Qed.
Lemma strip_q_list q r x : strip_link (set_item_list (q_list q) r x) = strip_link x.
Proof. by destruct q, x. Qed.
Lemma link_v_q_list q r x : link_v (set_item_list (q_list q) r x) = lv_set_queues (qset q r (link_q x)) (link_v x).
Proof. by destruct q, x. Qed.

(** ** One handler and one link *)

(** The world with handler [h] and link [l] replaced. *)
Definition put2 h (x : CNetHandler) l (y : CSockLink) w : NetW :=
  set_items (<[h := x]> (nw_items w)) (set_links (<[l := y]> (nw_links w)) w).
Lemma put2_item h x l y w : item h (put2 h x l y w) = Some x.
Proof. unfold item, put2. nsimpl. apply lookup_insert_eq. Qed.
Lemma put2_link h x l y w : link l (put2 h x l y w) = Some y.
Proof. unfold link, put2. nsimpl. apply lookup_insert_eq. Qed.
Lemma put2_put2 h x x' l y y' w : put2 h x' l y' (put2 h x l y w) = put2 h x' l y' w.
Proof. unfold put2, set_items, set_links. nsimpl. by rewrite !insert_insert_eq. Qed.
Lemma put2_upd_item h x l y f w : upd_item h f (put2 h x l y w) = Some (put2 h (f x) l y w).
Proof.
  unfold upd_item. rewrite put2_item. cbn [mbind option_bind]. f_equal. unfold put2, set_items, set_links. nsimpl.
  by rewrite insert_insert_eq.
Qed.
Lemma put2_upd_link h x l y f w : upd_link l f (put2 h x l y w) = Some (put2 h x l (f y) w).
Proof.
  unfold upd_link. rewrite put2_link. cbn [mbind option_bind]. f_equal. unfold put2, set_items, set_links. nsimpl.
  by rewrite insert_insert_eq.
Qed.
Lemma put2_id h x l y w : item h w = Some x -> link l w = Some y -> put2 h x l y w = w.
Proof.
  unfold item, link, put2. intros Hh Hl. destruct w. cbn in *. unfold set_items, set_links. nsimpl. by rewrite !insert_id.
Qed.

Lemma put2_queues_only h x x' l y y' w : item h w = Some x -> link l w = Some y -> strip_item x' = strip_item x ->
  strip_link y' = strip_link y -> queues_only w (put2 h x' l y' w).
Proof.
  intros Hh Hl Hx Hy. unfold item, link in *. split; unfold put2; nsimpl.
  - by eapply fmap_insert_same.
  - by eapply fmap_insert_same.
  - done.
Qed.

(** The invariant after such a change: *)
Lemma put2_ok hole h x x' l y y' w : net_ok hole w -> item h w = Some x -> link l w = Some y ->
  strip_item x' = strip_item x -> strip_link y' = strip_link y -> (h ∉ rp_free_list (nw_item_pool w)) ->
  (l ∈ rp_free_list (nw_link_pool w) -> link_q y' = no_queues) ->
  (nh_conn x = None \/ nh_conn x = Some l) -> Z.testbit (nh_state x') 0 = Z.testbit (nh_state x) 0 ->
  (forall p q, p <> h -> p ∈ qget q (link_q y') <-> p ∈ qget q (link_q y)) -> (forall q, NoDup (qget q (link_q y'))) ->
  placed h l (item_v x') (link_q y') -> net_ok hole (put2 h x' l y' w).
Proof.
  intros [Hq Hl Hs Hd Hb] Eh El Hx Hy Hf Hfl Hc Hr HQ Hn Hp. pose proof (view_item _ _ _ Eh) as Vh. pose proof (view_link _ _ _ El) as Vl.
  assert (Evx : iv_key (item_v x') = iv_key (item_v x) /\ item_blocks (item_v x') = item_blocks (item_v x)).
  { destruct x, x'. unfold strip_item in Hx. nsimpl in Hx. injection Hx as -> -> -> -> -> -> -> _ -> -> -> -> -> ->. done. }
  assert (Evy : link_v y' = lv_set_queues (link_q y') (link_v y)).
  { destruct y, y'. unfold strip_link in Hy. nsimpl in Hy. injection Hy as -> -> -> -> -> -> -> -> -> -> ->. done. }
  unfold net_ok, put2, view_of. nsimpl. rewrite !fmap_insert, Evy.
  change (item_v <$> nw_items w) with (v_items (view_of w)). change (link_v <$> nw_links w) with (v_links (view_of w)).
  split; cbn [v_items v_links v_dests v_sess v_ips v_bufs v_udp v_tcp v_free_items v_free_links v_free_dests].
  - by eapply queues_change.
  - by apply links_ok_queues.
  - destruct Hs as [M Hs]. exists M. eapply (sess_ok_same sess_rep); [..|exact Hs].
    + eapply fmap_insert_same; [exact Vh|apply Evx].
    + eapply fmap_insert_same; [exact Vh|done].
  - done.
  - eapply blocks_ok_same; [..|exact Hb]; try done.
    + eapply fmap_insert_same; [exact Vh|apply Evx].
    + intros l' z. cbn [v_links]. rewrite lookup_insert_Some. intros [[<- <-]|[_ Ez]]; [by eexists _, _|].
      exists z, (lv_queues z). split; [done|]. by destruct z.
    + eapply fmap_insert_same; [exact Vl|done].
Qed.

(** ** Detaching *)

Lemma detach_skip l h f ty w x : item h w = Some x -> Z.land (nh_state x) f = 0 -> detach_from l h f ty w = Some w.
Proof. intros H1 H2. unfold detach_from. rewrite H1. cbn [mbind option_bind]. by rewrite H2. Qed.

Lemma detach_hit l h q w x y : item h w = Some x -> link l w = Some y -> h ∈ qget q (link_q y) ->
  Z.land (nh_state x) (q_flag q) <> 0 ->
  detach_from l h (q_flag q) (q_list q) w =
    Some (put2 h (set_state (Z.ldiff (nh_state x) (q_flag q)) (set_nh_linked false x))
            l (set_item_list (q_list q) (filter (.≠ h) (qget q (link_q y))) y) w).
Proof.
  intros Hh Hl Hin Hf. unfold detach_from, RemoveFromList. rewrite Hh. cbn [mbind option_bind].
  rewrite (proj2 (Z.eqb_neq _ _) Hf), Hl. cbn [mbind option_bind]. rewrite get_q_list, bool_decide_true by done.
  rewrite <- (put2_id h x l y w Hh Hl) at 1. rewrite put2_upd_link. cbn [mbind option_bind].
  rewrite put2_upd_item. cbn [mbind option_bind]. by rewrite put2_upd_item.
Qed.

(** What a queued handler and its link are, and after it left its queue. *)
Definition left_item (sess : bool) (x : CNetHandler) : CNetHandler := set_state (mkstate sess None) (set_nh_linked false x).
Definition left_link (q : qtype) h (y : CSockLink) : CSockLink :=
  set_item_list (q_list q) (filter (.≠ h) (qget q (link_q y))) y.
Lemma left_link_q q h y : link_q (left_link q h y) = q_remove q h (link_q y).
Proof. apply set_q_list. Qed.

Lemma DetachConn_eq h x l y q sess w : item h w = Some x -> nh_conn x = Some l -> link l w = Some y ->
  nh_state x = mkstate sess (Some q) -> h ∈ qget q (link_q y) ->
  DetachConn h w = Some (put2 h (left_item sess x) l (left_link q h y) w).
Proof.
  intros Hh Hc Hl Hs Hin. unfold DetachConn. rewrite Hh. cbn [mbind option_bind]. rewrite Hc.
  assert (Hs0 : (nh_state x =? 0) = false) by (rewrite Hs; by destruct sess, q). rewrite Hs0.
  set (w' := put2 _ _ _ _ _).
  assert (Hhit : detach_from l h (q_flag q) (q_list q) w = Some w').
  { rewrite (detach_hit l h q w x y) by (try done; rewrite Hs; by destruct sess, q). unfold w', left_item. do 3 f_equal.
    rewrite Hs. by destruct sess, q. }
  assert (Hbefore : forall q', q' <> q -> detach_from l h (q_flag q') (q_list q') w = Some w).
  { intros q' Hne. apply (detach_skip l h _ _ w x Hh). rewrite Hs. by destruct sess, q, q'. }
  assert (Hafter : forall q', detach_from l h (q_flag q') (q_list q') w' = Some w').
  { intros q'. eapply detach_skip; [apply put2_item|]. by destruct sess, q'. }
  pose proof (Hafter QConn) as A1. pose proof (Hafter QSend) as A2. pose proof (Hafter QRecv) as A3. pose proof (Hafter QIdle) as A4.
  pose proof (Hbefore QConn) as B1. pose proof (Hbefore QSend) as B2. pose proof (Hbefore QRecv) as B3. pose proof (Hbefore QIdle) as B4.
  destruct q; cbn [q_flag q_list] in *; repeat (first [rewrite B1 by done|rewrite B2 by done|rewrite B3 by done|rewrite B4 by done|
    rewrite Hhit|rewrite A1|rewrite A2|rewrite A3|rewrite A4]; cbn [mbind option_bind]); done.
Qed.

(** A queued handler of a well-formed world. *)
Lemma net_queued hole w h x l : net_ok hole w -> item h w = Some x -> nh_conn x = Some l ->
  exists sess q y, nh_state x = mkstate sess (Some q) /\ nh_linked x = true /\ (h ∉ rp_free_list (nw_item_pool w)) /\
    link l w = Some y /\ (forall q', h ∈ qget q' (link_q y) <-> q' = q) /\ (l ∉ rp_free_list (nw_link_pool w)).
Proof.
  intros W Hh Hc. destruct (queued_at _ _ _ _ _ _ (wf_queues _ _ _ _ W) (view_item _ _ _ Hh) Hc) as (sess & q & v & Hs & Hl & Hf & Hv & Hq).
  destruct (view_link_inv _ _ _ Hv) as (y & Ey & ->). exists sess, q, y. split_and!; try done. intros Hfl.
  destruct (lo_free_link _ _ _ _ (wf_links _ _ _ _ W) l Hfl) as (v & Ev & _ & Eq & _). rewrite Hv in Ev. injection Ev as <-.
  cbn in Eq. assert (Hin : h ∈ qget q (link_q y)) by (by apply Hq). rewrite Eq in Hin. by destruct q; apply elem_of_nil in Hin.
Qed.
Lemma net_detached hole w h x : net_ok hole w -> item h w = Some x -> nh_conn x = None ->
  exists sess, nh_state x = mkstate sess None /\ nh_linked x = bool_decide (h ∈ rp_free_list (nw_item_pool w)) /\
    forall l y q, link l w = Some y -> h ∉ qget q (link_q y).
Proof.
  intros W Hh Hc. destruct (detached _ _ _ _ _ (wf_queues _ _ _ _ W) (view_item _ _ _ Hh) Hc) as (sess & Hs & Hl & Hq).
  exists sess. split_and!; try done. intros l y q Hy. apply (Hq l (link_v y)). by apply view_link.
Qed.
Lemma net_queue_nodup hole w l y q : net_ok hole w -> link l w = Some y -> NoDup (qget q (link_q y)).
Proof. intros W Hl. exact (qo_nodup _ _ _ (wf_queues _ _ _ _ W) _ _ q (view_link _ _ _ Hl)). Qed.

Lemma strip_left_item sess q x : nh_state x = mkstate sess q -> strip_item (left_item sess x) = strip_item x.
Proof.
  intros H. apply strip_item_eq; [|by destruct x]. change (Z.testbit (mkstate sess None) 0 = Z.testbit (nh_state x) 0).
  by rewrite H, !registered_mkstate.
Qed.
Lemma testbit_state (s s' : Z) sess q q' : s = mkstate sess q -> s' = mkstate sess q' -> Z.testbit s' 0 = Z.testbit s 0.
Proof. intros -> ->. by rewrite !registered_mkstate. Qed.

(** ** [Unlink] *)

Definition unlinked w h w' : Prop :=
  queues_only w w' /\ exists x, item h w' = Some x /\ nh_conn x = None /\
    (forall l y y' q p, link l w = Some y -> link l w' = Some y' -> p ∈ qget q (link_q y') <-> p ∈ qget q (link_q y) /\ p <> h) /\
    (forall p x x', p <> h -> item p w = Some x -> item p w' = Some x' -> x' = x).

Lemma Unlink_ok hole w h x : net_ok hole w -> item h w = Some x -> exists w', Unlink h w = Some w' /\ net_ok hole w' /\ unlinked w h w'.
Proof.
  intros W Hh. unfold Unlink. rewrite Hh. cbn [mbind option_bind]. destruct (nh_conn x) as [l|] eqn:Hc.
  - destruct (net_queued hole w h x l W Hh Hc) as (sess & q & y & Hs & Hlk & Hf & Hl & Hq & Hfl).
    assert (Hs0 : (nh_state x =? 0) = false) by (rewrite Hs; by destruct sess, q). rewrite Hs0.
    rewrite (DetachConn_eq h x l y q sess w) by (try done; by apply Hq). cbn [mbind option_bind]. rewrite put2_upd_item.
    eexists. split; [reflexivity|]. set (x' := set_conn None (left_item sess x)).
    assert (Hx : strip_item x' = strip_item x) by exact (strip_left_item sess (Some q) x Hs).
    assert (Hy : strip_link (left_link q h y) = strip_link y) by apply strip_q_list.
    assert (Hout : forall q', h ∉ qget q' (q_remove q h (link_q y))).
    { intros q' [Hin Hne]%q_remove_in. by apply (Hne (proj1 (Hq q') Hin)). }
    split; [|split; [by eapply put2_queues_only|exists x'; split; [apply put2_item|split; [done|split]]]].
    + eapply put2_ok; try done; rewrite ?left_link_q.
      * by right.
      * by eapply testbit_state.
      * intros p q' Hne. rewrite q_remove_in. tauto.
      * intros q'. apply q_remove_nodup. by eapply net_queue_nodup.
      * left. split_and!; try done. by exists sess.
    + intros l' z z' q' p Hz Hz'. unfold link, put2 in *. nsimpl in Hz'. rewrite lookup_insert in Hz'. case_decide; simplify_eq.
      * rewrite left_link_q, q_remove_in. split; [|tauto]. intros [Hin Hne]. split; [done|]. intros ->. by apply (Hne (proj1 (Hq q') Hin)).
      * split; [|tauto]. intros Hin. split; [done|]. intros ->.
        destruct (qo_queue _ _ _ (wf_queues _ _ _ _ W) _ _ _ _ (view_link _ _ _ Hz) Hin) as (v & s0 & Ev & Ec & _).
        rewrite (view_item _ _ _ Hh) in Ev. injection Ev as <-. cbn in Ec. congruence.
    + intros p z z' Hne Hz Hz'. unfold item, put2 in *. nsimpl in Hz'. rewrite lookup_insert_ne in Hz' by done. congruence.
  - destruct (net_detached hole w h x W Hh Hc) as (sess & Hs & Hlk & Hq).
    assert (Hd : (if nh_state x =? 0 then Some w else DetachConn h w) = Some w).
    { destruct (nh_state x =? 0); [done|]. unfold DetachConn. rewrite Hh. cbn [mbind option_bind]. by rewrite Hc. }
    rewrite Hd. cbn [mbind option_bind]. unfold upd_item. rewrite Hh. cbn [mbind option_bind].
    assert (Hid : set_conn None x = x) by (destruct x; cbn in Hc; by subst). rewrite Hid. unfold item in Hh. rewrite insert_id by done.
    assert (Hw : set_items (nw_items w) w = w) by (by destruct w). rewrite Hw. exists w. split; [done|]. split; [done|].
    split; [done|]. exists x. split_and!; try done.
    + intros l y y' q p Hy Hy'. rewrite Hy in Hy'. injection Hy' as <-. split; [|tauto]. intros Hp. split; [done|].
      intros ->. by eapply Hq.
    + intros p z z' _ Hz Hz'. congruence.
Qed.

(** ** Switching *)

Definition entered_item (sess : bool) (q : qtype) (x : CNetHandler) : CNetHandler :=
  set_state (mkstate sess (Some q)) (set_nh_linked true x).
Definition entered_link (q : qtype) h (y : CSockLink) : CSockLink :=
  set_item_list (q_list q) (qget q (link_q y) ++ [h]) y.
Lemma entered_link_q q h y : link_q (entered_link q h y) = q_append q h (link_q y).
Proof. apply set_q_list. Qed.
Lemma strip_entered_item sess q q0 x : nh_state x = mkstate sess q0 -> strip_item (entered_item sess q x) = strip_item x.
Proof.
  intros H. apply strip_item_eq; [|by destruct x]. change (Z.testbit (mkstate sess (Some q)) 0 = Z.testbit (nh_state x) 0).
  by rewrite H, !registered_mkstate.
Qed.

(** The end of a switch: the flag is set and the handler appended. *)
Lemma append_eq l h x y q sess w : item h w = Some x -> link l w = Some y -> nh_state x = mkstate sess None ->
  nh_linked x = false ->
  (w ← upd_item h (fun x => set_state (Z.lor (nh_state x) (q_flag q)) x) w; AppendToList l (q_list q) h w) =
    Some (put2 h (entered_item sess q x) l (entered_link q h y) w).
Proof.
  intros Hh Hl Hs Hk. rewrite <- (put2_id h x l y w Hh Hl) at 1. rewrite put2_upd_item. cbn [mbind option_bind].
  unfold AppendToList. rewrite put2_link. cbn [mbind option_bind]. rewrite get_q_list, put2_item. cbn [mbind option_bind].
  assert (E1 : nh_linked (set_state (Z.lor (nh_state x) (q_flag q)) x) = false) by (by destruct x). rewrite E1.
  rewrite put2_upd_link. cbn [mbind option_bind]. rewrite put2_upd_item. do 2 f_equal.
  unfold entered_item. rewrite Hs. by destruct sess, q.
Qed.

Lemma switch_to_eq h x l y q q' sess w : item h w = Some x -> nh_conn x = Some l -> link l w = Some y ->
  nh_state x = mkstate sess (Some q) -> h ∈ qget q (link_q y) ->
  switch_to (q_flag q') (q_list q') h w = Some (put2 h (entered_item sess q' x) l (entered_link q' h (left_link q h y)) w).
Proof.
  intros Hh Hc Hl Hs Hin. unfold switch_to. rewrite Hh. cbn [mbind option_bind]. rewrite Hc.
  rewrite (DetachConn_eq h x l y q sess w Hh Hc Hl Hs Hin). cbn [mbind option_bind].
  rewrite (append_eq l h (left_item sess x) (left_link q h y) q' sess _); [|apply put2_item|apply put2_link|done|done].
  f_equal. unfold put2, set_items, set_links. nsimpl. rewrite !insert_insert_eq. by destruct x.
Qed.

Lemma switch_from_none h x l y q' sess w : item h w = Some x -> nh_conn x = Some l -> link l w = Some y ->
  nh_state x = mkstate sess None -> nh_linked x = false ->
  switch_to (q_flag q') (q_list q') h w = Some (put2 h (entered_item sess q' x) l (entered_link q' h y) w).
Proof.
  intros Hh Hc Hl Hs Hk. unfold switch_to. rewrite Hh. cbn [mbind option_bind]. rewrite Hc.
  assert (Hd : DetachConn h w = Some w).
  { unfold DetachConn. rewrite Hh. cbn [mbind option_bind]. rewrite Hc. destruct (nh_state x =? 0); [done|].
    assert (Hskip : forall q, detach_from l h (q_flag q) (q_list q) w = Some w).
    { intros q. apply (detach_skip l h _ _ w x Hh). rewrite Hs. by destruct sess, q. }
    pose proof (Hskip QConn) as A1. pose proof (Hskip QSend) as A2. pose proof (Hskip QRecv) as A3. pose proof (Hskip QIdle) as A4.
    cbn [q_flag q_list] in *. rewrite A1. cbn [mbind option_bind]. rewrite A2. cbn [mbind option_bind]. rewrite A3.
    cbn [mbind option_bind]. by rewrite A4. }
  rewrite Hd. cbn [mbind option_bind]. by apply append_eq.
Qed.

(** The world after handler [h] went from queue [q] (or none) to the end of queue [q']
    of link [l]. *)
Definition moved w h l (q' : qtype) w' : Prop :=
  queues_only w w' /\ exists x x' y y' sess q,
    item h w = Some x /\ nh_state x = mkstate sess q /\ link l w = Some y /\
    x' = entered_item sess q' (set_conn (Some l) x) /\
    y' = entered_link q' h (match q with Some q => left_link q h y | None => y end) /\ w' = put2 h x' l y' w.

Lemma enter_ok hole w h x l y q' sess q0 : net_ok hole w -> item h w = Some x -> link l w = Some y -> (h ∉ rp_free_list (nw_item_pool w)) ->
  (l ∉ rp_free_list (nw_link_pool w)) -> (nh_conn x = None \/ nh_conn x = Some l) -> nh_state x = mkstate sess q0 ->
  (forall q, h ∈ qget q (link_q y) <-> q0 = Some q) ->
  let y1 := match q0 with Some q => left_link q h y | None => y end in
  net_ok hole (put2 h (entered_item sess q' (set_conn (Some l) x)) l (entered_link q' h y1) w) /\
  moved w h l q' (put2 h (entered_item sess q' (set_conn (Some l) x)) l (entered_link q' h y1) w).
Proof.
  intros W Hh Hl Hf Hfl Hc Hs Hq y1.
  assert (Hy : strip_link (entered_link q' h y1) = strip_link y).
  { unfold y1. destruct q0; unfold entered_link; rewrite strip_q_list; [apply strip_q_list|done]. }
  assert (Hx : strip_item (entered_item sess q' (set_conn (Some l) x)) = strip_item x) by exact (strip_entered_item sess q' q0 x Hs).
  assert (Hy1 : forall p q, p ∈ qget q (link_q y1) <-> p ∈ qget q (link_q y) /\ p <> h).
  { intros p q. unfold y1. destruct q0 as [q0|].
    - rewrite left_link_q, q_remove_in. split; intros [Hin Hne]; (split; [done|]); [|tauto]. intros ->.
      apply Hq in Hin as [= ->]. by apply Hne.
    - split; [|tauto]. intros Hin. split; [done|]. intros ->. by apply Hq in Hin. }
  split; [|split; [by eapply put2_queues_only|by exists x, (entered_item sess q' (set_conn (Some l) x)), y, (entered_link q' h y1), sess, q0]].
  eapply put2_ok; try done; rewrite ?entered_link_q.
  - by eapply testbit_state.
  - intros p q Hne. rewrite q_append_in, Hy1. naive_solver.
  - intros q. apply q_append_nodup; [|intros _; rewrite Hy1; tauto].
    unfold y1. destruct q0; [rewrite left_link_q; apply q_remove_nodup|]; by eapply net_queue_nodup.
  - right. exists sess, q'. split_and!; try done. intros q. rewrite q_append_in, Hy1. naive_solver.
Qed.

Lemma switch_to_ok hole w h x l q' : net_ok hole w -> item h w = Some x -> nh_conn x = Some l ->
  exists w', switch_to (q_flag q') (q_list q') h w = Some w' /\ net_ok hole w' /\ moved w h l q' w'.
Proof.
  intros W Hh Hc. destruct (net_queued hole w h x l W Hh Hc) as (sess & q & y & Hs & Hlk & Hf & Hl & Hq & Hfl).
  rewrite (switch_to_eq h x l y q q' sess w) by (try done; by apply Hq). eexists. split; [reflexivity|].
  assert (Hid : set_conn (Some l) x = x) by (destruct x; cbn in Hc; by subst).
  destruct (enter_ok hole w h x l y q' sess (Some q)) as [H1 H2]; try done; [by right|intros q0; rewrite Hq; naive_solver|].
  by rewrite Hid in H1, H2.
Qed.

Lemma switch_to_nop w h x f ty : item h w = Some x -> nh_conn x = None -> switch_to f ty h w = Some w.
Proof. intros Hh Hc. unfold switch_to. rewrite Hh. cbn [mbind option_bind]. by rewrite Hc. Qed.

Lemma Link_ok hole w h x l y : net_ok hole w -> item h w = Some x -> nh_conn x = None -> nh_linked x = false -> link l w = Some y ->
  (l ∉ rp_free_list (nw_link_pool w)) -> exists w', Link h l w = Some w' /\ net_ok hole w' /\ moved w h l QIdle w'.
Proof.
  intros W Hh Hc Hk Hl Hfl. destruct (net_detached hole w h x W Hh Hc) as (sess & Hs & Hlk & Hq). rewrite Hk in Hlk.
  symmetry in Hlk. apply bool_decide_eq_false in Hlk.
  assert (Ew : upd_item h (set_conn (Some l)) w = Some (put2 h (set_conn (Some l) x) l y w)).
  { rewrite <- (put2_id h x l y w Hh Hl) at 1. by rewrite put2_upd_item. }
  unfold Link. rewrite Ew. cbn [mbind option_bind]. unfold SwitchToIdle. rewrite (switch_from_none h (set_conn (Some l) x) l y QIdle sess);
    [|apply put2_item|done|apply put2_link|done|done].
  rewrite put2_put2. eexists. split; [reflexivity|].
  apply (enter_ok hole w h x l y QIdle sess None); try done; [by left|]. intros q. split; [intros Hin; by destruct (Hq l y q)|done].
Qed.
End net.
