(* ===== verification/NetBlocks.v ===== *)
(** * The network layer: blocks

    Operations on the cache of one link, and on single blocks, keep the invariant of
    [NetInv]: the lemmas of [RwCache] with the blocks of all other objects, and the
    free blocks of the other pool, as the rest of the store. *)

From Stdlib Require Import ZArith Lia.
From stdpp Require Import base gmap list option fin_maps.
From S2P Require Import Prelude Bytes HashList KeyTable RwCache NetData NetOps NetInv NetQueues.

(** ** Stores *)

Lemma store_ok_mem {E1 E2} (st1 : CacheState (E := E1)) (st2 : CacheState (E := E2)) L :
  cs_bufs st2 = cs_bufs st1 -> cs_pool st2 = cs_pool st1 -> store_ok st1 L -> store_ok st2 L.
Proof. intros Hb Hp [H1 H2 H3 H4 H5]. split; rewrite ?Hb, ?Hp; done. Qed.

Lemma content_mem {E1 E2} (st1 : CacheState (E := E1)) (st2 : CacheState (E := E2)) l :
  cs_bufs st2 = cs_bufs st1 -> content st2 l = content st1 l.
Proof. intros Hb. unfold content, block_bytes. by rewrite Hb. Qed.

(** The store of the other pool, after the store of one pool changed. *)
Lemma store_ok_other bufs bufs' pool1 pool2 A A' :
  store_ok (mem_state bufs pool2) (A ++ bm_free_list pool1) ->
  forall pool1', store_ok (mem_state bufs' pool1') (A' ++ bm_free_list pool2) ->
  (forall p, p ∈ bm_free_list pool2 -> bufs' !! p = bufs !! p) ->
  store_ok (mem_state bufs' pool2) (A' ++ bm_free_list pool1').
Proof.
  intros [O1 O2 O3 O4 O5] pool1' [N1 N2 N3 N4 N5] Hk. cbn [cs_bufs cs_pool mem_state] in *.
  assert (Hp : (A' ++ bm_free_list pool1') ++ bm_free_list pool2 ≡ₚ (A' ++ bm_free_list pool2) ++ bm_free_list pool1').
  { rewrite <- !app_assoc. by rewrite (Permutation_app_comm (bm_free_list pool1')). }
  split; cbn [cs_bufs cs_pool mem_state]; try done.
  - by rewrite Hp.
  - intros p. rewrite Hp. apply N2.
  - intros p b Hin. rewrite Hk by done. by apply O3.
Qed.

Lemma store_ok_delete {E1} (st : CacheState (E := E1)) p L : store_ok st (p :: L) ->
  store_ok (mkCs (cs_env st) (delete p (cs_bufs st)) (cs_pool st)) L /\
  keeps L st (mkCs (cs_env st) (delete p (cs_bufs st)) (cs_pool st)).
Proof.
  intros [H1 H2 H3 H4 H5]. cbn in H1. pose proof (NoDup_cons_1_1 _ _ H1) as Hp. apply NoDup_cons_1_2 in H1.
  assert (Hk : forall q, q ∈ L ++ bm_free_list (cs_pool st) -> delete p (cs_bufs st) !! q = cs_bufs st !! q).
  { intros q Hq. apply lookup_delete_ne. by intros ->. }
  split.
  - split; cbn [cs_bufs cs_pool]; try done.
    + intros q Hq. rewrite Hk by done. apply H2. by right.
    + intros q b Hq. rewrite Hk by set_solver. by apply H3.
  - intros q Hq. apply Hk. set_solver.
Qed.

Section world.
Context {EV TS TI : Type} `{!NetEnv EV}.
Abbreviation NetW := (NetW EV TS TI).
Implicit Types (w : NetW) (h l d t : ptr).

Definition all_of w : list ptr := all_blocks (v_items (view_of w)) (v_links (view_of w)).
Definition other_of (proto : Z) w : list ptr := other_free proto (view_of w).

(** Blocks and pools after an operation on the pool of [proto]. *)
Lemma blocks_step w proto (st' : CacheState (E := EV)) (v' : view TS TI) :
  (forall pr, store_ok (mem_state (nw_bufs w) (pool_of pr (view_of w))) (all_of w ++ other_of pr w)) ->
  store_ok st' (all_blocks (v_items v') (v_links v') ++ other_of proto w) ->
  (forall p, p ∈ other_of proto w -> cs_bufs st' !! p = nw_bufs w !! p) ->
  v_bufs v' = cs_bufs st' -> v_tcp v' = nw_tcp (put_view proto st' w) -> v_udp v' = nw_udp (put_view proto st' w) ->
  forall pr, store_ok (mem_state (v_bufs v') (pool_of pr v')) (all_blocks (v_items v') (v_links v') ++ other_free pr v').
Proof.
  intros Hold Hnew Hk Hb Ht Hu pr.
  assert (Hsame : store_ok (mem_state (cs_bufs st') (cs_pool st')) (all_blocks (v_items v') (v_links v') ++ other_of proto w))
    by (by eapply store_ok_mem; [..|exact Hnew]).
  pose proof (store_ok_other (nw_bufs w) (cs_bufs st') (pool_of proto (view_of w)) (if proto =? NET_PROTO_TCP then nw_udp w else nw_tcp w)
    (all_of w) (all_blocks (v_items v') (v_links v'))) as Ho.
  assert (Hother : store_ok (mem_state (cs_bufs st') (if proto =? NET_PROTO_TCP then nw_udp w else nw_tcp w))
    (all_blocks (v_items v') (v_links v') ++ bm_free_list (cs_pool st'))).
  { apply Ho; clear Ho.
    - specialize (Hold (if proto =? NET_PROTO_TCP then NET_PROTO_UDP else NET_PROTO_TCP)).
      unfold pool_of, other_of, other_free in *. destruct (proto =? NET_PROTO_TCP); exact Hold.
    - unfold other_of, other_free in *. destruct (proto =? NET_PROTO_TCP); exact Hsame.
    - intros p Hp. apply Hk. unfold other_of, other_free. destruct (proto =? NET_PROTO_TCP); exact Hp. }
  clear Ho Hold Hk Hnew. rewrite Hb. unfold other_of in *. unfold pool_of, other_free, put_view in *.
  destruct (proto =? NET_PROTO_TCP); destruct (pr =? NET_PROTO_TCP); rewrite Ht, Hu; nsimpl; assumption.
Qed.

Lemma view_put proto (st' : CacheState (E := EV)) w : view_of (put_view proto st' w) =
  mkView _ _ (v_items (view_of w)) (v_links (view_of w)) (v_dests (view_of w)) (nw_sess w) (nw_ips w) (cs_bufs st')
    (nw_udp (put_view proto st' w)) (nw_tcp (put_view proto st' w)) (v_free_items (view_of w)) (v_free_links (view_of w))
    (v_free_dests (view_of w)).
Proof. unfold put_view. by destruct (proto =? NET_PROTO_TCP). Qed.

(** A cache is untouched when its blocks are. *)
Lemma mem_bytes_keep bufs bufs' (q : list ptr) : (forall p, p ∈ q -> bufs' !! p = bufs !! p) -> mem_bytes bufs' q = mem_bytes bufs q.
Proof.
  intros H. apply (keeps_content q (mem_state bufs (mkMng [] 0 0 0)) (mem_state bufs' (mkMng [] 0 0 0))). exact H.
Qed.
Lemma cache_ok_keep bufs bufs' x : (forall p, p ∈ link_blocks x -> bufs' !! p = bufs !! p) -> cache_ok bufs x -> cache_ok bufs' x.
Proof.
  intros H [C1 C2 C3 C4 C5 C6]. assert (Hm : mem_bytes bufs' (rc_list (lv_cache x)) = mem_bytes bufs (rc_list (lv_cache x))).
  { apply mem_bytes_keep. intros p Hp. apply H. unfold link_blocks. set_solver. }
  split; rewrite ?Hm; try done. intros p Hp. destruct (C6 p Hp) as (Hu & b & Hb & R). split; [done|]. exists b. rewrite H; [done|].
  unfold link_blocks. rewrite Hp. set_solver.
Qed.

(** ** The cache of one link *)

Definition rest_of l (x : CSockLink) w : list ptr :=
  other_blocks l (link_v x) (v_items (view_of w)) (v_links (view_of w)) ++ other_of (sl_proto x) w.

Lemma rest_of_others l x w p : link l w = Some x -> p ∈ rest_of l x w <->
  (sl_rsp x = Some p) \/ (exists l' y, l' <> l /\ link l' w = Some y /\ p ∈ link_blocks (link_v y)) \/
  (exists h i, item h w = Some i /\ nh_rsp i = Some p) \/ p ∈ other_of (sl_proto x) w.
Proof.
  intros Hl. unfold rest_of, other_blocks. rewrite !elem_of_app, !lists_of_in.
  assert (Hob : forall b, p ∈ option_blocks b <-> b = Some p).
  { intros [q|]; cbn; [rewrite list_elem_of_singleton; naive_solver|rewrite elem_of_nil; done]. }
  rewrite Hob. cbn [lv_rsp link_v]. split.
  - intros [[?|[(k & b & Hk & Hb)|(k & b & Hk & Hb)]]|?]; [tauto| | |tauto].
    + right. left. apply lookup_delete_Some in Hk as [Hne Hk]. rewrite lookup_fmap in Hk.
      destruct (v_links (view_of w) !! k) as [v|] eqn:Ev; [|done]. injection Hk as <-.
      destruct (view_link_inv _ _ _ Ev) as (y & Ey & ->). exists k, y. auto.
    + right. right. left. rewrite lookup_fmap in Hk. destruct (v_items (view_of w) !! k) as [v|] eqn:Ev; [|done]. injection Hk as <-.
      destruct (view_item_inv _ _ _ Ev) as (i & Ei & ->). exists k, i. split; [done|]. by apply Hob in Hb.
  - intros [?|[(l' & y & Hne & Ey & Hp)|[(h & i & Ei & Hp)|?]]]; [tauto| | |tauto].
    + left. right. left. exists l', (link_blocks (link_v y)). split; [|done]. apply lookup_delete_Some. split; [done|].
      by rewrite lookup_fmap, (view_link _ _ _ Ey).
    + left. right. right. exists h, (item_blocks (item_v i)). split; [by rewrite lookup_fmap, (view_item _ _ _ Ei)|].
      by apply Hob.
Qed.

(** Link [l] is replaced after an operation on the pool of its protocol. *)
Definition others_of l w : list ptr :=
  lists_of (delete l (link_blocks <$> v_links (view_of w))) ++ lists_of (item_blocks <$> v_items (view_of w)).

(** ** Blocks that change hands or go *)

Lemma store_ok_shrink bufs bufs' pool A A' D : store_ok (mem_state bufs pool) A -> D ++ A' ≡ₚ A ->
  (forall p, p ∈ A' ++ bm_free_list pool -> bufs' !! p = bufs !! p \/ (p ∈ A' /\ exists b, bufs' !! p = Some b /\ buf_ok b)) ->
  store_ok (mem_state bufs' pool) A'.
Proof.
  intros [H1 H2 H3 H4 H5] HA Hk. cbn [cs_bufs cs_pool mem_state] in *. rewrite <- HA in H1.
  rewrite <- app_assoc in H1. apply list.NoDup_app in H1 as (_ & _ & H1). pose proof H1 as Hnd.
  apply list.NoDup_app in H1 as (_ & Hd & _). split; cbn [cs_bufs cs_pool mem_state]; try done.
  - intros p Hp. destruct (Hk p Hp) as [->|[_ ?]]; [|done]. apply H2. rewrite <- HA. set_solver.
  - intros p b Hp Hb. destruct (Hk p ltac:(set_solver)) as [E|[Hin _]]; [|exfalso; by apply (Hd p Hin)]. apply (H3 p); [done|congruence].
Qed.

Lemma blocks_change w w' D : blocks_ok (view_of w) -> D ++ all_of w' ≡ₚ all_of w ->
  nw_udp w' = nw_udp w -> nw_tcp w' = nw_tcp w ->
  (forall p, (p ∉ D) -> nw_bufs w' !! p = nw_bufs w !! p \/ (p ∈ all_of w' /\ exists b, nw_bufs w' !! p = Some b /\ buf_ok b)) ->
  (forall l x, link l w' = Some x -> cache_ok (nw_bufs w') (link_v x)) -> blocks_ok (view_of w').
Proof.
  intros [Bs Bc] HD Hu Ht Hk Hc. split.
  - intros pr. specialize (Bs pr). cbn [v_bufs view_of] in *.
    assert (E1 : pool_of pr (view_of w') = pool_of pr (view_of w)) by (unfold pool_of; cbn [v_udp v_tcp view_of]; by rewrite Hu, Ht).
    assert (E2 : other_free pr (view_of w') = other_free pr (view_of w)) by (unfold other_free; cbn [v_udp v_tcp view_of]; by rewrite Hu, Ht).
    rewrite E1, E2. change (all_blocks (v_items (view_of w)) (v_links (view_of w))) with (all_of w) in Bs.
    change (all_blocks (v_items (view_of w')) (v_links (view_of w'))) with (all_of w').
    eapply (store_ok_shrink _ _ _ _ _ D); [exact Bs|by rewrite app_assoc, HD|].
    intros p Hp. assert (HpD : p ∉ D).
    { intros Hin. destruct Bs as [Hnd _ _ _ _]. cbn [cs_pool mem_state] in Hnd. rewrite <- HD, <- !app_assoc in Hnd.
      apply list.NoDup_app in Hnd as (_ & Hd & _). apply (Hd p Hin). by rewrite app_assoc. }
    destruct (Hk p HpD) as [?|[? ?]]; [by left|right]. split; [set_solver|done].
  - intros l v Hv. destruct (view_link_inv _ _ _ Hv) as (x & Hx & ->). by apply (Hc l).
Qed.

Lemma in_all_of w p : p ∈ all_of w <-> (exists l x, link l w = Some x /\ p ∈ link_blocks (link_v x)) \/
  (exists h i, item h w = Some i /\ nh_rsp i = Some p).
Proof.
  unfold all_of, all_blocks. rewrite elem_of_app, !lists_of_in. split.
  - intros [(k & b & Hk & Hb)|(k & b & Hk & Hb)]; [left|right]; rewrite lookup_fmap in Hk.
    + destruct (v_links (view_of w) !! k) as [v|] eqn:Ev; [|done]. injection Hk as <-.
      destruct (view_link_inv _ _ _ Ev) as (y & Ey & ->). by exists k, y.
    + destruct (v_items (view_of w) !! k) as [v|] eqn:Ev; [|done]. injection Hk as <-.
      destruct (view_item_inv _ _ _ Ev) as (i & Ei & ->). exists k, i. split; [done|]. unfold item_blocks in Hb. cbn in Hb.
      destruct (nh_rsp i); [by apply list_elem_of_singleton in Hb as ->|by apply elem_of_nil in Hb].
  - intros [(l & x & Hl & Hp)|(h & i & Hi & Hp)]; [left|right].
    + exists l, (link_blocks (link_v x)). by rewrite lookup_fmap, (view_link _ _ _ Hl).
    + exists h, (item_blocks (item_v i)). rewrite lookup_fmap, (view_item _ _ _ Hi). split; [done|].
      unfold item_blocks. cbn. rewrite Hp. set_solver.
Qed.

(** Replacing one handler, or one link, in the list of all blocks. *)
Lemma all_of_item w h x : item h w = Some x ->
  all_of w ≡ₚ option_blocks (nh_rsp x) ++ lists_of (delete h (item_blocks <$> v_items (view_of w))) ++ lists_of (link_blocks <$> v_links (view_of w)).
Proof.
  intros Hh. unfold all_of, all_blocks. rewrite (lists_of_take (item_blocks <$> _) h (item_blocks (item_v x))).
  - rewrite Permutation_app_comm, <- app_assoc. done.
  - by rewrite lookup_fmap, (view_item _ _ _ Hh).
Qed.
Lemma all_of_link w l x : link l w = Some x ->
  all_of w ≡ₚ link_blocks (link_v x) ++ lists_of (delete l (link_blocks <$> v_links (view_of w))) ++ lists_of (item_blocks <$> v_items (view_of w)).
Proof.
  intros Hl. unfold all_of, all_blocks. rewrite (lists_of_take (link_blocks <$> _) l (link_blocks (link_v x))).
  - by rewrite <- app_assoc.
  - by rewrite lookup_fmap, (view_link _ _ _ Hl).
Qed.
Lemma all_of_set_item w h y : all_of (set_items (<[h := y]> (nw_items w)) w) ≡ₚ
  option_blocks (nh_rsp y) ++ lists_of (delete h (item_blocks <$> v_items (view_of w))) ++ lists_of (link_blocks <$> v_links (view_of w)).
Proof.
  rewrite (all_of_item _ h y) by (unfold item; nsimpl; apply lookup_insert_eq). cbn [v_items v_links view_of]. nsimpl.
  by rewrite !fmap_insert, delete_insert_eq.
Qed.
Lemma all_of_set_link w l y : all_of (set_links (<[l := y]> (nw_links w)) w) ≡ₚ
  link_blocks (link_v y) ++ lists_of (delete l (link_blocks <$> v_links (view_of w))) ++ lists_of (item_blocks <$> v_items (view_of w)).
Proof.
  rewrite (all_of_link _ l y) by (unfold link; nsimpl; apply lookup_insert_eq). cbn [v_items v_links view_of]. nsimpl.
  by rewrite !fmap_insert, delete_insert_eq.
Qed.

(** [drop_block] on a block that exists, or on none. *)
Lemma put_view_id proto w : put_view proto (cache_view proto w) w = w.
Proof.
  unfold put_view, cache_view, GetSkBuffMng. destruct w. destruct (proto =? NET_PROTO_TCP); reflexivity.
Qed.
Definition without_block (b : option ptr) w : NetW :=
  match b with Some p => set_nw_bufs (delete p (nw_bufs w)) w | None => w end.
Lemma drop_block_eq b w : (forall p, b = Some p -> is_Some (nw_bufs w !! p)) -> drop_block b w = Some (without_block b w).
Proof.
  intros H. unfold drop_block, delete_sk_buffer. destruct b as [p|]; [|cbn [mbind option_bind]; by rewrite put_view_id].
  destruct (H p eq_refl) as [b Eb]. cbn [cs_bufs cache_view]. rewrite Eb. cbn [mbind option_bind]. f_equal.
Qed.
End world.

Section net.
Context {EV TS TI : Type} `{!NetEnv EV, !KeyTable sess_key TS, !KeyTable dest_key TI}.
Context (sess_rep : (ptr -> sess_key) -> TS -> gmap sess_key ptr -> Prop) `{!KeyTableLaws sess_key TS sess_rep}.
Context (ip_rep : (ptr -> dest_key) -> TI -> gmap dest_key ptr -> Prop) `{!KeyTableLaws dest_key TI ip_rep}.

Abbreviation NetW := (NetW EV TS TI).
Abbreviation net_ok := (net_ok sess_rep ip_rep).
Implicit Types (w : NetW) (h l d t : ptr) (hole : option ptr).

(** ** The invariant *)

Lemma link_cache_rep hole w l x : net_ok hole w -> link l w = Some x -> rc_pool (sl_cache x) = true ->
  cache_rep (rest_of l x w) (sl_cache x) (cache_view (sl_proto x) w) (mem_bytes (nw_bufs w) (rc_list (sl_cache x))).
Proof.
  intros W Hl Hp. destruct (wf_blocks _ _ _ _ W) as [Hs Hc]. pose proof (Hc l (link_v x) (view_link _ _ _ Hl)) as [C1 C2 C3 C4 C5 C6].
  cbn [lv_cache lv_rsp lv_parents lv_proto link_v v_bufs view_of] in *. split; try done.
  - apply (store_ok_perm _ (all_of w ++ other_of (sl_proto x) w)).
    + unfold rest_of, all_of. rewrite (all_blocks_link _ _ l (link_v x)) by (by apply view_link). by rewrite app_assoc.
    + eapply store_ok_mem; [..|exact (Hs (sl_proto x))]; try done.
  - rewrite C2. symmetry. apply u32_small. unfold in_u32, max_cached in *. unfold blen in *. lia.
  - rewrite C5. symmetry. apply u32_small. unfold in_u32, max_cached in *. lia.
Qed.

Lemma link_change hole w proto l x y st' : net_ok hole w -> link l w = Some x -> (l ∉ rp_free_list (nw_link_pool w)) ->
  link_q y = link_q x -> (hole = Some l \/ (sl_parents y = sl_parents x /\ sl_linked y = sl_linked x)) ->
  store_ok st' (link_blocks (link_v y) ++ others_of l w ++ other_of proto w) ->
  keeps (others_of l w ++ other_of proto w) (cache_view proto w) st' ->
  cache_ok (cs_bufs st') (link_v y) ->
  net_ok hole (set_links (<[l := y]> (nw_links w)) (put_view proto st' w)).
Proof.
  intros W Hl Hfl Hq Hpar HS Hk Hc. pose proof (view_link _ _ _ Hl) as Vl. destruct W as [Wq Wl Ws Wd [Bs Bc]].
  set (w' := set_links _ _).
  set (V := mkView _ _ (v_items (view_of w)) (<[l := link_v y]> (v_links (view_of w))) (v_dests (view_of w)) (nw_sess w)
    (nw_ips w) (cs_bufs st') (nw_udp (put_view proto st' w)) (nw_tcp (put_view proto st' w))
    (v_free_items (view_of w)) (v_free_links (view_of w)) (v_free_dests (view_of w))).
  assert (Hv : view_of w' = V).
  { unfold V, w', view_of, put_view. destruct (proto =? NET_PROTO_TCP); nsimpl; by rewrite fmap_insert. }
  assert (Hperm : all_blocks (v_items V) (v_links V) ≡ₚ link_blocks (link_v y) ++ others_of l w).
  { unfold all_blocks, others_of. cbn [V v_items v_links]. rewrite (lists_of_take _ l (link_blocks (link_v y))) by
      (by rewrite lookup_fmap, lookup_insert_eq). by rewrite fmap_insert, delete_insert_eq, <- app_assoc. }
  assert (HB : forall pr, store_ok (mem_state (v_bufs V) (pool_of pr V)) (all_blocks (v_items V) (v_links V) ++ other_free pr V)).
  { apply (blocks_step w proto st' V Bs); try done.
    - eapply store_ok_perm; [|exact HS]. by rewrite app_assoc, Hperm.
    - intros p Hp. apply (Hk p). set_solver. }
  unfold NetQueues.net_ok. rewrite Hv. split; [..|split; [exact HB|]].
  - eapply queues_ok_links; [|exact Wq]. eapply fmap_insert_same; [exact Vl|exact Hq].
  - eapply links_ok_set; [exact Wl|exact Vl|done|done].
  - done.
  - done.
  - cbn [V v_links v_bufs]. intros l' z. rewrite lookup_insert_Some. intros [[<- <-]|[Hne Ez]]; [done|].
    eapply cache_ok_keep; [|by apply (Bc l')]. intros p Hp. apply (Hk p).
    apply elem_of_app. left. unfold others_of. apply elem_of_app. left. apply lists_of_in. exists l', (link_blocks z).
    rewrite lookup_delete_ne by done. by rewrite lookup_fmap, Ez.
Qed.

Lemma link_cache_step hole w l x c' st' bytes' : net_ok hole w -> link l w = Some x -> (l ∉ rp_free_list (nw_link_pool w)) ->
  cache_rep (rest_of l x w) c' st' bytes' -> keeps (rest_of l x w) (cache_view (sl_proto x) w) st' ->
  blen bytes' < max_cached -> Z.of_nat (length (rc_list c')) < max_cached ->
  (forall p b, sl_rsp x = Some p -> nw_bufs w !! p = Some b -> sk_data b = 0 ->
     buf_bytes b `prefix_of` mem_bytes (nw_bufs w) (rc_list (sl_cache x)) -> buf_bytes b `prefix_of` bytes') ->
  net_ok hole (set_links (<[l := set_cache c' x]> (nw_links w)) (put_view (sl_proto x) st' w)).
Proof.
  intros W Hl Hfl [R1 R2 R3 R4 R5] Hk Hb Hn Hrsp.
  assert (Hrest : rest_of l x w = option_blocks (sl_rsp x) ++ others_of l w ++ other_of (sl_proto x) w).
  { unfold rest_of, other_blocks, others_of. by rewrite <- !app_assoc. }
  assert (Hmem : mem_bytes (cs_bufs st') (rc_list c') = bytes') by exact R3.
  apply (link_change hole w (sl_proto x) l x); try done; [by right| | |].
  - eapply store_ok_perm; [|exact R2]. rewrite Hrest. unfold link_blocks. cbn. by rewrite app_assoc.
  - eapply keeps_mono; [exact Hk|]. rewrite Hrest. set_solver.
  - destruct (wf_blocks _ _ _ _ W) as [_ Bc]. pose proof (Bc l _ (view_link _ _ _ Hl)) as [C1 C2 C3 C4 C5 C6].
    cbn [lv_cache lv_rsp lv_parents lv_proto link_v v_bufs view_of] in *.
    split; cbn [lv_cache lv_rsp lv_parents lv_proto link_v set_cache sl_cache sl_rsp sl_parents]; rewrite ?Hmem; try done.
    + rewrite R4. apply u32_small. unfold in_u32, max_cached in *. unfold blen in *. lia.
    + rewrite R5. apply u32_small. unfold in_u32, max_cached in *. lia.
    + intros p Hp. destruct (C6 p Hp) as (Hu & b & Eb & E0 & Hpre). split; [done|]. exists b.
      rewrite (Hk p) by (rewrite Hrest, Hp; set_solver). split; [done|]. split; [done|]. by eapply Hrsp.
Qed.

(** The blocks of the world are different and live. *)
Lemma all_of_nodup hole w : net_ok hole w -> NoDup (all_of w).
Proof.
  intros W. destruct (wf_blocks _ _ _ _ W) as [Bs _]. destruct (Bs NET_PROTO_TCP) as [Hnd _ _ _ _].
  rewrite <- app_assoc in Hnd. by apply list.NoDup_app in Hnd as (? & _ & _).
Qed.
Lemma block_live hole w p : net_ok hole w -> p ∈ all_of w -> exists b, nw_bufs w !! p = Some b /\ buf_ok b.
Proof.
  intros W Hp. destruct (wf_blocks _ _ _ _ W) as [Bs _]. destruct (Bs NET_PROTO_TCP) as [_ H2 _ _ _]. apply H2.
  rewrite !elem_of_app. left. by left.
Qed.
End net.
