(* ===== verification/NetLinks.v ===== *)
(** * The network layer: waking handlers, resetting links

    [NotifyThread], [NotifyAll], [CSockLink::Reset] and what uses them: every waiting
    thread of a link that is reset is made runnable, the link returns to the pool
    empty, and the invariant of [NetInv] is kept. *)

From Stdlib Require Import ZArith Lia.
From stdpp Require Import base gmap list option fin_maps.
From S2P Require Import Prelude Bytes HashList KeyTable RwCache NetData NetOps NetInv NetQueues NetBlocks.

Section world.
Context {EV TS TI : Type}.
Abbreviation NetW := (NetW EV TS TI).
Implicit Types (w : NetW) (h l d t : ptr).

(** ** Worlds that differ in queues, error codes and awake threads *)

Definition strip_err (x : CNetHandler) : CNetHandler := set_err 0 (strip_item x).
Definition strip_world w : NetW := set_items ∅ (set_links ∅ (set_io [] (set_run [] w))).

(** Threads leave the I/O queue for the run queue only. *)
Definition woken_only w w' : Prop :=
  nw_io w' ⊆ nw_io w /\ exists more, nw_run w' = nw_run w ++ more /\
    (forall t, t ∈ more -> t ∈ nw_io w /\ (t ∉ nw_io w')) /\ (forall t, t ∈ nw_io w -> (t ∈ nw_io w') \/ t ∈ more).
#[export] Instance woken_only_preorder : PreOrder woken_only.
Proof.
  split.
  - intros w. split; [done|]. exists []. rewrite app_nil_r. split; [done|]. split; [by intros t ?%elem_of_nil|tauto].
  - intros w1 w2 w3 [A1 (m1 & A2 & A3 & A4)] [B1 (m2 & B2 & B3 & B4)]. split; [by etransitivity|].
    exists (m1 ++ m2). split; [by rewrite B2, A2, app_assoc|]. split.
    + intros t [Ht|Ht]%elem_of_app; [destruct (A3 t Ht); split; [done|set_solver]|destruct (B3 t Ht); split; [set_solver|done]].
    + intros t Ht. rewrite elem_of_app. destruct (A4 t Ht) as [H|H]; [destruct (B4 t H)|]; tauto.
Qed.

Record calm w w' : Prop := {
  ca_items : strip_err <$> nw_items w' = strip_err <$> nw_items w;
  ca_links : strip_link <$> nw_links w' = strip_link <$> nw_links w;
  ca_rest : strip_world w' = strip_world w;
  ca_woken : woken_only w w';
}.
#[export] Instance calm_preorder : PreOrder calm.
Proof. split; [by split|]. intros w1 w2 w3 [A1 A2 A3 A4] [B1 B2 B3 B4]. split; try congruence. by etransitivity. Qed.

Lemma strip_err_fmap (m m' : gmap ptr CNetHandler) : strip_item <$> m' = strip_item <$> m -> strip_err <$> m' = strip_err <$> m.
Proof.
  intros H. assert (E : forall k : gmap ptr CNetHandler, strip_err <$> k = set_err 0 <$> (strip_item <$> k)).
  { intros k. by rewrite <- map_fmap_compose. }
  by rewrite !E, H.
Qed.
Lemma rest_io_run w w' : set_items ∅ (set_links ∅ w') = set_items ∅ (set_links ∅ w) ->
  nw_io w' = nw_io w /\ nw_run w' = nw_run w /\ strip_world w' = strip_world w.
Proof.
  intros H. destruct w, w'. unfold set_items, set_links, strip_world, set_io, set_run in *. nsimpl in H. nsimpl.
  injection H as -> -> -> -> -> -> -> -> -> -> -> ->. done.
Qed.
Lemma queues_only_calm w w' : queues_only w w' -> calm w w'.
Proof.
  intros [Q1 Q2 Q3]. destruct (rest_io_run _ _ Q3) as (Ei & Er & Es). split; [by apply strip_err_fmap|done|done|].
  split; [by rewrite Ei|]. exists []. rewrite Ei, Er, app_nil_r. split; [done|]. split; [by intros t ?%elem_of_nil|tauto].
Qed.

Lemma calm_item w w' h x : calm w w' -> item h w = Some x -> exists x', item h w' = Some x' /\ strip_err x' = strip_err x.
Proof. intros [H _ _ _] Eh. unfold item in *. by eapply (fmap_eq_lookup strip_err (nw_items w') (nw_items w)). Qed.
Lemma calm_link w w' l y : calm w w' -> link l w = Some y -> exists y', link l w' = Some y' /\ strip_link y' = strip_link y.
Proof. intros [_ H _ _] Eh. unfold link in *. by eapply (fmap_eq_lookup strip_link (nw_links w') (nw_links w)). Qed.
Lemma calm_rest w w' : calm w w' -> nw_env w' = nw_env w /\ nw_dests w' = nw_dests w /\ nw_sess w' = nw_sess w /\
  nw_ips w' = nw_ips w /\ nw_bufs w' = nw_bufs w /\ nw_udp w' = nw_udp w /\ nw_tcp w' = nw_tcp w /\
  nw_item_pool w' = nw_item_pool w /\ nw_link_pool w' = nw_link_pool w /\ nw_dest_pool w' = nw_dest_pool w.
Proof.
  intros [_ _ H _]. unfold strip_world in H. destruct w, w'. unfold set_items, set_links, set_io, set_run in H. nsimpl in H.
  injection H as -> -> -> -> -> -> -> -> -> ->. done.
Qed.

(** ** [NotifyThread] *)

Definition with_err (r : Z) (x : CNetHandler) : CNetHandler := if r =? RC_SUCCESS then x else set_err r x.
Definition awake (t : option ptr) w : NetW :=
  match t with Some t => if bool_decide (t ∈ nw_io w) then wake_thread t w else w | None => w end.

Lemma NotifyThread_eq w h x r : item h w = Some x ->
  NotifyThread h r w = Some (awake (nh_thread x) (set_items (<[h := with_err r x]> (nw_items w)) w)).
Proof.
  intros Hh. unfold NotifyThread, with_err, upd_item, item in *. rewrite Hh. cbn [mbind option_bind].
  destruct (r =? RC_SUCCESS).
  - cbn [mbind option_bind]. rewrite Hh. cbn [mbind option_bind]. rewrite insert_id by done.
    assert (Hw : set_items (nw_items w) w = w) by (by destruct w). rewrite Hw. unfold awake.
    by destruct (nh_thread x).
  - cbn [mbind option_bind]. nsimpl. rewrite lookup_insert_eq. cbn [mbind option_bind]. unfold awake.
    assert (Et : nh_thread (set_err r x) = nh_thread x) by (by destruct x). rewrite Et.
    by destruct (nh_thread x).
Qed.

Lemma awake_ok (t : option ptr) w : view_of (awake t w) = view_of w /\ calm w (awake t w) /\ nw_items (awake t w) = nw_items w /\
  nw_links (awake t w) = nw_links w /\ forall t', t = Some t' -> t' ∉ nw_io (awake t w).
Proof.
  unfold awake. destruct t as [t|]; [|by split_and!; try reflexivity].
  case_bool_decide as Ht; [|split_and!; try reflexivity; by intros t' [= <-]].
  unfold wake_thread. split_and!; try done.
  - split; try done. split; nsimpl.
    + intros t' Hin. apply list_elem_of_filter in Hin. tauto.
    + exists [t]. split; [done|]. split.
      * intros t' ->%list_elem_of_singleton. split; [done|]. rewrite list_elem_of_filter. tauto.
      * intros t' Hin. rewrite list_elem_of_filter, list_elem_of_singleton. destruct (decide (t' = t)); tauto.
  - intros t' [= <-]. nsimpl. rewrite list_elem_of_filter. tauto.
Qed.

Definition notified w h (r : Z) w' : Prop := exists x, item h w = Some x /\ item h w' = Some (with_err r x) /\
  (forall p, p <> h -> item p w' = item p w) /\ nw_links w' = nw_links w /\ calm w w' /\
  (forall t, nh_thread x = Some t -> t ∉ nw_io w').

Lemma NotifyThread_ok w h x r : item h w = Some x ->
  exists w', NotifyThread h r w = Some w' /\ view_of w' = view_of w /\ notified w h r w'.
Proof.
  intros Hh. rewrite (NotifyThread_eq w h x r Hh). set (w1 := set_items _ w).
  destruct (awake_ok (nh_thread x) w1) as (V & C & EI & EL & T). eexists. split; [reflexivity|].
  assert (Hv : view_of w1 = view_of w).
  { unfold w1, view_of. nsimpl. f_equal. apply (fmap_insert_same item_v _ h x); [done|].
    unfold with_err. destruct (r =? RC_SUCCESS); by destruct x. }
  split; [by rewrite V|]. exists x. split; [done|]. unfold item in *. rewrite EI, EL. unfold w1 at 1 2 3. nsimpl.
  rewrite lookup_insert_eq. split_and!; try done.
  - intros p Hne. by rewrite lookup_insert_ne.
  - transitivity w1; [|done]. split; try done.
    + unfold w1. nsimpl. apply (fmap_insert_same strip_err _ h x); [done|]. unfold with_err. destruct (r =? RC_SUCCESS); by destruct x.
    + unfold w1. split; [done|]. exists []. nsimpl. rewrite app_nil_r. split; [done|]. split; [by intros t ?%elem_of_nil|tauto].
Qed.

End world.

Section net.
Context {EV TS TI : Type} `{!NetEnv EV, !KeyTable sess_key TS, !KeyTable dest_key TI}.
Context (sess_rep : (ptr -> sess_key) -> TS -> gmap sess_key ptr -> Prop) `{!KeyTableLaws sess_key TS sess_rep}.
Context (ip_rep : (ptr -> dest_key) -> TI -> gmap dest_key ptr -> Prop) `{!KeyTableLaws dest_key TI ip_rep}.
Context (rcvd sent : EV -> list Z) {HLaws : CacheEnvLaws rcvd sent}.

Abbreviation NetW := (NetW EV TS TI).
Abbreviation net_ok := (net_ok sess_rep ip_rep).
Implicit Types (w : NetW) (h l d t : ptr) (hole : option ptr).

(** ** [NotifyAll] *)

(** One round: the handler is told, and leaves its queue. *)
Lemma notify_unlink_ok hole w h x r : net_ok hole w -> item h w = Some x ->
  exists w', notify_unlink r h w = Some w' /\ net_ok hole w' /\ calm w w' /\
    (forall l y y' q p, link l w = Some y -> link l w' = Some y' -> p ∈ qget q (link_q y') <-> p ∈ qget q (link_q y) /\ p <> h) /\
    (exists x', item h w' = Some x' /\ nh_conn x' = None /\ nh_err x' = nh_err (with_err r x)) /\
    (forall t, nh_thread x = Some t -> t ∉ nw_io w') /\ (forall p, p <> h -> item p w' = item p w).
Proof.
  intros W Hh. unfold notify_unlink. destruct (NotifyThread_ok w h x r Hh) as (w1 & E1 & V1 & (x0 & Hx0 & Hh1 & Ho1 & L1 & C1 & T1)).
  rewrite E1. cbn [mbind option_bind]. rewrite Hh in Hx0. injection Hx0 as <-.
  assert (W1 : net_ok hole w1) by (by eapply net_ok_view).
  destruct (Unlink_ok sess_rep ip_rep hole w1 h _ W1 Hh1) as (w2 & -> & W2 & (Q2 & x2 & Hx2 & Hc2 & HQ2 & HF2)).
  exists w2. split; [done|]. split; [done|]. split; [etransitivity; [exact C1|by apply queues_only_calm]|]. split; [|split; [|split]].
  - intros l y y' q p Hy Hy'. apply (HQ2 l); [|done]. unfold link in *. by rewrite L1.
  - exists x2. split; [done|]. split; [done|]. destruct (queues_only_item _ _ _ _ Q2 Hh1) as (x3 & E3 & S3).
    rewrite Hx2 in E3. injection E3 as <-. apply (f_equal nh_err) in S3. exact S3.
  - intros t Ht Hin. apply (T1 t Ht). destruct (rest_io_run _ _ (qq_rest _ _ Q2)) as (<- & _). done.
  - intros p Hne. rewrite <- (Ho1 p Hne). destruct (item p w1) as [z|] eqn:Ez.
    + destruct (queues_only_item _ _ _ _ Q2 Ez) as (z' & Ez' & _). by rewrite (HF2 p z z' Hne Ez Ez') in Ez'.
    + destruct (item p w2) as [z'|] eqn:Ez'; [|done].
      destruct (fmap_eq_lookup strip_item _ _ _ _ (qq_items _ _ Q2) Ez') as (z & E2 & _). unfold item in Ez. congruence.
Qed.

(** After handlers [Q] were told the result [r]: they are in no queue, and their threads
    may run. *)
Record told (r : Z) (Q : list ptr) w w' : Prop := {
  to_calm : calm w w';
  to_queue l y y' q p : link l w = Some y -> link l w' = Some y' -> p ∈ qget q (link_q y') <-> p ∈ qget q (link_q y) /\ p ∉ Q;
  to_item h x : h ∈ Q -> item h w = Some x -> exists x', item h w' = Some x' /\ nh_conn x' = None /\ nh_err x' = nh_err (with_err r x);
  to_thread h x t : h ∈ Q -> item h w = Some x -> nh_thread x = Some t -> t ∉ nw_io w';
  to_frame p : p ∉ Q -> item p w' = item p w;
}.

Lemma with_err_twice r x x' : nh_err x' = nh_err (with_err r x) -> nh_err (with_err r x') = nh_err (with_err r x).
Proof. unfold with_err. destruct (r =? RC_SUCCESS); [done|]. by destruct x, x'. Qed.

Lemma calm_thread w w' h x x' : calm w w' -> item h w = Some x -> item h w' = Some x' -> nh_thread x' = nh_thread x.
Proof.
  intros C Hx Hx'. destruct (calm_item _ _ _ _ C Hx) as (x2 & E2 & S2). rewrite Hx' in E2. injection E2 as <-.
  apply (f_equal nh_thread) in S2. exact S2.
Qed.

Lemma told_trans r Q1 Q2 w1 w2 w3 : told r Q1 w1 w2 -> told r Q2 w2 w3 -> told r (Q1 ++ Q2) w1 w3.
Proof.
  intros [C1 A1 A2 A3 A4] [C2 B1 B2 B3 B4]. split; [by etransitivity|..].
  - intros l y y' q p Hy Hy'. destruct (calm_link _ _ _ _ C1 Hy) as (y2 & Hy2 & _).
    rewrite (B1 l y2 y' q p Hy2 Hy'), (A1 l y y2 q p Hy Hy2), elem_of_app. tauto.
  - intros h x Hin Hx. destruct (calm_item _ _ _ _ C1 Hx) as (x2 & Hx2 & _). apply elem_of_app in Hin.
    destruct (decide (h ∈ Q2)) as [H2|H2].
    + destruct (B2 h x2 H2 Hx2) as (x3 & Hx3 & Hc3 & He3). exists x3. split; [done|]. split; [done|]. rewrite He3.
      destruct (decide (h ∈ Q1)) as [H1|H1].
      * destruct (A2 h x H1 Hx) as (x2' & Hx2' & _ & He2). rewrite Hx2 in Hx2'. injection Hx2' as <-. by apply with_err_twice.
      * rewrite (A4 h H1), Hx in Hx2. by injection Hx2 as <-.
    + rewrite (B4 h H2). apply A2; [tauto|done].
  - intros h x t [Hin|Hin]%elem_of_app Hx Ht Hio.
    + apply (A3 h x t Hin Hx Ht). by apply (proj1 (ca_woken _ _ C2)).
    + destruct (calm_item _ _ _ _ C1 Hx) as (x2 & Hx2 & _). apply (B3 h x2 t Hin Hx2); [|done].
      rewrite <- Ht. by apply (calm_thread w1 w2 h).
  - intros p Hp. rewrite elem_of_app in Hp. rewrite B4, A4 by tauto. done.
Qed.

Lemma told_nil r w : told r [] w w.
Proof.
  split; [reflexivity|..|done].
  - intros l y y' q p Hy Hy'. rewrite Hy in Hy'. injection Hy' as <-. pose proof (not_elem_of_nil p). tauto.
  - by intros h x ?%elem_of_nil.
  - by intros h x t ?%elem_of_nil.
Qed.

Lemma notify_unlink_told hole w h x r : net_ok hole w -> item h w = Some x ->
  exists w', notify_unlink r h w = Some w' /\ net_ok hole w' /\ told r [h] w w'.
Proof.
  intros W Hh. destruct (notify_unlink_ok hole w h x r W Hh) as (w' & E' & W' & C & Hq & Hi & Ht & Hf).
  exists w'. split; [done|]. split; [done|]. split; [done|..].
  - intros l y y' q p Hy Hy'. rewrite list_elem_of_singleton. by eapply Hq.
  - intros h' x' ->%list_elem_of_singleton Hx'. rewrite Hh in Hx'. by injection Hx' as <-.
  - intros h' x' t ->%list_elem_of_singleton Hx'. rewrite Hh in Hx'. injection Hx' as <-. apply Ht.
  - intros p Hp. apply Hf. by rewrite list_elem_of_singleton in Hp.
Qed.

Lemma foreach_told hole r Q w : net_ok hole w -> (forall h, h ∈ Q -> is_Some (item h w)) ->
  exists w', foreach (notify_unlink r) Q w = Some w' /\ net_ok hole w' /\ told r Q w w'.
Proof.
  revert w. induction Q as [|h Q IH]; intros w W HQ; [exists w; split_and!; [done|done|apply told_nil]|].
  destruct (HQ h ltac:(by left)) as [x Hx]. cbn [foreach]. destruct (notify_unlink_told hole w h x r W Hx) as (w1 & -> & W1 & T1).
  cbn [mbind option_bind]. destruct (IH w1 W1) as (w2 & -> & W2 & T2).
  { intros p Hp. destruct (HQ p ltac:(by right)) as [z Hz]. destruct (calm_item _ _ _ _ (to_calm _ _ _ _ T1) Hz) as (z' & E' & _). by exists z'. }
  exists w2. split; [done|]. split; [done|]. by apply (told_trans r [h] Q w w1 w2).
Qed.

Lemma queue_items hole w l y q h : net_ok hole w -> link l w = Some y -> h ∈ qget q (link_q y) -> is_Some (item h w).
Proof.
  intros W Hl Hin. destruct (qo_queue _ _ _ (wf_queues _ _ _ _ W) _ _ _ _ (view_link _ _ _ Hl) Hin) as (v & s & Ev & _).
  destruct (view_item_inv _ _ _ Ev) as (x & Hx & _). by exists x.
Qed.

(** All handlers of a link. *)
Definition waiters (y : CSockLink) : list ptr := sl_conn_list y ++ sl_send_list y ++ sl_recv_list y ++ sl_idle_list y.

Lemma told_ext r Q Q' w w' : (forall p, p ∈ Q <-> p ∈ Q') -> told r Q w w' -> told r Q' w w'.
Proof.
  intros H [A1 A2 A3 A4 A5]. split; try done.
  - intros l y y' q p Hy Hy'. rewrite <- H. by eapply A2.
  - intros h x Hin. apply A3. by apply H.
  - intros h x t Hin. apply A4. by apply H.
  - intros p Hp. apply A5. by rewrite H.
Qed.

(** The loops of [NotifyAll] over the queues [qs]. *)
Lemma notify_queues hole l r qs w y : net_ok hole w -> link l w = Some y ->
  exists w' y', foldr (fun q k w => x ← link l w; w ← foreach (notify_unlink r) (qget q (link_q x)) w; k w) Some qs w = Some w' /\
    net_ok hole w' /\ told r (qs ≫= fun q => qget q (link_q y)) w w' /\ link l w' = Some y'.
Proof.
  revert w y. induction qs as [|q qs IH]; intros w y W Hl; [exists w, y; split_and!; [done|done|apply told_nil|done]|].
  cbn [foldr]. rewrite Hl. cbn [mbind option_bind].
  destruct (foreach_told hole r (qget q (link_q y)) w W) as (w1 & -> & W1 & T1); [intros h Hh; by eapply queue_items|].
  cbn [mbind option_bind]. destruct (calm_link _ _ _ _ (to_calm _ _ _ _ T1) Hl) as (y1 & L1 & _).
  destruct (IH w1 y1 W1 L1) as (w2 & y2 & -> & W2 & T2 & L2). exists w2, y2. split_and!; try done.
  eapply told_ext; [|exact (told_trans _ _ _ _ _ _ T1 T2)]. intros p. rewrite bind_cons, !elem_of_app, !list_elem_of_bind.
  split; [intros [?|(q' & Hp & ?)]; [tauto|]|intros [?|(q' & Hp & ?)]; [tauto|]].
  - right. exists q'. split; [|done]. by apply (to_queue _ _ _ _ T1 l y y1 q' p Hl L1).
  - destruct (decide (p ∈ qget q (link_q y))); [tauto|]. right. exists q'. split; [|done].
    by apply (to_queue _ _ _ _ T1 l y y1 q' p Hl L1).
Qed.

Lemma NotifyAll_ok hole w l y r : net_ok hole w -> link l w = Some y ->
  exists w' y', NotifyAll l r w = Some w' /\ net_ok hole w' /\ told r (waiters y) w w' /\ link l w' = Some y' /\ link_q y' = no_queues.
Proof.
  intros W Hl. destruct (notify_queues hole l r [QConn; QSend; QRecv; QIdle] w y W Hl) as (w' & y' & E' & W' & T' & L').
  exists w', y'. split; [|split; [done|]].
  - unfold NotifyAll. rewrite <- E'. cbn [foldr qget qu_conn qu_send qu_recv qu_idle link_q]. rewrite Hl. cbn [mbind option_bind].
    destruct (foreach _ (sl_conn_list y) w) as [w1|]; [|done]. cbn [mbind option_bind]. destruct (link l w1) as [y1|]; [|done].
    cbn [mbind option_bind]. destruct (foreach _ (sl_send_list y1) w1) as [w2|]; [|done]. cbn [mbind option_bind].
    destruct (link l w2) as [y2|]; [|done]. cbn [mbind option_bind].
    destruct (foreach _ (sl_recv_list y2) w2) as [w3|]; [|done]. cbn [mbind option_bind].
    destruct (link l w3) as [y3|]; [|done]. cbn [mbind option_bind]. by destruct (foreach _ (sl_idle_list y3) w3).
  - assert (Ew : waiters y = [QConn; QSend; QRecv; QIdle] ≫= fun q => qget q (link_q y)).
    { cbn. by rewrite app_nil_r. }
    rewrite Ew. split; [done|]. split; [done|].
    assert (Hno : forall q p, p ∉ qget q (link_q y')).
    { intros q p Hp. apply (to_queue _ _ _ _ T' l y y' q p Hl L') in Hp as [Hp Hn]. apply Hn. apply list_elem_of_bind.
      exists q. split; [done|]. destruct q; set_solver. }
    destruct (link_q y') as [a b c d] eqn:Eq. unfold no_queues.
    pose proof (Hno QConn) as N1. pose proof (Hno QSend) as N2. pose proof (Hno QRecv) as N3. pose proof (Hno QIdle) as N4.
    cbn in N1, N2, N3, N4. f_equal; by apply list.elem_of_nil_inv.
Qed.

(** ** [Close] *)

Lemma net_ok_env hole w e : net_ok hole w -> net_ok hole (set_nw_env e w).
Proof. by apply net_ok_view. Qed.

(** A link is replaced by one with the same queues and blocks; its owner and its entry
    may change only when the link is the hole. *)
Lemma replace_link_ok hole w l x y : net_ok hole w -> link l w = Some x -> (l ∉ rp_free_list (nw_link_pool w)) ->
  link_q y = link_q x -> (hole = Some l \/ (sl_parents y = sl_parents x /\ sl_linked y = sl_linked x)) ->
  (rc_list (sl_cache y) = rc_list (sl_cache x) /\ rc_len (sl_cache y) = rc_len (sl_cache x) /\ rc_count (sl_cache y) = rc_count (sl_cache x)) ->
  sl_rsp y = sl_rsp x -> (sl_rsp x = None \/ sl_proto y = sl_proto x) -> (rc_list (sl_cache y) <> [] \/ sl_parents y <> None -> rc_pool (sl_cache y) = true) ->
  net_ok hole (set_links (<[l := y]> (nw_links w)) w).
Proof.
  intros W Hl Hf Hq Hp (Hc1 & Hc2 & Hc3) Hr Hpr Hpool. rewrite <- (put_view_id NET_PROTO_TCP w) at 2.
  pose proof W as [_ _ _ _ [Bs Bc]]. apply (link_change sess_rep ip_rep hole w NET_PROTO_TCP l x); try done.
  - eapply store_ok_mem; [..|eapply store_ok_perm; [|exact (Bs NET_PROTO_TCP)]]; try done.
    rewrite app_assoc. apply Permutation_app; [|done]. change (all_blocks _ _) with (all_of w). rewrite (all_of_link w l x Hl).
    unfold link_blocks. cbn. by rewrite Hc1, Hr.
  - pose proof (Bc l _ (view_link _ _ _ Hl)) as [C1 C2 C3 C4 C5 C6]. cbn [v_bufs view_of lv_cache lv_rsp lv_parents lv_proto link_v] in *.
    split; cbn [lv_cache lv_rsp lv_parents lv_proto link_v cs_bufs cache_view]; rewrite ?Hc1, ?Hc2, ?Hc3, ?Hr; try done.
    + by rewrite <- Hc1.
    + intros p Hp'. destruct (C6 p Hp') as (Hu & R). split; [|done]. destruct Hpr as [?| ->]; [congruence|done].
Qed.
(** Fields of a link that the invariant does not look at. *)
Lemma set_link_ok hole w l x y : net_ok hole w -> link l w = Some x -> (l ∉ rp_free_list (nw_link_pool w)) ->
  link_q y = link_q x -> sl_parents y = sl_parents x -> sl_linked y = sl_linked x -> sl_cache y = sl_cache x -> sl_rsp y = sl_rsp x ->
  sl_proto y = sl_proto x -> net_ok hole (set_links (<[l := y]> (nw_links w)) w).
Proof.
  intros W Hl Hf Hq Hp Hk Hc Hr Hpr. apply (replace_link_ok hole w l x); rewrite ?Hc; try done; [by right|by right|]. rewrite Hp.
  apply (co_pool _ _ (bk_cache _ (wf_blocks _ _ _ _ W) l _ (view_link _ _ _ Hl))).
Qed.

Definition closed_link (x : CSockLink) : CSockLink := if sl_fd x <? 0 then x else set_fd (-1) x.
Lemma Close_ok hole w l x : net_ok hole w -> link l w = Some x -> (l ∉ rp_free_list (nw_link_pool w)) ->
  exists w' e, Close l w = Some w' /\ net_ok hole w' /\ w' = set_links (<[l := closed_link x]> (nw_links w)) (set_nw_env e w) /\
    sl_fd (closed_link x) < 0.
Proof.
  intros W Hl Hf. unfold Close, closed_link. rewrite Hl. cbn [mbind option_bind]. destruct (Z.ltb_spec (sl_fd x) 0) as [Hfd|Hfd].
  - exists w, (nw_env w). unfold link in Hl. rewrite insert_id by done. split_and!; try done. by destruct w.
  - unfold env_do. destruct (EpollDelObj l (sl_fd x) (sl_events x) (nw_env w)) as [b e].
    set (e' := sys_close _ _). unfold upd_link, link in *. nsimpl. rewrite Hl. cbn [mbind option_bind].
    eexists _, e'. split; [reflexivity|]. split; [|by destruct x].
    change (set_links _ _) with (set_nw_env e' (set_links (<[l := set_fd (-1) x]> (nw_links w)) w)).
    apply net_ok_env. by apply (set_link_ok hole w l x).
Qed.

(** ** [CSockLink::Reset] *)

Lemma rsp_in_all w l x p : link l w = Some x -> sl_rsp x = Some p -> p ∈ all_of w.
Proof.
  intros Hl Hr. rewrite in_all_of. left. exists l, x. split; [done|]. unfold link_blocks. cbn. rewrite Hr. set_solver.
Qed.

(** The blocks of a link go: those of its cache to the pool. *)
Lemma release_blocks hole w l x : net_ok hole w -> link l w = Some x ->
  exists c st, rw_cache_destroy (Some (sl_cache x)) (cache_view (sl_proto x) w) = Some (c, st) /\
    rc_list (default (sl_cache x) c) = [] /\ rc_len (default (sl_cache x) c) = 0 /\ rc_count (default (sl_cache x) c) = 0 /\
    store_ok st (option_blocks (sl_rsp x) ++ others_of l w ++ other_of (sl_proto x) w) /\
    keeps (option_blocks (sl_rsp x) ++ others_of l w ++ other_of (sl_proto x) w) (cache_view (sl_proto x) w) st.
Proof.
  intros W Hl. pose proof W as [_ _ _ _ [Bs Bc]]. pose proof (Bc l _ (view_link _ _ _ Hl)) as [C1 C2 C3 C4 C5 C6].
  cbn [v_bufs view_of lv_cache lv_rsp lv_parents lv_proto link_v] in *.
  assert (HS : store_ok (cache_view (sl_proto x) w) (rc_list (sl_cache x) ++ option_blocks (sl_rsp x) ++ others_of l w ++ other_of (sl_proto x) w)).
  { eapply store_ok_mem; [..|eapply store_ok_perm; [|exact (Bs (sl_proto x))]]; try done.
    change (all_blocks _ _) with (all_of w). rewrite (all_of_link w l x Hl). unfold link_blocks, others_of. cbn. by rewrite <- !app_assoc. }
  unfold rw_cache_destroy. destruct (rc_pool (sl_cache x)) eqn:Hp; cbn [negb].
  - destruct (free_all_ok rcvd sent _ _ _ HS) as (st & -> & HS' & [Hk _]). cbn [mbind option_bind]. by exists (Some (mkCache [] 0 0 false)), st.
  - assert (Hnil : rc_list (sl_cache x) = []).
    { destruct (rc_list (sl_cache x)) eqn:El; [done|]. assert (false = true) by (apply C1; by left). done. }
    exists (Some (sl_cache x)), (cache_view (sl_proto x) w). cbn [default from_option id]. rewrite Hnil in *.
    split_and!; try done.
Qed.

(** What [Reset] makes of a link. *)
Definition cleared (x : CSockLink) : Prop :=
  link_q x = no_queues /\ sl_proto x = NET_PROTO_TCP /\ sl_errno x = 0 /\ sl_state x = 0 /\ rc_list (sl_cache x) = [] /\
  sl_rsp x = None /\ sl_parents x = None /\ sl_fd x = -1.

Lemma LinkReset_tail w l x : net_ok (Some l) w -> link l w = Some x -> (l ∉ rp_free_list (nw_link_pool w)) -> link_q x = no_queues ->
  exists w' y e bufs pool, ('(c, st) ← rw_cache_destroy (Some (sl_cache x)) (cache_view (sl_proto x) w);
      let w := put_view (sl_proto x) st w in
      w ← upd_link l (set_cache (default (sl_cache x) c)) w;
      w ← drop_block (sl_rsp x) w;
      let '(now, w) := env_do mt_time_ms w in
      upd_link l (fun x => mkLink [] [] [] [] NET_PROTO_TCP 0 0 now (sl_cache x) None None (-1) 0 (sl_release x) (sl_linked x)) w) = Some w' /\
    net_ok (Some l) w' /\ link l w' = Some y /\ cleared y /\ sl_linked y = sl_linked x /\
    w' = set_links (<[l := y]> (nw_links w)) (put_view (sl_proto x) (mkCs e bufs pool) w).
Proof.
  intros W Hl Hf Hq. destruct (release_blocks _ w l x W Hl) as (c & st & -> & Hc1 & Hc2 & Hc3 & HS & Hk). cbn [mbind option_bind]. cbv zeta.
  set (proto := sl_proto x) in *. set (w1 := put_view proto st w).
  assert (Hl1 : link l w1 = Some x) by (unfold w1, put_view, link; destruct (proto =? NET_PROTO_TCP); exact Hl).
  rewrite (upd_link_eq l _ w1 x Hl1). cbn [mbind option_bind]. set (w2 := set_links _ w1).
  assert (Hb2 : nw_bufs w2 = cs_bufs st) by (unfold w2, w1, put_view; by destruct (proto =? NET_PROTO_TCP)).
  rewrite drop_block_eq.
  2: { intros p Hp. rewrite Hb2. destruct (store_ok_block _ _ p HS) as (b & Eb & _); [rewrite Hp; set_solver|]. by exists b. }
  cbn [mbind option_bind]. unfold env_do. destruct (mt_time_ms _) as [now e]. set (w3 := set_nw_env e _).
  set (st2 := mkCs e (match sl_rsp x with Some p => delete p (cs_bufs st) | None => cs_bufs st end) (cs_pool st)).
  set (y := mkLink [] [] [] [] NET_PROTO_TCP 0 0 now (default (sl_cache x) c) None None (-1) 0 (sl_release x) (sl_linked x)).
  assert (Hl3 : link l w3 = Some (set_cache (default (sl_cache x) c) x)).
  { unfold link. unfold w3. nsimpl. transitivity (nw_links w2 !! l); [by destruct (sl_rsp x)|]. unfold w2. nsimpl. apply lookup_insert_eq. }
  rewrite (upd_link_eq l _ w3 _ Hl3).
  assert (Hfin : set_links (<[l := y]> (nw_links w3)) w3 = set_links (<[l := y]> (nw_links w)) (put_view proto st2 w)).
  { unfold w3, w2, w1, st2, put_view, set_links, without_block. destruct (proto =? NET_PROTO_TCP); destruct (sl_rsp x); nsimpl;
      by rewrite insert_insert_eq. }
  exists (set_links (<[l := y]> (nw_links w3)) w3), y, e, (cs_bufs st2), (cs_pool st).
  split; [reflexivity|]. split; [|split; [|split; [|split]]].
  - rewrite Hfin. assert (HS2 : store_ok st2 (others_of l w ++ other_of proto w) /\ keeps (others_of l w ++ other_of proto w) (cache_view proto w) st2).
    { destruct (sl_rsp x) as [p|]; cbn [option_blocks app] in HS, Hk.
      - destruct (store_ok_delete st p _ HS) as [D1 D2]. split; [by eapply store_ok_mem; [..|exact D1]|].
        intros q Hq'. transitivity (cs_bufs st !! q); [exact (D2 q Hq')|]. apply Hk. by right.
      - split; [by eapply store_ok_mem; [..|exact HS]|done]. }
    apply (link_change sess_rep ip_rep (Some l) w proto l x); try done.
    + by left.
    + unfold link_blocks. cbn [lv_cache lv_rsp link_v sl_cache sl_rsp y]. rewrite Hc1. apply HS2.
    + apply HS2.
    + split; cbn [lv_cache lv_rsp lv_parents lv_proto link_v sl_cache sl_rsp sl_parents y]; rewrite ?Hc1, ?Hc2, ?Hc3; try done.
      by intros [?|?].
  - unfold link. nsimpl. apply lookup_insert_eq.
  - unfold cleared. cbn. rewrite Hc1. done.
  - done.
  - exact Hfin.
Qed.

(** A reset of link [l] with the waiters [Q]: they are told the result [r], their threads
    may run, and the rest of the world stays. *)
Record reset_of l (r : Z) (Q : list ptr) w w' : Prop := {
  ro_items : strip_err <$> nw_items w' = strip_err <$> nw_items w;
  ro_links : strip_link <$> delete l (nw_links w') = strip_link <$> delete l (nw_links w);
  ro_dests : nw_dests w' = nw_dests w;
  ro_sess : nw_sess w' = nw_sess w;
  ro_ips : nw_ips w' = nw_ips w;
  ro_pools : nw_item_pool w' = nw_item_pool w /\ nw_link_pool w' = nw_link_pool w /\ nw_dest_pool w' = nw_dest_pool w;
  ro_woken : woken_only w w';
  ro_queue l' y y' q p : l' <> l -> link l' w = Some y -> link l' w' = Some y' -> p ∈ qget q (link_q y') <-> p ∈ qget q (link_q y) /\ p ∉ Q;
  ro_item h x : h ∈ Q -> item h w = Some x -> exists x', item h w' = Some x' /\ nh_conn x' = None /\ nh_err x' = nh_err (with_err r x);
  ro_thread h x t : h ∈ Q -> item h w = Some x -> nh_thread x = Some t -> t ∉ nw_io w';
  ro_frame p : p ∉ Q -> item p w' = item p w;
}.

Lemma LinkReset_ok w l x : net_ok (Some l) w -> link l w = Some x ->
  exists w' y, LinkReset l w = Some w' /\ net_ok (Some l) w' /\ link l w' = Some y /\ cleared y /\ sl_linked y = sl_linked x /\
    reset_of l (sl_errno x) (waiters x) w w'.
Proof.
  intros W Hl. assert (Hf : l ∉ rp_free_list (nw_link_pool w)) by (by apply (lo_hole _ _ _ _ (wf_links _ _ _ _ W))).
  unfold LinkReset. destruct (Close_ok _ w l x W Hl Hf) as (w1 & e & -> & W1 & E1 & _). cbn [mbind option_bind].
  set (x1 := closed_link x) in *. assert (Hl1 : link l w1 = Some x1) by (rewrite E1; unfold link; nsimpl; apply lookup_insert_eq).
  assert (X1 : waiters x1 = waiters x /\ sl_errno x1 = sl_errno x /\ sl_linked x1 = sl_linked x)
    by (unfold x1, closed_link; destruct (sl_fd x <? 0); by destruct x).
  destruct X1 as (XQ & XE & XL). rewrite Hl1. cbn [mbind option_bind]. rewrite XE.
  destruct (NotifyAll_ok _ w1 l x1 (sl_errno x) W1 Hl1) as (w2 & x2 & -> & W2 & T & Hl2 & Hq2). cbn [mbind option_bind].
  rewrite Hl2. cbn [mbind option_bind]. rewrite XQ in T. destruct (calm_rest _ _ (to_calm _ _ _ _ T)) as (_ & D2 & S2 & I2 & _ & _ & _ & P1 & P2 & P3).
  assert (Hf2 : l ∉ rp_free_list (nw_link_pool w2)) by (rewrite P2, E1; exact Hf).
  destruct (LinkReset_tail w2 l x2 W2 Hl2 Hf2 Hq2) as (w' & y & e' & bufs & pool & E' & W' & Hy & Hc & Hk & ->).
  exists (set_links (<[l := y]> (nw_links w2)) (put_view (sl_proto x2) (mkCs e' bufs pool) w2)), y.
  split; [exact E'|]. split; [done|]. split; [done|]. split; [done|]. split.
  { rewrite Hk, <- XL. destruct (calm_link _ _ _ _ (to_calm _ _ _ _ T) Hl1) as (z & Ez & Sz). rewrite Hl2 in Ez. injection Ez as <-.
    by apply (f_equal sl_linked) in Sz. }
  clear E'. set (w3 := put_view _ _ w2).
  assert (F : nw_items w3 = nw_items w2 /\ nw_links w3 = nw_links w2 /\ nw_dests w3 = nw_dests w2 /\ nw_sess w3 = nw_sess w2 /\
    nw_ips w3 = nw_ips w2 /\ nw_item_pool w3 = nw_item_pool w2 /\ nw_link_pool w3 = nw_link_pool w2 /\ nw_dest_pool w3 = nw_dest_pool w2 /\
    nw_io w3 = nw_io w2 /\ nw_run w3 = nw_run w2).
  { unfold w3, put_view. by destruct (sl_proto x2 =? NET_PROTO_TCP). }
  destruct F as (F1 & F2 & F3 & F4 & F5 & F6 & F7 & F8 & F9 & F10). destruct T as [T1 T2 T3 T4 T5]. rewrite E1 in *.
  split; unfold item, link; nsimpl; rewrite ?F1, ?F2, ?F3, ?F4, ?F5, ?F6, ?F7, ?F8, ?F9; try done.
  - exact (ca_items _ _ T1).
  - rewrite delete_insert_eq. pose proof (ca_links _ _ T1) as HL. nsimpl in HL.
    apply (f_equal (delete l)) in HL. rewrite <- !fmap_delete, delete_insert_eq in HL. exact HL.
  - destruct (ca_woken _ _ T1) as [A B]. unfold woken_only. nsimpl. rewrite F9, F10. done.
  - intros l' z z' q p Hne Hz. rewrite lookup_insert_ne by done. intros Hz'. apply (T2 l' z z' q p); [|done].
    unfold link. nsimpl. by rewrite lookup_insert_ne.
Qed.
End net.
