(* ===== verification/NetDest.v ===== *)
(** * The network layer: destinations and the pools of links

    A link goes from its destination to the pool and back: [Destroy] tells its waiters
    and puts it into the pool, [GetSockLink] takes it out or uses the links of the
    destination in turn; [DeleteDestLink] gives up a destination with all its links. *)

From Stdlib Require Import ZArith Lia.
From stdpp Require Import base gmap list option fin_maps.
From S2P Require Import Prelude Bytes HashList KeyTable RwCache NetData NetOps NetInv NetQueues NetBlocks NetLinks.

Section net.
Context {EV TS TI : Type} `{!NetEnv EV, !KeyTable sess_key TS, !KeyTable dest_key TI}.
Context (sess_rep : (ptr -> sess_key) -> TS -> gmap sess_key ptr -> Prop) `{!KeyTableLaws sess_key TS sess_rep}.
Context (ip_rep : (ptr -> dest_key) -> TI -> gmap dest_key ptr -> Prop) `{!KeyTableLaws dest_key TI ip_rep}.
Context (rcvd sent : EV -> list Z) {HLaws : CacheEnvLaws rcvd sent}.

Abbreviation NetW := (NetW EV TS TI).
Abbreviation net_ok := (net_ok sess_rep ip_rep).
Implicit Types (w : NetW) (h l d t : ptr) (hole : option ptr).

(** ** Changes of links and destinations *)

Lemma wf_change hole hole' w w' : net_ok hole w -> item_v <$> nw_items w' = item_v <$> nw_items w -> nw_sess w' = nw_sess w ->
  nw_bufs w' = nw_bufs w -> nw_udp w' = nw_udp w -> nw_tcp w' = nw_tcp w -> rp_free_list (nw_item_pool w') = rp_free_list (nw_item_pool w) ->
  queues_ok (v_items (view_of w)) (v_links (view_of w')) (v_free_items (view_of w)) ->
  (lists_of (link_blocks <$> v_links (view_of w')) ≡ₚ lists_of (link_blocks <$> v_links (view_of w))) ->
  (forall l x, link l w' = Some x -> cache_ok (nw_bufs w) (link_v x)) ->
  links_ok hole' (v_links (view_of w')) (v_dests (view_of w')) (v_free_links (view_of w')) ->
  (exists M, dests_ok ip_rep (v_dests (view_of w')) (v_ips (view_of w')) M (v_free_dests (view_of w'))) -> net_ok hole' w'.
Proof.
  intros [_ _ Ws _ [Bs _]] EI ES EB EU ET EF Hq HB Hc Hl Hd.
  assert (VI : v_items (view_of w') = v_items (view_of w)) by exact EI.
  split; [|done| |done|split].
  - rewrite VI. change (v_free_items (view_of w')) with (rp_free_list (nw_item_pool w')). by rewrite EF.
  - rewrite VI. change (v_sess (view_of w')) with (nw_sess w'). by rewrite ES.
  - intros pr. specialize (Bs pr). unfold other_free, pool_of in *. cbn [v_bufs v_udp v_tcp view_of] in *. rewrite EB, EU, ET.
    eapply store_ok_perm; [|exact Bs]. apply Permutation_app; [|done]. unfold all_blocks. rewrite VI. by apply Permutation_app.
  - intros l v Hv. destruct (view_link_inv _ _ _ Hv) as (x & Hx & ->). cbn [v_bufs view_of]. rewrite EB. by apply (Hc l).
Qed.

(** One link is replaced by one with the same queues and blocks. *)
Lemma queues_blocks_insert (L : gmap ptr link_view) l x y : L !! l = Some x -> lv_queues y = lv_queues x -> link_blocks y = link_blocks x ->
  lv_queues <$> <[l := y]> L = lv_queues <$> L /\ link_blocks <$> <[l := y]> L = link_blocks <$> L.
Proof. intros Hl Hq Hb. split; by eapply fmap_insert_same. Qed.

Lemma link_replaced hole hole' w w' l x y : net_ok hole w -> link l w = Some x -> nw_links w' = <[l := y]> (nw_links w) ->
  item_v <$> nw_items w' = item_v <$> nw_items w -> nw_sess w' = nw_sess w ->
  nw_bufs w' = nw_bufs w -> nw_udp w' = nw_udp w -> nw_tcp w' = nw_tcp w -> rp_free_list (nw_item_pool w') = rp_free_list (nw_item_pool w) ->
  link_q y = link_q x -> sl_cache y = sl_cache x -> sl_rsp y = sl_rsp x -> sl_proto y = sl_proto x ->
  (sl_parents y <> None -> rc_pool (sl_cache x) = true) ->
  links_ok hole' (<[l := link_v y]> (v_links (view_of w))) (v_dests (view_of w')) (v_free_links (view_of w')) ->
  (exists M, dests_ok ip_rep (v_dests (view_of w')) (v_ips (view_of w')) M (v_free_dests (view_of w'))) -> net_ok hole' w'.
Proof.
  intros W Hl EL EI ES EB EU ET EF Hq Hc Hr Hpr Hp HL HD. pose proof (view_link _ _ _ Hl) as Vl.
  assert (VL : v_links (view_of w') = <[l := link_v y]> (v_links (view_of w))) by (cbn; by rewrite EL, fmap_insert).
  destruct (queues_blocks_insert (v_links (view_of w)) l (link_v x) (link_v y) Vl Hq) as [Q1 Q2].
  { unfold link_blocks. cbn. by rewrite Hc, Hr. }
  eapply (wf_change hole); try done; rewrite ?VL; try done.
  - eapply queues_ok_links; [exact Q1|apply (wf_queues _ _ _ _ W)].
  - by rewrite Q2.
  - pose proof (bk_cache _ (wf_blocks _ _ _ _ W)) as Bc. intros l' z. unfold link. rewrite EL, lookup_insert_Some.
    intros [[<- <-]|[_ Ez]]; [|by apply (Bc l' (link_v z)), view_link].
    destruct (Bc l _ Vl) as [C1 C2 C3 C4 C5 C6]. cbn [lv_cache lv_rsp lv_parents lv_proto link_v v_bufs view_of] in *.
    split; cbn [lv_cache lv_rsp lv_parents lv_proto link_v]; rewrite ?Hc, ?Hr, ?Hpr; try done. intros [?|?]; [by apply C1; left|by apply Hp].
Qed.
(** Destinations change, links do not. *)
Lemma dests_changed hole hole' w w' : net_ok hole w -> nw_links w' = nw_links w ->
  item_v <$> nw_items w' = item_v <$> nw_items w -> nw_sess w' = nw_sess w ->
  nw_bufs w' = nw_bufs w -> nw_udp w' = nw_udp w -> nw_tcp w' = nw_tcp w -> rp_free_list (nw_item_pool w') = rp_free_list (nw_item_pool w) ->
  links_ok hole' (v_links (view_of w)) (v_dests (view_of w')) (v_free_links (view_of w')) ->
  (exists M, dests_ok ip_rep (v_dests (view_of w')) (v_ips (view_of w')) M (v_free_dests (view_of w'))) -> net_ok hole' w'.
Proof.
  intros W EL EI ES EB EU ET EF HL HD.
  assert (VL : v_links (view_of w') = v_links (view_of w)) by (cbn; by rewrite EL).
  eapply (wf_change hole); try done; rewrite ?VL; try done.
  - apply (wf_queues _ _ _ _ W).
  - pose proof (bk_cache _ (wf_blocks _ _ _ _ W)) as Bc. intros l z. unfold link. rewrite EL. intros Hz.
    by apply (Bc l (link_v z)), view_link.
Qed.

(** ** [FreeSockLink] of the destination, and [Destroy] *)

(** The link [l] of destination [d] went to the pool. *)
Record released d l (r : Z) (Q : list ptr) w w' : Prop := {
  re_items : strip_err <$> nw_items w' = strip_err <$> nw_items w;
  re_links : strip_link <$> delete l (nw_links w') = strip_link <$> delete l (nw_links w);
  re_dests : exists y, dest d w = Some y /\ nw_dests w' =
    <[d := set_curr_link (dl_curr_link y - 1) (set_sock_list (filter (.≠ l) (dl_sock_list y)) y)]> (nw_dests w);
  re_sess : nw_sess w' = nw_sess w;
  re_ips : nw_ips w' = nw_ips w;
  re_pools : nw_item_pool w' = nw_item_pool w /\ rp_free_list (nw_link_pool w') = rp_free_list (nw_link_pool w) ++ [l] /\
    nw_dest_pool w' = nw_dest_pool w;
  re_woken : woken_only w w';
  re_link : exists y, link l w' = Some y /\ cleared y;
  re_queue l' y y' q p : l' <> l -> link l' w = Some y -> link l' w' = Some y' -> p ∈ qget q (link_q y') <-> p ∈ qget q (link_q y) /\ p ∉ Q;
  re_item h x : h ∈ Q -> item h w = Some x -> exists x', item h w' = Some x' /\ nh_conn x' = None /\ nh_err x' = nh_err (with_err r x);
  re_thread h x t : h ∈ Q -> item h w = Some x -> nh_thread x = Some t -> t ∉ nw_io w';
  re_frame p : p ∉ Q -> item p w' = item p w;
}.

Lemma net_link_owner w l x : net_ok None w -> link l w = Some x -> sl_linked x = true /\
  match sl_parents x with
  | Some d => (l ∉ rp_free_list (nw_link_pool w)) /\ exists y, dest d w = Some y /\ l ∈ dl_sock_list y
  | None => l ∈ rp_free_list (nw_link_pool w)
  end.
Proof.
  intros W Hl. destruct (lo_link _ _ _ _ (wf_links _ _ _ _ W) l _ (view_link _ _ _ Hl) ltac:(done)) as [H1 H2]. split; [done|].
  cbn [lv_parents link_v] in H2. destruct (sl_parents x) as [d|]; [|done]. destruct H2 as (Hf & v & Hv & Hin). split; [done|].
  destruct (view_dest_inv _ _ _ Hv) as (y & Hy & ->). by exists y.
Qed.

Lemma DestFreeSockLink_ok w d l x : net_ok None w -> link l w = Some x -> sl_parents x = Some d ->
  exists w', DestFreeSockLink d l w = Some w' /\ net_ok None w' /\ released d l (sl_errno x) (waiters x) w w'.
Proof.
  intros W Hl Hp. destruct (net_link_owner w l x W Hl) as [Hk Ho]. rewrite Hp in Ho. destruct Ho as (Hf & y & Hd & Hin).
  unfold DestFreeSockLink. rewrite Hl. cbn [mbind option_bind]. rewrite bool_decide_true by done. cbn [negb]. rewrite Hd.
  cbn [mbind option_bind]. rewrite bool_decide_true by done.
  pose proof (view_link _ _ _ Hl) as Vl. pose proof (view_dest _ _ _ Hd) as Vd.
  assert (Hpos : 0 < dl_curr_link y).
  { destruct (links_leave_dest (v_links (view_of w)) (v_dests (view_of w)) (v_free_links (view_of w)) l _ d (dest_v y)
      (mkDV (dv_key (dest_v y)) (filter (.≠ l) (dl_sock_list y)) (dl_curr_link y - 1) (dl_max_links y) (dl_linked y)) (wf_links _ _ _ _ W) Vl Hp Vd)
      as (_ & _ & Hpos & _); done. }
  rewrite (upd_dest_eq d _ w y Hd). cbn [mbind option_bind]. rewrite (proj2 (Z.ltb_lt _ _) Hpos).
  set (y1 := set_curr_link (dl_curr_link y - 1) _). set (w1 := set_dests _ w).
  assert (Hdv : v_dests (view_of w1) = <[d := dest_v y1]> (v_dests (view_of w))) by (unfold w1; cbn; by rewrite fmap_insert).
  assert (W1 : net_ok (Some l) w1).
  { eapply (dests_changed None); try done; rewrite Hdv.
    - by apply (links_leave_dest _ _ _ l _ d (dest_v y) (dest_v y1) (wf_links _ _ _ _ W) Vl Hp Vd).
    - destruct (wf_dests _ _ _ _ W) as [M HM]. exists M. eapply (dests_ok_socks ip_rep); try done.
      intros Hlk. pose proof (do_dest _ _ _ _ _ HM d _ Vd) as Hs. rewrite Hlk in Hs. destruct Hs as [_ Hs]. cbn in Hs.
      rewrite Hs in Hin. by apply elem_of_nil in Hin. }
  assert (Hl1 : link l w1 = Some x) by exact Hl.
  rewrite (upd_link_eq l _ w1 x Hl1). cbn [mbind option_bind]. set (x2 := set_sl_linked false x). set (w2 := set_links _ w1).
  assert (W2 : net_ok (Some l) w2).
  { apply (replace_link_ok sess_rep ip_rep _ w1 l x); try done; [by left|by right|].
    apply (co_pool _ _ (bk_cache _ (wf_blocks _ _ _ _ W) l _ Vl)). }
  assert (Hl2 : link l w2 = Some x2) by (unfold w2, link; nsimpl; apply lookup_insert_eq).
  destruct (LinkReset_ok sess_rep ip_rep rcvd sent w2 l x2 W2 Hl2) as (w3 & y3 & -> & W3 & Hl3 & Hc3 & Hk3 & R). cbn [mbind option_bind].
  unfold FreeSockLink. rewrite Hl3. cbn [mbind option_bind]. rewrite Hk3. change (sl_linked x2) with false. cbv iota.
  unfold env_do. destruct (mt_time_ms (nw_env w3)) as [now e].
  set (w4 := set_link_pool _ _). assert (Hl4 : link l w4 = Some y3) by exact Hl3.
  rewrite (upd_link_eq l _ w4 y3 Hl4). set (y4 := set_sl_release _ _). eexists. split; [reflexivity|].
  destruct R as [R1 R2 R3 R4 R5 (R6 & R7 & R8) R9 R10 R11 R12 R13].
  destruct Hc3 as (Q1 & Q2 & Q3 & Q4 & Q5 & Q6 & Q7 & Q8).
  assert (R2' : strip_link <$> delete l (nw_links w3) = strip_link <$> delete l (nw_links w)).
  { rewrite R2. unfold w2. nsimpl. by rewrite delete_insert_eq. }
  split.
  - eapply (link_replaced (Some l) None w3 _ l y3 y4); try done.
    + apply (links_enter_pool _ _ _ l (link_v y3)); try done; [apply (wf_links _ _ _ _ W3)|by apply view_link|]. cbn. unfold blank. unfold y4. nsimpl. by rewrite Q8, Q3, Q4, Q2.
    + exact (wf_dests _ _ _ _ W3).
  - split; unfold item, link in *; nsimpl; try done.
    + rewrite delete_insert_eq. exact R2'.
    + exists y. split; [done|]. exact R3.
    + split_and!; [done| |done]. unfold w4, pool_put. cbn [rp_free_list set_link_pool nw_link_pool set_nw_env]. by rewrite R7.
    + exists y4. rewrite lookup_insert_eq. split; [done|]. split_and!; done.
    + intros l' z z' q p Hne Hz. rewrite lookup_insert_ne by done. apply R10; [done|]. unfold w2. nsimpl. by rewrite lookup_insert_ne.
Qed.

Lemma Destroy_ok w l x d : net_ok None w -> link l w = Some x -> sl_parents x = Some d ->
  exists w', Destroy l w = Some w' /\ net_ok None w' /\ released d l (sl_errno x) (waiters x) w w'.
Proof.
  intros W Hl Hp. unfold Destroy. rewrite Hl. cbn [mbind option_bind]. rewrite Hp. by apply DestFreeSockLink_ok.
Qed.

(** ** Several links *)

(** The links [Ls] of destination [d] went to the pool: who waited at one was told its
    error and may run, everybody else did not notice. *)
Definition bare_dest (y : CDestLinks) : CDestLinks := set_curr_link 0 (set_sock_list [] y).
Definition shut (y : CSockLink) : Prop := sl_fd y = -1 /\ rc_list (sl_cache y) = [] /\ sl_rsp y = None /\ sl_parents y = None.
Lemma shut_strip x y : strip_link y = strip_link x -> shut x -> shut y.
Proof.
  intros E. assert (Ef : (sl_fd y, sl_cache y, sl_rsp y, sl_parents y) = (sl_fd x, sl_cache x, sl_rsp x, sl_parents x)).
  { apply (f_equal (fun z => (sl_fd z, sl_cache z, sl_rsp z, sl_parents z))) in E. exact E. }
  injection Ef as E1 E2 E3 E4. unfold shut. by rewrite E1, E2, E3, E4.
Qed.
Record swept d (Ls : list ptr) w w' : Prop := {
  sw_gone l : l ∈ Ls -> exists y, link l w' = Some y /\ shut y;
  sw_items : strip_err <$> nw_items w' = strip_err <$> nw_items w;
  sw_links l x : l ∉ Ls -> link l w = Some x -> exists x', link l w' = Some x' /\ strip_link x' = strip_link x;
  sw_dests : delete d (nw_dests w') = delete d (nw_dests w);
  sw_dest y : dest d w = Some y ->
    exists y', dest d w' = Some y' /\ dl_sock_list y' = filter (.∉ Ls) (dl_sock_list y) /\ bare_dest y' = bare_dest y;
  sw_sess : nw_sess w' = nw_sess w;
  sw_ips : nw_ips w' = nw_ips w;
  sw_pools : nw_item_pool w' = nw_item_pool w /\ rp_free_list (nw_link_pool w') = rp_free_list (nw_link_pool w) ++ Ls /\
    nw_dest_pool w' = nw_dest_pool w;
  sw_woken : woken_only w w';
  sw_told h x l : item h w = Some x -> nh_conn x = Some l -> l ∈ Ls -> exists x' y, link l w = Some y /\ item h w' = Some x' /\
    nh_conn x' = None /\ nh_err x' = nh_err (with_err (sl_errno y) x) /\ (forall t, nh_thread x = Some t -> t ∉ nw_io w');
  sw_frame h x : item h w = Some x -> (forall l, l ∈ Ls -> nh_conn x <> Some l) -> item h w' = Some x;
}.

(** The handlers of a link are its waiters. *)
Lemma waiters_conn hole w h x l y : net_ok hole w -> item h w = Some x -> link l w = Some y -> h ∈ waiters y <-> nh_conn x = Some l.
Proof.
  intros W Hh Hl. unfold waiters. rewrite !elem_of_app. split.
  - intros Hin. assert (Hq : exists q, h ∈ qget q (link_q y)).
    { destruct Hin as [?|[?|[?|?]]]; [exists QConn|exists QSend|exists QRecv|exists QIdle]; done. }
    destruct Hq as [q Hq]. destruct (qo_queue _ _ _ (wf_queues _ _ _ _ W) _ _ _ _ (view_link _ _ _ Hl) Hq) as (v & s & Ev & Ec & _).
    rewrite (view_item _ _ _ Hh) in Ev. by injection Ev as <-.
  - intros Hc. destruct (net_queued sess_rep ip_rep hole w h x l W Hh Hc) as (sess & q & y' & _ & _ & _ & Hl' & Hq & _).
    rewrite Hl in Hl'. injection Hl' as <-. pose proof (proj2 (Hq q) eq_refl) as Hin. destruct q; cbn in Hin; tauto.
Qed.

Lemma released_swept w d l x w' : net_ok None w -> link l w = Some x -> released d l (sl_errno x) (waiters x) w w' -> swept d [l] w w'.
Proof.
  intros W Hl [R1 R2 (y & Hd & R3) R4 R5 R6 R7 R8 R9 R10 R11 R12]. split; try done.
  - intros l' ->%list_elem_of_singleton. destruct R8 as (z & Hz & _ & _ & _ & _ & C5 & C6 & C7 & C8). exists z. by split_and!.
  - intros l' z Hne Hz. apply not_elem_of_cons in Hne as [Hne _].
    assert (E : delete l (nw_links w) !! l' = Some z) by (by rewrite lookup_delete_ne).
    destruct (fmap_eq_lookup strip_link (delete l (nw_links w')) _ _ _ (eq_sym R2) E) as (z' & E' & S'). exists z'.
    by rewrite lookup_delete_ne in E'.
  - by rewrite R3, delete_insert_eq.
  - intros y0 Hd0. rewrite Hd in Hd0. injection Hd0 as <-. unfold dest. rewrite R3, lookup_insert_eq. eexists. split; [done|]. split; [|done].
    cbn. apply list_filter_iff. intros p. by rewrite list_elem_of_singleton.
  - intros h i l' Hh Hc ->%list_elem_of_singleton. assert (Hw : h ∈ waiters x) by (by eapply waiters_conn).
    destruct (R10 h i Hw Hh) as (i' & Hi' & Hc' & He'). exists i', x. split_and!; try done. intros t. by apply (R11 h i).
  - intros h i Hh Hc. rewrite R12; [done|]. intros Hw. apply (Hc l ltac:(by left)). by eapply waiters_conn.
Qed.

Lemma filter_not_nil (q : list ptr) : filter (.∉ []) q = q.
Proof. induction q as [|p q IH]; [done|]. rewrite filter_cons_True by apply not_elem_of_nil. by rewrite IH. Qed.

Lemma swept_nil d w : swept d [] w w.
Proof.
  split; try done; [by intros l ?%elem_of_nil|by eexists|..].
  - intros y Hy. exists y. split; [done|]. split; [|done]. symmetry. apply filter_not_nil.
  - by rewrite app_nil_r.
  - by intros h x l _ _ ?%elem_of_nil.
Qed.

Lemma swept_trans d A B w1 w2 w3 : net_ok None w1 -> swept d A w1 w2 -> swept d B w2 w3 -> swept d (A ++ B) w1 w3.
Proof.
  intros W [A0 A1 A2 A3 A4 A5 A6 (A7 & A8 & A9) A10 A11 A12] [B0 B1 B2 B3 B4 B5 B6 (B7 & B8 & B9) B10 B11 B12].
  split; try congruence.
  - intros l Hl. destruct (decide (l ∈ B)) as [Hb|Hb]; [by apply B0|]. destruct (A0 l) as (x & Hx & Hs); [apply elem_of_app in Hl; tauto|].
    destruct (B2 l x Hb Hx) as (y & Hy & Ey). exists y. split; [done|by eapply shut_strip].
  - intros l x Hl Hx. rewrite elem_of_app in Hl. destruct (A2 l x) as (x2 & E2 & S2); [tauto|done|].
    destruct (B2 l x2) as (x3 & E3 & S3); [tauto|done|]. exists x3. split; [done|congruence].
  - intros y Hy. destruct (A4 y Hy) as (y2 & E2 & L2 & S2). destruct (B4 y2 E2) as (y3 & E3 & L3 & S3). exists y3.
    split; [done|]. split; [|congruence]. rewrite L3, L2, list_filter_filter. apply list_filter_iff. intros p. rewrite elem_of_app. tauto.
  - split_and!; [congruence|by rewrite B8, A8, app_assoc|congruence].
  - by etransitivity.
  - intros h x l Hh Hc Hin. destruct (decide (l ∈ A)) as [Ha|Ha].
    + destruct (A11 h x l Hh Hc Ha) as (x2 & y & Hl & Hh2 & Hc2 & He2 & Ht2). exists x2, y. split; [done|].
      split; [apply B12; [done|intros; congruence]|]. split_and!; try done. intros t Ht Hio. apply (Ht2 t Ht). by apply (proj1 B10).
    + assert (Hb : l ∈ B) by (apply elem_of_app in Hin; tauto).
      assert (Hh2 : item h w2 = Some x) by (apply A12; [done|]; intros l' Hl' E; congruence).
      destruct (B11 h x l Hh2 Hc Hb) as (x3 & y2 & Hl2 & R1 & R2 & R3 & R4). exists x3.
      destruct (net_queued sess_rep ip_rep None w1 h x l W Hh Hc) as (_ & _ & y & _ & _ & _ & Hl & _). exists y. split; [done|].
      destruct (A2 l y Ha Hl) as (y' & Hl' & S). rewrite Hl2 in Hl'. injection Hl' as <-. apply (f_equal sl_errno) in S.
      change (sl_errno y2 = sl_errno y) in S. by rewrite <- S.
  - intros h x Hh Hc. apply B12; [apply A12; [done|]|]; intros l Hl; apply Hc; rewrite elem_of_app; tauto.
Qed.

Lemma list_filter_iff' (P1 P2 : ptr -> Prop) `{!forall x, Decision (P1 x), !forall x, Decision (P2 x)} (q : list ptr) :
  (forall x, x ∈ q -> P1 x <-> P2 x) -> filter P1 q = filter P2 q.
Proof.
  induction q as [|x q IH]; intros HP; [done|]. rewrite !filter_cons. rewrite (IH ltac:(intros y Hy; apply HP; by right)).
  pose proof (HP x ltac:(by left)). by repeat case_decide; try tauto.
Qed.

(** [Destroy] of the links that [sel] picks. *)
Definition sweep (sel : CSockLink -> bool) l w : option NetW := x ← link l w; if sel x then Destroy l w else Some w.
Definition sel_at (sel : CSockLink -> bool) w l : bool := match link l w with Some x => sel x | None => false end.

Lemma sweep_eq sel l w x : link l w = Some x -> sweep sel l w = if sel x then Destroy l w else Some w.
Proof. unfold sweep. by intros ->. Qed.

Lemma sweep_ok sel d q w : (forall x x', strip_link x' = strip_link x -> sel x' = sel x) -> net_ok None w -> NoDup q ->
  (forall l, l ∈ q -> exists x, link l w = Some x /\ sl_parents x = Some d) ->
  exists w', foreach (sweep sel) q w = Some w' /\ net_ok None w' /\ swept d (filter (fun l => sel_at sel w l = true) q) w w'.
Proof.
  intros Hsel. revert w. induction q as [|l q IH]; intros w W Hn Hq; [exists w; split; [done|]; split; [done|apply swept_nil]|].
  pose proof (NoDup_cons_1_1 _ _ Hn) as Hlq. apply NoDup_cons_1_2 in Hn. destruct (Hq l ltac:(by left)) as (x & Hl & Hp).
  assert (Hq' : forall l', l' ∈ q -> exists x, link l' w = Some x /\ sl_parents x = Some d) by (intros l' ?; apply Hq; by right).
  cbn [foreach]. rewrite (sweep_eq sel l w x Hl). assert (Es : sel_at sel w l = sel x) by (unfold sel_at; by rewrite Hl).
  destruct (sel x) eqn:Ex.
  - rewrite filter_cons_True by done. destruct (Destroy_ok w l x d W Hl Hp) as (w1 & -> & W1 & R). cbn [mbind option_bind].
    apply (released_swept _ _ _ x) in R; [|done|done].
    assert (Hkeep : forall l', l' ∈ q -> exists x0 x1, link l' w = Some x0 /\ link l' w1 = Some x1 /\ strip_link x1 = strip_link x0).
    { intros l' Hl'. destruct (Hq' l' Hl') as (x0 & E0 & _). destruct (sw_links _ _ _ _ R l' x0) as (x1 & E1 & S1); [|done|by eauto].
      rewrite list_elem_of_singleton. by intros ->. }
    destruct (IH w1 W1 Hn) as (w2 & -> & W2 & S).
    { intros l' Hl'. destruct (Hkeep l' Hl') as (x0 & x1 & E0 & E1 & S1). exists x1. split; [done|].
      destruct (Hq' l' Hl') as (x0' & E0' & P0). rewrite E0 in E0'. injection E0' as <-. apply (f_equal sl_parents) in S1.
      change (sl_parents x1 = sl_parents x0) in S1. congruence. }
    exists w2. split; [done|]. split; [done|]. change (l :: ?r) with ([l] ++ r). eapply swept_trans; [done|exact R|].
    assert (Ef : filter (fun l => sel_at sel w l = true) q = filter (fun l => sel_at sel w1 l = true) q); [|by rewrite Ef].
    apply list_filter_iff'. intros l' Hl'. destruct (Hkeep l' Hl') as (x0 & x1 & E0 & E1 & S1). unfold sel_at. rewrite E0, E1.
    by rewrite (Hsel _ _ S1).
  - rewrite filter_cons_False by (rewrite Es; done). cbn [mbind option_bind]. by apply IH.
Qed.

(** ** [DeleteDestLink] and [timer_notify] *)

Lemma net_dest hole w d y : net_ok hole w -> dest d w = Some y ->
  NoDup (dl_sock_list y) /\ dl_curr_link y = Z.of_nat (length (dl_sock_list y)) /\ dl_max_links y = 3 /\ dl_curr_link y <= 3.
Proof.
  intros W Hd. destruct (lo_dest _ _ _ _ (wf_links _ _ _ _ W) d _ (view_dest _ _ _ Hd)) as (H1 & H2 & H3 & H4).
  cbn in *. split_and!; try done. lia.
Qed.
Lemma net_dest_sock w d y l : net_ok None w -> dest d w = Some y -> l ∈ dl_sock_list y ->
  exists x, link l w = Some x /\ sl_parents x = Some d.
Proof.
  intros W Hd Hin. destruct (lo_sock _ _ _ _ (wf_links _ _ _ _ W) d _ l (view_dest _ _ _ Hd) Hin) as (v & Hv & Hp).
  destruct (view_link_inv _ _ _ Hv) as (x & Hx & ->). by exists x.
Qed.

Lemma ip_key_view w p : ip_key w p = key_of_dest (v_dests (view_of w)) p.
Proof.
  unfold ip_key, key_of_dest. cbn. rewrite lookup_fmap. by destruct (nw_dests w !! p).
Qed.

Definition free_dest (now : Z) (y : CDestLinks) : CDestLinks :=
  set_dl_release now (set_dl_linked true (mkDest (5 * 60 * 1000) 0 0 NET_PROTO_UNDEF TYPE_CONN_SESSION 3 0 [] (dl_callback y)
    (dl_release y) (dl_linked y))).

Lemma DeleteDestLink_ok w d y : net_ok None w -> dest d w = Some y -> dl_linked y = false -> dl_sock_list y = [] ->
  exists w' e now tab, DeleteDestLink d w = Some w' /\ net_ok None w' /\
    w' = set_dests (<[d := free_dest now y]> (nw_dests w)) (set_dest_pool (pool_put d (nw_dest_pool w)) (set_ips tab (set_nw_env e w))).
Proof.
  intros W Hd Hlk Hs. unfold DeleteDestLink, RemoveDestLink, FindDestLink. pose proof W as [_ Wl _ [M HM] _].
  pose proof (view_dest _ _ _ Hd) as Vd. pose proof (do_dest _ _ _ _ _ HM d _ Vd) as Hdd. cbn in Hdd. rewrite Hlk in Hdd.
  destruct Hdd as [Hf HMd].
  assert (Hkey : ip_key w d = dest_key_of y) by (rewrite ip_key_view; unfold key_of_dest; by rewrite Vd).
  assert (Hrep : ip_rep (ip_key w) (nw_ips w) M).
  { eapply kt_agree; [exact (do_rep _ _ _ _ _ HM)|]. intros k p _. by rewrite ip_key_view. }
  rewrite (kt_find_ok _ _ _ (ip_key w d) Hrep). cbn [mbind option_bind]. rewrite Hkey, HMd, Hkey.
  set (yv := mkDV (0, 0, NET_PROTO_UNDEF, TYPE_CONN_SESSION) [] 0 3 true).
  destruct (dests_ok_remove ip_rep _ _ _ _ d _ yv HM Vd Hlk eq_refl eq_refl (ip_key w) (ip_key_view w)) as (t' & E & HM').
  change (kt_remove (ip_key w) (nw_ips w) (dest_key_of y) = Some t') in E. rewrite E. cbn [mbind option_bind]. unfold DestReset, dest in *. nsimpl. rewrite Hd. cbn [mbind option_bind]. rewrite Hs.
  cbn [foreach mbind option_bind]. unfold upd_dest, dest. nsimpl. rewrite Hd. cbn [mbind option_bind].
  unfold FreeDestLink, dest. nsimpl. rewrite lookup_insert_eq. cbn [mbind option_bind]. nsimpl. rewrite Hlk.
  unfold env_do. nsimpl. destruct (mt_time_ms _) as [now e]. unfold upd_dest, dest. nsimpl. rewrite lookup_insert_eq. cbn [mbind option_bind].
  rewrite insert_insert_eq. set (w' := set_dests _ _). exists w', e, now, t'. split; [done|].
  assert (Ew : w' = set_dests (<[d := free_dest now y]> (nw_dests w)) (set_dest_pool (pool_put d (nw_dest_pool w)) (set_ips t' (set_nw_env e w))))
    by (unfold w', free_dest; by rewrite Hlk).
  split; [|exact Ew]. rewrite Ew.
  assert (VD : v_dests (view_of w') = <[d := yv]> (v_dests (view_of w))) by (rewrite Ew; cbn; by rewrite fmap_insert).
  rewrite <- Ew. apply (dests_changed None None w w'); try done; rewrite ?VD.
  - by eapply links_dest_empty.
  - eexists. exact HM'.
Qed.

(** Links not used for the time of the destination go; a destination without links
    goes with them. *)
Definition expired (timeout now : Z) (x : CSockLink) : bool := u64 (sl_last_access x + timeout) <? now.
Lemma foreach_ext f g q w : (forall l w, f l w = g l w) -> foreach f q w = foreach g q w.
Proof.
  intros Hfg. revert w. induction q as [|l q IH]; intros w; [done|]. cbn [foreach]. rewrite Hfg.
  destruct (g l w) as [w1|]; [|done]. cbn [mbind option_bind]. apply IH.
Qed.

Lemma timer_notify_ok w d y : net_ok None w -> dest d w = Some y -> dl_linked y = false ->
  let now := fst (mt_time_ms (nw_env w)) in
  let Ls := filter (fun l => sel_at (expired (dl_timeout y) now) w l = true) (dl_sock_list y) in
  exists w' w1, timer_notify d w = Some w' /\ net_ok None w' /\ swept d Ls w w1 /\ net_ok None w1 /\
    nw_items w' = nw_items w1 /\ nw_links w' = nw_links w1 /\ nw_io w' = nw_io w1 /\ nw_run w' = nw_run w1 /\ nw_item_pool w' = nw_item_pool w1 /\
    exists y', dest d w' = Some y' /\ dl_sock_list y' = filter (.∉ Ls) (dl_sock_list y) /\ dl_linked y' = bool_decide (dl_sock_list y' = []) /\
      if bool_decide (dl_sock_list y' = []) then rp_free_list (nw_dest_pool w') = rp_free_list (nw_dest_pool w) ++ [d]
      else w' = StartTimer d w1.
Proof.
  intros W Hd Hlk now Ls. unfold timer_notify, env_do. subst now. destruct (mt_time_ms (nw_env w)) as [now e]. cbn [fst] in Ls.
  set (w0 := set_nw_env e w). assert (W0 : net_ok None w0) by (by apply net_ok_env). assert (Hd0 : dest d w0 = Some y) by exact Hd.
  rewrite Hd0. cbn [mbind option_bind]. destruct (net_dest None w d y W Hd) as (Hn & _).
  rewrite (foreach_ext _ (sweep (expired (dl_timeout y) now))) by done.
  destruct (sweep_ok (expired (dl_timeout y) now) d (dl_sock_list y) w0) as (w1 & -> & W1 & S); [|done|done|intros l Hin; by apply (net_dest_sock w d y)|].
  { intros x x' E. apply (f_equal sl_last_access) in E. unfold expired. change (sl_last_access x' = sl_last_access x) in E. by rewrite E. }
  cbn [mbind option_bind]. assert (S' : swept d Ls w w1) by (by destruct S; split).
  destruct (sw_dest _ _ _ _ S' y Hd) as (y1 & Hd1 & Hs1 & Hb1). rewrite Hd1. cbn [mbind option_bind].
  assert (Hlk1 : dl_linked y1 = false).
  { apply (f_equal dl_linked) in Hb1. change (dl_linked y1 = dl_linked y) in Hb1. congruence. }
  destruct (dl_sock_list y1) as [|l q] eqn:Es.
  - destruct (DeleteDestLink_ok w1 d y1 W1 Hd1 Hlk1 Es) as (w' & e' & now' & t' & -> & W' & ->).
    eexists _, w1. split; [reflexivity|]. split; [done|]. split; [done|]. split_and!; try done.
    exists (free_dest now' y1). unfold dest. nsimpl. rewrite lookup_insert_eq. split_and!; try done. cbn.
    by rewrite (proj2 (proj2 (sw_pools _ _ _ _ S'))).
  - unfold StartTimer, env_do. destruct (start_timer d (60 * 1000) (nw_env w1)) as [b e1] eqn:Et. eexists _, w1.
    split; [reflexivity|]. split; [by apply net_ok_env|]. split_and!; try done. exists y1. split; [done|]. rewrite Es, bool_decide_false by done.
    by rewrite Et.
Qed.
End net.
