(* ===== verification/NetLease.v ===== *)
(** * The network layer: finding a destination and a link

    [FindCreateDest] finds the destination of an address or makes one from the pool;
    [GetSockLink] opens links up to three and then uses them in turn; [GetConnLink]
    puts a handler at such a link. *)

From Stdlib Require Import ZArith Lia.
From stdpp Require Import base gmap list option fin_maps.
From S2P Require Import Prelude Bytes HashList KeyTable RwCache NetData NetOps NetMain NetInv NetQueues NetBlocks.
From S2P Require Import NetLinks NetDest.

Section net.
Context {EV TS TI : Type} `{!NetEnv EV, !KeyTable sess_key TS, !KeyTable dest_key TI}.
Context (sess_rep : (ptr -> sess_key) -> TS -> gmap sess_key ptr -> Prop) `{!KeyTableLaws sess_key TS sess_rep}.
Context (ip_rep : (ptr -> dest_key) -> TI -> gmap dest_key ptr -> Prop) `{!KeyTableLaws dest_key TI ip_rep}.
Context (rcvd sent : EV -> list Z) {HLaws : CacheEnvLaws rcvd sent}.

Abbreviation NetW := (NetW EV TS TI).
Abbreviation net_ok := (net_ok sess_rep ip_rep).
Implicit Types (w : NetW) (h l d t : ptr) (hole : option ptr).

(** Everything but links, destinations and their pools stays. *)
Record same_handlers w w' : Prop := {
  sh_items : nw_items w' = nw_items w;
  sh_sess : nw_sess w' = nw_sess w;
  sh_bufs : nw_bufs w' = nw_bufs w /\ nw_udp w' = nw_udp w /\ nw_tcp w' = nw_tcp w;
  sh_pool : nw_item_pool w' = nw_item_pool w;
  sh_threads : nw_io w' = nw_io w /\ nw_run w' = nw_run w;
}.
#[export] Instance same_handlers_preorder : PreOrder same_handlers.
Proof.
  split; [by split|]. intros w1 w2 w3 [A1 A2 (A3 & A4 & A5) A6 (A7 & A8)] [B1 B2 (B3 & B4 & B5) B6 (B7 & B8)].
  split; split_and?; congruence.
Qed.

(** ** [GetSockLink] *)

(** A link as it is when it enters a destination. *)
Definition fresh_link (proto : Z) d (x : CSockLink) : Prop :=
  link_q x = no_queues /\ sl_proto x = proto /\ sl_errno x = 0 /\ sl_state x = 0 /\ rc_list (sl_cache x) = [] /\
  rc_pool (sl_cache x) = true /\ sl_rsp x = None /\ sl_parents x = Some d /\ sl_fd x = -1 /\ sl_linked x = true.

(** The links before and after: a new one at the end while there are less than three,
    otherwise the first goes to the end. *)
Record got_link d l (y : CDestLinks) w w' : Prop := {
  gl_same : same_handlers w w';
  gl_ips : nw_ips w' = nw_ips w /\ nw_dest_pool w' = nw_dest_pool w;
  gl_others : delete l (nw_links w') = delete l (nw_links w);
  gl_dest : exists y', nw_dests w' = <[d := y']> (nw_dests w) /\ bare_dest y' = bare_dest y /\
    ((dl_curr_link y < 3 /\ (l ∉ dl_sock_list y) /\ dl_sock_list y' = dl_sock_list y ++ [l] /\ dl_curr_link y' = dl_curr_link y + 1 /\
      exists x, link l w' = Some x /\ fresh_link (dl_proto y) d x) \/
     (dl_curr_link y = 3 /\ exists q, dl_sock_list y = l :: q /\ dl_sock_list y' = q ++ [l] /\ dl_curr_link y' = 3 /\
      nw_links w' = nw_links w /\ nw_link_pool w' = nw_link_pool w));
}.

(** [AllocSockLink] gives an empty link without a socket. *)
Definition unowned (x : CSockLink) : Prop :=
  link_q x = no_queues /\ blank x = true /\ rc_list (sl_cache x) = [] /\ sl_rsp x = None /\ sl_linked x = false.
Record taken l x w w' : Prop := {
  tk_same : same_handlers w w';
  tk_dests : nw_dests w' = nw_dests w /\ nw_ips w' = nw_ips w /\ nw_dest_pool w' = nw_dest_pool w;
  tk_links : nw_links w' = <[l := x]> (nw_links w);
  tk_link : unowned x;
  tk_from : (rp_free_list (nw_link_pool w) = l :: rp_free_list (nw_link_pool w') /\ exists x0, link l w = Some x0 /\ x = set_sl_linked false x0) \/
    (nw_link_pool w' = nw_link_pool w /\ link l w = None /\ sl_cache x = mkCache [] 0 0 false);
}.
Lemma AllocSockLink_ok w : net_ok None w -> exists l w' x, AllocSockLink w = Some (l, w') /\ taken l x w w'.
Proof.
  intros W. unfold AllocSockLink. destruct (rp_free_list (nw_link_pool w)) as [|l r] eqn:Ef.
  - unfold env_do. destruct (mt_time_ms (nw_env w)) as [now e]. eexists _, _, (new_link now). split; [reflexivity|].
    split; try done. right. split_and!; try done. unfold link. apply not_elem_of_dom. apply is_fresh.
  - destruct (lo_free_link _ _ _ _ (wf_links _ _ _ _ W) l) as (v & Hv & F1 & F2 & F3 & F4 & F5).
    { cbn. rewrite Ef. by left. }
    destruct (view_link_inv _ _ _ Hv) as (x0 & Hl & ->). cbn in F1, F2, F3, F4, F5.
    set (w1 := set_link_pool _ w). assert (Hl1 : link l w1 = Some x0) by exact Hl.
    rewrite (upd_link_eq l _ w1 x0 Hl1). cbn [mbind option_bind]. eexists l, _, (set_sl_linked false x0). split; [reflexivity|].
    split; try done. left. split; [done|]. by exists x0.
Qed.

Lemma lists_of_nil (m : gmap ptr (list ptr)) l : m !! l = None -> lists_of (<[l := []]> m) ≡ₚ lists_of m.
Proof. intros Hm. by rewrite lists_of_insert, delete_id. Qed.

(** The new link enters its destination. *)
Lemma enter_dest_ok w w1 d l x y : net_ok None w -> dest d w = Some y -> dl_linked y = false -> dl_curr_link y < dl_max_links y ->
  taken l x w w1 ->
  let x' := set_sl_linked true (SetLinkProto (dl_proto y) (set_parents (Some d) x)) in
  let y' := set_curr_link (dl_curr_link y + 1) (set_sock_list (dl_sock_list y ++ [l]) y) in
  let w' := set_dests (<[d := y']> (nw_dests w1)) (set_links (<[l := x']> (nw_links w1)) w1) in
  net_ok None w' /\ (l ∉ dl_sock_list y).
Proof.
  intros W Hd Hlk Hlt [T1 (T2 & T3 & T4) T5 T6 T7] x' y' w'. destruct T6 as (U1 & U2 & U3 & U4 & U5).
  pose proof (view_dest _ _ _ Hd) as Vd. destruct (wf_dests _ _ _ _ W) as [M HM].
  destruct T1 as [S1 S2 (S3 & S4 & S5) S6 _].
  assert (VL : v_links (view_of w') = <[l := link_v x']> (v_links (view_of w))).
  { unfold w'. cbn. by rewrite T5, insert_insert_eq, fmap_insert. }
  assert (VD : v_dests (view_of w') = <[d := dest_v y']> (v_dests (view_of w))) by (unfold w'; cbn; by rewrite T2, fmap_insert).
  assert (Hhole : links_ok (Some l) (<[l := link_v x']> (v_links (view_of w))) (v_dests (view_of w)) (v_free_links (view_of w1))).
  { destruct T7 as [[Hf (x0 & Hl & _)]|(Hf & Hl & _)].
    - pose proof (wf_links _ _ _ _ W) as HL. change (v_free_links (view_of w)) with (rp_free_list (nw_link_pool w)) in HL. rewrite Hf in HL.
      eapply links_leave_pool; [exact HL|by apply view_link].
    - change (v_free_links (view_of w1)) with (rp_free_list (nw_link_pool w1)). rewrite Hf. apply links_new; [apply (wf_links _ _ _ _ W)|].
      cbn. unfold link in Hl. by rewrite lookup_fmap, Hl. }
  assert (Hlnot : l ∉ dl_sock_list y) by (by apply (proj2 (proj2 (lo_hole _ _ _ _ Hhole l eq_refl)) d (dest_v y))).
  split; [|done].
  assert (Hold : forall v, v_links (view_of w) !! l = Some v -> lv_queues v = no_queues /\ link_blocks v = []).
  { intros v Hv. destruct (view_link_inv _ _ _ Hv) as (z & Hz & ->). destruct T7 as [[_ (x0 & Hl & ->)]|(_ & Hl & _)]; [|congruence].
    rewrite Hz in Hl. injection Hl as ->. split; [exact U1|]. unfold link_blocks. cbn. cbn in U3, U4. by rewrite U3, U4. }
  assert (Hb : link_blocks (link_v x') = []) by (unfold link_blocks; cbn; by rewrite U3, U4).
  apply (wf_change sess_rep ip_rep None None w w'); try done; rewrite ?VL, ?VD.
  - unfold w'. nsimpl. by rewrite S1.
  - unfold w'. nsimpl. by rewrite S6.
  - destruct (v_links (view_of w) !! l) as [v|] eqn:Ev.
    + destruct (Hold v eq_refl) as [Q _]. eapply queues_ok_links; [|apply (wf_queues _ _ _ _ W)]. eapply fmap_insert_same; [exact Ev|].
      rewrite Q. exact U1.
    + apply queues_link_new; [apply (wf_queues _ _ _ _ W)|done|exact U1].
  - destruct (v_links (view_of w) !! l) as [v|] eqn:Ev.
    + destruct (Hold v eq_refl) as [_ Q]. rewrite (fmap_insert_same link_blocks _ l v); [done|done|by rewrite Q, Hb].
    + rewrite fmap_insert, Hb. apply lists_of_nil. by rewrite lookup_fmap, Ev.
  - pose proof (bk_cache _ (wf_blocks _ _ _ _ W)) as Bc. intros l' z. unfold link, w'. nsimpl. rewrite T5, insert_insert_eq, lookup_insert_Some.
    intros [[<- <-]|[_ Ez]]; [|by apply (Bc l' (link_v z)), view_link].
    assert (Hz : rc_len (sl_cache x) = 0 /\ rc_count (sl_cache x) = 0).
    { destruct T7 as [[_ (x0 & Hl & ->)]|(_ & _ & ->)]; [|done]. cbn in U3. destruct (Bc l _ (view_link _ _ _ Hl)) as [_ C2 _ _ C5 _].
      cbn in C2, C5. rewrite U3 in C2, C5. done. }
    destruct Hz as [Z1 Z2]. split; cbn; rewrite ?U3, ?U4, ?Z1, ?Z2; try done.
  - change (v_free_links (view_of w')) with (v_free_links (view_of w1)).
    rewrite <- (insert_insert_eq (v_links (view_of w)) l (link_v x') (link_v x')).
    eapply links_enter_dest; [exact Hhole|apply lookup_insert_eq|done|done|exact Vd|done..].
  - exists M. change (v_ips (view_of w')) with (nw_ips w1). change (v_free_dests (view_of w')) with (rp_free_list (nw_dest_pool w1)).
    rewrite T3, T4. eapply (dests_ok_socks ip_rep); [exact HM|exact Vd|done|done|]. cbn. congruence.
Qed.

Lemma GetSockLink_ok w d y : net_ok None w -> dest d w = Some y -> dl_linked y = false ->
  exists l w', GetSockLink d w = Some (l, w') /\ net_ok None w' /\ got_link d l y w w'.
Proof.
  intros W Hd Hlk. destruct (net_dest sess_rep ip_rep None w d y W Hd) as (Hn & Hc & Hm & Hle).
  unfold GetSockLink. rewrite Hd. cbn [mbind option_bind]. destruct (Z.ltb_spec (dl_curr_link y) (dl_max_links y)) as [Hlt|Hge].
  - destruct (AllocSockLink_ok w W) as (l & w1 & x & -> & T). cbn [mbind option_bind].
    destruct (enter_dest_ok w w1 d l x y W Hd Hlk Hlt T) as [W' Hnot].
    pose proof T as [T1 (T2 & T3 & T4) T5 T6 T7]. destruct T6 as (U1 & U2 & U3 & U4 & U5).
    assert (Hl1 : link l w1 = Some x) by (unfold link; rewrite T5; apply lookup_insert_eq).
    rewrite (upd_link_eq l _ w1 x Hl1). cbn [mbind option_bind]. unfold link at 1. nsimpl. rewrite lookup_insert_eq. cbn [mbind option_bind].
    assert (E0 : sl_linked (SetLinkProto (dl_proto y) (set_parents (Some d) x)) = false) by (by destruct x). rewrite E0.
    unfold upd_link, link. nsimpl. rewrite lookup_insert_eq. cbn [mbind option_bind]. unfold upd_dest, dest in *. nsimpl. rewrite T2, Hd.
    cbn [mbind option_bind]. rewrite insert_insert_eq. rewrite (u32_small (dl_curr_link y + 1)) by (unfold in_u32; lia).
    eexists l, _. split; [reflexivity|]. rewrite T2 in W'. split; [exact W'|]. split; try done.
    + destruct T1 as [S1 S2 (S3 & S4 & S5) S6 (S7 & S8)]. by split.
    + nsimpl. by rewrite T5, !delete_insert_eq.
    + eexists. split; [reflexivity|]. split; [done|]. left. split_and!; try done; [lia|]. eexists. split; [apply lookup_insert_eq|].
      unfold blank in U2. apply andb_true_iff in U2 as [[[B1%Z.eqb_eq B2%Z.eqb_eq]%andb_true_iff B3%Z.eqb_eq]%andb_true_iff _].
      split_and!; done.
  - assert (E3 : dl_curr_link y = 3) by lia. destruct (dl_sock_list y) as [|l q] eqn:Es; [cbn in Hc; lia|].
    rewrite (upd_dest_eq d _ w y Hd). cbn [mbind option_bind]. eexists l, _. split; [reflexivity|].
    set (y' := set_sock_list (q ++ [l]) y).
    assert (Hperm : q ++ [l] ≡ₚ l :: q) by apply Permutation_app_comm.
    split; [|split; try done]. 2: { eexists. split; [reflexivity|]. split; [done|]. right. split; [done|]. by exists q. }
    pose proof (view_dest _ _ _ Hd) as Vd. destruct (wf_dests _ _ _ _ W) as [M HM].
    assert (VD : v_dests (view_of (set_dests (<[d := y']> (nw_dests w)) w)) = <[d := dest_v y']> (v_dests (view_of w))) by (cbn; by rewrite fmap_insert).
    apply (dests_changed sess_rep ip_rep None None w); try done; rewrite VD.
    + apply (links_dest_perm None _ _ _ d (dest_v y)); try done; [apply (wf_links _ _ _ _ W)|]. cbn. rewrite Es. by symmetry.
    + exists M. eapply (dests_ok_socks ip_rep); [exact HM|exact Vd|done|done|]. cbn. congruence.
Qed.

(** ** [FindCreateDest] *)

Record got_dest (key : dest_key) d w w' : Prop := {
  gd_same : same_handlers w w';
  gd_links : nw_links w' = nw_links w /\ nw_link_pool w' = nw_link_pool w;
  gd_others d' : d' <> d -> dest d' w' = dest d' w;
  gd_dest : exists y, dest d w' = Some y /\ dl_linked y = false /\ dest_key_of y = key /\
    (w' = w \/ (dl_sock_list y = [] /\ forall z, dest d w = Some z -> dl_linked z = true));
}.

(** [AllocDestLink] gives a destination without links that is in no table. *)
Record taken_dest d y w w' : Prop := {
  td_same : same_handlers w w';
  td_links : nw_links w' = nw_links w /\ nw_link_pool w' = nw_link_pool w /\ nw_ips w' = nw_ips w;
  td_dests : nw_dests w' = <[d := y]> (nw_dests w);
  td_dest : dl_sock_list y = [] /\ dl_curr_link y = 0 /\ dl_max_links y = 3 /\ dl_linked y = false;
  td_from : (rp_free_list (nw_dest_pool w) = d :: rp_free_list (nw_dest_pool w') /\ exists z, dest d w = Some z /\ dl_linked z = true /\ dl_sock_list z = []) \/
    (nw_dest_pool w' = nw_dest_pool w /\ dest d w = None);
}.
Lemma AllocDestLink_ok w : net_ok None w -> exists d w' y, AllocDestLink w = Some (d, w') /\ taken_dest d y w w'.
Proof.
  intros W. unfold AllocDestLink. destruct (rp_free_list (nw_dest_pool w)) as [|d r] eqn:Ef.
  - eexists _, _, new_dest. split; [reflexivity|]. split; try done. right. split; [done|]. unfold dest. apply not_elem_of_dom, is_fresh.
  - destruct (wf_dests _ _ _ _ W) as [M HM]. destruct (do_free_dest _ _ _ _ _ HM d) as (v & Hv & Hlk).
    { cbn. rewrite Ef. by left. }
    destruct (view_dest_inv _ _ _ Hv) as (z & Hz & ->). pose proof (do_dest _ _ _ _ _ HM d _ Hv) as Hdd. rewrite Hlk in Hdd.
    destruct Hdd as [_ Hs]. cbn in Hs, Hlk. destruct (net_dest sess_rep ip_rep None w d z W Hz) as (_ & Hc & Hm & _).
    set (w1 := set_dest_pool _ w). assert (Hd1 : dest d w1 = Some z) by exact Hz.
    rewrite (upd_dest_eq d _ w1 z Hd1). cbn [mbind option_bind]. eexists d, _, (set_dl_linked false z). split; [reflexivity|].
    split; try done.
    + cbn. rewrite Hs in Hc. done.
    + left. split; [done|]. by exists z.
Qed.

Lemma insert_dest_ok key w w1 d y : net_ok None w -> taken_dest d y w w1 -> FindDestLink key w = Some None ->
  let w2 := set_dests (<[d := copy_key key y]> (nw_dests w1)) w1 in
  forall e, net_ok None (InsertDestLink d (set_nw_env e w2)).
Proof.
  intros W [T1 (T2 & T3 & T4) T5 (T6 & T7 & T8 & T9) T10] Hfind w2 e. destruct T1 as [S1 S2 (S3 & S4 & S5) S6 _].
  destruct (wf_dests _ _ _ _ W) as [M HM].
  assert (Hrep : ip_rep (ip_key w) (nw_ips w) M).
  { eapply kt_agree; [exact (do_rep _ _ _ _ _ HM)|]. intros k p _. by rewrite ip_key_view. }
  unfold FindDestLink in Hfind. rewrite (kt_find_ok _ _ _ key Hrep) in Hfind. injection Hfind as HMk.
  set (y' := copy_key key y). assert (Hk : dest_key_of y' = key) by (destruct key as [[[? ?] ?] ?]; by destruct y).
  assert (Hy' : dl_sock_list y' = [] /\ dl_curr_link y' = 0 /\ dl_max_links y' = 3 /\ dl_linked y' = false)
    by (destruct key as [[[? ?] ?] ?]; by destruct y).
  destruct Hy' as (Y1 & Y2 & Y3 & Y4).
  set (D := v_dests (view_of w)). set (D0 := delete d D).
  assert (HD0 : dests_ok ip_rep D0 (nw_ips w) M (rp_free_list (nw_dest_pool w1)) /\ d ∉ rp_free_list (nw_dest_pool w1)).
  { destruct T10 as [[Hf _]|[Hf Hn]].
    - change (v_free_dests (view_of w)) with (rp_free_list (nw_dest_pool w)) in HM. rewrite Hf in HM. split; [by apply dests_ok_delete|].
      by apply (NoDup_cons_1_1 _ _ (do_free _ _ _ _ _ HM)).
    - rewrite Hf. assert (ED : D !! d = None) by (unfold D; cbn; unfold dest in Hn; by rewrite lookup_fmap, Hn).
      unfold D0. rewrite delete_id by done. split; [exact HM|]. intros Hin. destruct (do_free_dest _ _ _ _ _ HM d Hin) as (v & Hv & _).
      fold D in Hv. congruence. }
  destruct HD0 as [HD0 Hnot].
  destruct (dests_ok_insert ip_rep D0 (nw_ips w) M _ d (dest_v y') HD0 Y4 Hnot) with (kf := ip_key (set_nw_env e w2)) as (t' & E & HM').
  { intros z Hz. unfold D0 in Hz. by rewrite lookup_delete_eq in Hz. }
  { change (dv_key (dest_v y')) with (dest_key_of y'). by rewrite Hk. }
  { intros p. rewrite ip_key_view. f_equal. unfold D0. rewrite insert_delete_eq. unfold w2. cbn. by rewrite fmap_insert, T5, fmap_insert, insert_insert_eq. }
  unfold InsertDestLink. change (nw_ips (set_nw_env e w2)) with (nw_ips w1). rewrite T4, E. cbn [snd].
  set (w3 := set_ips t' _).
  assert (VD : v_dests (view_of w3) = <[d := dest_v y']> D).
  { unfold w3, w2. cbn. by rewrite fmap_insert, T5, fmap_insert, insert_insert_eq. }
  apply (dests_changed sess_rep ip_rep None None w w3); try done; rewrite ?VD.
  - unfold w3, w2. nsimpl. by rewrite S1.
  - unfold w3, w2. nsimpl. by rewrite S6.
  - change (v_free_links (view_of w3)) with (rp_free_list (nw_link_pool w1)). rewrite T3.
    destruct T10 as [[_ (z & Hz & _ & Hzs)]|[_ Hn]].
    + eapply (links_dest_empty None); [apply (wf_links _ _ _ _ W)|apply view_dest; exact Hz|exact Hzs|done..].
    + apply links_dest_new; try done; [apply (wf_links _ _ _ _ W)|]. unfold D. cbn. unfold dest in Hn. by rewrite lookup_fmap, Hn.
  - rewrite <- insert_delete_eq. eexists. exact HM'.
Qed.

Lemma FindCreateDest_ok w key : net_ok None w ->
  exists d w', FindCreateDest key w = Some (d, w') /\ net_ok None w' /\ got_dest key d w w'.
Proof.
  intros W. unfold FindCreateDest. destruct (wf_dests _ _ _ _ W) as [M HM].
  assert (Hrep : ip_rep (ip_key w) (nw_ips w) M).
  { eapply kt_agree; [exact (do_rep _ _ _ _ _ HM)|]. intros k p _. by rewrite ip_key_view. }
  assert (Hfind : FindDestLink key w = Some (M !! key)) by (unfold FindDestLink; by rewrite (kt_find_ok _ _ _ key Hrep)).
  rewrite Hfind. cbn [mbind option_bind]. destruct (M !! key) as [d|] eqn:Ek.
  - exists d, w. split; [done|]. split; [done|]. split; try done.
    destruct (do_in _ _ _ _ _ HM key d Ek) as (v & Hv & Hlk & Hkey). destruct (view_dest_inv _ _ _ Hv) as (y & Hy & ->).
    exists y. split_and!; try done. by left.
  - destruct (AllocDestLink_ok w W) as (d & w1 & y & -> & T). cbn [mbind option_bind].
    pose proof (insert_dest_ok key w w1 d y W T Hfind) as HW.
    destruct T as [T1 (T2 & T3 & T4) T5 (T6 & T7 & T8 & T9) T10].
    assert (Hd1 : dest d w1 = Some y) by (unfold dest; rewrite T5; apply lookup_insert_eq).
    rewrite (upd_dest_eq d _ w1 y Hd1). cbn [mbind option_bind]. unfold StartTimer, env_do. nsimpl.
    destruct (start_timer d (60 * 1000) (nw_env w1)) as [b e]. cbn [snd]. eexists d, _. split; [reflexivity|]. split; [apply HW|].
    set (y' := copy_key key y). assert (Hk : dest_key_of y' = key) by (destruct key as [[[? ?] ?] ?]; by destruct y).
    assert (Hy' : dl_sock_list y' = [] /\ dl_linked y' = false) by (destruct key as [[[? ?] ?] ?]; by destruct y).
    split; try done.
    + destruct T1 as [S1 S2 (S3 & S4 & S5) S6 (S7 & S8)]. by split.
    + intros d' Hne. unfold dest, InsertDestLink. nsimpl. by rewrite T5, !lookup_insert_ne.
    + exists y'. unfold dest at 1, InsertDestLink. nsimpl. rewrite lookup_insert_eq. split_and!; try apply Hy'; try done.
      right. split; [apply Hy'|]. intros z Hz. destruct T10 as [[_ (z' & Hz' & Hl' & _)]|[_ Hn]]; congruence.
Qed.
End net.
