(* ===== verification/NetStay.v ===== *)
(** * The network layer: what one call leaves alone

    The operations of the layer run while other threads wait inside [SendRecv].  The
    relation [stays] says what such a thread may rely on: its handler is still its own,
    keeps its key and its request (of which more may be sent), may lose its link but
    gets no other one, and links do not go away.  [goes] is the judgement that an
    operation is defined, keeps the invariant and changes the world along such a
    relation; the operations compose by [goes_bind]. *)

From Stdlib Require Import ZArith Lia.
From stdpp Require Import base gmap list option fin_maps.
From S2P Require Import Prelude Bytes HashList KeyTable RwCache NetData NetOps NetInv NetQueues NetBlocks NetLinks.
From S2P Require Import NetDest.

(** ** Handlers *)

(** The request of a handler at a link can be sent. *)
Definition req_ok (x : CNetHandler) : Prop :=
  nh_conn x <> None -> exists data, nh_req_data x = Some data /\ 0 <= nh_req_len x <= blen data /\ nh_req_len x < 2 ^ 32.

Definition req_step (x x' : CNetHandler) : Prop :=
  (nh_req_data x' = nh_req_data x /\ nh_req_len x' = nh_req_len x) \/
  exists n data, 0 <= n <= nh_req_len x /\ nh_req_len x <= blen data /\ nh_req_data x = Some data /\
    nh_req_data x' = Some (drop (Z.to_nat n) data) /\ nh_req_len x' = nh_req_len x - n.

Record item_step (x x' : CNetHandler) : Prop := {
  is_key : handler_key x' = handler_key x;
  is_reg : Z.testbit (nh_state x') 0 = Z.testbit (nh_state x) 0;
  is_thread : nh_thread x' = nh_thread x;
  is_callback : nh_callback x' = nh_callback x;
  is_conn : nh_conn x' = nh_conn x \/ nh_conn x' = None;
  is_req : req_step x x';
}.
Lemma req_step_trans x y z : req_step x y -> req_step y z -> req_step x z.
Proof.
  intros [[A1 A2]|(n & d & N1 & N2 & N3 & N4 & N5)] [[B1 B2]|(m & d' & M1 & M2 & M3 & M4 & M5)].
  - left. split; congruence.
  - right. exists m, d'. rewrite <- A1, <- A2. split_and!; try done; lia.
  - right. exists n, d. split_and!; try done; try lia; congruence.
  - right. rewrite N4 in M3. injection M3 as <-. exists (n + m), d. split_and!; try done; try lia.
    rewrite M4, drop_drop. do 2 f_equal. lia.
Qed.
#[export] Instance item_step_preorder : PreOrder item_step.
Proof.
  split; [intros x; split; try done; [by left|by left; split]|].
  intros x y z [A1 A0 A2 A3 A4 A5] [B1 B0 B2 B3 B4 B5]. split; try congruence; [|by eapply req_step_trans].
  destruct A4, B4; [left|right..]; congruence.
Qed.
Lemma req_ok_step x x' : item_step x x' -> req_ok x -> req_ok x'.
Proof.
  intros [_ _ _ _ Hc Hr] Hx Hn. assert (Hx0 : nh_conn x <> None) by (destruct Hc; congruence).
  destruct (Hx Hx0) as (d & D1 & D2 & D3). destruct Hr as [[A1 A2]|(n & d' & N1 & N2 & N3 & N4 & N5)].
  - exists d. rewrite A1, A2. done.
  - rewrite D1 in N3. injection N3 as <-. exists (drop (Z.to_nat n) d). split; [done|]. unfold blen in *. rewrite length_drop. lia.
Qed.

Section world.
Context {EV TS TI : Type}.
Abbreviation NetW := (NetW EV TS TI).
Implicit Types (w : NetW) (h l d t : ptr) (X : list ptr).

(** ** Worlds *)

Definition reqs_ok w : Prop := forall h x, item h w = Some x -> req_ok x.

(** The handlers outside [X] and the links. *)
Record stays X w w' : Prop := {
  sy_item p : p ∉ X -> option_relation item_step (fun _ => False) (fun _ => False) (item p w) (item p w');
  sy_dom p : is_Some (item p w) <-> is_Some (item p w');
  sy_pool : rp_free_list (nw_item_pool w') = rp_free_list (nw_item_pool w);
  sy_link l : is_Some (link l w) -> is_Some (link l w');
  sy_threads t : t ∈ nw_io w ++ nw_run w -> t ∈ nw_io w' ++ nw_run w';
}.
Lemma woken_threads w w' t : woken_only w w' -> t ∈ nw_io w ++ nw_run w -> t ∈ nw_io w' ++ nw_run w'.
Proof. intros [_ (more & -> & _ & H)]. rewrite !elem_of_app. intros [Ht|Ht]; [destruct (H t Ht)|]; tauto. Qed.
#[export] Instance stays_preorder X : PreOrder (stays X).
Proof.
  split.
  - intros w. split; try done. intros p _. unfold option_relation. by destruct (item p w).
  - intros w1 w2 w3 [A1 A2 A3 A4 A5] [B1 B2 B3 B4 B5]. split; [|by intros p; rewrite A2|congruence|auto..].
    intros p Hp. specialize (A1 p Hp). specialize (B1 p Hp). unfold option_relation in *.
    destruct (item p w1), (item p w2), (item p w3); try done. by etransitivity.
Qed.
Lemma stays_mono X Y w w' : stays X w w' -> X ⊆ Y -> stays Y w w'.
Proof. intros [A1 A2 A3 A4 A5] HX. split; try done. intros p Hp. apply A1. intros Hin. by apply Hp, HX. Qed.
Lemma stays_some X w w' p x : stays X w w' -> p ∉ X -> item p w = Some x -> exists x', item p w' = Some x' /\ item_step x x'.
Proof.
  intros [A _ _ _ _] Hp E. specialize (A p Hp). rewrite E in A. unfold option_relation in A.
  destruct (item p w') as [x'|]; [|done]. by exists x'.
Qed.

(** The invariant on requests, from the relation. *)
Lemma reqs_ok_stays X w w' : stays X w w' -> reqs_ok w -> (forall p x', p ∈ X -> item p w' = Some x' -> req_ok x') -> reqs_ok w'.
Proof.
  intros [A1 A2 A3 A4 A5] H HX p x' E. destruct (decide (p ∈ X)) as [Hp|Hp]; [by eapply HX|].
  specialize (A1 p Hp). rewrite E in A1. unfold option_relation in A1. destruct (item p w) as [x|] eqn:Ex; [|done].
  eapply req_ok_step; [exact A1|by eapply H].
Qed.

(** The links keep their owner and protocol, too. *)
Definition link_step (x x' : CSockLink) : Prop := sl_parents x' = sl_parents x /\ sl_proto x' = sl_proto x.
Record steady X w w' : Prop := {
  st_stays : stays X w w';
  st_link l x : link l w = Some x -> exists x', link l w' = Some x' /\ link_step x x';
}.
#[export] Instance steady_preorder X : PreOrder (steady X).
Proof.
  split; [intros w; split; [done|by eexists]|]. intros w1 w2 w3 [A1 A2] [B1 B2]. split; [by etransitivity|].
  intros l x Hx. destruct (A2 l x Hx) as (x2 & E2 & P2 & Q2). destruct (B2 l x2 E2) as (x3 & E3 & P3 & Q3).
  exists x3. split; [done|]. split; congruence.
Qed.
Lemma steady_mono X Y w w' : steady X w w' -> X ⊆ Y -> steady Y w w'.
Proof. intros [A B] HX. split; [by eapply stays_mono|done]. Qed.

(** A link in use. *)
Definition live l w : Prop := exists x, link l w = Some x /\ sl_parents x <> None.
Lemma live_steady X l w w' : steady X w w' -> live l w -> live l w'.
Proof. intros [_ A] (x & E & Hp). destruct (A l x E) as (x' & E' & P & _). exists x'. split; [done|congruence]. Qed.
(** ** From the frames of the operations *)

Lemma item_dom_fmap {C} (f : CNetHandler -> C) w w' : f <$> nw_items w' = f <$> nw_items w -> forall p, is_Some (item p w) <-> is_Some (item p w').
Proof.
  intros H p. unfold item. assert (E : f <$> (nw_items w' !! p) = f <$> (nw_items w !! p)) by (by rewrite <- !lookup_fmap, H).
  destruct (nw_items w !! p), (nw_items w' !! p); try done; split; by intros [? ?].
Qed.
Lemma strip_err_step x x' : strip_err x' = strip_err x -> nh_conn x' = nh_conn x \/ nh_conn x' = None -> item_step x x'.
Proof.
  intros H Hc. destruct x, x'. unfold strip_err, strip_item in H. nsimpl in H. injection H as -> -> -> -> -> -> -> Hb -> -> -> -> ->.
  split; try done; [by apply Z.b2z_inj|by left].
Qed.
Lemma stays_of w w' : strip_err <$> nw_items w' = strip_err <$> nw_items w ->
  (forall p x x', item p w = Some x -> item p w' = Some x' -> nh_conn x' = nh_conn x \/ nh_conn x' = None) ->
  rp_free_list (nw_item_pool w') = rp_free_list (nw_item_pool w) -> (forall l, is_Some (link l w) -> is_Some (link l w')) ->
  woken_only w w' -> stays [] w w'.
Proof.
  intros HI HC HP HL HW. pose proof (item_dom_fmap strip_err w w' HI) as Hd.
  split; try done; [|intros t; by apply woken_threads]. intros p _. unfold option_relation.
  destruct (item p w) as [x|] eqn:E.
  - destruct (fmap_eq_lookup strip_err _ _ _ _ (eq_sym HI) E) as (x' & E' & S). unfold item. rewrite E'. apply strip_err_step; [done|by eapply HC].
  - destruct (item p w') eqn:E'; [|done]. destruct (proj2 (Hd p)) as [? ?]; [by rewrite E'|]. congruence.
Qed.
Lemma link_step_strip x x' : strip_link x' = strip_link x -> link_step x x'.
Proof. intros H. split; [apply (f_equal sl_parents) in H|apply (f_equal sl_proto) in H]; exact H. Qed.
Lemma steady_of w w' : strip_err <$> nw_items w' = strip_err <$> nw_items w ->
  (forall p x x', item p w = Some x -> item p w' = Some x' -> nh_conn x' = nh_conn x \/ nh_conn x' = None) ->
  rp_free_list (nw_item_pool w') = rp_free_list (nw_item_pool w) -> strip_link <$> nw_links w' = strip_link <$> nw_links w ->
  woken_only w w' -> steady [] w w'.
Proof.
  intros HI HC HP HL HW.
  assert (Hl : forall l x, link l w = Some x -> exists x', link l w' = Some x' /\ link_step x x').
  { intros l x E. destruct (fmap_eq_lookup strip_link _ _ _ _ (eq_sym HL) E) as (x' & E' & S). exists x'. split; [done|by apply link_step_strip]. }
  split; [|done]. apply stays_of; try done. intros l [x E]. destruct (Hl l x E) as (x' & E' & _). by exists x'.
Qed.
Lemma calm_steady w w' : calm w w' -> (forall p x x', item p w = Some x -> item p w' = Some x' -> nh_conn x' = nh_conn x \/ nh_conn x' = None) ->
  steady [] w w'.
Proof.
  intros C Hc. apply steady_of; [apply (ca_items _ _ C)|done| |apply (ca_links _ _ C)|apply (ca_woken _ _ C)].
  by destruct (calm_rest _ _ C) as (_ & _ & _ & _ & _ & _ & _ & -> & _).
Qed.
(** Handlers, their pool and the links are the same. *)
Lemma steady_same w w' : nw_items w' = nw_items w -> nw_item_pool w' = nw_item_pool w -> nw_links w' = nw_links w ->
  (forall t, t ∈ nw_io w ++ nw_run w -> t ∈ nw_io w' ++ nw_run w') -> steady [] w w'.
Proof.
  intros EI EP EL ET. split; [split|].
  - intros p _. unfold item. rewrite EI. unfold option_relation. by destruct (nw_items w !! p).
  - intros p. unfold item. by rewrite EI.
  - by rewrite EP.
  - intros l. unfold link. by rewrite EL.
  - done.
  - intros l x Hx. exists x. unfold link. by rewrite EL.
Qed.
End world.

Section net.
Context {EV TS TI : Type} `{!NetEnv EV, !KeyTable sess_key TS, !KeyTable dest_key TI}.
Context (sess_rep : (ptr -> sess_key) -> TS -> gmap sess_key ptr -> Prop) `{!KeyTableLaws sess_key TS sess_rep}.
Context (ip_rep : (ptr -> dest_key) -> TI -> gmap dest_key ptr -> Prop) `{!KeyTableLaws dest_key TI ip_rep}.

Abbreviation NetW := (NetW EV TS TI).
Abbreviation net_ok := (net_ok sess_rep ip_rep).
Implicit Types (w : NetW) (h l d t : ptr) (X : list ptr).

(** ** The invariant *)

Definition inv w : Prop := net_ok None w /\ reqs_ok w.
Lemma inv_steady w w' : inv w -> net_ok None w' -> steady [] w w' -> inv w'.
Proof. intros [_ H] W [S _]. split; [done|]. eapply reqs_ok_stays; [exact S|done|]. by intros p x' ?%elem_of_nil. Qed.
Lemma inv_stays w w' : inv w -> net_ok None w' -> stays [] w w' -> inv w'.
Proof. intros [_ H] W S. split; [done|]. eapply reqs_ok_stays; [exact S|done|]. by intros p x' ?%elem_of_nil. Qed.
Lemma live_not_free l w : net_ok None w -> live l w -> l ∉ rp_free_list (nw_link_pool w).
Proof.
  intros W (x & Hl & Hp). destruct (net_link_owner sess_rep ip_rep w l x W Hl) as [_ H]. destruct (sl_parents x); [apply H|done].
Qed.


(** ** The judgement *)

Class HasWorld (B : Type) := world_of : B -> NetW.
#[export] Instance world_self : HasWorld NetW := fun w => w.
#[export] Instance world_pair A : HasWorld (A * NetW) := snd.

Definition goes {B} `{!HasWorld B} (R : NetW -> NetW -> Prop) w (o : option B) (Q : B -> Prop) : Prop :=
  exists b, o = Some b /\ inv (world_of b) /\ R w (world_of b) /\ Q b.

Lemma goes_bind {B C} `{!HasWorld B, !HasWorld C} R `{!Transitive R} w (o : option B) (f : B -> option C) Q Q' :
  goes R w o Q -> (forall b, inv (world_of b) -> R w (world_of b) -> Q b -> goes R (world_of b) (f b) Q') -> goes R w (o ≫= f) Q'.
Proof.
  intros (b & -> & I & HR & HQ) Hf. destruct (Hf b I HR HQ) as (c & E & I' & HR' & HQ'). exists c. split; [exact E|].
  split; [done|]. split; [by etransitivity|done].
Qed.
(** A steady step before one that may lose links. *)
Lemma goes_bind_stays {B C} `{!HasWorld B, !HasWorld C} X w (o : option B) (f : B -> option C) Q Q' :
  goes (steady X) w o Q -> (forall b, inv (world_of b) -> steady X w (world_of b) -> Q b -> goes (stays X) (world_of b) (f b) Q') ->
  goes (stays X) w (o ≫= f) Q'.
Proof.
  intros (b & -> & I & HR & HQ) Hf. destruct (Hf b I HR HQ) as (c & E & I' & HR' & HQ'). exists c. split; [exact E|].
  split; [done|]. split; [etransitivity; [apply HR|exact HR']|done].
Qed.
Lemma goes_mono {B} `{!HasWorld B} (R R' : NetW -> NetW -> Prop) w (o : option B) (Q Q' : B -> Prop) :
  goes R w o Q -> (forall w', R w w' -> R' w w') -> (forall b, Q b -> Q' b) -> goes R' w o Q'.
Proof. intros (b & E & I & HR & HQ) H1 H2. exists b. auto 10. Qed.
Lemma goes_ret {B} `{!HasWorld B} R `{!Reflexive R} w (b : B) (Q : B -> Prop) : world_of b = w -> inv w -> Q b -> goes R w (Some b) Q.
Proof. intros E I HQ. exists b. rewrite E. done. Qed.
Lemma goes_weaken {B} `{!HasWorld B} (R : NetW -> NetW -> Prop) w (o : option B) (Q Q' : B -> Prop) :
  goes R w o Q -> (forall b, R w (world_of b) -> Q b -> Q' b) -> goes R w o Q'.
Proof. intros (b & E & I & HR & HQ) H. exists b. auto 10. Qed.

(** The code goes, or it does not end and [P] is the case. *)
Definition goes_unless {B} `{!HasWorld B} (P : Prop) (R : NetW -> NetW -> Prop) w (o : option B) (Q : B -> Prop) : Prop :=
  goes R w o Q \/ (o = None /\ P).
Lemma unless_goes {B} `{!HasWorld B} P R w (o : option B) Q : goes R w o Q -> goes_unless P R w o Q.
Proof. by left. Qed.
Lemma unless_bind {B C} `{!HasWorld B, !HasWorld C} P R `{!Transitive R} w (o : option B) (f : B -> option C) Q Q' :
  goes R w o Q -> (forall b, inv (world_of b) -> R w (world_of b) -> Q b -> goes_unless P R (world_of b) (f b) Q') ->
  goes_unless P R w (o ≫= f) Q'.
Proof.
  intros (b & -> & I & HR & HQ) Hf. destruct (Hf b I HR HQ) as [(c & E & I' & HR' & HQ')|[E HP]]; [left|by right].
  exists c. split; [exact E|]. split; [done|]. split; [by etransitivity|done].
Qed.
Lemma unless_bind_stays {B C} `{!HasWorld B, !HasWorld C} P X w (o : option B) (f : B -> option C) Q Q' :
  goes (steady X) w o Q -> (forall b, inv (world_of b) -> steady X w (world_of b) -> Q b -> goes_unless P (stays X) (world_of b) (f b) Q') ->
  goes_unless P (stays X) w (o ≫= f) Q'.
Proof.
  intros (b & -> & I & HR & HQ) Hf. destruct (Hf b I HR HQ) as [(c & E & I' & HR' & HQ')|[E HP]]; [left|by right].
  exists c. split; [exact E|]. split; [done|]. split; [etransitivity; [apply HR|exact HR']|done].
Qed.
Lemma unless_then_stays {B C} `{!HasWorld B, !HasWorld C} P X w (o : option B) (f : B -> option C) Q Q' :
  goes_unless P (steady X) w o Q -> (forall b, inv (world_of b) -> steady X w (world_of b) -> Q b -> goes (stays X) (world_of b) (f b) Q') ->
  goes_unless P (stays X) w (o ≫= f) Q'.
Proof. intros [Ho|[-> HP]] Hf; [left; by eapply goes_bind_stays|by right]. Qed.
Lemma unless_mono {B} `{!HasWorld B} (P P' : Prop) (R : NetW -> NetW -> Prop) w (o : option B) (Q Q' : B -> Prop) :
  goes_unless P R w o Q -> (P -> P') -> (forall b, R w (world_of b) -> Q b -> Q' b) -> goes_unless P' R w o Q'.
Proof. intros [H|[-> H]] HP HQ; [left; by eapply goes_weaken|right; auto]. Qed.
End net.
