(* ===== verification/NetSteps.v ===== *)
(** * The network layer: single operations as steps

    The operations of [NetOps] on handlers and links that are in use, in the judgement
    [goes] of [NetStay]. *)

From Stdlib Require Import ZArith Lia.
From stdpp Require Import base gmap list option fin_maps.
From S2P Require Import Prelude Bytes HashList KeyTable RwCache NetData NetOps NetInv NetQueues NetBlocks NetLinks.
From S2P Require Import NetDest NetStay.

Section net.
Context {EV TS TI : Type} `{!NetEnv EV, !KeyTable sess_key TS, !KeyTable dest_key TI}.
Context (sess_rep : (ptr -> sess_key) -> TS -> gmap sess_key ptr -> Prop) `{!KeyTableLaws sess_key TS sess_rep}.
Context (ip_rep : (ptr -> dest_key) -> TI -> gmap dest_key ptr -> Prop) `{!KeyTableLaws dest_key TI ip_rep}.
Context (rcvd sent : EV -> list Z) {HLaws : CacheEnvLaws rcvd sent}.

Abbreviation NetW := (NetW EV TS TI).
Abbreviation net_ok := (net_ok sess_rep ip_rep).
Abbreviation inv := (inv sess_rep ip_rep).
Abbreviation goes := (goes sess_rep ip_rep).
Implicit Types (w : NetW) (h l d t : ptr) (X : list ptr).

(** ** The environment *)

Lemma inv_env w e : inv w -> inv (set_nw_env e w).
Proof. intros [W H]. split; [by apply net_ok_env|exact H]. Qed.
Lemma env_steady X w e : steady X w (set_nw_env e w).
Proof. apply (steady_mono []); [by apply steady_same|]. by intros p ?%elem_of_nil. Qed.
Lemma goes_env {B} `{!HasWorld B} R `{!Transitive R} w e (o : option B) Q :
  R w (set_nw_env e w) -> goes R (set_nw_env e w) o Q -> goes R w o Q.
Proof. intros HR (b & E & I & HR' & HQ). exists b. split_and!; try done. by etransitivity. Qed.

(** ** Fields of a link *)

Lemma upd_link_goes l f w : inv w -> live l w ->
  (forall x, link_q (f x) = link_q x /\ sl_parents (f x) = sl_parents x /\ sl_linked (f x) = sl_linked x /\
     sl_cache (f x) = sl_cache x /\ sl_rsp (f x) = sl_rsp x /\ sl_proto (f x) = sl_proto x) ->
  goes (steady []) w (upd_link l f w) (fun w' => exists x, link l w = Some x /\ w' = set_links (<[l := f x]> (nw_links w)) w).
Proof.
  intros [W H] L Hf. pose proof (live_not_free _ _ l w W L) as Hnf. destruct L as (x & Hl & Hp).
  rewrite (upd_link_eq l f w x Hl). destruct (Hf x) as (F1 & F2 & F3 & F4 & F5 & F6). set (w' := set_links _ w).
  assert (W' : net_ok None w') by (by apply (set_link_ok sess_rep ip_rep None w l x)).
  assert (S : steady [] w w').
  { split; [split; try done|].
    - intros p _. change (item p w') with (item p w). unfold option_relation. by destruct (item p w).
    - intros l'. unfold w', link. nsimpl. rewrite lookup_insert. case_decide; [done|tauto].
    - intros l' y Hy. unfold w', link in *. nsimpl. rewrite lookup_insert. case_decide; [subst|by exists y].
      rewrite Hl in Hy. injection Hy as <-. by exists (f x). }
  exists w'. split; [done|]. split; [by apply (inv_steady _ _ w)|]. split; [done|]. by exists x.
Qed.

(** ** Moving handlers *)

Lemma NotifyThread_goes h r x w : inv w -> item h w = Some x -> goes (steady []) w (NotifyThread h r w)
  (fun w' => notified w h r w' /\ view_of w' = view_of w).
Proof.
  intros [W H] Hh. destruct (NotifyThread_ok w h x r Hh) as (w' & E & V & N). exists w'. split; [done|].
  assert (W' : net_ok None w') by (by eapply net_ok_view).
  assert (S : steady [] w w').
  { pose proof N as (x0 & Hx0 & Hh' & Ho & HL & C & _). apply calm_steady; [done|]. intros p z z' E1 E2.
    destruct (decide (p = h)) as [->|Hne].
    - left. rewrite Hh in E1. injection E1 as <-. rewrite Hh in Hx0. injection Hx0 as <-. rewrite E2 in Hh'. injection Hh' as ->.
      unfold with_err. by destruct (r =? RC_SUCCESS).
    - left. rewrite (Ho p Hne) in E2. congruence. }
  split; [by apply (inv_steady _ _ w)|]. done.
Qed.

Lemma moved_steady w h l q w' : moved w h l q w' -> (forall x, item h w = Some x -> nh_conn x = Some l) -> steady [] w w'.
Proof.
  intros [Q (x & x' & y & y' & s & q0 & Hh & Hs & Hl & Ex & Ey & ->)] Hc. apply calm_steady; [by apply queues_only_calm|].
  intros p z z' E1 E2. unfold item, put2 in E2. nsimpl in E2. rewrite lookup_insert in E2. case_decide; subst.
  - injection E2 as <-. left. rewrite E1 in Hh. injection Hh as ->. cbn. symmetry. by apply Hc.
  - left. unfold item in E1. congruence.
Qed.
(** The effect of a switch on the handlers. *)
Record switched w h (x : CNetHandler) w' : Prop := {
  sd_queues : queues_only w w';
  sd_item : exists x', item h w' = Some x' /\ nh_conn x' = nh_conn x /\ strip_item x' = strip_item x;
  sd_others p : p <> h -> item p w' = item p w;
}.
Lemma moved_switched w h l q x w' : moved w h l q w' -> item h w = Some x -> nh_conn x = Some l -> switched w h x w'.
Proof.
  intros [Q (x0 & x' & y & y' & s & q0 & Hh & Hs & Hl & -> & Ey & ->)] Hx Hc. rewrite Hh in Hx. injection Hx as ->. split; [done|..].
  - rewrite put2_item. eexists. split; [done|]. split; [by rewrite Hc|]. exact (strip_entered_item s q q0 x Hs).
  - intros p Hne. unfold item, put2. nsimpl. by rewrite lookup_insert_ne.
Qed.
Lemma switched_err w h x w' x' : switched w h x w' -> item h w' = Some x' -> nh_err x' = nh_err x.
Proof.
  intros [_ (x1 & Hx & _ & Hs) _] Hx'. rewrite Hx in Hx'. injection Hx' as ->. apply (f_equal nh_err) in Hs. by destruct x', x.
Qed.
Lemma switched_no_link w h x w' l : switched w h x w' -> link l w = None -> link l w' = None.
Proof.
  intros [[_ HL _] _ _] Hl. apply (f_equal (.!! l)) in HL. rewrite !lookup_fmap in HL. unfold link in *. rewrite Hl in HL.
  by destruct (nw_links w' !! l).
Qed.
Lemma switched_refl w h x : item h w = Some x -> switched w h x w.
Proof. intros Hx. split; [done|by exists x|done]. Qed.

Lemma switch_goes h q x w : inv w -> item h w = Some x ->
  goes (steady []) w (switch_to (q_flag q) (q_list q) h w)
    (fun w' => switched w h x w' /\ match nh_conn x with Some l => moved w h l q w' | None => w' = w end).
Proof.
  intros [W H] Hh. destruct (nh_conn x) as [l|] eqn:Hc.
  - destruct (switch_to_ok sess_rep ip_rep None w h x l q W Hh Hc) as (w' & -> & W' & M).
    assert (S : steady [] w w') by (apply (moved_steady w h l q w' M); intros x0 E; congruence).
    exists w'. split; [done|]. split; [by apply (inv_steady _ _ w)|]. split; [done|].
    split; [by eapply moved_switched|done].
  - rewrite (switch_to_nop w h x _ _ Hh Hc). apply goes_ret; [apply _|done|by split|]. split; [by apply switched_refl|done].
Qed.

Lemma Unlink_goes h x w : inv w -> item h w = Some x -> goes (steady []) w (Unlink h w) (unlinked w h).
Proof.
  intros [W H] Hh. destruct (Unlink_ok sess_rep ip_rep None w h x W Hh) as (w' & E & W' & U). exists w'. split; [done|].
  assert (S : steady [] w w').
  { pose proof U as (Q & x' & Hx' & Hc' & _ & Ho). apply calm_steady; [by apply queues_only_calm|]. intros p z z' E1 E2.
    destruct (decide (p = h)) as [->|Hne]; [right; congruence|left]. by rewrite (Ho p z z' Hne E1 E2). }
  split; [by apply (inv_steady _ _ w)|]. done.
Qed.

(** A handler is done: its thread wakes and it goes to the idle queue. *)
Lemma notify_idle_goes h x w : inv w -> item h w = Some x -> goes (steady []) w (notify_idle h w)
  (fun w' => exists w1, notified w h 0 w1 /\ switched w1 h x w' /\ match nh_conn x with Some l => moved w1 h l QIdle w' | None => w' = w1 end).
Proof.
  intros I Hh. unfold notify_idle. eapply goes_bind; [apply _|by apply (NotifyThread_goes h 0 x)|].
  intros w1 I1 S1 [N V]. pose proof N as (x0 & Hx0 & Hh1 & _). rewrite Hh in Hx0. injection Hx0 as <-. cbn in Hh1.
  eapply goes_weaken; [apply (switch_goes h QIdle x w1 I1 Hh1)|]. intros w2 S2 M. exists w1. split; [done|]. exact M.
Qed.

(** ** Destroying a link *)

Lemma released_stays w d l x w' : net_ok None w -> link l w = Some x -> released d l (sl_errno x) (waiters x) w w' -> stays [] w w'.
Proof.
  intros W Hl R. apply stays_of.
  - apply (re_items _ _ _ _ _ _ R).
  - intros p z z' E1 E2. destruct (decide (p ∈ waiters x)) as [Hin|Hin].
    + destruct (re_item _ _ _ _ _ _ R p z Hin E1) as (z2 & E3 & Hc & _). right. congruence.
    + left. rewrite (re_frame _ _ _ _ _ _ R p Hin) in E2. congruence.
  - by rewrite (proj1 (re_pools _ _ _ _ _ _ R)).
  - intros l' [z Hz]. destruct (decide (l' = l)) as [->|Hne].
    + destruct (re_link _ _ _ _ _ _ R) as (y & Hy & _). by exists y.
    + assert (E : delete l (nw_links w) !! l' = Some z) by (by rewrite lookup_delete_ne).
      destruct (fmap_eq_lookup strip_link (delete l (nw_links w')) _ _ _ (eq_sym (re_links _ _ _ _ _ _ R)) E) as (z' & E' & S').
      exists z'. by rewrite lookup_delete_ne in E'.
  - apply (re_woken _ _ _ _ _ _ R).
Qed.
Lemma Destroy_goes l w : inv w -> live l w -> goes (stays []) w (Destroy l w) (fun w' => exists x d, link l w = Some x /\
  sl_parents x = Some d /\ released d l (sl_errno x) (waiters x) w w').
Proof.
  intros [W H] (x & Hl & Hp). destruct (sl_parents x) as [d|] eqn:Ed; [|done].
  destruct (Destroy_ok sess_rep ip_rep rcvd sent w l x d W Hl Ed) as (w' & E & W' & R). exists w'. split; [done|].
  assert (S : stays [] w w') by (by eapply released_stays). split; [by apply (inv_stays _ _ w)|]. split; [done|]. by exists x, d.
Qed.

(** ** Skipping what was sent *)

Definition sent_item (n : Z) (x : CNetHandler) : CNetHandler :=
  mkHandler (nh_thread x) (nh_proto x) (nh_conn_type x) (nh_ip x) (nh_port x) (nh_sid x) (nh_callback x) (nh_state x)
    (nh_err x) (nh_conn x) (u32 (nh_send_pos x + n)) (nh_req_len x - n)
    (drop (Z.to_nat n) <$> nh_req_data x) (nh_rsp x) (nh_release x) (nh_linked x).
Lemma set_item_view_ok w h x y : net_ok None w -> item h w = Some x -> item_v y = item_v x -> net_ok None (set_items (<[h := y]> (nw_items w)) w).
Proof.
  intros W Hh Hv. eapply net_ok_view; [|exact W]. unfold view_of. nsimpl. f_equal. by eapply fmap_insert_same.
Qed.
Lemma set_item_stays w h x y : item h w = Some x -> item_step x y -> steady [] w (set_items (<[h := y]> (nw_items w)) w).
Proof.
  intros Hh Hs. split; [split; try done|].
  - intros p _. unfold option_relation, item in *. nsimpl. destruct (decide (p = h)) as [->|Hne].
    + by rewrite Hh, lookup_insert_eq.
    + rewrite lookup_insert_ne by done. by destruct (nw_items w !! p).
  - intros p. unfold item in *. nsimpl. rewrite lookup_insert. case_decide; [subst; by rewrite Hh|done].
  - intros l y' Hy. by exists y'.
Qed.
Lemma SkipSendPos_goes n h x w : inv w -> item h w = Some x -> nh_conn x <> None -> 0 <= n ->
  goes (steady []) w (SkipSendPos n h w) (fun r => r.1 = Z.min n (nh_req_len x) /\
    r.2 = set_items (<[h := sent_item (Z.min n (nh_req_len x)) x]> (nw_items w)) w).
Proof.
  intros [W H] Hh Hc Hn. destruct (H h x Hh Hc) as (data & D1 & D2 & D3). unfold SkipSendPos. rewrite Hh. cbn [mbind option_bind].
  assert (E : (if nh_req_len x <=? n then nh_req_len x else n) = Z.min n (nh_req_len x)) by (destruct (Z.leb_spec (nh_req_len x) n); lia).
  rewrite E. rewrite (upd_item_eq h _ w x Hh). cbn [mbind option_bind]. set (k := Z.min n (nh_req_len x)).
  rewrite (u32_small (nh_req_len x - k)) by (unfold in_u32; lia). change (mkHandler _ _ _ _ _ _ _ _ _ _ _ _ _ _ _ _) with (sent_item k x).
  set (w' := set_items _ w). exists (k, w'). split; [done|]. cbn [world_of world_pair snd fst].
  assert (S : steady [] w w').
  { apply set_item_stays with x; [done|]. split; try done; [by left|]. right. exists k, data. cbn. rewrite D1. split_and!; try done; lia. }
  split; [apply (inv_steady _ _ w); [by split| |done]; by apply set_item_view_ok with x|]. done.
Qed.
End net.
