(* ===== verification/NetRecv.v ===== *)
(** * The network layer: the blocks of a link

    What [DispathTcp] and [DispathUdp] do with blocks: skipping bytes of the cache,
    filling and extending the answer block of a link, and giving a block to the
    handler that waited for it. *)

From Stdlib Require Import ZArith Lia.
From stdpp Require Import base gmap list option fin_maps.
From S2P Require Import Prelude Bytes HashList KeyTable RwCache NetData NetOps NetMain NetInv NetQueues NetBlocks.
From S2P Require Import NetLinks NetDest NetStay NetSteps.

(** A function of the records that another function does not disturb. *)
Lemma fmap_through {A B C} (g : A -> B) (f : A -> C) (m m' : gmap ptr A) :
  (forall x y, g x = g y -> f x = f y) -> g <$> m' = g <$> m -> f <$> m' = f <$> m.
Proof.
  intros Hf H. apply map_eq. intros k. rewrite !lookup_fmap. assert (E : g <$> (m' !! k) = g <$> (m !! k)) by (by rewrite <- !lookup_fmap, H).
  destruct (m' !! k), (m !! k); try done. injection E as E. cbn. by rewrite (Hf _ _ E).
Qed.

Section world.
Context {EV TS TI : Type} `{!NetEnv EV}.
Abbreviation NetW := (NetW EV TS TI).
Implicit Types (w : NetW) (h l d t p : ptr).

(** The bytes in the cache of a link. *)
Definition cached l w : list Z :=
  match link l w with Some x => mem_bytes (nw_bufs w) (rc_list (sl_cache x)) | None => [] end.

(** A link and the blocks of its protocol are replaced. *)
Definition put_link l (y : CSockLink) proto (st : CacheState) w : NetW := set_links (<[l := y]> (nw_links w)) (put_view proto st w).
Lemma put_link_fields l y proto st w : let w' := put_link l y proto st w in
  nw_items w' = nw_items w /\ nw_dests w' = nw_dests w /\ nw_sess w' = nw_sess w /\ nw_ips w' = nw_ips w /\ nw_bufs w' = cs_bufs st /\
  nw_item_pool w' = nw_item_pool w /\ nw_link_pool w' = nw_link_pool w /\ nw_dest_pool w' = nw_dest_pool w /\
  nw_io w' = nw_io w /\ nw_run w' = nw_run w /\ link l w' = Some y /\ (forall l', l' <> l -> link l' w' = link l' w).
Proof.
  intros w'. unfold w', put_link, put_view, link. destruct (proto =? NET_PROTO_TCP); nsimpl; split_and!; try done;
    try apply lookup_insert_eq; intros l' Hne; by rewrite lookup_insert_ne.
Qed.
Lemma put_link_steady l x y proto st w : link l w = Some x -> sl_parents y = sl_parents x -> sl_proto y = sl_proto x ->
  steady [] w (put_link l y proto st w).
Proof.
  intros Hl Hp Hpr. destruct (put_link_fields l y proto st w) as (F1 & _ & _ & _ & _ & F6 & _ & _ & F9 & F10 & F11 & F12).
  assert (Hlk : forall l' z, link l' w = Some z -> exists z', link l' (put_link l y proto st w) = Some z' /\ link_step z z').
  { intros l' z Hz. destruct (decide (l' = l)) as [->|Hne].
    - exists y. split; [done|]. rewrite Hl in Hz. injection Hz as <-. by split.
    - exists z. by rewrite F12. }
  split; [|done]. split.
  - intros p _. unfold item, option_relation. rewrite F1. by destruct (nw_items w !! p).
  - intros p. unfold item. by rewrite F1.
  - by rewrite F6.
  - intros l' [z Hz]. destruct (Hlk l' z Hz) as (z' & ? & _). by exists z'.
  - intros t. by rewrite F9, F10.
Qed.

(** A block that no object holds. *)
Definition loose p w : Prop :=
  forall proto, store_ok (mem_state (nw_bufs w) (pool_of proto (view_of w))) (p :: all_of w ++ other_of proto w).
Lemma loose_view w w' p : view_of w' = view_of w -> loose p w -> loose p w'.
Proof.
  intros H HL proto. specialize (HL proto). unfold all_of, other_of in *. rewrite H.
  assert (Hb : nw_bufs w' = nw_bufs w) by (apply (f_equal v_bufs) in H; exact H). by rewrite Hb.
Qed.
Lemma loose_queues w w' p : queues_only w w' -> loose p w -> loose p w'.
Proof.
  intros [Q1 Q2 Q3] HL proto. specialize (HL proto).
  assert (R : nw_bufs w' = nw_bufs w /\ nw_udp w' = nw_udp w /\ nw_tcp w' = nw_tcp w).
  { destruct w, w'. unfold set_items, set_links in Q3. nsimpl in Q3. nsimpl. by injection Q3. }
  destruct R as (R1 & R2 & R3).
  assert (B1 : link_blocks <$> v_links (view_of w') = link_blocks <$> v_links (view_of w)).
  { cbn. rewrite <- !map_fmap_compose. apply (fmap_through strip_link); [|done]. intros x y E. unfold compose, link_blocks. cbn.
    apply (f_equal (fun z => (sl_cache z, sl_rsp z))) in E. change ((sl_cache x, sl_rsp x) = (sl_cache y, sl_rsp y)) in E. by injection E as -> ->. }
  assert (B2 : item_blocks <$> v_items (view_of w') = item_blocks <$> v_items (view_of w)).
  { cbn. rewrite <- !map_fmap_compose. apply (fmap_through strip_item); [|done]. intros x y E. unfold compose, item_blocks. cbn.
    apply (f_equal nh_rsp) in E. change (nh_rsp x = nh_rsp y) in E. by rewrite E. }
  unfold all_of, all_blocks, other_of, other_free, pool_of in *. cbn [v_udp v_tcp view_of] in *. rewrite B1, B2, R1, R2, R3. exact HL.
Qed.
End world.

Section net.
Context {EV TS TI : Type} `{!NetEnv EV, !KeyTable sess_key TS, !KeyTable dest_key TI}.
Context (sess_rep : (ptr -> sess_key) -> TS -> gmap sess_key ptr -> Prop) `{!KeyTableLaws sess_key TS sess_rep}.
Context (ip_rep : (ptr -> dest_key) -> TI -> gmap dest_key ptr -> Prop) `{!KeyTableLaws dest_key TI ip_rep}.
Context (rcvd sent : EV -> list Z) {HLaws : CacheEnvLaws rcvd sent}.

Abbreviation NetW := (NetW EV TS TI).
Abbreviation net_ok := (net_ok sess_rep ip_rep).
Abbreviation inv := (inv sess_rep ip_rep).
Abbreviation goes := (goes sess_rep ip_rep).
Implicit Types (w : NetW) (h l d t p : ptr) (X : list ptr).

(** A link in use: its cache takes blocks from the pool. *)
Lemma live_pool w l x : net_ok None w -> link l w = Some x -> sl_parents x <> None -> rc_pool (sl_cache x) = true.
Proof. intros W Hl Hp. apply (co_pool _ _ (bk_cache _ (wf_blocks _ _ _ _ W) l _ (view_link _ _ _ Hl))). by right. Qed.

Lemma cache_facts w l x : net_ok None w -> link l w = Some x -> cached l w = mem_bytes (nw_bufs w) (rc_list (sl_cache x)) /\
  rc_len (sl_cache x) = blen (cached l w) /\ blen (cached l w) < max_cached /\ Z.of_nat (length (rc_list (sl_cache x))) < max_cached.
Proof.
  intros W Hl. unfold cached. rewrite Hl. destruct (bk_cache _ (wf_blocks _ _ _ _ W) l _ (view_link _ _ _ Hl)) as [_ C2 C3 C4 _ _].
  done.
Qed.
Lemma rsp_facts w l x p : net_ok None w -> link l w = Some x -> sl_rsp x = Some p -> sl_proto x <> NET_PROTO_UDP /\
  exists b, nw_bufs w !! p = Some b /\ buf_ok b /\ sk_data b = 0 /\ buf_bytes b `prefix_of` cached l w.
Proof.
  intros W Hl Hp. destruct (bk_cache _ (wf_blocks _ _ _ _ W) l _ (view_link _ _ _ Hl)) as [_ _ _ _ _ C6].
  destruct (C6 p Hp) as (Hu & b & Hb & H0 & Hpre). split; [done|]. exists b. split; [done|].
  split; [|split; [done|unfold cached; by rewrite Hl]]. destruct (block_live sess_rep ip_rep None w p W) as (b' & Hb' & Hok).
  - rewrite in_all_of. left. exists l, x. split; [done|]. unfold link_blocks. cbn. rewrite Hp. apply elem_of_app. right. by left.
  - cbn in Hb. congruence.
Qed.

(** ** Skipping *)

Lemma skip_data_eq w l x n : net_ok None w -> link l w = Some x -> sl_parents x <> None -> 0 <= n < 2 ^ 32 ->
  exists c' st', skip_data l n w = Some (put_link l (set_cache c' x) (sl_proto x) st' w) /\
    cache_rep (rest_of l x w) c' st' (drop (Z.to_nat n) (cached l w)) /\ silent rcvd sent (rest_of l x w) (cache_view (sl_proto x) w) st' /\
    (length (rc_list c') <= length (rc_list (sl_cache x)))%nat /\
    cache_skip_data (Some (sl_cache x)) n (cache_view (sl_proto x) w) = Some (Some c', st').
Proof.
  intros W Hl Hp Hn. unfold skip_data. rewrite Hl. cbn [mbind option_bind].
  destruct (cache_facts w l x W Hl) as (Ec & _ & Hs & Hb).
  pose proof (link_cache_rep sess_rep ip_rep None w l x W Hl (live_pool w l x W Hl Hp)) as HR. rewrite <- Ec in HR.
  unfold max_cached in *.
  destruct (copy_out_rep rcvd sent _ _ _ _ false n HR ltac:(lia) ltac:(lia) Hn) as (c' & st' & E & HR' & Hk & Hle).
  unfold cache_skip_data. rewrite E. cbn [mbind option_bind default from_option id]. exists c', st'.
  assert (Hl' : link l (put_view (sl_proto x) st' w) = Some x) by (unfold put_view, link; destruct (sl_proto x =? NET_PROTO_TCP); exact Hl).
  rewrite (upd_link_eq l _ _ x Hl').
  assert (EL : nw_links (put_view (sl_proto x) st' w) = nw_links w) by (unfold put_view; by destruct (sl_proto x =? NET_PROTO_TCP)).
  rewrite EL. by split_and!.
Qed.

Lemma cached_put_link l y proto st w : cached l (put_link l y proto st w) = content st (rc_list (sl_cache y)).
Proof.
  unfold cached. destruct (put_link_fields l y proto st w) as (_ & _ & _ & _ & -> & _ & _ & _ & _ & _ & -> & _).
  unfold mem_bytes. apply content_mem. done.
Qed.

(** Skipping while the link has no answer block. *)
Lemma skip_data_goes w l x n : inv w -> link l w = Some x -> sl_parents x <> None -> sl_rsp x = None -> 0 <= n < 2 ^ 32 ->
  goes (steady []) w (skip_data l n w) (fun w' => exists c' st', w' = put_link l (set_cache c' x) (sl_proto x) st' w /\
    cached l w' = drop (Z.to_nat n) (cached l w) /\ silent rcvd sent (rest_of l x w) (cache_view (sl_proto x) w) st' /\
    cache_skip_data (Some (sl_cache x)) n (cache_view (sl_proto x) w) = Some (Some c', st')).
Proof.
  intros I Hl Hp Hr Hn. pose proof I as [W _].
  destruct (skip_data_eq w l x n W Hl Hp Hn) as (c' & st' & -> & HR & Hk & Hle & Ec'). set (w' := put_link _ _ _ _ w).
  destruct (cache_facts w l x W Hl) as (Ec & _ & Hs & Hb).
  assert (W' : net_ok None w').
  { eapply (link_cache_step sess_rep ip_rep None w l x); [done|done|apply (live_not_free sess_rep ip_rep); [done|by exists x]|exact HR|apply Hk|..].
    - unfold blen, max_cached in *. rewrite length_drop. lia.
    - unfold max_cached in *. lia.
    - intros p b Hrp. congruence. }
  assert (S : steady [] w w') by (by apply put_link_steady with x).
  exists w'. split; [done|]. split; [by apply (inv_steady _ _ w)|]. split; [done|]. exists c', st'. split; [done|]. split; [|by split].
  unfold w'. rewrite cached_put_link. apply (cr_bytes _ _ _ _ HR).
Qed.

(** ** Giving a block to a handler *)

Definition with_answer h (x : CNetHandler) (p : ptr) w : NetW :=
  set_items (<[h := set_rsp (Some p) x]> (nw_items w)) (without_block (nh_rsp x) w).

Lemma loose_nodup p w : loose p w -> NoDup (p :: all_of w).
Proof.
  intros HL. destruct (HL NET_PROTO_TCP) as [Hn _ _ _ _]. cbn [cs_pool mem_state] in Hn.
  rewrite app_comm_cons, <- app_assoc in Hn. by apply list.NoDup_app in Hn as (? & _ & _).
Qed.

Lemma nodup_second (p q : ptr) (l : list ptr) : NoDup (p :: q :: l) -> q ∉ p :: l.
Proof.
  intros Hn. pose proof (NoDup_cons_1_1 _ _ Hn) as H1. apply NoDup_cons_1_2, NoDup_cons_1_1 in Hn.
  rewrite elem_of_cons in *. intros [-> |?]; [apply H1; by left|done].
Qed.

Lemma with_answer_ok w h x p : net_ok None w -> item h w = Some x -> loose p w -> net_ok None (with_answer h x p w).
Proof.
  intros W Hh HL. pose proof (view_item _ _ _ Hh) as Vh. set (w' := with_answer h x p w).
  pose proof (loose_nodup p w HL) as Hnd.
  assert (VI : v_items (view_of w') = <[h := item_v (set_rsp (Some p) x)]> (v_items (view_of w))).
  { unfold w', with_answer. cbn. rewrite fmap_insert. by destruct (nh_rsp x). }
  assert (VR : v_links (view_of w') = v_links (view_of w) /\ v_dests (view_of w') = v_dests (view_of w) /\ v_sess (view_of w') = v_sess (view_of w) /\
    v_ips (view_of w') = v_ips (view_of w) /\ v_udp (view_of w') = v_udp (view_of w) /\ v_tcp (view_of w') = v_tcp (view_of w) /\
    v_free_items (view_of w') = v_free_items (view_of w) /\ v_free_links (view_of w') = v_free_links (view_of w) /\
    v_free_dests (view_of w') = v_free_dests (view_of w)) by (unfold w', with_answer; by destruct (nh_rsp x)).
  destruct VR as (V1 & V2 & V3 & V4 & V5 & V6 & V7 & V8 & V9).
  set (rest := lists_of (delete h (item_blocks <$> v_items (view_of w))) ++ lists_of (link_blocks <$> v_links (view_of w))).
  assert (P1 : all_of w ≡ₚ option_blocks (nh_rsp x) ++ rest) by (by apply all_of_item).
  assert (P2 : all_of w' ≡ₚ p :: rest).
  { etransitivity; [|exact (all_of_set_item w h (set_rsp (Some p) x))]. unfold w', with_answer, all_of. by destruct (nh_rsp x). }
  assert (Hb : forall q, q ∈ p :: rest -> nw_bufs w' !! q = nw_bufs w !! q).
  { intros q Hq. unfold w', with_answer, without_block. destruct (nh_rsp x) as [old|] eqn:Er; [|done]. nsimpl. apply lookup_delete_ne.
    intros <-. rewrite P1 in Hnd. by apply nodup_second in Hnd. }
  destruct W as [Wq Wl Ws Wd [Bs Bc]]. split; rewrite ?VI, ?V1, ?V2, ?V3, ?V4, ?V7, ?V8, ?V9; try done.
  - eapply queues_ok_items; [|exact Wq]. by eapply fmap_insert_same.
  - destruct Ws as [M HM]. exists M. eapply (sess_ok_same sess_rep); [..|exact HM]; by eapply fmap_insert_same.
  - split.
    + intros pr. specialize (HL pr). change (all_blocks (v_items (view_of w')) (v_links (view_of w'))) with (all_of w').
      unfold other_free, pool_of, other_of in *. rewrite V5, V6. cbn [v_bufs view_of].
      eapply (store_ok_shrink _ _ _ _ _ (option_blocks (nh_rsp x))); [exact HL| |].
      { rewrite P2, P1, <- (app_assoc (option_blocks _)). symmetry. apply Permutation_middle. }
      intros q Hq. left. unfold w', with_answer, without_block. destruct (nh_rsp x) as [old|] eqn:Er; [|done]. nsimpl. apply lookup_delete_ne.
      intros <-. destruct HL as [Hn _ _ _ _]. cbn [cs_pool mem_state] in Hn. rewrite P1 in Hn. rewrite P2 in Hq. cbn [option_blocks app] in Hn.
      rewrite <- !app_assoc in *. by apply nodup_second in Hn.
    + intros l y Hy. rewrite V1 in Hy. eapply cache_ok_keep; [|by apply (Bc l)]. intros q Hq. apply Hb. right. apply elem_of_app. right.
      apply lists_of_in. exists l, (link_blocks y). by rewrite lookup_fmap, Hy.
Qed.

Lemma SetRespBuff_goes w h x p : inv w -> item h w = Some x -> loose p w ->
  goes (steady []) w (SetRespBuff (Some p) h w) (fun w' => w' = with_answer h x p w).
Proof.
  intros I Hh HL. pose proof I as [W _]. unfold SetRespBuff. rewrite Hh. cbn [mbind option_bind].
  rewrite drop_block_eq.
  2: { intros q Hq. destruct (block_live sess_rep ip_rep None w q W) as (b & Hb & _); [|by exists b].
       rewrite in_all_of. right. by exists h, x. }
  cbn [mbind option_bind]. assert (Hh' : item h (without_block (nh_rsp x) w) = Some x) by (by destruct (nh_rsp x)).
  rewrite (upd_item_eq h _ _ x Hh'). assert (EI : nw_items (without_block (nh_rsp x) w) = nw_items w) by (by destruct (nh_rsp x)).
  rewrite EI. change (set_items _ _) with (with_answer h x p w).
  assert (S : steady [] w (with_answer h x p w)).
  { etransitivity; [apply (set_item_stays w h x (set_rsp (Some p) x) Hh)|].
    - split; try done; [by left|by left].
    - apply steady_same; unfold with_answer; by destruct (nh_rsp x). }
  eexists. split; [reflexivity|]. split; [apply (inv_steady _ _ w); [done|by apply with_answer_ok|done]|]. done.
Qed.
End net.
