(* ===== verification/NetGive.v ===== *)
(** * The network layer: an answer goes to its handler

    [DispathTcp] skips the bytes of an answer, wakes the handler, gives it the block
    and takes the block from the link only at the end.  In between the block has two
    owners; the proof takes it from the link first, and shows that the order makes no
    difference ([hand_over_commutes]). *)

From Stdlib Require Import ZArith Lia.
From stdpp Require Import base gmap list option fin_maps.
From S2P Require Import Prelude Bytes HashList KeyTable RwCache NetData NetOps NetMain NetInv NetQueues NetBlocks.
From S2P Require Import NetLinks NetDest NetStay NetSteps NetRecv.

(** ** The answer block of a link does not matter to the handlers *)

Section world.
Context {EV TS TI : Type} `{!NetEnv EV}.
Abbreviation NetW := (NetW EV TS TI).
Implicit Types (w : NetW) (h l d t p : ptr).

Definition set_rsp_at l (v : option ptr) w : NetW := set_links (alter (set_sl_rsp v) l (nw_links w)) w.

Lemma link_rsp_at l v w l' : link l' (set_rsp_at l v w) = (fun x => if decide (l = l') then set_sl_rsp v x else x) <$> link l' w.
Proof.
  unfold link, set_rsp_at. nsimpl. destruct (decide (l = l')) as [->|Hne].
  - apply lookup_alter_eq.
  - rewrite lookup_alter_ne by done. by destruct (nw_links w !! l').
Qed.
Lemma upd_item_rsp l v h f w : upd_item h f (set_rsp_at l v w) = set_rsp_at l v <$> upd_item h f w.
Proof. unfold upd_item. change (item h (set_rsp_at l v w)) with (item h w). by destruct (item h w). Qed.
Lemma upd_link_rsp l v l' f w : (forall x, f (set_sl_rsp v x) = set_sl_rsp v (f x)) ->
  upd_link l' f (set_rsp_at l v w) = set_rsp_at l v <$> upd_link l' f w.
Proof.
  intros Hf. unfold upd_link. rewrite link_rsp_at. destruct (link l' w) as [x|] eqn:E; [|done]. cbn. f_equal.
  unfold set_rsp_at, set_links. nsimpl. f_equal. destruct (decide (l = l')) as [->|Hne].
  - rewrite Hf. unfold link in E. apply map_eq. intros k. destruct (decide (k = l')) as [->|Hk].
    + by rewrite lookup_insert_eq, lookup_alter_eq, lookup_insert_eq.
    + by rewrite lookup_insert_ne, !lookup_alter_ne, lookup_insert_ne.
  - by rewrite alter_insert_ne.
Qed.
Lemma upd_link_list_rsp l v l' type q w : upd_link l' (set_item_list type q) (set_rsp_at l v w) = set_rsp_at l v <$> upd_link l' (set_item_list type q) w.
Proof. apply upd_link_rsp. intros x. unfold set_item_list. by repeat case_match. Qed.
Lemma GetItemList_rsp type v x : GetItemList type (set_sl_rsp v x) = GetItemList type x.
Proof. done. Qed.

(** Steps that commute compose. *)
Lemma bind_rsp l v (o : option NetW) (f : NetW -> option NetW) : (forall w, f (set_rsp_at l v w) = set_rsp_at l v <$> f w) ->
  (set_rsp_at l v <$> o) ≫= f = set_rsp_at l v <$> (o ≫= f).
Proof. intros Hf. destruct o as [w|]; [|done]. apply Hf. Qed.

Lemma AppendToList_rsp l v l' type h w : AppendToList l' type h (set_rsp_at l v w) = set_rsp_at l v <$> AppendToList l' type h w.
Proof.
  unfold AppendToList. rewrite link_rsp_at. destruct (link l' w) as [x|]; [|done]. cbn [fmap option_fmap option_map mbind option_bind].
  assert (E : GetItemList type (if decide (l = l') then set_sl_rsp v x else x) = GetItemList type x) by (by case_decide).
  rewrite E. destruct (GetItemList type x) as [q|]; [|done]. change (item h (set_rsp_at l v w)) with (item h w).
  destruct (item h w) as [i|]; [|done]. cbn [mbind option_bind]. destruct (nh_linked i); [done|].
  rewrite upd_link_list_rsp. apply bind_rsp. intros w1. apply upd_item_rsp.
Qed.
Lemma RemoveFromList_rsp l v l' type h w : RemoveFromList l' type h (set_rsp_at l v w) = set_rsp_at l v <$> RemoveFromList l' type h w.
Proof.
  unfold RemoveFromList. rewrite link_rsp_at. destruct (link l' w) as [x|]; [|done]. cbn [fmap option_fmap option_map mbind option_bind].
  assert (E : GetItemList type (if decide (l = l') then set_sl_rsp v x else x) = GetItemList type x) by (by case_decide).
  rewrite E. destruct (GetItemList type x) as [q|]; [|done]. case_bool_decide; [|done].
  rewrite upd_link_list_rsp. apply bind_rsp. intros w1. apply upd_item_rsp.
Qed.
Lemma detach_from_rsp l v l' h f ty w : detach_from l' h f ty (set_rsp_at l v w) = set_rsp_at l v <$> detach_from l' h f ty w.
Proof.
  unfold detach_from. change (item h (set_rsp_at l v w)) with (item h w). destruct (item h w) as [i|]; [|done].
  cbn [mbind option_bind]. destruct (_ =? 0); [done|]. rewrite RemoveFromList_rsp. apply bind_rsp. intros w1. apply upd_item_rsp.
Qed.
Lemma DetachConn_rsp l v h w : DetachConn h (set_rsp_at l v w) = set_rsp_at l v <$> DetachConn h w.
Proof.
  unfold DetachConn. change (item h (set_rsp_at l v w)) with (item h w). destruct (item h w) as [i|]; [|done].
  cbn [mbind option_bind]. destruct (nh_conn i) as [l'|]; [|done]. destruct (_ =? 0); [done|].
  rewrite detach_from_rsp. apply bind_rsp. intros w1. rewrite detach_from_rsp. apply bind_rsp. intros w2.
  rewrite detach_from_rsp. apply bind_rsp. intros w3. apply detach_from_rsp.
Qed.
Lemma switch_to_rsp l v f ty h w : switch_to f ty h (set_rsp_at l v w) = set_rsp_at l v <$> switch_to f ty h w.
Proof.
  unfold switch_to. change (item h (set_rsp_at l v w)) with (item h w). destruct (item h w) as [i|]; [|done].
  cbn [mbind option_bind]. destruct (nh_conn i) as [l'|]; [|done]. rewrite DetachConn_rsp. apply bind_rsp. intros w1.
  rewrite upd_item_rsp. apply bind_rsp. intros w2. apply AppendToList_rsp.
Qed.
Lemma NotifyThread_rsp l v h r w : NotifyThread h r (set_rsp_at l v w) = set_rsp_at l v <$> NotifyThread h r w.
Proof.
  unfold NotifyThread. assert (E : forall w, (x ← item h w; match nh_thread x with
      | Some t => Some (if bool_decide (t ∈ nw_io w) then wake_thread t w else w) | None => Some w end) = 
      (x ← item h w; Some (awake (nh_thread x) w))).
  { intros w1. destruct (item h w1) as [x|]; [|done]. cbn. by destruct (nh_thread x). }
  assert (F : forall w, (x ← item h (set_rsp_at l v w); Some (awake (nh_thread x) (set_rsp_at l v w))) =
      set_rsp_at l v <$> (x ← item h w; Some (awake (nh_thread x) w))).
  { intros w1. change (item h (set_rsp_at l v w1)) with (item h w1). destruct (item h w1) as [x|]; [|done]. cbn. f_equal.
    unfold awake. destruct (nh_thread x) as [t|]; [|done]. change (nw_io (set_rsp_at l v w1)) with (nw_io w1). by case_bool_decide. }
  destruct (r =? RC_SUCCESS).
  - cbn [mbind option_bind]. rewrite !E. apply F.
  - rewrite upd_item_rsp. apply bind_rsp. intros w1. rewrite !E. apply F.
Qed.
Lemma SetRespBuff_rsp l v b h w : SetRespBuff b h (set_rsp_at l v w) = set_rsp_at l v <$> SetRespBuff b h w.
Proof.
  unfold SetRespBuff. change (item h (set_rsp_at l v w)) with (item h w). destruct (item h w) as [i|]; [|done].
  cbn [mbind option_bind]. assert (E : drop_block (nh_rsp i) (set_rsp_at l v w) = set_rsp_at l v <$> drop_block (nh_rsp i) w).
  { unfold drop_block, delete_sk_buffer. destruct (nh_rsp i) as [q|]; [|done]. change (nw_bufs (set_rsp_at l v w)) with (nw_bufs w).
    cbn [cs_bufs cache_view]. change (nw_bufs (set_rsp_at l v w)) with (nw_bufs w). by destruct (nw_bufs w !! q). }
  rewrite E. apply bind_rsp. intros w1. apply upd_item_rsp.
Qed.

(** ** Handing over *)

Definition hand_over h (p : ptr) (n : Z) w : option NetW :=
  w ← NotifyThread h 0 w;
  w ← SwitchToIdle h w;
  b ← nw_bufs w !! p;
  SetRespBuff (Some p) h (set_nw_bufs (<[p := set_span (sk_data b) n b]> (nw_bufs w)) w).
Lemma hand_over_commutes l v h p n w : hand_over h p n (set_rsp_at l v w) = set_rsp_at l v <$> hand_over h p n w.
Proof.
  unfold hand_over. rewrite NotifyThread_rsp. apply bind_rsp. intros w1. unfold SwitchToIdle. rewrite switch_to_rsp. apply bind_rsp.
  intros w2. change (nw_bufs (set_rsp_at l v w2)) with (nw_bufs w2). destruct (nw_bufs w2 !! p) as [b|]; [|done]. cbn [mbind option_bind].
  change (set_nw_bufs ?m (set_rsp_at l v w2)) with (set_rsp_at l v (set_nw_bufs m w2)). apply SetRespBuff_rsp.
Qed.
End world.

(** A store without one of its blocks. *)
Lemma store_ok_tl {E1} (st : CacheState (E := E1)) p L : store_ok st (p :: L) -> store_ok st L.
Proof.
  intros [N1 N2 N3 N4 N5]. cbn in N1. apply NoDup_cons_1_2 in N1. split; try done. intros q Hq. apply N2. by right.
Qed.

Section net.
Context {EV TS TI : Type} `{!NetEnv EV, !KeyTable sess_key TS, !KeyTable dest_key TI}.
Context (sess_rep : (ptr -> sess_key) -> TS -> gmap sess_key ptr -> Prop) `{!KeyTableLaws sess_key TS sess_rep}.
Context (ip_rep : (ptr -> dest_key) -> TI -> gmap dest_key ptr -> Prop) `{!KeyTableLaws dest_key TI ip_rep}.
Context (rcvd sent : EV -> list Z) {HLaws : CacheEnvLaws rcvd sent}.

Abbreviation NetW := (NetW EV TS TI).
Abbreviation net_ok := (net_ok sess_rep ip_rep).
Abbreviation inv := (inv sess_rep ip_rep).
Abbreviation goes := (goes sess_rep ip_rep).
Implicit Types (w : NetW) (h l d t p : ptr) (X : list ptr).

(** The handler [h] woke up with the first [n] bytes of block [p]; nobody else noticed. *)
Record handed h (p : ptr) (n : Z) w w' : Prop := {
  ha_item : exists x x' b, item h w = Some x /\ item h w' = Some x' /\ nh_rsp x' = Some p /\ nh_conn x' = nh_conn x /\ nh_err x' = nh_err x /\
    nw_bufs w !! p = Some b /\ nw_bufs w' !! p = Some (set_span (sk_data b) n b) /\
    (forall q, q <> p -> nh_rsp x <> Some q -> nw_bufs w' !! q = nw_bufs w !! q) /\ (forall t, nh_thread x = Some t -> t ∉ nw_io w');
  ha_others q : q <> h -> item q w' = item q w;
  ha_links : strip_link <$> nw_links w' = strip_link <$> nw_links w;
  ha_same : nw_sess w' = nw_sess w /\ nw_dests w' = nw_dests w /\ nw_env w' = nw_env w;
  ha_woken : woken_only w w';
}.

(** The length of a loose block changes. *)
Definition respan (p : ptr) (n : Z) (b : TSkBuffer) w : NetW := set_nw_bufs (<[p := set_span (sk_data b) n b]> (nw_bufs w)) w.
Lemma respan_ok w p b n : inv w -> loose p w -> nw_bufs w !! p = Some b -> 0 <= n <= sk_data_len b ->
  inv (respan p n b w) /\ loose p (respan p n b w) /\ steady [] w (respan p n b w).
Proof.
  intros I HL Hb Hn. set (w' := respan p n b w). assert (S : steady [] w w') by (by apply steady_same).
  assert (Hok : buf_ok b).
  { destruct (store_ok_block _ _ p (HL NET_PROTO_TCP)) as (b0 & Hb0 & Hok); [by left|]. cbn in Hb0. congruence. }
  split; [|split; [|done]].
  - apply (inv_steady _ _ w); [done| |done]. destruct I as [[Wq Wl Ws Wd [Bs Bc]] _]. split; try done. split.
    + intros pr. eapply store_ok_shrink with (D := [p]) (bufs := nw_bufs w); [exact (HL pr)|done|]. intros q Hq. left. unfold w', respan. nsimpl.
      apply lookup_insert_ne. intros <-. destruct (HL pr) as [Hn2 _ _ _ _]. cbn [cs_pool mem_state app] in Hn2.
      by apply NoDup_cons_1_1 in Hn2.
    + intros l y Hy. change (v_links (view_of w) !! l = Some y) in Hy. eapply cache_ok_keep; [|by apply (Bc l)]. intros q Hq.
      unfold w', respan. cbn [v_bufs view_of]. nsimpl. apply lookup_insert_ne. intros <-.
      pose proof (loose_nodup _ _ HL) as Hn2. apply NoDup_cons_1_1 in Hn2. apply Hn2. unfold all_of, all_blocks. apply elem_of_app. left.
      apply lists_of_in. exists l, (link_blocks y). by rewrite lookup_fmap, Hy.
  - intros pr. pose proof (store_ok_put _ _ p (set_span (sk_data b) n b) (HL pr) ltac:(by left)) as HS. eapply store_ok_mem; [..|apply HS]; try done.
    destruct Hok. split; cbn; try done; lia.
Qed.

(** The last step: the block is the answer of the handler. *)
Lemma handed_intro w w1 w2 h x x2 p b n : item h w = Some x -> loose p w -> nw_bufs w !! p = Some b ->
  notified w h 0 w1 -> switched w1 h x w2 -> item h w2 = Some x2 -> nh_conn x2 = nh_conn x -> strip_item x2 = strip_item x ->
  handed h p n w (with_answer h x2 p (respan p n b w2)).
Proof.
  intros Hh HL Hb (x0 & Hx0 & Hh1 & Ho1 & L1 & C1 & T1) [Q2 _ Ho2] Hh2 Hc2 Hx2. rewrite Hh in Hx0. injection Hx0 as <-.
  destruct (calm_rest _ _ C1) as (E1 & D1 & Ss1 & _ & B1 & _).
  assert (R2 : nw_bufs w2 = nw_bufs w1 /\ nw_sess w2 = nw_sess w1 /\ nw_dests w2 = nw_dests w1 /\ nw_env w2 = nw_env w1 /\
    nw_io w2 = nw_io w1 /\ nw_run w2 = nw_run w1).
  { pose proof (qq_rest _ _ Q2) as Q3. destruct w1, w2. unfold set_items, set_links in Q3. nsimpl in Q3. nsimpl. by injection Q3. }
  destruct R2 as (R1 & R2 & R3 & R4 & R5 & R6).
  assert (Hr2 : nh_rsp x2 = nh_rsp x /\ nh_err x2 = nh_err x).
  { apply (f_equal (fun z => (nh_rsp z, nh_err z))) in Hx2. by injection Hx2. }
  destruct Hr2 as [Hr2 He2]. set (w' := with_answer h x2 p _).
  assert (F : nw_items w' = <[h := set_rsp (Some p) x2]> (nw_items w2) /\ nw_links w' = nw_links w2 /\ nw_sess w' = nw_sess w2 /\
    nw_dests w' = nw_dests w2 /\ nw_env w' = nw_env w2 /\ nw_io w' = nw_io w1 /\ nw_run w' = nw_run w1).
  { unfold w', with_answer, respan. rewrite <- R5, <- R6. by destruct (nh_rsp x2). }
  destruct F as (F1 & F2 & F3 & F4 & F5 & F6 & F7).
  assert (Hbuf : forall q, nh_rsp x <> Some q -> nw_bufs w' !! q = <[p := set_span (sk_data b) n b]> (nw_bufs w) !! q).
  { intros q Hq. unfold w', with_answer, respan, without_block. rewrite Hr2, <- B1, <- R1. destruct (nh_rsp x) as [o|]; nsimpl; [|done].
    apply lookup_delete_ne. congruence. }
  split; unfold item; rewrite ?F1, ?F2, ?F3, ?F4, ?F5.
  - exists x, (set_rsp (Some p) x2), b. split_and!; try done.
    + apply lookup_insert_eq.
    + rewrite Hbuf; [apply lookup_insert_eq|]. intros Hx. pose proof (loose_nodup _ _ HL) as Hn0. apply NoDup_cons_1_1 in Hn0.
      apply Hn0, in_all_of. right. by exists h, x.
    + intros q Hq Hqx. rewrite Hbuf by done. by apply lookup_insert_ne.
    + intros t Ht. rewrite F6. by apply T1.
  - intros q Hne. rewrite lookup_insert_ne by done. exact (eq_trans (Ho2 q Hne) (Ho1 q Hne)).
  - rewrite (qq_links _ _ Q2). by rewrite L1.
  - split_and!; congruence.
  - destruct (ca_woken _ _ C1) as [A B]. unfold woken_only. by rewrite F6, F7.
Qed.

Lemma hand_over_goes w h x p b n : inv w -> item h w = Some x -> loose p w -> nw_bufs w !! p = Some b -> 0 <= n <= sk_data_len b ->
  goes (steady []) w (hand_over h p n w) (handed h p n w).
Proof.
  intros I Hh HL Hb Hn. unfold hand_over.
  eapply goes_bind; [apply _|by apply (NotifyThread_goes sess_rep ip_rep h 0 x)|]. cbv beta. intros w1 I1 S1 [N V].
  change (world_of w1) with w1 in *. pose proof (loose_view _ _ _ V HL) as HL1.
  pose proof N as (x0 & Hx0 & Hh1 & _ & _ & C1 & _). rewrite Hh in Hx0. injection Hx0 as <-. change (with_err 0 x) with x in Hh1.
  destruct (calm_rest _ _ C1) as (_ & _ & _ & _ & B1 & _).
  eapply goes_bind; [apply _|by apply (switch_goes sess_rep ip_rep h QIdle x w1)|]. cbv beta. intros w2 I2 S2 [SW _].
  change (world_of w2) with w2 in *. pose proof SW as [Q2 (x2 & Hh2 & Hc2 & Hx2) _].
  pose proof (loose_queues _ _ _ Q2 HL1) as HL2.
  assert (R1 : nw_bufs w2 = nw_bufs w).
  { rewrite <- B1. pose proof (qq_rest _ _ Q2) as Q3. destruct w1, w2. unfold set_items, set_links in Q3. nsimpl in Q3. nsimpl. by injection Q3. }
  assert (Hb2 : nw_bufs w2 !! p = Some b) by (by rewrite R1). rewrite Hb2. cbn [mbind option_bind].
  change (set_nw_bufs _ w2) with (respan p n b w2). destruct (respan_ok w2 p b n I2 HL2 Hb2 Hn) as (I3 & HL3 & S3).
  destruct (SetRespBuff_goes sess_rep ip_rep (respan p n b w2) h x2 p I3 Hh2 HL3) as (w4 & E4 & I4 & S4 & ->).
  eexists. split; [exact E4|]. split; [exact I4|]. split; [etransitivity; [exact S3|exact S4]|]. by apply (handed_intro w w1 w2 h x).
Qed.

(** ** Delivering and discarding an answer *)

(** Link [l] lost [n] bytes of its cache and its answer block. *)
Record popped l (x : CSockLink) (n : Z) w w1 : Prop := {
  po_world : exists c' st', w1 = put_link l (set_sl_rsp None (set_cache c' x)) (sl_proto x) st' w /\
    silent rcvd sent (rest_of l x w) (cache_view (sl_proto x) w) st';
  po_cached : cached l w1 = drop (Z.to_nat n) (cached l w);
}.

Lemma pop_ok w l x p c' st' n : inv w -> link l w = Some x -> sl_parents x <> None -> sl_rsp x = Some p ->
  cache_rep (rest_of l x w) c' st' (drop (Z.to_nat n) (cached l w)) -> silent rcvd sent (rest_of l x w) (cache_view (sl_proto x) w) st' ->
  (length (rc_list c') <= length (rc_list (sl_cache x)))%nat ->
  let w1 := put_link l (set_sl_rsp None (set_cache c' x)) (sl_proto x) st' w in
  inv w1 /\ loose p w1 /\ steady [] w w1 /\ popped l x n w w1.
Proof.
  intros I Hl Hp Hr HR Hk Hle w1. pose proof I as [W _]. destruct (cache_facts sess_rep ip_rep w l x W Hl) as (Ec & _ & Hs & Hb).
  set (w0 := put_link l (set_cache c' x) (sl_proto x) st' w). pose proof HR as [R1 R2 R3 R4 R5].
  assert (Hrest : rest_of l x w = option_blocks (sl_rsp x) ++ others_of l w ++ other_of (sl_proto x) w).
  { unfold rest_of, other_blocks, others_of. by rewrite <- !app_assoc. }
  assert (S : steady [] w w1) by (by apply put_link_steady with x).
  assert (W1 : net_ok None w1).
  { apply (link_change sess_rep ip_rep None w (sl_proto x) l x); try done.
    - apply (live_not_free sess_rep ip_rep); [done|by exists x].
    - by right.
    - rewrite Hrest, Hr in R2. cbn [option_blocks app] in R2. eapply (store_ok_perm _ _ (p :: _)) in R2; [|symmetry; apply Permutation_middle].
      unfold link_blocks. cbn. rewrite app_nil_r. exact (store_ok_tl _ _ _ R2).
    - destruct Hk as [Hk _]. eapply keeps_mono; [exact Hk|]. rewrite Hrest. intros q Hq. apply elem_of_app. by right.
    - assert (Hm : mem_bytes (cs_bufs st') (rc_list c') = drop (Z.to_nat n) (cached l w)) by exact R3.
      assert (Hbl : blen (drop (Z.to_nat n) (cached l w)) < max_cached) by (unfold blen, max_cached in *; rewrite length_drop; lia).
      split; cbn; rewrite ?Hm; try done.
      + rewrite R4. apply u32_small. unfold in_u32, max_cached, blen in *. lia.
      + unfold max_cached in *. lia.
      + rewrite R5. apply u32_small. unfold in_u32, max_cached in *. lia. }
  assert (I1 : inv w1) by (by apply (inv_steady _ _ w)).
  split; [done|]. split; [|split; [done|]].
  - assert (H0 : forall pr, store_ok (mem_state (v_bufs (view_of w0)) (pool_of pr (view_of w0)))
        (all_blocks (v_items (view_of w0)) (v_links (view_of w0)) ++ other_free pr (view_of w0))).
    { destruct (wf_blocks _ _ _ _ W) as [Bs _]. apply (blocks_step w (sl_proto x) st' (view_of w0) Bs).
      - change (all_blocks (v_items (view_of w0)) (v_links (view_of w0))) with (all_of w0). eapply store_ok_perm; [|exact R2].
        rewrite (all_of_link w0 l (set_cache c' x)) by (unfold w0, put_link, link; nsimpl; apply lookup_insert_eq).
        assert (V : v_items (view_of w0) = v_items (view_of w) /\ v_links (view_of w0) = <[l := link_v (set_cache c' x)]> (v_links (view_of w))).
        { unfold w0, put_link, put_view. destruct (sl_proto x =? NET_PROTO_TCP); cbn; by rewrite fmap_insert. }
        destruct V as [-> ->]. rewrite fmap_insert, delete_insert_eq, Hrest. unfold link_blocks at 1. cbn [lv_cache lv_rsp link_v set_cache sl_cache sl_rsp].
        unfold others_of. by rewrite <- !app_assoc.
      - intros q Hq. destruct Hk as [Hk _]. apply (Hk q). rewrite Hrest. apply elem_of_app. right. apply elem_of_app. by right.
      - unfold w0, put_link, put_view. by destruct (sl_proto x =? NET_PROTO_TCP).
      - unfold w0, put_link. done.
      - unfold w0, put_link. done. }
    intros pr. specialize (H0 pr). eapply store_ok_perm; [|eapply store_ok_mem; [..|exact H0]].
    + rewrite app_comm_cons. change (all_blocks (v_items (view_of w0)) (v_links (view_of w0))) with (all_of w0).
      assert (E1 : other_free pr (view_of w0) = other_of pr w1).
      { unfold other_of, other_free, w0, w1, put_link, put_view. by destruct (sl_proto x =? NET_PROTO_TCP). }
      rewrite E1. apply Permutation_app; [|done].
      rewrite (all_of_link w0 l (set_cache c' x)) by (unfold w0, put_link, link; nsimpl; apply lookup_insert_eq).
      rewrite (all_of_link w1 l (set_sl_rsp None (set_cache c' x))) by (unfold w1, put_link, link; nsimpl; apply lookup_insert_eq).
      assert (E2 : v_items (view_of w0) = v_items (view_of w1) /\ delete l (v_links (view_of w0)) = delete l (v_links (view_of w1))).
      { unfold w0, w1, put_link, put_view. destruct (sl_proto x =? NET_PROTO_TCP); cbn; by rewrite !fmap_insert, !delete_insert_eq. }
      destruct E2 as [E2 E3]. rewrite E2, <- !fmap_delete, E3. unfold link_blocks at 1 3. cbn. rewrite Hr. cbn.
      rewrite app_nil_r, <- app_assoc. symmetry. apply Permutation_middle.
    + unfold w0, w1, put_link, put_view. by destruct (sl_proto x =? NET_PROTO_TCP).
    + unfold pool_of, w0, w1, put_link, put_view. by destruct (sl_proto x =? NET_PROTO_TCP).
  - split; [by exists c', st'|]. unfold w1. rewrite cached_put_link. exact R3.
Qed.

Lemma put_link_rsp l x v c' proto st w : set_rsp_at l v (put_link l (set_sl_rsp None (set_cache c' x)) proto st w) =
  put_link l (set_sl_rsp v (set_cache c' x)) proto st w.
Proof.
  unfold set_rsp_at, put_link, set_links. nsimpl. f_equal. apply map_eq. intros k. destruct (decide (k = l)) as [->|Hne].
  - by rewrite lookup_alter_eq, !lookup_insert_eq.
  - by rewrite lookup_alter_ne, !lookup_insert_ne.
Qed.
Lemma set_rsp_id p x : sl_rsp x = Some p -> set_sl_rsp (Some p) x = x.
Proof. intros H. destruct x. cbn in H. by subst. Qed.

Lemma restore_rsp w l y p : link l w = Some y -> sl_rsp y = None -> upd_link l (set_sl_rsp None) (set_rsp_at l (Some p) w) = Some w.
Proof.
  intros Hy Hr. assert (Hl : link l (set_rsp_at l (Some p) w) = Some (set_sl_rsp (Some p) y)).
  { rewrite link_rsp_at, Hy. cbn. by rewrite decide_True. }
  rewrite (upd_link_eq l _ _ _ Hl). f_equal. unfold set_rsp_at, set_links, link in *. nsimpl. destruct w; cbn in *. f_equal.
  apply map_eq. intros k. destruct (decide (k = l)) as [->|Hne].
  - rewrite lookup_insert_eq, Hy. f_equal. destruct y. cbn in Hr. by subst.
  - by rewrite lookup_insert_ne, lookup_alter_ne.
Qed.

Lemma deliver_tcp_goes w l x h i p b n : inv w -> link l w = Some x -> sl_parents x <> None -> sl_rsp x = Some p -> item h w = Some i ->
  nw_bufs w !! p = Some b -> 0 <= n <= sk_data_len b ->
  goes (steady []) w (deliver_tcp l h p n w) (fun w' => exists w1, popped l x n w w1 /\ inv w1 /\ loose p w1 /\
    nw_bufs w1 !! p = Some b /\ steady [] w w1 /\ steady [] w1 w' /\ handed h p n w1 w').
Proof.
  intros I Hl Hp Hr Hh Hb Hn. pose proof I as [W _].
  assert (Hok : buf_ok b).
  { destruct (rsp_facts sess_rep ip_rep w l x p W Hl Hr) as (_ & b0 & Hb0 & Hok & _). congruence. }
  assert (Hn32 : 0 <= n < 2 ^ 32) by (pose proof (sk_len_small b Hok); lia).
  destruct (skip_data_eq sess_rep ip_rep rcvd sent w l x n W Hl Hp Hn32) as (c' & st' & Es & HR & Hk & Hle & _).
  destruct (pop_ok w l x p c' st' n I Hl Hp Hr HR Hk Hle) as (I1 & HL1 & S1 & P1). set (w1 := put_link l (set_sl_rsp None (set_cache c' x)) (sl_proto x) st' w) in *.
  assert (Ew : skip_data l n w = Some (set_rsp_at l (Some p) w1)).
  { rewrite Es. unfold w1. rewrite put_link_rsp. do 2 f_equal. symmetry. apply set_rsp_id. by destruct x. }
  destruct (put_link_fields l (set_sl_rsp None (set_cache c' x)) (sl_proto x) st' w) as (F1 & _ & _ & _ & F5 & _ & _ & _ & _ & _ & F11 & _).
  fold w1 in F1, F5, F11.
  assert (Hh1 : item h w1 = Some i) by (unfold item; by rewrite F1).
  assert (Hb1 : nw_bufs w1 !! p = Some b).
  { rewrite F5. destruct Hk as [Hk _]. rewrite (Hk p); [done|]. unfold rest_of, other_blocks. cbn. rewrite Hr. by left. }
  destruct (hand_over_goes w1 h i p b n I1 Hh1 HL1 Hb1 Hn) as (w2 & E2 & I2 & S2 & Q2). change (world_of w2) with w2 in *.
  assert (Ed : deliver_tcp l h p n w = Some w2).
  { transitivity (w ← skip_data l n w; w ← hand_over h p n w; upd_link l (set_sl_rsp None) w).
    { unfold deliver_tcp, hand_over. destruct (skip_data l n w) as [wa|]; [|done]. cbn [mbind option_bind].
      destruct (NotifyThread h 0 wa) as [wb|]; [|done]. cbn [mbind option_bind]. destruct (SwitchToIdle h wb) as [wc|]; [|done].
      cbn [mbind option_bind]. by destruct (nw_bufs wc !! p). }
    rewrite Ew. cbn [mbind option_bind]. rewrite hand_over_commutes, E2. cbn [fmap option_fmap option_map mbind option_bind].
    destruct (fmap_eq_lookup strip_link (nw_links w2) (nw_links w1) l _ (eq_sym (ha_links _ _ _ _ _ Q2)) F11) as (y & Hy & Sy).
    apply (f_equal sl_rsp) in Sy. by apply (restore_rsp w2 l y p). }
  exists w2. split; [exact Ed|]. split; [done|]. split; [by etransitivity|]. exists w1. by split_and!.
Qed.

(** A loose block is deleted. *)
Lemma drop_loose_ok w p : inv w -> loose p w -> inv (without_block (Some p) w) /\ steady [] w (without_block (Some p) w).
Proof.
  intros I HL. assert (S : steady [] w (without_block (Some p) w)) by (by apply steady_same). split; [|done].
  apply (inv_steady _ _ w); [done| |done]. destruct I as [[Wq Wl Ws Wd [Bs Bc]] _]. split; try done. split.
  - intros pr. eapply store_ok_shrink with (D := [p]) (bufs := nw_bufs w); [exact (HL pr)|done|]. intros q Hq. left. cbn.
    apply lookup_delete_ne. intros <-. destruct (HL pr) as [Hn _ _ _ _]. cbn [cs_pool mem_state app] in Hn. by apply NoDup_cons_1_1 in Hn.
  - intros l y Hy. change (v_links (view_of w) !! l = Some y) in Hy. eapply cache_ok_keep; [|by apply (Bc l)]. intros q Hq. cbn.
    apply lookup_delete_ne. intros <-. pose proof (loose_nodup _ _ HL) as Hn. apply NoDup_cons_1_1 in Hn. apply Hn.
    unfold all_of, all_blocks. apply elem_of_app. left. apply lists_of_in. exists l, (link_blocks y). by rewrite lookup_fmap, Hy.
Qed.

Lemma discard_tcp_goes w l x p n b : inv w -> link l w = Some x -> sl_parents x <> None -> sl_rsp x = Some p ->
  nw_bufs w !! p = Some b -> 0 <= n <= sk_data_len b ->
  goes (steady []) w (discard_tcp l p n w) (fun w' => exists w1, popped l x n w w1 /\ inv w1 /\ loose p w1 /\
    steady [] w w1 /\ w' = without_block (Some p) w1).
Proof.
  intros I Hl Hp Hr Hb Hn. pose proof I as [W _].
  assert (Hok : buf_ok b).
  { destruct (rsp_facts sess_rep ip_rep w l x p W Hl Hr) as (_ & b0 & Hb0 & Hok & _). congruence. }
  assert (Hn32 : 0 <= n < 2 ^ 32) by (pose proof (sk_len_small b Hok); lia).
  destruct (skip_data_eq sess_rep ip_rep rcvd sent w l x n W Hl Hp Hn32) as (c' & st' & Es & HR & Hk & Hle & _).
  destruct (pop_ok w l x p c' st' n I Hl Hp Hr HR Hk Hle) as (I1 & HL1 & S1 & P1).
  set (w1 := put_link l (set_sl_rsp None (set_cache c' x)) (sl_proto x) st' w) in *.
  assert (Ew : skip_data l n w = Some (set_rsp_at l (Some p) w1)).
  { rewrite Es. unfold w1. rewrite put_link_rsp. do 2 f_equal. symmetry. apply set_rsp_id. by destruct x. }
  destruct (put_link_fields l (set_sl_rsp None (set_cache c' x)) (sl_proto x) st' w) as (_ & _ & _ & _ & F5 & _ & _ & _ & _ & _ & F11 & _).
  fold w1 in F5, F11. destruct (drop_loose_ok w1 p I1 HL1) as [I2 S2].
  unfold discard_tcp. rewrite Ew. cbn [mbind option_bind]. rewrite drop_block_eq.
  2: { intros q [= <-]. change (nw_bufs (set_rsp_at l (Some p) w1)) with (nw_bufs w1). rewrite F5. destruct Hk as [Hk _]. exists b.
       rewrite (Hk p); [done|]. unfold rest_of, other_blocks. cbn. rewrite Hr. by left. }
  cbn [mbind option_bind]. change (without_block (Some p) (set_rsp_at l (Some p) w1)) with (set_rsp_at l (Some p) (without_block (Some p) w1)).
  rewrite (restore_rsp (without_block (Some p) w1) l _ p F11 eq_refl). eexists. split; [reflexivity|]. split; [exact I2|]. split; [etransitivity; [exact S1|exact S2]|].
  exists w1. by split_and!.
Qed.

(** ** Delivering a datagram *)

(** The first block of a cache is taken out. *)
Definition unchained (x : CSockLink) (block : ptr) (q : list ptr) (n : Z) : CSockLink :=
  set_cache (mkCache q (rc_len (sl_cache x) - n) (rc_count (sl_cache x) - 1) (rc_pool (sl_cache x))) x.
Lemma unchain_ok w l x block q b : inv w -> link l w = Some x -> sl_parents x <> None -> sl_proto x = NET_PROTO_UDP ->
  rc_list (sl_cache x) = block :: q -> nw_bufs w !! block = Some b ->
  let w1 := set_links (<[l := unchained x block q (sk_data_len b)]> (nw_links w)) w in
  inv w1 /\ loose block w1 /\ steady [] w w1 /\
  cache_skip_first_buffer (Some (sl_cache x)) (cache_view (sl_proto x) w) = Some (Some block, sl_cache (unchained x block q (sk_data_len b))).
Proof.
  intros I Hl Hp Hu Hq Hb w1. pose proof I as [W _]. set (y := unchained x block q (sk_data_len b)).
  pose proof (bk_cache _ (wf_blocks _ _ _ _ W) l _ (view_link _ _ _ Hl)) as [C1 C2 C3 C4 C5 C6].
  cbn [lv_cache lv_rsp lv_parents lv_proto link_v v_bufs view_of] in *.
  assert (Hr : sl_rsp x = None) by (destruct (sl_rsp x) as [p|]; [destruct (C6 p eq_refl); done|done]).
  assert (Hok : buf_ok b).
  { destruct (block_live sess_rep ip_rep None w block W) as (b0 & Hb0 & Hok); [|congruence]. rewrite in_all_of. left. exists l, x.
    split; [done|]. unfold link_blocks. cbn. rewrite Hq. by left. }
  assert (Hm : mem_bytes (nw_bufs w) (block :: q) = buf_bytes b ++ mem_bytes (nw_bufs w) q).
  { unfold mem_bytes. rewrite content_cons. f_equal. by apply block_bytes_eq. }
  pose proof (buf_bytes_len b Hok) as Hbl. rewrite Hq, Hm in *. unfold blen in *. rewrite length_app in *. cbn [length] in *.
  assert (P1 : all_of w ≡ₚ block :: all_of w1).
  { rewrite (all_of_link w l x Hl). etransitivity; [|constructor; symmetry; exact (all_of_set_link w l y)].
    unfold link_blocks. cbn. rewrite Hq, Hr. done. }
  destruct (wf_blocks _ _ _ _ W) as [Bs Bc].
  assert (HL : loose block w1).
  { intros pr. eapply store_ok_perm; [|eapply store_ok_mem; [..|exact (Bs pr)]]; try done.
    change (all_blocks _ _) with (all_of w). by rewrite P1. }
  assert (S : steady [] w w1).
  { pose proof (put_link_steady l x y NET_PROTO_TCP (cache_view NET_PROTO_TCP w) w Hl eq_refl eq_refl) as S. unfold put_link in S.
    by rewrite put_view_id in S. }
  split; [|split; [done|split; [done|]]].
  - apply (inv_steady _ _ w); [done| |done]. unfold w1. rewrite <- (put_view_id NET_PROTO_TCP w) at 2.
    apply (link_change sess_rep ip_rep None w NET_PROTO_TCP l x); try done.
    + apply (live_not_free sess_rep ip_rep); [done|by exists x].
    + by right.
    + assert (P2 : all_of w1 ≡ₚ link_blocks (link_v y) ++ others_of l w) by exact (all_of_set_link w l y).
      eapply store_ok_mem; [..|eapply store_ok_perm; [|exact (store_ok_tl _ _ _ (HL NET_PROTO_TCP))]]; try done.
      change (other_of NET_PROTO_TCP w1) with (other_of NET_PROTO_TCP w). by rewrite P2, <- app_assoc.
    + split; cbn [lv_cache lv_rsp lv_parents lv_proto link_v y unchained set_cache sl_cache sl_rsp sl_parents sl_proto rc_list rc_len rc_count rc_pool
        cs_bufs cache_view]; rewrite ?Hr; try done; unfold blen; try lia. intros _. apply C1. by left.
  - unfold cache_skip_first_buffer. cbn [mbind option_bind]. rewrite Hq. cbn [cs_bufs cache_view]. rewrite Hb. cbn [mbind option_bind].
    rewrite (proj2 (Z.leb_le _ _)) by lia. rewrite (proj2 (Z.ltb_lt 0 _)) by lia. done.
Qed.

Lemma deliver_udp_goes w l x h i block q b : inv w -> link l w = Some x -> sl_parents x <> None -> sl_proto x = NET_PROTO_UDP ->
  item h w = Some i -> rc_list (sl_cache x) = block :: q -> nw_bufs w !! block = Some b ->
  goes (steady []) w (deliver_udp l h block w) (fun w' => exists y, link l w' = Some y /\ rc_list (sl_cache y) = q).
Proof.
  intros I Hl Hp Hu Hh Hq Hb. unfold deliver_udp.
  eapply goes_bind; [apply _|by apply (NotifyThread_goes sess_rep ip_rep h 0 i)|]. cbv beta. intros w1 I1 S1 [N V].
  change (world_of w1) with w1 in *. pose proof N as (x0 & Hx0 & Hh1 & _ & L1 & C1 & _). rewrite Hh in Hx0. injection Hx0 as <-.
  change (with_err 0 i) with i in Hh1. destruct (calm_rest _ _ C1) as (_ & _ & _ & _ & B1 & _).
  eapply goes_bind; [apply _|by apply (switch_goes sess_rep ip_rep h QIdle i w1)|]. cbv beta. intros w2 I2 S2 [SW _].
  change (world_of w2) with w2 in *. pose proof SW as [Q2 (i2 & Hh2 & _ & _) _].
  assert (Hl1 : link l w1 = Some x) by (unfold link; by rewrite L1).
  destruct (queues_only_link _ _ _ _ Q2 Hl1) as (x2 & Hl2 & Sx). rewrite Hl2. cbn [mbind option_bind].
  assert (Hx2 : sl_cache x2 = sl_cache x /\ sl_parents x2 = sl_parents x /\ sl_proto x2 = sl_proto x).
  { apply (f_equal (fun z => (sl_cache z, sl_parents z, sl_proto z))) in Sx. by injection Sx. }
  destruct Hx2 as (X1 & X2 & X3).
  assert (Hb2 : nw_bufs w2 !! block = Some b).
  { pose proof (qq_rest _ _ Q2) as Q3. rewrite <- Hb, <- B1. f_equal. destruct w1, w2. unfold set_items, set_links in Q3. nsimpl in Q3. nsimpl. by injection Q3. }
  destruct (unchain_ok w2 l x2 block q b I2 Hl2) as (I3 & HL3 & S3 & E3); try congruence. rewrite E3. cbn [mbind option_bind].
  rewrite (upd_link_eq l _ w2 x2 Hl2). cbn [mbind option_bind].
  change (set_cache _ x2) with (unchained x2 block q (sk_data_len b)). set (w3 := set_links _ w2) in *.
  destruct (SetRespBuff_goes sess_rep ip_rep w3 h i2 block I3 Hh2 HL3) as (w4 & E4 & I4 & S4 & ->).
  eexists. split; [exact E4|]. split; [exact I4|]. split; [etransitivity; [exact S3|exact S4]|].
  exists (unchained x2 block q (sk_data_len b)). split; [|done]. unfold with_answer, link.
  transitivity (nw_links w3 !! l); [by destruct (nh_rsp i2)|]. unfold w3. nsimpl. apply lookup_insert_eq.
Qed.
End net.
