(* ===== verification/NetFill.v ===== *)
(** * The network layer: the answer block of a link

    [ExtendRecvRsp] copies the beginning of the cache into the answer block, as far as
    it fits; [extend_rsp] (the part of [DispathTcp] after a callback that wants more)
    replaces the block by a larger one. *)

From Stdlib Require Import ZArith Lia.
From stdpp Require Import base gmap list option fin_maps.
From S2P Require Import Prelude Bytes HashList KeyTable RwCache NetData NetOps NetMain NetInv NetQueues NetBlocks.
From S2P Require Import NetLinks NetDest NetStay NetSteps NetRecv NetGive.

Section net.
Context {EV TS TI : Type} `{!NetEnv EV, !KeyTable sess_key TS, !KeyTable dest_key TI}.
Context (sess_rep : (ptr -> sess_key) -> TS -> gmap sess_key ptr -> Prop) `{!KeyTableLaws sess_key TS sess_rep}.
Context (ip_rep : (ptr -> dest_key) -> TI -> gmap dest_key ptr -> Prop) `{!KeyTableLaws dest_key TI ip_rep}.
Context (rcvd sent : EV -> list Z) {HLaws : CacheEnvLaws rcvd sent}.

Abbreviation NetW := (NetW EV TS TI).
Abbreviation net_ok := (net_ok sess_rep ip_rep).
Abbreviation inv := (inv sess_rep ip_rep).
Abbreviation goes := (goes sess_rep ip_rep).
Implicit Types (w : NetW) (h l d t p : ptr) (X : list ptr).

(** The answer block of link [l] changed to block [p], and nothing else. *)
Record refit l (x : CSockLink) (p : ptr) (b : TSkBuffer) w w' : Prop := {
  rf_link : link l w' = Some (set_sl_rsp (Some p) x);
  rf_block : nw_bufs w' !! p = Some b /\ buf_ok b /\ sk_data b = 0;
  rf_cached : cached l w' = cached l w;
  rf_items : nw_items w' = nw_items w;
  rf_same : nw_sess w' = nw_sess w /\ nw_dests w' = nw_dests w /\ nw_io w' = nw_io w /\ nw_run w' = nw_run w;
  rf_answers h i q : item h w = Some i -> nh_rsp i = Some q -> nw_bufs w' !! q = nw_bufs w !! q;
  rf_quiet : quiet rcvd sent (nw_env w) (nw_env w');
}.

(** A new answer block [p]; [old] is the one before. *)
Lemma refit_ok w l x p b st : inv w -> link l w = Some x -> sl_parents x <> None -> sl_proto x <> NET_PROTO_UDP ->
  store_ok st (p :: rc_list (sl_cache x) ++ others_of l w ++ other_of NET_PROTO_TCP w) ->
  silent rcvd sent (rc_list (sl_cache x) ++ others_of l w ++ other_of NET_PROTO_TCP w) (cache_view NET_PROTO_TCP w) st ->
  cs_bufs st !! p = Some b -> sk_data b = 0 -> buf_bytes b `prefix_of` cached l w ->
  let w' := put_link l (set_sl_rsp (Some p) x) NET_PROTO_TCP st w in inv w' /\ steady [] w w' /\ refit l x p b w w'.
Proof.
  intros I Hl Hp Hu HS [Hk Hq] Hb H0 Hpre w'. pose proof I as [W _]. destruct (cache_facts sess_rep ip_rep w l x W Hl) as (Ec & _ & _ & _).
  assert (S : steady [] w w') by (by apply put_link_steady with x).
  assert (Hok : buf_ok b) by (destruct (store_ok_block _ _ p HS) as (b0 & Hb0 & ?); [by left|congruence]).
  assert (Hm : mem_bytes (cs_bufs st) (rc_list (sl_cache x)) = mem_bytes (nw_bufs w) (rc_list (sl_cache x))).
  { apply mem_bytes_keep. intros q Hin. apply (Hk q). apply elem_of_app. by left. }
  assert (I' : inv w').
  { apply (inv_steady _ _ w); [done| |done]. apply (link_change sess_rep ip_rep None w NET_PROTO_TCP l x); try done.
    - apply (live_not_free sess_rep ip_rep); [done|by exists x].
    - by right.
    - eapply store_ok_perm; [|exact HS]. unfold link_blocks. cbn. rewrite <- app_assoc. apply Permutation_middle.
    - eapply keeps_mono; [exact Hk|]. intros q Hin. apply elem_of_app. by right.
    - destruct (bk_cache _ (wf_blocks _ _ _ _ W) l _ (view_link _ _ _ Hl)) as [C1 C2 C3 C4 C5 C6].
      cbn [lv_cache lv_rsp lv_parents lv_proto link_v v_bufs view_of] in *.
      split; cbn [lv_cache lv_rsp lv_parents lv_proto link_v set_sl_rsp sl_cache sl_rsp sl_parents sl_proto]; rewrite ?Hm; try done.
      intros q [= <-]. split; [done|]. exists b. split; [done|]. split; [done|]. by rewrite <- Ec. }
  split; [done|]. split; [done|].
  destruct (put_link_fields l (set_sl_rsp (Some p) x) NET_PROTO_TCP st w) as (F1 & F2 & F3 & _ & F5 & _ & _ & _ & F9 & F10 & F11 & _).
  split; try done.
  - unfold w'. rewrite cached_put_link, Ec. exact Hm.
  - intros h i q Hh Hr. unfold w'. rewrite F5. apply (Hk q). apply elem_of_app. right. apply elem_of_app. left. unfold others_of.
    apply elem_of_app. right. apply lists_of_in. exists h, (item_blocks (item_v i)). rewrite lookup_fmap, (view_item _ _ _ Hh). split; [done|].
    unfold item_blocks. cbn. rewrite Hr. by left.
Qed.

(** The blocks of the world, with the answer block of the link first. *)
Lemma link_store w l x : net_ok None w -> link l w = Some x ->
  store_ok (cache_view NET_PROTO_TCP w) (option_blocks (sl_rsp x) ++ rc_list (sl_cache x) ++ others_of l w ++ other_of NET_PROTO_TCP w).
Proof.
  intros W Hl. destruct (wf_blocks _ _ _ _ W) as [Bs _]. eapply store_ok_perm; [|eapply store_ok_mem; [..|exact (Bs NET_PROTO_TCP)]]; try done.
  change (all_blocks _ _) with (all_of w). rewrite (all_of_link w l x Hl). unfold link_blocks. cbn. unfold others_of.
  rewrite !app_assoc. do 3 (apply Permutation_app; [|done]). apply Permutation_app_comm.
Qed.

(** ** [ExtendRecvRsp] *)

(** The first answer block could not be allocated: nothing but the environment changed. *)
Definition no_memory (x : CSockLink) w w' : Prop := sl_rsp x = None /\ (exists e, w' = set_nw_env e w) /\ ~ malloc_total (E := EV).

Lemma rsp_alloc_goes w l x : inv w -> link l w = Some x -> sl_parents x <> None -> sl_proto x <> NET_PROTO_UDP ->
  goes (steady []) w (rsp_alloc l w) (fun w' => (exists p b, refit l x p b w w' /\ match sl_rsp x with
    | Some p0 => p0 = p /\ w' = w
    | None => buf_bytes b = [] /\ sk_size b = 512
    end) \/ no_memory x w w').
Proof.
  intros I Hl Hp Hu. pose proof I as [W _]. unfold rsp_alloc. rewrite Hl. cbn [mbind option_bind]. pose proof (link_store w l x W Hl) as HS.
  destruct (sl_rsp x) as [p0|] eqn:Er.
  - destruct (rsp_facts sess_rep ip_rep w l x p0 W Hl Er) as (_ & b & Hb & Hok & H0 & _).
    apply goes_ret; [apply _|done|done|]. left. exists p0, b. split; [|done]. split; try done. by rewrite (set_rsp_id p0 x Er).
  - cbn [option_blocks app] in HS.
    destruct (new_sk_buffer_ok rcvd sent _ _ 512 HS ltac:(lia)) as (r & st & En & Hs & Ht & Hr). rewrite En. cbn [mbind option_bind].
    destruct r as [p|].
    2: { destruct (new_sk_buffer_none _ _ _ En) as [e ->].
      assert (Hl' : link l (put_view NET_PROTO_TCP (set_env e (cache_view NET_PROTO_TCP w)) w) = Some x) by exact Hl.
      rewrite (upd_link_eq l _ _ x Hl'). set (w' := set_links _ _).
      assert (Ew : w' = set_nw_env e w).
      { unfold w', put_view, set_links, set_nw_env. nsimpl. unfold link in Hl. rewrite insert_id; [by destruct w|].
        cbn. rewrite Hl. f_equal. destruct x; cbn in Er |- *. by rewrite Er. }
      rewrite Ew. eexists. split; [reflexivity|]. split; [by apply inv_env|]. split; [apply (env_steady [])|]. right.
      split; [done|]. split; [by exists e|]. intros Hm. by destruct (Ht Hm). }
    destruct Hr as (Hnew & HS' & (b & Hb & Hok & H0 & Hlen)).
    destruct (new_sk_buffer_size _ _ _ _ En) as (b0 & Hb0 & Hsz). rewrite Hb in Hb0. injection Hb0 as <-.
    assert (Hnil : buf_bytes b = []) by (unfold buf_bytes; by rewrite Hlen).
    destruct (refit_ok w l x p b st I Hl Hp Hu HS' Hs Hb H0) as (I' & S' & R); [rewrite Hnil; apply prefix_nil|].
    assert (Hl' : link l (put_view NET_PROTO_TCP st w) = Some x) by exact Hl. rewrite (upd_link_eq l _ _ x Hl').
    eexists. split; [reflexivity|]. split; [exact I'|]. split; [exact S'|]. left. by exists p, b.
Qed.

Lemma ExtendRecvRsp_goes w l x : inv w -> link l w = Some x -> sl_parents x <> None -> sl_proto x <> NET_PROTO_UDP ->
  goes (steady []) w (ExtendRecvRsp l w) (fun w' => (exists p b, refit l x p b w w' /\
    buf_bytes b = take (Z.to_nat (sk_size b)) (cached l w) /\
    match sl_rsp x with Some p0 => exists b0, nw_bufs w !! p0 = Some b0 /\ sk_size b = sk_size b0 | None => sk_size b = 512 end) \/
    no_memory x w w').
Proof.
  intros I Hl Hp Hu. pose proof I as [W _]. unfold ExtendRecvRsp.
  eapply goes_bind; [apply _|by apply (rsp_alloc_goes w l x)|]. cbv beta. intros w1 I1 S1 [(p & b & R & Hr)|HN]; change (world_of w1) with w1 in *.
  2: { pose proof HN as (Er & (e & ->) & _). change (link l (set_nw_env e w)) with (link l w). rewrite Hl. cbn [mbind option_bind]. rewrite Er.
       apply goes_ret; [apply _|done|done|by right]. }
  pose proof R as [R1 (R2 & R3 & R4) R5 R6 R7 R8 R9]. rewrite R1. cbn [mbind option_bind]. change (sl_rsp (set_sl_rsp (Some p) x)) with (Some p).
  cbv iota. rewrite R2. cbn [mbind option_bind]. change (sl_cache (set_sl_rsp (Some p) x)) with (sl_cache x).
  change (sl_proto (set_sl_rsp (Some p) x)) with (sl_proto x). pose proof I1 as [W1 _].
  set (x1 := set_sl_rsp (Some p) x) in *. destruct (cache_facts sess_rep ip_rep w1 l x1 W1 R1) as (Ec & El & Esm & _).
  change (sl_cache x1) with (sl_cache x) in *.
  destruct (rsp_facts sess_rep ip_rep w1 l x1 p W1 R1 eq_refl) as (_ & b0 & Hb0 & _ & _ & Hpre). rewrite R2 in Hb0. injection Hb0 as <-.
  pose proof (buf_bytes_len b R3) as Hbl. pose proof (sk_len_small b R3) as Hsm. pose proof (bo_len b R3) as Hl0. pose proof (bo_end b R3) as He.
  pose proof (bo_size b R3) as Hsz. rewrite R4 in He. set (bytes := cached l w1) in *. unfold max_cached in *.
  rewrite (u32_small (sk_size b - sk_data_len b)) by (unfold in_u32; lia).
  set (d := take (Z.to_nat (sk_size b - sk_data_len b)) (drop (Z.to_nat (sk_data_len b)) bytes)).
  assert (Hd : read_cache_begin (Some (sl_cache x)) (sk_data_len b) (sk_size b - sk_data_len b) (cache_view (sl_proto x) w1) = Some (blen d, d)).
  { unfold read_cache_begin. rewrite El. destruct (Z.leb_spec (blen bytes) (sk_data_len b)) as [Hle|Hgt].
    - unfold d. rewrite drop_ge by (unfold blen in *; lia). by rewrite take_nil.
    - assert (Hst : store_ok (cache_view (sl_proto x) w1) (rc_list (sl_cache x) ++ rest_of l x1 w1)).
      { apply (cr_store _ _ _ _ (link_cache_rep sess_rep ip_rep None w1 l x1 W1 R1 (live_pool sess_rep ip_rep w1 l x1 W1 R1 Hp))). }
      rewrite (read_begin_loop_ok _ _ _ _ _ _ Hst) by lia. cbn [mbind option_bind app].
      change (content (cache_view (sl_proto x) w1) (rc_list (sl_cache x))) with (mem_bytes (nw_bufs w1) (rc_list (sl_cache x))).
      rewrite <- Ec. fold d. do 2 f_equal. apply u32_small. unfold d, in_u32, blen. rewrite length_take. lia. }
  rewrite Hd. cbn [mbind option_bind].
  assert (Hdl : blen d <= sk_size b - sk_data_len b) by (unfold d, blen; rewrite length_take; lia).
  destruct (buf_extend b d R3) as (m & Em & Hok' & Hbb); [lia|]. rewrite R4 in *. rewrite Z.add_0_l in *. rewrite Em. cbn [mbind option_bind].
  rewrite (u32_small (sk_data_len b + blen d)) by (unfold in_u32, blen in *; lia). set (b' := set_span _ _ _) in *.
  assert (Hfull : buf_bytes b' = take (Z.to_nat (sk_size b)) bytes).
  { rewrite Hbb. unfold d. destruct Hpre as [rest Hrest]. rewrite Hrest. rewrite drop_app_length' by (unfold blen in *; lia).
    rewrite take_app. rewrite (take_ge (buf_bytes b)) by (unfold blen in *; lia). f_equal. f_equal. unfold blen in *. lia. }
  set (w2 := set_nw_bufs _ w1).
  pose proof (link_store w1 l x1 W1 R1) as HS. change (sl_rsp x1) with (Some p) in HS. cbn [option_blocks app] in HS.
  pose proof (store_ok_not_in _ _ _ HS) as Hnin.
  set (st := put_buf p b' (cache_view NET_PROTO_TCP w1)).
  destruct (refit_ok w1 l x1 p b' st I1 R1 Hp Hu) as (I2 & S2 & Rf).
  - apply store_ok_put; [exact HS|by left|exact Hok'].
  - apply silent_put. exact Hnin.
  - unfold st. cbn. apply lookup_insert_eq.
  - done.
  - rewrite Hfull. apply prefix_take.
  - assert (E2 : put_link l (set_sl_rsp (Some p) x1) NET_PROTO_TCP st w1 = w2).
    { unfold put_link, w2, st, put_view, set_links, set_nw_bufs. nsimpl. unfold link in R1. rewrite insert_id by exact R1. by destruct w1. }
    rewrite E2 in *. exists w2. split; [done|]. split; [exact I2|]. split; [exact S2|]. left. exists p, b'.
    destruct Rf as [T1 (T2 & T3 & T4) T5 T6 (T7 & T8 & T9 & T10) T11 T12]. destruct R7 as (R7 & R7b & R7c & R7d).
    split; [|split; [by rewrite Hfull, R5|destruct (sl_rsp x) as [p0|]; [destruct Hr as [-> ->]; by exists b|apply Hr]]].
    split; [done|done|exact (eq_trans T5 R5)|congruence|split_and!; congruence|..].
    + intros h i q Hh Hri. rewrite (T11 h i q); [by apply (R8 h i q)| |done]. unfold item. by rewrite R6.
    + destruct R9, T12. split; congruence.
Qed.

(** ** A larger block *)

(** The length asked for, and when [DispathTcp] waits for more bytes instead. *)
Definition wanted (b : TSkBuffer) (need : Z) : Z := if (need =? 0) && (sk_data_len b =? sk_size b) then u32 (sk_size b * 2) else need.
Definition no_room (b : TSkBuffer) (need : Z) : bool := (wanted b need <=? sk_size b) || (100 * 1024 * 1024 <? wanted b need).

Lemma extend_rsp_goes w l x p b need : inv w -> link l w = Some x -> sl_parents x <> None -> sl_proto x <> NET_PROTO_UDP ->
  sl_rsp x = Some p -> nw_bufs w !! p = Some b ->
  goes (steady []) w (extend_rsp l p need w) (fun r => if no_room b need then r.1 = Some 0 /\ r.2 = w
    else exists q b', refit l x q b' w r.2 /\ buf_bytes b' = buf_bytes b /\ (sk_size b' = wanted b need \/ ~ malloc_total (E := EV)) /\
      r.1 = if blen (cached l w) <=? sk_data_len b then Some 0 else None).
Proof.
  intros I Hl Hp Hu Hr Hb. pose proof I as [W _]. unfold extend_rsp. rewrite Hb. cbn [mbind option_bind]. cbv zeta.
  fold (wanted b need). fold (no_room b need). destruct (no_room b need) eqn:En; [by apply goes_ret; [apply _|..]|].
  unfold no_room in En. apply orb_false_iff in En as [E1%Z.leb_gt E2%Z.ltb_ge].
  destruct (rsp_facts sess_rep ip_rep w l x p W Hl Hr) as (_ & b0 & Hb0 & Hok & H0 & Hpre). rewrite Hb in Hb0. injection Hb0 as <-.
  pose proof (link_store w l x W Hl) as HS. rewrite Hr in HS. cbn [option_blocks app] in HS.
  destruct (reserve_ok rcvd sent (cache_view NET_PROTO_TCP w) p _ b (wanted b need) HS Hb H0 ltac:(lia))
    as (q & st & b' & -> & Hs & HS' & Hb' & H0' & Hbb & Hsz).
  cbn [mbind option_bind]. rewrite <- Hbb in Hpre.
  destruct (refit_ok w l x q b' st I Hl Hp Hu HS' Hs Hb' H0' Hpre) as (I' & S' & R).
  assert (Hl' : link l (put_view NET_PROTO_TCP st w) = Some x) by exact Hl. rewrite (upd_link_eq l _ _ x Hl'). cbn [mbind option_bind].
  set (w' := put_link l (set_sl_rsp (Some q) x) NET_PROTO_TCP st w) in *.
  change (set_links _ (put_view NET_PROTO_TCP st w)) with w'.
  rewrite (proj1 (rf_block _ _ _ _ _ _ R)), (rf_link _ _ _ _ _ _ R). cbn [mbind option_bind]. change (sl_cache (set_sl_rsp (Some q) x)) with (sl_cache x).
  eexists. split; [reflexivity|]. split; [exact I'|]. split; [exact S'|]. exists q, b'. cbn [fst snd].
  split; [done|]. split; [done|]. split; [by destruct Hsz as [|[_ ?]]; [left|right]|]. destruct (cache_facts sess_rep ip_rep w l x W Hl) as (_ & -> & _).
  assert (El : sk_data_len b' = sk_data_len b); [|by rewrite El].
  rewrite <- (buf_bytes_len b), <- (buf_bytes_len b'), Hbb by (done || apply (proj1 (proj2 (rf_block _ _ _ _ _ _ R)))). done.
Qed.
End net.
