(* ===== verification/NetDispatch.v ===== *)
(** * The network layer: dispatching what a link received

    [DispathTcp] cuts the received bytes into answers with the callback of the
    handlers and gives each to the handler registered for its session number;
    [rounds] says which answers, [dealt] who got them.  [DispathUdp] does the same with
    datagrams. *)

From Stdlib Require Import ZArith Lia.
From stdpp Require Import base gmap list option fin_maps.
From S2P Require Import Prelude Bytes HashList KeyTable RwCache NetData NetOps NetMain NetInv NetQueues NetBlocks.
From S2P Require Import NetLinks NetDest NetStay NetSteps NetRecv NetGive NetFill.

(** ** What the callback makes of the bytes *)

(** A callback does not claim more bytes than it saw; the length it asks for is a
    [uint32_t]. *)
Class CallbackOk (check : ptr -> list Z -> Z -> Z * Z * Z) : Prop :=
  callback_ok cb data sid ret sid' need : check cb data sid = (ret, sid', need) -> ret <= blen data /\ 0 <= need < 2 ^ 32.

(** [DispathTcp] waits although the callback wants more. *)
Definition stops (size len need : Z) : bool :=
  let want := if (need =? 0) && (len =? size) then u32 (size * 2) else need in (want <=? size) || (100 * 1024 * 1024 <? want).

Section rounds.
Context (check : ptr -> list Z -> Z -> Z * Z * Z) (cb : ptr).

(** The rounds over [bytes]: each looks at what fits into a block of some size. *)
Inductive rounds : Z -> list Z -> list (Z * list Z) -> list Z -> Z -> Prop :=
| rd_empty sid : rounds sid [] [] [] 0
| rd_wait sid bytes size sid' need : check cb (take (Z.to_nat size) bytes) sid = (0, sid', need) -> 0 < size < 2 ^ 31 ->
    stops size (Z.min size (blen bytes)) need = true \/ blen bytes <= size -> rounds sid bytes [] bytes 0
| rd_more sid bytes size sid' need frames rest ret : check cb (take (Z.to_nat size) bytes) sid = (0, sid', need) ->
    rounds sid' bytes frames rest ret -> rounds sid bytes frames rest ret
| rd_fail sid bytes size ret sid' need : check cb (take (Z.to_nat size) bytes) sid = (ret, sid', need) -> ret < 0 -> rounds sid bytes [] bytes (-1)
| rd_frame sid bytes size n sid' need frames rest ret : check cb (take (Z.to_nat size) bytes) sid = (n, sid', need) -> 0 < n -> 0 < size ->
    rounds sid' (drop (Z.to_nat n) bytes) frames rest ret -> rounds sid bytes ((sid', take (Z.to_nat n) bytes) :: frames) rest ret
| rd_no_memory sid bytes : rounds sid bytes [] bytes (-3).
End rounds.

Section world.
Context {EV TS TI : Type} `{!NetEnv EV, !KeyTable sess_key TS}.
Abbreviation NetW := (NetW EV TS TI).
Implicit Types (w : NetW) (h l d t p : ptr).

(** The answer a handler has. *)
Definition answer h w : option (list Z) := x ← item h w; p ← nh_rsp x; b ← nw_bufs w !! p; Some (buf_bytes b).

(** The last of the answers that is for handler [h]. *)
Definition for_handler l w h (sid : Z) : bool := bool_decide (FindSession l sid w = Some (Some h)).
Fixpoint last_for l w h (frames : list (Z * list Z)) (acc : option (list Z)) : option (list Z) :=
  match frames with
  | [] => acc
  | (sid, data) :: frames => last_for l w h frames (if for_handler l w h sid then Some data else acc)
  end.

(** Every handler has the last answer for it and may run; who got none did not notice. *)
Record dealt l (frames : list (Z * list Z)) w w' : Prop := {
  dl_item h x : item h w = Some x -> match last_for l w h frames None with
    | Some data => answer h w' = Some data /\ (forall t, nh_thread x = Some t -> t ∉ nw_io w') /\
        exists x', item h w' = Some x' /\ nh_err x' = nh_err x /\ nh_conn x' = nh_conn x /\ nh_thread x' = nh_thread x
    | None => item h w' = Some x /\ answer h w' = answer h w
    end;
  dl_find sid : FindSession l sid w' = FindSession l sid w;
  dl_woken : woken_only w w';
}.

Lemma last_for_acc l w h frames acc : last_for l w h frames acc = match last_for l w h frames None with Some d => Some d | None => acc end.
Proof.
  revert acc. induction frames as [|[sid d] frames IH]; intros acc; [done|]. cbn [last_for]. rewrite IH. symmetry. rewrite IH.
  destruct (last_for l w h frames None); [done|]. by destruct (for_handler l w h sid).
Qed.
Lemma last_for_same l w w' h frames : (forall sid, FindSession l sid w' = FindSession l sid w) -> last_for l w' h frames None = last_for l w h frames None.
Proof.
  intros H. generalize (@None (list Z)) as acc. induction frames as [|[sid d] frames IH]; intros acc; [done|]. cbn [last_for]. rewrite IH.
  unfold for_handler. by rewrite H.
Qed.
Lemma last_for_app l w h f1 f2 : last_for l w h (f1 ++ f2) None = match last_for l w h f2 None with Some d => Some d | None => last_for l w h f1 None end.
Proof.
  generalize (@None (list Z)) at 1 3 as acc. induction f1 as [|[sid d] f1 IH]; intros acc; [by rewrite last_for_acc|]. cbn [app last_for]. by rewrite IH.
Qed.

Lemma dealt_trans l f1 f2 w1 w2 w3 : dealt l f1 w1 w2 -> dealt l f2 w2 w3 -> dealt l (f1 ++ f2) w1 w3.
Proof.
  intros [A1 A2 A3] [B1 B2 B3]. split.
  - intros h x Hx. rewrite last_for_app. rewrite <- (last_for_same l w1 w2 h f2 A2). specialize (A1 h x Hx).
    destruct (last_for l w1 h f1 None) as [d1|] eqn:E1.
    + destruct A1 as (Aa & At & x2 & Hx2 & He & Hc & Ht). specialize (B1 h x2 Hx2).
      destruct (last_for l w2 h f2 None) as [d2|].
      * destruct B1 as (Ba & Bt & x3 & Hx3 & He3 & Hc3 & Ht3). split; [done|]. split; [intros t E; apply Bt; congruence|].
        exists x3. split_and!; congruence.
      * destruct B1 as [Hx3 Ha3]. split; [congruence|]. split; [|by exists x2]. intros t E Hio. apply (At t E). by apply (proj1 B3).
    + destruct A1 as [Hx2 Ha2]. specialize (B1 h x Hx2). destruct (last_for l w2 h f2 None); [done|].
      destruct B1 as [? ?]. split; congruence.
  - intros sid. by rewrite B2.
  - by etransitivity.
Qed.
Lemma dealt_same l w w' : nw_items w' = nw_items w -> (forall h x q, item h w = Some x -> nh_rsp x = Some q -> nw_bufs w' !! q = nw_bufs w !! q) ->
  (forall sid, FindSession l sid w' = FindSession l sid w) -> nw_io w' = nw_io w -> nw_run w' = nw_run w -> dealt l [] w w'.
Proof.
  intros HI HB HF Hio Hrun. split; [|done|].
  - intros h x Hx. cbn [last_for]. assert (Hx' : item h w' = Some x) by (unfold item; by rewrite HI). split; [done|].
    unfold answer. rewrite Hx, Hx'. cbn [mbind option_bind]. destruct (nh_rsp x) as [q|] eqn:Er; [|done]. cbn [mbind option_bind].
    by rewrite (HB h x q).
  - split; [by rewrite Hio|]. exists []. rewrite app_nil_r, Hio. split; [done|]. split; [by intros t ?%elem_of_nil|tauto].
Qed.
End world.

Section net.
Context {EV TS TI : Type} `{!NetEnv EV, !KeyTable sess_key TS, !KeyTable dest_key TI}.
Context (sess_rep : (ptr -> sess_key) -> TS -> gmap sess_key ptr -> Prop) `{!KeyTableLaws sess_key TS sess_rep}.
Context (ip_rep : (ptr -> dest_key) -> TI -> gmap dest_key ptr -> Prop) `{!KeyTableLaws dest_key TI ip_rep}.
Context (rcvd sent : EV -> list Z) {HLaws : CacheEnvLaws rcvd sent}.
Context (check_session : ptr -> list Z -> Z -> Z * Z * Z) `{!CallbackOk check_session}.

Abbreviation NetW := (NetW EV TS TI).
Abbreviation net_ok := (net_ok sess_rep ip_rep).
Abbreviation inv := (inv sess_rep ip_rep).
Abbreviation goes := (goes sess_rep ip_rep).
Abbreviation goes_unless := (goes_unless sess_rep ip_rep).
Implicit Types (w : NetW) (h l d t p : ptr) (X : list ptr).

(** ** Finding the handler of an answer *)

Lemma item_key_view w p : item_key w p = key_of_item (v_items (view_of w)) p.
Proof. unfold item_key, key_of_item. cbn. rewrite lookup_fmap. by destruct (nw_items w !! p). Qed.
Lemma sess_find w M k : sess_ok sess_rep (v_items (view_of w)) (nw_sess w) M -> FindNetItem k w = Some (M !! k).
Proof.
  intros HM. unfold FindNetItem. apply (kt_find_ok (item_key w) (nw_sess w) M k).
  eapply kt_agree; [exact (se_rep _ _ _ _ HM)|]. intros k' p _. apply item_key_view.
Qed.
Lemma FindNetItem_ok w k : net_ok None w -> exists o, FindNetItem k w = Some o /\ match o with
  | Some h => exists x, item h w = Some x /\ handler_key x = k /\ Z.testbit (nh_state x) 0 = true | None => True end.
Proof.
  intros W. destruct (wf_sess _ _ _ _ W) as [M HM]. exists (M !! k). split; [by apply sess_find|].
  destruct (M !! k) as [h|] eqn:E; [|done]. destruct (se_in _ _ _ _ HM k h E) as (v & Hv & Hr & Hk).
  destruct (view_item_inv _ _ _ Hv) as (x & Hx & ->). by exists x.
Qed.
Lemma FindSession_ok w l x sid : net_ok None w -> link l w = Some x -> exists o, FindSession l sid w = Some o /\ match o with
  | Some h => is_Some (item h w) | None => True end.
Proof.
  intros W Hl. unfold FindSession. rewrite Hl. cbn [mbind option_bind]. destruct (sl_parents x) as [d|] eqn:Ed; [|by exists None].
  destruct (net_link_owner sess_rep ip_rep w l x W Hl) as [_ Ho]. rewrite Ed in Ho. destruct Ho as (_ & y & -> & _). cbn [mbind option_bind].
  destruct (FindNetItem_ok w (sid, dl_ip y, dl_port y, dl_proto y, dl_conn_type y) W) as (o & -> & Hk). exists o. split; [done|].
  destruct o; [|done]. destruct Hk as (i & Hi & _). by exists i.
Qed.
Lemma FindSession_same w w' l sid : net_ok None w -> steady [] w w' -> live l w -> nw_sess w' = nw_sess w -> nw_dests w' = nw_dests w ->
  FindSession l sid w' = FindSession l sid w.
Proof.
  intros W S (x & Hl & Hp) Es Ed. destruct (st_link _ _ _ S l x Hl) as (x' & Hl' & E & _). unfold FindSession. rewrite Hl, Hl'.
  cbn [mbind option_bind]. rewrite E. destruct (sl_parents x) as [d|]; [|done]. unfold dest. rewrite Ed. destruct (nw_dests w !! d) as [y|]; [|done].
  cbn [mbind option_bind]. destruct (wf_sess _ _ _ _ W) as [M HM]. rewrite (sess_find w M) by done. unfold FindNetItem. rewrite Es.
  apply (kt_find_ok (item_key w') (nw_sess w) M). eapply kt_agree; [exact (se_rep _ _ _ _ HM)|]. intros k h Hk.
  destruct (se_in _ _ _ _ HM k h Hk) as (v & Hv & _). destruct (view_item_inv _ _ _ Hv) as (i & Hi & ->).
  destruct (stays_some _ _ _ _ _ (st_stays _ _ _ S) (not_elem_of_nil h) Hi) as (i' & Hi' & Hs).
  unfold item_key, key_of_item, item in *. rewrite Hi', Hv. cbn. by rewrite (is_key _ _ Hs).
Qed.

(** ** The steps of a round *)

Lemma popped_dealt w l x n w1 : inv w -> link l w = Some x -> sl_parents x <> None -> popped rcvd sent l x n w w1 -> steady [] w w1 -> dealt l [] w w1.
Proof.
  intros [W _] Hl Hp [(c' & st' & -> & Hk) _] S. destruct (put_link_fields l (set_sl_rsp None (set_cache c' x)) (sl_proto x) st' w)
    as (F1 & F2 & F3 & _ & F5 & _ & _ & _ & F9 & F10 & _ & _).
  apply dealt_same; try done.
  - intros h i q Hh Hr. rewrite F5. destruct Hk as [Hk _]. apply (Hk q). apply (rest_of_others l x w q Hl). right. right. left. by exists h, i.
  - intros sid. apply FindSession_same; try done. by exists x.
Qed.
Lemma refit_dealt w l x p b w' : inv w -> link l w = Some x -> sl_parents x <> None -> refit rcvd sent l x p b w w' -> steady [] w w' -> dealt l [] w w'.
Proof.
  intros [W _] Hl Hp R S. destruct (rf_same _ _ _ _ _ _ _ _ R) as (R1 & R2 & R3 & R4). apply dealt_same; try done.
  - apply (rf_items _ _ _ _ _ _ _ _ R).
  - apply (rf_answers _ _ _ _ _ _ _ _ R).
  - intros sid. apply FindSession_same; try done. by exists x.
Qed.
Lemma handed_dealt w l x h p n w' sid data : inv w -> link l w = Some x -> sl_parents x <> None -> loose p w -> handed h p n w w' -> steady [] w w' ->
  FindSession l sid w = Some (Some h) -> (forall b, nw_bufs w !! p = Some b -> buf_bytes (set_span (sk_data b) n b) = data) ->
  dealt l [(sid, data)] w w'.
Proof.
  intros I Hl Hp HL HA S Hf Hd. pose proof I as [W _].
  destruct HA as [(i & i' & b & Hi & Hi' & Hr & Hc & He & Hb & Hb' & Hq & Ht) Ho _ (Es & Ed & _) Hw].
  assert (Hthr : nh_thread i' = nh_thread i).
  { destruct (stays_some _ _ _ _ _ (st_stays _ _ _ S) (not_elem_of_nil h) Hi) as (i2 & Hi2 & Hs). rewrite Hi' in Hi2. injection Hi2 as <-.
    apply (is_thread _ _ Hs). }
  split; [|intros sid'; apply FindSession_same; try done; by exists x|done].
  intros h' y Hy. cbn [last_for]. unfold for_handler. rewrite Hf. case_bool_decide as E.
  - injection E as <-. rewrite Hi in Hy. injection Hy as <-. split; [|split; [done|by exists i']].
    unfold answer. rewrite Hi'. cbn [mbind option_bind]. rewrite Hr. cbn [mbind option_bind]. rewrite Hb'. cbn [mbind option_bind].
    f_equal. by apply Hd.
  - assert (Hne : h' <> h) by (by intros ->). assert (Hy' : item h' w' = Some y) by (by rewrite Ho). split; [done|]. unfold answer. rewrite Hy, Hy'. cbn [mbind option_bind].
    destruct (nh_rsp y) as [q|] eqn:Eq; [|done]. cbn [mbind option_bind]. rewrite Hq; [done|..].
    + intros ->. pose proof (loose_nodup _ _ HL) as Hn0. apply NoDup_cons_1_1 in Hn0. apply Hn0, in_all_of. right. by exists h', y.
    + intros Hri. pose proof (all_of_nodup sess_rep ip_rep None w W) as Hnd. rewrite (all_of_item w h i Hi), Hri in Hnd. cbn [option_blocks app] in Hnd.
      apply NoDup_cons_1_1 in Hnd. apply Hnd. apply elem_of_app. left. apply lists_of_in. exists h', (item_blocks (item_v y)).
      rewrite lookup_delete_ne by done. rewrite lookup_fmap, (view_item _ _ _ Hy). split; [done|]. unfold item_blocks. cbn. rewrite Eq. by left.
Qed.

(** A block without an owner goes. *)
Lemma dropped_dealt w l p : loose p w -> dealt l [] w (without_block (Some p) w).
Proof.
  intros HL. apply dealt_same; try done. intros h i q Hh Hr. cbn. apply lookup_delete_ne. intros <-.
  pose proof (loose_nodup _ _ HL) as Hn. apply NoDup_cons_1_1 in Hn. apply Hn, in_all_of. right. by exists h, i.
Qed.
Lemma dealt_nobody l w w' sid data : dealt l [] w w' -> FindSession l sid w = Some None -> dealt l [(sid, data)] w w'.
Proof.
  intros [A1 A2 A3] Hf. split; try done. intros h x Hx. specialize (A1 h x Hx). cbn [last_for] in *. unfold for_handler. rewrite Hf.
  by rewrite bool_decide_false.
Qed.
Lemma errno_goes l v w x : inv w -> link l w = Some x -> sl_parents x <> None ->
  goes (steady []) w (upd_link l (set_errno v) w) (fun w' => cached l w' = cached l w /\ dealt l [] w w' /\ link l w' = Some (set_errno v x)).
Proof.
  intros I Hl Hp. assert (HL : live l w) by (by exists x).
  eapply goes_weaken; [apply (upd_link_goes sess_rep ip_rep l (set_errno v) w I HL); intros y; by destruct y|].
  cbv beta. intros w' S (y & Hy & ->). rewrite Hl in Hy. injection Hy as <-. change (world_of ?z) with z in S.
  assert (Hl' : link l (set_links (<[l := set_errno v x]> (nw_links w)) w) = Some (set_errno v x)) by (unfold link; nsimpl; apply lookup_insert_eq).
  split; [unfold cached; by rewrite Hl', Hl|]. split; [|done]. apply dealt_same; try done. intros sid. apply FindSession_same; try done. apply I.
Qed.

(** The answer of [n] bytes at the front goes out. *)
Definition give_out l p n (s : option ptr) w : option NetW := match s with None => discard_tcp l p n w | Some h => deliver_tcp l h p n w end.
Lemma give_out_goes w l x p b n sid s : inv w -> link l w = Some x -> sl_parents x <> None -> sl_rsp x = Some p -> nw_bufs w !! p = Some b ->
  0 <= n <= sk_data_len b -> FindSession l sid w = Some s ->
  goes (steady []) w (give_out l p n s w) (fun w' => cached l w' = drop (Z.to_nat n) (cached l w) /\
    (exists x', link l w' = Some x' /\ sl_rsp x' = None) /\ dealt l [(sid, take (Z.to_nat n) (cached l w))] w w').
Proof.
  intros I Hl Hp Hr Hb Hn Hs. pose proof I as [W _].
  assert (Hnone : forall w1, popped rcvd sent l x n w w1 -> exists x1, link l w1 = Some x1 /\ sl_rsp x1 = None /\ sl_parents x1 <> None).
  { intros w1 [(c' & st' & -> & _) _]. exists (set_sl_rsp None (set_cache c' x)).
    split; [apply (put_link_fields l _ (sl_proto x) st' w)|done]. }
  unfold give_out. destruct s as [h|].
  - destruct (FindSession_ok w l x sid W Hl) as (o & Ho & Hi). rewrite Hs in Ho. injection Ho as <-. destruct Hi as [i Hi].
    eapply goes_weaken; [by eapply (deliver_tcp_goes sess_rep ip_rep rcvd sent w l x h i p b n)|].
    cbv beta. intros w' S (w1 & P & I1 & HL & Hb1 & S1 & S2 & HA). destruct (Hnone w1 P) as (x1 & Hl1 & Hr1 & Hp1).
    destruct (fmap_eq_lookup strip_link (nw_links w') (nw_links w1) l x1 (eq_sym (ha_links _ _ _ _ _ HA)) Hl1) as (x' & Hl' & Sx).
    assert (Ex : sl_rsp x' = sl_rsp x1 /\ sl_cache x' = sl_cache x1).
    { apply (f_equal (fun z => (sl_rsp z, sl_cache z))) in Sx. by injection Sx. }
    destruct Ex as [Ex1 Ex2].
    assert (Hc' : cached l w' = cached l w1).
    { unfold cached. rewrite Hl1. unfold link in *. rewrite Hl', Ex2. apply mem_bytes_keep. intros q Hq.
      destruct (ha_item _ _ _ _ _ HA) as (j & j' & bb & Hj & _ & _ & _ & _ & _ & _ & Hkeep & _). apply Hkeep.
      - intros ->. pose proof (loose_nodup _ _ HL) as Hn0. apply NoDup_cons_1_1 in Hn0. apply Hn0, in_all_of. left. exists l, x1.
        split; [done|]. unfold link_blocks. cbn. apply elem_of_app. by left.
      - intros Hrj. pose proof (all_of_nodup sess_rep ip_rep None w1 (proj1 I1)) as Hnd. rewrite (all_of_item w1 h j Hj), Hrj in Hnd.
        cbn [option_blocks app] in Hnd. apply NoDup_cons_1_1 in Hnd. apply Hnd. apply elem_of_app. right. apply lists_of_in.
        exists l, (link_blocks (link_v x1)). rewrite lookup_fmap, (view_link _ _ _ Hl1). split; [done|]. unfold link_blocks. cbn. apply elem_of_app. by left. }
    split; [rewrite Hc'; apply (po_cached _ _ _ _ _ _ _ P)|]. split; [exists x'; split; [done|congruence]|].
    pose proof (popped_dealt w l x n w1 I Hl Hp P S1) as D1. change (dealt l ([] ++ [(sid, take (Z.to_nat n) (cached l w))]) w w').
    eapply dealt_trans; [exact D1|]. apply (handed_dealt w1 l x1 h p n w'); try done; [by rewrite (dl_find _ _ _ _ D1)|].
    intros b1 Hb1'. rewrite Hb1 in Hb1'. injection Hb1' as <-. destruct (rsp_facts sess_rep ip_rep w l x p W Hl Hr) as (_ & b0 & Hb0 & Hok & H0 & Hpre).
    rewrite Hb in Hb0. injection Hb0 as <-. pose proof (buf_bytes_len b Hok) as Hbl. destruct Hpre as [rest ->].
    rewrite take_app_le by (unfold blen in *; lia). unfold buf_bytes. cbn. rewrite take_take. f_equal. lia.
  - eapply goes_weaken; [by eapply (discard_tcp_goes sess_rep ip_rep rcvd sent w l x p n b)|].
    cbv beta. intros w' S (w1 & P & I1 & HL & S1 & ->). destruct (Hnone w1 P) as (x1 & Hl1 & Hr1 & Hp1).
    assert (Hc' : cached l (without_block (Some p) w1) = cached l w1).
    { unfold cached. change (link l (without_block (Some p) w1)) with (link l w1). rewrite Hl1. apply mem_bytes_keep. intros q Hq. cbn.
      apply lookup_delete_ne. intros <-. pose proof (loose_nodup _ _ HL) as Hn0. apply NoDup_cons_1_1 in Hn0. apply Hn0, in_all_of. left.
      exists l, x1. split; [done|]. unfold link_blocks. cbn. apply elem_of_app. by left. }
    split; [rewrite Hc'; apply (po_cached _ _ _ _ _ _ _ P)|]. split; [by exists x1|]. apply dealt_nobody; [|done].
    change (dealt l ([] ++ []) w (without_block (Some p) w1)). eapply dealt_trans; [by apply (popped_dealt w l x n w1)|].
    by apply dropped_dealt.
Qed.

(** ** [DispathTcp] *)

(** The size of the answer block, or of the one to come. *)
Definition block_size l w : Z :=
  match x ← link l w; p ← sl_rsp x; nw_bufs w !! p with Some b => sk_size b | None => 512 end.
(** How many rounds are left with [c] bytes in the cache. *)
Definition tcp_measure (c s : Z) : Z := c * (c + 2) + (c - Z.min s c) + 1.

Definition round_result cb l sid w (r : Z * NetW) : Prop := exists frames rest,
  rounds check_session cb sid (cached l w) frames rest r.1 /\ cached l r.2 = rest /\ dealt l frames w r.2 /\
  (r.1 = -3 -> ~ malloc_total (E := EV) /\ exists y, link l r.2 = Some y /\ sl_errno y = RC_MEM_ERROR).
(** The loop does not end only when it has too few rounds left or memory runs out. *)
Definition starved fuel l w : Prop :=
  ~ (malloc_total (E := EV) /\ tcp_measure (blen (cached l w)) (block_size l w) <= Z.of_nat fuel).

Lemma refit_link l x p b w w' : refit rcvd sent l x p b w w' -> block_size l w' = sk_size b.
Proof. intros R. unfold block_size. rewrite (rf_link _ _ _ _ _ _ _ _ R). cbn. by rewrite (proj1 (rf_block _ _ _ _ _ _ _ _ R)). Qed.

Lemma dispath_tcp_loop_goes fuel cb l sid w x : inv w -> link l w = Some x -> sl_parents x <> None -> sl_proto x <> NET_PROTO_UDP ->
  goes_unless (starved fuel l w) (steady []) w (dispath_tcp_loop check_session fuel cb l sid w) (round_result cb l sid w).
Proof.
  revert w x sid. induction fuel as [|fuel IH]; intros w x sid I Hl Hp Hu.
  { right. split; [done|]. intros [_ Hf]. unfold tcp_measure in Hf. assert (0 <= blen (cached l w)) by (unfold blen; lia). nia. }
  pose proof I as [W _]. destruct (cache_facts sess_rep ip_rep w l x W Hl) as (_ & El & Esm & _). set (bytes := cached l w) in *.
  assert (Hbs : 0 < block_size l w).
  { unfold block_size. rewrite Hl. cbn. destruct (sl_rsp x) as [p|] eqn:Er; cbn; [|lia].
    destruct (rsp_facts sess_rep ip_rep w l x p W Hl Er) as (_ & b & -> & Hok & _). apply bo_size. exact Hok. }
  cbn [dispath_tcp_loop]. rewrite Hl. cbn [mbind option_bind]. rewrite El.
  destruct (Z.ltb_spec 0 (blen bytes)) as [Hpos|Hz]; cbn [negb].
  2: { apply unless_goes, goes_ret; [apply _|done|done|]. assert (Hnil : bytes = []) by (destruct bytes; [done|unfold blen in Hz; cbn in Hz; lia]).
       exists [], []. cbn [fst snd]. fold bytes. rewrite Hnil. split; [constructor|]. split; [done|]. split; [by apply dealt_same|done]. }
  eapply unless_bind; [apply _|by apply (ExtendRecvRsp_goes sess_rep ip_rep rcvd sent w l x)|]. cbv beta.
  intros w1 I1 S1 [(p & b & R & Hfull & Hsize)|HN]; change (world_of w1) with w1 in *.
  2: { apply unless_goes. destruct HN as (Er & (e & ->) & Hno). change (link l (set_nw_env e w)) with (link l w). rewrite Hl. cbn [mbind option_bind].
       rewrite Er. eapply goes_bind; [apply _|by apply (errno_goes l RC_MEM_ERROR (set_nw_env e w) x)|]. cbv beta. intros w2 I2 S2 (Hc & D2 & Hl2).
       change (world_of w2) with w2 in *. apply goes_ret; [apply _|done|done|]. exists [], bytes. cbn [fst snd]. fold bytes.
       split; [constructor|]. split; [by rewrite Hc|]. split; [|intros _; split; [done|by exists (set_errno RC_MEM_ERROR x)]].
       destruct D2 as [A1 A2 A3]. by split. }
  fold bytes in Hfull.
  pose proof (refit_dealt w l x p b w1 I Hl Hp R S1) as D1. pose proof (refit_link _ _ _ _ _ _ R) as Hbs1.
  assert (Hbs01 : block_size l w1 = block_size l w).
  { rewrite Hbs1. unfold block_size. rewrite Hl. cbn. destruct (sl_rsp x) as [p0|]; [|done]. destruct Hsize as (b0 & Hb0 & ->). cbn. by rewrite Hb0. }
  pose proof R as [R1 (R2 & Hok & H0) R5 _ _ _ _]. set (x1 := set_sl_rsp (Some p) x) in *. rewrite R1. cbn [mbind option_bind].
  change (sl_rsp x1) with (Some p). cbv iota. rewrite R2. cbn [mbind option_bind]. pose proof (buf_bytes_len b Hok) as Hbl.
  rewrite (buf_bread b (sk_data_len b) Hok) by (destruct Hok; lia). cbn [mbind option_bind].
  rewrite (take_ge (buf_bytes b)) by (unfold blen in Hbl; lia). rewrite Hfull. pose proof (bo_size b Hok) as Hsz.
  assert (Hdl : sk_data_len b = Z.min (sk_size b) (blen bytes)).
  { rewrite <- Hbl, Hfull. unfold blen. rewrite length_take. lia. }
  destruct (check_session cb (take (Z.to_nat (sk_size b)) bytes) sid) as [[ret sid'] need] eqn:Ec.
  destruct (callback_ok cb _ _ _ _ _ Ec) as [Hret Hneed]. fold bytes in R5.
  assert (Hretb : ret <= sk_data_len b) by (rewrite <- Hbl, Hfull; done).
  destruct (Z.ltb_spec ret 0) as [Hneg|Hnn].
  { apply unless_goes. eapply goes_bind; [apply _|by apply (errno_goes l RC_CHECK_PKG_FAIL w1 x1)|]. cbv beta. intros w2 I2 S2 (Hc & D2 & _).
    change (world_of w2) with w2 in *. apply goes_ret; [apply _|done|done|]. exists [], bytes. cbn [fst snd]. fold bytes.
    split; [by eapply rd_fail|]. split; [by rewrite Hc|]. split; [|done]. change (@nil (Z * list Z)) with (@nil (Z * list Z) ++ []). by eapply dealt_trans. }
  destruct (Z.eqb_spec ret 0) as [->|Hnz].
  - eapply unless_bind; [apply _|by apply (extend_rsp_goes sess_rep ip_rep rcvd sent w1 l x1 p b need)|].
    intros [r w2] I2 S2 Hx. cbn [fst snd world_of world_pair] in *.
    assert (Hst : no_room b need = stops (sk_size b) (sk_data_len b) need) by done.
    destruct (no_room b need) eqn:En.
    + destruct Hx as [-> ->]. apply unless_goes, goes_ret; [apply _|done|done|]. exists [], bytes. cbn [fst snd]. fold bytes.
      split; [|by split]. eapply rd_wait; [exact Ec|exact Hsz|]. left. by rewrite <- Hdl.
    + destruct Hx as (q & b' & R' & Hbb & Hs' & ->). pose proof (refit_dealt w1 l x1 q b' w2 I1 R1 Hp R' S2) as D2.
      assert (D02 : dealt l [] w w2) by (change (@nil (Z * list Z)) with (@nil (Z * list Z) ++ []); by eapply dealt_trans).
      pose proof (rf_cached _ _ _ _ _ _ _ _ R') as Hc2. rewrite R5 in Hc2. rewrite R5.
      destruct (Z.leb_spec (blen bytes) (sk_data_len b)) as [Hle|Hgt].
      * apply unless_goes, goes_ret; [apply _|done|done|]. exists [], bytes. cbn [fst snd]. fold bytes. split; [|by split].
        eapply rd_wait; [exact Ec|exact Hsz|]. right. lia.
      * eapply unless_mono; [apply (IH w2 (set_sl_rsp (Some q) x1)); try done|..].
        -- apply (rf_link _ _ _ _ _ _ _ _ R').
        -- intros Hst' [Hm Hf]. apply Hst'. split; [done|]. destruct Hs' as [Hs'|Hs']; [|done].
           rewrite Hc2, (refit_link _ _ _ _ _ _ R'), Hs'. unfold no_room in En. apply orb_false_iff in En as [E1%Z.leb_gt _].
           unfold tcp_measure in *. rewrite <- Hbs01, Hbs1 in Hf. fold bytes in Hf. lia.
        -- intros [r w3] _ (frames & rest & Hr & Hc3 & D3 & Hm3). cbn [fst snd] in *. exists frames, rest. cbn [fst snd]. rewrite Hc2 in Hr.
           split; [by eapply rd_more|]. split; [done|]. split; [|done]. change frames with ([] ++ frames). by eapply dealt_trans.
  - assert (Hrc : rc_len (sl_cache x1) = blen bytes) by exact El. rewrite Hrc.
    rewrite (i32_small (blen bytes)) by (unfold max_cached in *; lia).
    rewrite (proj2 (Z.ltb_ge _ _)) by lia. destruct (FindSession_ok w1 l x1 sid' (proj1 I1) R1) as (s & Hs & _). rewrite Hs. cbn [mbind option_bind].
    change (match s with Some h => deliver_tcp l h p ret w1 | None => discard_tcp l p ret w1 end) with (give_out l p ret s w1).
    eapply unless_bind; [apply _|by eapply (give_out_goes w1 l x1 p b ret sid' s); try done; lia|]. cbv beta.
    intros w2 I2 S2 (Hc2 & (x2 & Hl2 & Hr2) & D2). change (world_of w2) with w2 in *. rewrite R5 in Hc2, D2.
    destruct (st_link _ _ _ S2 l x1 R1) as (x2' & Hl2' & Hpp & Hpr). rewrite Hl2 in Hl2'. injection Hl2' as <-.
    eapply unless_mono; [apply (IH w2 x2); try done; try congruence|..].
    + change (sl_parents x1) with (sl_parents x) in Hpp. congruence.
    + change (sl_proto x1) with (sl_proto x) in Hpr. congruence.
    + intros Hst' [Hm Hf]. apply Hst'. split; [done|]. fold bytes in Hf. rewrite Hc2. unfold tcp_measure in *. assert (Hb2 : block_size l w2 = 512) by (unfold block_size; rewrite Hl2; cbn; by rewrite Hr2).
      rewrite Hb2. unfold blen in *. rewrite length_drop. nia.
    + intros [r w3] _ (frames & rest & Hr & Hc3 & D3 & Hm3). cbn [fst snd] in *. eexists _, rest. cbn [fst snd]. fold bytes. rewrite Hc2 in Hr.
      split; [eapply rd_frame; [exact Ec|lia|lia|exact Hr]|]. split; [done|]. split; [|done].
      change (dealt l ([] ++ [(sid', take (Z.to_nat ret) bytes)] ++ frames) w w3).
      eapply dealt_trans; [exact D1|]. by eapply dealt_trans.
Qed.

(** The callback comes from the first handler that waits, or from the destination. *)
Lemma GetSessionCallback_goes w l x : inv w -> link l w = Some x -> sl_parents x <> None ->
  goes (steady []) w (GetSessionCallback l w) (fun r => link l r.2 = Some x /\ cached l r.2 = cached l w /\ block_size l r.2 = block_size l w /\ dealt l [] w r.2).
Proof.
  intros I Hl Hp. pose proof I as [W _]. unfold GetSessionCallback. rewrite Hl. cbn [mbind option_bind].
  assert (Hcb : exists cb, match sl_recv_list x with [] => Some None | h :: _ => i ← item h w; Some (nh_callback i) end = Some cb).
  { destruct (sl_recv_list x) as [|h q] eqn:Eq; [by eexists|]. destruct (queue_items sess_rep ip_rep None w l x QRecv h W Hl) as [i Hi].
    - cbn. rewrite Eq. by left.
    - rewrite Hi. by eexists. }
  destruct Hcb as [cb ->]. cbn [mbind option_bind]. destruct (sl_parents x) as [d|] eqn:Ed; [|done].
  destruct (net_link_owner sess_rep ip_rep w l x W Hl) as [_ Ho]. rewrite Ed in Ho. destruct Ho as (_ & y & Hd & _). rewrite Hd. cbn [mbind option_bind].
  destruct cb as [cb|]; [|apply goes_ret; [apply _|done|done|split_and!; try done; by apply dealt_same]].
  rewrite (upd_dest_eq d _ w y Hd). cbn [mbind option_bind]. set (w' := set_dests _ w).
  assert (S : steady [] w w') by (by apply steady_same).
  assert (W' : net_ok None w').
  { eapply net_ok_view; [|exact W]. unfold w', view_of. nsimpl. f_equal. by apply (fmap_insert_same dest_v _ d y). }
  eexists. split; [reflexivity|]. split; [by apply (inv_steady _ _ w)|]. split; [exact S|]. cbn [fst snd]. split; [done|]. split; [done|].
  split; [done|]. apply dealt_same; try done. intros sid. unfold FindSession. change (link l w') with (link l w). rewrite Hl. cbn [mbind option_bind].
  rewrite Ed. unfold dest in *. unfold w'. nsimpl. rewrite lookup_insert_eq, Hd. done.
Qed.

Lemma DispathTcp_goes w l x : inv w -> link l w = Some x -> sl_parents x <> None -> sl_proto x <> NET_PROTO_UDP ->
  goes_unless (~ malloc_total (E := EV)) (steady []) w (DispathTcp check_session l w) (fun r => (exists w1, GetSessionCallback l w = Some (None, w1) /\ r.1 = -1) \/
    exists cb w1, GetSessionCallback l w = Some (Some cb, w1) /\ round_result cb l 0 w r).
Proof.
  intros I Hl Hp Hu. unfold DispathTcp. pose proof (GetSessionCallback_goes w l x I Hl Hp) as (r & Ec & I1 & S1 & Hl1 & Hc1 & Hb1 & D1).
  rewrite Ec. cbn [mbind option_bind]. destruct r as [[cb|] w1]; cbn [fst snd world_of world_pair] in *.
  2: { left. exists (-1, w1). split; [done|]. split; [done|]. split; [done|]. left. by exists w1. }
  change (world_of w1) with w1 in *. rewrite Hl1. cbn [mbind option_bind]. destruct (cache_facts sess_rep ip_rep w1 l x (proj1 I1) Hl1) as (_ & El & _ & _).
  destruct (dispath_tcp_loop_goes (tcp_fuel (rc_len (sl_cache x))) cb l 0 w1 x I1 Hl1 Hp Hu)
    as [(r & E & I2 & S2 & frames & rest & Hr & Hc & D & Hm)|[E Hst]].
  2: { right. split; [exact E|]. intros Hm. apply Hst. split; [done|]. rewrite El. unfold tcp_fuel, tcp_measure. assert (0 <= blen (cached l w1)) by (unfold blen; lia).
    set (c := blen (cached l w1)) in *. assert (0 < block_size l w1).
    { unfold block_size. rewrite Hl1. cbn. destruct (sl_rsp x) as [p|] eqn:Er; cbn; [|lia].
      destruct (rsp_facts sess_rep ip_rep w1 l x p (proj1 I1) Hl1 Er) as (_ & b & -> & Hok & _). apply bo_size. exact Hok. }
    rewrite Nat2Z.inj_succ, Z2Nat.id by nia. nia. }
  left. exists r. split; [exact E|]. split; [done|]. split; [by etransitivity|]. right. exists cb, w1. split; [done|]. exists frames, rest.
  split; [by rewrite <- Hc1|]. split; [done|]. split; [|done]. change frames with ([] ++ frames). by eapply dealt_trans.
Qed.

(** ** [DispathUdp] *)

(** Skipping as many bytes as the first block holds takes this block. *)
Lemma skip_first_list c c' (st st' : CacheState (E := EV)) p q b : cache_skip_data (Some c) (sk_data_len b) st = Some (Some c', st') -> rc_pool c = true ->
  rc_list c = p :: q -> cs_bufs st !! p = Some b -> rc_list c' = q.
Proof.
  intros E Hp Hl Hb. unfold cache_skip_data, cache_copy_out in E. rewrite Hp in E. cbn [negb] in E. rewrite Hl in E. cbn [copy_out_loop] in E.
  rewrite Hb in E. cbn [mbind option_bind] in E. rewrite Z.ltb_irrefl, Z.sub_diag in E. cbn [sk_data_len set_span] in E.
  change (0 <? u32 0) with false in E. cbv iota zeta in E. destruct (free_sk_buffer _ _ _) as [st1|]; [|done]. cbn [mbind option_bind] in E.
  change (u32 0 =? 0) with true in E. cbn in E. by injection E as <- _.
Qed.

Lemma skip_block_goes w l x p q b : inv w -> link l w = Some x -> sl_parents x <> None -> sl_proto x = NET_PROTO_UDP ->
  rc_list (sl_cache x) = p :: q -> nw_bufs w !! p = Some b ->
  goes (steady []) w (skip_data l (sk_data_len b) w) (fun w' => exists y, link l w' = Some y /\ rc_list (sl_cache y) = q).
Proof.
  intros I Hl Hp Hu Hq Hb. pose proof I as [W _].
  assert (Hok : buf_ok b).
  { destruct (block_live sess_rep ip_rep None w p W) as (b0 & Hb0 & Hok); [|congruence]. rewrite in_all_of. left. exists l, x.
    split; [done|]. unfold link_blocks. cbn. rewrite Hq. by left. }
  assert (Hr : sl_rsp x = None).
  { destruct (sl_rsp x) as [r|] eqn:Er; [|done]. by destruct (rsp_facts sess_rep ip_rep w l x r W Hl Er). }
  pose proof (bo_len b Hok). pose proof (sk_len_small b Hok).
  eapply goes_weaken; [apply (skip_data_goes sess_rep ip_rep rcvd sent w l x); try done; lia|]. cbv beta.
  intros w' _ (c' & st' & -> & _ & _ & E). exists (set_cache c' x). split; [apply (put_link_fields l _ (sl_proto x) st' w)|].
  apply (skip_first_list (sl_cache x) c' (cache_view (sl_proto x) w) st' p q b); try done. by apply (live_pool sess_rep ip_rep w l x).
Qed.

(** Each round takes one datagram. *)
Lemma dispath_udp_loop_goes fuel cb l sid w x : inv w -> link l w = Some x -> sl_parents x <> None -> sl_proto x = NET_PROTO_UDP ->
  (length (rc_list (sl_cache x)) < fuel)%nat ->
  goes (steady []) w (dispath_udp_loop check_session fuel cb l sid w) (fun r => r.1 = 0 /\ cached l r.2 = []).
Proof.
  revert w x sid. induction fuel as [|fuel IH]; intros w x sid I Hl Hp Hu Hf; [lia|]. pose proof I as [W _].
  cbn [dispath_udp_loop]. rewrite Hl. cbn [mbind option_bind]. destruct (rc_list (sl_cache x)) as [|block q] eqn:Eq.
  { apply goes_ret; [apply _|done|done|]. split; [done|]. cbn [snd]. unfold cached. by rewrite Hl, Eq. }
  destruct (block_live sess_rep ip_rep None w block W) as (b & Hb & Hok).
  { rewrite in_all_of. left. exists l, x. split; [done|]. unfold link_blocks. cbn. rewrite Eq. by left. }
  rewrite Hb. cbn [mbind option_bind]. cbn [length] in Hf.
  assert (Hnext : forall o sid', goes (steady []) w o (fun w' => exists y, link l w' = Some y /\ rc_list (sl_cache y) = q) ->
    goes (steady []) w (w ← o; dispath_udp_loop check_session fuel cb l sid' w) (fun r => r.1 = 0 /\ cached l r.2 = [])).
  { intros o sid' Ho. eapply goes_bind; [apply _|exact Ho|]. cbv beta. intros w1 I1 S1 (y & Hy & Hq). change (world_of w1) with w1 in *.
    destruct (st_link _ _ _ S1 l x Hl) as (y' & Hy' & Hpp & Hpr). rewrite Hy in Hy'. injection Hy' as <-.
    apply (IH w1 y); try done; [congruence|congruence|rewrite Hq; lia]. }
  destruct cb as [f|]; [|apply Hnext; by eapply skip_block_goes].
  rewrite (buf_bread b (sk_data_len b) Hok) by (destruct Hok; lia). cbn [mbind option_bind].
  destruct (check_session f _ sid) as [[ret sid'] need]. destruct (_ || _); [apply Hnext; by eapply skip_block_goes|].
  destruct (FindSession_ok w l x sid' W Hl) as (s & -> & Hs). cbn [mbind option_bind]. apply Hnext. destruct s as [h|]; [|by eapply skip_block_goes].
  destruct Hs as [i Hi]. by eapply (deliver_udp_goes sess_rep ip_rep).
Qed.
Lemma DispathUdp_goes w l x : inv w -> link l w = Some x -> sl_parents x <> None -> sl_proto x = NET_PROTO_UDP ->
  goes (steady []) w (DispathUdp check_session l w) (fun r => r.1 = 0 /\ cached l r.2 = []).
Proof.
  intros I Hl Hp Hu. pose proof I as [W _]. unfold DispathUdp. rewrite Hl. cbn [mbind option_bind].
  assert (Hcb : exists cb, match sl_recv_list x with [] => Some None | h :: _ => i ← item h w; Some (nh_callback i) end = Some cb).
  { destruct (sl_recv_list x) as [|h q] eqn:Eq; [by eexists|]. destruct (queue_items sess_rep ip_rep None w l x QRecv h W Hl) as [i Hi].
    - cbn. rewrite Eq. by left.
    - rewrite Hi. by eexists. }
  destruct Hcb as [cb ->]. cbn [mbind option_bind]. apply (dispath_udp_loop_goes _ cb l 0 w x); try done. lia.
Qed.
Lemma RecvDispath_goes w l x : inv w -> link l w = Some x -> sl_parents x <> None ->
  goes_unless (~ malloc_total (E := EV)) (steady []) w (RecvDispath check_session l w) (fun _ => True).
Proof.
  intros I Hl Hp. unfold RecvDispath. rewrite Hl. cbn [mbind option_bind]. destruct (Z.eqb_spec (sl_proto x) NET_PROTO_UDP) as [Hu|Hu].
  - apply unless_goes. eapply goes_weaken; [by eapply DispathUdp_goes|done].
  - eapply unless_mono; [by eapply DispathTcp_goes|done|done].
Qed.
End net.
