(* ===== verification/NetSend.v ===== *)
(** * The network layer: sending

    The requests that wait at a link leave in their order: [SendCacheTcp] hands the
    kernel the waiting requests with the caller's last, and takes what was sent from
    the front; a request that is out makes its thread runnable. *)

From Stdlib Require Import ZArith Lia.
From stdpp Require Import base gmap list option fin_maps.
From S2P Require Import Prelude Bytes HashList KeyTable RwCache NetData NetOps NetMain NetInv NetQueues NetBlocks.
From S2P Require Import NetLinks NetDest NetStay NetSteps NetRecv.

(** What is left of a request. *)
Definition req_left (i : CNetHandler) : list Z :=
  match nh_req_data i with Some d => take (Z.to_nat (nh_req_len i)) d | None => [] end.

(** What the layer relies on when it writes to a socket: [writev] transfers a prefix of
    the bytes, less than 2^31 of them. *)
Class NetEnvLaws {E : Type} `{!NetEnv E} (rcvd sent : E -> list Z) : Prop := {
  net_cache_laws :: CacheEnvLaws rcvd sent;
  writev_ok fd iov e n err e' : sys_writev fd iov e = (n, err, e') ->
    n <= blen (concat iov) /\ n < 2 ^ 31 /\ rcvd e' = rcvd e /\
    (0 <= n -> sent e' = sent e ++ take (Z.to_nat n) (concat iov)) /\ (n < 0 -> sent e' = sent e);
}.

Section world.
Context {EV TS TI : Type}.
Abbreviation NetW := (NetW EV TS TI).
Implicit Types (w : NetW) (h l d t p : ptr).

(** The bytes that handlers have still to send. *)
Definition pend (q : list ptr) w : list Z := q ≫= fun h => match item h w with Some i => req_left i | None => [] end.
Definition at_link l (q : list ptr) w : Prop := forall h, h ∈ q -> exists i, item h w = Some i /\ nh_conn i = Some l.

Lemma pend_cons h q w i : item h w = Some i -> pend (h :: q) w = req_left i ++ pend q w.
Proof. intros Hh. unfold pend. cbn. by rewrite Hh. Qed.
Lemma pend_same q w w' : (forall h, h ∈ q -> item h w' = item h w) -> pend q w' = pend q w.
Proof.
  induction q as [|h q IH]; intros H; [done|]. unfold pend in *. cbn. rewrite (H h ltac:(by left)), IH; [done|].
  intros p Hp. apply H. by right.
Qed.

(** Handler [h] is done: it is idle and its thread may run. *)
Record idled h w w' : Prop := {
  id_item x : item h w = Some x -> exists x', item h w' = Some x' /\ nh_conn x' = nh_conn x /\ strip_item x' = strip_item x;
  id_others p : p <> h -> item p w' = item p w;
  id_thread x t : item h w = Some x -> nh_thread x = Some t -> t ∉ nw_io w';
  id_calm : calm w w';
}.

(** The requests [q] after [n] bytes were taken from their front. *)
Record shifted l (q : list ptr) (n : Z) w w' : Prop := {
  sf_pend : pend q w' = drop (Z.to_nat n) (pend q w);
  sf_others p : p ∉ q -> item p w' = item p w;
  sf_at : at_link l q w';
  sf_rest : nw_env w' = nw_env w;
  sf_done h i i' t : h ∈ q -> item h w = Some i -> item h w' = Some i' -> req_left i <> [] -> req_left i' = [] -> nh_thread i = Some t ->
    t ∉ nw_io w';
  sf_woken : woken_only w w';
}.
End world.

Section net.
Context {EV TS TI : Type} `{!NetEnv EV, !KeyTable sess_key TS, !KeyTable dest_key TI}.
Context (sess_rep : (ptr -> sess_key) -> TS -> gmap sess_key ptr -> Prop) `{!KeyTableLaws sess_key TS sess_rep}.
Context (ip_rep : (ptr -> dest_key) -> TI -> gmap dest_key ptr -> Prop) `{!KeyTableLaws dest_key TI ip_rep}.
Context (rcvd sent : EV -> list Z) {HLaws : CacheEnvLaws rcvd sent}.

Abbreviation NetW := (NetW EV TS TI).
Abbreviation net_ok := (net_ok sess_rep ip_rep).
Abbreviation inv := (inv sess_rep ip_rep).
Abbreviation goes := (goes sess_rep ip_rep).
Implicit Types (w : NetW) (h l d t p : ptr) (X : list ptr).

Lemma idle_goes h x w : inv w -> item h w = Some x -> goes (steady []) w (notify_idle h w) (idled h w).
Proof.
  intros I Hh. eapply goes_weaken; [by apply (notify_idle_goes sess_rep ip_rep h x)|]. cbv beta.
  intros w' S (w1 & (x0 & Hx0 & Hh1 & Ho1 & L1 & C1 & T1) & [Q2 (x2 & Hh2 & Hc2 & Hx2) Ho2] & _). rewrite Hh in Hx0. injection Hx0 as <-.
  change (with_err 0 x) with x in Hh1. split.
  - intros y Hy. rewrite Hh in Hy. injection Hy as <-. by exists x2.
  - intros p Hp. rewrite Ho2, Ho1; done.
  - intros y t Hy Ht Hio. rewrite Hh in Hy. injection Hy as <-. apply (T1 t Ht). destruct (rest_io_run _ _ (qq_rest _ _ Q2)) as (<- & _). done.
  - etransitivity; [exact C1|by apply queues_only_calm].
Qed.

(** ** What is sent *)

Lemma req_facts w h i l : inv w -> item h w = Some i -> nh_conn i = Some l ->
  exists d : list Z, nh_req_data i = Some d /\ 0 <= nh_req_len i <= blen d /\ nh_req_len i < 2 ^ 32 /\ blen (req_left i) = nh_req_len i /\
    bread 0 (nh_req_len i) d = Some (req_left i).
Proof.
  intros [_ R] Hh Hc. destruct (R h i Hh) as (d & D1 & D2 & D3); [congruence|]. exists d. split_and!; try done; try lia.
  - unfold req_left. rewrite D1. unfold blen in *. rewrite length_take. lia.
  - unfold req_left. rewrite D1. rewrite (bread_at _ _ 0 (Z.to_nat (nh_req_len i))) by (unfold blen in *; lia). by rewrite drop_0.
Qed.

Lemma collect_iov_ok n q l w : inv w -> at_link l q w -> exists iov, collect_iov n q w = Some iov /\ length iov = Nat.min n (length q) /\
  concat iov = pend (take n q) w.
Proof.
  intros I. revert n. induction q as [|h q IH]; intros n Hq.
  { exists []. by destruct n. }
  destruct n as [|n]; [by exists []|]. destruct (Hq h ltac:(by left)) as (i & Hh & Hc). cbn [collect_iov].
  unfold GetSendData. rewrite Hh. cbn [mbind option_bind]. destruct (req_facts w h i l I Hh Hc) as (d & D1 & D2 & D3 & D4 & D5).
  unfold iov_bytes. rewrite D1, D5. cbn [mbind option_bind]. destruct (IH n) as (iov & -> & Hlen & Hc').
  { intros p Hp. apply Hq. by right. }
  cbn [mbind option_bind]. eexists. split; [reflexivity|]. split; [cbn; lia|]. cbn [concat take]. by rewrite (pend_cons h _ w i Hh), Hc'.
Qed.

(** Taking [n] bytes off one request. *)
Lemma sent_left n i (d : list Z) : nh_req_data i = Some d -> 0 <= n <= nh_req_len i -> req_left (sent_item n i) = drop (Z.to_nat n) (req_left i).
Proof.
  intros Hd Hn. unfold req_left. cbn. rewrite Hd. cbn. rewrite skipn_firstn_comm. f_equal. lia.
Qed.

Lemma skip_one_goes h i l n w : inv w -> item h w = Some i -> nh_conn i = Some l -> 0 <= n ->
  goes (steady []) w ('(k, w) ← SkipSendPos n h w; '(_, len) ← GetSendData h w; w ← (if len =? 0 then notify_idle h w else Some w); Some (k, w))
    (fun r => let '(k, w') := r in k = Z.min n (nh_req_len i) /\ nw_env w' = nw_env w /\ (forall p, p <> h -> item p w' = item p w) /\
      (exists i', item h w' = Some i' /\ nh_conn i' = Some l /\ req_left i' = drop (Z.to_nat k) (req_left i)) /\
      (nh_req_len i <= n -> forall t, nh_thread i = Some t -> t ∉ nw_io w') /\ woken_only w w').
Proof.
  intros I Hh Hc Hn. eapply goes_bind; [apply _|apply (SkipSendPos_goes sess_rep ip_rep n h i w I Hh ltac:(congruence) Hn)|].
  intros [k w1] I1 S1 [Ek Ew]. cbn [fst snd world_of world_pair] in *. destruct (req_facts w h i l I Hh Hc) as (d & D1 & D2 & D3 & D4 & D5).
  assert (Hk : 0 <= k <= nh_req_len i) by lia. rewrite <- Ek in Ew. pose proof (sent_left k i d D1 Hk) as Hleft.
  assert (Hh1 : item h w1 = Some (sent_item k i)) by (rewrite Ew; unfold item; nsimpl; apply lookup_insert_eq).
  assert (Ho1 : forall p, p <> h -> item p w1 = item p w) by (intros p Hp; rewrite Ew; unfold item; nsimpl; by rewrite lookup_insert_ne).
  assert (F1 : nw_env w1 = nw_env w /\ woken_only w w1).
  { rewrite Ew. split; [done|]. split; [done|]. exists []. rewrite app_nil_r. split; [done|]. split; [by intros t ?%elem_of_nil|tauto]. }
  destruct F1 as [F1 F2]. unfold GetSendData. rewrite Hh1. cbn [mbind option_bind]. change (nh_req_len (sent_item k i)) with (nh_req_len i - k).
  destruct (Z.eqb_spec (nh_req_len i - k) 0) as [Hz|Hz].
  - eapply goes_bind; [apply _|by apply (idle_goes h (sent_item k i) w1)|]. cbv beta. intros w2 I2 S2 [A1 A2 A3 A4]. change (world_of w2) with w2 in *.
    apply goes_ret; [apply _|done|done|]. destruct (A1 _ Hh1) as (i' & Hi' & Hc' & Hs'). destruct (calm_rest _ _ A4) as (E2 & _).
    split; [done|]. split; [congruence|]. split; [intros p Hp; rewrite A2 by done; by apply Ho1|]. split; [|split].
    + exists i'. split; [done|]. split; [by rewrite Hc'|]. rewrite <- Hleft. unfold req_left.
      apply (f_equal (fun z => (nh_req_data z, nh_req_len z))) in Hs'.
      change ((nh_req_data i', nh_req_len i') = (nh_req_data (sent_item k i), nh_req_len (sent_item k i))) in Hs'. by injection Hs' as -> ->.
    + intros _ t Ht. by apply (A3 (sent_item k i)).
    + etransitivity; [exact F2|apply (ca_woken _ _ A4)].
  - cbn [mbind option_bind]. apply goes_ret; [apply _|done|done|]. split; [done|]. split; [done|]. split; [done|]. split; [|split].
    + exists (sent_item k i). split_and!; done.
    + intros Hle. lia.
    + done.
Qed.

Lemma skip_sent_cons h q lft w : skip_sent (h :: q) lft w =
  ('(k, w) ← ('(k, w) ← SkipSendPos lft h w; '(_, len) ← GetSendData h w; w ← (if len =? 0 then notify_idle h w else Some w); Some (k, w));
   if u32 (lft - k) =? 0 then Some (u32 (lft - k), w) else skip_sent q (u32 (lft - k)) w).
Proof.
  cbn [skip_sent]. destruct (SkipSendPos lft h w) as [[k w1]|]; [|done]. cbn [mbind option_bind].
  destruct (GetSendData h w1) as [[b len]|]; [|done]. cbn [mbind option_bind]. by destruct (if len =? 0 then _ else _).
Qed.

Lemma shift_cons l h q i k n w w1 w2 : (h ∉ q) -> 0 <= n -> k = Z.min n (blen (req_left i)) -> item h w = Some i ->
  nw_env w1 = nw_env w -> (forall p, p <> h -> item p w1 = item p w) ->
  (exists i', item h w1 = Some i' /\ nh_conn i' = Some l /\ req_left i' = drop (Z.to_nat k) (req_left i)) ->
  (blen (req_left i) <= n -> forall t, nh_thread i = Some t -> t ∉ nw_io w1) -> woken_only w w1 ->
  shifted l q (n - k) w1 w2 -> shifted l (h :: q) n w w2.
Proof.
  intros Hhq Hn -> Hh E1 O1 (i' & Hh1 & Hc1 & Hl1) T1 K1 [B1 B2 B3 B4 B5 B6].
  assert (Hh2 : item h w2 = Some i') by (by rewrite B2).
  assert (Hq1 : pend q w1 = pend q w) by (apply pend_same; intros p Hp; apply O1; by intros ->).
  split; [| | |congruence| |by etransitivity].
  - rewrite (pend_cons h q w2 i' Hh2), (pend_cons h q w i Hh), Hl1, B1, Hq1, drop_app. unfold blen in *. f_equal.
    + destruct (decide (Z.to_nat n <= length (req_left i))%nat); [f_equal; lia|]. rewrite !drop_ge by lia. done.
    + f_equal. lia.
  - intros p Hp. apply not_elem_of_cons in Hp as [Hp1 Hp2]. rewrite B2 by done. by apply O1.
  - intros p [->|Hp]%elem_of_cons; [by exists i'|by apply B3].
  - intros p z z' t Hp Hz Hz' Hne Hnil Ht. apply elem_of_cons in Hp as [->|Hp].
    + rewrite Hh in Hz. injection Hz as <-. rewrite Hh2 in Hz'. injection Hz' as <-. intros Hio. apply (proj1 B6) in Hio. revert Hio. apply T1; [|done].
      rewrite Hl1 in Hnil. apply (f_equal length) in Hnil. rewrite length_drop in Hnil. cbn in Hnil.
      assert (length (req_left i) <> 0%nat) by (by destruct (req_left i)). unfold blen in *. lia.
    + apply (B5 p z z' t Hp); try done. rewrite O1; [done|]. by intros ->.
Qed.
Lemma shifted_zero l q w : at_link l q w -> shifted l q 0 w w.
Proof. intros H. split; try done. intros h i i' t _ E1 E2 Hne Hnil. congruence. Qed.

Lemma skip_sent_goes q l lft w : inv w -> NoDup q -> at_link l q w -> 0 <= lft < 2 ^ 32 ->
  goes (steady []) w (skip_sent q lft w) (fun r => r.1 = lft - Z.min lft (blen (pend q w)) /\ shifted l q lft w r.2).
Proof.
  revert lft w. induction q as [|h q IH]; intros lft w I Hnd Hq Hl.
  { cbn [skip_sent]. apply goes_ret; [apply _|done|done|]. cbn [fst snd]. split; [unfold pend, blen; cbn; lia|].
    split; try done; [unfold pend; cbn; by rewrite drop_nil|by intros h i i' t ?%elem_of_nil]. }
  pose proof (NoDup_cons_1_1 _ _ Hnd) as Hhq. apply NoDup_cons_1_2 in Hnd. destruct (Hq h ltac:(by left)) as (i & Hh & Hc).
  destruct (req_facts w h i l I Hh Hc) as (d & D1 & D2 & D3 & D4 & D5). rewrite skip_sent_cons.
  eapply goes_bind; [apply _|by apply (skip_one_goes h i l lft w I Hh Hc); lia|]. intros [k w1] I1 S1 (Ek & E1 & O1 & H1 & T1 & K1).
  cbn [world_of world_pair snd] in *. rewrite <- D4 in Ek, T1. rewrite (u32_small (lft - k)) by (unfold in_u32; lia).
  assert (Hq1 : at_link l q w1).
  { intros p Hp. destruct (Hq p ltac:(by right)) as (z & Hz & Hcz). exists z. split; [|done]. rewrite O1; [done|]. by intros ->. }
  assert (Ep : pend q w1 = pend q w) by (apply pend_same; intros p Hp; apply O1; by intros ->).
  assert (Hb : blen (pend (h :: q) w) = blen (req_left i) + blen (pend q w)).
  { rewrite (pend_cons h q w i Hh). unfold blen. rewrite length_app. lia. }
  assert (0 <= blen (pend q w)) by (unfold blen; lia).
  destruct (Z.eqb_spec (lft - k) 0) as [Hz|Hz].
  - apply goes_ret; [apply _|done|done|]. cbn [fst snd]. split; [lia|]. eapply shift_cons; try done; [lia|]. rewrite Hz. by apply shifted_zero.
  - eapply goes_weaken; [apply (IH (lft - k) w1); try done; lia|]. intros [r w2] S2 [-> Sh]. cbn [fst snd] in *. split; [rewrite Ep; lia|].
    eapply shift_cons; try done. lia.
Qed.

(** ** [SendCacheTcp] *)

Lemma live_addr w l x : net_ok None w -> link l w = Some x -> sl_parents x <> None -> exists a, GetDestAddr l w = Some a.
Proof.
  intros W Hl Hp. unfold GetDestAddr. rewrite Hl. cbn [mbind option_bind]. destruct (sl_parents x) as [d|] eqn:Ed; [|done].
  destruct (net_link_owner sess_rep ip_rep w l x W Hl) as [_ Ho]. rewrite Ed in Ho. cbn [mbind option_bind].
  destruct Ho as (_ & y & -> & _). by eexists.
Qed.
Lemma send_list_at w l x : net_ok None w -> link l w = Some x -> at_link l (sl_send_list x) w /\ NoDup (sl_send_list x).
Proof.
  intros W Hl. split; [|exact (net_queue_nodup sess_rep ip_rep None w l x QSend W Hl)]. intros h Hh.
  destruct (qo_queue _ _ _ (wf_queues _ _ _ _ W) l (link_v x) QSend h (view_link _ _ _ Hl) Hh) as (v & s & Hv & Hc & _).
  destruct (view_item_inv _ _ _ Hv) as (i & Hi & ->). by exists i.
Qed.

(** The bytes of the caller. *)
Definition own (data : option (list Z)) (len : Z) : list Z := match data with Some d => take (Z.to_nat len) d | None => [] end.
Definition own_ok (data : option (list Z)) (len : Z) : Prop := match data with Some d => 0 <= len <= blen d /\ len < 2 ^ 32 | None => True end.
(** After [SendCacheTcp]: the wire, what waits and the rest of the caller's bytes are
    together what they were. *)
Definition sent_tcp (snt : EV -> list Z) l (q : list ptr) (bytes : list Z) w (r : Z * NetW) : Prop :=
  exists n, shifted l q n (set_nw_env (nw_env r.2) w) r.2 /\ 0 <= n /\
    ((r.1 = 0 \/ r.1 = -1) /\ n = 0 /\ snt (nw_env r.2) = snt (nw_env w) \/ 0 <= r.1 /\ r.1 = n - Z.min n (blen (pend q w)) /\
     (snt (nw_env r.2) = snt (nw_env w) ++ take (Z.to_nat n) (pend q w ++ bytes) /\ n <= blen (pend q w ++ bytes))).

Lemma SendCacheTcp_goes w l x data len : NetEnvLaws rcvd sent -> inv w -> link l w = Some x -> own_ok data len ->
  goes (steady []) w (SendCacheTcp l data len w) (sent_tcp sent l (sl_send_list x) (own data len) w).
Proof.
  intros NL I Hl Ho. pose proof I as [W _]. set (q := sl_send_list x). destruct (send_list_at w l x W Hl) as [Hq Hnd].
  unfold SendCacheTcp. rewrite Hl. cbn [mbind option_bind]. fold q. destruct (collect_iov_ok 64 q l w I Hq) as (iov & -> & Hlen & Hcat). cbn [mbind option_bind].
  assert (Hiov : exists iov', (match data with Some b => if (length iov <? 64)%nat then bytes ← bread 0 len b; Some (iov ++ [bytes]) else Some iov
      | None => Some iov end) = Some iov' /\ concat iov' `prefix_of` pend q w ++ own data len).
  { assert (Hpre : pend (take 64 q) w `prefix_of` pend q w).
    { rewrite <- (take_drop 64 q) at 2. unfold pend. rewrite bind_app. by apply prefix_app_r. }
    destruct data as [b|]; cbn [own own_ok] in *; [destruct (Nat.ltb_spec (length iov) 64) as [Hlt|_]|].
    - rewrite (bread_at _ _ 0 (Z.to_nat len)) by (unfold blen in *; lia). cbn [mbind option_bind]. rewrite drop_0. eexists. split; [reflexivity|].
      rewrite concat_app, Hcat. cbn. rewrite app_nil_r. rewrite take_ge by lia. done.
    - exists iov. split; [done|]. rewrite Hcat. by apply prefix_app_r.
    - exists iov. split; [done|]. rewrite Hcat. by apply prefix_app_r. }
  destruct Hiov as (iov' & -> & Hpre). cbn [mbind option_bind]. unfold env_do.
  destruct (sys_writev (sl_fd x) iov' (nw_env w)) as [[n err] e] eqn:Ew. destruct (writev_ok _ _ _ _ _ _ Ew) as (Hn & Hn31 & Hrc & Hpos & Hneg).
  set (w1 := set_nw_env e w). assert (I1 : inv w1) by (by apply inv_env). assert (Hq1 : at_link l q w1) by exact Hq.
  apply (goes_env sess_rep ip_rep _ w e); [apply env_steady|]. fold w1.
  destruct (Z.ltb_spec n 0) as [Hn0|Hn0].
  { apply goes_ret; [apply _|done|done|]. exists 0. cbn [fst snd]. split; [by apply shifted_zero|]. split; [done|]. left.
    split; [destruct (_ || _); [by left|by right]|]. split; [done|]. exact (Hneg Hn0). }
  rewrite (u32_small n) by (unfold in_u32; lia).
  eapply goes_bind; [apply _|by apply (skip_sent_goes q l n w1 I1 Hnd Hq1); lia|]. intros [lft w2] I2 S2 [El Sh]. cbn [fst snd world_of world_pair] in *.
  apply goes_ret; [apply _|done|done|]. exists n. cbn [fst snd]. pose proof (sf_rest _ _ _ _ _ Sh) as Ee. change (nw_env w1) with e in Ee. rewrite Ee.
  split; [exact Sh|]. split; [lia|]. right. change (pend q w1) with (pend q w) in El.
  assert (0 <= blen (pend q w)) by (unfold blen; lia). rewrite i32_small by lia. split; [lia|]. split; [done|].
  destruct Hpre as [rest Hrest]. rewrite Hrest. split; [|unfold blen in *; rewrite length_app; lia].
  rewrite (Hpos Hn0). f_equal. by rewrite take_app_le by (unfold blen in *; lia).
Qed.

(** ** [SendCacheUdp] and [SendData] *)

(** Handlers that do not wait for sending do not notice. *)
Definition others_kept (q : list ptr) w {A} (r : A * NetW) : Prop := forall p, p ∉ q -> item p r.2 = item p w.

Lemma sendto_eq l x data w : net_ok None w -> link l w = Some x -> sl_parents x <> None ->
  exists ret err e, sendto l data w = Some (ret, err, set_nw_env e w).
Proof.
  intros W Hl Hp. unfold sendto. rewrite Hl. cbn [mbind option_bind]. destruct (live_addr w l x W Hl Hp) as [a ->]. cbn [mbind option_bind].
  unfold env_do. destruct (sys_sendto (sl_fd x) data a (nw_env w)) as [[ret err] e]. by exists ret, err, e.
Qed.

Lemma send_udp_loop_goes q l w : inv w -> live l w -> NoDup q -> at_link l q w ->
  goes (steady []) w (send_udp_loop l q w) (others_kept q w).
Proof.
  revert w. induction q as [|h q IH]; intros w I HL Hnd Hq; [by apply goes_ret; [apply _|..]|].
  pose proof (NoDup_cons_1_1 _ _ Hnd) as Hhq. apply NoDup_cons_1_2 in Hnd. destruct (Hq h ltac:(by left)) as (i & Hh & Hc).
  destruct (req_facts w h i l I Hh Hc) as (d & D1 & D2 & D3 & D4 & D5). pose proof HL as (x & Hl & Hp).
  assert (Hidle : forall w1, inv w1 -> steady [] w w1 -> (forall p, item p w1 = item p w) ->
    goes (steady []) w1 (w ← notify_idle h w1; send_udp_loop l q w) (others_kept (h :: q) w)).
  { intros w1 I1 S1 Hs1. eapply goes_bind; [apply _|apply (idle_goes h i w1 I1); by rewrite Hs1|]. cbv beta. intros w2 I2 S2 A.
    change (world_of w2) with w2 in *. eapply goes_weaken; [apply (IH w2 I2); [|done|]|].
    - eapply live_steady; [exact S2|]. eapply live_steady; [exact S1|done].
    - intros p Hpq. destruct (Hq p ltac:(by right)) as (z & Hz & Hcz). exists z. split; [|done].
      rewrite (id_others _ _ _ A), Hs1 by (by intros ->). done.
    - intros r _ Hr p Hpn. apply not_elem_of_cons in Hpn as [Hp1 Hp2]. rewrite Hr by done. rewrite (id_others _ _ _ A) by done. apply Hs1. }
  cbn [send_udp_loop]. unfold GetSendData. rewrite Hh. cbn [mbind option_bind]. rewrite D1.
  destruct (nh_req_len i =? 0); [by apply Hidle|]. rewrite D5. cbn [mbind option_bind].
  destruct (sendto_eq l x (req_left i) w (proj1 I) Hl Hp) as (ret & err & e & ->). cbn [mbind option_bind].
  assert (Ie : inv (set_nw_env e w)) by (by apply inv_env). apply (goes_env sess_rep ip_rep _ w e); [apply env_steady|].
  destruct (ret =? -1); [by apply goes_ret; [apply _|..]|]. by apply Hidle; [|apply env_steady|].
Qed.

Lemma SendCacheUdp_goes w l x data len : inv w -> link l w = Some x -> sl_parents x <> None -> own_ok data len ->
  goes (steady []) w (SendCacheUdp l data len w) (others_kept (sl_send_list x) w).
Proof.
  intros I Hl Hp Ho. destruct (send_list_at w l x (proj1 I) Hl) as [Hq Hnd]. unfold SendCacheUdp. rewrite Hl. cbn [mbind option_bind].
  eapply goes_bind; [apply _|apply (send_udp_loop_goes _ l w I); [by exists x|done|done]|]. intros [r w1] I1 S1 Hk. cbn [snd fst world_of world_pair] in *.
  assert (Hk' : forall A (a : A) e, others_kept (sl_send_list x) w (a, set_nw_env e w1)) by (intros A a e p Hpn; by apply Hk).
  assert (Hk0 : forall A (a : A), others_kept (sl_send_list x) w (a, w1)) by (intros A a p Hpn; by apply Hk).
  destruct r as [[]|ret]; [|by apply goes_ret; [apply _|done|done|]]. destruct data as [b|]; [|by apply goes_ret; [apply _|done|done|]].
  destruct (len =? 0); [by apply goes_ret; [apply _|done|done|]|]. cbn [own_ok] in Ho.
  rewrite (bread_at _ _ 0 (Z.to_nat len)) by (unfold blen in *; lia). cbn [mbind option_bind].
  destruct (st_link _ _ _ S1 l x Hl) as (x1 & Hl1 & Hp1 & _).
  destruct (sendto_eq l x1 (take (Z.to_nat len) (drop 0 b)) w1 (proj1 I1) Hl1 ltac:(congruence)) as (ret & err & e & ->). cbn [mbind option_bind].
  assert (Ie : inv (set_nw_env e w1)) by (by apply inv_env). apply (goes_env sess_rep ip_rep _ w1 e); [apply env_steady|].
  destruct (ret =? -1); by apply goes_ret; [apply _|done|done|].
Qed.

(** A handler that waits for sending is among the waiters of the link. *)
Lemma touch_goes l w : inv w -> live l w -> goes (steady []) w (let '(now, w) := env_do mt_time_ms w in upd_link l (set_last_access now) w)
  (fun w' => nw_items w' = nw_items w /\ exists x x', link l w = Some x /\ link l w' = Some x' /\ sl_send_list x' = sl_send_list x /\
     sl_conn_list x' = sl_conn_list x /\ cached l w' = cached l w).
Proof.
  intros I HL. unfold env_do. destruct (mt_time_ms (nw_env w)) as [now e]. set (w1 := set_nw_env e w).
  assert (I1 : inv w1) by (by apply inv_env). apply (goes_env sess_rep ip_rep _ w e); [apply env_steady|]. fold w1.
  eapply goes_weaken; [apply (upd_link_goes sess_rep ip_rep l (set_last_access now) w1 I1 HL); intros y; by destruct y|]. cbv beta.
  intros w' _ (x & Hx & ->). change (link l w1) with (link l w) in Hx. split; [done|]. exists x, (set_last_access now x).
  split; [done|]. assert (Hl' : link l (set_links (<[l := set_last_access now x]> (nw_links w1)) w1) = Some (set_last_access now x))
    by (unfold link; nsimpl; apply lookup_insert_eq).
  split; [done|]. split; [done|]. split; [done|]. unfold cached. by rewrite Hl', Hx.
Qed.

Lemma events_goes l f g w : inv w -> live l w -> (forall x, f x = set_events (g (sl_events x)) x) ->
  goes (steady []) w (upd_link l f w) (fun w' => nw_items w' = nw_items w).
Proof.
  intros I HL Hf. eapply goes_weaken; [apply (upd_link_goes sess_rep ip_rep l f w I HL)|].
  - intros y. rewrite Hf. by destruct y.
  - cbv beta. by intros w' _ (x & _ & ->).
Qed.

Lemma SendData_goes w l x data len : NetEnvLaws rcvd sent -> inv w -> link l w = Some x -> sl_parents x <> None -> own_ok data len ->
  goes (steady []) w (SendData l data len w) (others_kept (sl_send_list x) w).
Proof.
  intros NL I Hl Hp Ho. assert (HL : live l w) by (by exists x). pose proof (touch_goes l w I HL) as Ht. unfold SendData, env_do in *.
  destruct (mt_time_ms (nw_env w)) as [now e]. eapply goes_bind; [apply _|exact Ht|]. cbv beta.
  intros w1 I1 S1 (EI & x0 & x1 & Hx0 & Hl1 & Esl & _). change (world_of w1) with w1 in *. rewrite Hl in Hx0. injection Hx0 as <-.
  assert (Hp1 : sl_parents x1 <> None).
  { destruct (st_link _ _ _ S1 l x Hl) as (x' & Hx' & Hpp & _). rewrite Hl1 in Hx'. injection Hx' as <-. congruence. }
  rewrite Hl1. cbn [mbind option_bind].
  eapply (goes_bind sess_rep ip_rep _ _ _ _ (others_kept (sl_send_list x) w)); [|].
  { destruct (sl_proto x1 =? NET_PROTO_UDP).
    - eapply goes_weaken; [by apply (SendCacheUdp_goes w1 l x1)|]. cbv beta. intros r _ Hk p Hpn. rewrite (Hk p) by (by rewrite Esl).
      unfold item. by rewrite EI.
    - eapply goes_weaken; [by apply (SendCacheTcp_goes w1 l x1)|]. cbv beta. intros r _ (n & Sh & _) p Hpn.
      rewrite (sf_others _ _ _ _ _ Sh) by (by rewrite Esl). unfold item. nsimpl. by rewrite EI. }
  intros [ret w2] I2 S2 Hk. cbn [fst snd world_of world_pair] in *. pose proof (live_steady _ _ _ _ S2 (ex_intro _ x1 (conj Hl1 Hp1))) as HL2.
  destruct HL2 as (x2 & Hl2 & Hp2). rewrite Hl2. cbn [mbind option_bind].
  assert (Hev : forall f g (ctl : EV -> bool * EV), (forall y, f y = set_events (g (sl_events y)) y) ->
    goes (steady []) w2 (w ← upd_link l f w2; (let '(_, w) := env_do ctl w in Some (ret, w))) (others_kept (sl_send_list x) w)).
  { intros f g ctl Hf. eapply goes_bind; [apply _|apply (events_goes l f g w2 I2); [by exists x2|exact Hf]|]. cbv beta. intros w3 I3 S3 EI3.
    change (world_of w3) with w3 in *. unfold env_do. destruct (ctl (nw_env w3)) as [b e3].
    apply (goes_env sess_rep ip_rep _ w3 e3); [apply env_steady|]. apply goes_ret; [apply _|done|by apply inv_env|].
    intros p Hpn. cbn [snd]. rewrite <- (Hk p Hpn). unfold item. nsimpl. by rewrite EI3. }
  destruct (ret <? i32 len); [apply (Hev _ (fun s => Z.lor s EPOLLOUT) (EpollCtrlAdd (sl_fd x2) EPOLLOUT))|
    apply (Hev _ (fun s => Z.ldiff s EPOLLOUT) (EpollCtrlDel (sl_fd x2) EPOLLOUT))]; done.
Qed.
End net.
