(* ===== verification/NetEvents.v ===== *)
(** * The network layer: events of a socket

    [InputNotify], [OutputNotify] and [HangupNotify] for a link in use. *)

From Stdlib Require Import ZArith Lia.
From stdpp Require Import base gmap list option fin_maps.
From S2P Require Import Prelude Bytes HashList KeyTable RwCache NetData NetOps NetMain NetInv NetQueues NetBlocks.
From S2P Require Import NetLinks NetDest NetStay NetSteps NetRecv NetGive NetFill NetDispatch NetSend.

Section net.
Context {EV TS TI : Type} `{!NetEnv EV, !KeyTable sess_key TS, !KeyTable dest_key TI}.
Context (sess_rep : (ptr -> sess_key) -> TS -> gmap sess_key ptr -> Prop) `{!KeyTableLaws sess_key TS sess_rep}.
Context (ip_rep : (ptr -> dest_key) -> TI -> gmap dest_key ptr -> Prop) `{!KeyTableLaws dest_key TI ip_rep}.
Context (rcvd sent : EV -> list Z) {NL : NetEnvLaws rcvd sent}.
Context (check_session : ptr -> list Z -> Z -> Z * Z * Z) `{!CallbackOk check_session}.

Abbreviation NetW := (NetW EV TS TI).
Abbreviation net_ok := (net_ok sess_rep ip_rep).
Abbreviation inv := (inv sess_rep ip_rep).
Abbreviation goes := (goes sess_rep ip_rep).
Abbreviation goes_unless := (goes_unless sess_rep ip_rep).
Implicit Types (w : NetW) (h l d t p : ptr) (X : list ptr).

(** Less than 2 GB wait in a cache after a call to [recv]. *)
Definition recv_fits l w : Prop := forall r w', recv_link l w = Some (r, w') ->
  blen (cached l w') < max_cached /\ forall x, link l w' = Some x -> Z.of_nat (length (rc_list (sl_cache x))) < max_cached.

Lemma recv_link_goes w l x : inv w -> link l w = Some x -> sl_parents x <> None -> recv_fits l w ->
  goes (steady []) w (recv_link l w) (fun r => nw_items r.2 = nw_items w /\
    exists new, cached l r.2 = cached l w ++ new /\ rcvd (nw_env r.2) = rcvd (nw_env w) ++ new).
Proof.
  intros I Hl Hp Hfit. pose proof I as [W _]. destruct (cache_facts sess_rep ip_rep w l x W Hl) as (Ec & _ & _ & _).
  pose proof (link_cache_rep sess_rep ip_rep None w l x W Hl (live_pool sess_rep ip_rep w l x W Hl Hp)) as HR. rewrite <- Ec in HR.
  assert (Hrun : exists r c' st' new, (if sl_proto x =? NET_PROTO_UDP then cache_udp_recv (Some (sl_cache x)) (sl_fd x) (cache_view (sl_proto x) w)
      else cache_tcp_recv (Some (sl_cache x)) (sl_fd x) (cache_view (sl_proto x) w)) = Some (r, Some c', st') /\
      keeps (rest_of l x w) (cache_view (sl_proto x) w) st' /\ rcvd (cs_env st') = rcvd (nw_env w) ++ new /\
      cache_rep (rest_of l x w) c' st' (cached l w ++ new)).
  { destruct (sl_proto x =? NET_PROTO_UDP).
    - destruct (udp_recv_loop_ok rcvd sent 100 (sl_fd x) 0 0 (sl_cache x) _ _ _ HR eq_refl) as (r & c' & st' & new & E & H1 & H2 & _ & H3 & _).
      exists r, c', st', new. unfold cache_udp_recv. rewrite E. done.
    - destruct (tcp_recv_loop_ok rcvd sent 100 (sl_fd x) 0 0 (sl_cache x) _ _ _ HR eq_refl) as (r & c' & st' & new & E & H1 & H2 & _ & H3 & _).
      exists r, c', st', new. unfold cache_tcp_recv. rewrite E. done. }
  destruct Hrun as (r & c' & st' & new & E & Hk & Hrc & HR'). set (w' := put_link l (set_cache c' x) (sl_proto x) st' w).
  assert (Er : recv_link l w = Some (r, w')).
  { unfold recv_link. rewrite Hl. cbn [mbind option_bind]. rewrite E. cbn [mbind option_bind default from_option id].
    assert (Hl' : link l (put_view (sl_proto x) st' w) = Some x) by (unfold put_view, link; destruct (sl_proto x =? NET_PROTO_TCP); exact Hl).
    rewrite (upd_link_eq l _ _ x Hl'). cbn [mbind option_bind]. do 2 f_equal. unfold w', put_link, put_view.
    by destruct (sl_proto x =? NET_PROTO_TCP). }
  rewrite Er. destruct (Hfit r w' Er) as [Hb Hc]. destruct (put_link_fields l (set_cache c' x) (sl_proto x) st' w) as (F1 & _ & _ & _ & _ & _ & _ & _ & _ & _ & F11 & _).
  fold w' in F1, F11. assert (Hc' : cached l w' = cached l w ++ new) by (unfold w'; rewrite cached_put_link; apply (cr_bytes _ _ _ _ HR')).
  assert (S : steady [] w w') by (by apply put_link_steady with x).
  exists (r, w'). split; [done|]. split.
  - apply (inv_steady _ _ w); [done| |done].
    apply (link_cache_step sess_rep ip_rep None w l x c' st' (cached l w ++ new)); try done.
    + apply (live_not_free sess_rep ip_rep); [done|by exists x].
    + by rewrite <- Hc'.
    + exact (Hc _ F11).
    + intros p b _ _ _ Hpre. rewrite <- Ec in Hpre. by apply prefix_app_r.
  - split; [done|]. cbn [snd]. split; [done|]. exists new. split; [done|]. rewrite <- Hrc. f_equal. unfold w', put_link, put_view.
    by destruct (sl_proto x =? NET_PROTO_TCP).
Qed.

(** The event begins with a look at the clock. *)
Definition touch l w : option NetW := let '(now, w) := env_do mt_time_ms w in upd_link l (set_last_access now) w.
Lemma touch_bind {A} l w (f : NetW -> option A) : (let '(now, w) := env_do mt_time_ms w in w ← upd_link l (set_last_access now) w; f w) =
  (touch l w ≫= f).
Proof. unfold touch, env_do. by destruct (mt_time_ms (nw_env w)). Qed.
Definition input_fits l w : Prop := forall w1, touch l w = Some w1 -> recv_fits l w1.

(** A link that failed is destroyed with an error. *)
Lemma fail_goes {A} l v (r : A) w : inv w -> live l w ->
  goes (stays []) w (w ← upd_link l (set_errno v) w; w ← Destroy l w; Some (r, w)) (fun _ => True).
Proof.
  intros I HL. eapply goes_bind_stays; [apply (upd_link_goes sess_rep ip_rep l (set_errno v) w I HL); intros y; by destruct y|].
  intros w1 I1 S1 _. change (world_of w1) with w1 in *.
  eapply goes_bind; [apply _|apply (Destroy_goes sess_rep ip_rep rcvd sent l w1 I1 (live_steady _ _ _ _ S1 HL))|].
  cbv beta. intros w2 I2 S2 _. by apply goes_ret; [apply _|..].
Qed.
Lemma destroy_ret_goes {A} l (r : A) w : inv w -> live l w -> goes (stays []) w (w ← Destroy l w; Some (r, w)) (fun _ => True).
Proof.
  intros I HL. eapply goes_bind; [apply _|by apply (Destroy_goes sess_rep ip_rep rcvd sent l w)|].
  cbv beta. intros w2 I2 S2 _. by apply goes_ret; [apply _|..].
Qed.

Lemma InputNotify_goes l w : inv w -> live l w -> input_fits l w ->
  goes_unless (~ malloc_total (E := EV)) (stays []) w (InputNotify check_session l w) (fun _ => True).
Proof.
  intros I HL Hfit. unfold InputNotify. rewrite touch_bind. pose proof (touch_goes sess_rep ip_rep l w I HL) as Ht. fold (touch l w) in Ht.
  assert (Ht' : goes (steady []) w (touch l w) (fun w1 => touch l w = Some w1)).
  { destruct Ht as (w1 & E1 & I1 & S1 & _). by exists w1. }
  eapply unless_bind_stays; [exact Ht'|]. intros w1 I1 S1 E1. change (world_of w1) with w1 in *. pose proof (live_steady _ _ _ _ S1 HL) as HL1.
  pose proof HL1 as (x1 & Hl1 & Hp1). eapply unless_bind_stays; [by apply (recv_link_goes w1 l x1 I1 Hl1 Hp1), Hfit|]. intros [ret w2] I2 S2 _.
  cbn [world_of world_pair snd] in *. pose proof (live_steady _ _ _ _ S2 HL1) as HL2. destruct (ret <? 0); [by apply unless_goes, fail_goes|].
  pose proof HL2 as (x2 & Hl2 & Hp2).
  eapply unless_then_stays; [by apply (RecvDispath_goes sess_rep ip_rep rcvd sent check_session w2 l x2)|]. intros [r w3] I3 S3 _.
  cbn [world_of world_pair snd] in *. pose proof (live_steady _ _ _ _ S3 HL2) as HL3.
  destruct (r <? 0); [by apply destroy_ret_goes|by apply goes_ret; [apply _|..]].
Qed.

(** ** [OutputNotify] *)

Lemma foreach_idle_goes q w : inv w -> (forall h, h ∈ q -> is_Some (item h w)) -> goes (steady []) w (foreach notify_idle q w) (fun _ => True).
Proof.
  revert w. induction q as [|h q IH]; intros w I Hq; [by apply goes_ret; [apply _|..]|]. destruct (Hq h ltac:(by left)) as [i Hi].
  cbn [foreach]. eapply goes_bind; [apply _|by apply (idle_goes sess_rep ip_rep h i w)|]. cbv beta. intros w1 I1 S1 _. change (world_of w1) with w1 in *.
  apply (IH w1 I1). intros p Hp. apply (sy_dom _ _ _ (st_stays _ _ _ S1)). apply Hq. by right.
Qed.
Lemma connect_done_goes l w : inv w -> live l w -> goes (steady []) w (connect_done l w) (fun _ => True).
Proof.
  intros I HL. pose proof HL as (x & Hl & Hp). unfold connect_done. rewrite Hl. cbn [mbind option_bind].
  destruct (_ =? 0); [by apply goes_ret; [apply _|..]|].
  eapply goes_bind; [apply _|apply (upd_link_goes sess_rep ip_rep l _ w I HL); intros y; by destruct y|]. cbv beta. intros w1 I1 S1 _.
  change (world_of w1) with w1 in *. apply (foreach_idle_goes _ w1 I1). intros h Hh. apply (sy_dom _ _ _ (st_stays _ _ _ S1)).
  by apply (queue_items sess_rep ip_rep None w l x QConn h (proj1 I) Hl).
Qed.

Lemma OutputNotify_goes l w : inv w -> live l w -> goes (stays []) w (OutputNotify l w) (fun _ => True).
Proof.
  intros I HL. unfold OutputNotify. rewrite touch_bind. pose proof (touch_goes sess_rep ip_rep l w I HL) as Ht. fold (touch l w) in Ht.
  eapply goes_bind_stays; [exact Ht|]. cbv beta. intros w1 I1 S1 _. change (world_of w1) with w1 in *. pose proof (live_steady _ _ _ _ S1 HL) as HL1.
  eapply goes_bind_stays; [by apply connect_done_goes|]. cbv beta. intros w2 I2 S2 _. change (world_of w2) with w2 in *.
  pose proof (live_steady _ _ _ _ S2 HL1) as HL2. pose proof HL2 as (x2 & Hl2 & Hp2). rewrite Hl2. cbn [mbind option_bind].
  eapply (goes_bind_stays sess_rep ip_rep _ _ _ _ (fun _ => True)).
  { destruct (sl_proto x2 =? NET_PROTO_UDP).
    - eapply goes_weaken; [by apply (SendCacheUdp_goes sess_rep ip_rep w2 l x2)|done].
    - eapply goes_weaken; [by apply (SendCacheTcp_goes sess_rep ip_rep rcvd sent w2 l x2)|done]. }
  intros [ret w3] I3 S3 _. cbn [world_of world_pair snd] in *. pose proof (live_steady _ _ _ _ S3 HL2) as HL3.
  destruct (ret <? 0); [by apply fail_goes|]. pose proof HL3 as (x3 & Hl3 & Hp3). rewrite Hl3. cbn [mbind option_bind].
  destruct (sl_send_list x3); [|by apply goes_ret; [apply _|..]].
  eapply goes_bind_stays; [apply (events_goes sess_rep ip_rep l _ (fun s => Z.ldiff s EPOLLOUT) w3 I3 HL3); done|]. cbv beta. intros w4 I4 S4 _.
  change (world_of w4) with w4 in *. unfold env_do. destruct (EpollCtrlDel _ _ _) as [b e].
  apply (goes_env sess_rep ip_rep _ w4 e); [apply (env_steady [])|]. apply goes_ret; [apply _|done|by apply inv_env|done].
Qed.

Lemma HangupNotify_goes l w : inv w -> live l w -> goes (stays []) w (HangupNotify l w) (fun _ => True).
Proof. intros I HL. unfold HangupNotify. by apply fail_goes. Qed.
End net.
