(* ===== verification/NetSess.v ===== *)
(** * The network layer: sessions and the life of a handler

    [RegistSession] puts a handler under its key into the table of sessions,
    [UnRegistSession] takes it out; [CNetHandler::Reset] leaves it unlinked, unregistered
    and without an answer, as the pool of handlers wants it. *)

From Stdlib Require Import ZArith Lia.
From stdpp Require Import base gmap list option fin_maps.
From S2P Require Import Prelude Bytes HashList KeyTable RwCache NetData NetOps NetMain NetInv NetQueues NetBlocks.
From S2P Require Import NetLinks NetDest NetStay NetSteps NetRecv NetGive NetFill NetDispatch.

(** ** The table of sessions *)

Section sess.
Context {TS : Type} `{!KeyTable sess_key TS}.
Context (sess_rep : (ptr -> sess_key) -> TS -> gmap sess_key ptr -> Prop) `{!KeyTableLaws sess_key TS sess_rep}.
Abbreviation sess_ok := (sess_ok sess_rep).
Implicit Types (I : gmap ptr item_view) (h : ptr).

Lemma key_of_insert I h x y p : I !! h = Some x -> iv_key y = iv_key x -> key_of_item (<[h := y]> I) p = key_of_item I p.
Proof. intros Hh Hk. apply key_of_item_same. by eapply fmap_insert_same. Qed.

Lemma sess_ok_insert I t M h x y kf : sess_ok I t M -> I !! h = Some x -> iv_key y = iv_key x -> registered y = true ->
  M !! iv_key x = None -> (forall p, kf p = key_of_item I p) ->
  exists t', kt_insert kf t h = (0, t') /\ sess_ok (<[h := y]> I) t' (<[iv_key x := h]> M).
Proof.
  intros [H1 H2 H3] Hh Hk Hr HM Hkf. assert (Hkh : kf h = iv_key x) by (rewrite Hkf; unfold key_of_item; by rewrite Hh).
  destruct (kt_insert_ok kf t M h) as (t' & E & R).
  { eapply kt_agree; [exact H1|]. intros k p _. apply Hkf. }
  { by rewrite Hkh. }
  rewrite Hkh in R. exists t'. split; [done|]. split.
  - eapply kt_agree; [exact R|]. intros k p _. rewrite Hkf. by eapply key_of_insert.
  - intros k p. rewrite lookup_insert_Some. intros [[<- <-]|[Hne Hp]].
    + exists y. rewrite lookup_insert_eq. by rewrite Hk.
    + destruct (H2 k p Hp) as (z & Hz & Hrz & Hkz). destruct (decide (p = h)) as [->|Hp'].
      * rewrite Hh in Hz. injection Hz as <-. congruence.
      * exists z. by rewrite lookup_insert_ne.
  - intros p z. rewrite lookup_insert_Some. intros [[<- <-]|[Hne Hz]] Hrz; [by rewrite Hk, lookup_insert_eq|].
    specialize (H3 p z Hz Hrz). rewrite lookup_insert_ne; [done|]. intros E'. rewrite E' in HM. congruence.
Qed.
Lemma sess_ok_remove I t M h x y kf : sess_ok I t M -> I !! h = Some x -> iv_key y = iv_key x -> registered x = true -> registered y = false ->
  (forall p, kf p = key_of_item I p) -> exists t', kt_remove kf t (iv_key x) = Some t' /\ sess_ok (<[h := y]> I) t' (delete (iv_key x) M).
Proof.
  intros [H1 H2 H3] Hh Hk Hr Hr' Hkf. pose proof (H3 h x Hh Hr) as HM. destruct (kt_remove_ok kf t M (iv_key x)) as (t' & E & R).
  { eapply kt_agree; [exact H1|]. intros k p _. apply Hkf. }
  exists t'. split; [done|]. split.
  - eapply kt_agree; [exact R|]. intros k p _. rewrite Hkf. by eapply key_of_insert.
  - intros k p [Hne Hp]%lookup_delete_Some. destruct (H2 k p Hp) as (z & Hz & Hrz & Hkz). exists z. rewrite lookup_insert_ne; [done|].
    intros <-. rewrite Hh in Hz. by injection Hz as <-.
  - intros p z. rewrite lookup_insert_Some. intros [[<- <-]|[Hne Hz]] Hrz; [congruence|]. specialize (H3 p z Hz Hrz).
    rewrite lookup_delete_ne; [done|]. intros E'. rewrite E' in HM. congruence.
Qed.

(** A handler that is not registered may change or go. *)
Lemma sess_ok_other I I' t M : sess_ok I t M -> (forall p x, I' !! p = Some x -> I !! p = Some x \/ registered x = false) ->
  (forall p x, I !! p = Some x -> registered x = true -> I' !! p = Some x) -> sess_ok I' t M.
Proof.
  intros [H1 H2 H3] Ha Hb.
  assert (Hin : forall k p, M !! k = Some p -> exists x, I !! p = Some x /\ I' !! p = Some x /\ registered x = true /\ iv_key x = k).
  { intros k p Hp. destruct (H2 k p Hp) as (x & Hx & Hr & Hk). exists x. split_and!; try done. by apply Hb. }
  split.
  - eapply kt_agree; [exact H1|]. intros k p Hp. destruct (Hin k p Hp) as (x & Hx & Hx' & _). unfold key_of_item. by rewrite Hx, Hx'.
  - intros k p Hp. destruct (Hin k p Hp) as (x & _ & Hx & R). by exists x.
  - intros p x Hx Hr. destruct (Ha p x Hx) as [Hx'|Hx']; [by apply H3|congruence].
Qed.
End sess.

(** ** The queues, when a handler is registered or not *)

Lemma queues_ok_session I L free h x y s s' q : queues_ok I L free -> I !! h = Some x -> h ∉ free ->
  iv_state x = mkstate s q -> iv_state y = mkstate s' q -> iv_conn y = iv_conn x -> iv_linked y = iv_linked x ->
  queues_ok (<[h := y]> I) L free.
Proof.
  intros [H1 H2 H3 H4 H5] Hh Hf Hs Hs' Hc Hl. split; try done.
  - intros p z. rewrite lookup_insert_Some. intros [[<- <-]|[_ Hz]]; [|by apply H1]. exists s'. rewrite Hc, Hl, Hs'.
    destruct (H1 h x Hh) as (s0 & [(A1 & A2 & A3)|(l & q0 & z & A1 & A2 & A3 & A4 & A5 & A6)]); rewrite Hs in A2; apply mkstate_inj in A2 as [-> ->].
    + by left.
    + right. by exists l, q0, z.
  - intros l z q0 p Hz Hp. destruct (H2 l z q0 p Hz Hp) as (i & s0 & Hi & Hci & Hsi). destruct (decide (p = h)) as [->|Hne].
    + rewrite Hh in Hi. injection Hi as <-. exists y, s'. rewrite lookup_insert_eq. rewrite Hs in Hsi. apply mkstate_inj in Hsi as [_ ->].
      split_and!; congruence.
    + exists i, s0. by rewrite lookup_insert_ne.
  - intros p Hp. rewrite lookup_insert_ne by (by intros ->). by apply H5.
Qed.

Lemma state_form I L free h x : queues_ok I L free -> I !! h = Some x -> exists s q, iv_state x = mkstate s q.
Proof.
  intros Q Hh. destruct (qo_item _ _ _ Q h x Hh) as (s & [(_ & -> & _)|(l & q & _ & _ & -> & _)]); [by exists s, None|by exists s, (Some q)].
Qed.
Lemma lor_session s q : Z.lor (mkstate s q) STATE_IN_SESSION = mkstate true q.
Proof. by destruct s, q as [[]|]. Qed.
Lemma ldiff_session s q : Z.ldiff (mkstate s q) STATE_IN_SESSION = mkstate false q.
Proof. by destruct s, q as [[]|]. Qed.
Lemma land_session s q : (Z.land (mkstate s q) STATE_IN_SESSION =? 0) = negb s.
Proof. by destruct s, q as [[]|]. Qed.

Section net.
Context {EV TS TI : Type} `{!NetEnv EV, !KeyTable sess_key TS, !KeyTable dest_key TI}.
Context (sess_rep : (ptr -> sess_key) -> TS -> gmap sess_key ptr -> Prop) `{!KeyTableLaws sess_key TS sess_rep}.
Context (ip_rep : (ptr -> dest_key) -> TI -> gmap dest_key ptr -> Prop) `{!KeyTableLaws dest_key TI ip_rep}.

Abbreviation NetW := (NetW EV TS TI).
Abbreviation net_ok := (net_ok sess_rep ip_rep).
Abbreviation inv := (inv sess_rep ip_rep).
Abbreviation goes := (goes sess_rep ip_rep).
Implicit Types (w : NetW) (h l d t p : ptr) (X : list ptr).

(** ** A handler changes, with the table *)

Definition own_world h (y : CNetHandler) (tab : TS) w : NetW := set_sess tab (set_items (<[h := y]> (nw_items w)) w).
Definition own_change h (y : CNetHandler) w w' : Prop := exists tab, w' = own_world h y tab w.

Lemma own_steady h x y w w' : item h w = Some x -> own_change h y w w' -> steady [h] w w'.
Proof.
  intros Hh [tab ->]. split; [split|].
  - intros p Hp. apply not_elem_of_cons in Hp as [Hp _]. unfold item, own_world. nsimpl. rewrite lookup_insert_ne by done.
    unfold option_relation. by destruct (nw_items w !! p).
  - intros p. unfold item, own_world in *. nsimpl. rewrite lookup_insert. case_decide; [subst; by rewrite Hh|done].
  - done.
  - done.
  - done.
  - intros l z Hz. by exists z.
Qed.
(** The handlers in [X] are the caller's. *)
Lemma inv_own X w w' : inv w -> net_ok None w' -> stays X w w' -> (forall p x, p ∈ X -> item p w' = Some x -> req_ok x) -> inv w'.
Proof. intros [_ H] W S HX. split; [done|]. by eapply reqs_ok_stays. Qed.

Lemma own_ok_change w h x y s s' q tab M : net_ok None w -> item h w = Some x -> (h ∉ rp_free_list (nw_item_pool w)) ->
  nh_state x = mkstate s q -> nh_state y = mkstate s' q -> nh_conn y = nh_conn x -> nh_linked y = nh_linked x -> nh_rsp y = nh_rsp x ->
  sess_ok sess_rep (<[h := item_v y]> (v_items (view_of w))) tab M -> net_ok None (own_world h y tab w).
Proof.
  intros [Hq Hl Hs Hd Hb] Hh Hf Sx Sy Ec Ek Er HM. pose proof (view_item _ _ _ Hh) as Vh.
  assert (VI : v_items (view_of (own_world h y tab w)) = <[h := item_v y]> (v_items (view_of w))) by (unfold own_world; cbn; by rewrite fmap_insert).
  split; [rewrite VI|done|rewrite VI; by exists M|done|].
  - by eapply (queues_ok_session _ _ _ h (item_v x)).
  - eapply blocks_ok_same; [|..|exact Hb]; try done.
    + rewrite VI. eapply fmap_insert_same; [exact Vh|]. unfold item_blocks. cbn. by rewrite Er.
    + intros l z Hz. exists z, (lv_queues z). split; [exact Hz|]. by destruct z.
Qed.

Lemma handler_state w h x : net_ok None w -> item h w = Some x -> exists s q, nh_state x = mkstate s q.
Proof. intros W Hh. exact (state_form _ _ _ h (item_v x) (wf_queues _ _ _ _ W) (view_item _ _ _ Hh)). Qed.

(** ** [RegistSession] and [UnRegistSession] *)

Definition registered_item t (x : CNetHandler) : CNetHandler := set_state (Z.lor (nh_state x) STATE_IN_SESSION) (set_thread (Some t) x).
Definition unregistered_item (x : CNetHandler) : CNetHandler := set_state (Z.ldiff (nh_state x) STATE_IN_SESSION) x.

Lemma item_key_insert w h x y : item h w = Some x -> handler_key y = handler_key x ->
  forall p, item_key (set_items (<[h := y]> (nw_items w)) w) p = key_of_item (v_items (view_of w)) p.
Proof.
  intros Hh Hk p. rewrite item_key_view. cbn [v_items view_of nw_items set_items]. rewrite fmap_insert. apply key_of_insert with (item_v x); [|exact Hk].
  exact (view_item _ _ _ Hh).
Qed.

Lemma own_goes {A} (a : A) w h x y s s' q tab M : inv w -> item h w = Some x -> (h ∉ rp_free_list (nw_item_pool w)) ->
  nh_state x = mkstate s q -> nh_state y = mkstate s' q -> nh_conn y = nh_conn x -> nh_linked y = nh_linked x -> nh_rsp y = nh_rsp x ->
  nh_req_data y = nh_req_data x -> nh_req_len y = nh_req_len x ->
  sess_ok sess_rep (<[h := item_v y]> (v_items (view_of w))) tab M ->
  goes (steady [h]) w (Some (a, own_world h y tab w)) (fun r => r.1 = a /\ own_change h y w r.2).
Proof.
  intros [W R] Hh Hf Sx Sy Ec Ek Er Ed El HM. assert (O : own_change h y w (own_world h y tab w)) by (by exists tab).
  assert (S : steady [h] w (own_world h y tab w)) by (by eapply own_steady).
  exists (a, own_world h y tab w). split; [done|]. split; [|by split].
  apply (inv_own [h] w); [done|by apply (own_ok_change w h x y s s' q tab M)|apply S|].
  cbn [world_of world_pair snd]. intros p z ->%list_elem_of_singleton. unfold item, own_world. nsimpl. rewrite lookup_insert_eq. intros [= <-] Hc.
  rewrite Ed, El. apply (R h x Hh). congruence.
Qed.

Lemma RegistSession_goes t h x w : inv w -> item h w = Some x -> (h ∉ rp_free_list (nw_item_pool w)) ->
  goes (steady [h]) w (RegistSession t h w) (fun r => if r.1 : bool then FindNetItem (handler_key x) w = Some None /\ own_change h (registered_item t x) w r.2
    else r.2 = w /\ exists h', FindNetItem (handler_key x) w = Some (Some h')).
Proof.
  intros I Hh Hf. pose proof I as [W _]. destruct (handler_state w h x W Hh) as (s & q & Hs). unfold RegistSession. rewrite Hh. cbn [mbind option_bind].
  destruct (wf_sess _ _ _ _ W) as [M HM]. rewrite (sess_find sess_rep w M _ HM). cbn [mbind option_bind].
  destruct (M !! handler_key x) as [h'|] eqn:EM.
  { apply goes_ret; [apply _|done|done|]. cbn [fst snd]. split; [done|]. exists h'. done. }
  pose proof (view_item _ _ _ Hh) as Vh.
  rewrite (upd_item_eq h _ w x Hh). cbn [mbind option_bind]. set (w1 := set_items _ w).
  destruct (sess_ok_insert sess_rep _ (nw_sess w) M h (item_v x) (item_v (registered_item t x)) (item_key w1) HM Vh eq_refl) as (tab & E & HM').
  { unfold registered. cbn. rewrite Hs, lor_session. by apply registered_mkstate. }
  { done. }
  { intros p. by apply (item_key_insert w h x). }
  unfold InsertNetItem. change (nw_sess w1) with (nw_sess w). rewrite E. cbn [snd].
  assert (Hh1 : item h (set_sess tab w1) = Some (set_thread (Some t) x)) by (unfold item, w1; nsimpl; apply lookup_insert_eq).
  rewrite (upd_item_eq h _ _ _ Hh1). cbn [mbind option_bind].
  assert (Ew : set_items (<[h := set_state (Z.lor (nh_state (set_thread (Some t) x)) STATE_IN_SESSION) (set_thread (Some t) x)]>
    (nw_items (set_sess tab w1))) (set_sess tab w1) = own_world h (registered_item t x) tab w).
  { unfold own_world, w1. nsimpl. by rewrite insert_insert_eq. }
  rewrite Ew. eapply goes_weaken; [by eapply (own_goes true w h x (registered_item t x) s true q tab _ I Hh Hf Hs); [cbn; rewrite Hs; apply lor_session|..]|].
  intros [b w'] _ [-> HO]. cbn [fst snd] in *. done.
Qed.

Lemma UnRegistSession_goes h x w : inv w -> item h w = Some x -> (h ∉ rp_free_list (nw_item_pool w)) ->
  goes (steady [h]) w (UnRegistSession h w) (own_change h (unregistered_item x) w).
Proof.
  intros I Hh Hf. pose proof I as [W _]. destruct (handler_state w h x W Hh) as (s & q & Hs). unfold UnRegistSession. rewrite Hh. cbn [mbind option_bind].
  rewrite Hs, land_session. pose proof (view_item _ _ _ Hh) as Vh. destruct s; cbn [negb].
  - destruct (wf_sess _ _ _ _ W) as [M HM]. unfold RemoveNetItem.
    assert (Hk : item_key w h = handler_key x) by (unfold item_key; unfold item in Hh; by rewrite Hh).
    assert (Hr : registered (item_v x) = true) by (unfold registered; cbn; rewrite Hs; apply registered_mkstate).
    rewrite (sess_find sess_rep w M _ HM), Hk. cbn [mbind option_bind]. rewrite (se_reg _ _ _ _ HM h (item_v x) Vh Hr : M !! handler_key x = Some h).
    rewrite Hk. destruct (sess_ok_remove sess_rep _ (nw_sess w) M h (item_v x) (item_v (unregistered_item x)) (item_key w) HM Vh eq_refl Hr)
      as (tab & E & HM').
    { unfold registered. cbn. rewrite Hs, ldiff_session. apply registered_mkstate. }
    { intros p. apply item_key_view. }
    change (iv_key (item_v x)) with (handler_key x) in E. rewrite E. cbn [mbind option_bind].
    assert (Hh1 : item h (set_sess tab w) = Some x) by exact Hh. rewrite (upd_item_eq h _ _ x Hh1).
    destruct (own_goes tt w h x (unregistered_item x) true false q tab (delete (iv_key (item_v x)) M) I Hh Hf Hs)
      as ([u w'] & E' & I' & S' & _ & O'); try done.
    { cbn. rewrite Hs. apply ldiff_session. }
    injection E' as <- Ew. exists w'. split; [by rewrite <- Ew|]. done.
  - assert (Ey : unregistered_item x = x) by (unfold unregistered_item; rewrite Hs, ldiff_session, <- Hs; by destruct x).
    apply goes_ret; [apply _|done|done|]. exists (nw_sess w). unfold own_world. rewrite Ey. unfold item in Hh. rewrite insert_id by done. by destruct w.
Qed.
End net.
