(* ===== verification/NetReq.v ===== *)
(** * The network layer: requests

    [SendRecv] from its call to its return, cut at the waits of the thread: the handler
    gets a link ([GetConnLink]), waits until it is connected, until its request is sent
    and until the answer came, and leaves the link and the table of sessions on every
    way out. *)

From Stdlib Require Import ZArith Lia.
From stdpp Require Import base gmap list option fin_maps.
From S2P Require Import Prelude Bytes HashList KeyTable RwCache NetData NetOps NetMain NetInv NetQueues NetBlocks.
From S2P Require Import NetLinks NetDest NetLease NetStay NetSteps NetRecv NetGive NetFill NetDispatch NetSend.
From S2P Require Import NetEvents NetSess.

(** A request that can be sent. *)
Definition ready (x : CNetHandler) : Prop :=
  exists data, nh_req_data x = Some data /\ 0 <= nh_req_len x <= blen data /\ nh_req_len x < 2 ^ 32.

Section world.
Context {EV TS TI : Type}.
Abbreviation NetW := (NetW EV TS TI).
Implicit Types (w : NetW) (h l d t p : ptr).

(** A handler outside of any request; one that is in no queue but the idle one. *)
Definition parked h w : Prop := exists x, item h w = Some x /\ nh_conn x = None /\ nh_state x = 0.
Definition settled h w : Prop := exists x, item h w = Some x /\ (nh_conn x = None \/ exists s, nh_state x = mkstate s (Some QIdle)).
(** The link that is waited for exists. *)
Definition pc_link (pc : sr_pc) w : Prop := match pc_phase pc with InConnect conn => is_Some (link conn w) | _ => True end.
Definition pc_ok (pc : sr_pc) w : Prop := is_Some (item (pc_handler pc) w) /\ pc_link pc w.
(** The link was deleted during the wait, and [WaitConnect] will look at it, because the
    handler has no error code. *)
Definition lost_link (pc : sr_pc) w : Prop := exists conn x, pc_phase pc = InConnect conn /\ link conn w = None /\
  item (pc_handler pc) w = Some x /\ nh_err x = 0.

Lemma settled_same h w w' : item h w' = item h w -> settled h w -> settled h w'.
Proof. unfold settled. by intros ->. Qed.
Lemma stays_handlers X w w' : same_handlers w w' -> (forall l, is_Some (link l w) -> is_Some (link l w')) -> stays X w w'.
Proof.
  intros [EI _ _ EP [E1 E2]] HL. split; [|intros p; unfold item; by rewrite EI|by rewrite EP|done|by rewrite E1, E2].
  intros p _. unfold item, option_relation. rewrite EI. by destruct (nw_items w !! p).
Qed.
Lemma moved_stays w w' h l q : moved w h l q w' -> stays [h] w w'.
Proof.
  intros [Q (x & x' & y & y' & s & q0 & Hh & Hs & Hl & Ex & Ey & ->)]. split.
  - intros p Hp. apply not_elem_of_cons in Hp as [Hp _]. unfold item, put2. nsimpl. rewrite lookup_insert_ne by done.
    unfold option_relation. by destruct (nw_items w !! p).
  - intros p. unfold item, put2 in *. nsimpl. rewrite lookup_insert. case_decide; [subst; by rewrite Hh|done].
  - done.
  - intros p [z Hz]. unfold link, put2 in *. nsimpl. rewrite lookup_insert. case_decide; [done|by exists z].
  - done.
Qed.
Lemma moved_idle w w' h l : moved w h l QIdle w' -> settled h w'.
Proof.
  intros [Q (x & x' & y & y' & s & q0 & Hh & Hs & Hl & -> & Ey & ->)]. eexists. split; [apply put2_item|]. right. by exists s.
Qed.
End world.

Section net.
Context {EV TS TI : Type} `{!NetEnv EV, !KeyTable sess_key TS, !KeyTable dest_key TI}.
Context (sess_rep : (ptr -> sess_key) -> TS -> gmap sess_key ptr -> Prop) `{!KeyTableLaws sess_key TS sess_rep}.
Context (ip_rep : (ptr -> dest_key) -> TI -> gmap dest_key ptr -> Prop) `{!KeyTableLaws dest_key TI ip_rep}.
Context (rcvd sent : EV -> list Z) {NL : NetEnvLaws rcvd sent}.

Abbreviation NetW := (NetW EV TS TI).
Abbreviation net_ok := (net_ok sess_rep ip_rep).
Abbreviation inv := (inv sess_rep ip_rep).
Abbreviation goes := (goes sess_rep ip_rep).
Implicit Types (w : NetW) (h l d t p : ptr) (X : list ptr).

(** The link of a handler is in use. *)
Lemma conn_live w h x l : inv w -> item h w = Some x -> nh_conn x = Some l -> live l w.
Proof.
  intros [W _] Hh Hc. destruct (net_queued sess_rep ip_rep None w h x l W Hh Hc) as (s & q & y & _ & _ & _ & Hl & _ & Hf).
  exists y. split; [done|]. destruct (net_link_owner sess_rep ip_rep w l y W Hl) as [_ Ho]. by destruct (sl_parents y).
Qed.

(** ** [GetConnLink] *)

Lemma GetConnLink_goes w h x : inv w -> item h w = Some x -> (h ∉ rp_free_list (nw_item_pool w)) -> nh_conn x = None -> ready x ->
  goes (stays [h]) w (GetConnLink h w) (fun r => r.1 = 0 /\ settled h r.2).
Proof.
  intros I Hh Hf Hc Hr. pose proof I as [W R]. unfold GetConnLink. rewrite Hh. cbn [mbind option_bind].
  destruct (FindCreateDest_ok sess_rep ip_rep w (nh_ip x, nh_port x, nh_proto x, nh_conn_type x) W) as (d & w1 & -> & W1 & [D1 D2 _ (y & Hd & Hlk & _)]).
  cbn [mbind option_bind]. destruct (GetSockLink_ok sess_rep ip_rep w1 d y W1 Hd Hlk) as (l & w2 & -> & W2 & G). cbn [mbind option_bind].
  pose proof G as [G1 _ G3 (y' & _ & _ & Gl)].
  assert (Hl2 : exists z, link l w2 = Some z /\ (l ∉ rp_free_list (nw_link_pool w2))).
  { destruct Gl as [(_ & _ & _ & _ & z & Hz & Fz)|(_ & q & Eq & _ & _ & EL & EP)].
    - exists z. split; [done|]. destruct (net_link_owner sess_rep ip_rep w2 l z W2 Hz) as [_ Ho].
      destruct Fz as (_ & _ & _ & _ & _ & _ & _ & Hp & _). rewrite Hp in Ho. apply Ho.
    - destruct (lo_sock _ _ _ _ (wf_links _ _ _ _ W1) d (dest_v y) l (view_dest _ _ _ Hd)) as (v & Hv & Hpv); [cbn; rewrite Eq; by left|].
      destruct (view_link_inv _ _ _ Hv) as (z & Hz & ->). exists z. unfold link in *. rewrite EL, EP. split; [done|].
      destruct (net_link_owner sess_rep ip_rep w1 l z W1 Hz) as [_ Ho]. cbn in Hpv. rewrite Hpv in Ho. apply Ho. }
  destruct Hl2 as (z & Hz & Hlf).
  assert (Hh2 : item h w2 = Some x) by (unfold item; by rewrite (sh_items _ _ G1), (sh_items _ _ D1)).
  destruct (net_detached sess_rep ip_rep None w h x W Hh Hc) as (s & Hs & Hk & _). rewrite bool_decide_false in Hk by done.
  destruct (Link_ok sess_rep ip_rep None w2 h x l z W2 Hh2 Hc Hk Hz Hlf) as (w3 & -> & W3 & Mv). cbn [mbind option_bind].
  assert (S : stays [h] w w3).
  { transitivity w1; [apply stays_handlers; [done|]; destruct D2 as [D2 _]; unfold link; by rewrite D2|].
    transitivity w2; [|by eapply moved_stays]. apply stays_handlers; [done|]. intros l' [u Hu].
    destruct (decide (l' = l)) as [->|Hne]; [by exists z|]. exists u. unfold link in *.
    rewrite <- (lookup_delete_ne (nw_links w2) l l'), G3, lookup_delete_ne; done. }
  exists (0, w3). split; [done|]. split; [|split; [done|split; [done|by eapply moved_idle]]]. cbn [world_of world_pair snd].
  apply (inv_own sess_rep ip_rep [h] w); try done. intros p u ->%list_elem_of_singleton Hu _. destruct Mv as [Q _].
  destruct (queues_only_item _ _ _ _ Q Hh2) as (u' & Hu' & Su). rewrite Hu in Hu'. injection Hu' as <-.
  destruct Hr as (data & E1 & E2 & E3). exists data.
  apply (f_equal (fun v => (nh_req_data v, nh_req_len v))) in Su.
  change ((nh_req_data u, nh_req_len u) = (nh_req_data x, nh_req_len x)) in Su. by injection Su as -> ->.
Qed.

(** ** [CreateSock] and [Connect] *)

(** Changes of a link in use that no handler notices. *)
Definition same_items w (r : Z * NetW) : Prop := nw_items r.2 = nw_items w.
Lemma field_goes l f w : inv w -> live l w ->
  (forall x, link_q (f x) = link_q x /\ sl_parents (f x) = sl_parents x /\ sl_linked (f x) = sl_linked x /\
     sl_cache (f x) = sl_cache x /\ sl_rsp (f x) = sl_rsp x /\ sl_proto (f x) = sl_proto x) ->
  goes (steady []) w (upd_link l f w) (fun w' => nw_items w' = nw_items w /\ live l w').
Proof.
  intros I HL Hf. eapply goes_weaken; [by apply (upd_link_goes sess_rep ip_rep l f w I HL)|]. cbv beta. intros w' S (x & _ & ->).
  split; [done|]. by eapply live_steady.
Qed.
Lemma field_ret_goes l f e (a : Z) w : inv w -> live l w ->
  (forall x, link_q (f x) = link_q x /\ sl_parents (f x) = sl_parents x /\ sl_linked (f x) = sl_linked x /\
     sl_cache (f x) = sl_cache x /\ sl_rsp (f x) = sl_rsp x /\ sl_proto (f x) = sl_proto x) ->
  goes (steady []) w (w ← upd_link l f (set_nw_env e w); Some (a, w)) (same_items w).
Proof.
  intros I HL Hf. assert (I1 : inv (set_nw_env e w)) by (by apply inv_env). apply (goes_env sess_rep ip_rep _ w e); [apply env_steady|].
  eapply goes_bind; [apply _|by apply (field_goes l f (set_nw_env e w))|]. cbv beta. intros w1 I1' S1 [E1 _]. change (world_of w1) with w1 in *.
  by apply goes_ret; [apply _|..].
Qed.

Lemma CreateSock_goes l w : inv w -> live l w -> goes (steady []) w (CreateSock l w) (same_items w).
Proof.
  intros I HL. pose proof HL as (x & Hl & Hp). unfold CreateSock, env_do. rewrite Hl. cbn [mbind option_bind].
  destruct (0 <? sl_fd x); [by apply goes_ret; [apply _|..]|]. destruct (sys_socket _ _) as [fd e1].
  set (w1 := set_nw_env e1 w). assert (I1 : inv w1) by (by apply inv_env). apply (goes_env sess_rep ip_rep _ w e1); [apply env_steady|]. fold w1.
  eapply goes_bind; [apply _|apply (field_goes l (set_fd fd) w1 I1 HL); intros y; by destruct y|]. cbv beta. intros w2 I2 S2 [E2 L2].
  change (world_of w2) with w2 in *. change (nw_items w1) with (nw_items w) in E2.
  destruct (fd <? 0); [by apply goes_ret; [apply _|..]|]. destruct (sys_ioctl _ _) as [r e3].
  assert (Hw : forall e a, goes (steady []) w2 (w ← upd_link l (set_fd (-1)) (set_nw_env e w2); Some (a, w)) (same_items w)).
  { intros e a. eapply goes_weaken; [apply (field_ret_goes l (set_fd (-1)) e a w2 I2 L2); intros y; by destruct y|].
    cbv beta. unfold same_items. intros q _. by rewrite E2. }
  destruct (r <? 0); [apply (Hw (sys_close fd e3))|].
  set (w3 := set_nw_env e3 w2). assert (I3 : inv w3) by (by apply inv_env). apply (goes_env sess_rep ip_rep _ w2 e3); [apply env_steady|]. fold w3.
  eapply goes_bind; [apply _|apply (field_goes l _ w3 I3 L2); intros y; destruct (_ =? _); by destruct y|]. cbv beta. intros w4 I4 S4 [E4 L4].
  change (world_of w4) with w4 in *. eapply goes_bind; [apply _|apply (field_goes l _ w4 I4 L4); intros y; by destruct y|]. cbv beta.
  intros w5 I5 S5 [E5 L5]. change (world_of w5) with w5 in *. pose proof L5 as (x5 & Hl5 & Hp5). rewrite Hl5. cbn [mbind option_bind].
  assert (E : nw_items w5 = nw_items w) by (rewrite E5, E4; exact E2).
  destruct (EpollAddObj _ _ _ _) as [ok e6]. destruct ok; cbn [negb].
  - apply (goes_env sess_rep ip_rep _ w5 e6); [apply env_steady|]. apply goes_ret; [apply _|done|by apply inv_env|exact E].
  - eapply goes_weaken; [apply (field_ret_goes l (set_fd (-1)) (sys_close fd e6) (-3) w5 I5 L5); intros y; by destruct y|].
    cbv beta. unfold same_items. intros q _. by rewrite E.
Qed.

Lemma Connect_goes l w : inv w -> live l w -> goes (steady []) w (Connect l w) (fun r => nw_items r.2 = nw_items w).
Proof.
  intros I HL. unfold Connect. rewrite touch_bind. unfold touch, env_do. destruct (mt_time_ms (nw_env w)) as [now e].
  set (w1 := set_nw_env e w). assert (I1 : inv w1) by (by apply inv_env). apply (goes_env sess_rep ip_rep _ w e); [apply env_steady|]. fold w1.
  eapply goes_bind; [apply _|apply (field_goes l (set_last_access now) w1 I1 HL); intros y; by destruct y|]. cbv beta. intros w2 I2 S2 [E2 L2].
  change (world_of w2) with w2 in *. change (nw_items w1) with (nw_items w) in E2.
  eapply goes_bind; [apply _|apply (field_goes l _ w2 I2 L2); intros y; destruct (_ =? _); by destruct y|]. cbv beta. intros w3 I3 S3 [E3 L3].
  change (world_of w3) with w3 in *. pose proof L3 as (x3 & Hl3 & Hp3). rewrite Hl3. cbn [mbind option_bind].
  assert (E : nw_items w3 = nw_items w) by congruence.
  destruct (negb (_ =? 0)); [by apply goes_ret; [apply _|..]|]. destruct (negb (_ =? 0)); [by apply goes_ret; [apply _|..]|].
  destruct (live_addr sess_rep ip_rep w3 l x3 (proj1 I3) Hl3 Hp3) as [a ->]. cbn [mbind option_bind]. destruct (sys_connect _ _ _) as [[ret err] e4].
  set (w4 := set_nw_env e4 w3). assert (I4 : inv w4) by (by apply inv_env). apply (goes_env sess_rep ip_rep _ w3 e4); [apply env_steady|]. fold w4.
  assert (Hw : forall f (b : bool), goes (steady []) w4 (w ← upd_link l (set_link_state f) w4; Some (b, w)) (fun r => nw_items r.2 = nw_items w)).
  { intros f b. eapply goes_bind; [apply _|apply (field_goes l _ w4 I4 L3); intros y; by destruct y|]. cbv beta. intros w5 I5 S5 [E5 _].
    change (world_of w5) with w5 in *. apply goes_ret; [apply _|done|done|]. cbn [snd]. rewrite E5. exact E. }
  destruct (_ && _); apply Hw.
Qed.

(** ** The waits *)

Lemma settled_intro w h x : inv w -> item h w = Some x -> nh_conn x = None -> settled h w.
Proof. intros _ Hh Hc. exists x. auto. Qed.
Lemma wait_notify_goes {A} t (a : A) w Q : inv w -> Q (a, WaitNotify t w) -> goes (steady []) w (Some (a, WaitNotify t w)) Q.
Proof.
  intros I HQ. assert (S : steady [] w (WaitNotify t w)) by (apply steady_same; try done; intros t'; unfold WaitNotify; nsimpl; rewrite !elem_of_app; tauto). exists (a, WaitNotify t w). split; [done|].
  split; [|done]. apply (inv_steady sess_rep ip_rep w); [done| |done]. eapply net_ok_view; [|apply I]. done.
Qed.
(** The thread waits, its handler in queue [q]. *)
Lemma enter_wait_goes {A} t h q (a : A) w Q : inv w -> is_Some (item h w) ->
  (forall w', steady [] w w' -> Q (a, WaitNotify t w')) -> goes (steady []) w (w ← switch_to (q_flag q) (q_list q) h w; Some (a, WaitNotify t w)) Q.
Proof.
  intros I [x Hh] HQ. eapply goes_bind; [apply _|by apply (switch_goes sess_rep ip_rep h q x w)|]. cbv beta. intros w1 I1 S1 _.
  change (world_of w1) with w1 in *. apply wait_notify_goes; [done|]. by apply HQ.
Qed.
Lemma settle_goes h w : inv w -> is_Some (item h w) -> goes (steady []) w (SwitchToIdle h w) (settled h).
Proof.
  intros I [x Hh]. eapply goes_weaken; [by apply (switch_goes sess_rep ip_rep h QIdle x w)|]. cbv beta. intros w1 _ [_ M].
  destruct (nh_conn x) as [l|] eqn:Ec; [by eapply moved_idle|subst w1; by eapply settled_intro].
Qed.

Lemma WaitConnect_begin_goes t h w : inv w -> settled h w -> goes (steady []) w (WaitConnect_begin t h w)
  (fun r => match r.1 with inl _ => settled h r.2 | inr conn => is_Some (link conn r.2) /\ t ∈ nw_io r.2 end).
Proof.
  intros I (x & Hh & Hs). unfold WaitConnect_begin. rewrite Hh. cbn [mbind option_bind]. destruct (nh_conn x) as [conn|] eqn:Hc.
  2: { apply goes_ret; [apply _|done|done|]. cbn [fst snd]. exists x. auto. }
  pose proof (conn_live w h x conn I Hh Hc) as HL. assert (Hset : forall w', nw_items w' = nw_items w -> settled h w').
  { intros w' E. exists x. split; [|destruct Hs; [congruence|auto]]. unfold item. by rewrite E. }
  eapply goes_bind; [apply _|by apply CreateSock_goes|]. intros [fd w1] I1 S1 E1. cbn [fst snd world_of world_pair] in *. unfold same_items in E1. cbn [snd] in E1.
  pose proof (live_steady _ _ _ _ S1 HL) as L1. destruct (fd <? 0); [apply goes_ret; [apply _|done|done|by apply Hset]|].
  eapply goes_bind; [apply _|by apply Connect_goes|]. intros [ok w2] I2 S2 E2. cbn [fst snd world_of world_pair] in *.
  pose proof (live_steady _ _ _ _ S2 L1) as (y & Hy & _). destruct ok; [apply goes_ret; [apply _|done|done|apply Hset; cbn [snd]; congruence]|].
  apply (enter_wait_goes t h QConn (@inr Z ptr conn) w2); [done| |].
  - exists x. unfold item. by rewrite E2, E1.
  - intros w3 S3. cbn [fst snd]. split; [|apply elem_of_app; right; by left]. destruct (st_link _ _ _ S3 conn y Hy) as (z & Hz & _). by exists z.
Qed.
(** [SwitchToIdle] keeps the result code and the links. *)
Lemma settle_switched h x w : inv w -> item h w = Some x ->
  goes (steady []) w (SwitchToIdle h w) (fun w' => settled h w' /\ switched w h x w').
Proof.
  intros I Hh. eapply goes_weaken; [by apply (switch_goes sess_rep ip_rep h QIdle x w)|]. cbv beta. intros w1 _ [HS M]. split; [|done].
  destruct (nh_conn x) as [l|] eqn:Ec; [by eapply moved_idle|subst w1; by eapply settled_intro].
Qed.
Lemma WaitConnect_end_goes h conn x w : inv w -> item h w = Some x -> is_Some (link conn w) \/ nh_err x <> 0 ->
  goes (steady []) w (WaitConnect_end h conn w) (fun r => settled h r.2).
Proof.
  intros I Hh Hc. unfold WaitConnect_end. eapply goes_bind; [apply _|by apply (settle_switched h x)|]. cbv beta. intros w1 I1 S1 [(x1 & Hx & Hset) HS].
  change (world_of w1) with w1 in *. rewrite Hx. cbn [mbind option_bind].
  destruct (Z.eqb_spec (nh_err x1) 0) as [He|]; cbn [negb]; [|apply goes_ret; [apply _|done|done|by exists x1]].
  destruct Hc as [[y Hy]|Hc]; [|exfalso; apply Hc; rewrite <- He; symmetry; by apply (switched_err w h x w1)].
  destruct (st_link _ _ _ S1 conn y Hy) as (z & Hz & _). rewrite Hz. cbn [mbind option_bind]. apply goes_ret; [apply _|done|done|by exists x1].
Qed.
(** The link is gone and there is no result code: the read after the wait is undefined. *)
Lemma WaitConnect_end_undefined h conn x w : inv w -> item h w = Some x -> link conn w = None -> nh_err x = 0 -> WaitConnect_end h conn w = None.
Proof.
  intros I Hh Hc He. unfold WaitConnect_end. destruct (settle_switched h x w I Hh) as (w1 & -> & _ & _ & (x1 & Hx & _) & HS).
  change (world_of w1) with w1 in *. cbn [mbind option_bind]. rewrite Hx. cbn [mbind option_bind].
  rewrite (switched_err w h x w1 x1 HS Hx), He, Z.eqb_refl. cbn [negb]. by rewrite (switched_no_link w h x w1 conn HS Hc).
Qed.

Lemma req_own w h x l : inv w -> item h w = Some x -> nh_conn x = Some l -> own_ok (nh_req_data x) (nh_req_len x).
Proof. intros [_ R] Hh Hc. destruct (R h x Hh) as (d & -> & D2 & D3); [congruence|]. done. Qed.

Lemma WaitSend_begin_goes t h w : inv w -> settled h w -> goes (steady []) w (WaitSend_begin t h w)
  (fun r => match r.1 with inl _ => settled h r.2 | inr _ => t ∈ nw_io r.2 end).
Proof.
  intros I (x & Hh & Hs). unfold WaitSend_begin. rewrite Hh. cbn [mbind option_bind]. destruct (nh_conn x) as [conn|] eqn:Hc.
  2: { apply goes_ret; [apply _|done|done|]. cbn [fst snd]. exists x. auto. }
  destruct Hs as [Hs|[s Hs]]; [congruence|]. destruct (conn_live w h x conn I Hh Hc) as (y & Hl & Hp).
  eapply goes_bind; [apply _|by apply (SendData_goes sess_rep ip_rep rcvd sent w conn y _ _ NL I Hl Hp), (req_own w h x conn)|].
  intros [ret w1] I1 S1 Hk. cbn [fst snd world_of world_pair] in *.
  assert (Hh1 : item h w1 = Some x).
  { rewrite <- Hh. apply Hk. destruct (net_queued sess_rep ip_rep None w h x conn (proj1 I) Hh Hc) as (s' & q & y' & Hs' & _ & _ & Hl' & Hq & _).
    rewrite Hl in Hl'. injection Hl' as <-. rewrite Hs in Hs'. apply mkstate_inj in Hs' as [_ [= <-]]. intros Hin.
    by pose proof (proj1 (Hq QSend) Hin). }
  destruct (Z.ltb_spec ret 0) as [Hr|Hr]; [apply goes_ret; [apply _|done|done|]; cbn [fst snd]; exists x; eauto|].
  eapply goes_bind; [apply _|apply (SkipSendPos_goes sess_rep ip_rep ret h x w1 I1 Hh1 ltac:(congruence) Hr)|].
  intros [k w2] I2 S2 [Ek E2]. cbn [fst snd world_of world_pair] in *.
  assert (Hh2 : item h w2 = Some (sent_item (Z.min ret (nh_req_len x)) x)) by (rewrite E2; unfold item; nsimpl; apply lookup_insert_eq).
  rewrite Hh2. cbn [mbind option_bind]. destruct (_ =? 0).
  - apply goes_ret; [apply _|done|done|]. cbn [fst snd]. eexists. split; [exact Hh2|]. right. by exists s.
  - apply (enter_wait_goes t h QSend (@inr Z unit tt) w2); [done|by eexists|]. intros w3 _. cbn [fst snd]. apply elem_of_app. right. by left.
Qed.
Lemma WaitSend_end_goes h w : inv w -> is_Some (item h w) -> goes (steady []) w (WaitSend_end h w) (fun r => settled h r.2).
Proof.
  intros I Hh. unfold WaitSend_end. eapply goes_bind; [apply _|by apply settle_goes|]. cbv beta. intros w1 I1 S1 (x & Hx & Hset).
  change (world_of w1) with w1 in *. rewrite Hx. cbn [mbind option_bind]. apply goes_ret; [apply _|done|done|by exists x].
Qed.

Lemma WaitRecv_begin_goes t h w : inv w -> settled h w -> goes (steady []) w (WaitRecv_begin t h w)
  (fun r => match r.1 with inl _ => settled h r.2 | inr _ => t ∈ nw_io r.2 end).
Proof.
  intros I HS. pose proof HS as (x & Hh & Hs). unfold WaitRecv_begin. rewrite Hh. cbn [mbind option_bind].
  destruct (nh_conn x) as [conn|] eqn:Hc; [|by apply goes_ret; [apply _|..]].
  destruct (_ =? _); [by apply goes_ret; [apply _|..]|].
  apply (enter_wait_goes t h QRecv (@inr Z unit tt) w); [done|by eexists|]. intros w3 _. cbn [fst snd]. apply elem_of_app. right. by left.
Qed.
(** The answer of a handler is there. *)
Lemma answer_some w h x p : inv w -> item h w = Some x -> nh_rsp x = Some p -> exists b, nw_bufs w !! p = Some b.
Proof.
  intros [W _] Hh Hr. destruct (block_live sess_rep ip_rep None w p W) as (b & Hb & _); [|by exists b]. apply in_all_of. right. by exists h, x.
Qed.
Lemma WaitRecv_end_goes h w : inv w -> is_Some (item h w) -> goes (steady []) w (WaitRecv_end h w) (fun r => settled h r.2).
Proof.
  intros I Hh. unfold WaitRecv_end. eapply goes_bind; [apply _|by apply settle_goes|]. cbv beta. intros w1 I1 S1 (x & Hx & Hset).
  change (world_of w1) with w1 in *. rewrite Hx. cbn [mbind option_bind]. destruct (nh_rsp x) as [p|] eqn:Er.
  - destruct (answer_some w1 h x p I1 Hx Er) as [b ->]. cbn [mbind option_bind]. apply goes_ret; [apply _|done|done|by exists x].
  - cbn [mbind option_bind]. apply goes_ret; [apply _|done|done|by exists x].
Qed.

(** ** [SendRecv] *)

(** It returned with the handler outside of everything, or waits. *)
Definition sr_post t h (r : sr_result * NetW) : Prop :=
  match r.1 with
  | SrDone _ => parked h r.2
  | SrWait _ pc => pc_handler pc = h /\ pc_ok pc r.2 /\ t ∈ nw_io r.2
  end.
Definition used h w : Prop := is_Some (item h w) /\ (h ∉ rp_free_list (nw_item_pool w)).
Lemma used_stays X h w w' : stays X w w' -> used h w -> used h w'.
Proof. intros [_ A2 A3 _ _] [H1 H2]. split; [by apply A2|by rewrite A3]. Qed.
Lemma used_steady X h w w' : steady X w w' -> used h w -> used h w'.
Proof. intros [S _]. by apply (used_stays X). Qed.
Lemma own_stays X h w w' : steady [] w w' -> X = [h] -> steady X w w'.
Proof. intros S ->. eapply steady_mono; [exact S|]. by intros p ?%elem_of_nil. Qed.
Lemma goes_own {B} `{!HasWorld B} h w (o : option B) Q : goes (steady []) w o Q -> goes (steady [h]) w o Q.
Proof. intros H. eapply goes_mono; [exact H| |done]. intros w' S. by eapply own_stays. Qed.

Lemma exit_label_goes t h ret w : inv w -> used h w -> goes (steady [h]) w (exit_label h ret w) (fun r => r.1 = SrDone ret /\ sr_post t h r).
Proof.
  intros I HU. pose proof HU as [[x Hh] Hf]. unfold exit_label. eapply goes_bind; [apply _|by apply goes_own, (Unlink_goes sess_rep ip_rep h x w)|].
  cbv beta. intros w1 I1 S1 (Q & x1 & Hx1 & Hc1 & _). change (world_of w1) with w1 in *. destruct (used_steady _ h _ _ S1 HU) as [_ Hf1].
  destruct (handler_state sess_rep ip_rep w1 h x1 (proj1 I1) Hx1) as (s & q & Hs).
  assert (Hq : q = None).
  { destruct (net_detached sess_rep ip_rep None w1 h x1 (proj1 I1) Hx1 Hc1) as (s' & Hs' & _). rewrite Hs in Hs'. by apply mkstate_inj in Hs' as [_ ->]. }
  subst q. eapply goes_bind; [apply _|by apply (UnRegistSession_goes sess_rep ip_rep h x1 w1)|]. cbv beta. intros w2 I2 S2 [tab ->].
  apply goes_ret; [apply _|done|done|]. cbn [fst snd]. split; [done|]. exists (unregistered_item x1). split.
  - unfold item, own_world. nsimpl. apply lookup_insert_eq.
  - split; [done|]. cbn. by rewrite Hs, ldiff_session.
Qed.
Lemma sr_exit_goes t h ret w : inv w -> used h w -> goes (steady [h]) w (exit_label h ret w) (sr_post t h).
Proof. intros I HU. eapply goes_weaken; [by apply (exit_label_goes t)|]. by intros r _ [_ H]. Qed.

(** A wait of the request. *)
Lemma sr_wait_goes t h left start timeout ph w : inv w -> is_Some (item h w) -> t ∈ nw_io w ->
  match ph with InConnect conn => is_Some (link conn w) | _ => True end ->
  goes (steady [h]) w (Some (SrWait left (mkPc h start timeout ph), w)) (sr_post t h).
Proof. intros I Hh Ht Hp. apply goes_ret; [apply _|done|done|]. by split_and!. Qed.

Lemma after_recv_goes t h ret w : inv w -> used h w -> goes (steady [h]) w (after_recv h ret w) (sr_post t h).
Proof. intros I HU. unfold after_recv. by apply sr_exit_goes. Qed.
Lemma after_send_goes t h start timeout ret w : inv w -> used h w -> settled h w ->
  goes (steady [h]) w (after_send t h start timeout ret w) (sr_post t h).
Proof.
  intros I HU HS. unfold after_send. destruct (ret <? 0); [by apply sr_exit_goes|].
  eapply goes_bind; [apply _|by apply goes_own, WaitRecv_begin_goes|]. intros [r w1] I1 S1 Q. cbn [fst snd world_of world_pair] in *.
  pose proof (used_steady _ _ _ _ S1 HU) as HU1. destruct r as [r|[]]; [by apply after_recv_goes|]. apply sr_wait_goes; try done. apply HU1.
Qed.
Lemma after_connect_goes t h start timeout ret w : inv w -> used h w -> settled h w ->
  goes (steady [h]) w (after_connect t h start timeout ret w) (sr_post t h).
Proof.
  intros I HU HS. unfold after_connect. destruct (ret <? 0); [by apply sr_exit_goes|].
  eapply goes_bind; [apply _|by apply goes_own, WaitSend_begin_goes|]. intros [r w1] I1 S1 Q. cbn [fst snd world_of world_pair] in *.
  pose proof (used_steady _ _ _ _ S1 HU) as HU1. destruct r as [r|[]]; [by apply after_send_goes|]. apply sr_wait_goes; try done. apply HU1.
Qed.

(** The request is checked; a request with sessions is registered. *)
Lemma CheckParams_goes t h x w : inv w -> item h w = Some x -> used h w -> nh_conn x = None -> own_ok (nh_req_data x) (nh_req_len x) ->
  goes (steady [h]) w (CheckParams t h w) (fun r => 0 <= r.1 -> exists y, item h r.2 = Some y /\ nh_conn y = None /\ ready y).
Proof.
  intros I Hh [_ Hf] Hc Ho. unfold CheckParams. rewrite Hh. cbn [mbind option_bind].
  assert (Hbad : forall Q w', inv w' -> goes (steady [h]) w' (Some (RC_INVALID_PARAM, w')) (fun r => 0 <= r.1 -> Q r)).
  { intros Q w' I'. apply goes_ret; [apply _|done|done|]. cbn. unfold RC_INVALID_PARAM. lia. }
  case_bool_decide as Hd; cbn [negb orb]; [|by apply Hbad]. destruct Hd as [data Hd].
  destruct (nh_req_len x =? 0); [by apply Hbad|]. destruct (_ || _); [by apply Hbad|].
  assert (Hready : ready x) by (unfold own_ok in Ho; rewrite Hd in Ho; by exists data).
  destruct (nh_conn_type x =? TYPE_CONN_SESSION).
  2: { apply goes_ret; [apply _|done|done|]. cbn [fst snd]. intros _. by exists x. }
  destruct (_ || _); [by apply Hbad|]. eapply goes_bind; [apply _|by apply (RegistSession_goes sess_rep ip_rep t h x w)|].
  intros [ok w1] I1 S1 Q. cbn [fst snd world_of world_pair] in *. destruct ok.
  - destruct Q as (_ & tab & ->). apply goes_ret; [apply _|done|done|]. cbn [fst snd]. intros _. exists (registered_item t x). split.
    + unfold item, own_world. nsimpl. apply lookup_insert_eq.
    + by split.
  - apply goes_ret; [apply _|done|done|]. cbn. unfold RC_CONFLICT_SID. lia.
Qed.

Lemma set_request_goes h x data len w : inv w -> item h w = Some x -> nh_conn x = None ->
  goes (stays [h]) w (upd_item h (set_request data len) w) (fun w' => item h w' = Some (set_request data len x)).
Proof.
  intros I Hh Hc. rewrite (upd_item_eq h _ w x Hh). set (w' := set_items _ w).
  assert (O : own_change h (set_request data len x) w w').
  { exists (nw_sess w). unfold own_world, w'. by destruct w. }
  assert (S : steady [h] w w') by (by eapply own_steady).
  assert (Hh' : item h w' = Some (set_request data len x)) by (unfold item, w'; nsimpl; apply lookup_insert_eq).
  exists w'. split; [done|]. split; [|split; [apply S|done]]. apply (inv_own sess_rep ip_rep [h] w); [done| |apply S|].
  - eapply net_ok_view; [|apply I]. unfold w', view_of. nsimpl. f_equal. by apply (fmap_insert_same item_v _ h x).
  - intros p y ->%list_elem_of_singleton Hy. change (world_of w') with w' in Hy. rewrite Hh' in Hy. injection Hy as <-. intros Hn. by destruct Hn.
Qed.

Lemma SendRecv_goes t h data len timeout w : inv w -> used h w -> parked h w -> own_ok data len ->
  goes (stays [h]) w (SendRecv t h data len timeout w) (sr_post t h).
Proof.
  intros I HU (x & Hh & Hc & Hs) Ho. unfold SendRecv. eapply goes_bind; [apply _|by apply (set_request_goes h x)|]. cbv beta.
  intros w1 I1 S1 Hh1. change (world_of w1) with w1 in *. pose proof (used_stays _ _ _ _ S1 HU) as HU1.
  eapply goes_bind_stays; [by apply (CheckParams_goes t h (set_request data len x) w1)|]. intros [ret w2] I2 S2 Q.
  cbn [fst snd world_of world_pair] in *. pose proof (used_steady _ _ _ _ S2 HU1) as HU2.
  destruct (Z.ltb_spec ret 0) as [Hr|Hr].
  { eapply goes_mono; [by apply (sr_exit_goes t)|by intros w' [S _]|done]. }
  destruct (Q Hr) as (y & Hy & Hcy & Hry).
  eapply goes_bind; [apply _|by apply (GetConnLink_goes w2 h y I2 Hy (proj2 HU2))|]. intros [r w3] I3 S3 [Er HS].
  cbn [fst snd world_of world_pair] in *. subst r. pose proof (used_stays _ _ _ _ S3 HU2) as HU3. change (0 <? 0) with false. cbv iota.
  apply goes_mono with (R := steady [h]) (Q := sr_post t h); [|by intros w' [S _]|done].
  eapply goes_bind; [apply _|by apply goes_own, WaitConnect_begin_goes|]. intros [o w4] I4 S4 Q4. cbn [fst snd world_of world_pair] in *.
  pose proof (used_steady _ _ _ _ S4 HU3) as HU4. destruct o as [ret'|conn].
  - by apply after_connect_goes.
  - destruct Q4 as [Q4 Q5]. apply sr_wait_goes; try done. apply HU4.
Qed.

Lemma SendRecv_resume_goes t pc w : inv w -> used (pc_handler pc) w -> ~ lost_link pc w ->
  goes (stays [pc_handler pc]) w (SendRecv_resume t pc w) (sr_post t (pc_handler pc)).
Proof.
  intros I HU Hp. pose proof HU as [Hi _]. unfold lost_link in Hp. set (h := pc_handler pc) in *. apply goes_mono with (R := steady [h]) (Q := sr_post t h); [|by intros w' [S _]|done].
  unfold SendRecv_resume. fold h. destruct (pc_phase pc) as [conn| |].
  - destruct Hi as [x Hx]. eapply goes_bind; [apply _|apply goes_own, (WaitConnect_end_goes h conn x)|]; [done|done| |].
    { destruct (link conn w) as [y|] eqn:El; [left; by exists y|right]. intros He. apply Hp. by exists conn, x. }
    intros [ret w1] I1 S1 HS. cbn [fst snd world_of world_pair] in *.
    apply after_connect_goes; try done. by apply (used_steady [h] h w).
  - eapply goes_bind; [apply _|by apply goes_own, WaitSend_end_goes|]. intros [ret w1] I1 S1 HS. cbn [fst snd world_of world_pair] in *.
    apply after_send_goes; try done. by apply (used_steady [h] h w).
  - eapply goes_bind; [apply _|by apply goes_own, WaitRecv_end_goes|]. intros [ret w1] I1 S1 HS. cbn [fst snd world_of world_pair] in *.
    apply after_recv_goes; try done. by apply (used_steady [h] h w).
Qed.
Lemma SendRecv_resume_undefined t pc w : inv w -> lost_link pc w -> SendRecv_resume t pc w = None.
Proof.
  intros I (conn & x & Hp & Hl & Hx & He). unfold SendRecv_resume. rewrite Hp.
  by rewrite (WaitConnect_end_undefined (pc_handler pc) conn x w I Hx Hl He).
Qed.
End net.
