(* ===== verification/NetRecycle.v ===== *)
(** * The network layer: the pool of handlers, and recycling

    [AllocNetItem] and [FreeNetItem] lend handlers to helpers; [RecycleObjs] deletes what
    lay in the pools for a minute.  None of it touches an object in use. *)

From Stdlib Require Import ZArith Lia.
From stdpp Require Import base gmap list option fin_maps.
From S2P Require Import Prelude Bytes HashList KeyTable RwCache NetData NetOps NetMain NetInv NetQueues NetBlocks.
From S2P Require Import NetLinks NetDest NetLease NetStay NetSteps NetRecv NetGive NetFill NetDispatch NetSend.
From S2P Require Import NetEvents NetSess NetReq.

(** ** Blocks *)

(** Old blocks go from the front of the pool. *)
Lemma recycle_loop_ok {E} `{!CacheEnv E} q now (st : CacheState (E := E)) L : store_ok st L -> bm_free_list (cs_pool st) = q ->
  exists st', recycle_loop q now st = Some st' /\ store_ok st' L /\ keeps L st st' /\ cs_env st' = cs_env st /\
    bm_free_list (cs_pool st') `suffix_of` q.
Proof.
  revert st. induction q as [|p q IH]; intros st S Hq; [exists st; split_and!; try done; by rewrite Hq|]. cbn [recycle_loop].
  destruct (so_live st L S p) as (b & Hb & Hok); [rewrite Hq; apply elem_of_app; right; by left|]. rewrite Hb. cbn [mbind option_bind].
  destruct (_ <? _); [exists st; split_and!; try done; by rewrite Hq|]. unfold delete_sk_buffer. cbn [cs_bufs set_free]. rewrite Hb. cbn [mbind option_bind].
  set (st1 := set_free q _ _). pose proof (so_nodup st L S) as Hn. rewrite Hq in Hn. apply list.NoDup_app in Hn as (N1 & N2 & N3).
  pose proof (NoDup_cons_1_1 _ _ N3) as Np. apply NoDup_cons_1_2 in N3.
  assert (Hb1 : forall r, r ∈ L ++ q -> cs_bufs st1 !! r = cs_bufs st !! r).
  { intros r Hr. cbn. apply lookup_delete_ne. intros <-. apply elem_of_app in Hr as [Hr|Hr]; [|done]. apply (N2 p Hr). by left. }
  assert (S1 : store_ok st1 L).
  { split; cbn [bm_free_list bm_count bm_size cs_pool st1 set_free].
    - apply list.NoDup_app. split; [done|]. split; [|done]. intros r Hr Hrq. apply (N2 r Hr). by right.
    - intros r Hr. rewrite (Hb1 r Hr). apply (so_live st L S). rewrite Hq. set_solver.
    - intros r z Hr Hz. rewrite (Hb1 r) in Hz by (apply elem_of_app; by right). apply (so_free st L S r); [rewrite Hq; by right|done].
    - pose proof (so_count st L S) as Hc. rewrite Hq in Hc. cbn [length] in Hc. cbn. rewrite Hc. unfold u32.
      rewrite Zminus_mod_idemp_l. f_equal. lia.
    - apply (so_size st L S). }
  destruct (IH st1 S1 eq_refl) as (st' & E' & S' & K' & Ee & Hsuf). exists st'. split; [exact E'|]. split; [done|]. split_and!.
  - intros r Hr. rewrite (K' r Hr). apply Hb1. apply elem_of_app. by left.
  - done.
  - by apply suffix_cons_r.
Qed.

Section net.
Context {EV TS TI : Type} `{!NetEnv EV, !KeyTable sess_key TS, !KeyTable dest_key TI}.
Context (sess_rep : (ptr -> sess_key) -> TS -> gmap sess_key ptr -> Prop) `{!KeyTableLaws sess_key TS sess_rep}.
Context (ip_rep : (ptr -> dest_key) -> TI -> gmap dest_key ptr -> Prop) `{!KeyTableLaws dest_key TI ip_rep}.
Context (rcvd sent : EV -> list Z) {NL : NetEnvLaws rcvd sent}.

Abbreviation NetW := (NetW EV TS TI).
Abbreviation net_ok := (net_ok sess_rep ip_rep).
Abbreviation inv := (inv sess_rep ip_rep).
Implicit Types (w : NetW) (h l d t p : ptr) (X : list ptr).

(** Handlers, links and threads are the same; free handlers, and links in the pool, may
    be deleted. *)
Record recycled w w' : Prop := {
  rc_items h : item h w' = item h w \/ (h ∈ rp_free_list (nw_item_pool w)) /\ item h w' = None;
  rc_pool_items : rp_free_list (nw_item_pool w') ⊆ rp_free_list (nw_item_pool w);
  rc_links l : (l ∉ rp_free_list (nw_link_pool w)) -> is_Some (link l w) -> is_Some (link l w');
  rc_pool_links : rp_free_list (nw_link_pool w') ⊆ rp_free_list (nw_link_pool w);
  rc_threads : woken_only w w';
}.
Lemma woken_same w w' : nw_io w' = nw_io w -> nw_run w' = nw_run w -> woken_only w w'.
Proof.
  intros E1 E2. split; [by rewrite E1|]. exists []. rewrite app_nil_r, E1. split; [done|]. split; [by intros t ?%elem_of_nil|tauto].
Qed.
#[export] Instance recycled_preorder : PreOrder recycled.
Proof.
  split; [split; try done; by left|]. intros w1 w2 w3 [A1 A2 A3 A4 A5] [B1 B2 B3 B4 B5]. split.
  - intros h. destruct (B1 h) as [E|[Hf E]], (A1 h) as [E'|[Hf' E']]; try (rewrite E, E'); auto.
  - by etransitivity.
  - intros l Hl Hs. apply B3; [|by apply A3]. intros Hin. by apply Hl, A4.
  - by etransitivity.
  - by etransitivity.
Qed.
Lemma recycled_reqs w w' : recycled w w' -> reqs_ok w -> reqs_ok w'.
Proof. intros [A _ _ _ _] R h x Hh. destruct (A h) as [E|[_ E]]; [apply (R h); congruence|congruence]. Qed.

(** ** The pools of blocks *)

Lemma recycle_pool_ok proto now w : net_ok None w -> exists w', recycle_pool proto now w = Some w' /\ net_ok None w' /\ recycled w w'.
Proof.
  intros W. pose proof W as [Wq Wl Ws Wd [Bs Bc]]. unfold recycle_pool, recycle_sk_buffer.
  assert (S : store_ok (cache_view proto w) (all_of w ++ other_of proto w)).
  { specialize (Bs proto). unfold all_of, other_of. eapply store_ok_mem; [..|exact Bs]; done. }
  destruct (recycle_loop_ok _ now _ _ S eq_refl) as (st' & -> & S' & K & _ & _). cbn [mbind option_bind]. eexists. split; [reflexivity|].
  assert (EV' : forall pr, nw_items (put_view pr st' w) = nw_items w /\ nw_links (put_view pr st' w) = nw_links w /\
    nw_item_pool (put_view pr st' w) = nw_item_pool w /\ nw_link_pool (put_view pr st' w) = nw_link_pool w /\
    nw_io (put_view pr st' w) = nw_io w /\ nw_run (put_view pr st' w) = nw_run w).
  { intros pr. unfold put_view. by destruct (pr =? NET_PROTO_TCP). }
  destruct (EV' proto) as (E1 & E2 & E3 & E4 & E5 & E6). split.
  - unfold net_ok. rewrite view_put. split; try done. split.
    + eapply (blocks_step w proto st' (mkView _ _ _ _ _ _ _ _ _ _ _ _ _)); try done. intros p Hp. by apply K, elem_of_app; right.
    + intros l v Hv. eapply cache_ok_keep; [|by apply (Bc l)]. intros p Hp. apply K, elem_of_app. left.
      destruct (view_link_inv _ _ _ Hv) as (x & Hx & ->). apply in_all_of. left. by exists l, x.
  - split; rewrite ?E3, ?E4; try done; [| |by apply woken_same].
    + intros h. left. unfold item. by rewrite E1.
    + intros l _. unfold link. by rewrite E2.
Qed.

(** ** The pool of handlers *)

Lemma blocks_less w w' b : net_ok None w -> option_blocks b ++ all_of w' ≡ₚ all_of w -> nw_links w' = nw_links w ->
  nw_udp w' = nw_udp w -> nw_tcp w' = nw_tcp w -> nw_bufs w' = nw_bufs (without_block b w) -> blocks_ok (view_of w').
Proof.
  intros W P EL EU ET EB. pose proof (all_of_nodup sess_rep ip_rep None w W) as Hn. rewrite <- P in Hn.
  assert (Hk : forall p, (p ∉ option_blocks b) -> nw_bufs w' !! p = nw_bufs w !! p).
  { intros p Hp. rewrite EB. destruct b as [q|]; [|done]. cbn. apply lookup_delete_ne. intros <-. apply Hp. by left. }
  apply (blocks_change w w' (option_blocks b)); try done; [apply (wf_blocks _ _ _ _ W)|intros p Hp; left; by apply Hk|].
  intros l x Hl. assert (Hl' : link l w = Some x) by (unfold link in *; by rewrite <- EL).
  eapply cache_ok_keep; [|exact (bk_cache _ (wf_blocks _ _ _ _ W) l _ (view_link _ _ _ Hl'))].
  intros p Hp. apply Hk. intros Hin. apply list.NoDup_app in Hn as (_ & Hd & _). apply (Hd p Hin). apply in_all_of. left. by exists l, x.
Qed.

(** Handlers that are not registered change, with the pool. *)
Lemma items_changed w w' : net_ok None w -> nw_links w' = nw_links w -> nw_dests w' = nw_dests w -> nw_sess w' = nw_sess w ->
  nw_ips w' = nw_ips w -> nw_link_pool w' = nw_link_pool w -> nw_dest_pool w' = nw_dest_pool w -> blocks_ok (view_of w') ->
  queues_ok (v_items (view_of w')) (v_links (view_of w)) (v_free_items (view_of w')) ->
  (forall p x, item p w' = Some x -> item p w = Some x \/ Z.testbit (nh_state x) 0 = false) ->
  (forall p x, item p w = Some x -> Z.testbit (nh_state x) 0 = true -> item p w' = Some x) -> net_ok None w'.
Proof.
  intros [Wq Wl [M HM] Wd Wb] EL ED ES EI EP EQ HB HQ Ha Hb.
  assert (V : v_links (view_of w') = v_links (view_of w) /\ v_dests (view_of w') = v_dests (view_of w) /\
    v_free_links (view_of w') = v_free_links (view_of w) /\ v_free_dests (view_of w') = v_free_dests (view_of w)).
  { cbn. by rewrite EL, ED, EP, EQ. }
  destruct V as (V1 & V2 & V3 & V4). split; rewrite ?V1, ?V2, ?V3, ?V4; try done.
  - exists M. change (v_sess (view_of w')) with (nw_sess w'). rewrite ES.
    apply (sess_ok_other sess_rep (v_items (view_of w))); [exact HM|..].
    + intros p v Hv. destruct (view_item_inv _ _ _ Hv) as (x & Hx & ->). destruct (Ha p x Hx) as [Hx'|Hx']; [left|by right].
      by apply view_item.
    + intros p v Hv Hr. destruct (view_item_inv _ _ _ Hv) as (x & Hx & ->). apply view_item. by apply Hb.
  - change (v_ips (view_of w')) with (nw_ips w'). by rewrite EI.
Qed.
End net.

(** ** The queues and the pool of handlers *)

Implicit Types (I : gmap ptr item_view) (L : gmap ptr link_view) (h : ptr).

Lemma detached_out I L free h x l y q : queues_ok I L free -> I !! h = Some x -> iv_conn x = None -> L !! l = Some y -> h ∉ qget q (lv_queues y).
Proof. intros Q Hh Hc Hl. destruct (detached _ _ _ _ _ Q Hh Hc) as (s & _ & _ & H). by apply (H l y). Qed.

(** A parked handler enters the pool, one of the pool leaves it, is new, or goes. *)
Lemma queues_enter_pool I L free h x y : queues_ok I L free -> I !! h = Some x -> iv_conn x = None -> (h ∉ free) ->
  iv_conn y = None -> iv_state y = 0 -> iv_linked y = true -> queues_ok (<[h := y]> I) L (free ++ [h]).
Proof.
  intros Q Hh Hc Hf Yc Ys Yl. pose proof Q as [H1 H2 H3 H4 H5].
  assert (Hout : forall l z q, L !! l = Some z -> h ∉ qget q (lv_queues z)) by (intros; by eapply detached_out).
  split; try done.
  - intros p z. rewrite lookup_insert_Some. intros [[<- <-]|[Hne Hz]].
    + exists false. left. split_and!; try done. rewrite Yl. symmetry. apply bool_decide_eq_true. set_solver.
    + destruct (H1 p z Hz) as (s & [(A1 & A2 & A3)|(l & q & u & A1 & A2 & A3 & A4 & A5)]); exists s.
      * left. split_and!; try done. rewrite A3. apply bool_decide_ext. set_solver.
      * right. exists l, q, u. split_and!; try done; [set_solver|apply A5|apply A5].
  - intros l z q p Hz Hp. rewrite lookup_insert_ne; [by apply (H2 l z)|]. intros <-. by apply (Hout l z q Hz).
  - apply list.NoDup_app. split; [done|]. split; [|apply NoDup_singleton]. by intros p Hp ->%list_elem_of_singleton.
  - intros p [Hp| ->%list_elem_of_singleton]%elem_of_app.
    + rewrite lookup_insert_ne by (by intros ->). by apply H5.
    + exists y. by rewrite lookup_insert_eq.
Qed.
Lemma queues_leave_pool I L free h x y : queues_ok I L (h :: free) -> I !! h = Some x ->
  iv_conn y = None -> iv_state y = 0 -> iv_linked y = false -> queues_ok (<[h := y]> I) L free.
Proof.
  intros Q Hh Yc Ys Yl. pose proof Q as [H1 H2 H3 H4 H5]. pose proof (NoDup_cons_1_1 _ _ H4) as Hf. apply NoDup_cons_1_2 in H4.
  destruct (H5 h ltac:(by left)) as (x' & Hx' & Hc & _). rewrite Hh in Hx'. injection Hx' as <-.
  assert (Hout : forall l z q, L !! l = Some z -> h ∉ qget q (lv_queues z)) by (intros; by eapply detached_out).
  split; try done.
  - intros p z. rewrite lookup_insert_Some. intros [[<- <-]|[Hne Hz]].
    + exists false. left. split_and!; try done. rewrite Yl. symmetry. by apply bool_decide_eq_false.
    + destruct (H1 p z Hz) as (s & [(A1 & A2 & A3)|(l & q & u & A1 & A2 & A3 & A4 & A5)]); exists s.
      * left. split_and!; try done. rewrite A3. apply bool_decide_ext. rewrite elem_of_cons. naive_solver.
      * right. exists l, q, u. split_and!; try done; [set_solver|apply A5|apply A5].
  - intros l z q p Hz Hp. rewrite lookup_insert_ne; [by apply (H2 l z)|]. intros <-. by apply (Hout l z q Hz).
  - intros p Hp. rewrite lookup_insert_ne by (by intros ->). apply H5. by right.
Qed.
Lemma queues_item_new I L free h y : queues_ok I L free -> I !! h = None -> iv_conn y = None -> iv_state y = 0 -> iv_linked y = false ->
  queues_ok (<[h := y]> I) L free.
Proof.
  intros [H1 H2 H3 H4 H5] Hh Yc Ys Yl.
  assert (Hf : h ∉ free) by (intros Hin; destruct (H5 h Hin) as (? & ? & _); congruence).
  split; try done.
  - intros p z. rewrite lookup_insert_Some. intros [[<- <-]|[Hne Hz]]; [|by apply H1]. exists false. left. split_and!; try done.
    rewrite Yl. symmetry. by apply bool_decide_eq_false.
  - intros l z q p Hz Hp. destruct (H2 l z q p Hz Hp) as (u & s & Hu & R). exists u, s. rewrite lookup_insert_ne; [done|]. by intros <-; congruence.
  - intros p Hp. rewrite lookup_insert_ne by (by intros <-). by apply H5.
Qed.
Lemma queues_item_delete I L free h : queues_ok I L (h :: free) -> queues_ok (delete h I) L free.
Proof.
  intros Q. pose proof Q as [H1 H2 H3 H4 H5]. pose proof (NoDup_cons_1_1 _ _ H4) as Hf. apply NoDup_cons_1_2 in H4.
  destruct (H5 h ltac:(by left)) as (x & Hx & Hc & _).
  assert (Hout : forall l z q, L !! l = Some z -> h ∉ qget q (lv_queues z)) by (intros; by eapply detached_out).
  split; try done.
  - intros p z [Hne Hz]%lookup_delete_Some. destruct (H1 p z Hz) as (s & [(A1 & A2 & A3)|(l & q & u & A1 & A2 & A3 & A4 & A5)]); exists s.
    + left. split_and!; try done. rewrite A3. apply bool_decide_ext. rewrite elem_of_cons. naive_solver.
    + right. exists l, q, u. split_and!; try done; [set_solver|apply A5|apply A5].
  - intros l z q p Hz Hp. rewrite lookup_delete_ne; [by apply (H2 l z)|]. intros <-. by apply (Hout l z q Hz).
  - intros p Hp. rewrite lookup_delete_ne by (by intros ->). apply H5. by right.
Qed.

Section items.
Context {EV TS TI : Type} `{!NetEnv EV, !KeyTable sess_key TS, !KeyTable dest_key TI}.
Context (sess_rep : (ptr -> sess_key) -> TS -> gmap sess_key ptr -> Prop) `{!KeyTableLaws sess_key TS sess_rep}.
Context (ip_rep : (ptr -> dest_key) -> TI -> gmap dest_key ptr -> Prop) `{!KeyTableLaws dest_key TI ip_rep}.
Context (rcvd sent : EV -> list Z) {NL : NetEnvLaws rcvd sent}.

Abbreviation NetW := (NetW EV TS TI).
Abbreviation net_ok := (net_ok sess_rep ip_rep).
Abbreviation inv := (inv sess_rep ip_rep).
Implicit Types (w : NetW) (l d t p : ptr).

(** ** [CNetHandler::Reset] of a parked handler *)

Definition reset_world h (x : CNetHandler) w : NetW := set_items (<[h := clear_handler x]> (nw_items w)) (without_block (nh_rsp x) w).

Lemma without_items b w : nw_items (without_block b w) = nw_items w.
Proof. by destruct b. Qed.
Lemma ItemReset_parked w h x : item h w = Some x -> nh_conn x = None -> nh_state x = 0 -> (forall p, nh_rsp x = Some p -> is_Some (nw_bufs w !! p)) ->
  ItemReset h w = Some (reset_world h x w).
Proof.
  intros Hh Hc Hs Hb. unfold ItemReset, Unlink. rewrite Hh. cbn [mbind option_bind]. rewrite Hs. cbn [Z.eqb mbind option_bind].
  rewrite (upd_item_eq h _ w x Hh). cbn [mbind option_bind].
  assert (Ex : set_conn None x = x) by (destruct x; cbn in Hc; by subst). rewrite Ex. unfold item in Hh. rewrite insert_id by done.
  assert (Ew : set_items (nw_items w) w = w) by (by destruct w). rewrite Ew. unfold UnRegistSession, item. rewrite Hh. cbn [mbind option_bind].
  rewrite Hs. change (Z.land 0 STATE_IN_SESSION =? 0) with true. cbv iota. cbn [mbind option_bind]. rewrite Hh. cbn [mbind option_bind].
  rewrite drop_block_eq by done. cbn [mbind option_bind]. rewrite (upd_item_eq h _ _ x) by (unfold item; by rewrite without_items).
  unfold reset_world. by rewrite without_items.
Qed.
Lemma parked_rsp w h x : inv w -> item h w = Some x -> forall p, nh_rsp x = Some p -> is_Some (nw_bufs w !! p).
Proof.
  intros I Hh p Hr. destruct (answer_some sess_rep ip_rep w h x p I Hh Hr) as [b Hb]. by exists b.
Qed.

(** ** [FreeNetItem] and [AllocNetItem] *)

Definition freed_item (now : Z) (x : CNetHandler) : CNetHandler := set_nh_release now (set_nh_linked true (clear_handler x)).

(** The destructor of the helper: its handler goes to the pool. *)
Record helper_gone h w w' : Prop := {
  hg_item : exists x now, item h w = Some x /\ item h w' = Some (freed_item now x);
  hg_others p : p <> h -> item p w' = item p w;
  hg_pool : rp_free_list (nw_item_pool w') = rp_free_list (nw_item_pool w) ++ [h];
  hg_links : nw_links w' = nw_links w /\ nw_link_pool w' = nw_link_pool w;
  hg_threads : nw_io w' = nw_io w /\ nw_run w' = nw_run w;
}.
Lemma delete_CNetHelper_ok w h : inv w -> used h w -> parked h w ->
  exists w', delete_CNetHelper h w = Some w' /\ inv w' /\ helper_gone h w w'.
Proof.
  intros I [_ Hf] (x & Hh & Hc & Hs). pose proof I as [W R]. unfold delete_CNetHelper.
  rewrite (ItemReset_parked w h x Hh Hc Hs (parked_rsp w h x I Hh)). cbn [mbind option_bind]. set (w1 := reset_world h x w).
  assert (Hh1 : item h w1 = Some (clear_handler x)) by (unfold item, w1, reset_world; nsimpl; apply lookup_insert_eq).
  destruct (net_detached sess_rep ip_rep None w h x W Hh Hc) as (s & _ & Hk & _). rewrite bool_decide_false in Hk by done.
  unfold FreeNetItem. rewrite Hh1. cbn [mbind option_bind]. change (nh_linked (clear_handler x)) with (nh_linked x). rewrite Hk.
  unfold env_do. destruct (mt_time_ms (nw_env w1)) as [now e]. set (w2 := set_item_pool _ _).
  assert (Hh2 : item h w2 = Some (clear_handler x)) by exact Hh1. rewrite (upd_item_eq h _ w2 _ Hh2).
  set (w' := set_items _ w2). change (set_nh_release now (set_nh_linked true (clear_handler x))) with (freed_item now x) in w'.
  exists w'. split; [done|].
  assert (EW : nw_items w' = <[h := freed_item now x]> (nw_items w)) by (unfold w', w2, w1, reset_world; nsimpl; by rewrite insert_insert_eq).
  assert (EO : nw_links w' = nw_links w /\ nw_dests w' = nw_dests w /\ nw_sess w' = nw_sess w /\ nw_ips w' = nw_ips w /\
    nw_link_pool w' = nw_link_pool w /\ nw_dest_pool w' = nw_dest_pool w /\ nw_udp w' = nw_udp w /\ nw_tcp w' = nw_tcp w /\
    nw_bufs w' = nw_bufs (without_block (nh_rsp x) w) /\ rp_free_list (nw_item_pool w') = rp_free_list (nw_item_pool w) ++ [h] /\
    nw_io w' = nw_io w /\ nw_run w' = nw_run w).
  { unfold w', w2, w1, reset_world. by destruct (nh_rsp x). }
  destruct EO as (E1 & E2 & E3 & E4 & E5 & E6 & E7 & E8 & E9 & E10 & E11 & E12).
  assert (Hi : forall p, item p w' = if decide (p = h) then Some (freed_item now x) else item p w).
  { intros p. unfold item. rewrite EW, lookup_insert. by repeat case_decide; subst. }
  assert (HG : helper_gone h w w').
  { split; try done; [exists x, now; split; [done|]; rewrite Hi; by case_decide|].
    intros p Hp. rewrite Hi. by rewrite decide_False. }
  split; [|done]. split.
  - apply (items_changed sess_rep ip_rep w w'); try done.
    + apply (blocks_less sess_rep ip_rep w w' (nh_rsp x)); try done. rewrite (all_of_item w h x Hh). apply Permutation_app; [done|].
      transitivity (all_of (set_items (<[h := freed_item now x]> (nw_items w)) w)); [|by rewrite all_of_set_item].
      unfold all_of. cbn [v_items v_links view_of]. nsimpl. by rewrite EW, E1.
    + cbn [v_items view_of v_free_items]. rewrite EW, E10, fmap_insert.
      apply (queues_enter_pool _ _ _ h (item_v x)); try done; [apply (wf_queues _ _ _ _ W)|by apply view_item].
    + intros p z. rewrite Hi. case_decide; [|by left]. intros [= <-]. by right.
    + intros p z Hz Hb. rewrite Hi. case_decide; [|done]. subst p. rewrite Hh in Hz. injection Hz as <-. by rewrite Hs in Hb.
  - intros p z Hz. rewrite Hi in Hz. case_decide; [|by apply (R p)]. injection Hz as <-. intros Hn. by destruct Hn.
Qed.

(** The constructor of the helper: a handler that nobody uses. *)
Record helper_made h w w' : Prop := {
  hm_used : used h w' /\ parked h w';
  hm_new : h ∈ rp_free_list (nw_item_pool w) \/ item h w = None;
  hm_others p : p <> h -> item p w' = item p w;
  hm_pool p : p ∈ rp_free_list (nw_item_pool w') <-> p <> h /\ p ∈ rp_free_list (nw_item_pool w);
  hm_links : nw_links w' = nw_links w /\ nw_link_pool w' = nw_link_pool w;
  hm_threads : nw_io w' = nw_io w /\ nw_run w' = nw_run w;
}.
Lemma all_of_insert_same w h y b : item_blocks (item_v y) = b -> (forall x, item h w = Some x -> item_blocks (item_v x) = b) ->
  (item h w = None -> b = []) -> all_of (set_items (<[h := y]> (nw_items w)) w) ≡ₚ all_of w.
Proof.
  intros Hb Hx Hn. unfold all_of, all_blocks. cbn [v_items v_links view_of]. nsimpl. apply Permutation_app; [done|].
  rewrite !fmap_insert, Hb. destruct (item h w) as [x|] eqn:E.
  - rewrite insert_id; [done|]. unfold item in E. by rewrite !lookup_fmap, E, <- (Hx x eq_refl).
  - rewrite (Hn eq_refl), lists_of_insert, delete_id; [done|]. unfold item in E. by rewrite !lookup_fmap, E.
Qed.
Lemma AllocNetItem_ok w : inv w -> exists h w', AllocNetItem w = Some (h, w') /\ inv w' /\ helper_made h w w'.
Proof.
  intros [W R]. unfold AllocNetItem. destruct (rp_free_list (nw_item_pool w)) as [|h r] eqn:Ef.
  - set (h := fresh _). assert (Hn : item h w = None) by (unfold item; apply not_elem_of_dom, is_fresh).
    eexists h, _. split; [reflexivity|]. set (w' := set_items _ w).
    assert (Hi : forall p, item p w' = if decide (p = h) then Some new_handler else item p w).
    { intros p. unfold w', item. nsimpl. rewrite lookup_insert. by repeat case_decide; subst. }
    assert (Hh' : item h w' = Some new_handler) by (rewrite Hi; by case_decide).
    split; [split|split; rewrite ?Ef; try done].
    + apply (items_changed sess_rep ip_rep w w'); try done.
      * apply (blocks_less sess_rep ip_rep w w' None); try done. apply (all_of_insert_same w h new_handler []); [done|intros; congruence|done].
      * cbn [v_items view_of v_free_items]. unfold w'. nsimpl. rewrite fmap_insert. apply queues_item_new; try done; [apply (wf_queues _ _ _ _ W)|].
        unfold item in Hn. by rewrite lookup_fmap, Hn.
      * intros p z. rewrite Hi. case_decide; [|by left]. intros [= <-]. by right.
      * intros p z Hz Hb. rewrite Hi. case_decide; [congruence|done].
    + intros p z Hz. rewrite Hi in Hz. case_decide; [|by apply (R p)]. injection Hz as <-. intros Hc. by destruct Hc.
    + split; [split; [by eexists|]|by exists new_handler]. change (rp_free_list (nw_item_pool w')) with (rp_free_list (nw_item_pool w)).
      rewrite Ef. apply not_elem_of_nil.
    + by right.
    + intros p Hp. rewrite Hi. by rewrite decide_False.
    + change (rp_free_list (nw_item_pool w')) with (rp_free_list (nw_item_pool w)). rewrite Ef. intros p. rewrite elem_of_nil. tauto.
  - pose proof (wf_queues _ _ _ _ W) as Q. cbn [v_free_items view_of] in Q. rewrite Ef in Q.
    destruct (qo_free_item _ _ _ Q h ltac:(by left)) as (v & Hv & Hc & Hs). destruct (view_item_inv _ _ _ Hv) as (x & Hx & ->).
    set (w1 := set_item_pool _ w). assert (Hx1 : item h w1 = Some x) by exact Hx. rewrite (upd_item_eq h _ w1 x Hx1). cbn [mbind option_bind].
    eexists h, _. split; [reflexivity|]. set (w' := set_items _ w1).
    assert (Hi : forall p, item p w' = if decide (p = h) then Some (set_nh_linked false x) else item p w).
    { intros p. unfold w', item. nsimpl. rewrite lookup_insert. by repeat case_decide; subst. }
    assert (Hh' : item h w' = Some (set_nh_linked false x)) by (rewrite Hi; by case_decide).
    pose proof (qo_free _ _ _ Q) as Hnd. apply NoDup_cons_1_1 in Hnd. split; [split|split; rewrite ?Ef; try done].
    + apply (items_changed sess_rep ip_rep w w'); try done.
      * apply (blocks_less sess_rep ip_rep w w' None); try done. cbn [option_blocks app].
        transitivity (all_of (set_items (<[h := set_nh_linked false x]> (nw_items w)) w)); [done|].
        apply (all_of_insert_same w h _ (item_blocks (item_v x))); [done| |congruence]. intros z Hz. congruence.
      * cbn [v_items view_of v_free_items]. unfold w'. nsimpl. rewrite fmap_insert.
        by apply (queues_leave_pool _ _ _ h (item_v x)).
      * intros p z. rewrite Hi. case_decide; [|by left]. intros [= <-]. right. change (Z.testbit (nh_state x) 0 = false).
        change (nh_state x = 0) in Hs. by rewrite Hs.
      * intros p z Hz Hb. rewrite Hi. case_decide; [|done]. subst p. rewrite Hx in Hz. injection Hz as <-.
        change (nh_state x = 0) in Hs. by rewrite Hs in Hb.
    + intros p z Hz. rewrite Hi in Hz. case_decide; [|by apply (R p)]. injection Hz as <-. intros Hn. by destruct Hn.
    + split; [split; [by eexists|done]|by exists (set_nh_linked false x)].
    + left. by left.
    + intros p Hp. rewrite Hi. by rewrite decide_False.
    + intros p. change (rp_free_list (nw_item_pool w')) with r. rewrite elem_of_cons. split; [|tauto]. intros Hp. split; [|by right]. by intros ->.
Qed.

(** ** [RecycleObjs] *)

Lemma recycle_item_ok w h q : inv w -> rp_free_list (nw_item_pool w) = h :: q -> exists x w2, item h w = Some x /\
  (let w1 := set_item_pool (pool_take q (nw_item_pool w)) w in w2 ← ItemReset h w1; Some (set_items (delete h (nw_items w2)) w2)) = Some w2 /\
  inv w2 /\ recycled w w2 /\ rp_free_list (nw_item_pool w2) = q.
Proof.
  intros [W R] Ef. pose proof (wf_queues _ _ _ _ W) as Q. cbn [v_free_items view_of] in Q. rewrite Ef in Q.
  destruct (qo_free_item _ _ _ Q h ltac:(by left)) as (v & Hv & Hc & Hs). destruct (view_item_inv _ _ _ Hv) as (x & Hx & ->).
  cbv zeta. set (w1 := set_item_pool _ w). assert (Hx1 : item h w1 = Some x) by exact Hx. exists x.
  rewrite (ItemReset_parked w1 h x Hx1 Hc Hs) by exact (parked_rsp w h x (conj W R) Hx). cbn [mbind option_bind].
  eexists. split; [done|]. split; [reflexivity|]. set (w2 := set_items _ _).
  assert (EW : nw_items w2 = delete h (nw_items w)) by (unfold w2, reset_world; nsimpl; by rewrite delete_insert_eq).
  assert (EO : nw_links w2 = nw_links w /\ nw_dests w2 = nw_dests w /\ nw_sess w2 = nw_sess w /\ nw_ips w2 = nw_ips w /\
    nw_link_pool w2 = nw_link_pool w /\ nw_dest_pool w2 = nw_dest_pool w /\ nw_udp w2 = nw_udp w /\ nw_tcp w2 = nw_tcp w /\
    nw_bufs w2 = nw_bufs (without_block (nh_rsp x) w) /\ rp_free_list (nw_item_pool w2) = q /\ nw_io w2 = nw_io w /\ nw_run w2 = nw_run w).
  { unfold w2, reset_world. by destruct (nh_rsp x). }
  destruct EO as (E1 & E2 & E3 & E4 & E5 & E6 & E7 & E8 & E9 & E10 & E11 & E12).
  assert (Hi : forall p, item p w2 = if decide (p = h) then None else item p w).
  { intros p. unfold item. rewrite EW, lookup_delete. repeat case_decide; congruence. }
  assert (HR : recycled w w2).
  { split; rewrite ?E5, ?E10, ?Ef; try done; [| | |by apply woken_same].
    - intros p. rewrite Hi. case_decide as E; [right; split; [rewrite E; by left|done]|by left].
    - intros p Hp. by right.
    - intros l _. unfold link. by rewrite E1. }
  split; [split; [|by eapply recycled_reqs]|done]. apply (items_changed sess_rep ip_rep w w2); try done.
  - apply (blocks_less sess_rep ip_rep w w2 (nh_rsp x)); try done. rewrite (all_of_item w h x Hx). apply Permutation_app; [done|].
    unfold all_of, all_blocks. cbn [v_items v_links view_of]. rewrite EW, E1, !fmap_delete. apply Permutation_app_comm.
  - cbn [v_items view_of v_free_items]. rewrite EW, E10, fmap_delete. by apply queues_item_delete.
  - intros p z. rewrite Hi. case_decide; [done|by left].
  - intros p z Hz Hb. rewrite Hi. case_decide; [|done]. subst p. rewrite Hx in Hz. injection Hz as <-.
    change (nh_state x = 0) in Hs. by rewrite Hs in Hb.
Qed.
Lemma recycle_items_ok q now w : inv w -> rp_free_list (nw_item_pool w) = q ->
  exists w', recycle_items q now w = Some w' /\ inv w' /\ recycled w w'.
Proof.
  revert w. induction q as [|h q IH]; intros w I Ef; [by exists w|]. destruct (recycle_item_ok w h q I Ef) as (x & w2 & Hx & E & I2 & R2 & Ef2).
  cbn [recycle_items]. rewrite Hx. cbn [mbind option_bind]. destruct (_ <? _); [by exists w|]. cbv zeta in *.
  destruct (ItemReset h _) as [w1|]; [|done]. cbn [mbind option_bind] in *. injection E as ->.
  destruct (IH w2 I2 Ef2) as (w' & E' & I' & R'). exists w'. split; [done|]. split; [done|]. by etransitivity.
Qed.

Lemma recycle_link_ok w l q : inv w -> rp_free_list (nw_link_pool w) = l :: q -> exists x w2, link l w = Some x /\
  (let w1 := set_link_pool (pool_take q (nw_link_pool w)) w in w2 ← LinkReset l w1; Some (set_links (delete l (nw_links w2)) w2)) = Some w2 /\
  inv w2 /\ recycled w w2 /\ rp_free_list (nw_link_pool w2) = q.
Proof.
  intros [W R] Ef. pose proof (wf_links _ _ _ _ W) as HL. cbn [v_free_links view_of] in HL. rewrite Ef in HL.
  destruct (lo_free_link _ _ _ _ HL l ltac:(by left)) as (v & Hv & _ & Hq & _). destruct (view_link_inv _ _ _ Hv) as (x & Hx & ->).
  cbv zeta. set (w1 := set_link_pool _ w). assert (Hx1 : link l w1 = Some x) by exact Hx. exists x.
  assert (W1 : net_ok (Some l) w1).
  { destruct W as [Wq Wl Ws Wd [Bs Bc]]. split; try done. pose proof (links_leave_pool _ _ _ _ _ (link_v x) HL Hv) as H.
    by rewrite insert_id in H. }
  destruct (LinkReset_ok sess_rep ip_rep rcvd sent w1 l x W1 Hx1) as (w2 & y & -> & W2 & Hy & Cy & _ & Re). cbn [mbind option_bind].
  eexists. split; [done|]. split; [reflexivity|]. set (w3 := set_links _ w2). destruct Cy as (Y1 & _ & _ & _ & Y5 & Y6 & _).
  pose proof (view_link _ _ _ Hy) as Vy. pose proof W2 as [Q2 L2 S2 D2 B2].
  assert (W3 : net_ok None w3).
  { assert (VL : v_links (view_of w3) = delete l (v_links (view_of w2))) by (unfold w3; cbn; by rewrite fmap_delete).
    eapply (wf_change sess_rep ip_rep (Some l) None w2 w3); try done; rewrite ?VL.
    - by apply (queues_link_delete _ _ _ l (link_v y)).
    - rewrite fmap_delete. rewrite (lists_of_take (link_blocks <$> v_links (view_of w2)) l []); [done|].
      rewrite lookup_fmap, Vy. unfold link_blocks. cbn. by rewrite Y5, Y6.
    - intros l' z Hz. unfold link, w3 in Hz. nsimpl in Hz. apply lookup_delete_Some in Hz as [_ Hz].
      by apply (bk_cache _ B2 l' (link_v z)), view_link.
    - by apply links_delete. }
  destruct (ro_pools _ _ _ _ _ Re) as (P1 & P2 & P3).
  assert (Hw : waiters x = []).
  { change (link_q x = no_queues) in Hq. unfold link_q, no_queues in Hq. unfold waiters. injection Hq as -> -> -> ->. done. }
  assert (Hi : forall p, item p w3 = item p w).
  { intros p. change (item p w2 = item p w). rewrite (ro_frame _ _ _ _ _ Re p); [done|]. rewrite Hw. apply not_elem_of_nil. }
  assert (HR : recycled w w3).
  { split.
    - intros p. left. apply Hi.
    - change (nw_item_pool w3) with (nw_item_pool w2). by rewrite P1.
    - intros l' Hf [z Hz]. rewrite Ef in Hf. apply not_elem_of_cons in Hf as [Hne _].
      assert (E : delete l (nw_links w1) !! l' = Some z) by (by rewrite lookup_delete_ne).
      destruct (fmap_eq_lookup strip_link (delete l (nw_links w2)) _ _ _ (eq_sym (ro_links _ _ _ _ _ Re)) E) as (z' & E' & _). by exists z'.
    - change (nw_link_pool w3) with (nw_link_pool w2). rewrite P2, Ef. intros p Hp. by right.
    - exact (ro_woken _ _ _ _ _ Re). }
  split; [split; [done|by eapply recycled_reqs]|]. split; [done|]. change (nw_link_pool w3) with (nw_link_pool w2). by rewrite P2.
Qed.
Lemma recycle_links_ok q now w : inv w -> rp_free_list (nw_link_pool w) = q ->
  exists w', recycle_links q now w = Some w' /\ inv w' /\ recycled w w'.
Proof.
  revert w. induction q as [|l q IH]; intros w I Ef; [by exists w|]. destruct (recycle_link_ok w l q I Ef) as (x & w2 & Hx & E & I2 & R2 & Ef2).
  cbn [recycle_links]. rewrite Hx. cbn [mbind option_bind]. destruct (_ <? _); [by exists w|]. cbv zeta in *.
  destruct (LinkReset l _) as [w1|]; [|done]. cbn [mbind option_bind] in *. injection E as ->.
  destruct (IH w2 I2 Ef2) as (w' & E' & I' & R'). exists w'. split; [done|]. split; [done|]. by etransitivity.
Qed.

Lemma recycle_dest_ok w d q : inv w -> rp_free_list (nw_dest_pool w) = d :: q -> exists y w2, dest d w = Some y /\
  (let w1 := set_dest_pool (pool_take q (nw_dest_pool w)) w in w2 ← DestReset d w1; Some (set_dests (delete d (nw_dests w2)) w2)) = Some w2 /\
  inv w2 /\ recycled w w2 /\ rp_free_list (nw_dest_pool w2) = q.
Proof.
  intros [W R] Ef. destruct (wf_dests _ _ _ _ W) as [M HM]. cbn [v_free_dests view_of] in HM. rewrite Ef in HM.
  destruct (do_free_dest _ _ _ _ _ HM d ltac:(by left)) as (v & Hv & Hk). destruct (view_dest_inv _ _ _ Hv) as (y & Hy & ->).
  pose proof (do_dest _ _ _ _ _ HM d _ Hv) as Hs. rewrite Hk in Hs. destruct Hs as [_ Hs]. cbn in Hs.
  cbv zeta. set (w1 := set_dest_pool _ w). assert (Hy1 : dest d w1 = Some y) by exact Hy. exists y. unfold DestReset. rewrite Hy1.
  cbn [mbind option_bind]. rewrite Hs. cbn [mbind option_bind foreach]. rewrite (upd_dest_eq d _ _ y) by exact Hy. cbn [mbind option_bind].
  eexists. split; [done|]. split; [reflexivity|]. set (w3 := set_dests (delete _ _) _).
  assert (ED : nw_dests w3 = delete d (nw_dests w)) by (unfold w3; nsimpl; by rewrite delete_insert_eq).
  assert (HR : recycled w w3) by (split; try done; [intros p; by left|by apply woken_same]).
  split; [split; [|by eapply recycled_reqs]|done].
  apply (dests_changed sess_rep ip_rep None None w w3); try done; cbn [v_dests v_ips v_free_dests v_free_links view_of]; rewrite ED, fmap_delete.
  - eapply links_dest_delete; [apply (wf_links _ _ _ _ W)|exact Hv|exact Hs].
  - exists M. by apply dests_ok_delete.
Qed.
Lemma recycle_dests_ok q now w : inv w -> rp_free_list (nw_dest_pool w) = q ->
  exists w', recycle_dests q now w = Some w' /\ inv w' /\ recycled w w'.
Proof.
  revert w. induction q as [|d q IH]; intros w I Ef; [by exists w|]. destruct (recycle_dest_ok w d q I Ef) as (y & w2 & Hy & E & I2 & R2 & Ef2).
  cbn [recycle_dests]. rewrite Hy. cbn [mbind option_bind]. destruct (_ <? _); [by exists w|]. cbv zeta in *.
  destruct (DestReset d _) as [w1|]; [|done]. cbn [mbind option_bind] in *. injection E as ->.
  destruct (IH w2 I2 Ef2) as (w' & E' & I' & R'). exists w'. split; [done|]. split; [done|]. by etransitivity.
Qed.

Lemma RecycleObjs_ok now w : inv w -> exists w', RecycleObjs now w = Some w' /\ inv w' /\ recycled w w'.
Proof.
  intros [W R]. unfold RecycleObjs.
  destruct (recycle_pool_ok sess_rep ip_rep NET_PROTO_UDP (u32 (now / 1000)) w W) as (w1 & -> & W1 & R1). cbn [mbind option_bind].
  destruct (recycle_pool_ok sess_rep ip_rep NET_PROTO_TCP (u32 (now / 1000)) w1 W1) as (w2 & -> & W2 & R2). cbn [mbind option_bind].
  assert (I2 : inv w2) by (split; [done|]; eapply recycled_reqs; [|exact R]; by etransitivity).
  destruct (recycle_items_ok _ now w2 I2 eq_refl) as (w3 & -> & I3 & R3). cbn [mbind option_bind].
  destruct (recycle_links_ok _ now w3 I3 eq_refl) as (w4 & -> & I4 & R4). cbn [mbind option_bind].
  destruct (recycle_dests_ok _ now w4 I4 eq_refl) as (w5 & -> & I5 & R5). exists w5. split; [done|]. split; [done|].
  transitivity w1; [done|]. transitivity w2; [done|]. transitivity w3; [done|]. by transitivity w4.
Qed.
End items.
