(* ===== verification/NetRun.v ===== *)
(** * The network layer: all threads and events together

    The world of the layer with the threads inside [SendRecv], and everything that can
    happen: helpers come and go and are set up, threads start a request, time out and
    run again, sockets become ready or fail, timers of destinations expire, and free
    objects are recycled.  A step is defined, and the invariant holds after it, unless
    [malloc] refuses an input its memory or a stranded thread runs ([stranded]). *)

From Stdlib Require Import ZArith Lia.
From stdpp Require Import base gmap list option fin_maps.
From S2P Require Import Prelude Bytes HashList KeyTable RwCache NetData NetOps NetMain NetInv NetQueues NetBlocks.
From S2P Require Import NetLinks NetDest NetLease NetStay NetSteps NetRecv NetGive NetFill NetDispatch NetSend.
From S2P Require Import NetEvents NetSess NetReq NetRecycle.

(** [CNetHelper]'s setters. *)
Inductive setting :=
| SetProtoType (type : Z)
| SetAddress (ip port : Z)
| SetSessionId (sid : Z)
| SetSessionCallback (callback : option ptr).
Definition apply_setting (s : setting) (x : CNetHandler) : CNetHandler :=
  match s with
  | SetProtoType type => set_proto type x
  | SetAddress ip port => SetDestAddress ip port x
  | SetSessionId sid => set_sid sid x
  | SetSessionCallback callback => set_callback callback x
  end.

(** What can happen. *)
Inductive net_action :=
| NewHelper
| DeleteHelper (h : ptr)
| SetHelper (h : ptr) (s : setting)
| CallSendRecv (t h : ptr) (data : option (list Z)) (len timeout : Z)
| ThreadTimeout (t : ptr)
| ThreadRuns (t : ptr)
| SocketInput (l : ptr)
| SocketOutput (l : ptr)
| SocketHangup (l : ptr)
| DestTimer (d : ptr)
| Recycle (now : Z).

Section net.
Context {E TS TI : Type} `{!NetEnv E, !KeyTable sess_key TS, !KeyTable dest_key TI}.
Context (check_session : ptr -> list Z -> Z -> Z * Z * Z).
Abbreviation NetW := (NetW E TS TI).
Implicit Types (w : NetW) (h l d t : ptr).

(** The threads inside [SendRecv] with the place where they wait. *)
Record NetSys := mkSys { ns_world : NetW; ns_calls : gmap ptr sr_pc }.
Implicit Types s : NetSys.

Definition with_world w s : NetSys := mkSys w (ns_calls s).
(** The thread [t] comes out of [SendRecv] or waits again. *)
Definition thread_left t (calls : gmap ptr sr_pc) (r : sr_result * NetW) : NetSys :=
  match r with
  | (SrDone _, w) => mkSys w (delete t calls)
  | (SrWait _ pc, w) => mkSys w (<[t := pc]> calls)
  end.

Definition net_step (a : net_action) s : option NetSys :=
  let w := ns_world s in
  match a with
  | NewHelper => '(_, w) ← new_CNetHelper w; Some (with_world w s)
  | DeleteHelper h => w ← delete_CNetHelper h w; Some (with_world w s)
  | SetHelper h st => w ← upd_item h (apply_setting st) w; Some (with_world w s)
  | CallSendRecv t h data len timeout => r ← SendRecv t h data len timeout w; Some (thread_left t (ns_calls s) r)
  | ThreadTimeout t => Some (with_world (wake_thread t w) s)
  | ThreadRuns t =>
      pc ← ns_calls s !! t;
      r ← SendRecv_resume t pc (set_run (filter (.≠ t) (nw_run w)) w); Some (thread_left t (ns_calls s) r)
  | SocketInput l => '(_, w) ← InputNotify check_session l w; Some (with_world w s)
  | SocketOutput l => '(_, w) ← OutputNotify l w; Some (with_world w s)
  | SocketHangup l => '(_, w) ← HangupNotify l w; Some (with_world w s)
  | DestTimer d => w ← timer_notify d w; Some (with_world w s)
  | Recycle now => w ← RecycleObjs now w; Some (with_world w s)
  end.
End net.
Arguments NetSys : clear implicits.

Section run.
Context {EV TS TI : Type} `{!NetEnv EV, !KeyTable sess_key TS, !KeyTable dest_key TI}.
Context (sess_rep : (ptr -> sess_key) -> TS -> gmap sess_key ptr -> Prop) `{!KeyTableLaws sess_key TS sess_rep}.
Context (ip_rep : (ptr -> dest_key) -> TI -> gmap dest_key ptr -> Prop) `{!KeyTableLaws dest_key TI ip_rep}.
Context (rcvd sent : EV -> list Z) {NL : NetEnvLaws rcvd sent}.
Context (check_session : ptr -> list Z -> Z -> Z * Z * Z) `{!CallbackOk check_session}.

Abbreviation NetW := (NetW EV TS TI).
Abbreviation NetSys := (NetSys EV TS TI).
Abbreviation net_ok := (net_ok sess_rep ip_rep).
Abbreviation inv := (inv sess_rep ip_rep).
Implicit Types (w : NetW) (s : NetSys) (l d t p : ptr).

(** A handler of a helper that is in no request. *)
Definition busy s h : Prop := exists t pc, ns_calls s !! t = Some pc /\ pc_handler pc = h.
#[export] Instance busy_dec s h : Decision (busy s h).
Proof.
  destruct (decide (h ∈ (fun c => pc_handler c.2) <$> map_to_list (ns_calls s))) as [H|H]; rewrite list_elem_of_fmap in H; [left|right].
  - destruct H as ([t pc] & -> & Hp%elem_of_map_to_list). by exists t, pc.
  - intros (t & pc & Hp & <-). destruct H. exists (t, pc). split; [done|]. by apply elem_of_map_to_list.
Defined.
Definition owned s h : Prop := used h (ns_world s) /\ ~ busy s h.

(** The thread waited for a link that was deleted meanwhile. *)
Definition stranded s t : Prop := exists pc, ns_calls s !! t = Some pc /\ lost_link pc (ns_world s).

(** When something can happen.  A helper is used by one thread at a time and lives
    longer than its request; less than 2 GB wait at a link.  A thread that waited for a
    link that is gone cannot go on. *)
Definition enabled (a : net_action) s : Prop :=
  let w := ns_world s in
  match a with
  | NewHelper => True
  | DeleteHelper h | SetHelper h _ => owned s h
  | CallSendRecv t h data len _ => owned s h /\ own_ok data len /\ ns_calls s !! t = None
  | ThreadTimeout t => t ∈ nw_io w
  | ThreadRuns t => t ∈ nw_run w /\ is_Some (ns_calls s !! t) /\ ~ stranded s t
  | SocketInput l => live l w /\ input_fits l w
  | SocketOutput l | SocketHangup l => live l w
  | DestTimer d => exists y, dest d w = Some y /\ dl_linked y = false
  | Recycle _ => True
  end.

(** The links that threads wait for exist.  Recycling keeps it so only when none of them
    is in the pool. *)
Definition awaited_exist s : Prop := forall t pc, ns_calls s !! t = Some pc -> pc_link pc (ns_world s).
Definition careful (a : net_action) s : Prop :=
  match a with
  | Recycle _ => forall t pc conn, ns_calls s !! t = Some pc -> pc_phase pc = InConnect conn -> conn ∉ rp_free_list (nw_link_pool (ns_world s))
  | _ => True
  end.

(** The world is well-formed; a thread inside [SendRecv] waits or may run and has its
    handler to itself; every other handler is unlinked and unregistered. *)
Record sys_sound s : Prop := {
  so_inv : inv (ns_world s);
  so_call t pc : ns_calls s !! t = Some pc -> used (pc_handler pc) (ns_world s) /\ t ∈ nw_io (ns_world s) ++ nw_run (ns_world s);
  so_own t t' pc pc' : ns_calls s !! t = Some pc -> ns_calls s !! t' = Some pc' -> pc_handler pc = pc_handler pc' -> t = t';
  so_idle h : is_Some (item h (ns_world s)) -> ~ busy s h -> parked h (ns_world s);
}.
(** And no thread waited for a link that is gone. *)
Definition sys_ok s : Prop := sys_sound s /\ forall t, ~ stranded s t.
Lemma awaited_ok s : sys_sound s -> awaited_exist s -> sys_ok s.
Proof.
  intros S A. split; [done|]. intros t (pc & Hp & conn & x & Hph & Hl & _). pose proof (A t pc Hp) as H. unfold pc_link in H. rewrite Hph, Hl in H.
  by destruct H.
Qed.

(** A step that leaves the handlers alone. *)
Lemma pc_link_stays X w w' pc : stays X w w' -> pc_link pc w -> pc_link pc w'.
Proof. intros S. unfold pc_link. destruct (pc_phase pc); [by apply (sy_link _ _ _ S)|done..]. Qed.
(** What a step gives. *)
Definition sound_step a s (o : option NetSys) : Prop :=
  exists s', o = Some s' /\ sys_sound s' /\ (careful a s -> awaited_exist s -> awaited_exist s').
Lemma parked_stays X w w' h : inv w' -> stays X w w' -> (h ∉ X) -> parked h w -> parked h w'.
Proof.
  intros [W' _] S Hn (x & Hh & Hc & Hs). destruct (stays_some _ _ _ _ _ S Hn Hh) as (x' & Hh' & St). exists x'. split; [done|].
  assert (Hc' : nh_conn x' = None) by (destruct (is_conn _ _ St); congruence). split; [done|].
  destruct (net_detached sess_rep ip_rep None w' h x' W' Hh' Hc') as (s & Hs' & _).
  pose proof (is_reg _ _ St) as Hr. rewrite Hs, Hs', registered_mkstate in Hr. cbn in Hr. by rewrite Hs', Hr.
Qed.
Lemma sys_stays s w' : sys_sound s -> inv w' -> stays [] (ns_world s) w' -> sys_sound (with_world w' s).
Proof.
  intros [S1 S2 S3 S4] I' S. split; [done| |done|].
  - intros t pc Hp. destruct (S2 t pc Hp) as (H1 & H3). split; [by eapply used_stays|]. by apply (sy_threads _ _ _ S).
  - intros h Hh Hb. eapply parked_stays; [done|exact S|apply not_elem_of_nil|]. apply S4; [|done]. by apply (sy_dom _ _ _ S).
Qed.
Lemma stays_step a s w' : sys_sound s -> inv w' -> stays [] (ns_world s) w' -> sound_step a s (Some (with_world w' s)).
Proof.
  intros S I HS. eexists. split; [done|]. split; [by apply sys_stays|]. intros _ A t pc Hp. eapply pc_link_stays; [exact HS|by apply (A t)].
Qed.

(** A step of the thread [t] on its own handler. *)
Lemma sys_thread t h s w (r : sr_result * NetW) : sys_sound s -> inv r.2 -> stays [h] w r.2 -> sr_post t h r ->
  used h (ns_world s) -> (forall t' pc, ns_calls s !! t' = Some pc -> pc_handler pc = h -> t' = t) ->
  (forall pc, ns_calls s !! t = Some pc -> pc_handler pc = h) ->
  nw_items w = nw_items (ns_world s) -> nw_links w = nw_links (ns_world s) -> nw_item_pool w = nw_item_pool (ns_world s) ->
  (forall t', t' <> t -> t' ∈ nw_io (ns_world s) ++ nw_run (ns_world s) -> t' ∈ nw_io w ++ nw_run w) ->
  sys_sound (thread_left t (ns_calls s) r) /\ (awaited_exist s -> awaited_exist (thread_left t (ns_calls s) r)).
Proof.
  intros [S1 S2 S3 S4] I' S HP HU Ho Hm EI EL EP ET.
  assert (HU' : forall p, used p (ns_world s) -> used p r.2).
  { intros p Hp. apply (used_stays [h] p w); [done|]. unfold used, item in *. by rewrite EI, EP. }
  assert (HPC : forall pc, pc_link pc (ns_world s) -> pc_link pc r.2).
  { intros pc Hp. apply (pc_link_stays [h] w); [done|]. unfold pc_link, link in *. by rewrite EL. }
  assert (Hothers : forall t' pc, t' <> t -> ns_calls s !! t' = Some pc -> used (pc_handler pc) r.2 /\ t' ∈ nw_io r.2 ++ nw_run r.2).
  { intros t' pc Hne Hp. destruct (S2 t' pc Hp) as (H1 & H3). split; [by apply HU'|]. apply (sy_threads _ _ _ S). by apply ET. }
  assert (Hbusy : forall p calls, p <> h -> (forall t', t' <> t -> calls !! t' = ns_calls s !! t') ->
    is_Some (item p r.2) -> ~ busy (mkSys r.2 calls) p -> parked p r.2).
  { intros p calls Hp Hc Hi Hb. assert (Hb' : ~ busy s p).
    { intros (t' & pc & Hp' & Hh). apply Hb. exists t', pc. split; [|done]. cbn. rewrite Hc; [done|]. intros ->. apply Hp. rewrite <- Hh. by apply Hm. }
    apply (parked_stays [h] w); [done|done|by rewrite list_elem_of_singleton|]. apply (sy_dom _ _ _ S) in Hi. unfold parked, item in *.
    rewrite EI in *. by apply S4. }
  unfold sr_post in HP. destruct r as [[ret|left pc] w']; cbn [thread_left fst snd] in *.
  - split; [|intros A t' pc; cbn [ns_calls]; intros [_ Hp]%lookup_delete_Some; by apply HPC, (A t')]. split; cbn [ns_world ns_calls]; [done|..].
    + intros t' pc [Hne Hp]%lookup_delete_Some. by apply Hothers.
    + intros t1 t2 pc1 pc2 [_ H1]%lookup_delete_Some [_ H2]%lookup_delete_Some. by apply (S3 t1 t2 pc1 pc2).
    + intros p Hp Hb. destruct (decide (p = h)) as [->|Hne]; [done|]. apply (Hbusy p (delete t (ns_calls s)) Hne); try done.
      intros t' Ht. by apply lookup_delete_ne.
  - destruct HP as (Hh & [_ Hpc] & Ht).
    split; [|intros A t' pc'; cbn [ns_calls]; rewrite lookup_insert_Some; intros [[<- <-]|[_ Hp]]; [done|by apply HPC, (A t')]].
    split; cbn [ns_world ns_calls]; [done|..].
    + intros t' pc'. rewrite lookup_insert_Some. intros [[<- <-]|[Hne Hp]]; [|by apply Hothers]. rewrite Hh. split; [by apply HU'|].
      apply elem_of_app. by left.
    + intros t1 t2 pc1 pc2. rewrite !lookup_insert_Some. intros [[<- <-]|[N1 H1]] [[<- <-]|[N2 H2]] E; [done|..].
      * symmetry. apply (Ho t2 pc2 H2). congruence.
      * apply (Ho t1 pc1 H1). congruence.
      * by apply (S3 t1 t2 pc1 pc2).
    + intros p Hp Hb. destruct (decide (p = h)) as [->|Hne].
      * destruct Hb. exists t, pc. cbn. by rewrite lookup_insert_eq.
      * apply (Hbusy p (<[t := pc]> (ns_calls s)) Hne); try done. intros t' Hne'. by apply lookup_insert_ne.
Qed.

(** ** Every step *)

(** The step, or an input for which there is no memory. *)
Definition step_unless (P : Prop) a s (o : option NetSys) : Prop := sound_step a s o \/ (o = None /\ P).
Lemma event_step {A} P a s (o : option (A * NetW)) : sys_sound s -> goes_unless sess_rep ip_rep P (stays []) (ns_world s) o (fun _ => True) ->
  step_unless P a s ('(_, w) ← o; Some (with_world w s)).
Proof.
  intros S [((b & w) & -> & I & HS & _)|[-> HP]]; [left|by right]. by apply stays_step.
Qed.
Lemma thread_runs_inv w t : inv w -> inv (set_run (filter (.≠ t) (nw_run w)) w).
Proof. intros [W R]. split; [|done]. by eapply net_ok_view; [|exact W]. Qed.

Lemma call_step s t h data len timeout : sys_sound s -> enabled (CallSendRecv t h data len timeout) s ->
  sound_step (CallSendRecv t h data len timeout) s (net_step check_session (CallSendRecv t h data len timeout) s).
Proof.
  intros S ((HU & Hb) & Ho & Ht). assert (HP : parked h (ns_world s)) by (apply (so_idle s S); [apply HU|done]).
  destruct (SendRecv_goes sess_rep ip_rep rcvd sent t h data len timeout (ns_world s) (so_inv s S) HU HP Ho) as (r & E & I & HS & HQ).
  cbn [net_step]. rewrite E. cbn [mbind option_bind]. eexists. split; [done|].
  destruct (sys_thread t h s (ns_world s) r) as [H1 H2]; try done.
  - intros t' pc Hp Hh. destruct Hb. by exists t', pc.
  - intros pc Hp. congruence.
Qed.
Lemma runs_step s t : sys_sound s -> enabled (ThreadRuns t) s -> sound_step (ThreadRuns t) s (net_step check_session (ThreadRuns t) s).
Proof.
  intros S (Ht & [pc Hp] & Hst). cbn [net_step]. rewrite Hp. cbn [mbind option_bind]. destruct (so_call s S t pc Hp) as (HU & _).
  set (w := set_run _ _). assert (I : inv w) by (by apply thread_runs_inv, S).
  destruct (SendRecv_resume_goes sess_rep ip_rep rcvd sent t pc w I HU) as (r & -> & I' & HS & HQ); [intros Hl; apply Hst; by exists pc|].
  cbn [mbind option_bind]. eexists. split; [done|]. destruct (sys_thread t (pc_handler pc) s w r) as [H1 H2]; try done.
  - intros t' pc' Hp' Hh. by apply (so_own s S t' t pc' pc).
  - intros pc' Hp'. congruence.
  - intros t' Hne. rewrite !elem_of_app. unfold w. nsimpl. rewrite list_elem_of_filter. tauto.
Qed.
(** A stranded thread touches memory that was freed. *)
Lemma stranded_undefined s t : sys_sound s -> stranded s t -> net_step check_session (ThreadRuns t) s = None.
Proof.
  intros S (pc & Hp & Hl). cbn [net_step]. rewrite Hp. cbn [mbind option_bind].
  by rewrite (SendRecv_resume_undefined sess_rep ip_rep t pc _ (thread_runs_inv _ t (so_inv s S)) Hl).
Qed.

Lemma swept_stays d Ls w w1 : net_ok None w1 -> swept d Ls w w1 -> stays [] w w1.
Proof.
  intros W1 Sw. apply stays_of; [apply (sw_items _ _ _ _ Sw)| |by rewrite (proj1 (sw_pools _ _ _ _ Sw))| |apply (sw_woken _ _ _ _ Sw)].
  - intros p x x' Hx Hx'. destruct (nh_conn x) as [l|] eqn:Hc.
    + destruct (decide (l ∈ Ls)) as [Hl|Hl].
      * destruct (sw_told _ _ _ _ Sw p x l Hx Hc Hl) as (x2 & z & _ & Hx2 & Hc2 & _). right. congruence.
      * left. rewrite (sw_frame _ _ _ _ Sw p x Hx) in Hx'; [congruence|]. intros l' Hl'. rewrite Hc. by intros [= ->].
    + left. rewrite (sw_frame _ _ _ _ Sw p x Hx) in Hx'; [congruence|]. intros l' _. by rewrite Hc.
  - intros l [z Hz]. destruct (decide (l ∈ Ls)) as [Hl|Hl].
    + assert (Hf : l ∈ rp_free_list (nw_link_pool w1)).
      { rewrite (proj1 (proj2 (sw_pools _ _ _ _ Sw))). apply elem_of_app. by right. }
      destruct (lo_free_link _ _ _ _ (wf_links _ _ _ _ W1) l Hf) as (v & Hv & _). destruct (view_link_inv _ _ _ Hv) as (u & Hu & _). by exists u.
    + destruct (sw_links _ _ _ _ Sw l z Hl Hz) as (u & Hu & _). by exists u.
Qed.
Lemma timer_step s d : sys_sound s -> enabled (DestTimer d) s -> sound_step (DestTimer d) s (net_step check_session (DestTimer d) s).
Proof.
  intros S (y & Hd & Hk). pose proof (so_inv s S) as [W R]. destruct (timer_notify_ok sess_rep ip_rep rcvd sent (ns_world s) d y W Hd Hk)
    as (w' & w1 & E & W' & Sw & W1 & EI & EL & Eio & Erun & EP & _). cbn [net_step]. rewrite E. cbn [mbind option_bind].
  assert (HS : stays [] (ns_world s) w').
  { etransitivity; [by eapply swept_stays|]. apply (st_stays _ _ _). apply steady_same; try done. by rewrite Eio, Erun. }
  apply stays_step; [done| |exact HS]. by apply (inv_stays sess_rep ip_rep (ns_world s)).
Qed.

(** Helpers and the pools. *)
Lemma new_step s : sys_sound s -> sound_step NewHelper s (net_step check_session NewHelper s).
Proof.
  intros S. destruct (AllocNetItem_ok sess_rep ip_rep (ns_world s) (so_inv s S)) as (h & w' & E & I' & [H1 H2 H3 H4 [H5 H6] [H7 H8]]).
  cbn [net_step]. unfold new_CNetHelper. rewrite E. cbn [mbind option_bind]. eexists. split; [done|]. destruct H1 as [H1 H1'].
  assert (Hne : forall p, used p (ns_world s) -> p <> h).
  { intros p [[x Hx] Hf] ->. destruct H2; [done|congruence]. }
  split; [|intros _ A t pc Hp; pose proof (A t pc Hp) as Hl; unfold pc_link, link in *; cbn [ns_world with_world]; by rewrite H5].
  split; cbn [ns_world ns_calls with_world]; [done| |apply S|].
  - intros t pc Hp. destruct (so_call s S t pc Hp) as (A1 & A4). pose proof (Hne _ A1) as Hn. split.
    + split; [rewrite H3 by done; apply A1|]. rewrite H4. intros [_ Hf]. by apply A1.
    + by rewrite H7, H8.
  - intros p Hp Hb. destruct (decide (p = h)) as [->|Hn]; [done|]. unfold parked. rewrite H3 in * by done. by apply (so_idle s S).
Qed.
Lemma delete_step s h : sys_sound s -> enabled (DeleteHelper h) s -> sound_step (DeleteHelper h) s (net_step check_session (DeleteHelper h) s).
Proof.
  intros S [HU Hb]. assert (HP : parked h (ns_world s)) by (apply (so_idle s S); [apply HU|done]).
  destruct (delete_CNetHelper_ok sess_rep ip_rep (ns_world s) h (so_inv s S) HU HP) as (w' & E & I' & [(x & now & _ & Hx) H3 H4 [H5 H6] [H7 H8]]).
  cbn [net_step]. rewrite E. cbn [mbind option_bind]. eexists. split; [done|].
  split; [|intros _ A t pc Hp; pose proof (A t pc Hp) as Hl; unfold pc_link, link in *; cbn [ns_world with_world]; by rewrite H5].
  split; cbn [ns_world ns_calls with_world]; [done| |apply S|].
  - intros t pc Hp. assert (Hn : pc_handler pc <> h) by (intros <-; destruct Hb; by exists t, pc).
    destruct (so_call s S t pc Hp) as (A1 & A4). split.
    + split; [rewrite H3 by done; apply A1|]. rewrite H4, elem_of_app, list_elem_of_singleton. intros [Hf|Hf]; [by apply A1|done].
    + by rewrite H7, H8.
  - intros p Hp Hb'. destruct (decide (p = h)) as [->|Hn].
    + by exists (freed_item now x).
    + unfold parked. rewrite H3 in * by done. by apply (so_idle s S).
Qed.

Lemma apply_setting_same st x : let y := apply_setting st x in nh_conn y = nh_conn x /\ nh_state y = nh_state x /\ nh_linked y = nh_linked x /\
  nh_rsp y = nh_rsp x.
Proof. by destruct st, x. Qed.
Lemma set_step s h st : sys_sound s -> enabled (SetHelper h st) s -> sound_step (SetHelper h st) s (net_step check_session (SetHelper h st) s).
Proof.
  intros S [HU Hb]. destruct (so_idle s S h (proj1 HU) Hb) as (x & Hh & Hc & Hs). pose proof (so_inv s S) as [W R].
  cbn [net_step]. rewrite (upd_item_eq h _ _ x Hh). cbn [mbind option_bind]. set (y := apply_setting st x). set (w' := set_items _ _).
  eexists. split; [done|]. destruct (apply_setting_same st x) as (Y1 & Y2 & Y3 & Y4). fold y in Y1, Y2, Y3, Y4.
  assert (Hi : forall p, item p w' = if decide (p = h) then Some y else item p (ns_world s)).
  { intros p. unfold w', item. nsimpl. rewrite lookup_insert. repeat case_decide; congruence. }
  assert (Hdom : forall p, is_Some (item p w') <-> is_Some (item p (ns_world s))).
  { intros p. rewrite Hi. case_decide; [|done]. subst. by rewrite Hh. }
  split; [|intros _ A t pc Hp; exact (A t pc Hp)].
  split; cbn [ns_world ns_calls with_world]; [|..|apply S|].
  - split.
    + apply (items_changed sess_rep ip_rep (ns_world s) w'); try done.
      * apply (blocks_less sess_rep ip_rep (ns_world s) w' None); try done.
        apply (all_of_insert_same (ns_world s) h y (item_blocks (item_v x))); [unfold item_blocks; cbn; by rewrite Y4|intros z Hz; congruence|congruence].
      * cbn [v_items view_of v_free_items]. unfold w'. nsimpl. eapply queues_ok_items; [|apply (wf_queues _ _ _ _ W)].
        rewrite fmap_insert. eapply fmap_insert_same; [by apply view_item|]. unfold iv_place. cbn. by rewrite Y1, Y2, Y3.
      * intros p z. rewrite Hi. case_decide; [|by left]. intros [= <-]. right. by rewrite Y2, Hs.
      * intros p z Hz Ht. rewrite Hi. case_decide; [|done]. subst p. rewrite Hh in Hz. injection Hz as <-. by rewrite Hs in Ht.
    + intros p z Hz. rewrite Hi in Hz. case_decide; [|by apply (R p)]. injection Hz as <-. intros Hn. congruence.
  - intros t pc Hp. destruct (so_call s S t pc Hp) as ([A0 A1] & A4). split; [|done]. split; [by apply Hdom|done].
  - intros p Hp Hb'. unfold parked. rewrite Hi. case_decide as E; [exists y; split_and!; congruence|].
    apply (so_idle s S); [by apply Hdom|done].
Qed.
Lemma recycle_step s now : sys_sound s -> sound_step (Recycle now) s (net_step check_session (Recycle now) s).
Proof.
  intros S. destruct (RecycleObjs_ok sess_rep ip_rep rcvd sent now (ns_world s) (so_inv s S)) as (w' & E & I' & [H1 H2 H3 H4 H5]).
  cbn [net_step]. rewrite E. cbn [mbind option_bind]. eexists. split; [done|]. split.
  - split; cbn [ns_world ns_calls with_world]; [done| |apply S|].
    + intros t pc Hp. destruct (so_call s S t pc Hp) as ([A0 A1] & A4).
      assert (Hi : item (pc_handler pc) w' = item (pc_handler pc) (ns_world s)) by (by destruct (H1 (pc_handler pc)) as [?|[? _]]).
      split; [split|]; rewrite ?Hi; try done; [|by eapply woken_threads]. intros Hf. by apply A1, H2.
    + intros p [x Hx] Hb. destruct (H1 p) as [Hi|[_ Hi]]; [|congruence]. unfold parked. rewrite Hi. apply (so_idle s S); [|done].
      rewrite <- Hi. by exists x.
  - intros Hg A t pc Hp. pose proof (A t pc Hp) as Hl. unfold pc_link in *. destruct (pc_phase pc) as [conn| |] eqn:Eph; try done.
    apply H3; [by apply (Hg t pc)|done].
Qed.

Lemma net_step_ok a s : sys_sound s -> enabled a s ->
  step_unless ((exists l, a = SocketInput l) /\ ~ malloc_total (E := EV)) a s (net_step check_session a s).
Proof.
  intros S He. destruct a as [|h|h st|t h data len timeout|t|t|l|l|l|d|now].
  1-6: left.
  - by apply new_step.
  - by apply delete_step.
  - by apply set_step.
  - by apply call_step.
  - cbn [net_step enabled] in *. assert (HS : stays [] (ns_world s) (wake_thread t (ns_world s))).
    { apply steady_same; try done. intros t'. unfold wake_thread. nsimpl. rewrite !elem_of_app, list_elem_of_singleton, list_elem_of_filter.
      destruct (decide (t' = t)); tauto. }
    apply stays_step; [done| |done]. destruct (so_inv s S) as [W R]. split; [|done]. by eapply net_ok_view; [|exact W].
  - by apply runs_step.
  - destruct He as [HL Hf]. apply event_step; [done|].
    eapply (unless_mono sess_rep ip_rep); [by apply (InputNotify_goes sess_rep ip_rep rcvd sent check_session); try done; apply S| |done].
    intros Hm. split; [by exists l|done].
  - apply event_step; [done|]. left. by apply (OutputNotify_goes sess_rep ip_rep rcvd sent); try done; apply S.
  - apply event_step; [done|]. left. by apply (HangupNotify_goes sess_rep ip_rep rcvd sent); try done; apply S.
  - left. by apply timer_step.
  - left. by apply recycle_step.
Qed.
End run.
