(* ===== verification/NetFrames.v ===== *)
(** * The network layer: answers in a stream

    What a callback of TCP handlers does when the peer sends well-formed answers: it
    finds the first answer of the bytes it sees, or asks for more.  Then the rounds of
    [DispathTcp] are the answers of the stream, one after the other, whatever the sizes
    of the blocks were. *)

From Stdlib Require Import ZArith Lia.
From stdpp Require Import base gmap list option.
From S2P Require Import Prelude Bytes NetDispatch.

(** The largest block, and the largest cache whose blocks can double below it. *)
Definition max_block : Z := 100 * 1024 * 1024.
Definition max_stream : Z := 50 * 1024 * 1024.

(** [frame bytes] is the length and the session number of the first answer in [bytes],
    once enough of it is there. *)
Class FrameLaw (check : ptr -> list Z -> Z -> Z * Z * Z) (cb : ptr) (frame : list Z -> option (Z * Z)) : Prop := {
  frame_size bytes n sid : frame bytes = Some (n, sid) -> 0 < n <= blen bytes;
  frame_more bytes more n sid : frame bytes = Some (n, sid) -> frame (bytes ++ more) = Some (n, sid);
  frame_found bytes sid0 n sid : frame bytes = Some (n, sid) -> exists need, check cb bytes sid0 = (n, sid, need);
  frame_waits bytes sid0 : frame bytes = None ->
    exists sid need, check cb bytes sid0 = (0, sid, need) /\ (need = 0 \/ blen bytes < need <= max_block);
}.

Section frames.
Context (check : ptr -> list Z -> Z -> Z * Z * Z) (cb : ptr) (frame : list Z -> option (Z * Z)) `{!FrameLaw check cb frame}.

(** The answers of a stream, and what is left. *)
Fixpoint split_stream (fuel : nat) (bytes : list Z) : list (Z * list Z) * list Z :=
  match fuel, frame bytes with
  | S fuel, Some (n, sid) =>
      let '(frames, rest) := split_stream fuel (drop (Z.to_nat n) bytes) in ((sid, take (Z.to_nat n) bytes) :: frames, rest)
  | _, _ => ([], bytes)
  end.
Definition split_frames (bytes : list Z) : list (Z * list Z) * list Z := split_stream (length bytes) bytes.

Lemma split_stream_fuel fuel bytes : (length bytes <= fuel)%nat -> split_stream fuel bytes = split_frames bytes.
Proof.
  unfold split_frames. remember (length bytes) as k eqn:Ek. assert (Hk : (length bytes <= k)%nat) by lia. clear Ek. revert bytes fuel Hk.
  induction k as [|k IH]; intros bytes fuel Hk Hf.
  - destruct bytes; [|simpl in Hk; lia]. destruct fuel; [done|]. cbn [split_stream]. destruct (frame []) as [[n sid]|] eqn:E; [|done].
    apply frame_size in E. unfold blen in E. simpl in E. lia.
  - destruct fuel as [|fuel]; [lia|]. cbn [split_stream]. destruct (frame bytes) as [[n sid]|] eqn:E; [|done].
    apply frame_size in E. unfold blen in E. assert (Hd : (length (drop (Z.to_nat n) bytes) < length bytes)%nat) by (rewrite length_drop; lia).
    rewrite (IH (drop (Z.to_nat n) bytes) fuel); [done|lia|lia].
Qed.
Lemma split_frames_none bytes : frame bytes = None -> split_frames bytes = ([], bytes).
Proof. intros E. unfold split_frames. destruct (length bytes); [done|]. cbn. by rewrite E. Qed.
Lemma split_frames_some bytes n sid : frame bytes = Some (n, sid) ->
  split_frames bytes = ((sid, take (Z.to_nat n) bytes) :: (split_frames (drop (Z.to_nat n) bytes)).1, (split_frames (drop (Z.to_nat n) bytes)).2).
Proof.
  intros E. pose proof (frame_size _ _ _ E) as Hn. unfold blen in Hn. unfold split_frames at 1. destruct (length bytes) as [|k] eqn:Ek; [lia|].
  cbn [split_stream]. rewrite E, split_stream_fuel by (rewrite length_drop; lia). by destruct (split_frames _).
Qed.

(** The answers put together again are the stream. *)
Lemma split_frames_concat bytes : concat (map snd (split_frames bytes).1) ++ (split_frames bytes).2 = bytes.
Proof.
  remember (length bytes) as k eqn:Ek. assert (Hk : (length bytes <= k)%nat) by lia. clear Ek. revert bytes Hk.
  induction k as [|k IH]; intros bytes Hk; destruct (frame bytes) as [[n sid]|] eqn:E; try by rewrite (split_frames_none _ E).
  - pose proof (frame_size _ _ _ E) as Hn. unfold blen in Hn. lia.
  - pose proof (frame_size _ _ _ E) as Hn. unfold blen in Hn. rewrite (split_frames_some _ _ _ E). cbn [fst snd map concat].
    rewrite <- app_assoc, IH by (rewrite length_drop; lia). apply take_drop.
Qed.
(** Nothing is left but the beginning of an answer. *)
Lemma split_frames_rest bytes : frame (split_frames bytes).2 = None.
Proof.
  remember (length bytes) as k eqn:Ek. assert (Hk : (length bytes <= k)%nat) by lia. clear Ek. revert bytes Hk.
  induction k as [|k IH]; intros bytes Hk; destruct (frame bytes) as [[n sid]|] eqn:E; try by rewrite (split_frames_none _ E).
  - pose proof (frame_size _ _ _ E) as Hn. unfold blen in Hn. lia.
  - pose proof (frame_size _ _ _ E) as Hn. unfold blen in Hn. rewrite (split_frames_some _ _ _ E). cbn [snd]. apply IH. rewrite length_drop. lia.
Qed.

(** A callback sees a part of the stream: an answer in it is the first of the stream. *)
Lemma frame_take size bytes n sid : frame (take size bytes) = Some (n, sid) -> frame bytes = Some (n, sid).
Proof. intros E. rewrite <- (take_drop size bytes). by apply frame_more. Qed.

Lemma waits_no_frame size bytes sid0 sid' need : check cb (take size bytes) sid0 = (0, sid', need) -> frame (take size bytes) = None /\
  (need = 0 \/ blen (take size bytes) < need <= max_block).
Proof.
  intros Hc. destruct (frame (take size bytes)) as [[n s]|] eqn:E.
  - destruct (frame_found _ sid0 _ _ E) as [need' Hc']. rewrite Hc in Hc'. injection Hc' as <- _ _. apply frame_size in E. lia.
  - split; [done|]. destruct (frame_waits _ sid0 E) as (s & need' & Hc' & Hn). rewrite Hc in Hc'. by injection Hc' as _ ->.
Qed.

(** The dispatcher does not stop before the callback saw everything. *)
Lemma stops_saw_all size bytes need : 0 < size -> blen bytes <= max_stream -> stops size (Z.min size (blen bytes)) need = true ->
  (need = 0 \/ Z.min size (blen bytes) < need <= max_block) -> blen bytes <= size.
Proof.
  intros Hs Hb Hst Hn. unfold max_stream, max_block in *. destruct (Z.le_gt_cases (blen bytes) size) as [|Hgt]; [done|exfalso].
  rewrite Z.min_l in * by lia. unfold stops in Hst. rewrite Z.eqb_refl in Hst. destruct (Z.eqb_spec need 0) as [->|Hne]; cbn [andb] in Hst.
  - rewrite (u32_small (size * 2)) in Hst by (unfold in_u32; lia). apply orb_true_iff in Hst as [H%Z.leb_le|H%Z.ltb_lt]; lia.
  - apply orb_true_iff in Hst as [H%Z.leb_le|H%Z.ltb_lt]; lia.
Qed.

(** The rounds are the answers of the stream, all of them unless memory ran out. *)
Lemma rounds_split sid bytes frames rest ret : rounds check cb sid bytes frames rest ret -> blen bytes <= max_stream ->
  exists later, (split_frames bytes).1 = frames ++ later /\ rest = concat (map snd later) ++ (split_frames bytes).2 /\
    (ret = 0 /\ later = [] \/ ret = -3).
Proof.
  induction 1 as [sid|sid bytes size sid' need Hc Hs Hst|sid bytes size sid' need frames rest ret Hc HR IH|sid bytes size ret sid' need Hc Hr|
    sid bytes size n sid' need frames rest ret Hc Hn Hs HR IH|sid bytes]; intros Hb.
  - exists []. rewrite split_frames_none; [auto|]. destruct (frame []) as [[n s]|] eqn:E; [apply frame_size in E; unfold blen in E; simpl in E; lia|done].
  - destruct (waits_no_frame _ _ _ _ _ Hc) as [Hf Hneed].
    assert (Hl : blen (take (Z.to_nat size) bytes) = Z.min size (blen bytes)) by (unfold blen; rewrite length_take; lia). rewrite Hl in Hneed.
    assert (Hall : blen bytes <= size) by (destruct Hst as [Hst|]; [apply (stops_saw_all size bytes need); try done; lia|done]).
    rewrite take_ge in Hf by (unfold blen in Hall; lia). exists []. rewrite (split_frames_none _ Hf). auto.
  - by apply IH.
  - exfalso. destruct (frame (take (Z.to_nat size) bytes)) as [[n s]|] eqn:E.
    + destruct (frame_found _ sid _ _ E) as [need' Hc']. rewrite Hc in Hc'. injection Hc' as -> _ _. apply frame_size in E. lia.
    + destruct (frame_waits _ sid E) as (s & need' & Hc' & _). rewrite Hc in Hc'. injection Hc' as -> _ _. lia.
  - assert (E : frame (take (Z.to_nat size) bytes) = Some (n, sid')).
    { destruct (frame (take (Z.to_nat size) bytes)) as [[n' s]|] eqn:E.
      - destruct (frame_found _ sid _ _ E) as [need' Hc']. rewrite Hc in Hc'. by injection Hc' as -> -> _.
      - destruct (frame_waits _ sid E) as (s & need' & Hc' & _). rewrite Hc in Hc'. injection Hc' as -> _ _. lia. }
    apply frame_take in E. rewrite (split_frames_some _ _ _ E). destruct IH as (later & E1 & E2 & E3).
    { unfold blen in *. rewrite length_drop. lia. }
    exists later. cbn [fst snd]. by rewrite E1, E2.
  - exists (split_frames bytes).1. split; [done|]. split; [by rewrite split_frames_concat|by right].
Qed.
End frames.
