(* ===== verification/NetDemo.v ===== *)
(** * The network layer: a scripted run

    A concrete environment, tables and callback for the layer, with which its
    properties can be watched on small runs: sockets that connect at once, take so
    many bytes per call and deliver so many chunks; tables that are maps; answers that
    begin with their length and session number. *)

From Stdlib Require Import ZArith Lia.
From stdpp Require Import base gmap list option fin_maps.
From S2P Require Import Prelude Bytes HashList KeyTable RwCache NetData NetOps NetMain NetInv NetQueues NetBlocks.
From S2P Require Import NetLinks NetDest NetLease NetStay NetSteps NetRecv NetGive NetFill NetDispatch NetSend.
From S2P Require Import NetEvents NetSess NetReq NetRecycle NetRun NetFrames.

(** ** The environment *)

Record net_script := mkScript {
  sc_clock : Z;
  sc_in : list (list Z);
  sc_take : list nat;
  sc_rcvd : list Z;
  sc_sent : list Z;
}.

Definition sc_recv (_ n : Z) (e : net_script) : Z * Z * list Z * net_script :=
  match sc_in e with
  | [] => (-1, EAGAIN, [], e)
  | x :: l =>
      let d := take (Z.to_nat n) x in
      (blen d, 0, d, mkScript (sc_clock e) (match drop (Z.to_nat n) x with [] => l | y => y :: l end) (sc_take e) (sc_rcvd e ++ d) (sc_sent e))
  end.
(** Each call takes as many bytes as the next number says, 100 at most. *)
Definition sc_cap (k : nat) : nat := Nat.min k 100.
Definition sc_write (d : list Z) (e : net_script) : Z * Z * net_script :=
  match sc_take e with
  | [] => (-1, EAGAIN, e)
  | k :: l => (blen (take (sc_cap k) d), 0, mkScript (sc_clock e) (sc_in e) l (sc_rcvd e) (sc_sent e ++ take (sc_cap k) d))
  end.

#[export] Instance script_cache : CacheEnv net_script := {
  malloc_ok _ e := (true, e);
  mt_time_ms e := (sc_clock e, mkScript (sc_clock e + 1) (sc_in e) (sc_take e) (sc_rcvd e) (sc_sent e));
  sys_recv := sc_recv;
  sys_recvfrom := sc_recv;
  sys_send _ d e := sc_write d e;
}.
#[export] Instance script_net : NetEnv net_script := {
  sys_socket _ e := (5, e);
  sys_ioctl _ e := (0, e);
  sys_close _ e := e;
  sys_connect _ _ e := (0, 0, e);
  sys_sendto _ d _ e := sc_write d e;
  sys_writev _ iov e := sc_write (concat iov) e;
  EpollAddObj _ _ _ e := (true, e);
  EpollDelObj _ _ _ e := (true, e);
  EpollCtrlAdd _ _ e := (true, e);
  EpollCtrlDel _ _ e := (true, e);
  start_timer _ _ e := (true, e);
  stop_timer _ e := e;
  GetLastClock := sc_clock;
}.

Lemma sc_recv_ok : recv_law sc_rcvd sc_sent sc_recv.
Proof.
  intros fd n e k errno d e' Hn. unfold sc_recv. destruct (sc_in e) as [|x l].
  - intros [= <- <- <- <-]. split; [lia|]. split; [done|]. split; [lia|done].
  - intros [= <- <- <- <-]. cbn. split; [unfold blen; rewrite length_take; lia|]. split; [done|]. split; [done|].
    intros Hz. destruct (take (Z.to_nat n) x); [by rewrite app_nil_r|]. unfold blen in Hz. cbn in Hz. lia.
Qed.
Lemma sc_write_ok d e n err e' : sc_write d e = (n, err, e') -> n <= blen d /\ n < 2 ^ 31 /\ sc_rcvd e' = sc_rcvd e /\
  (0 <= n -> sc_sent e' = sc_sent e ++ take (Z.to_nat n) d) /\ (n < 0 -> sc_sent e' = sc_sent e).
Proof.
  unfold sc_write. destruct (sc_take e) as [|k l].
  - intros [= <- <- <-]. split_and!; try done; unfold blen; lia.
  - intros [= <- <- <-]. cbn [sc_rcvd sc_sent]. assert (Hj : (sc_cap k <= 100)%nat) by apply Nat.le_min_r. set (j := sc_cap k) in *.
    unfold blen. rewrite length_take. split; [lia|]. split; [|split; [done|split; [|lia]]].
    { apply Z.le_lt_trans with 100; [lia|by vm_compute]. }
    intros _. f_equal. rewrite Nat2Z.id. destruct (Nat.le_gt_cases j (length d)) as [H|H].
    + by rewrite Nat.min_l.
    + rewrite Nat.min_r by lia. rewrite !take_ge by lia. done.
Qed.
#[export] Instance script_net_laws : NetEnvLaws sc_rcvd sc_sent.
Proof.
  split; [split|].
  - done.
  - done.
  - exact sc_recv_ok.
  - exact sc_recv_ok.
  - intros fd d e k errno e' E. destruct (sc_write_ok d e k errno e' E) as (H1 & _ & H2 & H3 & H4). done.
  - intros fd iov e n err e' E. by apply (sc_write_ok (concat iov) e n err e').
Qed.
Lemma script_malloc : @malloc_total net_script (@net_cache_env net_script script_net).
Proof. done. Qed.

(** ** The tables: maps *)

Section map_table.
Context {K : Type} `{!EqDecision K, !Countable K}.
#[local] Instance map_table : KeyTable K (gmap K ptr) := {
  kt_new _ := ∅;
  kt_find _ t k := Some (t !! k);
  kt_insert kf t p := (0, <[kf p := p]> t);
  kt_remove _ t k := Some (delete k t);
  kt_first t := snd <$> head (map_to_list t);
  kt_size t := Z.of_nat (size t);
}.
Definition map_rep (kf : ptr -> K) (t m : gmap K ptr) : Prop := t = m /\ forall k p, m !! k = Some p -> kf p = k.
#[local] Instance map_table_laws : KeyTableLaws K (gmap K ptr) map_rep.
Proof.
  split.
  - intros kf t m k p [_ H]. apply H.
  - intros kf kf' t m [-> H] Hk. split; [done|]. intros k p Hp. rewrite (Hk k p Hp). by apply H.
  - intros kf max. by split.
  - by intros kf t m k [-> _].
  - intros kf t m p [-> H] _. eexists. split; [reflexivity|]. split; [done|]. intros k q. rewrite lookup_insert_Some.
    intros [[<- <-]|[_ Hq]]; [done|by apply H].
  - intros kf t m k [-> H]. eexists. split; [reflexivity|]. split; [done|]. intros k' q [_ Hq]%lookup_delete_Some. by apply H.
  - intros kf t m [-> _]. cbn. split; [|intros ->; by rewrite map_to_list_empty]. intros E. apply map_to_list_empty_iff.
    by destruct (map_to_list m).
  - intros kf t m p [-> H] E. cbn in E. destruct (map_to_list m) as [|[k q] l] eqn:El; [done|]. injection E as <-.
    assert (Hk : m !! k = Some q) by (apply elem_of_map_to_list; rewrite El; by left). by rewrite (H k q Hk).
  - by intros kf t m [-> _].
Qed.
End map_table.
#[export] Instance sess_map : KeyTable sess_key (gmap sess_key ptr) := map_table.
#[export] Instance ip_map : KeyTable dest_key (gmap dest_key ptr) := map_table.
#[export] Instance sess_map_laws : KeyTableLaws sess_key (gmap sess_key ptr) map_rep := map_table_laws.
#[export] Instance ip_map_laws : KeyTableLaws dest_key (gmap dest_key ptr) map_rep := map_table_laws.

(** ** The callback *)

Definition demo_length (n : Z) : Z := Z.min 255 (Z.max 2 n).
Definition demo_frame (bytes : list Z) : option (Z * Z) :=
  match bytes with
  | n :: sid :: _ => if demo_length n <=? blen bytes then Some (demo_length n, sid) else None
  | _ => None
  end.
Definition demo_check (cb : ptr) (bytes : list Z) (sid : Z) : Z * Z * Z :=
  match bytes with
  | n :: sid' :: _ => if demo_length n <=? blen bytes then (demo_length n, sid', 0) else (0, sid, demo_length n)
  | _ => (0, sid, 2)
  end.
#[export] Instance demo_check_ok : CallbackOk demo_check.
Proof.
  intros cb data sid ret sid' need. unfold demo_check, blen, demo_length.
  destruct data as [|a [|b l]]; [intros [= <- <- <-]; cbn [length]; lia..|]. destruct (Z.leb_spec (Z.min 255 (Z.max 2 a)) (Z.of_nat (length (a :: b :: l))));
    intros [= <- <- <-]; lia.
Qed.
#[export] Instance demo_frame_law cb : FrameLaw demo_check cb demo_frame.
Proof.
  split; unfold demo_check, demo_frame, blen, demo_length, max_block.
  - intros bytes n sid. destruct bytes as [|a [|b l]]; [done..|]. destruct (Z.leb_spec (Z.min 255 (Z.max 2 a)) (Z.of_nat (length (a :: b :: l)))) as [E|E]; [|done].
    intros [= <- <-]. cbn [length] in *. lia.
  - intros bytes more n sid. destruct bytes as [|a [|b l]]; [done..|]. case_match eqn:E; [|done]. apply Z.leb_le in E. intros [= <- <-].
    cbn [app]. rewrite (proj2 (Z.leb_le _ _)); [done|]. cbn [length] in *. rewrite length_app. lia.
  - intros bytes sid0 n sid. destruct bytes as [|a [|b l]]; [done..|]. case_match eqn:E; [|done]. intros [= <- <-]. by exists 0.
  - intros bytes sid0. destruct bytes as [|a [|b l]]; [intros _; do 2 eexists; split; [done|right; cbn; lia]..|].
    case_match eqn:E; [done|]. apply Z.leb_gt in E. intros _. do 2 eexists. split; [done|]. right. lia.
Qed.

(** ** Runs *)

Definition DemoSys : Type := NetSys net_script (gmap sess_key ptr) (gmap dest_key ptr).

Section runs.
Context {TS TI : Type} `{!KeyTable sess_key TS, !KeyTable dest_key TI}.
Implicit Types (s : NetSys net_script TS TI).

(** A check that something can happen. *)
Definition pc_link_here (pc : sr_pc) (w : NetW net_script TS TI) : bool :=
  match pc_phase pc with InConnect conn => bool_decide (is_Some (link conn w)) | _ => true end.
Definition can (a : net_action) s : bool :=
  let w := ns_world s in
  match a with
  | NewHelper => true
  | DeleteHelper h | SetHelper h _ => bool_decide (is_Some (item h w)) && bool_decide (h ∉ rp_free_list (nw_item_pool w)) && bool_decide (~ busy s h)
  | CallSendRecv t h data len _ =>
      bool_decide (is_Some (item h w)) && bool_decide (h ∉ rp_free_list (nw_item_pool w)) && bool_decide (~ busy s h) &&
      match data with Some d => (0 <=? len) && (len <=? blen d) && (len <? 2 ^ 32) | None => true end && bool_decide (ns_calls s !! t = None)
  | ThreadTimeout t => bool_decide (t ∈ nw_io w)
  | ThreadRuns t => bool_decide (t ∈ nw_run w) && match ns_calls s !! t with Some pc => pc_link_here pc w | None => false end
  | SocketOutput l | SocketHangup l => match link l w with Some x => bool_decide (is_Some (sl_parents x)) | None => false end
  | _ => false
  end.
Lemma can_live (l : ptr) (w : NetW net_script TS TI) :
  match link l w with Some x => bool_decide (is_Some (sl_parents x)) | None => false end = true -> live l w.
Proof. destruct (link l w) as [x|] eqn:E; [|done]. intros [d Hd]%bool_decide_eq_true. exists x. split; [done|congruence]. Qed.
Lemma can_enabled a s : can a s = true -> enabled a s.
Proof.
  destruct a; cbn [can enabled]; try done.
  - rewrite !andb_true_iff, !bool_decide_eq_true. intros [[? ?] ?]. by split.
  - rewrite !andb_true_iff, !bool_decide_eq_true. intros [[? ?] ?]. by split.
  - rewrite !andb_true_iff, !bool_decide_eq_true. intros [[[[? ?] ?] Hd] ?]. split; [by split|]. split; [|done].
    destruct data as [d|]; [|done]. cbn. rewrite !andb_true_iff in Hd. destruct Hd as [[?%Z.leb_le ?%Z.leb_le] ?%Z.ltb_lt]. lia.
  - by rewrite bool_decide_eq_true.
  - rewrite andb_true_iff, bool_decide_eq_true. intros [Ht Hp]. destruct (ns_calls s !! t) as [pc|] eqn:Ec; [|done].
    split; [done|]. split; [by exists pc|]. intros (pc' & Ec' & conn & x & Hph & Hl & _). rewrite Ec in Ec'. injection Ec' as <-.
    unfold pc_link_here in Hp. by rewrite Hph, Hl in Hp.
  - apply can_live.
  - apply can_live.
Qed.

(** The state after some actions, as far as they can happen. *)
Fixpoint run_demo (acts : list net_action) s : NetSys net_script TS TI :=
  match acts with
  | [] => s
  | a :: acts => if can a s then match net_step demo_check a s with Some s' => run_demo acts s' | None => s end else s
  end.
End runs.
