(* ===== verification/NetProps.v ===== *)
(** * The network layer: what it promises

    The properties of the network layer of the micro threads, from the lemmas of the
    files before, with the tables of [HashList] or any other that keeps the promise
    [KeyTableLaws]. *)

From Stdlib Require Import ZArith Lia.
From stdpp Require Import base gmap list option fin_maps.
From S2P Require Import Prelude Bytes HashList KeyTable RwCache NetData NetOps NetMain NetInv NetQueues NetBlocks.
From S2P Require Import NetLinks NetDest NetLease NetStay NetSteps NetRecv NetGive NetFill NetDispatch NetSend.
From S2P Require Import NetEvents NetSess NetReq NetRecycle NetRun NetFrames NetDemo.

Section props.
Context {EV TS TI : Type} `{!NetEnv EV, !KeyTable sess_key TS, !KeyTable dest_key TI}.
Context (sess_rep : (ptr -> sess_key) -> TS -> gmap sess_key ptr -> Prop) `{!KeyTableLaws sess_key TS sess_rep}.
Context (ip_rep : (ptr -> dest_key) -> TI -> gmap dest_key ptr -> Prop) `{!KeyTableLaws dest_key TI ip_rep}.
Context (rcvd sent : EV -> list Z) {NL : NetEnvLaws rcvd sent}.
Context (check_session : ptr -> list Z -> Z -> Z * Z * Z) `{!CallbackOk check_session}.

Abbreviation NetW := (NetW EV TS TI).
Abbreviation NetSys := (NetSys EV TS TI).
Abbreviation net_ok := (net_ok sess_rep ip_rep).
Abbreviation inv := (inv sess_rep ip_rep).
Abbreviation sys_ok := (sys_ok sess_rep ip_rep).
Abbreviation sys_sound := (sys_sound sess_rep ip_rep).
Abbreviation enabled := (@enabled EV TS TI _).
Abbreviation net_step := (net_step check_session).
Implicit Types (w : NetW) (s : NetSys) (h l d t p : ptr).

(** ** Reachable states *)

Definition net_new (e : EV) : NetW := new_CNetMgr e.
Definition net_start (e : EV) : NetSys := mkSys (net_new e) ∅.
Inductive net_reach (e : EV) : NetSys -> Prop :=
| reach_start : net_reach e (net_start e)
| reach_step s a s' : net_reach e s -> enabled a s -> net_step a s = Some s' -> net_reach e s'.

Lemma store_ok_empty expired size : 0 < size < 2 ^ 31 -> store_ok (mem_state ∅ (sk_buffer_mng_init expired size)) [].
Proof.
  intros H. split; cbn; [constructor|intros p Hp; by apply elem_of_nil in Hp|intros p b Hp; by apply elem_of_nil in Hp|done|done].
Qed.
Lemma new_CNetMgr_ok e : inv (net_new e).
Proof.
  split; [|intros h x Hh; unfold item, net_new, new_CNetMgr in Hh; nsimpl in Hh; by rewrite lookup_empty in Hh].
  assert (EI : v_items (view_of (net_new e)) = ∅) by (cbn; apply fmap_empty).
  assert (EL : v_links (view_of (net_new e)) = ∅) by (cbn; apply fmap_empty).
  assert (ED : v_dests (view_of (net_new e)) = ∅) by (cbn; apply fmap_empty).
  assert (Hnil : forall p : ptr, p ∈ [] -> False) by (intros p; apply not_elem_of_nil).
  split; rewrite ?EI, ?EL, ?ED.
  - split; cbn; [intros h x|intros l y q h|intros l y q|constructor|intros h Hh; by apply Hnil in Hh]; by rewrite lookup_empty.
  - split; cbn; [done|intros l x|constructor|intros l Hl; by apply Hnil in Hl|intros d y|intros d y l]; by rewrite lookup_empty.
  - exists ∅. split; [apply kt_new_ok|intros k h|intros h x]; by rewrite lookup_empty.
  - exists ∅. split; cbn; [apply kt_new_ok|intros k h|intros d y|constructor|intros d Hd; by apply Hnil in Hd]; by rewrite lookup_empty.
  - split.
    + intros proto. rewrite EI, EL. unfold all_blocks, lists_of. rewrite !fmap_empty, map_to_list_empty. cbn.
      unfold pool_of, other_free. cbn. destruct (proto =? NET_PROTO_TCP); apply store_ok_empty; unfold SK_DFLT_BUFF_SIZE; lia.
    + intros l x. by rewrite EL, lookup_empty.
Qed.
Lemma net_reach_sound e s : net_reach e s -> sys_sound s.
Proof.
  induction 1 as [|s a s' HR IH He Hs].
  - split; cbn [ns_world ns_calls net_start]; [apply new_CNetMgr_ok|intros t pc|intros t t' pc pc'|].
    + by rewrite lookup_empty.
    + by rewrite lookup_empty.
    + intros h [x Hx] _. unfold item, net_new, new_CNetMgr in Hx. nsimpl in Hx. by rewrite lookup_empty in Hx.
  - destruct (net_step_ok sess_rep ip_rep rcvd sent check_session a s IH He) as [(s2 & E & S2 & _)|[E _]]; congruence.
Qed.


(** ** The end of a request *)

(** Nothing in the world refers to handler [h]. *)
Definition unreferenced h w : Prop :=
  (forall l x q, link l w = Some x -> h ∉ qget q (link_q x)) /\ (forall k, FindNetItem k w <> Some (Some h)) /\
  (h ∉ rp_free_list (nw_item_pool w)).
Lemma parked_unreferenced h w : inv w -> used h w -> parked h w -> unreferenced h w.
Proof.
  intros [W _] [_ Hf] (x & Hh & Hc & Hs). destruct (net_detached sess_rep ip_rep None w h x W Hh Hc) as (b & Hb & _ & Hq).
  split; [exact Hq|]. split; [|done]. intros k Hk. destruct (FindNetItem_ok sess_rep ip_rep w k W) as (o & E & Ho). rewrite Hk in E. injection E as <-.
  destruct Ho as (y & Hy & _ & Hr). rewrite Hh in Hy. injection Hy as <-. by rewrite Hs in Hr.
Qed.
(** What a thread relies on while another one is inside the layer. *)
Definition undisturbed h w w' : Prop := forall p x, p <> h -> item p w = Some x -> exists x', item p w' = Some x' /\
  handler_key x' = handler_key x /\ nh_thread x' = nh_thread x /\ nh_callback x' = nh_callback x /\
  (nh_conn x' = nh_conn x \/ nh_conn x' = None).
Lemma stays_undisturbed h w w' : stays [h] w w' -> undisturbed h w w'.
Proof.
  intros S p x Hp Hx. assert (Hn : p ∉ [h]) by (by rewrite list_elem_of_singleton).
  destruct (stays_some _ _ _ _ _ S Hn Hx) as (x' & Hx' & [K _ T C L _]). by exists x'.
Qed.

(** How [SendRecv] or its continuation leaves the world. *)
Definition request_outcome t h w (r : sr_result) w' : Prop :=
  undisturbed h w w' /\ match r with
  | SrDone _ => unreferenced h w'
  | SrWait _ pc => pc_handler pc = h /\ t ∈ nw_io w' /\ exists x, item h w' = Some x /\ h ∉ rp_free_list (nw_item_pool w')
  end.
Lemma outcome_intro t h w w0 r w' : inv w' -> stays [h] w0 w' -> nw_items w0 = nw_items w -> used h w0 -> sr_post t h (r, w') -> request_outcome t h w r w'.
Proof.
  intros I S E HU HP. split.
  - intros p x Hp Hx. apply (stays_undisturbed h w0 w' S p x Hp). unfold item in *. by rewrite E.
  - pose proof (used_stays [h] h w0 w' S HU) as HU'. destruct r as [ret|left pc]; unfold sr_post in HP; cbn [fst snd] in HP.
    + by apply parked_unreferenced.
    + destruct HP as (H1 & _ & H2). split; [done|]. split; [done|]. destruct HU' as [[x Hx] Hf]. by exists x.
Qed.


(** ** Receiving *)


(** ** Sending *)

(** C10: [SendCacheTcp] keeps the order of the requests of a link.  What the socket
    took is a beginning of the waiting requests, one after the other, followed by the
    bytes of the caller; the waiting requests lose exactly these bytes, the result is
    the number of the caller's bytes among them, and a thread whose request is out may
    run; whatever the kernel takes per call, no byte is lost, repeated or overtaken. *)
Theorem send_cache_tcp_keeps_order w l (x : CSockLink) (data : option (list Z)) (len : Z) (I : inv w) (Hl : link l w = Some x)
    (Ho : own_ok data len) :
  let q := sl_send_list x in
  exists r w' n, SendCacheTcp l data len w = Some (r, w') /\ inv w' /\ 0 <= n /\
    sent (nw_env w') = sent (nw_env w) ++ take (Z.to_nat n) (pend q w ++ own data len) /\ n <= blen (pend q w ++ own data len) /\
    pend q w' = drop (Z.to_nat n) (pend q w) /\ (forall p, p ∉ q -> item p w' = item p w) /\
    (r = n - Z.min n (blen (pend q w)) \/ r = -1 /\ n = 0) /\
    (forall h i i' t, h ∈ q -> item h w = Some i -> item h w' = Some i' -> req_left i <> [] -> req_left i' = [] ->
       nh_thread i = Some t -> t ∉ nw_io w').
Proof.
  intros q. destruct (SendCacheTcp_goes sess_rep ip_rep rcvd sent w l x data len NL I Hl Ho) as ([r w'] & E & I' & S & n & Sh & Hn & Hr).
  cbn [fst snd world_of world_pair] in *. destruct Sh as [A1 A2 A3 A4 A5 A6]. exists r, w', n. split; [exact E|]. split; [done|]. split; [done|].
  assert (Hs : sent (nw_env w') = sent (nw_env w) ++ take (Z.to_nat n) (pend q w ++ own data len) /\ n <= blen (pend q w ++ own data len) /\
    (r = n - Z.min n (blen (pend q w)) \/ r = -1 /\ n = 0)).
  { destruct Hr as [(H1 & -> & H2)|(_ & H2 & H3 & H4)].
    - rewrite take_0, app_nil_r. split; [done|]. split; [unfold blen; lia|]. destruct H1 as [->| ->]; [left; unfold blen; lia|by right].
    - split; [done|]. split; [done|by left]. }
  destruct Hs as (H1 & H2 & H3). split_and!; try done.
Qed.

(** ** Links *)

(** C15: destroying a link tells everybody who waits at it.  Each handler of the link
    is unlinked and has the error of the link, and its thread may run if it waited
    for I/O; no other handler changes; the link is closed, empty and in the pool, no
    longer one of its destination.  Every other link keeps its descriptor, state, error,
    cache and answer block, and has the same handlers in each of its queues; every other
    destination and the session table are as before. *)
Theorem destroy_tells_waiters w l (x : CSockLink) d (I : inv w) (Hl : link l w = Some x) (Hp : sl_parents x = Some d) :
  exists w', Destroy l w = Some w' /\ inv w' /\
    (forall h i, item h w = Some i -> nh_conn i = Some l -> exists i', item h w' = Some i' /\ nh_conn i' = None /\
       nh_err i' = (if sl_errno x =? 0 then nh_err i else sl_errno x) /\
       forall t, nh_thread i = Some t -> t ∈ nw_io w -> (t ∉ nw_io w') /\ t ∈ nw_run w') /\
    (forall h i, item h w = Some i -> nh_conn i <> Some l -> item h w' = Some i) /\
    (exists y, link l w' = Some y /\ link_q y = no_queues /\ sl_fd y = -1 /\ rc_list (sl_cache y) = [] /\ sl_rsp y = None) /\
    rp_free_list (nw_link_pool w') = rp_free_list (nw_link_pool w) ++ [l] /\
    (exists y y', dest d w = Some y /\ dest d w' = Some y' /\ dl_sock_list y' = filter (.≠ l) (dl_sock_list y) /\
       dl_curr_link y' = dl_curr_link y - 1) /\
    (forall l' z, l' <> l -> link l' w = Some z -> exists z', link l' w' = Some z' /\ strip_link z' = strip_link z /\
       forall q h, h ∈ qget q (link_q z') <-> h ∈ qget q (link_q z)) /\
    (forall d', d' <> d -> dest d' w' = dest d' w) /\ nw_sess w' = nw_sess w.
Proof.
  pose proof I as [W _]. assert (HL : live l w) by (exists x; split; [done|congruence]).
  destruct (Destroy_goes sess_rep ip_rep rcvd sent l w I HL) as (w' & E & I' & S & x0 & d0 & Hx0 & Hd0 & R). change (world_of w') with w' in *.
  rewrite Hl in Hx0. injection Hx0 as <-. rewrite Hp in Hd0. injection Hd0 as <-.
  destruct R as [R1 R2 (y & Hd & R3) R4 R5 (R6 & R7 & R8) R9 (z & Hz & Z1 & _ & _ & _ & Z5 & Z6 & _ & Z8) R11 R12 R13 R14].
  exists w'. split; [done|]. split; [done|]. split; [|split; [|split; [by exists z|split; [done|split; [|split; [|split; [|done]]]]]]].
  - intros h i Hh Hc. assert (Hw : h ∈ waiters x) by (by apply (waiters_conn sess_rep ip_rep None w h i l x)).
    destruct (R12 h i Hw Hh) as (i' & Hi' & Hc' & He'). exists i'. split; [done|]. split; [done|]. split.
    + rewrite He'. unfold with_err, RC_SUCCESS. by destruct (sl_errno x =? 0).
    + intros t Ht Hio. pose proof (R13 h i t Hw Hh Ht) as Hno. split; [done|]. destruct R9 as [_ (more & -> & _ & Hm)].
      apply elem_of_app. right. by destruct (Hm t Hio).
  - intros h i Hh Hc. rewrite R14; [done|]. intros Hw. by apply Hc, (waiters_conn sess_rep ip_rep None w h i l x).
  - exists y. eexists. split; [done|]. split; [unfold dest; rewrite R3; apply lookup_insert_eq|]. done.
  - intros l' u Hne Hu. assert (Eu : delete l (nw_links w) !! l' = Some u) by (by rewrite lookup_delete_ne).
    destruct (fmap_eq_lookup strip_link (delete l (nw_links w')) _ _ _ (eq_sym R2) Eu) as (u' & Eu' & Su).
    rewrite lookup_delete_ne in Eu' by done. exists u'. split; [done|]. split; [done|]. intros q h. rewrite (R11 l' u u' q h Hne Hu Eu').
    split; [tauto|]. intros Hq. split; [done|]. intros Hw. destruct (queue_items sess_rep ip_rep None w l' u q h W Hu Hq) as [i Hi].
    pose proof (proj1 (waiters_conn sess_rep ip_rep None w h i l x W Hi Hl) Hw) as H1.
    assert (Hw' : h ∈ waiters u) by (unfold waiters; rewrite !elem_of_app; destruct q; cbn in Hq; tauto).
    pose proof (proj1 (waiters_conn sess_rep ip_rep None w h i l' u W Hi Hu) Hw') as H2. congruence.
  - intros d' Hne. unfold dest. rewrite R3. by apply lookup_insert_ne.
Qed.

(** C22: [GetSockLink] opens at most three links to a destination and then uses them in
    turn.  While there are less than three, a call adds a fresh link (closed, empty,
    of the protocol of the destination) at the end; with three it gives the first
    and moves it to the end, so that each of three calls in a row gives another one;
    nothing else changes. *)
Theorem get_sock_link_bounded_round_robin w d (y : CDestLinks) (W : net_ok None w) (Hd : dest d w = Some y) (Hk : dl_linked y = false) :
  exists l w' y', GetSockLink d w = Some (l, w') /\ net_ok None w' /\ dest d w' = Some y' /\ dl_curr_link y' <= 3 /\
    nw_items w' = nw_items w /\ (forall l', l' <> l -> link l' w' = link l' w) /\
    ((Z.of_nat (length (dl_sock_list y)) < 3 /\ (l ∉ dl_sock_list y) /\ dl_sock_list y' = dl_sock_list y ++ [l] /\
        exists x, link l w' = Some x /\ fresh_link (dl_proto y) d x) \/
     (exists a b, dl_sock_list y = [l; a; b] /\ dl_sock_list y' = [a; b; l] /\ link l w' = link l w)).
Proof.
  destruct (GetSockLink_ok sess_rep ip_rep w d y W Hd Hk) as (l & w' & E & W' & [G1 G2 G3 (y' & ED & Hb & Hg)]).
  destruct (net_dest sess_rep ip_rep None w d y W Hd) as (_ & Hc & _).
  exists l, w', y'. assert (Hd' : dest d w' = Some y') by (unfold dest; rewrite ED; apply lookup_insert_eq).
  assert (Hother : forall l', l' <> l -> link l' w' = link l' w).
  { intros l' Hne. unfold link. rewrite <- (lookup_delete_ne (nw_links w') l l'), G3, lookup_delete_ne; done. }
  destruct (net_dest sess_rep ip_rep None w' d y' W' Hd') as (_ & _ & _ & Hle).
  split_and!; try done; [apply (sh_items _ _ G1)|]. destruct Hg as [(H1 & H2 & H3 & _ & H5)|(H1 & q & H2 & H3 & _ & H5 & _)].
  - left. rewrite <- Hc. done.
  - right. rewrite H2 in Hc. cbn [length] in Hc. destruct q as [|a [|b [|c q]]]; cbn [length] in Hc; try lia. exists a, b.
    split; [done|]. split; [done|]. unfold link. by rewrite H5.
Qed.

(** C16: the timer of a destination closes exactly the links that were not used for
    its time.  Such a link has no descriptor, no data and no destination any more; a
    handler that waited there is unlinked, has the error code of the link if that has
    one, and its thread may run if it waited for I/O.  Links used since keep their
    descriptor, state, error, cache and answer block, and their handlers do not change.
    A destination that has no link left is deleted and goes to the pool, otherwise its
    timer starts again. *)
Theorem dest_timer_expires_links w d (y : CDestLinks) (W : net_ok None w) (Hd : dest d w = Some y) (Hk : dl_linked y = false) :
  let now := fst (mt_time_ms (nw_env w)) in
  let old l := exists x, link l w = Some x /\ expired (dl_timeout y) now x = true in
  exists w' y', timer_notify d w = Some w' /\ net_ok None w' /\ dest d w' = Some y' /\
    (forall l, l ∈ dl_sock_list y' <-> l ∈ dl_sock_list y /\ ~ old l) /\
    (forall l, l ∈ dl_sock_list y -> old l -> exists x', link l w' = Some x' /\ shut x') /\
    (forall l x, (l ∉ dl_sock_list y) \/ ~ old l -> link l w = Some x -> exists x', link l w' = Some x' /\ strip_link x' = strip_link x) /\
    (forall h x l z, item h w = Some x -> nh_conn x = Some l -> link l w = Some z -> l ∈ dl_sock_list y -> old l ->
       exists x', item h w' = Some x' /\ nh_conn x' = None /\ nh_err x' = (if sl_errno z =? 0 then nh_err x else sl_errno z) /\
         forall t, nh_thread x = Some t -> t ∈ nw_io w -> (t ∉ nw_io w') /\ t ∈ nw_run w') /\
    (forall h x, item h w = Some x -> (forall l, nh_conn x = Some l -> (l ∉ dl_sock_list y) \/ ~ old l) -> item h w' = Some x) /\
    (dl_sock_list y' = [] -> dl_linked y' = true /\ rp_free_list (nw_dest_pool w') = rp_free_list (nw_dest_pool w) ++ [d]) /\
    (dl_sock_list y' <> [] -> dl_linked y' = false /\ exists w1, dest d w1 = Some y' /\ nw_links w1 = nw_links w' /\
       nw_items w1 = nw_items w' /\ w' = StartTimer d w1).
Proof.
  intros now old. destruct (timer_notify_ok sess_rep ip_rep rcvd sent w d y W Hd Hk)
    as (w' & w1 & E & W' & Sw & W1 & EI & EL & Eio & Erun & _ & y' & Hd' & Hs & Hl & He).
  set (Ls := filter _ _) in *. fold now in Ls.
  assert (HLs : forall l, l ∈ Ls <-> l ∈ dl_sock_list y /\ old l).
  { intros l. unfold Ls. rewrite list_elem_of_filter. unfold old, sel_at. split; intros [H1 H2]; split; try done.
    - destruct (link l w) as [x|] eqn:Ex; [by exists x|done].
    - by destruct H2 as (x & -> & H2). }
  exists w', y'. split; [done|]. split; [done|]. split; [done|]. split; [|split; [|split; [|split; [|split; [|split]]]]].
  - intros l. rewrite Hs, list_elem_of_filter, HLs. tauto.
  - intros l H1 H2. unfold link in *. rewrite EL. apply (sw_gone _ _ _ _ Sw), HLs. done.
  - intros l x Hn Hx. unfold link in *. rewrite EL. apply (sw_links _ _ _ _ Sw); [rewrite HLs; tauto|done].
  - intros h x l z Hh Hc Hz Hin Ho. destruct (sw_told _ _ _ _ Sw h x l Hh Hc) as (x' & z' & Hz' & Hx' & Hc' & Hr & Ht); [by apply HLs|].
    rewrite Hz in Hz'. injection Hz' as <-. exists x'. unfold item in *. rewrite EI. split; [done|]. split; [done|]. split.
    + rewrite Hr. unfold with_err, RC_SUCCESS. by destruct (sl_errno z =? 0).
    + intros t Hth Hio. rewrite Eio, Erun. split; [by apply Ht|]. destruct (sw_woken _ _ _ _ Sw) as [_ (more & -> & _ & Hm)].
      apply elem_of_app. right. destruct (Hm t Hio); [by destruct (Ht t Hth)|done].
  - intros h x Hh Hc. unfold item. rewrite EI. apply (sw_frame _ _ _ _ Sw h x Hh). intros l Hin Hcl. apply HLs in Hin as [H1 H2].
    by destruct (Hc l Hcl).
  - intros Hn. rewrite Hl. rewrite bool_decide_true in He |- * by done. done.
  - intros Hn. rewrite Hl. rewrite bool_decide_false in He |- * by done. split; [done|]. exists w1.
    rewrite He in Hd' |- *. unfold StartTimer, env_do in *. by destruct (start_timer d (60 * 1000) (nw_env w1)).
Qed.

(** C14: the session table finds exactly the registered handlers, each under its key,
    in every reachable state of the layer (with the calling rules of C2, memory running
    out or not, links recycled while threads wait or not): a lookup by session number,
    address, protocol and kind ends and gives the one handler in a request with this
    key, or nothing.  So a request with the key of one that is under way is refused. *)
Theorem session_table_exact (e : EV) s (k : sess_key) (HR : net_reach e s) :
  exists o, FindNetItem k (ns_world s) = Some o /\
    (forall h, o = Some h <-> exists x, item h (ns_world s) = Some x /\ handler_key x = k /\ Z.testbit (nh_state x) 0 = true) /\
    (forall h, o = Some h -> busy s h).
Proof.
  pose proof (net_reach_sound e s HR) as S. destruct (so_inv _ _ s S) as [W _]. destruct (wf_sess _ _ _ _ W) as [M HM].
  exists (M !! k). split; [by apply (sess_find sess_rep)|].
  assert (Hin : forall h, M !! k = Some h <-> exists x, item h (ns_world s) = Some x /\ handler_key x = k /\ Z.testbit (nh_state x) 0 = true).
  { intros h. split.
    - intros Hk. destruct (se_in _ _ _ _ HM k h Hk) as (v & Hv & Hr & Ek). destruct (view_item_inv _ _ _ Hv) as (x & Hx & ->). by exists x.
    - intros (x & Hx & <- & Hr). by apply (se_reg _ _ _ _ HM h (item_v x)); [apply view_item|]. }
  split; [done|]. intros h Hk. destruct (decide (busy s h)) as [Hb|Hb]; [done|].
  exfalso. apply Hin in Hk as (x & Hx & _ & Hr). destruct (so_idle _ _ s S h) as (x' & Hx' & _ & Hs); [by exists x|done|].
  rewrite Hx in Hx'. injection Hx' as <-. by rewrite Hs in Hr.
Qed.
End props.

(** ** Small runs *)

Abbreviation demo_reach := (net_reach demo_check).
Lemma run_demo_reach {TS TI} `{!KeyTable sess_key TS, !KeyTable dest_key TI} acts e (s : NetSys net_script TS TI) : demo_reach e s -> demo_reach e (run_demo acts s).
Proof.
  revert s. induction acts as [|a acts IH]; intros s HR; [done|]. cbn [run_demo]. destruct (can a s) eqn:Ec; [|done].
  destruct (net_step demo_check a s) as [s'|] eqn:Es; [|done]. apply IH. eapply reach_step; [exact HR|by apply can_enabled|exact Es].
Qed.

(** Nothing is recycled in them. *)
Lemma run_demo_awaited acts (s : DemoSys) e : demo_reach e s -> awaited_exist s -> awaited_exist (run_demo acts s).
Proof.
  revert s. induction acts as [|a acts IH]; intros s HR A; [done|]. cbn [run_demo]. destruct (can a s) eqn:Ec; [|done].
  pose proof (can_enabled a s Ec) as He. pose proof (net_reach_sound map_rep map_rep sc_rcvd sc_sent demo_check e s HR) as HS.
  destruct (net_step demo_check a s) as [s'|] eqn:Es; [|done]. apply IH; [by eapply reach_step|].
  destruct (net_step_ok map_rep map_rep sc_rcvd sc_sent demo_check a s HS He) as [(s2 & E & _ & H)|[E _]]; [|congruence].
  rewrite Es in E. injection E as <-. apply H; [by destruct a|done].
Qed.
Lemma run_demo_ok acts e : sys_ok map_rep map_rep (run_demo acts (net_start e) : DemoSys).
Proof.
  apply awaited_ok.
  - apply (net_reach_sound map_rep map_rep sc_rcvd sc_sent demo_check e), run_demo_reach, reach_start.
  - apply (run_demo_awaited acts _ e); [apply reach_start|]. intros t pc. cbn. by rewrite lookup_empty.
Qed.

Definition demo_helper (h : ptr) (sid : Z) : list net_action :=
  [NewHelper; SetHelper h (SetAddress 7 80); SetHelper h (SetSessionId sid); SetHelper h (SetSessionCallback (Some 3%positive))].
Definition demo_call (t h : ptr) (sid : Z) : list net_action := demo_helper h sid ++ [CallSendRecv t h (Some [10; 20; 30]) 3 100].

#[local] Arguments demo_call (t h)%_positive_scope sid%_Z_scope.

(** Two requests over two links: the first is sent and waits for its answer, of the
    second two bytes are out. *)
Definition demo_script : net_script := mkScript 1000 [[4; 9; 1; 2; 3; 5; 8; 4]] [3%nat; 2%nat] [] [].
Definition demo_sys : DemoSys := run_demo (demo_call 14 1 9 ++ demo_call 15 2 5) (net_start demo_script).
Lemma demo_sys_reach : demo_reach demo_script demo_sys.
Proof. apply run_demo_reach, reach_start. Qed.
Lemma demo_sys_ok : sys_ok map_rep map_rep demo_sys.
Proof. apply run_demo_ok. Qed.



(** The same run with the hash tables of [HashList] and the functions of the code. *)
#[local] Instance sess_hash : KeyTable sess_key hash_table := HashList_KeyTable net_item_hash net_item_cmp.
#[local] Instance ip_hash : KeyTable dest_key hash_table := HashList_KeyTable dest_hash dest_cmp.
Definition demo_hashed : NetSys net_script hash_table hash_table :=
  run_demo (demo_call 14 1 9 ++ demo_call 15 2 5) (net_start demo_script).
Lemma demo_hashed_reach : demo_reach demo_script demo_hashed.
Proof. apply run_demo_reach, reach_start. Qed.

Lemma session_table_exact_witness :
  (FindNetItem (5, 7, 80, 2, 4) (ns_world demo_hashed) = Some (Some 2%positive) /\ busy demo_hashed 2%positive) /\
  FindNetItem (5, 7, 81, 2, 4) (ns_world demo_hashed) = Some None.
Proof.
  assert (E1 : FindNetItem (5, 7, 80, 2, 4) (ns_world demo_hashed) = Some (Some 2%positive)) by (vm_compute; reflexivity).
  split; [split; [exact E1|]|vm_compute; reflexivity].
  destruct (session_table_exact (table_rep net_item_hash) (table_rep dest_hash) sc_rcvd sc_sent demo_check demo_script demo_hashed (5, 7, 80, 2, 4)
     demo_hashed_reach) as (o & E & _ & H).
  rewrite E1 in E. injection E as <-. apply H. reflexivity.
Defined.

(** The world when the first link received both answers and the beginning of a third. *)
Definition demo_received : NetW net_script (gmap sess_key ptr) (gmap dest_key ptr) :=
  match recv_link 1%positive (ns_world demo_sys) with Some (_, w) => w | None => ns_world demo_sys end.
Definition demo_link : CSockLink := default (new_link 0) (link 1%positive (ns_world demo_sys)).
Lemma demo_link_eq : link 1%positive (ns_world demo_sys) = Some demo_link.
Proof. unfold demo_link. destruct (link 1%positive (ns_world demo_sys)) eqn:E; [reflexivity|]. vm_compute in E. discriminate. Qed.
Lemma demo_received_ok : inv map_rep map_rep demo_received.
Proof.
  assert (Hp : sl_parents demo_link <> None) by (vm_compute; discriminate).
  assert (Hfit : recv_fits 1%positive (ns_world demo_sys)).
  { intros r w' E. assert (w' = demo_received) as -> by (unfold demo_received; rewrite E; reflexivity). split; [vm_compute; reflexivity|].
    intros x Hx. vm_compute in Hx. injection Hx as <-. vm_compute. reflexivity. }
  destruct (recv_link_goes map_rep map_rep sc_rcvd sc_sent (ns_world demo_sys) 1%positive demo_link (so_inv _ _ _ (proj1 demo_sys_ok)) demo_link_eq Hp Hfit)
    as ([r w'] & E & I & _). unfold demo_received. rewrite E. exact I.
Qed.


(** Four requests whose bytes the sockets do not take at first: two at the first link. *)
Definition demo_slow : DemoSys :=
  run_demo (demo_call 14 1 9 ++ demo_call 15 2 5 ++ demo_call 16 3 6 ++ demo_call 17 4 8) (net_start (mkScript 1000 [] [] [] [])).
Lemma demo_slow_ok : sys_ok map_rep map_rep demo_slow.
Proof. apply run_demo_ok. Qed.
Definition demo_slow_link : CSockLink := default (new_link 0) (link 1%positive (ns_world demo_slow)).
Lemma demo_slow_link_eq : link 1%positive (ns_world demo_slow) = Some demo_slow_link.
Proof. unfold demo_slow_link. destruct (link 1%positive (ns_world demo_slow)) eqn:E; [reflexivity|]. vm_compute in E. discriminate. Qed.

Lemma send_cache_tcp_keeps_order_witness :
  let w := set_nw_env (mkScript 2000 [] [5%nat] [] []) (ns_world demo_slow) in
  sl_send_list demo_slow_link = [1; 4]%positive /\ pend (sl_send_list demo_slow_link) w = [10; 20; 30; 10; 20; 30] /\
  exists r w' n, SendCacheTcp 1%positive (Some [77; 78]) 2 w = Some (r, w') /\
    sc_sent (nw_env w') = sc_sent (nw_env w) ++ take (Z.to_nat n) [10; 20; 30; 10; 20; 30; 77; 78] /\
    pend (sl_send_list demo_slow_link) w' = drop (Z.to_nat n) [10; 20; 30; 10; 20; 30].
Proof.
  intros w. assert (Ep : pend (sl_send_list demo_slow_link) w = [10; 20; 30; 10; 20; 30]) by (vm_compute; reflexivity).
  split; [vm_compute; reflexivity|]. split; [exact Ep|].
  assert (Iw : inv map_rep map_rep w) by exact (inv_env map_rep map_rep (ns_world demo_slow) (mkScript 2000 [] [5%nat] [] []) (so_inv _ _ _ (proj1 demo_slow_ok))).
  assert (Ho : own_ok (Some [77; 78]) 2) by (cbn; unfold blen; cbn; lia).
  assert (Hl : link 1%positive w = Some demo_slow_link) by (unfold w, link; nsimpl; exact demo_slow_link_eq).
  destruct (send_cache_tcp_keeps_order map_rep map_rep sc_rcvd sc_sent w 1%positive demo_slow_link (Some [77; 78]) 2 Iw Hl Ho)
    as (r & w' & n & E & _ & _ & H1 & _ & H2 & _).
  exists r, w', n. split; [exact E|]. rewrite Ep in H1, H2. split; [exact H1|exact H2].
Defined.

Lemma destroy_tells_waiters_witness :
  exists w', Destroy 1%positive (ns_world demo_slow) = Some w' /\ inv map_rep map_rep w' /\
    forall h i, item h (ns_world demo_slow) = Some i -> nh_conn i = Some 1%positive -> exists i', item h w' = Some i' /\ nh_conn i' = None.
Proof.
  destruct (destroy_tells_waiters map_rep map_rep sc_rcvd sc_sent (ns_world demo_slow) 1%positive demo_slow_link 1%positive (so_inv _ _ _ (proj1 demo_slow_ok)) demo_slow_link_eq)
    as (w' & E & I & H & _); [vm_compute; reflexivity|].
  exists w'. split; [exact E|]. split; [exact I|]. intros h i Hh Hc. destruct (H h i Hh Hc) as (i' & H1 & H2 & _). exists i'. split; [exact H1|exact H2].
Defined.

Lemma get_sock_link_bounded_round_robin_witness :
  exists y l w' y', dest 1%positive (ns_world demo_slow) = Some y /\ GetSockLink 1%positive (ns_world demo_slow) = Some (l, w') /\ dest 1%positive w' = Some y' /\
    dl_curr_link y' <= 3.
Proof.
  destruct (dest 1%positive (ns_world demo_slow)) as [y|] eqn:Ed; [|exfalso; vm_compute in Ed; discriminate].
  destruct (get_sock_link_bounded_round_robin map_rep map_rep (ns_world demo_slow) 1%positive y (proj1 (so_inv _ _ _ (proj1 demo_slow_ok))) Ed)
    as (l & w' & y' & E & _ & H1 & H2 & _); [vm_compute in Ed; injection Ed as <-; reflexivity|]. 
  exists y, l, w', y'. split; [reflexivity|]. split; [exact E|]. split; [exact H1|exact H2].
Defined.

(** Twenty minutes later all links are old. *)
Lemma dest_timer_expires_links_witness :
  let w := set_nw_env (mkScript 1201000 [] [] [] []) (ns_world demo_slow) in
  exists y y' w', dest 1%positive w = Some y /\ timer_notify 1%positive w = Some w' /\ dest 1%positive w' = Some y' /\
    exists x', link 1%positive w' = Some x' /\ shut x'.
Proof.
  intros w. destruct (dest 1%positive w) as [y|] eqn:Ed; [|exfalso; vm_compute in Ed; discriminate].
  assert (W : net_ok map_rep map_rep None w)
    by exact (proj1 (inv_env map_rep map_rep (ns_world demo_slow) (mkScript 1201000 [] [] [] []) (so_inv _ _ _ (proj1 demo_slow_ok)))).
  assert (Ey : (dl_linked y, dl_timeout y, bool_decide (1%positive ∈ dl_sock_list y)) = (false, 300000, true))
    by (vm_compute in Ed; injection Ed as <-; vm_compute; reflexivity).
  injection Ey as E1 E2 E3. apply bool_decide_eq_true in E3.
  destruct (dest_timer_expires_links map_rep map_rep sc_rcvd sc_sent w 1%positive y W Ed E1) as (w' & y' & E & _ & H1 & _ & H2 & _).
  exists y, y', w'. split; [reflexivity|]. split; [exact E|]. split; [exact H1|]. apply H2.
  - exact E3.
  - exists demo_slow_link. split; [unfold w, link; nsimpl; exact demo_slow_link_eq|]. rewrite E2. vm_compute. reflexivity.
Defined.
