(* ===== verification/ConnData.v ===== *)
(** * Connections and actions of the micro threads: data

    The objects of [mt_notify.h], [mt_connection.h] and [mt_action.h] of
    [src/src/sync_frame/micro_thread]; the operations are in [ConnNtfy] and [ConnOps].

    An action ([IMtAction]) makes one request.  It borrows a connection object from
    [ConnectionMgr], a message buffer from the pool of [MbufPool] and a notification
    object (an [EpollerObj] of [Epoll]) from [NtfyObjMgr].  There are three kinds of
    connection: a UDP socket of its own, a TCP socket kept open for the next request
    to the same address ([TcpKeepMgr]), and a share in the UDP socket of a session
    object ([UdpSessionNtfy]), whose answers are told apart by the session numbers of
    [MtSession].  Objects live in stores; one that was deleted is in none. *)

From Stdlib Require Import ZArith Lia.
From stdpp Require Import base gmap list option strings.
From S2P Require Import Prelude Bytes KeyTable MtSession MbufPool Epoll.

(** [enum NTFY_OBJ_TYPE], [MULTI_PROTO], [CONN_OBJ_TYPE], [TcpKeepFlag] *)
Definition NTFY_OBJ_UNDEF : Z := 0.
Definition NTFY_OBJ_THREAD : Z := 1.
Definition NTFY_OBJ_KEEPALIVE : Z := 2.
Definition NTFY_OBJ_SESSION : Z := 3.
Definition MT_UDP : Z := 1.
Definition MT_TCP : Z := 2.
Definition OBJ_CONN_UNDEF : Z := 0.
Definition OBJ_SHORT_CONN : Z := 1.
Definition OBJ_TCP_KEEP : Z := 2.
Definition OBJ_UDP_SESSION : Z := 3.
Definition TCP_KEEP_IN_LIST : Z := 1.
Definition TCP_KEEP_IN_EPOLL : Z := 2.
(** [enum MULTI_STATE], [MULTI_CONNECT], [MULTI_ERROR] *)
Definition MULTI_FLAG_UNDEF : Z := 0.
Definition MULTI_FLAG_INIT : Z := 1.
Definition MULTI_FLAG_OPEN : Z := 2.
Definition MULTI_FLAG_SEND : Z := 4.
Definition MULTI_FLAG_FIN : Z := 8.
Definition CONN_TYPE_SHORT : Z := 1.
Definition CONN_TYPE_LONG : Z := 2.
Definition CONN_TYPE_SESSION : Z := 4.
Definition ERR_NONE : Z := 0.
Definition ERR_SOCKET_FAIL : Z := -1.
Definition ERR_CONNECT_FAIL : Z := -2.
Definition ERR_SEND_FAIL : Z := -3.
Definition ERR_RECV_FAIL : Z := -4.
Definition ERR_RECV_TIMEOUT : Z := -5.
Definition ERR_EPOLL_FAIL : Z := -6.
Definition ERR_FRAME_ERROR : Z := -7.
Definition ERR_PARAM_ERROR : Z := -9.
Definition ERR_ENCODE_ERROR : Z := -11.
(** [errno.h] *)
Definition EINTR : Z := 4.
Definition EAGAIN : Z := 11.
Definition EISCONN : Z := 106.
Definition EALREADY : Z := 114.
Definition EINPROGRESS : Z := 115.
Definition ETIME : Z := 62.

(** The address and the port of a [struct sockaddr_in], in their widths. *)
Definition addr_in (a : Z * Z) : Prop := in_u32 (fst a) /\ 0 <= snd a < 2 ^ 16.
#[export] Instance addr_in_dec a : Decision (addr_in a) := and_dec (and_dec _ _) (and_dec _ _).
Definition addr : Type := dsig addr_in.
Definition addr_of (ip port : Z) : addr :=
  dexist (u32 ip, port mod 2 ^ 16) (conj (u32_range ip) (Z.mod_pos_bound port (2 ^ 16) eq_refl)).
Definition sin_addr (a : addr) : Z := fst (proj1_sig a).
Definition sin_port (a : addr) : Z := snd (proj1_sig a).
Definition no_addr : addr := addr_of 0 0.

(** What the code uses of the kernel: [epoll_ctl], and socket calls with result,
    [errno] and the bytes received; [ce_pending] says how many datagrams wait at a
    descriptor, [ce_errno] what [errno] holds when the registration of an object failed. *)
Class ConnEnv (E : Type) := {
  ce_epoll_ctl : E -> epoll_op -> Z -> Z -> E * Z * Z;
  ce_socket : Z -> E -> Z * E;
  ce_ioctl : Z -> E -> Z * E;
  ce_bind : Z -> addr -> E -> Z * E;
  ce_close : Z -> E -> E;
  ce_connect : Z -> addr -> E -> Z * Z * E;
  ce_sendto : Z -> list Z -> addr -> E -> Z * Z * E;
  ce_recvfrom : Z -> Z -> E -> Z * Z * list Z * E;
  ce_send : Z -> list Z -> E -> Z * Z * E;
  ce_recv : Z -> Z -> E -> Z * Z * list Z * E;
  ce_errno : E -> Z;
  ce_pending : Z -> E -> nat;
}.

(** What is not the library's own: [malloc] for message buffers; what the
    uninitialised [_flag] of a new [SessionProxy] holds; whether the timer heap takes
    another timer; [GetThreadArgs] of a thread; and the virtual functions users write:
    [UdpSessionNtfy::GetSessionId] (result and session number), [IMtAction::HandleEncode]
    (result, message length and the bytes written), [HandleInput], [HandleProcess]. *)
Class ConnUser := {
  malloc : ptr -> Z -> option (list Z);
  fresh_flag : ptr -> Z;
  timer_room : gset ptr -> bool;
  thread_args : ptr -> option ptr;
  get_session_id : ptr -> list Z -> Z * Z;
  handle_encode : ptr -> Z -> Z * Z * list Z;
  handle_input : ptr -> list Z -> Z;
  handle_process : ptr -> list Z -> Z;
}.

(** [class IMtConnection] with the fields of [UdpShortConn], [UdpSessionConn] and
    [TcpKeepConn]; the constructors make [_type] tell the class.  [cn_keep_ntfy] is the
    address of the embedded [_keep_ntfy]. *)
Record IMtConnection := mkConn {
  cn_type : Z;
  cn_action : option ptr;
  cn_ntfy : option ptr;
  cn_msg : option ptr;
  cn_osfd : Z;
  cn_keep_flag : Z;
  cn_keep_time : Z;
  cn_keep_ntfy : ptr;
  cn_dst : addr;
}.
Definition set_action (v : option ptr) (x : IMtConnection) : IMtConnection := mkConn (cn_type x) v (cn_ntfy x)
  (cn_msg x) (cn_osfd x) (cn_keep_flag x) (cn_keep_time x) (cn_keep_ntfy x) (cn_dst x).
Definition set_ntfy (v : option ptr) (x : IMtConnection) : IMtConnection := mkConn (cn_type x) (cn_action x) v
  (cn_msg x) (cn_osfd x) (cn_keep_flag x) (cn_keep_time x) (cn_keep_ntfy x) (cn_dst x).
Definition set_msg (v : option ptr) (x : IMtConnection) : IMtConnection := mkConn (cn_type x) (cn_action x)
  (cn_ntfy x) v (cn_osfd x) (cn_keep_flag x) (cn_keep_time x) (cn_keep_ntfy x) (cn_dst x).
Definition set_osfd (v : Z) (x : IMtConnection) : IMtConnection := mkConn (cn_type x) (cn_action x) (cn_ntfy x)
  (cn_msg x) v (cn_keep_flag x) (cn_keep_time x) (cn_keep_ntfy x) (cn_dst x).
Definition set_keep_flag (v : Z) (x : IMtConnection) : IMtConnection := mkConn (cn_type x) (cn_action x) (cn_ntfy x)
  (cn_msg x) (cn_osfd x) v (cn_keep_time x) (cn_keep_ntfy x) (cn_dst x).
Definition set_keep_time (v : Z) (x : IMtConnection) : IMtConnection := mkConn (cn_type x) (cn_action x) (cn_ntfy x)
  (cn_msg x) (cn_osfd x) (cn_keep_flag x) v (cn_keep_ntfy x) (cn_dst x).
Definition set_dst (v : addr) (x : IMtConnection) : IMtConnection := mkConn (cn_type x) (cn_action x) (cn_ntfy x)
  (cn_msg x) (cn_osfd x) (cn_keep_flag x) (cn_keep_time x) (cn_keep_ntfy x) v.

(** [class TcpKeepKey], less the fields of [HashKey]. *)
Record TcpKeepKey := mkKeepKey {
  kk_addr : addr;
  kk_list : list ptr;
}.
Definition set_keep_list (v : list ptr) (x : TcpKeepKey) : TcpKeepKey := mkKeepKey (kk_addr x) v.

(** [TcpKeepKey::HashValue] and [HashCmp] *)
Definition keep_hash (a : addr) : Z := u32 (Z.lxor (sin_addr a) (Z.lor (u32 (Z.shiftl (sin_port a) 16)) (sin_port a))).
Definition keep_cmp (a b : addr) : Z :=
  if negb (sin_addr a =? sin_addr b) then i32 (sin_addr a - sin_addr b)
  else if negb (sin_port a =? sin_port b) then sin_port a - sin_port b
  else 0.

(** [class SessionProxy], less the fields of [EpollerObj]. *)
Record SessionProxy := mkProxy {
  sp_flag : Z;
  sp_real : option ptr;
}.
Definition set_flag (v : Z) (x : SessionProxy) : SessionProxy := mkProxy v (sp_real x).
Definition set_real (v : option ptr) (x : SessionProxy) : SessionProxy := mkProxy (sp_flag x) v.

(** [class UdpSessionNtfy] with [ISessionNtfy], less the fields of [EpollerObj]. *)
Record ISessionNtfy := mkSessNtfy {
  sn_proto : Z;
  sn_buff_size : Z;
  sn_write_list : list ptr;
  sn_msg : option ptr;
  sn_local : addr;
}.
Definition set_sn_proto (v : Z) (x : ISessionNtfy) : ISessionNtfy := mkSessNtfy v (sn_buff_size x) (sn_write_list x)
  (sn_msg x) (sn_local x).
Definition set_sn_buff_size (v : Z) (x : ISessionNtfy) : ISessionNtfy := mkSessNtfy (sn_proto x) v (sn_write_list x)
  (sn_msg x) (sn_local x).
Definition set_write_list (v : list ptr) (x : ISessionNtfy) : ISessionNtfy := mkSessNtfy (sn_proto x)
  (sn_buff_size x) v (sn_msg x) (sn_local x).
Definition set_sn_msg (v : option ptr) (x : ISessionNtfy) : ISessionNtfy := mkSessNtfy (sn_proto x) (sn_buff_size x)
  (sn_write_list x) v (sn_local x).
Definition set_local (v : addr) (x : ISessionNtfy) : ISessionNtfy := mkSessNtfy (sn_proto x) (sn_buff_size x)
  (sn_write_list x) (sn_msg x) v.

(** [class CPtrPool] *)
Record CPtrPool := mkPtrPool {
  pp_list : list ptr;
  pp_max : Z;
  pp_total : Z;
}.
Definition new_ptr_pool : CPtrPool := mkPtrPool [] 500 0.

(** [class IMtAction], less the fields of [ISession]. *)
Record IMtAction := mkAction {
  ac_flag : Z;
  ac_proto : Z;
  ac_conn_type : Z;
  ac_errno : Z;
  ac_addr : addr;
  ac_cost : Z;
  ac_buff_size : Z;
  ac_ntfy_name : Z;
  ac_msg : option ptr;
  ac_conn : option ptr;
}.
Definition set_ac_flag (v : Z) (x : IMtAction) : IMtAction := mkAction v (ac_proto x) (ac_conn_type x) (ac_errno x)
  (ac_addr x) (ac_cost x) (ac_buff_size x) (ac_ntfy_name x) (ac_msg x) (ac_conn x).
Definition set_ac_proto (v : Z) (x : IMtAction) : IMtAction := mkAction (ac_flag x) v (ac_conn_type x) (ac_errno x)
  (ac_addr x) (ac_cost x) (ac_buff_size x) (ac_ntfy_name x) (ac_msg x) (ac_conn x).
Definition set_ac_conn_type (v : Z) (x : IMtAction) : IMtAction := mkAction (ac_flag x) (ac_proto x) v (ac_errno x)
  (ac_addr x) (ac_cost x) (ac_buff_size x) (ac_ntfy_name x) (ac_msg x) (ac_conn x).
Definition set_ac_errno (v : Z) (x : IMtAction) : IMtAction := mkAction (ac_flag x) (ac_proto x) (ac_conn_type x) v
  (ac_addr x) (ac_cost x) (ac_buff_size x) (ac_ntfy_name x) (ac_msg x) (ac_conn x).
Definition set_ac_addr (v : addr) (x : IMtAction) : IMtAction := mkAction (ac_flag x) (ac_proto x) (ac_conn_type x)
  (ac_errno x) v (ac_cost x) (ac_buff_size x) (ac_ntfy_name x) (ac_msg x) (ac_conn x).
Definition set_ac_cost (v : Z) (x : IMtAction) : IMtAction := mkAction (ac_flag x) (ac_proto x) (ac_conn_type x)
  (ac_errno x) (ac_addr x) v (ac_buff_size x) (ac_ntfy_name x) (ac_msg x) (ac_conn x).
Definition set_ac_buff_size (v : Z) (x : IMtAction) : IMtAction := mkAction (ac_flag x) (ac_proto x)
  (ac_conn_type x) (ac_errno x) (ac_addr x) (ac_cost x) v (ac_ntfy_name x) (ac_msg x) (ac_conn x).
Definition set_ac_ntfy_name (v : Z) (x : IMtAction) : IMtAction := mkAction (ac_flag x) (ac_proto x)
  (ac_conn_type x) (ac_errno x) (ac_addr x) (ac_cost x) (ac_buff_size x) v (ac_msg x) (ac_conn x).
Definition set_ac_msg (v : option ptr) (x : IMtAction) : IMtAction := mkAction (ac_flag x) (ac_proto x)
  (ac_conn_type x) (ac_errno x) (ac_addr x) (ac_cost x) (ac_buff_size x) (ac_ntfy_name x) v (ac_conn x).
Definition set_ac_conn (v : option ptr) (x : IMtAction) : IMtAction := mkAction (ac_flag x) (ac_proto x)
  (ac_conn_type x) (ac_errno x) (ac_addr x) (ac_cost x) (ac_buff_size x) (ac_ntfy_name x) (ac_msg x) v.

Section world.
Context {E TB TS TK : Type}.

(** All objects: the descriptors with the [EpollerObj]s; message buffers; sessions (an
    action is a session object); actions; connections; the [_keep_conn] of the
    embedded [TcpKeepNtfy] objects; proxies and session objects; the map of
    [NtfyObjMgr]; the lists of [TcpKeepMgr] with their table; the pools; the
    connections whose timer is armed; and of the scheduler the threads that wait
    ([IO_LIST]), those that may run, and [_last_clock]. *)
Record ConnW := mkCW {
  cw_ep : EpollState E;
  cw_pool : MsgBuffPool TB;
  cw_sess : @SessionMgr TS;
  cw_acts : gmap ptr IMtAction;
  cw_conns : gmap ptr IMtConnection;
  cw_keepn : gmap ptr (option ptr);
  cw_proxies : gmap ptr SessionProxy;
  cw_ntfys : gmap ptr ISessionNtfy;
  cw_names : gmap Z ptr;
  cw_keys : gmap ptr TcpKeepKey;
  cw_hash : TK;
  cw_shorts : CPtrPool;
  cw_udps : CPtrPool;
  cw_keeps : CPtrPool;
  cw_fd_pool : CPtrPool;
  cw_proxy_pool : CPtrPool;
  cw_armed : gset ptr;
  cw_io : list ptr;
  cw_run : list ptr;
  cw_clock : Z;
}.
Definition set_ep (v : EpollState E) (x : ConnW) : ConnW := mkCW v (cw_pool x) (cw_sess x) (cw_acts x) (cw_conns x)
  (cw_keepn x) (cw_proxies x) (cw_ntfys x) (cw_names x) (cw_keys x) (cw_hash x) (cw_shorts x) (cw_udps x) (cw_keeps x)
  (cw_fd_pool x) (cw_proxy_pool x) (cw_armed x) (cw_io x) (cw_run x) (cw_clock x).
Definition set_mbufs (v : MsgBuffPool TB) (x : ConnW) : ConnW := mkCW (cw_ep x) v (cw_sess x) (cw_acts x)
  (cw_conns x) (cw_keepn x) (cw_proxies x) (cw_ntfys x) (cw_names x) (cw_keys x) (cw_hash x) (cw_shorts x) (cw_udps x)
  (cw_keeps x) (cw_fd_pool x) (cw_proxy_pool x) (cw_armed x) (cw_io x) (cw_run x) (cw_clock x).
Definition set_sm (v : @SessionMgr TS) (x : ConnW) : ConnW := mkCW (cw_ep x) (cw_pool x) v (cw_acts x) (cw_conns x)
  (cw_keepn x) (cw_proxies x) (cw_ntfys x) (cw_names x) (cw_keys x) (cw_hash x) (cw_shorts x) (cw_udps x) (cw_keeps x)
  (cw_fd_pool x) (cw_proxy_pool x) (cw_armed x) (cw_io x) (cw_run x) (cw_clock x).
Definition set_acts (v : gmap ptr IMtAction) (x : ConnW) : ConnW := mkCW (cw_ep x) (cw_pool x) (cw_sess x) v
  (cw_conns x) (cw_keepn x) (cw_proxies x) (cw_ntfys x) (cw_names x) (cw_keys x) (cw_hash x) (cw_shorts x) (cw_udps x)
  (cw_keeps x) (cw_fd_pool x) (cw_proxy_pool x) (cw_armed x) (cw_io x) (cw_run x) (cw_clock x).
Definition set_conns (v : gmap ptr IMtConnection) (x : ConnW) : ConnW := mkCW (cw_ep x) (cw_pool x) (cw_sess x)
  (cw_acts x) v (cw_keepn x) (cw_proxies x) (cw_ntfys x) (cw_names x) (cw_keys x) (cw_hash x) (cw_shorts x)
  (cw_udps x) (cw_keeps x) (cw_fd_pool x) (cw_proxy_pool x) (cw_armed x) (cw_io x) (cw_run x) (cw_clock x).
Definition set_keepn (v : gmap ptr (option ptr)) (x : ConnW) : ConnW := mkCW (cw_ep x) (cw_pool x) (cw_sess x)
  (cw_acts x) (cw_conns x) v (cw_proxies x) (cw_ntfys x) (cw_names x) (cw_keys x) (cw_hash x) (cw_shorts x)
  (cw_udps x) (cw_keeps x) (cw_fd_pool x) (cw_proxy_pool x) (cw_armed x) (cw_io x) (cw_run x) (cw_clock x).
Definition set_proxies (v : gmap ptr SessionProxy) (x : ConnW) : ConnW := mkCW (cw_ep x) (cw_pool x) (cw_sess x)
  (cw_acts x) (cw_conns x) (cw_keepn x) v (cw_ntfys x) (cw_names x) (cw_keys x) (cw_hash x) (cw_shorts x) (cw_udps x)
  (cw_keeps x) (cw_fd_pool x) (cw_proxy_pool x) (cw_armed x) (cw_io x) (cw_run x) (cw_clock x).
Definition set_ntfys (v : gmap ptr ISessionNtfy) (x : ConnW) : ConnW := mkCW (cw_ep x) (cw_pool x) (cw_sess x)
  (cw_acts x) (cw_conns x) (cw_keepn x) (cw_proxies x) v (cw_names x) (cw_keys x) (cw_hash x) (cw_shorts x)
  (cw_udps x) (cw_keeps x) (cw_fd_pool x) (cw_proxy_pool x) (cw_armed x) (cw_io x) (cw_run x) (cw_clock x).
Definition set_names (v : gmap Z ptr) (x : ConnW) : ConnW := mkCW (cw_ep x) (cw_pool x) (cw_sess x) (cw_acts x)
  (cw_conns x) (cw_keepn x) (cw_proxies x) (cw_ntfys x) v (cw_keys x) (cw_hash x) (cw_shorts x) (cw_udps x)
  (cw_keeps x) (cw_fd_pool x) (cw_proxy_pool x) (cw_armed x) (cw_io x) (cw_run x) (cw_clock x).
Definition set_keys (v : gmap ptr TcpKeepKey) (x : ConnW) : ConnW := mkCW (cw_ep x) (cw_pool x) (cw_sess x)
  (cw_acts x) (cw_conns x) (cw_keepn x) (cw_proxies x) (cw_ntfys x) (cw_names x) v (cw_hash x) (cw_shorts x)
  (cw_udps x) (cw_keeps x) (cw_fd_pool x) (cw_proxy_pool x) (cw_armed x) (cw_io x) (cw_run x) (cw_clock x).
Definition set_keep_hash (v : TK) (x : ConnW) : ConnW := mkCW (cw_ep x) (cw_pool x) (cw_sess x) (cw_acts x)
  (cw_conns x) (cw_keepn x) (cw_proxies x) (cw_ntfys x) (cw_names x) (cw_keys x) v (cw_shorts x) (cw_udps x)
  (cw_keeps x) (cw_fd_pool x) (cw_proxy_pool x) (cw_armed x) (cw_io x) (cw_run x) (cw_clock x).
Definition set_shorts (v : CPtrPool) (x : ConnW) : ConnW := mkCW (cw_ep x) (cw_pool x) (cw_sess x) (cw_acts x)
  (cw_conns x) (cw_keepn x) (cw_proxies x) (cw_ntfys x) (cw_names x) (cw_keys x) (cw_hash x) v (cw_udps x)
  (cw_keeps x) (cw_fd_pool x) (cw_proxy_pool x) (cw_armed x) (cw_io x) (cw_run x) (cw_clock x).
Definition set_udps (v : CPtrPool) (x : ConnW) : ConnW := mkCW (cw_ep x) (cw_pool x) (cw_sess x) (cw_acts x)
  (cw_conns x) (cw_keepn x) (cw_proxies x) (cw_ntfys x) (cw_names x) (cw_keys x) (cw_hash x) (cw_shorts x) v
  (cw_keeps x) (cw_fd_pool x) (cw_proxy_pool x) (cw_armed x) (cw_io x) (cw_run x) (cw_clock x).
Definition set_keeps (v : CPtrPool) (x : ConnW) : ConnW := mkCW (cw_ep x) (cw_pool x) (cw_sess x) (cw_acts x)
  (cw_conns x) (cw_keepn x) (cw_proxies x) (cw_ntfys x) (cw_names x) (cw_keys x) (cw_hash x) (cw_shorts x)
  (cw_udps x) v (cw_fd_pool x) (cw_proxy_pool x) (cw_armed x) (cw_io x) (cw_run x) (cw_clock x).
Definition set_fd_pool (v : CPtrPool) (x : ConnW) : ConnW := mkCW (cw_ep x) (cw_pool x) (cw_sess x) (cw_acts x)
  (cw_conns x) (cw_keepn x) (cw_proxies x) (cw_ntfys x) (cw_names x) (cw_keys x) (cw_hash x) (cw_shorts x) (cw_udps x)
  (cw_keeps x) v (cw_proxy_pool x) (cw_armed x) (cw_io x) (cw_run x) (cw_clock x).
Definition set_proxy_pool (v : CPtrPool) (x : ConnW) : ConnW := mkCW (cw_ep x) (cw_pool x) (cw_sess x) (cw_acts x)
  (cw_conns x) (cw_keepn x) (cw_proxies x) (cw_ntfys x) (cw_names x) (cw_keys x) (cw_hash x) (cw_shorts x) (cw_udps x)
  (cw_keeps x) (cw_fd_pool x) v (cw_armed x) (cw_io x) (cw_run x) (cw_clock x).
Definition set_armed (v : gset ptr) (x : ConnW) : ConnW := mkCW (cw_ep x) (cw_pool x) (cw_sess x) (cw_acts x)
  (cw_conns x) (cw_keepn x) (cw_proxies x) (cw_ntfys x) (cw_names x) (cw_keys x) (cw_hash x) (cw_shorts x) (cw_udps x)
  (cw_keeps x) (cw_fd_pool x) (cw_proxy_pool x) v (cw_io x) (cw_run x) (cw_clock x).
Definition set_cio (v : list ptr) (x : ConnW) : ConnW := mkCW (cw_ep x) (cw_pool x) (cw_sess x) (cw_acts x)
  (cw_conns x) (cw_keepn x) (cw_proxies x) (cw_ntfys x) (cw_names x) (cw_keys x) (cw_hash x) (cw_shorts x) (cw_udps x)
  (cw_keeps x) (cw_fd_pool x) (cw_proxy_pool x) (cw_armed x) v (cw_run x) (cw_clock x).
Definition set_crun (v : list ptr) (x : ConnW) : ConnW := mkCW (cw_ep x) (cw_pool x) (cw_sess x) (cw_acts x)
  (cw_conns x) (cw_keepn x) (cw_proxies x) (cw_ntfys x) (cw_names x) (cw_keys x) (cw_hash x) (cw_shorts x) (cw_udps x)
  (cw_keeps x) (cw_fd_pool x) (cw_proxy_pool x) (cw_armed x) (cw_io x) v (cw_clock x).
Definition set_clock (v : Z) (x : ConnW) : ConnW := mkCW (cw_ep x) (cw_pool x) (cw_sess x) (cw_acts x) (cw_conns x)
  (cw_keepn x) (cw_proxies x) (cw_ntfys x) (cw_names x) (cw_keys x) (cw_hash x) (cw_shorts x) (cw_udps x) (cw_keeps x)
  (cw_fd_pool x) (cw_proxy_pool x) (cw_armed x) (cw_io x) (cw_run x) v.
End world.
Arguments ConnW : clear implicits.

Lemma i32_zero z : - 2 ^ 32 < z < 2 ^ 32 -> i32 z = 0 -> z = 0.
Proof.
  intros Hz. unfold i32. pose proof (Z.mod_pos_bound z (2 ^ 32) eq_refl) as Hb. case_match; [|lia]. intros H0.
  apply Z.mod_divide in H0 as [k Hk]; [|done]. destruct (Z.lt_trichotomy k 0) as [?|[->|?]]; nia.
Qed.

Lemma addr_eq (a b : addr) : sin_addr a = sin_addr b -> sin_port a = sin_port b -> a = b.
Proof.
  intros H1 H2. apply dsig_eq. unfold sin_addr, sin_port in *. destruct (proj1_sig a), (proj1_sig b). simpl in *. congruence.
Qed.
Lemma addr_range (a : addr) : in_u32 (sin_addr a) /\ 0 <= sin_port a < 2 ^ 16.
Proof. exact (proj2_dsig a). Qed.

#[export] Instance keep_cmp_law : CmpLaw keep_cmp.
Proof.
  intros a b. unfold keep_cmp. pose proof (addr_range a) as [Ha _]. pose proof (addr_range b) as [Hb _]. unfold in_u32 in *.
  destruct (Z.eqb_spec (sin_addr a) (sin_addr b)) as [E|E]; cbn [negb].
  - destruct (Z.eqb_spec (sin_port a) (sin_port b)) as [E2|E2]; cbn [negb]; split; try done.
    + intros _. by apply addr_eq.
    + lia.
    + by intros ->.
  - split; [|by intros ->]. intros H. apply i32_zero in H; lia.
Qed.
