(* ===== verification/ConnNtfy.v ===== *)
(** * Notification objects of the micro threads

    Models [mt_notify.h] and [mt_notify.cpp] of [src/src/sync_frame/micro_thread] on the
    objects of [ConnData], with the pools ([CPtrPool]) and the access to objects that
    all operations use.  A function gives [None] when it touches an object that was
    deleted, corrupts a queue or copies outside a buffer. *)

From Stdlib Require Import ZArith Lia.
From stdpp Require Import base gmap list option fin_sets.
From S2P Require Import Prelude Bytes HashList KeyTable MtSession MbufPool Epoll ConnData.

Section conn.
Context {E TB TS TK : Type} `{!ConnEnv E, !KeyTable Z TB, !KeyTable Z TS, !KeyTable addr TK, !ConnUser}.
Abbreviation ConnW := (ConnW E TB TS TK).
Implicit Types (w : ConnW) (a c o s t p : ptr).

(** ** Access *)

Definition act a w : option IMtAction := cw_acts w !! a.
Definition conn c w : option IMtConnection := cw_conns w !! c.
Definition ob o w : option EpollerObj := ep_objs (cw_ep w) !! o.
Definition ntfy s w : option ISessionNtfy := cw_ntfys w !! s.
Definition mbuf p w : option MtMsgBuf := bp_bufs (cw_pool w) !! p.
Definition upd_act a (f : IMtAction -> IMtAction) w : option ConnW :=
  x ← act a w; Some (set_acts (<[a := f x]> (cw_acts w)) w).
Definition upd_conn c (f : IMtConnection -> IMtConnection) w : option ConnW :=
  x ← conn c w; Some (set_conns (<[c := f x]> (cw_conns w)) w).
Definition upd_ob o (f : EpollerObj -> EpollerObj) w : option ConnW :=
  x ← ob o w; Some (set_ep (set_obj o (f x) (cw_ep w)) w).
Definition upd_ntfy s (f : ISessionNtfy -> ISessionNtfy) w : option ConnW :=
  x ← ntfy s w; Some (set_ntfys (<[s := f x]> (cw_ntfys w)) w).
Definition upd_mbuf p (f : MtMsgBuf -> MtMsgBuf) w : option ConnW :=
  x ← mbuf p w; Some (set_mbufs (set_bufs (cw_pool w) (<[p := f x]> (bp_bufs (cw_pool w)))) w).
Definition upd_proxy p (f : SessionProxy -> SessionProxy) w : option ConnW :=
  x ← cw_proxies w !! p; Some (set_proxies (<[p := f x]> (cw_proxies w)) w).
(** An [EpollerObj] that may be [NULL]. *)
Definition upd_ob_opt (o : option ptr) (f : EpollerObj -> EpollerObj) w : option ConnW :=
  match o with Some o => upd_ob o f w | None => Some w end.

(** A call to the kernel, and one to the epoll proxy. *)
Definition k_do {A} (f : E -> A * E) w : A * ConnW :=
  let '(r, k) := f (ep_kernel (cw_ep w)) in (r, set_ep (set_kernel k (cw_ep w)) w).
Definition ep_do {A} (f : EpollState E -> A * EpollState E) w : A * ConnW :=
  let '(r, e) := f (cw_ep w) in (r, set_ep e w).
Definition k_close (fd : Z) w : ConnW := set_ep (set_kernel (ce_close fd (ep_kernel (cw_ep w))) (cw_ep w)) w.

(** A waiting thread may run: [RemoveIoWait] and [InsertRunable], if [IO_LIST] is set. *)
Definition wake (t : option ptr) w : ConnW :=
  match t with
  | Some t => if bool_decide (t ∈ cw_io w) then set_cio (filter (.≠ t) (cw_io w)) (set_crun (cw_run w ++ [t]) w) else w
  | None => w
  end.

(** [GetMsgBuf] and [FreeMsgBuf] of the pool of message buffers. *)
Definition get_mbuf (size : Z) w : option (option ptr * ConnW) :=
  '(p, b) ← GetMsgBuf malloc size (cw_pool w); Some (p, set_mbufs b w).
Definition free_mbuf (p : option ptr) w : option ConnW := b ← FreeMsgBuf p (cw_pool w); Some (set_mbufs b w).

(** ** Pools of objects *)

(** [CPtrPool::AllocPtr]: the oldest free object, or [None] when a new one is made. *)
Definition AllocPtr (k : CPtrPool) : option ptr * CPtrPool :=
  match pp_list k with
  | p :: l => (Some p, mkPtrPool l (pp_max k) (pp_total k))
  | [] => (None, mkPtrPool [] (pp_max k) (pp_total k + 1))
  end.
(** [CPtrPool::FreePtr]: the pool, and whether the object is deleted. *)
Definition FreePtr (p : ptr) (k : CPtrPool) : bool * CPtrPool :=
  if pp_max k <=? Z.of_nat (length (pp_list k)) then (true, mkPtrPool (pp_list k) (pp_max k) (pp_total k - 1))
  else (false, mkPtrPool (pp_list k ++ [p]) (pp_max k) (pp_total k)).

(** ** Notification objects *)

Definition new_ob (x : EpollerObj) w : ptr * ConnW :=
  let o : ptr := fresh (dom (ep_objs (cw_ep w)) : gset ptr) in (o, set_ep (set_obj o x (cw_ep w)) w).
Definition delete_ob o w : option ConnW :=
  _ ← ob o w;
  let e := cw_ep w in
  Some (set_proxies (delete o (cw_proxies w))
          (set_ep (mkEpollState (ep_maxfd e) (ep_refs e) (ep_kernel e) (delete o (ep_objs e))) w)).

(** [ISessionNtfy::InsertWriteWait] and [RemoveWriteWait] *)
Definition InsertWriteWait s p w : option ConnW :=
  x ← cw_proxies w !! p;
  if sp_flag x =? 0 then
    y ← ntfy s w;
    if bool_decide (p ∈ sn_write_list y) then None
    else w ← upd_ntfy s (set_write_list (sn_write_list y ++ [p])) w; upd_proxy p (set_flag 1) w
  else Some w.
Definition RemoveWriteWait s p w : option ConnW :=
  x ← cw_proxies w !! p;
  if sp_flag x =? 0 then Some w
  else
    y ← ntfy s w;
    if bool_decide (p ∈ sn_write_list y) then
      w ← upd_ntfy s (set_write_list (filter (.≠ p) (sn_write_list y))) w; upd_proxy p (set_flag 0) w
    else None.

(** [UdpSessionNtfy::NotifyWriteWait] *)
Fixpoint notify_writers (l : list ptr) w : option ConnW :=
  match l with
  | [] => Some w
  | p :: l =>
      w ← upd_ob p (SetRcvEvents EPOLLOUT) w;
      x ← ob p w;
      notify_writers l (wake (eo_thread x) w)
  end.
Definition NotifyWriteWait s w : option ConnW := x ← ntfy s w; notify_writers (sn_write_list x) w.

(** [UdpSessionNtfy::CreateSocket] *)
Definition UdpSession_CreateSocket s w : option (Z * ConnW) :=
  let '(osfd, w) := k_do (ce_socket MT_UDP) w in
  if osfd <? 0 then Some (-1, w)
  else
    let '(r, w) := k_do (ce_ioctl osfd) w in
    if r <? 0 then Some (-2, k_close osfd w)
    else
      x ← ntfy s w;
      let '(r, w) := if sin_port (sn_local x) =? 0 then (0, w) else k_do (ce_bind osfd (sn_local x)) w in
      if r <? 0 then Some (-3, k_close osfd w)
      else
        w ← upd_ob s (fun x => EnableInput (SetOsfd osfd x)) w;
        let w := set_ep (EpollNtfyReg osfd (Some s) (cw_ep w)) w in
        let '(_, w) := ep_do (EpollCtrlAdd ce_epoll_ctl osfd EPOLLIN) w in
        Some (osfd, w).

(** [UdpSessionNtfy::CloseSocket] *)
Definition UdpSession_CloseSocket s w : option ConnW :=
  x ← ob s w;
  let osfd := eo_fd x in
  if 0 <? osfd then
    let '(_, w) := ep_do (EpollCtrlDel ce_epoll_ctl osfd EPOLLIN) w in
    let w := set_ep (EpollNtfyReg osfd None (cw_ep w)) w in
    w ← upd_ob s (fun x => SetOsfd (-1) (DisableInput x)) w;
    Some (k_close osfd w)
  else Some w.

(** [UdpSessionNtfy::EpollCtlAdd] and [EpollCtlDel]; [args] is the descriptor of the
    [FdRef] they are given. *)
Definition UdpSession_EpollCtlAdd s (args : Z) w : option (Z * ConnW) :=
  x ← ob s w;
  let old_obj := GetNotifyObj (fdref (cw_ep w) args) in
  if negb (bool_decide (old_obj = None)) && negb (bool_decide (old_obj = Some s)) then Some (-1, w)
  else
    let '(ok, w) := ep_do (EpollCtrlAdd ce_epoll_ctl (eo_fd x) EPOLLOUT) w in
    if negb ok then Some (-2, w) else w ← upd_ob s EnableOutput w; Some (0, w).
Definition UdpSession_EpollCtlDel s (args : Z) w : option (Z * ConnW) :=
  x ← ob s w;
  if negb (bool_decide (GetNotifyObj (fdref (cw_ep w) args) = Some s)) then Some (-1, w)
  else
    let '(ok, w) := ep_do (EpollCtrlDel ce_epoll_ctl (eo_fd x) EPOLLOUT) w in
    if negb ok then Some (-2, w) else w ← upd_ob s DisableOutput w; Some (0, w).

(** The virtual [EpollCtlAdd] and [EpollCtlDel] of an object: [SessionProxy]'s, which
    only passes on interest in writing, [UdpSessionNtfy]'s, or the one of the base
    class. *)
Definition ctl_add o (args : Z) w : option (Z * ConnW) :=
  x ← ob o w;
  match cw_proxies w !! o with
  | Some p =>
      match sp_real p with
      | None => Some (-1, w)
      | Some real =>
          if negb (has (eo_events x) EPOLLOUT) then Some (0, w)
          else
            '(ret, w) ← UdpSession_EpollCtlAdd real args w;
            if ret <? 0 then Some (-2, w) else w ← InsertWriteWait real o w; Some (0, w)
      end
  | None =>
      match cw_ntfys w !! o with
      | Some _ => UdpSession_EpollCtlAdd o args w
      | None => Some (ep_do (EpollCtlAdd ce_epoll_ctl o) w)
      end
  end.
Definition ctl_del o (args : Z) w : option (Z * ConnW) :=
  x ← ob o w;
  match cw_proxies w !! o with
  | Some p =>
      match sp_real p with
      | None => Some (-1, w)
      | Some real =>
          if negb (has (eo_events x) EPOLLOUT) then Some (0, w)
          else w ← RemoveWriteWait real o w; UdpSession_EpollCtlDel real args w
      end
  | None =>
      match cw_ntfys w !! o with
      | Some _ => UdpSession_EpollCtlDel o args w
      | None => Some (ep_do (EpollCtlDel ce_epoll_ctl o) w)
      end
  end.

(** [EpollProxy::EpollAddObj], [EpollDelObj], [EpollAdd] and [EpollDel] on such objects. *)
Definition AddObj o w : option (bool * ConnW) :=
  x ← ob o w;
  match FdRefGet (cw_ep w) (eo_fd x) with
  | None => Some (false, w)
  | Some _ => '(ret, w) ← ctl_add o (eo_fd x) w; Some (negb (ret <? 0), w)
  end.
Definition DelObj o w : option (bool * ConnW) :=
  x ← ob o w;
  match FdRefGet (cw_ep w) (eo_fd x) with
  | None => Some (false, w)
  | Some _ => '(ret, w) ← ctl_del o (eo_fd x) w; Some (negb (ret <? 0), w)
  end.
Fixpoint DelObjs (l : list ptr) w : option ConnW :=
  match l with
  | [] => Some w
  | o :: l => '(_, w) ← DelObj o w; DelObjs l w
  end.
(** [done] are the objects registered so far, which a failure takes back. *)
Fixpoint AddObjs (added l : list ptr) w : option (bool * ConnW) :=
  match l with
  | [] => Some (true, w)
  | o :: l =>
      '(ok, w) ← AddObj o w;
      if (ok : bool) then AddObjs (added ++ [o]) l w
      else w ← DelObjs added w; Some (false, w)
  end.

(** ** The socket of a session object *)

(** [MtMsgBuf::GetMsgBuff] with [recv] or [HandleEncode] writing to it at an offset. *)
Definition buf_bytes p w : option (list Z) := b ← mbuf p w; mb_buff b.
Definition set_buff (l : option (list Z)) (b : MtMsgBuf) : MtMsgBuf :=
  mkMsgBuf (mb_max_len b) (mb_msg_len b) (mb_buf_type b) (mb_recv_len b) (mb_send_len b) l.
Definition write_buf p (off : Z) (bytes : list Z) w : option ConnW :=
  l ← buf_bytes p w; l ← bwrite off bytes l; upd_mbuf p (set_buff (Some l)) w.

Definition EAGAIN_like (errno : Z) : bool := (errno =? EINTR) || (errno =? EAGAIN) || (errno =? EINPROGRESS).

(** [ISessionNtfy::GetMsgBuffSize], also [IMtAction]'s. *)
Definition msg_buff_size (n : Z) : Z := if 0 <? n then n else 65535.

(** [UdpSessionNtfy::InputNotify] from where a datagram of [ret] bytes is in buffer [p]:
    whether the loop goes on. *)
Definition drop_packet s p w : option (bool * ConnW) :=
  w ← free_mbuf (Some p) w; w ← upd_ntfy s (set_sn_msg None) w; Some (false, w).
Definition deliver s p (ret : Z) w : option (bool * ConnW) :=
  w ← upd_mbuf p (fun b => SetMsgLen ret (SetHaveRcvLen ret b)) w;
  l ← buf_bytes p w;
  l ← bread 0 ret l;
  let '(r, sessionid) := get_session_id s l in
  if r <=? 0 then drop_packet s p w
  else
    session ← FindSession sessionid (cw_sess w);
    match session with
    | None => drop_packet s p w
    | Some a =>
        x ← sm_objs (cw_sess w) !! a;
        match is_thread x, is_conn x with
        | Some t, Some c =>
            y ← conn c w;
            match cn_ntfy y with
            | None => drop_packet s p w
            | Some o =>
                w ← match cn_msg y with Some m => free_mbuf (Some m) w | None => Some w end;
                w ← upd_conn c (set_msg (Some p)) w;
                w ← upd_ntfy s (set_sn_msg None) w;
                w ← upd_ob o (SetRcvEvents EPOLLIN) w;
                Some (true, wake (Some t) w)
            end
        | _, _ => drop_packet s p w
        end
    end.

(** One turn of its loop: the buffer kept from the last turn or a new one; the call. *)
Definition session_buf s w : option (option ptr * ConnW) :=
  x ← ntfy s w;
  match sn_msg x with
  | Some p => Some (Some p, w)
  | None =>
      '(p, w) ← get_mbuf (msg_buff_size (sn_buff_size x)) w;
      match p with
      | None => Some (None, w)
      | Some p =>
          w ← upd_ntfy s (set_sn_msg (Some p)) w;
          w ← upd_mbuf p (SetBuffType BUFF_RECV) w;
          Some (Some p, w)
      end
  end.
Definition input_turn s w : option (bool * ConnW) :=
  '(p, w) ← session_buf s w;
  match p with
  | None => Some (false, w)
  | Some p =>
      b ← mbuf p w;
      y ← ob s w;
      let '(ret, bytes, w) :=
        let '(ret, _, bytes, k) := ce_recvfrom (eo_fd y) (mb_max_len b) (ep_kernel (cw_ep w)) in
        (ret, bytes, set_ep (set_kernel k (cw_ep w)) w) in
      w ← write_buf p 0 bytes w;
      if ret <=? 0 then Some (false, w) else deliver s p ret w
  end.
Fixpoint input_loop (fuel : nat) s w : option ConnW :=
  match fuel with
  | O => None
  | S fuel => '(go, w) ← input_turn s w; if (go : bool) then input_loop fuel s w else Some w
  end.
(** The datagrams that wait bound the turns. *)
Definition UdpSession_InputNotify s w : option ConnW :=
  y ← ob s w; input_loop (S (ce_pending (eo_fd y) (ep_kernel (cw_ep w)))) s w.

(** [OutputNotify] and [HangupNotify] *)
Definition UdpSession_OutputNotify s w : option ConnW := NotifyWriteWait s w.
Definition UdpSession_HangupNotify s w : option ConnW :=
  y ← ob s w;
  let '(_, w) := ep_do (EpollCtrlDel ce_epoll_ctl (eo_fd y) (eo_events y)) w in
  w ← UdpSession_CloseSocket s w;
  '(_, w) ← UdpSession_CreateSocket s w;
  Some w.

(** ** [class NtfyObjMgr] *)

Definition RegisterSession (session_name : Z) (session : option ptr) w : Z * ConnW :=
  match session with
  | Some s =>
      if session_name <=? 0 then (-1, w)
      else match cw_names w !! session_name with
           | Some _ => (-2, w)
           | None => (0, set_names (<[session_name := s]> (cw_names w)) w)
           end
  | None => (-1, w)
  end.
Definition GetNameSession (session_name : Z) w : option ptr := cw_names w !! session_name.

(** [FreeNtfyObj]; [Reset] is virtual and a proxy forgets its session object. *)
Definition reset_ob o w : option ConnW :=
  w ← upd_ob o EpollerObj_Reset w;
  match cw_proxies w !! o with Some _ => upd_proxy o (set_real None) w | None => Some w end.
Definition FreeNtfyObj (obj : option ptr) w : option ConnW :=
  match obj with
  | None => Some w
  | Some o =>
      x ← ob o w;
      w ← reset_ob o w;
      if eo_type x =? NTFY_OBJ_THREAD then
        let '(gone, k) := FreePtr o (cw_fd_pool w) in
        if (gone : bool) then delete_ob o (set_fd_pool k w) else Some (set_fd_pool k w)
      else if eo_type x =? NTFY_OBJ_SESSION then
        match cw_proxies w !! o with
        | None => None
        | Some _ =>
            let '(gone, k) := FreePtr o (cw_proxy_pool w) in
            if (gone : bool) then delete_ob o (set_proxy_pool k w) else Some (set_proxy_pool k w)
        end
      else delete_ob o w
  end.

(** [GetNtfyObj]; [SetRealNtfyObj] also takes over the descriptor. *)
Definition SetRealNtfyObj p s w : option ConnW :=
  y ← ob s w; w ← upd_proxy p (set_real (Some s)) w; upd_ob p (SetOsfd (eo_fd y)) w.
Definition GetNtfyObj (type session_name : Z) w : option (option ptr * ConnW) :=
  if type =? NTFY_OBJ_THREAD then
    match AllocPtr (cw_fd_pool w) with
    | (Some o, k) => Some (Some o, set_fd_pool k w)
    | (None, k) => let '(o, w) := new_ob (new_EpollerObj (-1)) (set_fd_pool k w) in Some (Some o, w)
    end
  else if type =? NTFY_OBJ_SESSION then
    let '(p, w) :=
      match AllocPtr (cw_proxy_pool w) with
      | (Some p, k) => (p, set_proxy_pool k w)
      | (None, k) =>
          let '(p, w) := new_ob (new_EpollerObj (-1)) (set_proxy_pool k w) in
          (p, set_proxies (<[p := mkProxy (fresh_flag p) None]> (cw_proxies w)) w)
      end in
    match GetNameSession session_name w with
    | None => w ← FreeNtfyObj (Some p) w; Some (None, w)
    | Some s => w ← SetRealNtfyObj p s w; Some (Some p, w)
    end
  else Some (None, w).

(** The constructor of a user's session object. *)
Definition new_UdpSessionNtfy (buff_size : Z) w : ptr * ConnW :=
  let '(s, w) := new_ob (new_EpollerObj 0) w in
  (s, set_ntfys (<[s := mkSessNtfy MT_UDP buff_size [] None no_addr]> (cw_ntfys w)) w).
End conn.
