(* ===== verification/ConnOps.v ===== *)
(** * Connections of the micro threads

    Models [mt_connection.h] and [mt_connection.cpp] of
    [src/src/sync_frame/micro_thread], and the functions of [mt_action.cpp] that need
    no connection manager: what a connection does for the action it belongs to, the
    lists of idle TCP connections ([TcpKeepMgr]), and [ConnectionMgr]. *)

From Stdlib Require Import ZArith Lia.
From stdpp Require Import base gmap list option fin_sets.
From S2P Require Import Prelude Bytes HashList KeyTable MtSession MbufPool Epoll ConnData ConnNtfy.

Section conn.
Context {E TB TS TK : Type} `{!ConnEnv E, !KeyTable Z TB, !KeyTable Z TS, !KeyTable addr TK, !ConnUser}.
Abbreviation ConnW := (ConnW E TB TS TK).
Implicit Types (w : ConnW) (a c o s t p : ptr).

(** ** [IMtAction]: encoding and decoding *)

(** The message buffer of the action's connection. *)
Definition action_buf a w : option (option ptr) :=
  x ← act a w;
  match ac_conn x with
  | None => Some None
  | Some c => y ← conn c w; Some (cn_msg y)
  end.
Definition DoEncode a w : option (Z * ConnW) :=
  m ← action_buf a w;
  match m with
  | None => Some (-100, w)
  | Some p =>
      b ← mbuf p w;
      let '(ret, msg_len, bytes) := handle_encode a (mb_max_len b) in
      w ← write_buf p 0 bytes w;
      if ret <? 0 then Some (ret, w) else w ← upd_mbuf p (SetMsgLen msg_len) w; Some (0, w)
  end.
Definition DoInput a w : option Z :=
  m ← action_buf a w;
  match m with
  | None => Some (-100)
  | Some p => b ← mbuf p w; l ← mb_buff b; l ← bread 0 (mb_recv_len b) l; Some (handle_input a l)
  end.
Definition DoProcess a w : option Z :=
  m ← action_buf a w;
  match m with
  | None => Some (-100)
  | Some p =>
      b ← mbuf p w; l ← mb_buff b; l ← bread 0 (mb_msg_len b) l;
      let ret := handle_process a l in Some (if ret <? 0 then ret else 0)
  end.

(** ** [class IMtConnection] *)

(** The constructors of the three classes; [TcpKeepConn] has the address of the object
    embedded in it, which knows it. *)
Definition new_conn (type : Z) w : ptr * ConnW :=
  let c : ptr := fresh (dom (cw_conns w) : gset ptr) in
  if type =? OBJ_TCP_KEEP then
    let '(o, w) := new_ob (new_EpollerObj (-1)) w in
    (c, set_keepn (<[o := Some c]> (cw_keepn w))
          (set_conns (<[c := mkConn type None None None (-1) 0 600000 o no_addr]> (cw_conns w)) w))
  else (c, set_conns (<[c := mkConn type None None None (-1) 0 0 c no_addr]> (cw_conns w)) w).

Definition free_ntfy_msg c w : option ConnW :=
  x ← conn c w;
  w ← match cn_ntfy x with
      | Some o => w ← FreeNtfyObj (Some o) w; upd_conn c (set_ntfy None) w
      | None => Some w
      end;
  match cn_msg x with
  | Some p => w ← free_mbuf (Some p) w; upd_conn c (set_msg None) w
  | None => Some w
  end.
(** [IMtConnection::Reset]; [ConnReuseClean] is nothing else. *)
Definition IMtConnection_Reset c w : option ConnW :=
  w ← free_ntfy_msg c w;
  upd_conn c (fun x => set_msg None (set_ntfy None (set_action None x))) w.
Definition ConnReuseClean c w : option ConnW := IMtConnection_Reset c w.

(** ** [class UdpShortConn] *)

Definition UdpShort_CreateSocket c w : option (Z * ConnW) :=
  let '(fd, w) := k_do (ce_socket MT_UDP) w in
  w ← upd_conn c (set_osfd fd) w;
  if fd <? 0 then Some (-1, w)
  else
    let '(r, w) := k_do (ce_ioctl fd) w in
    if r <? 0 then w ← upd_conn c (set_osfd (-1)) (k_close fd w); Some (-2, w)
    else
      x ← conn c w;
      w ← upd_ob_opt (cn_ntfy x) (SetOsfd fd) w;
      Some (fd, w).
Definition UdpShort_CloseSocket c w : option ConnW :=
  x ← conn c w;
  if cn_osfd x <? 0 then Some w else upd_conn c (set_osfd (-1)) (k_close (cn_osfd x) w).

(** The call that sends the whole message of buffer [p] to the action's address on
    descriptor [fd], which [UdpShortConn] and [UdpSessionConn] share. *)
Definition send_packet (fd : Z) a p w : option (Z * ConnW) :=
  x ← act a w;
  b ← mbuf p w; l ← mb_buff b; l ← bread 0 (mb_msg_len b) l;
  let '(ret, errno, w) :=
    let '(ret, errno, k) := ce_sendto fd l (ac_addr x) (ep_kernel (cw_ep w)) in
    (ret, errno, set_ep (set_kernel k (cw_ep w)) w) in
  if ret =? -1 then Some (if EAGAIN_like errno then 0 else -2, w)
  else w ← upd_mbuf p (SetHaveSndLen ret) w; Some (ret, w).
Definition UdpShort_SendData c w : option (Z * ConnW) :=
  x ← conn c w;
  match cn_action x, cn_msg x with
  | Some a, Some p => send_packet (cn_osfd x) a p w
  | _, _ => Some (-100, w)
  end.

Definition UdpShort_RecvData c w : option (Z * ConnW) :=
  x ← conn c w;
  match cn_action x, cn_msg x with
  | Some a, Some p =>
      b ← mbuf p w;
      let '(ret, errno, bytes, w) :=
        let '(ret, errno, bytes, k) := ce_recvfrom (cn_osfd x) (mb_max_len b) (ep_kernel (cw_ep w)) in
        (ret, errno, bytes, set_ep (set_kernel k (cw_ep w)) w) in
      w ← write_buf p 0 bytes w;
      if ret <? 0 then Some (if EAGAIN_like errno then 0 else -2, w)
      else if ret =? 0 then Some (-1, w)
      else
        w ← upd_mbuf p (SetHaveRcvLen ret) w;
        ret ← DoInput a w;
        if 0 <? ret then w ← upd_mbuf p (SetMsgLen ret) w; Some (ret, w)
        else if ret =? 0 then Some (0, w)
        else if ret =? -65535 then w ← upd_mbuf p (SetHaveRcvLen 0) w; Some (0, w)
        else Some (-1, w)
  | _, _ => Some (-100, w)
  end.
Definition UdpShort_Reset c w : option ConnW := w ← UdpShort_CloseSocket c w; IMtConnection_Reset c w.

(** ** [class TcpKeepConn] *)

Definition TcpKeep_OpenCnnect c w : option (Z * ConnW) :=
  x ← conn c w;
  match cn_action x, cn_msg x with
  | Some a, Some _ =>
      y ← act a w;
      let '(ret, err, w) :=
        let '(ret, err, k) := ce_connect (cn_osfd x) (ac_addr y) (ep_kernel (cw_ep w)) in
        (ret, err, set_ep (set_kernel k (cw_ep w)) w) in
      if ret <? 0 then
        if err =? EISCONN then Some (0, w)
        else if (err =? EINPROGRESS) || (err =? EALREADY) || (err =? EINTR) then Some (-1, w)
        else Some (-2, w)
      else Some (0, w)
  | _, _ => Some (-100, w)
  end.
Definition TcpKeep_CreateSocket c w : option (Z * ConnW) :=
  x ← conn c w;
  if 0 <? cn_osfd x then w ← upd_ob_opt (cn_ntfy x) (SetOsfd (cn_osfd x)) w; Some (cn_osfd x, w)
  else
    let '(fd, w) := k_do (ce_socket MT_TCP) w in
    w ← upd_conn c (set_osfd fd) w;
    if fd <? 0 then Some (-1, w)
    else
      let '(r, w) := k_do (ce_ioctl fd) w in
      if r <? 0 then w ← upd_conn c (set_osfd (-1)) (k_close fd w); Some (-2, w)
      else
        w ← upd_ob (cn_keep_ntfy x) (fun y => EnableInput (DisableOutput (SetOsfd fd y))) w;
        w ← upd_ob_opt (cn_ntfy x) (SetOsfd fd) w;
        Some (fd, w).
Definition TcpKeep_SendData c w : option (Z * ConnW) :=
  x ← conn c w;
  match cn_action x, cn_msg x with
  | Some _, Some p =>
      b ← mbuf p w;
      let msg_len := mb_msg_len b in let have_send_len := mb_send_len b in
      l ← mb_buff b; l ← bread have_send_len (msg_len - have_send_len) l;
      let '(ret, errno, w) :=
        let '(ret, errno, k) := ce_send (cn_osfd x) l (ep_kernel (cw_ep w)) in
        (ret, errno, set_ep (set_kernel k (cw_ep w)) w) in
      if ret =? -1 then Some (if EAGAIN_like errno then 0 else -1, w)
      else
        w ← upd_mbuf p (SetHaveSndLen (have_send_len + ret)) w;
        Some (if msg_len <=? have_send_len + ret then msg_len else 0, w)
  | _, _ => Some (-100, w)
  end.
Definition TcpKeep_RecvData c w : option (Z * ConnW) :=
  x ← conn c w;
  match cn_action x, cn_msg x with
  | Some a, Some p =>
      b ← mbuf p w;
      let have_rcv_len := mb_recv_len b in
      let '(ret, errno, bytes, w) :=
        let '(ret, errno, bytes, k) := ce_recv (cn_osfd x) (mb_max_len b - have_rcv_len) (ep_kernel (cw_ep w)) in
        (ret, errno, bytes, set_ep (set_kernel k (cw_ep w)) w) in
      w ← write_buf p have_rcv_len bytes w;
      if ret <? 0 then Some (if EAGAIN_like errno then 0 else -2, w)
      else if ret =? 0 then Some (-1, w)
      else
        let have_rcv_len := have_rcv_len + ret in
        w ← upd_mbuf p (SetHaveRcvLen have_rcv_len) w;
        ret ← DoInput a w;
        if 0 <? ret then w ← upd_mbuf p (SetMsgLen have_rcv_len) w; Some (ret, w)
        else if ret =? 0 then Some (0, w)
        else Some (-1, w)
  | _, _ => Some (-100, w)
  end.
Definition TcpKeep_CloseSocket c w : option ConnW :=
  x ← conn c w;
  if cn_osfd x <? 0 then Some w
  else
    w ← upd_ob (cn_keep_ntfy x) (SetOsfd (-1)) w;
    upd_conn c (set_osfd (-1)) (k_close (cn_osfd x) w).
Definition TcpKeep_Reset c w : option ConnW :=
  w ← upd_conn c (set_dst no_addr) w;
  w ← TcpKeep_CloseSocket c w;
  IMtConnection_Reset c w.

(** [start_timer] and [stop_timer] of the frame's timers. *)
Definition start_timer c w : bool * ConnW :=
  if bool_decide (c ∈ cw_armed w) || negb (timer_room (cw_armed w)) then (false, w)
  else (true, set_armed ({[c]} ∪ cw_armed w) w).
Definition stop_timer c w : ConnW := set_armed (cw_armed w ∖ {[c]}) w.

Definition IdleAttach c w : option (bool * ConnW) :=
  x ← conn c w;
  if cn_osfd x <? 0 then Some (false, w)
  else if has (cn_keep_flag x) TCP_KEEP_IN_EPOLL then Some (true, w)
  else
    w ← upd_ob (cn_keep_ntfy x) (fun y => EnableInput (DisableOutput y)) w;
    let '(ok, w) := start_timer c w in
    if negb ok then Some (false, w)
    else
      '(ok, w) ← AddObj (cn_keep_ntfy x) w;
      if (ok : bool) then
        w ← upd_conn c (fun x => set_keep_flag (Z.lor (cn_keep_flag x) TCP_KEEP_IN_EPOLL) x) w; Some (true, w)
      else Some (false, w).
Definition IdleDetach c w : option (bool * ConnW) :=
  x ← conn c w;
  if cn_osfd x <? 0 then Some (false, w)
  else if negb (has (cn_keep_flag x) TCP_KEEP_IN_EPOLL) then Some (true, w)
  else
    w ← upd_ob (cn_keep_ntfy x) (fun y => EnableInput (DisableOutput y)) w;
    let w := stop_timer c w in
    '(ok, w) ← DelObj (cn_keep_ntfy x) w;
    if (ok : bool) then
      w ← upd_conn c (fun x => set_keep_flag (clear_bits (cn_keep_flag x) TCP_KEEP_IN_EPOLL) x) w; Some (true, w)
    else Some (false, w).

(** ** [class TcpKeepKey] and [TcpKeepMgr] *)

Definition keep_key (ks : gmap ptr TcpKeepKey) (p : ptr) : addr := default no_addr (kk_addr <$> ks !! p).
Definition upd_key k (f : TcpKeepKey -> TcpKeepKey) w : option ConnW :=
  x ← cw_keys w !! k; Some (set_keys (<[k := f x]> (cw_keys w)) w).

(** [TAILQ_INSERT_TAIL] of an element that some list holds, and [TAILQ_REMOVE] from a list
    that does not hold it, corrupt the lists. *)
Definition InsertConn k c w : option ConnW :=
  x ← conn c w;
  if has (cn_keep_flag x) TCP_KEEP_IN_LIST then Some w
  else
    y ← cw_keys w !! k;
    if bool_decide (c ∈ kk_list y) then None
    else
      w ← upd_key k (set_keep_list (kk_list y ++ [c])) w;
      upd_conn c (fun x => set_keep_flag (Z.lor (cn_keep_flag x) TCP_KEEP_IN_LIST) x) w.
Definition RemoveConn k c w : option ConnW :=
  x ← conn c w;
  if negb (has (cn_keep_flag x) TCP_KEEP_IN_LIST) then Some w
  else
    y ← cw_keys w !! k;
    if bool_decide (c ∈ kk_list y) then
      w ← upd_key k (set_keep_list (filter (.≠ c) (kk_list y))) w;
      upd_conn c (fun x => set_keep_flag (clear_bits (cn_keep_flag x) TCP_KEEP_IN_LIST) x) w
    else None.

(** [HashFindData] of a key on the stack. *)
Definition find_keep (dst : addr) w : option (option ptr) := kt_find (keep_key (cw_keys w)) (cw_hash w) dst.

(** [AllocPtr] of a pool of connections. *)
Definition alloc_conn (type : Z) (k : CPtrPool) (set : CPtrPool -> ConnW -> ConnW) w : ptr * ConnW :=
  match AllocPtr k with
  | (Some c, k) => (c, set k w)
  | (None, k) => new_conn type (set k w)
  end.
Definition GetTcpKeepConn (dst : addr) w : option (option ptr * ConnW) :=
  conn_list ← find_keep dst w;
  let fresh_conn :=
    let '(c, w) := alloc_conn OBJ_TCP_KEEP (cw_keeps w) set_keeps w in
    w ← upd_conn c (set_dst dst) w; Some (Some c, w) in
  match conn_list with
  | None => fresh_conn
  | Some k =>
      y ← cw_keys w !! k;
      match kk_list y with
      | [] => fresh_conn
      | c :: _ =>
          w ← RemoveConn k c w;
          '(_, w) ← IdleDetach c w;
          Some (Some c, w)
      end
  end.
Definition bad_addr (dst : addr) : bool := (sin_addr dst =? 0) || (sin_port dst =? 0).
Definition RemoveTcpKeepConn c w : option (bool * ConnW) :=
  x ← conn c w;
  if bad_addr (cn_dst x) then Some (false, w)
  else
    conn_list ← find_keep (cn_dst x) w;
    match conn_list with
    | None => Some (false, w)
    | Some k => '(_, w) ← IdleDetach c w; w ← RemoveConn k c w; Some (true, w)
    end.
Definition CacheTcpKeepConn c w : option (bool * ConnW) :=
  x ← conn c w;
  if bad_addr (cn_dst x) then Some (false, w)
  else
    conn_list ← find_keep (cn_dst x) w;
    let '(k, w) :=
      match conn_list with
      | Some k => (k, w)
      | None =>
          let k : ptr := fresh (dom (cw_keys w) : gset ptr) in
          let w := set_keys (<[k := mkKeepKey (cn_dst x) []]> (cw_keys w)) w in
          (k, set_keep_hash (kt_insert (keep_key (cw_keys w)) (cw_hash w) k).2 w)
      end in
    '(ok, w) ← IdleAttach c w;
    if negb ok then Some (false, w)
    else
      w ← ConnReuseClean c w;
      w ← InsertConn k c w;
      Some (true, w).

(** The destructors of connections; the embedded object of a [TcpKeepConn] goes with
    it. *)
Definition delete_conn c w : option ConnW :=
  x ← conn c w;
  w ← (if cn_type x =? OBJ_TCP_KEEP then TcpKeep_CloseSocket c w
       else if cn_type x =? OBJ_SHORT_CONN then UdpShort_CloseSocket c w else Some w);
  w ← free_ntfy_msg c w;
  w ← (if cn_type x =? OBJ_TCP_KEEP then
         w ← delete_ob (cn_keep_ntfy x) w; Some (set_keepn (delete (cn_keep_ntfy x) (cw_keepn w)) w)
       else Some w);
  Some (set_conns (delete c (cw_conns w)) w).
(** [FreePtr] of a pool of connections. *)
Definition free_conn c (k : CPtrPool) (set : CPtrPool -> ConnW -> ConnW) w : option ConnW :=
  let '(gone, k) := FreePtr c k in
  if (gone : bool) then w ← delete_conn c w; Some (set k w) else Some (set k w).
Definition release_keep c w : option ConnW := w ← TcpKeep_Reset c w; free_conn c (cw_keeps w) set_keeps w.
Definition FreeTcpKeepConn c (force_free : bool) w : option ConnW :=
  if force_free then release_keep c w
  else '(ok, w) ← CacheTcpKeepConn c w; if (ok : bool) then Some w else release_keep c w.

(** ** [class UdpSessionConn] *)

Definition UdpSessionConn_CreateSocket c w : option (Z * ConnW) :=
  x ← conn c w;
  match cn_action x, cn_ntfy x with
  | Some _, Some o =>
      match cw_proxies w !! o with
      | None => Some (-200, w)
      | Some y =>
          match sp_real y with
          | None => Some (-300, w)
          | Some s =>
              z ← ob s w;
              '(osfd, w) ← if eo_fd z <=? 0 then UdpSession_CreateSocket s w else Some (eo_fd z, w);
              if osfd <=? 0 then Some (-400, w) else w ← upd_ob o (SetOsfd osfd) w; Some (osfd, w)
          end
      end
  | _, _ => Some (-100, w)
  end.
Definition UdpSessionConn_SendData c w : option (Z * ConnW) :=
  x ← conn c w;
  match cn_action x, cn_msg x, cn_ntfy x with
  | Some a, Some p, Some o => y ← ob o w; send_packet (eo_fd y) a p w
  | _, _, _ => Some (-100, w)
  end.
Definition UdpSessionConn_RecvData c w : option (Z * ConnW) :=
  x ← conn c w;
  match cn_ntfy x, cn_msg x with
  | Some o, Some p =>
      y ← ob o w;
      if eo_revents y <=? 0 then Some (0, w)
      else b ← mbuf p w; Some (if mb_buf_type b =? BUFF_RECV then mb_msg_len b else 0, w)
  | _, _ => Some (-100, w)
  end.

(** ** The virtual functions of a connection, by its class *)

Definition by_type {A} c (short keep sess : ptr -> ConnW -> option A) (base : A) w : option A :=
  x ← conn c w;
  if cn_type x =? OBJ_SHORT_CONN then short c w
  else if cn_type x =? OBJ_TCP_KEEP then keep c w
  else if cn_type x =? OBJ_UDP_SESSION then sess c w
  else Some base.
Definition CreateSocket c w : option (Z * ConnW) :=
  by_type c UdpShort_CreateSocket TcpKeep_CreateSocket UdpSessionConn_CreateSocket (0, w) w.
Definition OpenCnnect c w : option (Z * ConnW) :=
  by_type c (fun _ w => Some (0, w)) TcpKeep_OpenCnnect (fun _ w => Some (0, w)) (0, w) w.
Definition SendData c w : option (Z * ConnW) :=
  by_type c UdpShort_SendData TcpKeep_SendData UdpSessionConn_SendData (0, w) w.
Definition RecvData c w : option (Z * ConnW) :=
  by_type c UdpShort_RecvData TcpKeep_RecvData UdpSessionConn_RecvData (0, w) w.

(** ** [class ConnectionMgr] *)

Definition GetConnection (type : Z) (dst : addr) w : option (option ptr * ConnW) :=
  if type =? OBJ_SHORT_CONN then
    let '(c, w) := alloc_conn OBJ_SHORT_CONN (cw_shorts w) set_shorts w in Some (Some c, w)
  else if type =? OBJ_TCP_KEEP then GetTcpKeepConn dst w
  else if type =? OBJ_UDP_SESSION then
    let '(c, w) := alloc_conn OBJ_UDP_SESSION (cw_udps w) set_udps w in Some (Some c, w)
  else Some (None, w).
Definition FreeConnection (conn_ptr : option ptr) (force_free : bool) w : option ConnW :=
  match conn_ptr with
  | None => Some w
  | Some c =>
      x ← conn c w;
      if cn_type x =? OBJ_SHORT_CONN then w ← UdpShort_Reset c w; free_conn c (cw_shorts w) set_shorts w
      else if cn_type x =? OBJ_TCP_KEEP then FreeTcpKeepConn c force_free w
      else if cn_type x =? OBJ_UDP_SESSION then w ← IMtConnection_Reset c w; free_conn c (cw_udps w) set_udps w
      else delete_conn c w
  end.
Definition CloseIdleTcpKeep c w : option ConnW := '(_, w) ← RemoveTcpKeepConn c w; FreeTcpKeepConn c true w.

(** [TcpKeepConn::timer_notify], after [check_expired] took the timer off its heap. *)
Definition timer_notify c w : option ConnW := CloseIdleTcpKeep c w.
Definition fire_timer c w : option ConnW := timer_notify c (stop_timer c w).
(** [TcpKeepNtfy::KeepaliveClose], for any event at the descriptor of an idle connection. *)
Definition KeepaliveClose o w : option ConnW :=
  match cw_keepn w !! o with
  | None => None
  | Some None => Some w
  | Some (Some c) => CloseIdleTcpKeep c w
  end.
End conn.
