(* ===== verification/ConnAct.v ===== *)
(** * Actions of the micro threads and their concurrent requests

    Models [mt_action.cpp] and [mt_concurrent.cpp] of
    [src/src/sync_frame/micro_thread]: an action's life, and the functions that open
    the connections of a list of actions, send their requests and collect the answers
    in one thread.  While that thread waits in [EpollSchedule] the other threads and the
    scheduler run; what they do is a parameter. *)

From Stdlib Require Import ZArith Lia.
From stdpp Require Import base gmap list option fin_sets.
From S2P Require Import Prelude Bytes HashList KeyTable MtSession MbufPool Epoll ConnData ConnNtfy ConnOps.

Section conn.
Context {E TB TS TK : Type} `{!ConnEnv E, !KeyTable Z TB, !KeyTable Z TS, !KeyTable addr TK, !ConnUser}.
Abbreviation ConnW := (ConnW E TB TS TK).
Implicit Types (w : ConnW) (a c o s t p : ptr).

(** ** [class IMtAction] *)

(** [Init] *)
Definition action_init : IMtAction := mkAction MULTI_FLAG_UNDEF MT_UDP CONN_TYPE_SHORT ERR_NONE no_addr 0 0 0 None None.
(** The constructor, which makes a session object as well; the setters that users call. *)
Definition new_IMtAction w : ptr * ConnW :=
  let a : ptr := fresh (dom (cw_acts w) ∪ dom (sm_objs (cw_sess w)) : gset ptr) in
  (a, set_sm (new_session a (cw_sess w)) (set_acts (<[a := action_init]> (cw_acts w)) w)).
Definition setup_action a (proto conn_type : Z) (dst : addr) (buff_size name : Z) w : option ConnW :=
  upd_act a (fun x => set_ac_proto proto (set_ac_conn_type conn_type (set_ac_addr dst
    (set_ac_buff_size buff_size (set_ac_ntfy_name name x))))) w.

(** [Reset] *)
Definition IMtAction_Reset a w : option ConnW :=
  x ← act a w;
  match ac_conn x with
  | None => Some w
  | Some c => w ← FreeConnection (Some c) (negb (ac_errno x =? ERR_NONE)) w; upd_act a (set_ac_conn None) w
  end.
(** [~IMtAction] and [~ISession] *)
Definition delete_IMtAction a w : option ConnW :=
  w ← IMtAction_Reset a w;
  m ← delete_session a (cw_sess w);
  Some (set_acts (delete a (cw_acts w)) (set_sm m w)).

(** [GetNtfyObj] *)
Definition action_ntfy a w : option (option ptr) :=
  x ← act a w;
  match ac_conn x with
  | None => Some None
  | Some c => y ← conn c w; Some (cn_ntfy y)
  end.

(** [InitConnEnv] in thread [t]. *)
Definition obj_types (x : IMtAction) : Z * Z :=
  if (ac_proto x =? MT_UDP) && (ac_conn_type x =? CONN_TYPE_SESSION) then (OBJ_UDP_SESSION, NTFY_OBJ_SESSION)
  else if ac_proto x =? MT_UDP then (OBJ_SHORT_CONN, NTFY_OBJ_THREAD)
  else (OBJ_TCP_KEEP, NTFY_OBJ_THREAD).
Definition join_session a t c w : option ConnW :=
  m ← upd_session a (MtSession.SetOwnerThread (Some t)) (cw_sess w);
  m ← upd_session a (SetSessionConn (Some c)) m;
  let '(id, m) := GetSessionId m in
  m ← upd_session a (SetSessionId id) m;
  '(_, m) ← InsertSession (Some a) m;
  Some (set_sm m w).
Definition InitConnEnv a t w : option (Z * ConnW) :=
  x ← act a w;
  match ac_conn x with
  | Some _ => Some (-100, w)
  | None =>
      let '(conn_type, ntfy_type) := obj_types x in
      '(c, w) ← GetConnection conn_type (ac_addr x) w;
      w ← upd_act a (set_ac_conn c) w;
      match c with
      | None => Some (-1, w)
      | Some c =>
          w ← upd_conn c (set_action (Some a)) w;
          '(p, w) ← get_mbuf (msg_buff_size (ac_buff_size x)) w;
          match p with
          | None => Some (-2, w)
          | Some p =>
              w ← upd_mbuf p (SetBuffType BUFF_SEND) w;
              w ← upd_conn c (set_msg (Some p)) w;
              '(o, w) ← GetNtfyObj ntfy_type (ac_ntfy_name x) w;
              match o with
              | None => Some (-3, w)
              | Some o =>
                  w ← upd_conn c (set_ntfy (Some o)) w;
                  w ← upd_ob o (Epoll.SetOwnerThread (Some t)) w;
                  w ← upd_act a (set_ac_msg (thread_args t)) w;
                  w ← (if conn_type =? OBJ_UDP_SESSION then join_session a t c w else Some w);
                  Some (0, w)
              end
          end
      end
  end.

(** The managers as their constructors make them. *)
Definition new_managers (maxfd : Z) (e : E) : ConnW :=
  mkCW (mkEpollState maxfd ∅ e ∅) (new_MsgBuffPool 300) new_SessionMgr ∅ ∅ ∅ ∅ ∅ ∅ ∅ (kt_new 10000)
    new_ptr_pool new_ptr_pool new_ptr_pool new_ptr_pool new_ptr_pool ∅ [] [] 0.

(** ** [mt_concurrent.cpp] *)

(** What runs from [SwitchContext] until thread [t], which waits until the given time,
    is resumed. *)
Context (switch : ptr -> Z -> ConnW -> option ConnW).
(** [MtFrame::GetLastClock] *)
Definition clock w : Z := cw_clock w.

(** [EpollSchedule] with a list of objects: whether it succeeded, and [errno]. *)
Fixpoint received (l : list ptr) w : option Z :=
  match l with
  | [] => Some 0
  | o :: l => x ← ob o w; n ← received l w; Some (if eo_revents x =? 0 then n else n + 1)
  end.
Definition EpollSchedule t (fdlist : list ptr) (timeout : Z) w : option (bool * Z * ConnW) :=
  '(ok, w) ← AddObjs [] fdlist w;
  if negb ok then Some (false, ce_errno (ep_kernel (cw_ep w)), w)
  else
    w ← switch t (u64 (timeout + clock w)) (set_cio (cw_io w ++ [t]) w);
    n ← received fdlist w;
    w ← DelObjs fdlist w;
    Some (if n =? 0 then (false, ETIME, w) else (true, ce_errno (ep_kernel (cw_ep w)), w)).

(** [mt_multi_netfd_poll]; an object that is put into the list twice corrupts it. *)
Definition set_how (how : Z) (x : EpollerObj) : EpollerObj :=
  let x := SetRcvEvents 0 x in
  let x := if has how EPOLLIN then EnableInput x else DisableInput x in
  if has how EPOLLOUT then EnableOutput x else DisableOutput x.
Fixpoint poll_list (req_list : list ptr) (how : Z) (fdlist : list ptr) w : option (option (list ptr) * ConnW) :=
  match req_list with
  | [] => Some (Some fdlist, w)
  | a :: l =>
      obj ← action_ntfy a w;
      match obj with
      | None => w ← upd_act a (set_ac_errno ERR_FRAME_ERROR) w; Some (None, w)
      | Some o =>
          w ← upd_ob o (set_how how) w;
          if bool_decide (o ∈ fdlist) then None else poll_list l how (fdlist ++ [o]) w
      end
  end.
Definition mt_multi_netfd_poll t (req_list : list ptr) (how timeout : Z) w : option (Z * ConnW) :=
  '(fdlist, w) ← poll_list req_list how [] w;
  match fdlist with
  | None => Some (-1, w)
  | Some fdlist =>
      '(ok, errno, w) ← EpollSchedule t fdlist (i32 timeout) w;
      if (ok : bool) then Some (0, w)
      else if negb (errno =? ETIME) then
        w ← match last req_list with Some a => upd_act a (set_ac_errno ERR_EPOLL_FAIL) w | None => Some w end;
        Some (-2, w)
      else Some (-3, w)
  end.

(** [mt_multi_newsock] *)
Fixpoint newsock_loop (req_list : list ptr) (has_ok : bool) w : option (Z * ConnW) :=
  match req_list with
  | [] => Some (if has_ok then 0 else -4, w)
  | a :: l =>
      x ← act a w;
      if negb (ac_errno x =? ERR_NONE) then newsock_loop l has_ok w
      else
        match ac_conn x with
        | None => w ← upd_act a (set_ac_errno ERR_FRAME_ERROR) w; Some (-2, w)
        | Some c =>
            '(sock, w) ← CreateSocket c w;
            if sock <? 0 then w ← upd_act a (set_ac_errno ERR_SOCKET_FAIL) w; Some (-3, w)
            else
              w ← upd_act a (set_ac_flag (if ac_proto x =? MT_UDP then MULTI_FLAG_OPEN else MULTI_FLAG_INIT)) w;
              newsock_loop l true w
        end
  end.
Definition mt_multi_newsock (req_list : list ptr) w : option (Z * ConnW) := newsock_loop req_list false w.

(** The [for] loop of [mt_multi_open], of [mt_multi_sendto] and of [mt_multi_recvfrom]
    over the actions that have no error: one that is past the step is skipped (and
    noted), one without connection ends the function, the others try it and may have to
    wait. *)
Inductive scan_res := ScanFail (ret : Z) | ScanDone (seen : bool) (wait_list : list ptr).
Section scan.
Context (past : IMtAction -> bool) (no_conn : Z) (try : ptr -> ptr -> ConnW -> option (bool * ConnW)).
Fixpoint scan (req_list : list ptr) (seen : bool) (wait_list : list ptr) w : option (scan_res * ConnW) :=
  match req_list with
  | [] => Some (ScanDone seen wait_list, w)
  | a :: l =>
      x ← act a w;
      if negb (ac_errno x =? ERR_NONE) then scan l seen wait_list w
      else if past x then scan l true wait_list w
      else
        match ac_conn x with
        | None => w ← upd_act a (set_ac_errno ERR_FRAME_ERROR) w; Some (ScanFail no_conn, w)
        | Some c =>
            '(wait, w) ← try a c w;
            scan l seen (if (wait : bool) then wait_list ++ [a] else wait_list) w
        end
  end.

Fixpoint set_errnos (l : list ptr) (err : Z) w : option ConnW :=
  match l with
  | [] => Some w
  | a :: l => w ← upd_act a (set_ac_errno err) w; set_errnos l err w
  end.

(** The [while] loop around it, which waits for [how]; [late seen] is what the function
    gives after the deadline. *)
Context (how err : Z) (late : bool -> Z).
Fixpoint multi_loop (fuel : nat) t (req_list : list ptr) (end_ms : Z) (seen : bool) w : option (Z * ConnW) :=
  match fuel with
  | O => None
  | S fuel =>
      '(r, w) ← scan req_list seen [] w;
      match r with
      | ScanFail ret => Some (ret, w)
      | ScanDone seen wait_list =>
          let curr_ms := clock w in
          if end_ms <? curr_ms then w ← set_errnos wait_list err w; Some (late seen, w)
          else
            match wait_list with
            | [] => Some (0, w)
            | _ =>
                '(_, w) ← mt_multi_netfd_poll t wait_list how (end_ms - curr_ms) w;
                multi_loop fuel t req_list end_ms seen w
            end
      end
  end.
End scan.

(** [mt_multi_open], [mt_multi_sendto], [mt_multi_recvfrom] *)
Definition is_flag (f : Z) (x : IMtAction) : bool := ac_flag x =? f.
Definition try_open a c w : option (bool * ConnW) :=
  '(ret, w) ← OpenCnnect c w;
  if ret <? 0 then Some (true, w) else w ← upd_act a (set_ac_flag MULTI_FLAG_OPEN) w; Some (false, w).
Definition mt_multi_open (fuel : nat) t (req_list : list ptr) (timeout : Z) w : option (Z * ConnW) :=
  multi_loop (is_flag MULTI_FLAG_OPEN) (-1) try_open EPOLLOUT ERR_CONNECT_FAIL (fun has_open => if has_open then -2 else 0)
    fuel t req_list (u64 (clock w + timeout)) false w.
Definition try_send a c w : option (bool * ConnW) :=
  '(ret, w) ← SendData c w;
  if ret =? -1 then w ← upd_act a (set_ac_errno ERR_SEND_FAIL) w; Some (false, w)
  else if ret =? 0 then Some (true, w)
  else w ← upd_act a (set_ac_flag MULTI_FLAG_SEND) w; Some (false, w).
Definition mt_multi_sendto (fuel : nat) t (req_list : list ptr) (timeout : Z) w : option (Z * ConnW) :=
  multi_loop (is_flag MULTI_FLAG_SEND) (-2) try_send EPOLLOUT ERR_SEND_FAIL (fun has_send => if has_send then 0 else -5)
    fuel t req_list (u64 (clock w + timeout)) false w.
Definition try_recv (start_ms : Z) a c w : option (bool * ConnW) :=
  '(ret, w) ← RecvData c w;
  if ret <? 0 then w ← upd_act a (set_ac_errno ERR_RECV_FAIL) w; Some (false, w)
  else if ret =? 0 then Some (true, w)
  else
    w ← upd_act a (fun x => set_ac_cost (i32 (clock w - start_ms)) (set_ac_flag MULTI_FLAG_FIN x)) w;
    Some (false, w).
Definition mt_multi_recvfrom (fuel : nat) t (req_list : list ptr) (timeout : Z) w : option (Z * ConnW) :=
  multi_loop (is_flag MULTI_FLAG_FIN) (-2) (try_recv (clock w)) EPOLLIN ERR_RECV_TIMEOUT (fun _ => -5)
    fuel t req_list (u64 (clock w + timeout)) false w.

(** [mt_multi_sendrcv_ex] *)
Definition mt_multi_sendrcv_ex (fuel : nat) t (req_list : list ptr) (timeout : Z) w : option (Z * ConnW) :=
  let start_ms := clock w in
  '(rc, w) ← mt_multi_newsock req_list w;
  if rc <? 0 then Some (-1, w)
  else
    '(rc, w) ← mt_multi_open fuel t req_list timeout w;
    if rc <? 0 then Some (-2, w)
    else
      '(rc, w) ← mt_multi_sendto fuel t req_list (i32 (timeout - (clock w - start_ms))) w;
      if rc <? 0 then Some (-3, w)
      else
        '(rc, w) ← mt_multi_recvfrom fuel t req_list (i32 (timeout - (clock w - start_ms))) w;
        Some (if rc <? 0 then -4 else 0, w).

(** [mt_msg_sendrcv]: the result, and for each action what [HandleProcess] or, for one
    without an answer, [HandleError] was called with. *)
Fixpoint init_actions t (req_list : list ptr) w : option (Z * ConnW) :=
  match req_list with
  | [] => Some (0, w)
  | a :: l =>
      '(r, w) ← InitConnEnv a t w;
      if r <? 0 then Some (-1, w)
      else
        '(r, w) ← DoEncode a w;
        w ← (if r <? 0 then upd_act a (set_ac_errno ERR_ENCODE_ERROR) w else Some w);
        init_actions t l w
  end.
Inductive outcome := Processed (a : ptr) (ret : Z) | Failed (a : ptr) (err : Z).
Fixpoint finish_actions (req_list : list ptr) w : option (list outcome) :=
  match req_list with
  | [] => Some []
  | a :: l =>
      x ← act a w;
      r ← (if negb (ac_flag x =? MULTI_FLAG_FIN) then Some (Failed a (ac_errno x))
           else r ← DoProcess a w; Some (Processed a r));
      rs ← finish_actions l w;
      Some (r :: rs)
  end.
Fixpoint reset_actions (req_list : list ptr) w : option ConnW :=
  match req_list with
  | [] => Some w
  | a :: l => w ← IMtAction_Reset a w; reset_actions l w
  end.
Definition mt_msg_sendrcv (fuel : nat) t (req_list : list ptr) (timeout : Z) w : option (Z * list outcome * ConnW) :=
  '(r, w) ← init_actions t req_list w;
  if r <? 0 then Some (-1, [], w)
  else
    '(_, w) ← mt_multi_sendrcv_ex fuel t req_list timeout w;
    rs ← finish_actions req_list w;
    w ← reset_actions req_list w;
    Some (0, rs, w).
End conn.
