(* ===== verification/ConnMulti.v ===== *)
(** * Concurrent requests: the invariant of a thread's actions

    What a thread relies on while it runs the functions of [mt_concurrent.cpp] on a list
    of actions, and what each call of a connection does to it.  [good G w] is about the
    thread's own objects only, so the rest of the world may be in any state. *)

From Stdlib Require Import ZArith Lia.
From stdpp Require Import base gmap list option fin_sets.
From S2P Require Import Prelude Bytes HashList KeyTable MtSession MbufPool Epoll ConnData ConnNtfy ConnOps ConnAct.

(** What the kernel and the users' functions promise: a call sends or receives no more
    than it is given, [HandleInput] finds a message in the bytes received, and calls
    make no new events: [rank] counts those that wait.  A registration that fails leaves
    another [errno] than [ETIME]. *)
Class NetLaws {E} `{!ConnEnv E, !ConnUser} (rank : E -> nat) : Prop := {
  nl_ctl e op fd ev : (rank (ce_epoll_ctl e op fd ev).1.1 <= rank e)%nat;
  nl_socket ty e : (rank (ce_socket ty e).2 <= rank e)%nat;
  nl_ioctl fd e : (rank (ce_ioctl fd e).2 <= rank e)%nat;
  nl_bind fd d e : (rank (ce_bind fd d e).2 <= rank e)%nat;
  nl_close fd e : (rank (ce_close fd e) <= rank e)%nat;
  nl_connect fd d e : (rank (ce_connect fd d e).2 <= rank e)%nat;
  nl_sendto fd l d e : let '(r, _, e') := ce_sendto fd l d e in -1 <= r <= blen l /\ (rank e' <= rank e)%nat;
  nl_send fd l e : let '(r, _, e') := ce_send fd l e in -1 <= r <= blen l /\ (rank e' <= rank e)%nat;
  nl_recvfrom fd n e : 0 <= n -> let '(r, _, l, e') := ce_recvfrom fd n e in
    blen l = Z.max 0 r /\ r <= n /\ (rank e' <= rank e)%nat;
  nl_recv fd n e : 0 <= n -> let '(r, _, l, e') := ce_recv fd n e in
    blen l = Z.max 0 r /\ r <= n /\ (rank e' <= rank e)%nat;
  nl_input a l : handle_input a l <= blen l;
  nl_errno e : ce_errno e <> ETIME;
}.

Section multi.
Context {EV TB TS TK : Type} `{!ConnEnv EV, !KeyTable Z TB, !KeyTable Z TS, !KeyTable addr TK, !ConnUser}.
Abbreviation ConnW := (ConnW EV TB TS TK).
Implicit Types (w : ConnW) (a c o s t p : ptr) (G : list (ptr * ptr * ptr)).

(** ** The thread's objects *)

Definition buf_ok (b : MtMsgBuf) (l : list Z) : Prop :=
  mb_buff b = Some l /\ blen l = mb_max_len b /\ 0 <= mb_msg_len b <= mb_max_len b /\
  0 <= mb_recv_len b <= mb_max_len b /\ 0 <= mb_send_len b.

(** How far the action is: a TCP request has been sent as far as the buffer says, and
    sent completely when the flag says so; the answer of a finished action was accepted
    by [HandleInput], or, on a session object, whose connections do not call it, it is a
    datagram that the object received. *)
Definition accepted a (type : Z) (b : MtMsgBuf) (l : list Z) : Prop :=
  if type =? OBJ_UDP_SESSION then mb_buf_type b = BUFF_RECV /\ 0 < mb_msg_len b
  else exists r, bread 0 (mb_recv_len b) l = Some r /\ 0 < handle_input a r /\
    mb_msg_len b = if type =? OBJ_TCP_KEEP then mb_recv_len b else handle_input a r.
Definition progress a (flag type : Z) (b : MtMsgBuf) (l : list Z) : Prop :=
  (type = OBJ_TCP_KEEP -> flag <> MULTI_FLAG_SEND -> flag <> MULTI_FLAG_FIN -> mb_send_len b <= mb_msg_len b) /\
  (type = OBJ_TCP_KEEP -> flag = MULTI_FLAG_SEND -> mb_send_len b = mb_msg_len b) /\
  (flag = MULTI_FLAG_FIN -> accepted a type b l).

(** The notification object [o] of a connection is a proxy of a session object, in its
    list of waiting writers as the flag says; or it is a plain one. *)
Definition link_ok (y : IMtConnection) o w : Prop :=
  if cn_type y =? OBJ_UDP_SESSION then
    exists px s v, cw_proxies w !! o = Some px /\ sp_real px = Some s /\ is_Some (ob s w) /\ ntfy s w = Some v /\
      (sp_flag px = 0 <-> o ∉ sn_write_list v)
  else cw_proxies w !! o = None /\ cw_ntfys w !! o = None /\
    (cn_type y = OBJ_TCP_KEEP -> is_Some (ob (cn_keep_ntfy y) w)).

(** Action [a] with connection [c] and notification object [o]. *)
Record own_at a c o w (x : IMtAction) (y : IMtConnection) p (b : MtMsgBuf) (l : list Z) : Prop := {
  ow_act : act a w = Some x;
  ow_ac : ac_conn x = Some c;
  ow_conn : conn c w = Some y;
  ow_action : cn_action y = Some a;
  ow_ntfy : cn_ntfy y = Some o;
  ow_msg : cn_msg y = Some p;
  ow_type : cn_type y = OBJ_SHORT_CONN \/ cn_type y = OBJ_TCP_KEEP \/ cn_type y = OBJ_UDP_SESSION;
  ow_ob : is_Some (ob o w);
  ow_mbuf : mbuf p w = Some b;
  ow_buf : buf_ok b l;
  ow_link : link_ok y o w;
  ow_prog : progress a (ac_flag x) (cn_type y) b l;
}.
Definition own (g : ptr * ptr * ptr) w : Prop := exists x y p b l, own_at g.1.1 g.1.2 g.2 w x y p b l.
(** The message buffer of the item. *)
Definition msg_of (g : ptr * ptr * ptr) w : option ptr := y ← conn g.1.2 w; cn_msg y.
Record good G w : Prop := {
  gd_own g : g ∈ G -> own g w;
  gd_acts : NoDup G.*1.*1;
  gd_obs : NoDup G.*2;
  gd_msgs g g' : g ∈ G -> g' ∈ G -> msg_of g w = msg_of g' w -> g = g';
}.

(** ** What a call of a connection leaves alone *)

(** Equal but for the descriptor. *)
Definition fd_eqv (y y' : IMtConnection) : Prop := set_osfd 0 y = set_osfd 0 y'.

Context (rank : EV -> nat).
Definition krank w : nat := rank (ep_kernel (cw_ep w)).

(** A step that may change buffer [q], descriptors, the epoll table and the kernel. *)
Record net_frame (q : option ptr) w w' : Prop := {
  nf_acts : cw_acts w' = cw_acts w;
  nf_conns c : option_Forall2 fd_eqv (conn c w) (conn c w');
  nf_bufs p : Some p <> q -> mbuf p w' = mbuf p w;
  nf_obs o : is_Some (ob o w) -> is_Some (ob o w');
  nf_proxies : cw_proxies w' = cw_proxies w;
  nf_ntfys : cw_ntfys w' = cw_ntfys w;
  nf_clock : cw_clock w' = cw_clock w;
  nf_rank : (krank w' <= krank w)%nat;
}.

#[export] Instance fd_eqv_refl : Reflexive fd_eqv.
Proof. done. Qed.
Lemma fd_eqv_set fd y : fd_eqv y (set_osfd fd y).
Proof. done. Qed.

#[export] Instance net_frame_refl q : Reflexive (net_frame q).
Proof. intros w. split; try done. Qed.
#[export] Instance net_frame_trans q : Transitive (net_frame q).
Proof.
  intros w1 w2 w3 [] []. split; try congruence; try lia; [|auto..].
  - intros c. specialize (nf_conns0 c). specialize (nf_conns1 c).
    destruct nf_conns0 as [y1 y2 E1|]; inversion nf_conns1 as [? y3 E2|]; subst; constructor. unfold fd_eqv in *. congruence.
  - intros p Hp. rewrite nf_bufs1 by done. auto.
Qed.

(** Steps of that kind. *)
Lemma frame_ep q w (e : EpollState EV) : (forall o, is_Some (ob o w) -> is_Some (ep_objs e !! o)) ->
  (rank (ep_kernel e) <= krank w)%nat -> net_frame q w (set_ep e w).
Proof. intros Ho Hr. split; try done. Qed.
Lemma frame_kernel q w k : (rank k <= krank w)%nat -> net_frame q w (set_ep (set_kernel k (cw_ep w)) w).
Proof. intros. by apply frame_ep. Qed.
Lemma frame_close q w fd : NetLaws rank -> net_frame q w (k_close fd w).
Proof. intros L. apply frame_kernel, L. Qed.
Lemma frame_ob q w o f : is_Some (ob o w) -> exists w', upd_ob o f w = Some w' /\ net_frame q w w'.
Proof.
  intros [z E]. unfold upd_ob. rewrite E. cbn [mbind option_bind]. eexists. split; [done|]. apply frame_ep; [|done].
  intros o' Ho'. unfold set_obj. cbn [ep_objs]. rewrite lookup_insert. by case_decide.
Qed.
Lemma frame_conn q w c fd y : conn c w = Some y ->
  exists w', upd_conn c (set_osfd fd) w = Some w' /\ net_frame q w w' /\ conn c w' = Some (set_osfd fd y).
Proof.
  intros E. unfold upd_conn. rewrite E. cbn [mbind option_bind]. eexists. split; [done|]. split.
  - split; try done. intros c'. unfold conn. cbn [cw_conns set_conns]. rewrite lookup_insert.
    case_decide; [subst|done]. unfold conn in E. rewrite E. by constructor.
  - unfold conn. cbn [cw_conns set_conns]. apply lookup_insert_eq.
Qed.
Lemma frame_buf p w f b : mbuf p w = Some b ->
  exists w', upd_mbuf p f w = Some w' /\ net_frame (Some p) w w' /\ mbuf p w' = Some (f b).
Proof.
  intros E. unfold upd_mbuf. rewrite E. cbn [mbind option_bind]. eexists. split; [done|]. split.
  - split; try done. intros r Hr. unfold mbuf. cbn. rewrite lookup_insert_ne; [done|]. by intros ->.
  - unfold mbuf. cbn. by rewrite lookup_insert_eq.
Qed.
Lemma frame_weaken q w w' : net_frame None w w' -> net_frame q w w'.
Proof. intros []. split; try done. intros p _. by apply nf_bufs0. Qed.

Lemma frame_ob_opt q w (oo : option ptr) f : (forall o, oo = Some o -> is_Some (ob o w)) ->
  exists w', upd_ob_opt oo f w = Some w' /\ net_frame q w w'.
Proof. intros Ho. destruct oo as [o|]; [by apply frame_ob, Ho|]. by exists w. Qed.

Lemma conn_after q w w' c y : net_frame q w w' -> conn c w = Some y -> exists fd, conn c w' = Some (set_osfd fd y).
Proof.
  intros F E. pose proof (nf_conns _ _ _ F c) as Hc. rewrite E in Hc. inversion Hc as [? y' Ey E1 E2|]; subst.
  exists (cn_osfd y'). destruct y, y'. unfold fd_eqv in Ey. cbn in *. by injection Ey as -> -> -> -> -> -> -> ->.
Qed.
Lemma link_after q w w' y o fd : net_frame q w w' -> link_ok y o w -> link_ok (set_osfd fd y) o w'.
Proof.
  intros F. unfold link_ok, ntfy. cbn [cn_type cn_keep_ntfy set_osfd]. rewrite (nf_proxies _ _ _ F), (nf_ntfys _ _ _ F). case_match.
  - intros (px & s & v & E3 & E4 & E5 & E6 & E7). exists px, s, v. split; [done|]. split; [done|].
    split; [by apply (nf_obs _ _ _ F)|done].
  - intros (E3 & E4 & E5). split; [done|]. split; [done|]. intros ?. by apply (nf_obs _ _ _ F), E5.
Qed.
(** An item after such a step, given what became of its buffer. *)
Lemma own_at_step a c o w w' x y p b l q b' l' : own_at a c o w x y p b l -> net_frame q w w' ->
  mbuf p w' = Some b' -> buf_ok b' l' -> progress a (ac_flag x) (cn_type y) b' l' ->
  exists fd, own_at a c o w' x (set_osfd fd y) p b' l'.
Proof.
  intros [] F Hb Hok Hpr. destruct (conn_after _ _ _ _ _ F ow_conn0) as [fd Ey]. exists fd. split; try done.
  - unfold act. by rewrite (nf_acts _ _ _ F).
  - by apply (nf_obs _ _ _ F).
  - by eapply link_after.
Qed.
(** The item of another buffer is untouched. *)
Lemma own_at_frame a c o w w' x y p b l q : own_at a c o w x y p b l -> net_frame q w w' -> Some p <> q ->
  exists fd, own_at a c o w' x (set_osfd fd y) p b l.
Proof.
  intros O F Hq. eapply own_at_step; [done|done| |by apply O|by apply O]. rewrite (nf_bufs _ _ _ F) by done. by apply O.
Qed.

(** ** The calls *)

Context `{L : !NetLaws rank}.

(** Registering keeps the objects. *)
Definition ep_quiet (e e' : EpollState EV) : Prop := ep_objs e' = ep_objs e /\ (rank (ep_kernel e') <= rank (ep_kernel e))%nat.
Lemma frame_quiet q w e : ep_quiet (cw_ep w) e -> net_frame q w (set_ep e w).
Proof. intros [E Hr]. apply frame_ep; [|done]. intros o. by rewrite E. Qed.

Ltac ctl_call := match goal with |- context [ce_epoll_ctl ?a ?b ?c ?d] =>
  pose proof (nl_ctl a b c d) as Hn; destruct (ce_epoll_ctl a b c d) as [[k rc] er] end.
Lemma ctrl_add_quiet fd ev (e : EpollState EV) : ep_quiet e (EpollCtrlAdd ce_epoll_ctl fd ev e).2.
Proof. unfold EpollCtrlAdd. destruct (FdRefGet e fd); [|done]. case_match; [done|]. ctl_call. by case_match. Qed.
Lemma ctrl_del_quiet fd ev (e : EpollState EV) : ep_quiet e (EpollCtrlDelRef ce_epoll_ctl fd ev false e).2.
Proof. unfold EpollCtrlDelRef. destruct (FdRefGet e fd); [|done]. case_match; [done|]. ctl_call. by case_match. Qed.
Lemma ntfy_reg_quiet fd oo (e : EpollState EV) : ep_quiet e (EpollNtfyReg fd oo e).
Proof. unfold EpollNtfyReg. by case_match. Qed.
Lemma ctl_add_quiet o (e : EpollState EV) : ep_quiet e (EpollCtlAdd ce_epoll_ctl o e).2.
Proof.
  unfold EpollCtlAdd. case_match; [done|]. match goal with |- context [EpollCtrlAdd _ ?fd ?ev ?e1] =>
    pose proof (ctrl_add_quiet fd ev e1) as [Ho Hr]; destruct (EpollCtrlAdd _ fd ev e1) as [ok e2] end. by destruct ok.
Qed.
Lemma ctl_del_quiet o (e : EpollState EV) : ep_quiet e (EpollCtlDel ce_epoll_ctl o e).2.
Proof.
  unfold EpollCtlDel. case_match; [done|]. match goal with |- context [EpollCtrlDelRef _ ?fd ?ev ?b ?e1] =>
    pose proof (ctrl_del_quiet fd ev e1) as [Ho Hr]; destruct (EpollCtrlDelRef _ fd ev b e1) as [ok e2] end. by destruct ok.
Qed.
Lemma frame_ep_do {A} q w (f : EpollState EV -> A * EpollState EV) : (forall e, ep_quiet e (f e).2) -> net_frame q w (ep_do f w).2.
Proof. intros Hf. unfold ep_do. specialize (Hf (cw_ep w)). destruct (f (cw_ep w)). by apply frame_quiet. Qed.
Lemma frame_k_do {A} q w (f : EV -> A * EV) : (forall k, (rank (f k).2 <= rank k)%nat) -> net_frame q w (k_do f w).2.
Proof. intros Hf. unfold k_do. specialize (Hf (ep_kernel (cw_ep w))). destruct (f _). by apply frame_kernel. Qed.

(** What an operation does, as a judgement: it gives a result and makes such a step. *)
Definition calls {A} (q : option ptr) w (m : option (A * ConnW)) : Prop := exists r w', m = Some (r, w') /\ net_frame q w w'.
Lemma calls_ret {A} q w (r : A) w' : net_frame q w w' -> calls q w (Some (r, w')).
Proof. intros F. by exists r, w'. Qed.
Lemma calls_k {A B} q w (f : EV -> A * EV) (g : A -> ConnW -> option (B * ConnW)) : (forall k, (rank (f k).2 <= rank k)%nat) ->
  (forall r w', net_frame q w w' -> calls q w' (g r w')) -> calls q w (let '(r, w') := k_do f w in g r w').
Proof.
  intros Hf Hg. pose proof (frame_k_do q w f Hf) as F. destruct (k_do f w) as [r w'].
  destruct (Hg r w' F) as (r2 & w2 & -> & F2). exists r2, w2. split; [done|]. by etrans.
Qed.
Lemma calls_frame {A} q w w' (m : option (A * ConnW)) : net_frame q w w' -> calls q w' m -> calls q w m.
Proof. intros F (r & w2 & -> & F2). exists r, w2. split; [done|]. by etrans. Qed.
Lemma calls_bind {A B} q w (m : option (A * ConnW)) (g : A -> ConnW -> option (B * ConnW)) : calls q w m ->
  (forall r w', net_frame q w w' -> calls q w' (g r w')) -> calls q w ('(r, w') ← m; g r w').
Proof. intros (r & w1 & -> & F1) Hg. eapply calls_frame; [exact F1|]. by apply Hg. Qed.
Lemma calls_ob {B} q w o f (g : ConnW -> option (B * ConnW)) : is_Some (ob o w) ->
  (forall w', net_frame q w w' -> calls q w' (g w')) -> calls q w (w ← upd_ob o f w; g w).
Proof.
  intros Ho Hg. destruct (frame_ob q w o f Ho) as (w' & -> & F). eapply calls_frame; [exact F|]. by apply Hg.
Qed.

Lemma session_socket_calls q w s : is_Some (ob s w) -> is_Some (ntfy s w) -> calls q w (UdpSession_CreateSocket s w).
Proof.
  intros Hs [v Hv]. unfold UdpSession_CreateSocket. apply calls_k; [apply nl_socket|]. intros fd w1 F1.
  case_match; [by apply calls_ret|]. apply calls_k; [apply nl_ioctl|]. intros r w2 F2. case_match.
  { apply calls_ret, frame_close, L. }
  assert (F : net_frame q w w2) by (by etrans).
  replace (ntfy s w2) with (Some v) by (unfold ntfy in *; by rewrite (nf_ntfys _ _ _ F)). cbn [mbind option_bind].
  assert (Hend : forall r' w3, net_frame q w2 w3 -> calls q w3 (if r' <? 0 then Some (-3, k_close fd w3) else
    w ← upd_ob s (fun x => EnableInput (SetOsfd fd x)) w3;
    let w := set_ep (EpollNtfyReg fd (Some s) (cw_ep w)) w in
    let '(_, w) := ep_do (EpollCtrlAdd ce_epoll_ctl fd EPOLLIN) w in Some (fd, w))).
  { intros r' w3 F3. case_match; [apply calls_ret, frame_close, L|].
    apply calls_ob; [apply (nf_obs _ _ _ F3), (nf_obs _ _ _ F), Hs|]. intros w4 F4.
    set (w5 := set_ep _ w4). pose proof (frame_ep_do q w5 (EpollCtrlAdd ce_epoll_ctl fd EPOLLIN) (ctrl_add_quiet _ _)) as F6.
    destruct (ep_do _ w5) as [r6 w6]. apply calls_ret. etrans; [|exact F6]. apply frame_quiet, ntfy_reg_quiet. }
  destruct (sin_port (sn_local v) =? 0); [by apply Hend|].
  apply (calls_k q w2 (ce_bind fd (sn_local v))); [apply nl_bind|done].
Qed.

Lemma calls_conn {B} q w c y fd (g : ConnW -> option (B * ConnW)) : conn c w = Some y ->
  (forall w', net_frame q w w' -> conn c w' = Some (set_osfd fd y) -> calls q w' (g w')) ->
  calls q w (w ← upd_conn c (set_osfd fd) w; g w).
Proof.
  intros E Hg. destruct (frame_conn q w c fd y E) as (w' & -> & F & E'). eapply calls_frame; [exact F|]. by apply Hg.
Qed.
Lemma calls_ob_opt {B} q w (oo : option ptr) f (g : ConnW -> option (B * ConnW)) : (forall o, oo = Some o -> is_Some (ob o w)) ->
  (forall w', net_frame q w w' -> calls q w' (g w')) -> calls q w (w ← upd_ob_opt oo f w; g w).
Proof.
  intros Ho Hg. destruct (frame_ob_opt q w oo f Ho) as (w' & -> & F). eapply calls_frame; [exact F|]. by apply Hg.
Qed.

(** A new socket for connection [c]: what [UdpShortConn] and [TcpKeepConn] do alike. *)
Lemma new_fd_calls q w c y ty (g : Z -> ConnW -> option (Z * ConnW)) : conn c w = Some y ->
  (forall fd w', net_frame q w w' -> conn c w' = Some (set_osfd fd y) -> calls q w' (g fd w')) ->
  calls q w (let '(fd, w) := k_do (ce_socket ty) w in
    w ← upd_conn c (set_osfd fd) w;
    if fd <? 0 then Some (-1, w)
    else let '(r, w) := k_do (ce_ioctl fd) w in
      if r <? 0 then w ← upd_conn c (set_osfd (-1)) (k_close fd w); Some (-2, w) else g fd w).
Proof.
  intros Ey Hg. apply calls_k; [apply nl_socket|]. intros fd w1 F1. destruct (conn_after _ _ _ _ _ F1 Ey) as [fd0 Ey1].
  eapply calls_conn; [exact Ey1|]. intros w2 F2 Ey2. case_match; [by apply calls_ret|].
  pose proof (frame_k_do q w2 (ce_ioctl fd) (nl_ioctl fd)) as F3.
  assert (Ey3 : conn c (k_do (ce_ioctl fd) w2).2 = Some (set_osfd fd y)) by (unfold k_do; by destruct (ce_ioctl _ _)).
  destruct (k_do (ce_ioctl fd) w2) as [r w3]. eapply calls_frame; [exact F3|]. case_match.
  - eapply calls_frame; [apply (frame_close _ _ fd L)|]. eapply (calls_conn _ _ _ (set_osfd fd y)); [exact Ey3|].
    intros w4 F4 _. by apply calls_ret.
  - apply Hg; [|done]. by do 2 (etrans; [done|]).
Qed.

Lemma CreateSocket_calls q a c o w x y p b l : own_at a c o w x y p b l -> calls q w (CreateSocket c w).
Proof.
  intros [_ _ Ey Ea Eo _ Hty Ho _ _ Hl _]. unfold CreateSocket, by_type. rewrite Ey. cbn [mbind option_bind].
  unfold link_ok in Hl. destruct Hty as [E|[E|E]]; rewrite E in Hl |- *.
  - cbn [Z.eqb OBJ_SHORT_CONN]. change (calls q w (UdpShort_CreateSocket c w)). unfold UdpShort_CreateSocket.
    apply (new_fd_calls _ _ _ y); [done|]. intros fd w' F Ey'. rewrite Ey'. cbn [mbind option_bind cn_ntfy set_osfd].
    apply calls_ob_opt; [|intros; by apply calls_ret]. intros o' [= ->]%(eq_trans (eq_sym Eo)). by apply (nf_obs _ _ _ F).
  - destruct Hl as (_ & _ & Hk). specialize (Hk eq_refl). change (calls q w (TcpKeep_CreateSocket c w)). unfold TcpKeep_CreateSocket.
    rewrite Ey. cbn [mbind option_bind]. case_match.
    + apply calls_ob_opt; [|intros; by apply calls_ret]. intros o' [= ->]%(eq_trans (eq_sym Eo)). done.
    + apply (new_fd_calls _ _ _ y); [done|]. intros fd w' F Ey'. apply calls_ob; [by apply (nf_obs _ _ _ F)|].
      intros w2 F2. apply calls_ob_opt; [|intros; by apply calls_ret]. intros o' [= ->]%(eq_trans (eq_sym Eo)).
      by apply (nf_obs _ _ _ F2), (nf_obs _ _ _ F).
  - destruct Hl as (px & s & v & Ep & Er & Hs & Ev & _). change (calls q w (UdpSessionConn_CreateSocket c w)).
    unfold UdpSessionConn_CreateSocket. rewrite Ey. cbn [mbind option_bind]. rewrite Ea, Eo, Ep, Er.
    pose proof Hs as [z Ez]. rewrite Ez. cbn [mbind option_bind].
    assert (Hend : forall osfd w', net_frame q w w' -> calls q w' (if osfd <=? 0 then Some (-400, w') else
      w ← upd_ob o (SetOsfd osfd) w'; Some (osfd, w))).
    { intros osfd w' F. case_match; [by apply calls_ret|]. apply calls_ob; [by apply (nf_obs _ _ _ F)|]. intros. by apply calls_ret. }
    destruct (eo_fd z <=? 0); [|by apply Hend]. apply calls_bind; [by apply session_socket_calls|done].
Qed.

Lemma OpenCnnect_calls q a c o w x y p b l : own_at a c o w x y p b l -> calls q w (OpenCnnect c w).
Proof.
  intros [Ex _ Ey Ea _ Ep _ _ _ _ _ _]. unfold OpenCnnect, by_type. rewrite Ey. cbn [mbind option_bind].
  case_match; [by apply calls_ret|]. case_match; [|by case_match; apply calls_ret].
  unfold TcpKeep_OpenCnnect. rewrite Ey. cbn [mbind option_bind]. rewrite Ea, Ep, Ex. cbn [mbind option_bind].
  pose proof (nl_connect (cn_osfd y) (ac_addr x) (ep_kernel (cw_ep w))) as Hr.
  destruct (ce_connect _ _ _) as [[ret err] k]. apply (frame_kernel q w) in Hr. cbn [snd] in Hr.
  repeat case_match; by apply calls_ret.
Qed.

(** What sending does to the buffer. *)
Definition sends (tcp : bool) (b b' : MtMsgBuf) (ret : Z) : Prop :=
  (b' = b \/ exists n, 0 <= n /\ b' = SetHaveSndLen n b) /\
  (tcp = true -> mb_send_len b <= mb_msg_len b -> mb_send_len b' <= mb_msg_len b' /\
     (ret <> 0 -> ret <> -1 -> mb_send_len b' = mb_msg_len b')).

Lemma send_packet_ok fd a p w x b l : act a w = Some x -> mbuf p w = Some b -> buf_ok b l ->
  exists ret w' b', send_packet fd a p w = Some (ret, w') /\ net_frame (Some p) w w' /\ mbuf p w' = Some b' /\ sends false b b' ret.
Proof.
  intros Ex Eb (El & Hl & H1 & H2 & H3). unfold send_packet. rewrite Ex, Eb. cbn [mbind option_bind]. rewrite El. cbn [mbind option_bind].
  destruct (bread_is_Some 0 (mb_msg_len b) l) as (r & -> & Hr); [lia..|]. cbn [mbind option_bind].
  pose proof (nl_sendto fd r (ac_addr x) (ep_kernel (cw_ep w))) as Hs. destruct (ce_sendto _ _ _ _) as [[ret err] k].
  destruct Hs as [Hret Hk]. apply (frame_kernel (Some p) w) in Hk. destruct (Z.eqb_spec ret (-1)) as [->|Hne].
  - eexists _, _, b. split; [done|]. split; [done|]. split; [done|]. split; [by left|done].
  - set (w1 := set_ep _ w) in *. destruct (frame_buf p w1 (SetHaveSndLen ret) b Eb) as (w' & -> & F & E').
    eexists _, _, _. split; [done|]. split; [by etrans|]. split; [done|]. split; [|done]. right. exists ret. split; [lia|done].
Qed.

Lemma SendData_ok a c o w x y p b l : own_at a c o w x y p b l -> (cn_type y = OBJ_TCP_KEEP -> mb_send_len b <= mb_msg_len b) ->
  exists ret w' b', SendData c w = Some (ret, w') /\ net_frame (Some p) w w' /\ mbuf p w' = Some b' /\
    sends (cn_type y =? OBJ_TCP_KEEP) b b' ret.
Proof.
  intros [Ex _ Ey Ea Eo Ep Hty [z Ho] Eb Hb _ _] Hs. unfold SendData, by_type. rewrite Ey. cbn [mbind option_bind].
  destruct Hty as [E|[E|E]]; rewrite E in Hs |- *.
  - change (OBJ_SHORT_CONN =? OBJ_SHORT_CONN) with true. cbn [Z.eqb OBJ_SHORT_CONN OBJ_TCP_KEEP].
    unfold UdpShort_SendData. rewrite Ey. cbn [mbind option_bind]. rewrite Ea, Ep. by apply (send_packet_ok _ _ _ _ x b l).
  - specialize (Hs eq_refl). cbn [Z.eqb OBJ_SHORT_CONN OBJ_TCP_KEEP Pos.eqb]. unfold TcpKeep_SendData. rewrite Ey. cbn [mbind option_bind].
    rewrite Ea, Ep, Eb. cbn [mbind option_bind]. destruct Hb as (El & Hl & H1 & H2 & H3). rewrite El. cbn [mbind option_bind].
    destruct (bread_is_Some (mb_send_len b) (mb_msg_len b - mb_send_len b) l) as (r & -> & Hr); [lia..|]. cbn [mbind option_bind].
    pose proof (nl_send (cn_osfd y) r (ep_kernel (cw_ep w))) as Hk. destruct (ce_send _ _ _) as [[ret err] k].
    destruct Hk as [Hret Hk]. apply (frame_kernel (Some p) w) in Hk. destruct (Z.eqb_spec ret (-1)) as [->|Hne].
    + eexists _, _, b. split; [done|]. split; [done|]. split; [done|]. split; [by left|]. intros _ ?. split; [done|]. by case_match.
    + set (w1 := set_ep _ w) in *. destruct (frame_buf p w1 (SetHaveSndLen (mb_send_len b + ret)) b Eb) as (w' & -> & F & E').
      eexists _, _, _. split; [done|]. split; [by etrans|]. split; [done|]. split; [right; eexists; split; [|done]; lia|].
      intros _ ?. cbn. split; [lia|]. case_match; lia.
  - cbn [Z.eqb OBJ_SHORT_CONN OBJ_TCP_KEEP OBJ_UDP_SESSION Pos.eqb]. unfold UdpSessionConn_SendData. rewrite Ey. cbn [mbind option_bind].
    rewrite Ea, Ep, Eo, Ho. cbn [mbind option_bind]. by apply (send_packet_ok _ _ _ _ x b l).
Qed.

Lemma frame_write p w b l off bytes : mbuf p w = Some b -> mb_buff b = Some l -> 0 <= off -> off + blen bytes <= blen l ->
  exists w' l', write_buf p off bytes w = Some w' /\ net_frame (Some p) w w' /\ mbuf p w' = Some (set_buff (Some l') b) /\ blen l' = blen l.
Proof.
  intros Eb El H1 H2. unfold write_buf, buf_bytes. rewrite Eb. cbn [mbind option_bind]. rewrite El. cbn [mbind option_bind].
  destruct (bwrite_spec off bytes l H1 H2) as (l' & -> & Hl & _). cbn [mbind option_bind].
  destruct (frame_buf p w (set_buff (Some l')) b Eb) as (w' & -> & F & E'). by exists w', l'.
Qed.

(** What receiving does to the buffer. *)
Definition recvs a (type : Z) (b b' : MtMsgBuf) (l' : list Z) (ret : Z) : Prop :=
  buf_ok b' l' /\ (ret <= 0 -> mb_msg_len b' = mb_msg_len b /\ mb_send_len b' = mb_send_len b) /\
  (0 < ret -> accepted a type b' l').

Lemma DoInput_ok a c w x y p b l : act a w = Some x -> ac_conn x = Some c -> conn c w = Some y -> cn_msg y = Some p ->
  mbuf p w = Some b -> buf_ok b l -> exists r, DoInput a w = Some (handle_input a r) /\ bread 0 (mb_recv_len b) l = Some r /\
    handle_input a r <= mb_recv_len b.
Proof.
  intros Ex Ec Ey Ep Eb (El & Hl & H1 & H2 & H3). unfold DoInput, action_buf. rewrite Ex. cbn [mbind option_bind]. rewrite Ec, Ey.
  cbn [mbind option_bind]. rewrite Ep, Eb. cbn [mbind option_bind]. rewrite El. cbn [mbind option_bind].
  destruct (bread_is_Some 0 (mb_recv_len b) l) as (r & -> & Hr); [lia..|]. exists r. split; [done|]. split; [done|].
  rewrite <- Hr. apply nl_input.
Qed.

(** After the call [n] bytes are in the buffer, and the action looks at them. *)
Lemma input_ok a c o w w1 x y p b l b1 l1 n : own_at a c o w x y p b l -> net_frame (Some p) w w1 ->
  mbuf p w1 = Some b1 -> buf_ok b1 l1 -> 0 <= n <= mb_max_len b1 ->
  exists w2 r, upd_mbuf p (SetHaveRcvLen n) w1 = Some w2 /\ net_frame (Some p) w w2 /\
    mbuf p w2 = Some (SetHaveRcvLen n b1) /\ buf_ok (SetHaveRcvLen n b1) l1 /\
    DoInput a w2 = Some (handle_input a r) /\ bread 0 n l1 = Some r /\ handle_input a r <= n.
Proof.
  intros O F Eb (El & Hl & H1 & H2 & H3) Hn. destruct (frame_buf p w1 (SetHaveRcvLen n) b1 Eb) as (w2 & E2 & F2 & Eb2).
  assert (F' : net_frame (Some p) w w2) by (by etrans). pose proof O as [Ex Ec Ey _ _ Ep _ _ _ _ _ _].
  assert (B2 : buf_ok (SetHaveRcvLen n b1) l1) by (unfold buf_ok; cbn; auto).
  destruct (conn_after _ _ _ _ _ F' Ey) as [fd Ey2]. 
  destruct (DoInput_ok a c w2 x (set_osfd fd y) p (SetHaveRcvLen n b1) l1) as (r & Hi & Hr & Hle); try done.
  { unfold act. by rewrite (nf_acts _ _ _ F'). }
  exists w2, r. auto 10.
Qed.

(** The buffer after a call that received nothing, or before [HandleInput]. *)
Lemma recvs_none a type b l l' n ret : buf_ok b l -> blen l' = blen l -> 0 <= n <= mb_max_len b -> ret <= 0 ->
  recvs a type b (SetHaveRcvLen n (set_buff (Some l') b)) l' ret.
Proof. intros (El & Hl & H1 & H2 & H3) E Hn Hr. split; [|split; [done|lia]]. unfold buf_ok. cbn. auto with lia. Qed.

Lemma short_recv_ok a c o w x y p b l : own_at a c o w x y p b l -> exists ret w' b' l', UdpShort_RecvData c w = Some (ret, w') /\
  net_frame (Some p) w w' /\ mbuf p w' = Some b' /\ recvs a OBJ_SHORT_CONN b b' l' ret.
Proof.
  intros O. pose proof O as [Ex Ec Ey Ea Eo Ep _ _ Eb Hb _ _]. pose proof Hb as (El & Hl & H1 & H2 & H3).
  unfold UdpShort_RecvData. rewrite Ey. cbn [mbind option_bind]. rewrite Ea, Ep, Eb. cbn [mbind option_bind].
  pose proof (nl_recvfrom (cn_osfd y) (mb_max_len b) (ep_kernel (cw_ep w)) ltac:(lia)) as Hk.
  destruct (ce_recvfrom _ _ _) as [[[ret err] bytes] k]. destruct Hk as (Hlen & Hret & Hk). apply (frame_kernel (Some p) w) in Hk.
  set (w1 := set_ep _ w) in *. destruct (frame_write p w1 b l 0 bytes Eb El) as (w2 & l2 & -> & F2 & Eb2 & Hl2); [lia..|].
  assert (F : net_frame (Some p) w w2) by (by etrans). cbn [mbind option_bind].
  assert (R0 : forall r, r <= 0 -> recvs a OBJ_SHORT_CONN b (set_buff (Some l2) b) l2 r).
  { intros r Hr. apply (recvs_none a OBJ_SHORT_CONN b l l2 (mb_recv_len b) r) in Hb; [by destruct b|done..]. }
  destruct (Z.ltb_spec ret 0); [|destruct (Z.eqb_spec ret 0)].
  1,2: eexists _, w2, _, l2; split; [done|split; [done|split; [done|apply R0; by repeat case_match]]].
  pose proof (R0 0 ltac:(lia)) as (B2 & _ & _).
  destruct (input_ok _ _ _ _ w2 _ _ _ _ _ _ l2 ret O F Eb2 B2) as (w3 & r & E3 & F3 & Eb3 & B3 & E4 & Hr & Hle); [cbn; lia|].
  rewrite E3. cbn [mbind option_bind]. rewrite E4. cbn [mbind option_bind]. destruct (Z.ltb_spec 0 (handle_input a r)) as [Hpos|].
  - destruct (frame_buf p w3 (SetMsgLen (handle_input a r)) _ Eb3) as (w4 & -> & F4 & Eb4). cbn [mbind option_bind].
    eexists _, w4, _, l2. split; [done|]. split; [by etrans|]. split; [done|]. split; [|split; [lia|]].
    + destruct B3 as (? & ? & ? & ? & ?). unfold buf_ok. cbn in *. auto with lia.
    + intros _. exists r. done.
  - assert (R : forall n r', 0 <= n <= mb_max_len b -> r' <= 0 -> recvs a OBJ_SHORT_CONN b (SetHaveRcvLen n (set_buff (Some l2) b)) l2 r')
      by (intros; by eapply recvs_none).
    case_match; [|case_match].
    + eexists _, w3, _, l2. split; [done|]. split; [done|]. split; [done|]. apply R; [lia|done].
    + destruct (frame_buf p w3 (SetHaveRcvLen 0) _ Eb3) as (w4 & -> & F4 & Eb4). cbn [mbind option_bind].
      eexists _, w4, _, l2. split; [done|]. split; [by etrans|]. split; [done|]. by apply (R 0 0); [lia|].
    + eexists _, w3, _, l2. split; [done|]. split; [done|]. split; [done|]. apply R; [lia|done].
Qed.

Lemma keep_recv_ok a c o w x y p b l : own_at a c o w x y p b l -> exists ret w' b' l', TcpKeep_RecvData c w = Some (ret, w') /\
  net_frame (Some p) w w' /\ mbuf p w' = Some b' /\ recvs a OBJ_TCP_KEEP b b' l' ret.
Proof.
  intros O. pose proof O as [Ex Ec Ey Ea Eo Ep _ _ Eb Hb _ _]. pose proof Hb as (El & Hl & H1 & H2 & H3).
  unfold TcpKeep_RecvData. rewrite Ey. cbn [mbind option_bind]. rewrite Ea, Ep, Eb. cbn [mbind option_bind].
  pose proof (nl_recv (cn_osfd y) (mb_max_len b - mb_recv_len b) (ep_kernel (cw_ep w)) ltac:(lia)) as Hk.
  destruct (ce_recv _ _ _) as [[[ret err] bytes] k]. destruct Hk as (Hlen & Hret & Hk). apply (frame_kernel (Some p) w) in Hk.
  set (w1 := set_ep _ w) in *. destruct (frame_write p w1 b l (mb_recv_len b) bytes Eb El) as (w2 & l2 & -> & F2 & Eb2 & Hl2); [lia..|].
  assert (F : net_frame (Some p) w w2) by (by etrans). cbn [mbind option_bind].
  assert (R : forall n r', 0 <= n <= mb_max_len b -> r' <= 0 -> recvs a OBJ_TCP_KEEP b (SetHaveRcvLen n (set_buff (Some l2) b)) l2 r')
    by (intros; by eapply recvs_none).
  assert (R0 : forall r, r <= 0 -> recvs a OBJ_TCP_KEEP b (set_buff (Some l2) b) l2 r).
  { intros r Hr. pose proof (R (mb_recv_len b) r H2 Hr) as HR. by destruct b. }
  destruct (Z.ltb_spec ret 0); [|destruct (Z.eqb_spec ret 0)].
  1,2: eexists _, w2, _, l2; split; [done|split; [done|split; [done|apply R0; by repeat case_match]]].
  pose proof (R0 0 ltac:(lia)) as (B2 & _ & _).
  destruct (input_ok _ _ _ _ w2 _ _ _ _ _ _ l2 (mb_recv_len b + ret) O F Eb2 B2) as (w3 & r & E3 & F3 & Eb3 & B3 & E4 & Hr & Hle);
    [cbn; lia|].
  rewrite E3. cbn [mbind option_bind]. rewrite E4. cbn [mbind option_bind]. destruct (Z.ltb_spec 0 (handle_input a r)) as [Hpos|].
  - destruct (frame_buf p w3 (SetMsgLen (mb_recv_len b + ret)) _ Eb3) as (w4 & -> & F4 & Eb4). cbn [mbind option_bind].
    eexists _, w4, _, l2. split; [done|]. split; [by etrans|]. split; [done|]. split; [|split; [lia|]].
    + destruct B3 as (? & ? & ? & ? & ?). unfold buf_ok. cbn in *. auto with lia.
    + intros _. exists r. done.
  - case_match; eexists _, w3, _, l2; (split; [done|split; [done|split; [done|apply R; [lia|done]]]]).
Qed.

Lemma RecvData_ok a c o w x y p b l : own_at a c o w x y p b l -> exists ret w' b' l', RecvData c w = Some (ret, w') /\
  net_frame (Some p) w w' /\ mbuf p w' = Some b' /\ recvs a (cn_type y) b b' l' ret.
Proof.
  intros O. pose proof O as [Ex Ec Ey Ea Eo Ep Hty [z Ho] Eb Hb _ _]. unfold RecvData, by_type. rewrite Ey. cbn [mbind option_bind].
  destruct Hty as [E|[E|E]]; rewrite E.
  - by apply (short_recv_ok a c o w x y p b l).
  - by apply (keep_recv_ok a c o w x y p b l).
  - cbn [Z.eqb OBJ_SHORT_CONN OBJ_TCP_KEEP OBJ_UDP_SESSION Pos.eqb]. unfold UdpSessionConn_RecvData. rewrite Ey. cbn [mbind option_bind].
    rewrite Eo, Ep, Ho. cbn [mbind option_bind].
    assert (R : forall r, (0 < r -> accepted a OBJ_UDP_SESSION b l) -> recvs a OBJ_UDP_SESSION b b l r) by (by intros; split; [|split]).
    case_match; [exists 0, w, b, l; do 3 (split; [done|]); by apply R|]. rewrite Eb. cbn [mbind option_bind].
    eexists _, w, b, l. do 3 (split; [done|]). apply R. destruct (Z.eqb_spec (mb_buf_type b) BUFF_RECV); [by split|lia].
Qed.
End multi.
