(* ===== verification/ConnLoop.v ===== *)
(** * Concurrent requests: trying the actions

    One pass of the loops of [mt_concurrent.cpp] over a thread's actions: what opening,
    sending and receiving do to each of them. *)

From Stdlib Require Import ZArith Lia.
From stdpp Require Import base gmap list option fin_sets.
From S2P Require Import Prelude Bytes HashList KeyTable MtSession MbufPool Epoll ConnData ConnNtfy ConnOps ConnAct ConnMulti.

Section loop.
Context {EV TB TS TK : Type} `{!ConnEnv EV, !KeyTable Z TB, !KeyTable Z TS, !KeyTable addr TK, !ConnUser}.
Abbreviation ConnW := (ConnW EV TB TS TK).
Context (rank : EV -> nat) `{L : !NetLaws rank}.
Implicit Types (w : ConnW) (a c o s t p : ptr) (G : list (ptr * ptr * ptr)).

(** A change of the fields of an action that leaves its connection. *)
Record act_frame a w w' : Prop := {
  af_other a' : a' <> a -> act a' w' = act a' w;
  af_conns : cw_conns w' = cw_conns w;
  af_ep : cw_ep w' = cw_ep w;
  af_pool : cw_pool w' = cw_pool w;
  af_proxies : cw_proxies w' = cw_proxies w;
  af_ntfys : cw_ntfys w' = cw_ntfys w;
  af_clock : cw_clock w' = cw_clock w;
}.
Lemma upd_act_frame a f w x : act a w = Some x -> exists w', upd_act a f w = Some w' /\ act_frame a w w' /\ act a w' = Some (f x).
Proof.
  intros E. unfold upd_act. rewrite E. cbn [mbind option_bind]. eexists. split; [done|]. split.
  - split; try done. intros a' Ha. unfold act. cbn. by rewrite lookup_insert_ne.
  - unfold act. cbn. apply lookup_insert_eq.
Qed.
Lemma link_act a w w' y o : act_frame a w w' -> link_ok y o w -> link_ok y o w'.
Proof. intros []. unfold link_ok, ob, ntfy. by rewrite af_proxies0, af_ntfys0, af_ep0. Qed.
Lemma own_at_act a c o w w' x y p b l a' x' : own_at a c o w x y p b l -> act_frame a' w w' ->
  act a w' = Some x' -> ac_conn x' = ac_conn x -> progress a (ac_flag x') (cn_type y) b l -> own_at a c o w' x' y p b l.
Proof.
  intros [] A Ex Ec Hp. pose proof A as []. unfold conn, ob, mbuf in *.
  split; try congruence; unfold conn, ob, mbuf.
  - by rewrite af_conns0.
  - by rewrite af_ep0.
  - by rewrite af_pool0.
  - by eapply link_act.
Qed.

(** ** The other actions of the thread *)

Lemma acts_inj G g g' : NoDup G.*1.*1 -> g ∈ G -> g' ∈ G -> g.1.1 = g'.1.1 -> g = g'.
Proof.
  intros Hn [i Hi]%list_elem_of_lookup [j Hj]%list_elem_of_lookup E. assert (i = j); [|congruence].
  eapply NoDup_lookup; [exact Hn| |]; rewrite !list_lookup_fmap; [by rewrite Hi|by rewrite Hj, E].
Qed.
Lemma obs_inj G g g' : NoDup G.*2 -> g ∈ G -> g' ∈ G -> g.2 = g'.2 -> g = g'.
Proof.
  intros Hn [i Hi]%list_elem_of_lookup [j Hj]%list_elem_of_lookup E. assert (i = j); [|congruence].
  eapply NoDup_lookup; [exact Hn| |]; rewrite list_lookup_fmap; [by rewrite Hi|by rewrite Hj, E].
Qed.
Lemma msg_own a c o w x y p b l : own_at a c o w x y p b l -> msg_of (a, c, o) w = Some p.
Proof. intros O. unfold msg_of. cbn [fst snd]. rewrite (ow_conn _ _ _ _ _ _ _ _ _ O). apply O. Qed.
Lemma msg_net q w w' g : net_frame rank q w w' -> msg_of g w' = msg_of g w.
Proof.
  intros F. unfold msg_of. pose proof (nf_conns _ _ _ _ F g.1.2) as Hc. inversion Hc as [y y' Ey E1 E2|E1 E2]; [|done].
  destruct y, y'. unfold fd_eqv in Ey. cbn in *. by injection Ey as -> -> -> -> -> -> -> ->.
Qed.
Lemma msg_act a w w' g : act_frame a w w' -> msg_of g w' = msg_of g w.
Proof. intros []. unfold msg_of, conn. by rewrite af_conns0. Qed.

(** If only one item was changed, and it is still in order, the list is. *)
Lemma good_item G w w' g : good G w -> (forall g', msg_of g' w' = msg_of g' w) -> own g w' ->
  (forall g', g' ∈ G -> g' <> g -> own g' w -> own g' w') -> good G w'.
Proof.
  intros [H1 H2 H3 H4] Hm Hg Ho. split; [|done..|].
  - intros g' Hg'. destruct (decide (g' = g)) as [->|]; [done|auto].
  - intros g1 g2. rewrite !Hm. apply H4.
Qed.

Lemma good_net G w w' a c o x y p b l b' l' : good G w -> (a, c, o) ∈ G -> own_at a c o w x y p b l ->
  net_frame rank (Some p) w w' -> mbuf p w' = Some b' -> buf_ok b' l' -> progress a (ac_flag x) (cn_type y) b' l' -> good G w'.
Proof.
  intros Gd Hin O F Eb Hb Hp. apply (good_item G w w' (a, c, o)); [done|intros; by eapply msg_net| |].
  - destruct (own_at_step _ _ _ _ _ _ _ _ _ _ _ _ b' l' O F Eb Hb Hp) as [fd O']. by exists x, (set_osfd fd y), p, b', l'.
  - intros [[a1 c1] o1] Hin' Hne (x1 & y1 & p1 & b1 & l1 & O1). cbn [fst snd] in O1.
    destruct (own_at_frame _ _ _ _ _ w' _ _ _ _ _ (Some p) O1 F) as [fd O1'].
    { intros [= ->]. apply Hne, (gd_msgs _ _ Gd); [done|done|]. by rewrite (msg_own _ _ _ _ _ _ _ _ _ O), (msg_own _ _ _ _ _ _ _ _ _ O1). }
    by exists x1, (set_osfd fd y1), p1, b1, l1.
Qed.

(** A call and then a change of the action's state. *)
Lemma good_net_act G w w1 a c o x y p b l b' l' f : good G w -> (a, c, o) ∈ G -> own_at a c o w x y p b l ->
  net_frame rank (Some p) w w1 -> mbuf p w1 = Some b' -> buf_ok b' l' -> ac_conn (f x) = ac_conn x ->
  progress a (ac_flag (f x)) (cn_type y) b' l' ->
  exists w', upd_act a f w1 = Some w' /\ good G w' /\ act_frame a w1 w' /\ act a w' = Some (f x).
Proof.
  intros Gd Hin O F Eb Hb Hc Hp. pose proof O as [Ex _ _ _ _ _ _ _ _ _ _ _].
  assert (Ex1 : act a w1 = Some x) by (unfold act; by rewrite (nf_acts _ _ _ _ F)).
  destruct (upd_act_frame a f w1 x Ex1) as (w' & Eu & A & Ex'). exists w'. split; [done|]. split; [|done].
  assert (O1 : exists y', own_at a c o w' (f x) y' p b' l').
  { pose proof O as [Q1 Q2 Q3 Q4 Q5 Q6 Q7 Q8 Q9 Q10 Q11 Q12].
    destruct (conn_after _ _ _ _ _ _ F Q3) as [fd Ey]. exists (set_osfd fd y).
    split; cbn; try congruence; [| | |by eapply link_act, link_after].
    - unfold conn. by rewrite (af_conns _ _ _ A).
    - unfold ob. rewrite (af_ep _ _ _ A). by apply (nf_obs _ _ _ _ F).
    - unfold mbuf. by rewrite (af_pool _ _ _ A). }
  apply (good_item G w w' (a, c, o)); [done| | |].
  - intros g'. by rewrite (msg_act _ _ _ _ A), (msg_net _ _ _ _ F).
  - destruct O1 as [y' O1]. by exists (f x), y', p, b', l'.
  - intros [[a1 c1] o1] Hin' Hne (x1 & y1 & p1 & b1 & l1 & O2). cbn [fst snd] in O2.
    destruct (own_at_frame _ _ _ _ _ w1 _ _ _ _ _ (Some p) O2 F) as [fd O3].
    { intros [= ->]. apply Hne, (gd_msgs _ _ Gd); [done|done|]. by rewrite (msg_own _ _ _ _ _ _ _ _ _ O), (msg_own _ _ _ _ _ _ _ _ _ O2). }
    exists x1, (set_osfd fd y1), p1, b1, l1. cbn [fst snd]. eapply own_at_act; [exact O3|exact A| |done|apply O3].
    rewrite (af_other _ _ _ A); [apply O3|]. intros ->. by apply Hne, (acts_inj G); [apply Gd|..].
Qed.

(** ** Trying one action *)

Record tried G a w w' : Prop := {
  td_good : good G w';
  td_acts a' : a' <> a -> act a' w' = act a' w;
  td_clock : cw_clock w' = cw_clock w;
  td_rank : (krank rank w' <= krank rank w)%nat;
}.
Lemma tried_net G a q w w' : good G w' -> net_frame rank q w w' -> tried G a w w'.
Proof. intros Gd F. split; [done| |apply F|apply F]. intros a' _. unfold act. by rewrite (nf_acts _ _ _ _ F). Qed.
Lemma tried_act G a q w w1 w' : good G w' -> net_frame rank q w w1 -> act_frame a w1 w' -> tried G a w w'.
Proof.
  intros Gd F A. split; [done| | |].
  - intros a' Ha. rewrite (af_other _ _ _ A) by done. unfold act. by rewrite (nf_acts _ _ _ _ F).
  - rewrite (af_clock _ _ _ A). apply F.
  - unfold krank. rewrite (af_ep _ _ _ A). apply F.
Qed.

(** An action without error that is to take the step either has to wait, and stays as it
    is, or has now passed the step or failed. *)
Definition try_ok G (pre : IMtAction -> Prop) (past : IMtAction -> bool) (try : ptr -> ptr -> ConnW -> option (bool * ConnW)) : Prop :=
  forall w a c o x, good G w -> (a, c, o) ∈ G -> act a w = Some x -> ac_errno x = ERR_NONE -> pre x -> past x = false ->
  exists wait w' x', try a c w = Some (wait, w') /\ tried G a w w' /\ act a w' = Some x' /\ ac_conn x' = ac_conn x /\
    (if (wait : bool) then x' = x else ac_errno x' <> ERR_NONE \/ past x' = true /\ ac_errno x' = ERR_NONE).

Lemma good_item_at G w a c o : good G w -> (a, c, o) ∈ G -> exists x y p b l, own_at a c o w x y p b l.
Proof. intros Gd Hin. exact (gd_own _ _ Gd _ Hin). Qed.

Definition flag_in (fs : list Z) (x : IMtAction) : Prop := ac_flag x ∈ fs.

Lemma try_open_ok G : try_ok G (flag_in [MULTI_FLAG_INIT; MULTI_FLAG_OPEN]) (is_flag MULTI_FLAG_OPEN) try_open.
Proof.
  intros w a c o x Gd Hin Ex Ee Hpre Hpast. destruct (good_item_at _ _ _ _ _ Gd Hin) as (x0 & y & p & b & l & O).
  assert (x0 = x) as -> by (pose proof (ow_act _ _ _ _ _ _ _ _ _ O); congruence).
  destruct (OpenCnnect_calls rank None _ _ _ _ _ _ _ _ _ O) as (ret & w1 & E1 & F1). apply (frame_weaken _ (Some p)) in F1 as F.
  assert (Eb : mbuf p w1 = Some b) by (rewrite (nf_bufs _ _ _ _ F1) by done; apply O).
  pose proof (ow_buf _ _ _ _ _ _ _ _ _ O) as Hb. pose proof (ow_prog _ _ _ _ _ _ _ _ _ O) as Hp.
  unfold try_open. rewrite E1. cbn [mbind option_bind]. case_match.
  - exists true, w1, x. split; [done|]. split; [|split; [|done]].
    + eapply tried_net; [|exact F]. by eapply good_net.
    + unfold act. by rewrite (nf_acts _ _ _ _ F).
  - destruct (good_net_act G w w1 a c o x y p b l b l (set_ac_flag MULTI_FLAG_OPEN)) as (w' & -> & Gd' & A & Ex'); try done.
    { destruct Hp as (P1 & P2 & P3). split; [|done]. intros E _ _. apply P1; [done|..].
      all: unfold flag_in in Hpre; intros E0; rewrite E0 in Hpre; set_solver. }
    cbn [mbind option_bind]. eexists false, w', _. split; [done|]. split; [by eapply tried_act|]. split; [done|]. split; [done|]. by right.
Qed.

Lemma try_send_ok G : try_ok G (flag_in [MULTI_FLAG_OPEN; MULTI_FLAG_SEND]) (is_flag MULTI_FLAG_SEND) try_send.
Proof.
  intros w a c o x Gd Hin Ex Ee Hpre Hpast. destruct (good_item_at _ _ _ _ _ Gd Hin) as (x0 & y & p & b & l & O).
  assert (x0 = x) as -> by (pose proof (ow_act _ _ _ _ _ _ _ _ _ O); congruence).
  assert (Ef : ac_flag x = MULTI_FLAG_OPEN).
  { unfold flag_in in Hpre. unfold is_flag in Hpast. destruct (Z.eqb_spec (ac_flag x) MULTI_FLAG_SEND); set_solver. }
  pose proof (ow_prog _ _ _ _ _ _ _ _ _ O) as (P1 & P2 & P3). rewrite Ef in P1, P2, P3.
  destruct (SendData_ok rank _ _ _ _ _ _ _ _ _ O) as (ret & w1 & b' & E1 & F & Eb & Hs & Ht).
  { intros E. by apply P1. }
  assert (Hb : buf_ok b' l).
  { destruct (ow_buf _ _ _ _ _ _ _ _ _ O) as (? & ? & ? & ? & ?). destruct Hs as [->|(n & Hn & ->)]; unfold buf_ok; cbn; auto. }
  assert (Ht' : cn_type y = OBJ_TCP_KEEP -> mb_send_len b' <= mb_msg_len b' /\ (ret <> 0 -> ret <> -1 -> mb_send_len b' = mb_msg_len b')).
  { intros E. rewrite E in Ht. apply Ht; [done|by apply P1]. }
  assert (Hp : progress a (ac_flag x) (cn_type y) b' l) by (rewrite Ef; split; [intros E _ _; by apply Ht'|done]).
  unfold try_send. rewrite E1. cbn [mbind option_bind]. destruct (Z.eqb_spec ret (-1)) as [->|H1]; [|destruct (Z.eqb_spec ret 0)].
  - destruct (good_net_act G w w1 a c o x y p b l b' l (set_ac_errno ERR_SEND_FAIL)) as (w' & -> & Gd' & A & Ex'); try done.
    cbn [mbind option_bind]. eexists false, w', _. split; [done|]. split; [by eapply tried_act|]. split; [done|]. split; [done|]. by left.
  - exists true, w1, x. split; [done|]. split; [|split; [|done]].
    + eapply tried_net; [|exact F]. by eapply good_net.
    + unfold act. by rewrite (nf_acts _ _ _ _ F).
  - destruct (good_net_act G w w1 a c o x y p b l b' l (set_ac_flag MULTI_FLAG_SEND)) as (w' & -> & Gd' & A & Ex'); try done.
    { split; [done|]. split; [|done]. intros E _. by apply Ht'. }
    cbn [mbind option_bind]. eexists false, w', _. split; [done|]. split; [by eapply tried_act|]. split; [done|]. split; [done|]. by right.
Qed.

Lemma try_recv_ok G start_ms : try_ok G (flag_in [MULTI_FLAG_SEND; MULTI_FLAG_FIN]) (is_flag MULTI_FLAG_FIN) (try_recv start_ms).
Proof.
  intros w a c o x Gd Hin Ex Ee Hpre Hpast. destruct (good_item_at _ _ _ _ _ Gd Hin) as (x0 & y & p & b & l & O).
  assert (x0 = x) as -> by (pose proof (ow_act _ _ _ _ _ _ _ _ _ O); congruence).
  assert (Ef : ac_flag x = MULTI_FLAG_SEND).
  { unfold flag_in in Hpre. unfold is_flag in Hpast. destruct (Z.eqb_spec (ac_flag x) MULTI_FLAG_FIN); set_solver. }
  pose proof (ow_prog _ _ _ _ _ _ _ _ _ O) as (P1 & P2 & P3). rewrite Ef in P1, P2, P3.
  destruct (RecvData_ok rank _ _ _ _ _ _ _ _ _ O) as (ret & w1 & b' & l' & E1 & F & Eb & Hb & Hneg & Hpos).
  assert (Hp : ret <= 0 -> progress a (ac_flag x) (cn_type y) b' l').
  { intros Hr. destruct (Hneg Hr) as [E2 E3]. rewrite Ef. split; [done|]. split; [|done]. intros E _. rewrite E2, E3. by apply P2. }
  unfold try_recv. rewrite E1. cbn [mbind option_bind]. destruct (Z.ltb_spec ret 0) as [Hr|Hr]; [|destruct (Z.eqb_spec ret 0)].
  - destruct (good_net_act G w w1 a c o x y p b l b' l' (set_ac_errno ERR_RECV_FAIL)) as (w' & -> & Gd' & A & Ex'); try done.
    { apply Hp. lia. }
    cbn [mbind option_bind]. eexists false, w', _. split; [done|]. split; [by eapply tried_act|]. split; [done|]. split; [done|]. by left.
  - exists true, w1, x. split; [done|]. split; [|split; [|done]].
    + eapply tried_net; [|exact F]. eapply good_net; [done..|apply Hp; lia].
    + unfold act. by rewrite (nf_acts _ _ _ _ F).
  - set (f := fun x => set_ac_cost _ _).
    destruct (good_net_act G w w1 a c o x y p b l b' l' f) as (w' & -> & Gd' & A & Ex'); try done.
    { split; [done|]. split; [done|]. intros _. apply Hpos. lia. }
    cbn [mbind option_bind]. eexists false, w', _. split; [done|]. split; [by eapply tried_act|]. split; [done|]. split; [done|]. by right.
Qed.
End loop.
