(* ===== verification/ConnPoll.v ===== *)
(** * Concurrent requests: waiting

    The registration of the objects of a thread's actions with the epoll proxy, the
    wait in [EpollSchedule], and [mt_multi_netfd_poll]. *)

From Stdlib Require Import ZArith Lia.
From stdpp Require Import base gmap list option fin_sets.
From S2P Require Import Prelude Bytes HashList KeyTable MtSession MbufPool Epoll ConnData ConnNtfy ConnOps ConnAct.
From S2P Require Import ConnMulti ConnLoop.

Lemma length_filter_le (P Q : ptr -> Prop) `{!forall x, Decision (P x), !forall x, Decision (Q x)} (l : list ptr) :
  (forall x, x ∈ l -> P x -> Q x) -> (length (filter P l) <= length (filter Q l))%nat.
Proof.
  induction l as [|x l IH]; intros Hi; [done|]. rewrite !filter_cons. specialize (IH ltac:(set_solver)).
  case_decide; [rewrite decide_True by (apply Hi; [by left|done]); cbn; lia|]. case_decide; cbn; lia.
Qed.

Section poll.
Context {EV TB TS TK : Type} `{!ConnEnv EV, !KeyTable Z TB, !KeyTable Z TS, !KeyTable addr TK, !ConnUser}.
Abbreviation ConnW := (ConnW EV TB TS TK).
Context (rank : EV -> nat) `{L : !NetLaws rank}.
Implicit Types (w : ConnW) (a c o s t p : ptr) (G : list (ptr * ptr * ptr)).

(** ** The list of waiting writers *)

(** A step that may put [o] into a list of writers or take it out. *)
Record wl_frame o w w' : Prop := {
  wf_acts : cw_acts w' = cw_acts w;
  wf_conns : cw_conns w' = cw_conns w;
  wf_ep : cw_ep w' = cw_ep w;
  wf_pool : cw_pool w' = cw_pool w;
  wf_clock : cw_clock w' = cw_clock w;
  wf_proxies o' : o' <> o -> cw_proxies w' !! o' = cw_proxies w !! o';
  wf_ntfys s : option_Forall2 (fun v v' => forall q, q <> o -> q ∈ sn_write_list v' <-> q ∈ sn_write_list v) (ntfy s w) (ntfy s w');
}.
#[export] Instance wl_frame_refl o : Reflexive (wl_frame o).
Proof. intros w. split; try done. intros s. destruct (ntfy s w); by constructor. Qed.

Lemma link_other y o o' w w' : wl_frame o w w' -> o' <> o -> link_ok y o' w -> link_ok y o' w'.
Proof.
  intros F Hne. unfold link_ok, ob. rewrite (wf_ep _ _ _ F), (wf_proxies _ _ _ F) by done. case_match.
  - intros (px & s & v & E1 & E2 & E3 & E4 & E5). pose proof (wf_ntfys _ _ _ F s) as Hv. rewrite E4 in Hv.
    inversion Hv as [? v' Hq E6 E7|]; subst. exists px, s, v'. do 4 (split; [done|]). by rewrite E5, Hq.
  - intros (E1 & E2 & E3). split; [done|]. split; [|done]. pose proof (wf_ntfys _ _ _ F o') as Hv.
    unfold ntfy in *. rewrite E2 in Hv. by inversion Hv.
Qed.
Lemma own_at_wl a c o' o w w' x y p b l : own_at a c o' w x y p b l -> wl_frame o w w' -> link_ok y o' w' -> own_at a c o' w' x y p b l.
Proof.
  intros [] F Hl. unfold act, conn, ob, mbuf in *. split; try done; unfold act, conn, ob, mbuf.
  - by rewrite (wf_acts _ _ _ F).
  - by rewrite (wf_conns _ _ _ F).
  - by rewrite (wf_ep _ _ _ F).
  - by rewrite (wf_pool _ _ _ F).
Qed.
Lemma good_wl G w w' a c o x y p b l : good G w -> (a, c, o) ∈ G -> own_at a c o w x y p b l -> wl_frame o w w' -> link_ok y o w' -> good G w'.
Proof.
  intros Gd Hin O F Hl. apply (good_item G w w' (a, c, o)); [done| | |].
  - intros g'. unfold msg_of, conn. by rewrite (wf_conns _ _ _ F).
  - exists x, y, p, b, l. by eapply own_at_wl.
  - intros [[a1 c1] o1] Hin' Hne (x1 & y1 & p1 & b1 & l1 & O1). exists x1, y1, p1, b1, l1. cbn [fst snd] in *.
    eapply own_at_wl; [exact O1|exact F|]. eapply link_other; [exact F| |apply O1]. intros ->.
    by apply Hne, (obs_inj G); [apply Gd|..].
Qed.

(** What a session proxy and its object look like, and the two operations on the list. *)
Definition plink o s w : Prop := exists px v, cw_proxies w !! o = Some px /\ sp_real px = Some s /\ ntfy s w = Some v /\
  (sp_flag px = 0 <-> o ∉ sn_write_list v).

Lemma set_writer_ok o s w px v l fl : cw_proxies w !! o = Some px -> sp_real px = Some s -> ntfy s w = Some v ->
  (forall q, q <> o -> q ∈ l <-> q ∈ sn_write_list v) -> (fl = 0 <-> o ∉ l) ->
  exists w', (w1 ← upd_ntfy s (set_write_list l) w; upd_proxy o (set_flag fl) w1) = Some w' /\ wl_frame o w w' /\ plink o s w'.
Proof.
  intros Ep Er Ev Hl Hf. unfold upd_ntfy. rewrite Ev. cbn [mbind option_bind]. unfold upd_proxy. cbn [cw_proxies set_ntfys].
  rewrite Ep. cbn [mbind option_bind]. eexists. split; [done|]. unfold ntfy in *. split.
  - split; try done.
    + intros o' Ho'. cbn [cw_proxies set_proxies set_ntfys]. by rewrite lookup_insert_ne.
    + intros s'. unfold ntfy. cbn [cw_ntfys set_proxies set_ntfys]. rewrite lookup_insert. case_decide as Ed.
      * subst s'. rewrite Ev. constructor. cbn. exact Hl.
      * destruct (cw_ntfys w !! s'); by constructor.
  - exists (set_flag fl px), (set_write_list l v). unfold ntfy. cbn [cw_proxies cw_ntfys set_proxies set_ntfys].
    by rewrite !lookup_insert_eq.
Qed.
Lemma InsertWriteWait_ok o s w : plink o s w -> exists w', InsertWriteWait s o w = Some w' /\ wl_frame o w w' /\ plink o s w'.
Proof.
  intros Hp. pose proof Hp as (px & v & Ep & Er & Ev & Hf). unfold InsertWriteWait. rewrite Ep. cbn [mbind option_bind].
  destruct (Z.eqb_spec (sp_flag px) 0) as [E0|E0]; [|by exists w]. rewrite Ev. cbn [mbind option_bind]. rewrite bool_decide_false by tauto.
  apply (set_writer_ok o s w px v); [done..| |].
  - intros q Hq. rewrite elem_of_app, list_elem_of_singleton. tauto.
  - rewrite elem_of_app, list_elem_of_singleton. split; [done|tauto].
Qed.
Lemma RemoveWriteWait_ok o s w : plink o s w -> exists w', RemoveWriteWait s o w = Some w' /\ wl_frame o w w' /\ plink o s w'.
Proof.
  intros Hp. pose proof Hp as (px & v & Ep & Er & Ev & Hf). unfold RemoveWriteWait. rewrite Ep. cbn [mbind option_bind].
  destruct (Z.eqb_spec (sp_flag px) 0) as [E0|E0]; [by exists w|]. rewrite Ev. cbn [mbind option_bind].
  rewrite bool_decide_true by (destruct (decide (o ∈ sn_write_list v)); tauto).
  apply (set_writer_ok o s w px v); [done..| |].
  - intros q Hq. rewrite list_elem_of_filter. tauto.
  - rewrite list_elem_of_filter. tauto.
Qed.

(** ** Registering an object *)

(** A step of a thread that only waits. *)
Record waits G w w' : Prop := {
  ws_good : good G w -> good G w';
  ws_acts : cw_acts w' = cw_acts w;
  ws_clock : cw_clock w' = cw_clock w;
  ws_rank : (krank rank w' <= krank rank w)%nat;
}.
#[export] Instance waits_refl G : Reflexive (waits G).
Proof. by intros w. Qed.
#[export] Instance waits_trans G : Transitive (waits G).
Proof. intros w1 w2 w3 [] []. split; [auto|congruence|congruence|lia]. Qed.

Lemma waits_net G w w' : net_frame rank None w w' -> waits G w w'.
Proof.
  intros F. split; [|apply F..]. intros Gd. split; [|apply Gd|apply Gd|].
  - intros [[a c] o] Hin. destruct (good_item_at _ _ _ _ _ Gd Hin) as (x & y & p & b & l & O).
    destruct (own_at_frame _ _ _ _ _ _ _ _ _ _ _ _ O F) as [fd O']; [done|]. by exists x, (set_osfd fd y), p, b, l.
  - intros g g'. rewrite !(msg_net rank None w w') by done. apply Gd.
Qed.
Lemma waits_wl G w w' a c o x y p b l : (a, c, o) ∈ G -> own_at a c o w x y p b l -> wl_frame o w w' -> link_ok y o w' -> waits G w w'.
Proof.
  intros Hin O F Hl. split; [|apply F|apply F|].
  - intros Gd. by eapply good_wl.
  - unfold krank. by rewrite (wf_ep _ _ _ F).
Qed.
Lemma link_plink y o s w : cn_type y = OBJ_UDP_SESSION -> is_Some (ob s w) -> plink o s w -> link_ok y o w.
Proof. intros E Hs (px & v & E1 & E2 & E3 & E4). unfold link_ok. rewrite E, Z.eqb_refl. exists px, s, v. auto. Qed.

Lemma session_add_calls s args w : is_Some (ob s w) -> calls rank None w (UdpSession_EpollCtlAdd s args w).
Proof.
  intros Hs. pose proof Hs as [z Ez]. unfold UdpSession_EpollCtlAdd. rewrite Ez. cbn [mbind option_bind].
  case_match; [by apply calls_ret|].
  pose proof (frame_ep_do rank None w _ (ctrl_add_quiet rank (eo_fd z) EPOLLOUT)) as F. destruct (ep_do _ w) as [ok w1].
  eapply calls_frame; [exact F|]. case_match; [by apply calls_ret|]. apply calls_ob; [by apply (nf_obs _ _ _ _ F)|].
  intros w' _. by apply calls_ret.
Qed.
Lemma session_del_calls s args w : is_Some (ob s w) -> calls rank None w (UdpSession_EpollCtlDel s args w).
Proof.
  intros Hs. pose proof Hs as [z Ez]. unfold UdpSession_EpollCtlDel. rewrite Ez. cbn [mbind option_bind].
  case_match; [by apply calls_ret|].
  pose proof (frame_ep_do rank None w _ (ctrl_del_quiet rank (eo_fd z) EPOLLOUT)) as F. unfold EpollCtrlDel. destruct (ep_do _ w) as [ok w1].
  eapply calls_frame; [exact F|]. case_match; [by apply calls_ret|]. apply calls_ob; [by apply (nf_obs _ _ _ _ F)|].
  intros w' _. by apply calls_ret.
Qed.

Lemma plink_after q w w' o s : net_frame rank q w w' -> plink o s w -> plink o s w'.
Proof.
  intros F (px & v & E1 & E2 & E3 & E4). exists px, v. unfold ntfy in *. by rewrite (nf_proxies _ _ _ _ F), (nf_ntfys _ _ _ _ F).
Qed.

Lemma AddObj_ok G w a c o : good G w -> (a, c, o) ∈ G -> exists ok w', AddObj o w = Some (ok, w') /\ waits G w w'.
Proof.
  intros Gd Hin. destruct (good_item_at _ _ _ _ _ Gd Hin) as (x & y & p & b & l & O).
  pose proof (ow_ob _ _ _ _ _ _ _ _ _ O) as [z Ez]. pose proof (ow_link _ _ _ _ _ _ _ _ _ O) as Hl.
  unfold AddObj. rewrite Ez. cbn [mbind option_bind]. destruct (FdRefGet _ _); [|by exists false, w].
  unfold ctl_add. rewrite Ez. cbn [mbind option_bind]. unfold link_ok in Hl. destruct (_ =? _) eqn:Et.
  - destruct Hl as (px & s & v & E1 & E2 & E3 & E4 & E5). rewrite E1, E2. case_match; [by exists true, w|].
    destruct (session_add_calls s (eo_fd z) w E3) as (r & w1 & -> & F). cbn [mbind option_bind].
    case_match; [exists false, w1; split; [done|by apply waits_net]|].
    destruct (InsertWriteWait_ok o s w1) as (w2 & -> & F2 & Hp2).
    { eapply plink_after; [exact F|]. by exists px, v. }
    exists true, w2. split; [done|]. destruct (own_at_frame _ _ _ _ _ _ _ _ _ _ _ _ O F) as [fd O1]; [done|].
    etrans; [by apply waits_net|]. eapply waits_wl; [done|exact O1|done|]. apply Z.eqb_eq in Et.
    apply (link_plink _ _ s); [done| |done]. unfold ob. rewrite (wf_ep _ _ _ F2). by apply (nf_obs _ _ _ _ F).
  - destruct Hl as (-> & E2 & _). rewrite E2. pose proof (frame_ep_do rank None w _ (ctl_add_quiet rank o)) as F.
    destruct (ep_do _ w) as [r w1]. cbn [mbind option_bind]. eexists _, w1. split; [done|by apply waits_net].
Qed.
Lemma DelObj_ok G w a c o : good G w -> (a, c, o) ∈ G -> exists ok w', DelObj o w = Some (ok, w') /\ waits G w w'.
Proof.
  intros Gd Hin. destruct (good_item_at _ _ _ _ _ Gd Hin) as (x & y & p & b & l & O).
  pose proof (ow_ob _ _ _ _ _ _ _ _ _ O) as [z Ez]. pose proof (ow_link _ _ _ _ _ _ _ _ _ O) as Hl.
  unfold DelObj. rewrite Ez. cbn [mbind option_bind]. destruct (FdRefGet _ _); [|by exists false, w].
  unfold ctl_del. rewrite Ez. cbn [mbind option_bind]. unfold link_ok in Hl. destruct (_ =? _) eqn:Et.
  - destruct Hl as (px & s & v & E1 & E2 & E3 & E4 & E5). rewrite E1, E2. case_match; [by exists true, w|].
    destruct (RemoveWriteWait_ok o s w) as (w1 & -> & F1 & Hp1); [by exists px, v|]. cbn [mbind option_bind].
    assert (Es : is_Some (ob s w1)) by (unfold ob; by rewrite (wf_ep _ _ _ F1)).
    destruct (session_del_calls s (eo_fd z) w1 Es) as (r & w2 & -> & F2). cbn [mbind option_bind].
    eexists _, w2. split; [done|]. apply Z.eqb_eq in Et. etrans; [|by apply waits_net].
    eapply waits_wl; [done|exact O|done|]. by apply (link_plink _ _ s).
  - destruct Hl as (-> & E2 & _). rewrite E2. pose proof (frame_ep_do rank None w _ (ctl_del_quiet rank o)) as F.
    destruct (ep_do _ w) as [r w1]. cbn [mbind option_bind]. eexists _, w1. split; [done|by apply waits_net].
Qed.

Lemma DelObjs_ok G l w : good G w -> l ⊆ G.*2 -> exists w', DelObjs l w = Some w' /\ waits G w w'.
Proof.
  revert w. induction l as [|o l IH]; intros w Gd Hl; [by exists w|]. cbn [DelObjs].
  assert (Ho : o ∈ G.*2) by (apply Hl; by left). apply list_elem_of_fmap in Ho as ([[a c] o'] & -> & Hin).
  destruct (DelObj_ok G w a c o' Gd Hin) as (ok & w1 & E & W1). cbn [snd]. rewrite E. cbn [mbind option_bind].
  destruct (IH w1) as (w2 & E2 & W2); [by apply W1|set_solver|]. exists w2. split; [done|]. by etrans.
Qed.
Lemma AddObjs_ok G l added w : good G w -> added ⊆ G.*2 -> l ⊆ G.*2 -> exists ok w', AddObjs added l w = Some (ok, w') /\ waits G w w'.
Proof.
  revert added w. induction l as [|o l IH]; intros added w Gd Ha Hl; [by exists true, w|]. cbn [AddObjs].
  assert (Ho : o ∈ G.*2) by (apply Hl; by left). pose proof Ho as ([[a c] o'] & -> & Hin)%list_elem_of_fmap.
  destruct (AddObj_ok G w a c o' Gd Hin) as (ok & w1 & E & W1). cbn [snd] in *. rewrite E. cbn [mbind option_bind]. destruct ok.
  - destruct (IH (added ++ [o']) w1) as (ok & w2 & E2 & W2); [by apply W1|set_solver..|]. exists ok, w2. split; [done|]. by etrans.
  - destruct (DelObjs_ok G added w1) as (w2 & -> & W2); [by apply W1|done|]. cbn [mbind option_bind].
    exists false, w2. split; [done|]. by etrans.
Qed.
Lemma received_ok G l w : good G w -> l ⊆ G.*2 -> exists n, received l w = Some n.
Proof.
  intros Gd. induction l as [|o l IH]; intros Hl; [by exists 0|]. cbn [received].
  assert (Ho : o ∈ G.*2) by (apply Hl; by left). apply list_elem_of_fmap in Ho as ([[a c] o'] & -> & Hin).
  destruct (good_item_at _ _ _ _ _ Gd Hin) as (x & y & p & b & l1 & O). destruct (ow_ob _ _ _ _ _ _ _ _ _ O) as [z Ez].
  cbn [snd]. rewrite Ez. cbn [mbind option_bind]. destruct IH as [n ->]; [set_solver|]. cbn [mbind option_bind]. by eexists.
Qed.

(** ** [mt_multi_netfd_poll] *)

(** The state of an action of the list, and how many have no error. *)
Lemma good_act G w g : good G w -> g ∈ G -> exists x, act g.1.1 w = Some x /\ ac_conn x = Some g.1.2.
Proof.
  intros Gd Hin. destruct g as [[a c] o]. destruct (good_item_at _ _ _ _ _ Gd Hin) as (x & y & p & b & l & O).
  exists x. split; apply O.
Qed.
Definition no_error w a : Prop := ac_errno <$> act a w = Some ERR_NONE.
#[export] Instance no_error_dec w a : Decision (no_error w a).
Proof. unfold no_error. apply _. Defined.
Definition live G w : nat := length (filter (no_error w) G.*1.*1).

(** A step in which actions only fail. *)
Record fails G w w' : Prop := {
  fl_good : good G w';
  fl_act g : g ∈ G -> exists x x', act g.1.1 w = Some x /\ act g.1.1 w' = Some x' /\ ac_flag x' = ac_flag x /\
    (x' = x \/ ac_errno x = ERR_NONE /\ ac_errno x' <> ERR_NONE);
}.
Lemma fails_no_error G w w' a : fails G w w' -> a ∈ G.*1.*1 -> no_error w' a -> no_error w a.
Proof.
  intros F (y & -> & (g & -> & Hin)%list_elem_of_fmap)%list_elem_of_fmap.
  destruct (fl_act _ _ _ F g Hin) as (x & x' & E1 & E2 & _ & Hx). unfold no_error. rewrite E1, E2. cbn.
  destruct Hx as [->|[Hx Hx']]; [done|]. congruence.
Qed.
Lemma fails_live G w w' : fails G w w' -> (live G w' <= live G w)%nat.
Proof. intros F. apply length_filter_le. intros a. by apply fails_no_error. Qed.
Lemma fails_fewer G w w' g : fails G w w' -> g ∈ G -> no_error w g.1.1 -> ~ no_error w' g.1.1 -> (live G w' < live G w)%nat.
Proof.
  intros F Hin Hg Hg'. assert (Ha : g.1.1 ∈ G.*1.*1) by (by do 2 apply list_elem_of_fmap_2).
  pose proof (fun a => fails_no_error G w w' a F) as Hf. unfold live.
  destruct (list_elem_of_split _ _ Ha) as (l1 & l2 & El). rewrite El in Hf |- *. rewrite !filter_app, !filter_cons, !length_app.
  rewrite (decide_True _ _ Hg), (decide_False _ _ Hg'). cbn [length].
  pose proof (length_filter_le (no_error w') (no_error w) l1 ltac:(intros; apply Hf; [set_solver|done])).
  pose proof (length_filter_le (no_error w') (no_error w) l2 ltac:(intros; apply Hf; [set_solver|done])). lia.
Qed.

Lemma fails_acts G w w' : good G w' -> (forall g, g ∈ G -> act g.1.1 w' = act g.1.1 w) -> fails G w w'.
Proof.
  intros Gd' Ha. split; [done|]. intros g Hin. destruct (good_act _ _ _ Gd' Hin) as (x & Ex & _). exists x, x.
  rewrite <- Ha by done. auto.
Qed.
Lemma fails_trans G w1 w2 w3 : fails G w1 w2 -> fails G w2 w3 -> fails G w1 w3.
Proof.
  intros F1 F2. split; [apply F2|]. intros g Hin. destruct (fl_act _ _ _ F1 g Hin) as (x1 & x2 & E1 & E2 & Ef & Hx).
  destruct (fl_act _ _ _ F2 g Hin) as (y2 & x3 & E3 & E4 & Ef2 & Hy). assert (y2 = x2) as -> by congruence.
  exists x1, x3. do 2 (split; [done|]). split; [congruence|]. destruct Hx as [->|[Hx Hx']]; [done|].
  destruct Hy as [->|[Hy _]]; [by right|congruence].
Qed.
(** An action of the list fails. *)
Lemma fail_act G w g err : good G w -> g ∈ G -> no_error w g.1.1 -> err <> ERR_NONE ->
  exists w', upd_act g.1.1 (set_ac_errno err) w = Some w' /\ fails G w w' /\ ~ no_error w' g.1.1 /\
    cw_clock w' = cw_clock w /\ krank rank w' = krank rank w /\ (forall a, a <> g.1.1 -> act a w' = act a w).
Proof.
  intros Gd Hin Hn He. destruct g as [[a c] o]. destruct (good_item_at _ _ _ _ _ Gd Hin) as (x & y & p & b & l & O).
  pose proof O as [Ex Ec _ _ _ _ _ _ Eb Hb _ Hp].
  destruct (good_net_act rank G w w a c o x y p b l b l (set_ac_errno err)) as (w' & Eu & Gd' & A & Ex'); try done.
  exists w'. cbn [fst snd] in *. unfold no_error in *. rewrite Ex in Hn. injection Hn as Hn. split; [done|]. split; [|split; [|split; [apply A|split]]].
  - split; [done|]. intros g' Hin'. destruct (decide (g'.1.1 = a)) as [->|Hne].
    + exists x, (set_ac_errno err x). do 3 (split; [done|]). by right.
    + destruct (good_act _ _ _ Gd Hin') as (x' & E' & _). exists x', x'. rewrite (af_other _ _ _ A) by done. auto.
  - rewrite Ex'. cbn. congruence.
  - unfold krank. by rewrite (af_ep _ _ _ A).
  - apply A.
Qed.

(** Time passes, or events are used up, or actions fail. *)
Definition onward G w w' : Prop := cw_clock w < cw_clock w' \/ cw_clock w' = cw_clock w /\
  ((krank rank w' < krank rank w)%nat \/ (krank rank w' <= krank rank w)%nat /\ (live G w' < live G w)%nat).

Lemma poll_list_ok G K J how w : good G w -> K ++ J ⊆ G -> NoDup (K ++ J) ->
  exists w', poll_list (J.*1.*1) how (K.*2) w = Some (Some ((K ++ J).*2), w') /\ waits G w w'.
Proof.
  revert K w. induction J as [|g J IH]; intros K w Gd Hsub Hn; [exists w; by rewrite app_nil_r|].
  cbn [fmap list_fmap poll_list]. assert (Hin : g ∈ G) by (apply Hsub; set_solver). destruct g as [[a c] o]. cbn [fst snd].
  destruct (good_item_at _ _ _ _ _ Gd Hin) as (x & y & p & b & l & O). pose proof O as [Ex Ec Ey _ Eo _ _ Ho _ _ _ _].
  unfold action_ntfy. rewrite Ex. cbn [mbind option_bind]. rewrite Ec, Ey. cbn [mbind option_bind]. rewrite Eo.
  destruct (frame_ob rank None w o (set_how how) Ho) as (w1 & -> & F). apply waits_net with (G := G) in F. cbn [mbind option_bind].
  rewrite bool_decide_false.
  - destruct (IH (K ++ [(a, c, o)]) w1) as (w' & E & W); [by apply F|by rewrite <- app_assoc..|].
    rewrite fmap_app in E. cbn in E. rewrite E, <- app_assoc. exists w'. split; [done|]. by etrans.
  - intros ([[a' c'] o'] & Eo' & Hin')%list_elem_of_fmap. cbn in Eo'. subst o'.
    assert ((a', c', o) = (a, c, o)) as E by (apply (obs_inj G); [apply Gd|apply Hsub; set_solver|done|done]).
    injection E as -> ->. apply list.NoDup_app in Hn as (_ & Hd & _). apply (Hd _ Hin'). by left.
Qed.

(** What runs while the thread waits: whatever else it does, it leaves the thread's
    actions alone and keeps their objects in order, and either time passes or it has
    used up an event. *)
Class SwitchLaws G (switch : ptr -> Z -> ConnW -> option ConnW) : Prop :=
  switch_ok t until w : good G w -> exists w', switch t until w = Some w' /\ good G w' /\
    (forall g, g ∈ G -> act g.1.1 w' = act g.1.1 w) /\
    (cw_clock w < cw_clock w' \/ cw_clock w' = cw_clock w /\ (krank rank w' < krank rank w)%nat).

Lemma netfd_poll_ok G W t switch how timeout w : SwitchLaws G switch -> good G w -> W ⊆ G -> NoDup W -> W <> [] ->
  (forall g, g ∈ W -> no_error w g.1.1) ->
  exists r w', mt_multi_netfd_poll switch t (W.*1.*1) how timeout w = Some (r, w') /\ fails G w w' /\ onward G w w'.
Proof.
  intros HS Gd Hsub Hn Hne Hlive. unfold mt_multi_netfd_poll.
  destruct (poll_list_ok G [] W how w Gd Hsub Hn) as (w1 & E1 & W1). cbn [fmap list_fmap app] in E1. rewrite E1. cbn [mbind option_bind].
  pose proof (ws_good _ _ _ W1 Gd) as Gd1. assert (Hos : W.*2 ⊆ G.*2) by (intros o (g & -> & Hg)%list_elem_of_fmap; by apply list_elem_of_fmap_2, Hsub).
  unfold EpollSchedule. destruct (AddObjs_ok G (W.*2) [] w1 Gd1) as (ok & w2 & -> & W2); [set_solver|done|]. cbn [mbind option_bind].
  pose proof (ws_good _ _ _ W2 Gd1) as Gd2. destruct ok; cbn [negb].
  - set (w3 := set_cio _ w2). assert (Gd3 : good G w3) by (apply (waits_net G w2 w3); [by split|done]).
    destruct (HS t (u64 (i32 timeout + clock w2)) w3 Gd3) as (w4 & -> & Gd4 & Ha4 & Hp). cbn [mbind option_bind].
    destruct (received_ok G (W.*2) w4 Gd4 Hos) as [n ->]. cbn [mbind option_bind].
    destruct (DelObjs_ok G (W.*2) w4 Gd4 Hos) as (w5 & -> & W5). cbn [mbind option_bind].
    assert (F : fails G w w5).
    { apply fails_acts; [by apply W5|]. intros g Hin. unfold act. rewrite (ws_acts _ _ _ W5).
      change (act g.1.1 w4 = act g.1.1 w). rewrite Ha4 by done. unfold act, w3. cbn [cw_acts set_cio].
      by rewrite (ws_acts _ _ _ W2), (ws_acts _ _ _ W1). }
    assert (Hon : onward G w w5).
    { pose proof (ws_clock _ _ _ W1). pose proof (ws_clock _ _ _ W2). pose proof (ws_clock _ _ _ W5).
      pose proof (ws_rank _ _ _ W1). pose proof (ws_rank _ _ _ W2). pose proof (ws_rank _ _ _ W5).
      assert (cw_clock w3 = cw_clock w2) by done. assert (krank rank w3 = krank rank w2) by done.
      unfold onward. destruct Hp as [Hp|[Hp1 Hp2]]; [left; lia|right; split; [congruence|left; lia]]. }
    destruct (n =? 0); cbn [negb].
    + by exists (-3), w5.
    + by exists 0, w5.
  - pose proof (nl_errno (NetLaws := L) (ep_kernel (cw_ep w2))) as He.
    cbn [mbind option_bind]. rewrite (proj2 (Z.eqb_neq _ _) He). cbn [negb].
    destruct (last W) as [g|] eqn:El; [|by apply last_None in El].
    assert (Elast : last (W.*1.*1) = Some g.1.1) by (by rewrite !fmap_last, El). rewrite Elast. cbn match.
    apply last_Some_elem_of in El. assert (Hin : g ∈ G) by (by apply Hsub).
    assert (Ha2 : forall a, act a w2 = act a w) by (intros a; unfold act; by rewrite (ws_acts _ _ _ W2), (ws_acts _ _ _ W1)).
    destruct (fail_act G w2 g ERR_EPOLL_FAIL Gd2 Hin) as (w3 & -> & F3 & Hg3 & Hc3 & Hr3 & _); [|done|].
    { unfold no_error. rewrite Ha2. by apply Hlive. }
    cbn [mbind option_bind]. exists (-2), w3. split; [done|].
    assert (F : fails G w w3) by (eapply fails_trans; [by apply fails_acts|done]). split; [done|]. right.
    split; [rewrite Hc3, (ws_clock _ _ _ W2); apply W1|]. right. split.
    + pose proof (ws_rank _ _ _ W1). pose proof (ws_rank _ _ _ W2). lia.
    + apply (fails_fewer G w w3 g); try done. by apply Hlive.
Qed.
End poll.
