(* ===== verification/ConnRun.v ===== *)
(** * Concurrent requests: the loops of [mt_concurrent.cpp]

    Opening, sending and receiving end, and the result says how far the actions got. *)

From Stdlib Require Import ZArith Lia.
From stdpp Require Import base gmap list option fin_sets.
From S2P Require Import Prelude Bytes HashList KeyTable MtSession MbufPool Epoll ConnData ConnNtfy ConnOps ConnAct.
From S2P Require Import ConnMulti ConnLoop ConnPoll.

(** Induction over three measures, the first one first. *)
Lemma lex3_ind {A} (P : A -> Prop) (f1 f2 f3 : A -> nat) :
  (forall w, (forall w', (f1 w' < f1 w)%nat \/ f1 w' = f1 w /\
     ((f2 w' < f2 w)%nat \/ (f2 w' <= f2 w)%nat /\ (f3 w' < f3 w)%nat) -> P w') -> P w) -> forall w, P w.
Proof.
  intros Hs. assert (Hn : forall n1 n2 n3 w, f1 w = n1 -> f2 w = n2 -> f3 w = n3 -> P w); [|intros w; by eapply Hn].
  intros n1. induction (lt_wf n1) as [n1 _ IH1]. intros n2. induction (lt_wf n2) as [n2 _ IH2].
  intros n3. induction (lt_wf n3) as [n3 _ IH3]. intros w E1 E2 E3. apply Hs. intros w' Hw'.
  destruct (decide (f1 w' < f1 w)%nat); [by eapply IH1; [|reflexivity..]; lia|].
  destruct (decide (f2 w' < f2 w)%nat); [eapply IH2; [|lia|reflexivity..]; lia|].
  eapply IH3; [|lia|lia|reflexivity]. lia.
Qed.

Section run.
Context {EV TB TS TK : Type} `{!ConnEnv EV, !KeyTable Z TB, !KeyTable Z TS, !KeyTable addr TK, !ConnUser}.
Abbreviation ConnW := (ConnW EV TB TS TK).
Context (rank : EV -> nat) `{L : !NetLaws rank}.
Context (G : list (ptr * ptr * ptr)) (switch : ptr -> Z -> ConnW -> option ConnW) `{HS : !SwitchLaws rank G switch}.
Implicit Types (w : ConnW) (a c o s t p : ptr) (W V J : list (ptr * ptr * ptr)) (g : ptr * ptr * ptr).

(** The actions of [J] that have no error are [pre]. *)
Definition ready (pre : IMtAction -> Prop) J w : Prop :=
  forall g x, g ∈ J -> act g.1.1 w = Some x -> ac_errno x = ERR_NONE -> pre x.
(** Those that had an error keep it and are not touched. *)
Definition keeps_errors w w' : Prop :=
  forall g x, g ∈ G -> act g.1.1 w = Some x -> ac_errno x <> ERR_NONE -> act g.1.1 w' = Some x.
Lemma keeps_errors_trans w1 w2 w3 : keeps_errors w1 w2 -> keeps_errors w2 w3 -> keeps_errors w1 w3.
Proof. intros H1 H2 g x Hin E He. eapply H2; eauto. Qed.
Lemma fails_keeps w w' : fails G w w' -> keeps_errors w w'.
Proof.
  intros F g x Hin E He. destruct (fl_act _ _ _ F g Hin) as (x1 & x2 & E1 & E2 & _ & Hx).
  assert (x1 = x) as -> by congruence. destruct Hx as [->|[? _]]; [done|congruence].
Qed.
Lemma fails_ready pre J w w' : fails G w w' -> J ⊆ G -> ready pre J w -> ready pre J w'.
Proof.
  intros F Hsub Hr g x Hin E He. destruct (fl_act _ _ _ F g (Hsub _ Hin)) as (x1 & x2 & E1 & E2 & _ & Hx).
  assert (x2 = x) as -> by congruence. destruct Hx as [->|[_ ?]]; [by eapply Hr|congruence].
Qed.
Lemma ready_app pre J J' w : ready pre J w -> ready pre J' w -> ready pre (J ++ J') w.
Proof. intros H1 H2 g x [Hin|Hin]%elem_of_app; eauto. Qed.
Lemma in_acts g : g ∈ G -> g.1.1 ∈ G.*1.*1.
Proof. intros. by do 2 apply list_elem_of_fmap_2. Qed.

(** A pass: what it may change. *)
Record pass w w' : Prop := {
  ps_good : good G w';
  ps_clock : cw_clock w' = cw_clock w;
  ps_rank : (krank rank w' <= krank rank w)%nat;
  ps_errors : keeps_errors w w';
}.
Lemma pass_refl w : good G w -> pass w w.
Proof. intros Gd. split; try done. by intros g x. Qed.
Lemma pass_trans w1 w2 w3 : pass w1 w2 -> pass w2 w3 -> pass w1 w3.
Proof. intros [] []. split; [done|congruence|lia|by eapply keeps_errors_trans]. Qed.
Lemma pass_live w w' : good G w -> pass w w' -> (live G w' <= live G w)%nat.
Proof.
  intros Gd P. apply length_filter_le. intros a (y & -> & (g & -> & Hin)%list_elem_of_fmap)%list_elem_of_fmap Hn.
  destruct (good_act _ _ _ Gd Hin) as (x & Ex & _). unfold no_error in *. rewrite Ex. cbn.
  destruct (decide (ac_errno x = ERR_NONE)) as [->|Hne]; [done|]. rewrite (ps_errors _ _ P g x Hin Ex Hne) in Hn. done.
Qed.
Lemma tried_pass a c o w w' x : (a, c, o) ∈ G -> act a w = Some x -> ac_errno x = ERR_NONE -> tried rank G a w w' -> pass w w'.
Proof.
  intros Hin Ex Ee T. split; try apply T. intros g x' Hin' Ex' He. rewrite (td_acts _ _ _ _ _ T); [done|]. congruence.
Qed.

(** ** The loop over the actions *)

Section scan.
Context (pre : IMtAction -> Prop) (past : IMtAction -> bool) (try : ptr -> ptr -> ConnW -> option (bool * ConnW)).
Context (Htry : try_ok rank G pre past try) (no_conn : Z).

(** Each action of the pass has an error, is past the step, or waits. *)
Definition sorted_out J V w : Prop := forall g x, g ∈ J -> act g.1.1 w = Some x ->
  ac_errno x <> ERR_NONE \/ past x = true \/ g ∈ V.

(** The result of a pass over [J] when the actions [W] wait already. *)
Definition scanned J W w (r : option (scan_res * ConnW)) : Prop :=
  exists seen V w', r = Some (ScanDone seen ((W ++ V).*1.*1), w') /\
    pass w w' /\ V ⊆ J /\ NoDup (W ++ V) /\ (forall g, g ∈ W ++ V -> no_error w' g.1.1) /\ ready pre (W ++ V) w' /\
    sorted_out J V w' /\ (forall g, g ∈ G -> g ∉ J -> act g.1.1 w' = act g.1.1 w).

(** The first action is done with, or waits. *)
Lemma scanned_done g J W w w1 r x : scanned J W w1 r -> pass w w1 -> g ∈ G -> g ∉ J -> act g.1.1 w1 = Some x ->
  ac_errno x <> ERR_NONE \/ past x = true -> (forall g', g' ∈ G -> g' <> g -> act g'.1.1 w1 = act g'.1.1 w) ->
  scanned (g :: J) W w r.
Proof.
  intros (seen & V & w' & E & P & Hsub & Hn & Hw & Hr & Hs & Ha) P1 Hin Hg Ex Hx Ho. exists seen, V, w'.
  split; [done|]. split; [by eapply pass_trans|]. split; [set_solver|]. do 3 (split; [done|]). split.
  - intros g' x' [->|Hg']%elem_of_cons Ex'; [|by eapply Hs]. rewrite Ha, Ex in Ex' by done. injection Ex' as <-. tauto.
  - intros g' Hin' Hg'. rewrite Ha, Ho; [done|done|set_solver|done|set_solver].
Qed.
Lemma scanned_wait g J W w w1 r : scanned J (W ++ [g]) w1 r -> pass w w1 ->
  (forall g', g' ∈ G -> g' <> g -> act g'.1.1 w1 = act g'.1.1 w) -> scanned (g :: J) W w r.
Proof.
  intros (seen & V & w' & E & P & Hsub & Hn & Hw & Hr & Hs & Ha) P1 Ho. exists seen, (g :: V), w'.
  rewrite <- app_assoc in *. split; [done|]. split; [by eapply pass_trans|]. split; [set_solver|]. do 3 (split; [done|]). split.
  - intros g' x' [->|Hg']%elem_of_cons Ex'; [right; right; by left|]. destruct (Hs g' x' Hg' Ex') as [?|[?|?]]; [tauto|tauto|].
    right. right. by right.
  - intros g' Hin' Hg'. rewrite Ha, Ho; [done|done|set_solver|done|set_solver].
Qed.

Lemma ready_same J w w' : (forall g, g ∈ J -> act g.1.1 w' = act g.1.1 w) -> ready pre J w -> ready pre J w'.
Proof. intros Ha Hr g x Hin E He. eapply Hr; [exact Hin| |exact He]. by rewrite <- Ha. Qed.

Lemma scan_ok J W w seen : good G w -> W ++ J ⊆ G -> NoDup (W ++ J) -> ready pre (W ++ J) w ->
  (forall g, g ∈ W -> no_error w g.1.1) -> scanned J W w (scan past no_conn try (J.*1.*1) seen (W.*1.*1) w).
Proof.
  revert W w seen. induction J as [|g J IH]; intros W w seen Gd Hsub Hn Hr Hw.
  { exists seen, [], w. rewrite !app_nil_r in *. split; [done|]. split; [by apply pass_refl|]. do 4 (split; [done|]).
    split; [|done]. intros g x Hin. by apply elem_of_nil in Hin. }
  assert (Hin : g ∈ G) by (apply Hsub; set_solver). cbn [fmap list_fmap scan].
  destruct (good_act _ _ _ Gd Hin) as (x & Ex & Ec). rewrite Ex. cbn [mbind option_bind].
  pose proof Hn as (N1 & N2 & N3)%list.NoDup_app. apply NoDup_cons in N3 as [N3 N4].
  assert (HgW : g ∉ W) by (intros Hg; apply (N2 g Hg); by left).
  assert (Hn' : NoDup (W ++ J)) by (apply list.NoDup_app; split; [done|split; [|done]]; intros g' Hg' Hg2; apply (N2 g' Hg'); by right).
  assert (HsJ : W ++ J ⊆ G) by set_solver. assert (HrJ : ready pre (W ++ J) w) by (intros g' x' Hg'; apply Hr; set_solver).
  destruct (Z.eqb_spec (ac_errno x) ERR_NONE) as [Ee|Ee]; cbn [negb];
    [|by eapply scanned_done; [by apply IH|by apply pass_refl|done..|left|]].
  destruct (past x) eqn:Hp; [by eapply scanned_done; [by apply IH|by apply pass_refl|done..|right|]|].
  rewrite Ec. destruct g as [[a c] o]. cbn [fst snd] in *.
  destruct (Htry w a c o x) as (wait & w1 & x' & -> & T & Ex' & Ec' & Hx'); try done.
  { apply (Hr (a, c, o)); [set_solver|done|done]. }
  cbn [mbind option_bind]. pose proof (tried_pass _ _ _ _ _ _ Hin Ex Ee T) as P.
  assert (Ho : forall g', g' ∈ G -> g' <> (a, c, o) -> act g'.1.1 w1 = act g'.1.1 w).
  { intros g' Hin' Hne. apply (td_acts _ _ _ _ _ T). intros E. by apply Hne, (acts_inj G); [apply Gd|..]. }
  assert (HoJ : forall g', g' ∈ W ++ J -> act g'.1.1 w1 = act g'.1.1 w).
  { intros g' Hg'. apply Ho; [by apply HsJ|]. intros ->. set_solver. }
  assert (HnW : forall g', g' ∈ W -> no_error w1 g'.1.1) by (intros g' Hg'; unfold no_error; rewrite HoJ by set_solver; by apply Hw).
  destruct wait.
  - subst x'. apply (scanned_wait _ _ _ _ w1); [|done|done].
    replace (W.*1.*1 ++ [a]) with ((W ++ [(a, c, o)]).*1.*1) by (by rewrite !fmap_app).
    apply IH; rewrite <- ?app_assoc; cbn [app]; [apply P|done|done| |].
    + intros g' x1 Hg' E1 E2. destruct (decide (g' = (a, c, o))) as [->|Hne].
      * cbn [fst] in E1. apply (Hr (a, c, o)); [done|cbn [fst]; congruence|done].
      * apply (Hr g' x1 Hg'); [|done]. rewrite <- Ho; [done|by apply Hsub|done].
    + intros g' [Hg'| ->%list_elem_of_singleton]%elem_of_app; [by apply HnW|]. unfold no_error. cbn [fst]. rewrite Ex'. cbn. congruence.
  - apply (scanned_done _ _ _ _ w1 _ x'); try done; [|tauto]. apply IH; try done; [apply P|]. by eapply ready_same.
Qed.

(** ** The loop until the deadline *)

Lemma set_errnos_ok W w err : good G w -> W ⊆ G -> NoDup W -> (forall g, g ∈ W -> no_error w g.1.1) -> err <> ERR_NONE ->
  exists w', set_errnos (W.*1.*1) err w = Some w' /\ fails G w w' /\ (forall g, g ∈ W -> ~ no_error w' g.1.1) /\
    cw_clock w' = cw_clock w /\ krank rank w' = krank rank w.
Proof.
  intros Gd Hsub Hn Hw He. revert w Gd Hw. induction W as [|g W IH]; intros w Gd Hw.
  { exists w. split; [done|]. split; [by apply fails_acts|]. split; [|done]. intros g Hg. by apply elem_of_nil in Hg. }
  apply NoDup_cons in Hn as [Hg Hn]. assert (Hin : g ∈ G) by (apply Hsub; by left). cbn [fmap list_fmap set_errnos].
  destruct (fail_act rank G w g err Gd Hin) as (w1 & -> & F1 & Hg1 & Hc1 & Hr1 & Ho1); [apply Hw; by left|done|]. cbn [mbind option_bind].
  destruct (IH ltac:(set_solver) Hn w1) as (w' & E & F & Hn' & Hc & Hr); [apply F1| |].
  { intros g' Hg'. unfold no_error. rewrite Ho1; [apply Hw; by right|]. intros E. destruct Hg.
    replace g with g'; [done|]. apply (acts_inj G); [apply Gd|apply Hsub; by right|done|done]. }
  exists w'. split; [done|]. pose proof (fails_trans _ _ _ _ F1 F) as F'. split; [done|]. split; [|split; congruence].
  intros g' [->|Hg']%elem_of_cons; [|by apply Hn']. intros Hno. apply Hg1.
  eapply fails_no_error; [exact F|by apply in_acts|exact Hno].
Qed.

(** After a step every action has an error or is past it. *)
Definition settled w : Prop := ready (fun x => past x = true) G w.

Context (how err : Z) (late : bool -> Z) (Herr : err <> ERR_NONE) (Hpast : forall x, past x = true -> pre x).

Lemma multi_loop_ok t end_ms seen w : good G w -> ready pre G w -> exists n ret w',
  (forall fuel, (n <= fuel)%nat -> multi_loop switch past no_conn try how err late fuel t (G.*1.*1) end_ms seen w = Some (ret, w')) /\
  good G w' /\ settled w' /\ keeps_errors w w' /\ cw_clock w <= cw_clock w' /\
  (ret = 0 \/ end_ms < cw_clock w' /\ exists seen', ret = late seen').
Proof.
  revert seen. revert w. refine (lex3_ind _ (fun w => Z.to_nat (end_ms + 1 - cw_clock w)) (krank rank) (live G) _).
  intros w IH seen Gd Hr.
  destruct (scan_ok G [] w seen Gd) as (seen1 & V & w1 & Es & P & HV & HnV & HwV & HrV & Hs & _); [done| |done| |].
  { eapply NoDup_fmap_1, NoDup_fmap_1, Gd. }
  { intros g Hg. by apply elem_of_nil in Hg. }
  cbn [app fmap list_fmap] in *. pose proof (ps_good _ _ P) as Gd1.
  destruct (Z.ltb_spec end_ms (cw_clock w1)) as [Hc|Hc].
  - destruct (set_errnos_ok V w1 err Gd1 HV HnV HwV Herr) as (w2 & E2 & F2 & Hn2 & Hc2 & _).
    exists 1%nat, (late seen1), w2. split; [|split; [apply F2|split; [|split; [|split]]]].
    + intros [|fuel] Hf; [lia|]. cbn [multi_loop]. rewrite Es. cbn [mbind option_bind]. unfold clock.
      rewrite (proj2 (Z.ltb_lt _ _) Hc), E2. done.
    + intros g x Hg Ex Ee. destruct (fl_act _ _ _ F2 g Hg) as (x1 & x2 & E3 & E4 & _ & Hx). assert (x2 = x) by congruence. subst x2.
      destruct Hx as [<-|[_ ?]]; [|done]. destruct (Hs g x Hg E3) as [?|[?|HgV]]; [done|done|].
      destruct (Hn2 g HgV). unfold no_error. rewrite Ex. cbn. by rewrite Ee.
    + eapply keeps_errors_trans; [apply P|by apply fails_keeps].
    + rewrite Hc2, (ps_clock _ _ P). done.
    + right. split; [by rewrite Hc2|by eexists].
  - destruct (decide (V = [])) as [->|HneV].
    + exists 1%nat, 0, w1. split; [|split; [done|split; [|split; [apply P|split; [by rewrite (ps_clock _ _ P)|by left]]]]].
      * intros [|fuel] Hf; [lia|]. cbn [multi_loop]. rewrite Es. cbn [mbind option_bind]. unfold clock.
        rewrite (proj2 (Z.ltb_ge _ _) Hc). done.
      * intros g x Hg Ex Ee. destruct (Hs g x Hg Ex) as [?|[?|HgV]]; [done|done|by apply elem_of_nil in HgV].
    + destruct (netfd_poll_ok rank G V t switch how (end_ms - cw_clock w1) w1 HS Gd1 HV HnV HneV HwV) as (r & w2 & E2 & F2 & Hon).
      pose proof (pass_live _ _ Gd P) as Hlive. pose proof (ps_clock _ _ P) as Hck. pose proof (ps_rank _ _ P) as Hrk.
      destruct (IH w2) with (seen := seen1) as (n & ret & w' & Hf & Gd' & Hset & Hke & Hcl & Hret).
      { destruct Hon as [Hon|[Hon1 [Hon2|[Hon2 Hon3]]]]; [left; lia|right; split; [lia|left; lia]|].
        right. split; [lia|]. right. split; lia. }
      { apply F2. }
      { intros g x Hg Ex Ee. destruct (fl_act _ _ _ F2 g Hg) as (x1 & x2 & E3 & E4 & _ & Hx). assert (x2 = x) by congruence. subst x2.
        destruct Hx as [<-|[_ ?]]; [|done]. destruct (Hs g x Hg E3) as [?|[?|HgV]]; [done|by apply Hpast|by eapply HrV]. }
      exists (S n), ret, w'. split; [|split; [done|split; [done|split; [|split; [|done]]]]].
      * intros [|fuel] Hfu; [lia|]. cbn [multi_loop]. rewrite Es. cbn [mbind option_bind]. unfold clock.
        rewrite (proj2 (Z.ltb_ge _ _) Hc). destruct (V.*1.*1) as [|a0 l0] eqn:El.
        { by destruct V. }
        rewrite E2. cbn [mbind option_bind]. apply Hf. lia.
      * eapply keeps_errors_trans; [apply P|]. eapply keeps_errors_trans; [by apply fails_keeps|done].
      * destruct Hon as [Hon|[Hon _]]; lia.
Qed.
End scan.

(** ** [mt_multi_newsock] *)

Definition newsock_result J (ok : bool) w (rc : Z) : Prop :=
  rc = 0 /\ ready (flag_in [MULTI_FLAG_INIT; MULTI_FLAG_OPEN]) J w \/
  rc = -3 /\ (exists g x, g ∈ J /\ act g.1.1 w = Some x /\ ac_errno x = ERR_SOCKET_FAIL) \/
  rc = -4 /\ ok = false /\ (forall g, g ∈ J -> ~ no_error w g.1.1).

(** One socket: the action is open (UDP) or still has to connect (TCP), or it failed. *)
Lemma newsock_one w a c o x : good G w -> (a, c, o) ∈ G -> act a w = Some x -> ac_errno x = ERR_NONE ->
  flag_in [MULTI_FLAG_UNDEF] x -> exists sock w1, CreateSocket c w = Some (sock, w1) /\
    forall err fl, (err <> ERR_NONE -> exists w', upd_act a (set_ac_errno err) w1 = Some w' /\ tried rank G a w w' /\
                      act a w' = Some (set_ac_errno err x)) /\
      (flag_in [MULTI_FLAG_INIT; MULTI_FLAG_OPEN] (set_ac_flag fl x) ->
       exists w', upd_act a (set_ac_flag fl) w1 = Some w' /\ tried rank G a w w' /\ act a w' = Some (set_ac_flag fl x)).
Proof.
  intros Gd Hin Ex Ee Hf. destruct (good_item_at _ _ _ _ _ Gd Hin) as (x0 & y & p & b & l & O).
  assert (x0 = x) by (pose proof (ow_act _ _ _ _ _ _ _ _ _ O); congruence). subst x0.
  destruct (CreateSocket_calls rank None _ _ _ _ _ _ _ _ _ O) as (sock & w1 & E1 & F1). exists sock, w1. split; [done|].
  apply (frame_weaken _ (Some p)) in F1 as F.
  assert (Eb : mbuf p w1 = Some b) by (rewrite (nf_bufs _ _ _ _ F1) by done; apply O).
  pose proof (ow_buf _ _ _ _ _ _ _ _ _ O) as Hb. pose proof (ow_prog _ _ _ _ _ _ _ _ _ O) as Hp.
  intros err fl. split; intros Hx.
  - destruct (good_net_act rank G w w1 a c o x y p b l b l (set_ac_errno err)) as (w' & Eu & Gd' & A & Ex'); try done.
    exists w'. split; [done|]. split; [by eapply tried_act|done].
  - destruct (good_net_act rank G w w1 a c o x y p b l b l (set_ac_flag fl)) as (w' & Eu & Gd' & A & Ex'); try done.
    { unfold flag_in in *. cbn [ac_flag set_ac_flag] in *. destruct Hp as (P1 & _). assert (E0 : ac_flag x = MULTI_FLAG_UNDEF) by set_solver.
      rewrite E0 in P1. split; [intros E _ _; by apply P1|]. split; [intros _ E|intros E]; subst fl; set_solver. }
    exists w'. split; [done|]. split; [by eapply tried_act|done].
Qed.

Lemma newsock_result_cons g J ok ok' w rc x : newsock_result J ok w rc -> act g.1.1 w = Some x ->
  (ac_errno x = ERR_NONE -> flag_in [MULTI_FLAG_INIT; MULTI_FLAG_OPEN] x) -> (ok = false -> ok' = false /\ ac_errno x <> ERR_NONE) ->
  newsock_result (g :: J) ok' w rc.
Proof.
  intros [[-> Hr]|[[-> (g' & x' & Hg & Hx)]|(-> & -> & Hn)]] Ex Hf Ho.
  - left. split; [done|]. intros g' x' [->|Hg']%elem_of_cons Ex' Ee; [|by eapply Hr]. assert (x' = x) by congruence. subst x'. auto.
  - right; left. split; [done|]. exists g', x'. split; [by right|done].
  - right; right. destruct (Ho eq_refl) as [-> He]. do 2 (split; [done|]). intros g' [->|Hg']%elem_of_cons; [|by apply Hn].
    unfold no_error. rewrite Ex. cbn. congruence.
Qed.

Lemma newsock_loop_ok J ok w : good G w -> J ⊆ G -> NoDup J -> ready (flag_in [MULTI_FLAG_UNDEF]) J w ->
  exists rc w', newsock_loop (J.*1.*1) ok w = Some (rc, w') /\ pass w w' /\ newsock_result J ok w' rc /\
    (forall g, g ∈ G -> g ∉ J -> act g.1.1 w' = act g.1.1 w).
Proof.
  revert ok w. induction J as [|g J IH]; intros ok w Gd Hsub Hn Hr.
  { exists (if ok then 0 else -4), w. split; [done|]. split; [by apply pass_refl|]. split; [|done].
    destruct ok; [left|right; right]; (split; [done|]).
    - intros g x Hg. by apply elem_of_nil in Hg.
    - split; [done|]. intros g Hg. by apply elem_of_nil in Hg. }
  assert (Hin : g ∈ G) by (apply Hsub; by left). apply NoDup_cons in Hn as [Hg Hn]. cbn [fmap list_fmap newsock_loop].
  destruct (good_act _ _ _ Gd Hin) as (x & Ex & Ec). rewrite Ex. cbn [mbind option_bind].
  assert (HrJ : ready (flag_in [MULTI_FLAG_UNDEF]) J w) by (intros g' x' Hg'; apply Hr; by right).
  assert (HsJ : J ⊆ G) by set_solver.
  assert (Hsplit : forall w0 w1, (forall g', g' ∈ G -> g' ∉ J -> act g'.1.1 w1 = act g'.1.1 w0) -> act g.1.1 w1 = act g.1.1 w0)
    by (intros w0 w1 Ha; by apply Ha).
  destruct (Z.eqb_spec (ac_errno x) ERR_NONE) as [Ee|Ee]; cbn [negb].
  - rewrite Ec. destruct g as [[a c] o]. cbn [fst snd] in *.
    destruct (newsock_one w a c o x Gd Hin Ex Ee) as (sock & w1 & -> & Hone); [apply (Hr (a, c, o)); [by left|done|done]|].
    cbn [mbind option_bind].
    assert (Ho : forall w2, tried rank G a w w2 -> forall g', g' ∈ G -> g' <> (a, c, o) -> act g'.1.1 w2 = act g'.1.1 w).
    { intros w2 T g' Hin' Hne. apply (td_acts _ _ _ _ _ T). intros E. by apply Hne, (acts_inj G); [apply Gd|..]. }
    destruct (sock <? 0).
    + destruct (proj1 (Hone ERR_SOCKET_FAIL 0)) as (w2 & -> & T & Ex2); [done|]. cbn [mbind option_bind].
      exists (-3), w2. split; [done|]. split; [by eapply tried_pass|]. split.
      * right; left. split; [done|]. exists (a, c, o), (set_ac_errno ERR_SOCKET_FAIL x). split; [by left|done].
      * intros g' Hin' Hg'. apply (Ho _ T); [done|set_solver].
    + set (fl := if ac_proto x =? MT_UDP then MULTI_FLAG_OPEN else MULTI_FLAG_INIT).
      assert (Hfl : flag_in [MULTI_FLAG_INIT; MULTI_FLAG_OPEN] (set_ac_flag fl x)) by (unfold flag_in, fl; cbn; case_match; set_solver).
      destruct (proj2 (Hone ERR_SOCKET_FAIL fl) Hfl) as (w2 & -> & T & Ex2). cbn [mbind option_bind].
      destruct (IH true w2) as (rc & w' & E & P & Hres & Ha); [apply T|done|done| |].
      { intros g' x' Hg' Ex'. apply (HrJ g' x' Hg'). rewrite <- (Ho _ T); [done|by apply HsJ|]. by intros ->. }
      exists rc, w'. split; [done|]. split; [by eapply pass_trans; [eapply tried_pass|]|]. split.
      * eapply newsock_result_cons; [exact Hres| |intros _; exact Hfl|done]. cbn [fst].
        rewrite <- Ex2. by apply (Ha (a, c, o)).
      * intros g' Hin' Hg'. rewrite Ha; [apply (Ho _ T); [done|set_solver]|done|set_solver].
  - destruct (IH ok w) as (rc & w' & E & P & Hres & Ha); [done..|]. exists rc, w'. split; [done|]. split; [done|]. split.
    + eapply newsock_result_cons; [exact Hres|by rewrite Ha|by intros ?|done].
    + intros g' Hin' Hg'. apply Ha; [done|set_solver].
Qed.

Lemma flag_past fs f : f ∈ fs -> forall x, is_flag f x = true -> flag_in fs x.
Proof. unfold is_flag, flag_in. by intros Hf x ->%Z.eqb_eq. Qed.
Lemma settled_ready f f2 fs w : f ∈ f2 :: fs -> settled (is_flag f) w -> ready (flag_in (f2 :: fs)) G w.
Proof. intros Hf Hs g x Hin Ex Ee. eapply flag_past; [exact Hf|]. by eapply Hs. Qed.

(** ** A request *)

(** What a finished action has: an answer. *)
Definition answered g w : Prop := exists y p b l, conn g.1.2 w = Some y /\ cn_msg y = Some p /\ mbuf p w = Some b /\
  mb_buff b = Some l /\ accepted g.1.1 (cn_type y) b l.
(** Every action has an error, or its state is [f]. *)
Definition each_at f w : Prop := forall g, g ∈ G -> exists x, act g.1.1 w = Some x /\ (ac_errno x <> ERR_NONE \/ ac_flag x = f).
Lemma settled_at f w : good G w -> settled (is_flag f) w -> each_at f w.
Proof.
  intros Gd Hs g Hin. destruct (good_act _ _ _ Gd Hin) as (x & Ex & _). exists x. split; [done|].
  destruct (decide (ac_errno x = ERR_NONE)) as [Ee|?]; [right|by left]. by apply Z.eqb_eq, (Hs g x Hin Ex).
Qed.

Lemma good_answered w g x : good G w -> g ∈ G -> act g.1.1 w = Some x -> ac_flag x = MULTI_FLAG_FIN -> answered g w.
Proof.
  intros Gd Hin Ex Ef. destruct (gd_own _ _ Gd _ Hin) as (x' & y & p & b & l & O).
  assert (x' = x) by (pose proof (ow_act _ _ _ _ _ _ _ _ _ O); congruence). subst x'.
  exists y, p, b, l. destruct O as [_ _ Ey _ _ Ep _ _ Eb Hb _ Hp]. do 3 (split; [done|]). split; [apply Hb|].
  destruct Hp as (_ & _ & P3). by apply P3.
Qed.

(** The time left for a later step gives the same deadline. *)
Lemma late_clock w w1 timeout : 0 <= timeout < 2 ^ 31 -> 0 <= cw_clock w1 - cw_clock w < 2 ^ 31 ->
  u64 (clock w1 + i32 (timeout - (clock w1 - clock w))) = u64 (cw_clock w + timeout).
Proof. intros Ht Hc. unfold clock. rewrite i32_small by lia. f_equal. lia. Qed.

(** C3: a concurrent request ends and tells how far each action got.  Whatever the sockets
    do and whatever runs while the thread waits, [mt_multi_sendrcv_ex] on a list of
    fresh actions gives a result after finitely many waits and touches no deleted
    object, no queue twice and no byte outside a buffer; an action that already has an
    error is not touched.  When it gives 0, or -4 because the time for answers is over,
    every action has an error code or is finished, and then its buffer holds a message
    that its [HandleInput] accepted, or a datagram that the session object received for
    it: on a session object [HandleInput] is not called.  With the other results
    actions stay without error and unfinished: after -2 those whose connection
    was up when the time to connect was over, after -3 those whose request was sent when
    the time to send was.  It gives -1 only when a socket could not be made
    or every action had an error before, and the other failures only after the time
    is over. *)
Theorem mt_multi_sendrcv_ends t timeout w : good G w -> ready (flag_in [MULTI_FLAG_UNDEF]) G w ->
  exists n rc w', (forall fuel, (n <= fuel)%nat -> mt_multi_sendrcv_ex switch fuel t (G.*1.*1) timeout w = Some (rc, w')) /\
    good G w' /\ keeps_errors w w' /\ rc ∈ [0; -1; -2; -3; -4] /\
    (rc = 0 \/ rc = -4 -> forall g, g ∈ G -> exists x, act g.1.1 w' = Some x /\
       (ac_errno x <> ERR_NONE \/ ac_flag x = MULTI_FLAG_FIN /\ answered g w')) /\
    (rc = -2 -> each_at MULTI_FLAG_OPEN w') /\ (rc = -3 -> each_at MULTI_FLAG_SEND w') /\
    (rc = -1 -> (forall g, g ∈ G -> ~ no_error w' g.1.1) \/
       exists g x, g ∈ G /\ act g.1.1 w' = Some x /\ ac_errno x = ERR_SOCKET_FAIL) /\
    (rc < -1 -> 0 <= timeout < 2 ^ 31 -> cw_clock w' - cw_clock w < 2 ^ 31 -> u64 (cw_clock w + timeout) < cw_clock w').
Proof.
  intros Gd Hr. unfold mt_multi_sendrcv_ex.
  destruct (newsock_loop_ok G false w Gd) as (rc1 & w1 & E1 & P1 & Hres & _); [done|eapply NoDup_fmap_1, NoDup_fmap_1, Gd|done|].
  unfold mt_multi_newsock. rewrite E1. cbn [mbind option_bind]. pose proof (ps_errors _ _ P1) as K1. pose proof (ps_clock _ _ P1) as C1.
  destruct Hres as [[-> Hr1]|[[-> Hx]|(-> & _ & Hx)]]; cbn [Z.ltb Z.compare].
  2,3: exists 0%nat, (-1), w1; split; [done|]; split; [apply P1|]; split; [done|]; split; [set_solver|];
    do 3 (split; [lia|]); split; [auto|lia].
  destruct (multi_loop_ok (flag_in [MULTI_FLAG_INIT; MULTI_FLAG_OPEN]) (is_flag MULTI_FLAG_OPEN) try_open (try_open_ok rank G) (-1) EPOLLOUT ERR_CONNECT_FAIL
    (fun has_open => if has_open then -2 else 0) ltac:(done) (flag_past [MULTI_FLAG_INIT; MULTI_FLAG_OPEN] MULTI_FLAG_OPEN ltac:(set_solver)) t (u64 (clock w1 + timeout)) false w1
    (ps_good _ _ P1) Hr1) as (n2 & rc2 & w2 & E2 & Gd2 & S2 & K2 & C2 & Hret2).
  pose proof (keeps_errors_trans _ _ _ K1 K2) as K12.
  destruct (Z.ltb_spec rc2 0) as [Hneg2|Hneg2].
  { exists n2, (-2), w2. split; [|split; [done|split; [done|split; [set_solver|split; [lia|split; [by intros _; apply settled_at|split; [lia|split; [lia|]]]]]]]].
    2: { intros _ _ _. destruct Hret2 as [?|[Hd _]]; [lia|]. unfold clock in Hd. by rewrite (ps_clock _ _ P1) in Hd. }
    intros fuel Hf. unfold mt_multi_open. rewrite E2 by done. cbn [mbind option_bind]. by rewrite (proj2 (Z.ltb_lt _ _) Hneg2). }
  set (tm2 := i32 (timeout - (clock w2 - clock w))).
  destruct (multi_loop_ok (flag_in [MULTI_FLAG_OPEN; MULTI_FLAG_SEND]) (is_flag MULTI_FLAG_SEND) try_send (try_send_ok rank G) (-2) EPOLLOUT ERR_SEND_FAIL
    (fun has_send => if has_send then 0 else -5) ltac:(done) (flag_past [MULTI_FLAG_OPEN; MULTI_FLAG_SEND] MULTI_FLAG_SEND ltac:(set_solver)) t (u64 (clock w2 + tm2)) false w2
    Gd2 (settled_ready MULTI_FLAG_OPEN MULTI_FLAG_OPEN [MULTI_FLAG_SEND] w2 ltac:(set_solver) S2)) as (n3 & rc3 & w3 & E3 & Gd3 & S3 & K3 & C3 & Hret3).
  pose proof (keeps_errors_trans _ _ _ K12 K3) as K123.
  destruct (Z.ltb_spec rc3 0) as [Hneg3|Hneg3].
  { exists (n2 + n3)%nat, (-3), w3. split; [|split; [done|split; [done|split; [set_solver|split; [lia|split; [lia|split; [by intros _; apply settled_at|split; [lia|]]]]]]]].
    2: { intros _ Ht Hc. destruct Hret3 as [?|[Hd _]]; [lia|]. unfold tm2 in Hd. rewrite (late_clock w w2) in Hd; [done|lia..]. }
    intros fuel Hf. unfold mt_multi_open. rewrite E2 by lia. cbn [mbind option_bind]. rewrite (proj2 (Z.ltb_ge _ _) Hneg2).
    unfold mt_multi_sendto. fold tm2. rewrite E3 by lia. cbn [mbind option_bind]. by rewrite (proj2 (Z.ltb_lt _ _) Hneg3). }
  set (tm3 := i32 (timeout - (clock w3 - clock w))).
  destruct (multi_loop_ok (flag_in [MULTI_FLAG_SEND; MULTI_FLAG_FIN]) (is_flag MULTI_FLAG_FIN) (try_recv (clock w3)) (try_recv_ok rank G (clock w3)) (-2) EPOLLIN ERR_RECV_TIMEOUT
    (fun _ => -5) ltac:(done) (flag_past [MULTI_FLAG_SEND; MULTI_FLAG_FIN] MULTI_FLAG_FIN ltac:(set_solver)) t (u64 (clock w3 + tm3)) false w3
    Gd3 (settled_ready MULTI_FLAG_SEND MULTI_FLAG_SEND [MULTI_FLAG_FIN] w3 ltac:(set_solver) S3)) as (n4 & rc4 & w4 & E4 & Gd4 & S4 & K4 & C4 & Hret4).
  exists (n2 + n3 + n4)%nat, (if rc4 <? 0 then -4 else 0), w4. split; [|split; [done|split; [by eapply keeps_errors_trans|split; [|split; [|split; [|split; [|split]]]]]]].
  - intros fuel Hf. unfold mt_multi_open. rewrite E2 by lia. cbn [mbind option_bind]. rewrite (proj2 (Z.ltb_ge _ _) Hneg2).
    unfold mt_multi_sendto. fold tm2. rewrite E3 by lia. cbn [mbind option_bind]. rewrite (proj2 (Z.ltb_ge _ _) Hneg3).
    unfold mt_multi_recvfrom. fold tm3. rewrite E4 by lia. done.
  - case_match; set_solver.
  - intros _ g Hin. destruct (good_act _ _ _ Gd4 Hin) as (x & Ex & _). exists x. split; [done|].
    destruct (decide (ac_errno x = ERR_NONE)) as [Ee|?]; [right|by left]. pose proof (S4 g x Hin Ex Ee) as Hfl.
    apply Z.eqb_eq in Hfl. split; [done|by eapply good_answered].
  - case_match; lia.
  - case_match; lia.
  - case_match; lia.
  - intros Hlt Ht Hc. destruct Hret4 as [->|[Hd _]]; [done|]. unfold tm3 in Hd. rewrite (late_clock w w3) in Hd; [done|lia..].
Qed.
End run.
