(* ===== verification/ConnSess.v ===== *)
(** * Answers on the socket of a session object

    [UdpSessionNtfy::InputNotify] gives each datagram to the connection of the session
    whose number it carries, up to the first that names none, and loses no buffer. *)

From Stdlib Require Import ZArith Lia.
From stdpp Require Import base gmap list option fin_sets.
From S2P Require Import Prelude Bytes HashList KeyTable MtSession MbufPool Epoll ConnData ConnNtfy ConnOps.

(** ** The pool of buffers, once more *)

Section pool.
Context {T : Type} `{!KeyTable Z T} (malloc : ptr -> Z -> option (list Z)).
Implicit Types (w : MsgBuffPool T) (p q m : ptr).

Lemma delete_buf_bufs p w w' : delete_buf p w = Some w' -> bp_bufs w' = delete p (bp_bufs w).
Proof. unfold delete_buf. destruct (bp_bufs w !! p); [|done]. by intros [= <-]. Qed.
(** Giving a buffer back leaves the other ones alone. *)
Lemma FreeMsgBuf_others p w w' q : FreeMsgBuf (Some p) w = Some w' -> q <> p -> bp_bufs w' !! q = bp_bufs w !! q.
Proof.
  intros Hf Hq. unfold FreeMsgBuf in Hf.
  assert (Hdel : forall w1, delete_buf p w1 = Some w' -> bp_bufs w1 !! q = bp_bufs w !! q -> bp_bufs w' !! q = bp_bufs w !! q).
  { intros w1 E <-. rewrite (delete_buf_bufs _ _ _ E). by apply lookup_delete_ne. }
  destruct (bp_hash_map w) as [t|]; [|by eapply Hdel].
  destruct (bp_bufs w !! p) as [b|] eqn:Eb; [|done]. cbn [mbind option_bind] in Hf. set (w1 := set_bufs w _) in *.
  assert (E1 : bp_bufs w1 !! q = bp_bufs w !! q) by (by apply lookup_insert_ne).
  destruct (kt_find _ _ _) as [item|]; [|done]. cbn [mbind option_bind] in Hf.
  destruct item as [h|]; [|by eapply Hdel]. destruct (bp_maps w1 !! h) as [k|]; [|done]. cbn [mbind option_bind] in Hf.
  destruct (mm_data k) as [m|]; [|by eapply Hdel]. unfold MsgBufMap_FreeMsgBuf in Hf.
  destruct (bp_maps w1 !! m) as [k2|]; [|done]. cbn [mbind option_bind] in Hf. case_match; [by eapply Hdel|].
  destruct (bp_bufs w1 !! p) as [b2|]; [|done]. cbn [mbind option_bind] in Hf. case_match; [done|]. injection Hf as <-.
  cbn. rewrite lookup_insert_ne by done. exact E1.
Qed.
(** A buffer as [malloc] made it, whatever its fields are now. *)
Definition full (b : MtMsgBuf) : Prop := exists l, mb_buff b = Some l /\ blen l = mb_max_len b.
Definition all_full w : Prop := forall p b, bp_bufs w !! p = Some b -> full b.
Lemma all_full_delete p w w' : delete_buf p w = Some w' -> all_full w -> all_full w'.
Proof. intros E Hf q b. rewrite (delete_buf_bufs _ _ _ E). intros [_ Hq]%lookup_delete_Some. by eapply Hf. Qed.
Lemma all_full_insert p b w : all_full w -> full b -> all_full (set_bufs w (<[p := b]> (bp_bufs w))).
Proof. intros Hf Hb q b'. cbn [bp_bufs set_bufs]. intros [[<- <-]|[_ Hq]]%lookup_insert_Some; [done|by eapply Hf]. Qed.
Lemma FreeMsgBuf_full p w w' : FreeMsgBuf (Some p) w = Some w' -> all_full w -> all_full w'.
Proof.
  intros E Hf. unfold FreeMsgBuf in E. destruct (bp_hash_map w) as [t|]; [|by eapply all_full_delete].
  destruct (bp_bufs w !! p) as [b|] eqn:Eb; [|done]. cbn [mbind option_bind] in E. set (w1 := set_bufs w _) in *.
  assert (Hf1 : all_full w1) by (apply all_full_insert; [done|]; destruct (Hf _ _ Eb) as (l & ? & ?); by exists l).
  destruct (kt_find _ _ _) as [item|]; [|done]. cbn [mbind option_bind] in E.
  destruct item as [h|]; [|by eapply all_full_delete]. destruct (bp_maps w1 !! h) as [k|]; [|done]. cbn [mbind option_bind] in E.
  destruct (mm_data k) as [m|]; [|by eapply all_full_delete]. unfold MsgBufMap_FreeMsgBuf in E.
  destruct (bp_maps w1 !! m) as [k2|]; [|done]. cbn [mbind option_bind] in E. case_match; [by eapply all_full_delete|].
  destruct (bp_bufs w1 !! p) as [b2|] eqn:Eb2; [|done]. cbn [mbind option_bind] in E. case_match; [done|]. injection E as <-.
  apply (all_full_insert p (MtMsgBuf_Reset b2) w1); [done|]. destruct (Hf1 _ _ Eb2) as (l & ? & ?). by exists l.
Qed.

Context (Hmalloc : forall p n, 0 <= n -> exists l, malloc p n = Some l /\ blen l = n).
Lemma MsgBufMap_Get_full m k w r w' : bp_maps w !! m = Some k -> 0 <= mm_max_buf_size k ->
  MsgBufMap_GetMsgBuf malloc m w = Some (r, w') -> all_full w -> all_full w'.
Proof.
  intros Hm Hn E Hf. unfold MsgBufMap_GetMsgBuf in E. rewrite Hm in E. cbn [mbind option_bind] in E.
  destruct (mm_msg_queue k); injection E as <- <-; [|exact Hf]. apply all_full_insert; [done|]. apply Hmalloc, Hn.
Qed.
Lemma GetMsgBuf_full (rep : (ptr -> Z) -> T -> gmap Z ptr -> Prop) `{!KeyTableLaws Z T rep} w out n r w' :
  pool_inv rep w out -> 0 <= n -> GetMsgBuf malloc n w = Some (r, w') -> all_full w -> all_full w'.
Proof.
  intros I Hn E Hf. destruct (pi_rep _ _ _ I) as (t & M & Ht & R & H1 & H2). unfold GetMsgBuf in E.
  rewrite Ht, (kt_find_ok _ _ _ n R) in E. cbn [mbind option_bind] in E. destruct (M !! n) as [m|] eqn:En.
  - destruct (H2 _ _ En) as (k & Hk & El). rewrite Hk in E. cbn [mbind option_bind] in E.
    rewrite (mo_data _ _ _ _ (pi_map _ _ _ I _ _ Hk)) in E. by eapply MsgBufMap_Get_full; [exact Hk|lia|..].
  - destruct (kt_insert _ _ _) as [? t']. refine (MsgBufMap_Get_full _ (new_MsgBufMap _ n (bp_max_free w)) _ r w' _ Hn E Hf).
    cbn [bp_maps set_hash set_maps]. apply lookup_insert_eq.
Qed.
End pool.

Section sess.
Context {EV TB TS TK : Type} `{!ConnEnv EV, !KeyTable Z TB, !KeyTable Z TS, !KeyTable addr TK, !ConnUser}.
Abbreviation ConnW := (ConnW EV TB TS TK).
Context (brep : (ptr -> Z) -> TB -> gmap Z ptr -> Prop) `{!KeyTableLaws Z TB brep}.
Context (srep : (ptr -> Z) -> TS -> gmap Z ptr -> Prop) `{!KeyTableLaws Z TS srep}.
Implicit Types (w : ConnW) (a c o s t p : ptr).

(** What [malloc] and the kernel promise: a received datagram fits, and is one that
    waited. *)
Class SessLaws : Prop := {
  sl_malloc p n : 0 <= n -> exists l, malloc p n = Some l /\ blen l = n;
  sl_recv fd n k : 0 <= n -> let '(r, _, l, k') := ce_recvfrom fd n k in
    blen l = Z.max 0 r /\ r <= n /\ (0 < r -> (ce_pending fd k' < ce_pending fd k)%nat);
}.

(** ** The specification *)

(** The connection of the session that a datagram names; [live] are the sessions. *)
Definition route s (live : gmap Z ptr) w (d : list Z) : option ptr :=
  let '(r, id) := get_session_id s d in
  if r <=? 0 then None else a ← live !! id; x ← sm_objs (cw_sess w) !! a; is_conn x.

(** The datagrams that wait, up to the first one for nobody; the last one for each
    connection counts. *)
Fixpoint demux (fuel : nat) s fd size live w (k : EV) (box : gmap ptr (list Z)) : gmap ptr (list Z) * EV :=
  match fuel with
  | O => (box, k)
  | S fuel =>
      let '(r, _, d, k) := ce_recvfrom fd size k in
      if r <=? 0 then (box, k)
      else match route s live w d with
           | None => (box, k)
           | Some c => demux fuel s fd size live w k (<[c := d]> box)
           end
  end.

(** Connection [c] has received [d]: it is all of its message, its action sees an event, and
    the thread of its session does not wait any more. *)
Definition inbox c (d : list Z) w : Prop := exists y p b l o z,
  conn c w = Some y /\ cn_msg y = Some p /\ mbuf p w = Some b /\ mb_buff b = Some l /\ bread 0 (blen d) l = Some d /\
  mb_buf_type b = BUFF_RECV /\ mb_msg_len b = blen d /\ mb_recv_len b = blen d /\
  cn_ntfy y = Some o /\ ob o w = Some z /\ eo_revents z = EPOLLIN /\
  exists a x t, sm_objs (cw_sess w) !! a = Some x /\ is_conn x = Some c /\ is_thread x = Some t /\ t ∉ cw_io w.

(** ** The state it works in *)

(** Buffer [p] is one of connection [c]. *)
Definition holds c p w : Prop := exists y, conn c w = Some y /\ cn_msg y = Some p.
Record sess_ok s fd size (live : gmap Z ptr) (out : list ptr) w : Prop := {
  so_ob : exists z, ob s w = Some z /\ eo_fd z = fd;
  so_ntfy : exists v, ntfy s w = Some v /\ msg_buff_size (sn_buff_size v) = size /\
    forall p, sn_msg v = Some p -> p ∈ out /\ (forall c, ~ holds c p w) /\
      exists b, mbuf p w = Some b /\ mb_max_len b = size /\ mb_buf_type b = BUFF_RECV;
  so_pool : pool_inv brep (cw_pool w) out;
  so_full : all_full (cw_pool w);
  so_rep : exists h, sm_hash_map (cw_sess w) = Some h /\ srep (session_key (sm_objs (cw_sess w))) h live;
  so_route id a : live !! id = Some a -> exists x t c y o, sm_objs (cw_sess w) !! a = Some x /\ is_thread x = Some t /\
    is_conn x = Some c /\ conn c w = Some y /\ cn_ntfy y = Some o /\ is_Some (ob o w);
  so_held c p : holds c p w -> p ∈ out;
  so_inj c c' p : holds c p w -> holds c' p w -> c = c';
}.

(** The buffers that connections hold, and the one of the session object. *)
Definition mine s w p : Prop := (exists c, holds c p w) \/ exists v, ntfy s w = Some v /\ sn_msg v = Some p.
(** Of the buffers lent, [out] before and [out'] after, those of others are still
    theirs; a buffer got since is held, and one held before is held or was given back. *)
Record balance s (out : list ptr) w (out' : list ptr) w' : Prop := {
  ba_others p : p ∈ out -> ~ mine s w p -> p ∈ out' /\ ~ mine s w' p;
  ba_got p : p ∈ out' -> p ∈ out \/ mine s w' p;
  ba_kept p : p ∈ out' -> mine s w p -> mine s w' p;
}.
Lemma balance_trans s out1 w1 out2 w2 out3 w3 : balance s out1 w1 out2 w2 -> balance s out2 w2 out3 w3 -> balance s out1 w1 out3 w3.
Proof.
  intros [A1 A2 A3] [B1 B2 B3]. split.
  - intros p Hp Hn. destruct (A1 p Hp Hn). auto.
  - intros p Hp. destruct (B2 p Hp) as [Hp2|]; [|auto]. destruct (A2 p Hp2); auto.
  - intros p Hp Hm. destruct (B2 p Hp) as [Hp2|]; auto.
Qed.
Lemma balance_same s out w w' : (forall p, mine s w' p <-> mine s w p) -> balance s out w out w'.
Proof. intros Hs. split; [intros p ? Hn; rewrite Hs; auto|by left|intros p _; by rewrite Hs]. Qed.
#[export] Instance mine_dec s w p : Decision (mine s w p).
Proof.
  apply or_dec.
  - destruct (decide (map_Exists (fun _ y => cn_msg y = Some p) (cw_conns w))) as [Hm|Hm].
    + left. destruct Hm as (c & y & Ey & Em). by exists c, y.
    + right. intros (c & y & Ey & Em). apply Hm. by exists c, y.
  - destruct (ntfy s w) as [v|]; [|right; by intros (? & ? & _)].
    destruct (decide (sn_msg v = Some p)) as [E|E]; [left; by exists v|right]. intros (v' & E1 & E2). congruence.
Defined.

(** ** One turn *)

(** Steps that change nothing of this. *)
Record sess_frame w w' : Prop := {
  sf_conns : cw_conns w' = cw_conns w;
  sf_sess : cw_sess w' = cw_sess w;
  sf_obs o : ob o w' = ob o w;
  sf_io : cw_io w' = cw_io w;
}.
Lemma sess_frame_holds w w' c p : sess_frame w w' -> holds c p w' <-> holds c p w.
Proof. intros F. unfold holds, conn. by rewrite (sf_conns _ _ F). Qed.
Lemma frame_mine s w w' p : sess_frame w w' -> ntfy s w' = ntfy s w -> mine s w' p <-> mine s w p.
Proof. intros F E. unfold mine. rewrite E. split; intros [[c Hc]|?]; try (by right); left; exists c; by apply (sess_frame_holds w w'). Qed.
Lemma sess_step s fd size live out out' w w' v' : sess_ok s fd size live out w -> sess_frame w w' ->
  ntfy s w' = Some v' -> msg_buff_size (sn_buff_size v') = size ->
  (forall p, sn_msg v' = Some p -> p ∈ out' /\ (forall c, ~ holds c p w) /\
     exists b, mbuf p w' = Some b /\ mb_max_len b = size /\ mb_buf_type b = BUFF_RECV) ->
  pool_inv brep (cw_pool w') out' -> all_full (cw_pool w') -> (forall c p, holds c p w -> p ∈ out') ->
  sess_ok s fd size live out' w'.
Proof.
  intros [] F Ev Hs Hm Hp Hf Hh. pose proof (fun c p => sess_frame_holds w w' c p F) as HF. split.
  - by rewrite (sf_obs _ _ F).
  - exists v'. split; [done|]. split; [done|]. intros p Ep. destruct (Hm p Ep) as (H1 & H2 & H3). split; [done|]. split; [|done].
    intros c. rewrite HF. apply H2.
  - done.
  - done.
  - by rewrite (sf_sess _ _ F).
  - intros id a Ha. destruct (so_route0 id a Ha) as (x & t & c & y & o & E1 & E2 & E3 & E4 & E5 & E6). exists x, t, c, y, o.
    rewrite (sf_sess _ _ F). do 3 (split; [done|]). unfold conn in *. rewrite (sf_conns _ _ F), (sf_obs _ _ F). done.
  - intros c p. rewrite HF. apply Hh.
  - intros c c' p. rewrite !HF. apply so_inj0.
Qed.

Context `{SL : !SessLaws}.
Definition kernel w : EV := ep_kernel (cw_ep w).
Lemma msg_buff_size_pos n : 0 < msg_buff_size n.
Proof. unfold msg_buff_size. case_match; lia. Qed.

(** The buffer that the session object has for the next datagram. *)
Definition at_hand s p size w : Prop := exists v b l, ntfy s w = Some v /\ sn_msg v = Some p /\ mbuf p w = Some b /\
  mb_buff b = Some l /\ blen l = size /\ mb_max_len b = size /\ mb_buf_type b = BUFF_RECV.
(** The buffers of the connections are as they were. *)
Definition same_held w w' : Prop := forall c q, holds c q w -> mbuf q w' = mbuf q w.

Lemma write_at_hand s fd size live out w p f : sess_ok s fd size live out w -> at_hand s p size w ->
  (forall b, full b -> mb_max_len b = size -> mb_buf_type b = BUFF_RECV ->
     full (f b) /\ mb_max_len (f b) = size /\ mb_buf_type (f b) = BUFF_RECV) ->
  exists w', upd_mbuf p f w = Some w' /\ sess_ok s fd size live out w' /\ sess_frame w w' /\ kernel w' = kernel w /\
    same_held w w' /\ (forall b, mbuf p w = Some b -> mbuf p w' = Some (f b)) /\ ntfy s w' = ntfy s w.
Proof.
  intros S (v & b & l & Ev & Em & Eb & El & Hl & Hmax & Hty) Hf.
  assert (Hb : full b) by (exists l; split; [done|congruence]). destruct (Hf b Hb Hmax Hty) as (F1 & F2 & F3).
  unfold upd_mbuf. rewrite Eb. cbn [mbind option_bind]. eexists. split; [done|]. set (w' := set_mbufs _ w).
  destruct (so_ntfy _ _ _ _ _ _ S) as (v0 & Ev0 & Hs & Hm). assert (v0 = v) as -> by congruence. destruct (Hm p Em) as (Hin & Hno & _).
  assert (Eb' : mbuf p w' = Some (f b)) by (unfold mbuf, w'; cbn; apply lookup_insert_eq).
  assert (F : sess_frame w w') by done. split; [|split; [done|split; [done|split; [|split; [|done]]]]].
  - apply (sess_step s fd size live out out w w' v S F); [done|done| | | |].
    + intros p' Ep'. assert (p' = p) as -> by congruence. split; [done|]. split; [done|]. by exists (f b).
    + apply (write_borrowed_inv _ _ out p b); [apply S|done|done|congruence].
    + apply all_full_insert; [apply S|done].
    + intros c q. apply (so_held _ _ _ _ _ _ S).
  - intros c q Hq. unfold mbuf, w'. cbn. apply lookup_insert_ne. intros <-. by destruct (Hno c).
  - intros b0 Eb0. rewrite Eb'. congruence.
Qed.

Lemma session_buf_ok s fd size live out w : sess_ok s fd size live out w ->
  exists p w' out', session_buf s w = Some (Some p, w') /\ sess_ok s fd size live out' w' /\ at_hand s p size w' /\
    sess_frame w w' /\ kernel w' = kernel w /\ same_held w w' /\ balance s out w out' w'.
Proof.
  intros S. destruct (so_ntfy _ _ _ _ _ _ S) as (v & Ev & Hs & Hm). unfold session_buf. rewrite Ev. cbn [mbind option_bind].
  destruct (sn_msg v) as [p|] eqn:Ep.
  - destruct (Hm p eq_refl) as (Hin & _ & b & Eb & Hmax & Hty). destruct (so_full _ _ _ _ _ _ S p b Eb) as (l & El & Hl).
    exists p, w, out. split; [done|]. split; [done|]. split; [|do 3 (split; [done|]); by apply balance_same]. exists v, b, l. repeat (split; [done|]). split; [congruence|done].
  - unfold get_mbuf. pose proof (msg_buff_size_pos (sn_buff_size v)) as Hpos. rewrite Hs in Hpos |- *.
    destruct (GetMsgBuf_ok malloc brep (cw_pool w) out size (so_pool _ _ _ _ _ _ S)) as (p & b' & E & I' & Hp & (b & Eb & Hr & Hl) & Ho & _).
    rewrite E. cbn [mbind option_bind]. set (w1 := set_mbufs b' w).
    assert (Hf1 : all_full b') by (eapply (GetMsgBuf_full malloc sl_malloc brep); [apply S| |exact E|apply S]; lia).
    unfold upd_ntfy. change (ntfy s w1) with (ntfy s w). rewrite Ev. cbn [mbind option_bind]. set (w2 := set_ntfys _ w1).
    assert (Ev2 : ntfy s w2 = Some (set_sn_msg (Some p) v)) by (unfold ntfy, w2; cbn; apply lookup_insert_eq).
    unfold upd_mbuf. change (mbuf p w2) with (bp_bufs b' !! p). rewrite Eb. cbn [mbind option_bind].
    destruct (Hf1 p b Eb) as (l & El & Hll). set (w3 := set_mbufs _ w2).
    assert (Eb3 : mbuf p w3 = Some (SetBuffType BUFF_RECV b)) by (unfold mbuf, w3; cbn; apply lookup_insert_eq).
    assert (Hno : forall c, ~ holds c p w) by (intros c Hc; by apply Hp, (so_held _ _ _ _ _ _ S c)).
    exists p, w3, (p :: out). split; [done|]. assert (F : sess_frame w w3) by done. split; [|split; [|split; [done|split; [done|split]]]].
    + apply (sess_step s fd size live out (p :: out) w w3 (set_sn_msg (Some p) v) S F); [done|done| | | |].
      * intros p' [= <-]. split; [by left|]. split; [done|]. by eexists.
      * apply (write_borrowed_inv _ _ _ p b); [done|by left|done|done].
      * apply all_full_insert; [done|]. by exists l.
      * intros c q Hq. right. by eapply so_held.
    + exists (set_sn_msg (Some p) v), (SetBuffType BUFF_RECV b), l. repeat (split; [done|]). split; [congruence|done].
    + intros c q Hq. unfold mbuf, w3. cbn. rewrite lookup_insert_ne by (intros <-; by destruct (Hno c)).
      apply Ho. by eapply so_held.
    + assert (Hm3 : forall q, mine s w3 q <-> q = p \/ mine s w q).
      { intros q. unfold mine. change (ntfy s w3) with (ntfy s w2). rewrite Ev, Ev2. split.
        - intros [[c Hc]|(v' & [= <-] & [= <-])]; [|by left]. right. left. by exists c.
        - intros [->|[[c Hc]|(v' & [= <-] & E')]]; [right; by eexists|left; by exists c|congruence]. }
      split; [|intros q [->|Hq]%elem_of_cons; [right; apply Hm3; by left|by left]|intros q _ Hq; apply Hm3; by right].
      intros q Hq Hn. split; [by right|]. intros [->|?]%Hm3; [by apply Hp|done].
Qed.

(** A datagram has been received into the buffer at hand. *)
Definition received s p size (d : list Z) w : Prop := at_hand s p size w /\
  exists b l, mbuf p w = Some b /\ mb_buff b = Some l /\ bread 0 (blen d) l = Some d.

Lemma receive_ok s fd size live out w p : sess_ok s fd size live out w -> at_hand s p size w ->
  let '(r, _, d, k) := ce_recvfrom fd size (kernel w) in
  exists w', write_buf p 0 d (set_ep (set_kernel k (cw_ep w)) w) = Some w' /\ sess_ok s fd size live out w' /\
    received s p size d w' /\ sess_frame w w' /\ kernel w' = k /\ same_held w w' /\ blen d = Z.max 0 r /\
    balance s out w out w'.
Proof.
  intros S A. pose proof A as (v & b & l & Ev & Em & Eb & El & Hl & Hmax & Hty).
  assert (Hsz : 0 <= size) by (rewrite <- Hl; unfold blen; lia).
  pose proof (sl_recv fd size (kernel w) Hsz) as Hk. destruct (ce_recvfrom _ _ _) as [[[r err] d] k]. destruct Hk as (Hd & Hr & _).
  set (w1 := set_ep _ w). assert (F1 : sess_frame w w1) by done.
  assert (S1 : sess_ok s fd size live out w1).
  { destruct (so_ntfy _ _ _ _ _ _ S) as (v0 & Ev0 & Hs & Hm). apply (sess_step s fd size live out out w w1 v0 S F1); try done; apply S. }
  assert (A1 : at_hand s p size w1) by done.
  destruct (bwrite_spec 0 d l) as (l' & Ew & Hl' & Hb & _); [lia..|].
  unfold write_buf, buf_bytes. change (mbuf p w1) with (mbuf p w). rewrite Eb. cbn [mbind option_bind]. rewrite El. cbn [mbind option_bind].
  rewrite Ew. cbn [mbind option_bind].
  destruct (write_at_hand s fd size live out w1 p (set_buff (Some l')) S1 A1) as (w2 & -> & S2 & F2 & K2 & H2 & B2 & V2).
  { intros b0 _ Hm0 Ht0. split; [|done]. exists l'. split; [done|]. cbn. congruence. }
  exists w2. split; [done|]. split; [done|]. pose proof (B2 b Eb) as Eb2. split; [|split; [|split; [done|split; [done|split; [done|]]]]].
  3: { apply balance_same. intros q. apply frame_mine; [by destruct F2; split|by rewrite V2]. }
  - split; [|by exists (set_buff (Some l') b), l']. exists v, (set_buff (Some l') b), l'. rewrite V2.
    repeat (split; [done|]). split; [congruence|done].
  - destruct F2. by split.
Qed.

Lemma drop_ok s fd size live out w p : sess_ok s fd size live out w -> at_hand s p size w ->
  exists w' out', drop_packet s p w = Some (false, w') /\ sess_ok s fd size live out' w' /\ sess_frame w w' /\
    kernel w' = kernel w /\ same_held w w' /\ balance s out w out' w'.
Proof.
  intros S (v & b & l & Ev & Em & Eb & El & Hl & Hmax & Hty).
  destruct (so_ntfy _ _ _ _ _ _ S) as (v0 & Ev0 & Hs & Hm). assert (v0 = v) as -> by congruence. destruct (Hm p Em) as (Hin & Hno & _).
  destruct (FreeMsgBuf_ok malloc brep (cw_pool w) out p (so_pool _ _ _ _ _ _ S) Hin) as (b' & E & I').
  unfold drop_packet, free_mbuf. rewrite E. cbn [mbind option_bind]. set (w1 := set_mbufs b' w).
  unfold upd_ntfy. change (ntfy s w1) with (ntfy s w). rewrite Ev. cbn [mbind option_bind]. set (w2 := set_ntfys _ w1).
  assert (Hne : forall c q, holds c q w -> q <> p) by (intros c q Hq ->; by destruct (Hno c)).
  exists w2, (filter (.≠ p) out). split; [done|]. split; [|split; [done|split; [done|split]]].
  - apply (sess_step s fd size live out _ w w2 (set_sn_msg None v) S); try done.
    + unfold ntfy, w2. cbn. apply lookup_insert_eq.
    + by eapply FreeMsgBuf_full; [exact E|apply S].
    + intros c q Hq. apply list_elem_of_filter. split; [by eapply Hne|by eapply so_held].
  - intros c q Hq. unfold mbuf, w2. cbn. eapply FreeMsgBuf_others; [exact E|by eapply Hne].
  - assert (Hm2 : forall q, mine s w2 q <-> exists c, holds c q w).
    { intros q. unfold mine. assert (ntfy s w2 = Some (set_sn_msg None v)) as -> by (unfold ntfy, w2; cbn; apply lookup_insert_eq).
      split; [|by left]. by intros [?|(v' & [= <-] & ?)]. }
    split.
    + intros q Hq Hn. split; [apply list_elem_of_filter; split; [|done]; intros ->; apply Hn; right; by exists v|].
      intros Hc%Hm2. apply Hn. by left.
    + intros q [_ Hq]%list_elem_of_filter. by left.
    + intros q [Hqp _]%list_elem_of_filter [?|(v' & E1 & E2)]; [by apply Hm2|congruence].
Qed.

(** The old message of a connection goes back to the pool. *)
Lemma free_old_ok s fd size live out w c y : sess_ok s fd size live out w -> conn c w = Some y ->
  exists b' out', (match cn_msg y with Some m => free_mbuf (Some m) w | None => Some w end) = Some (set_mbufs b' w) /\
    pool_inv brep b' out' /\ all_full b' /\ (forall q, q ∈ out' <-> q ∈ out /\ cn_msg y <> Some q) /\
    (forall q, cn_msg y <> Some q -> bp_bufs b' !! q = mbuf q w).
Proof.
  intros S Ey. destruct (cn_msg y) as [m|] eqn:Em.
  - assert (Hm : m ∈ out) by (apply (so_held _ _ _ _ _ _ S c); by exists y).
    destruct (FreeMsgBuf_ok malloc brep (cw_pool w) out m (so_pool _ _ _ _ _ _ S) Hm) as (b' & E & I').
    exists b', (filter (.≠ m) out). unfold free_mbuf. rewrite E. split; [done|]. split; [done|].
    split; [by eapply FreeMsgBuf_full; [exact E|apply S]|]. split.
    + intros q. rewrite list_elem_of_filter. split; [intros [? ?]|intros [? ?]]; split; congruence.
    + intros q Hq. eapply FreeMsgBuf_others; [exact E|congruence].
  - exists (cw_pool w), out. split; [by destruct w|]. split; [apply S|]. split; [apply S|]. split; [|done].
    intros q. split; [|tauto]. intros ?. by split.
Qed.

Definition others_same c w w' : Prop := (forall c', c' <> c -> conn c' w' = conn c' w) /\
  (forall c' q, c' <> c -> holds c' q w -> mbuf q w' = mbuf q w).
(** Events arrive at objects; threads stop waiting. *)
Definition only_wakes w w' : Prop := cw_sess w' = cw_sess w /\ (forall t, t ∈ cw_io w' -> t ∈ cw_io w) /\
  forall o z, ob o w = Some z -> exists z', ob o w' = Some z' /\ (z' = z \/ eo_revents z' = EPOLLIN /\ eo_fd z' = eo_fd z).

Lemma hand_over_ok s fd size live out w p d a x t c y o : sess_ok s fd size live out w -> received s p size d w ->
  (forall b, mbuf p w = Some b -> mb_msg_len b = blen d /\ mb_recv_len b = blen d) ->
  sm_objs (cw_sess w) !! a = Some x -> is_thread x = Some t -> is_conn x = Some c -> conn c w = Some y -> cn_ntfy y = Some o ->
  is_Some (ob o w) ->
  exists w' out', (w ← match cn_msg y with Some m => free_mbuf (Some m) w | None => Some w end;
                   w ← upd_conn c (set_msg (Some p)) w;
                   w ← upd_ntfy s (set_sn_msg None) w;
                   w ← upd_ob o (SetRcvEvents EPOLLIN) w;
                   Some (true, wake (Some t) w)) = Some (true, w') /\
    sess_ok s fd size live out' w' /\ kernel w' = kernel w /\ inbox c d w' /\ others_same c w w' /\ only_wakes w w' /\
    balance s out w out' w'.
Proof.
  intros S [(v & b & l & Ev & Em & Eb & El & Hl & Hmax & Hty) (b0 & l0 & Eb0 & El0 & Hd)] Hlen Ex Et Ec Ey Eo [z Ez].
  assert (b0 = b) as -> by congruence. assert (l0 = l) as -> by congruence. destruct (Hlen b Eb) as [Hn1 Hn2].
  destruct (so_ntfy _ _ _ _ _ _ S) as (v0 & Ev0 & Hs & Hm). assert (v0 = v) as -> by congruence. destruct (Hm p Em) as (Hin & Hno & _).
  destruct (free_old_ok _ _ _ _ _ _ _ _ S Ey) as (b' & out' & -> & I' & Hf' & Hout & Hsame). cbn [mbind option_bind].
  assert (Hyp : cn_msg y <> Some p) by (intros E; apply (Hno c); by exists y).
  set (w1 := set_mbufs b' w). unfold upd_conn. change (conn c w1) with (conn c w). rewrite Ey. cbn [mbind option_bind].
  set (w2 := set_conns _ w1). unfold upd_ntfy. change (ntfy s w2) with (ntfy s w). rewrite Ev. cbn [mbind option_bind].
  set (w3 := set_ntfys _ w2). unfold upd_ob. change (ob o w3) with (ob o w). rewrite Ez. cbn [mbind option_bind].
  set (w4 := set_ep _ w3). set (w5 := wake (Some t) w4).
  assert (Hw : cw_pool w5 = b' /\ cw_conns w5 = <[c := set_msg (Some p) y]> (cw_conns w) /\ cw_ntfys w5 = <[s := set_sn_msg None v]> (cw_ntfys w) /\
    cw_sess w5 = cw_sess w /\ cw_ep w5 = set_obj o (SetRcvEvents EPOLLIN z) (cw_ep w)) by (unfold w5, wake; by case_match).
  assert (Hio : (t ∉ cw_io w5) /\ forall t', t' ∈ cw_io w5 -> t' ∈ cw_io w).
  { unfold w5, wake. case_bool_decide; [|done]. cbn [cw_io set_cio set_crun]. split; [|intros t']; rewrite list_elem_of_filter; tauto. }
  destruct Hw as (W1 & W2 & W3 & W4 & W5). destruct Hio as [Ht Hio].
  assert (Hc5 : forall c', conn c' w5 = if decide (c' = c) then Some (set_msg (Some p) y) else conn c' w).
  { intros c'. unfold conn. rewrite W2, lookup_insert. repeat case_decide; congruence. }
  assert (Ho5 : forall o', ob o' w5 = if decide (o' = o) then Some (SetRcvEvents EPOLLIN z) else ob o' w).
  { intros o'. unfold ob. rewrite W5. cbn [ep_objs set_obj]. rewrite lookup_insert. repeat case_decide; congruence. }
  assert (Hb5 : forall q, mbuf q w5 = bp_bufs b' !! q) by (intros q; unfold mbuf; by rewrite W1).
  assert (Hh5 : forall c' q, holds c' q w5 <-> if decide (c' = c) then q = p else holds c' q w).
  { intros c' q. unfold holds. rewrite Hc5. case_decide; [|done]. split; [intros (y' & [= <-] & E); cbn in E; congruence|].
    intros ->. by eexists. }
  assert (Hp' : p ∈ out') by (by apply Hout).
  assert (Hho : forall c' q, c' <> c -> holds c' q w -> cn_msg y <> Some q).
  { intros c' q Hne Hq E. apply Hne, (so_inj _ _ _ _ _ _ S c' c q); [done|by exists y]. }
  exists w5, out'. split; [done|]. split; [|split; [unfold kernel; by rewrite W5|split; [|split; [split|split; [split; [done|split; [done|]]|]]]]].
  - split.
    + destruct (so_ob _ _ _ _ _ _ S) as (z' & Ez' & Hz'). rewrite Ho5. case_decide; [|by exists z'].
      subst o. exists (SetRcvEvents EPOLLIN z). split; [done|]. cbn. congruence.
    + exists (set_sn_msg None v). unfold ntfy. rewrite W3, lookup_insert_eq. done.
    + by rewrite W1.
    + by rewrite W1.
    + rewrite W4. apply S.
    + intros id a' Ha'. destruct (so_route _ _ _ _ _ _ S id a' Ha') as (x' & t' & c' & y' & o' & R1 & R2 & R3 & R4 & R5 & R6).
      exists x', t', c'. rewrite W4, Hc5. case_decide.
      * subst c'. exists (set_msg (Some p) y), o'. do 4 (split; [done|]). cbn. split; [congruence|]. rewrite Ho5. by case_decide.
      * exists y', o'. do 5 (split; [done|]). rewrite Ho5. by case_decide.
    + intros c' q. rewrite Hh5. case_decide; [by intros ->|]. intros Hq. apply Hout. split; [by eapply so_held|by eapply Hho].
    + intros c1 c2 q. rewrite !Hh5. repeat case_decide; try congruence.
      * intros -> Hq. by destruct (Hno c2).
      * intros Hq ->. by destruct (Hno c1).
      * apply S.
  - exists (set_msg (Some p) y), p, b, l, o, (SetRcvEvents EPOLLIN z). rewrite Hc5, decide_True, Hb5, Hsame, Ho5, decide_True by done.
    repeat (split; [done|]). exists a, x, t. by rewrite W4.
  - intros c' Hne. by rewrite Hc5, decide_False.
  - intros c' q Hne Hq. rewrite Hb5. apply Hsame. by eapply Hho.
  - intros o' z' Ez'. rewrite Ho5. case_decide; [|by exists z'; auto]. subst o'. assert (z' = z) as -> by congruence.
    exists (SetRcvEvents EPOLLIN z). auto.
  - assert (Hm5 : forall q, mine s w5 q <-> q = p \/ exists c', c' <> c /\ holds c' q w).
    { intros q. unfold mine, ntfy. rewrite W3, lookup_insert_eq. split.
      - intros [[c' Hc']|(v' & [= <-] & ?)]; [|done]. apply Hh5 in Hc'. case_decide; [by left|]. right. by exists c'.
      - intros [->|(c' & Hne & Hc')]; left; [exists c|exists c']; apply Hh5; by case_decide. }
    split.
    + intros q Hq Hn. split.
      * apply Hout. split; [done|]. intros E. apply Hn. left. exists c, y. done.
      * intros [->|(c' & _ & Hc')]%Hm5; apply Hn; [right; by exists v|left; by exists c'].
    + intros q [Hq _]%Hout. by left.
    + intros q [_ Hqy]%Hout [(c' & Hc')|(v' & E1 & E2)]; apply Hm5; [|left; congruence]. right. exists c'. split; [|done].
      intros ->. destruct Hc' as (y' & Ey' & E'). congruence.
Qed.

Lemma frame_others c w w' : sess_frame w w' -> same_held w w' -> others_same c w w'.
Proof. intros F Hh. split; [intros c' _; unfold conn; by rewrite (sf_conns _ _ F)|]. intros c' q _. apply Hh. Qed.
Lemma others_same_trans c w1 w2 w3 : others_same c w1 w2 -> others_same c w2 w3 -> others_same c w1 w3.
Proof.
  intros [H1 H2] [H3 H4]. split; [intros c' Hne; by rewrite H3, H1|]. intros c' q Hne Hq. rewrite (H4 c'), (H2 c'); [done..|].
  unfold holds. by rewrite H1.
Qed.
Lemma frame_wakes w w' : sess_frame w w' -> only_wakes w w'.
Proof.
  intros F. split; [apply F|]. split; [intros t; by rewrite (sf_io _ _ F)|]. intros o z Ez. exists z. rewrite (sf_obs _ _ F). auto.
Qed.
Lemma route_frame s live w w' d : cw_sess w' = cw_sess w -> route s live w' d = route s live w d.
Proof. intros E. unfold route. by rewrite E. Qed.
Lemma wakes_trans w1 w2 w3 : only_wakes w1 w2 -> only_wakes w2 w3 -> only_wakes w1 w3.
Proof.
  intros (H1 & H2 & H3) (H4 & H5 & H6). split; [congruence|]. split; [auto|]. intros o z E.
  destruct (H3 o z E) as (z' & E' & Hz). destruct (H6 o z' E') as (z2 & E2 & Hz2). exists z2. split; [done|].
  destruct Hz as [->|[? ?]], Hz2 as [->|[? ?]]; auto. right. split; congruence.
Qed.

(** What a turn does with what [recvfrom] gave; [None] ends the loop. *)
Definition turn_result s live w (r : Z) (d : list Z) : option ptr := if r <=? 0 then None else route s live w d.

Lemma deliver_ok s fd size live out w p r d : sess_ok s fd size live out w -> received s p size d w -> blen d = Z.max 0 r -> 0 < r ->
  exists w' out', deliver s p r w = Some (bool_decide (is_Some (route s live w d)), w') /\ sess_ok s fd size live out' w' /\
    kernel w' = kernel w /\ only_wakes w w' /\ balance s out w out' w' /\
    match route s live w d with
    | None => cw_conns w' = cw_conns w /\ same_held w w'
    | Some c => inbox c d w' /\ others_same c w w'
    end.
Proof.
  intros S R Hd Hr. pose proof R as [A (b & l & Eb & El & Hl)]. replace r with (blen d) by lia.
  destruct (write_at_hand s fd size live out w p (fun b => SetMsgLen (blen d) (SetHaveRcvLen (blen d) b)) S A)
    as (w1 & E1 & S1 & F1 & K1 & H1 & B1 & V1); [by intros|].
  assert (Ba1 : balance s out w out w1) by (apply balance_same; intros q; by apply frame_mine).
  pose proof (B1 b Eb) as Eb1. unfold deliver. rewrite E1. cbn [mbind option_bind]. unfold buf_bytes. rewrite Eb1. cbn [mbind option_bind].
  change (mb_buff (SetMsgLen (blen d) (SetHaveRcvLen (blen d) b))) with (mb_buff b). rewrite El. cbn [mbind option_bind].
  rewrite Hl. cbn [mbind option_bind].
  assert (A1 : at_hand s p size w1).
  { destruct A as (v & b2 & l2 & Ev & Em & Eb2 & El2 & Hl2 & Hmax & Hty). assert (b2 = b) as -> by congruence.
    eexists v, _, l2. rewrite V1. do 2 (split; [done|]). split; [exact Eb1|done]. }
  assert (Hdrop : exists w' out', drop_packet s p w1 = Some (false, w') /\ sess_ok s fd size live out' w' /\ kernel w' = kernel w /\
    only_wakes w w' /\ balance s out w out' w' /\ cw_conns w' = cw_conns w /\ same_held w w').
  { destruct (drop_ok s fd size live out w1 p S1 A1) as (w2 & out' & E2 & S2 & F2 & K2 & H2 & Ba2). exists w2, out'. split; [done|].
    split; [done|]. split; [congruence|]. split; [|split].
    - eapply wakes_trans; by apply frame_wakes.
    - by eapply balance_trans.
    - split; [by rewrite (sf_conns _ _ F2), (sf_conns _ _ F1)|]. intros c q Hq. rewrite (H2 c q), (H1 c q); [done..|]. by apply (sess_frame_holds w). }
  unfold route. destruct (get_session_id s d) as [rr id]. destruct (rr <=? 0).
  { destruct Hdrop as (w' & out' & E & S' & K' & Wk & Hx). by exists w', out'. }
  destruct (so_rep _ _ _ _ _ _ S1) as (h & Eh & Rh). unfold FindSession. rewrite Eh, (kt_find_ok _ _ _ id Rh). cbn [mbind option_bind].
  destruct (live !! id) as [a|] eqn:Ea.
  2:{ destruct Hdrop as (w' & out' & E & S' & K' & Wk & Hx). by exists w', out'. }
  destruct (so_route _ _ _ _ _ _ S1 id a Ea) as (x & t & c & y & o & Ex & Et & Ec & Ey & Eo & Eob).
  rewrite Ex. cbn [mbind option_bind]. rewrite Et, Ec, Ey. cbn [mbind option_bind]. rewrite Eo.
  assert (Exw : sm_objs (cw_sess w) !! a = Some x) by (by rewrite <- (sf_sess _ _ F1)). rewrite Exw. cbn [mbind option_bind]. rewrite Ec.
  destruct (hand_over_ok s fd size live out w1 p d a x t c y o S1) as (w2 & out' & E2 & S2 & K2 & I2 & O2 & W2 & Ba2); try done.
  { split; [done|]. eexists _, l. split; [exact Eb1|]. done. }
  { intros b' Eb'. rewrite Eb1 in Eb'. by injection Eb' as <-. }
  rewrite bool_decide_true by done. exists w2, out'. split; [exact E2|]. split; [done|]. split; [congruence|].
  split; [eapply wakes_trans; [by apply frame_wakes|done]|]. split; [by eapply balance_trans|].
  split; [done|]. eapply others_same_trans; [by eapply frame_others|done].
Qed.

Lemma turn_ok s fd size live out w : sess_ok s fd size live out w ->
  let '(r, _, d, k) := ce_recvfrom fd size (kernel w) in
  exists w' out', input_turn s w = Some (bool_decide (is_Some (turn_result s live w r d)), w') /\ sess_ok s fd size live out' w' /\
    kernel w' = k /\ only_wakes w w' /\ balance s out w out' w' /\
    match turn_result s live w r d with
    | None => cw_conns w' = cw_conns w /\ same_held w w'
    | Some c => inbox c d w' /\ others_same c w w'
    end.
Proof.
  intros S. destruct (session_buf_ok s fd size live out w S) as (p & w1 & out1 & E1 & S1 & A1 & F1 & K1 & H1 & Ba1).
  pose proof (receive_ok s fd size live out1 w1 p S1 A1) as Hr. rewrite K1 in Hr.
  destruct (ce_recvfrom fd size (kernel w)) as [[[r err] d] k] eqn:Ek. destruct Hr as (w2 & E2 & S2 & R2 & F2 & K2 & H2 & Hd & Ba2).
  unfold input_turn. rewrite E1. cbn [mbind option_bind]. destruct A1 as (v & b & l & Ev & Em & Eb & El & Hl & Hmax & Hty).
  rewrite Eb. cbn [mbind option_bind]. destruct (so_ob _ _ _ _ _ _ S1) as (z & Ez & Hz). rewrite Ez. cbn [mbind option_bind].
  rewrite Hz, Hmax. fold (kernel w1). rewrite K1, Ek, E2. cbn [mbind option_bind]. unfold turn_result.
  assert (F : sess_frame w w2) by (destruct F1, F2; split; try congruence; intros o; congruence).
  assert (Hh : same_held w w2).
  { intros c q Hq. rewrite (H2 c q), (H1 c q); [done..|]. by apply (sess_frame_holds w). }
  pose proof (frame_wakes _ _ F) as Hwk. pose proof (balance_trans _ _ _ _ _ _ _ Ba1 Ba2) as Ba.
  destruct (Z.leb_spec r 0) as [Hr|Hr].
  - exists w2, out1. do 5 (split; [done|]). split; [apply F|done].
  - destruct (deliver_ok s fd size live out1 w2 p r d S2 R2 Hd Hr) as (w3 & out3 & E3 & S3 & K3 & W3 & Ba3 & Hres).
    rewrite (route_frame s live w w2) in E3, Hres by apply F. exists w3, out3. split; [done|]. split; [done|].
    split; [congruence|]. split; [by eapply wakes_trans|]. split; [by eapply balance_trans|]. destruct (route s live w d) as [c|].
    + destruct Hres as [Hi Ho]. split; [done|]. eapply others_same_trans; [by eapply frame_others|done].
    + destruct Hres as [Hc Hh2]. split; [rewrite Hc; apply F|]. intros c q Hq. rewrite (Hh2 c q), (Hh c q); [done..|].
      by apply (sess_frame_holds w).
Qed.

(** ** All turns *)

Lemma inbox_keep c d w w' : inbox c d w -> conn c w' = conn c w -> (forall q, holds c q w -> mbuf q w' = mbuf q w) ->
  only_wakes w w' -> inbox c d w'.
Proof.
  intros (y & p & b & l & o & z & Ey & Em & Eb & El & Hd & Hty & Hn1 & Hn2 & Eo & Ez & Hz & a & x & t & Ex & Ec & Et & Ht) Hc Hb (W1 & W2 & W3).
  destruct (W3 o z Ez) as (z' & Ez' & Hz'). exists y, p, b, l, o, z'. rewrite Hc, (Hb p) by (by exists y).
  do 10 (split; [done|]). split; [by destruct Hz' as [->|[? _]]|]. exists a, x, t. rewrite W1. do 3 (split; [done|]). auto.
Qed.

(** What the turns so far did: the boxes are filled, and what is not named is as it was. *)
Record filled (box : gmap ptr (list Z)) w0 w : Prop := {
  fd_in c d : box !! c = Some d -> inbox c d w;
  fd_out c : box !! c = None -> conn c w = conn c w0 /\ forall q, holds c q w0 -> mbuf q w = mbuf q w0;
  fd_wakes : only_wakes w0 w;
}.
Lemma filled_same box w0 w w' : filled box w0 w -> cw_conns w' = cw_conns w -> same_held w w' -> only_wakes w w' -> filled box w0 w'.
Proof.
  intros [H1 H2 H3] Hc Hh Hw. assert (Hcc : forall c, conn c w' = conn c w) by (intros c; unfold conn; by rewrite Hc). split.
  - intros c d Hb. eapply inbox_keep; [by apply H1|done|apply Hh|done].
  - intros c Hb. destruct (H2 c Hb) as [E1 E2]. split; [by rewrite Hcc|]. intros q Hq. rewrite (Hh c q); [by apply E2|].
    unfold holds. by rewrite E1.
  - by eapply wakes_trans.
Qed.
Lemma filled_more box w0 w w' c d : filled box w0 w -> inbox c d w' -> others_same c w w' -> only_wakes w w' -> filled (<[c := d]> box) w0 w'.
Proof.
  intros [H1 H2 H3] Hi [Ho1 Ho2] Hw. split.
  - intros c' d' [[<- <-]|[Hne Hb]]%lookup_insert_Some; [done|]. eapply inbox_keep; [by apply H1|by apply Ho1| |done].
    intros q. by apply Ho2.
  - intros c' [Hb Hne]%lookup_insert_None. destruct (H2 c' Hb) as [E1 E2]. split; [by rewrite Ho1|]. intros q Hq.
    rewrite (Ho2 c' q); [by apply E2|done|]. unfold holds. by rewrite E1.
  - by eapply wakes_trans.
Qed.

Lemma input_loop_ok s fd size live w0 fuel out w box : sess_ok s fd size live out w -> filled box w0 w ->
  (ce_pending fd (kernel w) < fuel)%nat ->
  let '(box', k) := demux fuel s fd size live w0 (kernel w) box in
  exists w' out', input_loop fuel s w = Some w' /\ sess_ok s fd size live out' w' /\ kernel w' = k /\ filled box' w0 w' /\
    balance s out w out' w'.
Proof.
  revert out w box. induction fuel as [|fuel IH]; intros out w box HS Hb Hf; [lia|]. cbn [demux input_loop].
  pose proof (turn_ok s fd size live out w HS) as Ht. pose proof (so_ntfy _ _ _ _ _ _ HS) as (v & _ & Hsz & _).
  pose proof (sl_recv fd size (kernel w) ltac:(pose proof (msg_buff_size_pos (sn_buff_size v)); lia)) as Hk.
  destruct (ce_recvfrom fd size (kernel w)) as [[[r err] d] k]. destruct Hk as (_ & _ & Hdec).
  destruct Ht as (w1 & out1 & -> & S1 & K1 & W1 & Ba1 & Hres). cbn [mbind option_bind]. unfold turn_result in *.
  rewrite (route_frame s live w0 w) in * by apply (fd_wakes _ _ _ Hb).
  destruct (Z.leb_spec r 0) as [Hr|Hr].
  - destruct Hres as [Hc Hh]. exists w1, out1. do 3 (split; [done|]). split; [by eapply filled_same|done].
  - destruct (route s live w0 d) as [c|]; cbn [bool_decide].
    + destruct Hres as [Hi Ho]. rewrite bool_decide_true by done. specialize (Hdec Hr).
      pose proof (IH out1 w1 (<[c := d]> box) S1 (filled_more _ _ _ _ _ _ Hb Hi Ho W1)) as IH1. rewrite K1 in IH1.
      specialize (IH1 ltac:(lia)). destruct (demux fuel _ _ _ _ _ _ _) as [box' k']. destruct IH1 as (w' & out' & E & S' & K' & Fl & Ba').
      exists w', out'. do 4 (split; [done|]). by eapply balance_trans.
    + destruct Hres as [Hc Hh]. rewrite bool_decide_false by (by intros [? ?]). exists w1, out1. do 3 (split; [done|]).
      split; [by eapply filled_same|done].
Qed.

(** C4: answers on a shared UDP socket reach the right action.  [InputNotify] takes the
    datagrams that wait, up to the first that names no open session, and ends.  For
    each connection that a datagram was for, the last one is then the whole message of
    its buffer, the thread of the session does not wait any more, and [RecvData] of the
    connection gives the length of the message; every other connection and its buffer
    are as before.  The buffers lent by the pool afterwards are those that others had
    before and those that connections and the session object hold: none is lost,
    freed twice or held by two.  [SessLaws] says that memory does not run out. *)
Theorem InputNotify_demultiplexes s fd size live out w (HS : sess_ok s fd size live out w) :
  let '(box, k) := demux (S (ce_pending fd (kernel w))) s fd size live w (kernel w) ∅ in
  exists w' out', UdpSession_InputNotify s w = Some w' /\ sess_ok s fd size live out' w' /\ kernel w' = k /\
    (forall c d, box !! c = Some d -> inbox c d w' /\ UdpSessionConn_RecvData c w' = Some (blen d, w')) /\
    (forall c, box !! c = None -> conn c w' = conn c w /\ forall q, holds c q w -> mbuf q w' = mbuf q w) /\
    (forall p, p ∈ out' <-> p ∈ out /\ ~ mine s w p \/ mine s w' p) /\ only_wakes w w'.
Proof.
  assert (Hb : filled ∅ w w).
  { split; [intros c d; by rewrite lookup_empty|done|]. split; [done|]. split; [done|]. intros o z Ez. exists z. auto. }
  pose proof (input_loop_ok s fd size live w (S (ce_pending fd (kernel w))) out w ∅ HS Hb ltac:(lia)) as Hl.
  destruct (demux _ s fd size live w (kernel w) ∅) as [box k]. destruct Hl as (w' & out' & E & S' & K' & [H1 H2 H3] & Ba).
  unfold UdpSession_InputNotify. destruct (so_ob _ _ _ _ _ _ HS) as (z & Ez & Hz). rewrite Ez. cbn [mbind option_bind]. rewrite Hz.
  exists w', out'. split; [exact E|]. do 2 (split; [done|]). split; [|split; [done|split; [|done]]].
  2: { intros p. split.
       - intros Hp. destruct (decide (mine s w p)) as [Hm|Hm]; [right; by eapply ba_kept|].
         destruct (ba_got _ _ _ _ _ Ba p Hp); [left|right]; done.
       - intros [[Hp Hn]|[[c Hc]|(v & Ev & Em)]]; [by apply (ba_others _ _ _ _ _ Ba)|by eapply so_held|].
         destruct (so_ntfy _ _ _ _ _ _ S') as (v' & Ev' & _ & Hm). apply Hm. congruence. }
  intros c d Hcd. pose proof (H1 c d Hcd) as Hi. split; [done|].
  destruct Hi as (y & p & b & l & o & z' & Ey & Em & Eb & El & Hd & Hty & Hn1 & Hn2 & Eo & Ez' & Hz' & _).
  unfold UdpSessionConn_RecvData. rewrite Ey. cbn [mbind option_bind]. rewrite Eo, Em, Ez'. cbn [mbind option_bind]. rewrite Hz'.
  cbn [Z.leb Z.compare EPOLLIN]. rewrite Eb. cbn [mbind option_bind]. by rewrite Hty, Z.eqb_refl, Hn1.
Qed.
End sess.
