(* ===== verification/ConnDemo.v ===== *)
(** * Connections and actions in concrete environments

    Witnesses of the theorems of [ConnRun] and [ConnSess], and runs that show how the
    functions of [mt_concurrent.cpp] treat actions in unhappy cases. *)

From Stdlib Require Import ZArith Lia.
From stdpp Require Import base gmap list option fin_sets.
From S2P Require Import Prelude Bytes HashList KeyTable MtSession MbufPool Epoll ConnData ConnNtfy ConnOps ConnAct.
From S2P Require Import ConnMulti ConnLoop ConnPoll ConnRun ConnSess.

(** Users: buffers of zeroes, a two-byte request, any answer accepted, the first byte of
    a datagram as session number. *)
#[local] Instance demo_user : ConnUser := {
  malloc _ n := Some (replicate (Z.to_nat n) 0);
  fresh_flag _ := 0;
  timer_room _ := true;
  thread_args _ := None;
  get_session_id _ d := match d with i :: _ => (1, i) | [] => (0, 0) end;
  handle_encode _ _ := (0, 2, [65; 66]);
  handle_input _ l := blen l;
  handle_process _ _ := 0;
}.
#[local] Instance demo_sizes : KeyTable Z hash_table := HashList_KeyTable mbuf_hash mbuf_cmp.
#[local] Instance demo_addrs : KeyTable addr hash_table := HashList_KeyTable keep_hash keep_cmp.

(** ** A server that answers each request on the second try

    The state counts descriptors and attempts, and says how many attempts to connect do
    not get through. *)
Record srv := mkSrv { sv_fd : Z; sv_tries : Z; sv_slow : Z }.
Definition tick (e : srv) : srv := mkSrv (sv_fd e) (sv_tries e + 1) (sv_slow e).
Definition second (n : Z) (e : srv) : Z * Z * list Z * srv :=
  if Z.even (sv_tries e) then (-1, EAGAIN, [], tick e)
  else let d := take (Z.to_nat n) [7; 8; 9] in (blen d, 0, d, tick e).
#[local] Instance srv_env : ConnEnv srv := {
  ce_epoll_ctl e _ _ _ := (e, 0, 0);
  ce_socket _ e := (sv_fd e, mkSrv (sv_fd e + 1) (sv_tries e) (sv_slow e));
  ce_ioctl _ e := (0, e);
  ce_bind _ _ e := (0, e);
  ce_close _ e := e;
  ce_connect _ _ e := if sv_tries e <? sv_slow e then (-1, EINPROGRESS, tick e) else (0, 0, tick e);
  ce_sendto _ l _ e := (blen l, 0, e);
  ce_recvfrom _ n e := second n e;
  ce_send _ l e := (blen l, 0, e);
  ce_recv _ n e := second n e;
  ce_errno _ := EAGAIN;
  ce_pending _ _ := 0%nat;
}.
Abbreviation W := (ConnW srv hash_table hash_table hash_table).

(** A wait takes ten milliseconds. *)
Definition srv_switch (_ : ptr) (_ : Z) (w : W) : option W := Some (set_clock (cw_clock w + 10) w).
(** A UDP and a TCP action. *)
Definition srv_start (slow : Z) : W := new_managers 1000 (mkSrv 5 0 slow).
Definition srv_setup (slow : Z) : option W :=
  let '(a1, w) := new_IMtAction (srv_start slow) in
  w ← setup_action a1 MT_UDP CONN_TYPE_SHORT (addr_of 16777343 80) 100 0 w;
  let '(a2, w) := new_IMtAction w in
  w ← setup_action a2 MT_TCP CONN_TYPE_LONG (addr_of 16777343 80) 100 0 w;
  '(_, w) ← init_actions 77%positive [a1; a2] w;
  Some w.
Definition srv_world (slow : Z) : W := default (srv_start slow) (srv_setup slow).
Definition srv_items : list (ptr * ptr * ptr) := [(1, 1, 1); (2, 2, 3)]%positive.
Definition outcomes (r : option (Z * W)) : option (Z * list (option (Z * Z))) :=
  '(rc, w) ← r; Some (rc, (fun a => (fun x => (ac_errno x, ac_flag x)) <$> act a w) <$> [1; 2]%positive).
Definition srv_run (slow : Z) : option (Z * list (option (Z * Z))) :=
  outcomes (mt_multi_sendrcv_ex srv_switch 10 77%positive (srv_items.*1.*1) 30 (srv_world slow)).

(** Both requests are answered; but when the TCP connection does not come up in time, the
    UDP request, whose socket was ready, is not even sent and has no error code. *)
Example srv_answers : srv_run 1 = Some (0, [Some (ERR_NONE, MULTI_FLAG_FIN); Some (ERR_NONE, MULTI_FLAG_FIN)]).
Proof. vm_compute. reflexivity. Qed.
Example srv_open_late : srv_run 10 = Some (-2, [Some (ERR_NONE, MULTI_FLAG_OPEN); Some (ERR_CONNECT_FAIL, MULTI_FLAG_INIT)]).
Proof. vm_compute. reflexivity. Qed.

(** ** The hypotheses of [mt_multi_sendrcv_ends] *)

Lemma second_ok n e : 0 <= n -> let '(r, _, l, _) := second n e in blen l = Z.max 0 r /\ r <= n.
Proof.
  intros Hn. unfold second. destruct (Z.even (sv_tries e)); [split; unfold blen; cbn; lia|]. unfold blen. rewrite length_take. cbn [length]. lia.
Qed.
#[local] Instance srv_laws : NetLaws (fun _ : srv => 0%nat).
Proof.
  split; try done; try (intros; cbn; lia).
  - intros fd l d e. cbn. unfold blen. lia.
  - intros fd l e. cbn. unfold blen. lia.
  - intros fd n e Hn. cbn. pose proof (second_ok n e Hn) as Hs. destruct (second n e) as [[[r er] l] e']. destruct Hs. done.
  - intros fd n e Hn. cbn. pose proof (second_ok n e Hn) as Hs. destruct (second n e) as [[[r er] l] e']. destruct Hs. done.
Qed.

Lemma good_clock G z (w : W) : good G w -> good G (set_clock z w).
Proof.
  intros [H1 H2 H3 H4]. split; [|done..|done]. intros g Hg. destruct (H1 g Hg) as (x & y & p & b & l & []).
  exists x, y, p, b, l. by split.
Qed.
#[local] Instance srv_switch_laws : SwitchLaws (fun _ : srv => 0%nat) srv_items srv_switch.
Proof.
  intros t until w Gd. eexists. split; [done|]. split; [by apply good_clock|]. split; [done|]. left. cbn. lia.
Qed.

Ltac own_demo :=
  eexists _, _, _, _, _; split; cbn [fst snd];
  [vm_compute; reflexivity|vm_compute; reflexivity|vm_compute; reflexivity|vm_compute; reflexivity|vm_compute; reflexivity
  |vm_compute; reflexivity|vm_compute; tauto|eexists; vm_compute; reflexivity|vm_compute; reflexivity
  |split; [vm_compute; reflexivity|repeat split; vm_compute; congruence]
  |vm_compute; repeat split; try eexists; reflexivity
  |split; [vm_compute; congruence|split; vm_compute; congruence]].
Lemma two_messages (m : ptr * ptr * ptr -> option ptr) : m (1, 1, 1)%positive = Some 1%positive -> m (2, 2, 3)%positive = Some 2%positive ->
  forall g g', g ∈ srv_items -> g' ∈ srv_items -> m g = m g' -> g = g'.
Proof.
  intros M1 M2 g g' [->|[->|Hn%elem_of_nil]%elem_of_cons]%elem_of_cons [->|[->|Hn'%elem_of_nil]%elem_of_cons]%elem_of_cons;
    rewrite ?M1, ?M2; first [done|congruence].
Qed.
Lemma two_fresh (f : ptr -> option IMtAction) : ac_flag <$> f 1%positive = Some MULTI_FLAG_UNDEF ->
  ac_flag <$> f 2%positive = Some MULTI_FLAG_UNDEF -> forall g x, g ∈ srv_items -> f g.1.1 = Some x -> ac_errno x = ERR_NONE ->
  flag_in [MULTI_FLAG_UNDEF] x.
Proof.
  intros F1 F2 g x [->|[->|Hn%elem_of_nil]%elem_of_cons]%elem_of_cons; [| |done]; cbn [fst]; intros Ex _; unfold flag_in.
  - rewrite Ex in F1. injection F1 as ->. by left.
  - rewrite Ex in F2. injection F2 as ->. by left.
Qed.
Lemma srv_good : good srv_items (srv_world 1).
Proof.
  split.
  - intros g [->|[->|Hn%elem_of_nil]%elem_of_cons]%elem_of_cons; [own_demo|own_demo|destruct Hn].
  - vm_compute. repeat constructor; set_solver.
  - vm_compute. repeat constructor; set_solver.
  - apply (two_messages (fun g => msg_of g (srv_world 1))); vm_compute; reflexivity.
Qed.

Lemma mt_multi_sendrcv_ends_witness :
  exists n rc w', (forall fuel, (n <= fuel)%nat ->
      mt_multi_sendrcv_ex srv_switch fuel 77%positive [1; 2]%positive 30 (srv_world 1) = Some (rc, w')) /\ rc = 0 /\
    forall g, g ∈ srv_items -> exists x, act g.1.1 w' = Some x /\ (ac_errno x <> ERR_NONE \/ ac_flag x = MULTI_FLAG_FIN /\ answered g w').
Proof.
  destruct (mt_multi_sendrcv_ends (fun _ : srv => 0%nat) srv_items srv_switch 77%positive 30 (srv_world 1)) as (n & rc & w' & E & _ & _ & _ & H1 & _).
  - exact srv_good.
  - refine (two_fresh (fun a => act a (srv_world 1)) _ _); vm_compute; reflexivity.
  - exists n, rc, w'. split; [exact E|].
    assert (Hrc : rc = 0).
    { assert (Ho : fst <$> outcomes (mt_multi_sendrcv_ex srv_switch (10 + n) 77%positive [1; 2]%positive 30 (srv_world 1)) = Some 0)
        by (vm_compute; reflexivity).
      assert (E1 : mt_multi_sendrcv_ex srv_switch (10 + n) 77%positive [1; 2]%positive 30 (srv_world 1) = Some (rc, w'))
        by exact (E (10 + n)%nat ltac:(lia)).
      rewrite E1 in Ho. cbn in Ho. congruence. }
    split; [exact Hrc|]. apply H1. by left.
Defined.

(** ** Datagrams for two sessions on one socket

    The state of the kernel is the queue of datagrams of the socket. *)
Definition dgram : Type := list (list Z).
#[local] Instance dgram_env : ConnEnv dgram := {
  ce_epoll_ctl e _ _ _ := (e, 0, 0);
  ce_socket _ e := (5, e);
  ce_ioctl _ e := (0, e);
  ce_bind _ _ e := (0, e);
  ce_close _ e := e;
  ce_connect _ _ e := (0, 0, e);
  ce_sendto _ l _ e := (blen l, 0, e);
  ce_recvfrom _ n e := match e with
                       | [] => (-1, EAGAIN, [], [])
                       | d :: e => let d := take (Z.to_nat n) d in (blen d, 0, d, e)
                       end;
  ce_send _ l e := (blen l, 0, e);
  ce_recv _ n e := (-1, EAGAIN, [], e);
  ce_errno _ := EAGAIN;
  ce_pending _ e := length e;
}.
(** Any table that keeps the promise of [KeyTable] will do; here the sessions are in a
    map. *)
#[local] Instance map_table : KeyTable Z (gmap Z ptr) := {
  kt_new _ := ∅;
  kt_find _ t k := Some (t !! k);
  kt_insert kf t p := (0, <[kf p := p]> t);
  kt_remove _ t k := Some (delete k t);
  kt_first t := snd <$> head (map_to_list t);
  kt_size t := Z.of_nat (size t);
}.
Definition map_rep (kf : ptr -> Z) (t m : gmap Z ptr) : Prop := t = m /\ forall k p, m !! k = Some p -> kf p = k.
#[local] Instance map_table_laws : KeyTableLaws Z (gmap Z ptr) map_rep.
Proof.
  split.
  - intros kf t m k p [_ Hk]. apply Hk.
  - intros kf kf' t m [-> Hk] Hf. split; [done|]. intros k p Hp. rewrite (Hf k p Hp). by apply Hk.
  - intros kf max. split; [done|]. intros k p. by rewrite lookup_empty.
  - by intros kf t m k [-> _].
  - intros kf t m p [-> Hk] Hp. eexists. split; [done|]. split; [done|]. intros k q [[<- <-]|[_ Hq]]%lookup_insert_Some; auto.
  - intros kf t m k [-> Hk]. eexists. split; [done|]. split; [done|]. intros k' p [_ Hp]%lookup_delete_Some. auto.
  - intros kf t m [-> Hk]. cbn. rewrite <- map_to_list_empty_iff. by destruct (map_to_list m).
  - intros kf t m p [-> Hk] Hp. cbn in Hp. destruct (map_to_list m) as [|[k q] l] eqn:E; [done|]. injection Hp as ->.
    assert (Hm : m !! k = Some p) by (apply elem_of_map_to_list; rewrite E; by left). by rewrite (Hk _ _ Hm).
  - by intros kf t m [-> _].
Qed.
Abbreviation DW := (ConnW dgram hash_table (gmap Z ptr) hash_table).

(** Sessions 1 and 2; the third datagram is for session 1 again, the fourth for nobody,
    so the fifth stays. *)
Definition demo_grams : dgram := [[1; 65]; [2; 66; 67]; [1; 68; 69]; [9; 0]; [2; 70]].
Definition open_action (t : ptr) (w : DW) : option DW :=
  let '(a, w) := new_IMtAction w in
  w ← setup_action a MT_UDP CONN_TYPE_SESSION (addr_of 16777343 53) 8 7 w;
  '(_, w) ← InitConnEnv a t w;
  c ← act a w ≫= ac_conn;
  '(_, w) ← CreateSocket c w;
  Some w.
Definition dgram_start : DW := new_managers 1000 demo_grams.
Definition dgram_setup : option DW :=
  let '(s, w) := new_UdpSessionNtfy 8 dgram_start in
  let '(_, w) := RegisterSession 7 (Some s) w in
  w ← open_action 77%positive w; open_action 78%positive w.
Definition dgram_world : DW := default dgram_start dgram_setup.
Definition dgram_live : gmap Z ptr := {[1 := 1%positive; 2 := 2%positive]}.

Example dgram_boxes : demux 6 1%positive 5 8 dgram_live dgram_world demo_grams ∅ =
  ({[1%positive := [1; 68; 69]; 2%positive := [2; 66; 67]]}, [[2; 70]]).
Proof. vm_compute. reflexivity. Qed.

#[local] Instance dgram_laws : SessLaws (EV := dgram).
Proof.
  split.
  - intros p n Hn. eexists. split; [done|]. unfold blen. rewrite length_replicate. lia.
  - intros fd n [|d k] Hn; cbn; [unfold blen; cbn; lia|]. unfold blen. rewrite length_take. lia.
Qed.

Lemma some_inj {A} (w w' : A) : Some w = Some w' -> w = w'.
Proof. congruence. Qed.
Lemma some_pair {A B} (w w' : A) (o o' : B) : Some (w, o) = Some (w', o') -> w = w' /\ o = o'.
Proof. intros E. split; congruence. Qed.
Lemma dgram_pool : exists out, pool_inv (table_rep mbuf_hash) (cw_pool dgram_world) out /\ out = [2; 1]%positive.
Proof.
  set (os := [BGet 8; BUse 0 BUFF_SEND 0 0 0; BGet 8; BUse 0 BUFF_SEND 0 0 0]).
  destruct (run_pool_ops_inv malloc (table_rep mbuf_hash) os _ _ (new_pool_inv (table_rep mbuf_hash) 300)) as (w & out & E & I).
  assert (E' : run_pool_ops malloc os (new_MsgBuffPool 300, []) = Some (cw_pool dgram_world, [2; 1]%positive)) by (vm_compute; reflexivity).
  destruct (some_pair _ _ _ _ (eq_trans (eq_sym E') E)) as [Ew Eo]. exists out. split; [rewrite Ew; exact I|exact (eq_sym Eo)].
Qed.

Lemma live_cases k p : dgram_live !! k = Some p -> k = 1 /\ p = 1%positive \/ k = 2 /\ p = 2%positive.
Proof. unfold dgram_live. intros [[<- <-]|[_ [<- <-]%lookup_singleton_Some]]%lookup_insert_Some; auto. Qed.
Lemma dgram_sessions : exists h, sm_hash_map (cw_sess dgram_world) = Some h /\
  map_rep (session_key (sm_objs (cw_sess dgram_world))) h dgram_live.
Proof.
  exists dgram_live. split; [vm_compute; reflexivity|]. split; [done|].
  intros k p [[-> ->]|[-> ->]]%live_cases; vm_compute; reflexivity.
Qed.

(** The message buffers of the connections. *)
Lemma two_held (m : gmap ptr IMtConnection) : map_to_list (cn_msg <$> m) = [(2, Some 2); (1, Some 1)]%positive ->
  forall c p, (exists y, m !! c = Some y /\ cn_msg y = Some p) -> p = c /\ (c = 2 \/ c = 1)%positive.
Proof.
  intros Hm c p (y & Ey & Ep). assert (Hin : (c, Some p) ∈ map_to_list (cn_msg <$> m)).
  { apply elem_of_map_to_list. by rewrite lookup_fmap, Ey, <- Ep. }
  pose proof (eq_ind _ (fun l => (c, Some p) ∈ l) Hin _ Hm) as Hl. apply elem_of_cons in Hl as [[= -> ->]|[[= -> ->]|Hn%elem_of_nil]%elem_of_cons]; [auto|auto|done].
Qed.
Lemma dgram_held c p : holds c p dgram_world -> p = c /\ (c = 2 \/ c = 1)%positive.
Proof. refine (two_held (cw_conns dgram_world) _ c p). vm_compute. reflexivity. Qed.

Lemma dgram_full : all_full (cw_pool dgram_world).
Proof.
  assert (Hl : Forall (fun kb => full kb.2) (map_to_list (bp_bufs (cw_pool dgram_world)))).
  { vm_compute. constructor; [eexists; split; reflexivity|constructor; [eexists; split; reflexivity|constructor]]. }
  intros p b Hb. apply elem_of_map_to_list in Hb. rewrite Forall_forall in Hl. exact (Hl _ Hb).
Qed.

Lemma dgram_ok : sess_ok (table_rep mbuf_hash) map_rep 1%positive 5 8 dgram_live [2; 1]%positive dgram_world.
Proof.
  split.
  - eexists. split; vm_compute; reflexivity.
  - eexists. split; [vm_compute; reflexivity|]. split; [vm_compute; reflexivity|]. intros p. discriminate.
  - destruct dgram_pool as (out & I & <-). exact I.
  - exact dgram_full.
  - exact dgram_sessions.
  - intros id a [[-> ->]|[-> ->]]%live_cases; eexists _, _, _, _, _.
    all: repeat (split; [vm_compute; reflexivity|]); eexists; vm_compute; reflexivity.
  - intros c p [-> [->| ->]]%dgram_held; set_solver.
  - intros c c' p [-> _]%dgram_held [? _]%dgram_held. congruence.
Qed.

Lemma InputNotify_demultiplexes_witness :
  exists w', UdpSession_InputNotify 1%positive dgram_world = Some w' /\ kernel w' = [[2; 70]] /\
    inbox 1%positive [1; 68; 69] w' /\ inbox 2%positive [2; 66; 67] w' /\
    UdpSessionConn_RecvData 1%positive w' = Some (3, w') /\ only_wakes dgram_world w'.
Proof.
  pose proof (InputNotify_demultiplexes (table_rep mbuf_hash) map_rep 1%positive 5 8 dgram_live [2; 1]%positive dgram_world dgram_ok) as H.
  assert (Ed : demux (S (ce_pending 5 (kernel dgram_world))) 1%positive 5 8 dgram_live dgram_world (kernel dgram_world) ∅ =
    ({[1%positive := [1; 68; 69]; 2%positive := [2; 66; 67]]}, [[2; 70]])) by (vm_compute; reflexivity).
  rewrite Ed in H. destruct H as (w' & out' & E & _ & K & Hin & _ & _ & Hw). exists w'. split; [exact E|]. split; [exact K|].
  destruct (Hin 1%positive [1; 68; 69]) as [I1 R1]; [reflexivity|]. destruct (Hin 2%positive [2; 66; 67]) as [I2 _]; [reflexivity|].
  do 3 (split; [assumption|]). exact Hw.
Defined.
