(* ===== verification/ConnKeep.v ===== *)
(** * Idle TCP connections: specification and invariant

    What [TcpKeepMgr] of [mt_connection.cpp] promises: a connection is lent to one user,
    or idle in the list of its address, or free in the pool.  Lists and pool are
    queues.  The invariant ties this to the objects: an idle connection has an open
    socket that epoll watches for it, and an armed timer. *)

From Stdlib Require Import ZArith Lia.
From stdpp Require Import base gmap list option fin_sets functions.
From S2P Require Import Prelude Bytes HashList KeyTable MtSession MbufPool Epoll ConnData ConnNtfy ConnOps.

(** ** Specification *)

Inductive kloc := KIdle (a : addr) | KUsed (a : addr) | KPooled.
Record kstate := mkKS { ks_loc : gmap ptr kloc; ks_idle : addr -> list ptr; ks_pool : list ptr }.

(** Each connection is where [ks_loc] says, once. *)
Record kwf (s : kstate) : Prop := {
  kw_idle a c : c ∈ ks_idle s a <-> ks_loc s !! c = Some (KIdle a);
  kw_pool c : c ∈ ks_pool s <-> ks_loc s !! c = Some KPooled;
  kw_idle_nodup a : NoDup (ks_idle s a);
  kw_pool_nodup : NoDup (ks_pool s);
}.

Definition lend c a s : kstate :=
  mkKS (<[c := KUsed a]> (ks_loc s)) (<[a := filter (.≠ c) (ks_idle s a)]> (ks_idle s)) (filter (.≠ c) (ks_pool s)).
Definition keep c a s : kstate :=
  mkKS (<[c := KIdle a]> (ks_loc s)) (<[a := ks_idle s a ++ [c]]> (ks_idle s)) (ks_pool s).
(** The pool takes [max] connections; one more is deleted. *)
Definition release (max : Z) c s : kstate :=
  if max <=? Z.of_nat (length (ks_pool s)) then mkKS (delete c (ks_loc s)) (ks_idle s) (ks_pool s)
  else mkKS (<[c := KPooled]> (ks_loc s)) (ks_idle s) (ks_pool s ++ [c]).

Lemma filter_out (c : ptr) (l : list ptr) : c ∉ l -> filter (.≠ c) l = l.
Proof.
  intros Hc. induction l as [|x l IH]; [done|]. rewrite filter_cons_True by set_solver. f_equal. apply IH. set_solver.
Qed.
Lemma filter_head (c : ptr) (l : list ptr) : NoDup (c :: l) -> filter (.≠ c) (c :: l) = l.
Proof. intros [Hc _]%list.NoDup_cons. rewrite filter_cons_False by (intros Hn; by apply Hn). by apply filter_out. Qed.

Section wf.
Implicit Types (s : kstate) (c : ptr) (a : addr).

Lemma idle_out s c a : kwf s -> ks_loc s !! c <> Some (KIdle a) -> c ∉ ks_idle s a.
Proof. intros W Hc Hin%(kw_idle _ W). done. Qed.
Lemma lend_wf s c a : kwf s -> (forall b, ks_loc s !! c = Some (KIdle b) -> b = a) -> kwf (lend c a s).
Proof.
  intros W Hc. split; cbn [lend ks_loc ks_idle ks_pool].
  - intros b d. destruct (decide (a = b)) as [<-|Hb]; [rewrite fn_lookup_insert|rewrite fn_lookup_insert_ne by done].
    + rewrite list_elem_of_filter, (kw_idle _ W), lookup_insert. case_decide; [subst; split; [by intros [[] _]|done]|].
      split; [by intros []|by intros ?; split; [intros ->|]].
    + rewrite (kw_idle _ W), lookup_insert. case_decide; [subst|done]. split; [|done]. intros E%Hc. done.
  - intros d. rewrite list_elem_of_filter, (kw_pool _ W), lookup_insert. case_decide; [subst; split; [by intros [[] _]|done]|].
    split; [by intros []|by intros ?; split; [intros ->|]].
  - intros b. destruct (decide (a = b)) as [<-|Hb]; [rewrite fn_lookup_insert|rewrite fn_lookup_insert_ne by done].
    + apply list.NoDup_filter, W.
    + apply W.
  - apply list.NoDup_filter, W.
Qed.
Lemma keep_wf s c a b : kwf s -> ks_loc s !! c = Some (KUsed b) -> kwf (keep c a s).
Proof.
  intros W Hc. split; cbn [keep ks_loc ks_idle ks_pool].
  - intros a' d. destruct (decide (a = a')) as [<-|Hb]; [rewrite fn_lookup_insert|rewrite fn_lookup_insert_ne by done].
    + rewrite elem_of_app, list_elem_of_singleton, (kw_idle _ W), lookup_insert. case_decide; [subst; by split; [|right]|].
      split; [by intros [?| ->]|by left].
    + rewrite (kw_idle _ W), lookup_insert. case_decide; [subst|done]. rewrite Hc. split; [done|]. by intros [= ->].
  - intros d. rewrite (kw_pool _ W), lookup_insert. case_decide; [subst|done]. by rewrite Hc.
  - intros a'. destruct (decide (a = a')) as [<-|Hb]; [rewrite fn_lookup_insert|rewrite fn_lookup_insert_ne by done]; [|apply W].
    apply list.NoDup_app. split; [apply W|]. split; [|apply NoDup_singleton]. intros d Hd ->%list_elem_of_singleton.
    apply (kw_idle _ W) in Hd. congruence.
  - apply W.
Qed.
Lemma release_wf s max c a : kwf s -> ks_loc s !! c = Some (KUsed a) -> kwf (release max c s).
Proof.
  intros W Hc. assert (Hp : c ∉ ks_pool s) by (intros Hin%(kw_pool _ W); congruence).
  assert (Hi : forall b, c ∉ ks_idle s b) by (intros b; apply idle_out; [done|congruence]).
  unfold release. case_match; split; cbn [ks_loc ks_idle ks_pool]; try apply W.
  - intros b d. destruct (decide (d = c)) as [->|Hdc].
    + rewrite lookup_delete_eq. split; [intros ?; by destruct (Hi b)|done].
    + rewrite lookup_delete_ne by done. apply W.
  - intros d. destruct (decide (d = c)) as [->|Hdc].
    + by rewrite lookup_delete_eq.
    + rewrite lookup_delete_ne by done. apply W.
  - intros b d. destruct (decide (d = c)) as [->|Hdc].
    + rewrite lookup_insert_eq. split; [intros ?; by destruct (Hi b)|done].
    + rewrite lookup_insert_ne by done. apply W.
  - intros d. rewrite elem_of_app, list_elem_of_singleton, (kw_pool _ W). destruct (decide (d = c)) as [->|Hdc].
    + rewrite lookup_insert_eq. tauto.
    + rewrite lookup_insert_ne by done. tauto.
  - apply list.NoDup_app. split; [apply W|]. split; [|apply NoDup_singleton]. by intros d Hx ->%list_elem_of_singleton.
Qed.
End wf.

(** [epoll_ctl] does not refuse, or with the error the callers forgive. *)
Definition ctl_accepts {E} `{!ConnEnv E} (k : E) (op : epoll_op) (fd ev : Z) : Prop := let '(_, rc, err) := ce_epoll_ctl k op fd ev in
  0 <= rc \/ op = EPOLL_CTL_ADD /\ err = EEXIST \/ op = EPOLL_CTL_DEL /\ err = ENOENT.

(** What the kernel promises: a new socket has a number in range that no open socket has;
    [epoll_ctl] closes nothing; [close] closes that descriptor. *)
Class KeepLaws {E} `{!ConnEnv E} (kopen : E -> Z -> Prop) (max : Z) : Prop := {
  kl_ctl_open k op fd ev fd' : kopen k fd' -> kopen (ce_epoll_ctl k op fd ev).1.1 fd';
  kl_socket ty k : let '(fd, k') := ce_socket ty k in
    (fd < 0 \/ 0 < fd < max /\ ~ kopen k fd /\ kopen k' fd) /\ forall fd', kopen k fd' -> kopen k' fd';
  kl_ioctl fd k fd' : kopen k fd' -> kopen (ce_ioctl fd k).2 fd';
  kl_close fd k : ~ kopen (ce_close fd k) fd /\ forall fd', fd' <> fd -> kopen k fd' -> kopen (ce_close fd k) fd';
}.

Section keep.
Context {EV TB TS TK : Type} `{!ConnEnv EV, !KeyTable Z TB, !KeyTable Z TS, !KeyTable addr TK, !ConnUser}.
Abbreviation ConnW := (ConnW EV TB TS TK).
Context (kopen : EV -> Z -> Prop) (max : Z) `{L : !KeepLaws kopen max}.
Context (krep : (ptr -> addr) -> TK -> gmap addr ptr -> Prop) `{!KeyTableLaws addr TK krep}.
Context (brep : (ptr -> Z) -> TB -> gmap Z ptr -> Prop) `{!KeyTableLaws Z TB brep}.
Implicit Types (w : ConnW) (s : kstate) (c o p : ptr) (a : addr).

(** ** Invariant *)

Definition sys w : EV := ep_kernel (cw_ep w).
Definition is_open w (fd : Z) : Prop := kopen (sys w) fd.
Definition ref w (fd : Z) : FdRef := fdref (cw_ep w) fd.
(** Nobody has registered the descriptor. *)
Definition clean w (fd : Z) : Prop := f_epobj (ref w fd) = None /\ f_events (ref w fd) = 0.
Definition no_user (y : IMtConnection) : Prop := cn_action y = None /\ cn_ntfy y = None /\ cn_msg y = None.

(** The embedded [_keep_ntfy] at [o] of connection [c], with its [EpollerObj]. *)
Record embedded c o (z : EpollerObj) w : Prop := {
  em_conn : cw_keepn w !! o = Some (Some c);
  em_ob : ob o w = Some z;
  em_proxy : cw_proxies w !! o = None;
  em_ntfy : cw_ntfys w !! o = None;
  em_events : eo_events z = 0 \/ eo_events z = EPOLLIN;
}.
(** What its place says about a connection. *)
Definition place_ok (l : kloc) (y : IMtConnection) (z : EpollerObj) w : Prop :=
  match l with
  | KIdle a => cn_dst y = a /\ bad_addr a = false /\ cn_keep_flag y = 3 /\ no_user y /\ 0 < cn_osfd y /\
      eo_events z = EPOLLIN /\ f_epobj (ref w (cn_osfd y)) = Some (cn_keep_ntfy y) /\ f_events (ref w (cn_osfd y)) = EPOLLIN
  | KUsed a => cn_dst y = a /\ cn_keep_flag y = 0
  | KPooled => cn_osfd y < 0 /\ cn_keep_flag y = 0 /\ no_user y
  end.
Definition conn_ok c (l : kloc) w : Prop := exists y z, conn c w = Some y /\ cn_type y = OBJ_TCP_KEEP /\
  embedded c (cn_keep_ntfy y) z w /\
  (0 <= cn_osfd y -> 0 < cn_osfd y < max /\ is_open w (cn_osfd y) /\ eo_fd z = cn_osfd y) /\ place_ok l y z w.

(** The table of the lists. *)
Definition lists_ok s w : Prop := exists M, krep (keep_key (cw_keys w)) (cw_hash w) M /\
  (forall a k, M !! a = Some k -> exists y, cw_keys w !! k = Some y /\ kk_addr y = a /\ kk_list y = ks_idle s a) /\
  (forall a, M !! a = None -> ks_idle s a = []) /\
  (forall k y, cw_keys w !! k = Some y -> M !! kk_addr y = Some k).

(** A proxy or a session object is an [EpollerObj], and so is a registered object. *)
Definition side_ok w : Prop := forall o, ob o w = None -> cw_proxies w !! o = None /\ cw_ntfys w !! o = None /\
  forall fd, f_epobj (ref w fd) <> Some o.

Record keep_inv s w : Prop := {
  ki_wf : kwf s;
  ki_lists : lists_ok s w;
  ki_max : ep_maxfd (cw_ep w) = max;
  ki_conn c l : ks_loc s !! c = Some l -> conn_ok c l w;
  ki_fds c c' y y' : is_Some (ks_loc s !! c) -> is_Some (ks_loc s !! c') -> conn c w = Some y -> conn c' w = Some y' ->
    0 <= cn_osfd y -> cn_osfd y = cn_osfd y' -> c = c';
  ki_armed c : c ∈ cw_armed w <-> exists a, ks_loc s !! c = Some (KIdle a);
  ki_pool : pp_list (cw_keeps w) = ks_pool s;
  ki_watch fd o : f_epobj (ref w fd) = Some o -> is_Some (cw_keepn w !! o) ->
    exists c a y, ks_loc s !! c = Some (KIdle a) /\ conn c w = Some y /\ cn_keep_ntfy y = o /\ cn_osfd y = fd;
  ki_keepn o x : cw_keepn w !! o = Some x -> exists c y, x = Some c /\ is_Some (ks_loc s !! c) /\ conn c w = Some y /\
    cn_keep_ntfy y = o;
  ki_side : side_ok w;
}.

(** ** Steps at one connection

    What a step at connection [c], with embedded object [o] and descriptor [fd], leaves
    alone: all others. *)
Record aside c o (fd : Z) w w' : Prop := {
  as_conns c' : c' <> c -> conn c' w' = conn c' w;
  as_obs o' : o' <> o -> is_Some (cw_keepn w !! o') -> cw_keepn w' !! o' = cw_keepn w !! o' /\ ob o' w' = ob o' w /\
    cw_proxies w' !! o' = cw_proxies w !! o' /\ cw_ntfys w' !! o' = cw_ntfys w !! o';
  as_new o' : o' <> o -> is_Some (cw_keepn w' !! o') -> is_Some (cw_keepn w !! o');
  as_refs fd' : fd' <> fd -> ref w' fd' = ref w fd';
  as_open fd' : fd' <> fd -> is_open w fd' -> is_open w' fd';
  as_max : ep_maxfd (cw_ep w') = ep_maxfd (cw_ep w);
}.
#[export] Instance aside_refl c o fd : Reflexive (aside c o fd).
Proof. by intros w. Qed.
#[export] Instance aside_trans c o fd : Transitive (aside c o fd).
Proof.
  intros w1 w2 w3 F G. split.
  - intros c' Hc. by rewrite (as_conns _ _ _ _ _ G), (as_conns _ _ _ _ _ F).
  - intros o' Ho Hk. destruct (as_obs _ _ _ _ _ F o' Ho Hk) as (E1 & E2 & E3 & E4).
    destruct (as_obs _ _ _ _ _ G o' Ho) as (G1 & G2 & G3 & G4); [by rewrite E1|]. by rewrite G1, G2, G3, G4.
  - intros o' Ho Hk. by apply (as_new _ _ _ _ _ F), (as_new _ _ _ _ _ G).
  - intros fd' Hf. by rewrite (as_refs _ _ _ _ _ G), (as_refs _ _ _ _ _ F).
  - intros fd' Hf Hk. by apply (as_open _ _ _ _ _ G), (as_open _ _ _ _ _ F).
  - by rewrite (as_max _ _ _ _ _ G), (as_max _ _ _ _ _ F).
Qed.

Lemma conn_ok_aside c o fd w w' d l : aside c o fd w w' -> d <> c -> conn_ok d l w ->
  (forall y, conn d w = Some y -> cn_keep_ntfy y <> o /\ (0 <= cn_osfd y -> cn_osfd y <> fd)) -> conn_ok d l w'.
Proof.
  intros F Hd (y & z & Ey & Hty & [M1 M2 M3 M4 M5] & Hfd & Hpl) Hy. destruct (Hy y Ey) as [Ho Hf].
  destruct (as_obs _ _ _ _ _ F _ Ho ltac:(by eexists)) as (E1 & E2 & E3 & E4).
  exists y, z. split; [by rewrite (as_conns _ _ _ _ _ F)|]. split; [done|].
  split; [split; [by rewrite E1|by rewrite E2|by rewrite E3|by rewrite E4|done]|]. split.
  - intros Hp. destruct (Hfd Hp) as (R & Hopen & Ez). split; [done|]. split; [|done]. apply (as_open _ _ _ _ _ F); auto.
  - destruct l; [|done..]. destruct Hpl as (P1 & P2 & P3 & P4 & P5 & P6 & P7 & P8).
    cbn [place_ok]. rewrite (as_refs _ _ _ _ _ F) by (apply Hf; lia). by split_and!.
Qed.

(** A step that moves one connection. *)
Lemma keep_inv_step s s' w w' c o fd : keep_inv s w -> aside c o fd w w' -> side_ok w' -> kwf s' -> lists_ok s' w' ->
  pp_list (cw_keeps w') = ks_pool s' ->
  (forall d, d <> c -> ks_loc s' !! d = ks_loc s !! d /\ (d ∈ cw_armed w' <-> d ∈ cw_armed w)) ->
  (c ∈ cw_armed w' <-> exists a, ks_loc s' !! c = Some (KIdle a)) ->
  (forall l, ks_loc s' !! c = Some l -> conn_ok c l w') ->
  (is_Some (ks_loc s !! c) -> exists y, conn c w = Some y /\ cn_keep_ntfy y = o /\ (0 <= cn_osfd y -> cn_osfd y = fd)) ->
  (ks_loc s !! c = None -> cw_keepn w !! o = None) ->
  (forall d y, d <> c -> is_Some (ks_loc s !! d) -> conn d w = Some y -> 0 <= cn_osfd y -> cn_osfd y <> fd) ->
  (forall y, is_Some (ks_loc s' !! c) -> conn c w' = Some y -> 0 <= cn_osfd y -> cn_osfd y = fd) ->
  (forall o', f_epobj (ref w' fd) = Some o' -> is_Some (cw_keepn w' !! o') ->
     exists a y, ks_loc s' !! c = Some (KIdle a) /\ conn c w' = Some y /\ cn_keep_ntfy y = o' /\ cn_osfd y = fd) ->
  (forall fd', fd' <> fd -> f_epobj (ref w' fd') <> Some o) ->
  cw_keepn w' !! o = None \/ is_Some (ks_loc s' !! c) /\ (exists y, conn c w' = Some y /\ cn_keep_ntfy y = o) ->
  keep_inv s' w'.
Proof.
  intros I F Sd Wf Ll Hp Hoth Harm Hc Hold Hnew Hfds Hfdc Hwfd Hwo Hkn.
  assert (Hd : forall d y, d <> c -> is_Some (ks_loc s !! d) -> conn d w = Some y -> cn_keep_ntfy y <> o).
  { intros d y Hd [l Hl] Ey Eo. destruct (ki_conn _ _ I _ _ Hl) as (y2 & z & Ey2 & _ & M & _). simplify_eq.
    pose proof (em_conn _ _ _ _ M) as M1. destruct (ks_loc s !! c) as [lc|] eqn:El; [|by rewrite Hnew in M1].
    destruct (Hold ltac:(done)) as (yc & Eyc & Eo & _). destruct (ki_conn _ _ I _ _ El) as (y3 & z3 & Ey3 & _ & M3 & _).
    simplify_eq. pose proof (em_conn _ _ _ _ M3). congruence. }
  assert (Hconn : forall d, d <> c -> conn d w' = conn d w) by (intros; by apply F).
  split; [done|done|by rewrite (as_max _ _ _ _ _ F); apply I| | | |done| | |done].
  - intros d l Hl. destruct (decide (d = c)) as [->|Hdc]; [by apply Hc|]. destruct (Hoth d Hdc) as [E _]. rewrite E in Hl.
    eapply conn_ok_aside; [done|done|by apply I|]. intros y Ey. split; [by eapply Hd|by eapply Hfds].
  - intros d d' y y' Hld Hld' Ey Ey' Hpos Eq. destruct (decide (d = c)) as [->|Hdc], (decide (d' = c)) as [->|Hdc']; [done| | |].
    + destruct (Hoth d' Hdc') as [E _]. rewrite E in Hld'. rewrite Hconn in Ey' by done.
      pose proof (Hfdc y Hld Ey Hpos). destruct (Hfds d' y' Hdc' Hld' Ey'); [lia|congruence].
    + destruct (Hoth d Hdc) as [E _]. rewrite E in Hld. rewrite Hconn in Ey by done.
      pose proof (Hfdc y' Hld' Ey' ltac:(lia)). destruct (Hfds d y Hdc Hld Ey); [lia|congruence].
    + destruct (Hoth d Hdc) as [E _], (Hoth d' Hdc') as [E' _]. rewrite E in Hld. rewrite E' in Hld'.
      rewrite Hconn in Ey, Ey' by done. by eapply (ki_fds _ _ I).
  - intros d. destruct (decide (d = c)) as [->|Hdc]; [done|]. destruct (Hoth d Hdc) as [-> ->]. apply I.
  - intros fd' o' Ef Hk. destruct (decide (fd' = fd)) as [->|Hne].
    { destruct (Hwfd o' Ef Hk) as (a & y & ? & ? & ? & ?). by exists c, a, y. }
    assert (o' <> o) by (intros ->; by apply (Hwo fd' Hne)).
    rewrite (as_refs _ _ _ _ _ F) in Ef by done. apply (as_new _ _ _ _ _ F) in Hk; [|done].
    destruct (ki_watch _ _ I _ _ Ef Hk) as (d & a & y & E1 & E2 & E3 & E4).
    assert (d <> c).
    { intros ->. destruct (Hold ltac:(by rewrite E1)) as (y2 & Ey2 & Eo2 & Hfd2). simplify_eq. }
    exists d, a, y. destruct (Hoth d) as [-> _]; [done|]. rewrite Hconn by done. done.
  - intros o' x Hx. destruct (decide (o' = o)) as [->|Ho].
    { destruct Hkn as [Hkn|([l Hl] & y & Ey & Eo)]; [congruence|]. destruct (Hc l Hl) as (y2 & z & Ey2 & _ & M & _). simplify_eq.
      rewrite (em_conn _ _ _ _ M) in Hx. injection Hx as <-. by exists c, y. }
    assert (Hx0 : is_Some (cw_keepn w !! o')) by (apply (as_new _ _ _ _ _ F); [done|by eexists]).
    destruct (as_obs _ _ _ _ _ F o' Ho Hx0) as (E & _). rewrite E in Hx. destruct (ki_keepn _ _ I _ _ Hx) as (d & y & -> & Hld & Ey & Eo).
    assert (d <> c) by (intros ->; destruct (Hold Hld) as (y2 & Ey2 & Eo2 & _); congruence).
    exists d, y. destruct (Hoth d) as [-> _]; [done|]. by rewrite Hconn.
Qed.
End keep.
