(* ===== verification/ConnKeepOps.v ===== *)
(** * Idle TCP connections: attaching, detaching and releasing

    What the steps of [TcpKeepMgr]'s operations do to one connection of [ConnKeep]. *)

From Stdlib Require Import ZArith Lia.
From stdpp Require Import base gmap list option fin_sets functions.
From S2P Require Import Prelude Bytes HashList KeyTable MtSession MbufPool Epoll ConnData ConnNtfy ConnOps ConnKeep.

Section ops.
Context {EV TB TS TK : Type} `{!ConnEnv EV, !KeyTable Z TB, !KeyTable Z TS, !KeyTable addr TK, !ConnUser}.
Abbreviation ConnW := (ConnW EV TB TS TK).
Context (kopen : EV -> Z -> Prop) (max : Z) `{L : !KeepLaws kopen max}.
Context (krep : (ptr -> addr) -> TK -> gmap addr ptr -> Prop) `{!KeyTableLaws addr TK krep}.
Context (brep : (ptr -> Z) -> TB -> gmap Z ptr -> Prop) `{!KeyTableLaws Z TB brep}.
Implicit Types (w : ConnW) (s : kstate) (c o p : ptr) (a : addr).
Abbreviation aside := (aside kopen).
Abbreviation is_open := (is_open kopen).

(** A step that also leaves the lists, the pools and all other objects alone. *)
Record inert c o (fd : Z) w w' : Prop := {
  in_aside : aside c o fd w w';
  in_keys : cw_keys w' = cw_keys w;
  in_hash : cw_hash w' = cw_hash w;
  in_keeps : cw_keeps w' = cw_keeps w;
  in_pool : cw_pool w' = cw_pool w;
  in_keepn : cw_keepn w' = cw_keepn w;
  in_proxies : cw_proxies w' = cw_proxies w;
  in_ntfys : cw_ntfys w' = cw_ntfys w;
  in_obs o' : o' <> o -> ob o' w' = ob o' w;
}.
#[export] Instance inert_refl c o fd : Reflexive (inert c o fd).
Proof. intros w. by split. Qed.
#[export] Instance inert_trans c o fd : Transitive (inert c o fd).
Proof.
  intros w1 w2 w3 [A1 B1 C1 D1 E1 F1 G1 H1 I1] [A2 B2 C2 D2 E2 F2 G2 H2 I2]. split; try congruence.
  - by etrans.
  - intros o' Ho. by rewrite I2, I1.
Qed.
Lemma embedded_after c o z z' w w' : embedded c o z w -> cw_keepn w' = cw_keepn w -> cw_proxies w' = cw_proxies w ->
  cw_ntfys w' = cw_ntfys w -> ob o w' = Some z' -> eo_events z' = 0 \/ eo_events z' = EPOLLIN -> embedded c o z' w'.
Proof. intros [] E1 E2 E3 E4 E5. split; [by rewrite E1|done|by rewrite E2|by rewrite E3|done]. Qed.

Lemma inert_side c o fd w w' : inert c o fd w w' -> is_Some (ob o w') ->
  f_epobj (ref w' fd) = None \/ f_epobj (ref w' fd) = Some o \/ ref w' fd = ref w fd -> side_ok w -> side_ok w'.
Proof.
  intros F [z Ez] Hr Hs o' Eo. rewrite (in_proxies _ _ _ _ _ F), (in_ntfys _ _ _ _ _ F).
  assert (Hne : o' <> o) by congruence. rewrite (in_obs _ _ _ _ _ F) in Eo by done. destruct (Hs o' Eo) as (E1 & E2 & E3).
  split; [done|]. split; [done|]. intros fd'. destruct (decide (fd' = fd)) as [->|Hf].
  - destruct Hr as [-> |[-> | ->]]; [done|congruence|apply E3].
  - by rewrite (as_refs _ _ _ _ _ _ (in_aside _ _ _ _ _ F)).
Qed.

(** Writing the connection, the embedded object, the timers. *)
Lemma inert_conn c o fd w y : inert c o fd w (set_conns (<[c := y]> (cw_conns w)) w).
Proof. split; try done. split; try done. intros c' Hc. unfold conn. by apply lookup_insert_ne. Qed.
Lemma inert_ob c o fd w z : inert c o fd w (set_ep (set_obj o z (cw_ep w)) w).
Proof.
  assert (Ho : forall o', o' <> o -> ob o' (set_ep (set_obj o z (cw_ep w)) w) = ob o' w) by (intros o' Ho; by apply lookup_insert_ne).
  split; try done. split; try done. intros o' Ho' _. by rewrite Ho.
Qed.
Lemma inert_armed c o fd w t : inert c o fd w (set_armed t w).
Proof. done. Qed.
Lemma inert_refs c o fd w r k : (forall fd', fd' <> fd -> is_open w fd' -> kopen k fd') ->
  inert c o fd w (set_ep (set_fdref fd r (set_kernel k (cw_ep w))) w).
Proof.
  intros Hk. split; try done. split; try done. intros fd' Hf. unfold ref. cbn [cw_ep set_ep]. rewrite fdref_set.
  by rewrite decide_False by done.
Qed.
Lemma inert_kernel c o fd w k : (forall fd', fd' <> fd -> is_open w fd' -> kopen k fd') -> inert c o fd w (set_ep (set_kernel k (cw_ep w)) w).
Proof. intros Hk. by split. Qed.

(** [EpollAddObj] and [EpollDelObj] of an embedded object. *)
Lemma AddObj_keep c o z w fd : embedded c o z w -> eo_fd z = fd -> eo_events z = EPOLLIN -> 0 <= fd < max ->
  ep_maxfd (cw_ep w) = max -> clean w fd -> is_open w fd -> ctl_accepts (sys w) EPOLL_CTL_ADD fd EPOLLIN ->
  exists w', AddObj o w = Some (true, w') /\ inert c o fd w w' /\
    cw_conns w' = cw_conns w /\ cw_armed w' = cw_armed w /\ ob o w' = Some z /\ is_open w' fd /\
    f_epobj (ref w' fd) = Some o /\ f_events (ref w' fd) = EPOLLIN.
Proof.
  intros [M1 M2 M3 M4 M5] Efd Ee Hr Hm [C1 C2] Ho Hok. unfold AddObj. rewrite M2. cbn [mbind option_bind]. rewrite Efd.
  assert (Hg : forall e : EpollState EV, ep_maxfd e = max -> FdRefGet e fd = Some (fdref e fd)).
  { intros e Em. unfold FdRefGet. rewrite Em. destruct (Z.leb_spec max fd); [lia|]. destruct (Z.ltb_spec fd 0); [lia|done]. }
  rewrite Hg by done. unfold ctl_add. rewrite M2. cbn [mbind option_bind]. rewrite M3, M4. unfold ep_do, EpollCtlAdd.
  assert (Hob : obj_of (cw_ep w) o = z) by (unfold obj_of; unfold ob in M2; by rewrite M2). rewrite Hob, Efd, Ee. change (fdref (cw_ep w) fd) with (ref w fd).
  unfold GetNotifyObj. rewrite C1. rewrite bool_decide_true by done. cbn [negb andb]. unfold EpollCtrlAdd.
  rewrite Hg by done. set (e1 := set_fdref fd _ _).
  assert (E1 : fdref e1 fd = SetNotifyObj (Some o) (ref w fd)) by (unfold e1; by rewrite fdref_set, decide_True).
  rewrite E1. cbn [AttachEvents GetListenEvents f_events SetNotifyObj f_wr_ref f_rd_ref f_revents f_epobj]. rewrite C2.
  cbn [Z.eqb Z.lor EPOLLIN]. change (ctl_accepts (ep_kernel e1) EPOLL_CTL_ADD fd 1) in Hok. unfold ctl_accepts in Hok.
  pose proof (kl_ctl_open (ep_kernel e1) EPOLL_CTL_ADD fd 1) as Hop.
  destruct (ce_epoll_ctl _ _ _ _) as [[k rc] er]. cbn [fst] in Hop.
  assert (Hb : (rc <? 0) && negb (bool_decide (EPOLL_CTL_ADD = EPOLL_CTL_ADD) && (er =? EEXIST)) = false).
  { rewrite bool_decide_true by done. destruct Hok as [H0|[[_ ->]|[? _]]]; [|by rewrite andb_false_r|done].
    destruct (Z.ltb_spec rc 0); [lia|done]. }
  rewrite Hb. cbn [negb Z.ltb Z.compare]. eexists. split; [reflexivity|].
  assert (Hrf : forall fd' (r r' : FdRef) (e : EpollState EV), fd' <> fd -> fdref (set_fdref fd r (set_kernel k (set_fdref fd r' e))) fd' = fdref e fd').
  { intros fd' r r' e Hf. rewrite fdref_set, decide_False by done. rewrite fdref_set_kernel, fdref_set, decide_False; done. }
  split; [split; try done; split; try done; [|intros fd' _; apply Hop]; intros fd' Hf; by apply Hrf|].
  do 2 (split; [done|]). split; [exact M2|]. split; [by apply Hop|]. unfold ref. cbn [cw_ep set_ep].
  by rewrite fdref_set, decide_True.
Qed.
Lemma DelObj_keep c o z w fd : embedded c o z w -> eo_fd z = fd -> eo_events z = EPOLLIN -> 0 <= fd < max ->
  ep_maxfd (cw_ep w) = max -> f_epobj (ref w fd) = Some o -> f_events (ref w fd) = EPOLLIN -> is_open w fd ->
  ctl_accepts (sys w) EPOLL_CTL_DEL fd 0 -> exists w', DelObj o w = Some (true, w') /\ inert c o fd w w' /\
    cw_conns w' = cw_conns w /\ cw_armed w' = cw_armed w /\ ob o w' = Some z /\ is_open w' fd /\ clean w' fd.
Proof.
  intros [M1 M2 M3 M4 M5] Efd Ee Hr Hm C1 C2 Ho Hok. unfold DelObj. rewrite M2. cbn [mbind option_bind]. rewrite Efd.
  assert (Hg : forall e : EpollState EV, ep_maxfd e = max -> FdRefGet e fd = Some (fdref e fd)).
  { intros e Em. unfold FdRefGet. rewrite Em. destruct (Z.leb_spec max fd); [lia|]. destruct (Z.ltb_spec fd 0); [lia|done]. }
  rewrite Hg by done. unfold ctl_del. rewrite M2. cbn [mbind option_bind]. rewrite M3, M4. unfold ep_do, EpollCtlDel.
  assert (Hob : obj_of (cw_ep w) o = z) by (unfold obj_of; unfold ob in M2; by rewrite M2). rewrite Hob, Efd, Ee. change (fdref (cw_ep w) fd) with (ref w fd).
  unfold GetNotifyObj. rewrite C1. rewrite bool_decide_true by done. cbn [negb]. unfold EpollCtrlDelRef.
  rewrite Hg by done. set (e1 := set_fdref fd _ _).
  assert (E1 : fdref e1 fd = SetNotifyObj None (ref w fd)) by (unfold e1; by rewrite fdref_set, decide_True).
  rewrite E1. cbn [DetachEvents GetListenEvents f_events SetNotifyObj f_wr_ref f_rd_ref f_revents f_epobj]. rewrite C2.
  change (clear_bits EPOLLIN EPOLLIN) with 0. cbn [Z.eqb EPOLLIN].
  change (ctl_accepts (ep_kernel e1) EPOLL_CTL_DEL fd 0) in Hok. unfold ctl_accepts in Hok.
  pose proof (kl_ctl_open (ep_kernel e1) EPOLL_CTL_DEL fd 0) as Hop.
  destruct (ce_epoll_ctl _ _ _ _) as [[k rc] er]. cbn [fst] in Hop.
  assert (Hb : (rc <? 0) && negb (bool_decide (EPOLL_CTL_DEL = EPOLL_CTL_DEL) && (er =? ENOENT)) = false).
  { rewrite bool_decide_true by done. destruct Hok as [H0|[[? _]|[_ ->]]]; [|done|by rewrite andb_false_r].
    destruct (Z.ltb_spec rc 0); [lia|done]. }
  rewrite Hb. cbn [negb Z.ltb Z.compare]. eexists. split; [reflexivity|].
  assert (Hrf : forall fd' (r r' : FdRef) (e : EpollState EV), fd' <> fd -> fdref (set_fdref fd r (set_kernel k (set_fdref fd r' e))) fd' = fdref e fd').
  { intros fd' r r' e Hf. rewrite fdref_set, decide_False by done. rewrite fdref_set_kernel, fdref_set, decide_False; done. }
  split; [split; try done; split; try done; [|intros fd' _; apply Hop]; intros fd' Hf; by apply Hrf|].
  do 2 (split; [done|]). split; [exact M2|]. split; [by apply Hop|]. unfold clean, ref. cbn [cw_ep set_ep].
  by rewrite fdref_set, decide_True.
Qed.

(** ** Attaching and detaching *)

Lemma watch_reading z : eo_events z = 0 \/ eo_events z = EPOLLIN -> eo_events (EnableInput (DisableOutput z)) = EPOLLIN.
Proof. unfold EnableInput, DisableOutput. cbn [eo_events]. by intros [-> | ->]. Qed.
Lemma upd_conn_some c y w f : conn c w = Some y -> upd_conn c f w = Some (set_conns (<[c := f y]> (cw_conns w)) w).
Proof. intros E. unfold upd_conn. by rewrite E. Qed.
Lemma upd_ob_some o z w f : ob o w = Some z -> upd_ob o f w = Some (set_ep (set_obj o (f z) (cw_ep w)) w).
Proof. intros E. unfold upd_ob. by rewrite E. Qed.
Lemma conn_set c y w : conn c (set_conns (<[c := y]> (cw_conns w)) w) = Some y.
Proof. apply lookup_insert_eq. Qed.
Lemma ob_set o z w : ob o (set_ep (set_obj o z (cw_ep w)) w) = Some z.
Proof. apply lookup_insert_eq. Qed.

(** The embedded object, once written. *)
Definition watcher z : EpollerObj := EnableInput (DisableOutput z).
Lemma watch_keep c o z w : embedded c o z w -> exists w', upd_ob o (fun y => EnableInput (DisableOutput y)) w = Some w' /\
  embedded c o (watcher z) w' /\ (forall fd, inert c o fd w w') /\ cw_conns w' = cw_conns w /\ cw_armed w' = cw_armed w /\
  (forall fd, ref w' fd = ref w fd) /\ sys w' = sys w.
Proof.
  intros M. rewrite (upd_ob_some _ _ _ _ (em_ob _ _ _ _ M)). eexists. split; [reflexivity|]. split.
  { eapply embedded_after; [exact M|done..|apply ob_set|]. right. by apply watch_reading, M. }
  split; [intros fd; apply inert_ob|done].
Qed.

Lemma IdleAttach_keep c o z y w fd : conn c w = Some y -> cn_keep_ntfy y = o -> cn_osfd y = fd -> 0 < fd < max ->
  ep_maxfd (cw_ep w) = max -> cn_keep_flag y = 0 -> embedded c o z w -> eo_fd z = fd -> clean w fd -> is_open w fd ->
  c ∉ cw_armed w -> (timer_room (cw_armed w) = true -> ctl_accepts (sys w) EPOLL_CTL_ADD fd EPOLLIN) ->
  exists w', IdleAttach c w = Some (timer_room (cw_armed w), w') /\ inert c o fd w w' /\
    embedded c o (watcher z) w' /\ is_open w' fd /\
    if timer_room (cw_armed w) then conn c w' = Some (set_keep_flag TCP_KEEP_IN_EPOLL y) /\ cw_armed w' = {[c]} ∪ cw_armed w /\
      f_epobj (ref w' fd) = Some o /\ f_events (ref w' fd) = EPOLLIN
    else conn c w' = Some y /\ cw_armed w' = cw_armed w /\ clean w' fd.
Proof.
  intros Ey Eo Ef Hr Hm Hfl M Ez Hc Hop Ha Hk. unfold IdleAttach. rewrite Ey. cbn [mbind option_bind]. rewrite Ef, Hfl, Eo.
  destruct (Z.ltb_spec fd 0); [lia|]. change (has 0 TCP_KEEP_IN_EPOLL) with false. cbn iota.
  destruct (watch_keep c o z w M) as (w1 & -> & M1 & Hin & Ec1 & Ea1 & Er1 & Es1). cbn [mbind option_bind].
  unfold start_timer. rewrite Ea1, bool_decide_false by done. cbn [orb]. destruct (timer_room (cw_armed w)) eqn:Et; cbn [negb].
  - set (w2 := set_armed _ w1). assert (M2 : embedded c o (watcher z) w2) by (by destruct M1).
    assert (Hin2 : inert c o fd w w2) by (etrans; [apply Hin|by apply inert_armed]).
    destruct (AddObj_keep c o (watcher z) w2 fd M2) as (w3 & -> & Hin3 & Ec3 & Ea3 & Eo3 & Hop3 & Ep3 & Ev3);
      [done|by apply watch_reading, M|lia|by rewrite (as_max _ _ _ _ _ _ (in_aside _ _ _ _ _ Hin2))|
       unfold clean; change (ref w2 fd) with (ref w1 fd); by rewrite Er1|
       unfold ConnKeep.is_open; change (sys w2) with (sys w1); by rewrite Es1|change (sys w2) with (sys w1); rewrite Es1; by apply Hk|].
    cbn [mbind option_bind]. assert (Ey3 : conn c w3 = Some y).
    { unfold conn in *. rewrite Ec3. change (cw_conns w2) with (cw_conns w1). by rewrite Ec1. }
    rewrite (upd_conn_some _ _ _ _ Ey3). cbn [mbind option_bind]. eexists. split; [reflexivity|]. rewrite Hfl.
    split; [etrans; [exact Hin2|]; etrans; [exact Hin3|apply inert_conn]|]. split; [|split; [done|]].
    + eapply embedded_after; [exact M2|apply Hin3..|exact Eo3|apply M2].
    + split; [apply conn_set|]. split; [|done]. cbn [cw_armed set_conns]. by rewrite Ea3.
  - exists w1. split; [done|]. split; [apply Hin|]. split; [done|]. unfold ConnKeep.is_open. rewrite Es1. split; [done|].
    unfold conn in *. rewrite Ec1. split; [done|]. split; [done|]. unfold clean. by rewrite Er1.
Qed.

Lemma IdleDetach_keep c o z y w fd : conn c w = Some y -> cn_keep_ntfy y = o -> cn_osfd y = fd -> 0 < fd < max ->
  ep_maxfd (cw_ep w) = max -> has (cn_keep_flag y) TCP_KEEP_IN_EPOLL = true -> embedded c o z w -> eo_fd z = fd ->
  f_epobj (ref w fd) = Some o -> f_events (ref w fd) = EPOLLIN -> is_open w fd -> ctl_accepts (sys w) EPOLL_CTL_DEL fd 0 ->
  exists w', IdleDetach c w = Some (true, w') /\ inert c o fd w w' /\ embedded c o (watcher z) w' /\ is_open w' fd /\ clean w' fd /\
    conn c w' = Some (set_keep_flag (clear_bits (cn_keep_flag y) TCP_KEEP_IN_EPOLL) y) /\ cw_armed w' = cw_armed w ∖ {[c]}.
Proof.
  intros Ey Eo Ef Hr Hm Hfl M Ez Hp Hv Hop Hk. unfold IdleDetach. rewrite Ey. cbn [mbind option_bind]. rewrite Ef, Hfl, Eo.
  destruct (Z.ltb_spec fd 0); [lia|]. cbn [negb].
  destruct (watch_keep c o z w M) as (w1 & -> & M1 & Hin & Ec1 & Ea1 & Er1 & Es1). cbn [mbind option_bind].
  set (w2 := stop_timer c w1). assert (M2 : embedded c o (watcher z) w2) by (by destruct M1).
  assert (Hin2 : inert c o fd w w2) by (etrans; [apply Hin|by apply inert_armed]).
  destruct (DelObj_keep c o (watcher z) w2 fd M2) as (w3 & -> & Hin3 & Ec3 & Ea3 & Eo3 & Hop3 & Hcl);
    [done|by apply watch_reading, M|lia|by rewrite (as_max _ _ _ _ _ _ (in_aside _ _ _ _ _ Hin2))|
     change (ref w2 fd) with (ref w1 fd); by rewrite Er1|change (ref w2 fd) with (ref w1 fd); by rewrite Er1|
     unfold ConnKeep.is_open; change (sys w2) with (sys w1); by rewrite Es1|change (sys w2) with (sys w1); by rewrite Es1|].
  cbn [mbind option_bind]. assert (Ey3 : conn c w3 = Some y).
  { unfold conn in *. rewrite Ec3. change (cw_conns w2) with (cw_conns w1). by rewrite Ec1. }
  rewrite (upd_conn_some _ _ _ _ Ey3). cbn [mbind option_bind]. eexists. split; [reflexivity|].
  split; [etrans; [exact Hin2|]; etrans; [exact Hin3|apply inert_conn]|]. split; [|split; [done|split; [done|]]].
  - eapply embedded_after; [exact M2|apply Hin3..|exact Eo3|apply M2].
  - split; [apply conn_set|]. cbn [cw_armed set_conns]. rewrite Ea3. unfold w2, stop_timer. cbn [cw_armed set_armed]. by rewrite Ea1.
Qed.

(** ** Giving back what a user had *)

Definition user_ok (y : IMtConnection) w : Prop :=
  (forall o, cn_ntfy y = Some o -> exists z, ob o w = Some z /\ eo_type z = NTFY_OBJ_UNDEF /\ cw_keepn w !! o = None /\
     cw_proxies w !! o = None /\ cw_ntfys w !! o = None /\ forall fd, f_epobj (ref w fd) <> Some o) /\
  (forall p, cn_msg y = Some p -> exists out, pool_inv brep (cw_pool w) out /\ p ∈ out).
Lemma user_none y w : no_user y -> user_ok y w.
Proof. intros (_ & E1 & E2). split; intros ?; congruence. Qed.

Lemma user_after c o z fd y y' w w' : user_ok y w -> embedded c o z w -> inert c o fd w w' ->
  f_epobj (ref w' fd) = None \/ f_epobj (ref w' fd) = Some o \/ ref w' fd = ref w fd -> cn_ntfy y' = cn_ntfy y ->
  cn_msg y' = cn_msg y -> user_ok y' w'.
Proof.
  intros [Hn Hm] M F Hr E1 E2. split; rewrite ?E1, ?E2.
  - intros o2 (z2 & Eo & Et & Ek & Ep & Ent & Er)%Hn. exists z2.
    assert (Hne : o2 <> o) by (intros ->; by rewrite (em_conn _ _ _ _ M) in Ek).
    rewrite (in_keepn _ _ _ _ _ F), (in_proxies _ _ _ _ _ F), (in_ntfys _ _ _ _ _ F), (in_obs _ _ _ _ _ F) by done.
    do 5 (split; [done|]). intros fd'. destruct (decide (fd' = fd)) as [->|Hf].
    + destruct Hr as [-> |[-> | ->]]; [done|congruence|apply Er].
    + by rewrite (as_refs _ _ _ _ _ _ (in_aside _ _ _ _ _ F)).
  - intros p. rewrite (in_pool _ _ _ _ _ F). apply Hm.
Qed.

(** What that leaves alone. *)
Record calm c w w' : Prop := {
  cm_conns c' : c' <> c -> conn c' w' = conn c' w;
  cm_obs o : is_Some (cw_keepn w !! o) -> ob o w' = ob o w /\ cw_proxies w' !! o = cw_proxies w !! o /\ cw_ntfys w' !! o = cw_ntfys w !! o;
  cm_refs : ep_refs (cw_ep w') = ep_refs (cw_ep w);
  cm_sys : sys w' = sys w;
  cm_max : ep_maxfd (cw_ep w') = ep_maxfd (cw_ep w);
  cm_keepn : cw_keepn w' = cw_keepn w;
  cm_keys : cw_keys w' = cw_keys w;
  cm_hash : cw_hash w' = cw_hash w;
  cm_keeps : cw_keeps w' = cw_keeps w;
  cm_armed : cw_armed w' = cw_armed w;
  cm_side : side_ok w -> side_ok w';
}.
#[export] Instance calm_trans c : Transitive (calm c).
Proof.
  intros w1 w2 w3 F G. split; try (etrans; [by apply G|by apply F]).
  - intros o Ho. destruct (cm_obs _ _ _ F o Ho) as (E1 & E2 & E3). destruct (cm_obs _ _ _ G o) as (G1 & G2 & G3).
    + by rewrite (cm_keepn _ _ _ F).
    + by rewrite G1, G2, G3.
  - intros Hs. by apply G, F.
Qed.
Lemma calm_conn c w y : calm c w (set_conns (<[c := y]> (cw_conns w)) w).
Proof. split; try done. intros c' Hc. unfold conn. by apply lookup_insert_ne. Qed.
Lemma calm_aside c o fd w w' : calm c w w' -> aside c o fd w w'.
Proof.
  intros F. split; [apply F| | | | |apply F].
  - intros o' _ Ho. split; [by rewrite (cm_keepn _ _ _ F)|by apply F].
  - intros o' _. by rewrite (cm_keepn _ _ _ F).
  - intros fd' _. unfold ref, fdref. by rewrite (cm_refs _ _ _ F).
  - intros fd' _. unfold ConnKeep.is_open. by rewrite (cm_sys _ _ _ F).
Qed.
Lemma calm_embedded c d o z w w' : calm c w w' -> embedded d o z w -> embedded d o z w'.
Proof.
  intros F [M1 M2 M3 M4 M5]. destruct (cm_obs _ _ _ F o ltac:(by eexists)) as (E1 & E2 & E3).
  split; [by rewrite (cm_keepn _ _ _ F)|by rewrite E1|by rewrite E2|by rewrite E3|done].
Qed.

Lemma FreeNtfyObj_calm c o z w : ob o w = Some z -> eo_type z = NTFY_OBJ_UNDEF -> cw_keepn w !! o = None ->
  cw_proxies w !! o = None -> cw_ntfys w !! o = None -> (forall fd, f_epobj (ref w fd) <> Some o) ->
  exists w', FreeNtfyObj (Some o) w = Some w' /\ calm c w w' /\ cw_conns w' = cw_conns w /\ cw_pool w' = cw_pool w.
Proof.
  intros Eo Et Hk Hp Hn Hrg. unfold FreeNtfyObj. rewrite Eo. cbn [mbind option_bind]. unfold reset_ob. rewrite (upd_ob_some _ _ _ _ Eo).
  cbn [mbind option_bind]. rewrite Et. cbn [Z.eqb NTFY_OBJ_UNDEF NTFY_OBJ_THREAD NTFY_OBJ_SESSION]. set (w1 := set_ep _ w).
  change (cw_proxies w1) with (cw_proxies w). rewrite Hp. cbn [mbind option_bind]. unfold delete_ob, w1. rewrite ob_set. cbn [mbind option_bind].
  eexists. split; [reflexivity|]. split; [|done].
  assert (Hob : forall o', o' <> o -> delete o (<[o := EpollerObj_Reset z]> (ep_objs (cw_ep w))) !! o' = ep_objs (cw_ep w) !! o').
  { intros o' Ho. by rewrite lookup_delete_ne, lookup_insert_ne by done. }
  split; try done.
  - intros o' [x Hx]. assert (o' <> o) by (intros ->; congruence). split; [by apply Hob|]. split; [|done]. cbn. by apply lookup_delete_ne.
  - intros Hs o' Eo'. cbn. destruct (decide (o' = o)) as [->|Ho]; [by rewrite lookup_delete_eq|]. rewrite lookup_delete_ne by done.
    apply (Hs o'). unfold ob. rewrite <- Hob by done. exact Eo'.
Qed.

Definition freed (y : IMtConnection) : IMtConnection := set_msg None (set_ntfy None (set_action None y)).
Lemma free_ntfy_msg_calm c y w : conn c w = Some y -> user_ok y w -> exists w', free_ntfy_msg c w = Some w' /\ calm c w w' /\
  conn c w' = Some (set_msg None (set_ntfy None y)).
Proof.
  intros Ey [Hn Hm]. unfold free_ntfy_msg. rewrite Ey. cbn [mbind option_bind].
  assert (H1 : exists w1, (match cn_ntfy y with Some o => w ← FreeNtfyObj (Some o) w; upd_conn c (set_ntfy None) w | None => Some w end) = Some w1 /\
    calm c w w1 /\ conn c w1 = Some (set_ntfy None y) /\ cw_pool w1 = cw_pool w).
  { destruct (cn_ntfy y) as [o|] eqn:En.
    - destruct (Hn o eq_refl) as (z & Eo & Et & Hk & Hpx & Hnt & Hrg).
      destruct (FreeNtfyObj_calm c o z w Eo Et Hk Hpx Hnt Hrg) as (w1 & -> & F & Ec & Ep).
      cbn [mbind option_bind]. assert (Ey1 : conn c w1 = Some y) by (unfold conn; by rewrite Ec).
      rewrite (upd_conn_some _ _ _ _ Ey1). eexists. split; [reflexivity|]. split; [etrans; [exact F|apply calm_conn]|].
      split; [apply conn_set|done].
    - exists w. split; [done|]. split; [done|]. split; [|done]. rewrite Ey. f_equal. destruct y. cbn in *. by subst. }
  destruct H1 as (w1 & -> & F1 & Ey1 & Ep1). cbn [mbind option_bind]. destruct (cn_msg y) as [p|] eqn:Em.
  - destruct (Hm p eq_refl) as (out & I & Hp). unfold free_mbuf. rewrite Ep1.
    destruct (FreeMsgBuf_ok malloc brep (cw_pool w) out p I Hp) as (b & -> & _). cbn [mbind option_bind]. set (w2 := set_mbufs b w1).
    change (conn c w1) with (conn c w2) in Ey1. rewrite (upd_conn_some _ _ _ _ Ey1). eexists. split; [reflexivity|].
    split; [etrans; [exact F1|]; etrans; [|apply calm_conn]; done|apply conn_set].
  - exists w1. split; [done|]. split; [done|]. rewrite Ey1. f_equal. destruct y. cbn in *. by subst.
Qed.
Lemma Reset_calm c y w : conn c w = Some y -> user_ok y w -> exists w', IMtConnection_Reset c w = Some w' /\ calm c w w' /\
  conn c w' = Some (freed y).
Proof.
  intros Ey Hu. unfold IMtConnection_Reset. destruct (free_ntfy_msg_calm c y w Ey Hu) as (w1 & -> & F & Ey1).
  cbn [mbind option_bind]. rewrite (upd_conn_some _ _ _ _ Ey1). eexists. split; [reflexivity|].
  split; [etrans; [exact F|apply calm_conn]|]. apply conn_set.
Qed.

(** ** Closing and releasing *)

(** [TcpKeepConn::Reset] closes the socket. *)
Lemma TcpKeep_Reset_keep c o z y w : conn c w = Some y -> cn_keep_ntfy y = o -> embedded c o z w -> user_ok y w ->
  exists w' y' z', TcpKeep_Reset c w = Some w' /\ aside c o (cn_osfd y) w w' /\ conn c w' = Some y' /\
    cn_type y' = cn_type y /\ cn_keep_ntfy y' = o /\ cn_osfd y' < 0 /\ cn_keep_flag y' = cn_keep_flag y /\ no_user y' /\
    embedded c o z' w' /\ (0 <= cn_osfd y -> ~ is_open w' (cn_osfd y)) /\ ref w' (cn_osfd y) = ref w (cn_osfd y) /\
    cw_keys w' = cw_keys w /\ cw_hash w' = cw_hash w /\ cw_keeps w' = cw_keeps w /\ cw_armed w' = cw_armed w /\
    (side_ok w -> side_ok w').
Proof.
  intros Ey Eo M Hu. unfold TcpKeep_Reset. rewrite (upd_conn_some _ _ _ _ Ey). cbn [mbind option_bind]. set (w1 := set_conns _ w).
  set (y1 := set_dst no_addr y). assert (Ey1 : conn c w1 = Some y1) by apply conn_set.
  assert (A1 : aside c o (cn_osfd y) w w1) by (apply (inert_conn c o)).
  unfold TcpKeep_CloseSocket. rewrite Ey1. cbn [mbind option_bind]. change (cn_osfd y1) with (cn_osfd y).
  change (cn_keep_ntfy y1) with (cn_keep_ntfy y). rewrite Eo. destruct (Z.ltb_spec (cn_osfd y) 0) as [Hlt|Hge].
  - cbn [mbind option_bind]. destruct (Reset_calm c y1 w1 Ey1) as (w2 & -> & F & Ey2); [by destruct Hu|].
    exists w2, (freed y1), z. split; [done|]. split; [etrans; [exact A1|by apply calm_aside]|]. split; [done|].
    do 3 (split; [done|]). split; [done|]. split; [done|]. split; [apply (calm_embedded _ _ _ _ _ _ F); by destruct M|].
    split; [lia|]. unfold ref, fdref. rewrite (cm_refs _ _ _ F). split; [done|]. do 4 (split; [apply F|]). intros Hs. by apply F.
  - assert (M1 : embedded c o z w1) by (by destruct M). rewrite (upd_ob_some _ _ _ _ (em_ob _ _ _ _ M1)).
    cbn [mbind option_bind]. set (w2 := set_ep _ w1). set (w3 := k_close _ w2).
    assert (Ey3 : conn c w3 = Some y1) by exact Ey1. rewrite (upd_conn_some _ _ _ _ Ey3). cbn [mbind option_bind]. set (w4 := set_conns _ w3).
    assert (M4 : embedded c o (SetOsfd (-1) z) w4).
    { eapply embedded_after; [exact M|done..|apply ob_set|]. apply M. }
    destruct (kl_close (cn_osfd y) (sys w2)) as [Hcl Hkeep].
    assert (A4 : inert c o (cn_osfd y) w w4).
    { etrans; [apply (inert_conn c o)|]. etrans; [apply (inert_ob c o _ w1 (SetOsfd (-1) z))|].
      etrans; [apply (inert_kernel c o (cn_osfd y) w2 (ce_close (cn_osfd y) (sys w2))), Hkeep|]. apply (inert_conn c o). }
    destruct (Reset_calm c (set_osfd (-1) y1) w4) as (w5 & -> & F & Ey5); [apply conn_set|eapply user_after; [exact Hu|exact M|exact A4|by right; right|done..]|].
    exists w5, (freed (set_osfd (-1) y1)), (SetOsfd (-1) z). split; [done|]. split; [etrans; [apply A4|by apply calm_aside]|].
    split; [done|]. do 2 (split; [done|]). split; [cbn; lia|]. do 2 (split; [done|]).
    split; [by apply (calm_embedded _ _ _ _ _ _ F)|]. split; [intros _; unfold ConnKeep.is_open; by rewrite (cm_sys _ _ _ F)|].
    unfold ref, fdref. rewrite (cm_refs _ _ _ F). split; [done|]. do 4 (split; [apply F|]). intros Hs. apply F.
    apply (inert_side _ _ _ _ _ A4); [eexists; apply M4|by right; right|done].
Qed.

(** [FreePtr] of a connection that has nothing any more. *)
Lemma free_conn_keep c o z y w : conn c w = Some y -> cn_keep_ntfy y = o -> cn_type y = OBJ_TCP_KEEP -> cn_osfd y < 0 -> no_user y ->
  embedded c o z w -> (forall fd, f_epobj (ref w fd) <> Some o) -> exists w', free_conn c (cw_keeps w) set_keeps w = Some w' /\ (forall fd, aside c o fd w w') /\
    sys w' = sys w /\ (forall fd, ref w' fd = ref w fd) /\ cw_keys w' = cw_keys w /\ cw_hash w' = cw_hash w /\ cw_armed w' = cw_armed w /\
    (side_ok w -> side_ok w') /\
    if pp_max (cw_keeps w) <=? Z.of_nat (length (pp_list (cw_keeps w)))
    then conn c w' = None /\ cw_keepn w' !! o = None /\ pp_list (cw_keeps w') = pp_list (cw_keeps w)
    else conn c w' = Some y /\ embedded c o z w' /\ pp_list (cw_keeps w') = pp_list (cw_keeps w) ++ [c].
Proof.
  intros Ey Eo Hty Hfd (_ & Hn & Hm) M Hrg. unfold free_conn, FreePtr. destruct (pp_max (cw_keeps w) <=? _).
  - unfold delete_conn. rewrite Ey. cbn [mbind option_bind]. rewrite Hty. cbn [Z.eqb Pos.eqb OBJ_TCP_KEEP].
    unfold TcpKeep_CloseSocket. rewrite Ey. cbn [mbind option_bind]. destruct (Z.ltb_spec (cn_osfd y) 0); [|lia]. cbn [mbind option_bind].
    unfold free_ntfy_msg. rewrite Ey. cbn [mbind option_bind]. rewrite Hn, Hm. cbn [mbind option_bind]. rewrite Eo. unfold delete_ob.
    rewrite (em_ob _ _ _ _ M). cbn [mbind option_bind]. eexists. split; [reflexivity|]. split.
    { intros fd. split; try done.
      - intros c' Hc. unfold conn. cbn. by rewrite lookup_delete_ne.
      - intros o' Ho _. unfold ob. cbn. by rewrite !lookup_delete_ne.
      - intros o' Ho. cbn. by rewrite lookup_delete_ne. }
    do 5 (split; [done|]). split; [|unfold conn; cbn; by rewrite !lookup_delete_eq].
    intros Hs o'. unfold ob. cbn. destruct (decide (o' = o)) as [->|Ho].
    { intros _. rewrite lookup_delete_eq. split; [done|]. split; [apply M|]. exact Hrg. }
    rewrite !lookup_delete_ne by done. apply Hs.
  - eexists. split; [reflexivity|]. split; [done|]. do 5 (split; [done|]). split; [done|]. split; [done|]. split; [by destruct M|]. done.
Qed.
End ops.
