(* ===== verification/ConnKeepRun.v ===== *)
(** * Idle TCP connections: the operations

    [TcpKeepMgr] does what [ConnKeep] specifies, in any sequence of calls, timers and
    events, whatever the users of connections do in between. *)

From Stdlib Require Import ZArith Lia.
From stdpp Require Import base gmap list option fin_sets functions.
From S2P Require Import Prelude Bytes HashList KeyTable MtSession MbufPool Epoll ConnData ConnNtfy ConnOps ConnKeep ConnKeepOps.

Section run.
Context {EV TB TS TK : Type} `{!ConnEnv EV, !KeyTable Z TB, !KeyTable Z TS, !KeyTable addr TK, !ConnUser}.
Abbreviation ConnW := (ConnW EV TB TS TK).
Context (kopen : EV -> Z -> Prop) (max : Z) `{L : !KeepLaws kopen max}.
Context (krep : (ptr -> addr) -> TK -> gmap addr ptr -> Prop) `{!KeyTableLaws addr TK krep}.
Context (brep : (ptr -> Z) -> TB -> gmap Z ptr -> Prop) `{!KeyTableLaws Z TB brep}.
Implicit Types (w : ConnW) (s : kstate) (c o p : ptr) (a : addr).
Abbreviation aside := (aside kopen).
Abbreviation inert := (inert kopen).
Abbreviation is_open := (is_open kopen).
Abbreviation keep_inv := (keep_inv kopen max krep).
Abbreviation conn_ok := (conn_ok kopen max).
Abbreviation lists_ok := (lists_ok krep).

(** ** Lists *)

Lemma lists_same s s' w w' : lists_ok s w -> (forall a, ks_idle s' a = ks_idle s a) -> cw_keys w' = cw_keys w ->
  cw_hash w' = cw_hash w -> lists_ok s' w'.
Proof.
  intros (M & R & H1 & H2 & H3) Hi Ek Eh. exists M. rewrite Ek, Eh. split; [done|]. split; [|split; [|done]].
  - intros a k Ea. destruct (H1 a k Ea) as (y & ? & ? & E). exists y. by rewrite Hi.
  - intros a Ea. rewrite Hi. by apply H2.
Qed.
Lemma lists_set s s' w w' k q l a : lists_ok s w -> cw_keys w !! k = Some q -> kk_addr q = a ->
  cw_keys w' = <[k := set_keep_list l q]> (cw_keys w) -> cw_hash w' = cw_hash w -> ks_idle s' = <[a := l]> (ks_idle s) -> lists_ok s' w'.
Proof.
  intros (M & R & H1 & H2 & H3) Ek Ea Ek' Eh Ei. exists M. rewrite Ek', Eh, Ei.
  assert (Hkey : forall k', keep_key (<[k := set_keep_list l q]> (cw_keys w)) k' = keep_key (cw_keys w) k').
  { intros k'. unfold keep_key. rewrite lookup_insert. case_decide; [subst|done]. by rewrite Ek. }
  split; [eapply kt_agree; [exact R|]; intros ? ? _; apply Hkey|]. split; [|split].
  - intros b k' Eb. destruct (decide (k = k')) as [<-|Hk].
    + destruct (H1 b k Eb) as (y & Ey & Eyb & _). simplify_eq. exists (set_keep_list l q). rewrite lookup_insert_eq.
      split; [done|]. split; [done|]. by rewrite fn_lookup_insert.
    + destruct (H1 b k' Eb) as (y & Ey & <- & El). exists y. rewrite lookup_insert_ne by done. do 2 (split; [done|]).
      rewrite fn_lookup_insert_ne; [done|]. intros E. apply H3 in Ek. rewrite Ea, E in Ek. congruence.
  - intros b Eb. rewrite fn_lookup_insert_ne; [by apply H2|]. intros <-. apply H3 in Ek. congruence.
  - intros k' y. rewrite lookup_insert. case_decide; [subst; intros [= <-]; exact (H3 _ _ Ek)|]. apply H3.
Qed.
Lemma find_keep_ok s w a : lists_ok s w -> exists r, find_keep a w = Some r /\
  match r with Some k => exists q, cw_keys w !! k = Some q /\ kk_addr q = a /\ kk_list q = ks_idle s a | None => ks_idle s a = [] end.
Proof.
  intros (M & R & H1 & H2 & H3). unfold find_keep. rewrite (kt_find_ok _ _ _ a R). eexists. split; [done|].
  destruct (M !! a) as [k|] eqn:E; [by apply H1|by apply H2].
Qed.
(** A new list for an address that has none. *)
Lemma new_list_ok s w a : lists_ok s w -> find_keep a w = Some None ->
  let k : ptr := fresh (dom (cw_keys w) : gset ptr) in
  let w1 := set_keys (<[k := mkKeepKey a []]> (cw_keys w)) w in
  let w2 := set_keep_hash (kt_insert (keep_key (cw_keys w1)) (cw_hash w1) k).2 w1 in lists_ok s w2.
Proof.
  intros (M & R & H1 & H2 & H3) Hf k w1 w2. unfold find_keep in Hf. rewrite (kt_find_ok _ _ _ a R) in Hf. injection Hf as Ha.
  assert (Hk : cw_keys w !! k = None) by (apply not_elem_of_dom, is_fresh).
  assert (Hkey : forall k', k' <> k -> keep_key (cw_keys w1) k' = keep_key (cw_keys w) k').
  { intros k' Hk'. unfold keep_key. cbn [cw_keys w1 set_keys]. by rewrite lookup_insert_ne by done. }
  assert (Hkk : keep_key (cw_keys w1) k = a) by (unfold keep_key; cbn [cw_keys w1 set_keys]; by rewrite lookup_insert_eq).
  assert (R1 : krep (keep_key (cw_keys w1)) (cw_hash w1) M).
  { eapply kt_agree; [exact R|]. intros b k' Hb. apply Hkey. intros ->. destruct (H1 b k Hb) as (y & Ey & _). congruence. }
  destruct (kt_insert_ok _ _ _ k R1) as (t & Et & R2); [by rewrite Hkk|]. unfold w2. rewrite Et, Hkk in *.
  exists (<[a := k]> M). split; [exact R2|]. cbn [cw_keys set_keep_hash w1 set_keys]. split; [|split].
  - intros b k' [[<- <-]|[Hb Eb]]%lookup_insert_Some.
    + exists (mkKeepKey a []). rewrite lookup_insert_eq. do 2 (split; [done|]). cbn. symmetry. by apply H2.
    + destruct (H1 b k' Eb) as (y & Ey & ?). exists y. rewrite lookup_insert_ne; [done|]. intros <-. congruence.
  - intros b [Hb _]%lookup_insert_None. by apply H2.
  - intros k' y [[<- <-]|[Hk' Ey]]%lookup_insert_Some; [apply lookup_insert_eq|]. rewrite lookup_insert_ne; [by apply H3|].
    intros E. apply H3 in Ey. rewrite <- E in Ey. congruence.
Qed.

(** [RemoveConn] and [InsertConn]. *)
Lemma RemoveConn_some k c y q w : conn c w = Some y -> has (cn_keep_flag y) TCP_KEEP_IN_LIST = true -> cw_keys w !! k = Some q ->
  c ∈ kk_list q -> RemoveConn k c w = Some
    (set_conns (<[c := set_keep_flag (clear_bits (cn_keep_flag y) TCP_KEEP_IN_LIST) y]> (cw_conns w))
       (set_keys (<[k := set_keep_list (filter (.≠ c) (kk_list q)) q]> (cw_keys w)) w)).
Proof.
  intros Ey Hf Ek Hin. unfold RemoveConn. rewrite Ey. cbn [mbind option_bind]. rewrite Hf, Ek. cbn [mbind option_bind negb].
  rewrite bool_decide_true by done. unfold upd_key. rewrite Ek. cbn [mbind option_bind].
  exact (upd_conn_some c y (set_keys (<[k := _]> (cw_keys w)) w) _ Ey).
Qed.
Lemma InsertConn_some k c y q w : conn c w = Some y -> has (cn_keep_flag y) TCP_KEEP_IN_LIST = false -> cw_keys w !! k = Some q ->
  c ∉ kk_list q -> InsertConn k c w = Some
    (set_conns (<[c := set_keep_flag (Z.lor (cn_keep_flag y) TCP_KEEP_IN_LIST) y]> (cw_conns w))
       (set_keys (<[k := set_keep_list (kk_list q ++ [c]) q]> (cw_keys w)) w)).
Proof.
  intros Ey Hf Ek Hin. unfold InsertConn. rewrite Ey. cbn [mbind option_bind]. rewrite Hf, Ek. cbn [mbind option_bind].
  rewrite bool_decide_false by done. unfold upd_key. rewrite Ek. cbn [mbind option_bind].
  exact (upd_conn_some c y (set_keys (<[k := _]> (cw_keys w)) w) _ Ey).
Qed.
Lemma inert_lists c o fd w ks : aside c o fd w (set_keys ks w).
Proof. done. Qed.

(** ** Moving a connection *)

Lemma keep_inv_lists s w w' : keep_inv s w -> lists_ok s w' -> (forall c o fd, aside c o fd w w') -> cw_conns w' = cw_conns w ->
  cw_keepn w' = cw_keepn w -> cw_proxies w' = cw_proxies w -> cw_ntfys w' = cw_ntfys w -> cw_ep w' = cw_ep w ->
  cw_armed w' = cw_armed w -> cw_keeps w' = cw_keeps w -> keep_inv s w'.
Proof.
  intros [I1 I2 I3 I4 I5 I6 I7 I8 I9 I10] Hl _ E1 E2 E3 E4 E5 E6 E7.
  split; unfold side_ok, ob, ref, conn in *; rewrite ?E1, ?E2, ?E3, ?E4, ?E5, ?E6, ?E7; try done.
  intros c l Hc. destruct (I4 c l Hc) as (y & z & Ey & Hty & [M1 M2 M3 M4 M5] & Hf & Hp). exists y, z.
  split; [unfold conn; by rewrite E1|]. split; [done|].
  split; [split; [by rewrite E2|unfold ob in *; by rewrite E5|by rewrite E3|by rewrite E4|done]|].
  unfold ConnKeep.is_open, sys, place_ok, ref in *. by rewrite E5.
Qed.

Lemma keep_inv_move s s' w w' c l y o fd : keep_inv s w -> ks_loc s !! c = Some l -> conn c w = Some y -> cn_keep_ntfy y = o ->
  (0 <= cn_osfd y -> cn_osfd y = fd) ->
  (cn_osfd y < 0 -> 0 <= fd -> forall d yd, is_Some (ks_loc s !! d) -> conn d w = Some yd -> cn_osfd yd <> fd) ->
  aside c o fd w w' -> side_ok w' -> kwf s' -> lists_ok s' w' -> pp_list (cw_keeps w') = ks_pool s' ->
  (forall d, d <> c -> ks_loc s' !! d = ks_loc s !! d /\ (d ∈ cw_armed w' <-> d ∈ cw_armed w)) ->
  (c ∈ cw_armed w' <-> exists a, ks_loc s' !! c = Some (KIdle a)) ->
  (forall l', ks_loc s' !! c = Some l' -> conn_ok c l' w') ->
  (forall y', is_Some (ks_loc s' !! c) -> conn c w' = Some y' -> 0 <= cn_osfd y' -> cn_osfd y' = fd) ->
  (f_epobj (ref w' fd) = None \/ (ref w' fd = ref w fd /\ forall a, l <> KIdle a) \/
     exists a y', ks_loc s' !! c = Some (KIdle a) /\ conn c w' = Some y' /\ cn_osfd y' = fd /\ f_epobj (ref w' fd) = Some (cn_keep_ntfy y')) ->
  cw_keepn w' !! o = None \/ is_Some (ks_loc s' !! c) /\ (exists y', conn c w' = Some y' /\ cn_keep_ntfy y' = o) ->
  keep_inv s' w'.
Proof.
  intros I Hl Ey Eo Hfd Hneg F Sd Wf Ll Hp Hoth Harm Hc Hfdc Hw Hkn.
  destruct (ki_conn _ _ _ _ _ I _ _ Hl) as (y0 & z & Ey0 & _ & M & _ & Hpl). simplify_eq.
  assert (Hfds : forall d yd, d <> c -> is_Some (ks_loc s !! d) -> conn d w = Some yd -> 0 <= cn_osfd yd -> cn_osfd yd <> fd).
  { intros d yd Hd Hk Ed Hpos E. destruct (Z.le_gt_cases 0 (cn_osfd y)) as [Hy|Hy].
    - destruct Hd. eapply (ki_fds _ _ _ _ _ I d c yd y); [done|by eexists|done..|by rewrite Hfd].
    - by apply (Hneg Hy ltac:(lia) d yd). }
  eapply (keep_inv_step _ _ _ s s' w w' c (cn_keep_ntfy y) fd); try done.
  - intros _. by exists y.
  - congruence.
  - intros o' Ef Hk. destruct Hw as [Hw|[[Hr Hl']|(a & y' & E1 & E2 & E3 & E4)]]; [congruence| |].
    + rewrite Hr in Ef. destruct (decide (o' = cn_keep_ntfy y)) as [->|Ho].
      { destruct (ki_watch _ _ _ _ _ I _ _ Ef) as (d & a & yd & E1 & E2 & E3 & E4); [eexists; apply M|].
        destruct (ki_conn _ _ _ _ _ I _ _ E1) as (yd' & zd & Ed & _ & Md & _). simplify_eq.
        pose proof (em_conn _ _ _ _ Md) as Md1. rewrite E3, (em_conn _ _ _ _ M) in Md1. simplify_eq. by destruct (Hl' a). }
      apply (as_new _ _ _ _ _ _ F) in Hk; [|done]. destruct (ki_watch _ _ _ _ _ I _ _ Ef Hk) as (d & a & yd & E1 & E2 & E3 & E4).
      destruct (decide (d = c)) as [->|Hd]; [simplify_eq; by destruct (Hl' a)|].
      destruct (ki_conn _ _ _ _ _ I _ _ E1) as (yd' & zd & Ed & _ & _ & _ & Hpd). simplify_eq.
      destruct Hpd as (_ & _ & _ & _ & Hpos & _). destruct (Hfds d yd Hd ltac:(by eexists) E2 ltac:(lia) eq_refl).
    + exists a, y'. split; [done|]. split; [done|]. split; [congruence|done].
  - intros fd' Hne Ef. rewrite (as_refs _ _ _ _ _ _ F) in Ef by done.
    destruct (ki_watch _ _ _ _ _ I _ _ Ef) as (d & a & yd & E1 & E2 & E3 & E4); [eexists; apply M|].
    destruct (ki_conn _ _ _ _ _ I _ _ E1) as (yd' & zd & Ed & _ & Md & _). simplify_eq.
    pose proof (em_conn _ _ _ _ Md) as Md1. rewrite E3, (em_conn _ _ _ _ M) in Md1. simplify_eq.
    destruct Hpl as (_ & _ & _ & _ & Hpos & _). destruct Hne. apply Hfd. lia.
Qed.

(** An idle connection becomes somebody's. *)
Lemma lend_idle_inv s w w' c a y y' z' k q : keep_inv s w -> ks_loc s !! c = Some (KIdle a) -> conn c w = Some y ->
  cw_keys w !! k = Some q -> kk_addr q = a -> kk_list q = ks_idle s a -> aside c (cn_keep_ntfy y) (cn_osfd y) w w' -> side_ok w' ->
  conn c w' = Some y' -> cn_type y' = OBJ_TCP_KEEP -> cn_keep_ntfy y' = cn_keep_ntfy y -> cn_osfd y' = cn_osfd y ->
  cn_dst y' = a -> cn_keep_flag y' = 0 -> embedded c (cn_keep_ntfy y) z' w' -> eo_fd z' = cn_osfd y -> is_open w' (cn_osfd y) ->
  clean w' (cn_osfd y) -> cw_armed w' = cw_armed w ∖ {[c]} -> cw_keeps w' = cw_keeps w ->
  cw_keys w' = <[k := set_keep_list (filter (.≠ c) (kk_list q)) q]> (cw_keys w) -> cw_hash w' = cw_hash w ->
  keep_inv (lend c a s) w'.
Proof.
  intros I Hl Ey Ek Ea El F Sd Ey' T1 T2 T3 T4 T5 M Ez Hop [Hc1 Hc2] Har Hk Hks Hh. pose proof (ki_wf _ _ _ _ _ I) as W.
  destruct (ki_conn _ _ _ _ _ I _ _ Hl) as (y0 & z0 & Ey0 & _ & _ & Hr & _ & _ & _ & _ & Hpos & _). simplify_eq.
  destruct Hr as (Hr & _); [lia|].
  assert (Hnp : c ∉ ks_pool s) by (intros Hin%(kw_pool _ W); congruence).
  apply (keep_inv_move s _ w w' c _ _ _ (cn_osfd y) I Hl Ey eq_refl); try done.
  - lia.
  - apply lend_wf; [done|]. intros b E. congruence.
  - eapply lists_set; [apply I|exact Ek|reflexivity|exact Hks|done|]. cbn [lend ks_idle]. by rewrite El.
  - cbn [lend ks_pool]. rewrite Hk, filter_out by done. apply I.
  - intros d Hd. cbn [lend ks_loc]. rewrite lookup_insert_ne by done. split; [done|]. rewrite Har. set_solver.
  - rewrite Har. cbn [lend ks_loc]. rewrite lookup_insert_eq. split; [set_solver|]. by intros [b E].
  - cbn [lend ks_loc]. rewrite lookup_insert_eq. intros l' [= <-]. exists y', z'. rewrite T2, T3. by split_and!.
  - intros y2 _ E _. congruence.
  - by left.
  - right. cbn [lend ks_loc]. rewrite lookup_insert_eq. split; [done|]. by exists y'.
Qed.

Lemma idle_entry s w c a : keep_inv s w -> ks_loc s !! c = Some (KIdle a) -> exists k q, find_keep a w = Some (Some k) /\
  cw_keys w !! k = Some q /\ kk_addr q = a /\ kk_list q = ks_idle s a /\ c ∈ kk_list q.
Proof.
  intros I Hl. assert (Hin : c ∈ ks_idle s a) by (by apply (kw_idle _ (ki_wf _ _ _ _ _ I))).
  destruct (find_keep_ok s w a (ki_lists _ _ _ _ _ I)) as (r & Er & Hr). destruct r as [k|]; [|rewrite Hr in Hin; by apply elem_of_nil in Hin].
  destruct Hr as (q & Ek & Ea & El). exists k, q. by rewrite El.
Qed.
(** What is known of an idle connection. *)
Lemma idle_conn s w c a : keep_inv s w -> ks_loc s !! c = Some (KIdle a) -> exists y z, conn c w = Some y /\ cn_type y = OBJ_TCP_KEEP /\
  embedded c (cn_keep_ntfy y) z w /\ 0 < cn_osfd y < max /\ is_open w (cn_osfd y) /\ eo_fd z = cn_osfd y /\
  place_ok (KIdle a) y z w.
Proof.
  intros I Hl. destruct (ki_conn _ _ _ _ _ I _ _ Hl) as (y & z & Ey & Hty & M & Hr & Hpl).
  pose proof Hpl as (_ & _ & _ & _ & Hpos & _). destruct Hr as (Hr & Ho & Ez); [lia|]. exists y, z. do 6 (split; [done|]). exact Hpl.
Qed.

(** [GetTcpKeepConn] when the list of the address has a connection: the first one. *)
Lemma Get_idle s w a c l : keep_inv s w -> ks_idle s a = c :: l ->
  (forall y, conn c w = Some y -> ctl_accepts (sys w) EPOLL_CTL_DEL (cn_osfd y) 0) -> exists w' fd, GetTcpKeepConn a w = Some (Some c, w') /\
  keep_inv (lend c a s) w' /\ cn_osfd <$> conn c w = Some fd /\ cn_osfd <$> conn c w' = Some fd /\ is_open w' fd.
Proof.
  intros I Hid Hk. assert (Hl : ks_loc s !! c = Some (KIdle a)).
  { apply (kw_idle _ (ki_wf _ _ _ _ _ I)). rewrite Hid. by left. }
  destruct (idle_entry s w c a I Hl) as (k & q & Ef & Ek & Ea & El & Hin).
  destruct (idle_conn s w c a I Hl) as (y & z & Ey & Hty & M & Hr & Ho & Ez & Hd & Hb & Hfl & Hu & _ & Hev & Hp & Hv).
  unfold GetTcpKeepConn. rewrite Ef. cbn [mbind option_bind]. rewrite Ek. cbn [mbind option_bind]. rewrite El, Hid.
  rewrite (RemoveConn_some k c y q w); [|done|by rewrite Hfl|done|done]. cbn [mbind option_bind].
  set (w1 := set_conns _ _). set (y1 := set_keep_flag _ y) in *. assert (Ey1 : conn c w1 = Some y1) by apply lookup_insert_eq.
  assert (F1 : inert c (cn_keep_ntfy y) (cn_osfd y) (set_keys (<[k := set_keep_list (filter (.≠ c) (kk_list q)) q]> (cw_keys w)) w) w1).
  { exact (inert_conn kopen c _ _ (set_keys (<[k := _]> (cw_keys w)) w) y1). }
  destruct (IdleDetach_keep kopen max c (cn_keep_ntfy y) z y1 w1 (cn_osfd y)) as (w2 & -> & F2 & M2 & Ho2 & Hc2 & Ey2 & Ea2); try done.
  { apply I. } { unfold y1. cbn [cn_keep_flag set_keep_flag]. by rewrite Hfl. } { by destruct M. } { by apply Hk. }
  cbn [mbind option_bind]. exists w2, (cn_osfd y). split; [done|]. rewrite Ey, Ey2. split; [|done].
  eapply (lend_idle_inv s w w2 c a y _ (watcher z) k q); try done.
  - etrans; [|apply F2]. etrans; [|apply F1]. apply inert_lists.
  - apply (inert_side _ _ _ _ _ _ F2); [eexists; apply M2|left; apply Hc2|exact (ki_side _ _ _ _ _ I)].
  - cbn. by rewrite Hfl.
  - rewrite (in_keeps _ _ _ _ _ _ F2). done.
  - rewrite (in_keys _ _ _ _ _ _ F2). done.
  - rewrite (in_hash _ _ _ _ _ _ F2). done.
Qed.

(** [RemoveTcpKeepConn] of an idle connection, whose timer may have been taken off
    before. *)
Lemma Remove_idle s w c a ts : keep_inv s w -> ks_loc s !! c = Some (KIdle a) -> ts ∖ {[c]} = cw_armed w ∖ {[c]} ->
  (forall y, conn c w = Some y -> ctl_accepts (sys w) EPOLL_CTL_DEL (cn_osfd y) 0) ->
  exists w' y', RemoveTcpKeepConn c (set_armed ts w) = Some (true, w') /\
  keep_inv (lend c a s) w' /\ conn c w' = Some y' /\ no_user y' /\ cn_osfd <$> conn c w = Some (cn_osfd y') /\ cw_keeps w' = cw_keeps w.
Proof.
  intros I Hl Hts Hk. destruct (idle_entry s w c a I Hl) as (k & q & Ef & Ek & Ea & El & Hin).
  destruct (idle_conn s w c a I Hl) as (y & z & Ey & Hty & M & Hr & Ho & Ez & Hd & Hb & Hfl & Hu & _ & Hev & Hp & Hv).
  set (w0 := set_armed ts w). unfold RemoveTcpKeepConn. change (conn c w0) with (conn c w). rewrite Ey. cbn [mbind option_bind].
  rewrite Hd, Hb. change (find_keep a w0) with (find_keep a w). rewrite Ef. cbn [mbind option_bind].
  destruct (IdleDetach_keep kopen max c (cn_keep_ntfy y) z y w0 (cn_osfd y)) as (w1 & -> & F1 & M1 & Ho1 & Hc1 & Ey1 & Ea1); try done.
  { apply I. } { by rewrite Hfl. } { by destruct M. } { by apply Hk. }
  cbn [mbind option_bind]. rewrite (RemoveConn_some k c _ q w1 Ey1); [|cbn; by rewrite Hfl| |done].
  2: { by rewrite (in_keys _ _ _ _ _ _ F1). }
  cbn [mbind option_bind]. eexists _, _. split; [reflexivity|]. split; [|split; [apply lookup_insert_eq|split; [done|split; [done|]]]].
  2: { cbn. by rewrite (in_keeps _ _ _ _ _ _ F1). }
  assert (F0 : inert c (cn_keep_ntfy y) (cn_osfd y) w w0) by done.
  eapply (lend_idle_inv s w _ c a y _ (watcher z) k q I Hl Ey Ek Ea El); [| |apply lookup_insert_eq|..]; try done.
  - etrans; [exact (in_aside _ _ _ _ _ _ F0)|]. etrans; [exact (in_aside _ _ _ _ _ _ F1)|].
    transitivity (set_keys (<[k := set_keep_list (filter (.≠ c) (kk_list q)) q]> (cw_keys w1)) w1); [done|].
    exact (in_aside _ _ _ _ _ _ (inert_conn kopen c _ _ (set_keys (<[k := _]> (cw_keys w1)) w1) _)).
  - exact (inert_side _ _ _ _ _ _ F1 ltac:(eexists; apply M1) ltac:(left; apply Hc1) (ki_side _ _ _ _ _ I)).
  - cbn. by rewrite Hfl.
  - by destruct M1.
  - cbn. by rewrite Ea1.
  - cbn. by rewrite (in_keeps _ _ _ _ _ _ F1).
  - cbn. by rewrite (in_keys _ _ _ _ _ _ F1).
  - cbn. by rewrite (in_hash _ _ _ _ _ _ F1).
Qed.

(** [GetTcpKeepConn] otherwise: a connection of the pool, or a new one. *)
Lemma Get_empty s w a : keep_inv s w -> ks_idle s a = [] -> GetTcpKeepConn a w =
  (let '(c, w) := alloc_conn OBJ_TCP_KEEP (cw_keeps w) set_keeps w in w ← upd_conn c (set_dst a) w; Some (Some c, w)).
Proof.
  intros I Hid. destruct (find_keep_ok s w a (ki_lists _ _ _ _ _ I)) as (r & Er & Hr). unfold GetTcpKeepConn. rewrite Er.
  cbn [mbind option_bind]. destruct r as [k|]; [|done]. destruct Hr as (q & -> & _ & El). cbn [mbind option_bind]. by rewrite El, Hid.
Qed.
Lemma Get_pool s w a c l : keep_inv s w -> ks_idle s a = [] -> ks_pool s = c :: l -> exists w' fd,
  GetTcpKeepConn a w = Some (Some c, w') /\ keep_inv (lend c a s) w' /\ cn_osfd <$> conn c w' = Some fd /\ fd < 0.
Proof.
  intros I Hid Hpl. pose proof (ki_wf _ _ _ _ _ I) as W.
  assert (Hl : ks_loc s !! c = Some KPooled) by (apply (kw_pool _ W); rewrite Hpl; by left).
  destruct (ki_conn _ _ _ _ _ I _ _ Hl) as (y & z & Ey & Hty & M & Hr & Hfd & Hfl & Hu).
  rewrite (Get_empty s w a I Hid). unfold alloc_conn, AllocPtr. rewrite (ki_pool _ _ _ _ _ I), Hpl. set (w1 := set_keeps _ w).
  rewrite (upd_conn_some c y w1) by done. cbn [mbind option_bind]. set (w2 := set_conns _ w1).
  exists w2, (cn_osfd y). assert (Ey2 : conn c w2 = Some (set_dst a y)) by apply lookup_insert_eq.
  split; [done|]. rewrite Ey2. split; [|done].
  apply (keep_inv_move s _ w w2 c _ y _ (-1) I Hl Ey eq_refl); try done.
  - lia.
  - transitivity w1; [done|]. exact (in_aside _ _ _ _ _ _ (inert_conn kopen c _ _ w1 _)).
  - exact (ki_side _ _ _ _ _ I).
  - apply lend_wf; [done|]. intros b E. congruence.
  - apply (lists_same s _ w); try done; [apply I|]. intros b. cbn [lend ks_idle]. rewrite Hid.
    destruct (decide (a = b)) as [<-|Hb]; [by rewrite fn_lookup_insert, Hid|by rewrite fn_lookup_insert_ne].
  - cbn [lend ks_pool]. pose proof (kw_pool_nodup _ W) as Hn. rewrite Hpl in Hn |- *. symmetry. by apply filter_head.
  - intros d Hd. cbn [lend ks_loc]. by rewrite lookup_insert_ne.
  - cbn [lend ks_loc]. rewrite lookup_insert_eq. split; [|by intros [b E]]. intros [b E]%(ki_armed _ _ _ _ _ I). congruence.
  - cbn [lend ks_loc]. rewrite lookup_insert_eq. intros l' [= <-]. exists (set_dst a y), z. split; [done|]. split; [done|].
    split; [by destruct M|]. split; [done|]. done.
  - intros y2 _ E. simplify_eq. cbn. lia.
  - right. by left.
  - right. cbn [lend ks_loc]. rewrite lookup_insert_eq. split; [done|]. by exists (set_dst a y).
Qed.
Lemma Get_new s w a : keep_inv s w -> ks_idle s a = [] -> ks_pool s = [] -> exists c w' fd,
  GetTcpKeepConn a w = Some (Some c, w') /\ ks_loc s !! c = None /\ keep_inv (lend c a s) w' /\ cn_osfd <$> conn c w' = Some fd /\ fd < 0.
Proof.
  intros I Hid Hpl. pose proof (ki_wf _ _ _ _ _ I) as W.
  rewrite (Get_empty s w a I Hid). unfold alloc_conn, AllocPtr. rewrite (ki_pool _ _ _ _ _ I), Hpl. set (w1 := set_keeps _ w).
  unfold new_conn. set (c := fresh (dom (cw_conns w1) : gset ptr)). cbn [Z.eqb Pos.eqb OBJ_TCP_KEEP]. unfold new_ob.
  set (o := fresh (dom (ep_objs (cw_ep w1)) : gset ptr)).
  assert (Hc : conn c w = None) by (apply not_elem_of_dom, is_fresh).
  assert (Ho : ob o w = None) by (apply not_elem_of_dom, is_fresh).
  assert (Hl : ks_loc s !! c = None).
  { destruct (ks_loc s !! c) as [l|] eqn:E; [|done]. destruct (ki_conn _ _ _ _ _ I _ _ E) as (y & z & Ey & _). congruence. }
  assert (Hko : cw_keepn w !! o = None).
  { destruct (cw_keepn w !! o) as [x|] eqn:E; [|done]. destruct (ki_keepn _ _ _ _ _ I _ _ E) as (d & y & _ & [l Hd] & Ey & Eo).
    destruct (ki_conn _ _ _ _ _ I _ _ Hd) as (y2 & z & Ey2 & _ & M & _). simplify_eq. pose proof (em_ob _ _ _ _ M). congruence. }
  set (y := mkConn OBJ_TCP_KEEP None None None (-1) 0 600000 o no_addr).
  match goal with |- context [upd_conn c _ ?w0] => set (w2 := w0) end.
  assert (Ey : conn c w2 = Some y) by apply lookup_insert_eq. rewrite (upd_conn_some c y w2) by done. cbn [mbind option_bind].
  set (w3 := set_conns _ w2). assert (Ey3 : conn c w3 = Some (set_dst a y)) by apply lookup_insert_eq.
  exists c, w3, (-1). split; [done|]. split; [done|]. rewrite Ey3. split; [|done].
  assert (Hoo : ob o w3 = Some (new_EpollerObj (-1))) by apply lookup_insert_eq.
  assert (Hko3 : cw_keepn w3 !! o = Some (Some c)) by apply lookup_insert_eq.
  destruct (ki_side _ _ _ _ _ I o Ho) as (Hpx & Hnt & Hrg).
  assert (Hot : forall o', o' <> o -> ob o' w3 = ob o' w /\ cw_keepn w3 !! o' = cw_keepn w !! o').
  { intros o' Hne. unfold ob, w3, w2. cbn. by rewrite !lookup_insert_ne by done. }
  assert (F : aside c o (-1) w w3).
  { split; try done.
    - intros c' Hne. unfold conn, w3, w2. cbn. by rewrite !lookup_insert_ne by done.
    - intros o' Hne _. by destruct (Hot o' Hne) as [-> ->].
    - intros o' Hne. by destruct (Hot o' Hne) as [_ ->]. }
  apply (keep_inv_step kopen max krep s _ w w3 c o (-1) I F); try done.
  - intros o' Eo'. destruct (decide (o' = o)) as [->|Hne]; [congruence|]. destruct (Hot o' Hne) as [E _]. rewrite E in Eo'.
    by apply (ki_side _ _ _ _ _ I).
  - apply lend_wf; [done|]. intros b E. congruence.
  - apply (lists_same s _ w); try done; [apply I|]. intros b. cbn [lend ks_idle]. rewrite Hid.
    destruct (decide (a = b)) as [<-|Hb]; [by rewrite fn_lookup_insert, Hid|by rewrite fn_lookup_insert_ne].
  - cbn [lend ks_pool]. by rewrite Hpl.
  - intros d Hd. cbn [lend ks_loc]. by rewrite lookup_insert_ne.
  - cbn [lend ks_loc]. rewrite lookup_insert_eq. split; [|by intros [b E]]. intros [b E]%(ki_armed _ _ _ _ _ I). congruence.
  - cbn [lend ks_loc]. rewrite lookup_insert_eq. intros l' [= <-]. exists (set_dst a y), (new_EpollerObj (-1)). split; [done|].
    split; [done|]. split; [split; try done; by left|]. split; [|done]. cbn. lia.
  - rewrite Hl. by intros [].
  - intros d yd Hd Hk Ed Hpos. lia.
  - intros y2 _ E. simplify_eq. cbn. lia.
  - intros o' Ef Hk. destruct (decide (o' = o)) as [->|Hne].
    + by destruct (Hrg (-1)).
    + destruct (Hot o' Hne) as [_ E]. rewrite E in Hk. change (ref w3 (-1)) with (ref w (-1)) in Ef.
      destruct (ki_watch _ _ _ _ _ I _ _ Ef Hk) as (d & b & yd & E1 & E2 & E3 & E4).
      destruct (idle_conn s w d b I E1) as (yd2 & zd & Ed & _ & _ & Hpos & _). simplify_eq. lia.
  - intros fd' _ Ef. by destruct (Hrg fd').
  - right. cbn [lend ks_loc]. rewrite lookup_insert_eq. split; [done|]. by exists (set_dst a y).
Qed.

(** ** Releasing *)

(** Nobody has registered the object of a connection that is not idle. *)
Lemma unwatched s w c y l : keep_inv s w -> ks_loc s !! c = Some l -> (forall a, l <> KIdle a) -> conn c w = Some y ->
  forall fd, f_epobj (ref w fd) <> Some (cn_keep_ntfy y).
Proof.
  intros I Hl Hn Ey fd Ef. destruct (ki_conn _ _ _ _ _ I _ _ Hl) as (y1 & z & Ey1 & _ & M & _). simplify_eq.
  destruct (ki_watch _ _ _ _ _ I _ _ Ef) as (d & a & yd & E1 & E2 & E3 & _); [eexists; apply M|].
  destruct (idle_conn s w d a I E1) as (yd2 & zd & Ed & _ & Md & _). simplify_eq.
  pose proof (em_conn _ _ _ _ Md) as Hd. rewrite E3, (em_conn _ _ _ _ M) in Hd. simplify_eq. by destruct (Hn a).
Qed.

Lemma release_inv s w c a y : keep_inv s w -> ks_loc s !! c = Some (KUsed a) -> conn c w = Some y -> user_ok brep y w ->
  exists w', release_keep c w = Some w' /\ keep_inv (release (pp_max (cw_keeps w)) c s) w' /\
    (0 <= cn_osfd y -> ~ is_open w' (cn_osfd y)).
Proof.
  intros I Hl Ey Hu. pose proof (ki_wf _ _ _ _ _ I) as W.
  destruct (ki_conn _ _ _ _ _ I _ _ Hl) as (y0 & z & Ey0 & Hty & M & Hr & Hd & Hfl). simplify_eq.
  pose proof (unwatched s w c y _ I Hl ltac:(done) Ey) as Hun.
  destruct (TcpKeep_Reset_keep kopen max brep c _ z y w Ey eq_refl M Hu) as (w1 & y1 & z1 & E1 & F1 & Ey1 & T1 & T2 & T3 & T4 & T5 & M1 & Hcl & Hrf & Ek & Eh & Es & Ea & Sd).
  unfold release_keep. rewrite E1. cbn [mbind option_bind].
  assert (Hrefs : forall fd, ref w1 fd = ref w fd).
  { intros fd. destruct (decide (fd = cn_osfd y)) as [->|Hne]; [done|by rewrite (as_refs _ _ _ _ _ _ F1)]. }
  destruct (free_conn_keep kopen c _ z1 y1 w1 Ey1 T2 ltac:(congruence) T3 T5 M1) as (w2 & -> & F2 & Esy & Er2 & Ek2 & Eh2 & Ea2 & Sd2 & Hc).
  { intros fd. rewrite Hrefs. apply Hun. }
  exists w2. split; [done|]. split.
  2: { intros Hp. unfold ConnKeep.is_open. rewrite Esy. by apply Hcl. }
  rewrite Es in Hc. rewrite (ki_pool _ _ _ _ _ I) in Hc.
  assert (Hl2 : forall s', (forall b, ks_idle s' b = ks_idle s b) -> lists_ok s' w2).
  { intros s' Hs'. apply (lists_same s _ w); [apply I|done|by rewrite Ek2, Ek|by rewrite Eh2, Eh]. }
  assert (Har : c ∉ cw_armed w2).
  { rewrite Ea2, Ea. intros [b E]%(ki_armed _ _ _ _ _ I). congruence. }
  assert (Hmv : forall s', (forall b, ks_idle s' b = ks_idle s b) -> kwf s' -> pp_list (cw_keeps w2) = ks_pool s' ->
    (forall d, d <> c -> ks_loc s' !! d = ks_loc s !! d) -> (forall l', ks_loc s' !! c = Some l' -> l' = KPooled /\ conn_ok c KPooled w2) ->
    (cw_keepn w2 !! cn_keep_ntfy y = None \/ is_Some (ks_loc s' !! c) /\ conn c w2 = Some y1) -> keep_inv s' w2).
  { intros s' Hid Wf Hp Hot Hco Hkn. apply (keep_inv_move s s' w w2 c _ y _ (cn_osfd y) I Hl Ey eq_refl); try done.
    - lia.
    - etrans; [exact F1|apply F2].
    - apply Sd2, Sd, I.
    - by apply Hl2.
    - intros d Hdc. split; [by apply Hot|]. by rewrite Ea2, Ea.
    - split; [done|]. intros [b E]. by destruct (Hco _ E) as [? _].
    - intros l' E. by destruct (Hco l' E) as [-> ?].
    - intros y' [l' E] Ey' Hp'. destruct (Hco l' E) as [-> (y2 & _ & Ey2 & _ & _ & _ & Hneg & _)]. simplify_eq. lia.
    - right. left. split; [by rewrite Er2, Hrefs|done].
    - destruct Hkn as [?|[? ?]]; [by left|]. right. split; [done|]. by exists y1. }
  unfold release. destruct (pp_max (cw_keeps w) <=? _) eqn:Efull.
  - destruct Hc as (Ec & Ekn & Epl). apply Hmv; try done.
    + pose proof (release_wf s (pp_max (cw_keeps w)) c _ W Hl) as Wr. unfold release in Wr. by rewrite Efull in Wr.
    + intros d Hdc. cbn. by rewrite lookup_delete_ne.
    + intros l'. cbn. by rewrite lookup_delete_eq.
    + by left.
  - destruct Hc as (Ec & M2 & Epl). apply Hmv; try done.
    + pose proof (release_wf s (pp_max (cw_keeps w)) c _ W Hl) as Wr. unfold release in Wr. by rewrite Efull in Wr.
    + intros d Hdc. cbn. by rewrite lookup_insert_ne.
    + intros l'. cbn. rewrite lookup_insert_eq. intros [= <-]. split; [done|]. exists y1, z1. split; [done|]. split; [congruence|].
      rewrite T2. split; [done|]. split; [lia|]. cbn [place_ok]. split; [done|]. split; [congruence|done].
    + right. split; [cbn; by rewrite lookup_insert_eq|done].
Qed.

(** ** A socket for a connection *)

(** Writing an object that is no embedded one. *)
Lemma ob_other_inv s w o z z' : keep_inv s w -> ob o w = Some z -> cw_keepn w !! o = None ->
  keep_inv s (set_ep (set_obj o z' (cw_ep w)) w).
Proof.
  intros [I1 I2 I3 I4 I5 I6 I7 I8 I9 I10] Eo Hk.
  assert (Hob : forall o', o' <> o -> ob o' (set_ep (set_obj o z' (cw_ep w)) w) = ob o' w) by (intros o' Hne; by apply lookup_insert_ne).
  split; try done.
  - intros c l Hc. destruct (I4 c l Hc) as (y & zc & Ey & Hty & [M1 M2 M3 M4 M5] & Hf & Hp). exists y, zc.
    do 2 (split; [done|]). split; [|split; [exact Hf|by destruct l]]. split; try done.
    rewrite Hob; [done|]. intros E. rewrite E in M1. congruence.
  - intros o'. destruct (decide (o' = o)) as [->|Hne]; [by rewrite ob_set|]. rewrite Hob by done. apply I10.
Qed.
Lemma upd_ntfy_inv s w (oo : option ptr) f : keep_inv s w ->
  (forall o, oo = Some o -> is_Some (ob o w) /\ cw_keepn w !! o = None) -> exists w', upd_ob_opt oo f w = Some w' /\ keep_inv s w' /\
    cw_conns w' = cw_conns w /\ sys w' = sys w.
Proof.
  intros I Ho. destruct oo as [o|]; [|by exists w]. destruct (Ho o eq_refl) as [[z Ez] Hk]. cbn [upd_ob_opt].
  rewrite (upd_ob_some _ _ _ _ Ez). eexists. split; [reflexivity|]. split; [by eapply ob_other_inv|done].
Qed.

(** A connection without socket gets the descriptor [fd], perhaps an invalid one. *)
Lemma socket_inv s w w' c a y y' z' fd : keep_inv s w -> ks_loc s !! c = Some (KUsed a) -> conn c w = Some y -> cn_osfd y < 0 ->
  (0 <= fd -> 0 < fd < max /\ ~ is_open w fd /\ is_open w' fd /\ eo_fd z' = fd) -> aside c (cn_keep_ntfy y) fd w w' ->
  side_ok w' -> conn c w' = Some y' -> y' = set_osfd fd y -> embedded c (cn_keep_ntfy y) z' w' -> ref w' fd = ref w fd ->
  cw_keys w' = cw_keys w -> cw_hash w' = cw_hash w -> cw_keeps w' = cw_keeps w -> cw_armed w' = cw_armed w -> keep_inv s w'.
Proof.
  intros I Hl Ey Hneg Hfd F Sd Ey' -> M Hrf E1 E2 E3 E4.
  destruct (ki_conn _ _ _ _ _ I _ _ Hl) as (y0 & z & Ey0 & Hty & M0 & Hr & Hd & Hfl). simplify_eq.
  apply (keep_inv_move s s w w' c _ y _ fd I Hl Ey eq_refl); try done; try apply I.
  - lia.
  - intros _ Hp d yd [ld Hld] Ed E. destruct (ki_conn _ _ _ _ _ I _ _ Hld) as (y2 & zd & Ey2 & _ & _ & Hrd & _). simplify_eq.
    destruct Hrd as (_ & Hop & _); [done|]. by destruct (Hfd Hp) as (_ & Hno & _).
  - by apply (lists_same s s w w' (ki_lists _ _ _ _ _ I)).
  - rewrite E3. apply I.
  - intros d Hdc. by rewrite E4.
  - rewrite E4. apply I.
  - intros l' E. rewrite Hl in E. injection E as <-. exists (set_osfd fd y), z'. split; [done|]. split; [done|]. split; [done|].
    split; [|done]. cbn. intros Hp. destruct (Hfd Hp) as (? & _ & ? & ?). done.
  - intros y2 _ E. simplify_eq. done.
  - right. left. split; [done|]. intros b E. congruence.
  - right. split; [by rewrite Hl|]. by exists (set_osfd fd y).
Qed.

Lemma CreateSocket_inv s w c a : keep_inv s w -> ks_loc s !! c = Some (KUsed a) ->
  (forall y o, conn c w = Some y -> cn_ntfy y = Some o -> is_Some (ob o w) /\ cw_keepn w !! o = None) ->
  exists r w' fd fd', TcpKeep_CreateSocket c w = Some (r, w') /\ keep_inv s w' /\ cn_osfd <$> conn c w = Some fd /\
    cn_osfd <$> conn c w' = Some fd' /\ (0 <= fd -> fd' = fd) /\ (0 <= fd' -> fd < 0 -> ~ is_open w fd') /\ (0 <= fd' -> is_open w' fd').
Proof.
  intros I Hl Hn. destruct (ki_conn _ _ _ _ _ I _ _ Hl) as (y & z & Ey & Hty & M & Hr & Hd & Hfl).
  unfold TcpKeep_CreateSocket. rewrite Ey. cbn [mbind option_bind]. destruct (Z.ltb_spec 0 (cn_osfd y)) as [Hp|Hp].
  - destruct (upd_ntfy_inv s w (cn_ntfy y) (SetOsfd (cn_osfd y)) I) as (w1 & -> & I1 & Ec & Es); [intros o Eo; by apply (Hn y o)|]. cbn [mbind option_bind].
    exists (cn_osfd y), w1, (cn_osfd y), (cn_osfd y). unfold conn in *. rewrite Ec, Ey. do 4 (split; [done|]). split; [done|].
    split; [lia|]. intros Hp'. unfold ConnKeep.is_open. rewrite Es. by destruct (Hr Hp') as (_ & ? & _).
  - assert (Hneg : cn_osfd y < 0) by (destruct (Z.le_gt_cases 0 (cn_osfd y)) as [H0|H0]; [destruct (Hr H0); lia|lia]).
    unfold k_do. pose proof (kl_socket MT_TCP (sys w)) as Hs. unfold sys in Hs. destruct (ce_socket MT_TCP _) as [fd k] eqn:Esock.
    destruct Hs as [Hs Hkeep]. set (w1 := set_ep _ w). rewrite (upd_conn_some c y w1) by done. cbn [mbind option_bind].
    set (w2 := set_conns _ w1). assert (F1 : inert c (cn_keep_ntfy y) fd w w1) by (apply inert_kernel; intros ? _; apply Hkeep).
    assert (F2 : inert c (cn_keep_ntfy y) fd w w2) by (etrans; [exact F1|exact (inert_conn kopen c _ _ w1 _)]).
    assert (Ey2 : conn c w2 = Some (set_osfd fd y)) by apply lookup_insert_eq.
    destruct (Z.ltb_spec fd 0) as [Hf|Hf].
    { exists (-1), w2, (cn_osfd y), fd. split; [done|]. split; [|rewrite Ey2; split_and!; [done|done|lia|lia|lia]].
      eapply (socket_inv s w w2 c a y _ z fd I Hl Ey Hneg); try done; [lia|apply F2|exact (ki_side _ _ _ _ _ I)|by destruct M]. }
    destruct Hs as [?|(Hrange & Hno & Hyes)]; [lia|].
    pose proof (kl_ioctl fd (sys w2)) as Hi. unfold sys in Hi. destruct (ce_ioctl fd _) as [r k2]. set (w3 := set_ep _ w2). cbn [snd] in Hi.
    assert (F3 : inert c (cn_keep_ntfy y) fd w w3) by (etrans; [exact F2|apply inert_kernel; intros ? _; apply Hi]).
    assert (Ey3 : conn c w3 = Some (set_osfd fd y)) by exact Ey2.
    destruct (r <? 0).
    { set (w4 := k_close fd w3). rewrite (upd_conn_some c (set_osfd fd y) w4) by done. cbn [mbind option_bind]. set (w5 := set_conns _ w4).
      assert (F5 : inert c (cn_keep_ntfy y) fd w w5).
      { etrans; [exact F3|]. etrans; [|exact (inert_conn kopen c _ _ w4 _)]. apply inert_kernel. apply (kl_close fd (sys w3)). }
      assert (Ey5 : conn c w5 = Some (set_osfd (-1) y)) by apply lookup_insert_eq.
      eexists _, w5, (cn_osfd y), (-1). split; [reflexivity|]. split; [|rewrite Ey5; split_and!; [done|done|lia|lia|lia]].
      assert (F6 : aside c (cn_keep_ntfy y) (-1) w w5).
      { destruct (in_aside _ _ _ _ _ _ F5) as [A1 A2 A3 A4 A5 A6]. split; try done. intros fd' _ Ho.
        destruct (decide (fd' = fd)) as [->|Hne]; [done|by apply A5]. }
      eapply (socket_inv s w w5 c a y _ z (-1) I Hl Ey Hneg); try done; [exact (ki_side _ _ _ _ _ I)|by destruct M]. }
    assert (M3 : embedded c (cn_keep_ntfy y) z w3) by (by destruct M).
    cbn [cn_keep_ntfy set_osfd]. rewrite (upd_ob_some _ _ _ _ (em_ob _ _ _ _ M3)). cbn [mbind option_bind]. set (w4 := set_ep _ w3).
    set (z4 := EnableInput _) in w4. assert (F4 : inert c (cn_keep_ntfy y) fd w w4) by (etrans; [exact F3|apply inert_ob]).
    assert (M4 : embedded c (cn_keep_ntfy y) z4 w4).
    { eapply embedded_after; [exact M3|done..|apply ob_set|]. right. unfold z4. by apply watch_reading, M. }
    assert (Ho4 : is_open w4 fd) by (apply Hi; exact Hyes).
    assert (I4 : keep_inv s w4).
    { eapply (socket_inv s w w4 c a y _ z4 fd I Hl Ey Hneg); try done; [apply F4|].
      apply (inert_side _ _ _ _ _ _ F4); [eexists; apply M4|by right; right|apply I]. }
    destruct (upd_ntfy_inv s w4 (cn_ntfy y) (SetOsfd fd) I4) as (w5 & E5 & I5 & Ec & Es).
    { intros o Eo. destruct (Hn y o Ey Eo) as [Hob Hk]. split; [|done]. rewrite (in_obs _ _ _ _ _ _ F4); [done|].
      intros ->. by rewrite (em_conn _ _ _ _ M) in Hk. }
    change (cn_ntfy (set_osfd fd y)) with (cn_ntfy y). rewrite E5. cbn [mbind option_bind].
    exists fd, w5, (cn_osfd y), fd. unfold conn in *. rewrite Ec. change (cw_conns w4) with (cw_conns w2). rewrite Ey2.
    do 4 (split; [done|]). split; [lia|]. split; [intros _ _; exact Hno|]. intros _. unfold ConnKeep.is_open. by rewrite Es.
Qed.

(** ** Keeping *)

Definition keepable (fd : Z) a w : bool := negb (bad_addr a) && (0 <=? fd) && timer_room (cw_armed w).

(** The list of the address, made when there was none. *)
Lemma list_for s w a : keep_inv s w -> exists k w' q,
  (conn_list ← find_keep a w; Some (match conn_list with
    | Some k => (k, w)
    | None =>
        let k : ptr := fresh (dom (cw_keys w) : gset ptr) in
        let w := set_keys (<[k := mkKeepKey a []]> (cw_keys w)) w in
        (k, set_keep_hash (kt_insert (keep_key (cw_keys w)) (cw_hash w) k).2 w)
    end)) = Some (k, w') /\ keep_inv s w' /\ cw_keys w' !! k = Some q /\ kk_addr q = a /\ kk_list q = ks_idle s a /\
  cw_conns w' = cw_conns w /\ cw_keepn w' = cw_keepn w /\ cw_proxies w' = cw_proxies w /\ cw_ntfys w' = cw_ntfys w /\
  cw_ep w' = cw_ep w /\ cw_pool w' = cw_pool w /\ cw_armed w' = cw_armed w /\ cw_keeps w' = cw_keeps w.
Proof.
  intros I. destruct (find_keep_ok s w a (ki_lists _ _ _ _ _ I)) as (r & Er & Hr). rewrite Er. cbn [mbind option_bind].
  destruct r as [k|].
  - destruct Hr as (q & Ek & Ea & El). by exists k, w, q.
  - eexists _, _, (mkKeepKey a []). split; [reflexivity|].
    pose proof (new_list_ok s w a (ki_lists _ _ _ _ _ I) Er) as Hl. split; [by apply (keep_inv_lists s w)|].
    split; [apply lookup_insert_eq|]. by rewrite Hr.
Qed.

Lemma idle_attached s w w' c a y z' k q : keep_inv s w -> ks_loc s !! c = Some (KUsed a) -> conn c w = Some y ->
  bad_addr a = false -> 0 < cn_osfd y < max -> cw_keys w !! k = Some q -> kk_addr q = a -> kk_list q = ks_idle s a ->
  aside c (cn_keep_ntfy y) (cn_osfd y) w w' -> side_ok w' -> conn c w' = Some (set_keep_flag 3 (freed y)) ->
  embedded c (cn_keep_ntfy y) z' w' -> eo_fd z' = cn_osfd y -> eo_events z' = EPOLLIN -> is_open w' (cn_osfd y) ->
  f_epobj (ref w' (cn_osfd y)) = Some (cn_keep_ntfy y) -> f_events (ref w' (cn_osfd y)) = EPOLLIN ->
  cw_armed w' = {[c]} ∪ cw_armed w -> cw_keeps w' = cw_keeps w -> cw_keys w' = <[k := set_keep_list (kk_list q ++ [c]) q]> (cw_keys w) ->
  cw_hash w' = cw_hash w -> keep_inv (keep c a s) w'.
Proof.
  intros I Hl Ey Hb Hr Ek Ea El F Sd Ey' M Ez Hev Hop Hp Hv Har Hks Hk Hh. pose proof (ki_wf _ _ _ _ _ I) as W.
  destruct (ki_conn _ _ _ _ _ I _ _ Hl) as (y0 & z0 & Ey0 & Hty & _ & _ & Hd & Hfl). simplify_eq.
  set (y' := set_keep_flag 3 (freed y)) in *.
  apply (keep_inv_move s _ w w' c _ y _ (cn_osfd y) I Hl Ey eq_refl); try done.
  - lia.
  - by eapply keep_wf.
  - eapply lists_set; [apply I|exact Ek|reflexivity|exact Hk|done|]. cbn [keep ks_idle]. by rewrite El.
  - cbn [keep ks_pool]. rewrite Hks. apply I.
  - intros d Hdc. cbn [keep ks_loc]. rewrite lookup_insert_ne by done. split; [done|]. rewrite Har. set_solver.
  - rewrite Har. cbn [keep ks_loc]. rewrite lookup_insert_eq. split; [intros _; by eexists|set_solver].
  - cbn [keep ks_loc]. rewrite lookup_insert_eq. intros l' [= <-]. exists y', z'. do 3 (split; [done|]). split; [done|].
    cbn [place_ok]. split_and!; try done. cbn. lia.
  - intros y2 _ E. simplify_eq. done.
  - right. right. eexists _, y'. cbn [keep ks_loc]. rewrite lookup_insert_eq. split; [reflexivity|done].
  - right. cbn [keep ks_loc]. rewrite lookup_insert_eq. split; [done|]. by exists y'.
Qed.

(** A connection whose embedded object was written, and nothing else. *)
Lemma attach_fails_inv s w w' c a y z' : keep_inv s w -> ks_loc s !! c = Some (KUsed a) -> conn c w = Some y -> 0 <= cn_osfd y ->
  inert c (cn_keep_ntfy y) (cn_osfd y) w w' -> embedded c (cn_keep_ntfy y) z' w' -> is_open w' (cn_osfd y) -> conn c w' = Some y ->
  eo_fd z' = cn_osfd y -> cw_armed w' = cw_armed w -> clean w' (cn_osfd y) -> keep_inv s w'.
Proof.
  intros I Hl Ey Hp F M Ho Ey' Ez Ea Hc. destruct (ki_conn _ _ _ _ _ I _ _ Hl) as (y0 & z & Ey0 & Hty & _ & Hr & Hd & Hfl). simplify_eq.
  apply (keep_inv_move s s w w' c _ y _ (cn_osfd y) I Hl Ey eq_refl); try done; try apply I.
  - lia.
  - apply F.
  - apply (inert_side _ _ _ _ _ _ F); [eexists; apply M|left; apply Hc|apply I].
  - apply (lists_same s s w w' (ki_lists _ _ _ _ _ I)); [done|apply F..].
  - rewrite (in_keeps _ _ _ _ _ _ F). apply I.
  - intros d _. by rewrite Ea.
  - rewrite Ea. apply I.
  - intros l' E. rewrite Hl in E. injection E as <-. exists y, z'. do 3 (split; [done|]). split; [|done]. intros _. by destruct (Hr Hp).
  - intros y2 _ E. by simplify_eq.
  - left. apply Hc.
  - right. split; [by rewrite Hl|]. by exists y.
Qed.

Lemma Cache_ok s w c a y : keep_inv s w -> ks_loc s !! c = Some (KUsed a) -> conn c w = Some y -> user_ok brep y w ->
  (0 <= cn_osfd y -> clean w (cn_osfd y)) ->
  (keepable (cn_osfd y) a w = true -> ctl_accepts (sys w) EPOLL_CTL_ADD (cn_osfd y) EPOLLIN) -> exists w', CacheTcpKeepConn c w = Some (keepable (cn_osfd y) a w, w') /\
    if keepable (cn_osfd y) a w
    then keep_inv (keep c a s) w' /\ cn_osfd <$> conn c w' = Some (cn_osfd y) /\ is_open w' (cn_osfd y)
    else keep_inv s w' /\ cw_keeps w' = cw_keeps w /\ conn c w' = Some y /\ user_ok brep y w'.
Proof.
  intros I Hl Ey Hu Hcl Hok. destruct (ki_conn _ _ _ _ _ I _ _ Hl) as (y0 & z & Ey0 & Hty & M & Hr & Hd & Hfl). simplify_eq.
  unfold CacheTcpKeepConn. rewrite Ey. cbn [mbind option_bind]. unfold keepable.
  unfold keepable in Hok. destruct (bad_addr (cn_dst y)) eqn:Hb; cbn [negb andb]; [by exists w|]. cbn [negb andb] in Hok.
  destruct (list_for s w (cn_dst y) I) as (k & w1 & q & E1 & I1 & Ek & Ea & El & S1 & S2 & S3 & S4 & S5 & S6 & S7 & S8).
  destruct (find_keep (cn_dst y) w) as [r|]; [|done]. cbn [mbind option_bind] in E1 |- *. apply (inj Some) in E1. rewrite E1.
  assert (Ey1 : conn c w1 = Some y) by (unfold conn; by rewrite S1).
  assert (Hu1 : user_ok brep y w1) by (unfold user_ok, ob, ref in *; by rewrite S2, S3, S4, S5, S6).
  destruct (Z.leb_spec 0 (cn_osfd y)) as [Hp|Hp]; cbn [andb].
  2: { unfold IdleAttach. rewrite Ey1. cbn [mbind option_bind]. destruct (Z.ltb_spec (cn_osfd y) 0); [|lia]. cbn [mbind option_bind negb].
    by exists w1. }
  destruct (Hr Hp) as (Hrange & Hop & Ez). specialize (Hcl Hp).
  assert (M1 : embedded c (cn_keep_ntfy y) z w1).
  { destruct M. split; unfold ob in *; by rewrite ?S2, ?S3, ?S4, ?S5. }
  destruct (IdleAttach_keep kopen max c _ z y w1 (cn_osfd y) Ey1 eq_refl eq_refl Hrange) as (w2 & E2 & F2 & M2 & Ho2 & H2); try done.
  { apply I1. } { unfold clean, ref in *. by rewrite S5. } { unfold ConnKeep.is_open, sys in *. by rewrite S5. }
  { intros [b E]%(ki_armed _ _ _ _ _ I1). congruence. }
  { rewrite S7. unfold sys. rewrite S5. intros Ht. apply Hok. rewrite Ht. by destruct (Z.leb_spec 0 (cn_osfd y)); [|lia]. }
  rewrite E2, S7. cbn [mbind option_bind]. rewrite S7 in H2. destruct (timer_room (cw_armed w)); cbn [negb].
  2: { destruct H2 as (Ey2 & Ea2 & Hc2). exists w2. split; [done|]. split; [|split; [by rewrite (in_keeps _ _ _ _ _ _ F2), S8|split; [done|]]].
    2: { eapply user_after; [exact Hu1|exact M1|exact F2|left; apply Hc2|done..]. }
    eapply (attach_fails_inv s w1 w2 c _ y (watcher z) I1 Hl Ey1 Hp); try done. by rewrite S7. }
  destruct H2 as (Ey2 & Ea2 & Hp2 & Hv2). set (y2 := set_keep_flag TCP_KEEP_IN_EPOLL y) in *.
  unfold ConnReuseClean. destruct (Reset_calm brep c y2 w2 Ey2) as (w3 & E3 & F3 & Ey3).
  { eapply user_after; [exact Hu1|exact M1|exact F2|by right; left|done..]. }
  rewrite E3. cbn [mbind option_bind]. assert (Ek3 : cw_keys w3 !! k = Some q) by (by rewrite (cm_keys _ _ _ F3), (in_keys _ _ _ _ _ _ F2)).
  assert (Hc : c ∉ kk_list q) by (rewrite El; apply idle_out; [apply I|congruence]).
  rewrite (InsertConn_some k c (freed y2) q w3 Ey3 eq_refl Ek3 Hc). cbn [mbind option_bind].
  eexists. split; [reflexivity|]. split; [|split; [unfold conn; cbn; by rewrite lookup_insert_eq|unfold ConnKeep.is_open, sys; cbn; change (is_open w3 (cn_osfd y)); unfold ConnKeep.is_open; by rewrite (cm_sys _ _ _ F3)]].
  set (w4 := set_conns _ _). pose proof (calm_embedded _ _ _ _ _ _ F3 M2) as M3.
  assert (Hrf : forall fd, ref w4 fd = ref w2 fd) by (intros fd; unfold ref, fdref, w4; cbn; by rewrite (cm_refs _ _ _ F3)).
  eapply (idle_attached s w1 w4 c _ y (watcher z) k q I1 Hl Ey1 Hb Hrange Ek Ea El).
  - etrans; [apply F2|]. etrans; [by apply (calm_aside kopen c _ _ w2 w3)|].
    transitivity (set_keys (<[k := set_keep_list (kk_list q ++ [c]) q]> (cw_keys w3)) w3); [done|].
    exact (in_aside _ _ _ _ _ _ (inert_conn kopen c _ _ (set_keys (<[k := _]> (cw_keys w3)) w3) _)).
  - apply (cm_side _ _ _ F3). apply (inert_side _ _ _ _ _ _ F2); [eexists; apply M2|by right; left|apply I1].
  - apply lookup_insert_eq.
  - by destruct M3.
  - done.
  - by apply watch_reading, M.
  - unfold ConnKeep.is_open, sys, w4. cbn. change (is_open w3 (cn_osfd y)). unfold ConnKeep.is_open. by rewrite (cm_sys _ _ _ F3).
  - by rewrite Hrf.
  - by rewrite Hrf.
  - cbn. by rewrite (cm_armed _ _ _ F3), Ea2, S7.
  - cbn. by rewrite (cm_keeps _ _ _ F3), (in_keeps _ _ _ _ _ _ F2).
  - cbn. by rewrite (cm_keys _ _ _ F3), (in_keys _ _ _ _ _ _ F2).
  - cbn. by rewrite (cm_hash _ _ _ F3), (in_hash _ _ _ _ _ _ F2).
Qed.
End run.
