(* ===== verification/ConnKeepProps.v ===== *)
(** * Idle TCP connections: what the manager promises

    The specification of all calls as a relation, the runs in which calls, timers,
    events and the users of connections alternate, and the theorem that [TcpKeepMgr]
    refines the one in the other as long as the kernel accepts its [epoll_ctl] calls. *)

From Stdlib Require Import ZArith Lia.
From stdpp Require Import base gmap list option fin_sets functions.
From S2P Require Import Prelude Bytes HashList KeyTable MtSession MbufPool Epoll ConnData ConnNtfy ConnOps ConnAct.
From S2P Require Import ConnKeep ConnKeepOps ConnKeepRun.

(** What happens to the manager: a user takes a connection, opens its socket, gives it
    back; the timer of an idle connection fires; epoll reports something for [fd]. *)
Inductive keep_op := KGet (a : addr) | KSock (c : ptr) | KFree (c : ptr) (force : bool) | KTimer (c : ptr) | KEvent (fd : Z).

Section props.
Context {EV TB TS TK : Type} `{!ConnEnv EV, !KeyTable Z TB, !KeyTable Z TS, !KeyTable addr TK, !ConnUser}.
Abbreviation ConnW := (ConnW EV TB TS TK).
Context (kopen : EV -> Z -> Prop) (max : Z) `{L : !KeepLaws kopen max}.
Context (krep : (ptr -> addr) -> TK -> gmap addr ptr -> Prop) `{!KeyTableLaws addr TK krep}.
Context (brep : (ptr -> Z) -> TB -> gmap Z ptr -> Prop) `{!KeyTableLaws Z TB brep}.
Implicit Types (w : ConnW) (s : kstate) (c o p : ptr) (a : addr).
Abbreviation is_open := (is_open kopen).
Abbreviation keep_inv := (keep_inv kopen max krep).

Definition keep_do (op : keep_op) w : option (option ptr * ConnW) :=
  match op with
  | KGet a => GetTcpKeepConn a w
  | KSock c => '(_, w) ← TcpKeep_CreateSocket c w; Some (None, w)
  | KFree c force => w ← FreeTcpKeepConn c force w; Some (None, w)
  | KTimer c => w ← fire_timer c w; Some (None, w)
  | KEvent fd => o ← f_epobj (ref w fd); w ← KeepaliveClose o w; Some (None, w)
  end.

(** The rules for calling: only a connection one has taken, whose descriptor and
    notification object are not registered any more when it is given back; timers and
    events come as they were armed and registered. *)
Definition keep_allowed s (op : keep_op) w : Prop :=
  match op with
  | KGet _ => True
  | KSock c => exists a y, ks_loc s !! c = Some (KUsed a) /\ conn c w = Some y /\
      forall o, cn_ntfy y = Some o -> is_Some (ob o w) /\ cw_keepn w !! o = None
  | KFree c _ => exists a y, ks_loc s !! c = Some (KUsed a) /\ conn c w = Some y /\ user_ok brep y w /\
      (0 <= cn_osfd y -> clean w (cn_osfd y))
  | KTimer c => c ∈ cw_armed w
  | KEvent fd => exists o, f_epobj (ref w fd) = Some o /\ is_Some (cw_keepn w !! o)
  end.

(** The socket of a connection. *)
Definition sock c w : option Z := cn_osfd <$> conn c w.

(** The kernel does not refuse the [epoll_ctl] that the call makes: the one that
    watches a connection about to be kept, or the one that ends the watch of an idle
    connection. *)
Definition epoll_accepts s (op : keep_op) w : Prop :=
  let del c := forall y, conn c w = Some y -> ctl_accepts (sys w) EPOLL_CTL_DEL (cn_osfd y) 0 in
  match op with
  | KGet a => forall c l, ks_idle s a = c :: l -> del c
  | KSock _ => True
  | KFree c force => forall y, force = false -> conn c w = Some y -> keepable (cn_osfd y) (cn_dst y) w = true ->
      ctl_accepts (sys w) EPOLL_CTL_ADD (cn_osfd y) EPOLLIN
  | KTimer c => del c
  | KEvent fd => ctl_accepts (sys w) EPOLL_CTL_DEL fd 0
  end.

(** What each call does: the connection it gives and the state after it.
    - Taking: the connection that has been idle longest for the address, with its
      socket open as it was; else one of the pool or a new one, without socket.
    - Giving back: the connection goes to the end of the list of its address with its
      socket open, unless that is impossible or not wanted; then its socket is closed
      and it goes to the pool.
    - Time-out and event: the idle connection is closed and goes to the pool. *)
Inductive keep_spec w w' s : keep_op -> option ptr -> kstate -> Prop :=
| spec_reuse a c l fd : ks_idle s a = c :: l -> sock c w = Some fd -> sock c w' = Some fd -> is_open w' fd ->
    keep_spec w w' s (KGet a) (Some c) (lend c a s)
| spec_pooled a c l fd : ks_idle s a = [] -> ks_pool s = c :: l -> sock c w' = Some fd -> fd < 0 ->
    keep_spec w w' s (KGet a) (Some c) (lend c a s)
| spec_new a c fd : ks_idle s a = [] -> ks_pool s = [] -> ks_loc s !! c = None -> sock c w' = Some fd -> fd < 0 ->
    keep_spec w w' s (KGet a) (Some c) (lend c a s)
| spec_sock c fd fd' : sock c w = Some fd -> sock c w' = Some fd' -> (0 <= fd -> fd' = fd) ->
    (0 <= fd' -> fd < 0 -> ~ is_open w fd') -> (0 <= fd' -> is_open w' fd') -> keep_spec w w' s (KSock c) None s
| spec_keep c a fd : ks_loc s !! c = Some (KUsed a) -> sock c w = Some fd -> keepable fd a w = true ->
    sock c w' = Some fd -> is_open w' fd -> keep_spec w w' s (KFree c false) None (keep c a s)
| spec_release c a force fd : ks_loc s !! c = Some (KUsed a) -> sock c w = Some fd -> force || negb (keepable fd a w) = true ->
    (0 <= fd -> ~ is_open w' fd) -> keep_spec w w' s (KFree c force) None (release (pp_max (cw_keeps w)) c s)
| spec_timer c a fd : ks_loc s !! c = Some (KIdle a) -> sock c w = Some fd -> ~ is_open w' fd ->
    keep_spec w w' s (KTimer c) None (release (pp_max (cw_keeps w)) c (lend c a s))
| spec_event c a fd : ks_loc s !! c = Some (KIdle a) -> sock c w = Some fd -> ~ is_open w' fd ->
    keep_spec w w' s (KEvent fd) None (release (pp_max (cw_keeps w)) c (lend c a s)).

(** Whatever the rest of the program does between the calls; a user may set the
    action, the notification object, the message and the keep time of its own
    connection. *)
Record bystander s w w' : Prop := {
  by_idle c l : ks_loc s !! c = Some l -> (forall a, l <> KUsed a) -> conn c w' = conn c w;
  by_used c a y : ks_loc s !! c = Some (KUsed a) -> conn c w = Some y -> exists y', conn c w' = Some y' /\
    cn_type y' = cn_type y /\ cn_osfd y' = cn_osfd y /\ cn_keep_flag y' = cn_keep_flag y /\ cn_keep_ntfy y' = cn_keep_ntfy y /\
    cn_dst y' = cn_dst y;
  by_objs o : is_Some (cw_keepn w !! o) -> ob o w' = ob o w /\ cw_proxies w' !! o = cw_proxies w !! o /\
    cw_ntfys w' !! o = cw_ntfys w !! o;
  by_keepn : cw_keepn w' = cw_keepn w;
  by_keys : cw_keys w' = cw_keys w;
  by_hash : cw_hash w' = cw_hash w;
  by_keeps : cw_keeps w' = cw_keeps w;
  by_armed : cw_armed w' = cw_armed w;
  by_max : ep_maxfd (cw_ep w') = ep_maxfd (cw_ep w);
  by_refs fd o : f_epobj (ref w fd) = Some o -> is_Some (cw_keepn w !! o) -> ref w' fd = ref w fd;
  by_watch fd o : f_epobj (ref w' fd) = Some o -> is_Some (cw_keepn w !! o) -> f_epobj (ref w fd) = Some o;
  by_open c y : is_Some (ks_loc s !! c) -> conn c w = Some y -> is_open w (cn_osfd y) -> is_open w' (cn_osfd y);
  by_side : side_ok w -> side_ok w';
}.

Definition nobody : kstate := mkKS ∅ (fun _ => []) [].
Inductive keep_reach : kstate -> ConnW -> Prop :=
| reach_start k : keep_reach nobody (new_managers max k)
| reach_other s w w' : keep_reach s w -> bystander s w w' -> keep_reach s w'
| reach_op s w op r s' w' : keep_reach s w -> keep_allowed s op w -> epoll_accepts s op w -> keep_do op w = Some (r, w') ->
    keep_spec w w' s op r s' -> keep_reach s' w'.

Lemma keep_spec_det s w w' op r s1 s2 : keep_inv s w -> keep_spec w w' s op r s1 -> keep_spec w w' s op r s2 -> s1 = s2.
Proof.
  intros I H1 H2. assert (Hc : forall c c' a a' fd, ks_loc s !! c = Some (KIdle a) -> ks_loc s !! c' = Some (KIdle a') ->
    sock c w = Some fd -> sock c' w = Some fd -> c = c').
  { intros c c' a a' fd E E' F F'. destruct (idle_conn _ _ _ s w c a I E) as (y & z & Ey & _ & _ & Hr & _).
    unfold sock in *. rewrite Ey in F. destruct (conn c' w) as [y'|] eqn:Ey'; [|done]. simplify_eq/=.
    by eapply (ki_fds _ _ _ _ _ I c c' y y'); [eexists|eexists|..]; eauto; lia. }
  destruct H1; inversion H2; subst; try done; try congruence.
  - simplify_eq. by match goal with E : keepable _ _ _ = true, E' : false || negb _ = true |- _ => rewrite E in E' end.
  - simplify_eq. by match goal with E : keepable _ _ _ = true, E' : false || negb _ = true |- _ => rewrite E in E' end.
  - assert (c0 = c) as -> by eauto. congruence.
Qed.

(** The specification of taking an idle connection, read off. *)
Lemma spec_get_idle s w w' a c l fd r s' : keep_spec w w' s (KGet a) r s' -> ks_idle s a = c :: l -> sock c w = Some fd ->
  r = Some c /\ s' = lend c a s /\ sock c w' = Some fd /\ is_open w' fd.
Proof. intros Hs. inversion Hs; subst; intros; simplify_eq; split_and!; congruence. Qed.

Lemma start_inv k : keep_inv nobody (new_managers max k : ConnW).
Proof.
  split; try done.
  - split; cbn; [|by split; [intros ?%elem_of_nil|]|intros; constructor|constructor].
    intros b c. rewrite lookup_empty. split; [by intros ?%elem_of_nil|done].
  - exists ∅. split; [apply kt_new_ok|done].
  - intros c. split; [by intros ?%elem_of_empty|by intros [a E]].
Qed.
Lemma bystander_inv s w w' : keep_inv s w -> bystander s w w' -> keep_inv s w'.
Proof.
  intros I B. assert (Hc : forall c l y', ks_loc s !! c = Some l -> conn c w' = Some y' -> exists y, conn c w = Some y /\
    cn_osfd y' = cn_osfd y /\ cn_keep_ntfy y' = cn_keep_ntfy y).
  { intros c l y' Hl Ey'. destruct (ki_conn _ _ _ _ _ I c l Hl) as (y & z & Ey & _). exists y. split; [done|]. destruct l.
    1,3: rewrite (by_idle _ _ _ B c _ Hl) in Ey' by done; by simplify_eq.
    destruct (by_used _ _ _ B c a y Hl Ey) as (y2 & E2 & ? & ? & ? & ? & ?). by simplify_eq. }
  split.
  - apply I.
  - apply (lists_same krep s s w w' (ki_lists _ _ _ _ _ I)); [done|apply B..].
  - rewrite (by_max _ _ _ B). apply I.
  - intros c l Hl. destruct (ki_conn _ _ _ _ _ I c l Hl) as (y & z & Ey & Hty & [M1 M2 M3 M4 M5] & Hr & Hp).
    destruct (by_objs _ _ _ B (cn_keep_ntfy y)) as (E1 & E2 & E3); [by eexists|].
    assert (M' : embedded c (cn_keep_ntfy y) z w') by (split; [by rewrite (by_keepn _ _ _ B)|by rewrite E1|by rewrite E2|by rewrite E3|done]).
    assert (Hr' : 0 <= cn_osfd y -> 0 < cn_osfd y < max /\ is_open w' (cn_osfd y) /\ eo_fd z = cn_osfd y).
    { intros H0. destruct (Hr H0) as (? & ? & ?). split; [done|]. split; [|done]. by apply (by_open _ _ _ B c y); [eexists|..]. }
    destruct l as [a|a|].
    + exists y, z. rewrite (by_idle _ _ _ B c _ Hl) by done. do 4 (split; [done|]). destruct Hp as (P1 & P2 & P3 & P4 & P5 & P6 & P7 & P8).
      cbn [place_ok]. rewrite (by_refs _ _ _ B (cn_osfd y) _ P7) by (by eexists). by split_and!.
    + destruct (by_used _ _ _ B c a y Hl Ey) as (y2 & E & Q1 & Q2 & Q3 & Q4 & Q5). exists y2, z. rewrite Q1, Q2, Q4.
      do 4 (split; [done|]). cbn [place_ok] in *. by rewrite Q5, Q3.
    + exists y, z. rewrite (by_idle _ _ _ B c _ Hl) by done. by do 4 (split; [done|]).
  - intros c c' y y' [l Hl] [l' Hl'] Ey Ey' Hp Eq. destruct (Hc c l y Hl Ey) as (yo & Eyo & F1 & _).
    destruct (Hc c' l' y' Hl' Ey') as (yo' & Eyo' & F2 & _).
    apply (ki_fds _ _ _ _ _ I c c' yo yo'); [by eexists|by eexists|done|done|lia|congruence].
  - intros c. rewrite (by_armed _ _ _ B). apply I.
  - rewrite (by_keeps _ _ _ B). apply I.
  - intros fd o Ef. rewrite (by_keepn _ _ _ B). intros Hk. apply (by_watch _ _ _ B) in Ef; [|done].
    destruct (ki_watch _ _ _ _ _ I _ _ Ef Hk) as (c & a & y & E1 & E2 & E3 & E4). exists c, a, y.
    by rewrite (by_idle _ _ _ B c _ E1).
  - intros o x. rewrite (by_keepn _ _ _ B). intros Hx. destruct (ki_keepn _ _ _ _ _ I _ _ Hx) as (c & y & -> & [l Hl] & Ey & Eo).
    destruct (ki_conn _ _ _ _ _ I c l Hl) as (y0 & z & Ey0 & _). destruct l as [a|a|].
    2: { destruct (by_used _ _ _ B c a y Hl Ey) as (y2 & E & _ & _ & _ & Q4 & _). exists c, y2. split_and!; [done|by eexists|done|congruence]. }
    all: exists c, y; rewrite (by_idle _ _ _ B c _ Hl) by done; split_and!; [done|by eexists|done|done].
  - apply B, I.
Qed.

(** A timer or an event closes an idle connection. *)
Lemma close_idle s w c a ts : keep_inv s w -> ks_loc s !! c = Some (KIdle a) -> ts ∖ {[c]} = cw_armed w ∖ {[c]} ->
  (forall y, conn c w = Some y -> ctl_accepts (sys w) EPOLL_CTL_DEL (cn_osfd y) 0) ->
  exists w' fd, CloseIdleTcpKeep c (set_armed ts w) = Some w' /\ keep_inv (release (pp_max (cw_keeps w)) c (lend c a s)) w' /\
    sock c w = Some fd /\ ~ is_open w' fd.
Proof.
  intros I Hl Hts Hk. destruct (Remove_idle kopen max krep brep s w c a ts I Hl Hts Hk) as (w1 & y1 & E1 & I1 & Ey1 & Hu & Hs & Ek).
  unfold CloseIdleTcpKeep. rewrite E1. cbn [mbind option_bind]. unfold FreeTcpKeepConn.
  destruct (release_inv kopen max krep brep (lend c a s) w1 c a y1 I1) as (w2 & E2 & I2 & Hcl).
  { cbn. apply lookup_insert_eq. } { done. } { by apply user_none. }
  rewrite Ek in I2. exists w2, (cn_osfd y1). split; [done|]. split; [done|]. split; [done|]. apply Hcl.
  destruct (idle_conn kopen max krep s w c a I Hl) as (y & z & Ey & _ & _ & Hr & _). rewrite Ey in Hs. simplify_eq/=. lia.
Qed.

Lemma keep_do_ok s w op : keep_inv s w -> keep_allowed s op w -> epoll_accepts s op w -> exists r w' s', keep_do op w = Some (r, w') /\
  keep_spec w w' s op r s' /\ keep_inv s' w'.
Proof.
  intros I Ha Hok. destruct op as [a|c|c force|c|fd]; cbn [keep_do keep_allowed epoll_accepts] in *; cbv zeta in Hok.
  - destruct (ks_idle s a) as [|c l] eqn:Hid.
    + destruct (ks_pool s) as [|c l] eqn:Hp.
      * destruct (Get_new kopen max krep s w a I Hid Hp) as (c & w' & fd & E & Hl & I' & Es & Hf).
        exists (Some c), w', (lend c a s). split; [done|]. split; [by eapply spec_new|done].
      * destruct (Get_pool kopen max krep s w a c l I Hid Hp) as (w' & fd & E & I' & Es & Hf).
        exists (Some c), w', (lend c a s). split; [done|]. split; [by eapply spec_pooled|done].
    + destruct (Get_idle kopen max krep brep s w a c l I Hid (Hok c l eq_refl)) as (w' & fd & E & I' & Es & Es' & Ho).
      exists (Some c), w', (lend c a s). split; [done|]. split; [by eapply spec_reuse|done].
  - destruct Ha as (a & y & Hl & Ey & Hn).
    destruct (CreateSocket_inv kopen max krep s w c a I Hl) as (r & w' & fd & fd' & E & I' & H1 & H2 & H3 & H4 & H5).
    { intros y2 o E2. simplify_eq. apply Hn. }
    rewrite E. cbn [mbind option_bind]. exists None, w', s. split; [done|]. split; [by eapply spec_sock|done].
  - destruct Ha as (a & y & Hl & Ey & Hu & Hcl). assert (Es : sock c w = Some (cn_osfd y)) by (unfold sock; by rewrite Ey).
    unfold FreeTcpKeepConn. destruct force.
    + destruct (release_inv kopen max krep brep s w c a y I Hl Ey Hu) as (w' & -> & I' & Hc). cbn [mbind option_bind].
      eexists _, _, _. split; [done|]. split; [by eapply spec_release|done].
    + assert (Ed : cn_dst y = a).
      { destruct (ki_conn _ _ _ _ _ I _ _ Hl) as (y0 & z0 & Ey0 & _ & _ & _ & Hd & _). by simplify_eq. }
      destruct (Cache_ok kopen max krep brep s w c a y I Hl Ey Hu Hcl) as (w1 & Ec & H1).
      { rewrite <- Ed. by apply Hok. }
      rewrite Ec. clear Ec. cbn [mbind option_bind].
      destruct (keepable (cn_osfd y) a w) eqn:Hk.
      * destruct H1 as (I1 & Es1 & Ho). cbn [mbind option_bind]. eexists _, _, _. split; [done|]. split; [by eapply spec_keep|done].
      * destruct H1 as (I1 & Ek1 & Ey1 & Hu1). destruct (release_inv kopen max krep brep s w1 c a y I1 Hl Ey1 Hu1) as (w' & -> & I' & Hc).
        cbn [mbind option_bind]. rewrite Ek1 in I'. eexists _, _, _. split; [done|]. split; [|done].
        eapply spec_release; [done|done|by rewrite Hk|done].
  - apply (ki_armed _ _ _ _ _ I) in Ha as [a Hl].
    destruct (close_idle s w c a (cw_armed w ∖ {[c]}) I Hl ltac:(set_solver) Hok) as (w' & fd & E & I' & Es & Ho).
    unfold fire_timer, timer_notify, stop_timer. rewrite E. cbn [mbind option_bind]. eexists _, _, _. split; [done|].
    split; [by eapply spec_timer|done].
  - destruct Ha as (o & Ef & Hk). destruct (ki_watch _ _ _ _ _ I _ _ Ef Hk) as (c & a & y & Hl & Ey & Eo & Efd).
    destruct (idle_conn kopen max krep s w c a I Hl) as (y2 & z & Ey2 & _ & M & _). simplify_eq.
    assert (Hk' : forall y', conn c w = Some y' -> ctl_accepts (sys w) EPOLL_CTL_DEL (cn_osfd y') 0) by (intros y' ?; by simplify_eq).
    destruct (close_idle s w c a (cw_armed w) I Hl eq_refl Hk') as (w' & fd & E & I' & Es & Ho).
    rewrite Ef. cbn [mbind option_bind]. unfold KeepaliveClose. rewrite (em_conn _ _ _ _ M).
    replace (set_armed (cw_armed w) w) with w in E by (by destruct w). rewrite E. cbn [mbind option_bind].
    unfold sock in Es. rewrite Ey in Es. simplify_eq/=. eexists _, _, _. split; [done|].
    split; [eapply spec_event; [done|by unfold sock; rewrite Ey|done]|done].
Qed.

Lemma reach_inv s w : keep_reach s w -> keep_inv s w.
Proof.
  induction 1 as [k|s w w' _ IH B|s w op r s' w' _ IH Ha Hk E Hs].
  - apply start_inv.
  - by eapply bystander_inv.
  - destruct (keep_do_ok s w op IH Ha Hk) as (r2 & w2 & s2 & E2 & Hs2 & I2). rewrite E in E2. simplify_eq.
    by rewrite (keep_spec_det s w w2 op r2 s' s2 IH Hs Hs2).
Qed.

(** C5: the manager of idle TCP connections does what its specification says, for
    ever.  However calls, time-outs and events at idle connections alternate with the
    other work of the program, every call has a result: no connection is used after it
    was deleted, none is in two lists or in a list twice, and each does what
    [keep_spec] says.  So a connection is lent to one user at a time, for the address
    it was made for, the one idle longest first, with its socket still open; and a
    socket that is not kept is closed.  All this as long as the kernel does not refuse
    the [epoll_ctl] calls of the manager ([epoll_accepts]): when it does, for want
    of memory, say, a connection can be pooled twice
    ([ConnKeepDemo.attach_refused_pools_twice]). *)
Theorem TcpKeepMgr_refines s w : keep_reach s w -> keep_inv s w /\ forall op, keep_allowed s op w ->
  epoll_accepts s op w -> exists r w' s', keep_do op w = Some (r, w') /\ keep_spec w w' s op r s' /\ keep_reach s' w'.
Proof.
  intros R. pose proof (reach_inv s w R) as I. split; [done|]. intros op Ha Hk.
  destruct (keep_do_ok s w op I Ha Hk) as (r & w' & s' & E & Hs & I'). exists r, w', s'. do 2 (split; [done|]). by eapply reach_op.
Qed.
End props.
