(* ===== verification/ConnKeepDemo.v ===== *)
(** * Idle TCP connections in a concrete environment

    A kernel that numbers its sockets, and a connection that is taken, used and kept; and
    a kernel that refuses a registration, after which a connection is pooled twice. *)

From Stdlib Require Import ZArith Lia.
From stdpp Require Import base gmap list option fin_sets functions.
From S2P Require Import Prelude Bytes HashList KeyTable MtSession MbufPool Epoll ConnData ConnNtfy ConnOps ConnAct.
From S2P Require Import ConnKeep ConnKeepOps ConnKeepRun ConnKeepProps.

#[local] Instance keep_user : ConnUser := {
  malloc _ n := Some (replicate (Z.to_nat n) 0);
  fresh_flag _ := 0;
  timer_room _ := true;
  thread_args _ := None;
  get_session_id _ _ := (0, 0);
  handle_encode _ _ := (0, 0, []);
  handle_input _ l := blen l;
  handle_process _ _ := 0;
}.
#[local] Instance keep_sizes : KeyTable Z hash_table := HashList_KeyTable mbuf_hash mbuf_cmp.
#[local] Instance keep_addrs : KeyTable addr hash_table := HashList_KeyTable keep_hash keep_cmp.

(** The open sockets, and the number of the next one. *)
Record kern := mkKern { kn_open : gset Z; kn_next : Z }.
Definition kern_socket (k : kern) : Z * kern :=
  if bool_decide (0 < kn_next k < 1000 /\ kn_next k ∉ kn_open k)
  then (kn_next k, mkKern ({[kn_next k]} ∪ kn_open k) (kn_next k + 1)) else (-1, k).
#[local] Instance kern_env : ConnEnv kern := {
  ce_epoll_ctl k _ _ _ := (k, 0, 0);
  ce_socket _ k := kern_socket k;
  ce_ioctl _ k := (0, k);
  ce_bind _ _ k := (0, k);
  ce_close fd k := mkKern (kn_open k ∖ {[fd]}) (kn_next k);
  ce_connect _ _ k := (0, 0, k);
  ce_sendto _ l _ k := (blen l, 0, k);
  ce_recvfrom _ _ k := (-1, EAGAIN, [], k);
  ce_send _ l k := (blen l, 0, k);
  ce_recv _ _ k := (-1, EAGAIN, [], k);
  ce_errno _ := EAGAIN;
  ce_pending _ _ := 0%nat;
}.
Definition kern_open (k : kern) (fd : Z) : Prop := fd ∈ kn_open k.
#[local] Instance kern_laws : KeepLaws kern_open 1000.
Proof.
  split; try done.
  - intros ty k. cbn. unfold kern_socket, kern_open. case_bool_decide as E; cbn [kn_open]; [|split; [by left|done]].
    split; [right; split; [apply E|set_solver]|set_solver].
  - intros fd k. unfold kern_open. cbn. set_solver.
Qed.

Abbreviation KW := (ConnW kern hash_table hash_table hash_table).
Abbreviation reached := (keep_reach kern_open 1000 (table_rep mbuf_hash)).
Definition next (op : keep_op) (w : KW) : KW := match keep_do op w with Some (_, w') => w' | None => w end.
Definition result (op : keep_op) (w : KW) : option (option ptr) := fst <$> keep_do op w.
Lemma do_next op (w : KW) r : result op w = Some r -> keep_do op w = Some (r, next op w).
Proof. unfold result, next. destruct (keep_do op w) as [[r' w']|]; cbn; congruence. Qed.

Definition here : addr := addr_of 16777343 80.
Definition kw0 : KW := new_managers 1000 (mkKern ∅ 5).
Definition kw1 : KW := next (KGet here) kw0.
Definition kw2 : KW := next (KSock 1%positive) kw1.
Definition kw3 : KW := next (KFree 1%positive false) kw2.
Definition ks1 : kstate := lend 1%positive here nobody.
Definition ks3 : kstate := keep 1%positive here ks1.

Example keep_sockets : (sock 1%positive kw1, sock 1%positive kw2, sock 1%positive kw3) = (Some (-1), Some 5, Some 5) /\ kn_open (sys kw3) = {[5]}.
Proof. split; vm_compute; reflexivity. Qed.

Lemma accepted s op (w : KW) : epoll_accepts s op w.
Proof. destruct op; cbn; intros; [by left|exact I|by left..]. Qed.

Lemma reached1 : reached ks1 kw1.
Proof.
  eapply (reach_op _ _ _ nobody kw0 (KGet here) (Some 1%positive)); [apply reach_start|exact I|apply accepted|apply do_next; vm_compute; reflexivity|].
  eapply (spec_new _ _ _ _ _ _ (-1)); try reflexivity; vm_compute; reflexivity.
Qed.
Lemma used1 : exists y, conn 1%positive kw1 = Some y /\ cn_ntfy y = None.
Proof. eexists. split; vm_compute; reflexivity. Qed.
Lemma reached2 : reached ks1 kw2.
Proof.
  eapply (reach_op _ _ _ ks1 kw1 (KSock 1%positive) None); [apply reached1| |apply accepted|apply do_next; vm_compute; reflexivity|].
  - destruct used1 as (y & Ey & En). exists here, y. split; [vm_compute; reflexivity|]. split; [exact Ey|]. intros o Eo.
    rewrite En in Eo. discriminate Eo.
  - apply (spec_sock _ _ _ _ _ (-1) 5); [vm_compute; reflexivity|vm_compute; reflexivity|lia| |].
    + intros _ _. apply (bool_decide_unpack (5 ∉ kn_open (sys kw1))). vm_compute. exact I.
    + intros _. apply (bool_decide_unpack (5 ∈ kn_open (sys kw2))). vm_compute. exact I.
Qed.
Lemma used2 : exists y, conn 1%positive kw2 = Some y /\ no_user y /\ cn_osfd y = 5.
Proof. eexists. split; [vm_compute; reflexivity|]. repeat split. Qed.
Lemma reached3 : reached ks3 kw3.
Proof.
  eapply (reach_op _ _ _ ks1 kw2 (KFree 1%positive false) None); [apply reached2| |apply accepted|apply do_next; vm_compute; reflexivity|].
  - destruct used2 as (y & Ey & Hu & Ef). exists here, y. split; [vm_compute; reflexivity|]. split; [exact Ey|].
    split; [by apply user_none|]. intros _. rewrite Ef. split; vm_compute; reflexivity.
  - apply (spec_keep _ _ _ _ _ here 5); vm_compute; reflexivity.
Qed.

(** The next user of the address gets the connection with its socket. *)
Lemma TcpKeepMgr_refines_witness : exists w', keep_do (KGet here) kw3 = Some (Some 1%positive, w') /\
  sock 1%positive w' = Some 5 /\ is_open kern_open w' 5 /\ reached (lend 1%positive here ks3) w'.
Proof.
  destruct (TcpKeepMgr_refines kern_open 1000 (table_rep keep_hash) (table_rep mbuf_hash) ks3 kw3 reached3) as [_ H].
  destruct (H (KGet here) I (accepted _ _ _)) as (r & w' & s' & E & Hs & R).
  destruct (spec_get_idle kern_open ks3 kw3 w' here 1%positive [] 5 r s' Hs ltac:(vm_compute; reflexivity) ltac:(vm_compute; reflexivity))
    as (Er & Es & Hw & Ho).
  exists w'. split; [exact (eq_trans E (f_equal (fun r => Some (r, w')) Er))|]. split; [exact Hw|]. split; [exact Ho|]. exact (eq_ind _ (fun s => reached s w') R _ Es).
Defined.

(** ** A kernel that refuses to watch

    Every [epoll_ctl] fails with [ENOMEM]; the rest is the kernel above. *)

Record short := mkShort { sh_kern : kern }.
Definition ENOMEM : Z := 12.
#[local] Instance short_env : ConnEnv short := {
  ce_epoll_ctl k _ _ _ := (k, -1, ENOMEM);
  ce_socket _ k := let '(fd, k) := kern_socket (sh_kern k) in (fd, mkShort k);
  ce_ioctl _ k := (0, k);
  ce_bind _ _ k := (0, k);
  ce_close fd k := mkShort (ce_close fd (sh_kern k));
  ce_connect _ _ k := (0, 0, k);
  ce_sendto _ l _ k := (blen l, 0, k);
  ce_recvfrom _ _ k := (-1, EAGAIN, [], k);
  ce_send _ l k := (blen l, 0, k);
  ce_recv _ _ k := (-1, EAGAIN, [], k);
  ce_errno _ := EAGAIN;
  ce_pending _ _ := 0%nat;
}.

Definition after (ops : list keep_op) : option (ConnW short hash_table hash_table hash_table) :=
  fold_left (fun w op => w ← w; snd <$> keep_do op w) ops (Some (new_managers 1000 (mkShort (mkKern ∅ 5)))).
Definition pool_and_timers (ops : list keep_op) : option (list ptr * list ptr) :=
  (fun w => (pp_list (cw_keeps w), elements (cw_armed w))) <$> after ops.

(** A connection that cannot be watched goes to the pool with its timer armed; when
    the timer fires it is put there again, and then lent to two users. *)
Theorem attach_refused_pools_twice : let c := 1%positive in let used := [KGet here; KSock c; KFree c false] in
  pool_and_timers used = Some ([c], [c]) /\
  pool_and_timers (used ++ [KTimer c]) = Some ([c; c], []) /\
  forall w, after (used ++ [KTimer c]) = Some w -> exists w', keep_do (KGet here) w = Some (Some c, w') /\
    fst <$> keep_do (KGet here) w' = Some (Some c).
Proof.
  split; [by vm_compute|]. split; [by vm_compute|]. intros w E.
  assert (fst <$> ('(r, w') ← keep_do (KGet here) w; '(r', w'') ← keep_do (KGet here) w'; Some (r, r', w'')) =
    Some (Some 1%positive, Some 1%positive)) as H.
  { change (fst <$> ('(r, w') ← keep_do (KGet here) w; '(r', w'') ← keep_do (KGet here) w'; Some (r, r', w'')))
      with ((fun o => fst <$> (w ← o; '(r, w') ← keep_do (KGet here) w; '(r', w'') ← keep_do (KGet here) w'; Some (r, r', w''))) (Some w)).
    rewrite <- E. vm_compute. reflexivity. }
  destruct (keep_do (KGet here) w) as [[r w']|]; [|done]. cbn [mbind option_bind] in H.
  destruct (keep_do (KGet here) w') as [[r' w'']|] eqn:E2; [|done]. cbn in H. injection H as -> ->.
  exists w'. split; [done|]. by rewrite E2.
Qed.
