(* ===== verification/NestProto.v ===== *)
(** * The nest packet format

    Models [src/src/nest/comm/nest_proto.h] and [nest_proto.cpp]: a packet is
    ["["], the lengths of head and body in network order, head, body, ["]"].  A
    pointer is modelled by the memory from it on; reading or writing past the end
    of that memory is undefined ([None]). *)

From Stdlib Require Import ZArith Lia.
From stdpp Require Import base list option.
From S2P Require Import Prelude Bytes.

Definition NEST_PKG_STX : Z := 0x5b.
Definition NEST_PKG_ETX : Z := 0x5d.
Definition NEST_PKG_COMM_HEAD_LEN : Z := 2 + 4 * 2.
Definition NEST_PKG_HEAD_LEN_POS : Z := 1.
Definition NEST_PKG_BODY_LEN_POS : Z := 5.
Definition NEST_PKG_HEAD_BUFF_POS : Z := 9.

(** [struct NestPkgInfo]; [None] is a [NULL] pointer. *)
Record NestPkgInfo := mkPkg {
  msg_buff : option (list Z);
  buff_len : Z;
  head_buff : option (list Z);
  head_len : Z;
  body_buff : option (list Z);
  body_len : Z;
}.

(** [NestProtoCheck]: 0 to wait for more data, the packet's length, or an error;
    on success the head and body pointers and lengths are set.  [info] is [None]
    for a [NULL] argument. *)
Definition NestProtoCheck (info : option NestPkgInfo) : option (Z * option NestPkgInfo) :=
  match info with
  | None => Some (-1, None)
  | Some pkg =>
      match msg_buff pkg with
      | None => Some (-1, info)
      | Some m =>
          let len := buff_len pkg in
          if len <? NEST_PKG_COMM_HEAD_LEN then Some (0, info)
          else
            stx ← bread 0 1 m;
            if negb (of_le stx =? NEST_PKG_STX) then Some (-2, info)
            else
              h ← bread NEST_PKG_HEAD_LEN_POS 4 m;
              b ← bread NEST_PKG_BODY_LEN_POS 4 m;
              let dwHeadLen := of_be h in
              let dwBodyLen := of_be b in
              let dwMsgLen := u32 (NEST_PKG_COMM_HEAD_LEN + dwHeadLen + dwBodyLen) in
              if len <? dwMsgLen then Some (0, info)
              else
                etx ← bread (u32 (dwMsgLen - 1)) 1 m;
                if negb (of_le etx =? NEST_PKG_ETX) then Some (-3, info)
                else
                  let hb := drop (Z.to_nat NEST_PKG_HEAD_BUFF_POS) m in
                  Some (i32 dwMsgLen,
                        Some (mkPkg (Some m) len (Some hb) dwHeadLen
                                (Some (bskip dwHeadLen hb)) dwBodyLen))
      end
  end.

(** [NestProtoPackPkg]: the packet is written to [msg_buff]. *)
Definition NestProtoPackPkg (info : option NestPkgInfo) : option (Z * option NestPkgInfo) :=
  match info with
  | None => Some (-1, None)
  | Some pkg =>
      match head_buff pkg with
      | None => Some (-1, info)
      | Some hb =>
          let msg_len := u32 (NEST_PKG_COMM_HEAD_LEN + head_len pkg + body_len pkg) in
          if buff_len pkg <? msg_len then Some (-2, info)
          else
            m ← msg_buff pkg;
            m ← bwrite 0 [NEST_PKG_STX] m;
            m ← bwrite NEST_PKG_HEAD_LEN_POS (be32 (head_len pkg)) m;
            m ← bwrite NEST_PKG_BODY_LEN_POS (be32 (body_len pkg)) m;
            d ← bread 0 (head_len pkg) hb;
            m ← bwrite NEST_PKG_HEAD_BUFF_POS d m;
            m ← (match body_buff pkg with
                 | Some bb => if 0 <? body_len pkg then
                                d ← bread 0 (body_len pkg) bb;
                                bwrite (NEST_PKG_HEAD_BUFF_POS + head_len pkg) d m
                              else Some m
                 | None => Some m
                 end);
            m ← bwrite (msg_len - 1) [NEST_PKG_ETX] m;
            Some (i32 msg_len, Some (mkPkg (Some m) (buff_len pkg) (head_buff pkg) (head_len pkg)
                                       (body_buff pkg) (body_len pkg)))
      end
  end.

(** ** The wire format *)

(** The bytes of a packet. *)
Definition packet (head body : list Z) : list Z :=
  [NEST_PKG_STX] ++ be32 (blen head) ++ be32 (blen body) ++ head ++ body ++ [NEST_PKG_ETX].

(** The memory a pointer and a length stand for. *)
Definition extent (p : option (list Z)) (n : Z) : option (list Z) := b ← p; bread 0 n b.

Lemma length_packet head body : blen (packet head body) = blen head + blen body + 10.
Proof. unfold packet. rewrite !blen_app, !blen_be32. unfold blen. simpl. lia. Qed.

#[local] Arguments packet : simpl never.

Section fields.
Context (head body rest : list Z).
Let p := packet head body ++ rest.

Lemma packet_fields :
  bread 0 1 p = Some [NEST_PKG_STX] /\ bread NEST_PKG_HEAD_LEN_POS 4 p = Some (be32 (blen head)) /\
  bread NEST_PKG_BODY_LEN_POS 4 p = Some (be32 (blen body)) /\
  bread (blen head + blen body + 9) 1 p = Some [NEST_PKG_ETX] /\
  drop 9 p = head ++ body ++ [NEST_PKG_ETX] ++ rest.
Proof.
  pose proof (length_be32 (blen head)) as L1. pose proof (length_be32 (blen body)) as L2.
  assert (E : p = [NEST_PKG_STX] ++ be32 (blen head) ++ be32 (blen body) ++ head ++ body ++ [NEST_PKG_ETX] ++ rest).
  { unfold p, packet. by rewrite <- !app_assoc. }
  assert (Hg : forall a d b off n, p = a ++ d ++ b -> off = blen a -> n = blen d -> bread off n p = Some d).
  { intros a d b off n Ep -> ->. unfold blen. rewrite bread_ok by (rewrite Ep, !length_app; lia).
    by rewrite Ep, drop_app_length, take_app_length. }
  split_and!.
  - by apply (Hg [] [NEST_PKG_STX] (be32 (blen head) ++ be32 (blen body) ++ head ++ body ++ [NEST_PKG_ETX] ++ rest)).
  - apply (Hg [NEST_PKG_STX] _ (be32 (blen body) ++ head ++ body ++ [NEST_PKG_ETX] ++ rest)); [done|done|].
    by rewrite blen_be32.
  - apply (Hg ([NEST_PKG_STX] ++ be32 (blen head)) _ (head ++ body ++ [NEST_PKG_ETX] ++ rest)).
    + by rewrite E, <- !app_assoc.
    + by rewrite blen_app, blen_be32.
    + by rewrite blen_be32.
  - apply (Hg ([NEST_PKG_STX] ++ be32 (blen head) ++ be32 (blen body) ++ head ++ body) _ rest); [..|done].
    + by rewrite E, <- !app_assoc.
    + rewrite !blen_app, !blen_be32. change (blen [NEST_PKG_STX]) with 1. lia.
  - rewrite E. rewrite (app_assoc [NEST_PKG_STX]), (app_assoc ([NEST_PKG_STX] ++ be32 (blen head))).
    rewrite drop_app_length'; [done|]. rewrite !length_app, L1, L2. done.
Qed.
End fields.

(** What [NestProtoCheck] does on a buffer that starts with a packet or holds a
    part of one. *)
Lemma check_packet head body rest len hb hl bb bl :
  blen head + blen body + 10 < 2 ^ 31 -> 0 <= len <= blen (packet head body ++ rest) ->
  NestProtoCheck (Some (mkPkg (Some (packet head body ++ rest)) len hb hl bb bl)) =
    Some (if len <? blen (packet head body) then (0, Some (mkPkg (Some (packet head body ++ rest)) len hb hl bb bl))
          else (blen (packet head body),
                Some (mkPkg (Some (packet head body ++ rest)) len
                        (Some (head ++ body ++ [NEST_PKG_ETX] ++ rest)) (blen head)
                        (Some (body ++ [NEST_PKG_ETX] ++ rest)) (blen body)))).
Proof.
  intros Hsz Hlen. destruct (packet_fields head body rest) as (F1 & F2 & F3 & F4 & F5).
  set (p := packet head body ++ rest) in *. pose proof (length_packet head body) as Hp.
  assert (0 <= blen head /\ 0 <= blen body) as [? ?] by (unfold blen; lia).
  unfold NestProtoCheck. cbn [msg_buff buff_len]. unfold NEST_PKG_COMM_HEAD_LEN.
  destruct (Z.ltb_spec len (2 + 4 * 2)).
  { by rewrite (proj2 (Z.ltb_lt _ _)) by lia. }
  rewrite F1. cbn [mbind option_bind]. change (of_le [NEST_PKG_STX]) with NEST_PKG_STX. rewrite Z.eqb_refl. cbn [negb].
  rewrite F2. cbn [mbind option_bind]. rewrite F3. cbn [mbind option_bind].
  rewrite !of_be32 by (unfold in_u32; lia). rewrite (u32_small (2 + 4 * 2 + blen head + blen body)) by (unfold in_u32; lia).
  replace (2 + 4 * 2 + blen head + blen body) with (blen (packet head body)) by lia.
  destruct (Z.ltb_spec len (blen (packet head body))); [done|].
  rewrite u32_small by (unfold in_u32; lia).
  replace (blen (packet head body) - 1) with (blen head + blen body + 9) by lia. rewrite F4. cbn [mbind option_bind].
  change (of_le [NEST_PKG_ETX]) with NEST_PKG_ETX. rewrite Z.eqb_refl. cbn [negb].
  rewrite i32_small by lia. change (Z.to_nat NEST_PKG_HEAD_BUFF_POS) with 9%nat. rewrite F5.
  by rewrite bskip_app.
Qed.

(** Packing writes the packet at the start of the buffer. *)
Lemma pack_packet m len head hrest body brest :
  0 <= len <= blen m -> blen head + blen body + 10 < 2 ^ 31 ->
  NestProtoPackPkg (Some (mkPkg (Some m) len (Some (head ++ hrest)) (blen head) (Some (body ++ brest)) (blen body))) =
    Some (if len <? blen (packet head body)
          then (-2, Some (mkPkg (Some m) len (Some (head ++ hrest)) (blen head) (Some (body ++ brest)) (blen body)))
          else (blen (packet head body),
                Some (mkPkg (Some (packet head body ++ drop (length (packet head body)) m)) len
                  (Some (head ++ hrest)) (blen head) (Some (body ++ brest)) (blen body)))).
Proof.
  intros Hlen Hsz. pose proof (length_packet head body) as Hp.
  assert (0 <= blen head /\ 0 <= blen body) as [? ?] by (unfold blen; lia).
  unfold NestProtoPackPkg. cbn [msg_buff buff_len head_buff head_len body_buff body_len].
  unfold NEST_PKG_COMM_HEAD_LEN. rewrite (u32_small (2 + 4 * 2 + blen head + blen body)) by (unfold in_u32; lia).
  replace (2 + 4 * 2 + blen head + blen body) with (blen (packet head body)) by lia.
  destruct (Z.ltb_spec len (blen (packet head body))); [done|]. cbn [mbind option_bind].
  assert (Hext : forall d r, bread 0 (blen d) (d ++ r) = Some d).
  { intros d r. unfold blen. rewrite (bread_ok 0) by (rewrite length_app; lia).
    by rewrite drop_0, take_app_length. }
  rewrite !Hext. cbn [mbind option_bind].
  assert (Hbody : forall k : list Z -> option (Z * option NestPkgInfo), forall off,
    (m' ← bwrite NEST_PKG_HEAD_BUFF_POS head off;
     m' ← (if 0 <? blen body then bwrite (NEST_PKG_HEAD_BUFF_POS + blen head) body m' else Some m'); k m') =
    (m' ← bwrite NEST_PKG_HEAD_BUFF_POS (head ++ body) off; k m')).
  { intros k off. destruct (Z.ltb_spec 0 (blen body)); [apply bwrite_seq; done|].
    assert (body = []) as -> by (destruct body; [done|unfold blen in *; simpl in *; lia]).
    rewrite app_nil_r. by destruct (bwrite NEST_PKG_HEAD_BUFF_POS head off). }
  rewrite bwrite_seq by done. rewrite bwrite_seq by (rewrite ?blen_app, ?blen_be32; done).
  transitivity (m' ← bwrite 0 (packet head body) m;
     Some (blen (packet head body), Some (mkPkg (Some m') len (Some (head ++ hrest)) (blen head)
        (Some (body ++ brest)) (blen body)))).
  2: { rewrite (bwrite_at 0 0) by (done || (unfold blen in *; lia)). done. }
  rewrite i32_small by lia.
  set (pre := ([NEST_PKG_STX] ++ be32 (blen head)) ++ be32 (blen body)).
  assert (Hpre : blen pre = 9) by (unfold pre; rewrite !blen_app, !blen_be32; done).
  destruct (bwrite 0 pre m) as [m1|] eqn:E1.
  - cbn [mbind option_bind]. rewrite Hbody, bwrite_seq by (unfold NEST_PKG_HEAD_BUFF_POS; rewrite ?blen_app; lia).
    transitivity (m0 ← bwrite 0 pre m; m2 ← bwrite 9 ((head ++ body) ++ [NEST_PKG_ETX]) m0;
      Some (blen (packet head body), Some (mkPkg (Some m2) len (Some (head ++ hrest)) (blen head)
        (Some (body ++ brest)) (blen body)))); [by rewrite E1|].
    rewrite bwrite_seq by lia. unfold pre, packet. by rewrite <- !app_assoc.
  - exfalso. revert E1. rewrite (bwrite_at 0 0) by (done || (unfold blen in *; lia)). done.
Qed.

(** C39: packing and checking are inverse.  For a head and a body whose packet is
    shorter than 2{^31} bytes, [NestProtoPackPkg] into a buffer that is long enough
    returns the packet's length; [NestProtoCheck] on that buffer, followed by
    anything, returns the same length and pointers to exactly that head and body. *)
Theorem pack_check_roundtrip m len head hrest body brest :
  blen (packet head body) <= len <= blen m -> blen head + blen body + 10 < 2 ^ 31 ->
  exists info n, NestProtoPackPkg (Some (mkPkg (Some m) len (Some (head ++ hrest)) (blen head)
                                          (Some (body ++ brest)) (blen body))) = Some (n, Some info) /\
    n = blen (packet head body) /\
    exists info', NestProtoCheck (Some info) = Some (n, Some info') /\
      extent (head_buff info') (head_len info') = Some head /\
      extent (body_buff info') (body_len info') = Some body.
Proof.
  intros Hlen Hsz. pose proof (length_packet head body) as Hp.
  assert (0 <= blen head /\ 0 <= blen body) as [? ?] by (unfold blen; lia).
  rewrite pack_packet by lia. rewrite (proj2 (Z.ltb_ge _ _)) by lia.
  eexists _, _. split; [reflexivity|]. split; [done|].
  rewrite check_packet; [|lia|].
  - rewrite (proj2 (Z.ltb_ge _ _)) by lia. eexists. split; [reflexivity|]. unfold extent.
    cbn [head_buff head_len body_buff body_len mbind option_bind]. unfold blen.
    rewrite (bread_ok 0) by (rewrite length_app; lia).
    rewrite (bread_ok 0) by (rewrite length_app; lia).
    rewrite !drop_0, !take_app_length. done.
  - split; [lia|]. rewrite blen_app. unfold blen in *. rewrite length_drop. lia.
Qed.

(** A packet that has not arrived completely is waited for, never misread.
    For every strict prefix of a packet, [NestProtoCheck] on the bytes received so
    far returns 0 and leaves the descriptor unchanged. *)
Theorem check_waits_for_prefix head body n hb hl bb bl :
  blen head + blen body + 10 < 2 ^ 31 -> (n < length (packet head body))%nat ->
  let info := mkPkg (Some (take n (packet head body))) (Z.of_nat n) hb hl bb bl in
  NestProtoCheck (Some info) = Some (0, Some info).
Proof.
  intros Hsz Hn info. pose proof (length_packet head body) as Hp.
  assert (0 <= blen head /\ 0 <= blen body) as [? ?] by (unfold blen; lia).
  destruct (packet_fields head body []) as (F1 & F2 & F3 & _ & _). rewrite app_nil_r in F1, F2, F3.
  assert (Hpre : forall off k d, bread off k (packet head body) = Some d -> off + k <= Z.of_nat n ->
    bread off k (take n (packet head body)) = Some d).
  { intros off k d. unfold bread, blen. rewrite length_take.
    destruct (Z.leb_spec 0 off); [|done]. destruct (Z.leb_spec 0 k); [|done]. cbn [andb].
    destruct (Z.leb_spec (off + k) (Z.of_nat (length (packet head body)))); [|done]. intros E Hk.
    rewrite (proj2 (Z.leb_le _ _)) by lia. rewrite <- E. f_equal.
    rewrite <- (take_drop n (packet head body)) at 2.
    rewrite drop_app_le, take_app_le by (rewrite ?length_drop, ?length_take; lia). done. }
  unfold NestProtoCheck, info. cbn [msg_buff buff_len]. unfold NEST_PKG_COMM_HEAD_LEN.
  destruct (Z.ltb_spec (Z.of_nat n) (2 + 4 * 2)); [done|].
  unfold NEST_PKG_HEAD_LEN_POS, NEST_PKG_BODY_LEN_POS in *.
  rewrite (Hpre _ _ _ F1) by lia. cbn [mbind option_bind].
  change (of_le [NEST_PKG_STX]) with NEST_PKG_STX. rewrite Z.eqb_refl. cbn [negb].
  rewrite (Hpre _ _ _ F2) by lia. cbn [mbind option_bind]. rewrite (Hpre _ _ _ F3) by lia. cbn [mbind option_bind].
  rewrite !of_be32 by (unfold in_u32; lia). rewrite u32_small by (unfold in_u32; lia).
  by rewrite (proj2 (Z.ltb_lt _ _)) by (unfold blen in *; lia).
Qed.

(** The length check can be passed by wrapping.  The sum of the lengths is
    computed in 32 bits: ten received bytes that announce a head of 4294967295
    bytes and a body of 1 byte are accepted as a complete packet of length 10,
    with a head that reaches far outside the buffer. *)
Theorem check_accepts_wrapped_length :
  let m := [0x5b; 255; 255; 255; 255; 0; 0; 0; 1; 0x5d] in
  exists info, NestProtoCheck (Some (mkPkg (Some m) 10 None 0 None 0)) = Some (10, Some info) /\
    head_len info = 4294967295 /\ extent (head_buff info) (head_len info) = None.
Proof. eexists. split; [vm_compute; reflexivity|]. split; vm_compute; reflexivity. Qed.

Lemma pack_check_roundtrip_witness :
  exists info n, NestProtoPackPkg (Some (mkPkg (Some (replicate 20 0)) 20 (Some [1; 2; 3]) 3 (Some [9; 8]) 2)) =
      Some (n, Some info) /\ n = 15 /\
    exists info', NestProtoCheck (Some info) = Some (n, Some info') /\
      extent (head_buff info') (head_len info') = Some [1; 2; 3] /\
      extent (body_buff info') (body_len info') = Some [9; 8].
Proof.
  apply (pack_check_roundtrip (replicate 20 0) 20 [1; 2; 3] [] [9; 8] []); [|by vm_compute].
  split; by vm_compute.
Defined.

Lemma check_waits_for_prefix_witness :
  NestProtoCheck (Some (mkPkg (Some [0x5b; 0; 0; 0; 1; 0; 0; 0; 1; 7; 8]) 11 None 0 None 0)) =
    Some (0, Some (mkPkg (Some [0x5b; 0; 0; 0; 1; 0; 0; 0; 1; 7; 8]) 11 None 0 None 0)).
Proof.
  apply (check_waits_for_prefix [7] [8] 11 None 0 None 0); [vm_compute; done|].
  apply (bool_decide_unpack _). by vm_compute.
Defined.
