(* ===== verification/ReportQueue.v ===== *)
(** * The report queue

    [comm/report/shm_queue.h] and [shm_queue.cpp]: a queue of messages of variable
    length in a ring of nodes of fixed size, in shared memory or a mapped file.

    A message takes consecutive nodes.  When the nodes left at the end of the ring
    are too few the writer skips them and starts again at node 0; the reader knows
    the first node of a message by its token and steps over the others.  The model
    keeps the nodes as bytes.  One process writes or reads at a time, so that a
    compare-and-swap on [head_pos] succeeds.

    Counts and positions are [int]s and sizes are [long] or [size_t], narrowed where
    the code narrows them.  Where C leaves a signed overflow undefined the model
    wraps; in the queues of the theorems ([sq_static]) nothing overflows. *)

From Stdlib Require Import ZArith Lia.
From stdpp Require Import base list option.
From S2P Require Import Prelude Bytes.

Definition START_TOKEN : Z := 0x0000db03.
Definition MAX_READER_PROC_NUM : Z := 64.
Definition MAX_SQ_DATA_LENGTH : Z := 65536.

(** The packed [sq_node_head_t]: token, length, a [timeval] of 16 bytes. *)
Definition NODE_HEAD : Z := 24.

Record sq_head_t := mkSq {
  ele_size : Z;
  ele_count : Z;
  head_pos : Z;
  tail_pos : Z;
  data_signum : Z;
  sig_node_num : Z;
  sig_process_num : Z;
  pidnum : Z;
  pidset : list Z;
  sigmask : list Z;
  nodes : list Z
}.

Definition set_nodes (m : list Z) (q : sq_head_t) : sq_head_t :=
  mkSq (ele_size q) (ele_count q) (head_pos q) (tail_pos q) (data_signum q) (sig_node_num q) (sig_process_num q)
    (pidnum q) (pidset q) (sigmask q) m.
Definition set_head (h : Z) (q : sq_head_t) : sq_head_t :=
  mkSq (ele_size q) (ele_count q) h (tail_pos q) (data_signum q) (sig_node_num q) (sig_process_num q)
    (pidnum q) (pidset q) (sigmask q) (nodes q).
Definition set_tail (t : Z) (q : sq_head_t) : sq_head_t :=
  mkSq (ele_size q) (ele_count q) (head_pos q) t (data_signum q) (sig_node_num q) (sig_process_num q)
    (pidnum q) (pidset q) (sigmask q) (nodes q).
Definition set_pids (n : Z) (ps ms : list Z) (q : sq_head_t) : sq_head_t :=
  mkSq (ele_size q) (ele_count q) (head_pos q) (tail_pos q) (data_signum q) (sig_node_num q) (sig_process_num q)
    n ps ms (nodes q).

(** ** Positions *)

Definition SQ_ADD_POS (q : sq_head_t) (pos val : Z) : Z := Z.rem (i32 (pos + val)) (i32 (ele_count q + 1)).
Definition SQ_EMPTY_NODES2 (q : sq_head_t) (head : Z) : Z :=
  Z.rem (i32 (i32 (head + ele_count q) - tail_pos q)) (i32 (ele_count q + 1)).
Definition SQ_EMPTY_NODES (q : sq_head_t) : Z := SQ_EMPTY_NODES2 q (head_pos q).
Definition SQ_USED_NODES2 (q : sq_head_t) (head : Z) : Z := i32 (ele_count q - SQ_EMPTY_NODES2 q head).
Definition SQ_USED_NODES (q : sq_head_t) : Z := SQ_USED_NODES2 q (head_pos q).
Definition SQ_NODE_SIZE (q : sq_head_t) : Z := NODE_HEAD + ele_size q.
(** The offset of a node. *)
Definition SQ_GET (q : sq_head_t) (idx : Z) : Z := idx * SQ_NODE_SIZE q.
(** In [size_t], converted to [int]. *)
Definition SQ_NUM_NEEDED_NODES (q : sq_head_t) (datalen : Z) : Z :=
  i32 (u64 (datalen + NODE_HEAD + SQ_NODE_SIZE q - 1) / SQ_NODE_SIZE q).

Definition rd32 (off : Z) (m : list Z) : option Z := b ← bread off 4 m; Some (of_le b).

(** ** Signals *)

Definition sq_sigon (q : sq_head_t) (i : Z) : option (Z * sq_head_t) :=
  if u32 i <? u32 (pidnum q) then
    b ← sigmask q !! Z.to_nat (i / 8);
    Some (0, set_pids (pidnum q) (pidset q)
      (<[Z.to_nat (i / 8) := Z.lor b (Z.shiftl 1 (i mod 8))]> (sigmask q)) q)
  else Some (-1, q).

Definition sq_sigoff (q : sq_head_t) (i : Z) : option (Z * sq_head_t) :=
  if u32 i <? u32 (pidnum q) then
    b ← sigmask q !! Z.to_nat (i / 8);
    Some (0, set_pids (pidnum q) (pidset q)
      (<[Z.to_nat (i / 8) := Z.land b (Z.lnot (Z.shiftl 1 (i mod 8)))]> (sigmask q)) q)
  else Some (-1, q).

Section pids.
(** [is_pid_valid] for a pid other than 0: the process exists. *)
Context (alive : Z -> bool).

Definition is_pid_valid (pid : Z) : bool := if pid =? 0 then false else alive pid.

(** The first loop of [verify_and_remove_bad_pids], from [i] = [n] - 1 down: it
    drops dead processes off the end.  The result is where [i] stops. *)
Fixpoint drop_tail (n : nat) (q : sq_head_t) : option (Z * sq_head_t) :=
  match n with
  | O => Some (-1, q)
  | S n =>
      p ← pidset q !! n;
      if is_pid_valid p then Some (Z.of_nat n, q)
      else
        '(_, q) ← sq_sigoff q (Z.of_nat n);
        (* CAS32(&pidnum, i+1, i) *)
        drop_tail n (set_pids (Z.of_nat n) (pidset q) (sigmask q) q)
  end.

(** The second loop, from [i] = [n] - 1 down: it clears the slots of dead ones. *)
Fixpoint clear_dead (n : nat) (q : sq_head_t) : option sq_head_t :=
  match n with
  | O => Some q
  | S n =>
      p ← pidset q !! n;
      if is_pid_valid p then clear_dead n q
      else
        '(_, q) ← sq_sigoff q (Z.of_nat n);
        clear_dead n (set_pids (pidnum q) (<[n := 0]> (pidset q)) (sigmask q) q)
  end.

Definition verify_and_remove_bad_pids (q : sq_head_t) : option sq_head_t :=
  let q := if (pidnum q <? 0) || (MAX_READER_PROC_NUM <? pidnum q)
           then set_pids MAX_READER_PROC_NUM (pidset q) (sigmask q) q else q in
  '(i, q) ← drop_tail (Z.to_nat (pidnum q)) q;
  clear_dead (Z.to_nat i) q.

(** [sq_set_sigparam], less what it prints. *)
Definition sq_set_sigparam (q : sq_head_t) (signum sig_ele_num sig_proc_num : Z) : option (Z * sq_head_t) :=
  q ← verify_and_remove_bad_pids
    (mkSq (ele_size q) (ele_count q) (head_pos q) (tail_pos q) signum sig_ele_num sig_proc_num
      (pidnum q) (pidset q) (sigmask q) (nodes q));
  Some (0, q).

(** The loop over the slots of [sq_register_signal]: the first free one, if any. *)
Fixpoint free_slot (n : nat) (i : nat) (q : sq_head_t) : option (option nat) :=
  match n with
  | O => Some None
  | S n => p ← pidset q !! i; if p =? 0 then Some (Some i) else free_slot n (S i) q
  end.

Definition sq_register_signal (pid : Z) (q : sq_head_t) : option (Z * sq_head_t) :=
  q ← verify_and_remove_bad_pids q;
  r ← free_slot (Z.to_nat (pidnum q)) 0 q;
  match r with
  | Some i => Some (Z.of_nat i, set_pids (pidnum q) (<[i := pid]> (pidset q)) (sigmask q) q)
  | None =>
      if MAX_READER_PROC_NUM <=? pidnum q then Some (-1, q)
      else
        _ ← pidset q !! Z.to_nat (pidnum q);
        Some (pidnum q, set_pids (pidnum q + 1) (<[Z.to_nat (pidnum q) := pid]> (pidset q)) (sigmask q) q)
  end.
End pids.

(** The loop of [sq_put] that signals: [n] slots are left from [i], [nr] were
    signalled; the pids signalled come back with the queue. *)
Fixpoint signal_loop (n : nat) (i nr : Z) (q : sq_head_t) : option (list Z * sq_head_t) :=
  match n with
  | O => Some ([], q)
  | S n =>
      if nr <? sig_process_num q then
        p ← pidset q !! Z.to_nat i;
        if p =? 0 then signal_loop n (i + 1) nr q
        else
          b ← sigmask q !! Z.to_nat (i / 8);
          if Z.testbit b (i mod 8) then
            '(_, q) ← sq_sigoff q i;
            '(ks, q) ← signal_loop n (i + 1) (nr + 1) q;
            Some (p :: ks, q)
          else signal_loop n (i + 1) nr q
      else Some ([], q)
  end.

(** ** Putting and getting *)

(** Where [sq_put] writes: the index and the new tail, or no room. *)
Definition put_place (q : sq_head_t) (nr_nodes : Z) : option (Z * Z) :=
  let new_tail := SQ_ADD_POS q (tail_pos q) nr_nodes in
  if new_tail <? tail_pos q then
    if head_pos q - 1 <? nr_nodes then None else Some (0, nr_nodes)
  else Some (tail_pos q, new_tail).

(** [sq_put]: the data is [None] for [NULL], [tv] the time of day.  The result is
    the return value and the processes signalled. *)
Definition sq_put (q : sq_head_t) (data : option (list Z)) (datalen : Z) (tv : list Z)
    : option (Z * list Z * sq_head_t) :=
  match data with
  | None => Some (-1, [], q)
  | Some d =>
      if (datalen <=? 0) || (MAX_SQ_DATA_LENGTH <? datalen) then Some (-1, [], q)
      else
        let nr_nodes := SQ_NUM_NEEDED_NODES q datalen in
        if SQ_EMPTY_NODES q <? nr_nodes then Some (-2, [], q)
        else
          match put_place q nr_nodes with
          | None => Some (-2, [], q)
          | Some (idx, new_tail) =>
              let node := SQ_GET q idx in
              m ← bwrite node (le32 START_TOKEN) (nodes q);
              m ← bwrite (node + 4) (le32 datalen) m;
              m ← bwrite (node + 8) tv m;
              b ← bread 0 datalen d;
              m ← bwrite (node + NODE_HEAD) b m;
              let q := set_tail new_tail (set_nodes m q) in
              if negb (data_signum q =? 0) && (sig_node_num q <=? SQ_USED_NODES q) then
                '(ks, q) ← signal_loop (Z.to_nat (pidnum q)) 0 0 q; Some (0, ks, q)
              else Some (0, [], q)
          end
  end.

Definition sq_get_usage (q : sq_head_t) : Z :=
  if ele_count q =? 0 then 0 else Z.quot (i32 (SQ_USED_NODES q * 100)) (ele_count q).
Definition sq_get_used_blocks (q : sq_head_t) : Z := SQ_USED_NODES q.

(** The search of [sq_get] from [head]: the node of the next message, its length
    and the number of its nodes; or the end of the queue. *)
Inductive found := NoMessage (head : Z) | Message (head datalen nr_nodes : Z).

Fixpoint find_message (fuel : nat) (head : Z) (q : sq_head_t) : option found :=
  match fuel with
  | O => None
  | S fuel =>
      if tail_pos q =? head then Some (NoMessage head)
      else
        t ← rd32 (SQ_GET q head) (nodes q);
        if negb (t =? START_TOKEN) then find_message fuel (SQ_ADD_POS q head 1) q
        else
          l ← rd32 (SQ_GET q head + 4) (nodes q);
          let datalen := i32 l in
          let nr_nodes := SQ_NUM_NEEDED_NODES q datalen in
          if SQ_USED_NODES2 q head <? nr_nodes then find_message fuel (SQ_ADD_POS q head 1) q
          else Some (Message head datalen nr_nodes)
  end.

(** The loop that clears the tokens from [pos] to [new_head]. *)
Fixpoint clear_tokens (fuel : nat) (pos new_head : Z) (q : sq_head_t) : option sq_head_t :=
  if pos =? new_head then Some q
  else match fuel with
       | O => None
       | S fuel =>
           m ← bwrite (SQ_GET q pos) (le32 0) (nodes q);
           clear_tokens fuel (SQ_ADD_POS q pos 1) new_head (set_nodes m q)
       end.

(** [sq_get] into a buffer of [buf_sz] bytes: the return value, the data copied
    and the time stored. *)
Definition sq_get (q : sq_head_t) (buf_ok : bool) (buf_sz : Z) : option (Z * list Z * list Z * sq_head_t) :=
  if negb buf_ok || (buf_sz <? 1) then Some (-1, [], [], q)
  else
    let fuel := S (S (Z.to_nat (ele_count q))) in
    f ← find_message fuel (head_pos q) q;
    match f with
    | NoMessage head =>
        if head =? head_pos q then Some (0, [], [], q)
        else
          q' ← clear_tokens fuel (head_pos q) head (set_head head q);
          Some (0, [], [], q')
    | Message head datalen nr_nodes =>
        let new_head := SQ_ADD_POS q head nr_nodes in
        let q' := set_head new_head q in
        tv ← bread (SQ_GET q head + 8) 16 (nodes q);
        if buf_sz <? datalen then Some (-2, [], tv, q')
        else
          d ← bread (SQ_GET q head + NODE_HEAD) datalen (nodes q);
          q' ← clear_tokens fuel (head_pos q) new_head q';
          Some (datalen, d, tv, q')
    end.

(** ** Opening *)

(** In [int]. *)
Definition align8 (z : Z) : Z := Z.shiftl (Z.shiftr (i32 (z + 7)) 3) 3.
(** A value of 64 bits as a [long]. *)
Definition i64 (z : Z) : Z := if u64 z <? 2 ^ 63 then u64 z else u64 z - 2 ^ 64.
(** [sizeof(struct sq_head_t)]: eight [int]s, 64 pids, 8 bytes of mask. *)
Definition SQ_HEAD : Z := 296.
(** The size allocated, rounded up to 4 MB: a [long] computed in [size_t]. *)
Definition allocate_size (esize ecount : Z) : Z :=
  let a := i64 (u64 (SQ_HEAD + u64 (u64 (NODE_HEAD + esize) * u64 (i32 (ecount + 1))))) in
  i64 (Z.land (u64 (a + 2 ^ 22 - 1)) (u64 (Z.lnot (2 ^ 22 - 1)))).

(** [map_file] takes the size as an [int]: the bytes mapped. *)
Definition mapped_size (esize ecount : Z) : Z := i32 (allocate_size esize ecount).

(** The memory mapped, after [memset] and the two stores. *)
Definition sq_fresh (esize ecount : Z) : sq_head_t :=
  mkSq esize ecount 0 0 0 0 0 0 (replicate 64 0) (replicate 8 0)
    (replicate (Z.to_nat (mapped_size esize ecount - SQ_HEAD)) 0).

(** [sq_open] of a file: [map_file] maps that many bytes, read as a queue.  A null
    pointer is dereferenced, and [memset] clears [allocate_size] bytes, more than
    are mapped when the [int] has lost some. *)
Definition sq_open_file (file_ok : bool) (esize ecount : Z) (map_file : Z -> option sq_head_t)
    : option (option sq_head_t) :=
  if negb file_ok || (esize =? 0) || (ecount =? 0) then Some None
  else
    let esize := align8 esize in
    shm ← map_file (mapped_size esize ecount);
    if negb (ele_size shm =? esize) || negb (ele_count shm =? ecount)
    then if mapped_size esize ecount =? allocate_size esize ecount
         then Some (Some (sq_fresh esize ecount)) else None
    else Some (Some shm).

(** ** Layout

    [sz] is the size of a node and [mem] the bytes of the nodes.  A message of the
    queue comes with the time it was put. *)

Definition msg : Type := list Z * list Z.
Definition msg_ok (x : msg) : Prop := length x.1 = 16%nat /\ 0 < blen x.2 <= MAX_SQ_DATA_LENGTH.

Definition rec_bytes (x : msg) : list Z := le32 START_TOKEN ++ le32 (blen x.2) ++ x.1 ++ x.2.

(** The nodes a message takes. *)
Definition span (sz : Z) (x : msg) : Z := (blen x.2 + NODE_HEAD + sz - 1) / sz.

Definition msg_at (sz : Z) (mem : list Z) (i : Z) (x : msg) : Prop :=
  msg_ok x /\ bread (i * sz) (NODE_HEAD + blen x.2) mem = Some (rec_bytes x).

(** [ms] one after the other from node [i] to node [e]. *)
Fixpoint laid (sz : Z) (mem : list Z) (i : Z) (ms : list msg) (e : Z) : Prop :=
  match ms with
  | [] => i = e
  | x :: ms => msg_at sz mem i x /\ laid sz mem (i + span sz x) ms e
  end.

(** Node [i] does not start a message. *)
Definition clean (sz : Z) (mem : list Z) (i : Z) : Prop :=
  exists t, rd32 (i * sz) mem = Some t /\ t <> START_TOKEN.

(** The same bytes from [a] to [b]. *)
Definition same_on (a b : Z) (mem mem' : list Z) : Prop :=
  forall o n, a <= o -> o + n <= b -> bread o n mem' = bread o n mem.

Section layout.
Context (sz : Z) (Hsz : NODE_HEAD < sz).
Implicit Types (mem : list Z) (i e : Z) (x : msg) (ms : list msg).

Lemma span_bounds x : 0 < blen x.2 -> 1 <= span sz x /\ NODE_HEAD + blen x.2 <= span sz x * sz.
Proof.
  intros Hb. unfold span, NODE_HEAD in *.
  pose proof (Z.div_mod (blen x.2 + 24 + sz - 1) sz ltac:(lia)) as Hd.
  pose proof (Z.mod_pos_bound (blen x.2 + 24 + sz - 1) sz ltac:(lia)) as Hm.
  split; [apply Z.div_le_lower_bound; lia|]. lia.
Qed.

Lemma msg_at_frame mem mem' i x : same_on (i * sz) ((i + span sz x) * sz) mem mem' ->
  msg_at sz mem i x -> msg_at sz mem' i x.
Proof.
  intros Hs [Hok Hr]. split; [done|]. rewrite Hs; [done|lia|].
  destruct Hok as [_ Hb]. pose proof (span_bounds x ltac:(lia)). lia.
Qed.

Lemma laid_le mem ms : forall i e, laid sz mem i ms e -> i <= e.
Proof.
  induction ms as [|x ms IH]; intros i e; cbn; [lia|]. intros [[[_ Hb] _] H].
  apply IH in H. pose proof (span_bounds x ltac:(lia)). lia.
Qed.

Lemma laid_none mem ms i : laid sz mem i ms i -> ms = [].
Proof.
  destruct ms as [|x ms]; [done|]. cbn. intros [[[_ Hb] _] H]. apply laid_le in H.
  pose proof (span_bounds x ltac:(lia)). lia.
Qed.

Lemma laid_frame mem mem' ms : forall i e, same_on (i * sz) (e * sz) mem mem' ->
  laid sz mem i ms e -> laid sz mem' i ms e.
Proof.
  induction ms as [|x ms IH]; intros i e Hs; cbn; [done|]. intros [Hx H].
  pose proof (laid_le _ _ _ _ H) as Hle. pose proof Hx as [[_ Hb] _]. pose proof (span_bounds x ltac:(lia)) as [Hsp _].
  unfold NODE_HEAD in *. split.
  - eapply msg_at_frame; [|done]. intros o n H1 H2. apply Hs; [done|]. nia.
  - apply IH; [|done]. intros o n H1 H2. apply Hs; nia.
Qed.

Lemma laid_snoc mem ms x : forall i e, laid sz mem i ms e -> msg_at sz mem e x ->
  laid sz mem i (ms ++ [x]) (e + span sz x).
Proof.
  induction ms as [|y ms IH]; intros i e; cbn.
  - intros -> Hx. done.
  - intros [Hy H] Hx. split; [done|]. by apply IH.
Qed.

Lemma clean_frame mem mem' i : same_on (i * sz) (i * sz + 4) mem mem' -> clean sz mem i -> clean sz mem' i.
Proof.
  intros Hs (t & Ht & Hn). exists t. split; [|done]. unfold rd32 in *. rewrite Hs; [done|lia|lia].
Qed.

(** The token and the length of a message can be read. *)
Lemma msg_at_reads mem i x : msg_at sz mem i x ->
  rd32 (i * sz) mem = Some START_TOKEN /\ rd32 (i * sz + 4) mem = Some (blen x.2) /\
  bread (i * sz + 8) 16 mem = Some x.1 /\ bread (i * sz + NODE_HEAD) (blen x.2) mem = Some x.2.
Proof.
  intros [[Ht Hb] Hr]. unfold rec_bytes in Hr.
  assert (blen (le32 START_TOKEN) = 4 /\ forall z, blen (le32 z) = 4) as [H4 H4'].
  { split; intros; unfold blen, le32; by rewrite length_le. }
  pose proof (bread_part (i * sz) _ mem [] (le32 START_TOKEN) _ Hr) as R1.
  pose proof (bread_part (i * sz) _ mem (le32 START_TOKEN) (le32 (blen x.2)) _ Hr) as R2.
  rewrite (app_assoc (le32 START_TOKEN)) in Hr.
  pose proof (bread_part (i * sz) _ mem _ x.1 _ Hr) as R3. rewrite app_assoc, <- (app_nil_r x.2) in Hr.
  pose proof (bread_part (i * sz) _ mem _ x.2 _ Hr) as R4.
  rewrite !blen_app in R3, R4. rewrite H4 in *. rewrite H4' in *. cbn in R1. rewrite Z.add_0_r in R1.
  assert (blen x.1 = 16) as Hl by (unfold blen; rewrite Ht; done). rewrite Hl in *.
  unfold rd32. rewrite R1, R2. cbn [mbind option_bind]. split; [done|]. split; [|done].
  f_equal. apply of_le32. unfold in_u32, MAX_SQ_DATA_LENGTH in *. lia.
Qed.

(** One write lays a message, and disturbs only the nodes it takes. *)
Lemma write_msg mem i x : msg_ok x -> 0 <= i -> (i + span sz x) * sz <= blen mem ->
  exists m1 m2 m3 m4, bwrite (i * sz) (le32 START_TOKEN) mem = Some m1 /\
    bwrite (i * sz + 4) (le32 (blen x.2)) m1 = Some m2 /\ bwrite (i * sz + 8) x.1 m2 = Some m3 /\
    bwrite (i * sz + NODE_HEAD) x.2 m3 = Some m4 /\ blen m4 = blen mem /\ msg_at sz m4 i x /\
    forall a b, b <= i * sz \/ (i + span sz x) * sz <= a -> same_on a b mem m4.
Proof.
  intros Hok Hi Hfit. pose proof Hok as [Ht Hb]. pose proof (span_bounds x ltac:(lia)) as [Hs1 Hs2].
  assert (forall z, blen (le32 z) = 4) as H4 by (intros; unfold blen, le32; by rewrite length_le).
  assert (blen x.1 = 16) as Hl by (unfold blen; rewrite Ht; done). unfold NODE_HEAD in *.
  destruct (bwrite_spec (i * sz) (le32 START_TOKEN) mem) as (m1 & E1 & L1 & _); [nia|rewrite H4; nia|].
  assert (forall a m', bwrite (i * sz) a mem = Some m' -> blen m' = blen mem) as Hlen.
  { intros a m' E. unfold bwrite in E. destruct ((0 <=? i * sz) && (i * sz + blen a <=? blen mem)) eqn:Ec; [|done].
    injection E as <-. apply andb_prop in Ec as [_ Ec%Z.leb_le]. unfold blen in *. rewrite length_splice; lia. }
  assert (forall a b m', bwrite (i * sz) a mem = Some m' -> i * sz + blen a + blen b <= blen mem ->
    exists m'', bwrite (i * sz + blen a) b m' = Some m'' /\ bwrite (i * sz) (a ++ b) mem = Some m'') as Hstep.
  { intros a b m' E Hl'. rewrite (bwrite_app _ a b mem m' E Hl').
    destruct (bwrite_spec (i * sz) (a ++ b) mem) as (m'' & E' & _); [nia|rewrite blen_app; lia|]. eauto. }
  destruct (Hstep _ (le32 (blen x.2)) _ E1) as (m2 & E2 & A2); [rewrite !H4; nia|].
  destruct (Hstep _ x.1 _ A2) as (m3 & E3 & A3); [rewrite !blen_app, !H4, Hl; nia|].
  destruct (Hstep _ x.2 _ A3) as (m4 & E4 & A4); [rewrite !blen_app, !H4, Hl; nia|].
  rewrite !blen_app, !H4 in *. rewrite Hl in *. exists m1, m2, m3, m4. split_and!; try done; [by eapply Hlen|..].
  - split; [done|]. destruct (bwrite_spec (i * sz) (rec_bytes x) mem) as (m' & E' & _ & R & _).
    + nia.
    + unfold rec_bytes. rewrite !blen_app, !H4, Hl. nia.
    + unfold rec_bytes in *. rewrite !app_assoc in E'. rewrite A4 in E'. injection E' as <-.
      rewrite !blen_app, !H4, Hl in R. rewrite <- R. unfold NODE_HEAD. f_equal. lia.
  - intros a b Hd o n Ho Hn. destruct (bwrite_spec (i * sz) (((le32 START_TOKEN ++ le32 (blen x.2)) ++ x.1) ++ x.2) mem)
      as (m' & E' & _ & _ & Hf); [nia|rewrite !blen_app, !H4, Hl; nia|].
    rewrite A4 in E'. injection E' as <-. apply Hf. rewrite !blen_app, !H4, Hl. nia.
Qed.
End layout.

(** ** The queue holds a sequence of messages

    [ms1] lies from [head_pos] to node [s]; [ms2] from node 0 to node [t], after the
    writer has wrapped.  No other node bears a token. *)

Record sq_static (q : sq_head_t) : Prop := {
  st_size : 0 < ele_size q < 2 ^ 31;
  st_count : 0 < ele_count q < 2 ^ 30;
  st_mem : (ele_count q + 1) * SQ_NODE_SIZE q <= blen (nodes q);
  st_pids : 0 <= pidnum q <= MAX_READER_PROC_NUM /\ length (pidset q) = 64%nat /\ length (sigmask q) = 8%nat
}.

Record sq_lay (q : sq_head_t) (s t : Z) (ms1 ms2 : list msg) : Prop := {
  ly_head : 0 <= head_pos q;
  ly_s : s <= ele_count q;
  ly_tail : (tail_pos q = s /\ t = 0) \/ (tail_pos q = t /\ 0 < t < head_pos q);
  ly_one : laid (SQ_NODE_SIZE q) (nodes q) (head_pos q) ms1 s;
  ly_two : laid (SQ_NODE_SIZE q) (nodes q) 0 ms2 t;
  ly_clean : forall i, 0 <= i <= ele_count q -> ~ (head_pos q <= i < s) -> ~ (0 <= i < t) ->
    clean (SQ_NODE_SIZE q) (nodes q) i
}.

Definition sq_rep (q : sq_head_t) (ms : list msg) : Prop :=
  sq_static q /\ exists s t ms1 ms2, sq_lay q s t ms1 ms2 /\ ms = ms1 ++ ms2.

Lemma node_size_pos q : sq_static q -> NODE_HEAD < SQ_NODE_SIZE q.
Proof. intros []. unfold SQ_NODE_SIZE, NODE_HEAD. lia. Qed.

Lemma needed_is_span q x : sq_static q -> 0 <= blen x.2 <= MAX_SQ_DATA_LENGTH ->
  SQ_NUM_NEEDED_NODES q (blen x.2) = span (SQ_NODE_SIZE q) x /\ span (SQ_NODE_SIZE q) x < 2 ^ 31.
Proof.
  intros Hq Hb. unfold SQ_NUM_NEEDED_NODES, span. pose proof (st_size _ Hq). unfold MAX_SQ_DATA_LENGTH, SQ_NODE_SIZE, NODE_HEAD in *.
  rewrite u64_small by (unfold in_u64; lia).
  assert (0 <= (blen x.2 + 24 + (24 + ele_size q) - 1) / (24 + ele_size q) < 2 ^ 31) as Hd.
  { split; [apply Z.div_pos; lia|]. apply Z.div_lt_upper_bound; nia. }
  rewrite i32_small by lia. split; [done|lia].
Qed.

(** The count of empty nodes, by cases. *)
Lemma mod_wrap a n : 0 < n -> 0 <= a < 2 * n -> a mod n = if a <? n then a else a - n.
Proof.
  intros Hn Ha. destruct (Z.ltb_spec a n); [apply Z.mod_small; lia|].
  replace a with ((a - n) + 1 * n) at 1 by lia. rewrite Z.mod_add by lia. apply Z.mod_small. lia.
Qed.

(** In range, the [int]s of the positions are the numbers themselves. *)
Lemma add_pos_small q pos k : 0 < ele_count q < 2 ^ 30 -> 0 <= pos -> 0 <= k -> pos + k < 2 ^ 31 ->
  SQ_ADD_POS q pos k = (pos + k) mod (ele_count q + 1).
Proof. intros Hc Hp Hk H. unfold SQ_ADD_POS. rewrite !i32_small by lia. apply Z.rem_mod_nonneg; lia. Qed.

Lemma empty_nodes2_small q head : 0 < ele_count q < 2 ^ 30 -> 0 <= head <= ele_count q ->
  0 <= tail_pos q <= ele_count q ->
  SQ_EMPTY_NODES2 q head = (head + ele_count q - tail_pos q) mod (ele_count q + 1).
Proof.
  intros Hc Hh Ht. unfold SQ_EMPTY_NODES2. rewrite (i32_small (head + _)), !i32_small by lia.
  apply Z.rem_mod_nonneg; lia.
Qed.

Section put.
Context (q : sq_head_t) (Hst : sq_static q) (s t : Z) (ms1 ms2 : list msg) (Hly : sq_lay q s t ms1 ms2).

Lemma lay_order : 0 <= head_pos q <= s /\ s <= ele_count q /\ 0 <= t /\
  (tail_pos q = s /\ t = 0 \/ tail_pos q = t /\ 0 < t < head_pos q).
Proof.
  destruct Hly as [H1 H2 H3 H4 H5 _]. pose proof (node_size_pos q Hst) as Hz.
  apply (laid_le _ Hz) in H4, H5. lia.
Qed.

Lemma empty_nodes : SQ_EMPTY_NODES q = if tail_pos q <? head_pos q then head_pos q - tail_pos q - 1
  else head_pos q + ele_count q - tail_pos q.
Proof.
  pose proof lay_order as (H1 & H2 & H3 & H4). pose proof (st_count _ Hst). unfold SQ_EMPTY_NODES.
  rewrite empty_nodes2_small, mod_wrap by lia. destruct (Z.ltb_spec (head_pos q + ele_count q - tail_pos q) (ele_count q + 1)),
    (Z.ltb_spec (tail_pos q) (head_pos q)); lia.
Qed.

Lemma tail_in : 0 <= tail_pos q <= ele_count q.
Proof. pose proof lay_order. lia. Qed.

(** Writing at node [i] of the free part, where nothing is disturbed. *)
Lemma lay_after_write i x mem tail' :
  msg_ok x -> (forall a b, b <= i * SQ_NODE_SIZE q \/ (i + span (SQ_NODE_SIZE q) x) * SQ_NODE_SIZE q <= a ->
    same_on a b (nodes q) mem) -> msg_at (SQ_NODE_SIZE q) mem i x ->
  tail' = i + span (SQ_NODE_SIZE q) x -> tail' <= ele_count q ->
  (i = tail_pos q /\ (tail_pos q < head_pos q -> tail' < head_pos q) \/
   i = 0 /\ head_pos q <= tail_pos q /\ tail' < head_pos q) ->
  exists s' t' ms1' ms2', sq_lay (set_tail tail' (set_nodes mem q)) s' t' ms1' ms2' /\ ms1' ++ ms2' = (ms1 ++ ms2) ++ [x].
Proof.
  intros Hok Hs Hat Htl Hle Hpl. pose proof (node_size_pos q Hst) as Hz.
  pose proof lay_order as (O1 & O2 & O3 & O4). destruct Hly as [L1 L2 L3 L4 L5 L6]. clear Hly.
  set (sz := SQ_NODE_SIZE q) in *. pose proof (span_bounds sz Hz x ltac:(destruct Hok; lia)) as [Hs1 _].
  unfold NODE_HEAD in *.
  assert (forall j, j < i \/ i + span sz x <= j -> clean sz (nodes q) j -> clean sz mem j) as Hclean.
  { intros j Hj Hc. eapply clean_frame; [apply Hs; nia|done]. }
  destruct Hpl as [[-> Hw]|(-> & Hu & Hw)].
  - destruct O4 as [[Ht ->]|[Ht Ht']].
    + (* not wrapped: at the end of the first part *)
      exists tail', 0, (ms1 ++ [x]), []. apply (laid_none _ Hz) in L5 as ->.
      split; [|by rewrite !app_nil_r]. split; cbn; change (SQ_NODE_SIZE (set_tail tail' (set_nodes mem q))) with sz; [lia|lia|lia|..].
      * subst tail'. rewrite Ht in *. apply laid_snoc; [|done]. eapply laid_frame; [done| |done]. apply Hs. lia.
      * done.
      * intros j Hj H1 H2. apply Hclean; [lia|]. apply L6; lia.
    + (* wrapped: at the end of the second part *)
      exists s, tail', ms1, (ms2 ++ [x]). split; [|by rewrite app_assoc]. split; cbn; change (SQ_NODE_SIZE (set_tail tail' (set_nodes mem q))) with sz; [lia|lia|lia|..].
      * eapply laid_frame; [done| |done]. apply Hs. right. assert (tail' < head_pos q) by lia. nia.
      * subst tail'. rewrite Ht in *. apply laid_snoc; [|done]. eapply laid_frame; [done| |done]. apply Hs. lia.
      * intros j Hj H1 H2. apply Hclean; [lia|]. apply L6; lia.
  - (* wrapping now: the rest of the first turn is skipped *)
    destruct O4 as [[Ht ->]|[Ht Ht']]; [|lia]. apply (laid_none _ Hz) in L5 as ->.
    exists s, tail', ms1, [x]. split; [|by rewrite app_nil_r]. split; cbn; change (SQ_NODE_SIZE (set_tail tail' (set_nodes mem q))) with sz; [lia|lia|lia|..].
    + eapply laid_frame; [done| |done]. apply Hs. nia.
    + split; [done|]. lia.
    + intros j Hj H1 H2. apply Hclean; [lia|]. apply L6; lia.
Qed.

(** Where the writer goes, and that there is room there. *)
Lemma put_place_ok nr : 0 < nr -> nr <= SQ_EMPTY_NODES q -> 
  match put_place q nr with
  | None => True
  | Some (i, tail') => 0 <= i /\ tail' = i + nr /\ tail' <= ele_count q /\
     (i = tail_pos q /\ (tail_pos q < head_pos q -> tail' < head_pos q) \/
      i = 0 /\ head_pos q <= tail_pos q /\ tail' < head_pos q)
  end.
Proof.
  intros H0 He. rewrite empty_nodes in He. pose proof lay_order as (O1 & O2 & O3 & O4). pose proof tail_in as Ht.
  pose proof (st_count _ Hst) as Hc.
  unfold put_place. destruct (Z.ltb_spec (tail_pos q) (head_pos q)) as [Hw|Hw];
    rewrite add_pos_small, mod_wrap by lia.
  - destruct (Z.ltb_spec (tail_pos q + nr) (ele_count q + 1)); [|lia].
    destruct (Z.ltb_spec (tail_pos q + nr) (tail_pos q)); lia.
  - destruct (Z.ltb_spec (tail_pos q + nr) (ele_count q + 1)).
    + destruct (Z.ltb_spec (tail_pos q + nr) (tail_pos q)); lia.
    + destruct (Z.ltb_spec (tail_pos q + nr - (ele_count q + 1)) (tail_pos q)); [|lia].
      destruct (Z.ltb_spec (head_pos q - 1) nr); lia.
Qed.
End put.

(** ** Signalling *)

(** What signalling may change: the mask. *)
Definition masked (q q' : sq_head_t) : Prop :=
  exists ms, length ms = length (sigmask q) /\ q' = set_pids (pidnum q) (pidset q) ms q.

Lemma masked_refl q : masked q q.
Proof. exists (sigmask q). split; [done|]. by destruct q. Qed.

Lemma masked_trans q q1 q2 : masked q q1 -> masked q1 q2 -> masked q q2.
Proof. intros (m1 & H1 & ->) (m2 & H2 & ->). exists m2. split; [cbn in *; congruence|done]. Qed.

Lemma sigoff_masked q i : sq_static q -> 0 <= i < pidnum q -> exists r q', sq_sigoff q i = Some (r, q') /\ masked q q'.
Proof.
  intros Hs Hi. pose proof (st_pids _ Hs) as (Hp & _ & Hm). unfold MAX_READER_PROC_NUM in *.
  unfold sq_sigoff. destruct (u32 i <? u32 (pidnum q)); [|eexists _, _; split; [done|apply masked_refl]].
  destruct (sigmask q !! Z.to_nat (i / 8)) as [b|] eqn:E.
  - cbn [mbind option_bind]. eexists _, _. split; [done|]. eexists. split; [|done]. by rewrite length_insert.
  - apply lookup_ge_None in E. rewrite Hm in E. assert (i / 8 < 8) by (apply Z.div_lt_upper_bound; lia). lia.
Qed.

Lemma static_masked q q' : masked q q' -> sq_static q -> sq_static q'.
Proof. intros (ms & Hl & ->) [H1 H2 H3 H4]. split; cbn; try done. by rewrite Hl. Qed.

(** The loop signals registered processes, at most the number asked for. *)
Lemma signal_loop_ok n : forall i nr q, sq_static q -> 0 <= i -> i + Z.of_nat n <= pidnum q ->
  exists ks q', signal_loop n i nr q = Some (ks, q') /\ masked q q' /\
    Forall (fun p => p ∈ pidset q /\ p <> 0) ks /\ (nr <= sig_process_num q -> nr + Z.of_nat (length ks) <= sig_process_num q).
Proof.
  induction n as [|n IH]; intros i nr q Hs Hi Hn; cbn [signal_loop].
  { exists [], q. split; [done|]. split; [apply masked_refl|]. split; [constructor|]. cbn. lia. }
  destruct (Z.ltb_spec nr (sig_process_num q)) as [Hlt|Hge].
  2: { exists [], q. split; [done|]. split; [apply masked_refl|]. split; [constructor|]. cbn. lia. }
  pose proof (st_pids _ Hs) as (Hp & Hps & Hm). unfold MAX_READER_PROC_NUM in *.
  destruct (pidset q !! Z.to_nat i) as [p|] eqn:E; [|apply lookup_ge_None in E; lia]. cbn [mbind option_bind].
  destruct (Z.eqb_spec p 0) as [->|Hp0]; [apply IH; [done|lia|lia]|].
  assert (i / 8 < 8) by (apply Z.div_lt_upper_bound; lia). assert (0 <= i / 8) by (apply Z.div_pos; lia).
  destruct (sigmask q !! Z.to_nat (i / 8)) as [b|] eqn:Eb; [|apply lookup_ge_None in Eb; lia]. cbn [mbind option_bind].
  destruct (Z.testbit b (i mod 8)); [|apply IH; [done|lia|lia]].
  destruct (sigoff_masked q i Hs) as (r & q1 & -> & M1); [lia|]. cbn [mbind option_bind].
  pose proof (static_masked _ _ M1 Hs) as Hs1. pose proof M1 as (ms & _ & Hq1).
  destruct (IH (i + 1) (nr + 1) q1) as (ks & q2 & -> & M2 & Hk & Hlen); [done|lia|subst q1; cbn; lia|].
  cbn [mbind option_bind]. exists (p :: ks), q2. split; [done|]. split; [by eapply masked_trans|].
  assert (pidset q1 = pidset q /\ sig_process_num q1 = sig_process_num q) as [Hps1 Hsn] by (by subst q1).
  rewrite Hps1, Hsn in *. split; [constructor; [|done]; split; [by eapply list_elem_of_lookup_2|done]|].
  cbn [length]. intros _. specialize (Hlen ltac:(lia)). lia.
Qed.

Lemma rep_masked q q' ms : masked q q' -> sq_rep q ms -> sq_rep q' ms.
Proof.
  intros Hm [Hs (s & t & m1 & m2 & Hl & He)]. split; [by eapply static_masked|].
  exists s, t, m1, m2. split; [|done]. destruct Hm as (mk & _ & ->). by destruct Hl.
Qed.

(** ** [sq_put] *)

Lemma static_written q m t : sq_static q -> blen m = blen (nodes q) -> sq_static (set_tail t (set_nodes m q)).
Proof. intros [H1 H2 H3 H4] Hm. split; cbn; try done. by rewrite Hm. Qed.

(** The writer either refuses and changes nothing, or the message is put at the end. *)
Lemma sq_put_spec q ms tv d rest : sq_rep q ms -> msg_ok (tv, d) ->
  exists r ks q', sq_put q (Some (d ++ rest)) (blen d) tv = Some (r, ks, q') /\
    (r = -2 /\ q' = q /\ ks = [] \/
     r = 0 /\ sq_rep q' (ms ++ [(tv, d)]) /\ Forall (fun p => p ∈ pidset q /\ p <> 0) ks /\
       (0 <= sig_process_num q -> Z.of_nat (length ks) <= sig_process_num q)).
Proof.
  intros [Hst (s & t & m1 & m2 & Hly & ->)] Hok. pose proof Hok as [Htv Hd]. cbn [fst snd] in Htv, Hd.
  pose proof (node_size_pos q Hst) as Hz. pose proof (span_bounds _ Hz (tv, d) ltac:(cbn; lia)) as [Hs1 Hs2].
  destruct (needed_is_span q (tv, d) Hst) as [Hn _]; [cbn; lia|]. cbn [snd] in Hn. unfold sq_put.
  rewrite (proj2 (Z.leb_gt _ _)) by lia. rewrite (proj2 (Z.ltb_ge _ _)) by lia. cbn [orb]. rewrite Hn.
  destruct (Z.ltb_spec (SQ_EMPTY_NODES q) (span (SQ_NODE_SIZE q) (tv, d))) as [Hf|Hf].
  { eexists _, _, _. split; [done|]. by left. }
  pose proof (put_place_ok q Hst s t m1 m2 Hly (span (SQ_NODE_SIZE q) (tv, d)) ltac:(lia) Hf) as Hpl.
  destruct (put_place q _) as [[i tl]|]; [|eexists _, _, _; split; [done|by left]].
  destruct Hpl as (Hi & Htl & Hle & Hcase). cbv zeta. unfold SQ_GET.
  destruct (write_msg _ Hz (nodes q) i (tv, d)) as (b1 & b2 & b3 & b4 & E1 & E2 & E3 & E4 & L & Hat & Hf'); [done|done| |].
  { pose proof (st_mem _ Hst). unfold NODE_HEAD in *. nia. }
  cbn [fst snd] in E2, E3, E4. rewrite E1. cbn [mbind option_bind]. rewrite E2. cbn [mbind option_bind]. rewrite E3. cbn [mbind option_bind].
  assert (bread 0 (blen d) (d ++ rest) = Some d) as ->.
  { change (bread (Z.of_nat 0) (Z.of_nat (length d)) (d ++ rest) = Some d).
    rewrite bread_ok by (rewrite length_app; lia). by rewrite drop_0, take_app_length. }
  cbn [mbind option_bind]. rewrite E4. cbn [mbind option_bind]. set (q1 := set_tail tl (set_nodes b4 q)).
  assert (sq_rep q1 ((m1 ++ m2) ++ [(tv, d)])) as Hr1.
  { split; [by apply static_written|].
    destruct (lay_after_write q Hst s t m1 m2 Hly i (tv, d) b4 tl) as (s' & t' & m1' & m2' & Hl' & He'); try done.
    exists s', t', m1', m2'. done. }
  destruct (negb (data_signum q1 =? 0) && (sig_node_num q1 <=? SQ_USED_NODES q1)).
  - destruct (signal_loop_ok (Z.to_nat (pidnum q1)) 0 0 q1) as (ks & q2 & -> & Hm & Hk & Hlen);
      [apply Hr1|lia|pose proof (st_pids _ Hst); cbn; lia|].
    cbn [mbind option_bind]. eexists _, _, _. split; [done|]. right. split; [done|].
    split; [by eapply rep_masked|]. split; [done|]. intros Hs0. specialize (Hlen Hs0). cbn in Hlen. lia.
  - eexists _, _, _. split; [done|]. right. split; [done|]. split; [done|]. split; [constructor|]. cbn. lia.
Qed.

(** ** [sq_get] *)

Lemma add_pos_mod q pos k : 0 < ele_count q < 2 ^ 30 -> 0 <= pos -> pos + k <= ele_count q + 1 -> 0 <= k ->
  SQ_ADD_POS q pos k = if pos + k =? ele_count q + 1 then 0 else pos + k.
Proof.
  intros Hc H0 H1 H2. rewrite add_pos_small by lia. destruct (Z.eqb_spec (pos + k) (ele_count q + 1)) as [->|Hn].
  - apply Z.mod_same. lia.
  - apply Z.mod_small. lia.
Qed.

(** The reader steps over nodes without a token. *)
Lemma find_skips q fuel : sq_static q -> forall k pos, 0 <= pos <= ele_count q -> pos + Z.of_nat k <= ele_count q + 1 ->
  (forall i, pos <= i < pos + Z.of_nat k -> clean (SQ_NODE_SIZE q) (nodes q) i /\ i <> tail_pos q) ->
  find_message (k + fuel) pos q = find_message fuel (SQ_ADD_POS q pos (Z.of_nat k)) q.
Proof.
  intros Hst. pose proof (st_count _ Hst) as Hc. induction k as [|k IH]; intros pos Hp Hk Hcl.
  { rewrite add_pos_mod by lia. destruct (Z.eqb_spec (pos + Z.of_nat 0) (ele_count q + 1)); [lia|].
    cbn [Nat.add]. f_equal. lia. }
  cbn [Nat.add find_message]. destruct (Hcl pos ltac:(lia)) as [(t & Ht & Hn) Hne].
  rewrite (proj2 (Z.eqb_neq _ _)) by congruence. unfold SQ_GET. rewrite Ht. cbn [mbind option_bind].
  rewrite (proj2 (Z.eqb_neq t _)) by done. cbn [negb].
  rewrite (add_pos_mod q pos 1) by lia. destruct (Z.eqb_spec (pos + 1) (ele_count q + 1)).
  - assert (k = 0%nat) as -> by lia. rewrite add_pos_mod by lia.
    destruct (Z.eqb_spec (pos + Z.of_nat 1) (ele_count q + 1)); [done|lia].
  - rewrite IH; [|lia|lia|intros i Hi; apply Hcl; lia]. f_equal. unfold SQ_ADD_POS. do 2 f_equal. lia.
Qed.

Lemma static_nodes q m : sq_static q -> blen m = blen (nodes q) -> sq_static (set_nodes m q).
Proof. intros [H1 H2 H3 H4] Hm. split; cbn; try done. by rewrite Hm. Qed.

Lemma clear_steps fuel new_head : forall k pos q, sq_static q -> 0 <= pos <= ele_count q ->
  pos + Z.of_nat k <= ele_count q + 1 -> (forall i, pos <= i < pos + Z.of_nat k -> i <> new_head) ->
  exists m, clear_tokens (k + fuel) pos new_head q =
      clear_tokens fuel (SQ_ADD_POS q pos (Z.of_nat k)) new_head (set_nodes m q) /\
    blen m = blen (nodes q) /\
    (forall i, pos <= i < pos + Z.of_nat k -> clean (SQ_NODE_SIZE q) m i) /\
    (forall a b, b <= pos * SQ_NODE_SIZE q \/ (pos + Z.of_nat k) * SQ_NODE_SIZE q <= a -> same_on a b (nodes q) m).
Proof.
  induction k as [|k IH]; intros pos q Hst Hp Hk Hne; pose proof (st_count _ Hst) as Hc.
  { exists (nodes q). rewrite add_pos_mod by lia. destruct (Z.eqb_spec (pos + Z.of_nat 0) (ele_count q + 1)); [lia|].
    split; [cbn [Nat.add]; rewrite Z.add_0_r; by destruct q|]. split; [done|]. split; [intros i Hi; lia|].
    intros a b _ o k _ _. done. }
  pose proof (node_size_pos q Hst) as Hz. unfold NODE_HEAD in *. pose proof (st_mem _ Hst) as Hm.
  assert (blen (le32 0) = 4) as H4 by done.
  destruct (bwrite_spec (pos * SQ_NODE_SIZE q) (le32 0) (nodes q)) as (m1 & E1 & L1 & R1 & F1); [nia|rewrite H4; nia|].
  cbn [Nat.add clear_tokens]. rewrite (proj2 (Z.eqb_neq pos new_head)) by (apply Hne; lia).
  unfold SQ_GET. rewrite E1. cbn [mbind option_bind].
  assert (clean (SQ_NODE_SIZE q) m1 pos) as Hcl.
  { exists 0. unfold rd32. rewrite H4 in R1. rewrite R1. done. }
  assert (forall a b, b <= pos * SQ_NODE_SIZE q \/ pos * SQ_NODE_SIZE q + 4 <= a -> same_on a b (nodes q) m1) as F1'.
  { intros a b Hd o n Ho Hn. apply F1. rewrite H4. lia. }
  rewrite (add_pos_mod q pos 1) by lia. destruct (Z.eqb_spec (pos + 1) (ele_count q + 1)) as [He|He].
  - assert (k = 0%nat) as -> by lia. exists m1. rewrite add_pos_mod by lia.
    destruct (Z.eqb_spec (pos + Z.of_nat 1) (ele_count q + 1)); [|lia].
    split; [done|]. split; [done|]. split; [intros i Hi; by replace i with pos by lia|].
    intros a b Hd. apply F1'. nia.
  - destruct (IH (pos + 1) (set_nodes m1 q)) as (m & E & L & C & F).
    { by apply static_nodes. } { cbn. lia. } { cbn. lia. } { intros i Hi. apply Hne. lia. }
    exists m. change (nodes (set_nodes m1 q)) with m1 in *. change (SQ_NODE_SIZE (set_nodes m1 q)) with (SQ_NODE_SIZE q) in *.
    split; [|split; [congruence|split]].
    + rewrite E. unfold SQ_ADD_POS. change (ele_count (set_nodes m1 q)) with (ele_count q). do 3 f_equal; lia.
    + intros i Hi. destruct (decide (i = pos)) as [->|]; [|apply C; lia].
      eapply clean_frame; [|apply Hcl]. apply F. nia.
    + intros a b Hd o n Ho Hn. rewrite (F a b) by (done || nia). by apply (F1' a b); [nia|..].
Qed.

(** At the first node of a message the reader finds it. *)
Lemma find_at q fuel i x : sq_static q -> msg_at (SQ_NODE_SIZE q) (nodes q) i x -> i <> tail_pos q ->
  span (SQ_NODE_SIZE q) x <= SQ_USED_NODES2 q i ->
  find_message (S fuel) i q = Some (Message i (blen x.2) (span (SQ_NODE_SIZE q) x)).
Proof.
  intros Hst Hat Hne Hu. destruct (msg_at_reads _ _ _ _ Hat) as (R1 & R2 & _). pose proof Hat as [[_ Hb] _].
  cbn [find_message]. rewrite (proj2 (Z.eqb_neq _ _)) by congruence. unfold SQ_GET. rewrite R1. cbn [mbind option_bind].
  rewrite Z.eqb_refl. cbn [negb]. rewrite R2. cbn [mbind option_bind].
  rewrite i32_small by (unfold MAX_SQ_DATA_LENGTH in Hb; lia).
  destruct (needed_is_span q x Hst) as [-> _]; [lia|]. rewrite (proj2 (Z.ltb_ge _ _)) by done. done.
Qed.

Lemma used_nodes2 q i : 0 < ele_count q < 2 ^ 30 -> 0 <= tail_pos q <= ele_count q -> 0 <= i <= ele_count q ->
  SQ_USED_NODES2 q i = if tail_pos q <? i then ele_count q + 1 - i + tail_pos q else tail_pos q - i.
Proof.
  intros Hc Ht Hi. unfold SQ_USED_NODES2. rewrite empty_nodes2_small, mod_wrap by lia.
  destruct (Z.ltb_spec (i + ele_count q - tail_pos q) (ele_count q + 1)), (Z.ltb_spec (tail_pos q) i);
    rewrite i32_small; lia.
Qed.

Section get.
Context (q : sq_head_t) (Hst : sq_static q) (s t : Z) (ms1 ms2 : list msg) (Hly : sq_lay q s t ms1 ms2).
Notation sz := (SQ_NODE_SIZE q).

(** The reader finds [x] at node [i] and takes the nodes up to its end, with the
    tokens from [head_pos] on cleared; the queue then holds [ms]. *)
Definition takes (x : msg) (ms : list msg) : Prop :=
  exists i m q', find_message (S (S (Z.to_nat (ele_count q)))) (head_pos q) q = Some (Message i (blen x.2) (span sz x)) /\
    msg_at sz (nodes q) i x /\
    clear_tokens (S (S (Z.to_nat (ele_count q)))) (head_pos q) (SQ_ADD_POS q i (span sz x))
      (set_head (SQ_ADD_POS q i (span sz x)) q) = Some q' /\
    q' = set_nodes m (set_head (SQ_ADD_POS q i (span sz x)) q) /\ blen m = blen (nodes q) /\
    exists s' t' ms1' ms2', sq_lay q' s' t' ms1' ms2' /\ ms1' ++ ms2' = ms.

(** The first part is used up: the reader skips to node 0. *)
Lemma take_skipped x ms : ms1 = [] -> ms2 = x :: ms -> takes x ms.
Proof.
  intros Hm1 Hms. unfold takes.
  pose proof (node_size_pos q Hst) as Hz. pose proof (st_count _ Hst) as Hc.
  pose proof (lay_order q Hst s t ms1 ms2 Hly) as (O1 & O2 & O3 & O4).
  pose proof (tail_in q Hst s t ms1 ms2 Hly) as Htl. destruct Hly as [L1 L2 L3 L4 L5 L6].
  rewrite Hm1 in L4. rewrite Hms in L5. cbn in L4. subst s.
  cbn in L5. destruct L5 as [Hat L5]. pose proof (laid_le _ Hz _ _ _ _ L5) as Hle.
  pose proof Hat as [[_ Hb] _]. pose proof (span_bounds _ Hz x ltac:(lia)) as [Hs1 _].
  assert (tail_pos q = t /\ 0 < t < head_pos q) as [Ht Ht'] by lia.
  set (k := Z.to_nat (ele_count q + 1 - head_pos q)). set (n := span sz x) in *.
  assert (SQ_ADD_POS q 0 n = n) as Hn.
  { rewrite add_pos_mod by lia. destruct (Z.eqb_spec (0 + n) (ele_count q + 1)); lia. }
  assert (forall q1, ele_count q1 = ele_count q -> SQ_ADD_POS q1 (head_pos q) (Z.of_nat k) = 0) as Hk0.
  { intros q1 H1. rewrite add_pos_mod, H1 by lia. destruct (Z.eqb_spec (head_pos q + Z.of_nat k) (ele_count q + 1)); lia. }
  exists 0. rewrite Hn. set (q0 := set_head n q).
  assert (sq_static q0) as Hst0 by (by destruct Hst).
  destruct (clear_steps (S (S (Z.to_nat (ele_count q))) - k) n k (head_pos q) q0) as (m1 & E1 & B1 & C1 & F1);
    [done|cbn; lia|cbn; lia|intros i Hi; lia|].
  rewrite Hk0 in E1 by done. replace (k + (S (S (Z.to_nat (ele_count q))) - k))%nat with (S (S (Z.to_nat (ele_count q)))) in E1 by lia.
  destruct (clear_steps (S (S (Z.to_nat (ele_count q))) - k - Z.to_nat n) n (Z.to_nat n) 0 (set_nodes m1 q0)) as (m2 & E2 & B2 & C2 & F2).
  { by apply static_nodes. } { cbn; lia. } { cbn; lia. } { intros i Hi; lia. }
  change (nodes q0) with (nodes q) in *. change (nodes (set_nodes m1 q0)) with m1 in *.
  change (SQ_NODE_SIZE q0) with sz in *. change (SQ_NODE_SIZE (set_nodes m1 q0)) with sz in *. unfold NODE_HEAD in *.
  exists m2, (set_nodes m2 q0). split; [|split; [done|split; [|split; [done|split; [congruence|]]]]].
  - replace (S (S (Z.to_nat (ele_count q)))) with (k + S (S (S (Z.to_nat (ele_count q))) - k - 1))%nat by lia.
    rewrite find_skips; [|done|lia|lia|].
    + rewrite Hk0 by done. apply find_at; [done|done|lia|]. rewrite used_nodes2 by lia.
      destruct (Z.ltb_spec (tail_pos q) 0); lia.
    + intros i Hi. split; [apply L6; lia|lia].
  - rewrite E1. replace (S (S (Z.to_nat (ele_count q))) - k)%nat with (Z.to_nat n + (S (S (Z.to_nat (ele_count q))) - k - Z.to_nat n))%nat by lia.
    rewrite E2. change (SQ_ADD_POS (set_nodes m1 q0) 0 (Z.of_nat (Z.to_nat n))) with (SQ_ADD_POS q 0 (Z.of_nat (Z.to_nat n))).
    rewrite Z2Nat.id, Hn by lia. destruct (S (S _) - k - Z.to_nat n)%nat; cbn [clear_tokens]; by rewrite Z.eqb_refl.
  - exists t, 0, ms, []. split; [|by rewrite app_nil_r]. split; cbn; change (SQ_NODE_SIZE (set_nodes m2 q0)) with sz; [lia|lia|lia|..].
    + replace n with (0 + n) by lia. eapply laid_frame; [done| |apply L5]. intros o l H1 H2.
      rewrite (F2 (n * sz) (t * sz)) by (nia || lia). apply (F1 (n * sz) (t * sz)); nia.
    + done.
    + intros i Hi H1 _. destruct (Z.lt_ge_cases i n); [apply C2; lia|].
      assert (t <= i) by lia. eapply clean_frame; [apply F2; nia|].
      destruct (Z.lt_ge_cases i (head_pos q)); [eapply clean_frame; [apply F1; nia|]; apply L6; lia|apply C1; lia].
Qed.

(** The next message is at [head_pos]. *)
Lemma take_here x l1 : ms1 = x :: l1 -> takes x (l1 ++ ms2).
Proof.
  intros Hms. unfold takes.
  pose proof (node_size_pos q Hst) as Hz. pose proof (st_count _ Hst) as Hc.
  pose proof (lay_order q Hst s t ms1 ms2 Hly) as (O1 & O2 & O3 & O4).
  pose proof (tail_in q Hst s t ms1 ms2 Hly) as Htl. destruct Hly as [L1 L2 L3 L4 L5 L6].
  rewrite Hms in L4.
  cbn in L4. destruct L4 as [Hat L4]. pose proof (laid_le _ Hz _ _ _ _ L4) as Hle.
  pose proof Hat as [[_ Hb] _]. pose proof (span_bounds _ Hz x ltac:(lia)) as [Hs1 _].
  set (n := span sz x) in *. assert (SQ_ADD_POS q (head_pos q) n = head_pos q + n) as Hn.
  { rewrite add_pos_mod by lia. destruct (Z.eqb_spec (head_pos q + n) (ele_count q + 1)); lia. }
  exists (head_pos q). rewrite Hn. set (q0 := set_head (head_pos q + n) q).
  assert (sq_static q0) as Hst0 by (by destruct Hst).
  destruct (clear_steps (S (S (Z.to_nat (ele_count q))) - Z.to_nat n) (head_pos q + n) (Z.to_nat n) (head_pos q) q0) as (m & E1 & B1 & C1 & F1);
    [done|cbn; lia|cbn; lia|intros i Hi; lia|].
  replace (Z.to_nat n + (S (S (Z.to_nat (ele_count q))) - Z.to_nat n))%nat with (S (S (Z.to_nat (ele_count q)))) in E1 by lia.
  change (nodes q0) with (nodes q) in *. change (SQ_NODE_SIZE q0) with sz in *. rewrite Z2Nat.id in * by lia. unfold NODE_HEAD in *.
  exists m, (set_nodes m q0). split; [|split; [done|split; [|split; [done|split; [done|]]]]].
  - apply find_at; [done|done|lia|]. rewrite used_nodes2 by lia. destruct (Z.ltb_spec (tail_pos q) (head_pos q)); lia.
  - rewrite E1. change (SQ_ADD_POS q0 (head_pos q) n) with (SQ_ADD_POS q (head_pos q) n). rewrite Hn.
    destruct (S (S _) - Z.to_nat n)%nat; cbn [clear_tokens]; by rewrite Z.eqb_refl.
  - exists s, t, l1, ms2. split; [|done]. split; cbn; change (SQ_NODE_SIZE (set_nodes m q0)) with sz; [lia|lia|lia|..].
    + eapply laid_frame; [done| |apply L4]. apply F1. lia.
    + eapply laid_frame; [done| |apply L5]. apply F1. nia.
    + intros i Hi H1 H2. destruct (decide (head_pos q <= i < head_pos q + n)); [apply C1; lia|].
      eapply clean_frame; [apply F1; nia|]. apply L6; lia.
Qed.

Lemma take_first x ms : ms1 ++ ms2 = x :: ms -> takes x ms.
Proof.
  intros Hms. assert (ms1 = [] \/ exists y l1, ms1 = y :: l1) as [E|(y & l1 & E)] by (destruct ms1; eauto).
  - apply take_skipped; [done|]. by rewrite E in Hms.
  - rewrite E in Hms. injection Hms as -> <-. by apply take_here.
Qed.
End get.

(** A reader with a buffer large enough gets the first message, whole, with its
    time; the queue holds the rest. *)
Lemma sq_get_spec q x ms buf_sz : sq_rep q (x :: ms) -> blen x.2 <= buf_sz ->
  exists q', sq_get q true buf_sz = Some (blen x.2, x.2, x.1, q') /\ sq_rep q' ms.
Proof.
  intros [Hst (s & t & m1 & m2 & Hly & Hms)] Hb.
  destruct (take_first q Hst s t m1 m2 Hly x ms (eq_sym Hms)) as (i & m & q' & Ef & Hat & Ec & Hq & Hl & s' & t' & m1' & m2' & Hly' & Hms').
  destruct (msg_at_reads _ _ _ _ Hat) as (_ & _ & R3 & R4). pose proof Hat as [[_ Hb'] _].
  unfold sq_get. rewrite (proj2 (Z.ltb_ge buf_sz 1)) by lia. cbn [negb orb]. rewrite Ef. cbn [mbind option_bind].
  unfold SQ_GET. rewrite R3. cbn [mbind option_bind]. rewrite (proj2 (Z.ltb_ge buf_sz _)) by lia.
  rewrite R4. cbn [mbind option_bind]. rewrite Ec. cbn [mbind option_bind]. exists q'. split; [done|]. split.
  - subst q'. apply static_nodes; [by destruct Hst|done].
  - exists s', t', m1', m2'. done.
Qed.

Lemma sq_get_empty q buf_sz : sq_rep q [] -> 1 <= buf_sz -> sq_get q true buf_sz = Some (0, [], [], q).
Proof.
  intros [Hst (s & t & m1 & m2 & Hly & Hms)] Hb. symmetry in Hms. apply app_eq_nil in Hms as [-> ->].
  destruct Hly as [L1 L2 L3 L4 L5 L6]. cbn in L4, L5.
  unfold sq_get. rewrite (proj2 (Z.ltb_ge buf_sz 1)) by lia. cbn [negb orb find_message].
  rewrite (proj2 (Z.eqb_eq (tail_pos q) (head_pos q))) by lia. cbn [mbind option_bind]. by rewrite Z.eqb_refl.
Qed.

(** ** The queue is first in, first out *)

Inductive qcall := Put (tv d : list Z) | Get.

(** What a call returns: the result of [sq_put], or the message got. *)
Inductive qres := RPut (r : Z) | RGot (x : msg) | RNone.

(** Calls one after the other; the reader's buffer takes any message. *)
Fixpoint run_calls (cs : list qcall) (q : sq_head_t) : option (list qres * sq_head_t) :=
  match cs with
  | [] => Some ([], q)
  | Put tv d :: cs =>
      '(r, _, q) ← sq_put q (Some d) (blen d) tv;
      '(rs, q) ← run_calls cs q; Some (RPut r :: rs, q)
  | Get :: cs =>
      '(n, d, tv, q) ← sq_get q true MAX_SQ_DATA_LENGTH;
      '(rs, q) ← run_calls cs q; Some ((if n =? 0 then RNone else RGot (tv, d)) :: rs, q)
  end.

(** The specification: a sequence of messages; a put may be refused with -2. *)
Inductive spec_run : list qcall -> list msg -> list qres -> list msg -> Prop :=
  | sr_nil ms : spec_run [] ms [] ms
  | sr_put tv d cs ms rs ms' : spec_run cs (ms ++ [(tv, d)]) rs ms' -> spec_run (Put tv d :: cs) ms (RPut 0 :: rs) ms'
  | sr_full tv d cs ms rs ms' : spec_run cs ms rs ms' -> spec_run (Put tv d :: cs) ms (RPut (-2) :: rs) ms'
  | sr_get x cs ms rs ms' : spec_run cs ms rs ms' -> spec_run (Get :: cs) (x :: ms) (RGot x :: rs) ms'
  | sr_none cs rs ms' : spec_run cs [] rs ms' -> spec_run (Get :: cs) [] (RNone :: rs) ms'.

Definition call_ok (c : qcall) : Prop := match c with Put tv d => msg_ok (tv, d) | Get => True end.

(** What a queue takes before it is rounded up to 4 MB, and the sizes for which
    the rounded size is an [int]. *)
Definition sq_bytes (esize ecount : Z) : Z := SQ_HEAD + (NODE_HEAD + align8 esize) * (ecount + 1).
Definition sizes_ok (esize ecount : Z) : Prop :=
  0 < esize < 2 ^ 31 - 7 /\ 0 < ecount < 2 ^ 31 - 1 /\ sq_bytes esize ecount <= 2 ^ 31 - 2 ^ 22.

Lemma align8_range esize : 0 < esize < 2 ^ 31 - 7 -> esize <= align8 esize < 2 ^ 31.
Proof.
  intros He. unfold align8. rewrite i32_small, Z.shiftl_mul_pow2, Z.shiftr_div_pow2 by lia. change (2 ^ 3) with 8.
  pose proof (Z.div_mod (esize + 7) 8 ltac:(lia)). pose proof (Z.mod_pos_bound (esize + 7) 8 ltac:(lia)). lia.
Qed.

(** The size allocated is the bytes needed, rounded up to a multiple of 4 MB. *)
Lemma allocate_size_spec esize ecount : 0 < esize < 2 ^ 31 - 7 -> 0 < ecount < 2 ^ 31 - 1 ->
  allocate_size (align8 esize) ecount = (sq_bytes esize ecount + 2 ^ 22 - 1) / 2 ^ 22 * 2 ^ 22.
Proof.
  intros He Hc. pose proof (align8_range _ He) as Ha. unfold allocate_size, sq_bytes, SQ_HEAD, NODE_HEAD.
  set (e := align8 esize) in *. clearbody e. rewrite (i32_small (ecount + 1)) by lia.
  assert (0 <= (24 + e) * (ecount + 1) < 2 ^ 62 + 2 ^ 40) as Hm by nia.
  rewrite (u64_small (24 + e)), (u64_small (ecount + 1)), (u64_small (_ * _)) by (unfold in_u64; lia).
  set (X := 296 + (24 + e) * (ecount + 1)). assert (0 <= X < 2 ^ 62 + 2 ^ 41) as HX by (unfold X; lia).
  assert (forall z, 0 <= z < 2 ^ 63 -> i64 (u64 z) = z) as Hi.
  { intros z Hz. unfold i64. rewrite !u64_small by (unfold in_u64; rewrite ?u64_small; unfold in_u64; lia).
    destruct (Z.ltb_spec z (2 ^ 63)); lia. }
  rewrite Hi by lia. cbv zeta. rewrite (u64_small (X + _ - _)) by (unfold in_u64; lia).
  change (u64 (Z.lnot (2 ^ 22 - 1))) with (Z.shiftl (Z.ones 42) 22).
  assert (Z.land (X + 2 ^ 22 - 1) (Z.shiftl (Z.ones 42) 22) = (X + 2 ^ 22 - 1) / 2 ^ 22 * 2 ^ 22) as ->.
  { rewrite <- Z.shiftl_mul_pow2, <- Z.shiftr_div_pow2 by lia. apply Z.bits_inj'. intros n Hn.
    rewrite Z.land_spec, !Z.shiftl_spec by lia. destruct (Z.lt_ge_cases n 22).
    - rewrite !(Z.testbit_neg_r _ (n - 22)) by lia. by rewrite andb_false_r.
    - rewrite Z.shiftr_spec by lia. replace (n - 22 + 22) with n by lia.
      destruct (Z.lt_ge_cases n 64).
      + rewrite Z.ones_spec_low by lia. by rewrite andb_true_r.
      + rewrite Z.ones_spec_high by lia. rewrite (Z.bits_above_log2 (X + 2 ^ 22 - 1)); [done|lia|].
        apply Z.log2_lt_pow2; [lia|]. apply Z.lt_le_trans with (2 ^ 64); [lia|]. apply Z.pow_le_mono_r; lia. }
  pose proof (Z.div_mod (X + 2 ^ 22 - 1) (2 ^ 22) ltac:(lia)). pose proof (Z.mod_pos_bound (X + 2 ^ 22 - 1) (2 ^ 22) ltac:(lia)).
  rewrite <- (u64_small (_ / _ * _)) at 1 by (unfold in_u64; lia). apply Hi. lia.
Qed.

Lemma i32_range z : - 2 ^ 31 <= i32 z < 2 ^ 31.
Proof. unfold i32. pose proof (Z.mod_pos_bound z (2 ^ 32) ltac:(lia)). destruct (Z.ltb_spec (z mod 2 ^ 32) (2 ^ 31)); lia. Qed.

Lemma mapped_enough esize ecount : sizes_ok esize ecount ->
  mapped_size (align8 esize) ecount = allocate_size (align8 esize) ecount /\
  sq_bytes esize ecount <= mapped_size (align8 esize) ecount.
Proof.
  intros (He & Hc & Hs). unfold mapped_size. rewrite allocate_size_spec by done. pose proof (align8_range _ He) as Ha.
  assert (0 < sq_bytes esize ecount) by (unfold sq_bytes, SQ_HEAD, NODE_HEAD; nia). set (X := sq_bytes esize ecount) in *.
  pose proof (Z.div_mod (X + 2 ^ 22 - 1) (2 ^ 22) ltac:(lia)). pose proof (Z.mod_pos_bound (X + 2 ^ 22 - 1) (2 ^ 22) ltac:(lia)).
  assert ((X + 2 ^ 22 - 1) / 2 ^ 22 < 2 ^ 9) by (apply Z.div_lt_upper_bound; lia).
  rewrite i32_small by lia. lia.
Qed.

(** A queue just created holds nothing. *)
Lemma fresh_rep esize ecount : sizes_ok esize ecount -> sq_rep (sq_fresh (align8 esize) ecount) [].
Proof.
  intros Hok. destruct (mapped_enough _ _ Hok) as [_ Hal]. destruct Hok as (He & Hc & Hs).
  pose proof (align8_range _ He) as Ha. unfold sq_bytes in *.
  set (e := align8 esize) in *. set (sz := NODE_HEAD + e) in *.
  assert (0 <= (ecount + 1) * sz) by (unfold sz, NODE_HEAD; nia).
  assert (ecount < 2 ^ 30) by (unfold sz, SQ_HEAD, NODE_HEAD in *; nia).
  unfold sq_fresh. set (M := mapped_size e ecount) in *. clearbody M. unfold SQ_HEAD in *.
  split.
  - split; cbn; try done; [lia..|]. unfold SQ_NODE_SIZE, sq_fresh, blen. cbn. rewrite length_replicate. fold sz. lia.
  - exists 0, 0, [], []. split; [|done]. split; cbn; try lia; try done.
    intros i Hi _ _. exists 0. split; [|done]. unfold rd32, SQ_NODE_SIZE. cbn. fold sz.
    rewrite (bread_replicate 0) by (unfold blen; rewrite ?length_replicate; unfold sz, NODE_HEAD in *; nia).
    done.
Qed.

Lemma run_calls_refine cs : forall q ms, sq_rep q ms -> Forall call_ok cs ->
  exists rs q' ms', run_calls cs q = Some (rs, q') /\ spec_run cs ms rs ms' /\ sq_rep q' ms'.
Proof.
  induction cs as [|c cs IH]; intros q ms Hr Hok; cbn [run_calls].
  { exists [], q, ms. split; [done|]. split; [constructor|done]. }
  apply Forall_cons_1 in Hok as [Hc Hok]. destruct c as [tv d|].
  - destruct (sq_put_spec q ms tv d [] Hr Hc) as (r & ks & q1 & E & Hcase). rewrite app_nil_r in E.
    rewrite E. cbn [mbind option_bind]. destruct Hcase as [(-> & -> & _)|(-> & Hr1 & _)].
    + destruct (IH q ms Hr Hok) as (rs & q' & ms' & -> & Hs & Hr'). eexists _, _, _.
      split; [done|]. split; [by constructor|done].
    + destruct (IH q1 _ Hr1 Hok) as (rs & q' & ms' & -> & Hs & Hr'). eexists _, _, _.
      split; [done|]. split; [by constructor|done].
  - destruct ms as [|x ms].
    + rewrite sq_get_empty by (done || unfold MAX_SQ_DATA_LENGTH; lia). cbn [mbind option_bind].
      destruct (IH q [] Hr Hok) as (rs & q' & ms' & -> & Hs & Hr'). eexists _, _, _.
      split; [done|]. split; [by constructor|done].
    + assert (0 < blen x.2 <= MAX_SQ_DATA_LENGTH) as Hb.
      { destruct Hr as [Hst (s & t & m1 & m2 & Hly & Hms)].
        destruct (take_first q Hst s t m1 m2 Hly x ms (eq_sym Hms)) as (i & m & q' & _ & [[_ Hb] _] & _). done. }
      destruct (sq_get_spec q x ms MAX_SQ_DATA_LENGTH Hr) as (q1 & -> & Hr1); [lia|]. cbn [mbind option_bind].
      destruct (IH q1 ms Hr1 Hok) as (rs & q' & ms' & -> & Hs & Hr').
      rewrite (proj2 (Z.eqb_neq _ _)) by lia. rewrite <- surjective_pairing. eexists _, _, _.
      split; [done|]. split; [by constructor|done].
Qed.

(** C13: a new report queue, whatever is put into it and got from it in whatever
    order, is a first-in first-out sequence of messages: every get returns the
    oldest message not yet got, whole and with the time it was put, through any
    number of turns of the ring and skipped ends; a put that finds no room returns
    -2 and changes nothing.  The queue is the one [sq_open] makes of a file whose
    parameters are others, and its size, with the 4 MB it may be rounded up by,
    is less than 2 GB, so that it is an [int]. *)
Theorem report_queue_is_fifo esize ecount map_file old cs : sizes_ok esize ecount ->
  map_file (mapped_size (align8 esize) ecount) = Some old ->
  ele_size old <> align8 esize \/ ele_count old <> ecount -> Forall call_ok cs ->
  exists q rs q' ms', sq_open_file true esize ecount map_file = Some (Some q) /\
    run_calls cs q = Some (rs, q') /\ spec_run cs [] rs ms'.
Proof.
  intros Hok Hm Hd Hcs. destruct (run_calls_refine cs _ [] (fresh_rep esize ecount Hok) Hcs) as (rs & q' & ms' & E & Hs & _).
  exists (sq_fresh (align8 esize) ecount), rs, q', ms'. split; [|by split].
  pose proof Hok as (He & Hc & _). unfold sq_open_file. rewrite (proj2 (Z.eqb_neq esize 0)) by lia.
  rewrite (proj2 (Z.eqb_neq ecount 0)) by lia. cbn [negb orb]. cbv zeta. rewrite Hm. cbn [mbind option_bind].
  destruct (mapped_enough _ _ Hok) as [-> _]. rewrite Z.eqb_refl.
  destruct (Z.eqb_spec (ele_size old) (align8 esize)); [|done]. destruct (Z.eqb_spec (ele_count old) ecount); [|done]. lia.
Qed.

(** A queue of 2 GB or more, rounded up: what is mapped is not the size that
    [memset] clears, so that [sq_open] is undefined, whatever the mapping gives. *)
Theorem sq_open_large_undefined esize ecount map_file : 0 < esize < 2 ^ 31 - 7 -> 0 < ecount < 2 ^ 31 - 1 ->
  2 ^ 31 - 2 ^ 22 < sq_bytes esize ecount ->
  (forall n q, map_file n = Some q -> ele_size q <> align8 esize \/ ele_count q <> ecount) ->
  sq_open_file true esize ecount map_file = None.
Proof.
  intros He Hc Hs Hm. unfold sq_open_file. rewrite (proj2 (Z.eqb_neq esize 0)) by lia.
  rewrite (proj2 (Z.eqb_neq ecount 0)) by lia. cbn [negb orb]. cbv zeta.
  destruct (map_file _) as [shm|] eqn:E; [|done]. cbn [mbind option_bind]. apply Hm in E.
  assert (mapped_size (align8 esize) ecount =? allocate_size (align8 esize) ecount = false) as ->.
  { apply Z.eqb_neq. unfold mapped_size. rewrite allocate_size_spec by done. set (X := sq_bytes esize ecount) in *.
    pose proof (Z.div_mod (X + 2 ^ 22 - 1) (2 ^ 22) ltac:(lia)). pose proof (Z.mod_pos_bound (X + 2 ^ 22 - 1) (2 ^ 22) ltac:(lia)).
    set (A := (X + 2 ^ 22 - 1) / 2 ^ 22) in *. pose proof (i32_range (A * 2 ^ 22)).
    assert (2 ^ 9 <= A) by (apply Z.div_le_lower_bound; lia). lia. }
  destruct (Z.eqb_spec (ele_size shm) (align8 esize)); [|done]. destruct (Z.eqb_spec (ele_count shm) ecount); [|done]. lia.
Qed.

(** Small queues to evaluate: 4 elements of 8 bytes, that is 5 nodes of 32. *)
Definition small_queue : sq_head_t :=
  mkSq 8 4 0 0 0 0 0 0 (replicate 64 0) (replicate 8 0) (replicate 160 0).

Definition tv0 : list Z := replicate 16 0.

Lemma report_queue_is_fifo_witness :
  exists q rs q' ms', sq_open_file true 8 4 (fun n => Some (mkSq 0 0 0 0 0 0 0 0 [] [] (replicate (Z.to_nat n) 0))) = Some (Some q) /\
    run_calls [Put tv0 [1; 2; 3]; Get; Get] q = Some (rs, q') /\ spec_run [Put tv0 [1; 2; 3]; Get; Get] [] rs ms'.
Proof.
  eapply (report_queue_is_fifo 8 4); [by vm_compute|done|by left|]. repeat first [apply Forall_nil_2 | apply Forall_cons_2]; [|done..]. split; [done|]. by vm_compute.
Defined.

(** A put signals registered processes only, and at most [sig_process_num]
    of them. *)
Theorem sq_put_signals q ms tv d r ks q' : sq_rep q ms -> msg_ok (tv, d) -> 0 <= sig_process_num q ->
  sq_put q (Some d) (blen d) tv = Some (r, ks, q') ->
  Forall (fun p => p ∈ pidset q /\ p <> 0) ks /\ Z.of_nat (length ks) <= sig_process_num q.
Proof.
  intros Hr Hok Hs E. destruct (sq_put_spec q ms tv d [] Hr Hok) as (r1 & ks1 & q1 & E1 & Hcase).
  rewrite app_nil_r in E1. rewrite E in E1. injection E1 as <- <- <-.
  destruct Hcase as [(_ & _ & ->)|(_ & _ & Hk & Hl)]; [split; [constructor|cbn; lia]|]. by auto.
Qed.

(** ** A message too long for the reader's buffer

    [sq_get] then returns -2 and moves [head_pos], but leaves the tokens: the node
    still looks like the start of a message when the writer skips over it. *)

(** The calls, with the size of the buffer given. *)
Fixpoint run_sized (cs : list (option (list Z) * Z)) (q : sq_head_t) : option (list (Z * list Z) * sq_head_t) :=
  match cs with
  | [] => Some ([], q)
  | (Some d, _) :: cs =>
      '(r, _, q) ← sq_put q (Some d) (blen d) tv0; '(rs, q) ← run_sized cs q; Some ((r, []) :: rs, q)
  | (None, sz) :: cs =>
      '(n, d, _, q) ← sq_get q true sz; '(rs, q) ← run_sized cs q; Some ((n, d) :: rs, q)
  end.

(** After one [sq_get] with too small a buffer the queue is no longer first in,
    first out: the message it refused is delivered later, after newer ones were
    got. *)
Theorem sq_get_small_buffer_replays :
  fst <$> run_sized
    [(Some [1], 0); (Some [2], 0); (Some [3], 0); (Some [44; 44], 0);
     (None, 8); (None, 8); (None, 8); (None, 1);                   (* the fourth is refused *)
     (Some [5], 0); (None, 8); (Some [6], 0); (Some [7], 0); (None, 8); (None, 8);
     (Some (replicate 20 9), 0); (None, 64)]                       (* and comes back here *)
    small_queue =
  Some [(0, []); (0, []); (0, []); (0, []); (1, [1]); (1, [2]); (1, [3]); (-2, []);
        (0, []); (1, [5]); (0, []); (0, []); (1, [6]); (1, [7]); (0, []); (2, [44; 44])].
Proof. by vm_compute. Qed.

(** An empty queue can refuse, as full, a message that it has room for: with
    both positions at node 3 of 5, a message of 3 nodes gets -2, and goes on
    getting it. *)
Theorem sq_put_refuses_when_empty :
  fst <$> run_sized
    [(Some [1], 0); (None, 8); (Some [2], 0); (None, 8); (Some [3], 0); (None, 8); (None, 8);
     (Some (replicate 60 9), 0); (Some (replicate 60 9), 0)] small_queue =
  Some [(0, []); (1, [1]); (0, []); (1, [2]); (0, []); (1, [3]); (0, []); (-2, []); (-2, [])] /\
  fst <$> run_sized [(Some (replicate 60 9), 0)] small_queue = Some [(0, [])].
Proof. by vm_compute. Qed.
