(* ===== verification/Report.v ===== *)
(** * Reports

    [comm/report/loop_queue.h] and [loop_queue.cpp]: the class [CLoopQueue] over the
    queue of [ReportQueue]; [comm/report/report_base.h], [report_handle.h] and
    [report_handle.cpp]: [CReport], which fills a record of 148 bytes and pushes it,
    and takes such records out. *)

From Stdlib Require Import ZArith Lia.
From stdpp Require Import base list option.
From S2P Require Import Prelude Bytes ReportQueue.

(** ** [CLoopQueue] *)

(** The object's queue, [None] before [init]. *)
Definition CLoopQueue : Type := option sq_head_t.

(** [CLoopQueue::init]; [map_file] maps bytes of the file. *)
Definition loop_init (file_ok : bool) (max_unit_num unit_size : Z) (map_file : Z -> option sq_head_t) (o : CLoopQueue)
    : option (Z * CLoopQueue) :=
  if negb file_ok || (unit_size =? 0) || (max_unit_num =? 0) then Some (-1, o)
  else match o with
       | Some _ => Some (-1, o)
       | None => r ← sq_open_file file_ok unit_size max_unit_num map_file;
                 Some (match r with Some _ => 0 | None => -1 end, r)
       end.

Definition push (o : CLoopQueue) (unit_ : option (list Z)) (size : Z) (tv : list Z) : option (Z * CLoopQueue) :=
  match o with
  | None => Some (-2, o)
  | Some q =>
      match unit_ with
      | None => Some (-3, o)
      | Some _ => '(r, _, q) ← sq_put q unit_ (i32 size) tv; Some (if r =? 0 then 0 else -1, Some q)
      end
  end.

(** The data goes to the caller's buffer, the time too if [want_tv]. *)
Definition pop (o : CLoopQueue) (unit_ok : bool) (size : Z) (want_tv : bool)
    : option (Z * list Z * option (list Z) * CLoopQueue) :=
  match o with
  | None => Some (-2, [], None, o)
  | Some q =>
      if negb unit_ok then Some (-3, [], None, o)
      else
        '(r, d, tv, q) ← sq_get q unit_ok (i32 size);
        Some (if 0 <? r then 0 else -1, d, if want_tv && (negb (bool_decide (tv = []))) then Some tv else None, Some q)
  end.

(** ** [CReport] *)

Definition REPORT_FIELD_CMD : Z := 0x1.
Definition REPORT_FIELD_RESULT : Z := 0x2.
Definition REPORT_FIELD_LOCAL : Z := 0x4.
Definition REPORT_FIELD_REMOTE : Z := 0x8.
Definition REPORT_FIELD_COST : Z := 0x10.
Definition REPORT_FIELD_USR_DEF : Z := 0x20.

Record report_handle_t := mkRep {
  bitmaps : Z; rcmd : list Z; result : Z; remote_ipv4 : Z; remote_port : Z; local_ipv4 : Z; local_port : Z;
  msg_cost : Z; frm_err : Z; usr_define : Z; reserved : list Z
}.

(** The packed struct in memory: 148 bytes. *)
Definition rep_bytes (h : report_handle_t) : list Z :=
  le32 (bitmaps h) ++ rcmd h ++ le32 (u32 (result h)) ++ le32 (remote_ipv4 h) ++ le32 (remote_port h) ++
  le32 (local_ipv4 h) ++ le32 (local_port h) ++ le32 (msg_cost h) ++ le32 (u32 (frm_err h)) ++
  le32 (usr_define h) ++ reserved h.
Definition REPORT_SIZE : Z := 148.
Definition MAXNUMBER : Z := 1 * 10000 * 60.

(** The constructor, on the global record. *)
Definition CReport_new (h : report_handle_t) : report_handle_t :=
  mkRep 0 (replicate 32 0) (result h) (remote_ipv4 h) (remote_port h) (local_ipv4 h) (local_port h) 0
    (frm_err h) (usr_define h) (reserved h).

(** [set_cmd]: [strncpy] of [n] characters of a string of at least [n] copies them
    and nothing more. *)
Definition set_cmd (cmd : list Z) (h : report_handle_t) : report_handle_t :=
  let srclen := length cmd in
  let dstlen := 31%nat in
  let n := if (dstlen <=? srclen)%nat then dstlen else srclen in
  mkRep (Z.lor (bitmaps h) REPORT_FIELD_CMD) (take n cmd ++ drop n (rcmd h)) (result h) (remote_ipv4 h) (remote_port h)
    (local_ipv4 h) (local_port h) (msg_cost h) (frm_err h) (usr_define h) (reserved h).

Definition set_result (r : Z) (h : report_handle_t) : report_handle_t :=
  mkRep (Z.lor (bitmaps h) REPORT_FIELD_RESULT) (rcmd h) r (remote_ipv4 h) (remote_port h)
    (local_ipv4 h) (local_port h) (msg_cost h) (frm_err h) (usr_define h) (reserved h).
Definition set_local_addr (ip port : Z) (h : report_handle_t) : report_handle_t :=
  mkRep (Z.lor (bitmaps h) REPORT_FIELD_LOCAL) (rcmd h) (result h) (remote_ipv4 h) (remote_port h)
    ip port (msg_cost h) (frm_err h) (usr_define h) (reserved h).
Definition set_remote_addr (ip port : Z) (h : report_handle_t) : report_handle_t :=
  mkRep (Z.lor (bitmaps h) REPORT_FIELD_REMOTE) (rcmd h) (result h) ip port
    (local_ipv4 h) (local_port h) (msg_cost h) (frm_err h) (usr_define h) (reserved h).
Definition set_msg_cost (c : Z) (h : report_handle_t) : report_handle_t :=
  mkRep (Z.lor (bitmaps h) REPORT_FIELD_COST) (rcmd h) (result h) (remote_ipv4 h) (remote_port h)
    (local_ipv4 h) (local_port h) c (frm_err h) (usr_define h) (reserved h).
Definition set_usr_define (c : Z) (h : report_handle_t) : report_handle_t :=
  mkRep (Z.lor (bitmaps h) REPORT_FIELD_USR_DEF) (rcmd h) (result h) (remote_ipv4 h) (remote_port h)
    (local_ipv4 h) (local_port h) (msg_cost h) (frm_err h) c (reserved h).

(** [CReport::do_report]; [map_file] is for [init], if it is needed. *)
Definition do_report (h : report_handle_t) (o : CLoopQueue) (map_file : Z -> option sq_head_t) (tv : list Z)
    : option (Z * report_handle_t * CLoopQueue) :=
  if (0 <? Z.land (bitmaps h) REPORT_FIELD_CMD) && (0 <? Z.land (bitmaps h) REPORT_FIELD_RESULT) then
    '(r, o) ← push o (Some (rep_bytes h)) REPORT_SIZE tv;
    '(r, o) ← (if r =? -2 then
                 '(_, o) ← loop_init true MAXNUMBER REPORT_SIZE map_file o;
                 push o (Some (rep_bytes h)) REPORT_SIZE tv
               else Some (r, o));
    Some (r, mkRep 0 (rcmd h) (result h) (remote_ipv4 h) (remote_port h) (local_ipv4 h) (local_port h) 0
               (frm_err h) (usr_define h) (reserved h), o)
  else Some (-5, h, o).

(** [CReport::proc_report]: the first [pop] is called without the time. *)
Definition proc_report (o : CLoopQueue) (want_tv : bool) (map_file : Z -> option sq_head_t)
    : option (Z * list Z * option (list Z) * CLoopQueue) :=
  '(r, d, t, o) ← pop o true REPORT_SIZE false;
  if r =? -2 then
    '(_, o) ← loop_init true MAXNUMBER REPORT_SIZE map_file o;
    pop o true REPORT_SIZE want_tv
  else Some (r, d, t, o).

Definition handle_ok (h : report_handle_t) : Prop := length (rcmd h) = 32%nat /\ length (reserved h) = 80%nat.

Lemma rep_bytes_len h : handle_ok h -> blen (rep_bytes h) = REPORT_SIZE.
Proof. intros [H1 H2]. unfold rep_bytes, blen, le32. rewrite !length_app, !length_le, H1, H2. done. Qed.

(** The setters keep the record well formed: [set_cmd] never writes past the 31st
    character. *)
Lemma set_cmd_ok cmd h : handle_ok h -> handle_ok (set_cmd cmd h) /\ list.last (rcmd (set_cmd cmd h)) = list.last (rcmd h).
Proof.
  intros [H1 H2]. unfold set_cmd. set (n := if (31 <=? length cmd)%nat then 31%nat else length cmd).
  assert (n <= 31 /\ n <= length cmd)%nat as [Hn Hn'] by (unfold n; destruct (Nat.leb_spec 31 (length cmd)); lia).
  split; [split; cbn; [|done]|].
  - rewrite length_app, length_take, length_drop. lia.
  - cbn [rcmd]. rewrite last_app. destruct (list.last (drop n (rcmd h))) as [z|] eqn:E.
    + rewrite <- (take_drop n (rcmd h)). by rewrite last_app, E.
    + apply last_None in E. apply (f_equal length) in E. rewrite length_drop in E. cbn in E. lia.
Qed.

(** [n] calls of [proc_report]: the reports, when none fails. *)
Fixpoint proc_reports (n : nat) (o : CLoopQueue) : option (list (list Z) * CLoopQueue) :=
  match n with
  | O => Some ([], o)
  | S n =>
      '(r, d, _, o) ← proc_report o true (fun _ => None);
      if r =? 0 then '(l, o) ← proc_reports n o; Some (d :: l, o) else None
  end.

Lemma proc_reports_all ms : forall q, sq_rep q ms -> Forall (fun x => blen x.2 <= REPORT_SIZE) ms -> Forall msg_ok ms ->
  exists o, proc_reports (length ms) (Some q) = Some (map snd ms, o).
Proof.
  induction ms as [|x ms IH]; intros q Hq Hl Hok; [by eexists|].
  apply Forall_cons_1 in Hl as [Hx Hl]. apply Forall_cons_1 in Hok as [[Hxt Hx0] Hok].
  destruct (sq_get_spec q x ms REPORT_SIZE Hq) as (q2 & Eg & Hq2); [lia|]. destruct (IH q2 Hq2 Hl Hok) as (o & E).
  cbn [length proc_reports map]. unfold proc_report, pop. cbn [negb]. change (i32 REPORT_SIZE) with REPORT_SIZE. rewrite Eg.
  cbn [mbind option_bind]. rewrite (proj2 (Z.ltb_lt 0 _)) by lia. cbn [mbind option_bind Z.eqb snd]. rewrite E. cbn. eauto.
Qed.

(** C40: reports are delivered.  With reports [ms] waiting, a complete report (it has
    its command and its result) handed to [do_report] is either refused, with the
    queue unchanged, or comes out of [proc_report] byte for byte after all those
    before it; in both cases the record is ready for the next one. *)
Theorem report_roundtrip h q ms tv : sq_rep q ms -> Forall msg_ok ms -> Forall (fun x => blen x.2 <= REPORT_SIZE) ms ->
  handle_ok h -> length tv = 16%nat ->
  0 < Z.land (bitmaps h) REPORT_FIELD_CMD -> 0 < Z.land (bitmaps h) REPORT_FIELD_RESULT ->
  exists r h' o', do_report h (Some q) (fun _ => None) tv = Some (r, h', o') /\ bitmaps h' = 0 /\
    (r = -1 /\ o' = Some q \/
     r = 0 /\ exists o'', proc_reports (S (length ms)) o' = Some (map snd ms ++ [rep_bytes h], o'')).
Proof.
  intros Hr Hms Hsz Hh Ht Hc Hres. pose proof (rep_bytes_len h Hh) as Hl.
  assert (msg_ok (tv, rep_bytes h)) as Hok.
  { split; [done|]. cbn [snd]. rewrite Hl. unfold REPORT_SIZE, MAX_SQ_DATA_LENGTH. lia. }
  unfold do_report. rewrite (proj2 (Z.ltb_lt 0 (Z.land (bitmaps h) REPORT_FIELD_CMD))) by done.
  rewrite (proj2 (Z.ltb_lt 0 (Z.land (bitmaps h) REPORT_FIELD_RESULT))) by done. cbn [andb push].
  destruct (sq_put_spec q ms tv (rep_bytes h) [] Hr Hok) as (r & ks & q1 & Ep & Hcase).
  rewrite app_nil_r, Hl in Ep. change (i32 REPORT_SIZE) with REPORT_SIZE. rewrite Ep. cbn [mbind option_bind].
  destruct Hcase as [(-> & -> & _)|(-> & Hr1 & _)]; cbn; eexists _, _, _; (split; [done|]); (split; [done|]); [by left|right].
  split; [done|]. destruct (proc_reports_all (ms ++ [(tv, rep_bytes h)]) q1 Hr1) as (o & E).
  - apply Forall_app. split; [done|]. constructor; [|done]. cbn [snd]. lia.
  - apply Forall_app. split; [done|]. by constructor.
  - exists o. rewrite length_app, Nat.add_comm, map_app in E. exact E.
Qed.

Lemma report_roundtrip_witness :
  let h := mkRep 3 (replicate 32 65) 0 0 0 0 0 0 0 0 (replicate 80 0) in let q := sq_fresh (align8 64) 10 in
  exists r h' o', do_report h (Some q) (fun _ => None) tv0 = Some (r, h', o') /\ bitmaps h' = 0 /\
    (r = -1 /\ o' = Some q \/
     r = 0 /\ exists o'', proc_reports 1 o' = Some ([rep_bytes h], o'')).
Proof.
  apply (report_roundtrip _ _ []); [by apply fresh_rep; vm_compute|constructor|constructor|by split|done|done|done].
Defined.

(** [proc_report] does not give the time a report was put to a caller who asks
    for it: only the attempt after an [init] passes it on. *)
Theorem proc_report_drops_time q want_tv map_file r d t o : proc_report (Some q) want_tv map_file = Some (r, d, t, o) -> t = None.
Proof.
  unfold proc_report, pop. cbn [negb]. destruct (sq_get q true _) as [[[[n d'] tv] q']|]; [|done].
  cbn [mbind option_bind]. destruct (0 <? n); cbn; intros [=]; congruence.
Qed.

(** A [CReport] that is used again sends the end of an earlier, longer command
    with a shorter one: [set_cmd] writes no terminator. *)
Theorem set_cmd_keeps_old_tail a b h : handle_ok h -> (length b < length a <= 31)%nat ->
  take (length a) (rcmd (set_cmd b (set_cmd a h))) = b ++ drop (length b) a.
Proof.
  intros [Hh _] Hl. unfold set_cmd. cbn [rcmd].
  assert (forall c : list Z, (length c <= 31)%nat -> (if (31 <=? length c)%nat then 31%nat else length c) = length c) as Hn.
  { intros c Hc. destruct (Nat.leb_spec 31 (length c)); lia. }
  rewrite !Hn by lia. rewrite !firstn_all. rewrite (drop_app_le a) by lia.
  rewrite app_assoc, take_app_le by (rewrite length_app, length_drop; lia).
  apply take_ge. rewrite length_app, length_drop. lia.
Qed.
