(* ===== verification/WeightSched.v ===== *)
(** * Dynamic weight scheduling

    Models [src/src/nest/comm/weight_schedule.h] and [weight_schedule.cpp]: the
    weighted random choice among nodes ([CWeightSchedule] over [IDispatchAble]
    items), the adjustment of the weights, the private random generator, and the
    step computation of [CDynamicCtrl].  All fields keep their C width. *)

From Stdlib Require Import ZArith Lia.
From stdpp Require Import base gmap list option.
From S2P Require Import Prelude.

(** [class IDispatchAble] *)
Record IDispatchAble := mkItem { it_weight : Z; it_max_weight : Z }.

Definition set_weight (w : Z) (i : IDispatchAble) : IDispatchAble := mkItem w (it_max_weight i).
Definition set_max_weight (w : Z) (i : IDispatchAble) : IDispatchAble := mkItem (it_weight i) w.

(** [class CWeightSchedule] *)
Record CWeightSchedule := mkSched {
  ws_item_list : list ptr;
  ws_max_quota : Z;
  ws_min_quota : Z;
  ws_inc_step : Z;
  ws_dec_step : Z;
  ws_total_times : Z;
  ws_wakeup_frq : Z;
  ws_rand_seed : Z;
}.

(** The constructor. *)
Definition new_CWeightSchedule : CWeightSchedule := mkSched [] 10000 1 1000 960 0 10000 1.

(** The scheduler and the items it points to. *)
Record WsState := mkWs { ws : CWeightSchedule; ws_items : gmap ptr IDispatchAble }.

Definition item (st : WsState) (p : ptr) : IDispatchAble := default (mkItem 0 0) (ws_items st !! p).
Definition get_weight (st : WsState) (p : ptr) : Z := it_weight (item st p).
Definition on_item (p : ptr) (f : IDispatchAble -> IDispatchAble) (st : WsState) : WsState :=
  mkWs (ws st) (<[p := f (item st p)]> (ws_items st)).
Definition put_list (l : list ptr) (s : CWeightSchedule) : CWeightSchedule :=
  mkSched l (ws_max_quota s) (ws_min_quota s) (ws_inc_step s) (ws_dec_step s) (ws_total_times s) (ws_wakeup_frq s) (ws_rand_seed s).
Definition put_steps (inc dec : Z) (s : CWeightSchedule) : CWeightSchedule :=
  mkSched (ws_item_list s) (ws_max_quota s) (ws_min_quota s) inc dec (ws_total_times s) (ws_wakeup_frq s) (ws_rand_seed s).
Definition put_times (n : Z) (s : CWeightSchedule) : CWeightSchedule :=
  mkSched (ws_item_list s) (ws_max_quota s) (ws_min_quota s) (ws_inc_step s) (ws_dec_step s) n (ws_wakeup_frq s) (ws_rand_seed s).
Definition srand (seed : Z) (s : CWeightSchedule) : CWeightSchedule :=
  mkSched (ws_item_list s) (ws_max_quota s) (ws_min_quota s) (ws_inc_step s) (ws_dec_step s) (ws_total_times s) (ws_wakeup_frq s) seed.

(** [CWeightSchedule::random]: three steps of a linear congruential generator. *)
Definition lcg (x : Z) : Z := u32 (u32 (x * 1103515245) + 12345).
Definition random (s : CWeightSchedule) : Z * CWeightSchedule :=
  let n1 := lcg (ws_rand_seed s) in
  let r1 := (n1 / 65536) mod 2048 in
  let n2 := lcg n1 in
  let r2 := Z.lxor (u32 (Z.shiftl r1 10)) ((n2 / 65536) mod 1024) in
  let n3 := lcg n2 in
  let r3 := Z.lxor (u32 (Z.shiftl r2 10)) ((n3 / 65536) mod 1024) in
  (r3, srand n3 s).

#[local] Arguments random _ : simpl never.

(** [CWeightSchedule::add_item]; a known item only gets its weights reset. *)
Definition add_item (p : ptr) (st : WsState) : WsState :=
  let q := ws_max_quota (ws st) in
  let st := on_item p (set_weight q) (on_item p (set_max_weight q) st) in
  if decide (p ∈ ws_item_list (ws st)) then st
  else mkWs (put_list (ws_item_list (ws st) ++ [p]) (ws st)) (ws_items st).

(** [std::find] and [erase]: the first occurrence goes. *)
Fixpoint erase (p : ptr) (l : list ptr) : list ptr :=
  match l with
  | [] => []
  | x :: l => if decide (x = p) then l else x :: erase p l
  end.

(** [CWeightSchedule::del_item] *)
Definition del_item (p : ptr) (st : WsState) : WsState :=
  mkWs (put_list (erase p (ws_item_list (ws st))) (ws st)) (ws_items st).

(** The loop of [find_detect_item]; the random generator decides between items of
    equal weight. *)
Fixpoint find_detect_loop (w : ptr -> Z) (l : list ptr) (min : option ptr) (s : CWeightSchedule)
  : option ptr * CWeightSchedule :=
  match l with
  | [] => (min, s)
  | x :: l =>
      match min with
      | None => find_detect_loop w l (Some x) s
      | Some m =>
          if w x <? w m then find_detect_loop w l (Some x) s
          else if w x =? w m then
            let '(r, s) := random s in
            find_detect_loop w l (if negb (r mod 2 =? 0) then Some x else min) s
          else find_detect_loop w l min s
      end
  end.

(** [CWeightSchedule::find_detect_item] *)
Definition find_detect_item (st : WsState) : option ptr * WsState :=
  let '(m, s) := find_detect_loop (get_weight st) (ws_item_list (ws st)) None (ws st) in
  (m, mkWs s (ws_items st)).

(** The two loops of [get_next_item]: the sum of the weights, and the walk that
    subtracts them from the random number.  [last] is the value of [item] when the
    list ends. *)
Definition total_quota (w : ptr -> Z) (l : list ptr) : Z := fold_left (fun t x => u32 (t + w x)) l 0.
Fixpoint pick (w : ptr -> Z) (rand : Z) (l : list ptr) (last : option ptr) : option ptr :=
  match l with
  | [] => last
  | x :: l => if rand <? w x then Some x else pick w (u32 (rand - w x)) l (Some x)
  end.

(** [CWeightSchedule::get_next_item] *)
Definition get_next_item (st : WsState) : option ptr * WsState :=
  let st := mkWs (put_times (u64 (ws_total_times (ws st) + 1)) (ws st)) (ws_items st) in
  let frq := ws_wakeup_frq (ws st) in
  if ws_total_times (ws st) mod frq =? frq - 1 then find_detect_item st
  else
    let l := ws_item_list (ws st) in
    let t := total_quota (get_weight st) l in
    let '(r, s) := random (ws st) in
    (pick (get_weight st) (r mod (if 0 <? t then t else 1)) l (list.last l),
     mkWs s (ws_items st)).

(** [CWeightSchedule::inc_weight] and [dec_weight] *)
Definition inc_weight (p : ptr) (st : WsState) : WsState :=
  let weight := it_weight (item st p) in
  let max_weight := it_max_weight (item st p) in
  let step := ws_inc_step (ws st) in
  on_item p (set_weight (if max_weight <? u32 (weight + step) then max_weight else u32 (weight + step))) st.

Definition dec_weight (p : ptr) (st : WsState) : WsState :=
  let weight := it_weight (item st p) in
  let dec := ws_dec_step (ws st) in
  let min := ws_min_quota (ws st) in
  on_item p (set_weight (if weight <? u32 (dec + min) then min else u32 (weight - dec))) st.

(** [CWeightSchedule::set_step_params] *)
Definition set_step_params (dec : Z) (st : WsState) : WsState :=
  if 0 <? dec then mkWs (put_steps (u32 (dec + dec / 20)) dec (ws st)) (ws_items st) else st.

(** ** [class CDynamicCtrl] *)

Record CDynamicCtrl := mkCtrl {
  dc_report_time : Z;
  dc_req_count : Z;
  dc_rsp_count : Z;
  dc_cost_total : Z;
}.

Definition MAX_QUOTA : Z := 10000.
Definition MAX_WINDOWS : Z := 20.
Definition MIN_WINDOWS : Z := 1.

Definition new_CDynamicCtrl : CDynamicCtrl := mkCtrl 0 0 0 0.
Definition request_report (c : CDynamicCtrl) : CDynamicCtrl :=
  mkCtrl (dc_report_time c) (u32 (dc_req_count c + 1)) (dc_rsp_count c) (dc_cost_total c).
Definition response_report (delay : Z) (c : CDynamicCtrl) : CDynamicCtrl :=
  mkCtrl (dc_report_time c) (dc_req_count c) (u32 (dc_rsp_count c + 1)) (u64 (dc_cost_total c + delay)).
Definition reset_report (time_ms : Z) (c : CDynamicCtrl) : CDynamicCtrl := mkCtrl time_ms 0 0 0.

(** [CDynamicCtrl::calc_step] *)
Definition calc_step (time_now count : Z) (c : CDynamicCtrl) : Z :=
  let dflt_dec := MAX_QUOTA / MIN_WINDOWS in
  if (dc_report_time c =? 0) || (dc_rsp_count c =? 0) then dflt_dec
  else
    let avg_cost := u32 (dc_cost_total c / dc_rsp_count c) in
    if (avg_cost =? 0) || (time_now <? dc_report_time c) then dflt_dec
    else
      let max_capacity := u32 (u64 (count * (time_now - dc_report_time c)) / avg_cost) in
      if max_capacity =? 0 then dflt_dec
      else
        let real_wins := u32 (MIN_WINDOWS * dc_req_count c) / max_capacity in
        let real_wins := if real_wins <? MIN_WINDOWS then MIN_WINDOWS
                         else if MAX_WINDOWS <? real_wins then MAX_WINDOWS else real_wins in
        MAX_QUOTA / real_wins.

(** ** The random generator *)

Lemma lxor_lt a b n : 0 <= n -> 0 <= a < 2 ^ n -> 0 <= b < 2 ^ n -> 0 <= Z.lxor a b < 2 ^ n.
Proof.
  intros Hn Ha Hb. assert (H0 : 0 <= Z.lxor a b) by (apply Z.lxor_nonneg; lia). split; [done|].
  destruct (Z.eq_dec (Z.lxor a b) 0) as [-> | Hne]; [lia|].
  apply Z.log2_lt_pow2; [lia|]. eapply Z.le_lt_trans; [by apply Z.log2_lxor; lia|].
  apply Z.max_lub_lt.
  - destruct (Z.eq_dec a 0) as [-> | ?]; [|apply Z.log2_lt_pow2; lia].
    destruct (Z.eq_dec n 0) as [-> | ?]; [|simpl; lia]. destruct (Z.eq_dec b 0); [by subst|lia].
  - destruct (Z.eq_dec b 0) as [-> | ?]; [|apply Z.log2_lt_pow2; lia].
    destruct (Z.eq_dec n 0) as [-> | ?]; [|simpl; lia]. destruct (Z.eq_dec a 0); [by subst|lia].
Qed.

(** The generator returns a 31-bit number and keeps its seed in 32 bits. *)
Lemma random_range s : 0 <= (random s).1 < 2 ^ 31 /\ in_u32 (ws_rand_seed (random s).2).
Proof.
  unfold random. cbn [fst snd srand ws_rand_seed].
  set (n1 := lcg _). set (n2 := lcg n1). set (n3 := lcg n2). split; [|apply u32_range].
  assert (Hm : forall z m, 0 < m -> 0 <= z mod m < m) by (intros; by apply Z.mod_pos_bound).
  pose proof (Hm (n1 / 65536) 2048 ltac:(lia)). pose proof (Hm (n2 / 65536) 1024 ltac:(lia)).
  pose proof (Hm (n3 / 65536) 1024 ltac:(lia)).
  set (a := (n1 / 65536) mod 2048) in *. set (b := (n2 / 65536) mod 1024) in *. set (c := (n3 / 65536) mod 1024) in *.
  rewrite (Z.shiftl_mul_pow2 a 10), (u32_small (a * 2 ^ 10)) by (unfold in_u32; lia).
  assert (Hx1 : 0 <= Z.lxor (a * 2 ^ 10) b < 2 ^ 21) by (apply lxor_lt; lia).
  rewrite Z.shiftl_mul_pow2, u32_small by (unfold in_u32; lia). apply lxor_lt; lia.
Qed.

(** ** The choice of an item *)

Definition sum_weights (w : ptr -> Z) (l : list ptr) : Z := fold_right (fun x t => w x + t) 0 l.

Lemma total_quota_acc w l t :
  (forall x, 0 <= w x) -> 0 <= t -> t + sum_weights w l < 2 ^ 32 ->
  fold_left (fun t x => u32 (t + w x)) l t = t + sum_weights w l.
Proof.
  revert t. induction l as [|x l IH]; intros t Hw Ht Hs; simpl in *; [lia|].
  assert (0 <= sum_weights w l) by (clear -Hw; induction l; simpl; [lia|]; specialize (Hw a); lia).
  pose proof (Hw x). rewrite u32_small by (unfold in_u32; lia). rewrite IH; [lia|done|lia|lia].
Qed.

Lemma total_quota_sum w l :
  (forall x, 0 <= w x) -> sum_weights w l < 2 ^ 32 -> total_quota w l = sum_weights w l.
Proof. intros Hw Hs. unfold total_quota. rewrite total_quota_acc; lia || done. Qed.

Lemma sum_weights_nonneg w l : (forall x, 0 <= w x) -> 0 <= sum_weights w l.
Proof. intros Hw. induction l as [|x l IH]; simpl; [lia|]. specialize (Hw x). lia. Qed.

(** The number of values of the random number below [T] that choose [x]. *)
Definition picks (w : ptr -> Z) (l : list ptr) (lst : option ptr) (T : Z) (x : ptr) : nat :=
  length (filter (λ r, pick w r l lst = Some x) (seqZ 0 T)).

Lemma filter_all {A} (P : A -> Prop) `{!forall x, Decision (P x)} (l : list A) : (forall x, x ∈ l -> P x) -> filter P l = l.
Proof.
  induction l as [|x l IH]; intros Hall; [done|]. rewrite filter_cons_True by (apply Hall; by left).
  f_equal. apply IH. intros y Hy. apply Hall. by right.
Qed.

Lemma filter_none {A} (P : A -> Prop) `{!forall x, Decision (P x)} (l : list A) : (forall x, x ∈ l -> ~ P x) -> filter P l = [].
Proof.
  induction l as [|x l IH]; intros Hall; [done|]. rewrite filter_cons_False by (apply Hall; by left).
  apply IH. intros y Hy. apply Hall. by right.
Qed.

Lemma filter_map_length {A B} (P : B -> Prop) (Q : A -> Prop) `{!forall x, Decision (P x)} `{!forall x, Decision (Q x)}
    (f : A -> B) (l : list A) :
  (forall x, x ∈ l -> P (f x) <-> Q x) -> length (filter P (f <$> l)) = length (filter Q l).
Proof.
  induction l as [|x l IH]; intros Hall; [done|]. cbn [fmap list_fmap].
  assert (IH' : length (filter P (f <$> l)) = length (filter Q l)) by (apply IH; intros y Hy; apply Hall; by right).
  destruct (decide (Q x)) as [Hq|Hq].
  - rewrite (filter_cons_True Q), filter_cons_True by (done || (apply Hall; [by left|done])). simpl. by f_equal.
  - rewrite (filter_cons_False Q), filter_cons_False; [done| |done].
    intros Hp. apply Hq, Hall; [by left|done].
Qed.

Lemma picks_weight w l lst x :
  (forall y, 0 <= w y) -> NoDup l -> sum_weights w l < 2 ^ 32 ->
  Z.of_nat (picks w l lst (sum_weights w l) x) = if decide (x ∈ l) then w x else 0.
Proof.
  intros Hw. revert lst. induction l as [|y l IH]; intros lst Hnd Hs; [done|].
  pose proof (Hw y) as Hy. pose proof (sum_weights_nonneg w l Hw) as Hl. cbn [sum_weights fold_right] in *.
  fold (sum_weights w l) in *. set (T := sum_weights w l) in *.
  unfold picks. rewrite seqZ_app by lia. rewrite list.filter_app, length_app. rewrite Z.add_0_l.
  assert (Hsnd : length (filter (λ r, pick w r (y :: l) lst = Some x) (seqZ (w y) T)) =
    length (filter (λ r, pick w r l (Some y) = Some x) (seqZ 0 T))).
  { replace (seqZ (w y) T) with (Z.add (w y) <$> seqZ 0 T) by (rewrite fmap_add_seqZ; f_equal; lia).
    apply filter_map_length. intros r Hr%elem_of_seqZ. cbn [pick].
    rewrite (proj2 (Z.ltb_ge _ _)) by lia. rewrite u32_small by (unfold in_u32; lia).
    by replace (w y + r - w y) with r by lia. }
  rewrite Hsnd.
  specialize (IH (Some y) (NoDup_cons_1_2 _ _ Hnd) ltac:(lia)). unfold picks in IH.
  destruct (decide (x = y)) as [-> | Hne].
  - rewrite filter_all.
    2: { intros r Hr%elem_of_seqZ. cbn [pick]. by rewrite (proj2 (Z.ltb_lt _ _)) by lia. }
    rewrite length_seqZ. rewrite decide_True by (by left).
    rewrite decide_False in IH by (by apply NoDup_cons_1_1 in Hnd). lia.
  - rewrite filter_none.
    2: { intros r Hr%elem_of_seqZ. cbn [pick]. rewrite (proj2 (Z.ltb_lt _ _)) by lia. congruence. }
    simpl length. rewrite Nat.add_0_l, IH. destruct (decide (x ∈ l)).
    + by rewrite decide_True by (by right).
    + rewrite decide_False; [done|]. by intros [?|?]%elem_of_cons.
Qed.

Lemma pick_member w r l lst x : pick w r l lst = Some x -> x ∈ l \/ lst = Some x.
Proof.
  revert r lst. induction l as [|y l IH]; intros r lst; simpl; [by right|].
  destruct (r <? w y); [intros [= <-]; left; by left|].
  intros [Hx|[= <-]]%IH; left; [by right|by left].
Qed.

Lemma pick_some w r l lst : l <> [] -> exists x, pick w r l lst = Some x.
Proof.
  revert r lst. induction l as [|y l IH]; intros r lst Hl; [done|]. simpl.
  destruct (r <? w y); [by exists y|]. destruct l as [|z l]; [by exists y|]. by apply IH.
Qed.

(** ** The item to probe *)

Lemma find_detect_loop_min w l mn s :
  match (find_detect_loop w l mn s).1 with
  | None => l = [] /\ mn = None
  | Some m => (m ∈ l \/ mn = Some m) /\ (forall x, x ∈ l \/ mn = Some x -> w m <= w x)
  end.
Proof.
  revert mn s. induction l as [|x l IH]; intros mn s; cbn [find_detect_loop fst].
  { destruct mn as [m|]; [|done]. split; [by right|]. intros x [Hx%elem_of_nil|[= <-]]; [done|lia]. }
  assert (Hstep : forall y s', (mn = None /\ y = x \/ exists m, mn = Some m /\ w y <= w m /\ w y <= w x /\ (y = x \/ y = m)) ->
    match (find_detect_loop w l (Some y) s').1 with
    | None => x :: l = [] /\ mn = None
    | Some m => (m ∈ x :: l \/ mn = Some m) /\ (forall z, z ∈ x :: l \/ mn = Some z -> w m <= w z)
    end).
  { intros y s' Hy. specialize (IH (Some y) s'). destruct (find_detect_loop w l (Some y) s').1 as [m|]; [|by destruct IH].
    destruct IH as [Hm Hle]. pose proof (Hle y (or_intror eq_refl)) as Hmy.
    assert (Hyx : w y <= w x) by (destruct Hy as [[_ ->]|(m' & _ & _ & ? & _)]; lia).
    split.
    - destruct Hm as [Hm|[= ->]]; [left; by right|].
      destruct Hy as [[_ ->]|(m' & -> & _ & _ & [-> | ->])]; [left; by left|left; by left|by right].
    - intros z [[-> | Hz]%elem_of_cons|Hz]; [lia|apply Hle; by left|].
      destruct Hy as [[-> _]|(m' & Hmn & ? & _ & _)]; [done|]. assert (z = m') as -> by congruence. lia. }
  destruct mn as [m|]; [|apply Hstep; by left].
  destruct (Z.ltb_spec (w x) (w m)) as [Hlt|Hge].
  - apply Hstep. right. exists m. split_and!; auto; lia.
  - destruct (Z.eqb_spec (w x) (w m)) as [Heq|Hne].
    + destruct (random s) as [r s']. destruct (negb (r mod 2 =? 0)); apply Hstep; right; exists m; split_and!; auto; lia.
    + apply Hstep. right. exists m. split_and!; auto; lia.
Qed.

(** ** The weights stay in range *)

Definition MAXW : Z := 10000.

(** The parameters are the constructor's or set from [calc_step]; the items are
    distinct, and their weights between 1 and the maximum. *)
Record ws_ok (st : WsState) : Prop := {
  wk_quota : ws_max_quota (ws st) = MAXW /\ ws_min_quota (ws st) = 1 /\ ws_wakeup_frq (ws st) = 10000;
  wk_steps : 0 <= ws_inc_step (ws st) <= 2 * MAXW /\ 0 <= ws_dec_step (ws st) <= MAXW;
  wk_nodup : NoDup (ws_item_list (ws st));
  wk_items : forall p, p ∈ ws_item_list (ws st) ->
    1 <= it_weight (item st p) <= MAXW /\ it_max_weight (item st p) = MAXW;
}.

Lemma calc_step_range t n c : 500 <= calc_step t n c <= MAXW.
Proof.
  unfold calc_step, MAX_QUOTA, MIN_WINDOWS, MAX_WINDOWS, MAXW. change (10000 / 1) with 10000.
  destruct (_ || _); [lia|]. destruct (_ || _); [lia|]. destruct (_ =? 0); [lia|].
  set (r := u32 _ / u32 _). destruct (Z.ltb_spec r 1); [done|]. destruct (Z.ltb_spec 20 r); [done|].
  split; [apply Z.div_le_lower_bound; lia|]. apply Z.div_le_upper_bound; lia.
Qed.

(** What the routing code does with a scheduler. *)
Inductive ws_call :=
  | WAdd (p : ptr) | WDel (p : ptr) | WNext | WInc (p : ptr) | WDec (p : ptr)
  | WStep (time_now count : Z) (c : CDynamicCtrl) | WSeed (seed : Z).

Definition ws_exec (c : ws_call) (st : WsState) : WsState :=
  match c with
  | WAdd p => add_item p st
  | WDel p => del_item p st
  | WNext => (get_next_item st).2
  | WInc p => inc_weight p st
  | WDec p => dec_weight p st
  | WStep t n ctl => set_step_params (calc_step t n ctl) st
  | WSeed seed => mkWs (srand seed (ws st)) (ws_items st)
  end.

Definition ws_execs (cs : list ws_call) (st : WsState) : WsState := fold_left (fun st c => ws_exec c st) cs st.

Lemma item_on p f st q : item (on_item p f st) q = if decide (p = q) then f (item st p) else item st q.
Proof. unfold item, on_item; simpl. rewrite lookup_insert. by case_decide. Qed.

(** Changes of the seed and the call counter only. *)
Lemma ws_ok_other st s' :
  ws_ok st -> ws_item_list s' = ws_item_list (ws st) -> ws_max_quota s' = ws_max_quota (ws st) ->
  ws_min_quota s' = ws_min_quota (ws st) -> ws_inc_step s' = ws_inc_step (ws st) ->
  ws_dec_step s' = ws_dec_step (ws st) -> ws_wakeup_frq s' = ws_wakeup_frq (ws st) ->
  ws_ok (mkWs s' (ws_items st)).
Proof.
  intros [H1 H2 H3 H4] E1 E2 E3 E4 E5 E6. split; simpl; rewrite ?E1, ?E2, ?E3, ?E4, ?E5, ?E6; auto.
Qed.

Lemma ws_ok_weight st p v : ws_ok st -> (p ∈ ws_item_list (ws st) -> 1 <= v <= MAXW) ->
  ws_ok (on_item p (set_weight v) st).
Proof.
  intros [H1 H2 H3 H4] Hw. split; simpl; auto. intros q Hq. rewrite item_on. case_decide; [subst; simpl|by apply H4].
  destruct (H4 q Hq). auto.
Qed.

Lemma find_detect_loop_fixed w l mn s :
  let s' := (find_detect_loop w l mn s).2 in
  ws_item_list s' = ws_item_list s /\ ws_max_quota s' = ws_max_quota s /\ ws_min_quota s' = ws_min_quota s /\
  ws_inc_step s' = ws_inc_step s /\ ws_dec_step s' = ws_dec_step s /\ ws_wakeup_frq s' = ws_wakeup_frq s.
Proof.
  revert mn s. induction l as [|x l IH]; intros mn s; cbn [find_detect_loop]; [done|].
  destruct mn as [m|]; [|apply IH]. destruct (w x <? w m); [apply IH|]. destruct (w x =? w m); [|apply IH].
  destruct (random s) as [r s'] eqn:E. assert (s' = (random s).2) as -> by (by rewrite E). exact (IH _ (random s).2).
Qed.

Lemma erase_sub p l : NoDup l -> NoDup (erase p l) /\ forall x, x ∈ erase p l -> x ∈ l.
Proof.
  induction l as [|y l IH]; intros Hnd; simpl; [done|].
  pose proof (NoDup_cons_1_1 _ _ Hnd). pose proof (NoDup_cons_1_2 _ _ Hnd).
  destruct IH as [H1' H2']; [done|]. case_decide.
  - split; [done|]. intros x Hx. by right.
  - split.
    + constructor; [|done]. intros Hin. by apply H2' in Hin.
    + intros x [-> | Hx]%elem_of_cons; [by left|right; auto].
Qed.

Lemma ws_exec_ok c st : ws_ok st -> ws_ok (ws_exec c st).
Proof.
  intros Hok. destruct Hok as [H1 H2 H3 H4] eqn:E. clear E. destruct c as [p|p| |p|p|t n ctl|seed]; simpl.
  - unfold add_item. destruct H1 as (Hq & Hm & Hf).
    assert (Hit : forall q, item (on_item p (set_weight (ws_max_quota (ws st))) (on_item p (set_max_weight (ws_max_quota (ws st))) st)) q =
       if decide (p = q) then mkItem MAXW MAXW else item st q).
    { intros q. rewrite !item_on, Hq. repeat case_decide; subst; done. }
    destruct (decide (p ∈ _)) as [Hin|Hin]; simpl in Hin; split; simpl; auto.
    + intros q Hq'. rewrite Hit. case_decide; [simpl; unfold MAXW; lia|by apply H4].
    + apply list.NoDup_app. split_and!; [done| |apply NoDup_singleton]. by intros x Hx ->%list_elem_of_singleton.
    + intros q [Hq'|Hq']%elem_of_app.
      * change (1 <= it_weight (item (on_item p (set_weight (ws_max_quota (ws st))) (on_item p (set_max_weight (ws_max_quota (ws st))) st)) q) <= MAXW /\
          it_max_weight (item (on_item p (set_weight (ws_max_quota (ws st))) (on_item p (set_max_weight (ws_max_quota (ws st))) st)) q) = MAXW).
        rewrite Hit. case_decide; [simpl; unfold MAXW; lia|by apply H4].
      * apply list_elem_of_singleton in Hq' as ->.
        change (1 <= it_weight (item (on_item p (set_weight (ws_max_quota (ws st))) (on_item p (set_max_weight (ws_max_quota (ws st))) st)) p) <= MAXW /\
          it_max_weight (item (on_item p (set_weight (ws_max_quota (ws st))) (on_item p (set_max_weight (ws_max_quota (ws st))) st)) p) = MAXW).
        rewrite Hit, decide_True by done. simpl. unfold MAXW. lia.
  - destruct (erase_sub p _ H3) as [Hnd Hsub]. split; simpl; auto. intros q Hq. by apply H4, Hsub.
  - unfold get_next_item. destruct (_ =? _).
    + unfold find_detect_item. destruct (find_detect_loop _ _ _ _) as [m s'] eqn:E.
      pose proof (find_detect_loop_fixed (get_weight (mkWs (put_times (u64 (ws_total_times (ws st) + 1)) (ws st)) (ws_items st)))
        (ws_item_list (ws st)) None (put_times (u64 (ws_total_times (ws st) + 1)) (ws st))) as Hfx.
      simpl in E. rewrite E in Hfx. simpl in Hfx. destruct Hfx as (? & ? & ? & ? & ? & ?).
      by apply (ws_ok_other st).
    + by apply (ws_ok_other st).
  - apply ws_ok_weight; [done|]. intros Hin. destruct (H4 p Hin) as [Hw ->]. unfold MAXW in *.
    rewrite u32_small by (unfold in_u32; lia). destruct (Z.ltb_spec 10000 (it_weight (item st p) + ws_inc_step (ws st))); lia.
  - apply ws_ok_weight; [done|]. intros Hin. destruct (H4 p Hin) as [Hw _]. unfold MAXW in *. destruct H1 as (_ & -> & _).
    rewrite u32_small by (unfold in_u32; lia). destruct (Z.ltb_spec (it_weight (item st p)) (ws_dec_step (ws st) + 1)); [lia|].
    rewrite u32_small; unfold in_u32; lia.
  - pose proof (calc_step_range t n ctl) as Hr. unfold set_step_params. rewrite (proj2 (Z.ltb_lt _ _)) by lia.
    split; simpl; auto. unfold MAXW in *. assert (0 <= calc_step t n ctl / 20 <= 500) by dlia.
    rewrite u32_small by (unfold in_u32; lia). lia.
  - by apply (ws_ok_other st).
Qed.

Lemma ws_execs_ok cs st : ws_ok st -> ws_ok (ws_execs cs st).
Proof. revert st. induction cs as [|c cs IH]; intros st H; [done|]. apply IH. by apply ws_exec_ok. Qed.

Lemma new_ws_ok items : ws_ok (mkWs new_CWeightSchedule items).
Proof.
  split; [done|simpl; unfold MAXW; lia|apply NoDup_nil_2|]. intros p Hp. by apply elem_of_nil in Hp.
Qed.

(** The weights stay in range.  After any sequence of additions, removals,
    choices, weight changes and step adjustments on a new scheduler, the items of
    the list are distinct and every one has a weight between 1 (so that it can
    still be chosen) and the quota of 10000. *)
Theorem weights_stay_in_range cs items p :
  let st := ws_execs cs (mkWs new_CWeightSchedule items) in
  NoDup (ws_item_list (ws st)) /\
  (p ∈ ws_item_list (ws st) -> 1 <= get_weight st p <= 10000).
Proof.
  intros st. destruct (ws_execs_ok cs _ (new_ws_ok items)) as [_ _ Hnd Hi]. fold st in Hnd, Hi.
  split; [done|]. intros Hp. apply (Hi p Hp).
Qed.

(** The choice is proportional to the weights.  For distinct items whose
    weights sum to less than 2{^32}, the sum computed by [get_next_item] is exact,
    and of the values the random number can take modulo it, exactly [w x] choose
    the item [x] of the list, and none chooses anything else. *)
Theorem choice_is_proportional w l x :
  (forall y, 0 <= w y) -> NoDup l -> sum_weights w l < 2 ^ 32 ->
  total_quota w l = sum_weights w l /\
  Z.of_nat (picks w l (list.last l) (total_quota w l) x) = if decide (x ∈ l) then w x else 0.
Proof.
  intros Hw Hnd Hs. rewrite total_quota_sum by done. split; [done|]. by apply picks_weight.
Qed.

(** [get_next_item] never fails on a scheduler with items: whatever the
    history, it returns an item of the list, and on the calls that probe (one in
    10000) one of minimal weight. *)
Theorem get_next_item_chooses cs items :
  let st := ws_execs cs (mkWs new_CWeightSchedule items) in
  ws_item_list (ws st) <> [] ->
  exists x, (get_next_item st).1 = Some x /\ x ∈ ws_item_list (ws st) /\
    (u64 (ws_total_times (ws st) + 1) mod 10000 = 9999 ->
     forall y, y ∈ ws_item_list (ws st) -> get_weight st x <= get_weight st y).
Proof.
  intros st Hne. destruct (ws_execs_ok cs _ (new_ws_ok items)) as [(_ & _ & Hf) _ _ _]. fold st in Hf.
  unfold get_next_item. cbn [ws put_times ws_wakeup_frq ws_total_times]. rewrite Hf.
  destruct (Z.eqb_spec (u64 (ws_total_times (ws st) + 1) mod 10000) (10000 - 1)) as [E|E].
  - unfold find_detect_item. cbn [ws ws_item_list put_times ws_items].
    pose proof (find_detect_loop_min (get_weight (mkWs (put_times (u64 (ws_total_times (ws st) + 1)) (ws st)) (ws_items st)))
      (ws_item_list (ws st)) None (put_times (u64 (ws_total_times (ws st) + 1)) (ws st))) as H.
    destruct (find_detect_loop _ _ _ _) as [[m|] s']; simpl in H; [|by destruct H].
    destruct H as [[Hm|Hm] Hle]; [|done]. exists m. split_and!; [done|done|].
    intros _ y Hy. apply (Hle y). by left.
  - cbn [ws_item_list ws put_times]. destruct (random _) as [r s'].
    destruct (pick_some (get_weight (mkWs (put_times (u64 (ws_total_times (ws st) + 1)) (ws st)) (ws_items st)))
      (r mod (if 0 <? total_quota (get_weight (mkWs (put_times (u64 (ws_total_times (ws st) + 1)) (ws st)) (ws_items st))) (ws_item_list (ws st))
              then total_quota (get_weight (mkWs (put_times (u64 (ws_total_times (ws st) + 1)) (ws st)) (ws_items st))) (ws_item_list (ws st)) else 1))
      (ws_item_list (ws st)) (list.last (ws_item_list (ws st))) Hne) as [x Hx].
    exists x. split_and!; [exact Hx| |intros E'; lia].
    apply pick_member in Hx as [Hx|Hx]; [done|]. by apply last_Some_elem_of in Hx.
Qed.

(** The step of [calc_step] is a whole quota divided by a window of 1 to 20
    requests; without statistics (first period, no response) the window is 1, so
    that one lost request takes a node from the full quota to the minimum. *)
Theorem calc_step_window t n c :
  exists k, 1 <= k <= 20 /\ calc_step t n c = 10000 / k /\
    (dc_report_time c = 0 \/ dc_rsp_count c = 0 -> k = 1).
Proof.
  unfold calc_step, MAX_QUOTA, MIN_WINDOWS, MAX_WINDOWS.
  destruct (Z.eqb_spec (dc_report_time c) 0) as [E1|E1]; [exists 1; split_and!; auto; lia|].
  destruct (Z.eqb_spec (dc_rsp_count c) 0) as [E2|E2]; [exists 1; split_and!; auto; lia|]. cbn [orb].
  assert (Hn : ~ (dc_report_time c = 0 \/ dc_rsp_count c = 0)) by tauto.
  destruct (_ || _); [exists 1; split_and!; auto; lia|]. destruct (_ =? 0); [exists 1; split_and!; auto; lia|].
  set (r := u32 _ / u32 _). destruct (Z.ltb_spec r 1); [exists 1; split_and!; auto; lia|].
  destruct (Z.ltb_spec 20 r); [exists 20; split_and!; auto; lia|exists r; split_and!; auto; lia].
Qed.

(** ** A concrete scheduler: two healthy nodes and one that lost three requests. *)

Definition demo_ws : WsState :=
  ws_execs [WAdd 1%positive; WAdd 2%positive; WAdd 3%positive; WDec 2%positive; WDec 2%positive; WDec 2%positive]
    (mkWs new_CWeightSchedule ∅).

Lemma weights_stay_in_range_witness :
  get_weight demo_ws 2%positive = 7120 /\ 1 <= get_weight demo_ws 2%positive <= 10000.
Proof.
  split; [by vm_compute|].
  apply (weights_stay_in_range [WAdd 1%positive; WAdd 2%positive; WAdd 3%positive; WDec 2%positive; WDec 2%positive; WDec 2%positive]
    ∅ 2%positive). apply (bool_decide_unpack _). by vm_compute.
Defined.

Definition demo_nodes : list ptr := [1%positive; 2%positive; 3%positive].

Lemma choice_is_proportional_witness :
  Z.of_nat (picks (get_weight demo_ws) demo_nodes
    (list.last demo_nodes)
    (total_quota (get_weight demo_ws) demo_nodes) 2%positive) = 7120.
Proof.
  destruct (choice_is_proportional (get_weight demo_ws) demo_nodes 2%positive) as [_ H].
  - intros y. unfold get_weight, item. destruct (ws_items demo_ws !! y) as [i|] eqn:E; [|done].
    assert (Hall : map_Forall (fun _ i => 0 <= it_weight i) (ws_items demo_ws))
      by (apply (bool_decide_unpack _); by vm_compute).
    by apply (Hall y).
  - apply (bool_decide_unpack _). by vm_compute.
  - by vm_compute.
  - rewrite H. reflexivity.
Defined.

Lemma get_next_item_chooses_witness :
  exists x, (get_next_item demo_ws).1 = Some x /\ x ∈ ws_item_list (ws demo_ws).
Proof.
  destruct (get_next_item_chooses [WAdd 1%positive; WAdd 2%positive; WAdd 3%positive; WDec 2%positive; WDec 2%positive; WDec 2%positive] ∅)
    as (x & E & Hx & _); [by vm_compute|]. exists x. split; [exact E|exact Hx].
Defined.
