(* ===== verification/RawCache.v ===== *)
(** * Growing buffers

    [comm/tbase/tsockcommu/tcache.h] and [tcache.cpp], class [CRawCache]: the bytes
    of one direction of a connection, in one block of memory that grows; and
    [tmempool.cpp], [CMemPool], through which the block comes from [malloc].

    A cache refines a string of bytes under [append] and [skip]. *)

From Stdlib Require Import ZArith Lia.
From stdpp Require Import base list option.
From S2P Require Import Prelude Bytes.

(** ** Code that may fail

    [exit] ends the process; an access outside a block is undefined.  A function
    that may [throw] returns [false], or [None], beside the state at the throw. *)
Inductive outcome (A : Type) := Done (a : A) | Exited | Undef.
Arguments Done {A}. Arguments Exited {A}. Arguments Undef {A}.

Definition obind {A B} (m : outcome A) (f : A -> outcome B) : outcome B :=
  match m with Done a => f a | Exited => Exited | Undef => Undef end.
Definition oget {A} (m : option A) : outcome A := match m with Some a => Done a | None => Undef end.

Declare Scope outcome_scope.
Notation "x ⇐ m ; k" := (obind m (fun x => k)) (at level 20, m at level 100, k at level 200, right associativity) : outcome_scope.
Notation "' p ⇐ m ; k" := (obind m (fun p => k))
  (at level 20, p pattern, m at level 100, k at level 200, right associativity) : outcome_scope.
#[global] Open Scope outcome_scope.

(** ** The code *)

Record CRawCache := mkRC {
  _mem : option (list Z);
  _block_size : Z;
  _data_head : Z;
  _data_len : Z;
  _fin_bit : bool
}.

Definition RAW_CACHE_DEFAULT_SIZE : Z := 65536.

(** The constructor. *)
Definition CRawCache_new : CRawCache := mkRC None 0 0 0 false.

(** [CRawCache::data], as the bytes from the pointer on that hold data. *)
Definition data (c : CRawCache) : outcome (option (list Z)) :=
  if _data_len c =? 0 then Done None
  else if _block_size c <=? _data_head c then Exited
  else m ⇐ oget (_mem c); b ⇐ oget (bread (_data_head c) (_data_len c) m); Done (Some b).

Definition data_len (c : CRawCache) : Z := _data_len c.

Section malloc.
(** [malloc]: a block of the size asked for, holding anything, or [NULL]. *)
Context (malloc : Z -> option (list Z)).

(** [CMemPool::allocate] returns the block and its size. *)
Definition allocate (size : Z) : option (list Z) * Z := (malloc size, size).

(** [CMemPool::recycle] frees; -1 for nothing to free. *)
Definition recycle (m : option (list Z)) (mem_size : Z) : Z :=
  match m with None => -1 | Some _ => if mem_size =? 0 then -1 else 0 end.

(** [CRawCache::append] of the bytes [d], and whether it returned: it throws when
    there is no memory.  Sums are of [unsigned]. *)
Definition append (c : CRawCache) (d : list Z) : outcome (bool * CRawCache) :=
  let dlen := blen d in
  if _fin_bit c then Done (true, c)
  else match _mem c with
  | None =>
      match allocate (Z.max RAW_CACHE_DEFAULT_SIZE dlen) with
      | (None, bsize) => Done (false, mkRC None bsize (_data_head c) (_data_len c) (_fin_bit c))
      | (Some m, bsize) => m ⇐ oget (bwrite 0 d m); Done (true, mkRC (Some m) bsize 0 dlen (_fin_bit c))
      end
  | Some m =>
      if u32 (dlen + _data_head c + _data_len c) <=? _block_size c then
        m ⇐ oget (bwrite (_data_head c + _data_len c) d m);
        Done (true, mkRC (Some m) (_block_size c) (_data_head c) (u32 (_data_len c + dlen)) (_fin_bit c))
      else if _block_size c <? u32 (dlen + _data_len c) then
        match allocate (Z.max (u32 (_data_len c + dlen)) (u32 (_block_size c * 2))) with
        | (None, _) => Done (false, c)
        | (Some m', bsize) =>
            old ⇐ oget (bread (_data_head c) (_data_len c) m);
            m' ⇐ oget (bwrite 0 old m');
            m' ⇐ oget (bwrite (_data_len c) d m');
            Done (true, mkRC (Some m') bsize 0 (u32 (_data_len c + dlen)) (_fin_bit c))
        end
      else
        old ⇐ oget (bread (_data_head c) (_data_len c) m);
        m ⇐ oget (bwrite 0 old m);
        m ⇐ oget (bwrite (_data_len c) d m);
        Done (true, mkRC (Some m) (_block_size c) 0 (u32 (_data_len c + dlen)) (_fin_bit c))
  end.
End malloc.

(** [CRawCache::skip]. *)
Definition skip (c : CRawCache) (length : Z) : CRawCache :=
  match _mem c with
  | None => c
  | Some m =>
      if _data_len c <=? length then mkRC None 0 0 0 (_fin_bit c)
      else mkRC (Some m) (_block_size c) (_data_head c + length) (_data_len c - length) (_fin_bit c)
  end.

Definition set_fin_bit (c : CRawCache) (v : bool) : CRawCache :=
  mkRC (_mem c) (_block_size c) (_data_head c) (_data_len c) v.

(** ** What a cache holds *)

Definition contents (c : CRawCache) : list Z :=
  match _mem c with
  | None => []
  | Some m => take (Z.to_nat (_data_len c)) (drop (Z.to_nat (_data_head c)) m)
  end.

Definition rc_ok (c : CRawCache) : Prop :=
  match _mem c with
  | None => _data_head c = 0 /\ _data_len c = 0
  | Some m => blen m = _block_size c /\ _block_size c < 2 ^ 31 /\ 0 <= _data_head c /\ 0 <= _data_len c /\
      _data_head c + _data_len c <= _block_size c
  end.

(** What is asked of [malloc]: blocks of the size asked for, none of 2 GB or more. *)
Definition malloc_ok (malloc : Z -> option (list Z)) : Prop :=
  forall n m, malloc n = Some m -> blen m = n /\ n < 2 ^ 31.

Lemma contents_len c : rc_ok c -> blen (contents c) = _data_len c.
Proof.
  unfold rc_ok, contents, blen. destruct (_mem c) as [m|]; [|intros (_ & ->); done].
  intros (H1 & H2 & H3 & H4 & H5). rewrite length_take, length_drop. unfold blen in H1. lia.
Qed.

Lemma contents_read c m : rc_ok c -> _mem c = Some m -> bread (_data_head c) (_data_len c) m = Some (contents c).
Proof.
  unfold rc_ok, contents. intros H Hm. rewrite Hm in *. destruct H as (H1 & H2 & H3 & H4 & H5).
  unfold bread. rewrite !(proj2 (Z.leb_le _ _)) by lia. done.
Qed.

(** [data] never leaves the process in a well-formed cache, and gives the contents. *)
Lemma data_spec c : rc_ok c -> data c = Done (if _data_len c =? 0 then None else Some (contents c)).
Proof.
  intros Hc. unfold data. destruct (Z.eqb_spec (_data_len c) 0) as [|Hn]; [done|].
  pose proof Hc as Hc'. unfold rc_ok in Hc'. destruct (_mem c) as [m|] eqn:Em; [|lia].
  destruct Hc' as (H1 & H2 & H3 & H4 & H5). rewrite (proj2 (Z.leb_gt _ _)) by lia. cbn [oget obind].
  by rewrite (contents_read c m Hc Em).
Qed.

(** Reading back two writes one after the other from the start of a block. *)
Lemma two_writes a b m : blen a + blen b <= blen m ->
  exists m1 m2, bwrite 0 a m = Some m1 /\ bwrite (blen a) b m1 = Some m2 /\ blen m2 = blen m /\
    take (length a + length b) m2 = a ++ b.
Proof.
  intros Hl. destruct (bwrite_spec 0 a m) as (m1 & E1 & L1 & _); [lia|unfold blen in *; lia|].
  pose proof (bwrite_app 0 a b m m1 E1 ltac:(lia)) as Ha. rewrite Z.add_0_l in Ha.
  destruct (bwrite_spec 0 (a ++ b) m) as (m2 & E2 & L2 & R2 & _); [lia|rewrite blen_app; lia|].
  rewrite E2 in Ha. exists m1, m2. split; [done|]. split; [done|]. split; [done|].
  unfold bread in R2. destruct (_ && _); [|done]. injection R2 as R2. cbn [drop] in R2. rewrite drop_0 in R2.
  etrans; [|exact R2]. f_equal. unfold blen. rewrite length_app. lia.
Qed.

(** ** Appending and skipping *)

Lemma append_spec malloc c d : rc_ok c -> malloc_ok malloc -> blen d < 2 ^ 31 ->
  exists ok c', append malloc c d = Done (ok, c') /\ rc_ok c' /\ _fin_bit c' = _fin_bit c /\
    contents c' = contents c ++ (if negb ok || _fin_bit c then [] else d).
Proof.
  intros Hc Hm Hl. unfold append. destruct (_fin_bit c) eqn:Ef.
  { exists true, c. rewrite app_nil_r. done. }
  pose proof (contents_len c Hc) as Hlen. assert (0 <= blen d) by (unfold blen; lia).
  destruct (_mem c) as [m|] eqn:Em.
  2: { unfold rc_ok in Hc. rewrite Em in Hc. destruct Hc as (Hh & Hd).
    assert (contents c = []) as Ec by (unfold contents; by rewrite Em).
    unfold allocate. destruct (malloc _) as [m|] eqn:Ea.
    2: { eexists _, _. split; [done|]. by rewrite Ec. }
    apply Hm in Ea as [Ea Eb].
    destruct (bwrite_spec 0 d m) as (m1 & -> & L1 & R1 & _); [lia|lia|]. cbn [oget obind]. eexists _, _. split; [done|].
    unfold RAW_CACHE_DEFAULT_SIZE in *. split; [unfold rc_ok; cbn; lia|]. split; [done|].
    rewrite Ec. unfold contents. cbn. unfold bread in R1. destruct (_ && _); [|done]. injection R1 as R1. done. }
  pose proof (contents_read c m Hc Em) as Hr. pose proof Hc as Hc'. unfold rc_ok in Hc'. rewrite Em in Hc'.
  destruct Hc' as (Hb & Hb' & Hh & Hd & Hf). rewrite !(u32_small (_ + _)) by (unfold in_u32; lia).
  destruct (Z.leb_spec (blen d + _data_head c + _data_len c) (_block_size c)) as [H1|H1].
  - (* room behind the data *)
    destruct (bwrite_spec (_data_head c + _data_len c) d m) as (m1 & -> & L1 & R1 & F1); [lia|lia|].
    cbn [oget obind]. eexists _, _. split; [done|]. split; [unfold rc_ok; cbn; lia|]. split; [done|].
    unfold contents at 1. cbn. pose proof (F1 (_data_head c) (_data_len c) ltac:(lia)) as F. rewrite Hr in F.
    unfold bread in R1. rewrite !(proj2 (Z.leb_le _ _)) in R1 by lia. injection R1 as R1.
    unfold bread in F. rewrite !(proj2 (Z.leb_le _ _)) in F by lia. injection F as F.
    rewrite Z2Nat.inj_add in R1 by lia. rewrite Z2Nat.inj_add by lia.
    by rewrite <- take_take_drop, drop_drop, F, R1.
  - destruct (Z.ltb_spec (_block_size c) (blen d + _data_len c)) as [H2|H2].
    + (* a larger block *)
      unfold allocate. destruct (malloc _) as [m'|] eqn:Ea.
      2: { eexists _, _. split; [done|]. by rewrite app_nil_r. }
      apply Hm in Ea as [Ea Eb].
      rewrite Hr. cbn [oget obind]. destruct (two_writes (contents c) d m') as (m1 & m2 & -> & E2 & L2 & R2); [lia|].
      cbn [oget obind]. rewrite Hlen in E2. rewrite E2. cbn [oget obind]. eexists _, _. split; [done|].
      split; [unfold rc_ok; cbn; lia|]. split; [done|]. unfold contents at 1. cbn. rewrite drop_0, <- R2. f_equal.
      unfold blen in *. lia.
    + (* move the data to the front *)
      rewrite Hr. cbn [oget obind]. destruct (two_writes (contents c) d m) as (m1 & m2 & -> & E2 & L2 & R2); [lia|].
      cbn [oget obind]. rewrite Hlen in E2. rewrite E2. cbn [oget obind]. eexists _, _. split; [done|].
      split; [unfold rc_ok; cbn; lia|]. split; [done|]. unfold contents at 1. cbn. rewrite drop_0, <- R2. f_equal.
      unfold blen in *. lia.
Qed.

(** It fails for lack of memory only. *)
Lemma append_fails malloc c d c' : append malloc c d = Done (false, c') -> exists n, malloc n = None.
Proof.
  assert (forall X (o : option X) (f : X -> outcome (bool * CRawCache)),
    (forall x, f x <> Done (false, c')) -> (obind (oget o) f) <> Done (false, c')) as Ho.
  { intros X [x|] f Hf; [apply Hf|done]. }
  unfold append, allocate. destruct (_fin_bit c); [done|]. destruct (_mem c) as [m|].
  - destruct (_ <=? _); [intros E; exfalso; revert E; by apply Ho|]. destruct (_ <? _).
    + destruct (malloc _) eqn:Ea; [|eauto]. intros E. exfalso. revert E. do 3 (apply Ho; intros ?). done.
    + intros E. exfalso. revert E. do 3 (apply Ho; intros ?). done.
  - destruct (malloc _) eqn:Ea; [|eauto]. intros E. exfalso. revert E. by apply Ho.
Qed.

Lemma skip_spec c n : rc_ok c -> 0 <= n -> rc_ok (skip c n) /\ contents (skip c n) = drop (Z.to_nat n) (contents c) /\
  _fin_bit (skip c n) = _fin_bit c.
Proof.
  intros Hc Hn. unfold skip. pose proof (contents_len c Hc) as Hlen. destruct (_mem c) as [m|] eqn:Em.
  2: { split; [done|]. split; [|done]. unfold contents. rewrite Em. by rewrite drop_nil. }
  pose proof Hc as Hc'. unfold rc_ok in Hc'. rewrite Em in Hc'. destruct Hc' as (Hb & Hb' & Hh & Hd & Hf).
  destruct (Z.leb_spec (_data_len c) n) as [H|H].
  - split; [done|]. split; [|done]. symmetry. apply drop_ge. unfold blen in Hlen. lia.
  - split; [unfold rc_ok; cbn; lia|]. split; [|done]. unfold contents. cbn. rewrite Em.
    rewrite skipn_firstn_comm, drop_drop. f_equal; [lia|]. f_equal. lia.
Qed.
