(* ===== verification/ConnSet.v ===== *)
(** * The connection set of the proxy

    [comm/tbase/tsockcommu/tconnset.h] and [tconnset.cpp], class [CConnSet]: a table
    of connections with a read and a write cache each, and the send and receive
    calls of [tsocket.cpp] below it.  A connection is named by its flow, a number
    that also gives its slot: the flow modulo the number of slots.

    System calls are arguments: a call of [send] or [recv] is given what the kernel
    returned, [bytes] and [errno]; the bytes handed to the kernel are part of the
    result.  The clock is an argument where it is read.  Monitoring, logging and
    the addresses of [_info] are left out. *)

From Stdlib Require Import ZArith Lia.
From stdpp Require Import base list option.
From S2P Require Import Prelude Bytes RawCache.

Definition E_NEED_CLOSE : Z := 10000.
Definition E_NOT_FINDFD : Z := 20000.
Definition C_NEED_SEND : Z := 30000.
Definition E_RECV_DONE : Z := 40000.
Definition MAX_FLOW_NUM : Z := 0x7FFFFFFF.
Definition C_READ_BUFFER_SIZE : Z := 64 * 1024.
Definition UDP_SOCKET : Z := 0x2.
Definition EAGAIN : Z := 11.
Definition EINPROGRESS : Z := 115.

(** [ConnCache]: [_access] is the second of the last use. *)
Record ConnCache := mkCC {
  _flow : Z;
  _fd : Z;
  _access : Z;
  _type : Z;
  _r : CRawCache;
  _w : CRawCache
}.

Definition ConnCache_new : ConnCache := mkCC 0 0 0 0 CRawCache_new CRawCache_new.

Record CConnSet := mkCS { ccs : list ConnCache; maxconn : Z; usedflow : Z }.

Definition set_access (t : Z) (c : ConnCache) : ConnCache := mkCC (_flow c) (_fd c) t (_type c) (_r c) (_w c).
Definition set_r (r : CRawCache) (c : ConnCache) : ConnCache := mkCC (_flow c) (_fd c) (_access c) (_type c) r (_w c).
Definition set_w (w : CRawCache) (c : ConnCache) : ConnCache := mkCC (_flow c) (_fd c) (_access c) (_type c) (_r c) w.

(** The constructor. *)
Definition CConnSet_new (n : Z) : CConnSet := mkCS (replicate (Z.to_nat n) ConnCache_new) n 0.

(** The slot of a flow: [flow % maxconn_]. *)
Definition slot (s : CConnSet) (flow : Z) : nat := Z.to_nat (flow mod maxconn s).
Definition getcc (s : CConnSet) (flow : Z) : outcome ConnCache := oget (ccs s !! slot s flow).
Definition putcc (s : CConnSet) (flow : Z) (c : ConnCache) : CConnSet :=
  mkCS (<[slot s flow := c]> (ccs s)) (maxconn s) (usedflow s).

(** ** Sockets *)

(** [CSocket::send]: the result and [sent_len], which an error leaves alone. *)
Definition CSocket_send (sent_len bytes errno : Z) : Z * Z :=
  if bytes <? 0 then ((if errno =? 0 then bytes else - errno), sent_len) else (0, bytes).

(** [CSocket::receive]: the result and [received_len]. *)
Definition CSocket_receive (bytes errno : Z) : Z * Z :=
  if bytes <? 0 then ((if errno =? 0 then bytes else - errno), 0) else (0, bytes).

(** ** Connections *)

(** [flow = (++flow) % MAX_FLOW_NUM; if (flow == 0) ++flow]. *)
Definition next_flow (flow : Z) : Z :=
  let f := u32 (flow + 1) mod MAX_FLOW_NUM in if f =? 0 then 1 else f.

(** The search of [addconn]: [n] more flows may be tried. *)
Fixpoint find_free (n : nat) (s : CConnSet) (flow : Z) : outcome (option Z * Z) :=
  match n with
  | O => Done (None, flow)
  | S n =>
      let flow := next_flow flow in
      c ⇐ getcc s flow;
      if _flow c =? 0 then Done (Some flow, flow) else find_free n s flow
  end.

(** [CConnSet::addconn]: the result, the flow (a reference) and the set. *)
Definition addconn (s : CConnSet) (flow fd type now : Z) : outcome (Z * Z * CConnSet) :=
  c ⇐ getcc s flow;
  '(r, flow) ⇐ (if 0 <? _flow c then find_free (Z.to_nat (maxconn s - 1)) s flow else Done (Some flow, flow));
  match r with
  | None => Done (-1, flow, s)
  | Some flow =>
      c ⇐ getcc s flow;
      let s := putcc s flow (mkCC flow fd now type (_r c) (_w c)) in
      Done (0, flow, mkCS (ccs s) (maxconn s) (usedflow s + 1))
  end.

(** [CConnSet::fd]. *)
Definition connfd (s : CConnSet) (flow : Z) : outcome Z :=
  c ⇐ getcc s flow;
  if negb (flow =? 0) && (_flow c =? flow) then Done (_fd c) else Done (-1).

Section malloc.
Context (malloc : Z -> option (list Z)).

(** [CConnSet::recv]; [d] is what the kernel put into [RecvBuffer].  [None] beside
    the set: [append] threw. *)
Definition conn_recv (s : CConnSet) (flow now bytes errno : Z) (d : list Z) : outcome (option Z * CConnSet) :=
  c ⇐ getcc s flow;
  if negb (_flow c =? flow) || (flow =? 0) then Done (Some (- E_NOT_FINDFD), s)
  else
    let c := set_access now c in
    let '(ret, recvd_len) := CSocket_receive bytes errno in
    if negb (_type c =? UDP_SOCKET) then
      if ret =? 0 then
        if 0 <? recvd_len then
          b ⇐ oget (bread 0 recvd_len d);
          '(ok, r) ⇐ append malloc (_r c) b;
          let ret := if recvd_len <? C_READ_BUFFER_SIZE then - E_RECV_DONE else recvd_len in
          Done (if ok then Some ret else None, putcc s flow (set_r r c))
        else Done (Some (- E_NEED_CLOSE), putcc s flow c)
      else Done (Some (if negb (ret =? - EAGAIN) then - E_NEED_CLOSE else - EAGAIN), putcc s flow c)
    else
      if (ret =? 0) && (0 <? recvd_len) then
        b ⇐ oget (bread 0 recvd_len d);
        '(ok, r) ⇐ append malloc (_r c) b;
        Done (if ok then Some recvd_len else None, putcc s flow (set_r r c))
      else Done (Some (- E_NEED_CLOSE), putcc s flow c).

(** [CConnSet::send]: the kernel's answers to the first and the second call of
    [CSocket::send]; the result has the bytes handed over, in order. *)
Definition conn_send (s : CConnSet) (flow : Z) (d : list Z) (now : Z) (k1 k2 : Z * Z)
    : outcome (option Z * list Z * CConnSet) :=
  c ⇐ getcc s flow;
  if negb (_flow c =? flow) || (flow =? 0) then Done (Some (- E_NOT_FINDFD), [], s)
  else
    let c := set_access now c in
    (* what is cached goes first: the outcome, or else go on *)
    '(stop, out1) ⇐
      (if negb (data_len (_w c) =? 0) then
         b ⇐ data (_w c);
         let '(ret, sent_len) := CSocket_send 0 k1.1 k1.2 in
         let out := take (Z.to_nat sent_len) (default [] b) in
         if (ret =? - EAGAIN) || ((ret =? 0) && (sent_len <? data_len (_w c))) then
           '(ok, w) ⇐ append malloc (skip (_w c) sent_len) d;
           Done (Some (if ok then Some 0 else None, putcc s flow (set_w w c)), out)
         else if ret <? 0 then Done (Some (Some (- E_NEED_CLOSE), putcc s flow c), out)
         else Done (None, out)
       else Done (None, []));
    match stop with
    | Some (r, s) => Done (r, out1, s)
    | None =>
        let w := skip (_w c) (data_len (_w c)) in
        let '(ret, sent_len) := CSocket_send 0 k2.1 k2.2 in
        let out := out1 ++ take (Z.to_nat sent_len) d in
        if (ret <? 0) && negb (ret =? - EAGAIN) && negb (ret =? - EINPROGRESS) then
          Done (Some (- E_NEED_CLOSE), out, putcc s flow (set_w w c))
        else if sent_len <? blen d then
          b ⇐ oget (bread sent_len (blen d - sent_len) d);
          '(ok, w) ⇐ append malloc w b;
          Done (if ok then Some sent_len else None, out, putcc s flow (set_w w c))
        else Done (Some sent_len, out, putcc s flow (set_w w c))
    end.
End malloc.

(** [CConnSet::sendfromcache]. *)
Definition sendfromcache (s : CConnSet) (flow now : Z) (k : Z * Z) : outcome (Z * list Z * CConnSet) :=
  c ⇐ getcc s flow;
  if negb (_flow c =? flow) || (flow =? 0) then Done (- E_NOT_FINDFD, [], s)
  else
    let c := set_access now c in
    if data_len (_w c) =? 0 then Done (0, [], putcc s flow c)
    else
      b ⇐ data (_w c);
      let '(ret, sent_len) := CSocket_send 0 k.1 k.2 in
      let out := take (Z.to_nat sent_len) (default [] b) in
      if ret =? 0 then
        if sent_len =? 0 then Done (C_NEED_SEND, out, putcc s flow c)
        else Done (if sent_len =? data_len (_w c) then 0 else sent_len, out, putcc s flow (set_w (skip (_w c) sent_len) c))
      else if ret =? - EAGAIN then Done (C_NEED_SEND, out, putcc s flow c)
      else Done (- E_NEED_CLOSE, out, putcc s flow c).

(** [CConnSet::closeconn]: also says which descriptor it closes. *)
Definition closeconn (s : CConnSet) (flow : Z) : outcome (Z * option Z * CConnSet) :=
  c ⇐ getcc s flow;
  if (_flow c =? flow) && negb (flow =? 0) then
    let cl := if negb (_type c =? UDP_SOCKET) then Some (_fd c) else None in
    let r := skip (_r c) (data_len (_r c)) in
    let w := set_fin_bit (skip (_w c) (data_len (_w c))) false in
    let s' := putcc s flow (mkCC 0 (_fd c) 0 0 r w) in
    Done (0, cl, mkCS (ccs s') (maxconn s') (usedflow s' - 1))
  else Done (- E_NOT_FINDFD, None, s).

(** [CConnSet::check_expire]: the flows last used before the deadline. *)
Definition conn_check_expire (s : CConnSet) (access_deadline : Z) : list Z :=
  omap (fun c => if (0 <? _flow c) && (_access c <? access_deadline) then Some (_flow c) else None) (ccs s).

(** [CConnSet::check_per_expire]. *)
Definition check_per_expire (s : CConnSet) (flow access_deadline : Z) : outcome Z :=
  c ⇐ getcc s flow;
  if (flow =? _flow c) && (_access c <? access_deadline) then Done (-1) else Done 0.

Definition getusedflow (s : CConnSet) : Z := usedflow s.

(** [CConnSet::~CConnSet]: the descriptors it closes. *)
Definition CConnSet_delete (s : CConnSet) : list Z :=
  omap (fun c => if (0 <? _fd c) && negb (_type c =? UDP_SOCKET) then Some (_fd c) else None) (ccs s).

(** ** The invariant *)

Definition conn_ok (n : Z) (i : nat) (c : ConnCache) : Prop :=
  0 <= _flow c < MAX_FLOW_NUM /\ (_flow c <> 0 -> Z.to_nat (_flow c mod n) = i) /\ rc_ok (_r c) /\ rc_ok (_w c) /\
  (_flow c = 0 -> contents (_r c) = [] /\ contents (_w c) = [] /\ _fin_bit (_w c) = false).

Definition live_count (l : list ConnCache) : Z := Z.of_nat (length (filter (fun c => _flow c <> 0) l)).

Record cs_ok (s : CConnSet) : Prop := {
  cs_max : 0 < maxconn s < 2 ^ 31;
  cs_len : length (ccs s) = Z.to_nat (maxconn s);
  cs_conn : forall i c, ccs s !! i = Some c -> conn_ok (maxconn s) i c;
  cs_used : usedflow s = live_count (ccs s)
}.

(** The connection a flow names, if it is open. *)
Definition conn_of (s : CConnSet) (flow : Z) : option ConnCache :=
  c ← ccs s !! slot s flow; if decide (_flow c = flow /\ flow <> 0) then Some c else None.

Definition live (c : ConnCache) : Z := if decide (_flow c <> 0) then 1 else 0.

Lemma live_count_cons c l : live_count (c :: l) = live c + live_count l.
Proof. unfold live_count, live. rewrite filter_cons. case_decide; cbn [length]; lia. Qed.

Lemma live_count_insert l i x y : l !! i = Some x -> live_count (<[i := y]> l) = live_count l - live x + live y.
Proof.
  revert i. induction l as [|z l IH]; intros [|i] H; try done; cbn in H.
  - injection H as ->. change (<[0%nat := y]> (x :: l)) with (y :: l). rewrite !live_count_cons. lia.
  - change (<[S i := y]> (z :: l)) with (z :: <[i := y]> l). rewrite !live_count_cons, (IH i H). lia.
Qed.

Section set.
Context (s : CConnSet) (Hs : cs_ok s).

Lemma slot_lt flow : (slot s flow < length (ccs s))%nat.
Proof.
  pose proof (cs_max _ Hs). rewrite (cs_len _ Hs). unfold slot.
  pose proof (Z.mod_pos_bound flow (maxconn s) ltac:(lia)). lia.
Qed.

Lemma slot_some flow : exists c, ccs s !! slot s flow = Some c /\ conn_ok (maxconn s) (slot s flow) c.
Proof.
  destruct (lookup_lt_is_Some_2 _ _ (slot_lt flow)) as [c Hc]. exists c. split; [done|]. by eapply cs_conn.
Qed.

Lemma conn_of_slot flow c : conn_of s flow = Some c -> ccs s !! slot s flow = Some c /\ _flow c = flow /\ flow <> 0.
Proof.
  unfold conn_of. destruct (ccs s !! slot s flow) as [c'|]; [|done]. cbn. case_decide; naive_solver.
Qed.

(** Two flows of one slot are not open at once. *)
Lemma conn_of_unique f g c : conn_of s f = Some c -> slot s f = slot s g -> is_Some (conn_of s g) -> f = g.
Proof.
  intros (H1 & H2 & _)%conn_of_slot He [c' (H3 & H4 & _)%conn_of_slot]. rewrite He in H1. congruence.
Qed.

(** A slot written with a connection that fits. *)
Lemma putcc_ok flow c : conn_ok (maxconn s) (slot s flow) c ->
  forall u, u = usedflow s - live (default ConnCache_new (ccs s !! slot s flow)) + live c ->
  cs_ok (mkCS (ccs (putcc s flow c)) (maxconn s) u).
Proof.
  intros Hc u Hu. destruct (slot_some flow) as (c0 & E & _). split; cbn [maxconn ccs usedflow putcc].
  - apply Hs.
  - by rewrite length_insert, (cs_len _ Hs).
  - intros i c' H. apply list_lookup_insert_Some in H as [(<- & <- & _)|[_ H]]; [done|]. by eapply cs_conn.
  - rewrite Hu, (live_count_insert _ _ c0) by done. rewrite E, (cs_used _ Hs). done.
Qed.

Lemma putcc_same flow c0 c : ccs s !! slot s flow = Some c0 -> conn_ok (maxconn s) (slot s flow) c ->
  (_flow c = 0 <-> _flow c0 = 0) -> cs_ok (putcc s flow c).
Proof.
  intros E Hc Hl. unfold putcc. apply (putcc_ok flow c Hc). rewrite E. cbn. unfold live.
  repeat case_decide; lia.
Qed.

(** The others stay. *)
Lemma putcc_other flow c g : slot s g <> slot s flow -> conn_of (putcc s flow c) g = conn_of s g.
Proof.
  intros Hn. unfold conn_of, putcc. cbn. change (slot (mkCS _ _ _) g) with (slot s g).
  by rewrite list_lookup_insert_ne by congruence.
Qed.

Lemma putcc_this flow c : _flow c = flow -> flow <> 0 -> conn_of (putcc s flow c) flow = Some c.
Proof.
  intros Hf Hn. unfold conn_of, putcc. cbn. change (slot (mkCS _ _ _) flow) with (slot s flow).
  rewrite list_lookup_insert_eq by apply slot_lt. cbn. by rewrite decide_True.
Qed.

(** ** Adding *)

Lemma next_flow_range flow : 0 <= flow < MAX_FLOW_NUM -> 0 < next_flow flow < MAX_FLOW_NUM.
Proof.
  intros Hf. unfold next_flow, MAX_FLOW_NUM in *. rewrite u32_small by (unfold in_u32; lia).
  pose proof (Z.mod_pos_bound (flow + 1) 0x7FFFFFFF ltac:(lia)).
  destruct (Z.eqb_spec ((flow + 1) mod 0x7FFFFFFF) 0); lia.
Qed.

Lemma next_flow_succ flow : 0 <= flow -> flow + 1 < MAX_FLOW_NUM -> next_flow flow = flow + 1.
Proof.
  intros H0 H1. unfold next_flow, MAX_FLOW_NUM in *. rewrite u32_small by (unfold in_u32; lia).
  rewrite Z.mod_small by lia. destruct (Z.eqb_spec (flow + 1) 0); lia.
Qed.

Lemma find_free_ok n : forall flow, 0 < flow < MAX_FLOW_NUM ->
  exists r f, find_free n s flow = Done (r, f) /\ 0 < f < MAX_FLOW_NUM /\
    (forall f', r = Some f' -> f' = f /\ exists c, ccs s !! slot s f = Some c /\ _flow c = 0) /\
    (flow + Z.of_nat n < MAX_FLOW_NUM -> flow <= f) /\
    (r = None -> flow + Z.of_nat n < MAX_FLOW_NUM -> forall g, flow < g <= flow + Z.of_nat n ->
       exists c, ccs s !! slot s g = Some c /\ _flow c <> 0).
Proof.
  induction n as [|n IH]; intros flow Hf; cbn [find_free].
  { exists None, flow. split; [done|]. split; [done|]. split; [done|]. split; [lia|]. intros _ _ g Hg. lia. }
  pose proof (next_flow_range flow ltac:(lia)) as Hn. destruct (slot_some (next_flow flow)) as (c & Hc & Hok).
  unfold getcc. rewrite Hc. cbn [oget obind]. destruct (Z.eqb_spec (_flow c) 0) as [H0|H0].
  - exists (Some (next_flow flow)), (next_flow flow). split; [done|]. split; [done|]. split; [naive_solver|].
    split; [|done]. intros Hw. rewrite next_flow_succ by lia. lia.
  - destruct (IH (next_flow flow) Hn) as (r & f & E & Hr & H1 & H2 & H3). exists r, f. split; [done|]. split; [done|].
    split; [done|]. split.
    + intros Hw. rewrite next_flow_succ in H2 by lia. lia.
    + intros -> Hw g Hg. rewrite next_flow_succ in * by lia. destruct (decide (g = flow + 1)) as [->|]; [eauto|].
      apply H3; [done|lia|lia].
Qed.
End set.

Section ops.
Context (s : CConnSet) (Hs : cs_ok s).

(** A new value for an open connection: the other flows see nothing of it. *)
Lemma put_open flow c c' : conn_of s flow = Some c -> _flow c' = flow -> rc_ok (_r c') -> rc_ok (_w c') ->
  cs_ok (putcc s flow c') /\ conn_of (putcc s flow c') flow = Some c' /\
  forall g, g <> flow -> conn_of (putcc s flow c') g = conn_of s g.
Proof.
  intros Hc Hf Hr Hw. pose proof (conn_of_slot s flow c Hc) as (E & Hfl & Hn0).
  pose proof (cs_conn _ Hs _ _ E) as (H1 & H2 & _). split; [|split].
  - apply (putcc_same s Hs flow c c' E); [|rewrite Hf, Hfl; done]. rewrite Hfl in *. unfold conn_ok. rewrite Hf.
    split_and!; try done; lia.
  - by apply putcc_this.
  - intros g Hg. destruct (decide (slot s g = slot s flow)) as [Hsl|Hsl]; [|by apply putcc_other].
    unfold conn_of, putcc. cbn. change (slot (mkCS _ _ _) g) with (slot s g). rewrite Hsl, E.
    rewrite list_lookup_insert_eq by (by apply slot_lt). cbn. rewrite Hf, Hfl.
    rewrite !decide_False by naive_solver. done.
Qed.

Lemma skip_all_contents c : rc_ok c -> rc_ok (skip c (data_len c)) /\ contents (skip c (data_len c)) = [] /\
  _fin_bit (skip c (data_len c)) = _fin_bit c.
Proof.
  intros Hc. pose proof (contents_len c Hc) as Hl. destruct (skip_spec c (data_len c) Hc) as (H1 & H2 & H3).
  { unfold data_len. rewrite <- Hl. unfold blen. lia. }
  split; [done|]. split; [|done]. rewrite H2. apply drop_ge. unfold data_len, blen in *. lia.
Qed.

(** [addconn] gives a new connection a flow that no open connection has, an
    empty read and write cache, and leaves all the others as they are; it fails
    only with the set unchanged and (unless the flow numbers wrap round on the way)
    every slot taken.  The count of used flows stays exact. *)
Lemma addconn_spec flow fd type now : 0 < flow < MAX_FLOW_NUM ->
  exists r f s', addconn s flow fd type now = Done (r, f, s') /\ cs_ok s' /\ 0 < f < MAX_FLOW_NUM /\
    (flow + maxconn s <= MAX_FLOW_NUM -> flow <= f) /\
    (r = 0 /\ conn_of s f = None /\
       (exists c, conn_of s' f = Some c /\ _fd c = fd /\ _type c = type /\ contents (_r c) = [] /\ contents (_w c) = []) /\
       (forall g, g <> f -> conn_of s' g = conn_of s g) /\ usedflow s' = usedflow s + 1
     \/ r = -1 /\ s' = s /\ (flow + maxconn s <= MAX_FLOW_NUM -> forall i c, ccs s !! i = Some c -> _flow c <> 0)).
Proof.
  intros Hf. pose proof (cs_max _ Hs) as Hm. unfold addconn, getcc.
  destruct (slot_some s Hs flow) as (c & Hc & Hok). rewrite Hc. cbn [oget obind].
  assert (exists r f, (if 0 <? _flow c then find_free (Z.to_nat (maxconn s - 1)) s flow else Done (Some flow, flow)) = Done (r, f) /\
    0 < f < MAX_FLOW_NUM /\ (forall f', r = Some f' -> f' = f /\ exists c0, ccs s !! slot s f = Some c0 /\ _flow c0 = 0) /\
    (flow + maxconn s <= MAX_FLOW_NUM -> flow <= f) /\
    (r = None -> flow + maxconn s <= MAX_FLOW_NUM -> forall g, flow <= g < flow + maxconn s ->
      exists c0, ccs s !! slot s g = Some c0 /\ _flow c0 <> 0)) as (r & f & -> & Hf' & Hfree & Hle & Hfull).
  { destruct Hok as (Hfl & _). destruct (Z.ltb_spec 0 (_flow c)) as [Hp|Hp].
    - destruct (find_free_ok s Hs (Z.to_nat (maxconn s - 1)) flow Hf) as (r & f & E & H1 & H2 & H3 & H4).
      exists r, f. split; [done|]. split; [done|]. split; [done|]. split; [intros; apply H3; lia|].
      intros -> Hw g Hg. destruct (decide (g = flow)) as [->|]; [exists c; split; [done|lia]|]. apply H4; [done|lia|lia].
    - exists (Some flow), flow. split; [done|]. split; [done|]. split; [|split; [lia|done]].
      intros f' [= <-]. split; [done|]. exists c. split; [done|lia]. }
  cbn [obind]. destruct r as [f'|].
  - destruct (Hfree f' eq_refl) as (-> & c0 & Hc0 & Hz). rewrite Hc0. cbn [oget obind].
    eexists 0, f, _. split; [done|]. pose proof (cs_conn _ Hs _ _ Hc0) as (_ & _ & Hr & Hw & He).
    destruct (He Hz) as (Er & Ew & Efin). set (c' := mkCC f fd now type (_r c0) (_w c0)).
    assert (conn_ok (maxconn s) (slot s f) c') as Hok'.
    { unfold conn_ok, c'. cbn. split_and!; try done; try lia. }
    split; [|split; [done|split; [done|left; split; [done|split]]]].
    + apply (putcc_ok s Hs f c' Hok'). rewrite Hc0. cbn. unfold live. rewrite decide_False by lia.
      rewrite decide_True by (cbn; lia). lia.
    + unfold conn_of. rewrite Hc0. cbn. rewrite decide_False; [done|]. lia.
    + change (conn_of (mkCS (ccs (putcc s f c')) (maxconn (putcc s f c')) _)) with (conn_of (putcc s f c')).
      split; [exists c'; split; [apply putcc_this; (done || lia)|done]|]. split; [|done].
      intros g Hg. destruct (decide (slot s g = slot s f)) as [Hsl|Hsl]; [|by apply putcc_other].
      unfold conn_of, putcc. cbn. change (slot (mkCS _ _ _) g) with (slot s g). rewrite Hsl, Hc0.
      rewrite list_lookup_insert_eq by (by apply slot_lt). cbn. rewrite !decide_False; [done|lia|lia].
  - eexists (-1), f, s. split; [done|]. split; [done|]. split; [done|]. split; [done|]. right. split; [done|]. split; [done|].
    intros Hw i c0 Hi. pose proof (lookup_lt_Some _ _ _ Hi) as Hlt. rewrite (cs_len _ Hs) in Hlt.
    set (g := flow + (Z.of_nat i - flow) mod maxconn s).
    pose proof (Z.mod_pos_bound (Z.of_nat i - flow) (maxconn s) ltac:(lia)) as Hb.
    destruct (Hfull eq_refl Hw g) as (c1 & E1 & Hn1); [unfold g; lia|].
    assert (slot s g = i) as Hsl.
    { unfold slot, g. rewrite Zplus_mod_idemp_r. replace (flow + (Z.of_nat i - flow)) with (Z.of_nat i) by lia.
      rewrite Z.mod_small; lia. }
    rewrite Hsl in E1. congruence.
Qed.
End ops.

(** ** Sending and receiving *)

(** What the kernel may answer to a send of [n] bytes. *)
Definition kernel_ok (n : Z) (k : Z * Z) : Prop := -1 <= k.1 <= n /\ 0 <= k.2.

Lemma CSocket_send_cases n k : kernel_ok n k ->
  (exists e, CSocket_send 0 k.1 k.2 = (e, 0) /\ e < 0) \/ (CSocket_send 0 k.1 k.2 = (0, k.1) /\ 0 <= k.1 <= n).
Proof.
  intros [H1 H2]. unfold CSocket_send. destruct (Z.ltb_spec k.1 0); [left|right].
  - eexists. split; [done|]. destruct (Z.eqb_spec k.2 0); lia.
  - split; [done|lia].
Qed.

(** The error is that of the call. *)
Lemma CSocket_send_error k e n : CSocket_send 0 k.1 k.2 = (e, n) -> e < 0 -> 
  k.1 < 0 /\ forall c, 0 < c -> e <> - c -> k.2 <> c.
Proof.
  unfold CSocket_send. destruct (Z.ltb_spec k.1 0); intros [= <- <-] He; [|lia]. split; [done|]. intros c Hc.
  destruct (Z.eqb_spec k.2 0); lia.
Qed.

Section stream.
Context (s : CConnSet) (Hs : cs_ok s) (malloc : Z -> option (list Z)) (Hm : malloc_ok malloc).
Context (flow : Z) (c : ConnCache) (Hc : conn_of s flow = Some c).

Lemma open_reads : getcc s flow = Done c /\ negb (_flow c =? flow) || (flow =? 0) = false /\ rc_ok (_r c) /\ rc_ok (_w c).
Proof.
  pose proof (conn_of_slot s flow c Hc) as (E & Hf & Hn). unfold getcc. rewrite E. split; [done|].
  rewrite Hf, Z.eqb_refl. rewrite (proj2 (Z.eqb_neq flow 0)) by done.
  pose proof (cs_conn _ Hs _ _ E) as (_ & _ & Hr & Hw & _). done.
Qed.

(** The set with the write cache of this connection replaced. *)
Definition with_w (now : Z) (w : CRawCache) : CConnSet := putcc s flow (set_w w (set_access now c)).

Lemma with_w_ok now w : rc_ok w -> cs_ok (with_w now w) /\
  conn_of (with_w now w) flow = Some (set_w w (set_access now c)) /\
  forall g, g <> flow -> conn_of (with_w now w) g = conn_of s g.
Proof.
  intros Hw. pose proof open_reads as (_ & _ & Hr & _). pose proof (conn_of_slot s flow c Hc) as (_ & Hf & _).
  by apply (put_open s Hs flow c).
Qed.

Lemma with_w_same now : putcc s flow (set_access now c) = with_w now (_w c).
Proof. done. Qed.

(** The second half of [send]: the cache is empty, [out1] was sent. *)
Definition send_new (d : list Z) (now : Z) (k2 : Z * Z) (out1 : list Z) : outcome (option Z * list Z * CConnSet) :=
  let w := skip (_w c) (data_len (_w c)) in
  let '(ret, sent_len) := CSocket_send 0 k2.1 k2.2 in
  let out := out1 ++ take (Z.to_nat sent_len) d in
  if (ret <? 0) && negb (ret =? - EAGAIN) && negb (ret =? - EINPROGRESS) then Done (Some (- E_NEED_CLOSE), out, with_w now w)
  else if sent_len <? blen d then
    b ⇐ oget (bread sent_len (blen d - sent_len) d);
    '(ok, w) ⇐ append malloc w b; Done (if ok then Some sent_len else None, out, with_w now w)
  else Done (Some sent_len, out, with_w now w).

(** The kernel refused one of the two sends - the first, [k1], is of the cached bytes
    and made only if there are some - and did not merely ask to wait. *)
Definition send_refused (k1 k2 : Z * Z) : Prop :=
  (contents (_w c) <> [] /\ k1.1 < 0 /\ k1.2 <> EAGAIN) \/ (k2.1 < 0 /\ k2.2 <> EAGAIN /\ k2.2 <> EINPROGRESS).

(** What a send of [d] promises: a result [r], the bytes sent and the cache. *)
Definition send_post (d : list Z) (k1 k2 : Z * Z) (r : option Z) (out : list Z) (w : CRawCache) : Prop :=
  rc_ok w /\ _fin_bit w = _fin_bit (_w c) /\
  match r with
  | Some r =>
      0 <= r <= blen d /\ (r = blen d -> d <> [] -> contents w = []) /\
        out ++ contents w = contents (_w c) ++ (if _fin_bit (_w c) then take (Z.to_nat r) d else d) \/
      r = - E_NEED_CLOSE /\ send_refused k1 k2 /\ exists rest, contents (_w c) ++ d = out ++ rest
  | None => (exists n, malloc n = None) /\ exists rest, contents (_w c) ++ d = out ++ rest
  end.

Lemma bread_rest (n : Z) (d : list Z) : 0 <= n <= blen d -> bread n (blen d - n) d = Some (drop (Z.to_nat n) d).
Proof.
  intros Hn. unfold bread, blen in *. rewrite !(proj2 (Z.leb_le _ _)) by lia. cbn. f_equal. apply take_ge.
  rewrite length_drop. lia.
Qed.

Lemma blen_nil (l : list Z) : blen l = 0 -> l = [].
Proof. destruct l; [done|]. unfold blen. cbn. lia. Qed.

(** The end of [send]: [n] of the new bytes were sent, the rest is cached. *)
Lemma send_rest_ok d k1 k2 now n : blen d < 2 ^ 31 -> 0 <= n <= blen d ->
  exists r w, (if n <? blen d then
      b ⇐ oget (bread n (blen d - n) d);
      '(ok, w) ⇐ append malloc (skip (_w c) (data_len (_w c))) b;
      Done (if ok then Some n else None, contents (_w c) ++ take (Z.to_nat n) d, with_w now w)
    else Done (Some n, contents (_w c) ++ take (Z.to_nat n) d, with_w now (skip (_w c) (data_len (_w c)))))
    = Done (r, contents (_w c) ++ take (Z.to_nat n) d, with_w now w) /\
    send_post d k1 k2 r (contents (_w c) ++ take (Z.to_nat n) d) w.
Proof.
  intros Hsz Hn. pose proof open_reads as (_ & _ & _ & Hw). unfold send_post.
  destruct (skip_all_contents (_w c) Hw) as (Hw0 & Hc0 & Hf0). destruct (Z.ltb_spec n (blen d)) as [Hp|Hp].
  - rewrite (bread_rest n d) by lia. cbn [oget obind].
    destruct (append_spec malloc _ (drop (Z.to_nat n) d) Hw0 Hm) as (ok & w' & Ea & Hw' & Hf' & Hc');
      [unfold blen in *; rewrite length_drop; lia|]. rewrite Ea. cbn [obind]. eexists _, _. split; [done|]. split; [done|].
    split; [congruence|]. rewrite Hc0, Hf0 in Hc'. destruct ok; cbn [negb orb app] in Hc'.
    + left. split; [lia|]. split; [lia|]. rewrite Hc', <- app_assoc. f_equal. destruct (_fin_bit (_w c));
      [by rewrite app_nil_r|apply take_drop].
    + split; [by eapply append_fails|]. exists (drop (Z.to_nat n) d). by rewrite <- app_assoc, take_drop.
  - assert (n = blen d) as -> by lia. assert (take (Z.to_nat (blen d)) d = d) as Ht by (apply take_ge; unfold blen; lia).
    eexists _, _. split; [done|]. split; [done|]. split; [congruence|]. left. split; [lia|]. split; [done|].
    rewrite Hc0, Ht, app_nil_r. by destruct (_fin_bit (_w c)).
Qed.

Lemma send_new_ok d now k1 k2 out : out = contents (_w c) -> blen d < 2 ^ 31 -> kernel_ok (blen d) k2 ->
  exists r out' w, send_new d now k2 out = Done (r, out', with_w now w) /\ send_post d k1 k2 r out' w.
Proof.
  intros -> Hsz Hk. pose proof open_reads as (_ & _ & _ & Hw).
  destruct (skip_all_contents (_w c) Hw) as (Hw0 & Hc0 & Hf0). unfold send_new.
  destruct (CSocket_send_cases _ _ Hk) as [(e & Es & He)|[-> Hn]].
  - rewrite Es. destruct (_ && _ && _) eqn:Ec.
    + eexists _, _, _. split; [done|]. split; [done|]. split; [done|]. right. split; [done|].
      apply CSocket_send_error in Es as (Hk2 & Ha); [|done]. rewrite !andb_true_iff, !negb_true_iff, !Z.eqb_neq in Ec.
      split; [right; split; [done|]; split; apply Ha; unfold EAGAIN, EINPROGRESS in *; (lia || tauto)|]. exists d.
      change (Z.to_nat 0) with 0%nat. by rewrite take_0, app_nil_r.
    + destruct (send_rest_ok d k1 k2 now 0 Hsz) as (r & w & -> & Hp); [unfold blen; lia|]. by eexists _, _, _.
  - cbn [Z.ltb Z.compare andb]. destruct (send_rest_ok d k1 k2 now k2.1 Hsz Hn) as (r & w & -> & Hp). by eexists _, _, _.
Qed.

Lemma conn_send_spec d now k1 k2 : blen d < 2 ^ 31 -> kernel_ok (data_len (_w c)) k1 -> kernel_ok (blen d) k2 ->
  exists r out w, conn_send malloc s flow d now k1 k2 = Done (r, out, with_w now w) /\ send_post d k1 k2 r out w.
Proof.
  intros Hsz Hk1 Hk2. pose proof open_reads as (Eg & El & _ & Hw). unfold conn_send. rewrite Eg. cbn [obind].
  rewrite El. change (_w (set_access now c)) with (_w c). pose proof (contents_len _ Hw) as Hlen.
  rewrite (data_spec _ Hw). change (_data_len (_w c)) with (data_len (_w c)) in *.
  destruct (Z.eqb_spec (data_len (_w c)) 0) as [H0|H0]; cbn [negb obind].
  { apply (send_new_ok d now k1 k2 []); [|lia|done]. symmetry. apply blen_nil. lia. }
  change (default [] (Some (contents (_w c)))) with (contents (_w c)).
  (* the cache is not all taken: [n] bytes are *)
  assert (forall n, 0 <= n < data_len (_w c) ->
    exists r out w, ('(ok, w) ⇐ append malloc (skip (_w c) n) d;
      Done (Some (if ok then Some 0 else None, putcc s flow (set_w w (set_access now c))), take (Z.to_nat n) (contents (_w c))))
      = Done (Some (r, with_w now w), out) /\ send_post d k1 k2 r out w) as Hpart.
  { intros n Hn. destruct (skip_spec (_w c) n Hw) as (Hw1 & Hc1 & Hf1); [lia|].
    destruct (append_spec malloc _ d Hw1 Hm Hsz) as (ok & w' & Ea & Hw' & Hf' & Hc'). rewrite Ea. cbn [obind].
    eexists _, _, _. split; [done|]. split; [done|]. split; [congruence|]. rewrite Hc1, Hf1 in Hc'.
    assert (take (Z.to_nat n) (contents (_w c)) ++ drop (Z.to_nat n) (contents (_w c)) ++ d = contents (_w c) ++ d) as He
      by (by rewrite app_assoc, take_drop).
    destruct ok; [left|split; [by eapply append_fails|by eexists; rewrite <- He]]. split; [unfold blen; lia|]. split.
    - intros Hb Hd. by destruct (blen_nil d (eq_sym Hb)).
    - rewrite Hc', app_assoc, take_drop. cbn. change (Z.to_nat 0) with 0%nat. rewrite take_0. done. }
  destruct (CSocket_send_cases _ _ Hk1) as [(e & Es & He)|[-> Hn]].
  - rewrite Es. destruct (Z.eqb_spec e (- EAGAIN)) as [Hea|Hne]; cbn [orb].
    + destruct (Hpart 0) as (r & out & w & -> & Hp); [unfold blen in Hlen; lia|]. cbn [obind]. by eexists _, _, _.
    + rewrite (proj2 (Z.eqb_neq e 0)) by lia. cbn [andb orb]. rewrite (proj2 (Z.ltb_lt e 0)) by done. cbn [obind].
      rewrite with_w_same. eexists _, _, _. split; [done|]. split; [done|]. split; [done|]. right. split; [done|].
      apply CSocket_send_error in Es as [Hk Ee]; [|done]. split.
      { left. split; [intros Hnil; rewrite Hnil in Hlen; by destruct H0|]. split; [done|]. apply Ee; [unfold EAGAIN; lia|done]. }
      change (Z.to_nat 0) with 0%nat. rewrite take_0. by eexists.
  - assert ((0 =? - EAGAIN) = false) as -> by done. cbn [orb Z.eqb andb].
    destruct (Z.ltb_spec k1.1 (data_len (_w c))) as [Hp|Hp].
    + destruct (Hpart k1.1) as (r & out & w & -> & Hp'); [lia|]. cbn [obind]. by eexists _, _, _.
    + cbn [Z.ltb Z.compare obind]. rewrite (take_ge (contents (_w c))) by (unfold blen in *; lia).
      by apply (send_new_ok d now k1 k2 (contents (_w c))).
Qed.

(** C17: what [send] hands to the socket followed by what it leaves in the write
    cache is what was in the cache followed by the new data: nothing is lost,
    repeated or put out of order, however little the kernel takes.  (When the fin
    bit of the cache is set, the cache takes no more bytes: the new data that the
    kernel did not take is then dropped.)  The exceptions are the result
    [-E_NEED_CLOSE], only after the kernel refused a send other than by asking to
    wait, and an exception, only when [malloc] fails: what was sent is then a
    prefix.  Other connections are not touched. *)
Theorem conn_send_keeps_stream d now k1 k2 :
  blen d < 2 ^ 31 -> kernel_ok (data_len (_w c)) k1 -> kernel_ok (blen d) k2 ->
  exists r out s' c', conn_send malloc s flow d now k1 k2 = Done (r, out, s') /\ cs_ok s' /\
    conn_of s' flow = Some c' /\ (forall g, g <> flow -> conn_of s' g = conn_of s g) /\
    match r with
    | Some r =>
        0 <= r <= blen d /\
          out ++ contents (_w c') = contents (_w c) ++ (if _fin_bit (_w c) then take (Z.to_nat r) d else d) \/
        r = - E_NEED_CLOSE /\ send_refused k1 k2 /\ exists rest, contents (_w c) ++ d = out ++ rest
    | None => (exists n, malloc n = None) /\ exists rest, contents (_w c) ++ d = out ++ rest
    end.
Proof.
  intros Hsz Hk1 Hk2. destruct (conn_send_spec d now k1 k2 Hsz Hk1 Hk2) as (r & out & w & E & Hw & _ & Hp).
  destruct (with_w_ok now w Hw) as (H1 & H2 & H3). eexists _, _, _, _. split; [done|]. split; [done|]. split; [done|].
  split; [done|]. destruct r; [|done]. destruct Hp as [(? & _ & ?)|Hp]; [by left|by right].
Qed.

Lemma sendfromcache_spec now k : kernel_ok (data_len (_w c)) k ->
  exists r out w, sendfromcache s flow now k = Done (r, out, with_w now w) /\ rc_ok w /\ _fin_bit w = _fin_bit (_w c) /\
    out ++ contents w = contents (_w c) /\ (r = 0 <-> contents w = []) /\ (0 <= r \/ r = - E_NEED_CLOSE).
Proof.
  intros Hk. pose proof open_reads as (Eg & El & _ & Hw). unfold sendfromcache. rewrite Eg. cbn [obind].
  rewrite El. change (_w (set_access now c)) with (_w c). pose proof (contents_len _ Hw) as Hlen.
  rewrite (data_spec _ Hw). change (_data_len (_w c)) with (data_len (_w c)) in *. rewrite with_w_same.
  destruct (Z.eqb_spec (data_len (_w c)) 0) as [H0|H0].
  { eexists _, _, _. split; [done|]. rewrite H0 in Hlen. pose proof (blen_nil _ Hlen). naive_solver lia. }
  assert (contents (_w c) <> []) as Hne by (intros E; rewrite E in Hlen; by destruct H0).
  cbn [obind]. change (default [] (Some (contents (_w c)))) with (contents (_w c)).
  destruct (CSocket_send_cases _ _ Hk) as [(e & -> & He)|[-> Hn]].
  - change (Z.to_nat 0) with 0%nat. rewrite take_0. rewrite (proj2 (Z.eqb_neq e 0)) by lia. unfold C_NEED_SEND, E_NEED_CLOSE.
    destruct (e =? - EAGAIN); eexists _, _, _; (split; [done|]); (split_and!; [done..| |]; [split; [lia|done]|lia]).
  - cbn [Z.eqb]. destruct (Z.eqb_spec k.1 0) as [Hz|Hz].
    { rewrite Hz. change (Z.to_nat 0) with 0%nat. rewrite take_0. unfold C_NEED_SEND.
      eexists _, _, _; (split; [done|]); (split_and!; [done..| |]; [split; [lia|done]|lia]). }
    destruct (skip_spec (_w c) k.1 Hw) as (Hw1 & Hc1 & Hf1); [lia|]. eexists _, _, _. split; [done|]. rewrite Hc1, take_drop.
    split_and!; [done..| |destruct (Z.eqb_spec k.1 (data_len (_w c))); lia].
    destruct (Z.eqb_spec k.1 (data_len (_w c))) as [He|He]; (split; [intros Hr|intros Hd]).
    + apply drop_ge. unfold blen in *. lia.
    + done.
    + lia.
    + apply (f_equal length) in Hd. rewrite length_drop in Hd. cbn in Hd. unfold blen in Hlen. lia.
Qed.

(** [sendfromcache] sends a prefix of the write cache and keeps the rest; it
    returns 0 exactly when the cache is then empty. *)
Theorem sendfromcache_keeps_stream now k : kernel_ok (data_len (_w c)) k ->
  exists r out s' c', sendfromcache s flow now k = Done (r, out, s') /\ cs_ok s' /\ conn_of s' flow = Some c' /\
    (forall g, g <> flow -> conn_of s' g = conn_of s g) /\
    out ++ contents (_w c') = contents (_w c) /\ (r = 0 <-> contents (_w c') = []).
Proof.
  intros Hk. destruct (sendfromcache_spec now k Hk) as (r & out & w & E & Hw & _ & Ho & Hr & _).
  destruct (with_w_ok now w Hw) as (H1 & H2 & H3). by eexists _, _, _, _.
Qed.

(** The set with the read cache of this connection replaced. *)
Definition with_r (now : Z) (r : CRawCache) : CConnSet := putcc s flow (set_r r (set_access now c)).

Lemma with_r_ok now r : rc_ok r -> cs_ok (with_r now r) /\
  conn_of (with_r now r) flow = Some (set_r r (set_access now c)) /\
  forall g, g <> flow -> conn_of (with_r now r) g = conn_of s g.
Proof.
  intros Hr. pose proof open_reads as (_ & _ & _ & Hw). pose proof (conn_of_slot s flow c Hc) as (_ & Hf & _).
  by apply (put_open s Hs flow c).
Qed.

Lemma conn_recv_spec now bytes errno d : 0 <= errno -> -1 <= bytes <= C_READ_BUFFER_SIZE -> bytes <= blen d ->
  exists r rd, conn_recv malloc s flow now bytes errno d = Done (r, with_r now rd) /\ rc_ok rd /\
    _fin_bit rd = _fin_bit (_r c) /\
    contents rd = contents (_r c) ++ (if decide (r = None) then [] else if _fin_bit (_r c) then [] else take (Z.to_nat bytes) d) /\
    (forall v, r = Some v -> v = - E_NEED_CLOSE \/ v = - EAGAIN \/ v = - E_RECV_DONE \/ 0 < v) /\
    (_type c = UDP_SOCKET -> forall v, r = Some v -> v = - E_NEED_CLOSE \/ 0 < v).
Proof.
  intros He Hb Hd. pose proof open_reads as (Eg & El & Hr & Hw).
  unfold conn_recv. rewrite Eg. cbn [obind]. rewrite El. set (c1 := set_access now c).
  change (_type c1) with (_type c). change (_r c1) with (_r c).
  change (putcc s flow c1) with (with_r now (_r c)).
  assert (forall b : bool, contents (_r c) = contents (_r c) ++ (if b then [] else [])) as Hnil by (intros []; by rewrite app_nil_r).
  unfold CSocket_receive. destruct (Z.ltb_spec bytes 0) as [Hneg|Hpos].
  - assert ((if errno =? 0 then bytes else - errno) <> 0) as Hne by (destruct (Z.eqb_spec errno 0); lia).
    rewrite (proj2 (Z.eqb_neq (if errno =? 0 then bytes else - errno) 0)) by done. cbn [andb].
    replace (Z.to_nat bytes) with 0%nat by lia. rewrite take_0.
    destruct (Z.eqb_spec (_type c) UDP_SOCKET); cbn [negb]; eexists _, _; (split; [done|]);
      (split_and!; [done|done|by rewrite decide_False|intros v [= <-]; try destruct (negb ((if errno =? 0 then bytes else - errno) =? - EAGAIN)); tauto|naive_solver]).
  - cbn [Z.eqb]. destruct (Z.ltb_spec 0 bytes) as [Hp|Hp].
    + assert (bread 0 bytes d = Some (take (Z.to_nat bytes) d)) as ->.
      { unfold bread. rewrite !(proj2 (Z.leb_le _ _)) by lia. cbn. by rewrite drop_0. }
      cbn [oget obind andb]. assert (blen (take (Z.to_nat bytes) d) <= bytes) by (unfold blen; rewrite length_take; lia).
      destruct (append_spec malloc (_r c) (take (Z.to_nat bytes) d) Hr Hm) as (ok & rd & -> & Hrd & Hfd & Hcon);
        [unfold C_READ_BUFFER_SIZE in *; lia|]. cbn [obind].
      destruct (Z.eqb_spec (_type c) UDP_SOCKET); cbn [negb]; eexists _, _; (split; [done|]);
        (split_and!; [done|done|by rewrite Hcon; destruct ok|destruct ok; intros v [= <-]; try destruct (_ <? _); tauto|
          destruct ok; naive_solver]).
    + assert (bytes = 0) as -> by lia. cbn [andb]. change (Z.to_nat 0) with 0%nat. rewrite take_0.
      destruct (Z.eqb_spec (_type c) UDP_SOCKET); cbn [negb]; eexists _, _; (split; [done|]);
        (split_and!; [done|done|by rewrite decide_False|intros v [= <-]; tauto|naive_solver]).
Qed.
End stream.

(** ** Closing, and flows that are not open *)

Section close.
Context (s : CConnSet) (Hs : cs_ok s) (flow : Z).

Lemma closeconn_open c : conn_of s flow = Some c ->
  exists s', closeconn s flow = Done (0, if negb (_type c =? UDP_SOCKET) then Some (_fd c) else None, s') /\ cs_ok s' /\
    conn_of s' flow = None /\ (forall g, g <> flow -> conn_of s' g = conn_of s g) /\ maxconn s' = maxconn s /\
    usedflow s' = usedflow s - 1.
Proof.
  intros Hc. pose proof (conn_of_slot s flow c Hc) as (E & Hf & Hn). pose proof (cs_conn _ Hs _ _ E) as (H1 & H2 & Hr & Hw & _).
  unfold closeconn, getcc. rewrite E. cbn [oget obind]. rewrite Hf, Z.eqb_refl, (proj2 (Z.eqb_neq flow 0)) by done. cbn [andb negb].
  destruct (skip_all_contents _ Hr) as (Hr0 & Er & _). destruct (skip_all_contents _ Hw) as (Hw0 & Ew & _).
  eexists. split; [done|]. set (c' := mkCC 0 _ _ _ _ _). split; [|split; [|split; [|done]]].
  - apply (putcc_ok s Hs flow c'); [unfold conn_ok, c'; cbn; unfold MAX_FLOW_NUM; split_and!; try done; lia|].
    rewrite E. cbn. unfold live. rewrite decide_True by lia. rewrite decide_False by (cbn; lia). lia.
  - unfold conn_of, putcc. cbn. change (slot (mkCS _ _ _) flow) with (slot s flow).
    rewrite list_lookup_insert_eq by (by apply slot_lt). cbn. by rewrite decide_False by naive_solver.
  - intros g Hg. change (conn_of (putcc s flow c') g = conn_of s g).
    destruct (decide (slot s g = slot s flow)) as [Hsl|Hsl]; [|by apply putcc_other].
    unfold conn_of, putcc. cbn. change (slot (mkCS _ _ _) g) with (slot s g). rewrite Hsl, E.
    rewrite list_lookup_insert_eq by (by apply slot_lt). cbn. rewrite Hf. rewrite !decide_False by naive_solver. done.
Qed.

Lemma getcc_slot c : getcc s flow = Done c -> ccs s !! slot s flow = Some c.
Proof. unfold getcc. destruct (ccs s !! slot s flow); [|done]. by intros [= ->]. Qed.

Lemma getcc_ok : exists c, getcc s flow = Done c /\ conn_ok (maxconn s) (slot s flow) c /\
  (_flow c = flow /\ flow <> 0 <-> is_Some (conn_of s flow)) /\
  (_flow c = flow /\ flow <> 0 -> conn_of s flow = Some c).
Proof.
  destruct (slot_some s Hs flow) as (c & E & Hok). exists c. unfold getcc, conn_of. rewrite E. cbn.
  split; [done|]. split; [done|]. case_decide; split; try done; try tauto.
Qed.

(** Every operation on a flow that is not open fails and changes nothing. *)
Lemma stale_flow malloc : conn_of s flow = None ->
  connfd s flow = Done (-1) /\ closeconn s flow = Done (- E_NOT_FINDFD, None, s) /\
  (forall now k, sendfromcache s flow now k = Done (- E_NOT_FINDFD, [], s)) /\
  (forall d now k1 k2, conn_send malloc s flow d now k1 k2 = Done (Some (- E_NOT_FINDFD), [], s)) /\
  (forall now bytes errno d, conn_recv malloc s flow now bytes errno d = Done (Some (- E_NOT_FINDFD), s)).
Proof.
  intros Hn. destruct getcc_ok as (c & E & _ & Hiff & _). rewrite Hn in Hiff.
  assert ((_flow c =? flow) && negb (flow =? 0) = false) as Hb.
  { destruct (Z.eqb_spec (_flow c) flow), (Z.eqb_spec flow 0); try done. exfalso. destruct (proj1 Hiff); done. }
  assert (negb (_flow c =? flow) || (flow =? 0) = true) as Hb' by (destruct (_flow c =? flow), (flow =? 0); done).
  unfold connfd, closeconn, sendfromcache, conn_send, conn_recv. rewrite E. cbn [obind]. rewrite Hb.
  rewrite andb_comm in Hb. rewrite Hb. split_and!; try done; intros; by rewrite Hb'.
Qed.
End close.

(** [check_expire] names the open connections not used since the deadline. *)
Lemma conn_check_expire_spec s t f : cs_ok s ->
  f ∈ conn_check_expire s t <-> exists c, conn_of s f = Some c /\ _access c < t.
Proof.
  intros Hs. unfold conn_check_expire. rewrite list_elem_of_omap. split.
  - intros (c & Hin & Hc). apply list_elem_of_lookup in Hin as [i Hi]. destruct (Z.ltb_spec 0 (_flow c)) as [Hp|]; [|done].
    destruct (Z.ltb_spec (_access c) t); [|done]. injection Hc as <-. exists c. split; [|done].
    pose proof (cs_conn _ Hs _ _ Hi) as (_ & Hsl & _). unfold conn_of, slot. rewrite Hsl by lia. rewrite Hi. cbn.
    by rewrite decide_True by lia.
  - intros (c & (E & Hf & Hn)%conn_of_slot & Ha). exists c. split; [by eapply list_elem_of_lookup_2|].
    pose proof (cs_conn _ Hs _ _ E) as ([Hp _] & _). rewrite (proj2 (Z.ltb_lt 0 (_flow c))) by lia.
    rewrite (proj2 (Z.ltb_lt (_access c) t)) by done. by rewrite Hf.
Qed.

Lemma CConnSet_new_ok n : 0 < n < 2 ^ 31 -> cs_ok (CConnSet_new n) /\ forall f, conn_of (CConnSet_new n) f = None.
Proof.
  intros Hn. split.
  - split; cbn [maxconn ccs usedflow CConnSet_new]; [done|by rewrite length_replicate| |].
    + intros i c H. apply lookup_replicate in H as [-> _]. unfold conn_ok, MAX_FLOW_NUM. cbn. split_and!; try done; lia.
    + unfold live_count. generalize (Z.to_nat n). intros m. induction m as [|m IH]; [done|]. cbn [replicate].
      rewrite filter_cons_False by (cbn; tauto). done.
  - intros f. unfold conn_of. cbn. destruct (replicate _ _ !! _) as [c|] eqn:E; [|done].
    apply lookup_replicate in E as [-> _]. cbn. rewrite decide_False; [done|]. intros [<- ?]. done.
Qed.

(** Closing a connection leaves its descriptor in the slot, with type 0: the
    destructor closes that number again, whatever it names by then. *)
Theorem destructor_closes_again s flow c : cs_ok s -> conn_of s flow = Some c -> _type c <> UDP_SOCKET -> 0 < _fd c ->
  exists s', closeconn s flow = Done (0, Some (_fd c), s') /\ _fd c ∈ CConnSet_delete s'.
Proof.
  intros Hs Hc Ht Hfd. pose proof (conn_of_slot s flow c Hc) as (E & Hf & Hn). unfold closeconn, getcc. rewrite E.
  cbn [oget obind]. rewrite Hf, Z.eqb_refl, (proj2 (Z.eqb_neq flow 0)), (proj2 (Z.eqb_neq (_type c) UDP_SOCKET)) by done.
  cbn [andb negb]. eexists. split; [done|]. unfold CConnSet_delete. apply list_elem_of_omap. eexists. split.
  - apply (list_elem_of_lookup_2 _ (slot s flow)). cbn. by apply list_lookup_insert_eq, slot_lt.
  - cbn. by rewrite (proj2 (Z.ltb_lt 0 (_fd c))).
Qed.

(** ** A run *)

Definition small_malloc (n : Z) : option (list Z) := if (0 <=? n) && (n <? 2 ^ 31) then Some (replicate (Z.to_nat n) 0) else None.

Lemma small_malloc_ok : malloc_ok small_malloc.
Proof.
  intros n m. unfold small_malloc. destruct (Z.leb_spec 0 n), (Z.ltb_spec n (2 ^ 31)); try done. intros [= <-]. unfold blen.
  rewrite length_replicate. lia.
Qed.

(** Flow 1 on descriptor 9. *)
Definition one_conn : CConnSet := mkCS [ConnCache_new; mkCC 1 9 100 1 CRawCache_new CRawCache_new] 2 1.

Lemma one_conn_ok : cs_ok one_conn.
Proof.
  split; cbn [maxconn ccs usedflow one_conn]; [lia|done| |done].
  intros [|[|i]] c [= <-]; unfold conn_ok, MAX_FLOW_NUM, rc_ok; cbn; split_and!; done.
Qed.

(** The kernel takes two of three bytes: the third waits. *)
Lemma conn_send_keeps_stream_witness : exists out s' c',
  conn_send small_malloc one_conn 1 [1; 2; 3] 101 (0, 0) (2, 0) = Done (Some 2, out, s') /\
  out = [1; 2] /\ conn_of s' 1 = Some c' /\ contents (_w c') = [3].
Proof.
  destruct (conn_send_keeps_stream one_conn one_conn_ok small_malloc small_malloc_ok 1 _ eq_refl [1; 2; 3] 101 (0, 0) (2, 0))
    as (r & out & s' & c' & H1 & _ & H2 & _ & H3); [done|done|done|].
  assert ((fun x => match x with Done (r, out, _) => (r, out) | _ => (None, []) end)
    (conn_send small_malloc one_conn 1 [1; 2; 3] 101 (0, 0) (2, 0)) = (Some 2, [1; 2])) as Hr by (vm_compute; reflexivity).
  rewrite H1 in Hr. injection Hr as -> ->. exists [1; 2], s', c'. split; [exact H1|]. split; [reflexivity|]. split; [exact H2|].
  destruct H3 as [[_ H3]|[H3 _]]; [by injection H3|done].
Defined.
