(* ===== verification/SockCommu.v ===== *)
(** * The socket side of the proxy

    [comm/tbase/tsockcommu/tsockcommu.h], [tsockcommu.cpp], class [CTSockCommu], and
    [tepollflow.h], [tepollflow.cpp], class [CEPollFlow]: the loop that accepts
    connections, reads requests, sends answers from the workers and closes what is
    idle, on top of the connection set ([ConnSet]).

    The kernel is part of the state: the open client descriptors, the epoll set
    (descriptor to data and events) and the bytes handed to each descriptor.  What
    it decides freely comes from an environment of class [Net].  The callbacks are
    functions on the whole state, since they may call [sendto].  Reports, monitors,
    logs, socket options and addresses are left out. *)

From Stdlib Require Import ZArith Lia.
From stdpp Require Import base list option gmap.
From S2P Require Import Prelude Bytes RawCache ConnSet.

Definition SOCK_TYPE_TCP : Z := 0x1.
Definition SOCK_TYPE_UDP : Z := 0x2.
Definition SOCK_TYPE_UNIX : Z := 0x4.
Definition SOCK_TYPE_NOTIFY : Z := 0x8.
Definition EPOLLIN : Z := 0x001.
Definition EPOLLOUT : Z := 0x004.
Definition EPOLLET : Z := 0x80000000.
Definition EINTR : Z := 4.
Definition ENOENT : Z := 2.
Definition EEXIST : Z := 17.

(** ** The data of an epoll event *)

(** [CEPollFlow::ctl]: [(unsigned long long)fd + ((unsigned long long)flow << 32)]. *)
Definition ev_data (fd flow : Z) : Z := (fd mod 2 ^ 64 + Z.shiftl flow 32) mod 2 ^ 64.

(** [CEPollFlowResult::iterator::flow] and [fd] (an [int]). *)
Definition ev_flow (u64 : Z) : Z := u32 (Z.shiftr u64 32).
Definition ev_fd (u64 : Z) : Z :=
  let x := Z.land u64 0x00000000ffffffff in if x <? 2 ^ 31 then x else x - 2 ^ 32.

Lemma ev_roundtrip fd flow : 0 <= fd < 2 ^ 31 -> 0 <= flow < 2 ^ 32 ->
  ev_fd (ev_data fd flow) = fd /\ ev_flow (ev_data fd flow) = flow.
Proof.
  intros Hd Hf. assert (ev_data fd flow = fd + flow * 2 ^ 32) as E.
  { unfold ev_data. rewrite Z.shiftl_mul_pow2 by lia. rewrite (Z.mod_small fd), Z.mod_small; lia. }
  unfold ev_fd, ev_flow. rewrite E. split.
  - change 0x00000000ffffffff with (Z.ones 32). rewrite Z.land_ones, Z_mod_plus_full, Z.mod_small by lia.
    by rewrite (proj2 (Z.ltb_lt _ _)) by lia.
  - rewrite Z.shiftr_div_pow2, Z.div_add, Z.div_small by lia. rewrite Z.add_0_l. apply u32_small. unfold in_u32. lia.
Qed.

(** ** The environment *)

(** What the kernel decides: results and [errno] of the calls.  [net_accept] is
    given the descriptors that are in use; [net_ctl] is the [errno] of an
    [EPOLL_CTL_ADD], or 0; [net_wait] chooses events for what is registered. *)
Class Net (E : Type) := {
  net_accept : Z -> gset Z -> E -> (Z * Z) * E;
  net_nonblock : Z -> E -> Z * E;
  net_recv : Z -> E -> (Z * Z * list Z) * E;
  net_send : Z -> list Z -> E -> (Z * Z) * E;
  net_ctl : Z -> E -> Z * E;
  net_wait : gmap Z (Z * Z) -> E -> list (Z * Z) * E;
  net_time : E -> Z * E;
  net_malloc : Z -> option (list Z)
}.

(** [TSockBind], less the address and the socket options. *)
Record TSockBind := mkBind { type_ : Z; isabstract_ : bool }.

(** The state of a [CTSockCommu] and of the kernel below it. *)
Record commu (E : Type) := mkCommu {
  connset_ : CConnSet;
  sockbind_ : gmap Z TSockBind;
  expiretime_ : Z;
  lastchecktime_ : Z;
  sendcache_limit_ : Z;
  udpautoclose_ : bool;
  flow_ : Z;
  clients : gset Z;
  epoll : gmap Z (Z * Z);
  wire : list (Z * list Z);
  env : E
}.
Arguments mkCommu {E}. Arguments connset_ {E}. Arguments sockbind_ {E}. Arguments expiretime_ {E}.
Arguments lastchecktime_ {E}. Arguments sendcache_limit_ {E}. Arguments udpautoclose_ {E}. Arguments flow_ {E}.
Arguments clients {E}. Arguments epoll {E}. Arguments wire {E}. Arguments env {E}.

Inductive cb_type := CB_RECVDATA | CB_CONNECTED | CB_DISCONNECT | CB_RECVDONE | CB_SENDDONE | CB_SENDERROR
  | CB_TIMEOUT | CB_OVERLOAD.

Section commu.
Context {E : Type} {net : Net E}.
#[local] Abbreviation W := (commu E).

(** A callback gets a flow and a blob of data, and gives a number. *)
Definition callback : Type := Z -> list Z -> W -> outcome (Z * W).

Definition set_connset (s : CConnSet) (w : W) : W :=
  mkCommu s (sockbind_ w) (expiretime_ w) (lastchecktime_ w) (sendcache_limit_ w) (udpautoclose_ w) (flow_ w)
    (clients w) (epoll w) (wire w) (env w).
Definition set_flow (f : Z) (w : W) : W :=
  mkCommu (connset_ w) (sockbind_ w) (expiretime_ w) (lastchecktime_ w) (sendcache_limit_ w) (udpautoclose_ w) f
    (clients w) (epoll w) (wire w) (env w).
Definition set_lastcheck (t : Z) (w : W) : W :=
  mkCommu (connset_ w) (sockbind_ w) (expiretime_ w) t (sendcache_limit_ w) (udpautoclose_ w) (flow_ w)
    (clients w) (epoll w) (wire w) (env w).
Definition set_fds (c : gset Z) (e : gmap Z (Z * Z)) (w : W) : W :=
  mkCommu (connset_ w) (sockbind_ w) (expiretime_ w) (lastchecktime_ w) (sendcache_limit_ w) (udpautoclose_ w) (flow_ w)
    c e (wire w) (env w).
Definition add_wire (fd : Z) (b : list Z) (w : W) : W :=
  mkCommu (connset_ w) (sockbind_ w) (expiretime_ w) (lastchecktime_ w) (sendcache_limit_ w) (udpautoclose_ w) (flow_ w)
    (clients w) (epoll w) (match b with [] => wire w | _ => wire w ++ [(fd, b)] end) (env w).
Definition set_env (e : E) (w : W) : W :=
  mkCommu (connset_ w) (sockbind_ w) (expiretime_ w) (lastchecktime_ w) (sendcache_limit_ w) (udpautoclose_ w) (flow_ w)
    (clients w) (epoll w) (wire w) e.

(** ** System calls *)

Definition now (w : W) : Z * W := let '(t, e) := net_time (env w) in (t, set_env e w).

(** [close]: the kernel also drops the descriptor from the epoll set. *)
Definition close_fd (fd : Z) (w : W) : W := set_fds (clients w ∖ {[fd]}) (delete fd (epoll w)) w.

(** [accept] on a listening descriptor, with [CSocket::accept] around it: the
    result and [errno]. *)
Definition accept (fd : Z) (w : W) : Z * Z * W :=
  let '((ret, errno), e) := net_accept fd (clients w ∪ dom (epoll w) ∪ dom (sockbind_ w)) (env w) in
  let w := set_env e w in
  if ret <? 0 then (if errno =? 0 then ret else - errno, errno, w)
  else (ret, 0, set_fds ({[ret]} ∪ clients w) (epoll w) w).

(** [CEPollFlow::add], [modify] and [del]. *)
Definition epoll_add (fd flow flag : Z) (w : W) : Z * W :=
  match epoll w !! fd with
  | Some _ => (- EEXIST, w)
  | None =>
      let '(errno, e) := net_ctl fd (env w) in
      let w := set_env e w in
      if errno =? 0 then (0, set_fds (clients w) (<[fd := (ev_data fd flow, flag)]> (epoll w)) w) else (- errno, w)
  end.
Definition epoll_modify (fd flow flag : Z) (w : W) : Z * W :=
  match epoll w !! fd with
  | Some _ => (0, set_fds (clients w) (<[fd := (ev_data fd flow, flag)]> (epoll w)) w)
  | None => (- ENOENT, w)
  end.
Definition epoll_del (fd : Z) (w : W) : Z * W :=
  match epoll w !! fd with
  | Some _ => (0, set_fds (clients w) (delete fd (epoll w)) w)
  | None => (- ENOENT, w)
  end.

(** ** The connection set with its system calls

    An answer of the kernel that a call does not ask for is thrown away. *)

(** [connset_->closeconn]. *)
Definition do_close (flow : Z) (w : W) : outcome W :=
  '(_, cl, s) ⇐ closeconn (connset_ w) flow;
  let w := set_connset s w in
  Done (match cl with Some fd => close_fd fd w | None => w end).

(** [connset_->recv]. *)
Definition do_recv (flow : Z) (w : W) : outcome (option Z * W) :=
  c ⇐ getcc (connset_ w) flow;
  let '(t, w) := now w in
  let '((bytes, errno, d), e) := net_recv (_fd c) (env w) in
  let w := set_env e w in
  '(r, s) ⇐ conn_recv net_malloc (connset_ w) flow t bytes errno d;
  Done (r, set_connset s w).

(** [connset_->send]. *)
Definition do_send (flow : Z) (d : list Z) (w : W) : outcome (option Z * W) :=
  c ⇐ getcc (connset_ w) flow;
  let '(t, w) := now w in
  let '(k1, e) := net_send (_fd c) (contents (_w c)) (env w) in
  let '(k2, e) := net_send (_fd c) d e in
  let w := set_env e w in
  '(r, out, s) ⇐ conn_send net_malloc (connset_ w) flow d t k1 k2;
  Done (r, add_wire (_fd c) out (set_connset s w)).

(** [connset_->sendfromcache]. *)
Definition do_sendfromcache (flow : Z) (w : W) : outcome (Z * W) :=
  c ⇐ getcc (connset_ w) flow;
  let '(t, w) := now w in
  let '(k, e) := net_send (_fd c) (contents (_w c)) (env w) in
  let w := set_env e w in
  '(r, out, s) ⇐ sendfromcache (connset_ w) flow t k;
  Done (r, add_wire (_fd c) out (set_connset s w)).

Section callbacks.
(** [func_list_]. *)
Context (func_list : cb_type -> option callback).

Definition call (cb : cb_type) (flow : Z) (blob : list Z) (w : W) : outcome (Z * W) :=
  match func_list cb with Some f => f flow blob w | None => Undef end.
Definition call_if (cb : cb_type) (flow : Z) (blob : list Z) (w : W) : outcome (Z * W) :=
  match func_list cb with Some f => f flow blob w | None => Done (0, w) end.

(** ** Sending *)

(** [check_over_sendcache_limit]. *)
Definition check_over_sendcache_limit (w : W) (c : ConnCache) : bool :=
  if negb (sendcache_limit_ w =? 0) then sendcache_limit_ w <? data_len (_w c) else false.

(** [CTSockCommu::sendto] of the bytes of a blob. *)
Definition sendto (flow : Z) (blob : list Z) (w : W) : outcome (Z * W) :=
  c ⇐ getcc (connset_ w) flow;
  if (blen blob =? 0) && (0 <? flow) then
    if 0 <? data_len (_w c) then
      Done (0, set_connset (putcc (connset_ w) flow (set_w (set_fin_bit (_w c) true) c)) w)
    else w ⇐ do_close flow w; Done (0, w)
  else if check_over_sendcache_limit w c then w ⇐ do_close flow w; Done (0, w)
  else
    '(r, w) ⇐ do_send flow blob w;
    let ret := default (- E_NEED_CLOSE) r in
    c ⇐ getcc (connset_ w) flow;
    if 0 <=? ret then
      if ret <? blen blob then
        if negb (_type c =? UDP_SOCKET) then
          Done (ret, (epoll_modify (_fd c) flow (Z.lor (Z.lor EPOLLET EPOLLIN) EPOLLOUT) w).2)
        else w ⇐ do_close flow w; Done (ret, w)
      else if negb (ret =? blen blob) then Exited
      else
        '(_, w) ⇐ call_if CB_SENDDONE flow blob w;
        c ⇐ getcc (connset_ w) flow;
        if (_type c =? UDP_SOCKET) && udpautoclose_ w then w ⇐ do_close flow w; Done (ret, w)
        else Done (ret, w)
    else if ret =? - E_NEED_CLOSE then w ⇐ do_close flow w; Done (ret, w)
    else Done (ret, w).

(** ** Accepting *)

(** [if (++flow_ >= MAX_FLOW_NUM) flow_ = 1]. *)
Definition bump_flow (w : W) : W :=
  let f := u32 (flow_ w + 1) in set_flow (if MAX_FLOW_NUM <=? f then 1 else f) w.

(** [addconn(flow_, ...)], which writes [flow_]. *)
Definition do_addconn (fd type : Z) (w : W) : outcome (Z * W) :=
  let '(t, w) := now w in
  '(r, f, s) ⇐ addconn (connset_ w) (flow_ w) fd type t;
  Done (r, set_flow f (set_connset s w)).

(** [CTSockCommu::handle_accept]: [n] is [accept_cnt_tcp]. *)
Fixpoint handle_accept (n : nat) (fd : Z) (w : W) : outcome W :=
  match n with
  | O => Done w
  | S n =>
      let '(ret, errno, w) := accept fd w in
      if (ret <? 0) && (errno =? EAGAIN) then Done w
      else if (ret <? 0) && (errno =? EINTR) then handle_accept n fd w
      else if ret <? 0 then Done w
      else
        let clifd := ret in
        let '(ret, e) := net_nonblock clifd (env w) in
        let w := set_env e w in
        if negb (ret =? 0) then handle_accept n fd (close_fd clifd w)
        else
          let w := bump_flow w in
          let type := type_ (default (mkBind 0 false) (sockbind_ w !! fd)) in
          '(ret, w) ⇐ do_addconn clifd type w;
          if ret <? 0 then
            '(_, w) ⇐ call_if CB_OVERLOAD 0 [] (close_fd clifd w); Done w
          else
            '(r, w) ⇐ call_if CB_CONNECTED (flow_ w) [] w;
            if negb (r =? 0) then w ⇐ do_close (flow_ w) w; handle_accept n fd w
            else
              let '(ret, w) := epoll_add clifd (flow_ w) (Z.lor EPOLLET EPOLLIN) w in
              if ret <? 0 then do_close (flow_ w) w else handle_accept n fd w
  end.

(** [CTSockCommu::handle_accept_udp]; [false]: an exception of [recv] leaves it,
    there is no handler. *)
Fixpoint handle_accept_udp (n : nat) (fd : Z) (w : W) : outcome (bool * W) :=
  match n with
  | O => Done (true, w)
  | S n =>
      '(ret, w) ⇐ do_addconn fd UDP_SOCKET (bump_flow w);
      if ret <? 0 then '(_, w) ⇐ call_if CB_OVERLOAD 0 [] w; Done (true, w)
      else
        '(r, w) ⇐ do_recv (flow_ w) w;
        match r with
        | None => Done (false, w)
        | Some ret =>
            if 0 <? ret then
              c ⇐ getcc (connset_ w) (flow_ w);
              b ⇐ data (_r c);
              let blob := default [] b in
              '(r, w) ⇐ call_if CB_CONNECTED (flow_ w) blob w;
              if negb (r =? 0) then w ⇐ do_close (flow_ w) w; handle_accept_udp n fd w
              else '(_, w) ⇐ call CB_RECVDATA (flow_ w) blob w; handle_accept_udp n fd w
            else w ⇐ do_close (flow_ w) w; Done (true, w)
        end
  end.

(** ** The event loop *)

(** The reads of one [EPOLLIN]: [n] is [retry_cnt]. *)
Fixpoint recv_loop (n : nat) (flow : Z) (w : W) : outcome W :=
  match n with
  | O => Done w
  | S n =>
      '(r, w) ⇐ do_recv flow w;
      let ret := default (- E_NEED_CLOSE) r in
      if (0 <? ret) || (ret =? - E_RECV_DONE) then
        c ⇐ getcc (connset_ w) flow;
        b ⇐ data (_r c);
        let blob := default [] b in
        '(proto_len, w) ⇐ call CB_RECVDATA flow blob w;
        if proto_len =? 0 then recv_loop n flow w
        else if 0 <? proto_len then
          '(_, w) ⇐ call_if CB_RECVDONE flow (take (Z.to_nat proto_len) blob) w;
          c ⇐ getcc (connset_ w) flow;
          recv_loop n flow (set_connset (putcc (connset_ w) flow (set_r (skip (_r c) proto_len) c)) w)
        else do_close flow w
      else if ret =? - E_NEED_CLOSE then
        '(_, w) ⇐ call_if CB_DISCONNECT flow [] w; do_close flow w
      else if (ret =? - E_NOT_FINDFD) || (ret =? - EAGAIN) then Done w
      else recv_loop n flow w
  end.

(** [EPOLLOUT]. *)
Definition on_out (fd flow : Z) (w : W) : outcome W :=
  '(ret, w) ⇐ do_sendfromcache flow w;
  c ⇐ getcc (connset_ w) flow;
  w ⇐ (if (ret =? 0) && _fin_bit (_w c) && (data_len (_w c) =? 0) then do_close flow w else Done w);
  if ret =? 0 then Done (epoll_modify fd flow (Z.lor EPOLLIN EPOLLET) w).2
  else if ret =? - E_NEED_CLOSE then
    '(_, w) ⇐ (match func_list CB_SENDERROR with
               | Some f => c ⇐ getcc (connset_ w) flow; b ⇐ data (_w c); f flow (default [] b) w
               | None => Done (0, w)
               end);
    do_close flow w
  else Done w.

(** [EPOLLIN], and the check of this connection's age. *)
Definition on_in (flow : Z) (w : W) : outcome W :=
  w ⇐ recv_loop 50 flow w;
  if negb (expiretime_ w =? 0) then
    let '(t, w) := now w in
    r ⇐ check_per_expire (connset_ w) flow (t - expiretime_ w);
    if negb (r =? 0) then '(_, w) ⇐ call_if CB_DISCONNECT flow [] w; do_close flow w else Done w
  else Done w.

(** One round of the loop over the events; [false]: an exception leaves it. *)
Definition on_event (w : W) (ev : Z * Z) : outcome (bool * W) :=
  let fd := ev_fd ev.1 in
  let flow := ev_flow ev.1 in
  let events := ev.2 in
  match sockbind_ w !! fd with
  | Some b =>
      if negb (Z.land events EPOLLIN =? 0) then
        if type_ b =? SOCK_TYPE_UDP then handle_accept_udp 50 fd w
        else if (type_ b =? SOCK_TYPE_TCP) || (type_ b =? SOCK_TYPE_UNIX) then w ⇐ handle_accept 50 fd w; Done (true, w)
        else Done (true, w)
      else Done (true, w)
  | None =>
      if Z.land events (Z.lor EPOLLIN EPOLLOUT) =? 0 then w ⇐ do_close flow w; Done (true, w)
      else if flow =? 0 then Done (true, w)
      else
        w ⇐ (if negb (Z.land events EPOLLOUT =? 0) then on_out fd flow w else Done w);
        w ⇐ (if negb (Z.land events EPOLLIN =? 0) then on_in flow w else Done w);
        Done (true, w)
  end.

Fixpoint events_loop (evs : list (Z * Z)) (w : W) : outcome (bool * W) :=
  match evs with
  | [] => Done (true, w)
  | ev :: evs => '(ok, w) ⇐ on_event w ev; if ok then events_loop evs w else Done (false, w)
  end.

(** The closing loop of [check_expire], with its callback. *)
Fixpoint expire_loop (l : list Z) (w : W) : outcome W :=
  match l with
  | [] => Done w
  | f :: l => w ⇐ do_close f w; '(_, w) ⇐ call_if CB_TIMEOUT f [] w; expire_loop l w
  end.

(** [CTSockCommu::check_expire]. *)
Definition check_expire (w : W) : outcome W :=
  let '(t, w) := now w in
  if negb (expiretime_ w =? 0) && (1 <? t - lastchecktime_ w) then
    w ⇐ expire_loop (conn_check_expire (connset_ w) (t - expiretime_ w)) w;
    Done (set_lastcheck t w)
  else Done w.

(** [CTSockCommu::poll]. *)
Definition poll (w : W) : outcome (bool * W) :=
  let '(evs, e) := net_wait (epoll w) (env w) in
  '(ok, w) ⇐ events_loop evs (set_env e w);
  if ok then w ⇐ check_expire w; Done (true, w) else Done (false, w).
End callbacks.

(** [add_notify], [del_notify] and [getconn]. *)
Definition add_notify (fd : Z) (w : W) : Z * W := epoll_add fd 0 EPOLLIN w.
Definition del_notify (fd : Z) (w : W) : Z * W := epoll_del fd w.
Definition getconn (w : W) : Z := getusedflow (connset_ w).

(** [set_sendcache_limit]. *)
Definition set_sendcache_limit (n : Z) (w : W) : W :=
  mkCommu (connset_ w) (sockbind_ w) (expiretime_ w) (lastchecktime_ w) n (udpautoclose_ w) (flow_ w)
    (clients w) (epoll w) (wire w) (env w).

(** [addnotify]; [notifyfd] is what [CNotify::notify_init] returned.  The result of
    the registration is not looked at. *)
Definition addnotify (notifyfd : Z) (w : W) : Z * W :=
  if notifyfd <? 0 then (-1, w)
  else
    let w := (epoll_add notifyfd 0 EPOLLIN w).2 in
    let b := default (mkBind 0 false) (sockbind_ w !! notifyfd) in
    (0, mkCommu (connset_ w) (<[notifyfd := mkBind SOCK_TYPE_NOTIFY (isabstract_ b)]> (sockbind_ w)) (expiretime_ w) (lastchecktime_ w)
          (sendcache_limit_ w) (udpautoclose_ w) (flow_ w) (clients w) (epoll w) (wire w) (env w)).

(** ** Starting *)

(** What the calls of [create_sock] return, in its order. *)
Record sock_answers := mkAns { a_create : Z; a_nonblock : Z; a_recvbuf : Z; a_bind : Z; a_listen : Z }.

(** [CTSockCommu::create_sock]. *)
Definition create_sock (s : TSockBind) (a : sock_answers) : Z :=
  let fd := a_create a in
  if fd <? 0 then -1
  else if negb (a_nonblock a =? 0) then a_nonblock a
  else if (type_ s =? SOCK_TYPE_UDP) && negb (a_recvbuf a =? 0) then a_recvbuf a
  else if negb (a_bind a =? 0) then a_bind a
  else if type_ s =? SOCK_TYPE_UDP then fd
  else if a_listen a =? 0 then fd
  else -1.

(** The listening sockets of [init]; [None] when one cannot be made. *)
Fixpoint create_socks (l : list (TSockBind * sock_answers)) (m : gmap Z TSockBind) : option (gmap Z TSockBind) :=
  match l with
  | [] => Some m
  | (s, a) :: l => let fd := create_sock s a in if fd <? 0 then None else create_socks l (<[fd := s]> m)
  end.

(** [TSockCommuConf]. *)
Record TSockCommuConf := mkConf {
  c_sockbind : list (TSockBind * sock_answers);
  c_maxconn : Z;
  c_maxpkg : Z;
  c_expiretime : Z;
  c_udpautoclose : bool;
  c_sendcache_limit : Z
}.

(** [CTSockCommu::init] of a new object. *)
Definition init (conf : TSockCommuConf) (e : E) : Z * option W :=
  if (c_maxconn conf <=? 0) || (c_maxpkg conf <? 0) || (c_expiretime conf <? 0) then (-1, None)
  else match create_socks (c_sockbind conf) ∅ with
  | None => (-2, None)
  | Some binds =>
      let w := mkCommu (CConnSet_new (c_maxconn conf)) binds (c_expiretime conf) 0 (c_sendcache_limit conf)
                 (c_udpautoclose conf) 0 ∅ ∅ [] e in
      let w := foldl (fun w '(fd, b) =>
                 if (type_ b =? SOCK_TYPE_TCP) || (type_ b =? SOCK_TYPE_UNIX) || (type_ b =? SOCK_TYPE_UDP)
                 then (epoll_add fd 0 EPOLLIN w).2 else w) w (map_to_list binds) in
      let '(t, w) := now w in
      (0, Some (set_lastcheck t w))
  end.
End commu.
