(* ===== verification/SockInv.v ===== *)
(** * The proxy keeps its connections, its descriptors and its epoll set in step

    The invariant of [SockCommu]'s state, and that accepting, sending, receiving,
    closing and the event loop keep it, whatever the kernel, the clients and the
    callbacks do within their contracts ([NetLaws], [CallbackLaws]). *)

From Stdlib Require Import ZArith Lia.
From stdpp Require Import base list option gmap.
From S2P Require Import Prelude Bytes RawCache ConnSet SockCommu.

(** ** The invariant *)

(** What is asked of the kernel. *)
Class NetLaws {E} (net : Net E) : Prop := {
  law_accept : forall fd used e, let r := (net_accept fd used e).1 in
    r.1 < 0 /\ 0 <= r.2 \/ 0 <= r.1 < 2 ^ 31 /\ r.1 ∉ used;
  law_recv : forall fd e, let '(bytes, errno, d) := (net_recv fd e).1 in
    0 <= errno /\ -1 <= bytes <= C_READ_BUFFER_SIZE /\ bytes <= blen d;
  law_send : forall fd d e, kernel_ok (blen d) (net_send fd d e).1;
  law_ctl : forall fd e, 0 <= (net_ctl fd e).1;
  law_wait : forall ep e, NoDup (net_wait ep e).1.*1 /\
    forall ev, ev ∈ (net_wait ep e).1 -> exists fd flags, ep !! fd = Some (ev.1, flags);
  law_malloc : malloc_ok net_malloc
}.

Section inv.
Context {E : Type} {net : Net E} {laws : NetLaws net}.
#[local] Abbreviation W := (commu E).

(** The descriptor and the type of an open connection. *)
Definition ident (w : W) (f : Z) : option (Z * Z) := (fun c => (_fd c, _type c)) <$> conn_of (connset_ w) f.

(** Flow [f] is open on the descriptor [fd] of its own. *)
Definition tcp (w : W) (f fd : Z) : Prop := exists ty, ident w f = Some (fd, ty) /\ ty <> UDP_SOCKET.

(** [f] has data to send. *)
Definition pending (w : W) (f : Z) : Prop := exists c, conn_of (connset_ w) f = Some c /\ contents (_w c) <> [].

Definition registered (w : W) (f fd : Z) : Prop :=
  exists ev, epoll w !! fd = Some (ev_data fd f, ev) /\ Z.land ev EPOLLIN <> 0 /\ (pending w f -> Z.land ev EPOLLOUT <> 0).

(** Flow [x] is under construction: it need not be registered. *)
Record commu_ok (x : option Z) (w : W) : Prop := {
  ok_set : cs_ok (connset_ w);
  ok_flow : 0 <= flow_ w < MAX_FLOW_NUM;
  ok_clients : forall fd, fd ∈ clients w <-> exists f, tcp w f fd;
  ok_unique : forall f g fd, tcp w f fd -> tcp w g fd -> f = g;
  ok_fd : forall fd, fd ∈ clients w -> sockbind_ w !! fd = None /\ 0 <= fd < 2 ^ 31;
  ok_epoll : forall fd d ev, epoll w !! fd = Some (d, ev) ->
    0 <= fd < 2 ^ 31 /\ (fd ∉ clients w /\ d = ev_data fd 0 \/ exists f, tcp w f fd /\ d = ev_data fd f);
  ok_reg : forall f fd, Some f <> x -> tcp w f fd -> registered w f fd
}.

(** From [w] to [w'] only flow [f] may have been closed. *)
Record local (f : Z) (w w' : W) : Prop := {
  loc_bind : sockbind_ w' = sockbind_ w;
  loc_other : forall g, g <> f -> ident w' g = ident w g;
  loc_this : ident w' f = ident w f \/ ident w' f = None
}.

Lemma local_refl f w : local f w w.
Proof. split; auto. Qed.

Lemma local_trans f w1 w2 w3 : local f w1 w2 -> local f w2 w3 -> local f w1 w3.
Proof.
  intros [H1 H2 H3] [H4 H5 H6]. split; [congruence|intros g Hg; rewrite H5, H2; done|].
  destruct H6 as [->|]; tauto.
Qed.

(** Only the environment, the clock and the trace differ. *)
Record same (w w' : W) : Prop := {
  same_set : connset_ w' = connset_ w;
  same_bind : sockbind_ w' = sockbind_ w;
  same_flow : flow_ w' = flow_ w;
  same_clients : clients w' = clients w;
  same_epoll : epoll w' = epoll w
}.

Lemma same_ok x w w' : same w w' -> commu_ok x w -> commu_ok x w'.
Proof.
  intros [E1 E2 E3 E4 E5] [? ? ? ? ? ? ?].
  split; unfold registered, pending, tcp, ident in *; rewrite ?E1, ?E2, ?E3, ?E4, ?E5; done.
Qed.

Lemma same_local f w w' : same w w' -> local f w w'.
Proof. intros [E1 E2 _ _ _]. split; unfold ident; rewrite ?E1, ?E2; auto. Qed.

(** Flow numbers stay in range. *)
Lemma ok_flow_range x w f : commu_ok x w -> is_Some (ident w f) -> 0 < f < MAX_FLOW_NUM.
Proof.
  intros Hw [[fd ty] H]. unfold ident in H. apply fmap_Some in H as (c & Hc & _).
  apply conn_of_slot in Hc as (Hs & Hf & Hn). pose proof (cs_conn _ (ok_set _ _ Hw) _ _ Hs) as (Hr & _). lia.
Qed.

Lemma ident_tcp w f c : conn_of (connset_ w) f = Some c -> _type c <> UDP_SOCKET -> tcp w f (_fd c).
Proof. intros H Ht. exists (_type c). unfold ident. by rewrite H. Qed.

(** When every flow keeps its descriptor and its type, only the registrations have
    to be looked at. *)
Lemma ident_ok x y w w' : commu_ok x w -> cs_ok (connset_ w') -> 0 <= flow_ w' < MAX_FLOW_NUM ->
  sockbind_ w' = sockbind_ w -> clients w' = clients w -> (forall g, ident w' g = ident w g) ->
  (forall fd d ev, epoll w' !! fd = Some (d, ev) -> (exists ev', epoll w !! fd = Some (d, ev')) \/
     exists f, tcp w f fd /\ d = ev_data fd f) ->
  (forall f fd, Some f <> y -> tcp w f fd -> registered w' f fd) -> commu_ok y w'.
Proof.
  intros Hw Hs Hf Hb Hc Hi He Hr. assert (forall f fd, tcp w' f fd <-> tcp w f fd) as Ht by (intros; unfold tcp; by rewrite Hi).
  split; rewrite ?Hb, ?Hc; try done.
  - intros fd. rewrite (ok_clients _ _ Hw). by setoid_rewrite Ht.
  - intros f g fd H1%Ht H2%Ht. by eapply ok_unique.
  - apply Hw.
  - intros fd d ev H. setoid_rewrite Ht. destruct (He _ _ _ H) as [[ev' H']|(f & H1 & H2)]; [by eapply ok_epoll|].
    split; [|eauto]. assert (fd ∈ clients w) as Hin by (apply (ok_clients _ _ Hw); eauto). by apply (ok_fd _ _ Hw).
  - intros f fd Hn H%Ht. by apply Hr.
Qed.

(** ** One connection changes *)

Lemma set_conn_ident w f s' c c' : conn_of (connset_ w) f = Some c -> conn_of s' f = Some c' ->
  _fd c' = _fd c -> _type c' = _type c -> (forall g, g <> f -> conn_of s' g = conn_of (connset_ w) g) ->
  forall g, ident (set_connset s' w) g = ident w g.
Proof.
  intros H1 H2 H3 H4 Ho g. unfold ident. cbn. destruct (decide (g = f)) as [->|Hg]; [|by rewrite Ho].
  rewrite H1, H2. cbn. congruence.
Qed.

(** The caches of flow [f] are replaced: it may need another registration. *)
Lemma set_conn_ok x w f s' c c' : commu_ok x w -> x = None \/ x = Some f -> conn_of (connset_ w) f = Some c ->
  cs_ok s' -> conn_of s' f = Some c' -> _fd c' = _fd c -> _type c' = _type c ->
  (forall g, g <> f -> conn_of s' g = conn_of (connset_ w) g) ->
  commu_ok (Some f) (set_connset s' w) /\ local f w (set_connset s' w).
Proof.
  intros Hw Hx H1 Hs H2 H3 H4 Ho. pose proof (set_conn_ident w f s' c c' H1 H2 H3 H4 Ho) as Hi. split.
  - apply (ident_ok x (Some f) w); try done; [apply Hw|intros; left; eauto|].
    intros g fd Hg Ht. destruct (ok_reg _ _ Hw g fd) as (ev & He & Hin & Hp); [destruct Hx as [-> | ->]; congruence|done|].
    exists ev. split; [done|]. split; [done|]. intros (d & Hd & Hne). apply Hp. exists d. cbn in Hd.
    rewrite Ho in Hd by congruence. done.
  - split; [done|by intros; rewrite Hi|by left].
Qed.

(** The construction of flow [f] ends. *)
Lemma settle x f w : commu_ok x w -> x = None \/ x = Some f -> (forall fd, tcp w f fd -> registered w f fd) -> commu_ok None w.
Proof.
  intros Hw Hx Hr. split; try apply Hw. intros g fd _ Ht. destruct (decide (g = f)) as [->|Hg]; [by apply Hr|].
  apply (ok_reg _ _ Hw); [|done]. destruct Hx as [-> | ->]; congruence.
Qed.

(** The caches of flow [f] are replaced, with nothing new to send. *)
Lemma set_conn_quiet w f s' c c' : commu_ok None w -> conn_of (connset_ w) f = Some c ->
  cs_ok s' -> conn_of s' f = Some c' -> _fd c' = _fd c -> _type c' = _type c ->
  (forall g, g <> f -> conn_of s' g = conn_of (connset_ w) g) ->
  (contents (_w c') <> [] -> contents (_w c) <> []) ->
  commu_ok None (set_connset s' w) /\ local f w (set_connset s' w).
Proof.
  intros Hw H1 Hs H2 H3 H4 Ho Hq. destruct (set_conn_ok None w f s' c c') as [Hok Hl]; try done; [by left|].
  split; [|done]. apply (settle (Some f) f); [done|by right|]. intros fd Ht.
  assert (tcp w f fd) as Ht' by (unfold tcp in *; by rewrite <- (set_conn_ident w f s' c c')).
  destruct (ok_reg _ _ Hw f fd) as (ev & He & Hin & Hp); [done|done|]. exists ev. split; [done|]. split; [done|].
  intros (d & Hd & Hne). apply Hp. exists c. cbn in Hd. rewrite H2 in Hd. injection Hd as <-. auto.
Qed.

(** Closing a connection: [s'] is the set without flow [f]. *)
Section closing.
Context (x : option Z) (f : Z) (w : W) (c : ConnCache) (s' : CConnSet).
Context (Hw : commu_ok x w) (Hx : x = None \/ x = Some f) (Hc : conn_of (connset_ w) f = Some c) (Hs' : cs_ok s').
Context (Hn : conn_of s' f = None) (Ho : forall g, g <> f -> conn_of s' g = conn_of (connset_ w) g).

Lemma closing_local w' : connset_ w' = s' -> sockbind_ w' = sockbind_ w -> local f w w' /\ ident w' f = None.
Proof.
  intros E1 E2. assert (ident w' f = None) as Hi by (unfold ident; by rewrite E1, Hn). split; [|done].
  split; [done| |by right]. intros g Hg. unfold ident. by rewrite E1, Ho.
Qed.

Lemma closing_tcp w' : connset_ w' = s' -> forall g fd, tcp w' g fd <-> tcp w g fd /\ g <> f.
Proof.
  intros E1 g fd. unfold tcp, ident. rewrite E1. destruct (decide (g = f)) as [->|Hg]; [rewrite Hn; naive_solver|].
  rewrite Ho by done. naive_solver.
Qed.

Lemma closing_reg w' g fd : connset_ w' = s' -> tcp w g fd -> g <> f -> epoll w' !! fd = epoll w !! fd -> registered w' g fd.
Proof.
  intros E1 Hg Hgf E2. destruct (ok_reg _ _ Hw g fd) as (ev & He & Hin & Hp); [destruct Hx as [-> | ->]; congruence|done|].
  exists ev. rewrite E2. split; [done|]. split; [done|]. intros (d & Hd & Hne). apply Hp. exists d. rewrite E1, Ho in Hd; done.
Qed.

Lemma closing_udp : _type c = UDP_SOCKET -> commu_ok None (set_connset s' w).
Proof.
  intros Hu. assert (forall fd, ~ tcp w f fd) as Hnt
    by (intros fd (ty & H & Hty); unfold ident in H; rewrite Hc in H; cbn in H; congruence).
  assert (forall g fd, tcp (set_connset s' w) g fd <-> tcp w g fd) as Ht.
  { intros g fd. rewrite (closing_tcp (set_connset s' w)) by done. split; [naive_solver|]. intros H. split; [done|]. intros ->. by apply Hnt in H. }
  pose proof closing_reg as Hreg. destruct Hw as [K1 K2 K3 K4 K5 K6 K7]. split; cbn; try done; setoid_rewrite Ht; try done.
  intros g fd _ Hg. apply Hreg; try done. intros ->. by apply Hnt in Hg.
Qed.

Lemma closing_tcp_ok : _type c <> UDP_SOCKET -> commu_ok None (close_fd (_fd c) (set_connset s' w)).
Proof.
  intros Hu. assert (tcp w f (_fd c)) as Hfc by (by apply ident_tcp).
  assert (forall g fd, tcp w g fd -> g <> f -> fd <> _fd c) as Hne by (intros g fd Hg Hgf ->; apply Hgf; by eapply ok_unique).
  assert (forall fd, tcp w f fd -> fd = _fd c) as Hsame by (intros fd (ty & Hg & _); destruct Hfc as (ty' & Hg' & _); congruence).
  pose proof closing_reg as Hreg. set (w' := close_fd _ _). pose proof (closing_tcp w' eq_refl) as Ht.
  destruct Hw as [K1 K2 K3 K4 K5 K6 K7]. split; try done.
  - intros fd. cbn. rewrite elem_of_difference, not_elem_of_singleton, K3. setoid_rewrite Ht. split.
    + intros [[g Hg] Hd]. exists g. split; [done|]. intros ->. by apply Hd, Hsame.
    + intros (g & Hg & Hgf). split; [by exists g|]. by eapply Hne.
  - intros g h fd. rewrite !Ht. intros [? _] [? _]. by eapply K4.
  - intros fd. cbn. rewrite elem_of_difference. intros [? _]. by apply K5.
  - intros fd d ev. cbn. rewrite lookup_delete_Some. intros [Hd H]. destruct (K6 _ _ _ H) as [Hr [[Hin ->]|(g & Hg & ->)]].
    + split; [done|]. left. split; [|done]. set_solver.
    + split; [done|]. right. exists g. rewrite Ht. split; [|done]. split; [done|]. intros ->. by apply Hd; rewrite (Hsame fd).
  - intros g fd _ [Hg Hgf]%Ht. apply Hreg; try done. cbn. apply lookup_delete_ne. pose proof (Hne _ _ Hg Hgf). congruence.
Qed.
End closing.

Lemma do_close_ok x f w : commu_ok x w -> x = None \/ x = Some f ->
  exists w', do_close f w = Done w' /\ commu_ok None w' /\ local f w w' /\ ident w' f = None /\
    (forall fd, tcp w f fd -> epoll w' !! fd = None).
Proof.
  intros Hw Hx. unfold do_close. destruct (conn_of (connset_ w) f) as [c|] eqn:Hc.
  2: { destruct (stale_flow _ (ok_set _ _ Hw) f net_malloc Hc) as (_ & -> & _). cbn [obind].
    assert (ident w f = None) as Hi by (unfold ident; by rewrite Hc).
    assert (forall fd, ~ tcp w f fd) as Hnt by (intros fd (ty & H & _); congruence).
    eexists. split; [done|]. split; [|split; [by apply same_local|split; [done|naive_solver]]].
    apply (same_ok None w); [done|]. apply (settle x f w Hw Hx). naive_solver. }
  destruct (closeconn_open _ (ok_set _ _ Hw) f c Hc) as (s' & -> & Hs' & Hn & Ho & _). cbn [obind].
  destruct (Z.eqb_spec (_type c) UDP_SOCKET) as [Hu|Hu]; cbn [negb]; eexists; (split; [done|]).
  - destruct (closing_local f w s' Hn Ho (set_connset s' w)) as [H1 H2]; [done..|].
    split; [by apply (closing_udp x f w c)|]. split; [done|]. split; [done|].
    intros fd (ty & H & Hty). unfold ident in H. rewrite Hc in H. cbn in H. congruence.
  - destruct (closing_local f w s' Hn Ho (close_fd (_fd c) (set_connset s' w))) as [H1 H2]; [done..|].
    split; [by apply (closing_tcp_ok x f w c)|]. split; [done|]. split; [done|].
    intros fd (ty & H & Hty). unfold ident in H. rewrite Hc in H. injection H as <- _. cbn. apply lookup_delete_eq.
Qed.

(** ** Receiving and sending *)

Lemma do_recv_ok f w : commu_ok None w ->
  exists r w', do_recv f w = Done (r, w') /\ commu_ok None w' /\ local f w w' /\ flow_ w' = flow_ w /\
    (ident w f = None -> r = Some (- E_NOT_FINDFD)).
Proof.
  intros Hw. pose proof (ok_set _ _ Hw) as Hs. unfold do_recv.
  destruct (getcc_ok _ Hs f) as (c0 & E0 & Hc0 & _ & Hop). rewrite E0. cbn [obind]. unfold now.
  destruct (net_time (env w)) as [t e1]. cbn [env set_env].
  pose proof (law_recv (_fd c0) e1) as Hl. destruct (net_recv (_fd c0) e1) as [[[bytes errno] d] e2]. cbn in Hl.
  cbn [connset_ set_env]. set (w1 := set_env e2 (set_env e1 w)).
  assert (same w w1) as Hsm by done. pose proof (same_ok _ _ _ Hsm Hw) as Hw1. pose proof (same_local f _ _ Hsm) as Hl1.
  destruct (conn_of (connset_ w) f) as [c|] eqn:Hc.
  2: { destruct (stale_flow _ Hs f net_malloc Hc) as (_ & _ & _ & _ & ->). cbn [obind]. eexists _, _. split; [done|]. split; [done|].
    split; [done|]. done. }
  destruct Hl as (L1 & L2 & L3). destruct (conn_recv_spec _ Hs net_malloc law_malloc f c Hc t bytes errno d L1 L2 L3)
    as (r & rd & -> & Hrd & _ & _ & _).
  destruct (with_r_ok _ Hs f c Hc t rd Hrd) as (H1 & H2 & H3). cbn [obind]. eexists _, _. split; [done|].
  destruct (set_conn_quiet w1 f (with_r (connset_ w) f c t rd) c _ Hw1 Hc H1 H2) as [H4 H5]; [done..|].
  split; [done|]. split; [by eapply local_trans|]. split; [done|]. unfold ident. by rewrite Hc.
Qed.

Lemma do_send_ok f d w : commu_ok None w -> blen d < 2 ^ 31 ->
  exists r w', do_send f d w = Done (r, w') /\ commu_ok (Some f) w' /\ local f w w' /\ ident w' f = ident w f /\
    epoll w' = epoll w /\ (forall v, r = Some v -> v = - E_NEED_CLOSE \/
      v = - E_NOT_FINDFD /\ ident w f = None \/ 0 <= v <= blen d /\ is_Some (ident w f) /\ (v = blen d -> d <> [] -> ~ pending w' f)).
Proof.
  intros Hw Hd. pose proof (ok_set _ _ Hw) as Hs. unfold do_send.
  destruct (getcc_ok _ Hs f) as (c0 & E0 & Hc0 & _ & Hop). rewrite E0. cbn [obind]. unfold now.
  destruct (net_time (env w)) as [t e1]. cbn [env set_env].
  pose proof (law_send (_fd c0) (contents (_w c0)) e1) as L1. destruct (net_send (_fd c0) (contents (_w c0)) e1) as [k1 e2].
  pose proof (law_send (_fd c0) d e2) as L2. destruct (net_send (_fd c0) d e2) as [k2 e3]. cbn [fst] in L1, L2.
  cbn [connset_ set_env]. set (w1 := set_env e3 (set_env e1 w)).
  assert (same w w1) as Hsm by done. pose proof (same_ok _ _ _ Hsm Hw) as Hw1. pose proof (same_local f _ _ Hsm) as Hl1.
  destruct (conn_of (connset_ w) f) as [c|] eqn:Hc.
  2: { destruct (stale_flow _ Hs f net_malloc Hc) as (_ & _ & _ & -> & _). cbn [obind]. eexists _, _. split; [done|].
    assert (ident w f = None) as Hi by (unfold ident; by rewrite Hc). split; [|split; [by apply same_local|split; [done|split; [done|naive_solver]]]].
    apply (same_ok _ w); [done|]. split; try apply Hw. intros; by apply (ok_reg _ _ Hw). }
  assert (c0 = c) as -> by (pose proof (conn_of_slot _ _ _ Hc) as (Es & _); unfold getcc in E0; rewrite Es in E0; by injection E0).
  rewrite (contents_len (_w c)) in L1 by apply Hc0.
  destruct (conn_send_spec _ Hs net_malloc law_malloc f c Hc d t k1 k2 Hd L1 L2) as (r & out & wc & -> & Hwc & _ & Hp).
  destruct (with_w_ok _ Hs f c Hc t wc Hwc) as (H1 & H2 & H3). cbn [obind]. eexists _, _. split; [done|].
  destruct (set_conn_ok None w1 f (with_w (connset_ w) f c t wc) c _ Hw1 (or_introl eq_refl) Hc H1 H2) as [H4 H5]; [done..|].
  assert (ident (add_wire (_fd c) out (set_connset (with_w (connset_ w) f c t wc) w1)) f = ident w f) as Hid.
  { by apply (set_conn_ident w f (with_w (connset_ w) f c t wc) c _ Hc H2). }
  split; [by apply (same_ok _ (set_connset (with_w (connset_ w) f c t wc) w1))|]. split; [|split; [done|split; [done|]]].
  { eapply local_trans; [exact Hl1|]. eapply local_trans; [exact H5|]. by apply same_local. }
  intros v ->. destruct Hp as [(V1 & V2 & _)|[-> _]]; [|by left]. right. right. split; [done|].
  split; [unfold ident; by rewrite Hc|]. intros Hv Hn (c' & Hc' & Hne). cbn in Hc'. rewrite H2 in Hc'. injection Hc' as <-.
  by apply Hne, V2.
Qed.

Lemma do_sendfromcache_ok f w : commu_ok None w ->
  exists r w', do_sendfromcache f w = Done (r, w') /\ commu_ok None w' /\ local f w w' /\ ident w' f = ident w f /\
    (r = 0 -> ~ pending w' f) /\ (r = - E_NOT_FINDFD \/ r = - E_NEED_CLOSE \/ 0 <= r).
Proof.
  intros Hw. pose proof (ok_set _ _ Hw) as Hs. unfold do_sendfromcache.
  destruct (getcc_ok _ Hs f) as (c0 & E0 & Hc0 & _ & Hop). rewrite E0. cbn [obind]. unfold now.
  destruct (net_time (env w)) as [t e1]. cbn [env set_env].
  pose proof (law_send (_fd c0) (contents (_w c0)) e1) as L1. destruct (net_send (_fd c0) (contents (_w c0)) e1) as [k1 e2].
  cbn [fst] in L1. cbn [connset_ set_env]. set (w1 := set_env e2 (set_env e1 w)).
  assert (same w w1) as Hsm by done. pose proof (same_ok _ _ _ Hsm Hw) as Hw1. pose proof (same_local f _ _ Hsm) as Hl1.
  destruct (conn_of (connset_ w) f) as [c|] eqn:Hc.
  2: { destruct (stale_flow _ Hs f net_malloc Hc) as (_ & _ & -> & _). cbn [obind]. eexists _, _. split; [done|].
    split; [by apply (same_ok _ w)|]. split; [by apply same_local|]. split; [done|]. split; [done|]. by left. }
  assert (c0 = c) as -> by (pose proof (conn_of_slot _ _ _ Hc) as (Es & _); unfold getcc in E0; rewrite Es in E0; by injection E0).
  rewrite (contents_len (_w c)) in L1 by apply Hc0.
  destruct (sendfromcache_spec _ Hs f c Hc t k1 L1) as (r & out & wc & -> & Hwc & _ & Ho & Hr & Hp).
  destruct (with_w_ok _ Hs f c Hc t wc Hwc) as (H1 & H2 & H3). cbn [obind]. eexists _, _. split; [done|].
  destruct (set_conn_quiet w1 f (with_w (connset_ w) f c t wc) c _ Hw1 Hc H1 H2) as [H4 H5]; [done..| |].
  { cbn. intros Hn He. apply Hn. rewrite He in Ho. by apply app_eq_nil in Ho as [_ ?]. }
  split; [by apply (same_ok _ (set_connset (with_w (connset_ w) f c t wc) w1))|]. split; [|split; [|split]].
  - eapply local_trans; [exact Hl1|]. eapply local_trans; [exact H5|]. by apply same_local.
  - by apply (set_conn_ident w f (with_w (connset_ w) f c t wc) c _ Hc H2).
  - intros Hz (c' & Hc' & Hne). cbn in Hc'. rewrite H2 in Hc'. injection Hc' as <-. by apply Hne, Hr.
  - tauto.
Qed.

(** Registering flow [f] again, with the events it needs. *)
Lemma epoll_modify_ok x f fd flag w : commu_ok x w -> x = None \/ x = Some f -> tcp w f fd -> is_Some (epoll w !! fd) ->
  Z.land flag EPOLLIN <> 0 -> (pending w f -> Z.land flag EPOLLOUT <> 0) ->
  commu_ok None (epoll_modify fd f flag w).2 /\ local f w (epoll_modify fd f flag w).2.
Proof.
  intros Hw Hx Ht [v Hv] H1 H2. unfold epoll_modify. rewrite Hv. cbn [snd]. split; [|split; auto].
  assert (registered (set_fds (clients w) (<[fd:=(ev_data fd f, flag)]> (epoll w)) w) f fd) as Hreg.
  { exists flag. cbn. rewrite lookup_insert_eq. done. }
  apply (ident_ok x None w); try done; [apply Hw|apply Hw| |].
  - intros fd' d ev. cbn. rewrite lookup_insert_Some. intros [[<- [= <- <-]]|[_ H]]; [right; eauto|left; eauto].
  - intros g fd' _ Hg. destruct (decide (g = f)) as [->|Hgf].
    + destruct Hg as (ty & Hg & _), Ht as (ty' & Ht & _). rewrite Hg in Ht. injection Ht as -> _. done.
    + destruct (ok_reg _ _ Hw g fd') as (ev & He & Hin & Hp); [destruct Hx as [-> | ->]; congruence|done|].
      exists ev. cbn. rewrite lookup_insert_ne; [done|]. intros ->. apply Hgf. by eapply (ok_unique _ _ Hw).
Qed.

(** The caches in the slot of a flow change, whoever has the slot. *)
Lemma slot_put_ok f c c' w : commu_ok None w -> getcc (connset_ w) f = Done c ->
  _flow c' = _flow c -> _fd c' = _fd c -> _type c' = _type c -> rc_ok (_r c') -> rc_ok (_w c') ->
  contents (_w c') = contents (_w c) ->
  (_flow c = 0 -> contents (_r c') = [] /\ _fin_bit (_w c') = false) ->
  commu_ok None (set_connset (putcc (connset_ w) f c') w) /\ local f w (set_connset (putcc (connset_ w) f c') w).
Proof.
  intros Hw Hg H1 H2 H3 H4 H5 H6 H7. pose proof (ok_set _ _ Hw) as Hs. set (s := connset_ w) in *.
  assert (ccs s !! slot s f = Some c) as Es by (by apply getcc_slot).
  pose proof (cs_conn _ Hs  _ _ Es) as (K1 & K2 & K3 & K4 & K5).
  destruct (decide (_flow c = 0)) as [Hz|Hnz].
  - destruct (K5 Hz) as (K6 & K7 & K8). destruct (H7 Hz) as [H8 H9].
    assert (cs_ok (putcc s f c')) as Hs'.
    { apply (putcc_same s Hs f c); [done| |by rewrite H1]. unfold conn_ok. rewrite H1, H6. split_and!; try done; lia. }
    assert (forall g, conn_of (putcc s f c') g = conn_of s g) as Hsame.
    { intros g. destruct (decide (slot s g = slot s f)) as [Hsl|Hsl]; [|by apply putcc_other].
      unfold conn_of, putcc. cbn. change (slot (mkCS _ _ _) g) with (slot s g). rewrite Hsl, Es.
      rewrite list_lookup_insert_eq by (by apply slot_lt). cbn. rewrite H1, Hz. rewrite !decide_False by naive_solver. done. }
    assert (forall g, ident (set_connset (putcc s f c') w) g = ident w g) as Hid by (intros g; unfold ident; cbn; by rewrite Hsame).
    split; [|split; [done|by intros; rewrite Hid|by left]].
    apply (ident_ok None None w); try done; [apply Hw|intros; left; eauto|]. intros g fd _ Ht.
    destruct (ok_reg _ _ Hw g fd) as (ev & He & Hin & Hp); [done|done|]. exists ev. split; [done|]. split; [done|].
    intros (d & Hd & Hne). apply Hp. exists d. cbn in Hd. by rewrite Hsame in Hd.
  - set (g := _flow c) in *. assert (slot s g = slot s f) as Hsl by (unfold slot; by rewrite (K2 Hnz)).
    assert (conn_of s g = Some c) as Hc by (unfold conn_of; rewrite Hsl, Es; cbn; by rewrite decide_True).
    assert (putcc s f c' = putcc s g c') as -> by (unfold putcc; by rewrite Hsl).
    destruct (put_open s Hs g c c' Hc H1 H4 H5) as (P1 & P2 & P3).
    destruct (set_conn_quiet w g (putcc s g c') c c' Hw Hc P1 P2) as [Q1 Q2]; [done|done|done|by rewrite H6|]. split; [done|].
    pose proof (set_conn_ident w g (putcc s g c') c c' Hc P2 H2 H3 P3) as Hid. split; [done|intros; apply Hid|left; apply Hid].
Qed.

(** ** Callbacks *)

(** What is asked of the callbacks: they keep the invariant and close at most the
    connection they are called for; the one for a new connection does not use the
    connections at all. *)
Class CallbackLaws (fl : cb_type -> option (callback (E := E))) : Prop := {
  cb_ok : forall cb h f b w, fl cb = Some h -> commu_ok None w ->
    exists r w', h f b w = Done (r, w') /\ commu_ok None w' /\ local f w w';
  cb_connected : forall h f b w, fl CB_CONNECTED = Some h -> exists r e, h f b w = Done (r, set_env e w)
}.

(** The one for received data must be there. *)
Class HasRecvData (fl : cb_type -> option (callback (E := E))) : Prop := cb_recvdata : is_Some (fl CB_RECVDATA).

Context {fl : cb_type -> option (callback (E := E))} {cbs : CallbackLaws fl} {recv : HasRecvData fl}.

Lemma call_if_ok cb f b w : commu_ok None w ->
  exists r w', call_if fl cb f b w = Done (r, w') /\ commu_ok None w' /\ local f w w'.
Proof.
  intros Hw. unfold call_if. destruct (fl cb) as [h|] eqn:Eh; [by eapply cb_ok|].
  exists 0, w. split; [done|]. split; [done|apply local_refl].
Qed.

Lemma call_recvdata_ok f b w : commu_ok None w ->
  exists r w', call fl CB_RECVDATA f b w = Done (r, w') /\ commu_ok None w' /\ local f w w'.
Proof. intros Hw. unfold call. destruct cb_recvdata as [h Eh]. rewrite Eh. by eapply cb_ok. Qed.

Lemma call_connected_ok f b w : exists r e, call_if fl CB_CONNECTED f b w = Done (r, set_env e w).
Proof. unfold call_if. destruct (fl CB_CONNECTED) eqn:Eh; [by eapply cb_connected|]. exists 0, (env w). by destruct w. Qed.

Lemma close_tail f w0 w (r : Z) : commu_ok None w -> local f w0 w ->
  exists r' w', obind (do_close f w) (fun w => Done (r, w)) = Done (r', w') /\ commu_ok None w' /\ local f w0 w'.
Proof.
  intros Hw Hl. destruct (do_close_ok None f w Hw (or_introl eq_refl)) as (w' & -> & H1 & H2 & _).
  eexists _, _. split; [done|]. split; [done|by eapply local_trans].
Qed.

(** ** [sendto] *)

(** What [sendto] does after the send. *)
Lemma sendto_after f d r w0 w : commu_ok (Some f) w -> local f w0 w -> (d = [] -> ident w f = None) ->
  (forall fd, tcp w f fd -> exists ev, epoll w !! fd = Some (ev_data fd f, ev) /\ Z.land ev EPOLLIN <> 0) ->
  (forall v, r = Some v -> v = - E_NEED_CLOSE \/ v = - E_NOT_FINDFD /\ ident w f = None \/
     0 <= v <= blen d /\ is_Some (ident w f) /\ (v = blen d -> d <> [] -> ~ pending w f)) ->
  exists r' w', (let ret := default (- E_NEED_CLOSE) r in
    c ⇐ getcc (connset_ w) f;
    if 0 <=? ret then
      if ret <? blen d then
        if negb (_type c =? UDP_SOCKET) then
          Done (ret, (epoll_modify (_fd c) f (Z.lor (Z.lor EPOLLET EPOLLIN) EPOLLOUT) w).2)
        else w ⇐ do_close f w; Done (ret, w)
      else if negb (ret =? blen d) then Exited
      else
        '(_, w) ⇐ call_if fl CB_SENDDONE f d w;
        c ⇐ getcc (connset_ w) f;
        if (_type c =? UDP_SOCKET) && udpautoclose_ w then w ⇐ do_close f w; Done (ret, w)
        else Done (ret, w)
    else if ret =? - E_NEED_CLOSE then w ⇐ do_close f w; Done (ret, w)
    else Done (ret, w)) = Done (r', w') /\ commu_ok None w' /\ local f w0 w'.
Proof.
  intros Hw Hl Hd Hreg Hr. pose proof (ok_set _ _ Hw) as Hs. destruct (getcc_ok _ Hs f) as (c & Ec & _ & Hiff & Hop).
  assert (forall r : Z, exists r' w', obind (do_close f w) (fun w => Done (r, w)) = Done (r', w') /\ commu_ok None w' /\ local f w0 w') as Hclose.
  { intros r0. destruct (do_close_ok (Some f) f w Hw (or_intror eq_refl)) as (w' & -> & H1 & H2 & _).
    eexists _, _. split; [done|]. split; [done|by eapply local_trans]. }
  assert (is_Some (ident w f) -> conn_of (connset_ w) f = Some c) as Hopen.
  { intros Hi. apply Hop, Hiff. unfold ident in Hi. by rewrite fmap_is_Some in Hi. }
  cbv zeta. rewrite Ec. cbn [obind].
  destruct r as [v|]; [change (default (- E_NEED_CLOSE) (Some v)) with v|apply Hclose].
  destruct (Hr v eq_refl) as [-> |[[-> Hn]|(Hv & Hi & Hp)]]; [apply Hclose| |].
  { cbn. eexists _, _. split; [done|]. split; [|done]. apply (settle (Some f) f w Hw); [by right|]. intros fd (ty & H & _). congruence. }
  rewrite (proj2 (Z.leb_le 0 v)) by lia. pose proof (Hopen Hi) as Hc.
  assert (_type c <> UDP_SOCKET -> tcp w f (_fd c)) as Htcp by (by apply ident_tcp).
  destruct (Z.ltb_spec v (blen d)) as [Hlt|Hge].
  - destruct (Z.eqb_spec (_type c) UDP_SOCKET) as [Hu|Hu]; cbn [negb]; [apply Hclose|].
    eexists _, _. split; [done|]. destruct (Hreg _ (Htcp Hu)) as (ev & He & _).
    destruct (epoll_modify_ok (Some f) f (_fd c) (Z.lor (Z.lor EPOLLET EPOLLIN) EPOLLOUT) w Hw) as [H1 H2];
      [by right|by apply Htcp|by rewrite He|done|done|]. split; [done|by eapply local_trans].
  - assert (v = blen d) as -> by lia. rewrite Z.eqb_refl. cbn [negb].
    assert (d <> []) as Hne by (intros ->; rewrite Hd in Hi by done; by destruct Hi).
    assert (commu_ok None w) as Hw'.
    { apply (settle (Some f) f w Hw); [by right|]. intros fd Ht. destruct (Hreg fd Ht) as (ev & He & Hin). exists ev.
      split; [done|]. split; [done|]. intros Hpe. by destruct (Hp eq_refl Hne). }
    destruct (call_if_ok CB_SENDDONE f d w Hw') as (z & w2 & -> & Hw2 & Hl2). cbn [obind].
    destruct (getcc_ok _ (ok_set _ _ Hw2) f) as (c2 & -> & _). cbn [obind].
    destruct (_ && _); [apply close_tail; [done|by eapply local_trans]|]. eexists _, _. split; [done|]. split; [done|by eapply local_trans].
Qed.

Lemma sendto_ok f d w : commu_ok None w -> blen d < 2 ^ 31 ->
  exists r w', sendto fl f d w = Done (r, w') /\ commu_ok None w' /\ local f w w'.
Proof.
  intros Hw Hd. pose proof (ok_set _ _ Hw) as Hs. unfold sendto.
  destruct (getcc_ok _ Hs f) as (c0 & E0 & Hc0 & _ & Hop). rewrite E0. cbn [obind].
  destruct Hc0 as (K1 & K2 & K3 & K4 & K5).
  destruct ((blen d =? 0) && (0 <? f)) eqn:Hb.
  - destruct (Z.ltb_spec 0 (data_len (_w c0))) as [Hp|Hp]; [|apply close_tail; [done|apply local_refl]].
    eexists _, _. split; [done|]. apply (slot_put_ok f c0); try done.
    intros Hz. destruct (K5 Hz) as (_ & Hn & _). pose proof (contents_len _ K4) as Hl. rewrite Hn in Hl. unfold data_len in Hp.
    unfold blen in Hl. cbn in Hl. lia.
  - destruct (check_over_sendcache_limit w c0); [apply close_tail; [done|apply local_refl]|].
    destruct (do_send_ok f d w Hw Hd) as (r & w1 & -> & Hw1 & Hl1 & Hi1 & He1 & Hr1). cbn [obind].
    apply sendto_after; try done; [| |by rewrite Hi1].
    + intros ->. cbn in Hb. destruct (ident w1 f) eqn:Hi; [|done]. apply Z.ltb_ge in Hb.
      destruct (ok_flow_range _ w1 f Hw1); [by rewrite Hi|lia].
    + intros fd Ht. rewrite He1. destruct (ok_reg _ _ Hw f fd) as (ev & He & Hin & _); [done| |by exists ev].
      unfold tcp in *. by rewrite <- Hi1.
Qed.

(** ** Accepting *)

(** Flows other than [f] that are open stay; new ones may appear. *)
Record others (f : Z) (w w' : W) : Prop := {
  oth_bind : sockbind_ w' = sockbind_ w;
  oth_open : forall g, g <> f -> is_Some (ident w g) -> ident w' g = ident w g
}.

Lemma local_others f w w' : local f w w' -> others f w w'.
Proof. intros [H1 H2 _]. split; auto. Qed.

Lemma others_refl f w : others f w w.
Proof. by split. Qed.

Lemma others_trans f w1 w2 w3 : others f w1 w2 -> others f w2 w3 -> others f w1 w3.
Proof. intros [H1 H2] [H3 H4]. split; [congruence|]. intros g Hg Hs. rewrite H4, H2; [done..|by rewrite H2]. Qed.

(** No flow is named 0, so [others 0] is all of them. *)
Lemma others_zero f (w w' : W) : others 0 w w' -> others f w w'.
Proof.
  intros [H1 H2]. split; [done|]. intros g _ Hs. apply H2; [|done]. intros ->. destruct Hs as [x Hx]. unfold ident in Hx.
  apply fmap_Some in Hx as (c & Hc & _). by apply conn_of_slot in Hc as (_ & _ & ?).
Qed.

Lemma set_flow_ok x f w : commu_ok x w -> 0 <= f < MAX_FLOW_NUM -> commu_ok x (set_flow f w).
Proof. intros Hw Hf. by split; try apply Hw. Qed.

Lemma bump_flow_range (w : W) : 0 <= flow_ w < MAX_FLOW_NUM -> 0 < flow_ (bump_flow w) < MAX_FLOW_NUM.
Proof.
  unfold bump_flow, MAX_FLOW_NUM. cbn [flow_ set_flow]. intros H. rewrite u32_small by (unfold in_u32; lia).
  destruct (Z.leb_spec 0x7FFFFFFF (flow_ w + 1)); lia.
Qed.

(** The outcome of [addconn]. *)
Record added (fd type : Z) (w w' : W) : Prop := {
  ad_set : cs_ok (connset_ w');
  ad_flow : 0 < flow_ w' < MAX_FLOW_NUM;
  ad_rest : sockbind_ w' = sockbind_ w /\ clients w' = clients w /\ epoll w' = epoll w;
  ad_old : ident w (flow_ w') = None;
  ad_new : ident w' (flow_ w') = Some (fd, type);
  ad_idle : ~ pending w' (flow_ w');
  ad_other : forall g, g <> flow_ w' -> conn_of (connset_ w') g = conn_of (connset_ w) g
}.

Lemma do_addconn_ok fd type w : cs_ok (connset_ w) -> 0 < flow_ w < MAX_FLOW_NUM ->
  exists r w', do_addconn fd type w = Done (r, w') /\
    (r = 0 /\ added fd type w w' \/
     r = -1 /\ exists f e, w' = set_flow f (set_env e w) /\ 0 < f < MAX_FLOW_NUM).
Proof.
  intros Hs Hf. unfold do_addconn, now. destruct (net_time (env w)) as [t e]. cbn [connset_ set_env flow_].
  destruct (addconn_spec _ Hs (flow_ w) fd type t Hf) as (r & f & s' & -> & Hs' & Hf' & _ & [(-> & Hn & (c & Hc & <- & <- & _ & Hw) & Ho & _)|(-> & -> & _)]);
    cbn [obind]; eexists _, _; (split; [done|]).
  - left. split; [done|]. split; cbn; try done.
    + unfold ident. by rewrite Hn.
    + unfold ident. cbn. by rewrite Hc.
    + intros (c' & Hc' & Hne). cbn in Hc'. congruence.
  - right. split; [done|]. exists f, e. split; [|done]. by destruct w.
Qed.

Lemma added_others fd type w w' : added fd type w w' -> others 0 w w'.
Proof.
  intros [_ _ (H1 & _) H2 _ _ H3]. split; [done|]. intros g _ Hg. unfold ident. rewrite H3; [done|].
  intros ->. rewrite H2 in Hg. by destruct Hg.
Qed.

(** What happens to the new connection afterwards is no matter of the others. *)
Lemma added_local fd type w0 w w' : added fd type w0 w -> local (flow_ w) w w' -> others 0 w0 w'.
Proof.
  intros Ha [L1 L2 _]. destruct (added_others _ _ _ _ Ha) as [O1 O2]. split; [congruence|]. intros g Hg Hs.
  rewrite L2; [by apply O2|]. intros ->. rewrite (ad_old _ _ _ _ Ha) in Hs. by destruct Hs.
Qed.

Lemma added_tcp fd type w w' : added fd type w w' -> forall g x,
  tcp w' g x <-> tcp w g x \/ g = flow_ w' /\ x = fd /\ type <> UDP_SOCKET.
Proof.
  intros [_ _ _ H2 H4 _ H3] g x. unfold tcp. destruct (decide (g = flow_ w')) as [->|Hg].
  - rewrite H4, H2. naive_solver.
  - assert (ident w' g = ident w g) as -> by (unfold ident; by rewrite H3). naive_solver.
Qed.

Lemma added_pending fd type w w' : added fd type w w' -> forall g, pending w' g -> pending w g.
Proof.
  intros [_ _ _ _ _ H5 H3] g Hp. destruct (decide (g = flow_ w')) as [->|Hg]; [done|].
  destruct Hp as (c & Hc & Hne). exists c. by rewrite H3 in Hc.
Qed.

(** A connection on a listening descriptor. *)
Lemma added_udp_ok fd w w' : commu_ok None w -> added fd UDP_SOCKET w w' -> commu_ok None w'.
Proof.
  intros [K1 K2 K3 K4 K5 K6 K7] Ha. pose proof (added_tcp _ _ _ _ Ha) as Ht. pose proof (added_pending _ _ _ _ Ha) as Hp.
  destruct Ha as [H1 H2 (E1 & E2 & E3) _ _ _ _].
  assert (forall g x, tcp w' g x <-> tcp w g x) as Ht' by (intros; rewrite Ht; naive_solver).
  split; try done; [lia|..]; rewrite ?E1, ?E2, ?E3; try setoid_rewrite Ht'; try done.
  intros g x Hx Hg. destruct (K7 g x Hx Hg) as (ev & He & Hin & Hq). exists ev. rewrite E3. auto.
Qed.

(** A connection on a new descriptor, which [accept] made. *)
Lemma added_tcp_ok fd type w0 w w' : commu_ok None w0 -> connset_ w = connset_ w0 -> sockbind_ w = sockbind_ w0 ->
  clients w = {[fd]} ∪ clients w0 -> epoll w = epoll w0 ->
  0 <= fd < 2 ^ 31 -> fd ∉ clients w0 ∪ dom (epoll w0) ∪ dom (sockbind_ w0) -> type <> UDP_SOCKET ->
  added fd type w w' -> commu_ok (Some (flow_ w')) w'.
Proof.
  intros [K1 K2 K3 K4 K5 K6 K7] F1 F2 F3 F4 Hfd Hnew Hty Ha. pose proof (added_tcp _ _ _ _ Ha) as Ht.
  pose proof (added_pending _ _ _ _ Ha) as Hp. destruct Ha as [H1 H2 (E1 & E2 & E3) H4 _ _ _].
  rewrite F2 in E1. rewrite F3 in E2. rewrite F4 in E3.
  assert (forall g x, tcp w g x <-> tcp w0 g x) as H0 by (intros; unfold tcp, ident; by rewrite F1).
  assert (forall g, ~ tcp w0 g fd) as Hnt by (intros g Hg; apply Hnew; assert (fd ∈ clients w0) by (apply K3; eauto); set_solver).
  split; try done; [lia|..]; rewrite ?E1, ?E2, ?E3.
  - intros x. setoid_rewrite Ht. setoid_rewrite H0. rewrite elem_of_union, elem_of_singleton, K3. naive_solver.
  - intros f g x. rewrite !Ht, !H0. intros [A|(-> & -> & _)] [B|(-> & B & _)]; try done.
    + by eapply K4.
    + subst x. by apply Hnt in A.
    + by apply Hnt in B.
  - intros x. rewrite elem_of_union, elem_of_singleton. intros [-> |Hx]; [|by apply K5]. split; [|done].
    apply not_elem_of_dom. set_solver.
  - intros x d ev He. destruct (K6 _ _ _ He) as [Hr [[Hn ->]|(f & Hf & ->)]]; (split; [done|]).
    + left. split; [|done]. assert (x ∈ dom (epoll w0)) by (by eapply elem_of_dom_2). set_solver.
    + right. exists f. rewrite Ht, H0. auto.
  - intros f x Hx. rewrite Ht, H0. intros [Hf|(-> & _)]; [|congruence]. destruct (K7 f x) as (ev & He & Hin & Hq); [done|done|].
    exists ev. rewrite E3. split; [done|]. split; [done|]. intros Hpe. apply Hq. apply Hp in Hpe. unfold pending in *. by rewrite <- F1.
Qed.

(** What [accept] leaves when it gives a descriptor. *)
Lemma accept_ok fd w : commu_ok None w ->
  let '(ret, errno, w') := accept fd w in
  (ret < 0 -> same w w') /\
  (0 <= ret -> 0 <= ret < 2 ^ 31 /\ ret ∉ clients w ∪ dom (epoll w) ∪ dom (sockbind_ w) /\
     exists e, w' = set_fds ({[ret]} ∪ clients w) (epoll w) (set_env e w)).
Proof.
  intros Hw. unfold accept. set (used := _ ∪ _ ∪ _). pose proof (law_accept fd used (env w)) as Hl.
  destruct (net_accept fd used (env w)) as [[r errno] e]. cbn in Hl. destruct (Z.ltb_spec r 0) as [Hr|Hr].
  - split; [done|]. destruct (Z.eqb_spec errno 0); lia.
  - split; [lia|]. intros _. destruct Hl as [Hl|[H1 H2]]; [lia|]. split; [done|]. split; [done|]. by exists e.
Qed.

(** Closing a descriptor that has not become a connection. *)
Lemma close_new fd w e f : commu_ok None w -> 0 <= f < MAX_FLOW_NUM -> fd ∉ clients w ∪ dom (epoll w) ∪ dom (sockbind_ w) ->
  let w' := close_fd fd (set_flow f (set_env e (set_fds ({[fd]} ∪ clients w) (epoll w) w))) in
  commu_ok None w' /\ others 0 w w'.
Proof.
  intros Hw Hf Hn w'. assert (same (set_flow f w) w') as Hsm.
  { split; try done; cbn.
    - apply leibniz_equiv. set_solver.
    - apply delete_id. apply not_elem_of_dom. set_solver. }
  split; [apply (same_ok _ (set_flow f w) _ Hsm); by apply set_flow_ok|].
  apply local_others, (local_trans _ _ (set_flow f w)); [by split; auto|by apply same_local].
Qed.

(** The end of an accept: the connection is registered, or closed again. *)
Lemma accept_tail fd type w0 w : added fd type w0 w -> commu_ok (Some (flow_ w)) w -> type <> UDP_SOCKET ->
  let r := epoll_add fd (flow_ w) (Z.lor EPOLLET EPOLLIN) w in
  local (flow_ w) w r.2 /\ flow_ r.2 = flow_ w /\ commu_ok (if r.1 <? 0 then Some (flow_ w) else None) r.2.
Proof.
  intros Ha Hw Hty. cbv zeta. unfold epoll_add. destruct (epoll w !! fd) as [v|] eqn:Ev.
  { cbn. split; [apply local_refl|]. done. }
  pose proof (law_ctl fd (env w)) as Hl. destruct (net_ctl fd (env w)) as [errno e]. cbn in Hl.
  destruct (Z.eqb_spec errno 0) as [He|He].
  2: { cbn [fst snd]. rewrite (proj2 (Z.ltb_lt _ _)) by lia. split; [by apply same_local|]. split; [done|]. by apply (same_ok _ w). }
  cbn [fst snd Z.ltb Z.compare]. split; [by split; auto|]. split; [done|].
  assert (tcp w (flow_ w) fd) as Ht by (exists type; split; [apply Ha|done]).
  apply (ident_ok (Some (flow_ w)) None w); try done; [apply Hw|apply Hw| |].
  - intros x d ev. cbn. rewrite lookup_insert_Some. intros [[<- [= <- <-]]|[_ H]]; [right; eauto|left; eauto].
  - intros g x _ Hg. destruct (decide (g = flow_ w)) as [->|Hgf].
    + assert (x = fd) as -> by (destruct Hg as (? & Hg & _), Ht as (? & Ht & _); congruence).
      exists (Z.lor EPOLLET EPOLLIN). cbn. rewrite lookup_insert_eq. split; [done|]. split; [done|].
      intros Hp. by destruct (ad_idle _ _ _ _ Ha).
    + destruct (ok_reg _ _ Hw g x) as (ev & He' & Hin & Hp); [congruence|done|].
      exists ev. cbn. rewrite lookup_insert_ne; [done|]. intros ->. congruence.
Qed.

Lemma handle_accept_ok n fd b : forall w, commu_ok None w -> sockbind_ w !! fd = Some b -> type_ b <> UDP_SOCKET ->
  exists w', handle_accept fl n fd w = Done w' /\ commu_ok None w' /\ others 0 w w'.
Proof.
  induction n as [|n IH]; intros w Hw Hb Hty; cbn [handle_accept]; [by exists w|].
  assert (forall w', commu_ok None w' -> others 0 w w' ->
    exists w2, handle_accept fl n fd w' = Done w2 /\ commu_ok None w2 /\ others 0 w w2) as Hnext.
  { intros w' H1 H2. destruct (IH w' H1) as (w2 & E2 & H3 & H4); [by rewrite (oth_bind _ _ _ H2)|done|].
    exists w2. split; [done|]. split; [done|by eapply others_trans]. }
  pose proof (accept_ok fd w Hw) as Hacc. destruct (accept fd w) as [[ret errno] w1]. destruct Hacc as [Hneg Hpos].
  destruct (Z.ltb_spec ret 0) as [Hr|Hr]; cbn [andb].
  { specialize (Hneg Hr). assert (commu_ok None w1 /\ others 0 w w1) as [H1 H2]
      by (split; [by apply (same_ok _ w)|by apply local_others, same_local]).
    destruct (errno =? EAGAIN); [by exists w1|]. destruct (errno =? EINTR); [by apply Hnext|by exists w1]. }
  destruct (Hpos Hr) as (Hfd & Hnew & e1 & ->). cbn [env set_fds set_env].
  destruct (net_nonblock ret e1) as [nb e2]. cbn [env set_env set_fds].
  destruct (close_new ret w e2 (flow_ w) Hw) as [Hc1 Hc2]; [apply Hw|done|].
  destruct (Z.eqb_spec nb 0) as [_|_]; cbn [negb].
  2: { apply Hnext; done. }
  clear Hc1 Hc2. set (w2 := bump_flow _). assert (sockbind_ w2 = sockbind_ w) as Hbs by done.
  assert (sockbind_ w2 !! fd = Some b) as -> by (by rewrite Hbs). change (default (mkBind 0 false) (Some b)) with b.
  pose proof (bump_flow_range w (ok_flow _ _ Hw)) as Hbf.
  destruct (do_addconn_ok ret (type_ b) w2) as (r & w3 & -> & [[-> Ha]|(-> & f & e3 & -> & Hf)]); [apply Hw|done| |]; cbn [obind].
  2: { cbn [Z.ltb Z.compare]. destruct (close_new ret w e3 f Hw) as [Hc1 Hc2]; [lia|done|].
    destruct (call_if_ok CB_OVERLOAD 0 [] _ Hc1) as (z & w4 & E4 & H5 & H6).
    change (close_fd ret (set_flow f (set_env e3 w2))) with
      (close_fd ret (set_flow f (set_env e3 (set_fds ({[ret]} ∪ clients w) (epoll w) w)))).
    rewrite E4. cbn [obind]. exists w4. split; [done|]. split; [done|]. eapply others_trans; [exact Hc2|by apply local_others]. }
  cbn [Z.ltb Z.compare]. pose proof (added_tcp_ok ret (type_ b) w w2 w3 Hw eq_refl eq_refl eq_refl eq_refl Hfd Hnew Hty Ha) as Hw3.
  assert (forall w', local (flow_ w3) w3 w' -> others 0 w w') as Hoth.
  { intros w' Hl. apply (others_trans 0 w w2); [by split|]. by eapply added_local. }
  assert (forall w', commu_ok (Some (flow_ w3)) w' -> local (flow_ w3) w3 w' ->
    exists w5, do_close (flow_ w3) w' = Done w5 /\ commu_ok None w5 /\ others 0 w w5) as Hclose.
  { intros w' H1 H2. destruct (do_close_ok _ (flow_ w3) w' H1 (or_intror eq_refl)) as (w5 & -> & H3 & H4 & _).
    exists w5. split; [done|]. split; [done|]. apply Hoth. by eapply local_trans. }
  destruct (call_connected_ok (flow_ w3) [] w3) as (r & e4 & ->). cbn [obind]. change (flow_ (set_env e4 w3)) with (flow_ w3).
  assert (commu_ok (Some (flow_ w3)) (set_env e4 w3)) as Hw4 by (by apply (same_ok _ w3)).
  assert (local (flow_ w3) w3 (set_env e4 w3)) as Hl4 by (by apply same_local).
  destruct (Z.eqb_spec r 0) as [_|_]; cbn [negb].
  2: { destruct (Hclose _ Hw4 Hl4) as (w5 & -> & H5 & H6). cbn [obind]. by apply Hnext. }
  assert (added ret (type_ b) w2 (set_env e4 w3)) as Ha4 by (destruct Ha; by split).
  destruct (accept_tail ret (type_ b) w2 (set_env e4 w3) Ha4 Hw4 Hty) as (T1 & T2 & T3).
  change (flow_ (set_env e4 w3)) with (flow_ w3) in T1, T2, T3.
  destruct (epoll_add ret (flow_ w3) (Z.lor EPOLLET EPOLLIN) (set_env e4 w3)) as [rr w5]. cbn [fst snd] in T1, T2, T3.
  pose proof (local_trans _ _ _ _ Hl4 T1) as Hl5. destruct (rr <? 0).
  - rewrite T2. by apply Hclose.
  - apply Hnext; [done|by apply Hoth].
Qed.

Lemma handle_accept_udp_ok n fd b : forall w, commu_ok None w -> sockbind_ w !! fd = Some b ->
  exists ok w', handle_accept_udp fl n fd w = Done (ok, w') /\ commu_ok None w' /\ others 0 w w'.
Proof.
  induction n as [|n IH]; intros w Hw Hb; cbn [handle_accept_udp]; [by exists true, w|].
  assert (forall w', commu_ok None w' -> others 0 w w' ->
    exists ok w2, handle_accept_udp fl n fd w' = Done (ok, w2) /\ commu_ok None w2 /\ others 0 w w2) as Hnext.
  { intros w' H1 H2. destruct (IH w' H1) as (ok & w2 & E2 & H3 & H4); [by rewrite (oth_bind _ _ _ H2)|].
    exists ok, w2. split; [done|]. split; [done|by eapply others_trans]. }
  pose proof (bump_flow_range w (ok_flow _ _ Hw)) as Hbf. set (w2 := bump_flow w).
  assert (commu_ok None w2) as Hw2 by (apply set_flow_ok; [done|unfold w2, bump_flow in *; cbn in Hbf; lia]).
  assert (others 0 w w2) as Ho2 by (by split).
  destruct (do_addconn_ok fd UDP_SOCKET w2) as (r & w3 & -> & [[-> Ha]|(-> & f & e3 & -> & Hf)]); [apply Hw|done| |]; cbn [obind Z.ltb Z.compare].
  2: { assert (commu_ok None (set_flow f (set_env e3 w2))) as Hw3 by (apply set_flow_ok; [by apply (same_ok _ w2)|lia]).
    destruct (call_if_ok CB_OVERLOAD 0 [] _ Hw3) as (z & w4 & -> & H5 & H6). cbn [obind]. exists true, w4. split; [done|].
    split; [done|]. eapply others_trans; [|by apply local_others]. by split. }
  pose proof (added_udp_ok fd w2 w3 Hw2 Ha) as Hw3.
  assert (forall w', local (flow_ w3) w3 w' -> others 0 w w') as Hoth.
  { intros w' Hl. apply (others_trans 0 w w2); [done|]. by eapply added_local. }
  destruct (do_recv_ok (flow_ w3) w3 Hw3) as (r & w4 & -> & Hw4 & Hl4 & Hf4 & _). cbn [obind]. rewrite Hf4.
  destruct r as [ret|]; [|exists false, w4; split; [done|]; split; [done|by apply Hoth]].
  assert (forall w', commu_ok None w' -> local (flow_ w3) w3 w' ->
    exists w5, do_close (flow_ w3) w' = Done w5 /\ commu_ok None w5 /\ others 0 w w5) as Hclose.
  { intros w' H1 H2. destruct (do_close_ok _ (flow_ w3) w' H1 (or_introl eq_refl)) as (w5 & -> & H3 & H4 & _).
    exists w5. split; [done|]. split; [done|]. apply Hoth. by eapply local_trans. }
  destruct (Z.ltb_spec 0 ret) as [Hr|Hr].
  2: { destruct (Hclose w4 Hw4 Hl4) as (w5 & -> & H5 & H6). cbn [obind]. by exists true, w5. }
  destruct (getcc_ok _ (ok_set _ _ Hw4) (flow_ w3)) as (c & -> & (_ & _ & Hrc & _) & _). cbn [obind].
  rewrite (data_spec _ Hrc). cbn [obind]. set (blob := default [] _).
  destruct (call_connected_ok (flow_ w3) blob w4) as (r & e5 & ->). cbn [obind]. change (flow_ (set_env e5 w4)) with (flow_ w4). rewrite Hf4.
  assert (commu_ok None (set_env e5 w4)) as Hw5 by (by apply (same_ok _ w4)).
  assert (local (flow_ w3) w3 (set_env e5 w4)) as Hl5 by (eapply local_trans; [exact Hl4|by apply same_local]).
  destruct (Z.eqb_spec r 0) as [_|_]; cbn [negb].
  - destruct (call_recvdata_ok (flow_ w3) blob _ Hw5) as (z & w6 & -> & H6 & H7). cbn [obind].
    apply Hnext; [done|]. apply Hoth. by eapply local_trans.
  - destruct (Hclose _ Hw5 Hl5) as (w6 & -> & H6 & H7). cbn [obind]. by apply Hnext.
Qed.

(** ** The event loop *)

Lemma close_ok f w0 w : commu_ok None w -> local f w0 w ->
  exists w', do_close f w = Done w' /\ commu_ok None w' /\ local f w0 w'.
Proof.
  intros Hw Hl. destruct (do_close_ok None f w Hw (or_introl eq_refl)) as (w' & -> & H1 & H2 & _).
  eexists. split; [done|]. split; [done|by eapply local_trans].
Qed.

Lemma recv_loop_ok n f : forall w, commu_ok None w ->
  exists w', recv_loop fl n f w = Done w' /\ commu_ok None w' /\ local f w w'.
Proof.
  induction n as [|n IH]; intros w Hw; cbn [recv_loop].
  { exists w. split; [done|]. split; [done|apply local_refl]. }
  assert (forall w', commu_ok None w' -> local f w w' ->
    exists w2, recv_loop fl n f w' = Done w2 /\ commu_ok None w2 /\ local f w w2) as Hnext.
  { intros w' H1 H2. destruct (IH w' H1) as (w2 & -> & H3 & H4). exists w2. split; [done|]. split; [done|by eapply local_trans]. }
  destruct (do_recv_ok f w Hw) as (r & w1 & -> & H1 & L1 & _ & _). cbn [obind]. cbv zeta. set (ret := default _ r).
  destruct ((0 <? ret) || (ret =? - E_RECV_DONE)).
  - destruct (getcc_ok _ (ok_set _ _ H1) f) as (c & -> & (_ & _ & Hrc & _) & _). cbn [obind].
    rewrite (data_spec _ Hrc). cbn [obind]. set (blob := default [] _).
    destruct (call_recvdata_ok f blob w1 H1) as (proto_len & w2 & -> & H2 & L2). cbn [obind].
    pose proof (local_trans _ _ _ _ L1 L2) as L2'. destruct (proto_len =? 0); [by apply Hnext|].
    destruct (Z.ltb_spec 0 proto_len) as [Hp|Hp]; [|by apply close_ok].
    destruct (call_if_ok CB_RECVDONE f (take (Z.to_nat proto_len) blob) w2 H2) as (z & w3 & -> & H3 & L3). cbn [obind].
    destruct (getcc_ok _ (ok_set _ _ H3) f) as (c3 & Ec3 & (_ & _ & K3 & K4 & K5) & _). rewrite Ec3. cbn [obind].
    destruct (skip_spec (_r c3) proto_len K3) as (S1 & S2 & _); [lia|].
    destruct (slot_put_ok f c3 (set_r (skip (_r c3) proto_len) c3) w3 H3 Ec3) as [H4 L4]; try done.
    { intros Hz. destruct (K5 Hz) as (Hn & _ & Hfin). split; [|done]. cbn. rewrite S2, Hn. apply drop_nil. }
    apply Hnext; [done|]. eapply local_trans; [exact L2'|]. by eapply local_trans.
  - destruct (ret =? - E_NEED_CLOSE).
    + destruct (call_if_ok CB_DISCONNECT f [] w1 H1) as (z & w2 & -> & H2 & L2). cbn [obind].
      apply close_ok; [done|by eapply local_trans].
    + destruct (_ || _); [by exists w1|by apply Hnext].
Qed.

Lemma on_out_ok fd f w : commu_ok None w -> tcp w f fd ->
  exists w', on_out fl fd f w = Done w' /\ commu_ok None w' /\ local f w w'.
Proof.
  intros Hw Ht. unfold on_out. destruct (do_sendfromcache_ok f w Hw) as (r & w1 & -> & H1 & L1 & I1 & P1 & _). cbn [obind].
  destruct (getcc_ok _ (ok_set _ _ H1) f) as (c & -> & _). cbn [obind].
  assert (tcp w1 f fd) as Ht1 by (unfold tcp in *; by rewrite I1). destruct (Z.eqb_spec r 0) as [->|Hr]; cbn [andb].
  - destruct (_fin_bit (_w c) && (data_len (_w c) =? 0)); cbn [obind].
    + destruct (do_close_ok None f w1 H1 (or_introl eq_refl)) as (w2 & -> & H2 & L2 & _ & N2). cbn [obind].
      exists w2. unfold epoll_modify. rewrite (N2 fd Ht1). split; [done|]. split; [done|by eapply local_trans].
    + destruct (ok_reg _ _ H1 f fd) as (ev & He & _); [done|done|].
      destruct (epoll_modify_ok None f fd (Z.lor EPOLLIN EPOLLET) w1 H1) as [H2 L2];
        [by left|done|by rewrite He|done|intros Hp; by destruct (P1 eq_refl)|].
      eexists. split; [done|]. split; [done|by eapply local_trans].
  - cbn [obind]. destruct (r =? - E_NEED_CLOSE); [|by exists w1].
    destruct (getcc_ok _ (ok_set _ _ H1) f) as (c1 & -> & (_ & _ & _ & Hwc & _) & _).
    destruct (fl CB_SENDERROR) as [h|] eqn:Eh; cbn [obind]; [|by apply close_ok].
    rewrite (data_spec _ Hwc). cbn [obind].
    destruct (cb_ok CB_SENDERROR h f (default [] (if _data_len (_w c1) =? 0 then None else Some (contents (_w c1)))) w1 Eh H1)
      as (z & w2 & -> & H2 & L2). cbn [obind]. apply close_ok; [done|by eapply local_trans].
Qed.

Lemma on_in_ok f w : commu_ok None w -> exists w', on_in fl f w = Done w' /\ commu_ok None w' /\ local f w w'.
Proof.
  intros Hw. unfold on_in. destruct (recv_loop_ok 50 f w Hw) as (w1 & -> & H1 & L1). cbn [obind].
  destruct (negb (expiretime_ w1 =? 0)); [|by exists w1]. unfold now. destruct (net_time (env w1)) as [t e].
  assert (commu_ok None (set_env e w1)) as H2 by (by apply (same_ok _ w1)).
  assert (local f w (set_env e w1)) as L2 by (eapply local_trans; [exact L1|by apply same_local]).
  unfold check_per_expire. destruct (getcc_ok _ (ok_set _ _ H2) f) as (c & -> & _). cbn [obind].
  set (r := if _ && _ then Done (-1) else Done 0). assert (exists z, r = Done z) as [z ->] by (unfold r; destruct (_ && _); eauto).
  cbn [obind]. destruct (negb (z =? 0)); [|by eexists].
  destruct (call_if_ok CB_DISCONNECT f [] _ H2) as (v & w3 & -> & H3 & L3). cbn [obind]. apply close_ok; [done|by eapply local_trans].
Qed.

(** An event is good when it is for a descriptor of the proxy's own or for an open
    connection. *)
Definition good_event (w : W) (ev : Z * Z) : Prop :=
  ev_flow ev.1 = 0 \/ tcp w (ev_flow ev.1) (ev_fd ev.1).

Lemma on_event_ok w ev : commu_ok None w -> good_event w ev ->
  exists ok w', on_event fl w ev = Done (ok, w') /\ commu_ok None w' /\ others (ev_flow ev.1) w w'.
Proof.
  intros Hw Hg. unfold on_event. cbv zeta. destruct (sockbind_ w !! ev_fd ev.1) as [b|] eqn:Eb.
  - destruct (negb (Z.land ev.2 EPOLLIN =? 0)); [|by exists true, w]. destruct (type_ b =? SOCK_TYPE_UDP).
    + destruct (handle_accept_udp_ok 50 (ev_fd ev.1) b w Hw Eb) as (ok & w' & -> & H1 & H2).
      exists ok, w'. split; [done|]. split; [done|by apply others_zero].
    + destruct (Z.eqb_spec (type_ b) SOCK_TYPE_TCP) as [Ht|Ht]; [|destruct (Z.eqb_spec (type_ b) SOCK_TYPE_UNIX) as [Hu|Hu]];
        cbn [orb]; [| |by exists true, w];
        (destruct (handle_accept_ok 50 (ev_fd ev.1) b w Hw Eb) as (w' & -> & H1 & H2); [congruence || (rewrite ?Ht, ?Hu; done)|];
         exists true, w'; split; [done|]; split; [done|by apply others_zero]).
  - set (fd := ev_fd ev.1) in *. set (f := ev_flow ev.1) in *. destruct (_ =? 0).
    { destruct (close_ok f w w Hw (local_refl f w)) as (w1 & -> & H1 & L1). exists true, w1. split; [done|].
      split; [done|by apply local_others]. }
    destruct (Z.eqb_spec f 0) as [Hf|Hf]; [by exists true, w|].
    assert (exists w1, (if negb (Z.land ev.2 EPOLLOUT =? 0) then on_out fl fd f w else Done w) = Done w1 /\ commu_ok None w1 /\ local f w w1)
      as (w1 & -> & H1 & L1).
    { destruct (negb _); [|exists w; split; [done|]; split; [done|apply local_refl]].
      apply on_out_ok; [done|]. by destruct Hg. }
    cbn [obind]. assert (exists w2, (if negb (Z.land ev.2 EPOLLIN =? 0) then on_in fl f w1 else Done w1) = Done w2 /\ commu_ok None w2 /\ local f w1 w2)
      as (w2 & -> & H2 & L2).
    { destruct (negb _); [by apply on_in_ok|]. exists w1. split; [done|]. split; [done|apply local_refl]. }
    cbn [obind]. exists true, w2. split; [done|]. split; [done|]. apply local_others. by eapply local_trans.
Qed.

(** Data as [ctl] packs it. *)
Definition packed (u64 : Z) : Prop := u64 = ev_data (ev_fd u64) (ev_flow u64).

Lemma good_event_after f w w' ev : others f w w' -> ev_flow ev.1 <> f -> good_event w ev -> good_event w' ev.
Proof.
  intros [H1 H2] Hne [Hg|Hg]; [by left|]. right. destruct Hg as (ty & Hi & Ht). exists ty.
  rewrite H2; [done|done|by rewrite Hi].
Qed.

Lemma events_loop_ok evs : forall w, commu_ok None w -> Forall (good_event w) evs -> NoDup evs.*1 -> Forall packed evs.*1 ->
  exists ok w', events_loop fl evs w = Done (ok, w') /\ commu_ok None w'.
Proof.
  induction evs as [|ev evs IH]; intros w Hw Hg Hd Hp; cbn [events_loop]; [by exists true, w|].
  apply Forall_cons_1 in Hg as [Hg1 Hg]. cbn in Hd, Hp. apply NoDup_cons in Hd as [Hd1 Hd]. apply Forall_cons_1 in Hp as [Hp1 Hp].
  destruct (on_event_ok w ev Hw Hg1) as (ok & w1 & -> & H1 & O1). cbn [obind]. destruct ok; [|by exists false, w1].
  apply IH; [done| |done|done]. apply Forall_forall. intros ev' Hin. pose proof (proj1 (Forall_forall _ _) Hg _ Hin) as Hg'.
  destruct (decide (ev_flow ev'.1 = ev_flow ev.1)) as [Heq|Hne]; [|by eapply good_event_after].
  destruct Hg' as [Hz|Ht']; [by left|]. destruct Hg1 as [Hz|Ht]; [left; congruence|].
  exfalso. apply Hd1. apply list_elem_of_fmap. exists ev'. split; [|done].
  rewrite Hp1, (proj1 (Forall_forall _ _) Hp ev'.1) by (by apply list_elem_of_fmap_2). rewrite Heq in *. f_equal.
  destruct Ht as (? & Ht & _), Ht' as (? & Ht' & _). congruence.
Qed.

Lemma expire_loop_ok l : forall w, commu_ok None w -> exists w', expire_loop fl l w = Done w' /\ commu_ok None w'.
Proof.
  induction l as [|f l IH]; intros w Hw; cbn [expire_loop]; [by exists w|].
  destruct (close_ok f w w Hw (local_refl f w)) as (w1 & -> & H1 & _). cbn [obind].
  destruct (call_if_ok CB_TIMEOUT f [] w1 H1) as (z & w2 & -> & H2 & _). cbn [obind]. by apply IH.
Qed.

Lemma check_expire_ok w : commu_ok None w -> exists w', check_expire fl w = Done w' /\ commu_ok None w'.
Proof.
  intros Hw. unfold check_expire, now. destruct (net_time (env w)) as [t e].
  assert (commu_ok None (set_env e w)) as H1 by (by apply (same_ok _ w)). destruct (_ && _); [|by eexists].
  destruct (expire_loop_ok (conn_check_expire (connset_ (set_env e w)) (t - expiretime_ (set_env e w))) _ H1) as (w2 & -> & H2).
  cbn [obind]. eexists. split; [done|]. by apply (same_ok _ w2).
Qed.

(** What the kernel reports is good. *)
Lemma wait_good x w e : commu_ok x w -> let evs := (net_wait (epoll w) e).1 in
  Forall (good_event w) evs /\ NoDup evs.*1 /\ Forall packed evs.*1.
Proof.
  intros Hw. cbv zeta. destruct (law_wait (epoll w) e) as [Hd Hin].
  assert (forall ev, ev ∈ (net_wait (epoll w) e).1 -> good_event w ev /\ packed ev.1) as Hall.
  { intros ev He. destruct (Hin ev He) as (fd & flags & Hl). destruct (ok_epoll _ _ Hw _ _ _ Hl) as [Hfd Hcase]. unfold good_event, packed.
    destruct Hcase as [[_ ->]|(f & Ht & ->)].
    - destruct (ev_roundtrip fd 0 Hfd) as [-> ->]; [lia|]. auto.
    - assert (0 < f < MAX_FLOW_NUM) as Hf by (eapply (ok_flow_range _ _ _ Hw); destruct Ht as (ty & -> & _); done).
      destruct (ev_roundtrip fd f Hfd) as [-> ->]; [unfold MAX_FLOW_NUM in Hf; lia|]. auto. }
  split; [apply Forall_forall; naive_solver|]. split; [done|]. apply Forall_fmap, Forall_forall. intros ev He. by apply Hall.
Qed.

(** One round of the event loop. *)
Lemma poll_ok w : commu_ok None w ->
  exists ok w', poll fl w = Done (ok, w') /\ commu_ok None w'.
Proof.
  intros Hw. unfold poll. destruct (net_wait (epoll w) (env w)) as [evs e] eqn:Ew.
  destruct (wait_good None w (env w) Hw) as (H1 & H2 & H3). rewrite Ew in H1, H2, H3. cbn [fst] in *.
  destruct (events_loop_ok evs (set_env e w)) as (ok & w1 & -> & H4); [by apply (same_ok _ w)|done|done|done|]. cbn [obind].
  destruct ok; [|by exists false, w1]. destruct (check_expire_ok w1 H4) as (w2 & -> & H5). cbn [obind]. by exists true, w2.
Qed.
End inv.
