(* ===== verification/SockProps.v ===== *)
(** * What the socket side of the proxy does

    Starting establishes the invariant of [SockInv]; [check_expire] closes exactly
    what is idle; and a close request for a connection that is gone can hit another
    one.  A scripted kernel and an echo server run the loop on concrete input. *)

From Stdlib Require Import ZArith Lia.
From stdpp Require Import base list option gmap.
From S2P Require Import Prelude Bytes RawCache ConnSet SockCommu SockInv.

Section props.
Context {E : Type} {net : Net E} {laws : NetLaws net}.
#[local] Abbreviation W := (commu E).

(** ** Starting *)

(** A descriptor of the proxy's own is registered under flow 0. *)
Lemma epoll_add_own x fd flag (w : W) : commu_ok x w -> fd ∉ clients w -> 0 <= fd < 2 ^ 31 ->
  commu_ok x (epoll_add fd 0 flag w).2 /\ clients (epoll_add fd 0 flag w).2 = clients w /\
  connset_ (epoll_add fd 0 flag w).2 = connset_ w.
Proof.
  intros Hw Hn Hfd. unfold epoll_add. destruct (epoll w !! fd) as [v|] eqn:Ev; [done|].
  destruct (net_ctl fd (env w)) as [errno e]. destruct (errno =? 0); [|split; [by apply (same_ok _ w)|done]].
  split; [|done]. cbn [snd]. destruct Hw as [K1 K2 K3 K4 K5 K6 K7]. split; try done.
  - intros fd' d ev. cbn. rewrite lookup_insert_Some. intros [[<- [= <- <-]]|[_ H]]; [split; [done|by left]|by apply K6 in H].
  - intros f fd' Hx Ht. destruct (K7 f fd' Hx Ht) as (ev & He & H1 & H2). exists ev. cbn.
    rewrite lookup_insert_ne; [done|]. intros ->. congruence.
Qed.

Lemma create_socks_range l : forall m m', create_socks l m = Some m' ->
  (forall s a, (s, a) ∈ l -> a_create a < 2 ^ 31) -> (forall fd b, m !! fd = Some b -> 0 <= fd < 2 ^ 31) ->
  (forall s a, (s, a) ∈ l -> a_nonblock a <= 0 /\ a_recvbuf a <= 0 /\ a_bind a <= 0) ->
  forall fd b, m' !! fd = Some b -> 0 <= fd < 2 ^ 31.
Proof.
  induction l as [|[s a] l IH]; intros m m' Hm Hc Hr Hneg; cbn [create_socks] in Hm; [by injection Hm as <-|].
  destruct (Z.ltb_spec (create_sock s a) 0) as [|Hfd]; [done|]. apply (IH _ _ Hm); [set_solver| |set_solver].
  intros fd b. rewrite lookup_insert_Some. intros [[<- _]|[_ H]]; [|by apply Hr in H]. split; [done|].
  pose proof (Hc s a ltac:(set_solver)). destruct (Hneg s a ltac:(set_solver)) as (N1 & N2 & N3). revert Hfd. unfold create_sock.
  repeat case_match; lia.
Qed.

(** System calls return descriptors that are [int]s, and 0 or an error. *)
Definition conf_ok (conf : TSockCommuConf) : Prop := c_maxconn conf < 2 ^ 31 /\
  forall s a, (s, a) ∈ c_sockbind conf -> a_create a < 2 ^ 31 /\ a_nonblock a <= 0 /\ a_recvbuf a <= 0 /\ a_bind a <= 0.

(** [init] refuses a configuration without connections, fails when a socket
    cannot be made, and otherwise starts with no connection. *)
Lemma init_commu_ok conf e : conf_ok conf ->
  match init (net := net) conf e with
  | (r, None) => r = -1 \/ r = -2
  | (r, Some w) => r = 0 /\ commu_ok None w /\ (forall f, ident w f = None) /\ getconn w = 0
  end.
Proof.
  intros [Hmax Hans]. unfold init. destruct (Z.leb_spec (c_maxconn conf) 0) as [|Hpos]; cbn [orb]; [by left|].
  destruct (_ || _); [by left|]. destruct (create_socks _ _) as [binds|] eqn:Eb; [|by right].
  pose proof (create_socks_range _ _ _ Eb ltac:(naive_solver) ltac:(by intros fd b H; rewrite lookup_empty in H) ltac:(naive_solver)) as Hr.
  set (w0 := mkCommu _ _ _ _ _ _ _ _ _ _ _). destruct (CConnSet_new_ok (c_maxconn conf)) as [Hcs Hno]; [lia|].
  assert (commu_ok None w0) as Hw0.
  { assert (forall f fd, ~ tcp w0 f fd) as Hnt by (intros f fd (ty & Hf & _); unfold ident in Hf; cbn in Hf; by rewrite Hno in Hf).
    split; [exact Hcs|cbn; unfold MAX_FLOW_NUM; lia| | | | |].
    - intros fd. split; [intros H; by apply elem_of_empty in H|]. intros (f & Hf). by apply Hnt in Hf.
    - intros f g fd Hf. by apply Hnt in Hf.
    - intros fd H. by apply elem_of_empty in H.
    - intros fd d ev H. cbn in H. by rewrite lookup_empty in H.
    - intros f fd _ Hf. by apply Hnt in Hf. }
  set (step := fun (w : W) '(fd, b) => _).
  assert (forall l w, (forall fd b, (fd, b) ∈ l -> 0 <= fd < 2 ^ 31) -> commu_ok None w -> clients w = ∅ -> connset_ w = connset_ w0 ->
    commu_ok None (foldl step w l) /\ connset_ (foldl step w l) = connset_ w0) as Hfold.
  { induction l as [|[fd b] l IH]; intros w Hl Hw Hc Hs; cbn [foldl]; [done|]. unfold step at 2 4. destruct (_ || _).
    - destruct (epoll_add_own None fd EPOLLIN w Hw) as (H1 & H2 & H3); [rewrite Hc; set_solver|apply (Hl fd b); set_solver|].
      apply IH; [set_solver|done|congruence|congruence].
    - apply IH; [set_solver|done..]. }
  destruct (Hfold (map_to_list binds) w0) as [H1 H2]; [intros fd b Hin; by apply elem_of_map_to_list, Hr in Hin|done..|].
  unfold now. destruct (net_time _) as [t e']. split; [done|].
  split; [by apply (same_ok _ (foldl step w0 (map_to_list binds)))|]. split.
  - intros f. unfold ident. cbn. rewrite H2. cbn. by rewrite Hno.
  - unfold getconn, getusedflow. cbn. by rewrite H2.
Qed.

Lemma epoll_del_own x fd (w : W) : commu_ok x w -> fd ∉ clients w -> commu_ok x (epoll_del fd w).2.
Proof.
  intros Hw Hn. unfold epoll_del. destruct (epoll w !! fd) as [v|] eqn:Ev; [|done].
  cbn [snd]. destruct Hw as [K1 K2 K3 K4 K5 K6 K7]. split; try done.
  - intros fd' d ev. cbn. rewrite lookup_delete_Some. intros [_ H]. by apply K6 in H.
  - intros f fd' Hx Ht. destruct (K7 f fd' Hx Ht) as (ev & He & H1 & H2). exists ev. cbn.
    rewrite lookup_delete_ne; [done|]. intros ->. apply Hn, K3. by exists f.
Qed.

Lemma set_sendcache_limit_ok x n (w : W) : commu_ok x w -> commu_ok x (set_sendcache_limit n w).
Proof. by apply same_ok. Qed.

Lemma addnotify_ok x fd (w : W) : commu_ok x w -> fd ∉ clients w -> fd < 2 ^ 31 -> commu_ok x (addnotify fd w).2.
Proof.
  intros Hw Hn Hr. unfold addnotify. destruct (Z.ltb_spec fd 0); [done|].
  destruct (epoll_add_own x fd EPOLLIN w Hw Hn) as (H1 & H2 & _); [lia|]. cbn [snd].
  destruct H1 as [K1 K2 K3 K4 K5 K6 K7]. split; try done.
  intros fd' Hc. cbn in Hc |- *. rewrite H2 in Hc. rewrite lookup_insert_ne by (intros ->; done). apply K5. by rewrite H2.
Qed.

(** ** Every state of a run *)

Section run.
Context (fl : cb_type -> option (callback (E := E))) {cbs : CallbackLaws fl} {recv : HasRecvData fl}.

(** The states of a proxy: it starts, polls, is given answers to send, watches
    descriptors of its own and changes the limit of the send cache. *)
Inductive reach : W -> Prop :=
  | reach_init conf e w : conf_ok conf -> init conf e = (0, Some w) -> reach w
  | reach_poll w ok w' : reach w -> poll fl w = Done (ok, w') -> reach w'
  | reach_send w f d r w' : reach w -> blen d < 2 ^ 31 -> sendto fl f d w = Done (r, w') -> reach w'
  | reach_add w fd : reach w -> fd ∉ clients w -> 0 <= fd < 2 ^ 31 -> reach (add_notify fd w).2
  | reach_del w fd : reach w -> fd ∉ clients w -> reach (del_notify fd w).2
  | reach_notify w fd : reach w -> fd ∉ clients w -> fd < 2 ^ 31 -> reach (addnotify fd w).2
  | reach_limit w n : reach w -> reach (set_sendcache_limit n w).

Lemma reach_commu_ok w : reach w -> commu_ok None w.
Proof.
  induction 1 as [conf e w Hc Hi|w ok w' _ IH Hp|w f d r w' _ IH Hd Hp|w fd _ IH Hn Hr|w fd _ IH Hn|w fd _ IH Hn Hr|w n _ IH].
  - pose proof (init_commu_ok conf e Hc) as H. rewrite Hi in H. apply H.
  - destruct (poll_ok (fl := fl) w IH) as (ok2 & w2 & E2 & H2). congruence.
  - destruct (sendto_ok (fl := fl) f d w IH Hd) as (r2 & w2 & E2 & H2 & _). congruence.
  - by apply epoll_add_own.
  - by apply epoll_del_own.
  - by apply addnotify_ok.
  - by apply set_sendcache_limit_ok.
Qed.

(** C7: in every state of a run of the proxy, for any behaviour of the kernel and
    of the clients and any callbacks that keep to their contract: the open client
    descriptors are exactly those of the open connections, one each, so none is
    leaked or shared; each is registered with epoll under its own flow for
    reading, and for writing as long as it has data to send, so that no answer is
    forgotten; the count of connections is exact; and the next round of the event
    loop, and any [sendto], ends without undefined behaviour or exit. *)
Theorem proxy_stays_consistent w : reach w ->
  (forall fd, fd ∈ clients w <-> exists f, tcp w f fd) /\
  (forall f g fd, tcp w f fd -> tcp w g fd -> f = g) /\
  (forall f fd, tcp w f fd -> registered w f fd) /\
  getconn w = live_count (ccs (connset_ w)) /\
  (exists ok w', poll fl w = Done (ok, w')) /\
  (forall f d, blen d < 2 ^ 31 -> exists r w', sendto fl f d w = Done (r, w')).
Proof.
  intros Hr. pose proof (reach_commu_ok w Hr) as Hw. split_and!; try apply Hw.
  - intros f fd Ht. by apply (ok_reg _ _ Hw).
  - destruct (poll_ok (fl := fl) w Hw) as (ok & w' & H & _). eauto.
  - intros f d Hd. destruct (sendto_ok (fl := fl) f d w Hw Hd) as (r & w' & H & _). eauto.
Qed.
End run.

Lemma set_env_ok x e (w : W) : commu_ok x w -> commu_ok x (set_env e w).
Proof. by apply same_ok. Qed.

(** ** Idle connections *)

(** Closing a list of flows, with no callback. *)
Lemma expire_loop_exact fl l : fl CB_TIMEOUT = None -> forall w : W, commu_ok None w ->
  exists w', expire_loop fl l w = Done w' /\ commu_ok None w' /\
    forall g, ident w' g = if decide (g ∈ l) then None else ident w g.
Proof.
  intros Hfl. induction l as [|f l IH]; intros w Hw; cbn [expire_loop].
  { exists w. split; [done|]. split; [done|]. intros g. by rewrite decide_False by set_solver. }
  destruct (do_close_ok None f w Hw (or_introl eq_refl)) as (w1 & -> & H1 & L1 & N1 & _). cbn [obind].
  unfold call_if. rewrite Hfl. cbn [obind]. destruct (IH w1 H1) as (w2 & -> & H2 & I2). exists w2. split; [done|]. split; [done|].
  intros g. rewrite I2. destruct (decide (g = f)) as [->|Hg].
  - rewrite (decide_True (P := f ∈ f :: l)) by set_solver. rewrite N1. by case_decide.
  - rewrite (loc_other _ _ _ L1) by done. repeat case_decide; try done; set_solver.
Qed.

(** [f] has been idle since before [t]. *)
Definition idle (w : W) (t f : Z) : Prop := exists c, conn_of (connset_ w) f = Some c /\ _access c < t.

(** More than a second after the last check, [check_expire] closes exactly the
    connections not used for the expiry time, and keeps the others. *)
Theorem check_expire_exact fl (w : W) : commu_ok None w -> fl CB_TIMEOUT = None ->
  let t := (net_time (env w)).1 in expiretime_ w <> 0 -> 1 < t - lastchecktime_ w ->
  exists w', check_expire fl w = Done w' /\ commu_ok None w' /\ lastchecktime_ w' = t /\
    forall f, (idle w (t - expiretime_ w) f -> ident w' f = None) /\ (~ idle w (t - expiretime_ w) f -> ident w' f = ident w f).
Proof.
  intros Hw Hfl t He Ht. unfold check_expire, now. fold t. destruct (net_time (env w)) as [t' e] eqn:En.
  unfold t in *. cbn [fst] in *. clear t. cbn [expiretime_ lastchecktime_ set_env connset_].
  rewrite (proj2 (Z.eqb_neq (expiretime_ w) 0)) by done. rewrite (proj2 (Z.ltb_lt 1 _)) by done. cbn [negb andb].
  destruct (expire_loop_exact fl (conn_check_expire (connset_ w) (t' - expiretime_ w)) Hfl (set_env e w)) as (w' & -> & H1 & H2);
    [by apply (same_ok _ w)|]. cbn [obind]. eexists. split; [done|]. split; [by apply (same_ok _ w')|]. split; [done|].
  intros f. pose proof (conn_check_expire_spec (connset_ w) (t' - expiretime_ w) f (ok_set _ _ Hw)) as Hspec.
  change (ident (set_lastcheck t' w') f) with (ident w' f). rewrite H2. unfold idle. rewrite <- Hspec.
  split; intros Hi; [by rewrite decide_True|by rewrite decide_False].
Qed.

(** ** A close request for a connection that is gone *)

(** A request to close flow [f] (an empty blob) marks whichever connection has the
    slot of [f] now, when that one has data to send. *)
Theorem sendto_close_hits_other fl f (w : W) c : commu_ok None w -> 0 < f -> ident w f = None ->
  getcc (connset_ w) f = Done c -> contents (_w c) <> [] ->
  exists w' c', sendto fl f [] w = Done (0, w') /\ conn_of (connset_ w) (_flow c) = Some c /\ _flow c <> f /\
    conn_of (connset_ w') (_flow c) = Some c' /\ _fin_bit (_w c') = true.
Proof.
  intros Hw Hf Hi Hg Hne. pose proof (ok_set _ _ Hw) as Hs. pose proof (getcc_slot _ _ _ Hg) as Es.
  pose proof (cs_conn _ Hs _ _ Es) as (K1 & K2 & K3 & K4 & K5). pose proof (contents_len _ K4) as Hl.
  assert (_flow c <> 0) as Hnz by (intros Hz; by destruct (K5 Hz) as (_ & ? & _)).
  set (s := connset_ w) in *. set (g := _flow c) in *.
  assert (slot s g = slot s f) as Hsl by (unfold slot; by rewrite (K2 Hnz)).
  assert (conn_of s g = Some c) as Hc by (unfold conn_of; rewrite Hsl, Es; cbn; by rewrite decide_True).
  assert (g <> f) as Hgf by (intros Hgf; unfold ident in Hi; fold s in Hi; rewrite <- Hgf, Hc in Hi; done).
  set (c' := set_w (set_fin_bit (_w c) true) c).
  destruct (put_open s Hs g c c' Hc eq_refl K3 K4) as (P1 & P2 & P3).
  exists (set_connset (putcc s g c') w), c'. unfold sendto. fold s. rewrite Hg. cbn [obind blen length Z.of_nat Z.eqb andb].
  rewrite (proj2 (Z.ltb_lt 0 f)) by done.
  assert (0 < data_len (_w c)) as Hp by (unfold data_len; rewrite <- Hl; destruct (contents (_w c)); [done|unfold blen; cbn; lia]).
  rewrite (proj2 (Z.ltb_lt 0 (data_len (_w c)))) by done. split; [|by split_and!].
  unfold putcc. by rewrite Hsl.
Qed.
End props.

(** ** A scripted kernel and an echo server *)

Record script := mkScript {
  s_accept : list Z;
  s_recv : list (list Z);
  s_send : list Z;
  s_events : list (Z * Z);
  s_time : Z
}.

#[export] Instance script_net : Net script := {
  net_accept _ used e :=
    match s_accept e with
    | fd :: l => (if bool_decide (0 <= fd < 2 ^ 31 /\ fd ∉ used) then (fd, 0) else (-1, EAGAIN),
                  mkScript l (s_recv e) (s_send e) (s_events e) (s_time e))
    | [] => ((-1, EAGAIN), e)
    end;
  net_nonblock _ e := (0, e);
  net_recv _ e :=
    match s_recv e with
    | d :: l => ((Z.min C_READ_BUFFER_SIZE (blen d), 0, d), mkScript (s_accept e) l (s_send e) (s_events e) (s_time e))
    | [] => ((-1, EAGAIN, []), e)
    end;
  net_send _ d e :=
    match s_send e with
    | n :: l => ((Z.max 0 (Z.min n (blen d)), 0), mkScript (s_accept e) (s_recv e) l (s_events e) (s_time e))
    | [] => ((-1, EAGAIN), e)
    end;
  net_ctl _ e := (0, e);
  net_wait ep e :=
    match s_events e with
    | (fd, flags) :: l =>
        (match ep !! fd with Some (d, _) => [(d, flags)] | None => [] end,
         mkScript (s_accept e) (s_recv e) (s_send e) l (s_time e))
    | [] => ([], e)
    end;
  net_time e := (s_time e, e);
  net_malloc n := if (0 <=? n) && (n <? 2 ^ 31) then Some (replicate (Z.to_nat n) 0) else None
}.

#[export] Instance script_laws : NetLaws script_net.
Proof.
  split; cbn.
  - intros fd used e. destruct (s_accept e); [by left|]. case_bool_decide; [by right|by left].
  - intros fd e. destruct (s_recv e) as [|d l]; [done|]. cbn. unfold blen, C_READ_BUFFER_SIZE. lia.
  - intros fd d e. unfold kernel_ok. destruct (s_send e); [cbn; unfold blen, EAGAIN; lia|]. cbn. unfold blen. lia.
  - done.
  - intros ep e. destruct (s_events e) as [|[fd flags] l]; [split; [constructor|set_solver]|]. cbn.
    destruct (ep !! fd) as [[d fl]|] eqn:Ee; cbn; [|split; [constructor|set_solver]]. split; [apply NoDup_singleton|].
    intros ev ->%list_elem_of_singleton. exists fd, fl. done.
  - intros n m. destruct (Z.leb_spec 0 n), (Z.ltb_spec n (2 ^ 31)); try done. intros [= <-]. unfold blen.
    rewrite length_replicate. lia.
Qed.

(** An echo server: every byte received is sent back. *)
Definition echo_list (cb : cb_type) : option (callback (E := script)) :=
  match cb with
  | CB_RECVDATA => Some (fun f b w => '(_, w) ⇐ sendto (fun _ => None) f (take (Z.to_nat 65536) b) w; Done (blen b, w))
  | _ => None
  end.

#[export] Instance no_callbacks_laws : CallbackLaws (E := script) (fun _ => None).
Proof. by split. Qed.

#[export] Instance echo_recv : HasRecvData echo_list.
Proof. by eexists. Qed.

#[export] Instance echo_laws : CallbackLaws echo_list.
Proof.
  split; [|done]. intros [] h f b w [= <-] Hw.
  destruct (sendto_ok (fl := fun _ => None) f (take (Z.to_nat 65536) b) w Hw) as (r & w' & E1 & H1 & H2).
  - unfold blen. rewrite length_take. lia.
  - rewrite E1. cbn. by eexists _, _.
Qed.

(** A proxy listening on descriptor 3. *)
Definition echo_conf : TSockCommuConf := mkConf [(mkBind SOCK_TYPE_TCP false, mkAns 3 0 0 0 0)] 4 0 60 false 0.
Definition echo_start (e : script) : commu script :=
  default (mkCommu (CConnSet_new 0) ∅ 0 0 0 false 0 ∅ ∅ [] e) (init echo_conf e).2.

(** The kernel accepts descriptor 7, gives it two bytes, and takes them one by one. *)
Definition echo_script : script :=
  mkScript [7] [[104; 105]] [0; 1; 1] [(3, EPOLLIN); (7, EPOLLIN); (7, EPOLLOUT)] 100.

Fixpoint polls (n : nat) (w : commu script) : outcome (commu script) :=
  match n with O => Done w | S n => '(_, w) ⇐ poll echo_list w; polls n w end.

(** Both bytes go back, in order; afterwards nothing waits for writing. *)
Example echo_runs :
  (w ⇐ polls 3 (echo_start echo_script); Done (wire w, elements (clients w), snd <$> epoll w !! 7)) =
  Done ([(7, [104]); (7, [105])], [7], Some 0x80000001).
Proof. vm_compute. reflexivity. Qed.

Definition echo_after (n : nat) : commu script :=
  match polls n (echo_start echo_script) with Done w => w | _ => echo_start echo_script end.

Lemma echo_reach n : reach echo_list (echo_after n).
Proof.
  assert (reach echo_list (echo_start echo_script)) as H0.
  { apply (reach_init echo_list echo_conf echo_script); [|by vm_compute].
    split; [done|]. intros s a Hin%list_elem_of_singleton. injection Hin as -> ->. cbn. lia. }
  assert (forall k w w', reach echo_list w -> polls k w = Done w' -> reach echo_list w') as H.
  { induction k as [|k IH]; cbn [polls]; intros w w' Hw Hp; [by injection Hp as <-|].
    destruct (poll echo_list w) as [[ok w1]| |] eqn:Ep; try done. cbn [obind] in Hp. apply (IH w1); [|done].
    by apply (reach_poll echo_list w ok). }
  unfold echo_after. destruct (polls n _) as [w| |] eqn:Ep; [by eapply H|done..].
Qed.

(** After two rounds one byte is waiting: the descriptor is watched for writing. *)
Lemma proxy_stays_consistent_witness : tcp (echo_after 2) 1 7 /\ registered (echo_after 2) 1 7 /\
  (snd <$> epoll (echo_after 2) !! 7) = Some 0x80000005.
Proof.
  assert (tcp (echo_after 2) 1 7) as Ht by (exists SOCK_TYPE_TCP; vm_compute; done).
  split; [exact Ht|]. split; [|vm_compute; reflexivity].
  exact (proj1 (proj2 (proj2 (proxy_stays_consistent echo_list (echo_after 2) (echo_reach 2)))) 1 7 Ht).
Defined.

(** At second 200 the connection has been idle for longer than a minute. *)
Lemma check_expire_exact_witness :
  let w := set_env (mkScript [] [] [] [] 200) (echo_after 2) in
  exists w', check_expire echo_list w = Done w' /\ ident w 1 = Some (7, SOCK_TYPE_TCP) /\ ident w' 1 = None.
Proof.
  intros w. destruct (check_expire_exact echo_list w) as (w' & H1 & _ & _ & H2); [|reflexivity|vm_compute; discriminate|vm_compute; reflexivity|].
  - exact (set_env_ok None _ _ (reach_commu_ok echo_list _ (echo_reach 2))).
  - exists w'. split; [exact H1|]. split; [vm_compute; reflexivity|]. apply H2.
    assert (_access <$> conn_of (connset_ w) 1 = Some 100) as Ha by (vm_compute; reflexivity).
    apply fmap_Some in Ha as (c & Hc & Ha). exists c. split; [exact Hc|]. rewrite <- Ha. vm_compute. reflexivity.
Defined.
