(* ===== verification/ProcMon.v ===== *)
(** * The process monitor of the controller

    [comm/tbase/tprocmon.h] and [tprocmon.cpp], class [CTProcMonSrv]: the controller
    watches groups of processes.  Processes report by messages; the monitor forks
    and kills to keep each group between its bounds, replaces processes that died,
    and exchanges a whole group on a hot reload.

    The state has the queue of messages, the signals sent and the processes forked;
    messages do not arrive while an operation runs.  What the system decides (the
    clock, whether a process lives, the load counters of a group) comes from an
    environment of class [Sys].  The objects of a bucket carry their address: a
    pointer is a group and an address, and reading through one whose object was
    deleted is undefined.  Paths, affinity, logging and stack dumps are left out. *)

From Stdlib Require Import ZArith Lia.
From stdpp Require Import base list option gmap sorting.
From S2P Require Import Prelude RawCache.

Definition BUCKET_SIZE : Z := 10.
Definition MAX_PROC_GROUP_NUM : Z := 256.
Definition GROUP_UNUSED : Z := -1.
Definition EXCEPTION_STARTBIT : Z := 20.
Definition MSG_SRC_CLIENT : Z := 1.
Definition PROC_RELOAD_NORMAL : Z := 0.
Definition PROC_RELOAD_START : Z := 1.
Definition PROC_RELOAD_WAIT_NEW : Z := 2.
Definition PROC_RELOAD_KILLOLD : Z := 3.
Definition PROC_RELOAD_CLEAR : Z := 4.
Definition ADJUST_PROC_DELAY : Z := 15.
Definition SIGKILL : Z := 9.
Definition SIGUSR1 : Z := 10.
Definition SIGUSR2 : Z := 12.

(** [TGroupInfo]. *)
Record TGroupInfo := mkGI {
  groupid_ : Z;
  adjust_proc_time : Z;
  exitsignal_ : Z;
  maxprocnum_ : Z;
  minprocnum_ : Z;
  heartbeat_ : Z;
  reload_ : Z;
  reload_time : Z
}.

(** [TProcInfo]: [reserve] is the first byte of [reserve_]. *)
Record TProcInfo := mkPI { pi_groupid : Z; pi_procid : Z; pi_timestamp : Z; pi_reserve : Z }.

(** [TProcObj], with its address. *)
Record TProcObj := mkPO { o_addr : Z; procinfo_ : TProcInfo; status_ : Z }.

(** [TProcGroupObj]. *)
Record TProcGroupObj := mkPG {
  groupinfo_ : TGroupInfo;
  bucket_ : list (list TProcObj);
  curprocnum_ : Z;
  errprocnum_ : Z
}.

(** [TProcMonMsg] from a client. *)
Record TProcMonMsg := mkMsg { msgtype_ : Z; srctype_ : Z; msgcontent_ : TProcInfo }.

(** What the system decides.  [sys_alive] is [kill(pid, 0)]: [false] for [ESRCH].
    [sys_load] reads the counters of a group's queue and resets one, if the queue
    can be attached. *)
Class Sys (E : Type) := {
  sys_time : E -> Z * E;
  sys_alive : Z -> E -> bool * E;
  sys_kill : Z -> Z -> E -> E;
  sys_load : Z -> E -> option (Z * Z) * E
}.

Record monsrv (E : Type) := mkSrv {
  proc_groups_ : list TProcGroupObj;
  cur_group_ : Z;
  reload_tag : gmap Z (gset Z);
  next_addr : Z;
  mq : list TProcMonMsg;
  signals : list (Z * Z);
  forks : list (Z * Z);
  env : E
}.
Arguments mkSrv {E}. Arguments proc_groups_ {E}. Arguments cur_group_ {E}. Arguments reload_tag {E}.
Arguments next_addr {E}. Arguments mq {E}. Arguments signals {E}. Arguments forks {E}. Arguments env {E}.

(** ** Groups *)

Definition pid_of (o : TProcObj) : Z := pi_procid (procinfo_ o).

Definition set_reload (r t : Z) (i : TGroupInfo) : TGroupInfo :=
  mkGI (groupid_ i) (adjust_proc_time i) (exitsignal_ i) (maxprocnum_ i) (minprocnum_ i) (heartbeat_ i) r t.
Definition set_adjust (t : Z) (i : TGroupInfo) : TGroupInfo :=
  mkGI (groupid_ i) t (exitsignal_ i) (maxprocnum_ i) (minprocnum_ i) (heartbeat_ i) (reload_ i) (reload_time i).

Definition set_info (i : TGroupInfo) (g : TProcGroupObj) : TProcGroupObj := mkPG i (bucket_ g) (curprocnum_ g) (errprocnum_ g).
Definition set_buckets (b : list (list TProcObj)) (g : TProcGroupObj) : TProcGroupObj :=
  mkPG (groupinfo_ g) b (curprocnum_ g) (errprocnum_ g).
Definition set_counts (c e : Z) (g : TProcGroupObj) : TProcGroupObj := mkPG (groupinfo_ g) (bucket_ g) c e.

(** [procid % BUCKET_SIZE] as an index; a negative one is out of range. *)
Definition bucket_of (pid : Z) : option nat :=
  let b := Z.rem pid BUCKET_SIZE in if b <? 0 then None else Some (Z.to_nat b).

Definition grp_bucket (g : TProcGroupObj) (pid : Z) : outcome (nat * list TProcObj) :=
  j ⇐ oget (bucket_of pid); l ⇐ oget (bucket_ g !! j); Done (j, l).

(** The loop of [find_proc]. *)
Definition grp_find (g : TProcGroupObj) (pid : Z) : outcome (option TProcObj) :=
  '(_, l) ⇐ grp_bucket g pid; Done (list_find (fun o => pid_of o = pid) l ≫= fun x => Some x.2).

(** The body of [add_proc]. *)
Definition grp_add (o : TProcObj) (g : TProcGroupObj) : outcome TProcGroupObj :=
  '(j, l) ⇐ grp_bucket g (pid_of o);
  Done (set_counts (curprocnum_ g + 1) (errprocnum_ g) (set_buckets (<[j := o :: l]> (bucket_ g)) g)).

(** [list_del] of the first with this id. *)
Fixpoint drop_pid (pid : Z) (l : list TProcObj) : list TProcObj :=
  match l with
  | [] => []
  | o :: l => if pid_of o =? pid then l else o :: drop_pid pid l
  end.

(** The body of [del_proc]: the count goes down whether or not it was found. *)
Definition grp_del (pid : Z) (g : TProcGroupObj) : outcome TProcGroupObj :=
  '(j, l) ⇐ grp_bucket g pid;
  Done (set_counts (curprocnum_ g - 1) (errprocnum_ g) (set_buckets (<[j := drop_pid pid l]> (bucket_ g)) g)).

(** A write through a pointer. *)
Definition grp_write (a : Z) (f : TProcObj -> TProcObj) (g : TProcGroupObj) : TProcGroupObj :=
  set_buckets (map (map (fun o => if o_addr o =? a then f o else o)) (bucket_ g)) g.

(** Ascending order, as [std::map] is walked. *)
Definition ascending (s : gset Z) : list Z := merge_sort Z.le (elements s).

Section srv.
Context {E : Type} {sys : Sys E}.
(** [_spp_g_exceptionrestart]. *)
Context (exceptionrestart : bool).
#[local] Abbreviation W := (monsrv E).

Definition set_groups (l : list TProcGroupObj) (w : W) : W :=
  mkSrv l (cur_group_ w) (reload_tag w) (next_addr w) (mq w) (signals w) (forks w) (env w).
Definition set_tag (t : gmap Z (gset Z)) (w : W) : W :=
  mkSrv (proc_groups_ w) (cur_group_ w) t (next_addr w) (mq w) (signals w) (forks w) (env w).
Definition set_mq (q : list TProcMonMsg) (w : W) : W :=
  mkSrv (proc_groups_ w) (cur_group_ w) (reload_tag w) (next_addr w) q (signals w) (forks w) (env w).
Definition set_env (e : E) (w : W) : W :=
  mkSrv (proc_groups_ w) (cur_group_ w) (reload_tag w) (next_addr w) (mq w) (signals w) (forks w) e.

(** [&proc_groups_[i]]: out of the array is undefined. *)
Definition get_group (i : Z) (w : W) : outcome TProcGroupObj :=
  if i <? 0 then Undef else oget (proc_groups_ w !! Z.to_nat i).
Definition put_group (i : Z) (g : TProcGroupObj) (w : W) : W := set_groups (<[Z.to_nat i := g]> (proc_groups_ w)) w.

(** ** System calls *)

Definition time (w : W) : Z * W := let '(t, e) := sys_time (env w) in (t, set_env e w).
Definition alive (pid : Z) (w : W) : bool * W := let '(b, e) := sys_alive pid (env w) in (b, set_env e w).

(** [do_kill]. *)
Definition do_kill (pid signo : Z) (w : W) : W :=
  mkSrv (proc_groups_ w) (cur_group_ w) (reload_tag w) (next_addr w) (mq w) (signals w ++ [(pid, signo)]) (forks w)
    (sys_kill pid signo (env w)).

(** [do_fork] for a group: how many. *)
Definition do_fork (g num : Z) (w : W) : W :=
  mkSrv (proc_groups_ w) (cur_group_ w) (reload_tag w) (next_addr w) (mq w) (signals w) (forks w ++ [(g, num)]) (env w).

(** ** The tables *)

(** The constructor. *)
Definition CTProcMonSrv_new (e : E) : W :=
  mkSrv (replicate (Z.to_nat MAX_PROC_GROUP_NUM) (mkPG (mkGI 0 0 0 0 0 0 0 0) [] GROUP_UNUSED 0)) 0 ∅ 0 [] [] [] e.

(** [add_group]. *)
Definition add_group (info : TGroupInfo) (w : W) : outcome (Z * W) :=
  if (MAX_PROC_GROUP_NUM <? cur_group_ w) || negb (cur_group_ w =? groupid_ info) then Done (-1, w)
  else
    g ⇐ get_group (cur_group_ w) w;
    let w := put_group (cur_group_ w) (mkPG info (replicate (Z.to_nat BUCKET_SIZE) []) 0 0) w in
    Done (0, mkSrv (proc_groups_ w) (cur_group_ w + 1) (reload_tag w) (next_addr w) (mq w) (signals w) (forks w) (env w)).

(** [mod_group]. *)
Definition mod_group (groupid : Z) (info : TGroupInfo) (w : W) : outcome (Z * W) :=
  if groupid =? cur_group_ w then '(_, w) ⇐ add_group info w; Done (0, w)
  else if cur_group_ w <? groupid then Done (-1, w)
  else g ⇐ get_group groupid w; Done (0, put_group groupid (set_info info g) w).

(** [find_group]: the index. *)
Definition find_group (groupid : Z) (w : W) : option nat :=
  x ← list_find (fun g => groupid_ (groupinfo_ g) = groupid /\ curprocnum_ g <> GROUP_UNUSED)
        (take (Z.to_nat (cur_group_ w)) (proc_groups_ w));
  Some x.1.

(** [find_proc]. *)
Definition find_proc (groupid procid : Z) (w : W) : outcome (option TProcObj) :=
  if cur_group_ w <=? groupid then Done None else g ⇐ get_group groupid w; grp_find g procid.

(** [add_proc]. *)
Definition add_proc (groupid : Z) (info : TProcInfo) (w : W) : outcome (Z * W) :=
  if cur_group_ w <=? groupid then Done (-1, w)
  else
    g ⇐ get_group groupid w;
    g ⇐ grp_add (mkPO (next_addr w) info 0) g;
    let w := put_group groupid g w in
    Done (0, mkSrv (proc_groups_ w) (cur_group_ w) (reload_tag w) (next_addr w + 1) (mq w) (signals w) (forks w) (env w)).

(** [del_proc]. *)
Definition del_proc (groupid procid : Z) (w : W) : outcome W :=
  if cur_group_ w <=? groupid then Done w
  else g ⇐ get_group groupid w; g ⇐ grp_del procid g; Done (put_group groupid g w).

(** Reading and writing through a pointer to an object of group [i]. *)
Definition deref (i a : Z) (w : W) : outcome TProcObj :=
  g ⇐ get_group i w; oget (list_find (fun o => o_addr o = a) (concat (bucket_ g)) ≫= fun x => Some x.2).
Definition write (i a : Z) (f : TProcObj -> TProcObj) (w : W) : outcome W :=
  _ ⇐ deref i a w; g ⇐ get_group i w; Done (put_group i (grp_write a f g) w).

Definition set_status (s : Z) (o : TProcObj) : TProcObj := mkPO (o_addr o) (procinfo_ o) s.
Definition set_procinfo (i : TProcInfo) (o : TProcObj) : TProcObj := mkPO (o_addr o) i (status_ o).

(** ** Messages *)

(** [msgrcv]: the first message, or the first of a type. *)
Fixpoint take_msg (t : Z) (q : list TProcMonMsg) : option (TProcMonMsg * list TProcMonMsg) :=
  match q with
  | [] => None
  | m :: q =>
      if (t =? 0) || (msgtype_ m =? t) then Some (m, q)
      else '(x, q) ← take_msg t q; Some (x, m :: q)
  end.

(** [check_reload_old_proc]. *)
Definition check_reload_old_proc (groupid procid : Z) (w : W) : bool :=
  match reload_tag w !! groupid with None => false | Some s => bool_decide (procid ∈ s) end.

Section recv.
(** [do_recv], for the calls inside its own body. *)
Context (do_recv : Z -> W -> outcome W).

(** [do_event] with [PROCMON_EVENT_PROCDEAD] for the object at [a] of group [i]:
    kill it; if it is gone, drop its messages, forget it and fork another. *)
Definition event_procdead (i a : Z) (w : W) : outcome (bool * W) :=
  w ⇐ write i a (set_status 0) w;
  o ⇐ deref i a w;
  g ⇐ get_group (pi_groupid (procinfo_ o)) w;
  let gid := pi_groupid (procinfo_ o) in
  let w := do_kill (pid_of o) (exitsignal_ (groupinfo_ g)) w in
  g ⇐ get_group gid w;
  let w := put_group gid (set_counts (curprocnum_ g) (errprocnum_ g + 1) g) w in
  let '(al, w) := alive (pid_of o) w in
  if al then Done (false, w)
  else
    w ⇐ do_recv (pid_of o) w;
    o ⇐ deref i a w;
    w ⇐ del_proc (pi_groupid (procinfo_ o)) (pid_of o) w;
    Done (true, do_fork gid 1 w).

(** [process_exception] ([segv_wait] only waits). *)
Definition process_exception (info : TProcInfo) (w : W) : outcome W :=
  g ⇐ get_group (pi_groupid info) w;
  if curprocnum_ g =? GROUP_UNUSED then Done w
  else
    r ⇐ find_proc (pi_groupid info) (pi_procid info) w;
    match r with
    | None => Done w
    | Some o =>
        w ⇐ write (pi_groupid info) (o_addr o) (set_status 0) w;
        let '(t, w) := time w in
        g ⇐ get_group (pi_groupid info) w;
        let w := put_group (pi_groupid info) (set_info (set_adjust t (groupinfo_ g)) g) w in
        '(_, w) ⇐ event_procdead (pi_groupid info) (o_addr o) w;
        Done w
    end.

(** The body of the loop of [do_recv]. *)
Definition handle_msg (m : TProcMonMsg) (w : W) : outcome W :=
  let info := msgcontent_ m in
  if negb (Z.land (srctype_ m) 1 =? MSG_SRC_CLIENT) then Done w
  else if negb (Z.shiftr (srctype_ m) EXCEPTION_STARTBIT =? 0) then
    if exceptionrestart then process_exception info w else Done w
  else match find_group (pi_groupid info) w with
  | None => Done w
  | Some i =>
      g ⇐ oget (proc_groups_ w !! i);
      proc ⇐ find_proc (pi_groupid info) (pi_procid info) w;
      match proc with
      | Some o => write (pi_groupid info) (o_addr o) (set_procinfo info) w
      | None =>
          if reload_ (groupinfo_ g) =? PROC_RELOAD_NORMAL then '(_, w) ⇐ add_proc (pi_groupid info) info w; Done w
          else if pi_reserve info =? 1 then Done w
          else if negb (check_reload_old_proc (groupid_ (groupinfo_ g)) (pi_procid info) w) then
            '(_, w) ⇐ add_proc (pi_groupid info) info w; Done w
          else Done w
      end
  end.
End recv.

(** [do_recv]: one unit of fuel for each message taken, and one to find none. *)
Fixpoint do_recv_fuel (fuel : nat) (t : Z) (w : W) : outcome W :=
  match fuel with
  | O => Undef
  | S fuel =>
      match take_msg t (mq w) with
      | None => Done w
      | Some (m, q) => w ⇐ handle_msg (do_recv_fuel fuel) m (set_mq q w); do_recv_fuel fuel t w
      end
  end.
Definition do_recv (t : Z) (w : W) : outcome W := do_recv_fuel (S (length (mq w))) t w.

(** [set_commu]: the messages waiting on the new queue are taken at once. *)
Definition set_commu (q : list TProcMonMsg) (w : W) : outcome W := do_recv 0 (set_mq q w).

(** ** Keeping the numbers *)

(** [check_groupbusy]. *)
Definition check_groupbusy (groupid : Z) (w : W) : bool * W :=
  let '(r, e) := sys_load groupid (env w) in
  (match r with
   | None => false
   | Some (msg_count, proc_count) => if msg_count <=? 0 then false else proc_count <? msg_count
   end, set_env e w).

(** [do_event] with [PROCMON_EVENT_PROCUP]: processes of the first buckets go. *)
Fixpoint event_procup (fuel : nat) (i : Z) (j : nat) (count diff : Z) (w : W) : outcome W :=
  match fuel with
  | O => Undef
  | S fuel =>
      if (Z.to_nat BUCKET_SIZE <=? j)%nat then Done w
      else
        g ⇐ get_group i w;
        l ⇐ oget (bucket_ g !! j);
        match l with
        | [] => if diff <=? count then Done w else event_procup fuel i (S j) count diff w
        | o :: _ =>
            let w := do_kill (pid_of o) SIGUSR1 w in
            w ⇐ do_recv (pid_of o) w;
            w ⇐ del_proc (groupid_ (groupinfo_ g)) (pid_of o) w;
            if diff <=? count + 1 then Done w else event_procup fuel i j (count + 1) diff w
        end
  end.

(** Enough rounds: the processes, the messages that may bring more, the buckets. *)
Definition procup_fuel (g : TProcGroupObj) (w : W) : nat :=
  length (concat (bucket_ g)) + length (mq w) + S (S (Z.to_nat BUCKET_SIZE)).

(** [check_group]. *)
Definition check_group (i : Z) (w : W) : outcome W :=
  g ⇐ get_group i w;
  let info := groupinfo_ g in
  let curprocnum := curprocnum_ g in
  let '(now, w) := time w in
  if now <? adjust_proc_time info + ADJUST_PROC_DELAY then Done w
  else
    let down diff w := Done (do_fork (groupid_ info) diff (put_group i (set_info (set_adjust now info) g) w)) in
    let up diff w :=
      let w := put_group i (set_info (set_adjust now info) g) w in event_procup (procup_fuel g w) i 0 0 diff w in
    if 0 <? minprocnum_ info - curprocnum then down (minprocnum_ info - curprocnum) w
    else if 0 <? curprocnum - maxprocnum_ info then up (curprocnum - maxprocnum_ info) w
    else
      let '(busy, w) := check_groupbusy (groupid_ info) w in
      if negb busy then if minprocnum_ info <? curprocnum then up 1 w else Done w
      else if curprocnum <? maxprocnum_ info then down 1 w else Done w.

(** [check_proc] of the object at [a] of group [i]: [true] when it is deleted. *)
Definition check_proc (i a : Z) (w : W) : outcome (bool * W) :=
  g ⇐ get_group i w;
  o ⇐ deref i a w;
  let '(now, w) := time w in
  w ⇐ write i a (set_status 0) w;
  if pi_timestamp (procinfo_ o) <? now - heartbeat_ (groupinfo_ g) then
    g ⇐ get_group i w;
    event_procdead do_recv i a (put_group i (set_info (set_adjust now (groupinfo_ g)) g) w)
  else Done (false, w).

(** One walk over a bucket: it stops at the first process that is deleted. *)
Fixpoint check_list (i : Z) (l : list Z) (w : W) : outcome (bool * W) :=
  match l with
  | [] => Done (false, w)
  | a :: l => '(r, w) ⇐ check_proc i a w; if (r : bool) then Done (true, w) else check_list i l w
  end.

(** The walk starts again when a process was deleted. *)
Fixpoint check_bucket (fuel : nat) (i : Z) (j : nat) (w : W) : outcome W :=
  match fuel with
  | O => Undef
  | S fuel =>
      g ⇐ get_group i w;
      l ⇐ oget (bucket_ g !! j);
      '(r, w) ⇐ check_list i (map o_addr l) w;
      if (r : bool) then check_bucket fuel i j w else Done w
  end.

Definition bucket_fuel (g : TProcGroupObj) (w : W) : nat := length (concat (bucket_ g)) + length (mq w) + 1.

Fixpoint check_buckets (n : nat) (i : Z) (j : nat) (w : W) : outcome W :=
  match n with
  | O => Done w
  | S n => g ⇐ get_group i w; w ⇐ check_bucket (bucket_fuel g w) i j w; check_buckets n i (S j) w
  end.

(** ** Hot reload *)

Fixpoint kill_alive (l : list Z) (signo : Z) (w : W) : W :=
  match l with
  | [] => w
  | pid :: l => let '(al, w) := alive pid w in kill_alive l signo (if al then do_kill pid signo w else w)
  end.

(** [reload_kill_group]. *)
Definition reload_kill_group (groupid signo : Z) (w : W) : W :=
  match reload_tag w !! groupid with None => w | Some s => kill_alive (ascending s) signo w end.

Fixpoint any_alive (l : list Z) (w : W) : bool * W :=
  match l with
  | [] => (false, w)
  | pid :: l => let '(al, w) := alive pid w in if al then (true, w) else any_alive l w
  end.

(** [reload_check_group_dead]. *)
Definition reload_check_group_dead (groupid : Z) (w : W) : bool * W :=
  match reload_tag w !! groupid with
  | None => (true, w)
  | Some s =>
      let '(al, w) := any_alive (ascending s) w in
      if al then (false, w) else (true, set_tag (delete groupid (reload_tag w)) w)
  end.

Definition set_reload_at (i : Z) (r t : Z) (w : W) : outcome W :=
  g ⇐ get_group i w; Done (put_group i (set_info (set_reload r t (groupinfo_ g)) g) w).

(** One step of the hot reload of a group. *)
Definition reload_step (i : Z) (w : W) : outcome W :=
  g ⇐ get_group i w;
  let info := groupinfo_ g in
  if reload_ info =? PROC_RELOAD_START then
    let w := do_fork (groupid_ info) (minprocnum_ info) w in
    let '(t, w) := time w in set_reload_at i PROC_RELOAD_WAIT_NEW t w
  else if reload_ info =? PROC_RELOAD_WAIT_NEW then
    let '(t, w) := if minprocnum_ info <=? curprocnum_ g then (0, w) else time w in
    if (minprocnum_ info <=? curprocnum_ g) || (reload_time info + 30 <? t) then
      let w := reload_kill_group (groupid_ info) SIGUSR2 w in
      let '(t, w) := time w in set_reload_at i PROC_RELOAD_KILLOLD t w
    else Done w
  else if reload_ info =? PROC_RELOAD_KILLOLD then
    let w := reload_kill_group (groupid_ info) SIGUSR2 w in
    let '(t, w) := time w in set_reload_at i PROC_RELOAD_CLEAR t w
  else if reload_ info =? PROC_RELOAD_CLEAR then
    let '(dead, w) := reload_check_group_dead (groupid_ info) w in
    if dead then let '(t, w) := time w in set_reload_at i PROC_RELOAD_NORMAL t w
    else
      let '(t, w) := time w in
      if reload_time info + 30 <? t then Done (reload_kill_group (groupid_ info) SIGKILL w) else Done w
  else Done w.

(** ** The operations *)

(** [do_check]: from group [i] on, [n] groups. *)
Fixpoint do_check (n : nat) (i : Z) (w : W) : outcome W :=
  match n with
  | O => Done w
  | S n =>
      g ⇐ get_group i w;
      w ⇐ (if curprocnum_ g =? GROUP_UNUSED then Done w
           else if 0 <? reload_ (groupinfo_ g) then reload_step i w
           else w ⇐ check_group i w; check_buckets (Z.to_nat BUCKET_SIZE) i 0 w);
      do_check n (i + 1) w
  end.

(** [run]. *)
Definition run (w : W) : outcome W := w ⇐ do_recv 0 w; do_check (Z.to_nat (cur_group_ w)) 0 w.

(** [killall]. *)
Definition killall (signo : Z) (w : W) : W :=
  foldl (fun w g => if curprocnum_ g =? GROUP_UNUSED then w
                    else foldl (fun w o => do_kill (pid_of o) signo w) w (concat (bucket_ g)))
    w (take (Z.to_nat (cur_group_ w)) (proc_groups_ w)).

Fixpoint kill_and_del (g : Z) (l : list Z) (signo : Z) (w : W) : outcome W :=
  match l with
  | [] => Done w
  | pid :: l => w ⇐ del_proc g pid (do_kill pid signo w); kill_and_del g l signo w
  end.

(** [kill_group]. *)
Definition kill_group (grp_id signo : Z) (w : W) : outcome W :=
  match find_group grp_id w with
  | None => Done w
  | Some i =>
      g ⇐ oget (proc_groups_ w !! i);
      kill_and_del grp_id (ascending (list_to_set (map pid_of (concat (bucket_ g))))) signo w
  end.

Fixpoint del_all (g : Z) (l : list Z) (w : W) : outcome W :=
  match l with [] => Done w | pid :: l => w ⇐ del_proc g pid w; del_all g l w end.

(** [pre_reload_group]. *)
Definition pre_reload_group (groupid : Z) (info : TGroupInfo) (w : W) : outcome W :=
  g ⇐ get_group groupid w;
  let pids := map pid_of (concat (bucket_ g)) in
  w ⇐ del_all groupid pids w;
  let w := set_tag (<[groupid := list_to_set pids]> (reload_tag w)) w in
  '(_, w) ⇐ mod_group groupid info w;
  g ⇐ get_group groupid w;
  Done (put_group groupid (set_counts 0 0 g) w).
End srv.
