(* ===== verification/ProcMonInv.v ===== *)
(** * The tables of the process monitor stay exact

    The invariant of the monitor's tables ([ProcMon]) and that receiving messages,
    adjusting the number of processes, replacing dead ones and reloading keep it. *)

From Stdlib Require Import ZArith Lia.
From stdpp Require Import base list option gmap sorting.
From S2P Require Import Prelude RawCache ProcMon.

(** ** One group *)

(** The processes of a group. *)
Definition members (g : TProcGroupObj) : list TProcObj := concat (bucket_ g).

Record grp_ok (i : Z) (g : TProcGroupObj) : Prop := {
  go_len : length (bucket_ g) = Z.to_nat BUCKET_SIZE;
  go_in : forall j l o, bucket_ g !! j = Some l -> o ∈ l ->
    0 <= pid_of o /\ Z.to_nat (pid_of o mod BUCKET_SIZE) = j /\ pi_groupid (procinfo_ o) = i;
  go_pids : NoDup (map pid_of (members g));
  go_addrs : NoDup (map o_addr (members g));
  go_count : curprocnum_ g = Z.of_nat (length (members g));
  go_id : groupid_ (groupinfo_ g) = i;
  go_bounds : 0 <= minprocnum_ (groupinfo_ g) /\ 0 <= maxprocnum_ (groupinfo_ g)
}.

Lemma bucket_of_pid pid : 0 <= pid -> bucket_of pid = Some (Z.to_nat (pid mod BUCKET_SIZE)).
Proof.
  intros H. unfold bucket_of, BUCKET_SIZE. rewrite Z.rem_mod_nonneg by lia.
  pose proof (Z.mod_pos_bound pid 10 ltac:(lia)). by rewrite (proj2 (Z.ltb_ge _ _)) by lia.
Qed.

Lemma grp_bucket_ok i g pid : grp_ok i g -> 0 <= pid ->
  exists l, grp_bucket g pid = Done (Z.to_nat (pid mod BUCKET_SIZE), l) /\ bucket_ g !! Z.to_nat (pid mod BUCKET_SIZE) = Some l.
Proof.
  intros Hg Hp. unfold grp_bucket. rewrite bucket_of_pid by done. cbn [oget obind].
  destruct (lookup_lt_is_Some_2 (bucket_ g) (Z.to_nat (pid mod BUCKET_SIZE))) as [l Hl].
  { rewrite (go_len _ _ Hg). unfold BUCKET_SIZE. pose proof (Z.mod_pos_bound pid 10 ltac:(lia)). lia. }
  exists l. by rewrite Hl.
Qed.

(** A bucket is a part of the members. *)
Lemma members_split g j l : bucket_ g !! j = Some l ->
  exists a b, members g = a ++ l ++ b /\ forall l', concat (<[j := l']> (bucket_ g)) = a ++ l' ++ b.
Proof.
  intros Hl. exists (concat (take j (bucket_ g))), (concat (drop (S j) (bucket_ g))). split.
  - unfold members. rewrite <- (take_drop_middle _ _ _ Hl) at 1. by rewrite concat_app.
  - intros l'. rewrite insert_take_drop by (by eapply lookup_lt_Some). by rewrite concat_app.
Qed.

Lemma elem_members g o : o ∈ members g <-> exists j l, bucket_ g !! j = Some l /\ o ∈ l.
Proof.
  unfold members. rewrite list_elem_of_In, in_concat. setoid_rewrite <- list_elem_of_In. split.
  - intros (l & [j Hj]%list_elem_of_lookup & Ho). eauto.
  - intros (j & l & Hj & Ho). exists l. split; [by eapply list_elem_of_lookup_2|done].
Qed.

Lemma members_facts i g o : grp_ok i g -> o ∈ members g -> 0 <= pid_of o /\ pi_groupid (procinfo_ o) = i /\
  exists l, bucket_ g !! Z.to_nat (pid_of o mod BUCKET_SIZE) = Some l /\ o ∈ l.
Proof.
  intros Hg (j & l & Hj & Ho)%elem_members. destruct (go_in _ _ Hg j l o Hj Ho) as (H1 & H2 & H3).
  split; [done|]. split; [done|]. exists l. by rewrite H2.
Qed.

(** An element of a list without repeated keys is named by its key. *)
Lemma key_unique {A} (f : A -> Z) (l : list A) x y : NoDup (map f l) -> x ∈ l -> y ∈ l -> f x = f y -> x = y.
Proof.
  induction l as [|z l IH]; cbn; intros Hn Hx Hy Hf; [by apply not_elem_of_nil in Hx|].
  apply NoDup_cons in Hn as [Hz Hn]. apply elem_of_cons in Hx as [-> |Hx], Hy as [-> |Hy]; [done| | |by apply IH].
  - destruct Hz. rewrite Hf. by apply list_elem_of_fmap_2.
  - destruct Hz. rewrite <- Hf. by apply list_elem_of_fmap_2.
Qed.

Lemma grp_find_ok i g pid : grp_ok i g -> 0 <= pid ->
  exists r, grp_find g pid = Done r /\ (forall o, r = Some o -> o ∈ members g /\ pid_of o = pid) /\
    (r = None -> forall o, o ∈ members g -> pid_of o <> pid).
Proof.
  intros Hg Hp. unfold grp_find. destruct (grp_bucket_ok i g pid Hg Hp) as (l & -> & Hl). cbn [obind].
  eexists. split; [done|]. split.
  - intros o Ho. destruct (list_find (fun o => pid_of o = pid) l) as [[k o']|] eqn:Ef; [|done]. injection Ho as ->.
    apply list_find_Some in Ef as (Hk & Hpid & _). split; [|done]. apply elem_members. eexists _, l.
    split; [done|by eapply list_elem_of_lookup_2].
  - intros Hn o Ho Hpid. destruct (list_find (fun o => pid_of o = pid) l) as [[k o']|] eqn:Ef; [done|].
    apply list_find_None in Ef. rewrite Forall_forall in Ef. destruct (members_facts i g o Hg Ho) as (_ & _ & l' & Hl' & Hin).
    rewrite Hpid, Hl in Hl'. injection Hl' as <-. by apply (Ef o Hin).
Qed.

(** A group with another bucket. *)
Lemma set_bucket_ok i g j l l' c e : grp_ok i g -> bucket_ g !! j = Some l ->
  (forall o, o ∈ l' -> 0 <= pid_of o /\ Z.to_nat (pid_of o mod BUCKET_SIZE) = j /\ pi_groupid (procinfo_ o) = i) ->
  let g' := set_counts c e (set_buckets (<[j := l']> (bucket_ g)) g) in
  NoDup (map pid_of (members g')) -> NoDup (map o_addr (members g')) -> c = Z.of_nat (length (members g')) -> grp_ok i g'.
Proof.
  intros Hg Hl Hin g' H1 H2 H3. split; try done; cbn [bucket_ set_counts set_buckets g' groupinfo_].
  - by rewrite length_insert, (go_len _ _ Hg).
  - intros k m o Hk Ho. destruct (decide (k = j)) as [->|Hne].
    + rewrite list_lookup_insert_eq in Hk by (by eapply lookup_lt_Some). injection Hk as <-. by apply Hin.
    + rewrite list_lookup_insert_ne in Hk by done. by apply (go_in _ _ Hg k m).
  - apply Hg.
  - apply Hg.
Qed.

Lemma grp_add_ok i g o : grp_ok i g -> 0 <= pid_of o -> pi_groupid (procinfo_ o) = i ->
  (forall o', o' ∈ members g -> pid_of o' <> pid_of o /\ o_addr o' <> o_addr o) ->
  exists g', grp_add o g = Done g' /\ grp_ok i g' /\ members g' ≡ₚ o :: members g /\ groupinfo_ g' = groupinfo_ g.
Proof.
  intros Hg Hp Hi Hnew. unfold grp_add. destruct (grp_bucket_ok i g _ Hg Hp) as (l & -> & Hl). cbn [obind].
  destruct (members_split _ _ _ Hl) as (a & b & Em & Ei). eexists. split; [done|]. set (g' := set_counts _ _ _).
  assert (members g' ≡ₚ o :: members g) as Hperm.
  { unfold members at 1. cbn. rewrite Ei, Em. cbn. by rewrite <- Permutation_middle. }
  split; [|done]. apply (set_bucket_ok i g _ l _ _ _ Hg Hl).
  - intros o' [-> |Ho']%elem_of_cons; [done|]. by apply (go_in _ _ Hg _ l).
  - fold g'. rewrite Hperm. cbn. apply NoDup_cons. split; [|apply Hg]. intros Hin. apply list_elem_of_fmap in Hin as (o' & He & Ho').
    by destruct (Hnew o' Ho') as [[] _].
  - fold g'. rewrite Hperm. cbn. apply NoDup_cons. split; [|apply Hg]. intros Hin. apply list_elem_of_fmap in Hin as (o' & He & Ho').
    by destruct (Hnew o' Ho') as [_ []].
  - fold g'. rewrite Hperm. cbn [length]. rewrite (go_count _ _ Hg). lia.
Qed.

Lemma drop_pid_split o l : NoDup (map pid_of l) -> o ∈ l -> l ≡ₚ o :: drop_pid (pid_of o) l.
Proof.
  induction l as [|x l IH]; cbn; intros Hn Hin; [by apply not_elem_of_nil in Hin|]. apply NoDup_cons in Hn as [Hx Hn].
  apply elem_of_cons in Hin as [-> |Hin]; [by rewrite Z.eqb_refl|].
  destruct (Z.eqb_spec (pid_of x) (pid_of o)) as [He|He].
  - destruct Hx. rewrite He. by apply list_elem_of_fmap_2.
  - rewrite (IH Hn Hin) at 1. by rewrite Permutation_swap.
Qed.

Lemma drop_pid_elem pid o l : o ∈ drop_pid pid l -> o ∈ l.
Proof.
  induction l as [|x l IH]; cbn; [done|]. destruct (pid_of x =? pid); [by right|].
  intros [-> |H]%elem_of_cons; [by left|right; auto].
Qed.

Lemma grp_del_ok i g o : grp_ok i g -> o ∈ members g ->
  exists g', grp_del (pid_of o) g = Done g' /\ grp_ok i g' /\ members g ≡ₚ o :: members g' /\ groupinfo_ g' = groupinfo_ g.
Proof.
  intros Hg Ho. destruct (members_facts i g o Hg Ho) as (Hp & Hi & l & Hl & Hin). unfold grp_del.
  destruct (grp_bucket_ok i g _ Hg Hp) as (l' & -> & Hl'). cbn [obind]. rewrite Hl in Hl'. injection Hl' as <-.
  destruct (members_split _ _ _ Hl) as (a & b & Em & Ei). eexists. split; [done|]. set (g' := set_counts _ _ _).
  assert (NoDup (map pid_of l)) as Hnl.
  { pose proof (go_pids _ _ Hg) as H. rewrite Em, !map_app in H. apply NoDup_app in H as (_ & _ & H).
    by apply NoDup_app in H as (? & _ & _). }
  assert (members g ≡ₚ o :: members g') as Hperm.
  { rewrite Em. unfold members. cbn. rewrite Ei. rewrite (drop_pid_split o l Hnl Hin) at 1. cbn. by rewrite <- Permutation_middle. }
  split; [|done]. pose proof (go_pids _ _ Hg) as N1. pose proof (go_addrs _ _ Hg) as N2. pose proof (go_count _ _ Hg) as N3.
  rewrite Hperm in N1, N2, N3. cbn in N1, N2. apply NoDup_cons in N1 as [_ N1], N2 as [_ N2].
  apply (set_bucket_ok i g _ l _ _ _ Hg Hl); [|done|done|fold g'; cbn [length] in N3; lia].
  intros o' Ho'. apply (go_in _ _ Hg _ l); [done|by eapply drop_pid_elem].
Qed.

(** A write that keeps the identity. *)
Definition keeps_id (f : TProcObj -> TProcObj) : Prop := forall o, o_addr (f o) = o_addr o /\ pid_of (f o) = pid_of o /\
  pi_groupid (procinfo_ (f o)) = pi_groupid (procinfo_ o).

Lemma members_write a f g : members (grp_write a f g) = map (fun o => if o_addr o =? a then f o else o) (members g).
Proof. unfold members. cbn. by rewrite concat_map. Qed.

Lemma grp_write_ok i g a f : grp_ok i g ->
  (forall o, o ∈ members g -> o_addr o = a -> o_addr (f o) = o_addr o /\ pid_of (f o) = pid_of o /\
     pi_groupid (procinfo_ (f o)) = pi_groupid (procinfo_ o)) ->
  grp_ok i (grp_write a f g).
Proof.
  intros Hg Hf. set (F := fun o => if o_addr o =? a then f o else o).
  assert (forall o, o ∈ members g -> o_addr (F o) = o_addr o /\ pid_of (F o) = pid_of o /\
    pi_groupid (procinfo_ (F o)) = pi_groupid (procinfo_ o)) as HF.
  { intros o Ho. unfold F. destruct (Z.eqb_spec (o_addr o) a); [by apply Hf|done]. }
  assert (forall h : TProcObj -> Z, (forall o, o ∈ members g -> h (F o) = h o) -> map h (map F (members g)) = map h (members g)) as Hmap.
  { intros h Hh. rewrite map_map. apply map_ext_in. intros o Ho. apply Hh. by apply list_elem_of_In. }
  split; rewrite ?members_write; fold F.
  - cbn. rewrite length_map. apply Hg.
  - intros j l o Hj Ho. cbn in Hj. rewrite list_lookup_fmap in Hj. apply fmap_Some in Hj as (l0 & Hj & ->).
    apply list_elem_of_fmap in Ho as (o0 & Ho0 & Ho). change (o = F o0) in Ho0. subst o. assert (o0 ∈ members g) as Hm by (apply elem_members; eauto).
    destruct (HF o0 Hm) as (_ & -> & ->). by apply (go_in _ _ Hg j l0).
  - rewrite Hmap by (intros; by apply HF). apply Hg.
  - rewrite Hmap by (intros; by apply HF). apply Hg.
  - rewrite length_map. apply Hg.
  - apply Hg.
  - apply Hg.
Qed.

(** ** The whole table *)

Section inv.
Context {E : Type} {sys : Sys E}.
#[local] Abbreviation W := (monsrv E).

Record pm_ok (w : W) : Prop := {
  po_len : length (proc_groups_ w) = Z.to_nat MAX_PROC_GROUP_NUM;
  po_cur : 0 <= cur_group_ w <= MAX_PROC_GROUP_NUM;
  po_grp : forall i, 0 <= i < cur_group_ w -> exists g, proc_groups_ w !! Z.to_nat i = Some g /\ grp_ok i g /\
    forall o, o ∈ members g -> o_addr o < next_addr w;
  po_unused : forall i g, cur_group_ w <= i -> proc_groups_ w !! Z.to_nat i = Some g -> curprocnum_ g = GROUP_UNUSED
}.

(** Object [o] is in group [i]. *)
Definition obj (w : W) (i : Z) (o : TProcObj) : Prop := exists g, get_group i w = Done g /\ o ∈ members g.

(** From [w] to [w'] no object is lost or changes its identity. *)
Record kept (w w' : W) : Prop := {
  kp_cur : cur_group_ w' = cur_group_ w;
  kp_obj : forall i o, 0 <= i < cur_group_ w -> obj w i o -> exists o', obj w' i o' /\ o_addr o' = o_addr o /\ pid_of o' = pid_of o
}.

Lemma kept_refl w : kept w w.
Proof. split; [done|eauto]. Qed.

Lemma kept_trans w1 w2 w3 : kept w1 w2 -> kept w2 w3 -> kept w1 w3.
Proof.
  intros [H1 H2] [H3 H4]. split; [congruence|]. intros i o Hi Ho. destruct (H2 i o Hi Ho) as (o2 & Ho2 & <- & <-).
  apply H4; [by rewrite H1|done].
Qed.

(** The table is the same. *)
Lemma same_table_ok w w' : proc_groups_ w' = proc_groups_ w -> cur_group_ w' = cur_group_ w -> next_addr w' = next_addr w ->
  pm_ok w -> pm_ok w'.
Proof. intros E1 E2 E3 [? ? ? ?]. split; rewrite ?E1, ?E2, ?E3; done. Qed.

Lemma same_table_kept w w' : proc_groups_ w' = proc_groups_ w -> cur_group_ w' = cur_group_ w -> kept w w'.
Proof. intros E1 E2. split; [done|]. intros i o _ (g & Eg & Ho). exists o. split; [|done]. exists g. unfold get_group in *. by rewrite E1. Qed.

Section state.
Context (w : W) (Hw : pm_ok w).

Lemma get_group_ok i : 0 <= i < cur_group_ w ->
  exists g, get_group i w = Done g /\ grp_ok i g /\ (forall o, o ∈ members g -> o_addr o < next_addr w).
Proof.
  intros Hi. destruct (po_grp _ Hw i Hi) as (g & Hg & Hok & Ha). exists g. unfold get_group.
  rewrite (proj2 (Z.ltb_ge i 0)) by lia. by rewrite Hg.
Qed.

Lemma get_put i j g : 0 <= i < cur_group_ w -> 0 <= j ->
  get_group j (put_group i g w) = if decide (j = i) then Done g else get_group j w.
Proof.
  intros Hi Hj. pose proof (po_cur _ Hw). pose proof (po_len _ Hw) as Hl. unfold get_group, put_group. cbn.
  rewrite (proj2 (Z.ltb_ge j 0)) by lia. destruct (decide (j = i)) as [->|Hne].
  - by rewrite list_lookup_insert_eq by lia.
  - by rewrite list_lookup_insert_ne by lia.
Qed.

Lemma put_group_ok i g n : 0 <= i < cur_group_ w -> grp_ok i g -> next_addr w <= n -> (forall o, o ∈ members g -> o_addr o < n) ->
  forall w', proc_groups_ w' = proc_groups_ (put_group i g w) -> cur_group_ w' = cur_group_ w -> next_addr w' = n -> pm_ok w'.
Proof.
  intros Hi Hg Hn Ha w' E1 E2 E3. pose proof (po_cur _ Hw). pose proof (po_len _ Hw) as Hl. unfold put_group in E1. cbn in E1.
  split; rewrite ?E1, ?E2, ?E3.
  - by rewrite length_insert.
  - done.
  - intros j Hj. destruct (decide (j = i)) as [->|Hne].
    + exists g. by rewrite list_lookup_insert_eq by lia.
    + rewrite list_lookup_insert_ne by lia. destruct (po_grp _ Hw j Hj) as (g' & H1 & H2 & H3). exists g'.
      split; [done|]. split; [done|]. intros o Ho. specialize (H3 o Ho). lia.
  - intros j g' Hj. rewrite list_lookup_insert_ne by lia. by apply (po_unused _ Hw).
Qed.

(** Pointers into the table are good. *)
Lemma deref_ok i o : 0 <= i < cur_group_ w -> obj w i o -> deref i (o_addr o) w = Done o.
Proof.
  intros Hi (g & Eg & Ho). unfold deref. rewrite Eg. cbn [obind].
  destruct (get_group_ok i Hi) as (g' & Eg' & Hg & _). rewrite Eg in Eg'. injection Eg' as <-. fold (members g).
  destruct (list_find (fun o' => o_addr o' = o_addr o) (members g)) as [[k o']|] eqn:Ef.
  - apply list_find_Some in Ef as (Hk & Ha & _). cbn. f_equal. apply (key_unique o_addr (members g)); [apply Hg| |done|done].
    by eapply list_elem_of_lookup_2.
  - apply list_find_None in Ef. rewrite Forall_forall in Ef. by destruct (Ef o Ho).
Qed.

Lemma find_proc_ok i pid : 0 <= i -> 0 <= pid ->
  exists r, find_proc i pid w = Done r /\
    (forall o, r = Some o -> i < cur_group_ w /\ obj w i o /\ pid_of o = pid) /\
    (r = None -> forall o, i < cur_group_ w -> obj w i o -> pid_of o <> pid).
Proof.
  intros Hi Hp. unfold find_proc. destruct (Z.leb_spec (cur_group_ w) i) as [Hc|Hc].
  { exists None. split; [done|]. split; [done|]. intros _ o Ho. lia. }
  destruct (get_group_ok i ltac:(lia)) as (g & Eg & Hg & _). rewrite Eg. cbn [obind].
  destruct (grp_find_ok i g pid Hg Hp) as (r & -> & H1 & H2). exists r. split; [done|]. split.
  - intros o Ho. destruct (H1 o Ho) as [Hm Hpid]. split; [done|]. split; [by exists g|done].
  - intros Hr o _ (g' & Eg' & Ho). rewrite Eg in Eg'. injection Eg' as <-. by apply H2.
Qed.

(** Replacing a group by one with the same objects, as far as identity goes. *)
Lemma put_same i g g' : 0 <= i < cur_group_ w -> get_group i w = Done g -> grp_ok i g' ->
  map o_addr (members g') = map o_addr (members g) -> map pid_of (members g') = map pid_of (members g) ->
  forall w', proc_groups_ w' = proc_groups_ (put_group i g' w) -> cur_group_ w' = cur_group_ w -> next_addr w' = next_addr w ->
  pm_ok w' /\ kept w w' /\ get_group i w' = Done g'.
Proof.
  intros Hi Eg Hg' Ha Hp w' E1 E2 E3. destruct (get_group_ok i Hi) as (g0 & Eg0 & Hg & Hlt). rewrite Eg in Eg0. injection Eg0 as <-.
  assert (forall j, 0 <= j -> get_group j w' = if decide (j = i) then Done g' else get_group j w) as Hget.
  { intros j Hj. rewrite <- get_put by done. unfold get_group. by rewrite E1. }
  split; [|split].
  - apply (put_group_ok i g' (next_addr w) Hi Hg'); [lia| |done|done|done]. intros o Ho.
    assert (o_addr o ∈ map o_addr (members g)) as Hin by (rewrite <- Ha; by apply list_elem_of_fmap_2).
    apply list_elem_of_fmap in Hin as (o0 & -> & Ho0). by apply Hlt.
  - split; [done|]. intros j o Hj (g0 & Eg0 & Ho). destruct (decide (j = i)) as [->|Hne].
    + rewrite Eg in Eg0. injection Eg0 as <-. apply list_elem_of_lookup in Ho as [k Hk].
      assert (map o_addr (members g') !! k = Some (o_addr o)) as Hk1 by (rewrite Ha, list_lookup_fmap, Hk; done).
      assert (map pid_of (members g') !! k = Some (pid_of o)) as Hk2 by (rewrite Hp, list_lookup_fmap, Hk; done).
      rewrite list_lookup_fmap in Hk1, Hk2. destruct (members g' !! k) as [o'|] eqn:Ek; [|done].
      injection Hk1 as Hk1. injection Hk2 as Hk2. exists o'. split; [|done]. exists g'. rewrite Hget by lia.
      rewrite decide_True by done. split; [done|by eapply list_elem_of_lookup_2].
    + exists o. split; [|done]. exists g0. rewrite Hget by lia. by rewrite decide_False.
  - rewrite Hget by lia. by rewrite decide_True.
Qed.

(** The object at [a] is written, its identity kept. *)
Lemma write_ok i o f : 0 <= i < cur_group_ w -> obj w i o ->
  o_addr (f o) = o_addr o -> pid_of (f o) = pid_of o -> pi_groupid (procinfo_ (f o)) = pi_groupid (procinfo_ o) ->
  exists w', write i (o_addr o) f w = Done w' /\ pm_ok w' /\ kept w w' /\ obj w' i (f o) /\
    w' = put_group i (grp_write (o_addr o) f (default (mkPG (mkGI 0 0 0 0 0 0 0 0) [] 0 0) (proc_groups_ w !! Z.to_nat i))) w.
Proof.
  intros Hi Ho F1 F2 F3. unfold write. rewrite (deref_ok i o Hi Ho). cbn [obind]. destruct Ho as (g & Eg & Ho).
  destruct (get_group_ok i Hi) as (g0 & Eg0 & Hg & Hlt). rewrite Eg in Eg0. injection Eg0 as <-. rewrite Eg. cbn [obind].
  assert (forall o', o' ∈ members g -> o_addr o' = o_addr o -> o' = o) as Huniq by (intros o' H1 H2; by apply (key_unique o_addr (members g)); [apply Hg|..]).
  set (F := fun o' => if o_addr o' =? o_addr o then f o' else o').
  assert (forall h : TProcObj -> Z, h (f o) = h o -> map h (members (grp_write (o_addr o) f g)) = map h (members g)) as Hmap.
  { intros h Hh. rewrite members_write, map_map. apply map_ext_in. intros o' Ho'%list_elem_of_In.
    destruct (Z.eqb_spec (o_addr o') (o_addr o)) as [He|He]; [|done]. by rewrite (Huniq o' Ho' He). }
  assert (proc_groups_ w !! Z.to_nat i = Some g) as El.
  { unfold get_group in Eg. destruct (i <? 0); [done|]. destruct (_ !! _); [by injection Eg as ->|done]. }
  rewrite El. cbn [default from_option id]. eexists. split; [done|].
  destruct (put_same i g (grp_write (o_addr o) f g) Hi Eg) with (w' := put_group i (grp_write (o_addr o) f g) w) as (H1 & H2 & H3); try done.
  - apply grp_write_ok; [done|]. intros o' Ho' He. rewrite (Huniq o' Ho' He). done.
  - by apply Hmap.
  - by apply Hmap.
  - split; [done|]. split; [done|]. split; [|done]. exists (grp_write (o_addr o) f g). split; [done|]. rewrite members_write.
    apply list_elem_of_fmap. exists o. rewrite Z.eqb_refl. done.
Qed.
End state.

(** ** Adding and deleting *)

(** Everything but the table and the fresh address is the same. *)
Record only_table (w w' : W) : Prop := {
  ot_cur : cur_group_ w' = cur_group_ w;
  ot_tag : reload_tag w' = reload_tag w;
  ot_mq : mq w' = mq w;
  ot_sig : signals w' = signals w;
  ot_forks : forks w' = forks w
}.

Lemma only_table_refl w : only_table w w.
Proof. done. Qed.

Lemma only_table_trans w1 w2 w3 : only_table w1 w2 -> only_table w2 w3 -> only_table w1 w3.
Proof. intros [] []. split; congruence. Qed.

Lemma add_proc_ok w i info : pm_ok w -> 0 <= i < cur_group_ w -> pi_groupid info = i -> 0 <= pi_procid info ->
  (forall o, obj w i o -> pid_of o <> pi_procid info) ->
  exists w', add_proc i info w = Done (0, w') /\ pm_ok w' /\ kept w w' /\ only_table w w'.
Proof.
  intros Hw Hi Hg Hp Hnew. unfold add_proc. rewrite (proj2 (Z.leb_gt _ _)) by lia.
  destruct (get_group_ok w Hw i Hi) as (g & Eg & Hok & Hlt). rewrite Eg. cbn [obind].
  destruct (grp_add_ok i g (mkPO (next_addr w) info 0) Hok Hp Hg) as (g' & -> & Hok' & Hperm & _).
  { intros o Ho. split; [apply Hnew; by exists g|]. specialize (Hlt o Ho). cbn. lia. }
  cbn [obind]. eexists. split; [done|]. set (w' := mkSrv _ _ _ _ _ _ _ _).
  assert (pm_ok w') as Hw'.
  { apply (put_group_ok w Hw i g' (next_addr w + 1) Hi Hok'); [lia| |done..]. intros o Ho. rewrite Hperm in Ho.
    apply elem_of_cons in Ho as [-> |Ho]; [cbn; lia|]. specialize (Hlt o Ho). lia. }
  split; [done|]. split; [|done]. split; [done|]. intros j o Hj (g0 & Eg0 & Ho). exists o. split; [|done].
  assert (get_group j w' = get_group j (put_group i g' w)) as Eget by done.
  rewrite (get_put w Hw i j g' Hi) in Eget by lia. destruct (decide (j = i)) as [->|Hne].
  - rewrite Eg in Eg0. injection Eg0 as <-. exists g'. split; [done|]. rewrite Hperm. by right.
  - exists g0. split; [congruence|done].
Qed.

(** Deleting an object that is there. *)
Lemma del_proc_ok w i o : pm_ok w -> 0 <= i < cur_group_ w -> obj w i o ->
  exists w' g g', del_proc i (pid_of o) w = Done w' /\ pm_ok w' /\ only_table w w' /\ get_group i w = Done g /\
    get_group i w' = Done g' /\ members g ≡ₚ o :: members g' /\ groupinfo_ g' = groupinfo_ g.
Proof.
  intros Hw Hi (g & Eg & Ho). unfold del_proc. rewrite (proj2 (Z.leb_gt _ _)) by lia.
  destruct (get_group_ok w Hw i Hi) as (g0 & Eg0 & Hok & Hlt). rewrite Eg in Eg0. injection Eg0 as <-. rewrite Eg. cbn [obind].
  destruct (grp_del_ok i g o Hok Ho) as (g' & -> & Hok' & Hperm & Hinfo). cbn [obind]. exists (put_group i g' w), g, g'.
  split; [done|]. split.
  - apply (put_group_ok w Hw i g' (next_addr w) Hi Hok'); [lia| |done..]. intros o' Ho'. apply Hlt. rewrite Hperm. by right.
  - split; [done|]. split; [done|]. split; [|done]. rewrite (get_put w Hw i i) by lia. by rewrite decide_True.
Qed.

(** ** Messages *)

(** What clients send: their own id, in type and content. *)
Definition msg_ok (m : TProcMonMsg) : Prop := 0 < pi_procid (msgcontent_ m) /\ msgtype_ m = pi_procid (msgcontent_ m) /\
  0 <= pi_groupid (msgcontent_ m) < MAX_PROC_GROUP_NUM.

Definition is_exception (m : TProcMonMsg) : Prop :=
  Z.land (srctype_ m) 1 = MSG_SRC_CLIENT /\ Z.shiftr (srctype_ m) EXCEPTION_STARTBIT <> 0.
#[global] Instance is_exception_dec m : Decision (is_exception m).
Proof. unfold is_exception. apply _. Defined.

Definition matches (t : Z) (m : TProcMonMsg) : Prop := t = 0 \/ msgtype_ m = t.
#[global] Instance matches_dec t m : Decision (matches t m).
Proof. unfold matches. apply _. Defined.

Lemma take_msg_none t q : take_msg t q = None -> Forall (fun m => ~ matches t m) q.
Proof.
  induction q as [|m q IH]; cbn; [done|]. destruct (Z.eqb_spec t 0), (Z.eqb_spec (msgtype_ m) t); cbn; try done.
  destruct (take_msg t q) as [[x q']|]; [done|]. intros _. constructor; [unfold matches; tauto|by apply IH].
Qed.

Lemma take_msg_some t q m q' : take_msg t q = Some (m, q') ->
  exists a b, q = a ++ m :: b /\ q' = a ++ b /\ matches t m /\ Forall (fun m => ~ matches t m) a.
Proof.
  revert m q'. induction q as [|x q IH]; cbn; [done|]. intros m q'. destruct ((t =? 0) || (msgtype_ x =? t)) eqn:Em.
  - intros [= -> ->]. exists [], q'. split; [done|]. split; [done|]. split; [|done]. unfold matches. lia.
  - destruct (take_msg t q) as [[y q2]|] eqn:Et; [|done]. intros [= -> <-]. destruct (IH _ _ eq_refl) as (a & b & -> & -> & Hm & Ha).
    exists (x :: a), b. split_and!; try done. constructor; [unfold matches; lia|done].
Qed.

Lemma find_group_ok w gid i : pm_ok w -> find_group gid w = Some i -> Z.of_nat i = gid /\ 0 <= gid < cur_group_ w.
Proof.
  intros Hw. unfold find_group. destruct (list_find _ _) as [[k g]|] eqn:Ef; [|done]. intros [= <-].
  apply list_find_Some in Ef as (Hk & [Hid _] & _). apply lookup_take_Some in Hk as [Hk Hlt].
  destruct (po_grp _ Hw (Z.of_nat k)) as (g' & Hk' & Hok & _); [lia|]. rewrite Nat2Z.id in Hk'. rewrite Hk in Hk'. injection Hk' as <-.
  rewrite (go_id _ _ Hok) in Hid. lia.
Qed.

Section recv.
Context (restart : bool).

(** A report brings the table up to date; nothing is lost. *)
Lemma handle_report rc w m : pm_ok w -> msg_ok m -> ~ (is_exception m /\ restart = true) ->
  exists w', handle_msg restart rc m w = Done w' /\ pm_ok w' /\ kept w w' /\ only_table w w'.
Proof.
  intros Hw (Hp' & _ & Hg) He. assert (0 <= pi_procid (msgcontent_ m)) as Hp by lia. clear Hp'. unfold handle_msg. cbv zeta. set (info := msgcontent_ m) in *.
  assert (exists w', Done w = Done w' /\ pm_ok w' /\ kept w w' /\ only_table w w') as Hsame.
  { exists w. split; [done|]. split; [done|]. split; [apply kept_refl|done]. }
  destruct (Z.eqb_spec (Z.land (srctype_ m) 1) MSG_SRC_CLIENT) as [Hc|Hc]; cbn [negb]; [|done].
  destruct (Z.eqb_spec (Z.shiftr (srctype_ m) EXCEPTION_STARTBIT) 0) as [Hx|Hx]; cbn [negb].
  2: { destruct restart; [|done]. exfalso. by apply He. }
  destruct (find_group (pi_groupid info) w) as [i|] eqn:Ef; [|done]. destruct (find_group_ok _ _ _ Hw Ef) as [Hi Hr].
  destruct (po_grp _ Hw (pi_groupid info) Hr) as (g & Hl & Hok & _). replace (Z.to_nat (pi_groupid info)) with i in Hl by lia.
  rewrite Hl. cbn [oget obind].
  destruct (find_proc_ok w Hw (pi_groupid info) (pi_procid info)) as (r & -> & F1 & F2); [lia|done|]. cbn [obind].
  destruct r as [o|].
  - destruct (F1 o eq_refl) as (_ & Ho & Hpid). destruct (write_ok w Hw (pi_groupid info) o (set_procinfo info)) as (w' & E1 & H1 & H2 & _ & Ew); try done.
    + destruct Ho as (g0 & Eg0 & Ho). destruct (get_group_ok w Hw (pi_groupid info) Hr) as (g1 & Eg1 & Hok1 & _).
      rewrite Eg0 in Eg1. injection Eg1 as <-. destruct (members_facts _ _ _ Hok1 Ho) as (_ & -> & _). done.
    + exists w'. split; [done|]. split; [done|]. split; [done|]. by rewrite Ew.
  - assert (exists w', ('(_, w) ⇐ add_proc (pi_groupid info) info w; Done w) = Done w' /\ pm_ok w' /\ kept w w' /\ only_table w w') as Hadd.
    { destruct (add_proc_ok w (pi_groupid info) info Hw Hr eq_refl Hp) as (w' & -> & H1 & H2 & H3); [intros o Ho; apply F2; [done|lia|done]|].
      cbn [obind]. by exists w'. }
    destruct (_ =? PROC_RELOAD_NORMAL); [done|]. destruct (_ =? 1); [done|]. by destruct (negb _).
Qed.

Lemma filter_unmatched t (q : list TProcMonMsg) : Forall (fun m => ~ matches t m) q -> filter (fun m => ~ matches t m) q = q.
Proof. induction 1 as [|m q Hm _ IH]; [done|]. by rewrite filter_cons_True, IH. Qed.

Lemma filter_matches_drop t a b m : matches t m -> Forall (fun m => ~ matches t m) a ->
  filter (fun m => ~ matches t m) (a ++ m :: b) = filter (fun m => ~ matches t m) (a ++ b).
Proof. intros Hm Ha. rewrite !filter_app. f_equal. by rewrite filter_cons_False by tauto. Qed.

(** Receiving reports only. *)
Lemma recv_quiet fuel t : forall w, (length (mq w) < fuel)%nat -> pm_ok w -> Forall msg_ok (mq w) ->
  (forall m, m ∈ mq w -> matches t m -> ~ (is_exception m /\ restart = true)) ->
  exists w', do_recv_fuel restart fuel t w = Done w' /\ pm_ok w' /\ kept w w' /\
    mq w' = filter (fun m => ~ matches t m) (mq w) /\ reload_tag w' = reload_tag w.
Proof.
  induction fuel as [|fuel IH]; intros w Hf Hw Hm Hx; [lia|]. cbn [do_recv_fuel].
  destruct (take_msg t (mq w)) as [[m q]|] eqn:Et.
  - destruct (take_msg_some _ _ _ _ Et) as (a & b & Eq & -> & Hmt & Ha). rewrite Eq in Hm, Hx, Hf.
    assert (msg_ok m) as Hmo by (rewrite Forall_app, Forall_cons in Hm; tauto).
    assert (pm_ok (set_mq (a ++ b) w)) as Hw1 by (destruct Hw; by split).
    destruct (handle_report (do_recv_fuel restart fuel) (set_mq (a ++ b) w) m Hw1 Hmo) as (w1 & -> & H1 & K1 & O1); [apply Hx; [set_solver|done]|].
    cbn [obind]. destruct (IH w1) as (w2 & E2 & H2 & K2 & Q2 & T2); [|done| | |].
    + rewrite (ot_mq _ _ O1). cbn. rewrite length_app in *. cbn in Hf. lia.
    + rewrite (ot_mq _ _ O1). cbn. rewrite Forall_app in *. destruct Hm as [? Hm]. apply Forall_cons in Hm. tauto.
    + rewrite (ot_mq _ _ O1). cbn. intros m' Hin. apply Hx. set_solver.
    + exists w2. split; [done|]. split; [done|]. split.
      * assert (kept w (set_mq (a ++ b) w)) as K0 by (by apply same_table_kept). eapply kept_trans; [exact K0|]. by eapply kept_trans.
      * rewrite Q2, (ot_mq _ _ O1), T2, (ot_tag _ _ O1). cbn. split; [|done]. by rewrite Eq, filter_matches_drop.
  - apply take_msg_none in Et. exists w. split; [done|]. split; [done|]. split; [apply kept_refl|]. split; [|done].
    by rewrite filter_unmatched.
Qed.

(** The number of processes of a group. *)
Definition nmem (w : W) (i : Z) : nat := match get_group i w with Done g => length (members g) | _ => 0%nat end.

(** A dead process.  [rc] receives what it still has in the queue. *)
Lemma event_procdead_ok rc i o w : pm_ok w -> 0 <= i < cur_group_ w -> obj w i o ->
  (forall w1, pm_ok w1 -> mq w1 = mq w -> cur_group_ w1 = cur_group_ w -> exists w2, rc (pid_of o) w1 = Done w2 /\ pm_ok w2 /\ kept w1 w2) ->
  exists r w', event_procdead rc i (o_addr o) w = Done (r, w') /\ pm_ok w' /\ cur_group_ w' = cur_group_ w /\
    exists sig w1, pm_ok w1 /\ kept w w1 /\ signals w1 = signals w ++ [(pid_of o, sig)] /\ forks w1 = forks w /\ mq w1 = mq w /\ reload_tag w1 = reload_tag w /\
      cur_group_ w1 = cur_group_ w /\ (forall j, 0 <= j -> nmem w1 j = nmem w j) /\
      if (r : bool) then exists w2, rc (pid_of o) w1 = Done w2 /\ S (nmem w' i) = nmem w2 i /\ mq w' = mq w2 /\
        reload_tag w' = reload_tag w2 /\ signals w' = signals w2 /\ forks w' = forks w2 ++ [(i, 1)]
      else w' = w1.
Proof.
  intros Hw Hi Ho Hrc. unfold event_procdead.
  destruct (write_ok w Hw i o (set_status 0) Hi Ho) as (wa & -> & Hwa & Ka & Hoa & Ea); [done..|]. cbn [obind].
  assert (cur_group_ wa = cur_group_ w) as Ca by apply Ka.
  change (o_addr o) with (o_addr (set_status 0 o)). rewrite (deref_ok wa Hwa i (set_status 0 o)) by (rewrite ?Ca; done). cbn [obind].
  set (oa := set_status 0 o) in *. destruct Hoa as (ga & Ega & Hoa).
  destruct (get_group_ok wa Hwa i) as (ga' & Ega' & Hga & _); [by rewrite Ca|]. rewrite Ega in Ega'. injection Ega' as <-.
  destruct (members_facts i ga oa Hga Hoa) as (_ & Hgid & _). rewrite Hgid, Ega. cbn [obind].
  set (sig := exitsignal_ (groupinfo_ ga)). change (pid_of oa) with (pid_of o). set (wb := do_kill (pid_of o) sig wa).
  assert (get_group i wb = Done ga) as Egb by (by rewrite <- Ega). rewrite Egb. cbn [obind].
  assert (pm_ok wb) as Hwb by (by apply (same_table_ok wa)).
  set (gc := set_counts (curprocnum_ ga) (errprocnum_ ga + 1) ga).
  assert (grp_ok i gc) as Hgc by (destruct Hga; by split).
  destruct (put_same wb Hwb i ga gc) with (w' := put_group i gc wb) as (Hwc & Kc & Egc); [by cbn; rewrite Ca|done..|].
  unfold alive. destruct (sys_alive (pid_of o) _) as [al e]. set (w1 := set_env e (put_group i gc wb)).
  assert (pm_ok w1) as Hw1 by (by apply (same_table_ok (put_group i gc wb))).
  assert (mq w1 = mq w /\ reload_tag w1 = reload_tag w /\ signals w1 = signals w ++ [(pid_of o, sig)] /\ forks w1 = forks w) as (M1 & T1 & S1 & F1)
    by (unfold w1, wb; rewrite Ea; done).
  assert (cur_group_ w1 = cur_group_ w) as C1 by done.
  assert (kept w w1) as K1.
  { eapply kept_trans; [exact Ka|]. apply (kept_trans _ wb); [by apply same_table_kept|]. eapply kept_trans; [exact Kc|by apply same_table_kept]. }
  assert (get_group i w1 = Done gc) as Eg1 by (by rewrite <- Egc).
  assert (forall j, 0 <= j -> nmem w1 j = nmem w j) as Hn.
  { intros j Hj. unfold nmem. destruct (decide (j = i)) as [->|Hne].
    - rewrite Eg1. change (members gc) with (members ga). destruct (get_group_ok w Hw i Hi) as (g & Eg & Hg & _). rewrite Eg.
      assert (ga = grp_write (o_addr o) (set_status 0) g) as ->.
      { rewrite Ea, (get_put w Hw i i) in Ega by lia. rewrite decide_True in Ega by done. injection Ega as <-. f_equal.
        unfold get_group in Eg. destruct (i <? 0); [done|]. destruct (_ !! _); [by injection Eg|done]. }
      rewrite members_write. by rewrite length_map.
    - assert (get_group j w1 = get_group j (put_group i gc wb)) as -> by done. rewrite (get_put wb Hwb) by (cbn; rewrite ?Ca; lia).
      rewrite decide_False by done. assert (get_group j wb = get_group j wa) as -> by done. rewrite Ea.
      rewrite (get_put w Hw) by lia. by rewrite decide_False. }
  destruct al.
  { exists false, w1. split; [done|]. split; [done|]. split; [done|]. exists sig, w1. done. }
  destruct (Hrc w1 Hw1 M1 C1) as (w2 & E2 & Hw2 & K2). rewrite E2. cbn [obind].
  destruct (kp_obj _ _ K2 i oa) as (o2 & Ho2 & A2 & P2); [by rewrite C1|by exists gc|]. pose proof (kp_cur _ _ K2) as C2. rewrite C1 in C2.
  change (o_addr oa) with (o_addr o) in A2. change (pid_of oa) with (pid_of o) in P2. change (o_addr oa) with (o_addr o). rewrite <- A2.
  rewrite (deref_ok w2 Hw2 i o2) by (rewrite ?C2; done). cbn [obind].
  assert (pi_groupid (procinfo_ o2) = i) as ->.
  { destruct Ho2 as (g2 & Eg2 & Ho2). destruct (get_group_ok w2 Hw2 i) as (g2' & Eg2' & Hg2 & _); [by rewrite C2|].
    rewrite Eg2 in Eg2'. injection Eg2' as <-. by destruct (members_facts i g2 o2 Hg2 Ho2) as (_ & ? & _). }
  destruct (del_proc_ok w2 i o2 Hw2) as (w3 & g3 & g3' & -> & Hw3 & O3 & Eg3 & Eg3' & Hperm & _); [by rewrite C2|done|]. cbn [obind].
  exists true, (do_fork i 1 w3). split; [done|]. split; [by apply (same_table_ok w3)|]. split; [by rewrite <- C2, <- (ot_cur _ _ O3)|].
  exists sig, w1. split_and!; try done. exists w2. split; [done|]. split.
  - unfold nmem. rewrite Eg3. assert (get_group i (do_fork i 1 w3) = Done g3') as -> by done. by rewrite Hperm.
  - destruct O3 as [_ O1 O2 O3 O4]. cbn. by rewrite O1, O2, O3, O4.
Qed.

(** A report of a crash. *)
Lemma process_exception_ok rc info w q : pm_ok w -> 0 <= pi_procid info -> 0 <= pi_groupid info < MAX_PROC_GROUP_NUM ->
  (forall w1, pm_ok w1 -> mq w1 = mq w -> cur_group_ w1 = cur_group_ w ->
     exists w2, rc (pi_procid info) w1 = Done w2 /\ pm_ok w2 /\ kept w1 w2 /\ mq w2 = q /\ reload_tag w2 = reload_tag w1) ->
  exists w', process_exception rc info w = Done w' /\ pm_ok w' /\ cur_group_ w' = cur_group_ w /\
    (mq w' = mq w \/ mq w' = q) /\ reload_tag w' = reload_tag w.
Proof.
  intros Hw Hp Hg Hrc. unfold process_exception. set (i := pi_groupid info) in *.
  assert (exists g, get_group i w = Done g) as [g Eg].
  { unfold get_group. rewrite (proj2 (Z.ltb_ge i 0)) by lia. destruct (lookup_lt_is_Some_2 (proc_groups_ w) (Z.to_nat i)) as [g ->].
    - rewrite (po_len _ Hw). lia.
    - by exists g. }
  rewrite Eg. cbn [obind]. destruct (Z.eqb_spec (curprocnum_ g) GROUP_UNUSED) as [_|Hu]; [exists w; split_and!; auto|].
  assert (i < cur_group_ w) as Hc.
  { destruct (Z.le_gt_cases (cur_group_ w) i); [|done]. destruct Hu. apply (po_unused _ Hw i); [done|].
    unfold get_group in Eg. destruct (i <? 0); [done|]. destruct (_ !! _); [by injection Eg as ->|done]. }
  destruct (find_proc_ok w Hw i (pi_procid info)) as (r & -> & F1 & _); [lia|done|]. cbn [obind].
  destruct r as [o|]; [|exists w; split_and!; auto]. destruct (F1 o eq_refl) as (_ & Ho & Hpid).
  destruct (write_ok w Hw i o (set_status 0)) as (wa & -> & Hwa & Ka & Hoa & Ea); [lia|done..|]. cbn [obind].
  unfold time. destruct (sys_time (env wa)) as [t e]. set (wb := set_env e wa).
  assert (pm_ok wb) as Hwb by (by apply (same_table_ok wa)). assert (cur_group_ wb = cur_group_ w) as Cb by (unfold wb; cbn; apply Ka).
  destruct (get_group_ok wb Hwb i) as (gb & Egb & Hgb & _); [lia|]. rewrite Egb. cbn [obind].
  set (gc := set_info (set_adjust t (groupinfo_ gb)) gb). assert (grp_ok i gc) as Hgc by (destruct Hgb; by split).
  destruct (put_same wb Hwb i gb gc) with (w' := put_group i gc wb) as (Hwc & Kc & Egc); [lia|done..|].
  set (wc := put_group i gc wb) in *. assert (cur_group_ wc = cur_group_ w) as Cc by done.
  assert (obj wc i (set_status 0 o)) as Hoc.
  { destruct Hoa as (ga & Ega & Hoa). exists gc. split; [done|]. assert (get_group i wb = get_group i wa) as Heq by done.
    rewrite Egb, Ega in Heq. by injection Heq as ->. }
  change (o_addr o) with (o_addr (set_status 0 o)).
  destruct (event_procdead_ok rc i (set_status 0 o) wc) as (r & w' & -> & Hw' & C' & sig & w1 & Hw1 & _ & _ & _ & M1 & T1 & C1 & _ & Hr); [done|lia|done| |].
  { intros w1 H1 M1 C1. change (pid_of (set_status 0 o)) with (pid_of o). rewrite Hpid.
    destruct (Hrc w1) as (w2 & E2 & H2 & K2 & _); [done|rewrite M1; unfold wc, wb; rewrite Ea; done|lia|]. by exists w2. }
  cbn [obind]. exists w'. split; [done|]. split; [done|]. split; [lia|].
  assert (mq wc = mq w /\ reload_tag wc = reload_tag w) as [Mc Tc] by (unfold wc, wb; rewrite Ea; done).
  destruct r; [|rewrite Hr; split; [left; congruence|congruence]]. destruct Hr as (w2 & E2 & _ & M2 & T2 & _).
  change (pid_of (set_status 0 o)) with (pid_of o) in E2. rewrite Hpid in E2.
  destruct (Hrc w1) as (w2' & E2' & _ & _ & Q2 & T2'); [done|congruence|lia|].
  rewrite E2 in E2'. injection E2' as <-. split; [right; congruence|congruence].
Qed.

(** No process reports a crash twice. *)
Definition exceptions_ok (q : list TProcMonMsg) : Prop := restart = true -> NoDup (map msgtype_ (filter is_exception q)).

Lemma exceptions_sub q q' : sublist q' q -> exceptions_ok q -> exceptions_ok q'.
Proof.
  intros Hs Hq Hr. specialize (Hq Hr). clear Hr. induction Hs as [|m q' q Hs IH|m q' q Hs IH]; [done| |].
  - rewrite filter_cons in *. destruct (decide (is_exception m)); [|by apply IH]. cbn in *. apply NoDup_cons in Hq as [Hn Hq].
    apply NoDup_cons. split; [|by apply IH]. intros Hin. apply Hn. apply list_elem_of_fmap in Hin as (x & -> & Hx).
    apply list_elem_of_fmap_2. apply list_elem_of_filter in Hx as [Hx Hx']. apply list_elem_of_filter. split; [done|].
    by eapply elem_of_sublist.
  - apply IH. rewrite filter_cons in Hq. destruct (decide (is_exception m)); [|done]. cbn in Hq. by apply NoDup_cons in Hq as [_ ?].
Qed.

(** [do_recv(0)] empties the queue. *)
Lemma recv_all fuel : forall w, (length (mq w) < fuel)%nat -> pm_ok w -> Forall msg_ok (mq w) -> exceptions_ok (mq w) ->
  exists w', do_recv_fuel restart fuel 0 w = Done w' /\ pm_ok w' /\ mq w' = [] /\ cur_group_ w' = cur_group_ w /\
    reload_tag w' = reload_tag w.
Proof.
  induction fuel as [|fuel IH]; intros w Hf Hw Hm Hx; [lia|]. cbn [do_recv_fuel].
  destruct (mq w) as [|m q] eqn:Eq; cbn [take_msg Z.eqb orb]; [exists w; by split_and!|].
  apply Forall_cons in Hm as [Hm0 Hm]. set (w0 := set_mq q w). assert (pm_ok w0) as Hw0 by (by apply (same_table_ok w)).
  cbn in Hf. assert (exists w1, handle_msg restart (do_recv_fuel restart fuel) m w0 = Done w1 /\ pm_ok w1 /\ sublist (mq w1) q /\
    cur_group_ w1 = cur_group_ w /\ reload_tag w1 = reload_tag w) as (w1 & -> & H1 & Hs1 & C1 & T1).
  { destruct (decide (is_exception m /\ restart = true)) as [[Hex Hre]|Hne].
    - destruct Hm0 as (Hp & Ht & Hg). destruct Hex as [Hc Hb]. unfold handle_msg. cbv zeta.
      rewrite (proj2 (Z.eqb_eq (Z.land (srctype_ m) 1) _)) by done. rewrite (proj2 (Z.eqb_neq (Z.shiftr _ _) 0)) by done. rewrite Hre. cbn [negb].
      destruct (process_exception_ok (do_recv_fuel restart fuel) (msgcontent_ m) w0 (filter (fun x => ~ matches (pi_procid (msgcontent_ m)) x) q))
        as (w1 & E1 & H1 & C1 & M1 & T1); [done|lia|done| |].
      + intros wa Ha Ma Ca. change (mq w0) with q in Ma. rewrite <- Ma.
        destruct (recv_quiet fuel (pi_procid (msgcontent_ m)) wa) as (wb & Eb & Hb' & Kb & Mb & Tb); [rewrite Ma; lia|done|by rewrite Ma| |].
        * rewrite Ma. intros x Hin Hmx [Hxx _]. specialize (Hx Hre). rewrite filter_cons_True in Hx by done. cbn in Hx.
          apply NoDup_cons in Hx as [Hx _]. apply Hx. apply list_elem_of_fmap. exists x. split; [destruct Hmx; [lia|congruence]|].
          by apply list_elem_of_filter.
        * by exists wb.
      + rewrite Hre in E1. exists w1. split; [done|]. split; [done|]. split; [|done]. destruct M1 as [-> | ->]; [done|apply sublist_filter].
    - destruct (handle_report (do_recv_fuel restart fuel) w0 m Hw0 Hm0 Hne) as (w1 & -> & H1 & K1 & O1). exists w1. split; [done|].
      split; [done|]. destruct O1 as [O1 O2 O3 _ _]. rewrite O1, O2, O3. done. }
  cbn [obind]. destruct (IH w1) as (w2 & E2 & H2 & M2 & C2 & T2); [apply sublist_length in Hs1; lia|done| | |].
  - rewrite Forall_forall in *. intros x Hx1. apply Hm. by eapply elem_of_sublist.
  - eapply exceptions_sub; [exact Hs1|]. eapply exceptions_sub; [|exact Hx]. by apply sublist_cons.
  - exists w2. split; [done|]. split; [done|]. split; [done|]. split; congruence.
Qed.
End recv.
End inv.
