(* ===== verification/ProcMonRun.v ===== *)
(** * Keeping the processes of a group

    With the queue empty, as [do_recv(0)] leaves it: adjusting the number of
    processes, replacing those without a heartbeat, and the steps of a hot reload
    keep the tables exact and always end. *)

From Stdlib Require Import ZArith Lia.
From stdpp Require Import base list option gmap sorting.
From S2P Require Import Prelude RawCache ProcMon ProcMonInv.

Section run.
Context {E : Type} {sys : Sys E} (restart : bool).
#[local] Abbreviation W := (monsrv E).

(** Between rounds of receiving. *)
Definition idle (w : W) : Prop := pm_ok w /\ mq w = [].

Lemma recv_idle t w : mq w = [] -> do_recv restart t w = Done w.
Proof. intros H. unfold do_recv. rewrite H. cbn. by rewrite H. Qed.

Lemma same_table_idle w w' : proc_groups_ w' = proc_groups_ w -> cur_group_ w' = cur_group_ w -> next_addr w' = next_addr w ->
  mq w' = mq w -> idle w -> idle w'.
Proof. intros E1 E2 E3 E4 [H1 H2]. split; [by apply (same_table_ok w)|congruence]. Qed.

Lemma get_group_lookup i (w : W) g : get_group i w = Done g -> 0 <= i /\ proc_groups_ w !! Z.to_nat i = Some g.
Proof.
  unfold get_group. destruct (Z.ltb_spec i 0); [done|]. destruct (_ !! _) as [g'|]; [|done]. intros [= ->]. done.
Qed.

(** The information of a group is replaced. *)
Lemma put_info_ok i g info (w : W) : pm_ok w -> 0 <= i < cur_group_ w -> get_group i w = Done g -> groupid_ info = i ->
  0 <= minprocnum_ info /\ 0 <= maxprocnum_ info ->
  pm_ok (put_group i (set_info info g) w) /\ get_group i (put_group i (set_info info g) w) = Done (set_info info g).
Proof.
  intros Hw Hi Eg Hid Hb. destruct (get_group_ok w Hw i Hi) as (g' & Eg' & Hg & _). rewrite Eg in Eg'. injection Eg' as <-.
  assert (grp_ok i (set_info info g)) as Hg' by (destruct Hg; by split).
  destruct (put_same w Hw i g (set_info info g) Hi Eg Hg') with (w' := put_group i (set_info info g) w) as (H1 & _ & H2); done.
Qed.

(** ** Too many processes *)

(** What [event_procup] does: [killed] get the signal and leave the group. *)
Record trimmed (i : Z) (w w' : W) (killed : list TProcObj) : Prop := {
  tr_idle : idle w';
  tr_cur : cur_group_ w' = cur_group_ w;
  tr_tag : reload_tag w' = reload_tag w;
  tr_forks : forks w' = forks w;
  tr_sig : signals w' = signals w ++ map (fun o => (pid_of o, SIGUSR1)) killed;
  tr_mem : exists g g', get_group i w = Done g /\ get_group i w' = Done g' /\ members g ≡ₚ killed ++ members g' /\
    groupinfo_ g' = groupinfo_ g
}.

Lemma trimmed_nil i w : idle w -> 0 <= i < cur_group_ w -> trimmed i w w [].
Proof.
  intros Hw Hi. destruct (get_group_ok w (proj1 Hw) i Hi) as (g & Eg & _). split; try done; [by rewrite app_nil_r|].
  by exists g, g.
Qed.

Lemma trimmed_cons i w w1 w2 o l : trimmed i w w1 [o] -> trimmed i w1 w2 l -> trimmed i w w2 (o :: l).
Proof.
  intros [_ C1 T1 F1 S1 (g & g1 & Eg & Eg1 & P1 & I1)] [H2 C2 T2 F2 S2 (g1' & g2 & Eg1' & Eg2 & P2 & I2)].
  rewrite Eg1 in Eg1'. injection Eg1' as <-. split; [done|congruence|congruence|congruence| |].
  - rewrite S2, S1, <- app_assoc. done.
  - exists g, g2. split; [done|]. split; [done|]. split; [by rewrite P1, P2|congruence].
Qed.

(** The first process of a bucket is told to go. *)
Lemma kill_first i j g o l w : idle w -> 0 <= i < cur_group_ w -> get_group i w = Done g -> bucket_ g !! j = Some (o :: l) ->
  exists w', (w ⇐ do_recv restart (pid_of o) (do_kill (pid_of o) SIGUSR1 w); del_proc (groupid_ (groupinfo_ g)) (pid_of o) w) = Done w' /\
    trimmed i w w' [o] /\ exists g', get_group i w' = Done g' /\ bucket_ g' = <[j := l]> (bucket_ g).
Proof.
  intros [Hw Hq] Hi Eg Hj. rewrite recv_idle by done. cbn [obind]. set (w1 := do_kill (pid_of o) SIGUSR1 w).
  assert (pm_ok w1) as Hw1 by (by apply (same_table_ok w)). destruct (get_group_ok w Hw i Hi) as (g' & Eg' & Hg & _).
  rewrite Eg in Eg'. injection Eg' as <-. rewrite (go_id _ _ Hg).
  assert (o ∈ members g) as Ho by (apply elem_members; exists j, (o :: l); set_solver).
  destruct (del_proc_ok w1 i o Hw1 Hi) as (w2 & g1 & g2 & E2 & H2 & O2 & Eg1 & Eg2 & P2 & I2); [by exists g|].
  assert (get_group i w1 = get_group i w) as Es by done. rewrite Eg1, Eg in Es. injection Es as ->.
  exists w2. split; [done|]. split.
  - destruct O2 as [O1 O2 O3 O4 O5]. split; try done; [split; [done|by rewrite O3]|]. by exists g, g2.
  - exists g2. split; [done|]. unfold del_proc in E2. rewrite (proj2 (Z.leb_gt _ _)) in E2 by (cbn; lia). rewrite Eg1 in E2. cbn [obind] in E2.
    destruct (go_in _ _ Hg j (o :: l) o Hj ltac:(set_solver)) as (Hp & Hb & _).
    unfold grp_del in E2. destruct (grp_bucket_ok i g (pid_of o) Hg Hp) as (l' & Eb & Hl'). rewrite Eb in E2. cbn [obind] in E2.
    rewrite Hb in *. rewrite Hj in Hl'. injection Hl' as <-. cbn [drop_pid] in E2. rewrite Z.eqb_refl in E2. injection E2 as <-.
    rewrite (get_put w1 Hw1 i i) in Eg2 by (cbn; lia). rewrite decide_True in Eg2 by done. by injection Eg2 as <-.
Qed.

Lemma members_from g j : (forall k, (k < j)%nat -> bucket_ g !! k = Some []) ->
  members g = concat (drop j (bucket_ g)).
Proof.
  intros Hk. unfold members. rewrite <- (take_drop j (bucket_ g)) at 1. rewrite concat_app.
  assert (concat (take j (bucket_ g)) = []) as ->; [|done].
  assert (forall b : list (list TProcObj), (forall k l, b !! k = Some l -> l = []) -> concat b = []) as Hc.
  { induction b as [|l b IH]; intros Hb; [done|]. cbn. rewrite (Hb 0%nat l eq_refl). apply IH. intros k. apply (Hb (S k)). }
  apply Hc. intros k l Hl. apply lookup_take_Some in Hl as [Hl Hlt]. rewrite Hk in Hl by done. congruence.
Qed.

(** Exactly [diff - count] more processes go, or all there are. *)
Lemma event_procup_ok fuel i : forall j count diff w g, idle w -> 0 <= i < cur_group_ w -> get_group i w = Done g ->
  0 <= count < diff -> (j <= Z.to_nat BUCKET_SIZE)%nat -> (forall k, (k < j)%nat -> bucket_ g !! k = Some []) ->
  (length (members g) + (Z.to_nat BUCKET_SIZE - j) < fuel)%nat ->
  exists w' killed, event_procup restart fuel i j count diff w = Done w' /\ trimmed i w w' killed /\
    Z.of_nat (length killed) = Z.min (diff - count) (Z.of_nat (length (members g))).
Proof.
  induction fuel as [|fuel IH]; intros j count diff w g Hw Hi Eg Hc Hj Hempty Hf; [lia|]. cbn [event_procup].
  destruct (get_group_ok w (proj1 Hw) i Hi) as (g' & Eg' & Hg & _). rewrite Eg in Eg'. injection Eg' as <-.
  destruct (Nat.leb_spec (Z.to_nat BUCKET_SIZE) j) as [Hend|Hlt].
  { exists w, []. split; [done|]. split; [by apply trimmed_nil|]. rewrite (members_from g j) by done.
    rewrite drop_ge by (rewrite (go_len _ _ Hg); lia). cbn. lia. }
  rewrite Eg. cbn [obind]. destruct (lookup_lt_is_Some_2 (bucket_ g) j) as [l Hl]; [rewrite (go_len _ _ Hg); lia|].
  rewrite Hl. cbn [oget obind]. destruct l as [|o l].
  - rewrite (proj2 (Z.leb_gt diff count)) by lia. apply (IH (S j) count diff w g); [done|done|done|done|lia| |lia].
    intros k Hk. destruct (decide (k = j)) as [->|]; [done|apply Hempty; lia].
  - destruct (kill_first i j g o l w Hw Hi Eg Hl) as (w1 & E1 & T1 & g1 & Eg1 & B1). cbv zeta in *.
    destruct (do_recv restart (pid_of o) (do_kill (pid_of o) SIGUSR1 w)) as [wr| |]; try done. cbn [obind] in *. rewrite E1. cbn [obind].
    assert (length (members g) = S (length (members g1))) as Hlen.
    { destruct T1 as [_ _ _ _ _ (ga & gb & Ea & Eb & P & _)]. rewrite Eg in Ea. injection Ea as <-. rewrite Eg1 in Eb. injection Eb as <-. by rewrite P. }
    destruct (Z.leb_spec diff (count + 1)) as [Hd|Hd].
    { exists w1, [o]. split; [done|]. split; [done|]. cbn. lia. }
    destruct (IH j (count + 1) diff w1 g1) as (w2 & killed & E2 & T2 & L2);
      [apply T1|by rewrite (tr_cur _ _ _ _ T1)|done|lia|lia| |lia|].
    { intros k Hk. rewrite B1, list_lookup_insert_ne by lia. by apply Hempty. }
    exists w2, (o :: killed). split; [done|]. split; [by eapply trimmed_cons|]. cbn [length]. lia.
Qed.

(** ** The number of processes *)

(** How many processes a group of [n] should have. *)
Definition target (info : TGroupInfo) (busy : bool) (n : Z) : Z :=
  if n <? minprocnum_ info then minprocnum_ info
  else if maxprocnum_ info <? n then maxprocnum_ info
  else if busy then Z.min (n + 1) (maxprocnum_ info) else Z.max (n - 1) (minprocnum_ info).

(** The group [i] goes from [n] to [m] processes: the difference is forked or
    killed, exactly. *)
Record adjusted (i n m : Z) (w w' : W) : Prop := {
  ad_idle : idle w';
  ad_cur : cur_group_ w' = cur_group_ w;
  ad_tag : reload_tag w' = reload_tag w;
  ad_forks : forks w' = forks w ++ (if n <? m then [(i, m - n)] else []);
  ad_mem : exists g g' killed, get_group i w = Done g /\ get_group i w' = Done g' /\ members g ≡ₚ killed ++ members g' /\
    signals w' = signals w ++ map (fun o => (pid_of o, SIGUSR1)) killed /\ Z.of_nat (length killed) = Z.max 0 (n - m)
}.

Section group.
Context (i : Z) (g : TProcGroupObj) (w : W).
Context (Hw : idle w) (Hi : 0 <= i < cur_group_ w) (Eg : get_group i w = Done g).

Lemma group_facts : grp_ok i g.
Proof. destruct (get_group_ok w (proj1 Hw) i Hi) as (g' & Eg' & Hg & _). by rewrite Eg in Eg'; injection Eg' as <-. Qed.

Lemma adjust_none w' : proc_groups_ w' = proc_groups_ w -> cur_group_ w' = cur_group_ w -> next_addr w' = next_addr w -> mq w' = mq w ->
  forks w' = forks w -> signals w' = signals w -> reload_tag w' = reload_tag w ->
  adjusted i (curprocnum_ g) (curprocnum_ g) w w'.
Proof.
  intros E1 E2 E3 E4 E5 E6 E7. split; [by apply (same_table_idle w)|done|done| |].
  - rewrite Z.ltb_irrefl, app_nil_r. done.
  - exists g, g, []. rewrite app_nil_r. split_and!; try done; [|cbn; lia]. unfold get_group in *. by rewrite E1.
Qed.

(** The clock, and the time of the adjustment. *)
Definition stamped (now : Z) (w1 : W) : W := put_group i (set_info (set_adjust now (groupinfo_ g)) g) w1.

Lemma stamped_ok now w1 : proc_groups_ w1 = proc_groups_ w -> cur_group_ w1 = cur_group_ w -> next_addr w1 = next_addr w -> mq w1 = mq w ->
  idle (stamped now w1) /\ get_group i (stamped now w1) = Done (set_info (set_adjust now (groupinfo_ g)) g).
Proof.
  intros E1 E2 E3 E4. assert (idle w1) as [H1 Hq] by (by apply (same_table_idle w)).
  destruct (put_info_ok i g (set_adjust now (groupinfo_ g)) w1 H1) as [H2 H3]; [by rewrite E2|unfold get_group in *; by rewrite E1|apply group_facts..|].
  split; [|done]. split; [done|]. cbn. done.
Qed.

Lemma adjust_down now w1 n : proc_groups_ w1 = proc_groups_ w -> cur_group_ w1 = cur_group_ w -> next_addr w1 = next_addr w -> mq w1 = mq w ->
  forks w1 = forks w -> signals w1 = signals w -> reload_tag w1 = reload_tag w -> 0 < n ->
  adjusted i (curprocnum_ g) (curprocnum_ g + n) w (do_fork (groupid_ (groupinfo_ g)) n (stamped now w1)).
Proof.
  intros E1 E2 E3 E4 E5 E6 E7 Hn. destruct (stamped_ok now w1 E1 E2 E3 E4) as [H1 H2].
  split; [by apply (same_table_idle (stamped now w1))|done|done| |].
  - rewrite (proj2 (Z.ltb_lt _ _)) by lia. rewrite (go_id _ _ group_facts). cbn. rewrite E5. do 3 f_equal. lia.
  - exists g, (set_info (set_adjust now (groupinfo_ g)) g), []. rewrite app_nil_r. split_and!; try done. cbn. lia.
Qed.

Lemma adjust_up now w1 n : proc_groups_ w1 = proc_groups_ w -> cur_group_ w1 = cur_group_ w -> next_addr w1 = next_addr w -> mq w1 = mq w ->
  forks w1 = forks w -> signals w1 = signals w -> reload_tag w1 = reload_tag w -> 0 < n <= curprocnum_ g ->
  exists w', event_procup restart (procup_fuel g (stamped now w1)) i 0 0 n (stamped now w1) = Done w' /\
    adjusted i (curprocnum_ g) (curprocnum_ g - n) w w'.
Proof.
  intros E1 E2 E3 E4 E5 E6 E7 Hn. destruct (stamped_ok now w1 E1 E2 E3 E4) as [H1 H2]. pose proof (go_count _ _ group_facts) as Hc.
  destruct (event_procup_ok (procup_fuel g (stamped now w1)) i 0 0 n (stamped now w1) (set_info (set_adjust now (groupinfo_ g)) g) H1)
    as (w' & killed & E8 & T & L); [by cbn; rewrite E2|done|lia|lia|lia| |].
  { unfold procup_fuel, members. cbn. lia. }
  exists w'. split; [done|]. destruct T as [T1 T2 T3 T4 T5 (ga & gb & Ga & Gb & P & _)]. rewrite H2 in Ga. injection Ga as <-.
  change (members (set_info (set_adjust now (groupinfo_ g)) g)) with (members g) in *.
  split; [done|by rewrite T2|by rewrite T3| |].
  - rewrite T4. rewrite (proj2 (Z.ltb_ge _ _)) by lia. rewrite app_nil_r. done.
  - exists g, gb, killed. split_and!; try done; [by rewrite T5; cbn; rewrite E6|lia].
Qed.

(** [check_group]: within 15 seconds of the last change nothing; else the group goes
    to its target. *)
Lemma check_group_ok :
  let t := (sys_time (env w)).1 in
  let busy := (check_groupbusy i (time w).2).1 in
  exists w', check_group restart i w = Done w' /\
    adjusted i (curprocnum_ g) (if t <? adjust_proc_time (groupinfo_ g) + ADJUST_PROC_DELAY then curprocnum_ g
                                else target (groupinfo_ g) busy (curprocnum_ g)) w w'.
Proof.
  destruct (go_bounds _ _ group_facts) as [Hmin Hmax]. unfold check_group. rewrite Eg. cbn [obind]. cbv zeta. unfold time. destruct (sys_time (env w)) as [t e]. cbn [fst snd].
  destruct (t <? _); [eexists; split; [done|by apply adjust_none]|].
  set (info := groupinfo_ g) in *. set (n := curprocnum_ g) in *. unfold target. set (w1 := set_env e w).
  destruct (Z.ltb_spec 0 (minprocnum_ info - n)) as [H1|H1].
  { rewrite (proj2 (Z.ltb_lt n (minprocnum_ info))) by lia. eexists. split; [done|].
    pose proof (adjust_down t w1 (minprocnum_ info - n) eq_refl eq_refl eq_refl eq_refl eq_refl eq_refl eq_refl ltac:(lia)) as H.
    fold n in H. by replace (n + (minprocnum_ info - n)) with (minprocnum_ info) in H by lia. }
  rewrite (proj2 (Z.ltb_ge n (minprocnum_ info))) by lia. destruct (Z.ltb_spec 0 (n - maxprocnum_ info)) as [H2|H2].
  { rewrite (proj2 (Z.ltb_lt (maxprocnum_ info) n)) by lia.
    pose proof (adjust_up t w1 (n - maxprocnum_ info) eq_refl eq_refl eq_refl eq_refl eq_refl eq_refl eq_refl ltac:(fold n; lia)) as H.
    fold n in H. by replace (n - (n - maxprocnum_ info)) with (maxprocnum_ info) in H by lia. }
  rewrite (proj2 (Z.ltb_ge (maxprocnum_ info) n)) by lia. rewrite (go_id _ _ group_facts : groupid_ info = i).
  unfold check_groupbusy. destruct (sys_load i (env w1)) as [r e2] eqn:El. cbn [fst]. set (w2 := set_env e2 w1).
  set (busy := match r with Some _ => _ | None => _ end). destruct busy; cbn [negb].
  - destruct (Z.ltb_spec n (maxprocnum_ info)) as [H3|H3].
    + rewrite Z.min_l by lia. eexists. split; [done|].
      pose proof (adjust_down t w2 1 eq_refl eq_refl eq_refl eq_refl eq_refl eq_refl eq_refl ltac:(lia)) as H.
      rewrite (go_id _ _ group_facts) in H. done.
    + rewrite Z.min_r by lia. eexists. split; [done|]. replace (maxprocnum_ info) with n by lia. by apply adjust_none.
  - destruct (Z.ltb_spec (minprocnum_ info) n) as [H3|H3].
    + rewrite Z.max_l by lia. apply (adjust_up t w2 1); try done. fold n. lia.
    + rewrite Z.max_r by lia. eexists. split; [done|]. replace (minprocnum_ info) with n by lia. by apply adjust_none.
Qed.
End group.

(** ** Heartbeats *)

(** One process is looked at: it stays, or it is deleted. *)
Lemma check_proc_ok i o w : idle w -> 0 <= i < cur_group_ w -> obj w i o ->
  exists r w', check_proc restart i (o_addr o) w = Done (r, w') /\ idle w' /\ cur_group_ w' = cur_group_ w /\
    if (r : bool) then (nmem w' i < nmem w i)%nat else kept w w' /\ nmem w' i = nmem w i.
Proof.
  intros [Hw Hq] Hi Ho. unfold check_proc. destruct (get_group_ok w Hw i Hi) as (g & -> & _). cbn [obind].
  rewrite (deref_ok w Hw i o Hi Ho). cbn [obind]. unfold time. destruct (sys_time (env w)) as [t e].
  set (w0 := set_env e w). assert (pm_ok w0) as Hw0 by (by apply (same_table_ok w)).
  assert (kept w w0) as K0 by (by apply same_table_kept).
  destruct (write_ok w0 Hw0 i o (set_status 0)) as (w1 & -> & Hw1 & K1 & Ho1 & E1); [done..|]. cbn [obind].
  pose proof (kp_cur _ _ K1) as C1. cbn in C1. pose proof (kept_trans _ _ _ K0 K1) as K01.
  assert (mq w1 = []) as Q1 by (by rewrite E1).
  destruct (get_group_ok w1 Hw1 i) as (g1 & Eg1 & Hg1 & _); [by rewrite C1|].
  assert (nmem w1 i = nmem w i) as Hn1.
  { unfold nmem. rewrite Eg1. destruct (get_group_ok w Hw i Hi) as (gx & Egx & _). rewrite Egx.
    rewrite E1, (get_put w0 Hw0 i i) in Eg1 by (cbn; lia). rewrite decide_True in Eg1 by done. injection Eg1 as <-.
    rewrite members_write, length_map. destruct (get_group_lookup i w gx Egx) as [_ El]. change (proc_groups_ w0) with (proc_groups_ w). by rewrite El. }
  destruct (_ <? _); [|exists false, w1; by split_and!].
  rewrite Eg1. cbn [obind].
  set (g2 := set_info (set_adjust t (groupinfo_ g1)) g1). assert (grp_ok i g2) as Hg2 by (destruct Hg1; by split).
  destruct (put_same w1 Hw1 i g1 g2) with (w' := put_group i g2 w1) as (Hw2 & K2 & Eg2); [by rewrite C1|done..|].
  assert (obj (put_group i g2 w1) i (set_status 0 o)) as Ho2.
  { destruct Ho1 as (g1' & Eg1' & Ho1). rewrite Eg1 in Eg1'. injection Eg1' as <-. by exists g2. }
  change (o_addr o) with (o_addr (set_status 0 o)).
  destruct (event_procdead_ok (do_recv restart) i (set_status 0 o) (put_group i g2 w1) Hw2) as
    (r & w' & -> & Hw' & C' & sig & w3 & _ & K3 & _ & _ & M3 & _ & _ & N3 & Hr); [cbn; by rewrite C1|done| |].
  { intros wa Ha Ma Ca. exists wa. rewrite recv_idle; [|by rewrite Ma]. split; [done|]. split; [done|apply kept_refl]. }
  assert (nmem (put_group i g2 w1) i = nmem w i) as Hn by (rewrite <- Hn1; unfold nmem; by rewrite Eg2, Eg1).
  exists r, w'. split; [done|]. cbn in C'. destruct r.
  - destruct Hr as (w4 & E4 & N4 & M4 & _). rewrite recv_idle in E4 by (by rewrite M3). injection E4 as <-.
    split; [split; [done|rewrite M4, M3; done]|]. split; [by rewrite C'|]. rewrite <- Hn, <- (N3 i) by lia. lia.
  - subst w'. split; [split; [done|by rewrite M3]|]. split; [by rewrite C'|].
    split; [|by rewrite N3 by lia]. eapply kept_trans; [exact K01|]. by eapply kept_trans.
Qed.

Lemma check_list_ok i l : forall w, idle w -> 0 <= i < cur_group_ w -> (forall a, a ∈ l -> exists o, obj w i o /\ o_addr o = a) ->
  exists r w', check_list restart i l w = Done (r, w') /\ idle w' /\ cur_group_ w' = cur_group_ w /\
    ((r : bool) = true -> (nmem w' i < nmem w i)%nat).
Proof.
  induction l as [|a l IH]; intros w Hw Hi Hl; cbn [check_list]; [exists false, w; by split_and!|].
  destruct (Hl a) as (o & Ho & <-); [set_solver|].
  destruct (check_proc_ok i o w Hw Hi Ho) as (r & w1 & -> & H1 & C1 & Hr). cbn [obind]. destruct r; [exists true, w1; by split_and!|].
  destruct Hr as [K1 N1]. destruct (IH w1 H1) as (r & w2 & E2 & H2 & C2 & N2); [by rewrite C1| |].
  - intros a Ha. destruct (Hl a) as (o' & Ho' & <-); [set_solver|]. destruct (kp_obj _ _ K1 i o' Hi Ho') as (o2 & Ho2 & A2 & _). by exists o2.
  - exists r, w2. split; [done|]. split; [done|]. split; [congruence|]. intros Hr. specialize (N2 Hr). lia.
Qed.

Lemma check_bucket_ok fuel i j : forall w, idle w -> 0 <= i < cur_group_ w -> (j < Z.to_nat BUCKET_SIZE)%nat -> (nmem w i < fuel)%nat ->
  exists w', check_bucket restart fuel i j w = Done w' /\ idle w' /\ cur_group_ w' = cur_group_ w.
Proof.
  induction fuel as [|fuel IH]; intros w Hw Hi Hj Hf; [lia|]. cbn [check_bucket].
  destruct (get_group_ok w (proj1 Hw) i Hi) as (g & Eg & Hg & _). rewrite Eg. cbn [obind].
  destruct (lookup_lt_is_Some_2 (bucket_ g) j) as [l Hl]; [by rewrite (go_len _ _ Hg)|]. rewrite Hl. cbn [oget obind].
  destruct (check_list_ok i (map o_addr l) w Hw Hi) as (r & w1 & -> & H1 & C1 & N1).
  { intros a Ha. apply list_elem_of_fmap in Ha as (o & -> & Ho). exists o. split; [|done]. exists g. split; [done|]. apply elem_members. eauto. }
  cbn [obind]. destruct r; [|by exists w1]. specialize (N1 eq_refl).
  destruct (IH w1 H1) as (w2 & -> & H2 & C2); [by rewrite C1|done|lia|]. exists w2. split; [done|]. split; [done|congruence].
Qed.

Lemma check_buckets_ok n i : forall j w, idle w -> 0 <= i < cur_group_ w -> (j + n <= Z.to_nat BUCKET_SIZE)%nat ->
  exists w', check_buckets restart n i j w = Done w' /\ idle w' /\ cur_group_ w' = cur_group_ w.
Proof.
  induction n as [|n IH]; intros j w Hw Hi Hj; cbn [check_buckets]; [by exists w|].
  destruct (get_group_ok w (proj1 Hw) i Hi) as (g & Eg & Hg & _). rewrite Eg. cbn [obind].
  destruct (check_bucket_ok (bucket_fuel g w) i j w Hw Hi) as (w1 & -> & H1 & C1); [lia| |].
  { unfold nmem, bucket_fuel. rewrite Eg. fold (members g). lia. }
  cbn [obind]. destruct (IH (S j) w1 H1) as (w2 & -> & H2 & C2); [by rewrite C1|lia|]. exists w2. split; [done|]. split; [done|congruence].
Qed.

(** ** Hot reload *)

Lemma kill_alive_same l signo : forall w : W, let w' := kill_alive l signo w in
  proc_groups_ w' = proc_groups_ w /\ cur_group_ w' = cur_group_ w /\ next_addr w' = next_addr w /\ mq w' = mq w /\
  reload_tag w' = reload_tag w /\ forks w' = forks w.
Proof.
  induction l as [|pid l IH]; intros w; [done|]. cbn [kill_alive]. unfold alive. destruct (sys_alive pid (env w)) as [al e].
  destruct (IH (if al then do_kill pid signo (set_env e w) else set_env e w)) as (H1 & H2 & H3 & H4 & H5 & H6).
  rewrite H1, H2, H3, H4, H5, H6. by destruct al.
Qed.

Lemma reload_kill_same g signo (w : W) : let w' := reload_kill_group g signo w in
  proc_groups_ w' = proc_groups_ w /\ cur_group_ w' = cur_group_ w /\ next_addr w' = next_addr w /\ mq w' = mq w /\
  reload_tag w' = reload_tag w /\ forks w' = forks w.
Proof. unfold reload_kill_group. destruct (reload_tag w !! g); [apply kill_alive_same|done]. Qed.

Lemma any_alive_same l : forall w : W, exists e, (any_alive l w).2 = set_env e w.
Proof.
  induction l as [|pid l IH]; intros w; cbn [any_alive]; [exists (env w); by destruct w|]. unfold alive.
  destruct (sys_alive pid (env w)) as [al e]. destruct al; [by exists e|].
  destruct (IH (set_env e w)) as [e' ->]. by exists e'.
Qed.

(** The state of the reload of a group is set. *)
Lemma set_reload_ok i r t w : idle w -> 0 <= i < cur_group_ w ->
  exists g, get_group i w = Done g /\ set_reload_at i r t w = Done (put_group i (set_info (set_reload r t (groupinfo_ g)) g) w) /\
    idle (put_group i (set_info (set_reload r t (groupinfo_ g)) g) w) /\
    get_group i (put_group i (set_info (set_reload r t (groupinfo_ g)) g) w) = Done (set_info (set_reload r t (groupinfo_ g)) g).
Proof.
  intros [Hw Hq] Hi. destruct (get_group_ok w Hw i Hi) as (g & Eg & Hg & _). exists g. unfold set_reload_at. rewrite Eg. cbn [obind].
  destruct (put_info_ok i g (set_reload r t (groupinfo_ g)) w Hw Hi Eg) as [H1 H2]; [apply Hg..|]. split; [done|]. split; [done|].
  split; [|done]. split; [done|]. cbn. done.
Qed.

(** Asking whether a process lives does not change the answer for any. *)
Class SysLaws : Prop := alive_stable : forall p q e, (sys_alive p (sys_alive q e).2).1 = (sys_alive p e).1.

Definition lives (w : W) (pid : Z) : Prop := (sys_alive pid (env w)).1 = true.

Lemma any_alive_spec `{!SysLaws} l : forall w : W, (any_alive l w).1 = true <-> exists pid, pid ∈ l /\ lives w pid.
Proof.
  induction l as [|pid l IH]; intros w; cbn [any_alive]; [split; [done|]; intros (p & Hp & _); by apply not_elem_of_nil in Hp|].
  unfold alive. destruct (sys_alive pid (env w)) as [al e] eqn:Ea. assert (forall p, lives (set_env e w) p <-> lives w p) as Hst.
  { intros p. unfold lives. cbn. pose proof (alive_stable p pid (env w)) as Hq. rewrite Ea in Hq. cbn in Hq. by rewrite Hq. }
  assert (lives w pid <-> al = true) as Hal by (unfold lives; by rewrite Ea). destruct al.
  - split; [|done]. intros _. exists pid. split; [set_solver|by apply Hal].
  - rewrite IH. setoid_rewrite Hst. split; intros (p & Hp & Hl); exists p; (split; [|done]); [set_solver|].
    apply elem_of_cons in Hp as [-> |Hp]; [|done]. apply Hal in Hl. done.
Qed.

Lemma elem_ascending s pid : pid ∈ ascending s <-> pid ∈ s.
Proof. unfold ascending. rewrite merge_sort_Permutation. apply elem_of_elements. Qed.

(** The processes of before the reload. *)
Definition old_procs (w : W) (i : Z) : gset Z := default ∅ (reload_tag w !! i).

Lemma group_dead_spec `{!SysLaws} i (w : W) :
  exists e tag, (reload_check_group_dead i w).2 = set_tag tag (set_env e w) /\
    if (reload_check_group_dead i w).1 then tag = delete i (reload_tag w) /\ forall pid, pid ∈ old_procs w i -> ~ lives w pid
    else tag = reload_tag w /\ exists pid, pid ∈ old_procs w i /\ lives w pid.
Proof.
  unfold reload_check_group_dead, old_procs. destruct (reload_tag w !! i) as [s|] eqn:Es; cbn [default].
  - pose proof (any_alive_spec (ascending s) w) as Hs. destruct (any_alive_same (ascending s) w) as [e He].
    destruct (any_alive (ascending s) w) as [al w']. cbn in Hs, He. subst w'. destruct al; cbn.
    + exists e, (reload_tag w). split; [done|]. split; [done|]. destruct Hs as [Hs _]. destruct (Hs eq_refl) as (p & Hp & Hl).
      exists p. by rewrite elem_ascending in Hp.
    + exists e, (delete i (reload_tag w)). split; [done|]. split; [done|]. intros p Hp Hl. assert (false = true); [|done].
      apply Hs. exists p. by rewrite elem_ascending.
  - exists (env w), (reload_tag w). split; [by destruct w|]. cbn. split; [by rewrite delete_id|]. set_solver.
Qed.

(** What a step of the reload of group [i] leaves as it is: [g] becomes [g']. *)
Record stepped (i : Z) (g : TProcGroupObj) (w w' : W) (g' : TProcGroupObj) : Prop := {
  sp_idle : idle w';
  sp_cur : cur_group_ w' = cur_group_ w;
  sp_get : get_group i w' = Done g';
  sp_mem : members g' = members g;
  sp_count : curprocnum_ g' = curprocnum_ g;
  sp_min : minprocnum_ (groupinfo_ g') = minprocnum_ (groupinfo_ g)
}.

Section step.
Context (i : Z) (g : TProcGroupObj) (w : W).
Context (Hw : idle w) (Hi : 0 <= i < cur_group_ w) (Eg : get_group i w = Done g).

(** The table of [w1] is that of [w]. *)
Record sametab (w1 : W) : Prop := {
  st_groups : proc_groups_ w1 = proc_groups_ w;
  st_cur : cur_group_ w1 = cur_group_ w;
  st_next : next_addr w1 = next_addr w;
  st_mq : mq w1 = mq w
}.

Lemma stepped_same w1 : sametab w1 -> stepped i g w w1 g.
Proof.
  intros [E1 E2 E3 E4]. split; try done; [by apply (same_table_idle w)|]. unfold get_group in *. by rewrite E1.
Qed.

Lemma stepped_set r t w1 : sametab w1 ->
  exists w' g', set_reload_at i r t w1 = Done w' /\ stepped i g w w' g' /\ reload_ (groupinfo_ g') = r /\ reload_time (groupinfo_ g') = t /\
    reload_tag w' = reload_tag w1 /\ forks w' = forks w1 /\ signals w' = signals w1.
Proof.
  intros [E1 E2 E3 E4]. assert (idle w1) as Hw1 by (by apply (same_table_idle w)).
  destruct (set_reload_ok i r t w1 Hw1) as (g' & Eg' & E5 & H5 & E6); [by rewrite E2|].
  assert (g' = g) as -> by (unfold get_group in *; rewrite E1 in Eg'; congruence).
  eexists _, (set_info (set_reload r t (groupinfo_ g)) g). split; [done|]. split; [|done]. by split.
Qed.

(** Signals to the old processes, then the next stage. *)
Lemma stepped_kill signo r w1 : sametab w1 ->
  exists w' g', (let '(t, w) := time (reload_kill_group i signo w1) in set_reload_at i r t w) = Done w' /\ stepped i g w w' g' /\
    reload_ (groupinfo_ g') = r /\ reload_tag w' = reload_tag w1 /\ forks w' = forks w1.
Proof.
  intros [E1 E2 E3 E4]. destruct (reload_kill_same i signo w1) as (F1 & F2 & F3 & F4 & F5 & F6). unfold time.
  destruct (sys_time _) as [t e]. destruct (stepped_set r t (set_env e (reload_kill_group i signo w1))) as (w' & g' & E5 & H5 & R5 & _ & T5 & K5 & _);
    [split; cbn; congruence|]. exists w', g'. split; [done|]. split; [done|]. split; [done|]. split; [by rewrite T5|by rewrite K5].
Qed.

(** The stages of a hot reload, each with what it waits for. *)
Lemma reload_step_ok `{!SysLaws} :
  exists w' g', reload_step i w = Done w' /\ stepped i g w w' g' /\
    let r := reload_ (groupinfo_ g) in let r' := reload_ (groupinfo_ g') in let info := groupinfo_ g in
    (r = PROC_RELOAD_START /\ r' = PROC_RELOAD_WAIT_NEW /\ forks w' = forks w ++ [(i, minprocnum_ info)] /\
       reload_tag w' = reload_tag w /\ reload_time (groupinfo_ g') = (sys_time (env w)).1) \/
    (r = PROC_RELOAD_WAIT_NEW /\ forks w' = forks w /\ reload_tag w' = reload_tag w /\
       (r' = PROC_RELOAD_KILLOLD /\ (minprocnum_ info <= curprocnum_ g \/ reload_time info + 30 < (sys_time (env w)).1) \/
        r' = PROC_RELOAD_WAIT_NEW /\ curprocnum_ g < minprocnum_ info /\ (sys_time (env w)).1 <= reload_time info + 30 /\
          reload_time (groupinfo_ g') = reload_time info)) \/
    (r = PROC_RELOAD_KILLOLD /\ r' = PROC_RELOAD_CLEAR /\ forks w' = forks w /\ reload_tag w' = reload_tag w) \/
    (r = PROC_RELOAD_CLEAR /\ forks w' = forks w /\
       (r' = PROC_RELOAD_NORMAL /\ reload_tag w' = delete i (reload_tag w) /\ (forall pid, pid ∈ old_procs w i -> ~ lives w pid) \/
        r' = PROC_RELOAD_CLEAR /\ reload_tag w' = reload_tag w /\ exists pid, pid ∈ old_procs w i /\ lives w pid)) \/
    (~ PROC_RELOAD_START <= r <= PROC_RELOAD_CLEAR /\ w' = w /\ r' = r).
Proof.
  pose proof (group_facts i g w Hw Hi Eg) as Hg. unfold reload_step. rewrite Eg. cbn [obind]. cbv zeta.
  rewrite (go_id _ _ Hg). set (info := groupinfo_ g).
  destruct (Z.eqb_spec (reload_ info) PROC_RELOAD_START) as [Hr|Hr1].
  { unfold time. change (env (do_fork i (minprocnum_ info) w)) with (env w). destruct (sys_time (env w)) as [t e].
    destruct (stepped_set PROC_RELOAD_WAIT_NEW t (set_env e (do_fork i (minprocnum_ info) w))) as (w' & g' & E5 & H5 & R5 & M5 & T5 & K5 & S5); [done|].
    exists w', g'. split; [done|]. split; [done|]. left. by split_and!. }
  destruct (Z.eqb_spec (reload_ info) PROC_RELOAD_WAIT_NEW) as [Hr|Hr2].
  { unfold time at 1. destruct (sys_time (env w)) as [t0 e0] eqn:Et. cbn [fst].
    destruct (Z.leb_spec (minprocnum_ info) (curprocnum_ g)) as [Hmin|Hmin]; cbn [orb].
    - destruct (stepped_kill SIGUSR2 PROC_RELOAD_KILLOLD w) as (w' & g' & E5 & H5 & R5 & T5 & K5); [done|].
      exists w', g'. split; [done|]. split; [done|]. right. left. split_and!; auto.
    - destruct (Z.ltb_spec (reload_time info + 30) t0) as [Ht|Ht].
      + destruct (stepped_kill SIGUSR2 PROC_RELOAD_KILLOLD (set_env e0 w)) as (w' & g' & E5 & H5 & R5 & T5 & K5); [done|].
        exists w', g'. split; [done|]. split; [done|]. right. left. split_and!; auto.
      + exists (set_env e0 w), g. split; [done|]. split; [by apply stepped_same|]. right. left. split_and!; auto. }
  destruct (Z.eqb_spec (reload_ info) PROC_RELOAD_KILLOLD) as [Hr|Hr3].
  { destruct (stepped_kill SIGUSR2 PROC_RELOAD_CLEAR w) as (w' & g' & E5 & H5 & R5 & T5 & K5); [done|].
    exists w', g'. split; [done|]. split; [done|]. right. right. left. by split_and!. }
  destruct (Z.eqb_spec (reload_ info) PROC_RELOAD_CLEAR) as [Hr|Hr4].
  2: { exists w, g. split; [done|]. split; [by apply stepped_same|]. do 4 right. split; [|done].
       unfold PROC_RELOAD_START, PROC_RELOAD_WAIT_NEW, PROC_RELOAD_KILLOLD, PROC_RELOAD_CLEAR in *. lia. }
  destruct (group_dead_spec i w) as (e & tag & E1 & E2). destruct (reload_check_group_dead i w) as [dead w1]. cbn in E1, E2. subst w1.
  unfold time. destruct (sys_time _) as [t e1]. destruct dead.
  - destruct (stepped_set PROC_RELOAD_NORMAL t (set_env e1 (set_tag tag (set_env e w)))) as (w' & g' & E5 & H5 & R5 & _ & T5 & K5 & S5); [done|].
    exists w', g'. split; [done|]. split; [done|]. do 3 right. left. split; [done|]. split; [done|]. left.
    split; [done|]. split; [rewrite T5; apply E2|apply E2].
  - destruct E2 as [-> Hal]. set (w2 := set_env e1 _). destruct (_ <? t).
    + destruct (reload_kill_same i SIGKILL w2) as (F1 & F2 & F3 & F4 & F5 & F6). exists (reload_kill_group i SIGKILL w2), g. split; [done|].
      split; [by apply stepped_same; split|]. do 3 right. left. split; [done|]. split; [done|]. right. by split_and!.
    + exists w2, g. split; [done|]. split; [by apply stepped_same|]. do 3 right. left. split; [done|]. split; [done|]. right. by split_and!.
Qed.
End step.
End run.
