(* ===== verification/ProcMonFrame.v ===== *)
(** * What the monitor leaves alone in a group that is reloaded

    Receiving reports, checking other groups and the system calls do not touch the
    stage of the hot reload of group [i], the time of it, or the list of its old
    processes.  [keeps] says so for one step; the lemmas follow the code. *)

From Stdlib Require Import ZArith Lia.
From stdpp Require Import base list option gmap sorting.
From S2P Require Import Prelude RawCache ProcMon ProcMonInv ProcMonRun.

Lemma obind_done {A B} (m : outcome A) (f : A -> outcome B) b : obind m f = Done b -> exists a, m = Done a /\ f a = Done b.
Proof. destruct m as [a| |]; [|done..]. intros Hf. by exists a. Qed.

Section frame.
Context {E : Type} {sys : Sys E} (restart : bool) (i : Z).
#[local] Abbreviation W := (monsrv E).
Implicit Types (w : W) (g : TProcGroupObj).

(** What system calls make of the system. *)
Inductive env_steps (e : E) : E -> Prop :=
  | es_none : env_steps e e
  | es_time e' : env_steps e e' -> env_steps e (sys_time e').2
  | es_alive e' p : env_steps e e' -> env_steps e (sys_alive p e').2
  | es_kill e' p s : env_steps e e' -> env_steps e (sys_kill p s e')
  | es_load e' k : env_steps e e' -> env_steps e (sys_load k e').2.

Lemma env_steps_trans e1 e2 e3 : env_steps e1 e2 -> env_steps e2 e3 -> env_steps e1 e3.
Proof. intros H1 H2. induction H2; [done|by constructor..]. Qed.

(** The stage of the reload, and since when. *)
Definition stage g : Z * Z := (reload_ (groupinfo_ g), reload_time (groupinfo_ g)).

Record keeps w w' : Prop := {
  ke_tag : reload_tag w' !! i = reload_tag w !! i;
  ke_stage g : get_group i w = Done g -> exists g', get_group i w' = Done g' /\ stage g' = stage g;
  ke_env : env_steps (env w) (env w')
}.
#[export] Instance keeps_refl : Reflexive keeps.
Proof. intros w. split; [done|eauto|constructor]. Qed.
#[export] Instance keeps_trans : Transitive keeps.
Proof.
  intros w1 w2 w3 [T1 G1 E1] [T2 G2 E2]. split; [congruence| |by eapply env_steps_trans].
  intros g Eg. destruct (G1 g Eg) as (g2 & Eg2 & S2). destruct (G2 g2 Eg2) as (g3 & Eg3 & S3). exists g3. split; [done|congruence].
Qed.

(** A step that touches neither the groups nor the lists. *)
Lemma keeps_same w w' : proc_groups_ w' = proc_groups_ w -> reload_tag w' = reload_tag w -> env_steps (env w) (env w') -> keeps w w'.
Proof. intros Eg Et He. split; [by rewrite Et| |done]. unfold get_group. rewrite Eg. eauto. Qed.

Lemma keeps_put_group j g g' w : get_group j w = Done g -> stage g' = stage g -> keeps w (put_group j g' w).
Proof.
  intros Eg Es. apply get_group_lookup in Eg as [Hj El]. split; [done| |constructor]. intros g0 Eg0.
  pose proof (get_group_lookup i w g0 Eg0) as [Hi El0]. unfold get_group, put_group. cbn [proc_groups_ set_groups].
  rewrite (proj2 (Z.ltb_ge _ _)) by done. destruct (decide (Z.to_nat j = Z.to_nat i)) as [En|Hn].
  - rewrite En in *. assert (g0 = g) as -> by congruence. rewrite list_lookup_insert_eq by (by eapply lookup_lt_Some). by exists g'.
  - rewrite list_lookup_insert_ne, El0 by done. by exists g0.
Qed.
Lemma keeps_put_other j g' w : 0 <= j -> j <> i -> keeps w (put_group j g' w).
Proof.
  intros Hj Hn. split; [done| |constructor]. intros g0 Eg0. pose proof (get_group_lookup i w g0 Eg0) as [Hi El0].
  unfold get_group, put_group. cbn [proc_groups_ set_groups]. rewrite (proj2 (Z.ltb_ge _ _)) by done.
  rewrite list_lookup_insert_ne, El0 by lia. by exists g0.
Qed.

(** ** The operations *)

Lemma keeps_time w t w' : time w = (t, w') -> keeps w w'.
Proof.
  unfold time. pose proof (es_time (env w) (env w) (es_none _)) as He. destruct (sys_time (env w)). intros [= _ <-]. by apply keeps_same.
Qed.
Lemma keeps_alive p w b w' : alive p w = (b, w') -> keeps w w'.
Proof.
  unfold alive. pose proof (es_alive (env w) (env w) p (es_none _)) as He. destruct (sys_alive p (env w)). intros [= _ <-]. by apply keeps_same.
Qed.
Lemma keeps_busy k w b w' : check_groupbusy k w = (b, w') -> keeps w w'.
Proof.
  unfold check_groupbusy. pose proof (es_load (env w) (env w) k (es_none _)) as He. destruct (sys_load k (env w)). intros [= _ <-]. by apply keeps_same.
Qed.
Lemma keeps_kill p s w : keeps w (do_kill p s w).
Proof. apply keeps_same; [done..|]. apply es_kill, es_none. Qed.
Lemma keeps_fork k n w : keeps w (do_fork k n w).
Proof. apply keeps_same; [done..|]. apply es_none. Qed.
Lemma keeps_mq q w : keeps w (set_mq q w).
Proof. apply keeps_same; [done..|]. apply es_none. Qed.

Lemma keeps_write j a f w w' : write j a f w = Done w' -> keeps w w'.
Proof.
  unfold write. intros (_ & _ & (g & Eg & [= <-])%obind_done)%obind_done. by apply (keeps_put_group j g).
Qed.
Lemma keeps_add j info w r w' : add_proc j info w = Done (r, w') -> keeps w w'.
Proof.
  unfold add_proc. case_match; [by intros [= _ <-]|]. intros (g & Eg & (g' & Ea & [= _ <-])%obind_done)%obind_done.
  transitivity (put_group j g' w); [|by apply keeps_same; [..|constructor]]. apply (keeps_put_group j g); [done|].
  unfold grp_add in Ea. apply obind_done in Ea as ([k l] & _ & [= <-]). done.
Qed.
Lemma keeps_del j p w w' : del_proc j p w = Done w' -> keeps w w'.
Proof.
  unfold del_proc. case_match; [by intros [= <-]|]. intros (g & Eg & (g' & Ed & [= <-])%obind_done)%obind_done.
  apply (keeps_put_group j g); [done|]. unfold grp_del in Ed. apply obind_done in Ed as ([k l] & _ & [= <-]). done.
Qed.

Section recv.
Context (rc : Z -> W -> outcome W) (Hrc : forall t w w', rc t w = Done w' -> keeps w w').

Lemma keeps_procdead j a w r w' : event_procdead rc j a w = Done (r, w') -> keeps w w'.
Proof.
  unfold event_procdead. intros (w1 & K1%keeps_write & Hx)%obind_done. etrans; [exact K1|].
  apply obind_done in Hx as (o & _ & (g & Eg & Hx)%obind_done). set (w2 := do_kill _ _ w1) in *.
  etrans; [apply (keeps_kill (pid_of o) (exitsignal_ (groupinfo_ g)))|]. fold w2. apply obind_done in Hx as (g2 & Eg2 & Hx).
  etrans; [apply (keeps_put_group (pi_groupid (procinfo_ o)) g2 (set_counts (curprocnum_ g2) (errprocnum_ g2 + 1) g2)); [exact Eg2|done]|].
  destruct (alive _ _) as [al w4] eqn:Ea. apply keeps_alive in Ea. etrans; [exact Ea|]. destruct al; [by injection Hx as _ <-|].
  apply obind_done in Hx as (w5 & K5%Hrc & (o2 & _ & (w6 & K6%keeps_del & [= _ <-])%obind_done)%obind_done).
  etrans; [exact K5|]. etrans; [exact K6|]. apply keeps_fork.
Qed.

Lemma keeps_exception info w w' : process_exception rc info w = Done w' -> keeps w w'.
Proof.
  unfold process_exception. intros (g & Eg & Hx)%obind_done. destruct (_ =? _); [by injection Hx as <-|].
  apply obind_done in Hx as (r & _ & Hx). destruct r as [o|]; [|by injection Hx as <-].
  apply obind_done in Hx as (w1 & K1%keeps_write & Hx). etrans; [exact K1|]. destruct (time w1) as [t w2] eqn:Et. apply keeps_time in Et.
  etrans; [exact Et|]. apply obind_done in Hx as (g2 & Eg2 & Hx).
  etrans; [by apply (keeps_put_group (pi_groupid info) g2 (set_info (set_adjust t (groupinfo_ g2)) g2))|].
  apply obind_done in Hx as ([r w3] & K3%keeps_procdead & [= <-]). done.
Qed.

Lemma keeps_msg m w w' : handle_msg restart rc m w = Done w' -> keeps w w'.
Proof.
  unfold handle_msg. destruct (negb _); [by intros [= <-]|]. destruct (negb _).
  { destruct restart; [apply keeps_exception|by intros [= <-]]. }
  destruct (find_group _ _); [|by intros [= <-]]. intros (g & Eg & (r & _ & Hx)%obind_done)%obind_done. destruct r as [o|].
  - by eapply keeps_write.
  - repeat case_match; try (by injection Hx as <-).
    all: apply obind_done in Hx as ([r2 w2] & K2%keeps_add & [= <-]); done.
Qed.
End recv.

Lemma keeps_recv t w w' : do_recv restart t w = Done w' -> keeps w w'.
Proof.
  unfold do_recv. generalize (S (length (mq w))) as fuel. intros fuel. revert t w w'. induction fuel as [|fuel IH]; intros t w w'; [done|].
  cbn [do_recv_fuel]. destruct (take_msg t (mq w)) as [[m q]|]; [|by intros [= <-]]. intros (w1 & K1 & K2%IH)%obind_done.
  etrans; [apply (keeps_mq q)|]. etrans; [|exact K2]. by eapply keeps_msg.
Qed.

Lemma keeps_procup fuel j : forall b count diff w w', event_procup restart fuel j b count diff w = Done w' -> keeps w w'.
Proof.
  induction fuel as [|fuel IH]; intros b count diff w w'; [done|]. cbn [event_procup]. case_match; [by intros [= <-]|].
  intros (g & Eg & (l & _ & Hx)%obind_done)%obind_done. destruct l as [|o l].
  - case_match; [by injection Hx as <-|]. by eapply IH.
  - etrans; [apply (keeps_kill (pid_of o) SIGUSR1)|]. apply obind_done in Hx as (w1 & K1%keeps_recv & (w2 & K2%keeps_del & Hx)%obind_done).
    etrans; [exact K1|]. etrans; [exact K2|]. case_match; [by injection Hx as <-|]. by eapply IH.
Qed.

Lemma keeps_group j w w' : check_group restart j w = Done w' -> keeps w w'.
Proof.
  unfold check_group. intros (g & Eg & Hx)%obind_done. destruct (time w) as [now w1] eqn:Et. pose proof (keeps_time _ _ _ Et) as K1.
  assert (Eg1 : get_group j w1 = Done g) by (unfold time in Et; destruct (sys_time _); injection Et as _ <-; done).
  etrans; [exact K1|]. case_match; [by injection Hx as <-|]. set (g2 := set_info (set_adjust now (groupinfo_ g)) g) in *.
  assert (Hd : forall k n w2, get_group j w2 = Done g -> keeps w2 (do_fork k n (put_group j g2 w2))).
  { intros k n w2 E2. etrans; [by apply (keeps_put_group j g g2)|apply keeps_fork]. }
  assert (Hu : forall n w2, get_group j w2 = Done g -> (let w := put_group j g2 w2 in event_procup restart (procup_fuel g w) j 0 0 n w) = Done w' ->
    keeps w2 w').
  { intros n w2 E2 Hp. etrans; [by apply (keeps_put_group j g g2)|]. by eapply keeps_procup. }
  case_match; [injection Hx as <-; by apply Hd|]. case_match; [by eapply Hu|].
  destruct (check_groupbusy _ w1) as [busy w2] eqn:Eb. pose proof (keeps_busy _ _ _ _ Eb) as K2.
  assert (Eg2 : get_group j w2 = Done g) by (unfold check_groupbusy in Eb; destruct (sys_load _ _); injection Eb as _ <-; done).
  etrans; [exact K2|]. repeat case_match; try (by injection Hx as <-); [by eapply Hu|injection Hx as <-; by apply Hd].
Qed.

Lemma keeps_proc j a w r w' : check_proc restart j a w = Done (r, w') -> keeps w w'.
Proof.
  unfold check_proc. intros (g & Eg & (o & _ & Hx)%obind_done)%obind_done. destruct (time w) as [now w1] eqn:Et. apply keeps_time in Et.
  etrans; [exact Et|]. apply obind_done in Hx as (w2 & K2%keeps_write & Hx). etrans; [exact K2|]. case_match; [|by injection Hx as _ <-].
  apply obind_done in Hx as (g2 & Eg2 & Hx). etrans; [by apply (keeps_put_group j g2 (set_info (set_adjust now (groupinfo_ g2)) g2))|].
  eapply keeps_procdead; [|exact Hx]. intros t. apply keeps_recv.
Qed.
Lemma keeps_list j l : forall w r w', check_list restart j l w = Done (r, w') -> keeps w w'.
Proof.
  induction l as [|a l IH]; intros w r w'; cbn [check_list]; [by intros [= _ <-]|].
  intros ([r1 w1] & K1%keeps_proc & Hx)%obind_done. etrans; [exact K1|]. destruct r1; [by injection Hx as _ <-|]. by eapply IH.
Qed.
Lemma keeps_bucket fuel j b : forall w w', check_bucket restart fuel j b w = Done w' -> keeps w w'.
Proof.
  induction fuel as [|fuel IH]; intros w w'; [done|]. cbn [check_bucket].
  intros (g & _ & (l & _ & ([r w1] & K1%keeps_list & Hx)%obind_done)%obind_done)%obind_done. etrans; [exact K1|].
  destruct r; [by eapply IH|by injection Hx as <-].
Qed.
Lemma keeps_buckets n j : forall b w w', check_buckets restart n j b w = Done w' -> keeps w w'.
Proof.
  induction n as [|n IH]; intros b w w'; cbn [check_buckets]; [by intros [= <-]|].
  intros (g & _ & (w1 & K1%keeps_bucket & K2%IH)%obind_done)%obind_done. by etrans.
Qed.

(** ** Reloading another group *)

Lemma keeps_kill_alive l s : forall w, keeps w (kill_alive l s w).
Proof.
  induction l as [|p l IH]; intros w; [done|]. cbn [kill_alive]. destruct (alive p w) as [al w1] eqn:Ea. apply keeps_alive in Ea.
  etrans; [exact Ea|]. etrans; [|apply IH]. destruct al; [apply keeps_kill|done].
Qed.
Lemma keeps_kill_group k s w : keeps w (reload_kill_group k s w).
Proof. unfold reload_kill_group. case_match; [apply keeps_kill_alive|done]. Qed.
Lemma keeps_any_alive l : forall w b w', any_alive l w = (b, w') -> keeps w w'.
Proof.
  induction l as [|p l IH]; intros w b w'; cbn [any_alive]; [by intros [= _ <-]|]. destruct (alive p w) as [al w1] eqn:Ea. apply keeps_alive in Ea.
  destruct al; [by intros [= _ <-]|]. intros K2%IH. by etrans.
Qed.
Lemma keeps_dead k w b w' : k <> i -> reload_check_group_dead k w = (b, w') -> keeps w w'.
Proof.
  intros Hk. unfold reload_check_group_dead. case_match; [|by intros [= _ <-]]. destruct (any_alive _ w) as [al w1] eqn:Ea.
  apply keeps_any_alive in Ea. destruct al; intros [= _ <-]; [done|]. etrans; [exact Ea|]. split; [|eauto|constructor].
  cbn. by apply lookup_delete_ne.
Qed.
Lemma keeps_set_reload j r t w w' : j <> i -> set_reload_at j r t w = Done w' -> keeps w w'.
Proof.
  intros Hj. unfold set_reload_at. intros (g & Eg & [= <-])%obind_done. apply get_group_lookup in Eg as [Hp _]. by apply keeps_put_other.
Qed.

Lemma keeps_reload_other j w w' : j <> i -> (forall g, get_group j w = Done g -> groupid_ (groupinfo_ g) = j) ->
  reload_step j w = Done w' -> keeps w w'.
Proof.
  intros Hj Hid. unfold reload_step. intros (g & Eg & Hx)%obind_done. rewrite (Hid g Eg) in Hx.
  assert (Hset : forall r w1, (let '(t, w2) := time w1 in set_reload_at j r t w2) = Done w' -> keeps w1 w').
  { intros r w1. destruct (time w1) as [t w2] eqn:Et. apply keeps_time in Et. intros K2%keeps_set_reload; [|done]. by etrans. }
  destruct (_ =? _); [etrans; [apply keeps_fork|by eapply Hset]|]. destruct (_ =? _).
  { destruct (if _ <=? _ then _ else _) as [t w1] eqn:Et. assert (keeps w w1) as K1 by (destruct (_ <=? _) in Et; [by injection Et as _ <-|by eapply keeps_time]).
    etrans; [exact K1|]. destruct (_ || _); [etrans; [apply keeps_kill_group|by eapply Hset]|by injection Hx as <-]. }
  destruct (_ =? _); [etrans; [apply keeps_kill_group|by eapply Hset]|]. destruct (_ =? _); [|by injection Hx as <-].
  destruct (reload_check_group_dead j w) as [dead w1] eqn:Ed. apply keeps_dead in Ed; [|done]. etrans; [exact Ed|].
  destruct dead; [by eapply Hset|]. destruct (time w1) as [t w2] eqn:Et. apply keeps_time in Et. etrans; [exact Et|].
  case_match; injection Hx as <-; [apply keeps_kill_group|done].
Qed.
End frame.
