(* ===== verification/ProcMonProps.v ===== *)
(** * What the process monitor guarantees

    In every state of the controller that it reaches without a crash reported twice the
    tables of [ProcMon] are exact; a hot reload, followed through the rounds of the
    monitor, completes once the old processes are gone; and where the code
    falls short: a crash reported twice, a second reload during the first, and one
    group too many. *)

From Stdlib Require Import ZArith Lia.
From stdpp Require Import base list option gmap sorting.
From S2P Require Import Prelude RawCache ProcMon ProcMonInv ProcMonRun ProcMonFrame.

Section props.
Context {E : Type} {sys : Sys E} (restart : bool) {laws : SysLaws}.
#[local] Abbreviation W := (monsrv E).

(** ** A round *)

Lemma do_check_ok n : forall i w, idle w -> 0 <= i -> i + Z.of_nat n <= cur_group_ w ->
  exists w', do_check restart n i w = Done w' /\ idle w' /\ cur_group_ w' = cur_group_ w.
Proof.
  induction n as [|n IH]; intros i w Hw Hi Hn; cbn [do_check]; [by exists w|].
  destruct (get_group_ok w (proj1 Hw) i) as (g & Eg & Hg & _); [lia|]. rewrite Eg. cbn [obind].
  assert (exists w1, (if curprocnum_ g =? GROUP_UNUSED then Done w
           else if 0 <? reload_ (groupinfo_ g) then reload_step i w
           else w ⇐ check_group restart i w; check_buckets restart (Z.to_nat BUCKET_SIZE) i 0 w) = Done w1 /\ idle w1 /\
     cur_group_ w1 = cur_group_ w) as (w1 & -> & H1 & C1).
  { destruct (_ =? GROUP_UNUSED); [by exists w|]. destruct (0 <? _).
    - destruct (reload_step_ok i g w Hw) as (w1 & g1 & -> & [H1 C1 _ _ _ _] & _); [lia|done|done|]. by exists w1.
    - destruct (check_group_ok restart i g w Hw) as (w1 & -> & [H1 C1 _ _ _]); [lia|done|]. cbn [obind].
      destruct (check_buckets_ok restart (Z.to_nat BUCKET_SIZE) i 0 w1 H1) as (w2 & -> & H2 & C2); [lia|lia|].
      exists w2. split; [done|]. split; [done|congruence]. }
  cbn [obind]. destruct (IH (i + 1) w1 H1) as (w2 & -> & H2 & C2); [lia|lia|]. exists w2. split; [done|]. split; [done|congruence].
Qed.

(** The tables are exact and the queue is in order. *)
Definition mon_ok (w : W) : Prop := pm_ok w /\ Forall msg_ok (mq w) /\ exceptions_ok restart (mq w).

Lemma do_recv_all w : mon_ok w -> exists w', do_recv restart 0 w = Done w' /\ idle w' /\ cur_group_ w' = cur_group_ w.
Proof.
  intros (Hw & Hm & Hx). unfold do_recv. destruct (recv_all restart (S (length (mq w))) w) as (w1 & -> & H1 & Q1 & C1 & _); [lia|done..|].
  by exists w1.
Qed.

Lemma run_ok w : mon_ok w -> exists w', run restart w = Done w' /\ idle w' /\ cur_group_ w' = cur_group_ w.
Proof.
  intros Hm. destruct (do_recv_all w Hm) as (w1 & E1 & [H1 Q1] & C1). unfold run. rewrite E1.
  cbn [obind]. destruct (do_check_ok (Z.to_nat (cur_group_ w1)) 0 w1) as (w2 & -> & H2 & C2); [done|lia|pose proof (po_cur _ H1); lia|].
  exists w2. split; [done|]. split; [done|congruence].
Qed.

Lemma idle_mon w : idle w -> mon_ok w.
Proof. intros [Hw Hq]. split; [done|]. rewrite Hq. split; [constructor|]. intros _. constructor. Qed.

(** ** Other operations *)

Lemma new_ok (e : E) : pm_ok (CTProcMonSrv_new e).
Proof.
  split; cbn [proc_groups_ cur_group_ CTProcMonSrv_new next_addr].
  - apply length_replicate.
  - unfold MAX_PROC_GROUP_NUM. lia.
  - lia.
  - intros i g _ H. apply lookup_replicate in H as [-> _]. done.
Qed.

Definition info_ok (info : TGroupInfo) : Prop := 0 <= minprocnum_ info /\ 0 <= maxprocnum_ info.

Lemma add_group_ok info (w : W) : pm_ok w -> cur_group_ w < MAX_PROC_GROUP_NUM -> info_ok info ->
  exists r w', add_group info w = Done (r, w') /\ pm_ok w' /\ mq w' = mq w.
Proof.
  intros Hw Hc Hb. pose proof (po_cur _ Hw) as Hr. pose proof (po_len _ Hw) as Hl. unfold add_group. rewrite (proj2 (Z.ltb_ge _ _)) by lia. cbn [orb].
  destruct (Z.eqb_spec (cur_group_ w) (groupid_ info)) as [Hid|Hid]; cbn [negb]; [|by exists (-1), w].
  unfold get_group. rewrite (proj2 (Z.ltb_ge (cur_group_ w) 0)) by lia.
  destruct (lookup_lt_is_Some_2 (proc_groups_ w) (Z.to_nat (cur_group_ w))) as [g ->]; [lia|]. cbn [oget obind].
  eexists 0, _. split; [done|]. split; [|done]. split; cbn [proc_groups_ cur_group_ next_addr put_group set_groups].
  - by rewrite length_insert.
  - lia.
  - intros i Hi. destruct (decide (i = cur_group_ w)) as [->|Hne].
    + rewrite list_lookup_insert_eq by lia. eexists. split; [done|]. split; [|intros o Ho; by apply not_elem_of_nil in Ho].
      split; try done; [|by constructor..]. intros j l o Hj Ho. apply lookup_replicate in Hj as [-> _]. by apply not_elem_of_nil in Ho.
    + rewrite list_lookup_insert_ne by lia. apply (po_grp _ Hw). lia.
  - intros i g' Hi Hg. rewrite list_lookup_insert_ne in Hg by lia. apply (po_unused _ Hw i); [lia|done].
Qed.

Lemma mod_group_ok i info (w : W) : pm_ok w -> 0 <= i < cur_group_ w -> groupid_ info = i -> info_ok info ->
  exists g, get_group i w = Done g /\ mod_group i info w = Done (0, put_group i (set_info info g) w) /\
    pm_ok (put_group i (set_info info g) w) /\ get_group i (put_group i (set_info info g) w) = Done (set_info info g).
Proof.
  intros Hw Hi Hid Hb. destruct (get_group_ok w Hw i Hi) as (g & Eg & _). exists g. unfold mod_group.
  rewrite (proj2 (Z.eqb_neq i _)) by lia. rewrite (proj2 (Z.ltb_ge _ i)) by lia. rewrite Eg. cbn [obind].
  destruct (put_info_ok i g info w Hw Hi Eg Hid Hb) as [H1 H2]. done.
Qed.

(** Deleting several processes, with or without a signal. *)
Lemma kill_and_del_ok i signo l : forall w : W, pm_ok w -> 0 <= i < cur_group_ w -> NoDup l ->
  (forall p, p ∈ l -> exists o, obj w i o /\ pid_of o = p) ->
  exists w', kill_and_del i l signo w = Done w' /\ pm_ok w' /\ mq w' = mq w /\ cur_group_ w' = cur_group_ w /\
    reload_tag w' = reload_tag w /\ (nmem w' i + length l = nmem w i)%nat.
Proof.
  induction l as [|p l IH]; intros w Hw Hi Hn Hl; cbn [kill_and_del]; [exists w; split_and!; auto|].
  apply NoDup_cons in Hn as [Hp Hn]. destruct (Hl p) as (o & Ho & <-); [set_solver|].
  set (w0 := do_kill (pid_of o) signo w). assert (pm_ok w0) as Hw0 by (by apply (same_table_ok w)).
  destruct (del_proc_ok w0 i o Hw0 Hi) as (w1 & g & g' & -> & H1 & [O1 O2 O3 _ _] & Eg & Eg' & P1 & _); [destruct Ho as (g & Eg & Ho); by exists g|].
  cbn [obind]. destruct (IH w1 H1) as (w2 & -> & H2 & M2 & C2 & T2 & N2); [by rewrite O1|done| |].
  - intros p Hin. destruct (Hl p) as (o' & (g0 & Eg0 & Ho') & Hp'); [set_solver|]. exists o'. split; [|done]. exists g'. split; [done|].
    assert (g0 = g) as -> by (assert (get_group i w0 = get_group i w) as Es by done; congruence). rewrite P1 in Ho'.
    apply elem_of_cons in Ho' as [-> |Ho']; [|done]. by rewrite Hp' in Hp.
  - exists w2. split; [done|]. split; [done|]. split; [by rewrite M2, O3|]. split; [by rewrite C2, O1|]. split; [by rewrite T2, O2|].
    assert (nmem w1 i = length (members g')) by (unfold nmem; by rewrite Eg').
    assert (nmem w i = S (length (members g'))) by (change (nmem w i) with (nmem w0 i); unfold nmem; by rewrite Eg, P1). cbn [length]. lia.
Qed.

Lemma del_all_ok i l : forall w : W, pm_ok w -> 0 <= i < cur_group_ w -> NoDup l ->
  (forall p, p ∈ l -> exists o, obj w i o /\ pid_of o = p) ->
  exists w', del_all i l w = Done w' /\ pm_ok w' /\ mq w' = mq w /\ cur_group_ w' = cur_group_ w /\
    reload_tag w' = reload_tag w /\ (nmem w' i + length l = nmem w i)%nat.
Proof.
  induction l as [|p l IH]; intros w Hw Hi Hn Hl; cbn [del_all]; [exists w; split_and!; auto|].
  apply NoDup_cons in Hn as [Hp Hn]. destruct (Hl p) as (o & Ho & <-); [set_solver|].
  destruct (del_proc_ok w i o Hw Hi Ho) as (w1 & g & g' & -> & H1 & [O1 O2 O3 _ _] & Eg & Eg' & P1 & _).
  cbn [obind]. destruct (IH w1 H1) as (w2 & -> & H2 & M2 & C2 & T2 & N2); [by rewrite O1|done| |].
  - intros p Hin. destruct (Hl p) as (o' & (g0 & Eg0 & Ho') & Hp'); [set_solver|]. exists o'. split; [|done]. exists g'. split; [done|].
    assert (g0 = g) as -> by congruence. rewrite P1 in Ho'. apply elem_of_cons in Ho' as [-> |Ho']; [|done]. by rewrite Hp' in Hp.
  - exists w2. split; [done|]. split; [done|]. split; [by rewrite M2, O3|]. split; [by rewrite C2, O1|]. split; [by rewrite T2, O2|].
    assert (nmem w1 i = length (members g')) by (unfold nmem; by rewrite Eg').
    assert (nmem w i = S (length (members g'))) by (unfold nmem; by rewrite Eg, P1). cbn [length]. lia.
Qed.

Lemma member_pids i g (w : W) : pm_ok w -> 0 <= i < cur_group_ w -> get_group i w = Done g ->
  NoDup (map pid_of (members g)) /\ forall p, p ∈ map pid_of (members g) -> exists o, obj w i o /\ pid_of o = p.
Proof.
  intros Hw Hi Eg. destruct (get_group_ok w Hw i Hi) as (g' & Eg' & Hg & _). rewrite Eg in Eg'. injection Eg' as <-.
  split; [apply Hg|]. intros p Hp. apply list_elem_of_fmap in Hp as (o & -> & Ho). exists o. split; [|done]. by exists g.
Qed.

Lemma kill_group_ok i signo (w : W) : pm_ok w -> exists w', kill_group i signo w = Done w' /\ pm_ok w' /\ mq w' = mq w.
Proof.
  intros Hw. unfold kill_group. destruct (find_group i w) as [k|] eqn:Ef; [|by exists w].
  destruct (find_group_ok w i k Hw Ef) as [Hk Hi]. destruct (get_group_ok w Hw i Hi) as (g & Eg & _).
  destruct (get_group_lookup i w g Eg) as [_ El]. replace (Z.to_nat i) with k in El by lia. rewrite El. cbn [oget obind].
  destruct (member_pids i g w Hw Hi Eg) as [Hn Hp]. fold (members g).
  destruct (kill_and_del_ok i signo (ascending (list_to_set (map pid_of (members g)))) w Hw Hi) as (w' & -> & H1 & H2 & _).
  - unfold ascending. rewrite merge_sort_Permutation. apply NoDup_elements.
  - intros p. rewrite elem_ascending, elem_of_list_to_set. apply Hp.
  - by exists w'.
Qed.

(** Preparing a reload: the processes of the group become the old ones. *)
Lemma pre_reload_ok i info (w : W) : pm_ok w -> 0 <= i < cur_group_ w -> groupid_ info = i -> info_ok info ->
  exists g g' w', get_group i w = Done g /\ pre_reload_group i info w = Done w' /\ pm_ok w' /\ mq w' = mq w /\ cur_group_ w' = cur_group_ w /\
    get_group i w' = Done g' /\ groupinfo_ g' = info /\ members g' = [] /\
    reload_tag w' = <[i := list_to_set (map pid_of (members g))]> (reload_tag w).
Proof.
  intros Hw Hi Hid Hb. destruct (get_group_ok w Hw i Hi) as (g & Eg & _). unfold pre_reload_group. rewrite Eg. cbn [obind]. fold (members g).
  destruct (member_pids i g w Hw Hi Eg) as [Hn Hp].
  destruct (del_all_ok i (map pid_of (members g)) w Hw Hi Hn Hp) as (w1 & -> & H1 & M1 & C1 & T1 & N1). cbn [obind].
  set (w2 := set_tag _ w1). assert (pm_ok w2) as H2 by (by apply (same_table_ok w1)).
  destruct (mod_group_ok i info w2 H2) as (g2 & Eg2 & -> & H3 & Eg3); [by cbn; rewrite C1|done|done|]. cbn [obind].
  set (w3 := put_group i (set_info info g2) w2) in *. rewrite Eg3. cbn [obind].
  assert (members g2 = []) as Hnil.
  { assert (nmem w1 i = 0%nat) as Hz by (unfold nmem at 2 in N1; rewrite Eg in N1; rewrite length_map in N1; lia).
    unfold nmem in Hz. assert (get_group i w1 = Done g2) as Hg1 by (by rewrite <- Eg2). rewrite Hg1 in Hz. by destruct (members g2). }
  set (g4 := set_counts 0 0 (set_info info g2)).
  destruct (get_group_ok w3 H3 i) as (g3 & Eg3' & Hg3 & _); [cbn; by rewrite C1|]. rewrite Eg3 in Eg3'. injection Eg3' as <-.
  assert (grp_ok i g4) as Hg4.
  { destruct Hg3 as [K1 K2 K3 K4 K5 K6 K7]. split; try done. change (members g4) with (members g2). by rewrite Hnil. }
  destruct (put_same w3 H3 i (set_info info g2) g4) with (w' := put_group i g4 w3) as (H4 & _ & Eg4); [cbn; by rewrite C1|done..|].
  exists g, g4, (put_group i g4 w3). split_and!; try done. cbn. by rewrite T1.
Qed.

(** ** Every state of the controller *)

(** The controller adds groups at the start, takes over a queue, receives reports, runs its rounds,
    changes the configuration of a group, kills a group and prepares reloads; the
    system changes as it likes. *)
Inductive reach : W -> Prop :=
  | reach_new e : reach (CTProcMonSrv_new e)
  | reach_sys w e : reach w -> reach (set_env e w)
  | reach_msg w m : reach w -> msg_ok m -> exceptions_ok restart (mq w ++ [m]) -> reach (set_mq (mq w ++ [m]) w)
  | reach_add w info r w' : reach w -> cur_group_ w < MAX_PROC_GROUP_NUM -> info_ok info -> add_group info w = Done (r, w') -> reach w'
  | reach_mod w info r w' : reach w -> 0 <= groupid_ info < cur_group_ w -> info_ok info ->
      mod_group (groupid_ info) info w = Done (r, w') -> reach w'
  | reach_kill w i signo w' : reach w -> kill_group i signo w = Done w' -> reach w'
  | reach_reload w info w' : reach w -> 0 <= groupid_ info < cur_group_ w -> info_ok info ->
      pre_reload_group (groupid_ info) info w = Done w' -> reach w'
  | reach_commu w q w' : reach w -> Forall msg_ok q -> exceptions_ok restart q -> set_commu restart q w = Done w' -> reach w'
  | reach_run w w' : reach w -> run restart w = Done w' -> reach w'.

Lemma reach_mon_ok w : reach w -> mon_ok w.
Proof.
  induction 1 as [e|w e _ IH|w m _ IH Hm Hx|w info r w' _ IH Hc Hb He|w info r w' _ IH Hi Hb He|w i signo w' _ IH He|w info w' _ IH Hi Hb He|w q w' _ IH Hm Hx He|w w' _ IH He].
  - split; [apply new_ok|]. split; [constructor|]. intros _. constructor.
  - destruct IH as (H1 & H2 & H3). split; [by apply (same_table_ok w)|done].
  - destruct IH as (H1 & H2 & H3). split; [by apply (same_table_ok w)|]. split; [|done]. cbn. apply Forall_app. split; [done|]. by constructor.
  - destruct IH as (H1 & H2 & H3). destruct (add_group_ok info w H1 Hc Hb) as (r2 & w2 & E2 & G2 & M2). rewrite He in E2. injection E2 as <- <-.
    split; [done|]. by rewrite M2.
  - destruct IH as (H1 & H2 & H3). destruct (mod_group_ok (groupid_ info) info w H1 Hi eq_refl Hb) as (g & _ & E2 & G2 & _).
    rewrite He in E2. injection E2 as -> ->. done.
  - destruct IH as (H1 & H2 & H3). destruct (kill_group_ok i signo w H1) as (w2 & E2 & G2 & M2). rewrite He in E2. injection E2 as <-.
    split; [done|]. by rewrite M2.
  - destruct IH as (H1 & H2 & H3). destruct (pre_reload_ok (groupid_ info) info w H1 Hi eq_refl Hb) as (g & g' & w2 & _ & E2 & G2 & M2 & _).
    rewrite He in E2. injection E2 as <-. split; [done|]. by rewrite M2.
  - destruct IH as (H1 & _ & _). destruct (do_recv_all (set_mq q w)) as (w2 & E2 & H2 & _); [by split; [apply (same_table_ok w)|]|].
    unfold set_commu in He. rewrite He in E2. injection E2 as <-. by apply idle_mon.
  - destruct (run_ok w IH) as (w2 & E2 & G2 & _). rewrite He in E2. injection E2 as <-. by apply idle_mon.
Qed.

(** C12: in every state of the controller, for any behaviour of the system and any
    reports in which no process reports a crash twice, each group's count of
    processes is the number of processes in its table, a process is there once, in
    the bucket of its id, and a round of the monitor always ends, without undefined
    behaviour, with all reports taken. *)
Theorem monitor_tables_exact w : reach w ->
  (forall i, 0 <= i < cur_group_ w -> exists g, get_group i w = Done g /\ groupid_ (groupinfo_ g) = i /\
     curprocnum_ g = Z.of_nat (length (members g)) /\ NoDup (map pid_of (members g)) /\
     (forall j l o, bucket_ g !! j = Some l -> o ∈ l -> Z.to_nat (pid_of o mod BUCKET_SIZE) = j)) /\
  exists w', run restart w = Done w' /\ mq w' = [].
Proof.
  intros Hr. pose proof (reach_mon_ok w Hr) as Hm. split.
  - intros i Hi. destruct (get_group_ok w (proj1 Hm) i Hi) as (g & Eg & Hg & _). exists g.
    split; [done|]. split; [apply Hg|]. split; [apply Hg|]. split; [apply Hg|]. intros j l o Hj Ho. by apply (go_in _ _ Hg j l o Hj Ho).
  - destruct (run_ok w Hm) as (w' & E1 & [_ H2] & _). by exists w'.
Qed.


(** ** Hot reload *)

(** A hot reload ends (the group goes back to normal) only when every process of
    before the reload is gone, and until then they are remembered, so that their
    reports are not taken for those of new ones; the new processes are forked once,
    at the start. *)
Theorem reload_ends_when_old_are_gone i g w : reach w -> mq w = [] -> 0 <= i < cur_group_ w -> get_group i w = Done g ->
  PROC_RELOAD_START <= reload_ (groupinfo_ g) <= PROC_RELOAD_CLEAR ->
  exists w' g', reload_step i w = Done w' /\ get_group i w' = Done g' /\
    (reload_ (groupinfo_ g') = PROC_RELOAD_NORMAL -> forall pid, pid ∈ old_procs w i -> ~ lives w pid) /\
    (reload_ (groupinfo_ g') <> PROC_RELOAD_NORMAL -> reload_tag w' = reload_tag w) /\
    (forks w' = forks w \/ reload_ (groupinfo_ g) = PROC_RELOAD_START /\ reload_ (groupinfo_ g') = PROC_RELOAD_WAIT_NEW /\
       forks w' = forks w ++ [(i, minprocnum_ (groupinfo_ g))]).
Proof.
  intros Hr Hq Hi Eg Hst. pose proof (reach_mon_ok w Hr) as (Hw & _).
  destruct (reload_step_ok i g w (conj Hw Hq) Hi Eg) as (w' & g' & E1 & [_ _ Eg' _ _ _] & Hc). exists w', g'.
  split; [done|]. split; [done|]. cbv zeta in Hc.
  destruct Hc as [(H1 & H2 & H3 & H4 & H5)|[(H1 & H2 & H3 & H4)|[(H1 & H2 & H3 & H4)|[(H1 & H2 & H3)|(H1 & _)]]]].
  - rewrite H2. split; [done|]. split; [done|]. right. done.
  - split; [destruct H4 as [[-> _]|[-> _]]; done|]. split; [done|]. by left.
  - rewrite H2. split; [done|]. split; [done|]. by left.
  - split; [|split; [|by left]]; destruct H3 as [(H3 & H4 & H5)|(H3 & H4 & H5)]; rewrite H3; done.
  - lia.
Qed.

(** Rounds of the monitor: before each the system is in a given state, and reports have
    come. *)
Definition round (r : E * list TProcMonMsg) (w : W) : outcome W := run restart (set_mq (mq w ++ r.2) (set_env r.1 w)).
Definition round_ok (r : E * list TProcMonMsg) : Prop := Forall msg_ok r.2 /\ exceptions_ok restart r.2.
Fixpoint rounds (rs : list (E * list TProcMonMsg)) (w : W) : outcome W :=
  match rs with [] => Done w | r :: rs => w ⇐ round r w; rounds rs w end.

Lemma rounds_app rs rs' w : rounds (rs ++ rs') w = (w ⇐ rounds rs w; rounds rs' w).
Proof. revert w. induction rs as [|r rs IH]; intros w; cbn; [done|]. destruct (round r w); [apply IH|done..]. Qed.

Section reload.
Context (i : Z).
Implicit Types (w : W).
#[local] Abbreviation keeps := (keeps i).

(** The check of one group. *)
Lemma check_one j g w : idle w -> 0 <= j < cur_group_ w -> get_group j w = Done g ->
  exists w', (if curprocnum_ g =? GROUP_UNUSED then Done w
           else if 0 <? reload_ (groupinfo_ g) then reload_step j w
           else w ⇐ check_group restart j w; check_buckets restart (Z.to_nat BUCKET_SIZE) j 0 w) = Done w' /\ idle w' /\
     cur_group_ w' = cur_group_ w /\
     (j <> i \/ reload_ (groupinfo_ g) <= 0 -> keeps w w') /\
     (0 < reload_ (groupinfo_ g) -> reload_step j w = Done w').
Proof.
  intros Hw Hj Eg. pose proof (group_facts j g w Hw Hj Eg) as Hg.
  assert (curprocnum_ g =? GROUP_UNUSED = false) as ->.
  { apply Z.eqb_neq. rewrite (go_count _ _ Hg). unfold GROUP_UNUSED. lia. }
  destruct (Z.ltb_spec 0 (reload_ (groupinfo_ g))) as [Hr|Hr].
  - destruct (reload_step_ok j g w Hw Hj Eg) as (w1 & g1 & E1 & [H1 C1 _ _ _ _] & _). exists w1. do 3 (split; [done|]).
    split; [|done]. intros [Hne|?]; [|lia]. apply (keeps_reload_other i j); [done| |done].
    intros g2 Eg2. assert (g2 = g) as -> by congruence. apply Hg.
  - destruct (check_group_ok restart j g w Hw Hj Eg) as (w1 & E1 & [H1 C1 _ _ _]). rewrite E1. cbn [obind].
    destruct (check_buckets_ok restart (Z.to_nat BUCKET_SIZE) j 0 w1 H1) as (w2 & E2 & H2 & C2); [lia|lia|].
    exists w2. split; [done|]. split; [done|]. split; [congruence|]. split; [|lia]. intros _.
    etrans; [by eapply keeps_group|by eapply keeps_buckets].
Qed.

(** Where the check of all groups has come to group [i], and after it. *)
Definition at_group w w' : Prop := exists w1 w2 g, keeps w w1 /\ idle w1 /\ cur_group_ w1 = cur_group_ w /\ get_group i w1 = Done g /\
  (if 0 <? reload_ (groupinfo_ g) then reload_step i w1 = Done w2 else keeps w1 w2) /\ keeps w2 w'.

Lemma do_check_group n : forall j w, idle w -> 0 <= j -> j + Z.of_nat n <= cur_group_ w -> 0 <= i < cur_group_ w ->
  exists w', do_check restart n j w = Done w' /\ idle w' /\ cur_group_ w' = cur_group_ w /\
    (j <= i < j + Z.of_nat n -> at_group w w') /\ (~ j <= i < j + Z.of_nat n -> keeps w w').
Proof.
  induction n as [|n IH]; intros j w Hw Hj Hn Hi; cbn [do_check].
  { exists w. do 3 (split; [done|]). split; [lia|done]. }
  destruct (get_group_ok w (proj1 Hw) j) as (g & Eg & _); [lia|]. rewrite Eg. cbn [obind].
  destruct (check_one j g w Hw) as (w1 & -> & H1 & C1 & K1 & R1); [lia|done|]. cbn [obind].
  destruct (IH (j + 1) w1 H1) as (w2 & -> & H2 & C2 & A2 & K2); [lia|lia|lia|]. exists w2. split; [done|]. split; [done|].
  split; [congruence|]. split.
  - intros Hin. destruct (decide (j = i)) as [->|Hne].
    + exists w, w1, g. do 4 (split; [done|]). split; [|apply K2; lia]. destruct (Z.ltb_spec 0 (reload_ (groupinfo_ g))); auto.
    + destruct A2 as (wa & wb & ga & F1 & F2 & F3 & F4 & F5 & F6); [lia|]. exists wa, wb, ga.
      split; [etrans; [by apply K1; left|done]|]. split; [done|]. split; [congruence|done].
  - intros Hin. etrans; [apply K1; left; lia|apply K2; lia].
Qed.

(** The stage of the group and its old processes. *)
Definition at_stage w (s t : Z) (tag : option (gset Z)) : Prop := idle w /\ 0 <= i < cur_group_ w /\ reload_tag w !! i = tag /\
  exists g, get_group i w = Done g /\ stage g = (s, t).
Lemma at_stage_keeps w w' s t tag : at_stage w s t tag -> keeps w w' -> idle w' -> cur_group_ w' = cur_group_ w -> at_stage w' s t tag.
Proof.
  intros (_ & Hi & Ht & g & Eg & Es) [Kt Kg _] Hw Hc. split; [done|]. split; [lia|]. split; [congruence|].
  destruct (Kg g Eg) as (g' & Eg' & Es'). exists g'. split; [done|congruence].
Qed.

(** What a round does: system calls take [e], the state at its start, to [e1]. *)
Definition next_stage (e1 : E) (s t : Z) (tag : option (gset Z)) (s' t' : Z) (tag' : option (gset Z)) : Prop :=
  s = PROC_RELOAD_START /\ s' = PROC_RELOAD_WAIT_NEW /\ tag' = tag /\ t' = (sys_time e1).1 \/
  s = PROC_RELOAD_WAIT_NEW /\ tag' = tag /\ (s' = PROC_RELOAD_KILLOLD \/ s' = PROC_RELOAD_WAIT_NEW /\ t' = t /\ (sys_time e1).1 <= t + 30) \/
  s = PROC_RELOAD_KILLOLD /\ tag' = tag /\ s' = PROC_RELOAD_CLEAR \/
  s = PROC_RELOAD_CLEAR /\ (s' = PROC_RELOAD_NORMAL /\ tag' = None \/
    s' = PROC_RELOAD_CLEAR /\ tag' = tag /\ exists pid, pid ∈ default ∅ tag /\ (sys_alive pid e1).1 = true) \/
  ~ PROC_RELOAD_START <= s <= PROC_RELOAD_CLEAR /\ s' = s /\ tag' = tag.

Lemma step_stage w w' s t tag : at_stage w s t tag -> 0 < s -> reload_step i w = Done w' ->
  exists s' t' tag', at_stage w' s' t' tag' /\ next_stage (env w) s t tag s' t' tag'.
Proof.
  intros (Hw & Hi & Ht & g & Eg & Es) _ Er.
  destruct (reload_step_ok i g w Hw Hi Eg) as (w2 & g2 & E2 & [I2 C2 G2 _ _ _] & Hc). rewrite Er in E2. injection E2 as <-. cbv zeta in Hc.
  unfold stage in Es. injection Es as Es1 Es2. rewrite Es1, Es2 in Hc. exists (reload_ (groupinfo_ g2)), (reload_time (groupinfo_ g2)), (reload_tag w' !! i).
  split; [split; [done|split; [lia|split; [done|by exists g2]]]|]. unfold next_stage.
  destruct Hc as [(H1 & H2 & _ & H4 & H5)|[(H1 & _ & H3 & H4)|[(H1 & H2 & _ & H4)|[(H1 & _ & H3)|(H1 & H2 & H3)]]]].
  - left. rewrite H4. done.
  - right; left. rewrite H3. split; [done|]. split; [done|]. destruct H4 as [[H4 _]|(H4 & _ & H5 & H6)]; [by left|by right].
  - do 2 right; left. rewrite H4. done.
  - do 3 right; left. split; [done|]. destruct H3 as [(H3 & H4 & _)|(H3 & H4 & pid & Hp & Hl)].
    + left. split; [done|]. rewrite H4. apply lookup_delete_eq.
    + right. rewrite H4. split; [done|]. split; [done|]. exists pid. unfold old_procs in Hp. rewrite Ht in Hp. done.
  - do 4 right. rewrite H2. done.
Qed.

Lemma round_stage r w s t tag : at_stage w s t tag -> 0 <= s -> round_ok r ->
  exists w' s' t' tag' e1, round r w = Done w' /\ at_stage w' s' t' tag' /\ env_steps r.1 e1 /\ next_stage e1 s t tag s' t' tag'.
Proof.
  intros (Hw & Hi & Ht & g & Eg & Es) Hs [Hm Hx]. unfold round. rewrite (proj2 Hw). cbn [app]. set (w0 := set_mq r.2 (set_env r.1 w)).
  assert (mon_ok w0) as Hm0 by (split; [by apply (same_table_ok w), Hw|done]).
  destruct (do_recv_all w0 Hm0) as (w1 & E1 & I1 & C1). unfold run. rewrite E1. cbn [obind]. apply (keeps_recv restart i) in E1 as K1.
  destruct (do_check_group (Z.to_nat (cur_group_ w1)) 0 w1 I1) as (w' & -> & I' & C' & A & _); [lia|pose proof (po_cur _ (proj1 I1)); lia|cbn in C1; lia|].
  destruct A as (wa & wb & ga & K2 & I2 & C2 & Ega & Hst & K3); [cbn in C1; lia|].
  assert (K0 : keeps w0 wa) by (by etrans).
  assert (Sa : at_stage wa s t tag).
  { split; [done|]. split; [cbn in C1; lia|]. split; [by rewrite (ke_tag _ _ _ K0)|].
    destruct (ke_stage _ _ _ K0 g Eg) as (g' & Eg' & Es'). exists g'. split; [done|congruence]. }
  pose proof (ke_env _ _ _ K0) as He. assert (stage ga = (s, t)) as Esa.
  { destruct Sa as (_ & _ & _ & g' & Eg' & Es'). congruence. }
  injection Esa as Er _. rewrite Er in Hst. destruct (Z.ltb_spec 0 s) as [Hp|Hp].
  - destruct (step_stage wa wb s t tag Sa Hp Hst) as (s' & t' & tag' & Sb & Hn). exists w', s', t', tag', (env wa).
    split; [done|]. split; [|done]. apply (at_stage_keeps wb); [done|done|done|].
    destruct (reload_step_ok i ga wa I2) as (w2 & g2 & E2 & [_ C3 _ _ _ _] & _); [cbn in C1; lia|done|done|].
    rewrite Hst in E2. injection E2 as <-. lia.
  - exists w', s, t, tag, (env wa). split; [done|]. split; [|split; [done|do 4 right; split; [|done]; unfold PROC_RELOAD_START; lia]].
    apply (at_stage_keeps wa); [done| |done|lia]. by etrans.
Qed.

(** The reload has come to stage [k], or it is over. *)
Definition past_stage (tag0 : option (gset Z)) (T k : Z) w : Prop := exists s t tag, at_stage w s t tag /\
  (s = PROC_RELOAD_NORMAL /\ tag = None \/ k <= s <= PROC_RELOAD_CLEAR /\ tag = tag0 /\ (s = PROC_RELOAD_WAIT_NEW -> t <= T)).

Lemma past_round tag0 T k r w : past_stage tag0 T k w -> PROC_RELOAD_WAIT_NEW <= k -> round_ok r ->
  exists w', round r w = Done w' /\ past_stage tag0 T k w' /\
    (k = PROC_RELOAD_WAIT_NEW -> (forall e, env_steps r.1 e -> T + 30 < (sys_time e).1) -> past_stage tag0 T PROC_RELOAD_KILLOLD w') /\
    (k = PROC_RELOAD_KILLOLD -> past_stage tag0 T PROC_RELOAD_CLEAR w') /\
    (k = PROC_RELOAD_CLEAR -> (forall pid e, pid ∈ default ∅ tag0 -> env_steps r.1 e -> (sys_alive pid e).1 = false) ->
       past_stage tag0 T (PROC_RELOAD_CLEAR + 1) w').
Proof.
  unfold PROC_RELOAD_WAIT_NEW, PROC_RELOAD_KILLOLD, PROC_RELOAD_CLEAR. intros (s & t & tag & Sw & Hs) Hk Hr.
  destruct (round_stage r w s t tag Sw) as (w' & s' & t' & tag' & e1 & Ew & Sw' & He & Hn); [destruct Hs as [[-> _]|[? _]]; [done|lia]|done|].
  exists w'. split; [done|]. unfold next_stage, PROC_RELOAD_START, PROC_RELOAD_WAIT_NEW, PROC_RELOAD_KILLOLD, PROC_RELOAD_CLEAR, PROC_RELOAD_NORMAL in *.
  assert (Hgo : forall k', (s' = 0 /\ tag' = None \/ k' <= s' <= 4 /\ tag' = tag0 /\ (s' = 2 -> t' <= T)) -> past_stage tag0 T k' w')
    by (intros k' Hk'; by exists s', t', tag').
  destruct Hs as [[-> ->]|(Hs & -> & HT)].
  { destruct Hn as [(H & _)|[(H & _)|[(H & _)|[(H & _)|(_ & -> & ->)]]]]; [lia..|]. split_and!; intros; apply Hgo; by left. }
  destruct Hn as [(H & _)|[(-> & -> & Hn)|[(-> & -> & ->)|[(-> & Hn)|(H & _)]]]]; [lia| | | |lia].
  - destruct Hn as [->|(-> & -> & Hle)]; split_and!; intros; try lia; apply Hgo; right; try (split; [lia|split; [done|lia]]).
    + exfalso. specialize (HT eq_refl). match goal with H : forall e, env_steps _ e -> _ |- _ => specialize (H e1 He) end. lia.
  - split_and!; intros; try lia; apply Hgo; right; split; [lia|split; [done|lia]..|lia|split; [done|lia]].
  - destruct Hn as [[-> ->]|(-> & -> & pid & Hp & Hl)]; split_and!; intros; try lia; try (apply Hgo; by left).
    1,2,3: apply Hgo; right; split; [lia|split; [done|lia]].
    match goal with Ha : forall pid e, _ -> _ -> _ |- _ => rewrite (Ha pid e1 Hp He) in Hl end. done.
Qed.
Lemma past_rounds tag0 T k rs : forall w, past_stage tag0 T k w -> PROC_RELOAD_WAIT_NEW <= k -> Forall round_ok rs ->
  exists w', rounds rs w = Done w' /\ past_stage tag0 T k w'.
Proof.
  induction rs as [|r rs IH]; intros w Hp Hk Hr; cbn [rounds]; [by exists w|]. apply Forall_cons_1 in Hr as [Hr Hrs].
  destruct (past_round tag0 T k r w Hp Hk Hr) as (w1 & -> & H1 & _). cbn [obind]. by apply IH.
Qed.
End reload.

(** C26: a hot reload completes.  From its start on the monitor makes rounds, in each
    of which it takes the reports that have come and checks every group: the first
    one [r1], some later one [r2] more than 30 seconds after it, another, and some later
    one [r4] by which the old processes are gone, with any rounds between.  Then
    the group is back to normal and the old processes are forgotten.  No process
    reports a crash twice in one round, and no other reload is started meanwhile. *)
Theorem reload_completes i g w T r1 rs2 r2 r3 rs4 r4 : reach w -> mq w = [] -> 0 <= i < cur_group_ w -> get_group i w = Done g ->
  reload_ (groupinfo_ g) = PROC_RELOAD_START ->
  Forall round_ok (r1 :: rs2 ++ r2 :: r3 :: rs4 ++ [r4]) ->
  (forall e, env_steps r1.1 e -> (sys_time e).1 <= T) ->
  (forall e, env_steps r2.1 e -> T + 30 < (sys_time e).1) ->
  (forall pid e, pid ∈ old_procs w i -> env_steps r4.1 e -> (sys_alive pid e).1 = false) ->
  exists w' g', rounds (r1 :: rs2 ++ r2 :: r3 :: rs4 ++ [r4]) w = Done w' /\ get_group i w' = Done g' /\
    reload_ (groupinfo_ g') = PROC_RELOAD_NORMAL /\ reload_tag w' !! i = None.
Proof.
  intros Hreach Hq Hi Eg H0 Hok Ht1 Ht2 Hold. pose proof (reach_mon_ok w Hreach) as (Hw & _).
  apply Forall_cons_1 in Hok as [Hr1 Hok]. apply Forall_app in Hok as [Hr2 Hok]. apply Forall_cons_1 in Hok as [Hr Hok].
  apply Forall_cons_1 in Hok as [Hr3 Hok]. apply Forall_app in Hok as [Hr4 Hok]. apply Forall_cons_1 in Hok as [Hr5 _].
  cbn [rounds]. destruct (round_stage i r1 w PROC_RELOAD_START (reload_time (groupinfo_ g)) (reload_tag w !! i)) as
    (w1 & s1 & t1 & tag1 & e1 & -> & S1 & He1 & Hn); [|done|done|].
  { split; [done|]. split; [done|]. split; [done|]. exists g. split; [done|]. unfold stage. by rewrite H0. }
  cbn [obind]. assert (P1 : past_stage i (reload_tag w !! i) T PROC_RELOAD_WAIT_NEW w1).
  { exists s1, t1, tag1. split; [done|]. right. destruct Hn as [(_ & -> & -> & ->)|[(H & _)|[(H & _)|[(H & _)|(H & _)]]]]; [|done..|by destruct H].
    split; [done|]. split; [done|]. intros _. by apply Ht1. }
  rewrite rounds_app. destruct (past_rounds i _ T PROC_RELOAD_WAIT_NEW rs2 w1 P1) as (w2 & -> & P2); [done|done|]. cbn [obind rounds].
  destruct (past_round i _ T _ r2 w2 P2) as (w3 & -> & _ & P3 & _); [done|done|]. specialize (P3 eq_refl Ht2). cbn [obind].
  destruct (past_round i _ T _ r3 w3 P3) as (w4 & -> & _ & _ & P4 & _); [done|done|]. specialize (P4 eq_refl). cbn [obind].
  rewrite rounds_app. destruct (past_rounds i _ T PROC_RELOAD_CLEAR rs4 w4 P4) as (w5 & -> & P5); [done|done|]. cbn [obind rounds].
  destruct (past_round i _ T _ r4 w5 P5) as (w6 & -> & _ & _ & _ & P6); [done|done|]. specialize (P6 eq_refl Hold). cbn [obind].
  destruct P6 as (s & t & tag & (_ & _ & Htag & g' & Eg' & Es) & [[-> ->]|[H _]]); [|lia].
  exists w6, g'. split; [done|]. split; [done|]. unfold stage in Es. by injection Es as -> _.
Qed.

(** ** Where it falls short *)

(** A second reload of a group during the first forgets the processes that the
    first one was still waiting for: a report of one of them will be taken for that
    of a new process. *)
Theorem second_reload_forgets i g info w pid : reach w -> 0 <= i < cur_group_ w -> groupid_ info = i -> info_ok info ->
  get_group i w = Done g -> check_reload_old_proc i pid w = true -> pid ∉ map pid_of (members g) ->
  exists w', pre_reload_group i info w = Done w' /\ check_reload_old_proc i pid w' = false.
Proof.
  intros Hr Hi Hid Hb Eg Hold Hnew. pose proof (reach_mon_ok w Hr) as (Hw & _).
  destruct (pre_reload_ok i info w Hw Hi Hid Hb) as (g0 & g' & w' & Eg0 & E1 & _ & _ & _ & _ & _ & _ & T1). rewrite Eg in Eg0. injection Eg0 as <-.
  exists w'. split; [done|]. unfold check_reload_old_proc. rewrite T1, lookup_insert_eq. apply bool_decide_eq_false. by rewrite elem_of_list_to_set.
Qed.

(** One group more than there is room for is let through: it is written behind the
    array. *)
Theorem add_group_overflows info (w : W) : pm_ok w -> cur_group_ w = MAX_PROC_GROUP_NUM -> groupid_ info = MAX_PROC_GROUP_NUM ->
  add_group info w = Undef.
Proof.
  intros Hw Hc Hid. unfold add_group. rewrite Hc, Hid, Z.ltb_irrefl, Z.eqb_refl. cbn [orb negb].
  unfold get_group. assert (proc_groups_ w !! Z.to_nat MAX_PROC_GROUP_NUM = None) as Hn by (apply lookup_ge_None; rewrite (po_len _ Hw); lia).
  rewrite Hn. done.
Qed.
End props.

(** ** A simulated system *)

Record sim := mkSim { clock : Z; running : gset Z; load : option (Z * Z) }.

#[export] Instance sim_sys : Sys sim := {
  sys_time e := (clock e, e);
  sys_alive pid e := (bool_decide (pid ∈ running e), e);
  sys_kill pid signo e := if signo =? SIGKILL then mkSim (clock e) (running e ∖ {[pid]}) (load e) else e;
  sys_load _ e := (load e, e)
}.

#[export] Instance sim_laws : SysLaws (sys := sim_sys).
Proof. done. Qed.

(** One group with 1 to 3 processes and a heartbeat of 60 seconds. *)
Definition sim_info (r : Z) : TGroupInfo := mkGI 0 0 SIGKILL 3 1 60 r 0.
Definition sim_start (t : Z) (l : list Z) : monsrv sim :=
  match add_group (sim_info 0) (CTProcMonSrv_new (mkSim t (list_to_set l) None)) with
  | Done (_, w) => w
  | _ => CTProcMonSrv_new (mkSim t ∅ None)
  end.

(** A report of process [pid], and one of its crash by a signal. *)
Definition report (pid t : Z) : TProcMonMsg := mkMsg pid 3 (mkPI 0 pid t 0).
Definition crash (pid signo t : Z) : TProcMonMsg := mkMsg pid (Z.lor (Z.shiftl signo EXCEPTION_STARTBIT) 3) (mkPI 0 pid t 0).

Definition done_or {A} (d : A) (m : outcome A) : A := match m with Done a => a | _ => d end.

(** The reports in [q] arrive and the monitor runs. *)
Definition sim_run (q : list TProcMonMsg) (w : monsrv sim) : monsrv sim := done_or w (run true (set_mq (mq w ++ q) w)).

Lemma sim_start_reach t l : reach (sys := sim_sys) true (sim_start t l).
Proof.
  unfold sim_start. destruct (add_group _ _) as [[r w]| |] eqn:Ea; try apply reach_new.
  eapply (reach_add true (CTProcMonSrv_new (mkSim t (list_to_set l) None))); [apply reach_new|done| |exact Ea]. done.
Qed.

Lemma reach_report w pid t : reach (sys := sim_sys) true w -> 0 < pid -> mq w = [] -> reach (sys := sim_sys) true (set_mq [report pid t] w).
Proof.
  intros Hr Hp Hq. pose proof (reach_msg true w (report pid t) Hr) as H. rewrite Hq in H. apply H.
  - unfold msg_ok, MAX_PROC_GROUP_NUM. cbn. lia.
  - intros _. cbn. constructor.
Qed.

Lemma reach_sim_run w pid t : reach (sys := sim_sys) true w -> 0 < pid -> mq w = [] -> reach (sys := sim_sys) true (sim_run [report pid t] w).
Proof.
  intros Hr Hp Hq. unfold sim_run, done_or. rewrite Hq. cbn [app]. destruct (run true _) as [w'| |] eqn:Er; [|done|done].
  by apply (reach_run true (set_mq [report pid t] w)); [apply reach_report|].
Qed.

(** Process 7 of the group reports at second 100. *)
Definition one_proc : monsrv sim := sim_run [report 7 100] (sim_start 100 [7]).

Lemma one_proc_reach : reach (sys := sim_sys) true one_proc.
Proof. apply reach_sim_run; [apply sim_start_reach|lia|by vm_compute]. Qed.

Lemma monitor_tables_exact_witness : exists g, get_group 0 one_proc = Done g /\ curprocnum_ g = 1 /\
  NoDup (map pid_of (members g)) /\ map pid_of (members g) = [7].
Proof.
  destruct (monitor_tables_exact true one_proc one_proc_reach) as [H _].
  destruct (H 0) as (g & Eg & _ & _ & Hn & _); [vm_compute; split; [discriminate|reflexivity]|].
  assert (match get_group 0 one_proc with Done g => (curprocnum_ g, map pid_of (members g)) | _ => (0, []) end = (1, [7])) as E2
    by (vm_compute; reflexivity).
  rewrite Eg in E2. injection E2 as E2 E3. exists g. auto.
Defined.

(** At second 200 the group is busy (five requests came, three were answered) and
    has room: one process is forked. *)
Definition busy_proc : monsrv sim := set_env (mkSim 200 {[7]} (Some (5, 3))) one_proc.


(** A hot reload of the group: process 7 is the old one. *)
Definition reloading : monsrv sim := done_or one_proc (pre_reload_group 0 (sim_info PROC_RELOAD_START) one_proc).

Lemma reloading_reach : reach (sys := sim_sys) true reloading.
Proof.
  unfold reloading, done_or. destruct (pre_reload_group _ _ _) as [w| |] eqn:Er; try apply one_proc_reach.
  apply (reach_reload true one_proc (sim_info PROC_RELOAD_START)); [apply one_proc_reach|by vm_compute|done|done].
Qed.

Lemma reloading_group : exists g, get_group 0 reloading = Done g /\ reload_ (groupinfo_ g) = PROC_RELOAD_START /\
  minprocnum_ (groupinfo_ g) = 1 /\ curprocnum_ g = 0.
Proof.
  assert (match get_group 0 reloading with Done g => (reload_ (groupinfo_ g), minprocnum_ (groupinfo_ g), curprocnum_ g) | _ => (0, 0, 0) end
    = (PROC_RELOAD_START, 1, 0)) as E2 by (vm_compute; reflexivity).
  destruct (get_group 0 reloading) as [g| |]; [|by vm_compute in E2..]. injection E2 as E2 E3 E4. exists g. auto.
Defined.

(** While 7 lives the reload goes on. *)
Lemma reload_ends_when_old_are_gone_witness : exists w', reload_step 0 reloading = Done w' /\ reload_tag w' !! 0 = Some {[7]}.
Proof.
  destruct reloading_group as (g & Eg & R & _).
  destruct (reload_ends_when_old_are_gone true 0 g reloading) as (w' & g' & E1 & Eg' & _ & H2 & _);
    [apply reloading_reach|by vm_compute|by vm_compute|exact Eg|rewrite R; by vm_compute|].
  exists w'. split; [exact E1|].
  assert (match reload_step 0 reloading with Done w => match get_group 0 w with Done g => reload_ (groupinfo_ g) | _ => 0 end | _ => 0 end
    = PROC_RELOAD_WAIT_NEW) as E2 by (vm_compute; reflexivity).
  rewrite E1, Eg' in E2. rewrite H2 by (rewrite E2; discriminate). vm_compute. reflexivity.
Defined.

(** System calls do not move the clock, and no process comes to life. *)
Lemma sim_steps (e e' : sim) : env_steps e e' -> clock e' = clock e /\ running e' ⊆ running e.
Proof.
  induction 1 as [|e' _ IH|e' p _ IH|e' p s _ IH|e' k _ IH]; [done|done|done| |done].
  cbn. destruct (s =? SIGKILL); [|done]. cbn. split; [apply IH|]. destruct IH. set_solver.
Qed.

(** A new process 8 reports after 31 seconds; 7 goes in the fifth round. *)
Lemma reload_completes_witness : let sys t l := mkSim t (list_to_set l) None in
  exists w', rounds true [(sys 100 [7], []); (sys 110 [7], []); (sys 131 [7; 8], [report 8 131]); (sys 132 [7; 8], []); (sys 133 [8], [])] reloading
    = Done w' /\ reload_tag w' !! 0 = None.
Proof.
  cbv zeta. destruct reloading_group as (g & Eg & R & M & N).
  destruct (reload_completes true 0 g reloading 100 (mkSim 100 (list_to_set [7]) None, []) [(mkSim 110 (list_to_set [7]) None, [])]
    (mkSim 131 (list_to_set [7; 8]) None, [report 8 131]) (mkSim 132 (list_to_set [7; 8]) None, []) [] (mkSim 133 (list_to_set [8]) None, []))
    as (w' & g' & E1 & _ & _ & H); [apply reloading_reach|by vm_compute|by vm_compute|exact Eg|exact R| | | | |].
  - repeat first [apply Forall_nil_2|apply Forall_cons_2]; (split; [|intros _; repeat constructor; set_solver]);
      repeat first [apply Forall_nil_2|apply Forall_cons_2]. by vm_compute.
  - intros e [He _]%sim_steps. cbn in *. lia.
  - intros e [He _]%sim_steps. cbn in *. lia.
  - intros pid e Hp [_ He]%sim_steps. cbn in *. apply bool_decide_eq_false. intros Hin%He.
    assert (old_procs reloading 0 = {[7]}) as Ho by (vm_compute; reflexivity). rewrite Ho in Hp. set_solver.
  - exists w'. split; [exact E1|exact H].
Defined.

(** Process 7 is gone and two reports of its crash are waiting: the first one is
    dealt with by receiving the second, which deletes the object that the first is
    still using. *)
Theorem crash_reported_twice : run true (set_mq [report 7 100; crash 7 11 100; crash 7 11 100] (sim_start 100 [])) = Undef.
Proof. vm_compute. reflexivity. Qed.

(** Reported once, it is replaced. *)
Example crash_reported_once :
  (w ⇐ run true (set_mq [report 7 100; crash 7 11 100] (sim_start 100 [])); Done (forks w, signals w)) = Done ([(0, 1)], [(7, SIGKILL)]).
Proof. vm_compute. reflexivity. Qed.
